(* ===== verification/_CoqProject ===== *)
-Q . S2P
Prelude.v
GoStrings.v
ResourceVersion.v
Json.v
Db.v
Compaction.v
Writer.v
Sql.v
Selectors.v
Reader.v
Convert.v
Object.v
Watch.v
WatchProps.v
WatcherLoop.v
Doorbell.v
Verifier.v
Uuid.v
PgClient.v
ClientList.v
RateLimit.v
Cidr.v
FieldPaths.v
AwsArn.v
FieldValidator.v
Preserve.v
AuthzModel.v
Arn.v
Template.v
Dynamo.v
AuthzStore.v
AuthzStoreProps.v
AuthzStoreTheorems.v
Authorizer.v
AuthzManagement.v
StateM.v
HttpApi.v
ManagementHandlers.v
ApiTypes.v
KubeClient.v
KubeMemory.v
ApiClient.v
Handlers.v
Claims.v
Labels.v
ClusterValidation.v
AccountObjects.v
Clusters.v
NodePools.v
SpotQueueProps.v
Server.v
Answers.v
ServerProps.v
ClusterProps.v
ApiExamples.v
Controllers.v
Footprint.v
DnsReservations.v
Goroutines.v
Desires.v
DesireStore.v
Render.v
DesireSets.v
RenderProps.v
ClusterController.v
NodePoolController.v
OidcInfra.v
OidcConfigs.v
Placements.v
Manifests.v
Silences.v
StatusStream.v
OperatorWorld.v
OperatorExamples.v
DesireExamples.v
SilenceExamples.v
Pathbind.v
PathbindProps.v
PathbindUpdate.v
CrdVariants.v
