(* ===== verification/Prelude.v ===== *)
(** * Seaplane: a verification library for rosa-seaplane-api

    The repository is a Go monorepo. [seaplane-db] stores Kubernetes-style objects in
    PostgreSQL behind the controller-runtime client and cache interfaces; [seaplane-api]
    is the REST gateway customers use; [seaplane-operator] runs the controllers that act
    on the stored objects and tell management clusters what to run, through desires in
    DynamoDB; [clientset] is the Go client with its struct mapping, and [hack] the code
    generators.

    ** How the parts interact

    An object is one row of [kubernetes_resources], keyed by group/version/kind,
    namespace and name. It carries an object version, which optimistic writers compare,
    and the id of the transaction that wrote it, which readers poll by. A writer calls
    the stored procedure [pgctl_write] in one transaction; a watcher polls the rows above
    its high-water mark and moves the mark to just below [pg_snapshot_xmin], so that no
    running transaction can be missed; deletion leaves a tombstone that compaction
    removes later, raising a horizon below which a watcher is told to list again.

    The gateway admits a request (identity, account, rate), decides it with Cedar
    policies kept in DynamoDB, validates it, and changes the stored objects by
    compare-and-set. A cluster claims the DNS reservation and the OIDC configuration it
    uses by a label on them. The operator's controllers reconcile the same objects:
    they place a cluster, allocate domains and issuers, render the resources of the
    management cluster, write them as desires, read back what the applier reports, and
    clean up before they let a finalizer go. The API, every controller and other
    sessions run concurrently on the store: a model of one of them lets the others act
    between any two of its calls, within what they guarantee.

    ** Files, in dependency order

    A definition has the name of the Go function, type or constant it translates; a part
    of a function that is a definition of its own (a branch, a loop, a WHERE clause) says
    so. Theorems follow the model in its file, or in the file named after it.

    Shared: [Prelude]: results, machine integers, the hint database [seaplane] and
    tactics; [GoStrings]: package strings and strconv; [Json]: documents, jsonb and
    [any]; [Uuid]: UUID texts; [StateM]: state-passing programs, their runs and what they
    move; [Goroutines]: goroutines that are waited for.

    seaplane-db:
    - [ResourceVersion]: internal/resourceversion/rv.go.
    - [Db]: internal/model/types.go and internal/schema/migrations/001_initial.sql, the
      tables and [pgctl_write], one definition per branch. [Compaction]:
      compaction/compactor.go. [Writer]: internal/writer/writer.go.
    - [Sql], [Selectors]: the clauses readers build, labelselector.go, fieldselector.go.
    - [Reader]: internal/reader: shards, List, one poll. [WatcherLoop]: [Run] and
      [listenLoop] of the same package.
    - [Convert], [Object]: convert.go, stored metadata and typed objects.
    - [Watch]: pgwatch.go, pgcache.go, and the server and an informer as step relations;
      [WatchProps]: the invariant and the theorems of the watch protocol.
    - [Doorbell]: internal/doorbell. [Verifier]: internal/verifier.
    - [PgClient], [ClientList]: pgclient.go, errors.go.

    seaplane-api:
    - [RateLimit]: pkg/ratelimit. [Cidr], [FieldPaths], [FieldValidator], [Preserve],
      [ClusterValidation]: pkg/validation and internal/codegen/featuregate. [AwsArn]:
      the ARN parser as an interface.
    - [AuthzModel], [Arn], [Template], [Dynamo], [AuthzStore], [AuthzStoreProps],
      [AuthzStoreTheorems], [Authorizer], [AuthzManagement]: pkg/authz. [Dynamo] is the
      interface of DynamoDB, its laws, and a backend in memory that satisfies them.
    - [HttpApi]: pkg/api and the table of error codes. [ManagementHandlers]:
      handlers/authz_management.go and its router.
    - [ApiTypes]: api/v1alpha1. [KubeClient]: the interface of the object store and its
      laws; [KubeMemory]: an instance. [ApiClient]: pkg/clients/seaplanedb.
    - [Handlers], [Labels], [AccountObjects], [Claims], [Clusters], [NodePools]:
      pkg/handlers. [Server]: pkg/server, pkg/middleware. [Answers], [ServerProps],
      [ClusterProps], [SpotQueueProps]: their theorems; [ApiExamples]: runs.

    seaplane-operator:
    - [Controllers], [Footprint]: what the controllers share, and the logic of what a
      controller may write.
    - [DnsReservations], [Placements], [ClusterController], [NodePoolController],
      [OidcInfra], [OidcConfigs], [Manifests], [Silences]: internal/controller,
      internal/oidc, internal/silence.
    - [Desires]: the interface of the desire client, statuses and the event router;
      [DesireStore]: internal/dynamo, the client that implements it; [StatusStream]:
      internal/dynamo/statusstream. [Render], [DesireSets], [RenderProps]:
      internal/render and the desires of rendered resources.
    - [OperatorWorld]: object store, DynamoDB client and router side by side, where the
      laws of the interfaces are discharged by the implementations; [OperatorExamples],
      [DesireExamples], [SilenceExamples]: runs.

    clientset and hack:
    - [Pathbind], [PathbindProps], [PathbindUpdate]: clientset/pathbind.
    - [CrdVariants]: hack/api-codegen/pkg/featuregate and pkg/validation.

    ** Interfaces

    What one part promises to another is a type class, with its laws in a second class
    where it has state: [KubeClient] (the object store; the laws say that reads see the
    stored objects, that a write replaces exactly the version it was given, that an
    answer can be lost, and that other sessions move the store by [interfere] between
    calls), [Backend] and [Tables] (DynamoDB), [DesireClient], [SilenceClient],
    [Passthrough] and [Scheme] (the Go types registered for objects). Documented
    behaviour of code outside the repository is a class of its own and each has an
    instance the witnesses run on: JSON and YAML codecs ([RecordCodec], [SpecCodec],
    [DesireCodec], [JsonText], [DecodeTexts], [MarshalResource], [HyperShift],
    [HostedReports], [PoolReports]), the generated registries ([Codegen]), Cedar
    ([CedarEngine]), ARN, URL, label and key parsers ([ArnParser], [UrlParser],
    [LabelParser], [KeyParser], [UuidCodec], [NameValidation]), the Unicode tables
    beyond ASCII ([UnicodeTables], [TagTable]), SHA digests ([Digest], [DocumentIDs]),
    apimachinery's condition and finalizer helpers ([ControllerLib]), Secrets Manager,
    DNS and TLS dials ([SecretsManager], [Dialer]), Alertmanager over HTTP
    ([AlertmanagerHTTP]), random bytes, the clock, retry on conflict ([Random],
    [Clock], [Retry]), the order in which goroutines run ([Scheduler]), and what package
    reflect leaves open ([ReflectEnv]).

    ** What the theorems show

    - Watching: a list followed by polls, under any interleaving of commits, rollbacks
      and compactions, keeps the consumer's store equal to the live rows of its kind and
      shard; the mark never passes a running transaction; after 410 a relist recovers; a
      watch resumed at the version of a delivered object can lose an update.
    - Writing: a stale writer never changes a row; [Write] refines an abstract
      specification; the two write paths agree on normalised documents when nothing
      fails in between; compaction never removes what still has finalizers; the typed
      client's updates are compare-and-set.
    - Texts and lists: shards partition the objects, selectors select what Kubernetes
      says, field paths cannot inject SQL, metadata, versions and UUIDs round-trip,
      following continue tokens ends with every row.
    - Admission and authorization: a handler runs only for a validated identity of a
      registered account; a decision is what the policies attached to the principal say,
      and the store finds them all; both records of an attachment agree; a management
      request is answered once and does exactly the authorized mutation it asks for; its
      authorization is Cedar's decision on the request of that caller, action and object
      and on exactly the policies of the grants that apply to it.
    - Handlers: a create that answers 201 went, in this order and in this run, from the
      authorized request over the references it read to the candidate the store created,
      which then holds them; an update only replaces the snapshot it was authorized on
      and keeps the fields customers must not change; two clusters never claim one
      resource, and no run of requests takes a claim away; every round of a claim of a
      Spot queue creates, refreshes or removes the reservation it read, the last only
      when it had expired by the clock of that check and its owner was seen not to use
      the queue; every request is answered once.
    - Validation: the limiter's bound; networks accepted exactly when well formed and
      disjoint; derived names fit; with the requests that get around a check.
    - Operator: a run takes a finalizer off only at the end of the deletion of the very
      object it read, the calls of the run chained from world to world: delete desires
      written, reports that confirm them read after that, specs removed, nothing listed,
      claims released ([finalizer_released], [pool_released], [manifest_released]). A
      controller writes nothing but its own objects. Base domains and issuers are
      exclusive, with other sessions held to an [env_step] that the controllers of other
      objects satisfy. A placed cluster's desires are stored where their rows were
      trusted, and the references the operator sets in its resources are to what is
      rendered with them. A placement run finds or creates the Placement of the cluster
      it read, on a management cluster it listed, and records just that one
      ([placement_run]); a placement stays with its management cluster. An issuer is
      dialled at an address that was checked against the forbidden ranges. The desire
      client refines upsert and delete of one document. [Synced] is reported exactly when
      the applier confirmed; silences converge; watchers follow the list of management
      clusters.
    - Clientset: setting a path is a lens, a consumer struct survives [Expand] and
      [Flatten], a partial update holds exactly the changes, integers of one signedness
      are never wrapped (of mixed signedness they are). Generators: a CRD variant shows
      exactly the fields its feature set enables, those of list items and map values
      included, where a field called like a keyword of schemas goes by the name of what
      it belongs to; stripping removes every CEL rule below a field and nothing else.

    ** Bounds, fuel and assumptions

    - Recursion is structural, with these exceptions. [ClientList.all_pages] has one unit
      of fuel per page: [List_pages] shows that more fuel than rows reaches the end.
      [FieldValidator.pem_loop] has the length of the bundle plus one, enough by
      [pem_loop_enough]. The scanner of Template.v, [tag_runes] and [runes_of] have the
      length of the text, of which each step takes a byte. Queries of DynamoDB follow at
      most [pages] pages: with more pages than items an error is DynamoDB's own
      ([queryItems_enough]). Retries run as often as the code allows.
    - Object versions are BIGINT values with the server's range check, watermarks uint64
      values, durations and rate-limit integers wrap at 64 bits; reflected integers have
      the width of their type, floats are IEEE doubles of [SpecFloat].
    - A transaction applies its write when it commits. REPEATABLE READ reads see one
      snapshot with its xmin; transaction ids are handed out in increasing order. The
      operator reads from PostgreSQL through its cache as through [KubeClient].
    - A put to DynamoDB that is answered with an error may have taken effect, or do so
      later, and a read that does not ask for consistency may be behind. [Tables] says so
      with two ghost views: the keys that are settled (no write of unknown outcome is
      pending) and replicated. The desire client keeps its promise for a row that is
      [trusted]: settled, replicated, and in agreement with the cache; the theorems
      [lost_put_hides_revert] and [stale_read_hides_change] show runs on other rows in
      which an upsert succeeds and leaves another desire.
    - Concurrency is at the granularity of calls to a store: goroutines that are waited
      for run in any order, other sessions act between calls. Silences of a cluster are
      not touched by others during one run.
    - JSON numbers are integer literals, rounded to float64 where Go decodes them into
      [any]; a decoded map keeps its entries in the order a range loop visits them; keys
      and names fold case as ASCII. Rows with equal txid stamps come in one fixed order.
    - The rate limiter stands in front of [Server.serve] and [serve_management].

    ** Not modelled

    Connection pools, pgmanager.go, schema migration, metrics, tracing and logging; main
    programs, flags and the registration of controllers; of the typed client the
    operations that only answer MethodNotSupported, of the object conversion
    [setListItems], of the server its listeners and shutdown: they carry no decision of
    the program. Generated code (deep copies, clients, registries, conversions) and the
    generators that print it (hack/api-codegen conversion, passthrough, openapi and
    marker scanning, clientset/cmd): their result is Go source text. The transports of
    clientset sign with the AWS SDK. *)
From stdpp Require Import base gmap strings list fin_maps sorting.
From Stdlib Require Import ZArith Lia.

(** ** Results: Go's [(value, error)] pairs

    A Go function returning [(T, error)] either yields a value or an error; no
    caller of the modelled code looks at the value of a failed call. *)
Inductive result (E A : Type) : Type :=
| Ok (a : A)
| Err (e : E).
Arguments Ok {E A} a.
Arguments Err {E A} e.

#[export] Instance result_ret {E} : MRet (result E) := fun A a => Ok a.
#[export] Instance result_bind {E} : MBind (result E) :=
  fun A B f m => match m with Ok a => f a | Err e => Err e end.
#[export] Instance result_fmap {E} : FMap (result E) :=
  fun A B f m => match m with Ok a => Ok (f a) | Err e => Err e end.

#[export] Instance result_eq_dec {E A} `{!EqDecision E, !EqDecision A} : EqDecision (result E A).
Proof. intros [a|e] [b|e']; [destruct (decide (a = b))| | |destruct (decide (e = e'))];
  (left; congruence) || (right; congruence). Defined.

Definition is_ok {E A} (r : result E A) : bool := match r with Ok _ => true | Err _ => false end.

Lemma result_bind_ok {E A B} (f : A → result E B) (m : result E A) b :
  m ≫= f = Ok b ↔ ∃ a, m = Ok a ∧ f a = Ok b.
Proof. unfold mbind, result_bind. destruct m; naive_solver. Qed.

(** ** Machine-width integers *)
Definition max_int64 : Z := 2 ^ 63 - 1.
Definition min_int64 : Z := - 2 ^ 63.
Definition max_uint64 : Z := 2 ^ 64 - 1.

Definition in_int64 (z : Z) : Prop := (min_int64 ≤ z ≤ max_int64)%Z.
Definition in_uint64 (z : Z) : Prop := (0 ≤ z ≤ max_uint64)%Z.

(** Conversion of a signed integer to [uint64]: reduction modulo [2^64]. *)
Definition to_u64 (z : Z) : Z := (z mod 2 ^ 64)%Z.

(** Wrap-around of a signed 64-bit result. *)
Definition wrap_i64 (z : Z) : Z := ((z + 2 ^ 63) mod 2 ^ 64 - 2 ^ 63)%Z.

#[export] Instance in_int64_dec z : Decision (in_int64 z).
Proof. unfold in_int64. apply _. Defined.
#[export] Instance in_uint64_dec z : Decision (in_uint64 z).
Proof. unfold in_uint64. apply _. Defined.

Lemma to_u64_id z : in_uint64 z → to_u64 z = z.
Proof. unfold in_uint64, to_u64, max_uint64. intros. apply Z.mod_small. lia. Qed.

Lemma wrap_i64_id z : in_int64 z → wrap_i64 z = z.
Proof.
  unfold in_int64, wrap_i64, min_int64, max_int64. intros.
  rewrite Z.mod_small; lia.
Qed.

(** ** Automation

    [db_simpl] splits booleans and options the way the modelled conditionals
    produce them; the hint database [seaplane] collects the lemmas that close
    the recurring side conditions. *)
Create HintDb seaplane.

Ltac split_bool :=
  repeat match goal with
  | H : (_ && _)%bool = true |- _ => apply andb_true_iff in H as [? ?]
  | H : (_ || _)%bool = false |- _ => apply orb_false_iff in H as [? ?]
  | H : negb _ = true |- _ => apply negb_true_iff in H
  | H : negb _ = false |- _ => apply negb_false_iff in H
  | H : (_ <? _)%Z = true |- _ => apply Z.ltb_lt in H
  | H : (_ <? _)%Z = false |- _ => apply Z.ltb_ge in H
  | H : (_ <=? _)%Z = true |- _ => apply Z.leb_le in H
  | H : (_ <=? _)%Z = false |- _ => apply Z.leb_gt in H
  | H : (_ =? _)%Z = true |- _ => apply Z.eqb_eq in H
  | H : (_ =? _)%Z = false |- _ => apply Z.eqb_neq in H
  | H : bool_decide _ = true |- _ => apply bool_decide_eq_true in H
  | H : bool_decide _ = false |- _ => apply bool_decide_eq_false in H
  end.

(** Case analysis on every [match]/[if] of the goal, closing the trivial cases. *)
Ltac case_goal :=
  repeat (case_match; simplify_eq/=; try done).

(** ** Lists *)
Lemma forallb_Forall {A} (f : A → bool) l : forallb f l = true ↔ Forall (fun x => f x = true) l.
Proof.
  induction l; simpl; [split; by constructor|].
  by rewrite andb_true_iff, IHl, Forall_cons.
Qed.

(** Decidable closed propositions by evaluation. *)
Ltac by_decide := apply (bool_decide_unpack _); vm_compute; exact I.

#[export] Hint Resolve to_u64_id wrap_i64_id : seaplane.
