(* ===== verification/GoStrings.v ===== *)
(** * The parts of Go's [strings] and [strconv] packages the repository uses

    Strings are byte strings. Case mapping and folding are the ASCII ones; every
    string the modelled code folds (HTTP methods, kinds, JSON keys) is ASCII. *)
From S2P Require Import Prelude.
From stdpp Require Import base strings list.
From Stdlib Require Import ZArith Lia Ascii String DecimalString DecimalN DecimalFacts.
Open Scope string_scope.
#[local] Arguments String.append : simpl nomatch.

(** ** [strings] *)

Definition HasPrefix (s prefix : string) : bool := String.prefix prefix s.

Fixpoint IndexByte (s : string) (c : ascii) : option nat :=
  match s with
  | EmptyString => None
  | String a s' => if Ascii.eqb a c then Some 0 else S <$> IndexByte s' c
  end.

(** [s[:n]] and [s[n:]] *)
Fixpoint str_take (n : nat) (s : string) : string :=
  match n, s with
  | S n', String a s' => String a (str_take n' s')
  | _, _ => EmptyString
  end.

Fixpoint str_drop (n : nat) (s : string) : string :=
  match n, s with
  | S n', String _ s' => str_drop n' s'
  | _, _ => s
  end.

(** [strings.Split(s, sep)] for a one-byte separator. *)
Fixpoint Split (s : string) (sep : ascii) : list string :=
  match s with
  | EmptyString => [""]
  | String a s' =>
      if Ascii.eqb a sep then "" :: Split s' sep
      else match Split s' sep with
           | w :: ws => String a w :: ws
           | [] => [String a ""]
           end
  end.

(** [strings.SplitN(s, sep, n)] for [n > 0] and a one-byte separator. *)
Fixpoint SplitN (s : string) (sep : ascii) (n : nat) : list string :=
  match n with
  | 0 => []
  | S n' =>
      match n', IndexByte s sep with
      | S _, Some i => str_take i s :: SplitN (str_drop (S i) s) sep n'
      | _, _ => [s]
      end
  end.

Definition TrimPrefix (s prefix : string) : string :=
  if HasPrefix s prefix then str_drop (String.length prefix) s else s.

Definition HasSuffix (s suffix : string) : bool :=
  (String.length suffix <=? String.length s)%nat &&
  String.eqb (str_drop (String.length s - String.length suffix) s) suffix.

Definition TrimSuffix (s suffix : string) : string :=
  if HasSuffix s suffix then str_take (String.length s - String.length suffix) s else s.

Fixpoint trim_left (s : string) (c : ascii) : string :=
  match s with
  | String a s' => if Ascii.eqb a c then trim_left s' c else s
  | EmptyString => ""
  end.

Fixpoint trim_right (s : string) (c : ascii) : string :=
  match s with
  | EmptyString => ""
  | String a s' =>
      match trim_right s' c with
      | EmptyString => if Ascii.eqb a c then "" else String a ""
      | t => String a t
      end
  end.

(** [strings.Trim(s, cutset)] for a one-byte cutset. *)
Definition Trim (s : string) (c : ascii) : string := trim_right (trim_left s c) c.

Definition lower_ascii (a : ascii) : ascii :=
  let n := nat_of_ascii a in
  if (65 <=? n)%nat && (n <=? 90)%nat then ascii_of_nat (n + 32) else a.

Fixpoint ToLower (s : string) : string :=
  match s with
  | EmptyString => ""
  | String a s' => String (lower_ascii a) (ToLower s')
  end.

Definition EqualFold (s t : string) : bool := String.eqb (ToLower s) (ToLower t).

Fixpoint strings_Join (l : list string) (sep : string) : string :=
  match l with
  | [] => ""
  | [w] => w
  | w :: ws => w ++ sep ++ strings_Join ws sep
  end.

(** ** [strconv] *)

Definition FormatUint (n : Z) : string := NilZero.string_of_uint (N.to_uint (Z.to_N n)).

Definition FormatInt (n : Z) : string :=
  if (n <? 0)%Z then String "-" (FormatUint (- n)) else FormatUint n.

(** [strconv.ParseUint(s, 10, 64)]; a syntax error and a range error are both [None]. *)
Definition ParseUint (s : string) : option Z :=
  match NilZero.uint_of_string s with
  | Some d =>
      let n := Z.of_N (N.of_uint d) in
      if (n <=? max_uint64)%Z then Some n else None
  | None => None
  end.

(** [strconv.ParseInt(s, 10, 64)] *)
Definition ParseInt (s : string) : option Z :=
  match s with
  | EmptyString => None
  | String a s' =>
      if Ascii.eqb a "-" then
        match ParseUint s' with
        | Some n => if (n <=? 2 ^ 63)%Z then Some (- n)%Z else None
        | None => None
        end
      else
        match ParseUint (if Ascii.eqb a "+" then s' else s) with
        | Some n => if (n <? 2 ^ 63)%Z then Some n else None
        | None => None
        end
  end.

(** ** Characters of a string *)

Fixpoint str_forall (p : ascii → bool) (s : string) : bool :=
  match s with
  | EmptyString => true
  | String a s' => p a && str_forall p s'
  end.

Definition is_digit (a : ascii) : bool :=
  let n := nat_of_ascii a in (48 <=? n)%nat && (n <=? 57)%nat.
Definition is_lower (a : ascii) : bool :=
  let n := nat_of_ascii a in (97 <=? n)%nat && (n <=? 122)%nat.
Definition is_upper (a : ascii) : bool :=
  let n := nat_of_ascii a in (65 <=? n)%nat && (n <=? 90)%nat.
Definition is_alpha (a : ascii) : bool := is_lower a || is_upper a.
Definition is_alnum (a : ascii) : bool := is_alpha a || is_digit a.

(** The character [c] does not occur in [s]. *)
Definition str_free (c : ascii) (s : string) : bool := str_forall (fun a => negb (Ascii.eqb a c)) s.

(** ** Lemmas *)

Lemma app_assoc (a b c : string) : (a ++ b) ++ c = a ++ b ++ c.
Proof. induction a; simpl; congruence. Qed.

Lemma str_app_assoc (a b c : string) : (a ++ b) ++ c = a ++ b ++ c.
Proof. induction a as [|x a IH]; simpl; [done|]. by rewrite IH. Qed.
Lemma str_length_app (a b : string) : String.length (a ++ b) = (String.length a + String.length b)%nat.
Proof. induction a; simpl; congruence. Qed.

Lemma str_app_inj_r (a b t : string) : a ++ t = b ++ t → a = b.
Proof.
  revert b. induction a as [|x a IH]; intros [|y b]; simpl; [done| | |intros [= -> ?%IH]; congruence];
    intros E; apply (f_equal String.length) in E; simpl in E; rewrite str_length_app in E; lia.
Qed.
(** A text is cut at its last separator. *)
Lemma str_split_last (c : ascii) (t1 d1 t2 d2 : string) : str_forall (fun a => negb (Ascii.eqb a c)) d1 = true → str_forall (fun a => negb (Ascii.eqb a c)) d2 = true →
  t1 ++ String c d1 = t2 ++ String c d2 → t1 = t2 ∧ d1 = d2.
Proof.
  revert t2. induction t1 as [|x t1 IH]; intros [|y t2] F1 F2 E; simpl in E.
  - by injection E.
  - injection E as <- ->. rewrite <- F1 in F2. exfalso. revert F1. clear. induction t2 as [|z t2 IH]; simpl.
    + by rewrite Ascii.eqb_refl.
    + intros [_ ?]%andb_true_iff. auto.
  - injection E as -> <-. exfalso. revert F2. clear. induction t1 as [|z t1 IH]; simpl.
    + by rewrite Ascii.eqb_refl.
    + intros [_ ?]%andb_true_iff. auto.
  - injection E as -> E. destruct (IH t2 F1 F2 E) as [-> ->]. done.
Qed.

Lemma app_empty_r (a : string) : a ++ "" = a.
Proof. induction a; simpl; congruence. Qed.

Lemma str_forall_app p a b : str_forall p (a ++ b) = str_forall p a && str_forall p b.
Proof. induction a; simpl; [done|]. rewrite IHa. by rewrite andb_assoc. Qed.

Lemma str_forall_impl (p q : ascii → bool) s :
  (∀ a, p a = true → q a = true) → str_forall p s = true → str_forall q s = true.
Proof.
  intros Hpq. induction s; simpl; [done|].
  intros [? ?]%andb_true_iff. rewrite Hpq by done. auto.
Qed.

Lemma HasPrefix_empty s : HasPrefix s "" = true.
Proof. by destruct s. Qed.

Lemma HasPrefix_cons a s t : HasPrefix (String a s) (String a t) = HasPrefix s t.
Proof. unfold HasPrefix. cbn. by destruct (ascii_dec a a). Qed.

Lemma HasPrefix_app s t : HasPrefix (s ++ t) s = true.
Proof. induction s; [apply HasPrefix_empty|]. cbn [String.append]. by rewrite HasPrefix_cons. Qed.

Lemma IndexByte_app_free s c t :
  str_free c s = true → IndexByte (s ++ String c t) c = Some (String.length s).
Proof.
  unfold str_free. induction s; simpl; intros H.
  - by rewrite Ascii.eqb_refl.
  - apply andb_true_iff in H as [Ha Hs]. apply negb_true_iff in Ha. rewrite Ha.
    by rewrite IHs.
Qed.

Lemma IndexByte_free s c : str_free c s = true → IndexByte s c = None.
Proof.
  unfold str_free. induction s; simpl; intros H; [done|].
  apply andb_true_iff in H as [Ha Hs]. apply negb_true_iff in Ha. rewrite Ha.
  by rewrite IHs.
Qed.

Lemma str_take_app s t : str_take (String.length s) (s ++ t) = s.
Proof. induction s; simpl; [by destruct t|congruence]. Qed.

Lemma str_drop_app s t : str_drop (String.length s) (s ++ t) = t.
Proof. induction s; simpl; [by destruct t|done]. Qed.

Lemma str_drop_app_S s a t : str_drop (S (String.length s)) (s ++ String a t) = t.
Proof. induction s; simpl in *; [by destruct t|done]. Qed.

Lemma Split_nonempty s c : Split s c ≠ [].
Proof. destruct s; simpl; [done|]. destruct (Ascii.eqb _ _); [done|]. by destruct (Split s c). Qed.

Lemma Split_free s c : str_free c s = true → Split s c = [s].
Proof.
  unfold str_free. induction s; simpl; intros H; [done|].
  apply andb_true_iff in H as [Ha Hs]. apply negb_true_iff in Ha. rewrite Ha.
  by rewrite IHs.
Qed.

Lemma Split_app s c t :
  str_free c s = true → Split (s ++ String c t) c = s :: Split t c.
Proof.
  unfold str_free. induction s; simpl; intros H.
  - by rewrite Ascii.eqb_refl.
  - apply andb_true_iff in H as [Ha Hs]. apply negb_true_iff in Ha. rewrite Ha.
    by rewrite IHs.
Qed.

(** Every piece of a split is free of the separator. *)
Lemma Split_pieces_free s c : Forall (fun w => str_free c w = true) (Split s c).
Proof.
  induction s as [|a s IH]; simpl; [by repeat constructor|].
  destruct (Ascii.eqb a c) eqn:Ha; [by constructor|].
  destruct (Split s c) as [|w ws] eqn:Hs.
  - constructor; [|done]. unfold str_free. simpl. by rewrite Ha.
  - apply Forall_cons in IH as [Hw Hws]. constructor; [|done].
    unfold str_free in *. simpl. by rewrite Ha.
Qed.

Lemma Join_Split s c : strings_Join (Split s c) (String c "") = s.
Proof.
  induction s as [|a s IH]; [done|]. cbn [Split].
  destruct (Ascii.eqb a c) eqn:Ha.
  - apply Ascii.eqb_eq in Ha as ->. pose proof (Split_nonempty s c).
    destruct (Split s c) as [|w ws]; [done|].
    change (strings_Join ("" :: w :: ws) (String c "")) with (String c (strings_Join (w :: ws) (String c ""))).
    by rewrite IH.
  - pose proof (Split_nonempty s c).
    destruct (Split s c) as [|w ws] eqn:Hs; [done|].
    destruct ws as [|w' ws]; simpl in *; by rewrite IH.
Qed.

(** Decimal printing and parsing. *)
Lemma FormatUint_nonempty n : FormatUint n ≠ "".
Proof.
  unfold FormatUint, NilZero.string_of_uint.
  destruct (N.to_uint (Z.to_N n)) eqn:E; simpl; done.
Qed.

Lemma NilEmpty_string_digits d : str_forall is_digit (NilEmpty.string_of_uint d) = true.
Proof. induction d; simpl; done. Qed.

Lemma FormatUint_digits n : str_forall is_digit (FormatUint n) = true.
Proof.
  unfold FormatUint, NilZero.string_of_uint.
  destruct (N.to_uint (Z.to_N n)) eqn:E; try done; apply NilEmpty_string_digits.
Qed.

Lemma N_to_uint_not_nil n : N.to_uint n ≠ Decimal.Nil.
Proof.
  intros H. pose proof (Unsigned.of_to n) as E.
  destruct n; [done|]. rewrite H in E. by simpl in E.
Qed.

Lemma ParseUint_FormatUint n : in_uint64 n → ParseUint (FormatUint n) = Some n.
Proof.
  intros [H0 H1]. unfold ParseUint, FormatUint.
  rewrite NilZero.usu by apply N_to_uint_not_nil.
  rewrite Unsigned.of_to, Z2N.id by lia.
  by rewrite (proj2 (Z.leb_le _ _)) by lia.
Qed.

Lemma digits_head_not a s c :
  is_digit c = false → str_forall is_digit (String a s) = true → Ascii.eqb a c = false.
Proof.
  intros Hc H. simpl in H. apply andb_true_iff in H as [Ha _].
  destruct (Ascii.eqb_spec a c); [congruence|done].
Qed.

Lemma digits_free c s : is_digit c = false → str_forall is_digit s = true → str_free c s = true.
Proof.
  intros Hc. apply str_forall_impl. intros a Ha.
  destruct (Ascii.eqb_spec a c); [congruence|done].
Qed.

Lemma ParseInt_FormatUint n : (0 ≤ n ≤ max_int64)%Z → ParseInt (FormatUint n) = Some n.
Proof.
  intros Hn. pose proof (FormatUint_digits n) as Hd. pose proof (FormatUint_nonempty n) as Hne.
  pose proof (ParseUint_FormatUint n) as Hp. unfold ParseInt.
  destruct (FormatUint n) as [|a s]; [done|].
  rewrite !(digits_head_not a s) by done.
  unfold max_int64, in_uint64, max_uint64 in *. rewrite Hp by lia.
  by rewrite (proj2 (Z.ltb_lt _ _)) by lia.
Qed.

Lemma ParseInt_FormatInt n : in_int64 n → ParseInt (FormatInt n) = Some n.
Proof.
  unfold in_int64, min_int64, max_int64. intros Hn. unfold FormatInt.
  destruct (Z.ltb_spec n 0) as [Hneg|Hpos].
  - cbn [ParseInt]. rewrite Ascii.eqb_refl.
    rewrite ParseUint_FormatUint by (unfold in_uint64, max_uint64; lia).
    rewrite (proj2 (Z.leb_le _ _)) by lia. f_equal. lia.
  - apply ParseInt_FormatUint. unfold max_int64. lia.
Qed.

(** What parses fits its machine type. *)
Lemma ParseUint_range s n : ParseUint s = Some n → in_uint64 n.
Proof.
  unfold ParseUint, in_uint64. intros H. repeat case_match; simplify_eq. split_bool. lia.
Qed.

Lemma ParseInt_range s n : ParseInt s = Some n → in_int64 n.
Proof.
  unfold ParseInt, in_int64, min_int64, max_int64. intros H.
  repeat case_match; simplify_eq; split_bool;
    repeat match goal with E : ParseUint _ = Some _ |- _ => apply ParseUint_range in E end;
    unfold in_uint64 in *; lia.
Qed.

(** Nothing that starts with a letter is a number. *)
Lemma ParseInt_letter a s : is_alpha a = true → ParseInt (String a s) = None.
Proof.
  intros Ha. cbn [ParseInt].
  assert (Hne : ∀ c, is_alpha c = false → Ascii.eqb a c = false).
  { intros c Hc. destruct (Ascii.eqb_spec a c); [congruence|done]. }
  rewrite !Hne by done. unfold ParseUint.
  enough (NilZero.uint_of_string (String a s) = None) as -> by done.
  unfold NilZero.uint_of_string. cbn [NilEmpty.uint_of_string].
  destruct (NilEmpty.uint_of_string s); [|done].
  destruct a as [[] [] [] [] [] [] [] []]; by vm_compute in Ha.
Qed.

(** ** ASCII texts *)

Definition ascii_text (s : string) : bool := str_forall (fun a => Nat.ltb (nat_of_ascii a) 128) s.

Lemma ascii_app a b : ascii_text (a ++ b) = ascii_text a && ascii_text b.
Proof. apply str_forall_app. Qed.

Lemma byte_forall (P : ascii → bool) : forallb P (List.map ascii_of_nat (seq 0 256)) = true → ∀ a, P a = true.
Proof.
  intros H a. rewrite forallb_Forall, Forall_forall in H. apply H.
  rewrite <- (ascii_nat_embedding a). apply list_elem_of_In, in_map, in_seq. pose proof (nat_ascii_bounded a). lia.
Qed.

Lemma class_ascii (p : ascii → bool) s :
  forallb (fun a => implb (p a) (Nat.ltb (nat_of_ascii a) 128)) (List.map ascii_of_nat (seq 0 256)) = true →
  str_forall p s = true → ascii_text s = true.
Proof.
  intros Hc. apply str_forall_impl. intros a Ha. pose proof (byte_forall _ Hc a) as H. simpl in H. rewrite Ha in H. exact H.
Qed.
