(* ===== verification/ResourceVersion.v ===== *)
(** * Resource versions (seaplane-db/internal/resourceversion/rv.go)

    The opaque [resourceVersion] strings of the store: a collection-level version
    is the decimal watermark, an object-level version carries the object's own
    version in front of it, ["o5;12345678"]. *)
From S2P Require Import Prelude GoStrings.
From stdpp Require Import base strings list.
From Stdlib Require Import ZArith Lia Ascii String.
Open Scope string_scope.
#[local] Arguments String.append : simpl nomatch.

Module RV.

Record RV := mkRV {
  ObjectVersion : Z; (* int64 *)
  Watermark : Z      (* uint64 *)
}.

#[export] Instance RV_eq_dec : EqDecision RV.
Proof. solve_decision. Defined.

(** The five error returns of [Parse]. *)
Inductive parse_error :=
| ObjectVersionWithoutWatermark
| BadObjectVersion
| EmptyWatermark
| OldBucketFormat
| BadWatermark.

#[export] Instance parse_error_eq_dec : EqDecision parse_error.
Proof. solve_decision. Defined.

Definition zero : RV := mkRV 0 0.

Definition to_string (rv : RV) : string :=
  if (0 <? ObjectVersion rv)%Z
  then "o" ++ FormatInt (ObjectVersion rv) ++ ";" ++ FormatUint (Watermark rv)
  else FormatUint (Watermark rv).

(** The watermark part, shared by both forms: lines 46-57 of [Parse]. *)
Definition parse_watermark (ov : Z) (s : string) : result parse_error RV :=
  if HasPrefix s "b" then Err OldBucketFormat
  else match ParseUint s with
       | Some wm => Ok (mkRV ov wm)
       | None => Err BadWatermark
       end.

Definition Parse (s : string) : result parse_error RV :=
  if String.eqb s "" then Ok zero
  else if HasPrefix s "o" then
    match IndexByte s ";" with
    | None => Err ObjectVersionWithoutWatermark
    | Some semiIdx =>
        match ParseInt (str_drop 1 (str_take semiIdx s)) with
        | None => Err BadObjectVersion
        | Some ov =>
            let s' := str_drop (S semiIdx) s in
            if String.eqb s' "" then Err EmptyWatermark else parse_watermark ov s'
        end
    end
  else parse_watermark 0 s.

(** The versions the store hands out: object versions are non-negative int64
    values and watermarks are uint64 values. *)
Definition valid (rv : RV) : Prop :=
  (0 ≤ ObjectVersion rv ≤ max_int64)%Z ∧ in_uint64 (Watermark rv).

#[export] Instance valid_dec rv : Decision (valid rv).
Proof. unfold valid. apply _. Defined.

(** ** Lemmas *)

Lemma FormatUint_no_prefix wm c t :
  is_digit c = false → HasPrefix (FormatUint wm) (String c t) = false.
Proof.
  intros Hc. unfold HasPrefix. pose proof (FormatUint_digits wm) as Hd.
  destruct (FormatUint wm) as [|a s]; [done|].
  pose proof (digits_head_not a s c Hc Hd) as Ha. cbn.
  destruct (ascii_dec c a); [subst; by rewrite Ascii.eqb_refl in Ha|done].
Qed.

Lemma parse_watermark_format ov wm :
  in_uint64 wm → parse_watermark ov (FormatUint wm) = Ok (mkRV ov wm).
Proof.
  intros Hwm. unfold parse_watermark.
  by rewrite FormatUint_no_prefix, ParseUint_FormatUint by done.
Qed.

Lemma FormatUint_eqb_empty wm : String.eqb (FormatUint wm) "" = false.
Proof. apply String.eqb_neq, FormatUint_nonempty. Qed.

(** [Parse] on the object-level form, for a version part without [';']. *)
Lemma Parse_object u w :
  str_free ";" u = true →
  Parse (String "o" u ++ String ";" w) =
    match ParseInt u with
    | None => Err BadObjectVersion
    | Some ov => if String.eqb w "" then Err EmptyWatermark else parse_watermark ov w
    end.
Proof.
  intros Hu. set (full := String "o" u ++ String ";" w).
  assert (Hi : IndexByte full ";" = Some (String.length (String "o" u)))
    by (by apply IndexByte_app_free).
  assert (He : String.eqb full "" = false) by reflexivity.
  assert (Hp : HasPrefix full "o" = true) by exact (HasPrefix_app "o" _).
  unfold Parse. rewrite He, Hp, Hi. unfold full.
  rewrite str_take_app, str_drop_app_S. cbn [str_drop]. by destruct u.
Qed.

Lemma Parse_to_string_valid (rv : RV) : valid rv → Parse (to_string rv) = Ok rv.
Proof.
  destruct rv as [ov wm]. unfold valid; simpl. intros [Hov Hwm].
  unfold to_string; simpl. destruct (Z.ltb_spec 0 ov) as [Hpos|Hz].
  - unfold FormatInt. rewrite (proj2 (Z.ltb_ge ov 0)) by lia.
    etransitivity.
    { apply (Parse_object (FormatUint ov) (FormatUint wm)).
      apply digits_free; [done|apply FormatUint_digits]. }
    rewrite ParseInt_FormatUint, FormatUint_eqb_empty by lia.
    by apply parse_watermark_format.
  - unfold Parse. rewrite FormatUint_eqb_empty, FormatUint_no_prefix by done.
    replace ov with 0%Z by lia. by apply parse_watermark_format.
Qed.

(** printing a resource version and parsing it back is the identity on every
    version the store hands out, for collection-level and object-level ones; so two
    such versions with the same text are the same version. *)
Theorem Parse_to_string (rv : RV) :
  valid rv →
  Parse (to_string rv) = Ok rv ∧ (∀ rv', valid rv' → to_string rv' = to_string rv → rv' = rv).
Proof.
  intros Hv. split; [by apply Parse_to_string_valid|]. intros rv' Hv' E.
  apply Parse_to_string_valid in Hv, Hv'. congruence.
Qed.

Lemma Parse_to_string_witness :
  valid (mkRV 5 12345678) ∧ Parse "o5;12345678" = Ok (mkRV 5 12345678).
Proof.
  assert (H : valid (mkRV 5 12345678)) by by_decide.
  split; [exact H|exact (proj1 (Parse_to_string (mkRV 5 12345678) H))].
Defined.

(** whatever string [Parse] accepts, the version it yields fits its machine
    types: the object version is an int64 and the watermark a uint64. *)
Theorem Parse_range (s : string) (rv : RV) :
  Parse s = Ok rv → in_int64 (ObjectVersion rv) ∧ in_uint64 (Watermark rv).
Proof.
  unfold Parse, parse_watermark. intros H.
  repeat case_match; simplify_eq/=;
    repeat match goal with
    | E : ParseUint _ = Some _ |- _ => apply ParseUint_range in E
    | E : ParseInt _ = Some _ |- _ => apply ParseInt_range in E
    end; split; try done; by_decide.
Qed.

Lemma Parse_range_witness :
  Parse "o-5;7" = Ok (mkRV (-5) 7) ∧ in_int64 (-5) ∧ in_uint64 7.
Proof.
  split; [reflexivity|]. exact (Parse_range "o-5;7" (mkRV (-5) 7) eq_refl).
Defined.

End RV.
