(* ===== verification/Json.v ===== *)
(** * JSON documents, PostgreSQL's [jsonb] and Go's [encoding/json] view of them

    A document is a tree whose numbers are integer literals. [canon] is the
    normal form PostgreSQL stores for a [jsonb] value: one entry per key, the
    last one of the text, in key order. [go_any] is what [json.Unmarshal] into
    an [any] keeps of a document: the same normal form, with every number
    rounded to the nearest float64. *)
From S2P Require Import Prelude GoStrings.
From stdpp Require Import base strings list.
From Stdlib Require Import ZArith Lia Ascii String OrdersEx Sorted.
Open Scope string_scope.
Set Warnings "-register-all".

Inductive json :=
| JNull
| JBool (b : bool)
| JNum (z : Z)
| JStr (s : string)
| JArr (l : list json)
| JObj (l : list (string * json)).

(** Induction over documents with hypotheses for the elements of arrays and objects. *)
Section json_induction.
Context (P : json → Prop).
Context (Hnull : P JNull) (Hbool : ∀ b, P (JBool b)) (Hnum : ∀ z, P (JNum z)).
Context (Hstr : ∀ s, P (JStr s)).
Context (Harr : ∀ l, Forall P l → P (JArr l)).
Context (Hobj : ∀ l, Forall (fun kv => P kv.2) l → P (JObj l)).

Fixpoint json_ind' (j : json) : P j :=
  match j with
  | JNull => Hnull
  | JBool b => Hbool b
  | JNum z => Hnum z
  | JStr s => Hstr s
  | JArr l =>
      Harr l ((fix go (l : list json) : Forall P l :=
        match l with [] => Forall_nil_2 _ | x :: l' => Forall_cons_2 _ _ _ (json_ind' x) (go l') end) l)
  | JObj l =>
      Hobj l ((fix go (l : list (string * json)) : Forall (fun kv => P kv.2) l :=
        match l with
        | [] => Forall_nil_2 _
        | (k, x) :: l' => Forall_cons_2 (fun kv : string * json => P kv.2) (k, x) l' (json_ind' x) (go l')
        end) l)
  end.
End json_induction.

Fixpoint json_eqb (a b : json) : bool :=
  match a, b with
  | JNull, JNull => true
  | JBool x, JBool y => Bool.eqb x y
  | JNum x, JNum y => (x =? y)%Z
  | JStr x, JStr y => String.eqb x y
  | JArr l, JArr m =>
      (fix go (l m : list json) : bool :=
         match l, m with
         | [], [] => true
         | x :: l', y :: m' => json_eqb x y && go l' m'
         | _, _ => false
         end) l m
  | JObj l, JObj m =>
      (fix go (l m : list (string * json)) : bool :=
         match l, m with
         | [], [] => true
         | (k, x) :: l', (k', y) :: m' => String.eqb k k' && json_eqb x y && go l' m'
         | _, _ => false
         end) l m
  | _, _ => false
  end.

Lemma json_eqb_eq a b : json_eqb a b = true ↔ a = b.
Proof.
  revert b. induction a using json_ind'; intros b'; destruct b';
    cbn [json_eqb]; try (split; intros; congruence).
  - rewrite Bool.eqb_true_iff. split; congruence.
  - rewrite Z.eqb_eq. split; congruence.
  - rewrite String.eqb_eq. split; congruence.
  - rename l0 into m. revert m. induction H as [|x l Hx Hl IH]; intros [|y m]; try (split; congruence).
    rewrite andb_true_iff, Hx, IH. split; [intros [-> [= ->]]|intros [= -> ->]]; done.
  - rename l0 into m. revert m.
    induction H as [|[k x] l Hx Hl IH]; intros [|[k' y] m]; try (split; congruence).
    rewrite !andb_true_iff, (Hx y), String.eqb_eq, IH.
    split; [intros [[-> E] [= ->]]|intros [= -> -> ->]]; simpl in *; by subst.
Qed.

#[export] Instance json_eq_dec : EqDecision json.
Proof.
  intros a b. destruct (json_eqb a b) eqn:E.
  - left. by apply json_eqb_eq.
  - right. intros H. apply json_eqb_eq in H. congruence.
Defined.

Lemma json_eqb_refl a : json_eqb a a = true.
Proof. by apply json_eqb_eq. Qed.

(** ** Normal forms *)

(** Insertion into a key-sorted entry list; an existing entry is overwritten. *)
Fixpoint obj_insert {A} (k : string) (v : A) (l : list (string * A)) : list (string * A) :=
  match l with
  | [] => [(k, v)]
  | (k', v') :: l' =>
      match String_as_OT.compare k k' with
      | Eq => (k, v) :: l'
      | Lt => (k, v) :: l
      | Gt => (k', v') :: obj_insert k v l'
      end
  end.

Definition obj_normalize {A} (l : list (string * A)) : list (string * A) :=
  fold_left (fun acc kv => obj_insert kv.1 kv.2 acc) l [].

Fixpoint canon (j : json) : json :=
  match j with
  | JArr l => JArr (map canon l)
  | JObj l => JObj (obj_normalize (map (fun kv => (kv.1, canon kv.2)) l))
  | _ => j
  end.

(** ** Numbers as float64

    An integer literal decodes to the nearest float64, ties to the even
    significand; below [2^53] in absolute value the conversion is exact. *)
Definition round_half_even (m e : Z) : Z :=
  let q := (m / 2 ^ e)%Z in
  let r := (m mod 2 ^ e)%Z in
  let half := (2 ^ (e - 1))%Z in
  if (r <? half)%Z then q
  else if (half <? r)%Z then q + 1
  else if Z.even q then q else q + 1.

Definition float64_of_Z (z : Z) : Z :=
  let m := Z.abs z in
  if (m <? 2 ^ 53)%Z then z
  else
    let e := (Z.log2 m - 52)%Z in
    (Z.sgn z * (round_half_even m e * 2 ^ e))%Z.

(** [json.Unmarshal] reports a number whose float64 would be infinite as an error. *)
Definition float64_fits (z : Z) : bool := (Z.abs z <? 2 ^ 1024 - 2 ^ 970)%Z.

Fixpoint go_numbers (j : json) : json :=
  match j with
  | JNum z => JNum (float64_of_Z z)
  | JArr l => JArr (map go_numbers l)
  | JObj l => JObj (map (fun kv => (kv.1, go_numbers kv.2)) l)
  | _ => j
  end.

Fixpoint go_fits (j : json) : bool :=
  match j with
  | JNum z => float64_fits z
  | JArr l => forallb go_fits l
  | JObj l => forallb (fun kv => go_fits kv.2) l
  | _ => true
  end.

(** [json.Unmarshal] of a document into an [any]. *)
Definition go_any (j : json) : option json :=
  if go_fits j then Some (go_numbers (canon j)) else None.

(** Every number of the document is exactly representable. *)
Definition num_exact (z : Z) : bool := (Z.abs z <? 2 ^ 53)%Z.

Fixpoint numbers_exact (j : json) : bool :=
  match j with
  | JNum z => num_exact z
  | JArr l => forallb numbers_exact l
  | JObj l => forallb (fun kv => numbers_exact kv.2) l
  | _ => true
  end.

Lemma float64_of_Z_exact z : num_exact z = true → float64_of_Z z = z.
Proof. unfold num_exact, float64_of_Z. by intros ->. Qed.

Lemma num_exact_fits z : num_exact z = true → float64_fits z = true.
Proof.
  unfold num_exact, float64_fits. rewrite !Z.ltb_lt.
  assert (2 ^ 53 < 2 ^ 1024 - 2 ^ 970)%Z by reflexivity. lia.
Qed.

Lemma go_numbers_exact j : numbers_exact j = true → go_numbers j = j.
Proof.
  induction j using json_ind'; simpl; intros Hn; try done.
  - by rewrite float64_of_Z_exact.
  - f_equal. induction H; simpl in *; [done|]. split_bool. f_equal; auto.
  - f_equal. induction H as [|[k x] l]; simpl in *; [done|]. split_bool. f_equal; [f_equal|]; auto.
Qed.

Lemma go_fits_exact j : numbers_exact j = true → go_fits j = true.
Proof.
  induction j using json_ind'; simpl; intros Hn; try done.
  - by apply num_exact_fits.
  - induction H; simpl in *; [done|]. split_bool. apply andb_true_iff; auto.
  - induction H as [|[k x] l]; simpl in *; [done|]. split_bool. apply andb_true_iff; auto.
Qed.

(** Normalisation keeps the numbers exact. *)
Lemma obj_insert_forall {A} (P : string * A → Prop) k v l :
  P (k, v) → Forall P l → Forall P (obj_insert k v l).
Proof.
  intros Hkv. induction 1 as [|[k' v'] l Hk Hl IH]; simpl; [by constructor|].
  destruct (String_as_OT.compare k k').
  - by apply Forall_cons.
  - apply Forall_cons; split; [done|]. by apply Forall_cons.
  - by apply Forall_cons.
Qed.

Lemma obj_normalize_forall {A} (P : string * A → Prop) l :
  Forall P l → Forall P (obj_normalize l).
Proof.
  unfold obj_normalize. intros Hl. assert (Hacc : Forall P []) by constructor. revert Hacc.
  generalize (@nil (string * A)). induction Hl as [|[k v] l Hx Hl IH]; simpl; [done|].
  intros acc Hacc. apply IH. by apply obj_insert_forall.
Qed.

Lemma canon_numbers_exact j : numbers_exact j = true → numbers_exact (canon j) = true.
Proof.
  induction j using json_ind'; simpl; intros Hn; try done.
  - induction H; simpl in *; [done|]. split_bool. apply andb_true_iff; auto.
  - apply forallb_Forall, obj_normalize_forall, Forall_map.
    apply forallb_Forall in Hn. rewrite Forall_forall in *.
    intros x Hin. by apply H, Hn.
Qed.

(** ** Normal forms are stable *)

Definition entry_lt {A} (a b : string * A) : Prop := String_as_OT.lt a.1 b.1.

Lemma obj_insert_hd {A} (a : string * A) k v l :
  entry_lt a (k, v) → Forall (entry_lt a) l → Forall (entry_lt a) (obj_insert k v l).
Proof. intros ? ?. by apply obj_insert_forall. Qed.

Lemma obj_insert_sorted {A} k (v : A) l :
  StronglySorted entry_lt l → StronglySorted entry_lt (obj_insert k v l).
Proof.
  induction 1 as [|[k' v'] l Hs IH Hf]; simpl; [by repeat constructor|].
  destruct (String_as_OT.compare_spec k k') as [->|Hlt|Hgt].
  - by constructor.
  - constructor; [by constructor|]. constructor; [done|].
    eapply Forall_impl; [exact Hf|]. intros [k2 v2]. unfold entry_lt; simpl.
    intros ?. by transitivity k'.
  - constructor; [done|]. by apply obj_insert_hd.
Qed.

Lemma obj_normalize_sorted {A} (l : list (string * A)) : StronglySorted entry_lt (obj_normalize l).
Proof.
  unfold obj_normalize. assert (Hacc : StronglySorted entry_lt (@nil (string * A))) by constructor.
  revert Hacc. generalize (@nil (string * A)).
  induction l as [|[k v] l IH]; simpl; [done|]. intros acc Hacc. by apply IH, obj_insert_sorted.
Qed.

Lemma obj_insert_last {A} k (v : A) l :
  Forall (fun a => entry_lt a (k, v)) l → obj_insert k v l = (l ++ [(k, v)])%list.
Proof.
  induction 1 as [|[k' v'] l Hk Hl IH]; simpl; [done|]. change (String_as_OT.lt k' k) in Hk.
  destruct (String_as_OT.compare_spec k k') as [E|Hlt|Hgt].
  - exfalso. unfold String_as_OT.eq in E. subst k'. exact (irreflexivity String_as_OT.lt _ Hk).
  - exfalso. apply (irreflexivity String_as_OT.lt k). by transitivity k'.
  - by rewrite IH.
Qed.

Lemma obj_normalize_id {A} (l : list (string * A)) :
  StronglySorted entry_lt l → obj_normalize l = l.
Proof.
  unfold obj_normalize. intros Hl.
  enough (∀ acc, Forall (fun a => Forall (entry_lt a) l) acc →
    fold_left (fun acc kv => obj_insert kv.1 kv.2 acc) l acc = (acc ++ l)%list) as ->; [done|done|].
  induction Hl as [|[k v] l Hs IH Hf]; intros acc Hacc; simpl; [by rewrite app_nil_r|].
  rewrite obj_insert_last by (eapply Forall_impl; [done|]; intros a Ha; by inversion Ha).
  rewrite IH; [by rewrite <- (assoc_L (++)%list)|].
  apply Forall_app. split; [|by constructor].
  eapply Forall_impl; [done|]. intros a Ha. by inversion Ha.
Qed.

Lemma canon_idem j : canon (canon j) = canon j.
Proof.
  induction j using json_ind'; simpl; try done; f_equal.
  - rewrite map_map. induction H; simpl; congruence.
  - assert (Hid : map (fun kv : string * json => (kv.1, canon kv.2))
        (obj_normalize (map (fun kv => (kv.1, canon kv.2)) l))
      = obj_normalize (map (fun kv => (kv.1, canon kv.2)) l)).
    { rewrite <- (map_id (obj_normalize _)) at 2. apply map_ext_in. intros [k x] Hin%list_elem_of_In.
      assert (Hc : Forall (fun kv => canon kv.2 = kv.2)
        (obj_normalize (map (fun kv => (kv.1, canon kv.2)) l))).
      { apply obj_normalize_forall, Forall_map. by rewrite Forall_forall in *. }
      rewrite Forall_forall in Hc. simpl. f_equal. exact (Hc _ Hin). }
    rewrite Hid. apply obj_normalize_id, obj_normalize_sorted.
Qed.

(** ** SQL's three-valued logic *)

Definition sql3 := option bool.

Definition sql_and (a b : sql3) : sql3 :=
  match a, b with
  | Some false, _ | _, Some false => Some false
  | Some true, Some true => Some true
  | _, _ => None
  end.

Definition sql_or (a b : sql3) : sql3 :=
  match a, b with
  | Some true, _ | _, Some true => Some true
  | Some false, Some false => Some false
  | _, _ => None
  end.

Definition sql_not (a : sql3) : sql3 := negb <$> a.

(** [a = b] on nullable values *)
Definition sql_eq {A} (eqb : A → A → bool) (a b : option A) : sql3 :=
  match a, b with
  | Some x, Some y => Some (eqb x y)
  | _, _ => None
  end.

(** [a IS NOT DISTINCT FROM b] *)
Definition sql_not_distinct {A} (eqb : A → A → bool) (a b : option A) : sql3 :=
  match a, b with
  | Some x, Some y => Some (eqb x y)
  | None, None => Some true
  | _, _ => Some false
  end.

Definition sql_is_null {A} (a : option A) : sql3 := Some (match a with None => true | _ => false end).

Definition sql_is_not_null {A} (a : option A) : sql3 := sql_not (sql_is_null a).

(** A row passes a [WHERE] (a branch of [IF] is taken) only on TRUE. *)
Definition sql_holds (a : sql3) : bool := match a with Some true => true | _ => false end.

Definition sql_coalesce {A} (a : option A) (d : A) : A := match a with Some x => x | None => d end.

Lemma sql_holds_and a b : sql_holds (sql_and a b) = sql_holds a && sql_holds b.
Proof. by destruct a as [[]|], b as [[]|]. Qed.

Lemma sql_holds_or a b : sql_holds (sql_or a b) = sql_holds a || sql_holds b.
Proof. by destruct a as [[]|], b as [[]|]. Qed.

#[export] Hint Rewrite sql_holds_and sql_holds_or : seaplane.

(** ** [jsonb] operators *)

Fixpoint obj_lookup {A} (k : string) (l : list (string * A)) : option A :=
  match l with
  | [] => None
  | (k', v) :: l' => if String.eqb k k' then Some v else obj_lookup k l'
  end.

(** [doc -> 'key'] *)
Definition jsonb_get (j : json) (k : string) : option json :=
  match j with
  | JObj l => obj_lookup k l
  | _ => None
  end.

Definition jsonb_eq (a b : option json) : sql3 := sql_eq json_eqb a b.

(** ** Evaluation *)

Example canon_dup :
  canon (JObj [("b", JNum 1); ("a", JNull); ("b", JNum 2)]) = JObj [("a", JNull); ("b", JNum 2)].
Proof. reflexivity. Qed.

Example float64_rounds : float64_of_Z (2 ^ 53 + 1) = (2 ^ 53)%Z ∧ float64_of_Z (2 ^ 53 + 3) = (2 ^ 53 + 4)%Z.
Proof. by vm_compute. Qed.
