(* ===== verification/Db.v ===== *)
(** * The data model of seaplane-db (seaplane-db/internal/model/types.go)

    Times are instants in microseconds, PostgreSQL's resolution; UUIDs are
    128-bit integers. A [json.RawMessage] is [None] when it is nil (pgx sends
    NULL) and a parsed document otherwise: every message the code builds comes
    from [json.Marshal] or from a [jsonb] column. *)
From S2P Require Import Prelude GoStrings Json.
From stdpp Require Import base strings list gmap.
From Stdlib Require Import ZArith Lia Ascii String.
Open Scope string_scope.

Notation time := Z (only parsing).
Notation uuid := Z (only parsing).
Notation RawMessage := (option json) (only parsing).

(** The primary key of [kubernetes_resources]: (gvk, namespace, name). *)
Notation key := (string * string * string)%type (only parsing).

Record Resource := mkResource {
  GVK : string;
  Namespace : string;
  Name : string;
  UID : uuid;
  TxidStamp : Z;
  ObjectVersion : Z;
  Spec : json;
  Status : json;
  Metadata : json;
  DeletionTimestamp : option time;
  CreatedAt : time;
  UpdatedAt : time
}.

#[export] Instance Resource_eq_dec : EqDecision Resource.
Proof. solve_decision. Defined.

Record WriteRequest := mkWriteRequest {
  wr_GVK : string;
  wr_Namespace : string;
  wr_Name : string;
  wr_Spec : RawMessage;
  wr_Status : RawMessage;
  wr_Metadata : RawMessage;
  wr_DeletionTimestamp : option time;
  wr_ExpectedVersion : Z;
  wr_ExpectedUID : option uuid;
  wr_ForceWrite : bool
}.

Record StatusWriteRequest := mkStatusWriteRequest {
  swr_GVK : string;
  swr_Namespace : string;
  swr_Name : string;
  swr_Status : RawMessage;
  swr_ExpectedVersion : Z;
  swr_ExpectedUID : option uuid;
  swr_ForceWrite : bool
}.

Record ObjectWriteRequest := mkObjectWriteRequest {
  owr_GVK : string;
  owr_Namespace : string;
  owr_Name : string;
  owr_Spec : RawMessage;
  owr_Metadata : RawMessage;
  owr_DeletionTimestamp : option time;
  owr_ExpectedVersion : Z;
  owr_ExpectedUID : option uuid;
  owr_ForceWrite : bool
}.

Record WriteResult := mkWriteResult {
  res_Txid : Z;
  res_ObjectVersion : Z;
  res_UID : uuid;
  res_Changed : bool
}.

#[export] Instance WriteResult_eq_dec : EqDecision WriteResult.
Proof. solve_decision. Defined.

(** [DoorbellChannel]: the LISTEN/NOTIFY channel of a GVK. [sha256_12hex] is the
    lower-case hex of the first twelve bytes of SHA-256. *)
Definition DoorbellChannel (sha256_12hex : string → string) (gvk : string) : string :=
  let raw := "resource_changes_" +:+ gvk in
  if (String.length raw <=? 63)%nat then raw else "rc_" +:+ sha256_12hex gvk.

(** * The PostgreSQL store (seaplane-db/internal/schema/migrations/001_initial.sql)

    The two tables, the row conditions the queries use and the stored procedure
    [pgctl_write]. A statement that raises an exception is an [Err] with its
    SQLSTATE; the transaction of the call rolls back and the tables stay as they
    were. *)
From stdpp Require Import base strings list gmap.
From Stdlib Require Import ZArith Lia Ascii String.
Open Scope string_scope.

(** One row of [kubernetes_resources], less its primary key. *)
Record Row := mkRow {
  row_uid : uuid;
  row_txid : Z;
  row_version : Z;
  row_spec : json;
  row_status : json;
  row_metadata : json;
  row_deletion : option time;
  row_created : time;
  row_updated : time
}.

#[export] Instance Row_eq_dec : EqDecision Row.
Proof. solve_decision. Defined.

Record Db := mkDb {
  kubernetes_resources : gmap key Row;
  compaction_horizon : gmap string Z
}.

(** The rows as the queries scan them into [model.Resource]. *)
Definition to_resource (k : key) (r : Row) : Resource :=
  mkResource k.1.1 k.1.2 k.2 (row_uid r) (row_txid r) (row_version r) (row_spec r)
    (row_status r) (row_metadata r) (row_deletion r) (row_created r) (row_updated r).

(** [metadata->'finalizers' IS NULL OR metadata->'finalizers' = '[]'::jsonb] *)
Definition no_finalizers (metadata : json) : sql3 :=
  sql_or (sql_is_null (jsonb_get metadata "finalizers"))
         (jsonb_eq (jsonb_get metadata "finalizers") (Some (JArr []))).

(** The tombstone filter: [deletion_timestamp IS NOT NULL AND (no finalizers)]. *)
Definition tombstone_filter (r : Row) : sql3 :=
  sql_and (sql_is_not_null (row_deletion r)) (no_finalizers (row_metadata r)).

Definition is_tombstone (r : Row) : bool := sql_holds (tombstone_filter r).

(** ** The stored procedure *)

(** The parameters of [pgctl_write]; also the Go struct of writer.go. *)
Record writeParams := mkWriteParams {
  statusOnly : bool;
  p_gvk : string;
  p_namespace : string;
  p_name : string;
  expectedVersion : Z;
  expectedUID : option uuid;
  forceWrite : bool;
  p_spec : RawMessage;
  p_status : RawMessage;
  p_metadata : RawMessage;
  p_deletion_ts : option time
}.

Definition p_key (p : writeParams) : key := (p_gvk p, p_namespace p, p_name p).

(** What the server supplies to a transaction: its id, [now()] and the value of
    [gen_random_uuid()]. *)
Record TxEnv := mkTxEnv {
  env_txid : Z;
  env_now : time;
  env_uuid : uuid
}.

Record pgctl_out := mkOut {
  out_uid : uuid;
  out_version : Z;
  out_txid : Z;
  out_changed : bool
}.

Definition sqlstate_conflict : string := "P0002".
Definition sqlstate_already_exists : string := "P0003".
Definition sqlstate_status_version : string := "P0004".
Definition sqlstate_not_null : string := "23502".
Definition sqlstate_unique : string := "23505".
Definition sqlstate_out_of_range : string := "22003".

(** A NULL stored into a NOT NULL column. *)
Definition not_null {A} (a : option A) : result string A :=
  match a with Some x => Ok x | None => Err sqlstate_not_null end.

(** [object_version + 1] on BIGINT *)
Definition bump_version (v : Z) : result string Z :=
  if (v <? max_int64)%Z then Ok (v + 1)%Z else Err sqlstate_out_of_range.

(** [object_version = p_expected_version AND (p_expected_uid IS NULL OR uid = p_expected_uid)] *)
Definition matches_expected (p : writeParams) (r : Row) : bool :=
  sql_holds (sql_and (Some (row_version r =? expectedVersion p)%Z)
    (sql_or (sql_is_null (expectedUID p)) (sql_eq Z.eqb (Some (row_uid r)) (expectedUID p)))).

(** The stale-writer test in front of the suppression check:
    [object_version <> p_expected_version OR (p_expected_uid IS NOT NULL AND uid <> p_expected_uid)]. *)
Definition stale (p : writeParams) (r : Row) : bool :=
  sql_holds (sql_or (Some (negb (row_version r =? expectedVersion p)%Z))
    (sql_and (sql_is_not_null (expectedUID p))
             (sql_not (sql_eq Z.eqb (Some (row_uid r)) (expectedUID p))))).

(** The content comparison of the suppression check, both branches. *)
Definition content_equal (p : writeParams) (r : Row) : bool :=
  sql_holds (
    if statusOnly p then jsonb_eq (Some (row_status r)) (p_status p)
    else
      sql_and (jsonb_eq (Some (row_spec r)) (p_spec p))
        (sql_and (sql_or (sql_is_null (p_status p)) (jsonb_eq (Some (row_status r)) (p_status p)))
          (sql_and (jsonb_eq (Some (row_metadata r)) (p_metadata p))
            (sql_not_distinct Z.eqb (row_deletion r) (p_deletion_ts p))))).

Definition set_row (db : Db) (k : key) (r : Row) : Db :=
  mkDb (<[k := r]> (kubernetes_resources db)) (compaction_horizon db).

(** Branch A: UPDATE ... SET status *)
Definition update_status (env : TxEnv) (p : writeParams) (r : Row) : result string Row :=
  v ← bump_version (row_version r);
  status ← not_null (p_status p);
  Ok (mkRow (row_uid r) (env_txid env) v (row_spec r) status (row_metadata r)
        (row_deletion r) (row_created r) (env_now env)).

(** Branch C: UPDATE ... SET spec, status, metadata, deletion_timestamp *)
Definition update_object (env : TxEnv) (p : writeParams) (r : Row) : result string Row :=
  v ← bump_version (row_version r);
  spec ← not_null (p_spec p);
  metadata ← not_null (p_metadata p);
  Ok (mkRow (row_uid r) (env_txid env) v spec (sql_coalesce (p_status p) (row_status r)) metadata
        (p_deletion_ts p) (row_created r) (env_now env)).

(** Branch B: the INSERT of a new row; the NOT NULL columns are checked before the
    primary key. *)
Definition insert_row (env : TxEnv) (p : writeParams) (existing : option Row) : result string Row :=
  spec ← not_null (p_spec p);
  status ← not_null (p_status p);
  metadata ← not_null (p_metadata p);
  match existing with
  | Some _ => Err sqlstate_unique
  | None => Ok (mkRow (env_uuid env) (env_txid env) 1 spec status metadata (p_deletion_ts p)
                  (env_now env) (env_now env))
  end.

(** Branch B, on [unique_violation]: tombstone revival. *)
Definition revive_row (env : TxEnv) (p : writeParams) : result string Row :=
  spec ← not_null (p_spec p);
  metadata ← not_null (p_metadata p);
  Ok (mkRow (env_uuid env) (env_txid env) 1 spec (sql_coalesce (p_status p) (JObj [])) metadata
        None (env_now env) (env_now env)).

Definition create_row (env : TxEnv) (p : writeParams) (existing : option Row) : result string Row :=
  match insert_row env p existing with
  | Ok r => Ok r
  | Err code =>
      if String.eqb code sqlstate_unique then
        match existing with
        | Some r => if is_tombstone r then revive_row env p else Err sqlstate_already_exists
        | None => Err sqlstate_already_exists
        end
      else Err code
  end.

(** Step 2 of the procedure: the row the upsert writes. *)
Definition upsert_row (env : TxEnv) (p : writeParams) (existing : option Row) : result string Row :=
  if statusOnly p then
    if (expectedVersion p =? 0)%Z then Err sqlstate_status_version
    else match existing with
         | Some r => if matches_expected p r then update_status env p r else Err sqlstate_conflict
         | None => Err sqlstate_conflict
         end
  else if (expectedVersion p =? 0)%Z then create_row env p existing
  else match existing with
       | Some r => if matches_expected p r then update_object env p r else Err sqlstate_conflict
       | None => Err sqlstate_conflict
       end.

(** Step 1 and 2. *)
Definition pgctl_write (env : TxEnv) (p : writeParams) (db : Db) : result string (Db * pgctl_out) :=
  let existing := kubernetes_resources db !! p_key p in
  let upsert :=
    r ← upsert_row env p existing;
    Ok (set_row db (p_key p) r, mkOut (row_uid r) (row_version r) (env_txid env) true) in
  if negb (forceWrite p) && (0 <? expectedVersion p)%Z then
    match existing with
    | Some r =>
        if stale p r then Err sqlstate_conflict
        else if content_equal p r then Ok (db, mkOut (row_uid r) (row_version r) 0 false)
        else upsert
    | None => upsert
    end
  else upsert.

(** ** Lemmas *)

Lemma stale_matches p r : stale p r = negb (matches_expected p r).
Proof.
  unfold stale, matches_expected. destruct (expectedUID p) as [u|]; simpl;
    destruct (row_version r =? expectedVersion p)%Z; simpl; try done;
    by destruct (row_uid r =? u)%Z.
Qed.

Lemma matches_expected_spec p r :
  matches_expected p r = true ↔
  row_version r = expectedVersion p ∧ (∀ u, expectedUID p = Some u → row_uid r = u).
Proof.
  unfold matches_expected. destruct (Z.eqb_spec (row_version r) (expectedVersion p)) as [E|E];
    destruct (expectedUID p) as [u|]; simpl.
  - destruct (Z.eqb_spec (row_uid r) u); naive_solver.
  - naive_solver.
  - destruct (row_uid r =? u)%Z; naive_solver.
  - naive_solver.
Qed.

(** A row is a tombstone exactly when it has a deletion timestamp and its metadata
    holds no [finalizers] entry or an empty one. *)
Lemma is_tombstone_spec r :
  is_tombstone r = true ↔
  row_deletion r ≠ None ∧
  (jsonb_get (row_metadata r) "finalizers" = None ∨
   jsonb_get (row_metadata r) "finalizers" = Some (JArr [])).
Proof.
  unfold is_tombstone, tombstone_filter, no_finalizers, jsonb_eq.
  destruct (row_deletion r), (jsonb_get (row_metadata r) "finalizers") as [j|]; simpl; try naive_solver.
  destruct (json_eqb j (JArr [])) eqn:E; simpl.
  - apply json_eqb_eq in E. naive_solver.
  - split; [done|]. intros [_ [?|H]]; [done|]. by simplify_eq.
Qed.

(** The two ways the procedure returns: a suppressed no-op, or the upsert. *)
Lemma pgctl_write_ok env p db db' o :
  pgctl_write env p db = Ok (db', o) →
  (∃ r, kubernetes_resources db !! p_key p = Some r ∧ matches_expected p r = true ∧
        content_equal p r = true ∧ forceWrite p = false ∧ (0 < expectedVersion p)%Z ∧
        db' = db ∧ o = mkOut (row_uid r) (row_version r) 0 false) ∨
  (∃ r, upsert_row env p (kubernetes_resources db !! p_key p) = Ok r ∧
        db' = set_row db (p_key p) r ∧
        o = mkOut (row_uid r) (row_version r) (env_txid env) true).
Proof.
  unfold pgctl_write. intros H.
  assert (Hup : (r ← upsert_row env p (kubernetes_resources db !! p_key p);
    Ok (set_row db (p_key p) r, mkOut (row_uid r) (row_version r) (env_txid env) true)) = Ok (db', o) →
    ∃ r, upsert_row env p (kubernetes_resources db !! p_key p) = Ok r ∧
        db' = set_row db (p_key p) r ∧ o = mkOut (row_uid r) (row_version r) (env_txid env) true).
  { intros (r & Hr & Hx)%result_bind_ok. simplify_eq. eauto. }
  destruct (negb (forceWrite p) && (0 <? expectedVersion p)%Z) eqn:Hs; [|by right; apply Hup].
  destruct (kubernetes_resources db !! p_key p) as [r|] eqn:Hk; [|by right; apply Hup].
  destruct (stale p r) eqn:Hst; [done|].
  destruct (content_equal p r) eqn:Hc; [|by right; apply Hup].
  left. exists r. rewrite stale_matches in Hst. split_bool. simplify_eq. naive_solver.
Qed.

Ltac unfold_upsert H :=
  unfold upsert_row, update_status, update_object, create_row, insert_row, revive_row,
    bump_version, not_null, mbind, result_bind in H;
  repeat (case_match; simplify_eq/=; try done).

Lemma upsert_row_txid env p e r : upsert_row env p e = Ok r → row_txid r = env_txid env.
Proof. intros H. unfold_upsert H. Qed.

(** An update keeps the identity of the row and bumps its version by one. *)
Lemma upsert_row_update env p e r :
  expectedVersion p ≠ 0%Z → upsert_row env p e = Ok r →
  ∃ r0, e = Some r0 ∧ matches_expected p r0 = true ∧ row_uid r = row_uid r0 ∧
        row_version r = (row_version r0 + 1)%Z ∧ (row_version r0 < max_int64)%Z.
Proof.
  intros Hv H. assert (Hv' : (expectedVersion p =? 0)%Z = false) by by apply Z.eqb_neq.
  unfold upsert_row in H. rewrite Hv' in H. destruct e as [r0|]; [|by case_match].
  exists r0. destruct (matches_expected p r0) eqn:Hm; [|by case_match].
  unfold update_status, update_object, bump_version, not_null, mbind, result_bind in H.
  repeat (case_match; simplify_eq/=; try done); split_bool; naive_solver.
Qed.

(** A create starts a new incarnation at version 1, over nothing or over a tombstone. *)
Lemma upsert_row_create env p e r :
  expectedVersion p = 0%Z → upsert_row env p e = Ok r →
  (∀ r0, e = Some r0 → is_tombstone r0 = true) ∧ statusOnly p = false ∧
  row_uid r = env_uuid env ∧ row_version r = 1%Z.
Proof. intros Hv H. unfold upsert_row in H. rewrite Hv in H. unfold_upsert H; naive_solver. Qed.
