(* ===== verification/Compaction.v ===== *)
(** * Compaction (seaplane-db/compaction/compactor.go)

    One CTE statement deletes the tombstones older than the retention and raises
    the per-GVK compaction horizon to the largest txid stamp it deleted. *)
From S2P Require Import Prelude GoStrings Json Db.
From stdpp Require Import base strings list gmap fin_maps.
From Stdlib Require Import ZArith Lia Ascii String.
Open Scope string_scope.

Module Compaction.

(** [time.Duration] values are in nanoseconds. *)
Record Config := mkConfig { Retention : Z }.

Definition default_retention : Z := (24 * 3600 * 1000000000)%Z.

(** [cfg.Retention] after the default, truncated to whole seconds, as the
    PostgreSQL interval in microseconds. *)
Definition cutoff_interval (cfg : Config) : Z :=
  let retention := if (Retention cfg =? 0)%Z then default_retention else Retention cfg in
  (Z.quot retention 1000000000 * 1000000)%Z.

(** The WHERE clause of the DELETE. *)
Definition compactable (now interval : Z) (r : Row) : bool :=
  match row_deletion r with
  | Some d => sql_holds (sql_and (Some (Z.max d (row_updated r) <? now - interval)%Z)
                                 (no_finalizers (row_metadata r)))
  | None => false
  end.

Definition deleted_rows (now interval : Z) (table : gmap key Row) : gmap key Row :=
  filter (fun kr => compactable now interval kr.2 = true) table.

(** [INSERT INTO compaction_horizon ... ON CONFLICT ... GREATEST(...)] for one deleted row. *)
Definition raise_horizon (gvk : string) (txid : Z) (h : gmap string Z) : gmap string Z :=
  <[gvk := match h !! gvk with Some c => Z.max c txid | None => txid end]> h.

Definition raise_all (del : list (key * Row)) (h : gmap string Z) : gmap string Z :=
  fold_right (fun kr h => raise_horizon kr.1.1.1 (row_txid kr.2) h) h del.

(** [Compact] at server time [now]: the new database and [Result.Deleted]. *)
Definition Compact (cfg : Config) (now : Z) (db : Db) : Db * Z :=
  let del := deleted_rows now (cutoff_interval cfg) (kubernetes_resources db) in
  (mkDb (kubernetes_resources db ∖ del) (raise_all (map_to_list del) (compaction_horizon db)),
   Z.of_nat (size del)).

(** ** Lemmas *)

Lemma compactable_tombstone now i r : compactable now i r = true → is_tombstone r = true.
Proof.
  unfold compactable, is_tombstone, tombstone_filter. intros H.
  destruct (row_deletion r); [|done]. simpl.
  destruct (no_finalizers (row_metadata r)) as [[]|], (_ <? _)%Z; done.
Qed.

Lemma raise_horizon_mono g t h g' c :
  h !! g' = Some c → ∃ c', raise_horizon g t h !! g' = Some c' ∧ (c ≤ c')%Z.
Proof.
  intros Hc. unfold raise_horizon. destruct (decide (g = g')) as [->|].
  - rewrite lookup_insert_eq, Hc. eexists. split; [done|lia].
  - rewrite lookup_insert_ne by done. eauto with lia.
Qed.

Lemma raise_all_mono del h g c :
  h !! g = Some c → ∃ c', raise_all del h !! g = Some c' ∧ (c ≤ c')%Z.
Proof.
  intros Hc. induction del as [|[k r] del IH]; simpl; [eauto with lia|].
  destruct IH as (c1 & H1 & ?).
  destruct (raise_horizon_mono k.1.1 (row_txid r) _ _ _ H1) as (c2 & ? & ?).
  exists c2. split; [done|lia].
Qed.

Lemma raise_all_covers del h k r :
  (k, r) ∈ del → ∃ c, raise_all del h !! k.1.1 = Some c ∧ (row_txid r ≤ c)%Z.
Proof.
  induction del as [|[k' r'] del IH]; simpl; [by intros ?%list_elem_of_In|].
  intros [Heq|Hin]%elem_of_cons.
  - simplify_eq. unfold raise_horizon. rewrite lookup_insert_eq.
    eexists. split; [done|]. case_match; lia.
  - destruct (IH Hin) as (c & Hc & ?).
    destruct (raise_horizon_mono k'.1.1 (row_txid r') _ _ _ Hc) as (c2 & ? & ?).
    exists c2. split; [done|lia].
Qed.

Lemma Compact_lookup cfg now db k :
  kubernetes_resources (Compact cfg now db).1 !! k =
    match kubernetes_resources db !! k with
    | Some r => if compactable now (cutoff_interval cfg) r then None else Some r
    | None => None
    end.
Proof.
  unfold Compact, deleted_rows. simpl.
  rewrite lookup_difference, map_lookup_filter.
  destruct (kubernetes_resources db !! k) as [r0|]; simpl; [|done].
  destruct (compactable now _ r0) eqn:E; by case_guard.
Qed.

(** Compaction only removes rows, and only tombstones. *)
Lemma Compact_removes cfg now db k r :
  kubernetes_resources db !! k = Some r →
  kubernetes_resources (Compact cfg now db).1 !! k = None →
  is_tombstone r = true ∧
  ∃ c, compaction_horizon (Compact cfg now db).1 !! k.1.1 = Some c ∧ (row_txid r ≤ c)%Z.
Proof.
  intros Hk Hn. rewrite Compact_lookup, Hk in Hn.
  destruct (compactable now (cutoff_interval cfg) r) eqn:Hc; [|done].
  split; [by eapply compactable_tombstone|].
  apply raise_all_covers. apply elem_of_map_to_list.
  by apply map_lookup_filter_Some_2.
Qed.

Lemma Compact_keeps cfg now db k r :
  kubernetes_resources (Compact cfg now db).1 !! k = Some r → kubernetes_resources db !! k = Some r.
Proof. rewrite Compact_lookup. case_goal. Qed.

Lemma Compact_horizon_mono cfg now db g c :
  compaction_horizon db !! g = Some c →
  ∃ c', compaction_horizon (Compact cfg now db).1 !! g = Some c' ∧ (c ≤ c')%Z.
Proof. apply raise_all_mono. Qed.

(** C20: compaction safety (I5, I6 of the design): a row that disappears is a tombstone (a
    dying object with finalizers is kept whatever its age), its txid stamp is
    covered by the horizon the same statement leaves, every other row is kept as
    it is, no row appears, and no horizon moves backwards. *)
Theorem Compact_safe (cfg : Config) (now : Z) (db : Db) :
  let db' := (Compact cfg now db).1 in
  (∀ k r, kubernetes_resources db !! k = Some r →
     kubernetes_resources db' !! k = Some r ∨
     (kubernetes_resources db' !! k = None ∧ is_tombstone r = true ∧
      ∃ c, compaction_horizon db' !! k.1.1 = Some c ∧ (row_txid r ≤ c)%Z)) ∧
  (∀ k, kubernetes_resources db !! k = None → kubernetes_resources db' !! k = None) ∧
  (∀ g c, compaction_horizon db !! g = Some c →
     ∃ c', compaction_horizon db' !! g = Some c' ∧ (c ≤ c')%Z).
Proof.
  cbv zeta. split_and!.
  - intros k r Hk. destruct (kubernetes_resources (Compact cfg now db).1 !! k) as [r'|] eqn:Hk'.
    + left. apply Compact_keeps in Hk'. congruence.
    + right. split; [done|]. by apply Compact_removes.
  - intros k Hk. rewrite Compact_lookup. by rewrite Hk.
  - intros g c. apply Compact_horizon_mono.
Qed.

End Compaction.
