(* ===== verification/Writer.v ===== *)
(** * The write path (seaplane-db/internal/writer/writer.go)

    [Write], [WriteStatus] and [WriteObject] over the two implementations the
    code has: one call of the stored procedure (hooks nil, production) and the
    multi-statement transaction (hooks set). The state of a call is the database,
    the doorbell rings so far and the metrics. What the environment decides is an
    argument: the server's values for a transaction ([TxEnv]), failures of the
    connection ([call_outcome], [Faults]) and, for the multi-statement path, what
    other sessions commit while a hook runs (the hooks' database component). *)
From S2P Require Import Prelude GoStrings Json Db Compaction.
From stdpp Require Import base strings list gmap.
From Stdlib Require Import ZArith Lia Ascii String.
Open Scope string_scope.

Module Writer.

(** ** Errors (writer/errors.go and the [fmt.Errorf] returns) *)

Inductive upsert_stage :=
| StageSavepoint | StageRollbackSavepoint | StageCreate | StageRevival
| StageUpdateResource | StageUpdateStatus | StageUpdateSpec.

Inductive werror :=
| ErrConflict
| ErrAlreadyExists
| ErrVersionRequired                  (* "... requires ExpectedVersion > 0: object must exist" *)
| ErrStoredProc (sqlstate : string)
| AmbiguousCommitError (gvk ns name : string) (txid : Z) (cause : option string)
| ErrBegin (sqlstate : string)
| ErrReadExisting (sqlstate : string)
| ErrHook (code : string)
| ErrCommitSuppressed (sqlstate : string)
| ErrTxidAcquire (sqlstate : string)
| ErrUpsert (stage : upsert_stage) (sqlstate : string).

#[export] Instance upsert_stage_eq_dec : EqDecision upsert_stage.
Proof. solve_decision. Defined.
#[export] Instance werror_eq_dec : EqDecision werror.
Proof. solve_decision. Defined.

(** ** State *)

Record WriterMetrics := mkMetrics {
  NoopSuppressionsTotal : Z;
  WritesTotal : gmap (string * string) Z;
  StatementTimeoutsTotal : Z
}.

Record World := mkWorld {
  w_db : Db;
  w_rung : list string;
  w_metrics : option WriterMetrics
}.

Definition set_db (w : World) (db : Db) : World := mkWorld db (w_rung w) (w_metrics w).

(** Hooks: each runs inside the transaction and may let other sessions commit
    ([Db → Db]) and fail ([Some code]). *)
Record TxHooks := mkHooks {
  AfterSuppressionCheck : bool → Db → Db * option string;
  AfterTxidAcquire : Z → Db → Db * option string;
  BeforeCommit : Db → Db * option string
}.

Record Writer := mkWriter {
  hooks : option TxHooks;
  has_doorbell : bool
}.

Definition ring (has_doorbell : bool) (gvk : string) (w : World) : World :=
  if has_doorbell then mkWorld (w_db w) (w_rung w ++ [gvk]) (w_metrics w) else w.

(** How the call of the stored procedure ends: with the server's answer, or with a
    connection error after which the write may have landed. *)
Inductive call_outcome :=
| CallAnswered
| CallLost (landed : bool).

Inductive commit_outcome :=
| Committed
| CommitFailed (landed : bool) (cause : option string).

(** Failures of the statements of the multi-statement path ([Some sqlstate]). *)
Record Faults := mkFaults {
  f_begin : option string;
  f_read : option string;
  f_commit_suppressed : option string;
  f_txid : option string;
  f_savepoint : option string;
  f_rollback_savepoint : option string;
  f_upsert : option string;
  f_commit : commit_outcome
}.

Definition no_faults : Faults := mkFaults None None None None None None None Committed.

(** ** Observation *)

Definition result_label (r : result werror WriteResult) : string :=
  match r with
  | Ok res => if negb (res_Changed res) then "noop" else "success"
  | Err ErrConflict => "conflict"
  | Err ErrAlreadyExists => "already_exists"
  | Err (AmbiguousCommitError _ _ _ _ _) => "ambiguous_commit"
  | Err _ => "error"
  end.

(** The SQLSTATE [errors.As(err, &pgErr)] finds in the chain, if any. *)
Definition pg_code (e : werror) : option string :=
  match e with
  | ErrStoredProc c | ErrBegin c | ErrReadExisting c | ErrCommitSuppressed c
  | ErrTxidAcquire c | ErrUpsert _ c => Some c
  | AmbiguousCommitError _ _ _ _ cause => cause
  | _ => None
  end.

Definition is_timeout (r : result werror WriteResult) : bool :=
  match r with
  | Err e => bool_decide (pg_code e = Some "57014")
  | Ok _ => false
  end.

Definition observeResult (gvk : string) (r : result werror WriteResult) (w : World) : World :=
  match w_metrics w with
  | None => w
  | Some m =>
      let lbl := (gvk, result_label r) in
      let noops := if String.eqb (result_label r) "noop"
                   then (NoopSuppressionsTotal m + 1)%Z else NoopSuppressionsTotal m in
      let timeouts := if is_timeout r then (StatementTimeoutsTotal m + 1)%Z
                      else StatementTimeoutsTotal m in
      mkWorld (w_db w) (w_rung w)
        (Some (mkMetrics noops (<[lbl := (default 0 (WritesTotal m !! lbl) + 1)%Z]> (WritesTotal m))
                 timeouts))
  end.

(** ** Stored procedure path *)

(** The [jsonb] casts of the procedure's parameters. *)
Definition to_jsonb (p : writeParams) : writeParams :=
  mkWriteParams (statusOnly p) (p_gvk p) (p_namespace p) (p_name p) (expectedVersion p)
    (expectedUID p) (forceWrite p) (canon <$> p_spec p) (canon <$> p_status p)
    (canon <$> p_metadata p) (p_deletion_ts p).

Definition mapStoredProcError (code : string) : werror :=
  if String.eqb code "P0002" then ErrConflict
  else if String.eqb code "P0003" then ErrAlreadyExists
  else if String.eqb code "P0004" then ErrVersionRequired
  else ErrStoredProc code.

Definition callStoredProc (wr : Writer) (oc : call_outcome) (env : TxEnv) (p : writeParams)
    (w : World) : World * result werror WriteResult :=
  let answer := pgctl_write env (to_jsonb p) (w_db w) in
  match oc with
  | CallLost landed =>
      let db' := match answer with
                 | Ok (db', _) => if landed then db' else w_db w
                 | Err _ => w_db w
                 end in
      (set_db w db', Err (AmbiguousCommitError (p_gvk p) (p_namespace p) (p_name p) 0 None))
  | CallAnswered =>
      match answer with
      | Err code => (w, Err (mapStoredProcError code))
      | Ok (db', o) =>
          let w' := set_db w db' in
          if negb (out_changed o)
          then (w', Ok (mkWriteResult 0 (out_version o) (out_uid o) false))
          else (ring (has_doorbell wr) (p_gvk p) w',
                Ok (mkWriteResult (out_txid o) (out_version o) (out_uid o) true))
      end
  end.

Definition params_of_write (req : WriteRequest) : writeParams :=
  mkWriteParams false (wr_GVK req) (wr_Namespace req) (wr_Name req) (wr_ExpectedVersion req)
    (wr_ExpectedUID req) (wr_ForceWrite req) (wr_Spec req) (wr_Status req) (wr_Metadata req)
    (wr_DeletionTimestamp req).

Definition params_of_status (req : StatusWriteRequest) : writeParams :=
  mkWriteParams true (swr_GVK req) (swr_Namespace req) (swr_Name req) (swr_ExpectedVersion req)
    (swr_ExpectedUID req) (swr_ForceWrite req) None (swr_Status req) None None.

Definition params_of_object (req : ObjectWriteRequest) : writeParams :=
  mkWriteParams false (owr_GVK req) (owr_Namespace req) (owr_Name req) (owr_ExpectedVersion req)
    (owr_ExpectedUID req) (owr_ForceWrite req) (owr_Spec req) None (owr_Metadata req)
    (owr_DeletionTimestamp req).

Definition observed (gvk : string) (x : World * result werror WriteResult) :
    World * result werror WriteResult :=
  (observeResult gvk x.2 x.1, x.2).

Definition writeStoredProc wr oc env (req : WriteRequest) (w : World) :=
  observed (wr_GVK req) (callStoredProc wr oc env (params_of_write req) w).

Definition writeStatusStoredProc wr oc env (req : StatusWriteRequest) (w : World) :=
  observed (swr_GVK req) (callStoredProc wr oc env (params_of_status req) w).

Definition writeObjectStoredProc wr oc env (req : ObjectWriteRequest) (w : World) :=
  observed (owr_GVK req) (callStoredProc wr oc env (params_of_object req) w).

(** ** Multi-statement path *)

Definition JSONEqual (a b : RawMessage) : bool :=
  match a, b with
  | None, None => true
  | Some x, Some y =>
      match go_any x, go_any y with
      | Some vx, Some vy => json_eqb vx vy
      | _, _ => false
      end
  | _, _ => false
  end.

Definition timeEqual (a b : option time) : bool :=
  match a, b with
  | None, None => true
  | Some x, Some y => (x =? y)%Z
  | _, _ => false
  end.

Definition readExisting (db : Db) (gvk namespace name : string) : option Row :=
  kubernetes_resources db !! (gvk, namespace, name).

(** The transaction from the acquisition of the txid to the commit. [upsert] maps
    the row the UPDATE or INSERT finds to the row it writes; the row is visible to
    others from the commit on. *)
Definition commit_upsert (wr : Writer) (h : TxHooks) (f : Faults) (env : TxEnv) (p : writeParams)
    (upsert : option Row → result werror Row) (w : World) : World * result werror WriteResult :=
  match f_txid f with
  | Some code => (w, Err (ErrTxidAcquire code))
  | None =>
      let '(db1, e1) := AfterTxidAcquire h (env_txid env) (w_db w) in
      let w1 := set_db w db1 in
      match e1 with
      | Some code => (w1, Err (ErrHook code))
      | None =>
          match upsert (kubernetes_resources db1 !! p_key p) with
          | Err e => (w1, Err e)
          | Ok r =>
              let '(db2, e2) := BeforeCommit h db1 in
              match e2 with
              | Some code => (set_db w db2, Err (ErrHook code))
              | None =>
                  match f_commit f with
                  | CommitFailed landed cause =>
                      (set_db w (if landed then set_row db2 (p_key p) r else db2),
                       Err (AmbiguousCommitError (p_gvk p) (p_namespace p) (p_name p)
                              (env_txid env) cause))
                  | Committed =>
                      (ring (has_doorbell wr) (p_gvk p) (set_db w (set_row db2 (p_key p) r)),
                       Ok (mkWriteResult (env_txid env) (row_version r) (row_uid r) true))
                  end
              end
          end
      end
  end.

Definition execWriteInner (wr : Writer) (h : TxHooks) (f : Faults) (env : TxEnv) (p : writeParams)
    (isContentEqual : Row → bool) (upsert : option Row → result werror Row) (w : World) :
    World * result werror WriteResult :=
  match f_begin f with
  | Some code => (w, Err (ErrBegin code))
  | None =>
      let run_hook suppressed (k : World → World * result werror WriteResult) :=
        let '(db1, e1) := AfterSuppressionCheck h suppressed (w_db w) in
        match e1 with
        | Some code => (set_db w db1, Err (ErrHook code))
        | None => k (set_db w db1)
        end in
      if negb (forceWrite p) then
        let read := if (0 <? expectedVersion p)%Z then
                      match f_read f with
                      | Some code => Err (ErrReadExisting code)
                      | None => Ok (readExisting (w_db w) (p_gvk p) (p_namespace p) (p_name p))
                      end
                    else Ok None in
        match read with
        | Err e => (w, Err e)
        | Ok existing =>
            match existing with
            | Some r =>
                if (0 <? expectedVersion p)%Z &&
                   (negb (row_version r =? expectedVersion p)%Z ||
                    match expectedUID p with Some u => negb (row_uid r =? u)%Z | None => false end)
                then run_hook false (fun w1 => (w1, Err ErrConflict))
                else if (0 <? expectedVersion p)%Z && isContentEqual r then
                  run_hook true (fun w1 =>
                    match f_commit_suppressed f with
                    | Some code => (w1, Err (ErrCommitSuppressed code))
                    | None => (w1, Ok (mkWriteResult 0 (row_version r) (row_uid r) false))
                    end)
                else run_hook false (commit_upsert wr h f env p upsert)
            | None => run_hook false (commit_upsert wr h f env p upsert)
            end
        end
      else run_hook false (commit_upsert wr h f env p upsert)
  end.

Definition execWrite wr h f env p isContentEqual upsert (w : World) :=
  observed (p_gvk p) (execWriteInner wr h f env p isContentEqual upsert w).

(** The SQL of the three upserts; a statement failure of the connection comes first. *)
Definition at_stage {A} (stage : upsert_stage) (f : Faults) (r : result string A) : result werror A :=
  match f_upsert f with
  | Some code => Err (ErrUpsert stage code)
  | None => match r with Ok a => Ok a | Err code => Err (ErrUpsert stage code) end
  end.

Definition upsert_write (f : Faults) (env : TxEnv) (req : WriteRequest) (existing : option Row) :
    result werror Row :=
  let p := to_jsonb (params_of_write req) in
  if (wr_ExpectedVersion req =? 0)%Z then
    match f_savepoint f with
    | Some code => Err (ErrUpsert StageSavepoint code)
    | None =>
        match at_stage StageCreate f (insert_row env p existing) with
        | Ok r => Ok r
        | Err (ErrUpsert StageCreate code) =>
            if String.eqb code sqlstate_unique then
              match f_rollback_savepoint f with
              | Some code => Err (ErrUpsert StageRollbackSavepoint code)
              | None =>
                  match existing with
                  | Some r0 => if is_tombstone r0 then at_stage StageRevival f (revive_row env p)
                               else Err ErrAlreadyExists
                  | None => Err ErrAlreadyExists
                  end
              end
            else Err (ErrUpsert StageCreate code)
        | Err e => Err e
        end
    end
  else
    match existing with
    | Some r0 => if matches_expected p r0 then at_stage StageUpdateResource f (update_object env p r0)
                 else Err ErrConflict
    | None => Err ErrConflict
    end.

Definition writeMultiStatement wr h f env (req : WriteRequest) (w : World) :=
  let checker (r : Row) :=
    JSONEqual (Some (row_spec r)) (wr_Spec req) &&
    JSONEqual (Some (row_status r)) (wr_Status req) &&
    JSONEqual (Some (row_metadata r)) (wr_Metadata req) &&
    timeEqual (row_deletion r) (wr_DeletionTimestamp req) in
  execWrite wr h f env (params_of_write req) checker (upsert_write f env req) w.

Definition upsert_status (f : Faults) (env : TxEnv) (req : StatusWriteRequest) (existing : option Row) :
    result werror Row :=
  let p := to_jsonb (params_of_status req) in
  match existing with
  | Some r0 => if matches_expected p r0 then at_stage StageUpdateStatus f (update_status env p r0)
               else Err ErrConflict
  | None => Err ErrConflict
  end.

Definition writeStatusMultiStatement wr h f env (req : StatusWriteRequest) (w : World) :=
  execWrite wr h f env (params_of_status req)
    (fun r => JSONEqual (Some (row_status r)) (swr_Status req)) (upsert_status f env req) w.

Definition upsert_object (f : Faults) (env : TxEnv) (req : ObjectWriteRequest) (existing : option Row) :
    result werror Row :=
  let p := to_jsonb (params_of_object req) in
  match existing with
  | Some r0 => if matches_expected p r0 then at_stage StageUpdateSpec f (update_object env p r0)
               else Err ErrConflict
  | None => Err ErrConflict
  end.

Definition writeObjectMultiStatement wr h f env (req : ObjectWriteRequest) (w : World) :=
  let checker (r : Row) :=
    JSONEqual (Some (row_spec r)) (owr_Spec req) &&
    JSONEqual (Some (row_metadata r)) (owr_Metadata req) &&
    timeEqual (row_deletion r) (owr_DeletionTimestamp req) in
  execWrite wr h f env (params_of_object req) checker (upsert_object f env req) w.

(** ** Entry points *)

(** What the environment does to one write. *)
Record WriteEnv := mkWriteEnv {
  we_tx : TxEnv;
  we_call : call_outcome;
  we_faults : Faults
}.

Definition Write (wr : Writer) (e : WriteEnv) (req : WriteRequest) (w : World) :=
  match hooks wr with
  | Some h => writeMultiStatement wr h (we_faults e) (we_tx e) req w
  | None => writeStoredProc wr (we_call e) (we_tx e) req w
  end.

Definition WriteStatus (wr : Writer) (e : WriteEnv) (req : StatusWriteRequest) (w : World) :=
  if (swr_ExpectedVersion req =? 0)%Z then (w, Err ErrVersionRequired)
  else match hooks wr with
       | Some h => writeStatusMultiStatement wr h (we_faults e) (we_tx e) req w
       | None => writeStatusStoredProc wr (we_call e) (we_tx e) req w
       end.

Definition WriteObject (wr : Writer) (e : WriteEnv) (req : ObjectWriteRequest) (w : World) :=
  if (owr_ExpectedVersion req =? 0)%Z then (w, Err ErrVersionRequired)
  else match hooks wr with
       | Some h => writeObjectMultiStatement wr h (we_faults e) (we_tx e) req w
       | None => writeObjectStoredProc wr (we_call e) (we_tx e) req w
       end.

(** [ReadBack]: the row of a key if it carries the given txid stamp. *)
Definition ReadBack (db : Db) (gvk namespace name : string) (txid : Z) : option Resource :=
  match kubernetes_resources db !! (gvk, namespace, name) with
  | Some r => if (row_txid r =? txid)%Z then Some (to_resource (gvk, namespace, name) r) else None
  | None => None
  end.

End Writer.

(** * Properties of the write path *)
From stdpp Require Import base strings list gmap relations.
From Stdlib Require Import ZArith Lia Ascii String.
Open Scope string_scope.
Import Writer.

(** ** Documents the two comparisons agree on *)

(** The document is stored in normal form and its numbers survive float64. *)
Definition doc_ok (j : json) : Prop := canon j = j ∧ numbers_exact j = true.
Definition raw_exact (m : RawMessage) : Prop := from_option (fun j => numbers_exact j = true) True m.

Definition row_ok (r : Row) : Prop :=
  doc_ok (row_spec r) ∧ doc_ok (row_status r) ∧ doc_ok (row_metadata r).

Definition db_ok (db : Db) : Prop := map_Forall (fun _ r => row_ok r) (kubernetes_resources db).

Lemma JSONEqual_exact x y :
  numbers_exact x = true → numbers_exact y = true →
  JSONEqual (Some x) (Some y) = json_eqb (canon x) (canon y).
Proof.
  intros Hx Hy. unfold JSONEqual, go_any.
  by rewrite !go_fits_exact, !go_numbers_exact by auto using canon_numbers_exact.
Qed.

(** A stored document compared with a request's message: Go's comparison is SQL's. *)
Lemma JSONEqual_stored x m :
  doc_ok x → raw_exact m → JSONEqual (Some x) m = sql_holds (jsonb_eq (Some x) (canon <$> m)).
Proof.
  intros [Hc Hx] Hm. destruct m as [y|]; [|done].
  rewrite JSONEqual_exact by done. rewrite Hc. simpl. by destruct (json_eqb x (canon y)).
Qed.

Lemma timeEqual_sql a b : timeEqual a b = sql_holds (sql_not_distinct Z.eqb a b).
Proof. destruct a, b; simpl; try done. by destruct (_ =? _)%Z. Qed.

Lemma content_equal_object p r :
  statusOnly p = false →
  content_equal p r =
    sql_holds (jsonb_eq (Some (row_spec r)) (p_spec p)) &&
    (sql_holds (sql_is_null (p_status p)) || sql_holds (jsonb_eq (Some (row_status r)) (p_status p))) &&
    sql_holds (jsonb_eq (Some (row_metadata r)) (p_metadata p)) &&
    sql_holds (sql_not_distinct Z.eqb (row_deletion r) (p_deletion_ts p)).
Proof.
  intros H. unfold content_equal. rewrite H. autorewrite with seaplane. by rewrite !andb_assoc.
Qed.

(** ** The two implementations agree *)

(** Hooks that neither fail nor let another session commit. *)
Definition quiet_hooks : TxHooks :=
  mkHooks (fun _ db => (db, None)) (fun _ db => (db, None)) (fun db => (db, None)).

(** Errors up to the stage they are reported from. *)
Definition error_class (e : werror) : werror :=
  match e with ErrUpsert _ c => ErrStoredProc c | _ => e end.

Definition outcome (r : result werror WriteResult) : result werror WriteResult :=
  match r with Ok a => Ok a | Err e => Err (error_class e) end.

Definition agree (x y : World * result werror WriteResult) : Prop :=
  x.1 = y.1 ∧ outcome x.2 = outcome y.2.

Lemma observe_class gvk a b w :
  outcome a = outcome b → observeResult gvk a w = observeResult gvk b w.
Proof.
  intros H. unfold observeResult. destruct (w_metrics w); [|done].
  assert (Hl : result_label a = result_label b ∧ is_timeout a = is_timeout b).
  { destruct a as [?|[]], b as [?|[]]; simpl in *; by simplify_eq. }
  by destruct Hl as [-> ->].
Qed.

Lemma agree_observed gvk x y : agree x y → agree (observed gvk x) (observed gvk y).
Proof. intros [H1 H2]. split; [|done]. simpl. by rewrite H1, (observe_class _ _ _ _ H2). Qed.

(** What relates an upsert of the multi-statement path to the procedure's. *)
Definition upsert_agrees (env : TxEnv) (p : writeParams) (u : option Row → result werror Row) : Prop :=
  ∀ e, match upsert_row env (to_jsonb p) e with
       | Ok r => u e = Ok r
       | Err code => ∃ er, u e = Err er ∧ error_class er = mapStoredProcError code
       end.

Lemma mapStoredProcError_class code : error_class (mapStoredProcError code) = mapStoredProcError code.
Proof. unfold mapStoredProcError. by repeat case_match. Qed.

Lemma commit_upsert_quiet d f env p u w :
  f_txid f = None → f_commit f = Committed →
  commit_upsert (mkWriter (Some quiet_hooks) d) quiet_hooks f env p u w =
  match u (kubernetes_resources (w_db w) !! p_key p) with
  | Ok r => (ring d (p_gvk p) (set_db w (set_row (w_db w) (p_key p) r)),
             Ok (mkWriteResult (env_txid env) (row_version r) (row_uid r) true))
  | Err e => (w, Err e)
  end.
Proof.
  intros Ht Hc. unfold commit_upsert. rewrite Ht. simpl.
  replace (set_db w (w_db w)) with w by by destruct w.
  destruct (u _); [|done]. by rewrite Hc.
Qed.

Lemma upsert_branch_agrees d env p u w :
  upsert_agrees env p u →
  agree
    (match (r ← upsert_row env (to_jsonb p) (kubernetes_resources (w_db w) !! p_key p);
            Ok (set_row (w_db w) (p_key p) r, mkOut (row_uid r) (row_version r) (env_txid env) true)) with
     | Err code => (w, Err (mapStoredProcError code))
     | Ok (db', o) =>
         if negb (out_changed o)
         then (set_db w db', Ok (mkWriteResult 0 (out_version o) (out_uid o) false))
         else (ring d (p_gvk p) (set_db w db'),
               Ok (mkWriteResult (out_txid o) (out_version o) (out_uid o) true))
     end)
    (commit_upsert (mkWriter (Some quiet_hooks) d) quiet_hooks no_faults env p u w).
Proof.
  intros Hu. rewrite commit_upsert_quiet by done.
  specialize (Hu (kubernetes_resources (w_db w) !! p_key p)).
  destruct (upsert_row env (to_jsonb p) _) as [r|code]; simpl.
  - by rewrite Hu.
  - destruct Hu as (er & -> & Her). split; [done|]. simpl.
    by rewrite Her, mapStoredProcError_class.
Qed.

Lemma exec_agrees d env p check u w :
  (∀ r, kubernetes_resources (w_db w) !! p_key p = Some r → check r = content_equal (to_jsonb p) r) →
  upsert_agrees env p u →
  agree (observed (p_gvk p) (callStoredProc (mkWriter None d) CallAnswered env p w))
        (execWrite (mkWriter (Some quiet_hooks) d) quiet_hooks no_faults env p check u w).
Proof.
  intros Hc Hu. apply agree_observed.
  pose proof (upsert_branch_agrees d env p u w Hu) as Hup.
  unfold callStoredProc, pgctl_write, execWriteInner, readExisting in *. simpl in *.
  replace (set_db w (w_db w)) with w by by destruct w.
  change (p_key (to_jsonb p)) with (p_key p).
  change (p_gvk p, p_namespace p, p_name p) with (p_key p).
  destruct (negb (forceWrite p)), (0 <? expectedVersion p)%Z; simpl; try exact Hup.
  destruct (kubernetes_resources (w_db w) !! p_key p) as [r|] eqn:Hk; [|exact Hup].
  assert (Hst : stale (to_jsonb p) r = negb (row_version r =? expectedVersion p)%Z ||
     match expectedUID p with Some v => negb (row_uid r =? v)%Z | None => false end).
  { unfold stale. autorewrite with seaplane. simpl.
    by destruct (row_version r =? expectedVersion p)%Z, (expectedUID p) as [v|]; simpl;
      try destruct (row_uid r =? v)%Z. }
  rewrite Hst. destruct (negb _ || _); [done|].
  rewrite (Hc r) by done. destruct (content_equal (to_jsonb p) r); [|exact Hup].
  split; [by destruct w|done].
Qed.

Lemma upsert_write_agrees env req : upsert_agrees env (params_of_write req) (upsert_write no_faults env req).
Proof.
  intros e. unfold upsert_row, upsert_write. simpl.
  change (expectedVersion (to_jsonb (params_of_write req))) with (wr_ExpectedVersion req).
  set (p := to_jsonb (params_of_write req)).
  destruct (wr_ExpectedVersion req =? 0)%Z.
  - unfold create_row, at_stage. simpl. destruct (insert_row env p e) as [r|code] eqn:Hi; [done|].
    destruct (String.eqb_spec code sqlstate_unique) as [->|Hne].
    + destruct e as [r0|]; [|eauto]. destruct (is_tombstone r0); [|eauto].
      unfold insert_row, revive_row, not_null, mbind, result_bind in *.
      destruct (p_spec p), (p_status p), (p_metadata p); simpl in *; by simplify_eq.
    + eexists. split; [done|]. simpl. unfold insert_row, not_null, mbind, result_bind in Hi.
      repeat case_match; simplify_eq; done.
  - destruct e as [r0|]; [|eauto]. destruct (matches_expected p r0); [|eauto].
    unfold at_stage; simpl.
    destruct (update_object env p r0) as [r|code] eqn:Hu; [done|]. eexists. split; [done|].
    unfold update_object, bump_version, not_null, mbind, result_bind in Hu.
    repeat case_match; simplify_eq; done.
Qed.

Lemma upsert_status_agrees env req :
  swr_ExpectedVersion req ≠ 0%Z →
  upsert_agrees env (params_of_status req) (upsert_status no_faults env req).
Proof.
  intros Hv%Z.eqb_neq e. unfold upsert_row, upsert_status. simpl. rewrite Hv.
  set (p := to_jsonb (params_of_status req)).
  destruct e as [r0|]; [|eauto]. destruct (matches_expected p r0); [|eauto].
  unfold at_stage; simpl.
  destruct (update_status env p r0) as [r|code] eqn:Hu; [done|]. eexists. split; [done|].
  unfold update_status, bump_version, not_null, mbind, result_bind in Hu.
  repeat case_match; simplify_eq; done.
Qed.

Lemma upsert_object_agrees env req :
  owr_ExpectedVersion req ≠ 0%Z →
  upsert_agrees env (params_of_object req) (upsert_object no_faults env req).
Proof.
  intros Hv%Z.eqb_neq e. unfold upsert_row, upsert_object. simpl. rewrite Hv.
  set (p := to_jsonb (params_of_object req)).
  destruct e as [r0|]; [|eauto]. destruct (matches_expected p r0); [|eauto].
  unfold at_stage; simpl.
  destruct (update_object env p r0) as [r|code] eqn:Hu; [done|]. eexists. split; [done|].
  unfold update_object, bump_version, not_null, mbind, result_bind in Hu.
  repeat case_match; simplify_eq; done.
Qed.

Definition write_exact (req : WriteRequest) : Prop :=
  raw_exact (wr_Spec req) ∧ raw_exact (wr_Status req) ∧ raw_exact (wr_Metadata req).
Definition object_exact (req : ObjectWriteRequest) : Prop :=
  raw_exact (owr_Spec req) ∧ raw_exact (owr_Metadata req).

(** C28: the production path (one stored-procedure call) and the multi-statement
    transaction are interchangeable where nothing goes wrong in between: on a database of
    normalised documents, for a request whose numbers survive float64, when the call is
    answered, no statement fails and no hook does anything, [Write] with a status given,
    [WriteStatus] and [WriteObject] leave the same database, rings and metrics by either
    path, and return the same result up to the class of the error, the SQLSTATE of an
    unexpected failure included. *)
Theorem paths_agree (d : bool) (e : WriteEnv) (w : World) :
  db_ok (w_db w) → we_call e = CallAnswered → we_faults e = no_faults →
  let proc := mkWriter None d in
  let multi := mkWriter (Some quiet_hooks) d in
  (∀ req, write_exact req → wr_Status req ≠ None → agree (Write proc e req w) (Write multi e req w)) ∧
  (∀ req, raw_exact (swr_Status req) → agree (WriteStatus proc e req w) (WriteStatus multi e req w)) ∧
  (∀ req, object_exact req → agree (WriteObject proc e req w) (WriteObject multi e req w)).
Proof.
  intros Hdb Hcall Hf proc multi. split_and!.
  - intros req (Hs & Hst & Hm) Hn. unfold Write, proc, multi; simpl. rewrite Hcall, Hf.
    apply exec_agrees; [|apply upsert_write_agrees].
    intros r Hr. destruct (Hdb _ _ Hr) as (H1 & H2 & H3).
    rewrite !JSONEqual_stored, timeEqual_sql, content_equal_object by done.
    simpl. by destruct (wr_Status req).
  - intros req Hs. unfold WriteStatus, proc, multi; simpl.
    destruct (Z.eqb_spec (swr_ExpectedVersion req) 0) as [|Hv]; [done|]. rewrite Hcall, Hf.
    apply exec_agrees; [|by apply upsert_status_agrees].
    intros r Hr. destruct (Hdb _ _ Hr) as (H1 & H2 & H3). by rewrite JSONEqual_stored.
  - intros req (Hs & Hm). unfold WriteObject, proc, multi; simpl.
    destruct (Z.eqb_spec (owr_ExpectedVersion req) 0) as [|Hv]; [done|]. rewrite Hcall, Hf.
    apply exec_agrees; [|by apply upsert_object_agrees].
    intros r Hr. destruct (Hdb _ _ Hr) as (H1 & H2 & H3).
    rewrite !JSONEqual_stored, timeEqual_sql, content_equal_object by done.
    simpl. by rewrite andb_true_r.
Qed.

(** A concrete store: one live object at version 3. *)
Definition sample_row : Row :=
  mkRow 77 40 3 (JObj [("replicas", JNum 2)]) (JObj []) (JObj [("generation", JNum 1)]) None 1000 2000.
Definition sample_key : key := ("g/v1/Widget", "account-1", "w").
Definition sample_db : Db := mkDb {[ sample_key := sample_row ]} ∅.
Definition sample_world : World := mkWorld sample_db [] None.
Definition sample_env : WriteEnv := mkWriteEnv (mkTxEnv 50 3000 99) CallAnswered no_faults.
Definition sample_update : WriteRequest :=
  mkWriteRequest "g/v1/Widget" "account-1" "w" (Some (JObj [("replicas", JNum 5)])) (Some (JObj []))
    (Some (JObj [("generation", JNum 2)])) None 3 (Some 77%Z) false.

#[export] Instance doc_ok_dec j : Decision (doc_ok j).
Proof. unfold doc_ok. apply _. Defined.
#[export] Instance row_ok_dec r : Decision (row_ok r).
Proof. unfold row_ok. apply _. Defined.

Lemma sample_db_ok : db_ok sample_db.
Proof. unfold db_ok. apply map_Forall_singleton. by_decide. Qed.

Lemma paths_agree_witness :
  agree (Write (mkWriter None true) sample_env sample_update sample_world)
        (Write (mkWriter (Some quiet_hooks) true) sample_env sample_update sample_world).
Proof.
  apply (paths_agree true sample_env sample_world sample_db_ok eq_refl eq_refl); [|discriminate].
  split_and!; reflexivity.
Defined.

(** ** The contract of [Write] *)

(** The precondition names the current incarnation and version of the object. *)
Definition current (req : WriteRequest) (r : Row) : Prop :=
  row_version r = wr_ExpectedVersion req ∧ (∀ u, wr_ExpectedUID req = Some u → row_uid r = u).

(** What [Write] promises for one object, [pre] and [post] being the stored object
    before and after: the request's documents are [spec], [status], [metadata]. *)
Inductive write_spec (env : TxEnv) (req : WriteRequest) (spec status metadata : json) :
    option Row → option Row → result werror WriteResult → Prop :=
| spec_create :
    wr_ExpectedVersion req = 0%Z →
    write_spec env req spec status metadata None
      (Some (mkRow (env_uuid env) (env_txid env) 1 spec status metadata (wr_DeletionTimestamp req)
               (env_now env) (env_now env)))
      (Ok (mkWriteResult (env_txid env) 1 (env_uuid env) true))
| spec_revive r0 :
    wr_ExpectedVersion req = 0%Z → is_tombstone r0 = true →
    write_spec env req spec status metadata (Some r0)
      (Some (mkRow (env_uuid env) (env_txid env) 1 spec status metadata None (env_now env) (env_now env)))
      (Ok (mkWriteResult (env_txid env) 1 (env_uuid env) true))
| spec_exists r0 :
    wr_ExpectedVersion req = 0%Z → is_tombstone r0 = false →
    write_spec env req spec status metadata (Some r0) (Some r0) (Err ErrAlreadyExists)
| spec_noop r0 :
    (0 < wr_ExpectedVersion req)%Z → current req r0 → wr_ForceWrite req = false →
    row_spec r0 = spec → row_status r0 = status → row_metadata r0 = metadata →
    row_deletion r0 = wr_DeletionTimestamp req →
    write_spec env req spec status metadata (Some r0) (Some r0)
      (Ok (mkWriteResult 0 (row_version r0) (row_uid r0) false))
| spec_update r0 :
    (0 < wr_ExpectedVersion req)%Z → current req r0 →
    (wr_ForceWrite req = true ∨ row_spec r0 ≠ spec ∨ row_status r0 ≠ status ∨
     row_metadata r0 ≠ metadata ∨ row_deletion r0 ≠ wr_DeletionTimestamp req) →
    write_spec env req spec status metadata (Some r0)
      (Some (mkRow (row_uid r0) (env_txid env) (row_version r0 + 1) spec status metadata
               (wr_DeletionTimestamp req) (row_created r0) (env_now env)))
      (Ok (mkWriteResult (env_txid env) (row_version r0 + 1) (row_uid r0) true))
| spec_conflict pre :
    (0 < wr_ExpectedVersion req)%Z → (∀ r0, pre = Some r0 → ¬ current req r0) →
    write_spec env req spec status metadata pre pre (Err ErrConflict).

Lemma content_equal_iff p r spec status metadata :
  statusOnly p = false → p_spec p = Some spec → p_status p = Some status → p_metadata p = Some metadata →
  content_equal p r = true ↔
  row_spec r = spec ∧ row_status r = status ∧ row_metadata r = metadata ∧ row_deletion r = p_deletion_ts p.
Proof.
  intros H Hs Ht Hm. rewrite content_equal_object by done. rewrite Hs, Ht, Hm.
  unfold jsonb_eq, sql_eq, sql_is_null. change (sql_holds (Some false)) with false.
  rewrite orb_false_l.
  assert (Hj : ∀ a b, sql_holds (Some (json_eqb a b)) = true ↔ a = b).
  { intros a b. rewrite <- json_eqb_eq. simpl. by destruct (json_eqb a b). }
  assert (Ho : sql_holds (sql_not_distinct Z.eqb (row_deletion r) (p_deletion_ts p)) = true
               ↔ row_deletion r = p_deletion_ts p).
  { destruct (row_deletion r) as [a|], (p_deletion_ts p) as [b|]; simpl; try naive_solver.
    destruct (Z.eqb_spec a b); naive_solver. }
  rewrite !andb_true_iff, Ho, !Hj. naive_solver.
Qed.

(** The database and the result of an answered call, as the procedure gives them. *)
Definition result_of (o : pgctl_out) : WriteResult :=
  mkWriteResult (if out_changed o then out_txid o else 0) (out_version o) (out_uid o) (out_changed o).

Lemma observeResult_db gvk r w : w_db (observeResult gvk r w) = w_db w.
Proof. unfold observeResult. by destruct (w_metrics w). Qed.

Lemma observed_db gvk x : w_db (observed gvk x).1 = w_db x.1.
Proof. apply observeResult_db. Qed.

Lemma ring_db d gvk w : w_db (ring d gvk w) = w_db w.
Proof. by destruct d. Qed.

Lemma callStoredProc_answered wr env p w :
  let x := callStoredProc wr CallAnswered env p w in
  match pgctl_write env (to_jsonb p) (w_db w) with
  | Ok (db', o) => w_db x.1 = db' ∧ x.2 = Ok (result_of o)
  | Err code => x.1 = w ∧ x.2 = Err (mapStoredProcError code)
  end.
Proof.
  unfold callStoredProc, result_of. destruct (pgctl_write _ _ _) as [[db' o]|code]; [|done].
  destruct o as [? ? ? []]; simpl; [by rewrite ring_db|done].
Qed.

Section contract.
Context (env : TxEnv) (req : WriteRequest) (spec status metadata : json).
Let p := to_jsonb (params_of_write req).
Context (Hs : p_spec p = Some spec) (Ht : p_status p = Some status) (Hm : p_metadata p = Some metadata).
Local Notation write_spec := (write_spec env req spec status metadata).

(** One call on a row: the post-state is the row written, or the row as it was. *)
Definition answers (pre : option Row) (a : result string (option Row * pgctl_out)) : Prop :=
  match a with
  | Ok (post, o) => write_spec pre post (Ok (result_of o))
  | Err code => write_spec pre pre (Err (mapStoredProcError code))
  end.

Lemma upsert_create_spec pre :
  wr_ExpectedVersion req = 0%Z →
  answers pre (r ← upsert_row env p pre;
               Ok (Some r, mkOut (row_uid r) (row_version r) (env_txid env) true)).
Proof.
  intros Hv. unfold upsert_row. change (expectedVersion p) with (wr_ExpectedVersion req).
  rewrite Hv. simpl. unfold create_row, insert_row, revive_row. rewrite Hs, Ht, Hm. simpl.
  destruct pre as [r0|]; simpl; [|by apply spec_create].
  destruct (is_tombstone r0) eqn:E; simpl; [by apply spec_revive|by apply spec_exists].
Qed.

Lemma upsert_update_spec pre :
  (0 < wr_ExpectedVersion req)%Z → (∀ r0, pre = Some r0 → (row_version r0 < max_int64)%Z) →
  (∀ r0, pre = Some r0 → matches_expected p r0 = true →
     wr_ForceWrite req = true ∨ content_equal p r0 = false) →
  answers pre (r ← upsert_row env p pre;
               Ok (Some r, mkOut (row_uid r) (row_version r) (env_txid env) true)).
Proof.
  intros Hv Hmax Hdiff. unfold upsert_row. change (expectedVersion p) with (wr_ExpectedVersion req).
  rewrite (proj2 (Z.eqb_neq _ _)) by lia. simpl.
  destruct pre as [r0|]; simpl; [|by apply spec_conflict].
  destruct (matches_expected p r0) eqn:Hme.
  - unfold update_object, bump_version. rewrite Hs, Ht, Hm, (proj2 (Z.ltb_lt _ _)) by auto. simpl.
    apply spec_update; [done|exact (proj1 (matches_expected_spec p r0) Hme)|].
    destruct (Hdiff r0 eq_refl Hme) as [?|Hce]; [by left|]. right.
    assert (Hnot := content_equal_iff p r0 spec status metadata eq_refl Hs Ht Hm).
    rewrite Hce in Hnot. destruct (decide (row_spec r0 = spec)), (decide (row_status r0 = status)),
      (decide (row_metadata r0 = metadata)), (decide (row_deletion r0 = wr_DeletionTimestamp req));
      naive_solver.
  - simpl. apply spec_conflict; [done|]. intros ? [= <-] Hc.
    apply (matches_expected_spec p r0) in Hc. congruence.
Qed.

Lemma pgctl_write_spec db :
  (0 ≤ wr_ExpectedVersion req)%Z →
  (∀ r0, kubernetes_resources db !! p_key p = Some r0 → (row_version r0 < max_int64)%Z) →
  answers (kubernetes_resources db !! p_key p)
    ((fun x => (kubernetes_resources x.1 !! p_key p, x.2)) <$> pgctl_write env p db).
Proof.
  intros Hv Hmax. unfold pgctl_write.
  set (pre := kubernetes_resources db !! p_key p) in *.
  assert (Hshape : ∀ a, answers pre (r ← a; Ok (Some r, mkOut (row_uid r) (row_version r) (env_txid env) true)) →
    answers pre ((fun x : Db * pgctl_out => (kubernetes_resources x.1 !! p_key p, x.2)) <$>
      (r ← a; Ok (set_row db (p_key p) r, mkOut (row_uid r) (row_version r) (env_txid env) true)))).
  { intros [r|c]; simpl; [|done]. by rewrite lookup_insert_eq. }
  change (expectedVersion p) with (wr_ExpectedVersion req).
  change (forceWrite p) with (wr_ForceWrite req).
  destruct (Z.ltb_spec 0 (wr_ExpectedVersion req)) as [Hpos|Hz]; [|].
  2:{ rewrite andb_false_r. apply Hshape, upsert_create_spec. lia. }
  destruct (wr_ForceWrite req) eqn:Hf; simpl.
  { apply Hshape, upsert_update_spec; auto. }
  destruct pre as [r0|] eqn:Hpre; [|by apply Hshape, upsert_update_spec].
  rewrite stale_matches. destruct (matches_expected p r0) eqn:Hme; simpl.
  - destruct (content_equal p r0) eqn:Hce; simpl.
    + fold pre. rewrite Hpre.
      apply (content_equal_iff p r0 spec status metadata eq_refl Hs Ht Hm) in Hce.
      destruct Hce as (? & ? & ? & ?).
      apply spec_noop; try done. exact (proj1 (matches_expected_spec p r0) Hme).
    + apply Hshape, upsert_update_spec; naive_solver.
  - apply spec_conflict; [done|]. intros ? [= <-] Hc.
    apply (matches_expected_spec p r0) in Hc. congruence.
Qed.
End contract.

(** C27: on every request that carries its three documents and every state of the
    object, the production [Write] (answered by the server) behaves exactly as the
    contract says: create, revival of a tombstone, refusal of an existing object,
    suppressed no-op, update or conflict; every other object and the horizons are
    untouched. *)
Theorem Write_refines_spec (d : bool) (env : TxEnv) (req : WriteRequest) (spec status metadata : json) (w : World) :
  wr_Spec req = Some spec → wr_Status req = Some status → wr_Metadata req = Some metadata →
  (0 ≤ wr_ExpectedVersion req)%Z →
  let k := (wr_GVK req, wr_Namespace req, wr_Name req) in
  (∀ r0, kubernetes_resources (w_db w) !! k = Some r0 → (row_version r0 < max_int64)%Z) →
  let '(w', res) := Write (mkWriter None d) (mkWriteEnv env CallAnswered no_faults) req w in
  write_spec env req (canon spec) (canon status) (canon metadata)
    (kubernetes_resources (w_db w) !! k) (kubernetes_resources (w_db w') !! k) res ∧
  (∀ k', k' ≠ k → kubernetes_resources (w_db w') !! k' = kubernetes_resources (w_db w) !! k') ∧
  compaction_horizon (w_db w') = compaction_horizon (w_db w).
Proof.
  intros Hs Ht Hm Hv k Hmax.
  set (p := to_jsonb (params_of_write req)).
  assert (Hp : p_spec p = Some (canon spec) ∧ p_status p = Some (canon status) ∧
               p_metadata p = Some (canon metadata)) by (unfold p; simpl; by rewrite Hs, Ht, Hm).
  destruct Hp as (Hps & Hpt & Hpm).
  pose proof (pgctl_write_spec env req _ _ _ Hps Hpt Hpm (w_db w) Hv Hmax) as Hspec.
  pose proof (callStoredProc_answered (mkWriter None d) env (params_of_write req) w) as Hcall.
  unfold Write, writeStoredProc, observed. cbn [hooks we_call we_tx]. fold p in Hspec, Hcall.
  rewrite observeResult_db.
  destruct (callStoredProc _ _ _ _ _) as [w' res]. simpl in Hcall |- *.
  destruct (pgctl_write env p (w_db w)) as [[db' o]|code] eqn:Hw.
  - destruct Hcall as [<- ->]. split; [exact Hspec|].
    destruct (pgctl_write_ok _ _ _ _ _ Hw) as [(r & ? & ? & ? & ? & ? & -> & ?)|(r & ? & -> & ?)]; [done|].
    split; [|done]. intros k' Hne. simpl. by rewrite lookup_insert_ne.
  - destruct Hcall as [-> ->]. by split.
Qed.

Lemma Write_refines_spec_witness :
  write_spec (mkTxEnv 50 3000 99) sample_update (JObj [("replicas", JNum 5)]) (JObj [])
    (JObj [("generation", JNum 2)]) (Some sample_row)
    (Some (mkRow 77 50 4 (JObj [("replicas", JNum 5)]) (JObj []) (JObj [("generation", JNum 2)]) None 1000 3000))
    (Ok (mkWriteResult 50 4 77 true)).
Proof.
  assert (Hv : (0 ≤ wr_ExpectedVersion sample_update)%Z) by by_decide.
  assert (Hmax : ∀ r0, kubernetes_resources (w_db sample_world) !! sample_key = Some r0 →
    (row_version r0 < max_int64)%Z) by (intros r0 [= <-]; reflexivity).
  exact (proj1 (Write_refines_spec true (mkTxEnv 50 3000 99) sample_update _ _ _ sample_world
    eq_refl eq_refl eq_refl Hv Hmax)).
Defined.

(** ** Histories: incarnations never repeat a version *)

(** Any sequence of committed writes and compactions; [gen_random_uuid] never
    returns a UUID it returned before. *)
Inductive store_step : Db * gset uuid → Db * gset uuid → Prop :=
| step_write env p db used db' o :
    env_uuid env ∉ used → pgctl_write env p db = Ok (db', o) →
    store_step (db, used) (db', {[env_uuid env]} ∪ used)
| step_compact cfg now db used :
    store_step (db, used) ((Compaction.Compact cfg now db).1, used).

Definition uids_used (s : Db * gset uuid) : Prop :=
  map_Forall (fun _ r => row_uid r ∈ s.2) (kubernetes_resources s.1).

(** How the object [r] read at [k] may look later: the same incarnation only at a
    later version, or untouched. *)
Definition evolves (k : key) (r : Row) (s : Db * gset uuid) : Prop :=
  row_uid r ∈ s.2 ∧
  ∀ r', kubernetes_resources s.1 !! k = Some r' → row_uid r' = row_uid r →
    (row_version r ≤ row_version r')%Z ∧ (row_version r' = row_version r → r' = r).

Lemma evolves_write k r env p db used db' o :
  env_uuid env ∉ used → pgctl_write env p db = Ok (db', o) →
  evolves k r (db, used) → evolves k r (db', {[env_uuid env]} ∪ used).
Proof.
  intros Hfresh Hw [Hu He]. simpl in *. split; [set_solver|]. intros r' Hr' Hid. simpl in *.
  destruct (pgctl_write_ok _ _ _ _ _ Hw) as [(r0 & ? & ? & ? & ? & ? & -> & ?)|(r1 & Hup & -> & ?)].
  { by apply He. }
  simpl in Hr'. destruct (decide (p_key p = k)) as [Hk|Hk].
  2:{ rewrite lookup_insert_ne in Hr' by done. by apply He. }
  rewrite Hk, lookup_insert_eq in Hr'. simplify_eq.
  destruct (decide (expectedVersion p = 0%Z)) as [Hz|Hnz].
  - destruct (upsert_row_create _ _ _ _ Hz Hup) as (_ & _ & Hid' & _).
    destruct Hfresh. by rewrite <- Hid', Hid.
  - destruct (upsert_row_update _ _ _ _ Hnz Hup) as (r0 & Hr0 & _ & Hid0 & Hv & _).
    destruct (He r0 Hr0) as [Hle _]; [congruence|]. split; [lia|]. lia.
Qed.

Lemma evolves_step k r s s' : store_step s s' → evolves k r s → evolves k r s'.
Proof.
  intros Hstep. destruct Hstep as [env p db used db' o Hf Hw|cfg now db used].
  - by eapply evolves_write.
  - intros [Hu He]. split; [done|]. intros r' Hr'. apply He. by eapply Compaction.Compact_keeps.
Qed.

Lemma evolves_rtc k r s s' :
  rtc store_step s s' → uids_used s → kubernetes_resources s.1 !! k = Some r → evolves k r s'.
Proof.
  intros Hrtc Hu Hk. assert (He : evolves k r s).
  { split; [exact (Hu _ _ Hk)|]. intros r' Hr' _. simplify_eq. split; [lia|done]. }
  clear Hu Hk. induction Hrtc; [done|]. eauto using evolves_step.
Qed.

(** C12: optimistic concurrency and incarnation safety (I6): a client that read
    object [r] and later presents its version and UID, after any history of
    writes, deletions, revivals and compactions in which the stored object is no
    longer [r], gets a conflict and changes nothing: no lost update, and no update
    of a namesake created since. *)
Theorem stale_writer_rejected (d : bool) (s s' : Db * gset uuid) (r : Row) (env : TxEnv) (req : WriteRequest)
    (w : World) :
  rtc store_step s s' → uids_used s →
  let k := (wr_GVK req, wr_Namespace req, wr_Name req) in
  kubernetes_resources s.1 !! k = Some r → kubernetes_resources s'.1 !! k ≠ Some r →
  (0 < row_version r)%Z →
  wr_ExpectedVersion req = row_version r → wr_ExpectedUID req = Some (row_uid r) →
  w_db w = s'.1 →
  let x := Write (mkWriter None d) (mkWriteEnv env CallAnswered no_faults) req w in
  x.2 = Err ErrConflict ∧ w_db x.1 = s'.1.
Proof.
  intros Hrtc Hu k Hk Hne Hpos Hv Huid Hw x.
  destruct (evolves_rtc _ _ _ _ Hrtc Hu Hk) as [_ He].
  set (p := to_jsonb (params_of_write req)).
  assert (Hstale : ∀ r', kubernetes_resources s'.1 !! k = Some r' → matches_expected p r' = false).
  { intros r' Hr'. destruct (matches_expected p r') eqn:Hm; [|done].
    apply matches_expected_spec in Hm as [Hver Hid]. unfold p in *; simpl in *.
    destruct (He r' Hr') as [_ Hsame]; [by apply Hid|].
    destruct Hne. rewrite Hr'. f_equal. apply Hsame. congruence. }
  assert (Hconf : pgctl_write env p (w_db w) = Err sqlstate_conflict).
  { unfold pgctl_write, upsert_row. rewrite Hw. change (p_key p) with k.
    change (expectedVersion p) with (wr_ExpectedVersion req). rewrite Hv.
    rewrite (proj2 (Z.eqb_neq _ _)) by lia. change (statusOnly p) with false.
    destruct (kubernetes_resources s'.1 !! k) as [r'|] eqn:Hr'.
    - rewrite stale_matches, (Hstale r') by done. by destruct (negb (forceWrite p) && _).
    - by destruct (negb (forceWrite p) && _). }
  pose proof (callStoredProc_answered (mkWriter None d) env (params_of_write req) w) as Hcall.
  fold p in Hcall. rewrite Hconf in Hcall. destruct Hcall as [Hc1 Hc2].
  unfold x, Write, writeStoredProc. cbn [hooks we_call we_tx]. split; [exact Hc2|].
  rewrite observed_db. cbn [we_call we_tx]. by rewrite Hc1.
Qed.

(** The store after another client's update of the sample object to version 4. *)
Definition other_update : writeParams :=
  mkWriteParams false "g/v1/Widget" "account-1" "w" 3 (Some 77%Z) false
    (Some (JObj [("replicas", JNum 9)])) None (Some (JObj [("generation", JNum 2)])) None.
Definition sample_db' : Db :=
  mkDb {[ sample_key := mkRow 77 45 4 (JObj [("replicas", JNum 9)]) (JObj [])
                          (JObj [("generation", JNum 2)]) None 1000 2500 ]} ∅.

Lemma other_update_step : store_step (sample_db, {[77%Z]}) (sample_db', {[98%Z]} ∪ {[77%Z]}).
Proof.
  apply (step_write (mkTxEnv 45 2500 98) other_update _ _ _ (mkOut 77 4 45 true));
    [set_solver|vm_compute; reflexivity].
Qed.

Lemma stale_writer_rejected_witness :
  let x := Write (mkWriter None true) (mkWriteEnv (mkTxEnv 50 3000 99) CallAnswered no_faults)
             sample_update (mkWorld sample_db' [] None) in
  x.2 = Err ErrConflict ∧ w_db x.1 = sample_db'.
Proof.
  refine (stale_writer_rejected true (sample_db, {[77%Z]}) (sample_db', {[98%Z]} ∪ {[77%Z]}) sample_row
    (mkTxEnv 50 3000 99) sample_update (mkWorld sample_db' [] None) _ _ eq_refl _ eq_refl eq_refl eq_refl eq_refl).
  - apply rtc_once, other_update_step.
  - apply map_Forall_singleton. set_solver.
  - discriminate.
Defined.

(** ** Interleaving: the multi-statement transaction under arbitrary hooks *)

Lemma commit_upsert_ok wr h f env p u w w' res :
  commit_upsert wr h f env p u w = (w', Ok res) →
  let db1 := (AfterTxidAcquire h (env_txid env) (w_db w)).1 in
  ∃ r, u (kubernetes_resources db1 !! p_key p) = Ok r ∧
       w_db w' = set_row (BeforeCommit h db1).1 (p_key p) r ∧
       res = mkWriteResult (env_txid env) (row_version r) (row_uid r) true.
Proof.
  intros H db1. subst db1. unfold commit_upsert in H.
  destruct (f_txid f); [done|].
  destruct (AfterTxidAcquire h (env_txid env) (w_db w)) as [db1 [?|]]; [done|]. simpl in *.
  destruct (u _) as [r|]; [|done]. destruct (BeforeCommit h db1) as [db2 [?|]]; [done|].
  destruct (f_commit f); [|done]. simplify_eq. exists r. by rewrite ring_db.
Qed.

Lemma execWriteInner_changed wr h f env p c u w w' res :
  execWriteInner wr h f env p c u w = (w', Ok res) → res_Changed res = true →
  commit_upsert wr h f env p u (set_db w (AfterSuppressionCheck h false (w_db w)).1) = (w', Ok res).
Proof.
  unfold execWriteInner. intros H Hch.
  destruct (f_begin f); [done|]. cbv zeta in H.
  destruct (AfterSuppressionCheck h false (w_db w)) as [dbf [?|]] eqn:Hf,
           (AfterSuppressionCheck h true (w_db w)) as [dbt [?|]] eqn:Ht; simpl in *;
  repeat (case_match; simplify_eq/=; try done).
Qed.

(** whatever the hooks let other sessions commit between the suppression check,
    the txid acquisition and the commit, and whatever statements fail, an update
    that reports a change was applied to a row that carried the expected version
    and UID when the UPDATE ran, raised its version by exactly one, kept its
    identity and stamped it with the transaction's id. *)
Theorem multi_update_cas (wr : Writer) (h : TxHooks) (f : Faults) (env : TxEnv) (req : WriteRequest)
    (w w' : World) (res : WriteResult) :
  wr_ExpectedVersion req ≠ 0%Z →
  writeMultiStatement wr h f env req w = (w', Ok res) → res_Changed res = true →
  let k := (wr_GVK req, wr_Namespace req, wr_Name req) in
  let db1 := (AfterTxidAcquire h (env_txid env) (AfterSuppressionCheck h false (w_db w)).1).1 in
  ∃ r0 r, kubernetes_resources db1 !! k = Some r0 ∧ current req r0 ∧
    kubernetes_resources (w_db w') !! k = Some r ∧
    row_version r = (wr_ExpectedVersion req + 1)%Z ∧ row_uid r = row_uid r0 ∧
    row_txid r = env_txid env ∧
    res = mkWriteResult (env_txid env) (row_version r) (row_uid r) true.
Proof.
  intros Hv Hw Hch k db1. unfold writeMultiStatement, execWrite, observed in Hw.
  destruct (execWriteInner _ _ _ _ _ _ _ _) as [w1 res1] eqn:Hx. simpl in Hw. simplify_eq.
  apply execWriteInner_changed in Hx; [|done].
  apply commit_upsert_ok in Hx as (r & Hu & Hdb & Hres).
  change (p_key (params_of_write req)) with k in *. fold db1 in Hu. simpl in Hu. fold db1 in Hu.
  unfold upsert_write in Hu. rewrite (proj2 (Z.eqb_neq _ _)) in Hu by done.
  set (p := to_jsonb (params_of_write req)) in *.
  destruct (kubernetes_resources db1 !! k) as [r0|] eqn:Hk; [|done].
  destruct (matches_expected p r0) eqn:Hm; [|done].
  unfold at_stage in Hu. destruct (f_upsert f); [done|].
  destruct (update_object env p r0) as [r1|] eqn:Hup; [|done]. simplify_eq.
  assert (Hup' : upsert_row env p (Some r0) = Ok r).
  { unfold upsert_row. change (statusOnly p) with false.
    change (expectedVersion p) with (wr_ExpectedVersion req).
    by rewrite (proj2 (Z.eqb_neq _ _)), Hm by done. }
  destruct (upsert_row_update env p (Some r0) r Hv Hup') as (r0' & [= <-] & _ & Hid & Hver & _).
  pose proof (proj1 (matches_expected_spec p r0) Hm) as Hcur.
  exists r0, r. rewrite observeResult_db, Hdb. simpl. rewrite lookup_insert_eq.
  split_and!; try done; [by rewrite Hver, (proj1 Hcur)|by eapply upsert_row_txid].
Qed.

(** Hooks during which another session commits an unrelated object. *)
Definition noisy_hooks : TxHooks :=
  mkHooks (fun _ db => (set_row db ("g/v1/Widget", "account-2", "x") sample_row, None))
          (fun _ db => (set_row db ("g/v1/Widget", "account-3", "y") sample_row, None))
          (fun db => (db, None)).

Lemma multi_update_cas_witness :
  let x := writeMultiStatement (mkWriter (Some noisy_hooks) true) noisy_hooks no_faults
             (mkTxEnv 50 3000 99) sample_update sample_world in
  x.2 = Ok (mkWriteResult 50 4 77 true) ∧
  ∃ r0 r, current sample_update r0 ∧
    kubernetes_resources (w_db x.1) !! sample_key = Some r ∧ row_version r = 4%Z ∧ row_uid r = row_uid r0.
Proof.
  set (x := writeMultiStatement _ _ _ _ _ _). assert (Hx : x.2 = Ok (mkWriteResult 50 4 77 true)) by reflexivity.
  split; [exact Hx|].
  destruct (multi_update_cas (mkWriter (Some noisy_hooks) true) noisy_hooks no_faults (mkTxEnv 50 3000 99)
    sample_update sample_world x.1 (mkWriteResult 50 4 77 true)) as (r0 & r & ? & ? & ? & ? & ? & ? & ?);
    [discriminate|reflexivity|reflexivity|].
  by exists r0, r.
Defined.

(** An answered call that succeeds on an existing object: the row stays, or is the
    row the upsert writes; nothing else moves. *)
Lemma call_update_effect d env p w :
  is_ok (callStoredProc (mkWriter None d) CallAnswered env p w).2 = true →
  expectedVersion p ≠ 0%Z →
  let db' := w_db (callStoredProc (mkWriter None d) CallAnswered env p w).1 in
  (∀ k', k' ≠ p_key p → kubernetes_resources db' !! k' = kubernetes_resources (w_db w) !! k') ∧
  ∃ r r', kubernetes_resources (w_db w) !! p_key p = Some r ∧ kubernetes_resources db' !! p_key p = Some r' ∧
    (r' = r ∨ upsert_row env (to_jsonb p) (Some r) = Ok r').
Proof.
  intros Hok Hv. pose proof (callStoredProc_answered (mkWriter None d) env p w) as Hc.
  cbv zeta in *. destruct (callStoredProc _ _ _ _ _) as [w' res]. simpl in *.
  destruct (pgctl_write env (to_jsonb p) (w_db w)) as [[db' o]|] eqn:Hw; [|by destruct Hc as [-> ->]].
  destruct Hc as [<- ->]. change (p_key (to_jsonb p)) with (p_key p) in *.
  destruct (pgctl_write_ok _ _ _ _ _ Hw) as [(r & Hr & _ & _ & _ & _ & Hdb & _)|(r' & Hup & Hdb & _)].
  - rewrite Hdb. split; [done|]. exists r, r. auto.
  - rewrite Hdb. split; [intros k' Hne; simpl; by rewrite lookup_insert_ne|].
    destruct (upsert_row_update env (to_jsonb p) _ r' Hv Hup) as (r0 & Hr0 & _).
    change (p_key (to_jsonb p)) with (p_key p) in *.
    exists r0, r'. simpl. rewrite lookup_insert_eq. rewrite Hr0 in Hup. auto.
Qed.

(** [WriteStatus] and [WriteObject] touch disjoint parts of an object: an
    answered status write changes nothing but the status, an object write nothing
    but spec, metadata and deletion timestamp (plus version, stamp and update
    time); identity and creation time survive both, other objects are untouched. *)
Theorem subresource_isolation (d : bool) (env : TxEnv) (sreq : StatusWriteRequest) (oreq : ObjectWriteRequest) (w : World) :
  let wr := mkWriter None d in
  let e := mkWriteEnv env CallAnswered no_faults in
  (let x := WriteStatus wr e sreq w in
   let k := (swr_GVK sreq, swr_Namespace sreq, swr_Name sreq) in
   is_ok x.2 = true →
   (∀ k', k' ≠ k → kubernetes_resources (w_db x.1) !! k' = kubernetes_resources (w_db w) !! k') ∧
   ∃ r r', kubernetes_resources (w_db w) !! k = Some r ∧ kubernetes_resources (w_db x.1) !! k = Some r' ∧
     row_spec r' = row_spec r ∧ row_metadata r' = row_metadata r ∧ row_deletion r' = row_deletion r ∧
     row_uid r' = row_uid r ∧ row_created r' = row_created r) ∧
  (let x := WriteObject wr e oreq w in
   let k := (owr_GVK oreq, owr_Namespace oreq, owr_Name oreq) in
   is_ok x.2 = true →
   (∀ k', k' ≠ k → kubernetes_resources (w_db x.1) !! k' = kubernetes_resources (w_db w) !! k') ∧
   ∃ r r', kubernetes_resources (w_db w) !! k = Some r ∧ kubernetes_resources (w_db x.1) !! k = Some r' ∧
     row_status r' = row_status r ∧ row_uid r' = row_uid r ∧ row_created r' = row_created r).
Proof.
  split; cbv zeta.
  - intros Hok. unfold WriteStatus in *. destruct (Z.eqb_spec (swr_ExpectedVersion sreq) 0); [done|].
    unfold writeStatusStoredProc in *. cbn [hooks we_call we_tx] in *. rewrite observed_db.
    destruct (call_update_effect d env (params_of_status sreq) w Hok) as (H1 & r & r' & Hr & Hr' & Hor); [done|].
    split; [exact H1|]. exists r, r'. split_and!; try done; destruct Hor as [->|Hup]; try done; by unfold_upsert Hup.
  - intros Hok. unfold WriteObject in *. destruct (Z.eqb_spec (owr_ExpectedVersion oreq) 0) as [|Hv]; [done|].
    unfold writeObjectStoredProc in *. cbn [hooks we_call we_tx] in *. rewrite observed_db.
    destruct (call_update_effect d env (params_of_object oreq) w Hok) as (H1 & r & r' & Hr & Hr' & Hor); [done|].
    split; [exact H1|]. exists r, r'. unfold upsert_row in Hor. simpl in Hor.
    rewrite (proj2 (Z.eqb_neq _ _)) in Hor by done.
    split_and!; try done; destruct Hor as [->|Hup]; try done; by unfold_upsert Hup.
Qed.

Lemma subresource_isolation_witness :
  is_ok (WriteStatus (mkWriter None true) sample_env
    (mkStatusWriteRequest "g/v1/Widget" "account-1" "w" (Some (JObj [("phase", JStr "Ready")])) 3 (Some 77%Z) false)
    sample_world).2 = true ∧
  ∃ r', kubernetes_resources (w_db (WriteStatus (mkWriter None true) sample_env
    (mkStatusWriteRequest "g/v1/Widget" "account-1" "w" (Some (JObj [("phase", JStr "Ready")])) 3 (Some 77%Z) false)
    sample_world).1) !! sample_key = Some r' ∧ row_spec r' = JObj [("replicas", JNum 2)].
Proof.
  set (sreq := mkStatusWriteRequest _ _ _ _ _ _ _). split; [reflexivity|].
  destruct (proj1 (subresource_isolation true (mkTxEnv 50 3000 99) sreq
    (mkObjectWriteRequest "" "" "" None None None 0 None false) sample_world) eq_refl)
    as (_ & r & r' & Hr & Hr' & Hs & _).
  exists r'. split; [exact Hr'|]. injection Hr as <-. exact Hs.
Defined.

(** ** Ambiguous commits *)

Lemma commit_upsert_ambiguous wr h f env p u w w' gvk ns name txid cause :
  commit_upsert wr h f env p u w = (w', Err (AmbiguousCommitError gvk ns name txid cause)) →
  (∀ e, u e ≠ Err (AmbiguousCommitError gvk ns name txid cause)) →
  let db1 := (AfterTxidAcquire h (env_txid env) (w_db w)).1 in
  ∃ r, u (kubernetes_resources db1 !! p_key p) = Ok r ∧ txid = env_txid env ∧ (gvk, ns, name) = p_key p ∧
    ∃ landed, f_commit f = CommitFailed landed cause ∧
      w_db w' = (if landed then set_row (BeforeCommit h db1).1 (p_key p) r else (BeforeCommit h db1).1).
Proof.
  intros H Hnu db1. subst db1. unfold commit_upsert in H.
  destruct (f_txid f); [done|].
  destruct (AfterTxidAcquire h (env_txid env) (w_db w)) as [db1 [?|]]; [done|]. simpl in *.
  destruct (u _) as [r|e] eqn:Hu; [|simplify_eq; by destruct (Hnu _ Hu)].
  destruct (BeforeCommit h db1) as [db2 [?|]]; [done|].
  destruct (f_commit f) as [|landed c]; [done|]. simplify_eq.
  exists r. split_and!; try done. by exists landed; destruct landed.
Qed.

Lemma execWriteInner_ambiguous wr h f env p c u w w' gvk ns name txid cause :
  execWriteInner wr h f env p c u w = (w', Err (AmbiguousCommitError gvk ns name txid cause)) →
  commit_upsert wr h f env p u (set_db w (AfterSuppressionCheck h false (w_db w)).1)
    = (w', Err (AmbiguousCommitError gvk ns name txid cause)).
Proof.
  unfold execWriteInner. intros H. destruct (f_begin f); [done|]. cbv zeta in H.
  destruct (AfterSuppressionCheck h false (w_db w)) as [dbf [?|]] eqn:Hf,
           (AfterSuppressionCheck h true (w_db w)) as [dbt [?|]] eqn:Ht; simpl in *;
  repeat (case_match; simplify_eq/=; try done).
Qed.

Lemma upsert_write_txid f env req e r : upsert_write f env req e = Ok r → row_txid r = env_txid env.
Proof.
  unfold upsert_write, at_stage. intros H.
  repeat (case_match; simplify_eq/=; try done);
    unfold insert_row, revive_row, update_object, not_null, bump_version, mbind, result_bind in *;
    by repeat (case_match; simplify_eq/=).
Qed.

Lemma upsert_write_not_ambiguous f env req e gvk ns name txid cause :
  upsert_write f env req e ≠ Err (AmbiguousCommitError gvk ns name txid cause).
Proof.
  unfold upsert_write, at_stage. intros H. by repeat (case_match; simplify_eq/=).
Qed.

(** [ReadBack] settles an ambiguous commit of the multi-statement path: when the
    commit call fails, the error names the object and the transaction, and reading
    back at that txid finds the object exactly when the commit landed (no other
    row of the object carries the transaction's id). *)
Theorem multi_readback_exact (wr : Writer) (h : TxHooks) (f : Faults) (env : TxEnv) (req : WriteRequest)
    (w w' : World) (gvk ns name : string) (txid : Z) (cause : option string) :
  writeMultiStatement wr h f env req w = (w', Err (AmbiguousCommitError gvk ns name txid cause)) →
  let db1 := (AfterTxidAcquire h (env_txid env) (AfterSuppressionCheck h false (w_db w)).1).1 in
  (∀ r, kubernetes_resources (BeforeCommit h db1).1 !! (wr_GVK req, wr_Namespace req, wr_Name req) = Some r →
     row_txid r ≠ env_txid env) →
  txid = env_txid env ∧ (gvk, ns, name) = (wr_GVK req, wr_Namespace req, wr_Name req) ∧
  ∃ landed, f_commit f = CommitFailed landed cause ∧
    (ReadBack (w_db w') gvk ns name txid ≠ None ↔ landed = true).
Proof.
  intros Hw db1 Hfresh. unfold writeMultiStatement, execWrite, observed in Hw.
  destruct (execWriteInner _ _ _ _ _ _ _ _) as [w1 res1] eqn:Hx. simpl in Hw. simplify_eq.
  apply execWriteInner_ambiguous in Hx.
  apply commit_upsert_ambiguous in Hx; [|intros e; apply upsert_write_not_ambiguous].
  destruct Hx as (r & Hu & Htx & Hk & landed & Hl & Hdb).
  split; [done|]. split; [done|]. exists landed. split; [done|].
  injection Hk as -> -> ->. unfold ReadBack. rewrite observeResult_db, Hdb, Htx.
  assert (Hrt : row_txid r = env_txid env) by by eapply upsert_write_txid.
  destruct landed; simpl.
  - rewrite lookup_insert_eq. by rewrite (proj2 (Z.eqb_eq _ _) Hrt).
  - fold db1.
    destruct (kubernetes_resources (BeforeCommit h db1).1 !! (wr_GVK req, wr_Namespace req, wr_Name req))
      as [r2|] eqn:Hr2.
    + rewrite (proj2 (Z.eqb_neq _ _)) by (by apply Hfresh). split; congruence.
    + split; congruence.
Qed.

Lemma multi_readback_exact_witness :
  let f := mkFaults None None None None None None None (CommitFailed true None) in
  let x := writeMultiStatement (mkWriter (Some quiet_hooks) true) quiet_hooks f (mkTxEnv 50 3000 99)
             sample_update sample_world in
  ReadBack (w_db x.1) "g/v1/Widget" "account-1" "w" 50 ≠ None.
Proof.
  intros f x.
  destruct (multi_readback_exact (mkWriter (Some quiet_hooks) true) quiet_hooks f (mkTxEnv 50 3000 99)
    sample_update sample_world x.1 "g/v1/Widget" "account-1" "w" 50 None) as (_ & _ & l & Hl & Hiff).
  - reflexivity.
  - intros r [= <-]. discriminate.
  - apply Hiff. by injection Hl as <-.
Defined.

(** a production write rings the doorbell of its GVK exactly when the server
    answered that the object changed; a no-op, an error and a lost answer ring
    nothing. *)
Theorem doorbell_iff_changed (d : bool) (e : WriteEnv) (req : WriteRequest) (w : World) :
  let x := Write (mkWriter None d) e req w in
  w_rung x.1 = (w_rung w ++ (if d && match x.2 with Ok res => res_Changed res | Err _ => false end
                             then [wr_GVK req] else []))%list.
Proof.
  unfold Write, writeStoredProc, observed. cbn [hooks].
  assert (Ho : ∀ r v, w_rung (observeResult (wr_GVK req) r v) = w_rung v)
    by (intros r v; unfold observeResult; by destruct (w_metrics v)).
  simpl. rewrite Ho. unfold callStoredProc.
  destruct (we_call e); [|by rewrite andb_false_r, app_nil_r].
  destruct (pgctl_write _ _ _) as [[db' o]|code]; simpl; [|by rewrite andb_false_r, app_nil_r].
  destruct (out_changed o); simpl; [|by rewrite andb_false_r, app_nil_r].
  destruct d; simpl; [done|by rewrite app_nil_r].
Qed.
