(* ===== verification/Sql.v ===== *)
(** * The SQL predicates the readers build

    The Go code assembles WHERE clauses as text with [$n] placeholders. A clause
    is kept here as a term with its placeholder numbers: [render] is the text the
    code writes, [eval] is PostgreSQL's three-valued evaluation of it on a row.
    [hashtext] (PostgreSQL's hash function) and [jsonb_out] (the text of a jsonb
    array or object) are the server's. *)
From S2P Require Import Prelude GoStrings Json Db.
From stdpp Require Import base strings list gmap.
From Stdlib Require Import ZArith Lia Ascii String.
Open Scope string_scope.

Inductive sqlarg :=
| ArgText (s : string)
| ArgInt (z : Z)
| ArgInts (l : list Z)
| ArgJson (j : json).

#[export] Instance sqlarg_eq_dec : EqDecision sqlarg.
Proof. solve_decision. Defined.

(** The left-hand side of a field-selector clause. *)
Inductive column :=
| ColName
| ColNamespace
| ColUid
| ColPath (root : string) (segments : list string).

Inductive cmp_op := OpEq | OpNe.
Inductive num_op := OpGt | OpLt.

Inductive clause :=
| CShard (start : nat)
| CNamespace (i : nat)
| CField (c : column) (op : cmp_op) (i : nat)
| CLabelAny (ids : list nat)
| CLabelNone (ids : list nat)
| CLabelNum (op : num_op) (i : nat)
| CLabelExists (i : nat)
| CLabelMissing (i : nat)
| CTrue
| CFalse.

(** ** Text *)

Definition dollar (i : nat) : string := "$" +:+ FormatUint (Z.of_nat i).

(** [column->'a'->>'b'] *)
Fixpoint render_path (segments : list string) : string :=
  match segments with
  | [] => ""
  | [seg] => "->>'" +:+ seg +:+ "'"
  | seg :: rest => "->'" +:+ seg +:+ "'" +:+ render_path rest
  end.

Definition render_column (c : column) : string :=
  match c with
  | ColName => "name"
  | ColNamespace => "namespace"
  | ColUid => "uid::text"
  | ColPath root segments => root +:+ render_path segments
  end.

Definition render_match (i : nat) : string := "(metadata->'labels' @> " +:+ dollar i +:+ "::jsonb)".

Definition render_num (op : num_op) (i : nat) : string :=
  let labelValue := "(metadata->'labels'->>" +:+ dollar i +:+ ")" in
  "(CASE WHEN " +:+ labelValue +:+ " ~ '^[+-]?[0-9]+$' AND pg_input_is_valid(" +:+ labelValue +:+
  ", 'bigint') THEN " +:+ labelValue +:+ "::bigint " +:+ (match op with OpGt => ">" | OpLt => "<" end) +:+
  " " +:+ dollar (S i) +:+ "::bigint ELSE FALSE END)".

Definition render (c : clause) : string :=
  match c with
  | CShard i => "abs(hashtext(namespace)::bigint) % " +:+ dollar i +:+ " = ANY(" +:+ dollar (S i) +:+ "::int[])"
  | CNamespace i => "namespace = " +:+ dollar i
  | CField col op i =>
      render_column col +:+ " " +:+ (match op with OpEq => "=" | OpNe => "!=" end) +:+ " " +:+ dollar i
  | CLabelAny ids =>
      let m := strings_Join (map render_match ids) " OR " in
      if (1 <? List.length ids)%nat then "(" +:+ m +:+ ")" else m
  | CLabelNone ids => "NOT COALESCE((" +:+ strings_Join (map render_match ids) " OR " +:+ "), FALSE)"
  | CLabelNum op i => render_num op i
  | CLabelExists i => "(metadata->'labels' ? " +:+ dollar i +:+ ")"
  | CLabelMissing i => "NOT COALESCE((metadata->'labels' ? " +:+ dollar i +:+ "), FALSE)"
  | CTrue => "TRUE"
  | CFalse => "FALSE"
  end.

(** ** Evaluation *)

Section eval.
Context (hashtext : string → Z) (jsonb_out : json → string) (uuid_out : uuid → string).

(** [$i]: placeholders count from 1. *)
Definition param (args : list sqlarg) (i : nat) : option sqlarg :=
  match i with 0 => None | S j => args !! j end.

Definition param_text (args : list sqlarg) (i : nat) : option string :=
  match param args i with Some (ArgText s) => Some s | _ => None end.

(** [doc ->> key] *)
Definition jsonb_text (j : option json) : option string :=
  match j with
  | Some (JStr s) => Some s
  | Some (JNum z) => Some (FormatInt z)
  | Some (JBool b) => Some (if b then "true" else "false")
  | Some JNull | None => None
  | Some j => Some (jsonb_out j)
  end.

Definition jsonb_child (j : option json) (k : string) : option json :=
  match j with Some d => jsonb_get d k | None => None end.

Fixpoint path_text (j : option json) (segments : list string) : option string :=
  match segments with
  | [] => None
  | [seg] => jsonb_text (jsonb_child j seg)
  | seg :: rest => path_text (jsonb_child j seg) rest
  end.

Definition column_value (c : column) (k : key) (r : Row) : option string :=
  match c with
  | ColName => Some k.2
  | ColNamespace => Some k.1.2
  | ColUid => Some (uuid_out (row_uid r))
  | ColPath root segments =>
      path_text (Some (if String.eqb root "spec" then row_spec r
                       else if String.eqb root "status" then row_status r
                       else row_metadata r)) segments
  end.

Definition labels_of (r : Row) : option json := jsonb_get (row_metadata r) "labels".

(** [labels @> {"key": "value"}] *)
Definition jsonb_contains (labels : option json) (entry : option sqlarg) : sql3 :=
  match labels, entry with
  | Some (JObj l), Some (ArgJson (JObj e)) =>
      Some (forallb (fun kv => match obj_lookup kv.1 l with
                               | Some v => json_eqb v kv.2
                               | None => false
                               end) e)
  | Some _, Some (ArgJson _) => Some false
  | _, _ => None
  end.

(** [labels ? key] *)
Definition jsonb_exists (labels : option json) (k : option string) : sql3 :=
  match labels, k with
  | Some (JObj l), Some s => Some (match obj_lookup s l with Some _ => true | None => false end)
  | Some (JArr l), Some s => Some (existsb (json_eqb (JStr s)) l)
  | Some (JStr t), Some s => Some (String.eqb t s)
  | Some _, Some _ => Some false
  | _, _ => None
  end.

(** [v ~ '^[+-]?[0-9]+$' AND pg_input_is_valid(v, 'bigint')], and the value *)
Definition bigint_of_text (v : option string) : option Z :=
  match v with Some s => ParseInt s | None => None end.

Definition eval (args : list sqlarg) (c : clause) (k : key) (r : Row) : sql3 :=
  match c with
  | CShard i =>
      match param args i, param args (S i) with
      | Some (ArgInt m), Some (ArgInts owned) =>
          Some (bool_decide (Z.rem (Z.abs (hashtext k.1.2)) m ∈ owned))
      | _, _ => None
      end
  | CNamespace i => sql_eq String.eqb (Some k.1.2) (param_text args i)
  | CField col op i =>
      let e := sql_eq String.eqb (column_value col k r) (param_text args i) in
      match op with OpEq => e | OpNe => sql_not e end
  | CLabelAny ids =>
      fold_right (fun i acc => sql_or (jsonb_contains (labels_of r) (param args i)) acc) (Some false) ids
  | CLabelNone ids =>
      Some (negb (sql_holds
        (fold_right (fun i acc => sql_or (jsonb_contains (labels_of r) (param args i)) acc) (Some false) ids)))
  | CLabelNum op i =>
      let v := match labels_of r, param_text args i with
               | Some l, Some s => jsonb_text (jsonb_get l s)
               | _, _ => None
               end in
      match bigint_of_text v, bigint_of_text (param_text args (S i)) with
      | Some a, Some b => Some (match op with OpGt => (b <? a)%Z | OpLt => (a <? b)%Z end)
      | _, _ => Some false
      end
  | CLabelExists i => jsonb_exists (labels_of r) (param_text args i)
  | CLabelMissing i => Some (negb (sql_holds (jsonb_exists (labels_of r) (param_text args i))))
  | CTrue => Some true
  | CFalse => Some false
  end.

(** A row passes a conjunction of clauses when each of them is TRUE. *)
Definition passes (args : list sqlarg) (cs : list clause) (k : key) (r : Row) : bool :=
  forallb (fun c => sql_holds (eval args c k r)) cs.
End eval.
