(* ===== verification/Selectors.v ===== *)
(** * Field and label selectors (seaplane-db/fieldselector.go, labelselector.go)

    The translation of Kubernetes selectors to SQL clauses. A selector is the list
    of its requirements as apimachinery returns it; [labels.Requirement.Values]
    is a list of strings. *)
From S2P Require Import Prelude GoStrings Json Db Sql.
From stdpp Require Import base strings list gmap.
From Stdlib Require Import ZArith Lia Ascii String.
Open Scope string_scope.
#[local] Arguments String.append : simpl nomatch.

Module Selectors.

(** [selection.Operator] *)
Inductive Operator :=
| Equals | DoubleEquals | In | NotEquals | NotIn | Exists | DoesNotExist | GreaterThan | LessThan.

#[export] Instance Operator_eq_dec : EqDecision Operator.
Proof. solve_decision. Defined.

Inductive sel_error :=
| UnsupportedFieldOperator (op : Operator)
| InvalidFieldSelector (field : string)
| UnsupportedRoot (root : string)
| InvalidSegment (seg : string)
| RequiresValue
| RequiresOneInteger
| RequiresInt64.

#[export] Instance sel_error_eq_dec : EqDecision sel_error.
Proof. solve_decision. Defined.

(** ** Field selectors *)

Record FieldRequirement := mkFieldReq {
  fr_Field : string;
  fr_Operator : Operator;
  fr_Value : string
}.

(** [^[a-zA-Z_][a-zA-Z0-9_]*$] *)
Definition is_word (a : ascii) : bool := is_alnum a || Ascii.eqb a "_".
Definition validPathSegment (seg : string) : bool :=
  match seg with
  | EmptyString => false
  | String a s => (is_alpha a || Ascii.eqb a "_") && str_forall is_word s
  end.

Definition selectionOpToSQL (op : Operator) : result sel_error cmp_op :=
  match op with
  | Equals | DoubleEquals => Ok OpEq
  | NotEquals => Ok OpNe
  | _ => Err (UnsupportedFieldOperator op)
  end.

(** The first segment the pattern rejects is reported. *)
Fixpoint check_segments (segments : list string) : result sel_error unit :=
  match segments with
  | [] => Ok tt
  | seg :: rest => if validPathSegment seg then check_segments rest else Err (InvalidSegment seg)
  end.

Definition jsonbPathToSQL (root path : string) : result sel_error column :=
  let segments := Split path "." in
  _ ← check_segments segments;
  Ok (ColPath root segments).

Definition metadataFieldToSQL (field : string) : result sel_error column :=
  if String.eqb field "name" then Ok ColName
  else if String.eqb field "namespace" then Ok ColNamespace
  else if String.eqb field "uid" then Ok ColUid
  else jsonbPathToSQL "metadata" field.

Definition fieldPathToSQL (field : string) : result sel_error column :=
  match SplitN field "." 2 with
  | [root; rest] =>
      if String.eqb root "metadata" then metadataFieldToSQL rest
      else if String.eqb root "spec" then jsonbPathToSQL "spec" rest
      else if String.eqb root "status" then jsonbPathToSQL "status" rest
      else Err (UnsupportedRoot root)
  | _ => Err (InvalidFieldSelector field)
  end.

Definition fieldRequirementToSQL (field : string) (op : Operator) (paramIdx : nat) :
    result sel_error clause :=
  sqlOp ← selectionOpToSQL op;
  col ← fieldPathToSQL field;
  Ok (CField col sqlOp paramIdx).

Fixpoint field_clauses (reqs : list FieldRequirement) (paramIdx : nat) :
    result sel_error (list clause * list sqlarg) :=
  match reqs with
  | [] => Ok ([], [])
  | req :: rest =>
      c ← fieldRequirementToSQL (fr_Field req) (fr_Operator req) paramIdx;
      '(cs, args) ← field_clauses rest (S paramIdx);
      Ok (c :: cs, ArgText (fr_Value req) :: args)
  end.

(** [sel == nil] is [None]. *)
Definition buildFieldSelectorFilter (sel : option (list FieldRequirement)) (startParam : nat) :
    result sel_error (list clause * list sqlarg) :=
  match sel with
  | None | Some [] => Ok ([], [])
  | Some reqs => field_clauses reqs startParam
  end.

(** ** Label selectors *)

Record Requirement := mkReq {
  rq_Key : string;
  rq_Operator : Operator;
  rq_Values : list string
}.

(** A selector that is not selectable ([labels.Nothing()]) or its requirements. *)
Inductive LabelSelector :=
| Nothing
| Requirements (reqs : list Requirement).

(** [labelValueMatch]: the argument is the document [{key: value}]. *)
Definition label_entry (key value : string) : sqlarg := ArgJson (JObj [(key, JStr value)]).

(** The clause and arguments of one requirement, placeholders from [paramIdx]. *)
Definition label_clause (req : Requirement) (paramIdx : nat) : result sel_error (clause * list sqlarg) :=
  let values := rq_Values req in
  let ids := seq paramIdx (List.length values) in
  let entries := map (label_entry (rq_Key req)) values in
  match rq_Operator req with
  | Equals | DoubleEquals | In =>
      if bool_decide (values = []) then Err RequiresValue else Ok (CLabelAny ids, entries)
  | NotEquals | NotIn =>
      if bool_decide (values = []) then Ok (CTrue, []) else Ok (CLabelNone ids, entries)
  | GreaterThan | LessThan =>
      match values with
      | [v] =>
          match ParseInt v with
          | None => Err RequiresInt64
          | Some _ =>
              let op := match rq_Operator req with LessThan => OpLt | _ => OpGt end in
              Ok (CLabelNum op paramIdx, [ArgText (rq_Key req); ArgText v])
          end
      | _ => Err RequiresOneInteger
      end
  | Exists => Ok (CLabelExists paramIdx, [ArgText (rq_Key req)])
  | DoesNotExist => Ok (CLabelMissing paramIdx, [ArgText (rq_Key req)])
  end.

Fixpoint label_clauses (reqs : list Requirement) (paramIdx : nat) :
    result sel_error (list clause * list sqlarg) :=
  match reqs with
  | [] => Ok ([], [])
  | req :: rest =>
      '(c, a) ← label_clause req paramIdx;
      '(cs, args) ← label_clauses rest (paramIdx + List.length a);
      Ok (c :: cs, (a ++ args)%list)
  end.

Definition buildLabelSelectorFilter (sel : option LabelSelector) (startParam : nat) :
    result sel_error (list clause * list sqlarg) :=
  match sel with
  | None | Some (Requirements []) => Ok ([], [])
  | Some Nothing => Ok ([CFalse], [])
  | Some (Requirements reqs) => label_clauses reqs startParam
  end.

(** ** What a selector means *)

(** Kubernetes' matching of a requirement against a label set. *)
Definition req_matches (labels : gmap string string) (req : Requirement) : bool :=
  match rq_Operator req with
  | Equals | DoubleEquals | In =>
      match labels !! rq_Key req with Some v => bool_decide (v ∈ rq_Values req) | None => false end
  | NotEquals | NotIn =>
      match labels !! rq_Key req with Some v => bool_decide (v ∉ rq_Values req) | None => true end
  | Exists => bool_decide (is_Some (labels !! rq_Key req))
  | DoesNotExist => bool_decide (labels !! rq_Key req = None)
  | GreaterThan | LessThan =>
      match labels !! rq_Key req, rq_Values req with
      | Some v, [bound] =>
          match ParseInt v, ParseInt bound with
          | Some a, Some b => if bool_decide (rq_Operator req = LessThan) then (a <? b)%Z else (b <? a)%Z
          | _, _ => false
          end
      | _, _ => false
      end
  end.

(** ** Lemmas *)

Section correctness.
Context (hashtext : string → Z) (jsonb_out : json → string) (uuid_out : uuid → string).
Local Notation eval := (eval hashtext jsonb_out uuid_out).
Local Notation passes := (passes hashtext jsonb_out uuid_out).

(** The labels of a row are stored as an object of strings, or not at all. *)
Definition labels_rel (r : Row) (m : gmap string string) : Prop :=
  match labels_of r with
  | None => m = ∅
  | Some (JObj l) => ∀ k, obj_lookup k l = JStr <$> m !! k
  | Some _ => False
  end.

Lemma param_mid pre args suf i :
  param (pre ++ args ++ suf) (S (List.length pre + i)) = (args ++ suf)%list !! i.
Proof. simpl. by rewrite lookup_app_r, Nat.add_sub' by lia. Qed.

(** The placeholder [$(start + i)] names the [i]-th argument. *)
Lemma param_at pre args suf start i a :
  start = S (List.length pre) → args !! i = Some a →
  param (pre ++ args ++ suf) (start + i) = Some a.
Proof.
  intros -> Ha. change (S (List.length pre) + i) with (S (List.length pre + i)).
  rewrite param_mid. by apply lookup_app_l_Some.
Qed.

Lemma contains_entry r m k v :
  labels_rel r m →
  sql_holds (jsonb_contains (labels_of r) (Some (label_entry k v))) = bool_decide (m !! k = Some v).
Proof.
  unfold labels_rel. intros H. destruct (labels_of r) as [[]|]; try done.
  - unfold jsonb_contains, label_entry. cbn [forallb fst snd]. rewrite (H k).
    destruct (m !! k) as [v'|]; cbn [fmap option_fmap option_map].
    + rewrite andb_true_r. cbn [json_eqb sql_holds]. destruct (String.eqb_spec v' v); case_bool_decide; congruence.
    + cbn. by case_bool_decide.
  - subst m. by rewrite lookup_empty, bool_decide_eq_false_2.
Qed.

(** The disjunction over consecutive placeholders is membership of the label's
    value in the requirement's values. *)
Lemma any_value r m k values : ∀ pre suf start,
  labels_rel r m → start = S (List.length pre) →
  sql_holds (fold_right (fun i acc => sql_or (jsonb_contains (labels_of r)
    (param (pre ++ map (label_entry k) values ++ suf)%list i)) acc) (Some false) (seq start (List.length values)))
  = match m !! k with Some v => bool_decide (v ∈ values) | None => false end.
Proof.
  induction values as [|v values IH]; intros pre suf start Hr Hs;
    cbn [List.length seq fold_right map app].
  { by destruct (m !! k). }
  rewrite sql_holds_or.
  assert (Hp : param (pre ++ label_entry k v :: map (label_entry k) values ++ suf)%list start
               = Some (label_entry k v)).
  { rewrite <- (Nat.add_0_r start).
    exact (param_at pre (label_entry k v :: map (label_entry k) values) suf start 0 _ Hs eq_refl). }
  rewrite Hp, (contains_entry r m) by done.
  replace (pre ++ label_entry k v :: map (label_entry k) values ++ suf)%list
    with ((pre ++ [label_entry k v]) ++ map (label_entry k) values ++ suf)%list by (by rewrite <- app_assoc).
  rewrite (IH (pre ++ [label_entry k v])%list suf (S start) Hr)
    by (rewrite length_app; simpl; lia).
  destruct (m !! k) as [v'|]; [|by rewrite bool_decide_eq_false_2].
  destruct (decide (v' = v)) as [->|Hne].
  - rewrite (bool_decide_eq_true_2 (Some v = Some v)), (bool_decide_eq_true_2 (v ∈ v :: values))
      by (done || set_solver). done.
  - rewrite (bool_decide_eq_false_2 (Some v' = Some v)) by congruence.
    rewrite orb_false_l. apply bool_decide_ext. set_solver.
Qed.

Lemma exists_key r m k :
  labels_rel r m → sql_holds (jsonb_exists (labels_of r) (Some k)) = bool_decide (is_Some (m !! k)).
Proof.
  unfold labels_rel. intros H. destruct (labels_of r) as [[]|]; try done.
  - simpl. rewrite (H k). by destruct (m !! k).
  - subst m. by rewrite lookup_empty.
Qed.

Lemma label_text r m k :
  labels_rel r m →
  match labels_of r with Some l => jsonb_text jsonb_out (jsonb_get l k) | None => None end = m !! k.
Proof.
  unfold labels_rel. intros H. destruct (labels_of r) as [[]|]; try done.
  - simpl. rewrite (H k). by destruct (m !! k).
  - subst m. by rewrite lookup_empty.
Qed.

Lemma label_num_correct op pre suf lk v b k r m :
  labels_rel r m → ParseInt v = Some b →
  sql_holds (eval (pre ++ [ArgText lk; ArgText v] ++ suf)%list (CLabelNum op (S (List.length pre))) k r) =
  match m !! lk with
  | Some v' => match ParseInt v' with
               | Some a => match op with OpGt => (b <? a)%Z | OpLt => (a <? b)%Z end
               | None => false
               end
  | None => false
  end.
Proof.
  intros Hr Hb.
  assert (Hp : ∀ i t, [ArgText lk; ArgText v] !! i = Some (ArgText t) →
    param_text (pre ++ [ArgText lk; ArgText v] ++ suf)%list (S (List.length pre) + i) = Some t).
  { intros i t Ht. unfold param_text. by erewrite param_at by done. }
  pose proof (Hp 0 lk eq_refl) as H0. pose proof (Hp 1 v eq_refl) as H1.
  rewrite Nat.add_0_r in H0. rewrite Nat.add_1_r in H1.
  unfold eval. rewrite H0, H1. pose proof (label_text r m lk Hr) as Ht.
  destruct (labels_of r); rewrite Ht; destruct (m !! lk) as [v'|]; simpl; try done;
    rewrite Hb; destruct (ParseInt v'), op; simpl; try done; by destruct (_ <? _)%Z.
Qed.

Lemma label_clause_correct req start pre suf c a k r m :
  labels_rel r m → start = S (List.length pre) → label_clause req start = Ok (c, a) →
  sql_holds (eval (pre ++ a ++ suf)%list c k r) = req_matches m req.
Proof.
  intros Hr Hs Hc. unfold label_clause, req_matches in *.
  assert (Hany : ∀ ids, ids = seq start (List.length (rq_Values req)) → a = map (label_entry (rq_Key req)) (rq_Values req) →
    sql_holds (fold_right (fun i acc => sql_or (jsonb_contains (labels_of r)
      (param (pre ++ a ++ suf)%list i)) acc) (Some false) ids) =
    match m !! rq_Key req with Some v => bool_decide (v ∈ rq_Values req) | None => false end).
  { intros ids -> ->. by apply any_value. }
  assert (Hp0 : ∀ t, a !! 0 = Some (ArgText t) → param_text (pre ++ a ++ suf)%list start = Some t).
  { intros t Ht. unfold param_text. rewrite <- (Nat.add_0_r start). by rewrite (param_at _ _ _ _ _ _ Hs Ht). }
  destruct (rq_Operator req) eqn:Hop.
  1,2,3: case_bool_decide; simplify_eq; by apply Hany.
  1,2: case_bool_decide as Hnil; simplify_eq;
    [by destruct (m !! rq_Key req); rewrite ?Hnil; [rewrite bool_decide_eq_true_2 by set_solver|]|];
    unfold eval; rewrite Hany by done; destruct (m !! rq_Key req); [|done]; simpl;
    by rewrite bool_decide_not; destruct (bool_decide _).
  - simplify_eq. unfold eval. rewrite (Hp0 (rq_Key req)) by done. by apply exists_key.
  - simplify_eq. unfold eval. rewrite (Hp0 (rq_Key req)) by done.
    rewrite (exists_key r m) by done. simpl. destruct (m !! rq_Key req); done.
  - destruct (rq_Values req) as [|v [|]]; try done. destruct (ParseInt v) as [b|] eqn:Hb; [|done].
    simplify_eq. rewrite (label_num_correct _ _ _ _ _ _ _ _ _ Hr Hb). by destruct (m !! _).
  - destruct (rq_Values req) as [|v [|]]; try done. destruct (ParseInt v) as [b|] eqn:Hb; [|done].
    simplify_eq. rewrite (label_num_correct _ _ _ _ _ _ _ _ _ Hr Hb). by destruct (m !! _).
Qed.
Lemma label_clauses_correct reqs : ∀ start pre suf cs args k r m,
  labels_rel r m → start = S (List.length pre) → label_clauses reqs start = Ok (cs, args) →
  passes (pre ++ args ++ suf)%list cs k r = forallb (req_matches m) reqs.
Proof.
  induction reqs as [|req reqs IH]; intros start pre suf cs args k r m Hr Hs H; simpl in H;
    [by simplify_eq|].
  destruct (label_clause req start) as [[c a]|] eqn:Hc; simpl in H; [|done].
  destruct (label_clauses reqs _) as [[cs' args']|] eqn:Hcs; simpl in H; [|done]. simplify_eq.
  unfold passes, Sql.passes. cbn [forallb]. rewrite <- app_assoc.
  erewrite (label_clause_correct req _ pre (args' ++ suf)%list) by done. f_equal.
  rewrite app_assoc. eapply (IH _ (pre ++ a)%list); [done| |exact Hcs].
  rewrite length_app. lia.
Qed.
End correctness.

(** label selectors mean in SQL what they mean in Kubernetes: for a row whose
    labels are stored as an object of strings (or absent), the generated clauses,
    evaluated in three-valued logic with the generated arguments placed where
    their placeholders point, accept the row exactly when every requirement
    matches its label set, integer comparisons and missing labels included. *)
Theorem label_filter_correct (hashtext : string → Z) (jsonb_out : json → string) (uuid_out : uuid → string)
    (reqs : list Requirement) (pre suf args : list sqlarg) (cs : list clause)
    (k : key) (r : Row) (m : gmap string string) :
  labels_rel r m →
  buildLabelSelectorFilter (Some (Requirements reqs)) (S (List.length pre)) = Ok (cs, args) →
  passes hashtext jsonb_out uuid_out (pre ++ args ++ suf)%list cs k r = forallb (req_matches m) reqs.
Proof.
  intros Hr H. eapply label_clauses_correct; [done|done|].
  by destruct reqs.
Qed.

Lemma label_filter_correct_witness :
  let r := mkRow 1 1 1 (JObj []) (JObj []) (JObj [("labels", JObj [("env", JStr "prod"); ("tier", JStr "3")])]) None 0 0 in
  let reqs := [mkReq "env" In ["dev"; "prod"]; mkReq "tier" GreaterThan ["2"]; mkReq "gone" DoesNotExist []] in
  passes (fun _ => 0%Z) (fun _ => "") (fun _ => "")
    [ArgText "gvk"; label_entry "env" "dev"; label_entry "env" "prod"; ArgText "tier"; ArgText "2"; ArgText "gone"]
    [CLabelAny [2; 3]; CLabelNum OpGt 4; CLabelMissing 6] ("", "", "") r = true.
Proof.
  intros r reqs. set (m := <["env" := "prod"]> (<["tier" := "3"]> ∅) : gmap string string).
  assert (Hr : labels_rel r m).
  { intros k. unfold m. rewrite !lookup_insert, lookup_empty. simpl.
    destruct (String.eqb_spec k "env"), (String.eqb_spec k "tier"); repeat case_decide; by subst. }
  exact (label_filter_correct (fun _ => 0%Z) (fun _ => "") (fun _ => "") reqs [ArgText "gvk"] [] _ _
    ("", "", "") r m Hr eq_refl).
Defined.

(** ** Field paths *)

Lemma check_segments_ok l : check_segments l = Ok tt → Forall (fun s => validPathSegment s = true) l.
Proof. induction l; simpl; intros H; [done|]. destruct (validPathSegment a) eqn:E; [|done]. constructor; auto. Qed.

Lemma validPathSegment_word s : validPathSegment s = true → str_forall is_word s = true.
Proof.
  destruct s as [|a s]; [done|]. simpl. intros [Ha Hs]%andb_true_iff. rewrite Hs, andb_true_r.
  unfold is_word, is_alnum. by destruct (is_alpha a), (is_digit a), (Ascii.eqb a "_").
Qed.

Lemma jsonbPathToSQL_ok root path c :
  jsonbPathToSQL root path = Ok c →
  ∃ segs, c = ColPath root segs ∧ segs ≠ [] ∧ Forall (fun s => str_forall is_word s = true) segs ∧
          path = strings_Join segs ".".
Proof.
  unfold jsonbPathToSQL. destruct (check_segments (Split path ".")) as [[]|] eqn:E; simpl; [|done].
  intros [= <-]. exists (Split path "."). split_and!; [done|apply Split_nonempty| |by rewrite Join_Split].
  eapply Forall_impl; [by apply check_segments_ok|]. apply validPathSegment_word.
Qed.

Lemma SplitN_2 s c a b : SplitN s c 2 = [a; b] → s = a +:+ String c b ∧ str_free c a = true.
Proof.
  cbn. revert a. induction s as [|x s IH]; intros a; [done|]. cbn [IndexByte].
  destruct (Ascii.eqb x c) eqn:E; cbn.
  - apply Ascii.eqb_eq in E as ->. intros [= <- <-]. by destruct s.
  - destruct (IndexByte s c) as [i|] eqn:Hi; cbn; [|done]. intros [= <- <-].
    destruct (IH (str_take i s)) as [Hs Hf]; [done|].
    split; [cbn; by rewrite <- Hs|]. unfold str_free in *. cbn. by rewrite E.
Qed.

(** no injection through field selectors: a field path that is accepted either
    names a fixed column or is spelled into the SQL text as [root->'a'->>'b'] with
    a root among metadata, spec and status and segments of word characters only,
    which reproduce the requested path; anything else is an error. *)
Theorem fieldPathToSQL_safe (field : string) (c : column) :
  fieldPathToSQL field = Ok c →
  c = ColName ∨ c = ColNamespace ∨ c = ColUid ∨
  ∃ root segs, c = ColPath root segs ∧ root ∈ ["metadata"; "spec"; "status"] ∧ segs ≠ [] ∧
    Forall (fun s => str_forall is_word s = true) segs ∧ field = root +:+ "." +:+ strings_Join segs ".".
Proof.
  unfold fieldPathToSQL, metadataFieldToSQL. intros H.
  destruct (SplitN field "." 2) as [|root [|rest [|]]] eqn:Hs; try done.
  apply SplitN_2 in Hs as [-> _].
  assert (Hpath : root ∈ ["metadata"; "spec"; "status"] → jsonbPathToSQL root rest = Ok c →
    c = ColName ∨ c = ColNamespace ∨ c = ColUid ∨
    ∃ root' segs, c = ColPath root' segs ∧ root' ∈ ["metadata"; "spec"; "status"] ∧ segs ≠ [] ∧
      Forall (fun s => str_forall is_word s = true) segs ∧
      root +:+ String "." rest = root' +:+ "." +:+ strings_Join segs ".").
  { intros Hroot (segs & -> & ? & ? & ->)%jsonbPathToSQL_ok. do 3 right. by exists root, segs. }
  destruct (String.eqb_spec root "metadata") as [->|].
  { destruct (String.eqb rest "name"); [simplify_eq; auto|].
    destruct (String.eqb rest "namespace"); [simplify_eq; auto|].
    destruct (String.eqb rest "uid"); [simplify_eq; auto|].
    apply Hpath; [set_solver|done]. }
  destruct (String.eqb_spec root "spec") as [->|]; [apply Hpath; [set_solver|done]|].
  destruct (String.eqb_spec root "status") as [->|]; [apply Hpath; [set_solver|done]|done].
Qed.

Lemma fieldPathToSQL_safe_witness :
  fieldPathToSQL "spec.hostedCluster.platform" = Ok (ColPath "spec" ["hostedCluster"; "platform"]) ∧
  (∃ root segs, ColPath "spec" ["hostedCluster"; "platform"] = ColPath root segs ∧ segs ≠ [] ∧
     "spec.hostedCluster.platform" = root +:+ "." +:+ strings_Join segs ".").
Proof.
  split; [reflexivity|].
  destruct (fieldPathToSQL_safe "spec.hostedCluster.platform" (ColPath "spec" ["hostedCluster"; "platform"]) eq_refl)
    as [?|[?|[?|(root & segs & Hc & _ & Hne & _ & Hf)]]]; try discriminate.
  by exists root, segs.
Defined.

End Selectors.
