(* ===== verification/Reader.v ===== *)
(** * Readers: shards, List and the polling watcher
    (seaplane-db/internal/reader/shard.go, list.go, event.go, watcher.go)

    A read runs in one REPEATABLE READ transaction: [Snapshot] is the database it
    sees and the [pg_snapshot_xmin] of the same snapshot. *)
From S2P Require Import Prelude GoStrings ResourceVersion Json Db Sql.
From stdpp Require Import base strings list gmap sorting.
From Stdlib Require Import ZArith Lia Ascii String.
Open Scope string_scope.

Module Reader.

(** ** Shards *)

Record ShardSpec := mkShard {
  Mod : Z;
  Owned : list Z
}.

Inductive shard_error :=
| ModNotPositive (m : Z)
| OwnedEmpty
| OwnedOutOfRange (o : Z)
| OwnedDuplicate (o : Z).

Fixpoint check_owned (m : Z) (seen : list Z) (owned : list Z) : result shard_error unit :=
  match owned with
  | [] => Ok tt
  | o :: rest =>
      if (o <? 0)%Z || (m <=? o)%Z then Err (OwnedOutOfRange o)
      else if bool_decide (o ∈ seen) then Err (OwnedDuplicate o)
      else check_owned m (o :: seen) rest
  end.

Definition Validate (s : ShardSpec) : result shard_error unit :=
  if (Mod s <=? 0)%Z then Err (ModNotPositive (Mod s))
  else if bool_decide (Owned s = []) then Err OwnedEmpty
  else check_owned (Mod s) [] (Owned s).

Definition shardClause (s : ShardSpec) (startParam : nat) : clause * list sqlarg :=
  (CShard startParam, [ArgInt (Mod s); ArgInts (Owned s)]).

(** [AppendQuery] on a query kept as its clauses and arguments. *)
Definition AppendQuery (s : ShardSpec) (clauses : list clause) (args : list sqlarg) :
    list clause * list sqlarg :=
  let '(c, shardArgs) := shardClause s (List.length args + 1) in
  ((clauses ++ [c])%list, (args ++ shardArgs)%list).

Record ListFilter := mkListFilter {
  WhereClauses : list clause;
  WhereArgs : list sqlarg;
  Limit : Z;
  Offset : Z
}.

Definition ToListFilter (s : ShardSpec) : ListFilter :=
  let '(c, args) := shardClause s 2 in mkListFilter [c] args 0 0.

(** ** Snapshots and rows in txid order *)

Record Snapshot := mkSnapshot {
  snap_db : Db;
  snap_xmin : Z
}.

Definition txid_le (a b : key * Row) : Prop := (row_txid a.2 ≤ row_txid b.2)%Z.
#[export] Instance txid_le_dec : RelDecision txid_le.
Proof. intros a b. unfold txid_le. apply _. Defined.

(** [SELECT ... WHERE p ORDER BY txid_stamp] *)
Definition select_rows (p : key → Row → bool) (db : Db) : list (key * Row) :=
  merge_sort txid_le (map_to_list (filter (fun kr => p kr.1 kr.2 = true) (kubernetes_resources db))).

(** ** List *)

Inductive read_stage := AtBegin | AtXmin | AtHorizon | AtQuery | AtScan | AtRows | AtCommit.

Record ListResult := mkListResult {
  Resources : list Resource;
  ListResourceVersion : RV.RV
}.

(** [deletion_timestamp IS NULL OR metadata->'finalizers' != '[]'::jsonb] *)
Definition list_keeps (r : Row) : sql3 :=
  sql_or (sql_is_null (row_deletion r))
         (sql_not (jsonb_eq (jsonb_get (row_metadata r) "finalizers") (Some (JArr [])))).

(** The text appended to the base query and the full argument list. *)
Definition list_suffix (gvk : string) (filter : option ListFilter) : string * list sqlarg :=
  match filter with
  | None => (" ORDER BY txid_stamp", [ArgText gvk])
  | Some f =>
      let conj := fold_right (fun c acc => " AND " +:+ render c +:+ acc) "" (WhereClauses f) in
      let args := ArgText gvk :: WhereArgs f in
      let base := conj +:+ " ORDER BY txid_stamp" in
      if (0 <? Limit f)%Z then
        let args1 := (args ++ [ArgInt (Limit f)])%list in
        let q1 := base +:+ " LIMIT " +:+ dollar (List.length args1) in
        if (0 <? Offset f)%Z then
          let args2 := (args1 ++ [ArgInt (Offset f)])%list in
          (q1 +:+ " OFFSET " +:+ dollar (List.length args2), args2)
        else (q1, args1)
      else (base, args)
  end.

Section reader.
Context (hashtext : string → Z) (jsonb_out : json → string) (uuid_out : uuid → string).
Local Notation passes := (passes hashtext jsonb_out uuid_out).

Definition list_where (gvk : string) (filter : option ListFilter) (k : key) (r : Row) : bool :=
  String.eqb k.1.1 gvk && sql_holds (list_keeps r) &&
  match filter with
  | None => true
  | Some f => passes (list_suffix gvk filter).2 (WhereClauses f) k r
  end.

Definition list_page {A} (filter : option ListFilter) (l : list A) : list A :=
  match filter with
  | Some f => if (0 <? Limit f)%Z then take (Z.to_nat (Limit f)) (drop (Z.to_nat (Offset f)) l) else l
  | None => l
  end.

Definition list_watermark (xmin : Z) : Z := if (0 <? xmin)%Z then (xmin - 1)%Z else 0%Z.

(** [List]; a failing statement ([Some stage]) ends it with an error. *)
Definition List (fault : option read_stage) (snap : Snapshot) (gvk : string) (filter : option ListFilter) :
    result read_stage ListResult :=
  match fault with
  | Some stage => Err stage
  | None =>
      Ok (mkListResult
            (map (fun kr => to_resource kr.1 kr.2)
               (list_page filter (select_rows (list_where gvk filter) (snap_db snap))))
            (RV.mkRV 0 (list_watermark (snap_xmin snap))))
  end.

(** ** The watcher *)

Inductive EventType := EventAdded | EventModified | EventDeleted.

Record Event := mkEvent {
  ev_Type : EventType;
  ev_Resource : Resource
}.

Record WatcherConfig := mkWatcherConfig {
  wc_GVK : string;
  wc_StartRV : RV.RV;
  wc_BaselineInterval : Z;
  wc_DebounceFloor : Z;
  wc_Shard : option ShardSpec
}.

Record Watcher := mkWatcher {
  cfg : WatcherConfig;
  hwm : Z
}.

Definition NewWatcher (c : WatcherConfig) : Watcher :=
  let baseline := if (wc_BaselineInterval c =? 0)%Z then 5000000000%Z else wc_BaselineInterval c in
  let floor := if (wc_DebounceFloor c =? 0)%Z then 100000000%Z else wc_DebounceFloor c in
  mkWatcher (mkWatcherConfig (wc_GVK c) (wc_StartRV c) baseline floor (wc_Shard c))
            (RV.Watermark (wc_StartRV c)).

Inductive poll_error :=
| ErrGone (hwm compacted : Z)
| ErrRead (stage : read_stage)
| ErrCtxDone.

Definition event_type (r : Resource) : EventType :=
  match DeletionTimestamp r with
  | Some _ => EventDeleted
  | None => if (ObjectVersion r =? 1)%Z then EventAdded else EventModified
  end.

(** The poll query: [gvk = $1 AND txid_stamp > $2] and the shard clause. *)
Definition poll_where (c : WatcherConfig) (hwm : Z) (k : key) (r : Row) : bool :=
  String.eqb k.1.1 (wc_GVK c) && (hwm <? row_txid r)%Z &&
  match wc_Shard c with
  | None => true
  | Some s => let '(cs, args) := AppendQuery s [] [ArgText (wc_GVK c); ArgInt hwm] in passes args cs k r
  end.

Definition advance (hwm xmin : Z) : Z :=
  if (0 <? xmin)%Z && (hwm <? xmin - 1)%Z then (xmin - 1)%Z else hwm.

(** A failing statement is one of [AtXmin] and [AtHorizon], in front of the horizon
    check, or [AtQuery], [AtScan] and [AtRows], behind it. *)
Definition pollAll (fault : option read_stage) (snap : Snapshot) (w : Watcher) :
    Watcher * result poll_error (list Event) :=
  match fault with
  | Some AtXmin => (w, Err (ErrRead AtXmin))
  | Some AtHorizon => (w, Err (ErrRead AtHorizon))
  | _ =>
      let gone := match compaction_horizon (snap_db snap) !! wc_GVK (cfg w) with
                  | Some c => if (hwm w <? to_u64 c)%Z then Some c else None
                  | None => None
                  end in
      match gone with
      | Some c => (w, Err (ErrGone (hwm w) c))
      | None =>
          match fault with
          | Some stage => (w, Err (ErrRead stage))
          | None =>
              let rows := select_rows (poll_where (cfg w) (hwm w)) (snap_db snap) in
              let events := map (fun kr => let r := to_resource kr.1 kr.2 in mkEvent (event_type r) r) rows in
              (mkWatcher (cfg w) (advance (hwm w) (snap_xmin snap)), Ok events)
          end
      end
  end.

(** How the sends on the events channel end: all sent, or the context was done or
    the watcher stopped after [n] of them. *)
Inductive delivery := DeliverAll | DeliverCtxDone (n : nat) | DeliverStopped (n : nat).

(** [poll]: the events put on the channel and the number it returns. The failures
    of BeginTx, of the statements and of Commit are read faults. *)
Definition poll (fault : option read_stage) (dl : delivery) (snap : Snapshot) (w : Watcher) :
    Watcher * list Event * result poll_error nat :=
  match fault with
  | Some AtBegin => (w, [], Err (ErrRead AtBegin))
  | _ =>
      let fault' := match fault with Some AtCommit => None | _ => fault end in
      match pollAll fault' snap w with
      | (w', Err e) => (w', [], Err e)
      | (w', Ok events) =>
          match fault with
          | Some AtCommit => (w', [], Err (ErrRead AtCommit))
          | _ =>
              match dl with
              | DeliverAll => (w', events, Ok (List.length events))
              | DeliverCtxDone n => (w', take n events, Err ErrCtxDone)
              | DeliverStopped n => (w', take n events, Ok 0)
              end
          end
      end
  end.
End reader.

End Reader.

(** * What readers see: shards, List and one poll

    The facts about single reads the watch protocol is built from: which rows a
    List and a poll select, that both use the same shard, and how one poll moves
    the high-water mark. *)
From stdpp Require Import base strings list gmap sorting.
From Stdlib Require Import ZArith Lia Ascii String.
Open Scope string_scope.
Import Reader.

(** ** Rows selected by a query *)

Lemma elem_of_select_rows p db k r :
  (k, r) ∈ select_rows p db ↔ kubernetes_resources db !! k = Some r ∧ p k r = true.
Proof.
  unfold select_rows. rewrite (merge_sort_Permutation txid_le), elem_of_map_to_list.
  by rewrite map_lookup_filter_Some.
Qed.

Lemma select_rows_NoDup p db : NoDup (select_rows p db).*1.
Proof.
  unfold select_rows. rewrite (merge_sort_Permutation txid_le). apply NoDup_fst_map_to_list.
Qed.

#[export] Instance txid_le_total : Total txid_le.
Proof. intros a b. unfold txid_le. lia. Qed.
#[export] Instance txid_le_trans : Transitive txid_le.
Proof. intros a b c. unfold txid_le. lia. Qed.

(** Rows come in the order of their transaction ids. *)
Lemma select_rows_sorted p db : StronglySorted txid_le (select_rows p db).
Proof. apply (StronglySorted_merge_sort txid_le). Qed.

(** What List keeps is exactly what is not a tombstone. *)
Lemma list_keeps_negb r : sql_holds (list_keeps r) = negb (is_tombstone r).
Proof.
  unfold list_keeps, is_tombstone, tombstone_filter, no_finalizers.
  destruct (row_deletion r), (jsonb_get (row_metadata r) "finalizers") as [j|]; try done;
    unfold jsonb_eq; simpl; by destruct (json_eqb j (JArr [])).
Qed.

(** ** Shards *)

Lemma check_owned_spec m seen owned :
  check_owned m seen owned = Ok tt ↔
  (∀ o, o ∈ owned → (0 ≤ o < m)%Z) ∧ NoDup owned ∧ (∀ o, o ∈ owned → o ∉ seen).
Proof.
  revert seen. induction owned as [|o rest IH]; intros seen; simpl.
  { split; [intros _|done]. split_and!; [by intros o ?%not_elem_of_nil|constructor|by intros o ?%not_elem_of_nil]. }
  rewrite NoDup_cons. setoid_rewrite elem_of_cons.
  destruct ((o <? 0)%Z || (m <=? o)%Z) eqn:Hr.
  { split; [done|]. intros (H1 & _). pose proof (H1 o (or_introl eq_refl)).
    apply orb_true_iff in Hr as [Hr|Hr]; split_bool; lia. }
  split_bool. case_bool_decide as Hs.
  { split; [done|]. intros (_ & _ & H3). by destruct (H3 o (or_introl eq_refl)). }
  rewrite IH. setoid_rewrite elem_of_cons. split.
  - intros (H1 & H2 & H3). split_and!; [intros ? [->|]; [lia|eauto] | naive_solver | done | naive_solver].
  - intros (H1 & (H2 & H2') & H3). split_and!; [naive_solver|done|]. intros o' Ho' [->|]; naive_solver.
Qed.

Lemma Validate_ok s :
  Validate s = Ok tt ↔ (0 < Mod s)%Z ∧ Owned s ≠ [] ∧ (∀ o, o ∈ Owned s → (0 ≤ o < Mod s)%Z) ∧ NoDup (Owned s).
Proof.
  unfold Validate. destruct (Mod s <=? 0)%Z eqn:Hm; split_bool; [naive_solver lia|].
  case_bool_decide as Ho; [naive_solver|]. rewrite check_owned_spec.
  split; [naive_solver|]. intros (_ & _ & H1 & H2). split_and!; [done|done|].
  by intros o _ ?%not_elem_of_nil.
Qed.

Section shards.
Context (hashtext : string → Z) (jsonb_out : json → string) (uuid_out : uuid → string).

(** The shard a namespace belongs to. *)
Definition residue (m : Z) (k : key) : Z := Z.rem (Z.abs (hashtext k.1.2)) m.

Definition in_shard (s : option ShardSpec) (k : key) : bool :=
  match s with None => true | Some s => bool_decide (residue (Mod s) k ∈ Owned s) end.

(** The rows an informer of [gvk] is about. *)
Definition selected (gvk : string) (s : option ShardSpec) (k : key) : bool :=
  String.eqb k.1.1 gvk && in_shard s k.

Lemma list_where_shard gvk s k r :
  list_where hashtext jsonb_out uuid_out gvk (ToListFilter <$> s) k r =
    selected gvk s k && negb (is_tombstone r).
Proof.
  unfold list_where, selected. rewrite list_keeps_negb.
  destruct s as [s|]; simpl; [|by destruct (_ =? _)%string, (is_tombstone r)].
  rewrite andb_true_r. by destruct (_ =? _)%string, (is_tombstone r), (bool_decide _).
Qed.

Lemma list_page_shard {A} s (l : list A) : list_page (ToListFilter <$> s) l = l.
Proof. by destruct s. Qed.

Lemma poll_where_shard c h k r :
  poll_where hashtext jsonb_out uuid_out c h k r =
    selected (wc_GVK c) (wc_Shard c) k && (h <? row_txid r)%Z.
Proof.
  unfold poll_where, selected. destruct (wc_Shard c) as [s|]; simpl.
  - rewrite andb_true_r. by destruct (_ =? _)%string, (_ <? _)%Z, (bool_decide _).
  - by destruct (_ =? _)%string, (_ <? _)%Z.
Qed.

Lemma residue_range m k : (0 < m)%Z → (0 ≤ residue m k < m)%Z.
Proof. intros. unfold residue. apply Z.rem_bound_pos; lia. Qed.
End shards.

(** shard partition completeness (I7): when the replicas' shard specifications
    share a modulus and their residues make up the whole range, every row that is
    not a tombstone is in the List of exactly one replica, and is polled by exactly
    that one. *)
Theorem shard_partition (hashtext : string → Z) (jsonb_out : json → string) (uuid_out : uuid → string)
    (m : Z) (ss : list ShardSpec) (gvk : string) (k : key) (r : Row) :
  (0 < m)%Z → Forall (fun s => Mod s = m) ss → List.concat (map Owned ss) ≡ₚ seqZ 0 m →
  k.1.1 = gvk → is_tombstone r = false →
  ∃ i, ∀ j s, ss !! j = Some s →
    list_where hashtext jsonb_out uuid_out gvk (Some (ToListFilter s)) k r = bool_decide (j = i) ∧
    (∀ rv bi df h, (h < row_txid r)%Z →
       poll_where hashtext jsonb_out uuid_out (mkWatcherConfig gvk rv bi df (Some s)) h k r = bool_decide (j = i)).
Proof.
  intros Hm Hmod Hperm Hk Ht. set (x := residue hashtext m k).
  assert (Hx : x ∈ List.concat (map Owned ss)).
  { rewrite Hperm. apply elem_of_seqZ. pose proof (residue_range hashtext m k Hm). lia. }
  assert (Hnd : NoDup (List.concat (map Owned ss))) by (rewrite Hperm; apply NoDup_seqZ).
  assert (Hi : ∃ i, ∀ j s, ss !! j = Some s → (x ∈ Owned s ↔ j = i)).
  { clear Hmod Hperm. induction ss as [|s ss IH]; simpl in *; [by apply not_elem_of_nil in Hx|].
    apply NoDup_app in Hnd as (_ & Hd & Hnd).
    destruct (decide (x ∈ Owned s)) as [Hin|Hnin].
    - exists 0. intros [|j] s' Hj; simpl in Hj; [naive_solver|].
      split; [|done]. intros Hx'. exfalso. apply (Hd x Hin). apply list_elem_of_In, in_concat.
      exists (Owned s'). split; [apply in_map, list_elem_of_In; by eapply list_elem_of_lookup_2|by apply list_elem_of_In].
    - apply elem_of_app in Hx as [|Hx]; [done|]. destruct (IH Hx Hnd) as [i Hi].
      exists (S i). intros [|j] s' Hj; simpl in Hj; [naive_solver|]. rewrite (Hi j s' Hj). lia. }
  destruct Hi as [i Hi]. exists i. intros j s Hj.
  assert (HM : Mod s = m). { rewrite Forall_forall in Hmod. apply Hmod. by eapply list_elem_of_lookup_2. }
  assert (Hsel : selected hashtext gvk (Some s) k = bool_decide (j = i)).
  { unfold selected. rewrite Hk, String.eqb_refl. simpl. rewrite HM. apply bool_decide_ext, Hi, Hj. }
  split.
  - pose proof (list_where_shard hashtext jsonb_out uuid_out gvk (Some s) k r) as Hl. simpl in Hl.
    rewrite Hl, Hsel, Ht. by rewrite andb_true_r.
  - intros rv bi df h Hh. rewrite poll_where_shard. simpl. rewrite Hsel, (proj2 (Z.ltb_lt _ _)) by done.
    by rewrite andb_true_r.
Qed.

Lemma shard_partition_witness :
  ∃ i, ∀ j s, [mkShard 3 [0; 2]; mkShard 3 [1]]%Z !! j = Some s →
    list_where (fun _ => -4)%Z (fun _ => "") (fun _ => "") "g/v/K" (Some (ToListFilter s))
      ("g/v/K", "ns", "a") (mkRow 1 9 2 (JObj []) (JObj []) (JObj []) None 0 5) = bool_decide (j = i) ∧
    (∀ rv bi df h, (h < 9)%Z →
       poll_where (fun _ => -4)%Z (fun _ => "") (fun _ => "") (mkWatcherConfig "g/v/K" rv bi df (Some s)) h
         ("g/v/K", "ns", "a") (mkRow 1 9 2 (JObj []) (JObj []) (JObj []) None 0 5) = bool_decide (j = i)).
Proof.
  apply (shard_partition (fun _ => -4)%Z (fun _ => "") (fun _ => "") 3 [mkShard 3 [0; 2]; mkShard 3 [1]]%Z "g/v/K").
  - lia.
  - by repeat constructor.
  - vm_compute. do 1 constructor. apply Permutation_swap.
  - reflexivity.
  - reflexivity.
Defined.

(** [Validate] accepts a shard specification exactly when its modulus is positive
    and its residues are non-empty, distinct and in range; such a specification owns
    every namespace whose hash residue it lists, and the residue of a namespace is
    always in range, so no namespace is out of reach of a complete set of shards. *)
Theorem Validate_spec (s : ShardSpec) :
  (Validate s = Ok tt ↔
     (0 < Mod s)%Z ∧ Owned s ≠ [] ∧ (∀ o, o ∈ Owned s → (0 ≤ o < Mod s)%Z) ∧ NoDup (Owned s)) ∧
  (∀ hashtext k, Validate s = Ok tt → (0 ≤ residue hashtext (Mod s) k < Mod s)%Z).
Proof.
  split; [apply Validate_ok|]. intros h k (Hm & _)%Validate_ok. by apply residue_range.
Qed.
