(* ===== verification/Convert.v ===== *)
(** * Stored metadata and object conversion (seaplane-db/convert.go)

    The metadata column holds the JSON of [storedMetadata]. The encoding and
    decoding follow encoding/json on that struct: [omitempty] on every field, keys
    matched case-insensitively when decoding, [null] leaving the zero value, a
    type mismatch failing the decoding. *)
From S2P Require Import Prelude GoStrings ResourceVersion Json Db.
From stdpp Require Import base strings list gmap fin_maps.
From Stdlib Require Import ZArith Lia Ascii String OrdersEx Sorted.
Open Scope string_scope.
#[local] Arguments String.append : simpl nomatch.

Module Convert.

(** ** Owner references

    [metav1.OwnerReference] and its JSON form belong to apimachinery; the store
    only carries them, and relies on them surviving a trip through [jsonb]. *)
Class OwnerRefCodec := {
  OwnerReference : Type;
  ownerref_to_json : OwnerReference → json;
  ownerref_of_json : json → option OwnerReference;
  ownerref_roundtrip : ∀ o, ownerref_of_json (canon (ownerref_to_json o)) = Some o
}.

(** ** encoding/json decoding *)

Definition decode_string (j : json) : option string :=
  match j with JStr s => Some s | JNull => Some "" | _ => None end.

Definition decode_string_map (j : json) : option (gmap string string) :=
  match j with
  | JNull => Some ∅
  | JObj l =>
      fold_left (fun acc kv => m ← acc; v ← decode_string kv.2; Some (<[kv.1 := v]> m)) l (Some ∅)
  | _ => None
  end.

Definition decode_list {A} (f : json → option A) (j : json) : option (list A) :=
  match j with
  | JNull => Some []
  | JArr l => mapM f l
  | _ => None
  end.

Definition decode_int64 (j : json) : option Z :=
  match j with
  | JNull => Some 0%Z
  | JNum z => if bool_decide (in_int64 z) then Some z else None
  | _ => None
  end.

(** The value of a struct field: the last entry whose key folds to its name. *)
Definition go_field (name : string) (l : list (string * json)) : option json :=
  fold_left (fun acc kv => if EqualFold kv.1 name then Some kv.2 else acc) l None.

Definition field_or {A} (f : json → option A) (zero : A) (j : option json) : option A :=
  match j with Some d => f d | None => Some zero end.

Section metadata.
Context `{OwnerRefCodec}.

Record storedMetadata := mkMeta {
  Labels : gmap string string;
  Annotations : gmap string string;
  OwnerReferences : list OwnerReference;
  Finalizers : list string;
  Generation : Z
}.

Definition zeroMetadata : storedMetadata := mkMeta ∅ ∅ [] [] 0.

(** [json.Unmarshal(metadata, &sm)]; [None] is an error. *)
Definition unmarshal_metadata (j : json) : option storedMetadata :=
  match j with
  | JNull => Some zeroMetadata
  | JObj l =>
      labels ← field_or decode_string_map ∅ (go_field "labels" l);
      annotations ← field_or decode_string_map ∅ (go_field "annotations" l);
      owners ← field_or (decode_list ownerref_of_json) [] (go_field "ownerReferences" l);
      finalizers ← field_or (decode_list decode_string) [] (go_field "finalizers" l);
      generation ← field_or decode_int64 0%Z (go_field "generation" l);
      Some (mkMeta labels annotations owners finalizers generation)
  | _ => None
  end.

Definition encode_map (m : gmap string string) : json :=
  JObj (map (fun kv => (kv.1, JStr kv.2)) (map_to_list m)).

(** [json.Marshal(sm)] with [omitempty] on every field. *)
Definition marshal_metadata (sm : storedMetadata) : json :=
  JObj ((if bool_decide (Labels sm = ∅) then [] else [("labels", encode_map (Labels sm))]) ++
        (if bool_decide (Annotations sm = ∅) then [] else [("annotations", encode_map (Annotations sm))]) ++
        (match OwnerReferences sm with [] => [] | l => [("ownerReferences", JArr (map ownerref_to_json l))] end) ++
        (match Finalizers sm with [] => [] | l => [("finalizers", JArr (map JStr l))] end) ++
        (if (Generation sm =? 0)%Z then [] else [("generation", JNum (Generation sm))]))%list.

Definition hasFinalizers (r : Resource) : bool :=
  match unmarshal_metadata (Metadata r) with
  | Some sm => bool_decide (Finalizers sm ≠ [])
  | None => false
  end.

Definition isFullyDeleted (r : Resource) : bool :=
  match DeletionTimestamp r with
  | Some _ => negb (hasFinalizers r)
  | None => false
  end.

(** [currentGeneration] (pgclient.go) *)
Definition currentGeneration (metadata : json) : Z :=
  match unmarshal_metadata metadata with Some sm => Generation sm | None => 0%Z end.
End metadata.

(** ** Group, version, kind *)

Record GroupVersionKind := mkGVK {
  gvk_Group : string;
  gvk_Version : string;
  gvk_Kind : string
}.

#[export] Instance GroupVersionKind_eq_dec : EqDecision GroupVersionKind.
Proof. solve_decision. Defined.

Definition gvkToString (gvk : GroupVersionKind) : string :=
  gvk_Group gvk +:+ "/" +:+ gvk_Version gvk +:+ "/" +:+ gvk_Kind gvk.

Definition stringToGVK (s : string) : option GroupVersionKind :=
  match SplitN s "/" 3 with
  | [g; v; k] => Some (mkGVK g v k)
  | _ => None
  end.

Definition itemGVKFromListGVK (gvk : GroupVersionKind) : GroupVersionKind :=
  mkGVK (gvk_Group gvk) (gvk_Version gvk) (TrimSuffix (gvk_Kind gvk) "List").

(** ** Object versions *)

(** [parseResourceVersion]; [None] is the error return. *)
Definition parseResourceVersion (rv : string) : option Z :=
  if String.eqb rv "" then Some 0%Z
  else match ParseInt rv with
       | Some v => Some v
       | None =>
           match RV.Parse rv with
           | Ok composite => if (RV.ObjectVersion composite =? 0)%Z then None
                             else Some (RV.ObjectVersion composite)
           | Err _ => None
           end
       end.

Inductive version_error := ObjectRequired | BadResourceVersion | PositiveVersionRequired.

(** [ValidateObjectResourceVersion] on an object's resource version; [None] is a
    nil object. *)
Definition ValidateObjectResourceVersion (obj : option string) : result version_error unit :=
  match obj with
  | None => Err ObjectRequired
  | Some rv =>
      match parseResourceVersion rv with
      | None => Err BadResourceVersion
      | Some v => if (v <=? 0)%Z then Err PositiveVersionRequired else Ok tt
      end
  end.

(** ** Lemmas *)

Lemma gvk_SplitN g v k :
  str_free "/" g = true → str_free "/" v = true → SplitN (g +:+ "/" +:+ v +:+ "/" +:+ k) "/" 3 = [g; v; k].
Proof.
  intros Hg Hv. set (rest := v +:+ "/" +:+ k).
  change (g +:+ "/" +:+ rest) with (g +:+ String "/" rest).
  assert (Hr : SplitN rest "/" 2 = [v; k]).
  { unfold rest. change (v +:+ "/" +:+ k) with (v +:+ String "/" k). cbn [SplitN].
    rewrite IndexByte_app_free by done. by rewrite str_take_app, str_drop_app_S. }
  cbn [SplitN]. rewrite IndexByte_app_free by done. rewrite str_take_app, str_drop_app_S.
  f_equal. exact Hr.
Qed.

(** GVK strings round-trip: the store's text form of a group/version/kind whose
    group and version hold no slash is read back as the same triple. *)
Theorem gvk_roundtrip (gvk : GroupVersionKind) :
  str_free "/" (gvk_Group gvk) = true → str_free "/" (gvk_Version gvk) = true →
  stringToGVK (gvkToString gvk) = Some gvk.
Proof.
  destruct gvk as [g v k]. simpl. intros Hg Hv. unfold stringToGVK, gvkToString.
  cbn [gvk_Group gvk_Version gvk_Kind]. by rewrite gvk_SplitN.
Qed.

Lemma gvk_roundtrip_witness :
  stringToGVK "seaplane.io/v1alpha1/Cluster" = Some (mkGVK "seaplane.io" "v1alpha1" "Cluster").
Proof. exact (gvk_roundtrip (mkGVK "seaplane.io" "v1alpha1" "Cluster") eq_refl eq_refl). Defined.

Lemma parseResourceVersion_both (ov wm : Z) :
  (0 < ov ≤ max_int64)%Z → in_uint64 wm →
  parseResourceVersion (FormatInt ov) = Some ov ∧
  parseResourceVersion (RV.to_string (RV.mkRV ov wm)) = Some ov.
Proof.
  intros Hov Hwm. unfold parseResourceVersion.
  assert (Hf : FormatInt ov = FormatUint ov).
  { unfold FormatInt. by rewrite (proj2 (Z.ltb_ge _ _)) by lia. }
  split.
  - rewrite Hf, RV.FormatUint_eqb_empty, ParseInt_FormatUint by lia. done.
  - set (s := RV.to_string (RV.mkRV ov wm)).
    assert (Hs : s = String "o" (FormatUint ov ++ String ";" (FormatUint wm))).
    { unfold s, RV.to_string. simpl. by rewrite (proj2 (Z.ltb_lt _ _)), Hf by lia. }
    assert (He : String.eqb s "" = false) by (by rewrite Hs).
    assert (Hp : ParseInt s = None) by (rewrite Hs; by apply ParseInt_letter).
    rewrite He, Hp. unfold s. rewrite RV.Parse_to_string_valid by (split; [simpl; lia|done]).
    simpl. by rewrite (proj2 (Z.eqb_neq _ _)) by lia.
Qed.

(** the version an object carries is recovered from both forms the store gives
    it: the plain decimal of a read and the composite of a watch event. *)
Theorem parseResourceVersion_forms (ov wm : Z) :
  (0 < ov ≤ max_int64)%Z → in_uint64 wm →
  parseResourceVersion (FormatInt ov) = Some ov ∧
  parseResourceVersion (RV.to_string (RV.mkRV ov wm)) = Some ov.
Proof. apply parseResourceVersion_both. Qed.

Lemma parseResourceVersion_forms_witness :
  parseResourceVersion "7" = Some 7%Z ∧ parseResourceVersion "o7;42" = Some 7%Z.
Proof. apply (parseResourceVersion_forms 7 42); by_decide. Defined.

(** ** Metadata survives the store *)

Lemma list_to_map_obj_insert {A} k (v : A) l :
  list_to_map (obj_insert k v l) =@{gmap string A} <[k := v]> (list_to_map l).
Proof.
  induction l as [|[k' v'] l IH]; simpl; [done|].
  destruct (String_as_OT.compare_spec k k') as [E|Hlt|Hgt].
  - unfold String_as_OT.eq in E. subst k'. simpl. by rewrite insert_insert_eq.
  - done.
  - simpl. rewrite IH. apply insert_insert_ne. intros ->.
    exact (irreflexivity String_as_OT.lt _ Hgt).
Qed.

Lemma fold_insert_list_to_map {A} (l : list (string * A)) :
  NoDup l.*1 → fold_left (fun m kv => <[kv.1 := kv.2]> m) l ∅ =@{gmap string A} list_to_map l.
Proof.
  intros Hnd. rewrite <- (map_union_empty (list_to_map l)). generalize (∅ : gmap string A).
  induction l as [|[k v] l IH]; intros m; simpl; [by rewrite map_empty_union|].
  apply NoDup_cons in Hnd as [Hni Hnd]. rewrite IH by done.
  rewrite <- insert_union_l, insert_union_r; [done|]. by apply not_elem_of_list_to_map_1.
Qed.

Lemma list_to_map_obj_normalize {A} (l : list (string * A)) :
  NoDup l.*1 → list_to_map (obj_normalize l) =@{gmap string A} list_to_map l.
Proof.
  intros Hnd. unfold obj_normalize.
  assert (Hg : ∀ acc, list_to_map (fold_left (fun acc kv => obj_insert kv.1 kv.2 acc) l acc)
    =@{gmap string A} fold_left (fun m kv => <[kv.1 := kv.2]> m) l (list_to_map acc)).
  { clear Hnd. induction l as [|[k v] l IH]; intros acc; simpl; [done|].
    by rewrite IH, list_to_map_obj_insert. }
  rewrite Hg. by apply fold_insert_list_to_map.
Qed.

Lemma decode_string_map_entries l : ∀ m : gmap string string,
  fold_left (fun acc kv => m ← acc; v ← decode_string kv.2; Some (<[kv.1 := v]> m))
    (map (fun kv => (kv.1, JStr kv.2)) l) (Some m)
  = Some (fold_left (fun m kv => <[kv.1 := kv.2]> m) l m).
Proof. induction l as [|[k v] l IH]; intros m; simpl; [done|]. by rewrite IH. Qed.

(** Values may be renamed before or after normalising. *)
Lemma obj_insert_map {A B} (f : A → B) k v l :
  map (fun kv => (kv.1, f kv.2)) (obj_insert k v l) = obj_insert k (f v) (map (fun kv => (kv.1, f kv.2)) l).
Proof.
  induction l as [|[k' v'] l IH]; simpl; [done|].
  destruct (String_as_OT.compare k k'); simpl; by rewrite ?IH.
Qed.

Lemma obj_normalize_map {A B} (f : A → B) l :
  map (fun kv => (kv.1, f kv.2)) (obj_normalize l) = obj_normalize (map (fun kv => (kv.1, f kv.2)) l).
Proof.
  unfold obj_normalize. change (@nil (string * B)) with (map (fun kv : string * A => (kv.1, f kv.2)) []).
  generalize (@nil (string * A)). induction l as [|[k v] l IH]; intros acc; simpl; [done|].
  by rewrite IH, obj_insert_map.
Qed.

Lemma sorted_NoDup {A} (l : list (string * A)) : StronglySorted entry_lt l → NoDup l.*1.
Proof.
  induction 1 as [|[k v] l Hs IH Hf]; simpl; constructor; [|done].
  intros ([k' v'] & -> & Hin)%list_elem_of_fmap. rewrite Forall_forall in Hf.
  exact (irreflexivity String_as_OT.lt _ (Hf _ Hin)).
Qed.

Lemma decode_encode_map m : decode_string_map (canon (encode_map m)) = Some m.
Proof.
  unfold encode_map. simpl. rewrite map_map. simpl.
  change (map (fun x : string * string => (x.1, JStr x.2)) (map_to_list m))
    with (map (fun kv : string * string => (kv.1, JStr kv.2)) (map_to_list m)).
  rewrite <- obj_normalize_map, decode_string_map_entries. f_equal.
  rewrite fold_insert_list_to_map by apply sorted_NoDup, obj_normalize_sorted.
  rewrite list_to_map_obj_normalize by apply NoDup_fst_map_to_list.
  apply list_to_map_to_list.
Qed.

Lemma mapM_roundtrip {A} (enc : A → json) (dec : json → option A) l :
  (∀ a, dec (canon (enc a)) = Some a) → mapM dec (map canon (map enc l)) = Some l.
Proof. intros Hr. induction l as [|a l IH]; simpl; [done|]. by rewrite Hr, IH. Qed.

(** Evaluates the field lookups of a decoding and nothing else. *)
Ltac compute_fields :=
  unfold unmarshal_metadata;
  repeat match goal with
  | |- context [go_field ?n ?l] =>
      let v := eval lazy -[canon] in (go_field n l) in
      change (go_field n l) with v
  end; cbn [field_or mbind option_bind].

Section roundtrip.
Context `{OwnerRefCodec}.

Lemma decode_owner_list l : decode_list ownerref_of_json (canon (JArr (map ownerref_to_json l))) = Some l.
Proof. apply mapM_roundtrip, ownerref_roundtrip. Qed.

Lemma decode_finalizer_list l : decode_list decode_string (canon (JArr (map JStr l))) = Some l.
Proof. by apply mapM_roundtrip. Qed.

Lemma unmarshal_canon_marshal (sm : storedMetadata) :
  in_int64 (Generation sm) → unmarshal_metadata (canon (marshal_metadata sm)) = Some sm.
Proof.
  destruct sm as [ls an ow fi ge]. unfold marshal_metadata.
  cbn [Labels Annotations OwnerReferences Finalizers Generation]. intros Hg.
  pose proof (decode_encode_map ls) as Hls. pose proof (decode_encode_map an) as Han.
  pose proof (decode_owner_list ow) as How. pose proof (decode_finalizer_list fi) as Hfi.
  assert (Hge : decode_int64 (JNum ge) = Some ge) by (simpl; by rewrite bool_decide_eq_true_2).
  assert (Hg0 : ge = 0%Z ∨ (ge =? 0)%Z = false) by (destruct (Z.eqb_spec ge 0); auto).
  assert (He : ∀ m : gmap string string, m = ∅ ∨ bool_decide (m = ∅) = false).
  { intros m. destruct (decide (m = ∅)); [by left|right; by apply bool_decide_eq_false_2]. }
  revert Hls Han. generalize (encode_map ls) (encode_map an). intros jl ja Hls Han.
  destruct ow as [|o ow], fi as [|f fi]; revert How Hfi;
    match goal with
    | |- decode_list _ (canon ?x) = _ → decode_list _ (canon ?y) = _ → _ => generalize x y
    end; intros jo jf How Hfi;
    destruct (He ls) as [Hl0|Hl0], (He an) as [Ha0|Ha0];
    rewrite ?Hl0, ?Ha0, ?(bool_decide_eq_true_2 (∅ = ∅)) by done;
    destruct Hg0 as [->| ->]; remember unmarshal_metadata as um eqn:Hum; cbn; subst um;
    compute_fields; rewrite ?Hls; cbn [mbind option_bind]; rewrite ?Han; cbn [mbind option_bind];
    rewrite ?How; cbn [mbind option_bind]; rewrite ?Hfi; cbn [mbind option_bind]; rewrite ?Hge; done.
Qed.

(** Go and SQL read the same thing off stored metadata: no finalizers. *)
Definition meta_consistent (m : json) : Prop :=
  match unmarshal_metadata m with
  | Some sm => bool_decide (Finalizers sm ≠ []) = negb (sql_holds (no_finalizers m))
  | None => sql_holds (no_finalizers m) = true
  end.

Lemma marshal_finalizers (sm : storedMetadata) :
  jsonb_get (canon (marshal_metadata sm)) "finalizers" =
    match Finalizers sm with [] => None | l => Some (JArr (map JStr l)) end.
Proof.
  destruct sm as [ls an ow fi ge]. unfold marshal_metadata.
  cbn [Labels Annotations OwnerReferences Finalizers Generation].
  assert (Hc : ∀ l, canon (JArr (map JStr l)) = JArr (map JStr l)).
  { intros l. cbn. f_equal. rewrite map_map. done. }
  generalize (encode_map ls) (encode_map an). intros jl ja.
  destruct ow as [|o ow];
    [generalize (JArr (map ownerref_to_json [])) | generalize (JArr (map ownerref_to_json (o :: ow)))];
    intros jo; destruct fi as [|f fi];
    destruct (bool_decide (ls = ∅)), (bool_decide (an = ∅)), (ge =? 0)%Z; try reflexivity;
    specialize (Hc (f :: fi)); revert Hc; generalize (JArr (map JStr (f :: fi))); intros jf Hc;
    rewrite <- Hc at 2; reflexivity.
Qed.

Lemma marshal_consistent (sm : storedMetadata) :
  in_int64 (Generation sm) → meta_consistent (canon (marshal_metadata sm)).
Proof.
  intros Hg. unfold meta_consistent. rewrite unmarshal_canon_marshal by done.
  unfold no_finalizers. rewrite marshal_finalizers. by destruct (Finalizers sm).
Qed.

Lemma consistent_fully_deleted k r :
  meta_consistent (row_metadata r) → isFullyDeleted (to_resource k r) = is_tombstone r.
Proof.
  unfold meta_consistent, isFullyDeleted, hasFinalizers, is_tombstone, tombstone_filter.
  intros Hm. rewrite sql_holds_and. cbn [to_resource DeletionTimestamp Metadata].
  destruct (row_deletion r); [|done].
  destruct (unmarshal_metadata (row_metadata r)).
  - rewrite Hm. cbn. by rewrite negb_involutive.
  - by rewrite Hm.
Qed.
End roundtrip.

(** metadata survives the store: decoding the normalised [jsonb] form of an
    encoded [storedMetadata] gives it back, whichever fields [omitempty] dropped,
    and on every such document Go's reading of the finalizers is SQL's, so a row is
    fully deleted for the client exactly when the tombstone filter of the queries
    selects it. *)
Theorem metadata_roundtrip `{OwnerRefCodec} (sm : storedMetadata) (k : key) (r : Row) :
  in_int64 (Generation sm) → row_metadata r = canon (marshal_metadata sm) →
  unmarshal_metadata (row_metadata r) = Some sm ∧
  isFullyDeleted (to_resource k r) = is_tombstone r.
Proof.
  intros Hg Hr. rewrite Hr. split; [by apply unmarshal_canon_marshal|].
  apply consistent_fully_deleted. rewrite Hr. by apply marshal_consistent.
Qed.

(** Owner references carried as their names. *)
#[export] Instance name_ownerref : OwnerRefCodec := {|
  OwnerReference := string;
  ownerref_to_json := JStr;
  ownerref_of_json := decode_string;
  ownerref_roundtrip := fun o => eq_refl
|}.

Lemma metadata_roundtrip_witness :
  let sm := mkMeta {[ "app" := "x" ]} ∅ ["owner"] ["seaplane.io/cleanup"] 4 in
  let r := mkRow 1 9 2 (JObj []) (JObj []) (canon (marshal_metadata sm)) (Some 5%Z) 0 5 in
  unmarshal_metadata (row_metadata r) = Some sm ∧ is_tombstone r = false.
Proof.
  intros sm r. assert (Hg : in_int64 (Generation sm)) by by_decide.
  destruct (metadata_roundtrip sm ("g", "n", "x") r Hg eq_refl) as [H1 H2].
  split; [exact H1|]. rewrite <- H2. reflexivity.
Defined.

End Convert.
