(* ===== verification/Object.v ===== *)
(** * Typed objects (seaplane-db/convert.go)

    A [client.Object] of the store: its metadata as the accessors of [metav1.Object]
    give it, and its [Spec] and [Status] fields. The Go types behind the two fields
    and their JSON are those of the scheme the caller registers: [Scheme] is the
    interface the conversion uses. *)
From S2P Require Import Prelude GoStrings ResourceVersion Json Db Convert.
From stdpp Require Import base strings list gmap.
From Stdlib Require Import ZArith Lia Ascii String.
Open Scope string_scope.
Import Convert.

(** What a scheme promises: the zero value of every registered kind ([None] for an
    absent Spec or Status field), the JSON of field values, and decoding into the
    current value of a field. *)
Class Scheme := {
  Value : Type;
  scheme_New : GroupVersionKind → option (option Value * option Value);
  value_Marshal : Value → option json;
  value_Unmarshal : json → Value → option Value
}.

Section objects.
Context `{Codec : OwnerRefCodec, Sch : Scheme} (uuid_string : uuid → string).

Record Object := mkObject {
  o_Kind : GroupVersionKind;
  o_Name : string;
  o_GenerateName : string;
  o_Namespace : string;
  o_UID : string;
  o_ResourceVersion : string;
  o_CreationTimestamp : time;
  o_DeletionTimestamp : option time;
  o_Meta : storedMetadata;
  o_Spec : option Value;
  o_Status : option Value
}.

(** [SetResourceVersion], [SetGeneration], [SetGroupVersionKind] *)
Definition set_ResourceVersion (rv : string) (o : Object) : Object :=
  mkObject (o_Kind o) (o_Name o) (o_GenerateName o) (o_Namespace o) (o_UID o) rv
    (o_CreationTimestamp o) (o_DeletionTimestamp o) (o_Meta o) (o_Spec o) (o_Status o).

Definition set_Generation (g : Z) (o : Object) : Object :=
  let m := o_Meta o in
  mkObject (o_Kind o) (o_Name o) (o_GenerateName o) (o_Namespace o) (o_UID o) (o_ResourceVersion o)
    (o_CreationTimestamp o) (o_DeletionTimestamp o)
    (mkMeta (Labels m) (Annotations m) (OwnerReferences m) (Finalizers m) g) (o_Spec o) (o_Status o).

Definition set_Kind (gvk : GroupVersionKind) (o : Object) : Object :=
  mkObject gvk (o_Name o) (o_GenerateName o) (o_Namespace o) (o_UID o) (o_ResourceVersion o)
    (o_CreationTimestamp o) (o_DeletionTimestamp o) (o_Meta o) (o_Spec o) (o_Status o).

Inductive convert_error :=
| InvalidGVK (s : string)
| SchemeNew (gvk : GroupVersionKind)
| MarshalSpec
| MarshalStatus
| UnmarshalSpec
| UnmarshalStatus.

(** ** Object to columns *)

Definition extract_field (err : convert_error) (field : option Value) : result convert_error json :=
  match field with
  | None => Ok (JObj [])
  | Some v => match value_Marshal v with Some j => Ok j | None => Err err end
  end.

Definition extractSpec (o : Object) : result convert_error json := extract_field MarshalSpec (o_Spec o).
Definition extractStatus (o : Object) : result convert_error json := extract_field MarshalStatus (o_Status o).

Definition extractSpecStatus (o : Object) : result convert_error (json * json) :=
  spec ← extract_field MarshalSpec (o_Spec o);
  status ← extract_field MarshalStatus (o_Status o);
  Ok (spec, status).

Definition extractMetadata (o : Object) : json := marshal_metadata (o_Meta o).

(** ** Row to object *)

(** An undecodable metadata column leaves the accessors it would set alone; an
    absent deletion timestamp leaves the object's. *)
Definition populateObjectMeta (o : Object) (r : Resource) : Object :=
  mkObject (o_Kind o) (Name r) (o_GenerateName o) (Namespace r) (uuid_string (UID r))
    (FormatInt (ObjectVersion r)) (CreatedAt r)
    (match DeletionTimestamp r with Some d => Some d | None => o_DeletionTimestamp o end)
    (match unmarshal_metadata (Metadata r) with Some sm => sm | None => o_Meta o end)
    (o_Spec o) (o_Status o).

Definition inject_field (err : convert_error) (doc : json) (field : option Value) :
    result convert_error (option Value) :=
  if json_eqb doc (JObj []) then Ok field
  else match field with
       | None => Ok None
       | Some v => match value_Unmarshal doc v with Some v' => Ok (Some v') | None => Err err end
       end.

Definition injectSpecStatus (o : Object) (spec status : json) : result convert_error Object :=
  s ← inject_field UnmarshalSpec spec (o_Spec o);
  t ← inject_field UnmarshalStatus status (o_Status o);
  Ok (mkObject (o_Kind o) (o_Name o) (o_GenerateName o) (o_Namespace o) (o_UID o) (o_ResourceVersion o)
        (o_CreationTimestamp o) (o_DeletionTimestamp o) (o_Meta o) s t).

Definition populateObject (dst : Object) (r : Resource) (gvk : GroupVersionKind) :
    result convert_error Object :=
  injectSpecStatus (set_Kind gvk (populateObjectMeta dst r)) (Spec r) (Status r).

(** [scheme.New]: the zero object of a kind. *)
Definition zero_object (fields : option Value * option Value) : Object :=
  mkObject (mkGVK "" "" "") "" "" "" "" "" 0 None zeroMetadata fields.1 fields.2.

Definition resourceToObject (r : Resource) : result convert_error Object :=
  match stringToGVK (GVK r) with
  | None => Err (InvalidGVK (GVK r))
  | Some gvk =>
      match scheme_New gvk with
      | None => Err (SchemeNew gvk)
      | Some fields =>
          injectSpecStatus (set_Kind gvk (populateObjectMeta (zero_object fields) r)) (Spec r) (Status r)
      end
  end.

(** ** Lemmas *)

Lemma inject_ok o spec status o' :
  injectSpecStatus o spec status = Ok o' →
  o_Name o' = o_Name o ∧ o_Namespace o' = o_Namespace o ∧ o_ResourceVersion o' = o_ResourceVersion o ∧
  o_UID o' = o_UID o ∧ o_Meta o' = o_Meta o ∧ o_DeletionTimestamp o' = o_DeletionTimestamp o.
Proof. unfold injectSpecStatus. intros (s & _ & (t & _ & [= <-])%result_bind_ok)%result_bind_ok. done. Qed.

(** The object of a row is known by the row's key and version. *)
Lemma resourceToObject_ok r o :
  resourceToObject r = Ok o →
  o_Name o = Name r ∧ o_Namespace o = Namespace r ∧ o_ResourceVersion o = FormatInt (ObjectVersion r) ∧
  o_UID o = uuid_string (UID r) ∧ o_DeletionTimestamp o = DeletionTimestamp r.
Proof.
  unfold resourceToObject. intros H. destruct (stringToGVK (GVK r)); [|done].
  destruct (scheme_New _); [|done]. apply inject_ok in H as (-> & -> & -> & -> & _ & ->).
  simpl. destruct (DeletionTimestamp r); done.
Qed.

End objects.
Arguments Object {_ _}.

(** Kinds whose Spec and Status are kept as JSON documents. *)
#[export] Instance json_scheme : Scheme := {|
  Value := json;
  scheme_New := fun _ => Some (Some JNull, Some JNull);
  value_Marshal := Some;
  value_Unmarshal := fun j _ => Some j
|}.
