(* ===== verification/Watch.v ===== *)
(** * The watch adapter (seaplane-db/pgwatch.go, pgcache.go)

    [pgWatcher.relay] turns reader events into [watch.Event]s, stamping a composite
    resource version on each object. A consumer keeps the objects of the events it
    receives, the way a client-go store does: ADDED and MODIFIED put the object
    under its namespace and name, DELETED removes it. *)
From S2P Require Import Prelude GoStrings ResourceVersion Json Db Compaction Sql Reader Convert Object.
From stdpp Require Import base strings list gmap.
From Stdlib Require Import ZArith Lia Ascii String.
Open Scope string_scope.
Import Convert Reader.

Module PgWatch.

Inductive watch_EventType := WatchAdded | WatchModified | WatchDeleted.

(** How [Watcher.Run] ended, as [sendError] tells them apart. *)
Inductive run_error := RunCanceled | RunDeadlineExceeded | RunGone | RunOther.

(** [watch.Error] statuses *)
Inductive status := ResourceExpired | InternalError.

(** [sendError]: the status sent, if any. *)
Definition sendError (err : option run_error) : option status :=
  match err with
  | None | Some RunCanceled | Some RunDeadlineExceeded => None
  | Some RunGone => Some ResourceExpired
  | Some RunOther => Some InternalError
  end.

(** The consumer's store. *)
Notation store := (gmap (string * string) Object).

Section relay.
Context `{Codec : OwnerRefCodec, Sch : Scheme} (uuid_string : uuid → string).

Record watch_Event := mkWatchEvent {
  we_Type : watch_EventType;
  we_Object : Object
}.

Definition newPgWatcher (startRV : RV.RV) : RV.RV := RV.mkRV 0 (RV.Watermark startRV).

(** Stamping: the watermark is the largest txid stamp delivered so far. *)
Definition stamp (currentRV : RV.RV) (r : Resource) : RV.RV :=
  RV.mkRV (ObjectVersion r)
    (if (RV.Watermark currentRV <? TxidStamp r)%Z then TxidStamp r else RV.Watermark currentRV).

Definition watch_type (ev : Event) : watch_EventType :=
  match ev_Type ev with
  | EventAdded => WatchAdded
  | EventModified => WatchModified
  | EventDeleted => if hasFinalizers (ev_Resource ev) then WatchModified else WatchDeleted
  end.

(** One event of the relay loop. *)
Definition relay_event (currentRV : RV.RV) (ev : Event) : result convert_error (RV.RV * watch_Event) :=
  obj ← resourceToObject uuid_string (ev_Resource ev);
  let rv := stamp currentRV (ev_Resource ev) in
  Ok (rv, mkWatchEvent (watch_type ev) (set_ResourceVersion (RV.to_string rv) obj)).

(** What the selects of the loop see: a stop, the end of the context, the closed
    events channel with the error of [Run], or an event whose send succeeds or is
    cut short. *)
Inductive relay_input :=
| InStop
| InClosed (runErr : option run_error)
| InEvent (ev : Event) (sent : bool).

(** The loop over its inputs: the events sent, and the status sent last. *)
Fixpoint relay (currentRV : RV.RV) (inputs : list relay_input) : list watch_Event * option status :=
  match inputs with
  | [] | InStop :: _ => ([], None)
  | InClosed err :: _ => ([], sendError err)
  | InEvent ev sent :: rest =>
      match relay_event currentRV ev with
      | Err _ => ([], Some InternalError)
      | Ok (rv, we) =>
          if sent then let '(out, st) := relay rv rest in (we :: out, st) else ([], None)
      end
  end.

(** ** The consumer's store *)

Definition store_key (o : Object) : string * string := (o_Namespace o, o_Name o).

Definition store_apply (we : watch_Event) (s : store) : store :=
  match we_Type we with
  | WatchDeleted => delete (store_key (we_Object we)) s
  | _ => <[store_key (we_Object we) := we_Object we]> s
  end.

(** Relaying the events of one poll into the consumer's store. *)
Fixpoint relay_all (currentRV : RV.RV) (s : store) (evs : list Event) :
    result convert_error (RV.RV * store) :=
  match evs with
  | [] => Ok (currentRV, s)
  | ev :: rest =>
      '(rv, we) ← relay_event currentRV ev;
      relay_all rv (store_apply we s) rest
  end.

(** The store a List fills. *)
Fixpoint store_of_list (rs : list Resource) : result convert_error store :=
  match rs with
  | [] => Ok ∅
  | r :: rest =>
      o ← resourceToObject uuid_string r;
      s ← store_of_list rest;
      Ok (<[store_key o := o]> s)
  end.

(** The relay loop delivers exactly what [relay_all] folds into the store. *)
Lemma relay_folds rv s evs rv' s' :
  relay_all rv s evs = Ok (rv', s') →
  let out := (relay rv (map (fun ev => InEvent ev true) evs)).1 in
  fold_left (fun s we => store_apply we s) out s = s' ∧ List.length out = List.length evs.
Proof.
  revert rv s. induction evs as [|ev evs IH]; intros rv s; simpl; [by intros [= <- <-]|].
  intros ([rv1 we] & H1 & H2)%result_bind_ok. rewrite H1.
  destruct (IH _ _ H2) as [Hf Hl]. destruct (relay rv1 _) as [out st]. simpl in *. by rewrite Hf, Hl.
Qed.
End relay.

End PgWatch.

(** * List and watch against a concurrent PostgreSQL

    The server as a step relation: transactions take increasing ids when they
    begin and become visible in any order, each applying one [pgctl_write] or one
    compaction when it commits. A session is what an informer runs: a List, then
    polls whose events go through the relay into the consumer's store. *)
From stdpp Require Import base strings list gmap sets relations.
From Stdlib Require Import ZArith Lia Ascii String.
Open Scope string_scope.
Import Convert Reader PgWatch Compaction.

Module Watch.

(** ** The server *)

Record Pg := mkPg {
  pg_db : Db;
  pg_next : Z;
  pg_active : gset Z
}.

(** [pg_snapshot_xmin]: the lowest id still in progress, or the next id. *)
Definition xmin (pg : Pg) : Z := set_fold Z.min (pg_next pg) (pg_active pg).

Definition snapshot (pg : Pg) : Snapshot := mkSnapshot (pg_db pg) (xmin pg).

Lemma xmin_spec pg :
  (xmin pg ≤ pg_next pg)%Z ∧ (∀ x, x ∈ pg_active pg → (xmin pg ≤ x)%Z) ∧
  (xmin pg = pg_next pg ∨ xmin pg ∈ pg_active pg).
Proof.
  unfold xmin.
  apply (set_fold_ind_L (fun m X => (m ≤ pg_next pg)%Z ∧ (∀ x, x ∈ X → (m ≤ x)%Z) ∧ (m = pg_next pg ∨ m ∈ X))).
  - split_and!; [lia|set_solver|by left].
  - intros x X m Hx (H1 & H2 & H3). split_and!; [lia| |].
    + intros y [->%elem_of_singleton|Hy]%elem_of_union; [lia|]. specialize (H2 y Hy). lia.
    + destruct (Z.min_spec x m) as [[_ ->]|[_ ->]]; [right; set_solver|].
      destruct H3; [by left|right; set_solver].
Qed.

Section watch.
Context `{Codec : OwnerRefCodec, Sch : Scheme}.
Context (hashtext : string → Z) (jsonb_out : json → string) (uuid_string : uuid → string).
Local Notation poll := (poll hashtext jsonb_out uuid_string).
Local Notation List := (Reader.List hashtext jsonb_out uuid_string).
Local Notation selected := (selected hashtext).

(** The metadata column is written with the JSON of a [storedMetadata]. *)
Definition library_write (p : writeParams) : Prop :=
  ∀ m, p_metadata p = Some m → ∃ sm, in_int64 (Generation sm) ∧ m = canon (marshal_metadata sm).

Inductive pg_step : Pg → Pg → Prop :=
| step_begin pg :
    (pg_next pg < max_int64)%Z →
    pg_step pg (mkPg (pg_db pg) (pg_next pg + 1) ({[pg_next pg]} ∪ pg_active pg))
| step_write pg env p db' o :
    env_txid env ∈ pg_active pg → library_write p →
    pgctl_write env p (pg_db pg) = Ok (db', o) →
    pg_step pg (mkPg db' (pg_next pg) (pg_active pg ∖ {[env_txid env]}))
| step_compact pg x cfg now :
    x ∈ pg_active pg →
    pg_step pg (mkPg (Compact cfg now (pg_db pg)).1 (pg_next pg) (pg_active pg ∖ {[x]}))
| step_end pg x :
    x ∈ pg_active pg →
    pg_step pg (mkPg (pg_db pg) (pg_next pg) (pg_active pg ∖ {[x]})).

Definition row_wf (pg : Pg) (r : Row) : Prop :=
  (0 < row_txid r < pg_next pg)%Z ∧ row_txid r ∉ pg_active pg ∧
  (0 < row_version r ≤ max_int64)%Z ∧ meta_consistent (row_metadata r).

Definition pg_wf (pg : Pg) : Prop :=
  (0 < pg_next pg ≤ max_int64)%Z ∧
  (∀ x, x ∈ pg_active pg → (0 < x < pg_next pg)%Z) ∧
  (∀ k r, kubernetes_resources (pg_db pg) !! k = Some r → row_wf pg r) ∧
  (∀ g c, compaction_horizon (pg_db pg) !! g = Some c → (0 < c < pg_next pg)%Z).

(** ** Sessions *)

Record Session := mkSession {
  se_watcher : Watcher;
  se_rv : RV.RV;
  se_store : store
}.

(** The start of a watch from [opts.ResourceVersion] (WatchFuncWithContext). *)
Definition watch_startRV (rv : string) : result unit RV.RV :=
  if String.eqb rv "" then Ok (RV.mkRV 0 0)
  else match RV.Parse rv with Ok v => Ok v | Err _ => Err tt end.

Definition start_session (gvk : string) (shard : option ShardSpec) (startRV : RV.RV) (s : store) : Session :=
  mkSession (NewWatcher (mkWatcherConfig gvk startRV 0 0 shard)) (newPgWatcher startRV) s.

(** ListWithContextFunc, then WatchFuncWithContext at the version of the list. *)
Definition list_and_watch (gvk : string) (shard : option ShardSpec) (snap : Snapshot) : option Session :=
  match List None snap gvk (ToListFilter <$> shard) with
  | Err _ => None
  | Ok lr =>
      match store_of_list uuid_string (Resources lr),
            watch_startRV (RV.to_string (ListResourceVersion lr)) with
      | Ok s, Ok rv => Some (start_session gvk shard rv s)
      | _, _ => None
      end
  end.

(** One poll relayed into the store. [None] when the poll or a conversion fails:
    the watch ends. *)
Definition session_poll (snap : Snapshot) (se : Session) : option Session :=
  match poll None DeliverAll snap (se_watcher se) with
  | (w, evs, Ok _) =>
      match relay_all uuid_string (se_rv se) (se_store se) evs with
      | Ok (rv, s) => Some (mkSession w rv s)
      | Err _ => None
      end
  | (_, _, Err _) => None
  end.

Inductive sys_step : Pg * Session → Pg * Session → Prop :=
| sys_server pg pg' se : pg_step pg pg' → sys_step (pg, se) (pg', se)
| sys_poll pg se se' : session_poll (snapshot pg) se = Some se' → sys_step (pg, se) (pg, se').

(** ** What a store should hold *)

(** [o] is the object of row [r], whichever of the two version forms it carries. *)
Definition shows (o : Object) (k : key) (r : Row) : Prop :=
  (∃ o', resourceToObject uuid_string (to_resource k r) = Ok o' ∧
         o = set_ResourceVersion (o_ResourceVersion o) o') ∧
  parseResourceVersion (o_ResourceVersion o) = Some (row_version r).

Definition live (gvk : string) (shard : option ShardSpec) (db : Db) (k : key) : option Row :=
  match kubernetes_resources db !! k with
  | Some r => if selected gvk shard k && negb (is_tombstone r) then Some r else None
  | None => None
  end.

Definition agrees (gvk : string) (shard : option ShardSpec) (db : Db) (s : store) (ns name : string) : Prop :=
  match live gvk shard db (gvk, ns, name) with
  | Some r => ∃ o, s !! (ns, name) = Some o ∧ shows o (gvk, ns, name) r
  | None => s !! (ns, name) = None
  end.

Definition mirrors (gvk : string) (shard : option ShardSpec) (db : Db) (s : store) : Prop :=
  ∀ ns name, agrees gvk shard db s ns name.

(** Every row the session is about can be decoded by the scheme. *)
Definition decodable (gvk : string) (shard : option ShardSpec) (db : Db) : Prop :=
  ∀ k r, kubernetes_resources db !! k = Some r → selected gvk shard k = true →
    ∃ o, resourceToObject uuid_string (to_resource k r) = Ok o.
End watch.

End Watch.
