(* ===== verification/WatchProps.v ===== *)
(** * No lost updates

    The invariant that ties a session to the server it reads, its preservation by
    every step, and the theorems of the watch protocol. *)
From S2P Require Import Prelude GoStrings ResourceVersion Json Db Compaction Sql Reader Convert Object Watch.
From stdpp Require Import base strings list gmap sets relations sorting.
From Stdlib Require Import ZArith Lia Ascii String.
Open Scope string_scope.
Import Convert Reader PgWatch Compaction Watch.

(** ** The server's own invariant *)

Lemma raise_all_inv (P : Z → Prop) del h :
  (∀ k r, (k, r) ∈ del → P (row_txid r)) → (∀ g c, h !! g = Some c → P c) →
  ∀ g c, raise_all del h !! g = Some c → P c.
Proof.
  intros Hd Hh. induction del as [|[k r] del IH]; simpl; [done|].
  assert (IH' : ∀ g c, raise_all del h !! g = Some c → P c).
  { apply IH. intros k' r' Hin. apply (Hd k' r'). by right. }
  assert (Hr : P (row_txid r)) by (apply (Hd k r); by left).
  intros g c. unfold raise_horizon. rewrite lookup_insert. case_decide; [|apply IH'].
  intros [= <-]. destruct (raise_all del h !! k.1.1) as [c'|] eqn:E; [|done].
  destruct (Z.max_spec c' (row_txid r)) as [[_ ->]|[_ ->]]; [done|by eapply IH'].
Qed.

(** The metadata and version a write leaves. *)
Lemma upsert_row_metadata env p e r :
  upsert_row env p e = Ok r →
  p_metadata p = Some (row_metadata r) ∨ ∃ r0, e = Some r0 ∧ row_metadata r = row_metadata r0.
Proof. intros H. unfold_upsert H; eauto. Qed.

Lemma upsert_row_version env p e r :
  upsert_row env p e = Ok r → (∀ r0, e = Some r0 → (0 < row_version r0 ≤ max_int64)%Z) →
  (0 < row_version r ≤ max_int64)%Z.
Proof.
  intros H He. destruct (decide (expectedVersion p = 0%Z)) as [Hz|Hnz].
  - apply upsert_row_create in H as (_ & _ & _ & ->); [|done]. unfold max_int64. lia.
  - apply upsert_row_update in H as (r0 & -> & _ & _ & -> & ?); [|done].
    specialize (He r0 eq_refl). lia.
Qed.

Section props.
Context `{Codec : OwnerRefCodec, Sch : Scheme}.
Context (hashtext : string → Z) (jsonb_out : json → string) (uuid_string : uuid → string).
Local Notation poll := (poll hashtext jsonb_out uuid_string).
Local Notation selected := (selected hashtext).

Lemma row_wf_weaken db db' n n' A A' r :
  row_wf (mkPg db n A) r → (n ≤ n')%Z → (∀ x, x ∈ A' → x ∈ A ∨ (n ≤ x)%Z) → row_wf (mkPg db' n' A') r.
Proof.
  unfold row_wf. simpl. intros (Ht & Hna & Hv & Hm) Hn HA. split_and!; [lia|lia| |lia|lia|done].
  intros [?|?]%HA; [done|lia].
Qed.

(** The row a committing write leaves is well formed once its id is released. *)
Lemma upsert_row_wf pg env p r :
  pg_wf pg → env_txid env ∈ pg_active pg → library_write p →
  upsert_row env p (kubernetes_resources (pg_db pg) !! p_key p) = Ok r →
  row_wf (mkPg (set_row (pg_db pg) (p_key p) r) (pg_next pg) (pg_active pg ∖ {[env_txid env]})) r.
Proof.
  intros (Hn & Ha & Hr & Hh) Hact Hlib Hup. unfold row_wf. simpl.
  rewrite (upsert_row_txid _ _ _ _ Hup). 
  split_and!; [apply Ha, Hact|apply Ha, Hact|set_solver| | |].
  1,2: eapply upsert_row_version; [done|]; intros r0 Hr0; apply (Hr _ _ Hr0).
  destruct (upsert_row_metadata _ _ _ _ Hup) as [Hm|(r0 & Hr0 & ->)]; [|apply (Hr _ _ Hr0)].
  destruct (Hlib _ Hm) as (sm & Hg & ->). by apply marshal_consistent.
Qed.

Lemma pg_step_wf pg pg' : pg_step pg pg' → pg_wf pg → pg_wf pg'.
Proof.
  intros Hstep Hwf. pose proof Hwf as (Hn & Ha & Hr & Hh). inversion Hstep; subst; clear Hstep; unfold pg_wf; simpl.
  - destruct pg as [db n A]; simpl in *. split_and!; [lia|lia|set_solver by lia| |].
    + intros k r Hk. eapply row_wf_weaken; [by eapply Hr|lia|]. set_solver by lia.
    + intros g c Hc. specialize (Hh g c Hc). lia.
  - destruct (pgctl_write_ok _ _ _ _ _ H1) as [(r & _ & _ & _ & _ & _ & -> & _)|(r & Hup & -> & _)].
    + split_and!; [lia|lia|set_solver| |done].
      intros k r' Hk. destruct pg. eapply row_wf_weaken; [by eapply Hr|done|set_solver].
    + split_and!; [lia|lia|set_solver| |done].
      intros k r'. simpl. rewrite lookup_insert. case_decide as Hk.
      * intros [= <-]. by apply upsert_row_wf.
      * intros Hk'. destruct pg. eapply row_wf_weaken; [by eapply Hr|done|set_solver].
  - split_and!; [lia|lia|set_solver| |].
    + intros k r Hk%Compact_keeps. destruct pg. eapply row_wf_weaken; [by eapply Hr|done|set_solver].
    + apply raise_all_inv; [|done]. intros k r Hin.
      apply elem_of_map_to_list, map_lookup_filter_Some in Hin as [Hin _]. apply (Hr _ _ Hin).
  - split_and!; [lia|lia|set_solver| |done].
    intros k r Hk. destruct pg. eapply row_wf_weaken; [by eapply Hr|done|set_solver].
Qed.

(** ** One event *)

(** The relay reports a deletion exactly for the rows the queries call tombstones. *)
Lemma event_deleted pg k r :
  row_wf pg r →
  watch_type (mkEvent (event_type (to_resource k r)) (to_resource k r)) = WatchDeleted ↔ is_tombstone r = true.
Proof.
  intros (_ & _ & _ & Hm). rewrite <- (consistent_fully_deleted k r Hm).
  unfold watch_type, event_type, isFullyDeleted. simpl.
  destruct (row_deletion r); simpl; [by destruct (hasFinalizers _)|by destruct (row_version r =? 1)%Z].
Qed.

Definition row_event (kr : key * Row) : Event :=
  mkEvent (event_type (to_resource kr.1 kr.2)) (to_resource kr.1 kr.2).

Definition rv_ok (rv : RV.RV) : Prop := (0 ≤ RV.Watermark rv ≤ max_int64)%Z.

(** Both version forms give the row's version back. *)
Lemma version_forms v wm :
  (0 < v ≤ max_int64)%Z → (0 ≤ wm ≤ max_int64)%Z →
  parseResourceVersion (FormatInt v) = Some v ∧
  parseResourceVersion (RV.to_string (RV.mkRV v wm)) = Some v.
Proof.
  intros Hv Hwm. apply parseResourceVersion_both; [done|]. unfold in_uint64, max_uint64, max_int64 in *. lia.
Qed.

Lemma relay_event_row pg rv k r rv' we :
  pg_wf pg → row_wf pg r → rv_ok rv → relay_event uuid_string rv (row_event (k, r)) = Ok (rv', we) →
  store_key (we_Object we) = (k.1.2, k.2) ∧ shows uuid_string (we_Object we) k r ∧
  (we_Type we = WatchDeleted ↔ is_tombstone r = true) ∧ rv_ok rv'.
Proof.
  intros (Hn & _) Hr Hrv. unfold relay_event. intros (o & Ho & [= <- <-])%result_bind_ok.
  pose proof (event_deleted pg k r Hr) as Hdel. destruct Hr as (Htx & _ & Hv & _).
  assert (Hok : rv_ok (stamp rv (to_resource k r))).
  { unfold rv_ok, stamp in *. simpl. destruct (_ <? _)%Z; lia. }
  pose proof (resourceToObject_ok _ _ _ Ho) as (Hname & Hns & _).
  split_and!; [|split| |done].
  - unfold store_key. simpl. by rewrite Hname, Hns.
  - by exists o.
  - simpl. by apply version_forms.
  - exact Hdel.
Qed.

(** Relaying rows leaves, for each key, what its row says, and nothing else changed. *)
Lemma relay_all_rows g pg rows rv s rv' s' :
  pg_wf pg → (∀ k r, (k, r) ∈ rows → row_wf pg r ∧ k.1.1 = g) → NoDup rows.*1 → rv_ok rv →
  relay_all uuid_string rv s (map row_event rows) = Ok (rv', s') →
  rv_ok rv' ∧ ∀ ns name,
    (∀ r, ((g, ns, name), r) ∈ rows →
       if is_tombstone r then s' !! (ns, name) = None
       else ∃ o, s' !! (ns, name) = Some o ∧ shows uuid_string o (g, ns, name) r) ∧
    ((g, ns, name) ∉ rows.*1 → s' !! (ns, name) = s !! (ns, name)).
Proof.
  intros Hpg. revert rv s. induction rows as [|[k r] rows IH]; intros rv s Hrows Hnd Hrv; simpl.
  { intros [= <- <-]. split; [done|]. intros ns name. split; [by intros r ?%not_elem_of_nil|done]. }
  apply NoDup_cons in Hnd as [Hk Hnd]. intros ([rv1 we] & Hev & Hrest)%result_bind_ok.
  destruct (Hrows k r) as [Hr Hg]; [by left|]. change (k ∉ rows.*1) in Hk.
  destruct (relay_event_row pg rv k r rv1 we Hpg Hr Hrv Hev) as (Hkey & Hshow & Hdel & Hrv1).
  destruct (IH rv1 (store_apply we s)) as [Hok Hst]; [|done|done|done|].
  { intros k' r' Hin. apply Hrows. by right. }
  split; [done|]. intros ns name. destruct (Hst ns name) as [Hin Hout]. clear Hst IH Hrest.
  assert (Happ : store_apply we s !! (ns, name) =
    if decide (k = (g, ns, name)) then if is_tombstone r then None else Some (we_Object we) else s !! (ns, name)).
  { destruct k as [[g' ns'] name']. simpl in Hg. subst g'. simpl in Hkey. unfold store_apply. rewrite Hkey.
    destruct (is_tombstone r) eqn:Ht.
    - rewrite (proj2 Hdel eq_refl). rewrite lookup_delete. repeat case_decide; congruence.
    - destruct (we_Type we); [| |by pose proof (proj1 Hdel eq_refl)];
        rewrite lookup_insert; repeat case_decide; congruence. }
  split.
  - intros r0 [Heq|Hin']%elem_of_cons; [|by apply Hin].
    injection Heq as Hkk ->. symmetry in Hkk. subst k.
    rewrite (Hout Hk), Happ, decide_True by done. destruct (is_tombstone r); eauto.
  - rewrite not_elem_of_cons. intros [Hne Hno]. rewrite (Hout Hno), Happ. by rewrite decide_False by done.
Qed.

(** A conversion failure is the only thing that stops the relay. *)
Lemma relay_all_total rows rv s :
  (∀ k r, (k, r) ∈ rows → ∃ o, resourceToObject uuid_string (to_resource k r) = Ok o) →
  ∃ rv' s', relay_all uuid_string rv s (map row_event rows) = Ok (rv', s').
Proof.
  revert rv s. induction rows as [|[k r] rows IH]; intros rv s Hd; simpl; [eauto|].
  destruct (Hd k r) as [o Ho]; [by left|]. unfold relay_event. simpl. rewrite Ho. simpl.
  apply IH. intros k' r' Hin. apply Hd. by right.
Qed.

(** ** The session invariant *)

(** What may be wrong with a key of the store between two polls: its row was
    written behind the high-water mark's back and the next poll will deliver it, or
    it was compacted away and the next poll will answer 410 Gone. *)
Definition pending (g : string) (sh : option ShardSpec) (db : Db) (h : Z) (ns name : string) : Prop :=
  selected g sh (g, ns, name) = true ∧
  ∃ r, kubernetes_resources db !! (g, ns, name) = Some r ∧ (h < row_txid r)%Z.

Definition gone (g : string) (sh : option ShardSpec) (db : Db) (h : Z) (ns name : string) : Prop :=
  selected g sh (g, ns, name) = true ∧ kubernetes_resources db !! (g, ns, name) = None ∧
  ∃ c, compaction_horizon db !! g = Some c ∧ (h < c)%Z.

Definition key_inv g sh db h s ns name : Prop :=
  pending g sh db h ns name ∨ agrees hashtext uuid_string g sh db s ns name ∨ gone g sh db h ns name.

Definition inv (g : string) (sh : option ShardSpec) (pg : Pg) (se : Session) : Prop :=
  pg_wf pg ∧ wc_GVK (cfg (se_watcher se)) = g ∧ wc_Shard (cfg (se_watcher se)) = sh ∧
  (0 ≤ hwm (se_watcher se) < xmin pg)%Z ∧ rv_ok (se_rv se) ∧
  ∀ ns name, key_inv g sh (pg_db pg) (hwm (se_watcher se)) (se_store se) ns name.

Lemma xmin_mono pg pg' h :
  (h < xmin pg)%Z → (pg_next pg ≤ pg_next pg')%Z →
  (∀ x, x ∈ pg_active pg' → x ∈ pg_active pg ∨ (pg_next pg ≤ x)%Z) → (h < xmin pg')%Z.
Proof.
  intros Hh Hn HA. destruct (xmin_spec pg) as (H1 & H2 & _). destruct (xmin_spec pg') as (_ & _ & [->|Hin]); [lia|].
  destruct (HA _ Hin) as [Hin'|?]; [specialize (H2 _ Hin')|]; lia.
Qed.

(** A row changing under a key that is selected makes the key pending; a key that is
    not selected stays absent from the store. *)
Lemma key_inv_write g sh db h s k r ns name :
  key_inv g sh db h s ns name → (h < row_txid r)%Z →
  key_inv g sh (set_row db k r) h s ns name.
Proof.
  intros Hi Hr. destruct (decide (k = (g, ns, name))) as [->|Hne].
  - destruct (selected g sh (g, ns, name)) eqn:Hsel.
    + left. split; [done|]. exists r. simpl. by rewrite lookup_insert_eq.
    + right. left. destruct Hi as [[? _]|[Hag|[? _]]]; [congruence| |congruence].
      revert Hag. unfold agrees, live. simpl. rewrite lookup_insert_eq, Hsel.
      by destruct (kubernetes_resources db !! (g, ns, name)).
  - assert (Hl : kubernetes_resources (set_row db k r) !! (g, ns, name) = kubernetes_resources db !! (g, ns, name)).
    { simpl. by rewrite lookup_insert_ne. }
    revert Hi. unfold key_inv, pending, agrees, live, gone. rewrite Hl. done.
Qed.

(** Compaction only removes tombstones, and leaves a horizon over what it removed. *)
Lemma key_inv_compact g sh db h s cf now ns name :
  key_inv g sh db h s ns name → key_inv g sh (Compact cf now db).1 h s ns name.
Proof.
  intros Hi. set (db' := (Compact cf now db).1).
  assert (Hmono : ∀ c, compaction_horizon db !! g = Some c → (h < c)%Z →
    ∃ c', compaction_horizon db' !! g = Some c' ∧ (h < c')%Z).
  { intros c Hc Hlt. destruct (Compact_horizon_mono cf now db g c Hc) as (c' & ? & ?). exists c'. split; [done|lia]. }
  destruct (kubernetes_resources db !! (g, ns, name)) as [r|] eqn:Hr.
  - destruct (kubernetes_resources db' !! (g, ns, name)) as [r'|] eqn:Hr'.
    + pose proof (Compact_keeps _ _ _ _ _ Hr') as Hk. rewrite Hr in Hk. injection Hk as <-.
      revert Hi. unfold key_inv, pending, agrees, live, gone. rewrite Hr, Hr'. naive_solver.
    + destruct (Compact_removes _ _ _ _ _ Hr Hr') as (Ht & c & Hc & Hle). simpl in Hc.
      destruct Hi as [(Hsel & r0 & Hr0 & Hlt)|[Hag|(_ & Hn & _)]]; [| |congruence].
      * right. right. split_and!; [done|done|]. exists c. split; [done|]. simplify_eq. lia.
      * right. left. revert Hag. unfold agrees, live. rewrite Hr, Hr', Ht.
        by rewrite andb_false_r.
  - assert (Hr' : kubernetes_resources db' !! (g, ns, name) = None).
    { unfold db'. by rewrite Compact_lookup, Hr. }
    revert Hi. unfold key_inv, pending, agrees, live, gone. rewrite Hr, Hr'. naive_solver.
Qed.

Lemma inv_server g sh pg pg' se : pg_step pg pg' → inv g sh pg se → inv g sh pg' se.
Proof.
  intros Hstep (Hwf & Hg & Hsh & Hh & Hrv & Hk). pose proof (pg_step_wf _ _ Hstep Hwf) as Hwf'.
  assert (Hx : (hwm (se_watcher se) < xmin pg')%Z).
  { eapply xmin_mono; [apply Hh| |]; inversion Hstep; simpl; set_solver by lia. }
  split_and!; [done|done|done|apply Hh|done|done|].
  intros ns name. specialize (Hk ns name). inversion Hstep; subst; simpl; [done| |by apply key_inv_compact|done].
  destruct (pgctl_write_ok _ _ _ _ _ H1) as [(r & _ & _ & _ & _ & _ & -> & _)|(r & Hup & -> & _)]; [done|].
  apply key_inv_write; [done|]. rewrite (upsert_row_txid _ _ _ _ Hup).
  destruct (xmin_spec pg) as (_ & Hmin & _). specialize (Hmin _ H). lia.
Qed.

(** ** One poll *)

Definition polled (w : Watcher) (db : Db) : list (key * Row) :=
  select_rows (poll_where hashtext jsonb_out uuid_string (cfg w) (hwm w)) db.

Lemma poll_outcome g sh pg se :
  inv g sh pg se →
  let w := se_watcher se in
  (∃ c, compaction_horizon (pg_db pg) !! g = Some c ∧ (hwm w < c)%Z ∧
        poll None DeliverAll (snapshot pg) w = (w, [], Err (ErrGone (hwm w) c))) ∨
  ((∀ c, compaction_horizon (pg_db pg) !! g = Some c → (c ≤ hwm w)%Z) ∧
   poll None DeliverAll (snapshot pg) w =
     (mkWatcher (cfg w) (advance (hwm w) (xmin pg)), map row_event (polled w (pg_db pg)),
      Ok (List.length (map row_event (polled w (pg_db pg)))))).
Proof.
  intros (Hwf & Hg & _). cbv zeta. unfold Reader.poll, pollAll. simpl. rewrite Hg.
  assert (Hu : ∀ c, compaction_horizon (pg_db pg) !! g = Some c → to_u64 c = c).
  { intros c Hc. destruct Hwf as (Hn & _ & _ & Hh). specialize (Hh _ _ Hc).
    apply to_u64_id. unfold in_uint64, max_uint64, max_int64 in *. lia. }
  destruct (compaction_horizon (pg_db pg) !! g) as [c|] eqn:Hc; [|by right].
  rewrite (Hu c eq_refl). destruct (Z.ltb_spec (hwm (se_watcher se)) c) as [Hlt|Hge].
  - left. exists c. done.
  - right. split; [by intros ? [= <-]|done].
Qed.

Lemma elem_of_polled g sh pg se k r :
  inv g sh pg se →
  (k, r) ∈ polled (se_watcher se) (pg_db pg) ↔
  kubernetes_resources (pg_db pg) !! k = Some r ∧ selected g sh k = true ∧ (hwm (se_watcher se) < row_txid r)%Z.
Proof.
  intros (_ & Hg & Hsh & _). unfold polled. rewrite elem_of_select_rows, poll_where_shard, Hg, Hsh.
  by rewrite andb_true_iff, Z.ltb_lt.
Qed.

(** Nothing to do with the relay's versions: after a poll that is not answered 410
    Gone, the store shows every live row. *)
Lemma poll_mirrors g sh pg se rv s :
  inv g sh pg se →
  (∀ c, compaction_horizon (pg_db pg) !! g = Some c → (c ≤ hwm (se_watcher se))%Z) →
  relay_all uuid_string (se_rv se) (se_store se) (map row_event (polled (se_watcher se) (pg_db pg))) = Ok (rv, s) →
  rv_ok rv ∧ mirrors hashtext uuid_string g sh (pg_db pg) s.
Proof.
  intros Hinv Hhor Hrel. pose proof Hinv as (Hwf & _ & _ & _ & Hrv & Hkeys).
  apply (relay_all_rows g pg) in Hrel as [Hok Hst]; [|done| |apply select_rows_NoDup|done].
  2:{ intros k r (Hk & Hsel & _)%(elem_of_polled g sh pg se k r Hinv). split; [by apply Hwf in Hk|].
      unfold Reader.selected in Hsel. split_bool. by apply String.eqb_eq. }
  split; [done|]. intros ns name. destruct (Hst ns name) as [Hin Hout].
  destruct (Hkeys ns name) as [(Hsel & r & Hr & Hlt)|[Hag|(_ & _ & c & Hc & Hlt)]].
  - assert (Hp : ((g, ns, name), r) ∈ polled (se_watcher se) (pg_db pg)) by by eapply elem_of_polled.
    specialize (Hin r Hp). unfold agrees, live. rewrite Hr, Hsel. by destruct (is_tombstone r).
  - destruct (kubernetes_resources (pg_db pg) !! (g, ns, name)) as [r|] eqn:Hr;
      [destruct (decide (((g, ns, name), r) ∈ polled (se_watcher se) (pg_db pg))) as [Hp|Hnp]|].
    + specialize (Hin r Hp). apply (elem_of_polled g sh pg se _ _ Hinv) in Hp as (_ & Hsel & _).
      unfold agrees, live. rewrite Hr, Hsel. by destruct (is_tombstone r).
    + unfold agrees in *. rewrite Hout; [done|]. intros ([k' r'] & Hk' & Hp)%list_elem_of_fmap.
      simpl in Hk'. subst k'. pose proof Hp as (Hr' & _)%(elem_of_polled g sh pg se _ _ Hinv). congruence.
    + unfold agrees in *. rewrite Hout; [done|]. intros ([k' r'] & Hk' & Hp)%list_elem_of_fmap.
      simpl in Hk'. subst k'. pose proof Hp as (Hr' & _)%(elem_of_polled g sh pg se _ _ Hinv). congruence.
  - specialize (Hhor _ Hc). lia.
Qed.

Lemma advance_lt h x : (0 ≤ h < x)%Z → (h ≤ advance h x < x)%Z.
Proof. intros. unfold advance. destruct (0 <? x)%Z, (h <? x - 1)%Z eqn:E; simpl; split_bool; lia. Qed.

Lemma inv_poll g sh pg se se' :
  inv g sh pg se → session_poll hashtext jsonb_out uuid_string (snapshot pg) se = Some se' →
  inv g sh pg se' ∧ mirrors hashtext uuid_string g sh (pg_db pg) (se_store se').
Proof.
  intros Hinv. unfold session_poll. destruct (poll_outcome g sh pg se Hinv) as [(c & _ & _ & ->)|[Hhor ->]]; [done|].
  destruct (relay_all _ _ _ _) as [[rv s]|] eqn:Hrel; [|done]. intros [= <-].
  destruct (poll_mirrors g sh pg se rv s Hinv Hhor Hrel) as [Hrv Hmir].
  split; [|done]. destruct Hinv as (Hwf & Hg & Hsh & Hh & _ & _).
  pose proof (advance_lt _ _ Hh). split_and!; simpl; [done|done|done|lia|lia|done|].
  intros ns name. right. left. apply Hmir.
Qed.

(** ** The start of a session *)

Lemma store_of_list_rows g pg rows s :
  (∀ k r, (k, r) ∈ rows → row_wf pg r ∧ k.1.1 = g) → NoDup rows.*1 →
  store_of_list uuid_string (map (fun kr => to_resource kr.1 kr.2) rows) = Ok s →
  ∀ ns name,
    (∀ r, ((g, ns, name), r) ∈ rows → ∃ o, s !! (ns, name) = Some o ∧ shows uuid_string o (g, ns, name) r) ∧
    ((g, ns, name) ∉ rows.*1 → s !! (ns, name) = None).
Proof.
  revert s. induction rows as [|[k r] rows IH]; intros s Hrows Hnd; simpl.
  { intros [= <-] ns name. split; [by intros r ?%not_elem_of_nil|by rewrite lookup_empty]. }
  apply NoDup_cons in Hnd as [Hk Hnd]. change (k ∉ rows.*1) in Hk.
  intros (o & Ho & (s0 & Hs0 & [= <-])%result_bind_ok)%result_bind_ok ns name.
  destruct (Hrows k r) as [(_ & _ & Hv & _) Hg]; [by left|].
  destruct (IH s0 (fun k' r' Hin => Hrows k' r' (list_elem_of_further _ _ _ Hin)) Hnd Hs0 ns name) as [Hin Hout].
  pose proof (resourceToObject_ok _ _ _ Ho) as (Hname & Hns & HRV & _). simpl in Hname, Hns, HRV.
  assert (Hsk : store_key o = (k.1.2, k.2)) by (unfold store_key; by rewrite Hname, Hns).
  assert (Hshow : shows uuid_string o k r).
  { split; [exists o; split; [done|by destruct o]|]. rewrite HRV. apply (version_forms (row_version r) 0); unfold max_int64 in *; lia. }
  destruct k as [[g' ns'] name']. simpl in Hg, Hsk. subst g'. rewrite lookup_insert, Hsk.
  split.
  - intros r0 [Heq|Hin']%elem_of_cons.
    + simplify_eq. rewrite decide_True by done. eauto.
    + rewrite decide_False; [by apply Hin|]. intros [= -> ->]. apply Hk.
      apply list_elem_of_fmap. by exists ((g, ns, name), r0).
  - rewrite not_elem_of_cons. intros [Hne Hno]. rewrite decide_False; [by apply Hout|]. simpl in Hne. congruence.
Qed.

Lemma list_watermark_lt pg : pg_wf pg → (0 ≤ list_watermark (xmin pg) < xmin pg)%Z ∧ (list_watermark (xmin pg) ≤ max_int64)%Z.
Proof.
  intros (Hn & Ha & _). destruct (xmin_spec pg) as (H1 & _ & Hx).
  assert (0 < xmin pg)%Z by (destruct Hx as [->|?%Ha]; lia).
  unfold list_watermark. rewrite (proj2 (Z.ltb_lt 0 _)) by lia. lia.
Qed.

Lemma list_start pg : pg_wf pg →
  watch_startRV (RV.to_string (RV.mkRV 0 (list_watermark (xmin pg)))) =
    Ok (RV.mkRV 0 (list_watermark (xmin pg))).
Proof.
  intros Hwf. destruct (list_watermark_lt pg Hwf) as [Hw Hm]. unfold watch_startRV.
  rewrite RV.Parse_to_string_valid.
  - unfold RV.to_string at 1. simpl. by rewrite RV.FormatUint_eqb_empty.
  - split; simpl; [unfold max_int64; lia|]. unfold in_uint64, max_uint64, max_int64 in *. lia.
Qed.

Lemma inv_start g sh pg se :
  pg_wf pg → list_and_watch hashtext jsonb_out uuid_string g sh (snapshot pg) = Some se →
  inv g sh pg se ∧ mirrors hashtext uuid_string g sh (pg_db pg) (se_store se).
Proof.
  intros Hwf. unfold list_and_watch, Reader.List. simpl. rewrite list_page_shard, list_start by done.
  destruct (store_of_list _ _) as [s|] eqn:Hs; [|done]. intros [= <-].
  assert (Hmir : mirrors hashtext uuid_string g sh (pg_db pg) s).
  { set (rows := select_rows _ _) in Hs.
    assert (Hrows : ∀ k r, (k, r) ∈ rows ↔ live hashtext g sh (pg_db pg) k = Some r).
    { intros k r. unfold rows, live. rewrite elem_of_select_rows, list_where_shard.
      destruct (kubernetes_resources (pg_db pg) !! k) as [r'|]; [|naive_solver].
      split; [intros [[= ->] ->]; done|]. destruct (_ && _) eqn:E; [|done]. intros [= ->]. by rewrite E. }
    assert (Hkr : ∀ k r, (k, r) ∈ rows → row_wf pg r ∧ k.1.1 = g).
    { intros k r Hin%Hrows. unfold live in Hin. destruct (kubernetes_resources (pg_db pg) !! k) as [r'|] eqn:Hk; [|done].
      destruct (selected g sh k) eqn:Hsel; [|done]. destruct (is_tombstone r'); [done|]. injection Hin as ->.
      split; [by apply Hwf in Hk|]. unfold Reader.selected in Hsel. split_bool. by apply String.eqb_eq. }
    intros ns name.
    destruct (store_of_list_rows g pg rows s Hkr (select_rows_NoDup _ _) Hs ns name) as [Hin Hout].
    unfold agrees. destruct (live hashtext g sh (pg_db pg) (g, ns, name)) as [r|] eqn:Hl.
    - apply Hin, Hrows, Hl.
    - apply Hout. intros ([k r] & Hk & Hr%Hrows)%list_elem_of_fmap. simpl in Hk. subst k. congruence. }
  split; [|done]. destruct (list_watermark_lt pg Hwf). unfold start_session, NewWatcher, newPgWatcher, rv_ok; simpl.
  split_and!; simpl; [done|done|done|lia|lia|unfold rv_ok; simpl; lia|]. intros ns name. right. left. apply Hmir.
Qed.

Lemma inv_reachable g sh pg0 se0 pg se :
  pg_wf pg0 → list_and_watch hashtext jsonb_out uuid_string g sh (snapshot pg0) = Some se0 →
  rtc (sys_step hashtext jsonb_out uuid_string) (pg0, se0) (pg, se) → inv g sh pg se.
Proof.
  intros Hwf H0 Hr. apply inv_start in H0 as [H0 _]; [|done]. revert H0.
  change (inv g sh (pg0, se0).1 (pg0, se0).2 → inv g sh (pg, se).1 (pg, se).2).
  induction Hr as [|x y z Hs _ IH]; [done|]. intros Hx. apply IH.
  destruct Hs; simpl in *; [by eapply inv_server|by eapply inv_poll].
Qed.

(** Once the high-water mark has reached the newest id, a poll changes nothing. *)
Lemma idle_poll g sh pg w rv s :
  inv g sh pg (mkSession w rv s) → (hwm w + 1 = pg_next pg)%Z →
  (∀ c, compaction_horizon (pg_db pg) !! g = Some c → (c ≤ hwm w)%Z) →
  session_poll hashtext jsonb_out uuid_string (snapshot pg) (mkSession w rv s) = Some (mkSession w rv s).
Proof.
  intros Hinv Hh Hhor. unfold session_poll. cbn [se_watcher se_rv se_store].
  destruct (poll_outcome g sh pg _ Hinv) as [(c & Hc & Hlt & _)|[_ Hp]].
  { specialize (Hhor c Hc). simpl in Hlt. lia. }
  cbn [se_watcher] in Hp. rewrite Hp.
  assert (Hnil : polled w (pg_db pg) = []).
  { destruct (polled w (pg_db pg)) as [|[k r] rest] eqn:E; [done|].
    assert (Hin : (k, r) ∈ polled w (pg_db pg)) by (rewrite E; by left).
    apply (elem_of_polled g sh pg (mkSession w rv s) k r Hinv) in Hin as (Hk & _ & Hlt). simpl in Hlt.
    destruct Hinv as ((_ & _ & Hrows & _) & _). destruct (Hrows k r Hk) as ((_ & ?) & _). lia. }
  rewrite Hnil. simpl. f_equal. destruct w as [c h]. f_equal. simpl. f_equal.
  unfold advance. simpl in Hh. destruct (xmin_spec pg) as (? & _).
  rewrite (proj2 (Z.ltb_ge h (xmin pg - 1))) by lia. by rewrite andb_false_r.
Qed.

Lemma store_of_list_total rows :
  (∀ k r, (k, r) ∈ rows → ∃ o, resourceToObject uuid_string (to_resource k r) = Ok o) →
  ∃ s, store_of_list uuid_string (map (fun kr => to_resource kr.1 kr.2) rows) = Ok s.
Proof.
  induction rows as [|[k r] rows IH]; intros Hd; simpl; [eauto|].
  destruct (Hd k r) as [o ->]; [by left|]. destruct IH as [s ->]; [|simpl; eauto].
  intros k' r' Hin. apply Hd. by right.
Qed.

Lemma list_and_watch_total g sh pg :
  pg_wf pg → decodable hashtext uuid_string g sh (pg_db pg) →
  ∃ se, list_and_watch hashtext jsonb_out uuid_string g sh (snapshot pg) = Some se.
Proof.
  intros Hwf Hd. unfold list_and_watch, Reader.List. simpl. rewrite list_page_shard, list_start by done.
  destruct (store_of_list_total (select_rows (list_where hashtext jsonb_out uuid_string g (ToListFilter <$> sh)) (pg_db pg)))
    as [s ->]; [|eauto].
  intros k r [Hk Hw]%elem_of_select_rows. rewrite list_where_shard in Hw. split_bool. by eapply Hd.
Qed.

Lemma list_and_watch_hwm g sh pg se :
  pg_wf pg → list_and_watch hashtext jsonb_out uuid_string g sh (snapshot pg) = Some se →
  hwm (se_watcher se) = list_watermark (xmin pg).
Proof.
  intros Hwf. unfold list_and_watch, Reader.List. simpl. rewrite list_start by done.
  destruct (store_of_list _ _); [|done]. by intros [= <-].
Qed.
End props.

Lemma sorted_events rows :
  StronglySorted txid_le rows →
  StronglySorted (fun a b => TxidStamp (ev_Resource a) ≤ TxidStamp (ev_Resource b))%Z (map row_event rows).
Proof.
  induction 1 as [|kr rows Hs IH Hf]; simpl; constructor; [done|].
  by apply Forall_map.
Qed.

(** * The theorems of the watch protocol

    No lost updates, safe watermarks, ordered polls, recovery by relisting, and the
    trace that shows why a watch may not be resumed at the version of a delivered
    object. *)
From stdpp Require Import base strings list gmap sets relations sorting.
From Stdlib Require Import ZArith Lia Ascii String.
Open Scope string_scope.
Import Convert Reader PgWatch Compaction Watch.

(** ** A concrete trace *)

Definition no_hash : string → Z := fun _ => 0%Z.
Definition no_text : json → string := fun _ => "".
Definition no_uuid : uuid → string := FormatInt.

Definition demo_gvk : string := "seaplane.io/v1alpha1/Cluster".
Definition demo_write (name : string) : writeParams :=
  mkWriteParams false demo_gvk "ns" name 0 None false (Some (JObj [("size", JNum 3)])) (Some (JObj []))
    (Some (JObj [])) None.

Definition begin_tx (pg : Pg) : Pg :=
  mkPg (pg_db pg) (pg_next pg + 1) ({[pg_next pg]} ∪ pg_active pg).

Definition apply_write (env : TxEnv) (p : writeParams) (pg : Pg) : Pg :=
  match pgctl_write env p (pg_db pg) with
  | Ok (db, _) => mkPg db (pg_next pg) (pg_active pg ∖ {[env_txid env]})
  | Err _ => pg
  end.

(** Transactions 10 and 11 begin; 11 creates [b] and commits first; 10 creates [a]. *)
Definition demo_pg0 : Pg := mkPg (mkDb ∅ ∅) 10 ∅.
Definition demo_pg2 : Pg := begin_tx (begin_tx demo_pg0).
Definition demo_pg3 : Pg := apply_write (mkTxEnv 11 100 501) (demo_write "b") demo_pg2.
Definition demo_pg4 : Pg := apply_write (mkTxEnv 10 101 502) (demo_write "a") demo_pg3.

Definition demo_poll (pg : Pg) (se : Session) : Session :=
  default se (session_poll no_hash no_text no_uuid (snapshot pg) se).

(** The informer lists before any of it and polls once in between. *)
Definition demo_se0 : Session := start_session demo_gvk None (RV.mkRV 0 9) ∅.
Definition demo_se3 : Session := demo_poll demo_pg3 demo_se0.

Lemma demo_library_write name : library_write (demo_write name).
Proof. intros m [= <-]. exists zeroMetadata. split; [by_decide|]. reflexivity. Qed.

Lemma apply_write_step env p pg :
  env_txid env ∈ pg_active pg → library_write p → is_ok (pgctl_write env p (pg_db pg)) = true →
  pg_step pg (apply_write env p pg).
Proof.
  intros Ha Hl Hok. unfold apply_write. destruct (pgctl_write env p (pg_db pg)) as [[db o]|] eqn:E; [|done].
  by eapply step_write.
Qed.

Lemma demo_poll_step pg se :
  is_Some (session_poll no_hash no_text no_uuid (snapshot pg) se) →
  sys_step no_hash no_text no_uuid (pg, se) (pg, demo_poll pg se).
Proof. intros [se' H]. unfold demo_poll. apply sys_poll. by rewrite H. Qed.

Lemma demo_reachable :
  rtc (sys_step no_hash no_text no_uuid) (demo_pg0, demo_se0) (demo_pg4, demo_se3).
Proof.
  eapply rtc_l; [apply sys_server, step_begin; by_decide|].
  eapply rtc_l; [apply sys_server, step_begin; by_decide|].
  eapply rtc_l; [apply sys_server, (apply_write_step (mkTxEnv 11 100 501) (demo_write "b"));
    [by_decide|apply demo_library_write|vm_compute; reflexivity]|].
  eapply rtc_l; [apply demo_poll_step; by_decide|].
  eapply rtc_l; [apply sys_server, (apply_write_step (mkTxEnv 10 101 502) (demo_write "a"));
    [by_decide|apply demo_library_write|vm_compute; reflexivity]|].
  apply rtc_refl.
Qed.

Lemma demo_pg0_wf : pg_wf demo_pg0.
Proof.
  unfold pg_wf, demo_pg0. simpl. split_and!; [by_decide|by_decide|set_solver|set_solver|set_solver].
Qed.

(** ** No lost updates *)

(** C3: no lost updates (I1, I3, I5): start an informer with a List, then let
    transactions begin, commit in any order, roll back and compact, with polls in
    between. At every point the next poll either leaves the consumer's store showing
    exactly the live rows of the informer's GVK and shard, each with its current
    content and version, or answers 410 Gone because the compaction horizon has
    passed the high-water mark. *)
Theorem no_lost_updates `{OwnerRefCodec, Scheme} (hashtext : string → Z) (jsonb_out : json → string)
    (uuid_string : uuid → string) (gvk : string) (shard : option ShardSpec) (pg0 pg : Pg) (se0 se : Session) :
  pg_wf pg0 → list_and_watch hashtext jsonb_out uuid_string gvk shard (snapshot pg0) = Some se0 →
  rtc (sys_step hashtext jsonb_out uuid_string) (pg0, se0) (pg, se) →
  decodable hashtext uuid_string gvk shard (pg_db pg) →
  (∃ se', session_poll hashtext jsonb_out uuid_string (snapshot pg) se = Some se' ∧
          mirrors hashtext uuid_string gvk shard (pg_db pg) (se_store se')) ∨
  (∃ c, compaction_horizon (pg_db pg) !! gvk = Some c ∧ (hwm (se_watcher se) < c)%Z ∧
        poll hashtext jsonb_out uuid_string None DeliverAll (snapshot pg) (se_watcher se) =
          (se_watcher se, [], Err (ErrGone (hwm (se_watcher se)) c))).
Proof.
  intros Hwf Hstart Hr Hdec. pose proof (inv_reachable _ _ _ _ _ _ _ _ _ Hwf Hstart Hr) as Hinv.
  destruct (poll_outcome hashtext jsonb_out uuid_string _ _ _ _ Hinv) as [Hgone|[Hhor Hpoll]]; [by right|left].
  destruct (relay_all_total uuid_string (polled hashtext jsonb_out uuid_string (se_watcher se) (pg_db pg))
    (se_rv se) (se_store se)) as (rv & s & Hrel).
  { intros k r (Hk & Hsel & _)%(elem_of_polled hashtext jsonb_out uuid_string _ _ _ _ k r Hinv). eauto. }
  eexists. split; [unfold session_poll; by rewrite Hpoll, Hrel|].
  by eapply poll_mirrors.
Qed.

Lemma no_lost_updates_witness :
  (∃ se', session_poll no_hash no_text no_uuid (snapshot demo_pg4) demo_se3 = Some se' ∧
          mirrors no_hash no_uuid demo_gvk None (pg_db demo_pg4) (se_store se')) ∨
  (∃ c, compaction_horizon (pg_db demo_pg4) !! demo_gvk = Some c ∧ (hwm (se_watcher demo_se3) < c)%Z ∧
        poll no_hash no_text no_uuid None DeliverAll (snapshot demo_pg4) (se_watcher demo_se3) =
          (se_watcher demo_se3, [], Err (ErrGone (hwm (se_watcher demo_se3)) c))).
Proof.
  apply (no_lost_updates no_hash no_text no_uuid demo_gvk None demo_pg0 demo_pg4 demo_se0 demo_se3).
  - apply demo_pg0_wf.
  - vm_compute. reflexivity.
  - apply demo_reachable.
  - intros k r Hk _. assert (Hd : map_Forall (fun k r => is_ok (resourceToObject no_uuid (to_resource k r)) = true)
      (kubernetes_resources (pg_db demo_pg4))) by by_decide.
    specialize (Hd k r Hk). simpl in Hd. destruct (resourceToObject no_uuid (to_resource k r)) as [o|]; [by exists o|done].
Defined.

(** C21: the watermark is safe and catches up: in every reachable state the high-water
    mark is below every transaction still in flight, so whatever commits later is
    still ahead of it; a poll never moves it back, and once no transaction is in
    flight it reaches the newest id and the next poll has nothing to deliver. *)
Theorem watermark_safe `{OwnerRefCodec, Scheme} (hashtext : string → Z) (jsonb_out : json → string)
    (uuid_string : uuid → string) (gvk : string) (shard : option ShardSpec) (pg0 pg : Pg) (se0 se : Session) :
  pg_wf pg0 → list_and_watch hashtext jsonb_out uuid_string gvk shard (snapshot pg0) = Some se0 →
  rtc (sys_step hashtext jsonb_out uuid_string) (pg0, se0) (pg, se) →
  (∀ x, x ∈ pg_active pg → (hwm (se_watcher se) < x)%Z) ∧ (hwm (se_watcher se) < pg_next pg)%Z ∧
  (∀ se', session_poll hashtext jsonb_out uuid_string (snapshot pg) se = Some se' →
     (hwm (se_watcher se) ≤ hwm (se_watcher se'))%Z ∧
     (pg_active pg = ∅ →
        hwm (se_watcher se') = (pg_next pg - 1)%Z ∧
        session_poll hashtext jsonb_out uuid_string (snapshot pg) se' = Some se')).
Proof.
  intros Hwf Hstart Hr. pose proof (inv_reachable _ _ _ _ _ _ _ _ _ Hwf Hstart Hr) as Hinv.
  destruct (xmin_spec pg) as (Hn & Ha & Hx). pose proof Hinv as (Hpg & _ & _ & Hh & _).
  split_and!; [intros x Hin; specialize (Ha x Hin); lia|lia|]. intros se' Hp.
  pose proof (proj1 (inv_poll hashtext jsonb_out uuid_string _ _ _ _ _ Hinv Hp)) as Hinv'.
  revert Hp. unfold session_poll at 1.
  destruct (poll_outcome hashtext jsonb_out uuid_string _ _ _ _ Hinv) as [(c & _ & _ & ->)|[Hhor ->]]; [done|].
  destruct (relay_all _ _ _ _) as [[rv s]|]; [|done]. intros [= <-]. simpl.
  pose proof (advance_lt _ _ Hh) as Hadv. split; [lia|]. intros Hempty.
  assert (Hxm : xmin pg = pg_next pg) by (destruct Hx; set_solver).
  assert (Hhw : advance (hwm (se_watcher se)) (xmin pg) = (pg_next pg - 1)%Z).
  { unfold advance in *. rewrite Hxm in *. destruct (0 <? pg_next pg)%Z eqn:E1, (_ <? pg_next pg - 1)%Z eqn:E2;
      simpl in *; split_bool; lia. }
  split; [done|]. apply (idle_poll hashtext jsonb_out uuid_string gvk shard); [done|simpl; lia|].
  intros c Hc. specialize (Hhor c Hc). simpl. lia.
Qed.

Lemma watermark_safe_witness :
  (hwm (se_watcher demo_se3) = 9)%Z ∧ (hwm (se_watcher demo_se3) < pg_next demo_pg4)%Z ∧
  hwm (se_watcher (demo_poll demo_pg4 demo_se3)) = 11%Z.
Proof.
  destruct (watermark_safe no_hash no_text no_uuid demo_gvk None demo_pg0 demo_pg4 demo_se0 demo_se3
    demo_pg0_wf (eq_refl (Some demo_se0) <: list_and_watch no_hash no_text no_uuid demo_gvk None (snapshot demo_pg0) = Some demo_se0)
    demo_reachable) as (_ & Hn & Hp).
  split_and!; [reflexivity|exact Hn|].
  destruct (session_poll no_hash no_text no_uuid (snapshot demo_pg4) demo_se3) as [se'|] eqn:E.
  - destruct (Hp se' eq_refl) as [_ Hq]. destruct Hq as [Hh _]; [vm_compute; reflexivity|].
    unfold demo_poll. rewrite E. exact Hh.
  - exfalso. revert E. vm_compute. discriminate.
Defined.

(** relisting recovers: whenever the rows decode and no transaction older than the
    compaction horizon is still in flight, a List on a well-formed server opens a
    session whose store already shows exactly the live rows, and whose first poll is
    not answered 410 Gone. *)
Theorem relist_recovers `{OwnerRefCodec, Scheme} (hashtext : string → Z) (jsonb_out : json → string)
    (uuid_string : uuid → string) (gvk : string) (shard : option ShardSpec) (pg : Pg) :
  pg_wf pg → decodable hashtext uuid_string gvk shard (pg_db pg) →
  (∀ c, compaction_horizon (pg_db pg) !! gvk = Some c → (c < xmin pg)%Z) →
  ∃ se, list_and_watch hashtext jsonb_out uuid_string gvk shard (snapshot pg) = Some se ∧
        mirrors hashtext uuid_string gvk shard (pg_db pg) (se_store se) ∧
        is_Some (session_poll hashtext jsonb_out uuid_string (snapshot pg) se).
Proof.
  intros Hwf Hdec Hhor.
  destruct (list_and_watch_total hashtext jsonb_out uuid_string gvk shard pg Hwf Hdec) as [se Hse].
  destruct (inv_start _ _ _ _ _ _ _ Hwf Hse) as [Hinv Hmir]. exists se. split_and!; [done|done|].
  assert (Hhw : (xmin pg - 1 ≤ hwm (se_watcher se))%Z).
  { rewrite (list_and_watch_hwm _ _ _ _ _ _ _ Hwf Hse). unfold list_watermark. case_match; split_bool; lia. }
  unfold session_poll. destruct (poll_outcome hashtext jsonb_out uuid_string _ _ _ _ Hinv) as [(c & Hc & Hlt & _)|[_ ->]].
  { specialize (Hhor c Hc). lia. }
  destruct (relay_all_total uuid_string (polled hashtext jsonb_out uuid_string (se_watcher se) (pg_db pg))
    (se_rv se) (se_store se)) as (rv & s & ->); [|done].
  intros k r (Hk & Hsel & _)%(elem_of_polled hashtext jsonb_out uuid_string _ _ _ _ k r Hinv). eauto.
Qed.

Lemma relist_recovers_witness :
  ∃ se, list_and_watch no_hash no_text no_uuid demo_gvk None (snapshot demo_pg0) = Some se ∧
        mirrors no_hash no_uuid demo_gvk None (pg_db demo_pg0) (se_store se) ∧
        is_Some (session_poll no_hash no_text no_uuid (snapshot demo_pg0) se).
Proof.
  apply (relist_recovers no_hash no_text no_uuid demo_gvk None demo_pg0 demo_pg0_wf).
  - intros k r Hk. simpl in Hk. discriminate Hk.
  - intros c Hc. simpl in Hc. discriminate Hc.
Defined.

(** one poll, in full: either it reports the horizon that passed the high-water
    mark and changes nothing, or its events are, in transaction order and at most
    one per object, exactly the rows of the GVK and shard stamped above the
    high-water mark, a deletion event for every row with a deletion timestamp, and
    the mark moves to just below the oldest transaction in flight. *)
Theorem pollAll_spec (hashtext : string → Z) (jsonb_out : json → string) (uuid_out : uuid → string)
    (snap : Snapshot) (w w' : Watcher) (res : result poll_error (list Event)) :
  pollAll hashtext jsonb_out uuid_out None snap w = (w', res) →
  match res with
  | Err e => w' = w ∧ ∃ c, compaction_horizon (snap_db snap) !! wc_GVK (cfg w) = Some c ∧
                           (hwm w < to_u64 c)%Z ∧ e = ErrGone (hwm w) c
  | Ok evs =>
      StronglySorted (fun a b => TxidStamp (ev_Resource a) ≤ TxidStamp (ev_Resource b))%Z evs ∧
      NoDup (map (fun ev => (GVK (ev_Resource ev), Namespace (ev_Resource ev), Name (ev_Resource ev))) evs) ∧
      (∀ ev, ev ∈ evs ↔ ∃ k r, kubernetes_resources (snap_db snap) !! k = Some r ∧
         selected hashtext (wc_GVK (cfg w)) (wc_Shard (cfg w)) k = true ∧ (hwm w < row_txid r)%Z ∧
         ev = mkEvent (event_type (to_resource k r)) (to_resource k r)) ∧
      cfg w' = cfg w ∧ hwm w' = Z.max (hwm w) (if (0 <? snap_xmin snap)%Z then snap_xmin snap - 1 else hwm w)
  end.
Proof.
  unfold pollAll. destruct (match compaction_horizon _ !! _ with Some _ => _ | None => _ end) as [c|] eqn:Hg.
  { intros [= <- <-]. split; [done|]. destruct (compaction_horizon _ !! _) as [c'|]; [|done].
    destruct (hwm w <? to_u64 c')%Z eqn:E; [|done]. injection Hg as ->. exists c. split_bool. done. }
  intros [= <- <-]. split_and!; [| | |done|].
  - apply sorted_events, select_rows_sorted.
  - rewrite map_map. erewrite map_ext; [apply select_rows_NoDup|]. by intros [[[g ns] name] r].
  - intros ev. rewrite list_elem_of_fmap. split.
    + intros ([k r] & -> & Hin). apply elem_of_select_rows in Hin as [Hk Hw].
      rewrite poll_where_shard in Hw. split_bool. exists k, r. done.
    + intros (k & r & Hk & Hsel & Hlt & ->). exists (k, r). split; [done|]. apply elem_of_select_rows.
      split; [done|]. rewrite poll_where_shard, Hsel. by apply Z.ltb_lt.
  - simpl. unfold advance. destruct (0 <? snap_xmin snap)%Z; simpl; [|lia].
    destruct (Z.ltb_spec (hwm w) (snap_xmin snap - 1)); lia.
Qed.

Lemma pollAll_spec_witness :
  ∃ w' evs, pollAll no_hash no_text no_uuid None (snapshot demo_pg3) (se_watcher demo_se0) = (w', Ok evs) ∧
    hwm w' = 9%Z ∧ NoDup (map (fun ev => (GVK (ev_Resource ev), Namespace (ev_Resource ev), Name (ev_Resource ev))) evs) ∧
    evs ≠ [].
Proof.
  destruct (pollAll no_hash no_text no_uuid None (snapshot demo_pg3) (se_watcher demo_se0)) as [w' res] eqn:E.
  pose proof (pollAll_spec no_hash no_text no_uuid (snapshot demo_pg3) (se_watcher demo_se0) w' res E) as H.
  destruct res as [evs|e]; [|exfalso; revert E; vm_compute; discriminate].
  destruct H as (_ & Hnd & _ & _ & Hh). exists w', evs. split_and!; [done|rewrite Hh; reflexivity|done|].
  intros ->. revert E. vm_compute. discriminate.
Defined.

(** ** Resuming a watch at the version of a delivered object *)

(** WatchFuncWithContext at the version of the object last delivered, with the store
    kept: what a client that resumes a closed watch does. *)
Definition resume (gvk : string) (shard : option ShardSpec) (rv : string) (s : store) : option Session :=
  match watch_startRV rv with
  | Ok startRV => Some (start_session gvk shard startRV s)
  | Err _ => None
  end.

(** The version the consumer holds for an object. *)
Definition held_version (se : Session) (ns name : string) : string :=
  match se_store se !! (ns, name) with Some o => o_ResourceVersion o | None => "" end.

Definition demo_resumed : Session := start_session demo_gvk None (RV.mkRV 1 11) (se_store demo_se3).

(** the version stamped on a delivered object is not a safe place to resume a
    watch from: after a reachable trace in which transaction 11 commits and is
    delivered before transaction 10 commits, a watch resumed at the delivered
    object's version never shows the live row written by transaction 10, however
    often it polls, while the session that goes on polling does. *)
Theorem resume_loses_update :
  rtc (sys_step no_hash no_text no_uuid) (demo_pg0, demo_se0) (demo_pg4, demo_se3) ∧
  held_version demo_se3 "ns" "b" = "o1;11" ∧
  is_Some (live no_hash demo_gvk None (pg_db demo_pg4) (demo_gvk, "ns", "a")) ∧
  (∃ se, resume demo_gvk None (held_version demo_se3 "ns" "b") (se_store demo_se3) = Some se ∧
         ∀ n, se_store (Nat.iter n (demo_poll demo_pg4) se) !! ("ns", "a") = None) ∧
  is_Some (se_store (demo_poll demo_pg4 demo_se3) !! ("ns", "a")).
Proof.
  split_and!; [apply demo_reachable|vm_compute; reflexivity|vm_compute; eauto| |vm_compute; eauto].
  exists demo_resumed. split; [vm_compute; reflexivity|].
  assert (Hfix : demo_poll demo_pg4 demo_resumed = demo_resumed) by (vm_compute; reflexivity).
  intros n. assert (Hn : Nat.iter n (demo_poll demo_pg4) demo_resumed = demo_resumed)
    by (induction n as [|n IH]; simpl; congruence).
  rewrite Hn. vm_compute. reflexivity.
Qed.
