(* ===== verification/WatcherLoop.v ===== *)
(** * The watcher's loops (seaplane-db/internal/reader/watcher.go)

    [Run]: one poll on start, then a select over the context, the stop channel, the
    doorbell channel and the timer. [listenLoop]: the LISTEN connection, its
    reconnects and its backoff. Times and durations are nanoseconds. *)
From S2P Require Import Prelude GoStrings ResourceVersion Json Db Sql Reader.
From stdpp Require Import base strings list gmap.
From Stdlib Require Import ZArith Lia Ascii String.
Open Scope string_scope.
Import Reader.

Module WatcherLoop.

Record WatchStats := mkStats {
  ListenErrors : Z;
  Reconnects : Z;
  DoorbellPolls : Z;
  BaselinePolls : Z;
  BaselineCatches : Z
}.

Definition zeroStats : WatchStats := mkStats 0 0 0 0 0.

(** ** Run *)

Record LoopState := mkLoop {
  lp_watcher : Watcher;
  lp_lastPoll : Z;
  lp_pending : bool;
  lp_deadline : Z;
  lp_doorbellPolls : Z;
  lp_baselinePolls : Z;
  lp_baselineCatches : Z
}.

(** What one poll meets: the snapshot, a failing statement, how the sends end, and
    the clock after it. *)
Record PollEnv := mkPollEnv {
  pe_snap : Snapshot;
  pe_fault : option read_stage;
  pe_delivery : delivery;
  pe_done : Z
}.

(** The case the select of the loop takes. *)
Inductive loop_input :=
| InCtxDone
| InStopCh
| InDoorbell (now : Z) (e : PollEnv)
| InTimer (e : PollEnv).

(** How the loop goes on: with a state, or returning an error or nil. *)
Inductive loop_next :=
| Continue (st : LoopState) (evs : list Event)
| Return (err : option poll_error) (evs : list Event).

Section loop.
Context (hashtext : string → Z) (jsonb_out : json → string) (uuid_out : uuid → string).

Definition do_poll (e : PollEnv) (w : Watcher) : Watcher * list Event * result poll_error nat :=
  poll hashtext jsonb_out uuid_out (pe_fault e) (pe_delivery e) (pe_snap e) w.

Definition run_start (e : PollEnv) (w : Watcher) : loop_next :=
  match do_poll e w with
  | (_, evs, Err err) => Return (Some err) evs
  | (w', evs, Ok _) =>
      Continue (mkLoop w' (pe_done e) false (pe_done e + wc_BaselineInterval (cfg w)) 0 0 0) evs
  end.

Definition run_step (listenConfigured : bool) (st : LoopState) (i : loop_input) : loop_next :=
  let w := lp_watcher st in
  let baseline := wc_BaselineInterval (cfg w) in
  match i with
  | InCtxDone => Return (Some ErrCtxDone) []
  | InStopCh => Return None []
  | InDoorbell now e =>
      let sinceLastPoll := (now - lp_lastPoll st)%Z in
      if (wc_DebounceFloor (cfg w) <=? sinceLastPoll)%Z then
        match do_poll e w with
        | (_, evs, Err err) => Return (Some err) evs
        | (w', evs, Ok _) =>
            Continue (mkLoop w' (pe_done e) false (pe_done e + baseline)
                        (lp_doorbellPolls st + 1) (lp_baselinePolls st) (lp_baselineCatches st)) evs
        end
      else
        let remaining := (wc_DebounceFloor (cfg w) - sinceLastPoll)%Z in
        Continue (mkLoop w (lp_lastPoll st) true (now + remaining)
                    (lp_doorbellPolls st) (lp_baselinePolls st) (lp_baselineCatches st)) []
  | InTimer e =>
      match do_poll e w with
      | (_, evs, Err err) => Return (Some err) evs
      | (w', evs, Ok n) =>
          let wasDoorbell := lp_pending st in
          Continue
            (mkLoop w' (pe_done e) false (pe_done e + baseline)
               (if wasDoorbell then lp_doorbellPolls st + 1 else lp_doorbellPolls st)
               (if wasDoorbell then lp_baselinePolls st else lp_baselinePolls st + 1)
               (if negb wasDoorbell && (0 <? n)%nat && listenConfigured
                then lp_baselineCatches st + 1 else lp_baselineCatches st)) evs
      end
  end.

(** The loop over the cases its selects take. *)
Fixpoint run_loop (listenConfigured : bool) (st : LoopState) (ins : list loop_input) : loop_next :=
  match ins with
  | [] => Continue st []
  | i :: rest =>
      match run_step listenConfigured st i with
      | Return err evs => Return err evs
      | Continue st' evs =>
          match run_loop listenConfigured st' rest with
          | Return err evs' => Return err (evs ++ evs')%list
          | Continue st'' evs' => Continue st'' (evs ++ evs')%list
          end
      end
  end.

Definition Run (listenConfigured : bool) (e : PollEnv) (w : Watcher) (ins : list loop_input) : loop_next :=
  match run_start e w with
  | Return err evs => Return err evs
  | Continue st evs =>
      match run_loop listenConfigured st ins with
      | Return err evs' => Return err (evs ++ evs')%list
      | Continue st' evs' => Continue st' (evs ++ evs')%list
      end
  end.

(** ** Lemmas *)

Lemma do_poll_cfg e w w' evs n : do_poll e w = (w', evs, Ok n) → cfg w' = cfg w.
Proof.
  unfold do_poll, poll, pollAll. intros H. repeat (case_match; simplify_eq/=; try done).
Qed.

(** The timer is always armed relative to the last poll. *)
Definition armed (st : LoopState) : Prop :=
  lp_deadline st =
    (lp_lastPoll st + if lp_pending st then wc_DebounceFloor (cfg (lp_watcher st))
                      else wc_BaselineInterval (cfg (lp_watcher st)))%Z.

Lemma run_step_armed lc st i st' evs :
  armed st → run_step lc st i = Continue st' evs → armed st' ∧ cfg (lp_watcher st') = cfg (lp_watcher st).
Proof.
  intros Ha. destruct i as [| |now e|e]; simpl; [done|done| |].
  - destruct (_ <=? _)%Z.
    + destruct (do_poll e (lp_watcher st)) as [[w' evs'] [n|err]] eqn:Hp; [|done].
      apply do_poll_cfg in Hp. intros [= <- <-]. unfold armed. simpl. by rewrite Hp.
    + intros [= <- <-]. unfold armed. simpl. split; [lia|done].
  - destruct (do_poll e (lp_watcher st)) as [[w' evs'] [n|err]] eqn:Hp; [|done].
    apply do_poll_cfg in Hp. intros [= <- <-]. unfold armed. simpl. by rewrite Hp.
Qed.

Lemma run_loop_armed lc ins : ∀ st st' evs,
  armed st → run_loop lc st ins = Continue st' evs → armed st' ∧ cfg (lp_watcher st') = cfg (lp_watcher st).
Proof.
  induction ins as [|i ins IH]; intros st st' evs Ha; simpl; [by intros [= <- <-]|].
  destruct (run_step lc st i) as [st1 e1|] eqn:H1; [|done].
  destruct (run_step_armed _ _ _ _ _ Ha H1) as [Ha1 Hc1].
  destruct (run_loop lc st1 ins) as [st2 e2|] eqn:H2; [|done]. intros [= <- <-].
  destruct (IH _ _ _ Ha1 H2) as [Ha2 Hc2]. split; [done|congruence].
Qed.
End loop.

(** ** listenLoop *)

Definition initial_backoff : Z := 100000000.
Definition maxBackoff : Z := 5000000000.

Record ListenState := mkListen {
  ln_conn : bool;
  ln_backoff : Z;
  ln_errors : Z;
  ln_reconnects : Z;
  ln_doorbell : bool
}.

(** What a reconnect attempt and a wait on a live connection can end with. *)
Inductive reconnect_outcome := RcInterrupted | RcFactoryErr | RcListenErr | RcConnected.
Inductive wait_outcome := WaitShutdown | WaitErr | WaitNotified.

(** Doubling with a cap. *)
Definition next_backoff (b : Z) : Z :=
  if (b <? maxBackoff)%Z then (if (maxBackoff <? b * 2)%Z then maxBackoff else b * 2)%Z else b.

(** The part before the loop: LISTEN on the connection the watcher was given. *)
Definition listen_start (conn : bool) (listenOk : bool) (st : ListenState) : ListenState :=
  if conn then
    if listenOk then mkListen true initial_backoff (ln_errors st) (ln_reconnects st) (ln_doorbell st)
    else mkListen false initial_backoff (ln_errors st + 1) (ln_reconnects st) (ln_doorbell st)
  else mkListen false initial_backoff (ln_errors st) (ln_reconnects st) (ln_doorbell st).

(** One iteration; [None] when the loop returns. A full doorbell channel swallows a
    further ring. *)
Definition listen_step (hasFactory : bool) (rc : reconnect_outcome) (wt : wait_outcome) (st : ListenState) :
    option ListenState :=
  if negb (ln_conn st) then
    if negb hasFactory then None
    else match rc with
         | RcInterrupted => None
         | RcFactoryErr | RcListenErr =>
             Some (mkListen false (next_backoff (ln_backoff st)) (ln_errors st + 1) (ln_reconnects st) (ln_doorbell st))
         | RcConnected => Some (mkListen true initial_backoff (ln_errors st) (ln_reconnects st + 1) true)
         end
  else match wt with
       | WaitShutdown => None
       | WaitErr => Some (mkListen false (ln_backoff st) (ln_errors st + 1) (ln_reconnects st) (ln_doorbell st))
       | WaitNotified => Some (mkListen true initial_backoff (ln_errors st) (ln_reconnects st) true)
       end.

Fixpoint listenLoop (hasFactory : bool) (st : ListenState) (ins : list (reconnect_outcome * wait_outcome)) :
    option ListenState :=
  match ins with
  | [] => Some st
  | (rc, wt) :: rest =>
      match listen_step hasFactory rc wt st with
      | Some st' => listenLoop hasFactory st' rest
      | None => None
      end
  end.

(** The channel [listenAll] subscribes to. *)
Definition listenAll (sha256_12hex : string → string) (w : Watcher) : string :=
  DoorbellChannel sha256_12hex (wc_GVK (cfg w)).

Definition backoff_ok (st : ListenState) : Prop := (initial_backoff ≤ ln_backoff st ≤ maxBackoff)%Z.

Lemma next_backoff_spec b :
  (initial_backoff ≤ b ≤ maxBackoff)%Z → next_backoff b = Z.min (2 * b) maxBackoff.
Proof.
  unfold next_backoff, initial_backoff, maxBackoff. intros.
  destruct (Z.ltb_spec b 5000000000); [|lia]. destruct (Z.ltb_spec 5000000000 (b * 2)); lia.
Qed.

Lemma listen_step_ok f rc wt st st' : backoff_ok st → listen_step f rc wt st = Some st' → backoff_ok st'.
Proof.
  unfold backoff_ok, listen_step. intros Hb H.
  assert (Hn : (initial_backoff ≤ next_backoff (ln_backoff st) ≤ maxBackoff)%Z).
  { rewrite next_backoff_spec by done. unfold initial_backoff, maxBackoff in *. lia. }
  repeat (case_match; simplify_eq/=; try done).
Qed.

(** ** The theorems of the loops *)

(** the timer of [Run] and the debounce: whatever sequence of doorbells and timer
    ticks the loop has taken, its timer is armed at exactly the last poll plus the
    debounce floor when a doorbell is waiting, and plus the baseline interval
    otherwise. So a doorbell is answered no later than one debounce floor after the
    last poll, and the next doorbell polls at once only when a full floor has passed. *)
Theorem Run_timer (hashtext : string → Z) (jsonb_out : json → string) (uuid_out : uuid → string)
    (lc : bool) (e : PollEnv) (c : WatcherConfig) (ins : list loop_input) (st : LoopState) (evs : list Event) :
  Run hashtext jsonb_out uuid_out lc e (NewWatcher c) ins = Continue st evs →
  lp_deadline st = (lp_lastPoll st + if lp_pending st then wc_DebounceFloor (cfg (NewWatcher c))
                                     else wc_BaselineInterval (cfg (NewWatcher c)))%Z ∧
  (∀ now e' st' evs', run_step hashtext jsonb_out uuid_out lc st (InDoorbell now e') = Continue st' evs' →
     (lp_doorbellPolls st' = lp_doorbellPolls st + 1 ∧ lp_pending st' = false ∧
        wc_DebounceFloor (cfg (NewWatcher c)) ≤ now - lp_lastPoll st)%Z ∨
     (lp_pending st' = true ∧ evs' = [] ∧ lp_watcher st' = lp_watcher st ∧
        lp_deadline st' = (lp_lastPoll st + wc_DebounceFloor (cfg (NewWatcher c)))%Z)).
Proof.
  unfold Run, run_start. destruct (do_poll _ _ _ e (NewWatcher c)) as [[w0 evs0] [n|err]] eqn:Hp; [|done].
  apply do_poll_cfg in Hp. destruct (run_loop _ _ _ lc _ ins) as [st1 evs1|] eqn:Hl; [|done]. intros [= <- <-].
  apply run_loop_armed in Hl as [Ha Hc]; [|unfold armed; simpl; by rewrite Hp].
  simpl in Hc. rewrite Hp in Hc. unfold armed in Ha. rewrite Hc in Ha. split; [exact Ha|].
  intros now e' st' evs'. simpl. rewrite Hc.
  destruct (Z.leb_spec (wc_DebounceFloor (cfg (NewWatcher c))) (now - lp_lastPoll st1)) as [Hle|Hgt].
  - destruct (do_poll _ _ _ e' (lp_watcher st1)) as [[w' evs''] [n'|err]]; [|done]. intros [= <- <-]. by left.
  - intros [= <- <-]. right. simpl. split_and!; [done|done|done|lia].
Qed.

Lemma Run_timer_witness :
  ∃ st evs, Run (fun _ => 0)%Z (fun _ => "") (fun _ => "") true
      (mkPollEnv (mkSnapshot (mkDb ∅ ∅) 7) None DeliverAll 1000) (NewWatcher (mkWatcherConfig "g/v/K" (RV.mkRV 0 3) 0 0 None))
      [InDoorbell 5000 (mkPollEnv (mkSnapshot (mkDb ∅ ∅) 8) None DeliverAll 6000)] = Continue st evs ∧
    lp_pending st = true ∧ lp_deadline st = (1000 + 100000000)%Z.
Proof.
  eexists _, _. split; [reflexivity|]. split; [reflexivity|].
  exact (proj1 (Run_timer (fun _ => 0)%Z (fun _ => "") (fun _ => "") true
    (mkPollEnv (mkSnapshot (mkDb ∅ ∅) 7) None DeliverAll 1000) (mkWatcherConfig "g/v/K" (RV.mkRV 0 3) 0 0 None)
    [InDoorbell 5000 (mkPollEnv (mkSnapshot (mkDb ∅ ∅) 8) None DeliverAll 6000)] _ _ eq_refl)).
Defined.

(** reconnecting: from the start of [listenLoop] the backoff stays within 100ms
    and 5s whatever happens, [n] failed attempts in a row make it 100ms doubled [n]
    times, capped at 5s, and a reconnect or a notification resets it and rings the
    doorbell, so the watcher polls at once. *)
Theorem listenLoop_backoff (conn ok f : bool) (st0 : ListenState) :
  (∀ ins st, listenLoop f (listen_start conn ok st0) ins = Some st → (initial_backoff ≤ ln_backoff st ≤ maxBackoff)%Z) ∧
  (∀ n wt st, listenLoop true (mkListen false initial_backoff (ln_errors st0) (ln_reconnects st0) (ln_doorbell st0))
                (repeat (RcFactoryErr, wt) n) = Some st →
     ln_backoff st = Z.min (initial_backoff * 2 ^ Z.of_nat n) maxBackoff ∧
     ln_errors st = (ln_errors st0 + Z.of_nat n)%Z) ∧
  (∀ st st' rc wt, listen_step f rc wt st = Some st' → ln_conn st' = true →
     ln_backoff st' = initial_backoff ∧ ln_doorbell st' = true).
Proof.
  split_and!.
  - intros ins. assert (H0 : backoff_ok (listen_start conn ok st0)) by (destruct conn, ok; by_decide).
    revert H0. generalize (listen_start conn ok st0). induction ins as [|[rc wt] ins IH]; intros st1 H1 st; simpl.
    + by intros [= <-].
    + destruct (listen_step f rc wt st1) as [st2|] eqn:E; [|done]. eapply IH. by eapply listen_step_ok.
  - intros n wt.
    assert (Hg : ∀ m b e st, (initial_backoff ≤ b ≤ maxBackoff)%Z →
      listenLoop true (mkListen false b e (ln_reconnects st0) (ln_doorbell st0)) (repeat (RcFactoryErr, wt) m) = Some st →
      ln_backoff st = Z.min (b * 2 ^ Z.of_nat m) maxBackoff ∧ ln_errors st = (e + Z.of_nat m)%Z).
    { induction m as [|m IH]; intros b e st Hb.
      - intros [= <-]. change (Z.of_nat 0) with 0%Z. simpl. lia.
      - intros H. cbn [repeat listenLoop listen_step ln_conn negb ln_backoff ln_errors ln_reconnects ln_doorbell] in H.
        rewrite next_backoff_spec in H by done. apply IH in H; [|unfold initial_backoff, maxBackoff in *; lia].
        destruct H as [-> ->]. rewrite Nat2Z.inj_succ, Z.pow_succ_r by lia.
        pose proof (Z.pow_pos_nonneg 2 (Z.of_nat m)). unfold initial_backoff, maxBackoff in *. split; [nia|lia]. }
    intros st. apply Hg. unfold initial_backoff, maxBackoff. lia.
  - intros st st' rc wt H Hc. unfold listen_step in H. repeat (case_match; simplify_eq/=; try done).
Qed.

End WatcherLoop.
