(* ===== verification/Doorbell.v ===== *)
(** * The doorbell debouncer (seaplane-db/internal/doorbell/doorbell.go)

    [Ring] marks a GVK dirty; the background loop flushes on every tick of its
    window and once more when it is closed. A trace of the debouncer is the sequence
    of those operations. *)
From S2P Require Import Prelude GoStrings Db.
From stdpp Require Import base strings list gmap sets.
From Stdlib Require Import ZArith Lia String.
Open Scope string_scope.

Module Doorbell.

Record Debouncer := mkDebouncer { dirty : gset string }.

Definition NewDebouncer : Debouncer := mkDebouncer ∅.

Definition Ring (gvk : string) (d : Debouncer) : Debouncer := mkDebouncer ({[gvk]} ∪ dirty d).

(** One [SELECT pg_notify] per dirty GVK. A failed one is logged and dropped. *)
Definition flush (d : Debouncer) : Debouncer * list string :=
  if bool_decide (dirty d = ∅) then (d, []) else (NewDebouncer, elements (dirty d)).

Definition channels (sha256_12hex : string → string) (gvks : list string) : list string :=
  map (DoorbellChannel sha256_12hex) gvks.

Inductive op := OpRing (gvk : string) | OpTick | OpClose.

(** The flushes of a trace, in order; nothing runs after [Close]. *)
Fixpoint loop (d : Debouncer) (ops : list op) : Debouncer * list (list string) :=
  match ops with
  | [] => (d, [])
  | OpRing gvk :: rest => loop (Ring gvk d) rest
  | OpTick :: rest => let '(d', out) := flush d in
                      let '(d'', outs) := loop d' rest in (d'', out :: outs)
  | OpClose :: _ => let '(d', out) := flush d in (d', [out])
  end.

Definition is_ring (o : op) : bool := match o with OpRing _ => true | _ => false end.

Lemma flush_elements d : (flush d).2 = elements (dirty d) ∧ dirty (flush d).1 = ∅.
Proof.
  unfold flush. case_bool_decide as H; simpl; [|done]. split; [|done]. by rewrite H, elements_empty.
Qed.

Definition ring_of (o : op) : gset string := match o with OpRing g => {[g]} | _ => ∅ end.

(** Rings only add to the dirty set. *)
Lemma loop_rings d ops : ∀ rest,
  forallb is_ring ops = true →
  loop d (ops ++ rest) = loop (mkDebouncer (⋃ (ring_of <$> ops) ∪ dirty d)) rest.
Proof.
  revert d. induction ops as [|[g| |] ops IH]; intros [dd] rest; simpl; try done.
  - intros _. f_equal. f_equal. set_solver.
  - intros H. rewrite IH by done. simpl. do 2 f_equal. set_solver.
Qed.

Lemma elem_of_rings g ops : g ∈ ⋃ (ring_of <$> ops) ↔ OpRing g ∈ ops.
Proof.
  rewrite elem_of_union_list. setoid_rewrite list_elem_of_fmap. split.
  - intros (X & (o & -> & Ho) & Hg). destruct o; set_solver.
  - intros H. exists {[g]}. split; [by exists (OpRing g)|set_solver].
Qed.

(** coalescing without loss: whatever the debouncer has seen, the flush that ends
    a window notifies every GVK rung in that window or still waiting from before,
    each exactly once, and nothing else; [Close] flushes what is pending; and after
    a flush nothing is pending. *)
Theorem window_flush (d : Debouncer) (window rest : list op) (stop : op) :
  forallb is_ring window = true → is_ring stop = false →
  ∃ out outs, (loop d (window ++ stop :: rest)).2 = out :: outs ∧ NoDup out ∧
    (∀ g, g ∈ out ↔ OpRing g ∈ window ∨ g ∈ dirty d) ∧
    (stop = OpTick → loop d (window ++ stop :: rest) =
       ((loop NewDebouncer rest).1, out :: (loop NewDebouncer rest).2)) ∧
    (stop = OpClose → loop d (window ++ stop :: rest) = (NewDebouncer, [out])).
Proof.
  intros Hw Hs. rewrite loop_rings by done. set (d' := mkDebouncer _).
  destruct (flush_elements d') as [Hout Hemp].
  assert (Hin : ∀ g, g ∈ elements (dirty d') ↔ OpRing g ∈ window ∨ g ∈ dirty d).
  { intros g. rewrite elem_of_elements. unfold d'. simpl. by rewrite elem_of_union, elem_of_rings. }
  assert (HN : (flush d').1 = NewDebouncer) by (destruct (flush d').1; simpl in *; by subst).
  destruct stop; [done| |]; simpl; destruct (flush d') as [d1 out]; simpl in *; subst d1 out.
  - destruct (loop NewDebouncer rest) as [d2 outs]. simpl.
    exists (elements (dirty d')), outs. split_and!; [done|apply NoDup_elements|done|done|done].
  - exists (elements (dirty d')), []. split_and!; [done|apply NoDup_elements|done|done|done].
Qed.

Lemma window_flush_witness :
  ∃ out outs, (loop NewDebouncer ([OpRing "a"; OpRing "b"; OpRing "a"] ++ OpTick :: [])).2 = out :: outs ∧
    NoDup out ∧ (∀ g, g ∈ out ↔ OpRing g ∈ [OpRing "a"; OpRing "b"; OpRing "a"] ∨ g ∈ dirty NewDebouncer) ∧
    out ≠ [].
Proof.
  destruct (window_flush NewDebouncer [OpRing "a"; OpRing "b"; OpRing "a"] [] OpTick eq_refl eq_refl)
    as (out & outs & H1 & H2 & H3 & _).
  exists out, outs. split_and!; [exact H1|exact H2|exact H3|].
  intros ->. apply (not_elem_of_nil "a"), H3. left. by left.
Defined.

End Doorbell.
