(* ===== verification/Verifier.v ===== *)
(** * The continuous verifier (seaplane-db/internal/verifier/verifier.go)

    A watcher consumer that counts redeliveries and measures how long its canary
    writes take to be delivered. *)
From S2P Require Import Prelude GoStrings ResourceVersion Json Db Writer Reader.
From stdpp Require Import base strings list gmap sorting.
From Stdlib Require Import ZArith Lia Ascii String.
Open Scope string_scope.
Import Reader Writer.

Module Verifier.

Definition canaryRingSize : nat := 1000.

Record Verifier := mkVerifier {
  vf_GVK : string;
  vf_canaryConn : bool;
  vf_hwm : Z;
  vf_redeliveries : Z;
  vf_eventsCount : Z;
  vf_canaryCount : Z;
  vf_canaryTimes : list Z;
  vf_canaryIdx : nat;
  vf_canaryFull : bool;
  vf_pending : gmap string Z
}.

Definition New (gvk : string) (canaryConn : bool) : Verifier :=
  mkVerifier gvk canaryConn 0 0 0 0 (replicate canaryRingSize 0%Z) 0 false ∅.

(** One event at time [now]. *)
Definition checkEvent (now : Z) (ev : Event) (v : Verifier) : Verifier :=
  let r := ev_Resource ev in
  let txid := TxidStamp r in
  let redeliveries := if (txid <=? vf_hwm v)%Z && (0 <? vf_hwm v)%Z
                      then (vf_redeliveries v + 1)%Z else vf_redeliveries v in
  let hwm' := if (vf_hwm v <? txid)%Z then txid else vf_hwm v in
  let keep := mkVerifier (vf_GVK v) (vf_canaryConn v) hwm' redeliveries (vf_eventsCount v + 1) (vf_canaryCount v)
                (vf_canaryTimes v) (vf_canaryIdx v) (vf_canaryFull v) (vf_pending v) in
  if String.eqb (Namespace r) "_verifier" then
    match vf_pending v !! Name r with
    | None => keep
    | Some writeTime =>
        let times := <[vf_canaryIdx v := (now - writeTime)%Z]> (vf_canaryTimes v) in
        let idx := S (vf_canaryIdx v) in
        let wraps := (canaryRingSize <=? idx)%nat in
        mkVerifier (vf_GVK v) (vf_canaryConn v) hwm' redeliveries (vf_eventsCount v + 1) (vf_canaryCount v)
          times (if wraps then 0 else idx) (if wraps then true else vf_canaryFull v) (delete (Name r) (vf_pending v))
    end
  else keep.

Definition canary_name (count : Z) : string := "_verifier-canary-" +:+ FormatInt count.

Definition canary_request (gvk : string) (count : Z) : WriteRequest :=
  mkWriteRequest gvk "_verifier" (canary_name count) (Some (JObj [("canary", JBool true)]))
    (Some (JObj [])) (Some (JObj [])) None 0 None false.

(** [writeCanary]: [victim] is the entry Go's map iteration meets first. *)
Definition writeCanary (e : WriteEnv) (now : Z) (victim : gmap string Z → option string) (v : Verifier) (w : World) :
    Verifier * World :=
  if negb (vf_canaryConn v) then (v, w)
  else
    let '(w', res) := Write (mkWriter None false) e (canary_request (vf_GVK v) (vf_canaryCount v)) w in
    match res with
    | Err _ => (v, w')
    | Ok _ =>
        let pending := if (canaryRingSize <=? size (vf_pending v))%nat
                       then match victim (vf_pending v) with Some k => delete k (vf_pending v) | None => vf_pending v end
                       else vf_pending v in
        (mkVerifier (vf_GVK v) (vf_canaryConn v) (vf_hwm v) (vf_redeliveries v) (vf_eventsCount v)
           (vf_canaryCount v + 1) (vf_canaryTimes v) (vf_canaryIdx v) (vf_canaryFull v)
           (<[canary_name (vf_canaryCount v) := now]> pending), w')
    end.

(** [idx := int(float64(n) * 0.99)], clamped; [n ≤ 1000], where the product rounds
    down to [99 n / 100]. *)
Definition p99_index (n : nat) : nat :=
  let idx := (n * 99 / 100)%nat in if (n <=? idx)%nat then (n - 1)%nat else idx.

Definition samples (v : Verifier) : list Z :=
  if vf_canaryFull v then vf_canaryTimes v else take (vf_canaryIdx v) (vf_canaryTimes v).

Definition CanaryP99 (v : Verifier) : Z :=
  match merge_sort Z.le (samples v) with
  | [] => 0%Z
  | sorted => nth (p99_index (List.length sorted)) sorted 0%Z
  end.

(** ** Lemmas *)

(** The ring is in bounds, so the write to [canaryTimes] never panics. *)
Definition ring_ok (v : Verifier) : Prop :=
  List.length (vf_canaryTimes v) = canaryRingSize ∧ (vf_canaryIdx v < canaryRingSize)%nat.

Lemma p99_index_lt n : (0 < n)%nat → (p99_index n < n)%nat.
Proof. unfold p99_index. intros. destruct (Nat.leb_spec n (n * 99 / 100)); lia. Qed.

Lemma checkEvent_ring now ev v : ring_ok v → ring_ok (checkEvent now ev v).
Proof.
  intros [Hl Hi]. unfold checkEvent. destruct (String.eqb _ _); [|done].
  destruct (vf_pending v !! _); [|done]. 
  split; cbn [vf_canaryTimes vf_canaryIdx]; [by rewrite length_insert|].
  assert (0 < canaryRingSize)%nat by (unfold canaryRingSize; lia).
  destruct (Nat.leb_spec canaryRingSize (S (vf_canaryIdx v))); lia.
Qed.

(** An event is redelivered when an event seen before it has its id or a later one. *)
Fixpoint redeliveries (seen ts : list Z) : Z :=
  match ts with
  | [] => 0
  | t :: rest => ((if existsb (fun t' => t <=? t')%Z seen then 1 else 0) + redeliveries (t :: seen) rest)%Z
  end.

Definition max_seen (seen : list Z) : Z := fold_right Z.max 0%Z seen.

Lemma max_seen_le seen t : (t ≤ max_seen seen)%Z ∧ (0 < t)%Z ↔ existsb (fun t' => t <=? t')%Z seen = true ∧ (0 < t)%Z.
Proof.
  unfold max_seen. induction seen as [|x seen IH]; simpl; [split; intros [? ?]; [lia|done]|].
  rewrite orb_true_iff, Z.leb_le. split.
  - intros [H1 H2]. split; [|done]. destruct (decide (t ≤ x)%Z); [by left|right]. apply IH. split; [lia|done].
  - intros [[H1|H1] H2]; split; try done; [lia|]. destruct IH as [_ IH]. specialize (IH (conj H1 H2)). lia.
Qed.

Lemma checkEvent_fields now ev v :
  vf_eventsCount (checkEvent now ev v) = (vf_eventsCount v + 1)%Z ∧
  vf_hwm (checkEvent now ev v) = Z.max (TxidStamp (ev_Resource ev)) (vf_hwm v) ∧
  vf_redeliveries (checkEvent now ev v) =
    ((if (TxidStamp (ev_Resource ev) <=? vf_hwm v)%Z && (0 <? vf_hwm v)%Z then 1 else 0) + vf_redeliveries v)%Z.
Proof.
  unfold checkEvent. destruct (Z.ltb_spec (vf_hwm v) (TxidStamp (ev_Resource ev)));
    destruct (_ && _); destruct (String.eqb _ _); try destruct (vf_pending v !! _); simpl; lia.
Qed.

(** the statistics are safe and exact: on any sequence of events the latency ring
    stays in bounds, every event is counted, the verifier's mark is the largest
    transaction id seen, and the redeliveries are the events that follow one with
    their id or a later one. *)
Theorem checkEvents_counts (gvk : string) (canary : bool) (evs : list (Z * Event)) :
  Forall (fun e => 0 < TxidStamp (ev_Resource e.2))%Z evs →
  let v := fold_left (fun v e => checkEvent e.1 e.2 v) evs (New gvk canary) in
  let ts := map (fun e => TxidStamp (ev_Resource e.2)) evs in
  ring_ok v ∧ vf_eventsCount v = Z.of_nat (List.length evs) ∧
  vf_hwm v = max_seen (rev ts) ∧ vf_redeliveries v = redeliveries [] ts.
Proof.
  intros Hpos.
  assert (Hg : ∀ seen v, ring_ok v → vf_hwm v = max_seen seen →
    let v' := fold_left (fun v e => checkEvent e.1 e.2 v) evs v in
    let ts := map (fun e => TxidStamp (ev_Resource e.2)) evs in
    ring_ok v' ∧ vf_eventsCount v' = (vf_eventsCount v + Z.of_nat (List.length evs))%Z ∧
    vf_hwm v' = max_seen (rev ts ++ seen) ∧ vf_redeliveries v' = (vf_redeliveries v + redeliveries seen ts)%Z).
  { induction Hpos as [|[now ev] evs Ht Hpos IH]; intros seen v Hr Hh; simpl in *; [split_and!; try done; lia|].
    destruct (checkEvent_fields now ev v) as (He & Hh' & Hrd).
    destruct (IH (TxidStamp (ev_Resource ev) :: seen) (checkEvent now ev v)) as (H1 & H2 & H3 & H4).
    { by apply checkEvent_ring. }
    { simpl. by rewrite Hh', Hh. }
    split_and!; [done|lia|by rewrite H3, <- app_assoc|].
    rewrite H4, Hrd, Hh.
    pose proof (max_seen_le seen (TxidStamp (ev_Resource ev))) as Hm.
    destruct (Z.leb_spec (TxidStamp (ev_Resource ev)) (max_seen seen)) as [Hle|Hgt];
      destruct (existsb _ seen); simpl.
    - rewrite (proj2 (Z.ltb_lt 0 _)) by lia. lia.
    - destruct Hm as [Hm _]. by destruct (Hm (conj Hle Ht)).
    - destruct Hm as [_ Hm]. destruct (Hm (conj eq_refl Ht)). lia.
    - lia. }
  specialize (Hg [] (New gvk canary)). cbv zeta in *. simpl in Hg. rewrite app_nil_r in Hg. apply Hg; [|done].
  split; [apply length_replicate|simpl; unfold canaryRingSize; lia].
Qed.

Definition demo_event (t : Z) : Event :=
  mkEvent EventModified (mkResource "g/v/K" "ns" "a" 1 t 2 JNull JNull JNull None 0 0).

Lemma checkEvents_counts_witness :
  let v := fold_left (fun v e => checkEvent e.1 e.2 v) [(0, demo_event 5); (1, demo_event 7); (2, demo_event 7)]%Z
             (New "g/v/K" true) in
  vf_eventsCount v = 3%Z ∧ vf_hwm v = 7%Z ∧ vf_redeliveries v = 1%Z.
Proof.
  destruct (checkEvents_counts "g/v/K" true [(0, demo_event 5); (1, demo_event 7); (2, demo_event 7)]%Z) as (_ & H1 & H2 & H3).
  - repeat constructor.
  - split_and!; [exact H1|exact H2|exact H3].
Defined.

(** ** Canaries *)

(** A create over a row that is not a tombstone is refused. *)
Lemma canary_refused e v w r :
  vf_canaryConn v = true → we_call e = CallAnswered →
  kubernetes_resources (w_db w) !! (vf_GVK v, "_verifier", canary_name (vf_canaryCount v)) = Some r →
  is_tombstone r = false →
  ∀ now victim, (writeCanary e now victim v w).1 = v ∧ w_db (writeCanary e now victim v w).2 = w_db w.
Proof.
  intros Hc He Hr Ht now victim. unfold writeCanary. rewrite Hc. simpl.
  unfold writeStoredProc. rewrite He. unfold callStoredProc, pgctl_write. simpl.
  unfold p_key. simpl. rewrite Hr. unfold upsert_row, create_row, insert_row. simpl. rewrite Ht. simpl.
  split; [done|]. apply observeResult_db.
Qed.

Definition run_canaries (victim : gmap string Z → option string) (l : list (WriteEnv * Z)) (v : Verifier) (w : World) :
    Verifier * World :=
  fold_left (fun s e => writeCanary e.1 e.2 victim s.1 s.2) l (v, w).

Lemma canary_create victim e now gvk w :
  we_call e = CallAnswered →
  kubernetes_resources (w_db w) !! (gvk, "_verifier", canary_name 0) = None →
  let '(v, w') := writeCanary e now victim (New gvk true) w in
  vf_canaryCount v = 1%Z ∧ vf_pending v !! canary_name 0 = Some now ∧
  ∃ r, kubernetes_resources (w_db w') !! (gvk, "_verifier", canary_name 0) = Some r ∧ is_tombstone r = false.
Proof.
  intros He Hn. unfold writeCanary. simpl. unfold writeStoredProc. rewrite He.
  unfold callStoredProc, pgctl_write. simpl. unfold p_key. simpl. rewrite Hn.
  unfold upsert_row, create_row, insert_row. simpl. split_and!; [done|by rewrite lookup_insert_eq|].
  rewrite observeResult_db. simpl. rewrite lookup_insert_eq. eexists. split; [done|]. reflexivity.
Qed.

(** canaries do not survive a restart: the first verifier to run writes its first
    canary and waits for it, but a verifier started afresh on the same database tries
    to create the same name, is refused, and stays at its initial state: however
    often the ticker fires, it writes nothing and measures nothing. *)
Theorem canaries_stop_after_restart (victim : gmap string Z → option string) (gvk : string) (e : WriteEnv) (now : Z)
    (later : list (WriteEnv * Z)) (w : World) :
  we_call e = CallAnswered → Forall (fun x => we_call x.1 = CallAnswered) later →
  kubernetes_resources (w_db w) !! (gvk, "_verifier", canary_name 0) = None →
  let '(first, w1) := writeCanary e now victim (New gvk true) w in
  let '(restarted, w2) := run_canaries victim later (New gvk true) w1 in
  vf_canaryCount first = 1%Z ∧ vf_pending first !! canary_name 0 = Some now ∧
  restarted = New gvk true ∧ w_db w2 = w_db w1.
Proof.
  intros He Hl Hn. pose proof (canary_create victim e now gvk w He Hn) as H.
  destruct (writeCanary e now victim (New gvk true) w) as [v1 w1]. destruct H as (Hc & Hp & r & Hr & Ht).
  unfold run_canaries.
  assert (Hg : ∀ w0, w_db w0 = w_db w1 →
    (fold_left (fun s x => writeCanary x.1 x.2 victim s.1 s.2) later (New gvk true, w0)).1 = New gvk true ∧
    w_db (fold_left (fun s x => writeCanary x.1 x.2 victim s.1 s.2) later (New gvk true, w0)).2 = w_db w1).
  { induction Hl as [|[e' n'] later He' Hl IH]; intros w0 Hw; [done|]. cbn [fold_left fst snd].
    destruct (canary_refused e' (New gvk true) w0 r eq_refl He') with (now := n') (victim := victim) as [H1 H2];
      [by rewrite Hw|done|].
    destruct (writeCanary e' n' victim (New gvk true) w0) as [v2 w2]. simpl in H1, H2. subst v2.
    apply IH. congruence. }
  destruct (Hg w1 eq_refl) as [H1 H2].
  destruct (fold_left _ later _) as [v2 w2]. simpl in *. split_and!; done.
Qed.

Lemma canaries_stop_after_restart_witness :
  let e := mkWriteEnv (mkTxEnv 9 100 7) CallAnswered no_faults in
  let w := mkWorld (mkDb ∅ ∅) [] None in
  let '(first, w1) := writeCanary e 5 (fun _ => None) (New "g/v/K" true) w in
  let '(restarted, w2) := run_canaries (fun _ => None) [(e, 6); (e, 7)]%Z (New "g/v/K" true) w1 in
  vf_canaryCount first = 1%Z ∧ vf_pending first !! canary_name 0 = Some 5%Z ∧
  restarted = New "g/v/K" true ∧ w_db w2 = w_db w1.
Proof.
  exact (canaries_stop_after_restart (fun _ => None) "g/v/K" (mkWriteEnv (mkTxEnv 9 100 7) CallAnswered no_faults) 5
    [(mkWriteEnv (mkTxEnv 9 100 7) CallAnswered no_faults, 6%Z); (mkWriteEnv (mkTxEnv 9 100 7) CallAnswered no_faults, 7%Z)]
    (mkWorld (mkDb ∅ ∅) [] None) eq_refl ltac:(repeat constructor) eq_refl).
Defined.

End Verifier.
