(* ===== verification/Uuid.v ===== *)
(** * UUIDs

    The store's UUIDs are 128-bit values; the client writes them in the canonical
    text form ([uidFromUUID], pgclient.go) and reads them back with google/uuid. *)
From S2P Require Import Prelude GoStrings Db.
From stdpp Require Import base strings list.
From Stdlib Require Import ZArith Lia Ascii String.
Open Scope string_scope.

Definition uuid_ok (u : Z) : Prop := (0 ≤ u < 2 ^ 128)%Z.
#[export] Instance uuid_ok_dec u : Decision (uuid_ok u).
Proof. unfold uuid_ok. apply _. Defined.

(** The lower-case hex digit of a value below 16. *)
Definition hex_digit (d : Z) : ascii :=
  if (d <? 10)%Z then ascii_of_nat (48 + Z.to_nat d) else ascii_of_nat (87 + Z.to_nat d).

(** The [n] lowest hex digits of [z]. *)
Fixpoint hex (n : nat) (z : Z) : string :=
  match n with
  | 0 => ""
  | S m => String (hex_digit ((z / 16 ^ Z.of_nat m) mod 16)) (hex m z)
  end.

(** [%x-%x-%x-%x-%x] of the bytes [0:4], [4:6], [6:8], [8:10] and [10:16]. *)
Definition uidFromUUID (u : Z) : string :=
  hex 8 (u / 2 ^ 96) +:+ "-" +:+ hex 4 (u / 2 ^ 80) +:+ "-" +:+ hex 4 (u / 2 ^ 64) +:+ "-" +:+
  hex 4 (u / 2 ^ 48) +:+ "-" +:+ hex 12 u.

(** What the client relies on of google/uuid: [String] is the canonical form and
    [Parse] reads it. *)
Class UuidCodec := {
  uuid_String : Z → string;
  uuid_Parse : string → option Z;
  uuid_canonical : ∀ u, uuid_ok u → uuid_String u = uidFromUUID u;
  uuid_roundtrip : ∀ u, uuid_ok u → uuid_Parse (uidFromUUID u) = Some u
}.

Lemma uidFromUUID_nonempty u : String.eqb (uidFromUUID u) "" = false.
Proof. done. Qed.

(** ** A codec *)

Definition hex_value (c : ascii) : option Z :=
  let n := Z.of_nat (nat_of_ascii c) in
  if (48 <=? n)%Z && (n <=? 57)%Z then Some (n - 48)%Z
  else if (97 <=? n)%Z && (n <=? 102)%Z then Some (n - 87)%Z
  else None.

Fixpoint parse_hex (acc : Z) (s : string) : option Z :=
  match s with
  | "" => Some acc
  | String c rest =>
      if Ascii.eqb c "-" then parse_hex acc rest
      else match hex_value c with Some d => parse_hex (acc * 16 + d) rest | None => None end
  end.

Lemma hex_digit_value d : (0 ≤ d < 16)%Z → Ascii.eqb (hex_digit d) "-" = false ∧ hex_value (hex_digit d) = Some d.
Proof.
  intros H. assert (Hd : d ∈ seqZ 0 16) by (apply elem_of_seqZ; lia).
  clear H. revert d Hd. apply Forall_forall. by_decide.
Qed.

Lemma parse_hex_digits n z acc s :
  parse_hex acc (hex n z +:+ s) = parse_hex (acc * 16 ^ Z.of_nat n + z mod 16 ^ Z.of_nat n) s.
Proof.
  revert acc. induction n as [|m IH]; intros acc.
  - change (Z.of_nat 0) with 0%Z. rewrite Z.pow_0_r, Z.mod_1_r, Z.mul_1_r, Z.add_0_r. done.
  - change (hex (S m) z +:+ s) with (String (hex_digit ((z / 16 ^ Z.of_nat m) mod 16)) (hex m z +:+ s)).
    cbn [parse_hex].
    destruct (hex_digit_value ((z / 16 ^ Z.of_nat m) mod 16)) as [-> ->]; [by apply Z.mod_pos_bound|].
    rewrite IH, Nat2Z.inj_succ, Z.pow_succ_r by lia. f_equal.
    rewrite (Z.mul_comm 16), Z.rem_mul_r by (try apply Z.pow_nonzero; lia). ring.
Qed.

Lemma parse_hex_dash acc s : parse_hex acc ("-" +:+ s) = parse_hex acc s.
Proof. done. Qed.

Lemma parse_uidFromUUID u : uuid_ok u → parse_hex 0 (uidFromUUID u) = Some u.
Proof.
  intros Hu. unfold uidFromUUID. rewrite parse_hex_digits, parse_hex_dash, parse_hex_digits, parse_hex_dash.
  rewrite parse_hex_digits, parse_hex_dash, parse_hex_digits, parse_hex_dash.
  replace (hex 12 u) with (hex 12 u +:+ "") by (simpl; done). rewrite parse_hex_digits.
  cbn [parse_hex]. f_equal. unfold uuid_ok in Hu.
  change (16 ^ Z.of_nat 8)%Z with (2 ^ 32)%Z. change (16 ^ Z.of_nat 4)%Z with (2 ^ 16)%Z.
  change (16 ^ Z.of_nat 12)%Z with (2 ^ 48)%Z.
  assert (H80 : (u / 2 ^ 96 = u / 2 ^ 80 / 2 ^ 16)%Z) by (rewrite Z.div_div; done).
  assert (H64 : (u / 2 ^ 80 = u / 2 ^ 64 / 2 ^ 16)%Z) by (rewrite Z.div_div; done).
  assert (H48 : (u / 2 ^ 64 = u / 2 ^ 48 / 2 ^ 16)%Z) by (rewrite Z.div_div; done).
  pose proof (Z.div_mod (u / 2 ^ 80) (2 ^ 16)). pose proof (Z.div_mod (u / 2 ^ 64) (2 ^ 16)).
  pose proof (Z.div_mod (u / 2 ^ 48) (2 ^ 16)). pose proof (Z.div_mod u (2 ^ 48)).
  assert ((u / 2 ^ 96) mod 2 ^ 32 = u / 2 ^ 96)%Z.
  { apply Z.mod_small. split; [apply Z.div_pos; lia|]. apply Z.div_lt_upper_bound; lia. }
  lia.
Qed.

#[export] Instance canonical_uuid : UuidCodec := {|
  uuid_String := uidFromUUID;
  uuid_Parse := parse_hex 0;
  uuid_canonical := fun u _ => eq_refl;
  uuid_roundtrip := parse_uidFromUUID
|}.
