(* ===== verification/PgClient.v ===== *)
(** * The typed client (seaplane-db/pgclient.go, errors.go)

    Create, Get, List, Update, Delete and the status writer over the write path. An
    operation returns the world it leaves, the caller's object, which Go mutates in
    place also on the error paths, and its error. What the scheme, the pool, the
    server and other sessions do during a call is a [CallEnv]. *)
From S2P Require Import Prelude GoStrings ResourceVersion Json Db Writer Sql Selectors Reader Convert Object Uuid.
From stdpp Require Import base strings list gmap.
From Stdlib Require Import ZArith Lia Ascii String.
Open Scope string_scope.
Import Convert Writer Selectors.

Module PgClient.

(** ** Errors *)

Record GroupResource := mkGR { gr_Group : string; gr_Resource : string }.

Definition groupResource (gvk : GroupVersionKind) : GroupResource :=
  mkGR (gvk_Group gvk) (ToLower (gvk_Kind gvk)).

Inductive client_error :=
| DryRunNotSupported
| PropagationPolicyNotSupported
| PreconditionsNotSupported
| GracePeriodNotSupported
| GenerateNameNotSupported
| ResolveGVK
| NoGVKRegistered
| AcquireFailed
| ReadFailed
| BadResourceVersionErr
| BadUID
| BadRequest
| NotFound (gr : GroupResource) (name : string)
| AlreadyExists (gr : GroupResource) (name : string)
| ConflictErr (gr : GroupResource) (name : string)
| ReadBackFailed
| WriteFailed (e : werror)
| ConvertFailed (e : convert_error)
| InvalidContinue
| SelectorFailed (e : sel_error)
| MethodNotSupported.

Definition rejectDryRun (dryRun : list string) : result client_error unit :=
  match dryRun with [] => Ok tt | _ => Err DryRunNotSupported end.

Record DeleteOptions := mkDeleteOptions {
  do_DryRun : list string;
  do_PropagationPolicy : bool;
  do_Preconditions : bool;
  do_GracePeriodSeconds : bool
}.

Definition rejectUnsupportedDeleteOpts (o : DeleteOptions) : result client_error unit :=
  _ ← rejectDryRun (do_DryRun o);
  if do_PropagationPolicy o then Err PropagationPolicyNotSupported
  else if do_Preconditions o then Err PreconditionsNotSupported
  else if do_GracePeriodSeconds o then Err GracePeriodNotSupported
  else Ok tt.

(** [resolveGVK], on what [scheme.ObjectKinds] answers for the object. *)
Definition resolveGVK (kinds : option (list GroupVersionKind)) : result client_error GroupVersionKind :=
  match kinds with
  | None => Err ResolveGVK
  | Some [] => Err NoGVKRegistered
  | Some (gvk :: _) => Ok gvk
  end.

(** [mapGetError]: [None] is [pgx.ErrNoRows]. *)
Definition mapGetError (err : option client_error) (gvk : GroupVersionKind) (name : string) : client_error :=
  match err with None => NotFound (groupResource gvk) name | Some e => e end.

(** [mapWriteError]: a row recovered by the read-back, or the error to return. *)
Definition mapWriteError (readback_fault : bool) (db : Db) (err : werror) (gvk : GroupVersionKind) (name : string) :
    result client_error Resource :=
  match err with
  | ErrAlreadyExists => Err (AlreadyExists (groupResource gvk) name)
  | ErrConflict => Err (ConflictErr (groupResource gvk) name)
  | AmbiguousCommitError g ns n txid _ =>
      if readback_fault then Err ReadBackFailed
      else match ReadBack db g ns n txid with
           | None => Err (ConflictErr (groupResource gvk) name)
           | Some r => Ok r
           end
  | e => Err (WriteFailed e)
  end.

(** ** Calls *)

Record CallEnv := mkCallEnv {
  ce_kinds : option (list GroupVersionKind);
  ce_acquire : bool;
  ce_read_fault : bool;
  ce_between : Db → Db;
  ce_write : WriteEnv;
  ce_readback_fault : bool;
  ce_now : time
}.

Definition acquire (e : CallEnv) : result client_error unit := if ce_acquire e then Ok tt else Err AcquireFailed.

(** [writer.New(conn, nil)] *)
Definition client_writer : Writer := mkWriter None false.

Section client.
Context `{Codec : OwnerRefCodec, Sch : Scheme, Uuid : UuidCodec}.

Definition parseObjectUID (o : Object) : result client_error (option uuid) :=
  if String.eqb (o_UID o) "" then Ok None
  else match uuid_Parse (o_UID o) with Some u => Ok (Some u) | None => Err BadUID end.

Definition parse_version (o : Object) : result client_error Z :=
  match parseResourceVersion (o_ResourceVersion o) with Some v => Ok v | None => Err BadResourceVersionErr end.

Definition convert {A} (r : result convert_error A) : result client_error A :=
  match r with Ok a => Ok a | Err e => Err (ConvertFailed e) end.

Definition obj_key (gvk : GroupVersionKind) (o : Object) : key := (gvkToString gvk, o_Namespace o, o_Name o).

(** The row filter of [readCurrentResource]. *)
Definition current_filter (r : Row) : sql3 :=
  sql_or (sql_is_null (row_deletion r))
    (sql_and (sql_is_not_null (jsonb_get (row_metadata r) "finalizers"))
      (sql_not (jsonb_eq (jsonb_get (row_metadata r) "finalizers") (Some (JArr []))))).

Definition readCurrentResource (fault : bool) (db : Db) (k : key) : result client_error (option Resource) :=
  if fault then Err ReadFailed
  else Ok (match kubernetes_resources db !! k with
           | Some r => if sql_holds (current_filter r) then Some (to_resource k r) else None
           | None => None
           end).

(** ** Get *)
Definition Get (e : CallEnv) (ns name : string) (obj : Object) (db : Db) : result client_error Object :=
  gvk ← resolveGVK (ce_kinds e);
  _ ← acquire e;
  if ce_read_fault e then Err (mapGetError (Some ReadFailed) gvk name)
  else match kubernetes_resources db !! (gvkToString gvk, ns, name) with
       | None => Err (mapGetError None gvk name)
       | Some row =>
           let r := to_resource (gvkToString gvk, ns, name) row in
           if isFullyDeleted r then Err (mapGetError None gvk name)
           else convert (populateObject uuid_String obj r gvk)
       end.

(** The common end of a failed write: the read-back, and the object it fills. *)
Definition after_write_error (e : CallEnv) (w : World) (obj : Object) (err : werror) (gvk : GroupVersionKind) (name : string) :
    World * Object * result client_error unit :=
  match mapWriteError (ce_readback_fault e) (w_db w) err gvk name with
  | Err ce => (w, obj, Err ce)
  | Ok r => match populateObject uuid_String obj r gvk with
            | Ok obj' => (w, obj', Ok tt)
            | Err ce => (w, obj, Err (ConvertFailed ce))
            end
  end.

(** ** Create *)

Definition set_created (uid rv : string) (now : time) (gvk : GroupVersionKind) (o : Object) : Object :=
  mkObject gvk (o_Name o) (o_GenerateName o) (o_Namespace o) uid rv now
    (o_DeletionTimestamp o) (o_Meta o) (o_Spec o) (o_Status o).

Definition create_request (gvk : GroupVersionKind) (o : Object) (spec status : json) : WriteRequest :=
  mkWriteRequest (gvkToString gvk) (o_Namespace o) (o_Name o) (Some spec) (Some status)
    (Some (extractMetadata o)) None 0 None false.

Definition Create (e : CallEnv) (dryRun : list string) (obj : Object) (w : World) :
    World * Object * result client_error unit :=
  match rejectDryRun dryRun with
  | Err ce => (w, obj, Err ce)
  | Ok _ =>
      if String.eqb (o_Name obj) "" && negb (String.eqb (o_GenerateName obj) "")
      then (w, obj, Err GenerateNameNotSupported)
      else match resolveGVK (ce_kinds e) with
           | Err ce => (w, obj, Err ce)
           | Ok gvk =>
               let obj := set_Generation 1 obj in
               match (ss ← convert (extractSpecStatus obj); _ ← acquire e; Ok ss) with
               | Err ce => (w, obj, Err ce)
               | Ok (spec, status) =>
                   let '(w', res) := Write client_writer (ce_write e) (create_request gvk obj spec status) w in
                   match res with
                   | Err err => after_write_error e w' obj err gvk (o_Name obj)
                   | Ok r => (w', set_created (uidFromUUID (res_UID r)) (FormatInt (res_ObjectVersion r)) (ce_now e) gvk obj,
                              Ok tt)
                   end
               end
           end
  end.

(** ** Update *)

Definition update_request (gvk : GroupVersionKind) (o : Object) (spec : json) (deletion : option time)
    (version : Z) (uid : option uuid) : ObjectWriteRequest :=
  mkObjectWriteRequest (gvkToString gvk) (o_Namespace o) (o_Name o) (Some spec) (Some (extractMetadata o))
    deletion version uid false.

(** Up to the read of the current row: the kind, the expected version and UID. *)
Definition update_prepare (e : CallEnv) (dryRun : list string) (obj : Object) :
    result client_error (GroupVersionKind * Z * option uuid) :=
  _ ← rejectDryRun dryRun;
  gvk ← resolveGVK (ce_kinds e);
  v ← parse_version obj;
  u ← parseObjectUID obj;
  if (0 <? v)%Z && bool_decide (u = None) then Err BadRequest
  else _ ← acquire e; Ok (gvk, v, u).

Definition update_current (e : CallEnv) (gvk : GroupVersionKind) (u : option uuid) (obj : Object) (db : Db) :
    result client_error Resource :=
  cur ← readCurrentResource (ce_read_fault e) db (obj_key gvk obj);
  match cur with
  | None => Err (NotFound (groupResource gvk) (o_Name obj))
  | Some c =>
      match u with
      | Some x => if (UID c =? x)%Z then Ok c else Err (ConflictErr (groupResource gvk) (o_Name obj))
      | None => Ok c
      end
  end.

Definition Update (e : CallEnv) (dryRun : list string) (obj : Object) (w : World) :
    World * Object * result client_error unit :=
  match (gvu ← update_prepare e dryRun obj;
         let '(gvk, v, u) := gvu in
         cur ← update_current e gvk u obj (w_db w);
         newSpec ← convert (extractSpec obj);
         Ok (gvk, v, u, cur, newSpec)) with
  | Err ce => (w, obj, Err ce)
  | Ok (gvk, v, u, cur, newSpec) =>
      let obj' := if JSONEqual (Some (Spec cur)) (Some newSpec) then obj
                  else set_Generation (wrap_i64 (currentGeneration (Metadata cur) + 1)) obj in
      let w1 := set_db w (ce_between e (w_db w)) in
      let '(w', res) := WriteObject client_writer (ce_write e)
                          (update_request gvk obj' newSpec (DeletionTimestamp cur) v u) w1 in
      match res with
      | Err err => after_write_error e w' obj' err gvk (o_Name obj')
      | Ok r => (w', set_ResourceVersion (FormatInt (res_ObjectVersion r)) obj', Ok tt)
      end
  end.

(** ** Delete *)

(** The columns a delete writes back, and what it expects of the row. *)
Record delete_plan := mkPlan {
  pl_spec : json;
  pl_status : json;
  pl_metadata : json;
  pl_deletion : option time;
  pl_version : Z;
  pl_uid : option uuid
}.

Definition plan_delete (e : CallEnv) (gvk : GroupVersionKind) (obj : Object) (db : Db) :
    result client_error delete_plan :=
  _ ← acquire e;
  v ← parse_version obj;
  u ← parseObjectUID obj;
  if (v =? 0)%Z then
    c ← update_current e gvk u obj db;
    Ok (mkPlan (Spec c) (Status c) (Metadata c) (DeletionTimestamp c) (ObjectVersion c) (Some (UID c)))
  else
    ss ← convert (extractSpecStatus obj);
    match u with
    | None => Err BadRequest
    | Some _ => Ok (mkPlan ss.1 ss.2 (extractMetadata obj) None v u)
    end.

Definition delete_request (gvk : GroupVersionKind) (o : Object) (now : time) (p : delete_plan) : WriteRequest :=
  mkWriteRequest (gvkToString gvk) (o_Namespace o) (o_Name o) (Some (pl_spec p)) (Some (pl_status p))
    (Some (pl_metadata p)) (Some (match pl_deletion p with Some d => d | None => now end))
    (pl_version p) (pl_uid p) false.

Definition Delete (e : CallEnv) (opts : DeleteOptions) (obj : Object) (w : World) :
    World * result client_error unit :=
  match (_ ← rejectUnsupportedDeleteOpts opts; gvk ← resolveGVK (ce_kinds e);
         p ← plan_delete e gvk obj (w_db w); Ok (gvk, p)) with
  | Err ce => (w, Err ce)
  | Ok (gvk, p) =>
      let w1 := set_db w (ce_between e (w_db w)) in
      let '(w', res) := Write client_writer (ce_write e) (delete_request gvk obj (ce_now e) p) w1 in
      match res with
      | Err err =>
          match mapWriteError (ce_readback_fault e) (w_db w') err gvk (o_Name obj) with
          | Err ce => (w', Err ce)
          | Ok _ => (w', Ok tt)
          end
      | Ok _ => (w', Ok tt)
      end
  end.

(** ** Status *)

Definition status_request (gvk : GroupVersionKind) (o : Object) (status : json) (v : Z) (u : uuid) : StatusWriteRequest :=
  mkStatusWriteRequest (gvkToString gvk) (o_Namespace o) (o_Name o) (Some status) v (Some u) false.

(** [pgStatusWriter.Update] *)
Definition Status_Update (e : CallEnv) (dryRun : list string) (obj : Object) (w : World) :
    World * Object * result client_error unit :=
  match (_ ← rejectDryRun dryRun; gvk ← resolveGVK (ce_kinds e);
         v ← parse_version obj; ou ← parseObjectUID obj;
         match ou with
         | None => Err BadRequest
         | Some u => status ← convert (extractStatus obj); _ ← acquire e; Ok (gvk, v, u, status)
         end) with
  | Err ce => (w, obj, Err ce)
  | Ok (gvk, v, u, status) =>
      let '(w', res) := WriteStatus client_writer (ce_write e) (status_request gvk obj status v u) w in
      match res with
      | Err err => after_write_error e w' obj err gvk (o_Name obj)
      | Ok r => (w', set_ResourceVersion (FormatInt (res_ObjectVersion r)) obj, Ok tt)
      end
  end.
End client.

End PgClient.

(** * What the typed client guarantees

    Create and read back, optimistic updates, deletion with finalizers, the inert
    error paths, and the outcome of a write whose answer is lost. *)
From stdpp Require Import base strings list gmap.
From Stdlib Require Import ZArith Lia Ascii String.
Open Scope string_scope.
Import Convert Writer PgClient.

(** ** The write path below the client *)

Lemma current_filter_negb r : sql_holds (current_filter r) = negb (is_tombstone r).
Proof.
  unfold current_filter, is_tombstone, tombstone_filter, no_finalizers.
  destruct (row_deletion r), (jsonb_get (row_metadata r) "finalizers") as [j|]; try done;
    unfold jsonb_eq; simpl; by destruct (json_eqb j (JArr [])).
Qed.

(** A call of the procedure through an entry point, when the server answers. *)
Definition answered (env : TxEnv) (p : writeParams) (w : World) (x : World * result werror WriteResult) : Prop :=
  match pgctl_write env (to_jsonb p) (w_db w) with
  | Ok (db', o) => w_db x.1 = db' ∧ x.2 = Ok (result_of o)
  | Err code => w_db x.1 = w_db w ∧ x.2 = Err (mapStoredProcError code)
  end.

Lemma observed_answered wr gvk env p w :
  answered env p w (observed gvk (callStoredProc wr CallAnswered env p w)).
Proof.
  unfold answered. pose proof (callStoredProc_answered wr env p w) as H. cbv zeta in H.
  rewrite observed_db. unfold observed. cbn [snd].
  destruct (pgctl_write _ _ _) as [[db' o]|code]; [done|]. by destruct H as [-> ->].
Qed.

Lemma Write_answered e req w :
  we_call e = CallAnswered → answered (we_tx e) (params_of_write req) w (Write client_writer e req w).
Proof.
  intros He. unfold Write, client_writer, writeStoredProc. cbn [hooks]. rewrite He. apply observed_answered.
Qed.

Lemma WriteObject_answered e req w :
  we_call e = CallAnswered → owr_ExpectedVersion req ≠ 0%Z →
  answered (we_tx e) (params_of_object req) w (WriteObject client_writer e req w).
Proof.
  intros He Hv%Z.eqb_neq. unfold WriteObject. rewrite Hv. unfold client_writer, writeObjectStoredProc. cbn [hooks]. rewrite He.
  apply observed_answered.
Qed.

Lemma WriteStatus_answered e req w :
  we_call e = CallAnswered → swr_ExpectedVersion req ≠ 0%Z →
  answered (we_tx e) (params_of_status req) w (WriteStatus client_writer e req w).
Proof.
  intros He Hv%Z.eqb_neq. unfold WriteStatus. rewrite Hv. unfold client_writer, writeStatusStoredProc. cbn [hooks]. rewrite He.
  apply observed_answered.
Qed.

(** The procedure never answers with an ambiguous commit. *)
Lemma mapStoredProcError_plain code gvk name fault db :
  ∃ ce, mapWriteError fault db (mapStoredProcError code) gvk name = Err ce.
Proof. unfold mapStoredProcError. repeat case_match; simpl; eauto. Qed.

Lemma observed_rung gvk x : w_rung (observed gvk x).1 = w_rung x.1.
Proof. destruct x as [w res]. simpl. unfold observeResult. by destruct (w_metrics w). Qed.

Lemma callStoredProc_silent oc env p w : w_rung (callStoredProc client_writer oc env p w).1 = w_rung w.
Proof. unfold callStoredProc. by repeat (case_match; simplify_eq/=). Qed.

Section props.
Context `{Codec : OwnerRefCodec, Sch : Scheme, Uuid : UuidCodec}.

Lemma after_write_error_world e w obj err gvk name : (after_write_error e w obj err gvk name).1.1 = w.
Proof. unfold after_write_error. by repeat case_match. Qed.

Lemma after_plain_error e w obj code gvk name :
  ∃ ce, after_write_error e w obj (mapStoredProcError code) gvk name = (w, obj, Err ce).
Proof.
  unfold after_write_error.
  destruct (mapStoredProcError_plain code gvk name (ce_readback_fault e) (w_db w)) as [ce ->]. eauto.
Qed.
End props.

(** the client's writes ring no doorbell: whatever the arguments and whatever the
    environment does, Create, Update, Delete and status Update leave the list of rings
    as it was, so a watcher learns of them from its own timer. *)
Theorem client_never_rings `{OwnerRefCodec, Scheme, UuidCodec} (e : CallEnv) (dr : list string) (opts : DeleteOptions)
    (obj : Object) (w : World) :
  w_rung (Create e dr obj w).1.1 = w_rung w ∧ w_rung (Update e dr obj w).1.1 = w_rung w ∧
  w_rung (Delete e opts obj w).1 = w_rung w ∧ w_rung (Status_Update e dr obj w).1.1 = w_rung w.
Proof.
  assert (HW : ∀ x req, w_rung (Write client_writer (ce_write e) req x).1 = w_rung x).
  { intros x req. unfold Write, client_writer, writeStoredProc. cbn [hooks]. by rewrite observed_rung, callStoredProc_silent. }
  assert (HO : ∀ x req, w_rung (WriteObject client_writer (ce_write e) req x).1 = w_rung x).
  { intros x req. unfold WriteObject. case_match; [done|]. unfold client_writer, writeObjectStoredProc. cbn [hooks].
    by rewrite observed_rung, callStoredProc_silent. }
  assert (HS : ∀ x req, w_rung (WriteStatus client_writer (ce_write e) req x).1 = w_rung x).
  { intros x req. unfold WriteStatus. case_match; [done|]. unfold client_writer, writeStatusStoredProc. cbn [hooks].
    by rewrite observed_rung, callStoredProc_silent. }
  split_and!.
  - unfold Create. destruct (rejectDryRun dr); [|done]. case_match; [done|].
    destruct (resolveGVK _) as [gvk|]; [|done]. destruct (_ ≫= _) as [[spec status]|]; [|done].
    specialize (HW w (create_request gvk (set_Generation 1 obj) spec status)).
    destruct (Write _ _ _ _) as [w' [r|err]]; simpl in *; [done|]. by rewrite after_write_error_world.
  - unfold Update. destruct (_ ≫= _) as [[[[[gvk v] u] cur] newSpec]|]; [|done].
    match goal with |- context [WriteObject client_writer (ce_write e) ?req ?x] => specialize (HO x req) end.
    destruct (WriteObject _ _ _ _) as [w' [r|err]]; simpl in *; [done|]. by rewrite after_write_error_world.
  - unfold Delete. destruct (_ ≫= _) as [[gvk p]|]; [|done].
    match goal with |- context [Write client_writer (ce_write e) ?req ?x] => specialize (HW x req) end.
    destruct (Write _ _ _ _) as [w' [r|err]]; simpl in *; [done|]. by destruct (mapWriteError _ _ _ _ _).
  - unfold Status_Update. destruct (_ ≫= _) as [[[[gvk v] u] status]|]; [|done].
    specialize (HS w (status_request gvk obj status v u)).
    destruct (WriteStatus _ _ _ _) as [w' [r|err]]; simpl in *; [done|]. by rewrite after_write_error_world.
Qed.

(** failed requests are inert: when the server answers, a Create or status Update
    that returns an error leaves the database as it was, and an Update or Delete that
    does leaves what other sessions committed meanwhile and nothing of its own. *)
Theorem client_errors_inert `{OwnerRefCodec, Scheme, UuidCodec} (e : CallEnv) (dr : list string) (opts : DeleteOptions)
    (obj : Object) (w : World) :
  we_call (ce_write e) = CallAnswered →
  (∀ w' o' ce, Create e dr obj w = (w', o', Err ce) → w_db w' = w_db w) ∧
  (∀ w' o' ce, Status_Update e dr obj w = (w', o', Err ce) → w_db w' = w_db w) ∧
  (∀ w' o' ce, Update e dr obj w = (w', o', Err ce) → w_db w' = w_db w ∨ w_db w' = ce_between e (w_db w)) ∧
  (∀ w' ce, Delete e opts obj w = (w', Err ce) → w_db w' = w_db w ∨ w_db w' = ce_between e (w_db w)).
Proof.
  intros He. split_and!.
  - intros w' o' ce. unfold Create. destruct (rejectDryRun dr); [|by intros [= <- <- <-]].
    case_match; [by intros [= <- <- <-]|]. destruct (resolveGVK _) as [gvk|]; [|by intros [= <- <- <-]].
    destruct (_ ≫= _) as [[spec status]|]; [|by intros [= <- <- <-]].
    pose proof (Write_answered (ce_write e) (create_request gvk (set_Generation 1 obj) spec status) w He) as Ha.
    destruct (Write _ _ _ _) as [w1 res]. unfold answered in Ha. cbn [fst snd] in Ha.
    destruct (pgctl_write _ _ _) as [[db' o]|code]; destruct Ha as [Hdb ->]; [done|].
    match goal with |- after_write_error ?a ?b ?c _ ?d ?f = _ → _ =>
      destruct (after_plain_error a b c code d f) as [ce' ->] end. by intros [= <- <- <-].
  - intros w' o' ce. unfold Status_Update.
    destruct (_ ≫= _) as [[[[gvk v] u] status]|]; [|by intros [= <- <- <-]].
    destruct (decide (v = 0%Z)) as [->|Hv].
    { intros Hx. pose proof (f_equal (fun x => x.1.1) Hx) as Hw. simpl in Hw. by subst. }
    pose proof (WriteStatus_answered (ce_write e) (status_request gvk obj status v u) w He Hv) as Ha.
    destruct (WriteStatus _ _ _ _) as [w1 res]. unfold answered in Ha. cbn [fst snd] in Ha.
    destruct (pgctl_write _ _ _) as [[db' o]|code]; destruct Ha as [Hdb ->]; [done|].
    match goal with |- after_write_error ?a ?b ?c _ ?d ?f = _ → _ =>
      destruct (after_plain_error a b c code d f) as [ce' ->] end. by intros [= <- <- <-].
  - intros w' o' ce. unfold Update.
    destruct (_ ≫= _) as [[[[[gvk v] u] cur] newSpec]|]; [|intros [= <- <- <-]; by left].
    destruct (decide (v = 0%Z)) as [->|Hv].
    { intros Hx. pose proof (f_equal (fun x => x.1.1) Hx) as Hw. simpl in Hw. subst. by right. }
    match goal with |- context [WriteObject client_writer (ce_write e) ?req ?x] =>
      pose proof (WriteObject_answered (ce_write e) req x He Hv) as Ha end.
    destruct (WriteObject _ _ _ _) as [w1 res]. unfold answered in Ha. cbn [fst snd] in Ha.
    destruct (pgctl_write _ _ _) as [[db' o]|code]; destruct Ha as [Hdb ->]; [done|].
    match goal with |- after_write_error ?a ?b ?c _ ?d ?f = _ → _ =>
      destruct (after_plain_error a b c code d f) as [ce' ->] end. intros [= <- <- <-]. by right.
  - intros w' ce. unfold Delete. destruct (_ ≫= _) as [[gvk p]|]; [|intros [= <- <-]; by left].
    match goal with |- context [Write client_writer (ce_write e) ?req ?x] =>
      pose proof (Write_answered (ce_write e) req x He) as Ha end.
    destruct (Write _ _ _ _) as [w1 res]. unfold answered in Ha. cbn [fst snd] in Ha.
    destruct (pgctl_write _ _ _) as [[db' o]|code]; destruct Ha as [Hdb ->]; [done|].
    destruct (mapWriteError _ _ _ _ _); intros [= <- <-]; by right.
Qed.

(** ** Create and read back *)

(** A call that meets no failure and no other session. *)
Definition quiet_call (gvk : GroupVersionKind) (env : TxEnv) (now : time) : CallEnv :=
  mkCallEnv (Some [gvk]) true false id (mkWriteEnv env CallAnswered no_faults) false now.

Section crud.
Context `{Codec : OwnerRefCodec, Sch : Scheme, Uuid : UuidCodec}.

(** A field value that survives the store, read into a field holding [zero]. *)
Definition stable (zero field : option Value) : Prop :=
  match zero, field with
  | None, None => True
  | Some z, Some v =>
      ∃ j, value_Marshal v = Some j ∧
           (if json_eqb (canon j) (JObj []) then v = z else value_Unmarshal (canon j) z = Some v)
  | _, _ => False
  end.

Lemma stable_extract err zero field :
  stable zero field → ∃ j, extract_field err field = Ok j ∧
    ∀ err', inject_field err' (canon j) zero = Ok field.
Proof.
  unfold stable, extract_field, inject_field. destruct zero as [z|], field as [v|]; try done.
  - intros (j & -> & Hj). exists j. split; [done|]. intros err'.
    destruct (json_eqb (canon j) (JObj [])); [by rewrite Hj|]. by rewrite Hj.
  - intros _. exists (JObj []). done.
Qed.

(** The row a create leaves. *)
Lemma create_row_written env p existing spec status metadata :
  statusOnly p = false → expectedVersion p = 0%Z → p_spec p = Some spec → p_status p = Some status →
  p_metadata p = Some metadata → p_deletion_ts p = None →
  (∀ r, existing = Some r → is_tombstone r = true) →
  upsert_row env p existing =
    Ok (mkRow (env_uuid env) (env_txid env) 1 spec status metadata None (env_now env) (env_now env)).
Proof.
  intros Hs Hv Hsp Hst Hm Hd Ht. unfold upsert_row, create_row, insert_row, revive_row, not_null.
  rewrite Hs, Hv, Hsp, Hst, Hm, Hd. simpl. destruct existing as [r|]; [|done].
  simpl. by rewrite (Ht r eq_refl).
Qed.

Lemma FormatInt_1 : FormatInt 1 = "1". Proof. reflexivity. Qed.
End crud.

(** create, then read: a Create of a named object over nothing, or over a
    tombstone, succeeds with version 1, generation 1 and the server's UID; a Get into a
    fresh object of the kind returns the object created, with the server's creation
    time; a second Create is refused with AlreadyExists and changes nothing. *)
Theorem Create_Get `{OwnerRefCodec, Scheme, UuidCodec} (gvk : GroupVersionKind) (env : TxEnv) (now : time)
    (obj : Object) (fields : option Value * option Value) (w : World) :
  o_Name obj ≠ "" → o_DeletionTimestamp obj = None → uuid_ok (env_uuid env) →
  stable fields.1 (o_Spec obj) → stable fields.2 (o_Status obj) →
  (∀ r, kubernetes_resources (w_db w) !! obj_key gvk obj = Some r → is_tombstone r = true) →
  ∃ w' o', Create (quiet_call gvk env now) [] obj w = (w', o', Ok tt) ∧
    o_ResourceVersion o' = "1" ∧ o_UID o' = uidFromUUID (env_uuid env) ∧ Generation (o_Meta o') = 1%Z ∧
    o_Spec o' = o_Spec obj ∧ o_Status o' = o_Status obj ∧ Labels (o_Meta o') = Labels (o_Meta obj) ∧
    (∀ env' now', Get (quiet_call gvk env' now') (o_Namespace obj) (o_Name obj) (zero_object fields) (w_db w') =
       Ok (mkObject gvk (o_Name obj) "" (o_Namespace obj) (o_UID o') "1" (env_now env) None (o_Meta o')
             (o_Spec obj) (o_Status obj))) ∧
    (∀ env' now' w'' o'' res, Create (quiet_call gvk env' now') [] obj w' = (w'', o'', res) →
       res = Err (AlreadyExists (groupResource gvk) (o_Name obj)) ∧ w_db w'' = w_db w').
Proof.
  intros Hname Hdel Hu Hspec Hstatus Hrow.
  destruct (stable_extract MarshalSpec _ _ Hspec) as (js & Hjs & Hinj_s).
  destruct (stable_extract MarshalStatus _ _ Hstatus) as (jt & Hjt & Hinj_t).
  set (obj1 := set_Generation 1 obj).
  set (req := create_request gvk obj1 js jt).
  assert (Hn : String.eqb (o_Name obj) "" = false) by by apply String.eqb_neq.
  assert (Hcreate : ∀ env' now' w0, Create (quiet_call gvk env' now') [] obj w0 =
    let '(w', res) := Write client_writer (mkWriteEnv env' CallAnswered no_faults) req w0 in
    match res with
    | Err err => after_write_error (quiet_call gvk env' now') w' obj1 err gvk (o_Name obj1)
    | Ok r => (w', set_created (uidFromUUID (res_UID r)) (FormatInt (res_ObjectVersion r)) now' gvk obj1, Ok tt)
    end).
  { intros env' now' w0. unfold Create. cbn [rejectDryRun]. rewrite Hn. cbn [andb].
    unfold resolveGVK. cbn [ce_kinds quiet_call]. unfold extractSpecStatus. fold obj1.
    change (o_Spec obj1) with (o_Spec obj). change (o_Status obj1) with (o_Status obj).
    rewrite Hjs. cbn [mbind result_bind]. rewrite Hjt. reflexivity. }
  set (k := obj_key gvk obj) in *.
  assert (∃ md, md = canon (marshal_metadata (o_Meta obj1)) ∧ unmarshal_metadata md = Some (o_Meta obj1))
    as (md & Hmd & Hum) by (eexists; split; [done|]; apply unmarshal_canon_marshal; by_decide).
  set (row := mkRow (env_uuid env) (env_txid env) 1 (canon js) (canon jt) md None (env_now env) (env_now env)).
  assert (Hup : upsert_row env (to_jsonb (params_of_write req)) (kubernetes_resources (w_db w) !! k) = Ok row)
    by (subst row md; by apply create_row_written).
  pose proof (Write_answered (mkWriteEnv env CallAnswered no_faults) req w eq_refl) as Ha.
  unfold answered, pgctl_write in Ha. cbn [we_tx] in Ha.
  change (p_key (to_jsonb (params_of_write req))) with k in Ha.
  change (expectedVersion (to_jsonb (params_of_write req))) with 0%Z in Ha.
  rewrite andb_false_r, Hup in Ha. cbn [mbind result_bind] in Ha.
  destruct (Write client_writer (mkWriteEnv env CallAnswered no_faults) req w) as [w' res] eqn:Hw.
  cbn [fst snd] in Ha. destruct Ha as [Hdb ->].
  eexists w', _. split; [rewrite Hcreate, Hw; reflexivity|].
  split_and!; try done.
  - intros env' now'. unfold Get. cbn [quiet_call ce_kinds resolveGVK mbind result_bind acquire ce_acquire ce_read_fault].
    change (gvkToString gvk, o_Namespace obj, o_Name obj) with k. rewrite Hdb. simpl.
    rewrite lookup_insert_eq. unfold isFullyDeleted. simpl.
    unfold populateObject, injectSpecStatus, populateObjectMeta. simpl.
    rewrite Hum, Hinj_s. cbn [mbind result_bind]. rewrite Hinj_t. simpl. by rewrite uuid_canonical.
  - intros env' now' w'' o'' res. rewrite Hcreate.
    pose proof (Write_answered (mkWriteEnv env' CallAnswered no_faults) req w' eq_refl) as Ha.
    destruct (Write _ _ req w') as [w1 res1]. unfold answered, pgctl_write in Ha. cbn [we_tx] in Ha.
    change (p_key (to_jsonb (params_of_write req))) with k in Ha.
    change (expectedVersion (to_jsonb (params_of_write req))) with 0%Z in Ha.
    rewrite andb_false_r in Ha. rewrite Hdb in Ha. cbn [set_row kubernetes_resources] in Ha. rewrite lookup_insert_eq in Ha.
    cbn in Ha. destruct Ha as [Hdb1 ->].
    cbn. intros [= <- <- <-]. by rewrite Hdb1, Hdb.
Qed.

(** ** Witness data *)

Definition demo_gvk : GroupVersionKind := mkGVK "seaplane.io" "v1alpha1" "Cluster".
Definition demo_object : Object :=
  mkObject (mkGVK "" "" "") "c1" "" "account-1" "" "" 0 None (mkMeta {[ "app" := "x" ]} ∅ [] ["seaplane.io/cleanup"] 0)
    (Some (JObj [("size", JNum 3)])) (Some JNull).
Definition demo_env : TxEnv := mkTxEnv 50 3000 99.
Definition empty_world : World := mkWorld (mkDb ∅ ∅) [] None.

Lemma Create_Get_witness :
  ∃ w' o', Create (quiet_call demo_gvk demo_env 7) [] demo_object empty_world = (w', o', Ok tt) ∧
    o_ResourceVersion o' = "1" ∧ Generation (o_Meta o') = 1%Z ∧ o_UID o' = "00000000-0000-0000-0000-000000000063".
Proof.
  destruct (Create_Get demo_gvk demo_env 7 demo_object (Some JNull, Some JNull) empty_world)
    as (w' & o' & H1 & H2 & H3 & H4 & _).
  - discriminate.
  - reflexivity.
  - by_decide.
  - exists (JObj [("size", JNum 3)]). split; reflexivity.
  - exists JNull. split; reflexivity.
  - intros r Hr. simpl in Hr. discriminate Hr.
  - exists w', o'. split_and!; [exact H1|exact H2|exact H4|exact H3].
Defined.

Lemma client_errors_inert_witness :
  let e := quiet_call demo_gvk demo_env 7 in
  ∃ w' o' ce, Create e ["All"] demo_object empty_world = (w', o', Err ce) ∧ w_db w' = w_db empty_world.
Proof.
  destruct (client_errors_inert (quiet_call demo_gvk demo_env 7) ["All"] (mkDeleteOptions [] false false false)
    demo_object empty_world eq_refl) as [Hc _].
  exists empty_world, demo_object, DryRunNotSupported. split; [reflexivity|].
  apply (Hc empty_world demo_object DryRunNotSupported). reflexivity.
Defined.

(** ** Update *)

Lemma upsert_object_written env p r0 r :
  statusOnly p = false → expectedVersion p ≠ 0%Z → upsert_row env p (Some r0) = Ok r →
  matches_expected p r0 = true ∧ p_spec p = Some (row_spec r) ∧ p_metadata p = Some (row_metadata r) ∧
  row_status r = sql_coalesce (p_status p) (row_status r0) ∧ row_deletion r = p_deletion_ts p ∧
  row_uid r = row_uid r0 ∧ row_version r = (row_version r0 + 1)%Z ∧ row_created r = row_created r0.
Proof.
  intros Hs Hv%Z.eqb_neq. unfold upsert_row, update_object, bump_version, not_null. rewrite Hs, Hv.
  destruct (matches_expected p r0); [|done]. intros H.
  repeat (case_match; simplify_eq/=; try done).
Qed.

Lemma set_row_id db k r : kubernetes_resources db !! k = Some r → set_row db k r = db.
Proof. intros Hk. unfold set_row. rewrite insert_id by done. by destruct db. Qed.

Lemma jsonb_eq_some x y : sql_holds (jsonb_eq (Some x) (Some y)) = true → x = y.
Proof. unfold jsonb_eq. simpl. intros H. apply json_eqb_eq. by destruct (json_eqb x y). Qed.

Lemma time_same a b : sql_holds (sql_not_distinct Z.eqb a b) = true → a = b.
Proof.
  destruct a as [x|], b as [y|]; simpl; try done. destruct (Z.eqb_spec x y) as [->|]; [done|]. done.
Qed.

(** What a spec-and-metadata write through the procedure finds and leaves. *)
Lemma object_write_ok env req spec metadata db db' o :
  owr_Spec req = Some spec → owr_Metadata req = Some metadata → owr_ExpectedVersion req ≠ 0%Z →
  pgctl_write env (to_jsonb (params_of_object req)) db = Ok (db', o) →
  let k := (owr_GVK req, owr_Namespace req, owr_Name req) in
  ∃ r0 r, kubernetes_resources db !! k = Some r0 ∧ row_version r0 = owr_ExpectedVersion req ∧
    (∀ u, owr_ExpectedUID req = Some u → row_uid r0 = u) ∧ db' = set_row db k r ∧
    row_spec r = canon spec ∧ row_metadata r = canon metadata ∧ row_status r = row_status r0 ∧
    row_uid r = row_uid r0 ∧ row_created r = row_created r0 ∧ row_deletion r = owr_DeletionTimestamp req ∧
    (r = r0 ∨ row_version r = (owr_ExpectedVersion req + 1)%Z) ∧ out_version o = row_version r.
Proof.
  intros Hs Hm Hv Hw k. set (p := to_jsonb (params_of_object req)) in *.
  assert (Hps : p_spec p = Some (canon spec)) by (unfold p; simpl; by rewrite Hs).
  assert (Hpm : p_metadata p = Some (canon metadata)) by (unfold p; simpl; by rewrite Hm).
  change k with (p_key p). change (owr_ExpectedVersion req) with (expectedVersion p) in *.
  destruct (pgctl_write_ok _ _ _ _ _ Hw) as [(r0 & Hk & Hme & Hc & _ & _ & -> & ->)|(r & Hup & -> & ->)].
  - apply matches_expected_spec in Hme as [Hrv Hru].
    rewrite content_equal_object, Hps, Hpm in Hc by done. split_bool.
    exists r0, r0. rewrite set_row_id by done. split_and!; try done; [by apply jsonb_eq_some|by apply jsonb_eq_some|by apply time_same|by left].
  - destruct (upsert_row_update _ _ _ _ Hv Hup) as (r0 & Hk & _). rewrite Hk in Hup.
    destruct (upsert_object_written env p r0 r eq_refl Hv Hup) as (Hme & H1 & H2 & H3 & H4 & H5 & H6 & H7).
    apply matches_expected_spec in Hme as [Hrv Hru].
    exists r0, r. rewrite Hps in H1. rewrite Hpm in H2. split_and!; try done; [congruence|congruence|].
    right. by rewrite H6, Hrv.
Qed.

(** C26: Update is a compare-and-swap that leaves status alone: when it returns nil, the
    row it found (whatever other sessions did since its read) carried the version and
    the UID of the caller's object; it now holds the caller's spec and metadata, the
    same status, UID and creation time, and one version more, or is untouched when
    nothing differed; no other object changed. The object carries the row's version,
    and its generation is one above the stored one exactly when the spec differs from
    the row read. *)
Theorem Update_cas `{OwnerRefCodec, Scheme, UuidCodec} (e : CallEnv) (dr : list string) (obj o' : Object) (w w' : World) :
  we_call (ce_write e) = CallAnswered → Update e dr obj w = (w', o', Ok tt) →
  ∃ gvk v u newSpec cur r0 r,
    update_prepare e dr obj = Ok (gvk, v, u) ∧ v ≠ 0%Z ∧ extractSpec obj = Ok newSpec ∧
    update_current e gvk u obj (w_db w) = Ok cur ∧
    kubernetes_resources (ce_between e (w_db w)) !! obj_key gvk obj = Some r0 ∧
    row_version r0 = v ∧ ((0 < v)%Z → u = Some (row_uid r0)) ∧
    w_db w' = set_row (ce_between e (w_db w)) (obj_key gvk obj) r ∧
    row_spec r = canon newSpec ∧ row_metadata r = canon (marshal_metadata (o_Meta o')) ∧
    row_status r = row_status r0 ∧ row_uid r = row_uid r0 ∧ row_created r = row_created r0 ∧
    row_deletion r = DeletionTimestamp cur ∧
    (r = r0 ∨ row_version r = (v + 1)%Z) ∧ o_ResourceVersion o' = FormatInt (row_version r) ∧
    o_Meta o' = o_Meta (if JSONEqual (Some (Spec cur)) (Some newSpec) then obj
                        else set_Generation (wrap_i64 (currentGeneration (Metadata cur) + 1)) obj).
Proof.
  intros He. unfold Update.
  destruct (update_prepare e dr obj) as [[[gvk v] u]|] eqn:Hp; [|done]. cbn [mbind result_bind].
  destruct (update_current e gvk u obj (w_db w)) as [cur|] eqn:Hcur; [|done]. cbn [mbind result_bind].
  destruct (extractSpec obj) as [newSpec|] eqn:Hspec; [|done]. cbn [convert mbind result_bind].
  set (obj' := if JSONEqual _ _ then _ else _).
  assert (Hkey : obj_key gvk obj' = obj_key gvk obj) by (unfold obj'; by case_match).
  set (req := update_request _ _ _ _ _ _).
  destruct (decide (v = 0%Z)) as [->|Hv]; [done|].
  pose proof (WriteObject_answered (ce_write e) req (set_db w (ce_between e (w_db w))) He Hv) as Ha.
  destruct (WriteObject _ _ _ _) as [w1 res]. unfold answered in Ha. cbn [fst snd w_db set_db] in Ha.
  destruct (pgctl_write _ _ _) as [[db1 o]|code] eqn:Hpg; destruct Ha as [Hdb ->].
  2:{ match goal with |- after_write_error ?a ?b ?c _ ?d ?f = _ → _ =>
        destruct (after_plain_error a b c code d f) as [ce' ->] end. done. }
  intros [= <- <-].
  destruct (object_write_ok _ req newSpec (extractMetadata obj') _ _ _ eq_refl eq_refl Hv Hpg)
    as (r0 & r & Hk & Hver & Huid & -> & Hrest).
  change (owr_GVK req, owr_Namespace req, owr_Name req) with (obj_key gvk obj') in *. rewrite Hkey in *.
  change (owr_ExpectedVersion req) with v in *. change (owr_ExpectedUID req) with u in *.
  change (owr_DeletionTimestamp req) with (DeletionTimestamp cur) in *.
  destruct Hrest as (Q1 & Q2 & Q3 & Q4 & Q5 & Q6 & Q7 & Q8).
  exists gvk, v, u, newSpec, cur, r0, r. split_and!; try done.
  - intros Hpos. unfold update_prepare in Hp. destruct u as [x|]; [by rewrite (Huid x eq_refl)|].
    exfalso. revert Hp. intros (_ & _ & (g & _ & (v' & _ & (u' & _ & Hx)%result_bind_ok)%result_bind_ok)%result_bind_ok)%result_bind_ok.
    destruct (_ && _) eqn:Hb; [done|]. apply result_bind_ok in Hx as (_ & _ & [= -> -> ->]).
    rewrite (proj2 (Z.ltb_lt 0 v)), bool_decide_eq_true_2 in Hb by done. done.
  - simpl. by rewrite <- Q8.
Qed.

Definition stored_row : Row :=
  mkRow 77 40 3 (JObj [("size", JNum 2)]) (JObj []) (JObj [("generation", JNum 1)]) None 1000 2000.
Definition stored_key : key := ("seaplane.io/v1alpha1/Cluster", "account-1", "c1").
Definition stored_world : World := mkWorld (mkDb {[ stored_key := stored_row ]} ∅) [] None.
Definition edited_object : Object :=
  mkObject demo_gvk "c1" "" "account-1" (uidFromUUID 77) "o3;40" 1000 None (mkMeta ∅ ∅ [] [] 1)
    (Some (JObj [("size", JNum 3)])) (Some JNull).

Definition update_result : World * Object * result client_error unit :=
  Update (quiet_call demo_gvk demo_env 7) [] edited_object stored_world.

Lemma update_result_ok : update_result = (update_result.1.1, update_result.1.2, Ok tt).
Proof.
  assert (H : update_result.2 = Ok tt) by (vm_compute; reflexivity).
  destruct update_result as [[w' o'] res]. cbn [snd fst] in *. by rewrite H.
Qed.

Lemma Update_cas_witness :
  o_ResourceVersion update_result.1.2 = "4" ∧ Generation (o_Meta update_result.1.2) = 2%Z ∧
  ∃ gvk v u newSpec cur r0 r,
    update_prepare (quiet_call demo_gvk demo_env 7) [] edited_object = Ok (gvk, v, u) ∧ v ≠ 0%Z ∧
    extractSpec edited_object = Ok newSpec ∧
    update_current (quiet_call demo_gvk demo_env 7) gvk u edited_object (w_db stored_world) = Ok cur ∧
    kubernetes_resources (w_db stored_world) !! obj_key gvk edited_object = Some r0 ∧
    row_version r0 = v ∧ w_db update_result.1.1 = set_row (w_db stored_world) (obj_key gvk edited_object) r ∧
    row_spec r = canon newSpec.
Proof.
  split; [vm_compute; reflexivity|]. split; [vm_compute; reflexivity|].
  destruct (Update_cas (quiet_call demo_gvk demo_env 7) [] edited_object update_result.1.2 stored_world
    update_result.1.1 eq_refl update_result_ok)
    as (gvk & v & u & newSpec & cur & r0 & r & H1 & H2 & H3 & H4 & H5 & H6 & _ & H7 & H8 & _).
  exists gvk, v, u, newSpec, cur, r0, r.
  exact (conj H1 (conj H2 (conj H3 (conj H4 (conj H5 (conj H6 (conj H7 H8))))))).
Defined.

(** ** Delete *)

(** The row a delete leaves, whether it is written or already as it should be. *)
Lemma delete_write env req k r0 db :
  (wr_GVK req, wr_Namespace req, wr_Name req) = k →
  wr_Spec req = Some (row_spec r0) → wr_Status req = Some (row_status r0) → wr_Metadata req = Some (row_metadata r0) →
  wr_ExpectedVersion req = row_version r0 → wr_ExpectedUID req = Some (row_uid r0) → wr_ForceWrite req = false →
  kubernetes_resources db !! k = Some r0 → (0 < row_version r0 < max_int64)%Z →
  canon (row_spec r0) = row_spec r0 → canon (row_status r0) = row_status r0 → canon (row_metadata r0) = row_metadata r0 →
  ∃ r o, pgctl_write env (to_jsonb (params_of_write req)) db = Ok (set_row db k r, o) ∧
    row_deletion r = wr_DeletionTimestamp req ∧ row_spec r = row_spec r0 ∧ row_status r = row_status r0 ∧
    row_metadata r = row_metadata r0 ∧ row_uid r = row_uid r0 ∧
    (row_deletion r0 = wr_DeletionTimestamp req → r = r0).
Proof.
  intros Hk Hs Ht Hm Hv Hu Hf Hr Hver Cs Ct Cm. set (p := to_jsonb (params_of_write req)).
  assert (Hps : p_spec p = Some (row_spec r0)) by (unfold p; simpl; rewrite Hs; simpl; by rewrite Cs).
  assert (Hpt : p_status p = Some (row_status r0)) by (unfold p; simpl; rewrite Ht; simpl; by rewrite Ct).
  assert (Hpm : p_metadata p = Some (row_metadata r0)) by (unfold p; simpl; rewrite Hm; simpl; by rewrite Cm).
  assert (Hpk : p_key p = k) by done.
  assert (Hme : matches_expected p r0 = true).
  { apply matches_expected_spec. unfold p. simpl. rewrite Hv, Hu. split; [done|by intros u [= ->]]. }
  assert (Hforce : forceWrite p = false) by done.
  assert (Hev : expectedVersion p = row_version r0) by done.
  unfold pgctl_write. rewrite Hpk, Hr, Hforce, Hev, (proj2 (Z.ltb_lt 0 _)) by lia. simpl.
  rewrite stale_matches, Hme. cbn [negb].
  destruct (content_equal p r0) eqn:Hc.
  - apply (content_equal_iff p r0 _ _ _ eq_refl Hps Hpt Hpm) in Hc as (_ & _ & _ & Hd).
    exists r0. eexists. rewrite set_row_id by done. split_and!; try done.
  - unfold upsert_row, update_object, bump_version. change (statusOnly p) with false.
    rewrite Hev, (proj2 (Z.eqb_neq _ 0)) by lia. rewrite Hme, (proj2 (Z.ltb_lt _ max_int64)) by lia.
    rewrite Hps, Hpt, Hpm. cbn. eexists _, _. split; [reflexivity|]. split_and!; try done.
    intros Hd. exfalso. assert (content_equal p r0 = true); [|congruence].
    apply (content_equal_iff p r0 _ _ _ eq_refl Hps Hpt Hpm). by split_and!.
Qed.

(** deletion respects finalizers: deleting a stored object (without pinning a
    version) records a deletion timestamp, the first one if there already is one, and
    touches neither spec, status, metadata nor identity. Without finalizers the
    object is then gone for Get; with finalizers it is still there, and deleting it
    again changes nothing at all. *)
Theorem Delete_finalizers `{OwnerRefCodec, Scheme, UuidCodec} (gvk : GroupVersionKind) (env : TxEnv) (now : time)
    (obj : Object) (r0 : Row) (w : World) :
  o_ResourceVersion obj = "" → o_UID obj = "" →
  kubernetes_resources (w_db w) !! obj_key gvk obj = Some r0 → is_tombstone r0 = false →
  meta_consistent (row_metadata r0) → (0 < row_version r0 < max_int64)%Z →
  canon (row_spec r0) = row_spec r0 → canon (row_status r0) = row_status r0 → canon (row_metadata r0) = row_metadata r0 →
  ∃ w' r, Delete (quiet_call gvk env now) (mkDeleteOptions [] false false false) obj w = (w', Ok tt) ∧
    w_db w' = set_row (w_db w) (obj_key gvk obj) r ∧
    row_deletion r = Some (default now (row_deletion r0)) ∧ row_spec r = row_spec r0 ∧ row_status r = row_status r0 ∧
    row_metadata r = row_metadata r0 ∧ row_uid r = row_uid r0 ∧ (row_deletion r0 ≠ None → w_db w' = w_db w) ∧
    (∀ env' now' dst, Get (quiet_call gvk env' now') (o_Namespace obj) (o_Name obj) dst (w_db w') =
       if sql_holds (no_finalizers (row_metadata r0)) then Err (NotFound (groupResource gvk) (o_Name obj))
       else convert (populateObject uuid_String dst (to_resource (obj_key gvk obj) r) gvk)).
Proof.
  intros Hrv Huid Hr Ht Hmeta Hver Cs Ct Cm. set (k := obj_key gvk obj) in *.
  set (plan := mkPlan (row_spec r0) (row_status r0) (row_metadata r0) (row_deletion r0) (row_version r0) (Some (row_uid r0))).
  assert (Hplan : plan_delete (quiet_call gvk env now) gvk obj (w_db w) = Ok plan).
  { assert (Hcur : update_current (quiet_call gvk env now) gvk None obj (w_db w) = Ok (to_resource k r0)).
    { unfold update_current, readCurrentResource. cbn [ce_read_fault quiet_call]. fold k.
      by rewrite Hr, current_filter_negb, Ht. }
    unfold plan_delete, parse_version, parseObjectUID, acquire. rewrite Hrv, Huid.
    cbn -[update_current]. by rewrite Hcur. }
  set (req := delete_request gvk obj now plan).
  assert (Hdel : wr_DeletionTimestamp req = Some (default now (row_deletion r0))) by (simpl; by destruct (row_deletion r0)).
  destruct (delete_write env req k r0 (w_db w)) as (r & o & Hw & D1 & D2 & D3 & D4 & D5 & D6); try done.
  pose proof (Write_answered (mkWriteEnv env CallAnswered no_faults) req (set_db w (w_db w)) eq_refl) as Ha.
  unfold Delete. cbn [rejectUnsupportedDeleteOpts rejectDryRun mbind result_bind resolveGVK ce_kinds quiet_call
    do_DryRun do_PropagationPolicy do_Preconditions do_GracePeriodSeconds].
  change (mkCallEnv _ _ _ _ _ _ _) with (quiet_call gvk env now). rewrite Hplan.
  cbn [mbind result_bind quiet_call ce_between ce_write ce_now id]. fold req.
  destruct (Write _ _ req _) as [w' res]. unfold answered in Ha. cbn [fst snd we_tx w_db set_db] in Ha.
  rewrite Hw in Ha. destruct Ha as [Hdb ->].
  exists w', r. rewrite <- Hdel. split_and!; try done.
  - intros Hd. rewrite Hdb, D6; [by apply set_row_id|]. rewrite Hdel. by destruct (row_deletion r0).
  - intros env' now' dst. unfold Get. cbn [quiet_call ce_kinds resolveGVK mbind result_bind acquire ce_acquire ce_read_fault].
    change (gvkToString gvk, o_Namespace obj, o_Name obj) with k. rewrite Hdb. cbn [set_row kubernetes_resources].
    rewrite lookup_insert_eq, consistent_fully_deleted by by rewrite D4.
    unfold is_tombstone, tombstone_filter. rewrite D1, D4, Hdel, sql_holds_and. cbn.
    by destruct (sql_holds (no_finalizers (row_metadata r0))).
Qed.

(** ** A write whose answer is lost *)

(** a lost answer is always reported as a conflict: when the connection fails after
    the procedure's transaction was committed, Create returns Conflict to its caller
    although the object is now stored and a Get finds it: the read-back looks for
    transaction id 0, which no row carries. *)
Theorem lost_answer_is_conflict `{OwnerRefCodec, Scheme, UuidCodec} (gvk : GroupVersionKind) (env : TxEnv) (now : time)
    (obj : Object) (spec status : json) (w : World) :
  o_Name obj ≠ "" → (0 < env_txid env)%Z → extractSpecStatus obj = Ok (spec, status) →
  kubernetes_resources (w_db w) !! obj_key gvk obj = None →
  let e := mkCallEnv (Some [gvk]) true false id (mkWriteEnv env (CallLost true) no_faults) false now in
  ∃ w' o' r, Create e [] obj w = (w', o', Err (ConflictErr (groupResource gvk) (o_Name obj))) ∧
    kubernetes_resources (w_db w') !! obj_key gvk obj = Some r ∧ row_txid r = env_txid env ∧
    row_spec r = canon spec ∧ row_status r = canon status ∧ is_tombstone r = false.
Proof.
  intros Hname Htx Hss Hnone e. assert (Hn : String.eqb (o_Name obj) "" = false) by by apply String.eqb_neq.
  set (req := create_request gvk (set_Generation 1 obj) spec status).
  set (md := canon (extractMetadata (set_Generation 1 obj))).
  set (row := mkRow (env_uuid env) (env_txid env) 1 (canon spec) (canon status) md None (env_now env) (env_now env)).
  assert (Hpg : pgctl_write env (to_jsonb (params_of_write req)) (w_db w) =
    Ok (set_row (w_db w) (obj_key gvk obj) row, mkOut (env_uuid env) 1 (env_txid env) true)).
  { unfold pgctl_write. change (p_key (to_jsonb (params_of_write req))) with (obj_key gvk obj).
    rewrite Hnone. simpl. done. }
  unfold e, Create. cbn [rejectDryRun]. rewrite Hn. cbn [andb resolveGVK ce_kinds].
  change (extractSpecStatus (set_Generation 1 obj)) with (extractSpecStatus obj). rewrite Hss.
  cbn [convert mbind result_bind acquire ce_acquire]. fold req.
  unfold Write, client_writer, writeStoredProc, callStoredProc, observed. cbn [hooks ce_write we_call we_tx]. rewrite Hpg.
  cbn [fst snd]. unfold after_write_error, mapWriteError. cbn [ce_readback_fault].
  unfold ReadBack. rewrite observeResult_db. cbn [w_db set_db set_row kubernetes_resources].
  change (p_gvk (params_of_write req), p_namespace (params_of_write req), p_name (params_of_write req)) with (obj_key gvk obj).
  rewrite lookup_insert_eq. cbn [row_txid row]. rewrite (proj2 (Z.eqb_neq (env_txid env) 0)) by lia.
  eexists _, _, row. split; [reflexivity|]. rewrite observeResult_db. cbn [w_db set_db set_row kubernetes_resources].
  rewrite lookup_insert_eq. done.
Qed.

Lemma lost_answer_is_conflict_witness :
  let e := mkCallEnv (Some [demo_gvk]) true false id (mkWriteEnv demo_env (CallLost true) no_faults) false 7 in
  ∃ w' o' r, Create e [] demo_object empty_world = (w', o', Err (ConflictErr (groupResource demo_gvk) "c1")) ∧
    kubernetes_resources (w_db w') !! obj_key demo_gvk demo_object = Some r ∧ row_txid r = 50%Z ∧
    row_spec r = JObj [("size", JNum 3)] ∧ row_status r = JNull ∧ is_tombstone r = false.
Proof.
  exact (lost_answer_is_conflict demo_gvk demo_env 7 demo_object (JObj [("size", JNum 3)]) JNull empty_world
    ltac:(discriminate) eq_refl eq_refl eq_refl).
Defined.

Definition deletable_object : Object :=
  mkObject demo_gvk "c1" "" "account-1" "" "" 1000 None (mkMeta ∅ ∅ [] [] 1) None None.

Lemma Delete_finalizers_witness :
  ∃ w' r, Delete (quiet_call demo_gvk demo_env 7) (mkDeleteOptions [] false false false) deletable_object stored_world = (w', Ok tt) ∧
    w_db w' = set_row (w_db stored_world) (obj_key demo_gvk deletable_object) r ∧ row_deletion r = Some 7%Z ∧
    row_spec r = row_spec stored_row.
Proof.
  destruct (Delete_finalizers demo_gvk demo_env 7 deletable_object stored_row stored_world eq_refl eq_refl eq_refl eq_refl
    ltac:(vm_compute; reflexivity) ltac:(by_decide) eq_refl eq_refl eq_refl) as (w' & r & H1 & H2 & H3 & H4 & _).
  exists w', r. exact (conj H1 (conj H2 (conj H3 H4))).
Defined.
