(* ===== verification/ClientList.v ===== *)
(** * Listing through the typed client (seaplane-db/pgclient.go List, buildListFilter)

    List options become a filter of SQL clauses; pages are chained by continue
    tokens that hold an offset. *)
From S2P Require Import Prelude GoStrings ResourceVersion Json Db Writer Sql Selectors Reader Convert Object Uuid PgClient.
From stdpp Require Import base strings list gmap.
From Stdlib Require Import ZArith Lia Ascii String.
Open Scope string_scope.
Import Writer Reader Convert Selectors PgClient.

Module ClientList.

Record ListOptions := mkListOptions {
  lo_Namespace : string;
  lo_FieldSelector : option (list FieldRequirement);
  lo_LabelSelector : option LabelSelector;
  lo_Limit : Z;
  lo_Continue : string
}.

(** The text form of a continue token: base64 of JSON text. The client relies on
    tokens it encoded being decoded to the same document, and on their not being
    empty. *)
Class TokenCodec := {
  token_encode : json → string;
  token_decode : string → option json;
  token_roundtrip : ∀ n, (0 ≤ n ≤ max_int64)%Z →
    token_decode (token_encode (JObj [("offset", JNum n)])) = Some (JObj [("offset", JNum n)]);
  token_nonempty : ∀ j, String.eqb (token_encode j) "" = false
}.

Section list.
Context `{Codec : OwnerRefCodec, Sch : Scheme, Uuid : UuidCodec, Tok : TokenCodec}.
Context (hashtext : string → Z) (jsonb_out : json → string).

(** [json.Unmarshal(data, &continueToken)] *)
Definition unmarshal_token (j : json) : option Z :=
  match j with
  | JNull => Some 0%Z
  | JObj l => field_or decode_int64 0%Z (go_field "offset" l)
  | _ => None
  end.

Definition decodeContinue (token : string) : result client_error Z :=
  if String.eqb token "" then Ok 0%Z
  else match token_decode token ≫= unmarshal_token with
       | Some offset => Ok offset
       | None => Err InvalidContinue
       end.

Definition encodeContinue (offset : Z) : string := token_encode (JObj [("offset", JNum offset)]).

Definition selector {A} (r : result sel_error A) : result client_error A :=
  match r with Ok a => Ok a | Err e => Err (SelectorFailed e) end.

Definition buildListFilter (o : ListOptions) : result client_error (option ListFilter) :=
  let '(nsClauses, nsArgs) := if String.eqb (lo_Namespace o) "" then ([], [])
                              else ([CNamespace 2], [ArgText (lo_Namespace o)]) in
  let paramIdx := (2 + List.length nsArgs)%nat in
  '(fClauses, fArgs) ← selector (buildFieldSelectorFilter (lo_FieldSelector o) paramIdx);
  '(lClauses, lArgs) ← selector (buildLabelSelectorFilter (lo_LabelSelector o) (paramIdx + List.length fArgs));
  let clauses := (nsClauses ++ fClauses ++ lClauses)%list in
  let args := (nsArgs ++ fArgs ++ lArgs)%list in
  offset ← (if (0 <? lo_Limit o)%Z then decodeContinue (lo_Continue o) else Ok 0%Z);
  let limit := if (0 <? lo_Limit o)%Z then lo_Limit o else 0%Z in
  if (limit =? 0)%Z && bool_decide (clauses = []) then Ok None
  else Ok (Some (mkListFilter clauses args limit offset)).

Record ObjectList := mkObjectList {
  Items : list Object;
  li_ResourceVersion : string;
  li_Continue : string
}.

Definition next_token (o : ListOptions) (n : nat) : string :=
  if (0 <? lo_Limit o)%Z && (Z.of_nat n =? lo_Limit o)%Z then
    let offset := match decodeContinue (lo_Continue o) with Ok x => x | Err _ => 0%Z end in
    encodeContinue (wrap_i64 (offset + lo_Limit o))
  else "".

Fixpoint convert_items (rs : list Resource) : result client_error (list Object) :=
  match rs with
  | [] => Ok []
  | r :: rest => o ← convert (resourceToObject uuid_String r); os ← convert_items rest; Ok (o :: os)
  end.

(** [pgClient.List] (and [pgCache.List], the same code). *)
Definition List (e : CallEnv) (o : ListOptions) (snap : Snapshot) : result client_error ObjectList :=
  listGVK ← resolveGVK (ce_kinds e);
  let gvkStr := gvkToString (itemGVKFromListGVK listGVK) in
  _ ← acquire e;
  filter ← buildListFilter o;
  match Reader.List hashtext jsonb_out uuid_String (if ce_read_fault e then Some AtQuery else None) snap gvkStr filter with
  | Err _ => Err ReadFailed
  | Ok res =>
      items ← convert_items (Resources res);
      Ok (mkObjectList items (RV.to_string (ListResourceVersion res)) (next_token o (List.length (Resources res))))
  end.

(** Following the continue tokens to the end, with fuel for the pages. *)
Fixpoint all_pages (fuel : nat) (e : CallEnv) (o : ListOptions) (snap : Snapshot) : option (result client_error (list Object)) :=
  match fuel with
  | 0 => None
  | S n =>
      match List e o snap with
      | Err ce => Some (Err ce)
      | Ok l =>
          if String.eqb (li_Continue l) "" then Some (Ok (Items l))
          else match all_pages n e (mkListOptions (lo_Namespace o) (lo_FieldSelector o) (lo_LabelSelector o)
                                      (lo_Limit o) (li_Continue l)) snap with
               | Some (Ok rest) => Some (Ok (Items l ++ rest)%list)
               | r => r
               end
      end
  end.

(** ** Lemmas *)

Lemma list_suffix_args gvk f : ∃ suf, (list_suffix gvk (Some f)).2 = (ArgText gvk :: WhereArgs f ++ suf)%list.
Proof.
  unfold list_suffix. destruct (0 <? Limit f)%Z; [destruct (0 <? Offset f)%Z|]; simpl.
  - eexists. by rewrite <- app_assoc.
  - by eexists.
  - exists []. by rewrite app_nil_r.
Qed.

Lemma select_rows_ext p q db :
  (∀ k r, kubernetes_resources db !! k = Some r → p k r = q k r) → select_rows p db = select_rows q db.
Proof.
  intros Hpq. unfold select_rows. do 2 f_equal. apply map_filter_ext. intros k r Hk. simpl. by rewrite (Hpq k r Hk).
Qed.

(** What a list with a namespace and label requirements asks for. *)
Definition wanted (gvk ns : string) (reqs : list Requirement) (lbl : Row → gmap string string) (k : key) (r : Row) : bool :=
  String.eqb k.1.1 gvk && negb (is_tombstone r) && (String.eqb ns "" || String.eqb k.1.2 ns) &&
  forallb (req_matches (lbl r)) reqs.

Definition options (ns : string) (reqs : list Requirement) (limit : Z) (token : string) : ListOptions :=
  mkListOptions ns None (Some (Requirements reqs)) limit token.

Definition label_start (ns : string) : nat := if String.eqb ns "" then 2 else 3.

Lemma buildListFilter_ok ns reqs limit token offset cs args :
  (0 < limit)%Z → decodeContinue token = Ok offset →
  buildLabelSelectorFilter (Some (Requirements reqs)) (label_start ns) = Ok (cs, args) →
  buildListFilter (options ns reqs limit token) =
    Ok (Some (mkListFilter ((if String.eqb ns "" then [] else [CNamespace 2]) ++ cs)
                           ((if String.eqb ns "" then [] else [ArgText ns]) ++ args) limit offset)).
Proof.
  intros Hl Ht Hb. unfold buildListFilter, options. cbn [lo_Namespace lo_FieldSelector lo_LabelSelector lo_Limit lo_Continue].
  unfold label_start in Hb. rewrite (proj2 (Z.ltb_lt 0 limit)) by done. rewrite Ht.
  destruct (String.eqb ns ""); cbn [List.length plus buildFieldSelectorFilter selector mbind result_bind Nat.add app];
    rewrite Hb; cbn [selector mbind result_bind]; rewrite (proj2 (Z.eqb_neq limit 0)) by lia; done.
Qed.

Lemma list_where_wanted gvk ns reqs lbl cs args limit offset k r :
  buildLabelSelectorFilter (Some (Requirements reqs)) (label_start ns) = Ok (cs, args) →
  labels_rel r (lbl r) →
  list_where hashtext jsonb_out uuid_String gvk
    (Some (mkListFilter ((if String.eqb ns "" then [] else [CNamespace 2]) ++ cs)
                        ((if String.eqb ns "" then [] else [ArgText ns]) ++ args) limit offset)) k r
  = wanted gvk ns reqs lbl k r.
Proof.
  intros Hb Hr. unfold list_where, wanted. rewrite list_keeps_negb.
  destruct (list_suffix_args gvk (mkListFilter ((if String.eqb ns "" then [] else [CNamespace 2]) ++ cs)
    ((if String.eqb ns "" then [] else [ArgText ns]) ++ args) limit offset)) as [suf ->].
  cbn [WhereClauses WhereArgs]. rewrite <- !andb_assoc. do 2 f_equal. unfold passes. rewrite forallb_app.
  unfold label_start in Hb. destruct (String.eqb ns "") eqn:Hns; cbn [app orb].
  - rewrite <- (label_clauses_correct hashtext jsonb_out uuid_String reqs 2 [ArgText gvk] suf cs args k r (lbl r) Hr eq_refl);
      [done|by destruct reqs].
  - rewrite <- (label_clauses_correct hashtext jsonb_out uuid_String reqs 3 [ArgText gvk; ArgText ns] suf cs args k r (lbl r) Hr eq_refl);
      [|by destruct reqs]. cbn [forallb eval param_text param lookup list_lookup sql_eq app].
    rewrite andb_true_r. unfold passes. f_equal. by destruct (String.eqb k.1.2 ns).
Qed.

Lemma convert_items_app a b :
  convert_items (a ++ b) = (x ← convert_items a; y ← convert_items b; Ok (x ++ y)%list).
Proof.
  induction a as [|r a IH]; simpl; [by destruct (convert_items b)|].
  destruct (convert (resourceToObject uuid_String r)); simpl; [|done]. rewrite IH.
  destruct (convert_items a); simpl; [|done]. by destruct (convert_items b).
Qed.

Lemma convert_items_total (rows : list (key * Row)) :
  (∀ k r, (k, r) ∈ rows → ∃ o, resourceToObject uuid_String (to_resource k r) = Ok o) →
  ∃ os, convert_items (map (fun kr => to_resource kr.1 kr.2) rows) = Ok os.
Proof.
  induction rows as [|[k r] rows IH]; intros Hd; simpl; [eauto|].
  destruct (Hd k r) as [o ->]; [by left|]. simpl. destruct IH as [os ->]; [|simpl; eauto].
  intros k' r' Hin. apply Hd. by right.
Qed.

Lemma decode_encode offset : (0 ≤ offset ≤ max_int64)%Z → decodeContinue (encodeContinue offset) = Ok offset.
Proof.
  intros Ho. unfold decodeContinue, encodeContinue. rewrite token_nonempty, token_roundtrip by done. simpl.
  rewrite bool_decide_eq_true_2; [done|]. unfold in_int64, min_int64, max_int64 in *. lia.
Qed.

(** ** Pages *)

Section pages.
Context (e : CallEnv) (listGVK : GroupVersionKind) (snap : Snapshot) (ns : string) (reqs : list Requirement)
  (lbl : Row → gmap string string) (limit : Z) (cs : list clause) (args : list sqlarg).
Let gvk := gvkToString (itemGVKFromListGVK listGVK).
Let rows := select_rows (wanted gvk ns reqs lbl) (snap_db snap).
Hypothesis Hkinds : ce_kinds e = Some [listGVK].
Hypothesis Hacq : ce_acquire e = true.
Hypothesis Hread : ce_read_fault e = false.
Hypothesis Hlimit : (0 < limit)%Z.
Hypothesis Hsel : buildLabelSelectorFilter (Some (Requirements reqs)) (label_start ns) = Ok (cs, args).
Hypothesis Hlabels : ∀ k r, kubernetes_resources (snap_db snap) !! k = Some r → labels_rel r (lbl r).
Hypothesis Hdec : ∀ k r, kubernetes_resources (snap_db snap) !! k = Some r →
  ∃ o, resourceToObject uuid_String (to_resource k r) = Ok o.
Hypothesis Hsize : (Z.of_nat (List.length rows) + limit ≤ max_int64)%Z.

Lemma rows_total l : (∀ x, x ∈ l → x ∈ rows) →
  ∃ os, convert_items (map (fun kr => to_resource kr.1 kr.2) l) = Ok os.
Proof.
  intros Hl. apply convert_items_total. intros k r Hin%Hl. unfold rows in Hin.
  apply elem_of_select_rows in Hin as [Hk _]. eauto.
Qed.

Lemma List_page token offset :
  decodeContinue token = Ok (Z.of_nat offset) →
  let page := take (Z.to_nat limit) (drop offset rows) in
  ∃ items, convert_items (map (fun kr => to_resource kr.1 kr.2) page) = Ok items ∧
    List e (options ns reqs limit token) snap =
      Ok (mkObjectList items (RV.to_string (RV.mkRV 0 (list_watermark (snap_xmin snap))))
            (if (Z.of_nat (List.length page) =? limit)%Z then encodeContinue (wrap_i64 (Z.of_nat offset + limit)) else "")).
Proof.
  intros Ht page. destruct (rows_total page) as [items Hitems].
  { intros x Hx. unfold page in Hx. apply elem_of_take in Hx as (i & Hx & _).
    rewrite lookup_drop in Hx. by eapply list_elem_of_lookup_2. }
  exists items. split; [done|]. unfold List. rewrite Hkinds. cbn [resolveGVK mbind result_bind].
  unfold acquire. rewrite Hacq. cbn [mbind result_bind]. fold gvk.
  rewrite (buildListFilter_ok ns reqs limit token (Z.of_nat offset) cs args Hlimit Ht Hsel). cbn [mbind result_bind].
  rewrite Hread. unfold Reader.List. cbn [Resources ListResourceVersion].
  rewrite (select_rows_ext _ (wanted gvk ns reqs lbl))
    by (intros k r Hk; apply list_where_wanted; [exact Hsel|by eapply Hlabels]).
  fold rows. unfold list_page. cbn [Limit Offset]. rewrite (proj2 (Z.ltb_lt 0 limit)), Nat2Z.id by done.
  fold page. rewrite Hitems. cbn [mbind result_bind]. unfold next_token, options. cbn [lo_Limit lo_Continue].
  rewrite (proj2 (Z.ltb_lt 0 limit)), Ht, length_map by done. done.
Qed.

Lemma pages_cover fuel : ∀ token offset,
  decodeContinue token = Ok (Z.of_nat offset) → (offset ≤ List.length rows)%nat →
  (List.length rows - offset < fuel)%nat →
  ∃ items, convert_items (map (fun kr => to_resource kr.1 kr.2) (drop offset rows)) = Ok items ∧
    all_pages fuel e (options ns reqs limit token) snap = Some (Ok items).
Proof.
  induction fuel as [|fuel IH]; intros token offset Ht Hoff Hf; [lia|].
  destruct (List_page token offset Ht) as (items & Hitems & Hlist). cbn [all_pages]. rewrite Hlist.
  cbn [li_Continue Items]. set (page := take (Z.to_nat limit) (drop offset rows)) in *.
  assert (Hlen : List.length page = Nat.min (Z.to_nat limit) (List.length rows - offset)).
  { unfold page. by rewrite length_take, length_drop. }
  destruct (Z.eqb_spec (Z.of_nat (List.length page)) limit) as [Heq|Hne].
  - unfold encodeContinue at 1. rewrite token_nonempty.
    set (next := encodeContinue (wrap_i64 (Z.of_nat offset + limit))).
    assert (Hn : decodeContinue next = Ok (Z.of_nat (offset + Z.to_nat limit))).
    { unfold next. rewrite wrap_i64_id, decode_encode
        by (unfold in_int64, min_int64, max_int64 in *; lia). f_equal. lia. }
    destruct (IH next (offset + Z.to_nat limit)) as (rest & Hrest & Hall); [done|lia|lia|].
    change (mkListOptions _ _ _ _ _) with (options ns reqs limit next). rewrite Hall.
    exists (items ++ rest)%list. split; [|done].
    rewrite <- (take_drop (Z.to_nat limit) (drop offset rows)), map_app, convert_items_app. fold page.
    rewrite Hitems, drop_drop, Hrest. done.
  - exists items. split; [|done]. rewrite <- Hitems. unfold page. rewrite take_ge; [done|].
    rewrite length_drop. lia.
Qed.
End pages.
End list.

(** C29: paging loses and repeats nothing: over an unchanging snapshot, following the
    continue tokens of a limited List to the end terminates within one page per
    matching row and one more, and the pages together are, in transaction order,
    exactly the rows that are not tombstones of the requested kind and namespace
    whose labels satisfy every requirement. *)
Theorem List_pages `{OwnerRefCodec, Scheme, UuidCodec, TokenCodec} (hashtext : string → Z) (jsonb_out : json → string)
    (e : CallEnv) (listGVK : GroupVersionKind) (snap : Snapshot) (ns : string) (reqs : list Requirement)
    (lbl : Row → gmap string string) (limit : Z) (cs : list clause) (args : list sqlarg) :
  let rows := select_rows (wanted (gvkToString (itemGVKFromListGVK listGVK)) ns reqs lbl) (snap_db snap) in
  ce_kinds e = Some [listGVK] → ce_acquire e = true → ce_read_fault e = false → (0 < limit)%Z →
  buildLabelSelectorFilter (Some (Requirements reqs)) (label_start ns) = Ok (cs, args) →
  (∀ k r, kubernetes_resources (snap_db snap) !! k = Some r → labels_rel r (lbl r)) →
  (∀ k r, kubernetes_resources (snap_db snap) !! k = Some r →
     ∃ o, resourceToObject uuid_String (to_resource k r) = Ok o) →
  (Z.of_nat (List.length rows) + limit ≤ max_int64)%Z →
  ∃ items, convert_items (map (fun kr => to_resource kr.1 kr.2) rows) = Ok items ∧
    all_pages hashtext jsonb_out (S (List.length rows)) e (options ns reqs limit "") snap = Some (Ok items).
Proof.
  cbv zeta. intros Hk Ha Hr Hl Hs Hlab Hd Hsz.
  apply (pages_cover hashtext jsonb_out e listGVK snap ns reqs lbl limit cs args Hk Ha Hr Hl Hs Hlab Hd Hsz _ "" 0);
    [done|lia|lia].
Qed.

(** Tokens that spell the offset out. *)
#[export] Instance plain_token : TokenCodec.
Proof.
  refine {|
    token_encode := fun j => match j with JObj [(_, JNum n)] => "t" +:+ FormatUint n | _ => "-" end;
    token_decode := fun s => n ← ParseInt (str_drop 1 s); Some (JObj [("offset", JNum n)])
  |}.
  - intros n Hn. cbv beta iota. change (str_drop 1 ("t" +:+ FormatUint n)) with (FormatUint n).
    by rewrite ParseInt_FormatUint.
  - intros j. by repeat case_match.
Defined.

Definition page_row (txid : Z) (size : Z) : Row :=
  mkRow txid txid 1 (JObj [("size", JNum size)]) (JObj []) (JObj [("labels", JObj [("env", JStr "prod")])]) None 0 0.
Definition page_key (name : string) : key := ("seaplane.io/v1alpha1/Cluster", "ns", name).
Definition page_db : Db :=
  mkDb (<[page_key "a" := page_row 7 1]> (<[page_key "b" := page_row 5 2]> (<[page_key "c" := page_row 6 3]> ∅))) ∅.
Definition page_call : CallEnv :=
  mkCallEnv (Some [mkGVK "seaplane.io" "v1alpha1" "ClusterList"]) true false id
    (mkWriteEnv (mkTxEnv 9 0 0) CallAnswered no_faults) false 0.
Definition page_reqs : list Requirement := [mkReq "env" In ["prod"; "dev"]].
Definition page_labels (r : Row) : gmap string string := {[ "env" := "prod" ]}.

Lemma page_rows_labels : map_Forall (fun _ r => row_metadata r = JObj [("labels", JObj [("env", JStr "prod")])])
  (kubernetes_resources page_db).
Proof. unfold page_db. simpl. repeat apply map_Forall_insert_2; try apply map_Forall_empty; reflexivity. Qed.

Lemma List_pages_witness :
  ∃ items, all_pages (fun _ => 0%Z) (fun _ => "") 4 page_call (options "ns" page_reqs 2 "") (mkSnapshot page_db 9) = Some (Ok items) ∧
    map o_Name items = ["b"; "c"; "a"].
Proof.
  destruct (List_pages (fun _ => 0%Z) (fun _ => "") page_call (mkGVK "seaplane.io" "v1alpha1" "ClusterList")
    (mkSnapshot page_db 9) "ns" page_reqs page_labels 2 [CLabelAny [3; 4]]
    [label_entry "env" "prod"; label_entry "env" "dev"]) as (items & Hitems & Hall).
  - reflexivity.
  - reflexivity.
  - reflexivity.
  - lia.
  - reflexivity.
  - intros k r Hk. pose proof (page_rows_labels k r Hk) as Hm. simpl in Hm.
    unfold labels_rel, labels_of, page_labels. rewrite Hm. cbn. intros k'.
    rewrite lookup_singleton. destruct (String.eqb_spec k' "env"); case_decide; by subst.
  - intros k r Hk. assert (Hd : map_Forall (fun k r => is_ok (resourceToObject uuid_String (to_resource k r)) = true)
      (kubernetes_resources page_db)) by by_decide.
    specialize (Hd k r Hk). cbv beta in Hd. destruct (resourceToObject uuid_String (to_resource k r)) as [o|]; [by exists o|done].
  - vm_compute. discriminate.
  - exists items. split; [exact Hall|]. revert Hitems. vm_compute. by intros [= <-].
Defined.

End ClientList.
