(* ===== verification/RateLimit.v ===== *)
(** * Rate limiting (seaplane-api/pkg/ratelimit)

    The configuration and its defaults, the choice of a limit for a request, the
    in-memory GCRA limiter and the HTTP middleware. Durations and times are
    nanoseconds; a difference of times past the 292 years of a [time.Duration], where
    [Time.Sub] saturates, is not modelled. *)
From S2P Require Import Prelude GoStrings.
From stdpp Require Import base strings list gmap sorting.
From Stdlib Require Import ZArith Lia Ascii String.
Open Scope string_scope.

Module RateLimit.

(** ** Path patterns (match.go) *)

Fixpoint match_parts (patternParts pathParts : list string) : bool :=
  match patternParts, pathParts with
  | [], [] => true
  | pp :: ps, x :: xs =>
      (if String.eqb pp "*" then negb (String.eqb x "") else String.eqb pp x) && match_parts ps xs
  | _, _ => false
  end.

Definition matchPath (pattern path : string) : bool :=
  match_parts (Split (Trim pattern "/") "/") (Split (Trim path "/") "/").

(** ** Configuration (config.go) *)

Record RouteLimit := mkRoute {
  rl_Path : string;
  rl_Method : string;
  rl_Rate : Z;
  rl_Burst : Z;
  rl_Window : Z
}.

Record Config := mkConfig {
  Enabled : bool;
  ExemptAccounts : list string;
  RedisTimeout : Z;
  Default : RouteLimit;
  Routes : list RouteLimit;
  exemptSet : list string
}.

Inductive config_error :=
| CannotRead
| CannotParse
| DefaultRate (rate : Z)
| DefaultBurst (burst : Z)
| DefaultWindow (window : Z)
| RouteRate (i : nat)
| RouteBurst (i : nat)
| RouteWindow (i : nat).

(** [int] arithmetic wraps at 64 bits. *)
Definition default_burst (rate : Z) : Z := wrap_i64 (rate * 2).

Definition load_default (d : RouteLimit) : result config_error RouteLimit :=
  if (rl_Rate d <? 0)%Z then Err (DefaultRate (rl_Rate d))
  else
    let rate := if (rl_Rate d =? 0)%Z then 100%Z else rl_Rate d in
    if (rl_Burst d <? 0)%Z then Err (DefaultBurst (rl_Burst d))
    else
      let burst := if (rl_Burst d =? 0)%Z then default_burst rate else rl_Burst d in
      if (rl_Window d <? 0)%Z then Err (DefaultWindow (rl_Window d))
      else
        let window := if (rl_Window d =? 0)%Z then 1%Z else rl_Window d in
        Ok (mkRoute (rl_Path d) (rl_Method d) rate burst window).

Fixpoint load_routes (defaultWindow : Z) (i : nat) (routes : list RouteLimit) : result config_error (list RouteLimit) :=
  match routes with
  | [] => Ok []
  | r :: rest =>
      if (rl_Rate r <=? 0)%Z then Err (RouteRate i)
      else if (rl_Burst r <? 0)%Z then Err (RouteBurst i)
      else if (rl_Window r <? 0)%Z then Err (RouteWindow i)
      else
        let r' := mkRoute (rl_Path r) (rl_Method r) (rl_Rate r)
                    (if (rl_Burst r =? 0)%Z then default_burst (rl_Rate r) else rl_Burst r)
                    (if (rl_Window r =? 0)%Z then defaultWindow else rl_Window r) in
        rest' ← load_routes defaultWindow (S i) rest;
        Ok (r' :: rest')
  end.

(** [LoadConfig] on the bytes of the file ([None]: unreadable) and what the YAML
    package makes of them ([None]: a parse error). *)
Definition LoadConfig (parse : string → option Config) (file : option string) : result config_error Config :=
  match file with
  | None => Err CannotRead
  | Some data =>
      match parse data with
      | None => Err CannotParse
      | Some cfg =>
          d ← load_default (Default cfg);
          let timeout := if (RedisTimeout cfg <=? 0)%Z then 20%Z else RedisTimeout cfg in
          routes ← load_routes (rl_Window d) 0 (Routes cfg);
          Ok (mkConfig (Enabled cfg) (ExemptAccounts cfg) timeout d routes (ExemptAccounts cfg))
      end
  end.

Definition NewDefaultConfig (rate burst window : Z) : Config :=
  let rate := if (rate <=? 0)%Z then 100%Z else rate in
  let burst := if (burst <=? 0)%Z then default_burst rate else burst in
  let window := if (window <=? 0)%Z then 1%Z else window in
  mkConfig true [] 20 (mkRoute "" "" rate burst window) [] [].

Definition isExempt (c : Config) (accountID : string) : bool := bool_decide (accountID ∈ exemptSet c).

(** ** Limiters (local.go) *)

Record Limit := mkLimit {
  Rate : Z;
  Burst : Z;
  Period : Z
}.

Record Result := mkResult {
  Allowed : Z;
  Remaining : Z;
  RetryAfter : Z;
  ResetAfter : Z
}.

(** [time.Duration] products wrap at 64 bits. *)
Definition emissionInterval (l : Limit) : Z := Z.quot (Period l) (Rate l).
Definition burstOffset (l : Limit) : Z := wrap_i64 (emissionInterval l * Burst l).

Definition cleanup (now : Z) (entries : gmap string Z) : gmap string Z :=
  filter (fun kt => (now ≤ kt.2)%Z) entries.

(** The theoretical arrival time a request at [now] starts from. *)
Definition start_tat (now : Z) (entry : option Z) : Z :=
  match entry with
  | None => now
  | Some tat => if (tat <? now)%Z then now else tat
  end.

(** [localLimiter.Allow] at [now]; [None] is the panic of a division by zero. *)
Definition Allow (now : Z) (key : string) (limit : Limit) (entries : gmap string Z) : option (Result * gmap string Z) :=
  if (Rate limit =? 0)%Z then None
  else
    let T := emissionInterval limit in
    let tat := start_tat now (entries !! key) in
    let newTAT := (tat + T)%Z in
    let allowAt := (newTAT - burstOffset limit)%Z in
    let diff := (now - allowAt)%Z in
    if (diff <? 0)%Z then Some (mkResult 0 0 (allowAt - now) (Z.max 0 (tat - now)), entries)
    else if (T =? 0)%Z then None
    else
      let remaining := Z.quot diff T in
      Some (mkResult 1 (if (Burst limit <? remaining)%Z then Burst limit else remaining) (-1) (Z.max 0 (newTAT - now)),
            cleanup now (<[key := newTAT]> entries)).

(** ** The middleware (middleware.go) *)

Definition findLimit (c : Config) (method path : string) : RouteLimit :=
  match find (fun r => EqualFold (rl_Method r) method && matchPath (rl_Path r) path) (Routes c) with
  | Some r => r
  | None => mkRoute "default" "" (rl_Rate (Default c)) (rl_Burst (Default c)) (rl_Window (Default c))
  end.

Definition second : Z := 1000000000.

(** [Limit] of a route: the window in nanoseconds. *)
Definition limit_of (r : RouteLimit) : Limit := mkLimit (rl_Rate r) (rl_Burst r) (wrap_i64 (rl_Window r * second)).

Definition limit_key (callerID method : string) (r : RouteLimit) : string :=
  "rl:" +:+ callerID +:+ ":" +:+ method +:+ ":" +:+ rl_Path r.

(** [int(math.Ceil(d.Seconds()))]; the float64 of the seconds is fine enough to tell
    a nanosecond apart for waits below 2^22 seconds. *)
Definition ceil_seconds (d : Z) : Z := (- ((- d) / second))%Z.

Record RateHeaders := mkHeaders {
  h_Limit : Z;
  h_Remaining : Z;
  h_Reset : Z
}.

Inductive outcome :=
| Next                                           (* not limited *)
| NextFailureMode                                (* the limiter failed, the request passes *)
| NextLimited (h : RateHeaders)
| TooManyRequests (h : RateHeaders) (retryAfter : Z).

(** [Middleware] for a request of [callerID] (empty: no identity in the context);
    [allow] is the backend's answer, [None] its error. *)
Definition Middleware (c : Config) (callerID method path : string) (allow : string → Limit → option Result) : outcome :=
  if negb (Enabled c) then Next
  else if String.eqb callerID "" then Next
  else if isExempt c callerID then Next
  else
    let limit := findLimit c method path in
    match allow (limit_key callerID method limit) (limit_of limit) with
    | None => NextFailureMode
    | Some res =>
        let h := mkHeaders (rl_Rate limit) (Remaining res) (ceil_seconds (ResetAfter res)) in
        if (Allowed res =? 0)%Z then TooManyRequests h (Z.max (ceil_seconds (RetryAfter res)) 1)
        else NextLimited h
    end.

(** ** One key of the limiter *)

(** No overflow: the burst's worth of intervals fits a [time.Duration]. *)
Definition limit_ok (l : Limit) : Prop :=
  (0 < Rate l)%Z ∧ (0 < emissionInterval l)%Z ∧ (0 < Burst l)%Z ∧ (emissionInterval l * Burst l ≤ max_int64)%Z.

Lemma burstOffset_ok l :
  limit_ok l → burstOffset l = (emissionInterval l * Burst l)%Z ∧ (emissionInterval l ≤ burstOffset l)%Z.
Proof.
  intros (Hr & Ht & Hb & Hm). unfold burstOffset. rewrite wrap_i64_id; [nia|].
  unfold in_int64, min_int64, max_int64 in *. nia.
Qed.

Lemma start_tat_ge now e : (now ≤ start_tat now e)%Z.
Proof. unfold start_tat. destruct e as [tat|]; [|lia]. destruct (Z.ltb_spec tat now); lia. Qed.

Lemma start_tat_mono t t' e : (t ≤ t')%Z → (start_tat t e ≤ start_tat t' e)%Z.
Proof.
  unfold start_tat. destruct e as [tat|]; [|lia]. destruct (Z.ltb_spec tat t), (Z.ltb_spec tat t'); lia.
Qed.

(** Expired entries may be dropped: nothing later starts anywhere else. *)
Lemma start_tat_cleanup now t k entries :
  (now ≤ t)%Z → start_tat t (cleanup now entries !! k) = start_tat t (entries !! k).
Proof.
  intros Ht. unfold cleanup. rewrite map_lookup_filter. destruct (entries !! k) as [tat|]; simpl; [|done].
  case_guard as Hg; [done|]. simpl. simpl in Hg. destruct (Z.ltb_spec tat t); lia.
Qed.

(** What a call decides and leaves, as far as later calls can tell. *)
Lemma Allow_ok now key l entries :
  limit_ok l →
  ∃ res entries', Allow now key l entries = Some (res, entries') ∧
    (∀ k t, (now ≤ t)%Z → k ≠ key → start_tat t (entries' !! k) = start_tat t (entries !! k)) ∧
    if (start_tat now (entries !! key) + emissionInterval l - burstOffset l <=? now)%Z then
      Allowed res = 1%Z ∧
      (∀ t, (now ≤ t)%Z → start_tat t (entries' !! key) = Z.max t (start_tat now (entries !! key) + emissionInterval l))
    else
      Allowed res = 0%Z ∧ entries' = entries ∧
      RetryAfter res = (start_tat now (entries !! key) + emissionInterval l - burstOffset l - now)%Z.
Proof.
  intros (Hr & Ht & Hb & Hm). unfold Allow. rewrite (proj2 (Z.eqb_neq (Rate l) 0)) by lia.
  set (tat := start_tat now (entries !! key)). cbv zeta.
  destruct (Z.ltb_spec (now - (tat + emissionInterval l - burstOffset l)) 0) as [Hd|Hd].
  - eexists _, _. split; [done|]. split; [done|]. rewrite (proj2 (Z.leb_gt _ _)) by lia. done.
  - rewrite (proj2 (Z.eqb_neq (emissionInterval l) 0)) by lia. eexists _, _. split; [done|]. split.
    + intros k t Hle Hne. rewrite start_tat_cleanup by done. by rewrite lookup_insert_ne.
    + rewrite (proj2 (Z.leb_le _ _)) by lia. split; [done|]. intros t Hle.
      rewrite start_tat_cleanup by done. rewrite lookup_insert_eq. unfold start_tat.
      destruct (Z.ltb_spec (tat + emissionInterval l) t); lia.
Qed.

(** ** Runs of requests *)

Fixpoint run (reqs : list (Z * string * Limit)) (entries : gmap string Z) : option (list Result * gmap string Z) :=
  match reqs with
  | [] => Some ([], entries)
  | (now, key, l) :: rest =>
      match Allow now key l entries with
      | None => None
      | Some (res, entries') =>
          match run rest entries' with
          | None => None
          | Some (rs, e) => Some (res :: rs, e)
          end
      end
  end.

(** The requests of [key] that were let through. *)
Fixpoint allowed_of (key : string) (reqs : list (Z * string * Limit)) (rs : list Result) : Z :=
  match reqs, rs with
  | (_, k, _) :: reqs, r :: rs => (if String.eqb k key then Allowed r else 0) + allowed_of key reqs rs
  | _, _ => 0
  end.

Definition times_ok (a b : Z) (reqs : list (Z * string * Limit)) : Prop :=
  Forall (fun q => a ≤ q.1.1 ≤ b)%Z reqs ∧ StronglySorted (fun q q' => q.1.1 ≤ q'.1.1)%Z reqs.

Lemma run_bound key l b reqs : ∀ entries V rs e,
  limit_ok l → Forall (fun q => limit_ok q.2 ∧ (q.1.2 = key → q.2 = l)) reqs →
  Forall (fun q => q.1.1 ≤ b ∧ V ≤ start_tat q.1.1 (entries !! key))%Z reqs →
  StronglySorted (fun q q' => q.1.1 ≤ q'.1.1)%Z reqs →
  run reqs entries = Some (rs, e) →
  allowed_of key reqs rs = 0%Z ∨ (V + allowed_of key reqs rs * emissionInterval l ≤ b + burstOffset l)%Z.
Proof.
  induction reqs as [|[[now k] l'] reqs IH]; intros entries V rs e Hl Hlim Htime Hsort; cbn [run].
  { intros [= <- <-]. by left. }
  apply Forall_cons in Hlim as [[Hl' Hsame] Hlim]. apply Forall_cons in Htime as [[Hb HV] Htime].
  apply StronglySorted_inv in Hsort as [Hsort Hge]. cbn [fst snd] in *.
  destruct (Allow_ok now k l' entries Hl') as (res & entries' & Ha & Hother & Hdec). rewrite Ha.
  destruct (run reqs entries') as [[rs' e']|] eqn:Hrun; [|done]. intros [= <- <-]. cbn [allowed_of].
  rewrite Forall_forall in Htime, Hge.
  destruct (String.eqb_spec k key) as [->|Hne].
  - assert (l' = l) as -> by by apply Hsame.
    destruct (Z.leb_spec (start_tat now (entries !! key) + emissionInterval l - burstOffset l) now) as [Hle|Hgt].
    + destruct Hdec as [Hal Hstart].
      destruct (IH entries' (V + emissionInterval l)%Z rs' e' Hl Hlim) as [Hz|Hbd]; [|done|done| |].
      * apply Forall_forall. intros q Hq. specialize (Hge q Hq). specialize (Htime q Hq). simpl in Hge.
        split; [lia|]. rewrite Hstart by done. lia.
      * right. rewrite Hz, Hal. destruct Hl as (_ & ? & _). lia.
      * right. rewrite Hal. destruct Hl as (_ & ? & _). lia.
    + destruct Hdec as (Hal & -> & _). rewrite Hal.
      destruct (IH entries V rs' e' Hl Hlim) as [Hz|Hbd]; [by apply Forall_forall|done|done| |]; [by left|by right].
  - destruct (IH entries' V rs' e' Hl Hlim) as [Hz|Hbd]; [|done|done|by left|by right].
    apply Forall_forall. intros q Hq. specialize (Htime q Hq). split; [lia|].
    rewrite Hother; [lia|apply (Hge q Hq)|done].
Qed.

Lemma run_total reqs : ∀ entries, Forall (fun q => limit_ok q.2) reqs → is_Some (run reqs entries).
Proof.
  induction reqs as [|[[now k] l] reqs IH]; intros entries Hl; cbn [run]; [eauto|].
  apply Forall_cons in Hl as [Hl Hrest]. destruct (Allow_ok now k l entries Hl) as (res & e & -> & _).
  destruct (IH e Hrest) as [[rs e'] ->]. eauto.
Qed.

(** C39: the limiter limits: in any run of requests, for any keys and limits and from
    any state of the limiter, it answers every request, and the requests of one key it
    lets through between times [a] and [b] number at most the burst plus one per
    emission interval of the elapsed time. *)
Theorem gcra_bound (key : string) (l : Limit) (a b : Z) (reqs : list (Z * string * Limit)) (entries : gmap string Z) :
  limit_ok l → Forall (fun q => limit_ok q.2 ∧ (q.1.2 = key → q.2 = l)) reqs → times_ok a b reqs → (a ≤ b)%Z →
  ∃ rs e, run reqs entries = Some (rs, e) ∧
    (allowed_of key reqs rs ≤ Burst l + (b - a) / emissionInterval l)%Z.
Proof.
  intros Hl Hlim [Htime Hsort] Hab.
  destruct (run_total reqs entries) as [[rs e] Hrun]; [by eapply Forall_impl; [exact Hlim|intros q []]|].
  exists rs, e. split; [done|]. destruct (burstOffset_ok l Hl) as [Hoff _]. destruct Hl as (Hr & Ht & Hb & Hm).
  assert (Hd : (0 ≤ (b - a) / emissionInterval l)%Z) by (apply Z.div_pos; lia).
  destruct (run_bound key l b reqs entries a rs e) as [Hz|Hbd]; try done.
  - eapply Forall_impl; [exact Htime|]. intros q Hq. simpl in Hq. split; [lia|].
    etransitivity; [|apply start_tat_ge]. lia.
  - lia.
  - rewrite Hoff in Hbd. assert (allowed_of key reqs rs - Burst l ≤ (b - a) / emissionInterval l)%Z; [|lia].
    apply Z.div_le_lower_bound; lia.
Qed.

(** Retry-After is honest: when the limiter refuses a request it names the wait
    exactly: a request of the key sent any sooner is refused, one sent after the wait
    is let through. *)
Theorem retry_after_exact (now : Z) (key : string) (l : Limit) (entries entries' : gmap string Z) (res : Result) :
  limit_ok l → Allow now key l entries = Some (res, entries') → Allowed res = 0%Z →
  (0 < RetryAfter res)%Z ∧
  (∀ t, (now ≤ t < now + RetryAfter res)%Z → ∃ r e, Allow t key l entries' = Some (r, e) ∧ Allowed r = 0%Z) ∧
  (∃ r e, Allow (now + RetryAfter res) key l entries' = Some (r, e) ∧ Allowed r = 1%Z).
Proof.
  intros Hl Ha Hz. destruct (burstOffset_ok l Hl) as [Hoff Hge].
  destruct (Allow_ok now key l entries Hl) as (res0 & e0 & Ha0 & _ & Hdec). rewrite Ha in Ha0. injection Ha0 as <- <-.
  destruct (Z.leb_spec (start_tat now (entries !! key) + emissionInterval l - burstOffset l) now) as [Hle|Hgt];
    [destruct Hdec; lia|]. destruct Hdec as (_ & -> & Hretry).
  assert (Hs : ∃ tat, entries !! key = Some tat ∧ (now < tat)%Z ∧ start_tat now (entries !! key) = tat).
  { unfold start_tat in *. destruct (entries !! key) as [tat|]; [|lia]. destruct (Z.ltb_spec tat now); [lia|].
    exists tat. split_and!; [done|lia|done]. }
  destruct Hs as (tat & Hentry & Hnow & Hstart). rewrite Hstart in *.
  assert (Hbefore : ∀ t, (now ≤ t ≤ tat)%Z → start_tat t (entries !! key) = tat).
  { intros t Ht. unfold start_tat. rewrite Hentry. destruct (Z.ltb_spec tat t); lia. }
  split; [lia|]. split.
  - intros t Ht. destruct (Allow_ok t key l entries Hl) as (r & e & Hr & _ & Hd). exists r, e. split; [done|].
    rewrite Hbefore in Hd by lia. rewrite (proj2 (Z.leb_gt _ _)) in Hd by lia. apply Hd.
  - set (t := (now + RetryAfter res)%Z).
    destruct (Allow_ok t key l entries Hl) as (r & e & Hr & _ & Hd). exists r, e. split; [done|].
    rewrite Hbefore in Hd by lia. rewrite (proj2 (Z.leb_le _ _)) in Hd by lia. apply Hd.
Qed.

(** ** Loaded configurations *)

(** Sizes for which no product of a limit overflows. *)
Definition sized (r : RouteLimit) : Prop :=
  (rl_Rate r ≤ 1000000 ∧ rl_Burst r ≤ 1000000 ∧ rl_Window r ≤ 3600)%Z.

Definition sane (r : RouteLimit) : Prop :=
  (0 < rl_Rate r ≤ 1000000 ∧ 0 < rl_Burst r ≤ 2000000 ∧ 0 < rl_Window r ≤ 3600 ∧
   (rl_Burst r ≤ 1000000 ∨ rl_Burst r = rl_Rate r * 2))%Z.

Lemma default_burst_small r : (0 < r ≤ 1000000)%Z → default_burst r = (r * 2)%Z.
Proof. intros H. unfold default_burst. apply wrap_i64_id. unfold in_int64, min_int64, max_int64. lia. Qed.

Lemma sane_limit_ok r : sane r → limit_ok (limit_of r).
Proof.
  intros (Hr & Hb & Hw & Hc). unfold limit_ok, limit_of, emissionInterval, second. cbn [Rate Burst Period].
  rewrite wrap_i64_id by (unfold in_int64, min_int64, max_int64; lia).
  rewrite Z.quot_div_nonneg by lia.
  assert (0 < rl_Window r * 1000000000 / rl_Rate r)%Z by (apply Z.div_str_pos; lia).
  assert (rl_Window r * 1000000000 / rl_Rate r ≤ rl_Window r * 1000000000)%Z by (apply Z.div_le_upper_bound; nia).
  pose proof (Z.mul_div_le (rl_Window r * 1000000000) (rl_Rate r) ltac:(lia)).
  unfold max_int64. split_and!; [lia..|]. destruct Hc as [Hc|Hc]; [nia|].
  set (q := (rl_Window r * 1000000000 / rl_Rate r)%Z) in *. nia.
Qed.

Lemma load_default_sane d d' : sized d → load_default d = Ok d' → sane d'.
Proof.
  intros (Hr & Hb & Hw). unfold load_default, sane.
  destruct (Z.ltb_spec (rl_Rate d) 0); [done|]. destruct (Z.ltb_spec (rl_Burst d) 0); [done|].
  destruct (Z.ltb_spec (rl_Window d) 0); [done|]. intros [= <-]. cbn [rl_Rate rl_Burst rl_Window].
  destruct (Z.eqb_spec (rl_Rate d) 0), (Z.eqb_spec (rl_Burst d) 0), (Z.eqb_spec (rl_Window d) 0);
    rewrite ?default_burst_small by lia; lia.
Qed.

Lemma load_routes_sane w routes : ∀ i routes',
  (0 < w ≤ 3600)%Z → Forall sized routes → load_routes w i routes = Ok routes' → Forall sane routes'.
Proof.
  induction routes as [|r routes IH]; intros i routes' Hw Hs; cbn [load_routes]; [by intros [= <-]|].
  apply Forall_cons in Hs as [(Hr & Hb & Hwr) Hs].
  destruct (Z.leb_spec (rl_Rate r) 0); [done|]. destruct (Z.ltb_spec (rl_Burst r) 0); [done|].
  destruct (Z.ltb_spec (rl_Window r) 0); [done|].
  destruct (load_routes w (S i) routes) as [rs|] eqn:Hrs; [|done]. intros [= <-].
  constructor; [|by eapply IH]. unfold sane. cbn [rl_Rate rl_Burst rl_Window].
  destruct (Z.eqb_spec (rl_Burst r) 0), (Z.eqb_spec (rl_Window r) 0); rewrite ?default_burst_small by lia; lia.
Qed.

Lemma findLimit_sane c method path :
  sane (Default c) → Forall sane (Routes c) → sane (findLimit c method path).
Proof.
  intros Hd Hr. unfold findLimit. destruct (List.find _ _) as [r|] eqn:Hf; [|exact Hd].
  apply List.find_some in Hf as [Hin _]. rewrite Forall_forall in Hr. apply Hr. by apply list_elem_of_In.
Qed.

(** configurations that load are usable: whatever limit the configuration file
    leads to for a request, the limiter answers without a division by zero, never
    overflows, and lets the first request of a caller through. *)
Theorem LoadConfig_usable (parse : string → option Config) (data : string) (raw cfg : Config) (method path caller : string) :
  parse data = Some raw → sized (Default raw) → Forall sized (Routes raw) → LoadConfig parse (Some data) = Ok cfg →
  let limit := findLimit cfg method path in
  limit_ok (limit_of limit) ∧
  ∀ now entries, entries !! limit_key caller method limit = None →
    ∃ res entries', Allow now (limit_key caller method limit) (limit_of limit) entries = Some (res, entries') ∧
      Allowed res = 1%Z ∧ (0 ≤ Remaining res < Burst (limit_of limit))%Z.
Proof.
  intros Hp Hd Hr. unfold LoadConfig. rewrite Hp.
  destruct (load_default (Default raw)) as [d|] eqn:Hld; [|done]. cbn.
  destruct (load_routes (rl_Window d) 0 (Routes raw)) as [rs|] eqn:Hlr; [|done]. intros [= <-].
  apply load_default_sane in Hld; [|done]. apply load_routes_sane in Hlr; [|apply Hld|done].
  set (c := mkConfig _ _ _ _ _ _). assert (Hs : sane (findLimit c method path)) by by apply findLimit_sane.
  cbv zeta. revert Hs. generalize (findLimit c method path) as r. intros r Hs.
  assert (Hok : limit_ok (limit_of r)) by by apply sane_limit_ok. split; [done|]. intros now entries Hnone.
  destruct (burstOffset_ok _ Hok) as [Hoff Hge]. unfold Allow, start_tat. rewrite Hnone. cbv zeta.
  destruct Hok as (H1 & H2 & H3 & H4). rewrite (proj2 (Z.eqb_neq _ 0)) by lia. rewrite (proj2 (Z.ltb_ge _ 0)) by lia.
  rewrite (proj2 (Z.eqb_neq _ 0)) by lia. eexists _, _. split; [done|]. cbn [Allowed Remaining]. split; [done|].
  rewrite Hoff. replace (now - _)%Z with (emissionInterval (limit_of r) * (Burst (limit_of r) - 1))%Z by lia.
  rewrite Z.mul_comm, Z.quot_mul by lia. change (rl_Burst r) with (Burst (limit_of r)).
  rewrite (proj2 (Z.ltb_ge _ _)) by lia. lia.
Qed.

(** ** Instances *)

Definition three_per_second : Limit := mkLimit 3 2 second.

Lemma gcra_bound_witness :
  ∃ rs e, run [(0%Z, "k", three_per_second); (0%Z, "k", three_per_second); (1%Z, "k", three_per_second)] ∅ = Some (rs, e) ∧
    (allowed_of "k" [(0%Z, "k", three_per_second); (0%Z, "k", three_per_second); (1%Z, "k", three_per_second)] rs
       ≤ Burst three_per_second + (second - 0) / emissionInterval three_per_second)%Z.
Proof.
  apply (gcra_bound "k" three_per_second 0 second).
  - unfold limit_ok. vm_compute. split_and!; congruence.
  - repeat constructor; vm_compute; congruence.
  - split; repeat constructor; vm_compute; congruence.
  - vm_compute. congruence.
Defined.

Definition busy : gmap string Z := {["k" := 500000000%Z]}.

Lemma retry_after_exact_witness :
  (0 < 166666667)%Z ∧
  (∀ t, (0 ≤ t < 0 + 166666667)%Z → ∃ r e, Allow t "k" three_per_second busy = Some (r, e) ∧ Allowed r = 0%Z) ∧
  (∃ r e, Allow (0 + 166666667) "k" three_per_second busy = Some (r, e) ∧ Allowed r = 1%Z).
Proof.
  apply (retry_after_exact 0 "k" three_per_second busy busy (mkResult 0 0 166666667 500000000)).
  - unfold limit_ok. vm_compute. split_and!; congruence.
  - vm_compute. reflexivity.
  - reflexivity.
Defined.

Definition sample_raw : Config :=
  mkConfig true ["ops"] 0 (mkRoute "" "" 0 0 0) [mkRoute "/api/v0/clusters/*" "get" 5 0 60] [].

Definition sample_cfg : Config :=
  mkConfig true ["ops"] 20 (mkRoute "" "" 100 200 1) [mkRoute "/api/v0/clusters/*" "get" 5 10 60] ["ops"].

Lemma LoadConfig_usable_witness :
  let limit := findLimit sample_cfg "GET" "/api/v0/clusters/c1/" in
  limit_ok (limit_of limit) ∧
  ∀ now entries, entries !! limit_key "a" "GET" limit = None →
    ∃ res entries', Allow now (limit_key "a" "GET" limit) (limit_of limit) entries = Some (res, entries') ∧
      Allowed res = 1%Z ∧ (0 ≤ Remaining res < Burst (limit_of limit))%Z.
Proof.
  apply (LoadConfig_usable (fun _ => Some sample_raw) "file" sample_raw sample_cfg).
  - reflexivity.
  - unfold sized. vm_compute. split_and!; congruence.
  - repeat constructor; unfold sized; vm_compute; congruence.
  - reflexivity.
Defined.

Example sample_route : rl_Burst (findLimit sample_cfg "GET" "/api/v0/clusters/c1/") = 10%Z.
Proof. vm_compute. reflexivity. Qed.

End RateLimit.
