(* ===== verification/Cidr.v ===== *)
(** * Cluster networks (seaplane-api/pkg/validation/network_cidr_validator.go)

    The validation of a cluster's machine, service and pod CIDRs, on the texts of the
    request: parsing, limits, overlaps and the address HyperShift reserves. Addresses
    are what the standard library's [net] package makes of them; its part the code
    uses ([ParseCIDR], [IP.Mask], [IPNet.Contains]) comes first. *)
From S2P Require Import Prelude GoStrings.
From stdpp Require Import base strings list.
From Stdlib Require Import ZArith Lia Ascii String.
Open Scope string_scope.
Open Scope list_scope.

Module Cidr.

(** ** Addresses of package [net] *)

(** An address is the 4 or 16 bytes of an IP, as one big-endian number, or nil. *)
Inductive IP :=
| IPnil
| IP4 (b : Z)
| IP16 (b : Z).

#[export] Instance IP_eq_dec : EqDecision IP.
Proof. solve_decision. Defined.

(** [CIDRMask(ones, bits)] *)
Record IPMask := mkMask {
  m_bits : Z;
  m_ones : Z
}.

Record IPNet := mkNet {
  n_IP : IP;
  n_Mask : IPMask
}.

Definition mask_value (m : IPMask) : Z := (2 ^ m_bits m - 2 ^ (m_bits m - m_ones m))%Z.

Definition v4InV6 : Z := 65535 * 2 ^ 32.

(** [IP.To4]: a 16-byte address of the mapped range is its 4-byte form. *)
Definition To4 (ip : IP) : option Z :=
  match ip with
  | IPnil => None
  | IP4 b => Some b
  | IP16 b => if (b / 2 ^ 32 =? 65535)%Z then Some (b mod 2 ^ 32)%Z else None
  end.

(** The form an address prints as; two addresses print alike when these agree. *)
Definition normal (ip : IP) : IP := match To4 ip with Some b => IP4 b | None => ip end.

(** The last four bytes of a 16-byte mask. *)
Definition mask_tail (m : IPMask) : IPMask := mkMask 32 (Z.max 0 (m_ones m - 96)).

(** [IP.Mask] *)
Definition IP_Mask (ip : IP) (m : IPMask) : IP :=
  match ip with
  | IPnil => IPnil
  | IP4 b =>
      if (m_bits m =? 32)%Z then IP4 (Z.land b (mask_value m))
      else if (m_bits m =? 128)%Z && (96 <=? m_ones m)%Z then IP4 (Z.land b (mask_value (mask_tail m)))
      else IPnil
  | IP16 b =>
      if (m_bits m =? 128)%Z then IP16 (Z.land b (mask_value m))
      else match To4 ip with
           | Some b4 => if (m_bits m =? 32)%Z then IP4 (Z.land b4 (mask_value m)) else IPnil
           | None => IPnil
           end
  end.

Definition networkNumberAndMask (n : IPNet) : option (IP * IPMask) :=
  match To4 (n_IP n) with
  | Some b =>
      if (m_bits (n_Mask n) =? 32)%Z then Some (IP4 b, n_Mask n)
      else if (m_bits (n_Mask n) =? 128)%Z then Some (IP4 b, mask_tail (n_Mask n))
      else None
  | None =>
      match n_IP n with
      | IP16 b => if (m_bits (n_Mask n) =? 128)%Z then Some (IP16 b, n_Mask n) else None
      | _ => None
      end
  end.

(** [IPNet.Contains] *)
Definition Contains (n : IPNet) (ip : IP) : bool :=
  match networkNumberAndMask n with
  | None => false
  | Some (nn, m) =>
      match nn, normal ip with
      | IP4 b, IP4 a | IP16 b, IP16 a => (Z.land b (mask_value m) =? Z.land a (mask_value m))%Z
      | _, _ => false
      end
  end.

(** ** Texts of package [net] *)

(** [strings.Cut] around one byte *)
Fixpoint Cut (s : string) (c : ascii) : option (string * string) :=
  match s with
  | "" => None
  | String a s' =>
      if Ascii.eqb a c then Some ("", s')
      else '(before, after) ← Cut s' c; Some (String a before, after)
  end.

(** A field of a dotted address: at most 255, no leading zero. *)
Definition v4_field (s : string) : option Z :=
  if HasPrefix s "0" && negb (String.eqb s "0") then None
  else n ← ParseUint s; if (n <=? 255)%Z then Some n else None.

Definition parseIPv4Fields (s : string) : option Z :=
  match Split s "." with
  | [a; b; c; d] =>
      a ← v4_field a; b ← v4_field b; c ← v4_field c; d ← v4_field d;
      Some (((a * 256 + b) * 256 + c) * 256 + d)%Z
  | _ => None
  end.

Definition hex_digit (a : ascii) : option Z :=
  let n := Z.of_nat (nat_of_ascii a) in
  if (48 <=? n)%Z && (n <=? 57)%Z then Some (n - 48)%Z
  else if (97 <=? n)%Z && (n <=? 102)%Z then Some (n - 87)%Z
  else if (65 <=? n)%Z && (n <=? 70)%Z then Some (n - 55)%Z
  else None.

(** The hexadecimal digits a text starts with, their value and the rest; more than
    [max] of them are an error. *)
Fixpoint hex_digits (max : nat) (s : string) (acc : Z) : option (Z * string) :=
  match s with
  | "" => Some (acc, "")
  | String a s' =>
      match hex_digit a with
      | None => Some (acc, s)
      | Some d => match max with O => None | S max' => hex_digits max' s' (acc * 16 + d)%Z end
      end
  end.

Definition hex_field (s : string) : option (Z * string) :=
  match s with
  | "" => None
  | String a _ => match hex_digit a with None => None | Some _ => hex_digits 4 s 0 end
  end.

Definition has {A} (o : option A) : bool := match o with Some _ => true | None => false end.

(** The fields of an IPv6 address: [n] of the eight are still free, [groups] are read,
    [ellipsis] is the place of the ["::"]. *)
Fixpoint v6_fields (n : nat) (s : string) (groups : list Z) (ellipsis : option nat) : option (list Z * option nat) :=
  match n with
  | O => if String.eqb s "" then Some (groups, ellipsis) else None
  | S n' =>
      '(acc, rest) ← hex_field s;
      match rest with
      | "" => Some (groups ++ [acc], ellipsis)
      | String c s1 =>
          if Ascii.eqb c "." then
            if (negb (has ellipsis) && negb (Nat.eqb n 2)) || Nat.ltb n 2 then None
            else v ← parseIPv4Fields s; Some (groups ++ [v / 65536; v mod 65536]%Z, ellipsis)
          else if negb (Ascii.eqb c ":") then None
          else
            match s1 with
            | "" => None
            | String c1 s2 =>
                if Ascii.eqb c1 ":" then
                  if has ellipsis then None
                  else if String.eqb s2 "" then Some (groups ++ [acc], Some (S (List.length groups)))
                  else v6_fields n' s2 (groups ++ [acc]) (Some (S (List.length groups)))
                else v6_fields n' s1 (groups ++ [acc]) ellipsis
            end
      end
  end.

Definition of_groups (l : list Z) : Z := fold_left (fun acc g => acc * 65536 + g)%Z l 0%Z.

(** The ["::"] expands to at least one field. *)
Definition expand (groups : list Z) (ellipsis : option nat) : option (list Z) :=
  match ellipsis with
  | None => if Nat.eqb (List.length groups) 8 then Some groups else None
  | Some e =>
      if Nat.ltb (List.length groups) 8
      then Some (take e groups ++ replicate (8 - List.length groups) 0%Z ++ drop e groups)
      else None
  end.

Definition parseIPv6 (s : string) : option Z :=
  if HasPrefix s "::" then
    let s' := str_drop 2 s in
    if String.eqb s' "" then Some 0%Z
    else '(groups, ellipsis) ← v6_fields 8 s' [] (Some 0); of_groups <$> expand groups ellipsis
  else '(groups, ellipsis) ← v6_fields 8 s [] None; of_groups <$> expand groups ellipsis.

(** [netip.ParseAddr] for an address without a zone ([ParseCIDR] refuses zones): the
    first ['.'] or [':'] tells the family. *)
Inductive addr :=
| V4 (b : Z)
| V6 (b : Z).

Fixpoint is_v4 (s : string) : option bool :=
  match s with
  | "" => None
  | String c s' =>
      if Ascii.eqb c "." then Some true
      else if Ascii.eqb c ":" then Some false
      else if Ascii.eqb c "%" then None
      else is_v4 s'
  end.

Definition ParseAddr (s : string) : option addr :=
  match is_v4 s with
  | Some true => V4 <$> parseIPv4Fields s
  | Some false => V6 <$> parseIPv6 s
  | None => None
  end.

Definition BitLen (a : addr) : Z := match a with V4 _ => 32 | V6 _ => 128 end.
Definition As16 (a : addr) : IP := match a with V4 b => IP16 (v4InV6 + b) | V6 b => IP16 b end.

(** [net.ParseCIDR] *)
Definition ParseCIDR (s : string) : option (IP * IPNet) :=
  '(addr, mask) ← Cut s "/";
  a ← ParseAddr addr;
  n ← ParseUint mask;
  if (BitLen a <? n)%Z then None
  else
    let m := mkMask (BitLen a) n in
    Some (As16 a, mkNet (IP_Mask (As16 a) m) m).

(** ** The validator *)

Inductive CIDRType := MachineCIDR | ServiceCIDR | PodCIDR.

Definition ServiceCIDRSubnetMax : Z := 24.
Definition PodCIDRSubnetMax : Z := 21.
Definition PodNodesMin : Z := 32.
Definition HostPrefixMin : Z := 23.
Definition HostPrefixMax : Z := 26.

(** [DefaultHypershiftAdvertiseAddress], 172.20.0.1, as [net.ParseIP] gives it *)
Definition hypershiftIP : IP := IP16 (v4InV6 + (((172 * 256 + 20) * 256 + 0) * 256 + 1))%Z.

Inductive reason :=
| ParseFailed (t : CIDRType) (cidr : string)
| InvalidFormat (t : CIDRType) (cidr : string)
| NotANumber (t : CIDRType) (cidr : string)
| TooSmall (t : CIDRType) (cidr : string) (max : Z)
| Inconsistent (t : CIDRType) (cidr : string) (prefix : Z)
| HostPrefixRange (hostPrefix : Z)
| NotEnoughNodes (podSubnet hostPrefix podNodes : Z)
| Overlap (t1 : CIDRType) (n1 : IPNet) (t2 : CIDRType) (n2 : IPNet)
| Reserved (t : CIDRType).

Record ValidationError := mkError {
  Field : string;
  Reason : reason
}.

Definition cidrTypeToFieldPath (t : CIDRType) : string :=
  match t with
  | MachineCIDR => "spec.hostedCluster.networking.machineNetwork"
  | ServiceCIDR => "spec.hostedCluster.networking.serviceNetwork"
  | PodCIDR => "spec.hostedCluster.networking.clusterNetwork"
  end.

Definition max_prefix (t : CIDRType) : option Z :=
  match t with
  | MachineCIDR => None
  | ServiceCIDR => Some ServiceCIDRSubnetMax
  | PodCIDR => Some PodCIDRSubnetMax
  end.

Definition validateCIDRValue (cidr : string) (t : CIDRType) : option reason :=
  match Split cidr "/" with
  | [_; m] =>
      match max_prefix t with
      | None => None
      | Some maxValue =>
          match ParseInt m with
          | None => Some (NotANumber t cidr)
          | Some mCidr => if (maxValue <? mCidr)%Z then Some (TooSmall t cidr maxValue) else None
          end
      end
  | _ => Some (InvalidFormat t cidr)
  end.

Definition parseNetworkCIDR (cidr : string) (t : CIDRType) : result ValidationError IPNet :=
  match ParseCIDR cidr with
  | None => Err (mkError (cidrTypeToFieldPath t) (ParseFailed t cidr))
  | Some (address, network) =>
      match validateCIDRValue cidr t with
      | Some r => Err (mkError (cidrTypeToFieldPath t) r)
      | None =>
          if bool_decide (normal address = normal (IP_Mask address (n_Mask network))) then Ok network
          else Err (mkError (cidrTypeToFieldPath t) (Inconsistent t cidr (m_ones (n_Mask network))))
      end
  end.

Definition wrap_i32 (z : Z) : Z := ((z + 2 ^ 31) mod 2 ^ 32 - 2 ^ 31)%Z.

(** [int64(math.Pow(2, float64(e)))]; the conversion of a float that is too large is
    left to the machine: [overflow e] is what it gives. *)
Definition int64_pow2 (overflow : Z → Z) (e : Z) : Z :=
  if (e <? 0)%Z then 0%Z else if (e <? 63)%Z then (2 ^ e)%Z else overflow e.

Definition validateHostPrefix (overflow : Z → Z) (hostPrefix : Z) (podNet : IPNet) : list ValidationError :=
  if (hostPrefix =? 0)%Z then []
  else
    let podSubnet := m_ones (n_Mask podNet) in
    let podNodes := int64_pow2 overflow (wrap_i32 (hostPrefix - podSubnet)) in
    (if (hostPrefix <? HostPrefixMin)%Z || (HostPrefixMax <? hostPrefix)%Z
     then [mkError "spec.hostedCluster.networking.clusterNetwork.hostPrefix" (HostPrefixRange hostPrefix)]
     else []) ++
    (if (podNodes <? PodNodesMin)%Z
     then [mkError "spec.hostedCluster.networking.clusterNetwork" (NotEnoughNodes podSubnet hostPrefix podNodes)]
     else []).

(** The networks of a cluster, as texts; empty ones are unset. *)
Record ClusterNetworking := mkNetworking {
  MachineNetwork : list string;
  ServiceNetwork : list string;
  ClusterNetwork : list (string * Z)
}.

(** One of the loops of [parseNetworks]: the networks and the errors. *)
Fixpoint parse_entries (t : CIDRType) (check : Z → IPNet → list ValidationError) (entries : list (string * Z)) : list IPNet * list ValidationError :=
  match entries with
  | [] => ([], [])
  | (cidr, hostPrefix) :: rest =>
      let '(nets, errs) := parse_entries t check rest in
      if String.eqb cidr "" then (nets, errs)
      else match parseNetworkCIDR cidr t with
           | Err e => (nets, e :: errs)
           | Ok parsed => (parsed :: nets, check hostPrefix parsed ++ errs)
           end
  end.

Definition no_check (hostPrefix : Z) (n : IPNet) : list ValidationError := [].

Definition parseNetworks (overflow : Z → Z) (networking : ClusterNetworking) : list IPNet * list IPNet * list IPNet * list ValidationError :=
  let '(machineNets, errs1) := parse_entries MachineCIDR no_check (map (fun c => (c, 0%Z)) (MachineNetwork networking)) in
  let '(serviceNets, errs2) := parse_entries ServiceCIDR no_check (map (fun c => (c, 0%Z)) (ServiceNetwork networking)) in
  let '(podNets, errs3) := parse_entries PodCIDR (validateHostPrefix overflow) (ClusterNetwork networking) in
  (machineNets, serviceNets, podNets, errs1 ++ errs2 ++ errs3).

Definition intersect (n1 n2 : IPNet) : bool := Contains n2 (n_IP n1) || Contains n1 (n_IP n2).

(** The loops over two lists, and over the pairs [i < j] of one list. *)
Definition cross_overlaps (t1 t2 : CIDRType) (nets1 nets2 : list IPNet) : list ValidationError :=
  flat_map (fun n1 => flat_map (fun n2 =>
    if intersect n1 n2 then [mkError "spec.hostedCluster.networking" (Overlap t1 n1 t2 n2)] else []) nets2) nets1.

Definition within_overlaps (t : CIDRType) (nets : list IPNet) : list ValidationError :=
  mjoin (imap (fun i net1 => mjoin (imap (fun j net2 =>
    if Nat.ltb i j && intersect net1 net2 then [mkError (cidrTypeToFieldPath t) (Overlap t net1 t net2)] else []) nets)) nets).

Definition validateNetworkOverlaps (machineNets serviceNets podNets : list IPNet) : list ValidationError :=
  cross_overlaps MachineCIDR ServiceCIDR machineNets serviceNets ++
  cross_overlaps MachineCIDR PodCIDR machineNets podNets ++
  cross_overlaps ServiceCIDR PodCIDR serviceNets podNets ++
  within_overlaps MachineCIDR machineNets ++
  within_overlaps ServiceCIDR serviceNets ++
  within_overlaps PodCIDR podNets.

Definition collisions (t : CIDRType) (nets : list IPNet) : list ValidationError :=
  flat_map (fun n => if Contains n hypershiftIP then [mkError (cidrTypeToFieldPath t) (Reserved t)] else []) nets.

Definition validateHypershiftAPICollision (machineNets serviceNets podNets : list IPNet) : list ValidationError :=
  collisions MachineCIDR machineNets ++ collisions ServiceCIDR serviceNets ++ collisions PodCIDR podNets.

Definition ValidateNetworkCIDRs (overflow : Z → Z) (networking : option ClusterNetworking) : list ValidationError :=
  match networking with
  | None => []
  | Some networking =>
      let '(machineNets, serviceNets, podNets, errs) := parseNetworks overflow networking in
      errs ++ validateNetworkOverlaps machineNets serviceNets podNets ++
      validateHypershiftAPICollision machineNets serviceNets podNets
  end.

(** Samples, on texts *)
Definition parsed (s : string) : option (IP * Z) :=
  '(_, n) ← ParseCIDR s; Some (n_IP n, m_ones (n_Mask n)).

Example parse_v4 : parsed "10.1.2.3/16" = Some (IP4 167837696, 16%Z).
Proof. vm_compute. reflexivity. Qed.
Example parse_v6 : parsed "fd01::1:2/112" = Some (IP16 336299875230442250672291716747256463360, 112%Z).
Proof. vm_compute. reflexivity. Qed.

(** ** What is parsed is in range *)

Lemma v4_field_range s v : v4_field s = Some v → (0 ≤ v < 256)%Z.
Proof.
  unfold v4_field. destruct (_ && _); [done|]. destruct (ParseUint s) as [n|] eqn:Hn; [|done]. cbn.
  apply ParseUint_range in Hn. unfold in_uint64 in Hn. destruct (Z.leb_spec n 255); [|done]. intros [= <-]. lia.
Qed.

Lemma parseIPv4Fields_range s v : parseIPv4Fields s = Some v → (0 ≤ v < 2 ^ 32)%Z.
Proof.
  unfold parseIPv4Fields. destruct (Split s ".") as [|a [|b [|c [|d [|]]]]]; try done.
  destruct (v4_field a) as [va|] eqn:Ha; [|done]. destruct (v4_field b) as [vb|] eqn:Hb; [|done].
  destruct (v4_field c) as [vc|] eqn:Hc; [|done]. destruct (v4_field d) as [vd|] eqn:Hd; [|done].
  apply v4_field_range in Ha, Hb, Hc, Hd. cbn. intros [= <-]. lia.
Qed.

Lemma hex_digit_range a d : hex_digit a = Some d → (0 ≤ d < 16)%Z.
Proof. unfold hex_digit. intros H. repeat case_match; simplify_eq; split_bool; lia. Qed.

Lemma hex_digits_range max s : ∀ acc v rest,
  (0 ≤ acc)%Z → hex_digits max s acc = Some (v, rest) → (0 ≤ v < (acc + 1) * 16 ^ Z.of_nat max)%Z.
Proof.
  assert (Hbase : ∀ k x, (0 ≤ x)%Z → (0 ≤ x < (x + 1) * 16 ^ Z.of_nat k)%Z).
  { intros k x Hx. pose proof (Z.pow_pos_nonneg 16 (Z.of_nat k)). nia. }
  revert s. induction max as [|max IH]; intros [|a s] acc v rest Hacc; cbn [hex_digits].
  - intros [= <- <-]. by apply (Hbase 0).
  - destruct (hex_digit a); [done|]. intros [= <- <-]. by apply (Hbase 0).
  - intros [= <- <-]. by apply Hbase.
  - destruct (hex_digit a) as [d|] eqn:Hd; [|intros [= <- <-]; by apply Hbase].
    apply hex_digit_range in Hd. intros H. apply IH in H; [|lia].
    rewrite Nat2Z.inj_succ, Z.pow_succ_r by lia. pose proof (Z.pow_pos_nonneg 16 (Z.of_nat max)). nia.
Qed.

Definition group (g : Z) : Prop := (0 ≤ g < 65536)%Z.

Lemma hex_field_range s v rest : hex_field s = Some (v, rest) → group v.
Proof.
  unfold hex_field, group. destruct s as [|a s]; [done|]. destruct (hex_digit a); [|done].
  intros H. apply hex_digits_range in H; lia.
Qed.

Lemma v6_fields_groups n : ∀ s groups e groups' e',
  Forall group groups → v6_fields n s groups e = Some (groups', e') → Forall group groups'.
Proof.
  induction n as [|n IH]; intros s groups e groups' e' Hg; cbn [v6_fields].
  { destruct (String.eqb s ""); [|done]. by intros [= <- <-]. }
  destruct (hex_field s) as [[acc rest]|] eqn:Hh; [|done]. apply hex_field_range in Hh. cbn.
  assert (Hg' : Forall group (groups ++ [acc])) by (apply Forall_app; by split; [|constructor]).
  destruct rest as [|c s1]; [by intros [= <- <-]|].
  destruct (Ascii.eqb c ".").
  { destruct (_ || _); [done|]. destruct (parseIPv4Fields s) as [v|] eqn:Hv; [|done].
    apply parseIPv4Fields_range in Hv. intros [= <- <-]. apply Forall_app. split; [done|]. unfold group.
    repeat constructor; try apply Z.mod_pos_bound; try apply Z.div_pos; try apply Z.div_lt_upper_bound; lia. }
  destruct (negb _); [done|]. destruct s1 as [|c1 s2]; [done|]. destruct (Ascii.eqb c1 ":"); [|by apply IH].
  destruct (has e); [done|]. destruct (String.eqb s2 ""); [by intros [= <- <-]|by apply IH].
Qed.

Lemma expand_groups groups e l : Forall group groups → expand groups e = Some l → List.length l = 8 ∧ Forall group l.
Proof.
  intros Hg. unfold expand. destruct e as [e|].
  - destruct (Nat.ltb_spec (List.length groups) 8); [|done]. intros [= <-]. split.
    + rewrite !length_app, length_replicate, length_take, length_drop. lia.
    + apply Forall_app. split; [by apply Forall_take|]. apply Forall_app. split; [|by apply Forall_drop].
      apply Forall_replicate. unfold group. lia.
  - destruct (Nat.eqb_spec (List.length groups) 8); [|done]. by intros [= <-].
Qed.

Lemma of_groups_range l : List.length l = 8 → Forall group l → (0 ≤ of_groups l < 2 ^ 128)%Z.
Proof.
  intros Hl Hg. do 8 (destruct l as [|? l]; [done|]). destruct l; [|done].
  repeat (apply Forall_cons in Hg as [? Hg]). unfold group in *. unfold of_groups. cbn [fold_left]. lia.
Qed.

Lemma parseIPv6_range s b : parseIPv6 s = Some b → (0 ≤ b < 2 ^ 128)%Z.
Proof.
  assert (Hgo : ∀ s e v, ('(groups, ellipsis) ← v6_fields 8 s [] e; of_groups <$> expand groups ellipsis) = Some v → (0 ≤ v < 2 ^ 128)%Z).
  { intros s' e v. destruct (v6_fields 8 s' [] e) as [[groups e']|] eqn:Hf; [|done]. cbn.
    apply v6_fields_groups in Hf; [|done]. destruct (expand groups e') as [l|] eqn:He; [|done]. cbn. intros [= <-].
    apply expand_groups in He as [? ?]; [|done]. by apply of_groups_range. }
  unfold parseIPv6. destruct (HasPrefix s "::"); [|apply Hgo].
  destruct (String.eqb _ _); [intros [= <-]; lia|apply Hgo].
Qed.

Definition addr_value (a : addr) : Z := match a with V4 b | V6 b => b end.

Lemma ParseAddr_range s a : ParseAddr s = Some a → (0 ≤ addr_value a < 2 ^ BitLen a)%Z.
Proof.
  unfold ParseAddr. destruct (is_v4 s) as [[]|]; [| |done].
  - destruct (parseIPv4Fields s) as [v|] eqn:Hv; [|done]. cbn. intros [= <-]. by apply parseIPv4Fields_range in Hv.
  - destruct (parseIPv6 s) as [v|] eqn:Hv; [|done]. cbn. intros [= <-]. by apply parseIPv6_range in Hv.
Qed.

(** ** Networks as blocks of addresses *)

(** An address as its family (true: IPv4) and number. *)
Definition family (ip : IP) : option (bool * Z) :=
  match normal ip with
  | IPnil => None
  | IP4 b => Some (true, b)
  | IP16 b => Some (false, b)
  end.

(** The addresses of a network: the block of [2^(bits - prefix)] from its first. *)
Definition covers (n : IPNet) (ip : IP) : Prop :=
  match family (n_IP n), family ip with
  | Some (f, b), Some (f', a) => f = f' ∧ (b ≤ a < b + 2 ^ (m_bits (n_Mask n) - m_ones (n_Mask n)))%Z
  | _, _ => False
  end.

Definition disjoint (n1 n2 : IPNet) : Prop := ¬ ∃ ip, covers n1 ip ∧ covers n2 ip.

Definition ip_ok (ip : IP) : Prop :=
  match ip with
  | IPnil => False
  | IP4 b => (0 ≤ b < 2 ^ 32)%Z
  | IP16 b => (0 ≤ b < 2 ^ 128)%Z
  end.

(** The networks [ParseCIDR] makes: the prefix fits and the host bits are clear. *)
Definition net_ok (n : IPNet) : Prop :=
  let m := n_Mask n in
  (0 ≤ m_ones m ≤ m_bits m)%Z ∧ ip_ok (n_IP n) ∧
  match n_IP n with
  | IPnil => False
  | IP4 b => m_bits m = 32%Z ∧ (2 ^ (m_bits m - m_ones m) | b)%Z
  | IP16 b => m_bits m = 128%Z ∧ (2 ^ (m_bits m - m_ones m) | b)%Z
  end.

Lemma mask_value_ones m : (0 ≤ m_ones m ≤ m_bits m)%Z → mask_value m = Z.shiftl (Z.ones (m_ones m)) (m_bits m - m_ones m).
Proof.
  intros H. unfold mask_value. rewrite Z.shiftl_mul_pow2, Z.ones_equiv by lia.
  replace (2 ^ m_bits m)%Z with (2 ^ m_ones m * 2 ^ (m_bits m - m_ones m))%Z; [lia|].
  rewrite <-Z.pow_add_r by lia. f_equal. lia.
Qed.

(** Masking clears the host bits. *)
Lemma land_mask m a :
  (0 ≤ m_ones m ≤ m_bits m)%Z → (0 ≤ a < 2 ^ m_bits m)%Z →
  Z.land a (mask_value m) = (a / 2 ^ (m_bits m - m_ones m) * 2 ^ (m_bits m - m_ones m))%Z.
Proof.
  intros Hm Ha. rewrite mask_value_ones by done. set (k := (m_bits m - m_ones m)%Z).
  assert (Hk : (0 ≤ k)%Z) by lia.
  rewrite <-Z.shiftl_mul_pow2, <-Z.shiftr_div_pow2 by done.
  rewrite <-(Z.mod_small (Z.shiftr a k) (2 ^ m_ones m)).
  - rewrite <-Z.land_ones by lia. apply Z.bits_inj'. intros i Hi.
    rewrite Z.land_spec, !Z.shiftl_spec by done. rewrite Z.land_spec. destruct (Z.ltb_spec i k).
    + rewrite !(Z.testbit_neg_r _ (i - k)) by lia. by rewrite !andb_false_r.
    + rewrite Z.shiftr_spec by lia. by rewrite Z.sub_add.
  - rewrite Z.shiftr_div_pow2 by done. split; [apply Z.div_pos; lia|].
    apply Z.div_lt_upper_bound; [lia|]. rewrite <-Z.pow_add_r by lia. replace (k + m_ones m)%Z with (m_bits m) by lia. lia.
Qed.

(** Two addresses agree under a mask when one is in the block the other starts. *)
Lemma land_eq_block m b a :
  (0 ≤ m_ones m ≤ m_bits m)%Z → (0 ≤ b < 2 ^ m_bits m)%Z → (0 ≤ a < 2 ^ m_bits m)%Z →
  (2 ^ (m_bits m - m_ones m) | b)%Z →
  Z.land b (mask_value m) = Z.land a (mask_value m) ↔ (b ≤ a < b + 2 ^ (m_bits m - m_ones m))%Z.
Proof.
  intros Hm Hb Ha [q ->]. rewrite !land_mask by done. set (K := (2 ^ (m_bits m - m_ones m))%Z).
  assert (0 < K)%Z by (apply Z.pow_pos_nonneg; lia). rewrite Z.div_mul by lia.
  pose proof (Z.div_mod a K ltac:(lia)). pose proof (Z.mod_pos_bound a K ltac:(lia)). split.
  - intros. lia.
  - intros. rewrite <-(Z.div_unique a K q (a - q * K)); lia.
Qed.

Lemma normal_ok ip : ip_ok ip → ip_ok (normal ip).
Proof.
  unfold normal, To4. destruct ip as [|b|b]; [done..|]. intros H. destruct (_ =? _)%Z; [|done].
  apply Z.mod_pos_bound. lia.
Qed.

Lemma mapped_split b : (0 ≤ b < 2 ^ 128)%Z → (b / 2 ^ 32 =? 65535)%Z = true → b = (v4InV6 + b mod 2 ^ 32)%Z.
Proof. intros _ H%Z.eqb_eq. unfold v4InV6. pose proof (Z.div_mod b (2 ^ 32) ltac:(lia)). lia. Qed.

(** A mapped network has a prefix of at least 96. *)
Lemma mapped_prefix k c : (0 ≤ k)%Z → (0 ≤ c < 2 ^ 32)%Z → (2 ^ k | v4InV6 + c)%Z → (k ≤ 32)%Z ∧ (2 ^ k | c)%Z.
Proof.
  intros Hk Hc Hd. assert (k ≤ 32)%Z as H32.
  { destruct (Z.le_gt_cases k 32) as [|Hgt]; [done|]. exfalso.
    assert (Hd' : (2 ^ 33 | v4InV6 + c)%Z).
    { etransitivity; [|exact Hd]. exists (2 ^ (k - 33))%Z. rewrite <-Z.pow_add_r by lia. f_equal. lia. }
    destruct Hd' as [q Hq]. unfold v4InV6 in Hq. lia. }
  split; [done|]. apply (Z.divide_add_cancel_r _ v4InV6); [|done]. unfold v4InV6.
  apply Z.divide_mul_r. exists (2 ^ (32 - k))%Z. rewrite <-Z.pow_add_r by lia. f_equal. lia.
Qed.

(** [Contains] is membership in the block. *)
Lemma Contains_covers n ip : net_ok n → ip_ok ip → Contains n ip = true ↔ covers n ip.
Proof.
  intros (Hm & Hbase & Hn) Hip. unfold Contains, covers, family, networkNumberAndMask.
  apply normal_ok in Hip. destruct n as [base m]. cbn [n_IP n_Mask] in *.
  destruct base as [|b|b]; [done| |].
  - destruct Hn as [Hbits Hdiv]. cbn [To4]. change (normal (IP4 b)) with (IP4 b). rewrite Hbits. cbn [Z.eqb Pos.eqb].
    destruct (normal ip) as [|a|a]; [done| |by split; [|intros []]]. cbn [ip_ok] in *.
    rewrite Z.eqb_eq, land_eq_block by (done || (rewrite ?Hbits; done)).
    rewrite ?Hbits. split; [by split|by intros [_ ?]].
  - destruct Hn as [Hbits Hdiv]. cbn [ip_ok To4] in *. destruct (b / 2 ^ 32 =? 65535)%Z eqn:Hmap.
    + assert (normal (IP16 b) = IP4 (b mod 2 ^ 32)) as -> by (unfold normal, To4; by rewrite Hmap).
      pose proof (mapped_split b Hbase Hmap) as Hb. rewrite Hbits in *. cbn [Z.eqb Pos.eqb].
      rewrite Hb in Hdiv. apply mapped_prefix in Hdiv as [Hk Hdiv]; [|lia|apply Z.mod_pos_bound; lia].
      destruct (normal ip) as [|a|a]; [done| |by split; [|intros []]]. cbn [ip_ok] in Hip.
      assert (Ht : (m_bits (mask_tail m) - m_ones (mask_tail m) = 128 - m_ones m)%Z) by (unfold mask_tail; cbn [m_bits m_ones]; lia).
      rewrite Z.eqb_eq, land_eq_block.
      * rewrite Ht. split; [by split|by intros [_ ?]].
      * unfold mask_tail. cbn [m_bits m_ones]. lia.
      * exact (Z.mod_pos_bound b (2 ^ 32) ltac:(lia)).
      * done.
      * by rewrite Ht.
    + assert (normal (IP16 b) = IP16 b) as -> by (unfold normal, To4; by rewrite Hmap).
      rewrite Hbits. cbn [Z.eqb Pos.eqb]. destruct (normal ip) as [|a|a]; [done|by split; [|intros []]|]. cbn [ip_ok] in Hip.
      rewrite Z.eqb_eq, land_eq_block by (done || (rewrite ?Hbits; done)).
    rewrite ?Hbits. split; [by split|by intros [_ ?]].
Qed.

Lemma family_some ip : ip_ok ip → ∃ f b, family ip = Some (f, b).
Proof. intros H%normal_ok. unfold family. destruct (normal ip); [done|eauto..]. Qed.

Lemma intersect_blocks n1 n2 : net_ok n1 → net_ok n2 → intersect n1 n2 = false ↔ disjoint n1 n2.
Proof.
  intros H1 H2. unfold intersect. rewrite orb_false_iff, <-!not_true_iff_false.
  rewrite !Contains_covers by (done || apply H1 || apply H2). unfold disjoint, covers.
  destruct (family_some (n_IP n1)) as (f1 & b1 & F1); [apply H1|].
  destruct (family_some (n_IP n2)) as (f2 & b2 & F2); [apply H2|]. rewrite F1, F2. split.
  - intros [N1 N2] [ip [C1 C2]]. destruct (family ip) as [[f a]|]; [|done].
    destruct C1 as [-> ?], C2 as [-> ?]. destruct (Z.le_gt_cases b1 b2); [apply N2|apply N1]; (split; [done|lia]).
  - intros N. split; intros [-> ?]; apply N; [exists (n_IP n1); rewrite F1|exists (n_IP n2); rewrite F2];
      (split; split; [done| |done|]; try lia).
    + split; [lia|]. pose proof (Z.pow_pos_nonneg 2 (m_bits (n_Mask n1) - m_ones (n_Mask n1)) ltac:(lia)).
      destruct H1 as ((? & ?) & _). lia.
    + split; [lia|]. pose proof (Z.pow_pos_nonneg 2 (m_bits (n_Mask n2) - m_ones (n_Mask n2)) ltac:(lia)).
      destruct H2 as ((? & ?) & _). lia.
Qed.

(** ** What [ParseCIDR] makes *)

Lemma Cut_spec s c a b : Cut s c = Some (a, b) → s = (a +:+ String c b)%string ∧ str_free c a = true.
Proof.
  revert a. induction s as [|x s IH]; intros a; cbn [Cut]; [done|]. destruct (Ascii.eqb_spec x c) as [->|Hne].
  - by intros [= <- <-].
  - destruct (Cut s c) as [[a' b']|]; [|done]. intros [= <- <-]. destruct (IH a' eq_refl) as [-> Hf]. split; [done|].
    unfold str_free. cbn [str_forall]. apply andb_true_iff. split; [|exact Hf].
    apply negb_true_iff. by apply Ascii.eqb_neq.
Qed.

Lemma land_divide m a : (0 ≤ m_ones m ≤ m_bits m)%Z → (0 ≤ a < 2 ^ m_bits m)%Z →
  (0 ≤ Z.land a (mask_value m) < 2 ^ m_bits m)%Z ∧ (2 ^ (m_bits m - m_ones m) | Z.land a (mask_value m))%Z.
Proof.
  intros Hm Ha. rewrite land_mask by done. set (K := (2 ^ (m_bits m - m_ones m))%Z).
  assert (0 < K)%Z by (apply Z.pow_pos_nonneg; lia). split; [|by apply Z.divide_factor_r].
  pose proof (Z.div_mod a K ltac:(lia)). pose proof (Z.mod_pos_bound a K ltac:(lia)).
  pose proof (Z.div_pos a K ltac:(lia) ltac:(lia)). nia.
Qed.

Lemma ParseCIDR_ok s a n : ParseCIDR s = Some (a, n) → net_ok n ∧ ip_ok a.
Proof.
  unfold ParseCIDR. destruct (Cut s "/") as [[addr mask]|]; [|done]. cbn.
  destruct (ParseAddr addr) as [v|] eqn:Hv; [|done]. cbn. apply ParseAddr_range in Hv.
  destruct (ParseUint mask) as [p|] eqn:Hp; [|done]. cbn. apply ParseUint_range in Hp. destruct Hp as [Hp _].
  destruct (Z.ltb_spec (BitLen v) p) as [|Hle]; [done|]. intros [= <- <-].
  destruct v as [b|b]; cbn [addr_value BitLen As16] in *.
  - destruct (land_divide (mkMask 32 p) b) as [Hr Hd]; [cbn [m_ones m_bits]; lia|exact Hv|].
    assert (Hmap : To4 (IP16 (v4InV6 + b)) = Some b).
    { unfold To4, v4InV6. rewrite Z.add_comm, Z.div_add, Z.mod_add by lia.
      by rewrite Z.div_small, Z.mod_small by lia. }
    unfold net_ok, IP_Mask. rewrite Hmap. cbn [m_bits m_ones n_Mask n_IP Z.eqb Pos.eqb ip_ok] in *.
    split_and!; try done; try lia; unfold v4InV6; lia.
  - destruct (land_divide (mkMask 128 p) b) as [Hr Hd]; [cbn [m_ones m_bits]; lia|exact Hv|].
    unfold net_ok, IP_Mask. cbn [m_bits m_ones n_Mask n_IP Z.eqb Pos.eqb ip_ok] in *.
    split_and!; try done; lia.
Qed.

(** The prefix the text spells is the one the network has. *)
Lemma uint_of_char_digit a d d' : DecimalString.uint_of_char a d = Some d' → is_digit a = true ∧ is_Some d.
Proof.
  destruct d as [d|].
  - destruct a as [[] [] [] [] [] [] [] []]; cbn; try done; eauto.
  - by destruct a as [[] [] [] [] [] [] [] []].
Qed.

Lemma uint_of_string_digits s d : DecimalString.NilEmpty.uint_of_string s = Some d → str_forall is_digit s = true.
Proof.
  revert d. induction s as [|a s IH]; intros d; [done|]. cbn [DecimalString.NilEmpty.uint_of_string str_forall].
  intros H. apply uint_of_char_digit in H as [Ha [d' Hd]]. rewrite Ha. by apply (IH d').
Qed.

Lemma ParseUint_digits s n : ParseUint s = Some n → str_forall is_digit s = true.
Proof.
  unfold ParseUint. destruct (DecimalString.NilZero.uint_of_string s) as [d|] eqn:Hd; [|done]. intros _.
  destruct s as [|a s]; [done|]. by apply uint_of_string_digits in Hd.
Qed.

Lemma ParseInt_ParseUint s n : ParseUint s = Some n → (n < 2 ^ 63)%Z → ParseInt s = Some n.
Proof.
  intros Hn Hlt. pose proof (ParseUint_digits s n Hn) as Hd. unfold ParseInt. destruct s as [|a s]; [done|].
  rewrite !(digits_head_not a s) by done. rewrite Hn. by rewrite (proj2 (Z.ltb_lt _ _)).
Qed.

Lemma ParseCIDR_text s a n :
  ParseCIDR s = Some (a, n) → ∃ addr mask, Split s "/" = [addr; mask] ∧ ParseInt mask = Some (m_ones (n_Mask n)).
Proof.
  intros H. pose proof (ParseCIDR_ok s a n H) as [(Hm & _ & Hn) _]. revert H. unfold ParseCIDR.
  destruct (Cut s "/") as [[addr mask]|] eqn:Hc; [|done]. cbn.
  destruct (ParseAddr addr) as [v|]; [|done]. cbn. destruct (ParseUint mask) as [p|] eqn:Hp; [|done]. cbn.
  destruct (Z.ltb_spec (BitLen v) p) as [|Hle]; [done|]. intros [= <- <-]. cbn [n_Mask m_ones].
  apply Cut_spec in Hc as [-> Hf]. exists addr, mask. split.
  - rewrite Split_app by done. rewrite Split_free; [done|].
    apply digits_free; [done|]. by eapply ParseUint_digits.
  - apply ParseInt_ParseUint; [done|]. destruct v; cbn in Hle; lia.
Qed.

(** A network the validator takes: it parses, is not smaller than its kind allows, and
    its address is the network's own. *)
Definition usable (t : CIDRType) (cidr : string) (n : IPNet) : Prop :=
  ∃ address, ParseCIDR cidr = Some (address, n) ∧
    (∀ m, max_prefix t = Some m → (m_ones (n_Mask n) ≤ m)%Z) ∧
    normal address = normal (n_IP n).

Lemma ParseCIDR_masked s a n : ParseCIDR s = Some (a, n) → n_IP n = IP_Mask a (n_Mask n).
Proof.
  unfold ParseCIDR. destruct (Cut s "/") as [[addr mask]|]; [|done]. cbn.
  destruct (ParseAddr addr) as [v|]; [|done]. cbn. destruct (ParseUint mask) as [p|]; [|done]. cbn.
  destruct (_ <? _)%Z; [done|]. by intros [= <- <-].
Qed.

Lemma parseNetworkCIDR_ok cidr t n : parseNetworkCIDR cidr t = Ok n ↔ usable t cidr n.
Proof.
  unfold parseNetworkCIDR, usable. destruct (ParseCIDR cidr) as [[a m]|] eqn:Hp; [|naive_solver].
  destruct (ParseCIDR_text _ _ _ Hp) as (addr & mask & Hs & Hi). unfold validateCIDRValue. rewrite Hs, Hi.
  pose proof (ParseCIDR_masked _ _ _ Hp) as Hm. destruct (max_prefix t) as [mx|].
  - destruct (Z.ltb_spec mx (m_ones (n_Mask m))).
    + split; [done|]. intros (a' & [= <- <-] & Hle & _). specialize (Hle mx eq_refl). lia.
    + rewrite <-Hm. case_bool_decide; [|naive_solver]. split; [intros [= <-]|intros (? & [= <- <-] & _)]; [|done].
      exists a. split_and!; [done| |done]. by intros ? [= <-].
  - rewrite <-Hm. case_bool_decide; [|naive_solver]. split; [intros [= <-]|intros (? & [= <- <-] & _)]; [|done].
    by exists a.
Qed.

Lemma usable_ok t cidr n : usable t cidr n → net_ok n.
Proof. intros (a & Hp & _). by apply ParseCIDR_ok in Hp as [? _]. Qed.

Lemma usable_unique t cidr n n' : usable t cidr n → usable t cidr n' → n = n'.
Proof. rewrite <-!parseNetworkCIDR_ok. congruence. Qed.

(** ** Host prefixes *)

(** Between /23 and /26, and leaving the pod network at least 32 = 2^5 nodes. *)
Definition host_prefix_ok (hostPrefix : Z) (n : IPNet) : Prop :=
  hostPrefix = 0%Z ∨ (23 ≤ hostPrefix ≤ 26 ∧ m_ones (n_Mask n) + 5 ≤ hostPrefix)%Z.

Lemma validateHostPrefix_nil overflow hostPrefix n :
  net_ok n → validateHostPrefix overflow hostPrefix n = [] ↔ host_prefix_ok hostPrefix n.
Proof.
  intros (Hm & _ & Hn). assert (Hb : (m_bits (n_Mask n) ≤ 128)%Z) by (destruct (n_IP n); [done|lia..]). clear Hn.
  unfold validateHostPrefix, host_prefix_ok, HostPrefixMin, HostPrefixMax, PodNodesMin.
  destruct (Z.eqb_spec hostPrefix 0) as [|Hz]; [by split; [left|]|]. cbv zeta.
  destruct (Z.ltb_spec hostPrefix 23); [by split; [|lia]|]. destruct (Z.ltb_spec 26 hostPrefix); [by split; [|lia]|].
  cbn [orb app]. set (p := m_ones (n_Mask n)) in *.
  assert (wrap_i32 (hostPrefix - p) = hostPrefix - p)%Z as -> by (unfold wrap_i32; rewrite Z.mod_small; lia).
  unfold int64_pow2. destruct (Z.ltb_spec (hostPrefix - p) 0); [cbn; split; [done|lia]|].
  rewrite (proj2 (Z.ltb_lt _ 63)) by lia. destruct (Z.ltb_spec (2 ^ (hostPrefix - p)) 32) as [Hs|Hs].
  - split; [done|]. intros [?|[_ ?]]; [done|]. change 32%Z with (2 ^ 5)%Z in Hs. apply Z.pow_lt_mono_r_iff in Hs; lia.
  - split; [|done]. intros _. right. split; [lia|]. change 32%Z with (2 ^ 5)%Z in Hs. apply Z.pow_le_mono_r_iff in Hs; lia.
Qed.

(** ** Overlaps *)

(** Every two elements of a list, the first before the second. *)
Definition pairwise {A} (R : A → A → Prop) (l : list A) : Prop :=
  ∀ i j x y, i < j → l !! i = Some x → l !! j = Some y → R x y.

Lemma pairwise_app {A} (R : A → A → Prop) l1 l2 :
  pairwise R (l1 ++ l2) ↔ pairwise R l1 ∧ pairwise R l2 ∧ (∀ x y, x ∈ l1 → y ∈ l2 → R x y).
Proof.
  unfold pairwise. split.
  - intros H. split_and!.
    + intros i j x y Hij Hi Hj. eapply (H i j); [done|by apply lookup_app_l_Some..].
    + intros i j x y Hij Hi Hj. eapply (H (List.length l1 + i) (List.length l1 + j)); [lia|..]; by rewrite lookup_app_r, Nat.add_comm, Nat.add_sub by lia.
    + intros x y Hx Hy. apply list_elem_of_lookup in Hx as [i Hi], Hy as [j Hj]. pose proof (lookup_lt_Some _ _ _ Hi).
      eapply (H i (List.length l1 + j)); [lia|by apply lookup_app_l_Some|].
      by rewrite lookup_app_r, Nat.add_comm, Nat.add_sub by lia.
  - intros (H1 & H2 & H12) i j x y Hij Hi Hj. apply lookup_app_Some in Hi as [Hi|[Hl Hi]], Hj as [Hj|[Hl' Hj]].
    + by eapply (H1 i j).
    + apply H12; [by eapply list_elem_of_lookup_2|by eapply list_elem_of_lookup_2].
    + pose proof (lookup_lt_Some _ _ _ Hj). lia.
    + eapply (H2 (i - List.length l1) (j - List.length l1)); [lia|done..].
Qed.

Lemma flat_map_nil {A B} (f : A → list B) l : flat_map f l = [] ↔ ∀ x, x ∈ l → f x = [].
Proof.
  induction l as [|a l IH]; cbn; [split; [intros _ x Hx; by apply not_elem_of_nil in Hx|done]|].
  rewrite app_nil, IH. split.
  - intros [Ha Hl] x Hx. apply elem_of_cons in Hx as [->|Hx]; auto.
  - intros H. split; [apply H; left|intros x Hx; apply H; by right].
Qed.

Lemma mjoin_imap_nil {A B} (f : nat → A → list B) l : mjoin (imap f l) = [] ↔ ∀ i x, l !! i = Some x → f i x = [].
Proof.
  revert f. induction l as [|a l IH]; intros f; cbn; [done|].
  rewrite app_nil, (IH (f ∘ S)). split.
  - intros [Ha Hl] [|i] x; cbn; [by intros [= <-]|apply Hl].
  - intros H. split; [by apply (H 0)|]. intros i x. apply (H (S i)).
Qed.

Lemma single_nil {A} (b : bool) (x : A) : (if b then [x] else []) = [] ↔ b = false.
Proof. by destruct b. Qed.

Lemma cross_overlaps_nil t1 t2 nets1 nets2 :
  cross_overlaps t1 t2 nets1 nets2 = [] ↔ ∀ n1 n2, n1 ∈ nets1 → n2 ∈ nets2 → intersect n1 n2 = false.
Proof. unfold cross_overlaps. setoid_rewrite flat_map_nil. setoid_rewrite flat_map_nil. setoid_rewrite single_nil. naive_solver. Qed.

Lemma within_overlaps_nil t nets : within_overlaps t nets = [] ↔ pairwise (fun n1 n2 => intersect n1 n2 = false) nets.
Proof.
  unfold within_overlaps, pairwise. setoid_rewrite mjoin_imap_nil. setoid_rewrite mjoin_imap_nil.
  setoid_rewrite single_nil. setoid_rewrite andb_false_iff. split.
  - intros H i j x y Hij Hi Hj. destruct (H i x Hi j y Hj) as [Hf|]; [|done]. apply Nat.ltb_ge in Hf. lia.
  - intros H i x Hi j y Hj. destruct (Nat.ltb_spec i j); [right; by eapply H|by left].
Qed.

Lemma validateNetworkOverlaps_nil m s p :
  validateNetworkOverlaps m s p = [] ↔ pairwise (fun n1 n2 => intersect n1 n2 = false) (m ++ s ++ p).
Proof.
  unfold validateNetworkOverlaps. rewrite !app_nil, !cross_overlaps_nil, !within_overlaps_nil, !pairwise_app.
  setoid_rewrite elem_of_app. naive_solver.
Qed.

(** ** The verdict *)

Definition given (entries : list (string * Z)) : list (string * Z) := filter (fun e => e.1 ≠ "") entries.

Definition texts (cidrs : list string) : list string := filter (fun c => c ≠ "") cidrs.

Lemma parse_entries_nil t check entries nets :
  parse_entries t check entries = (nets, []) ↔
  Forall2 (fun e n => usable t e.1 n ∧ check e.2 n = []) (given entries) nets.
Proof.
  unfold given. revert nets. induction entries as [|[cidr hp] rest IH]; intros nets; cbn [parse_entries].
  - rewrite filter_nil. split; [intros [= <-]; constructor|by intros ->%Forall2_nil_inv_l].
  - rewrite filter_cons. cbn [fst]. destruct (parse_entries t check rest) as [ns es] eqn:Hp.
    destruct (String.eqb_spec cidr "") as [->|Hne].
    + rewrite decide_False by tauto. apply IH.
    + rewrite decide_True by done. destruct (parseNetworkCIDR cidr t) as [n|e] eqn:Hn.
      * apply parseNetworkCIDR_ok in Hn. split.
        -- intros [= <- Hnil]. apply app_nil in Hnil as [Hc ->]. constructor; [done|]. by apply IH.
        -- intros Hf. apply Forall2_cons_inv_l in Hf as (n' & ns' & [Hu Hc] & Hf & ->). cbn [fst snd] in *.
           rewrite (usable_unique t cidr n n') by done. apply IH in Hf as [= -> ->]. by rewrite Hc.
      * split; [done|]. intros Hf. apply Forall2_cons_inv_l in Hf as (n' & ns' & [Hu _] & _). cbn [fst] in Hu.
        apply parseNetworkCIDR_ok in Hu. congruence.
Qed.

Lemma parse_texts_nil t cidrs nets :
  parse_entries t no_check (map (fun c => (c, 0%Z)) cidrs) = (nets, []) ↔ Forall2 (usable t) (texts cidrs) nets.
Proof.
  rewrite parse_entries_nil.
  assert (given (map (fun c => (c, 0%Z)) cidrs) = (fun c => (c, 0%Z)) <$> texts cidrs) as ->.
  { unfold given, texts. induction cidrs as [|c cs IH]; [done|]. cbn [map]. rewrite !filter_cons. cbn [fst].
    case_decide; [cbn; by rewrite IH|done]. }
  rewrite Forall2_fmap_l. split; intros Hf; (eapply Forall2_impl; [exact Hf|]); [by intros c n []|by intros c n Hu].
Qed.

Lemma collisions_nil t nets : Forall net_ok nets → collisions t nets = [] ↔ Forall (fun n => ¬ covers n hypershiftIP) nets.
Proof.
  intros Hok. unfold collisions. rewrite flat_map_nil, Forall_forall. rewrite Forall_forall in Hok.
  setoid_rewrite single_nil. setoid_rewrite <-not_true_iff_false. apply forall_proper. intros n.
  split; intros H Hin; specialize (H Hin); [rewrite <-Contains_covers|rewrite Contains_covers]; auto; unfold ip_ok, hypershiftIP, v4InV6; lia.
Qed.

Lemma pairwise_impl {A} (R S : A → A → Prop) l : (∀ x y, x ∈ l → y ∈ l → R x y → S x y) → pairwise R l → pairwise S l.
Proof.
  intros H HR i j x y Hij Hi Hj. apply H; [by eapply list_elem_of_lookup_2..|]. by eapply (HR i j).
Qed.

Lemma overlaps_disjoint nets :
  Forall net_ok nets → pairwise (fun n1 n2 => intersect n1 n2 = false) nets ↔ pairwise disjoint nets.
Proof.
  rewrite Forall_forall. intros Hok.
  split; apply pairwise_impl; intros x y Hx Hy; by apply intersect_blocks; apply Hok.
Qed.

Lemma usable_all_ok {A} t (f : A → string) (P : A → IPNet → Prop) entries nets :
  (∀ e n, P e n → usable t (f e) n) → Forall2 P entries nets → Forall net_ok nets.
Proof. intros HP. induction 1; constructor; [by eapply usable_ok, HP|done]. Qed.

(** C40: a cluster's networks are accepted exactly when every CIDR given parses to a
    network that is not too small for its kind and is spelled by its first address,
    every pod host prefix given is in bounds and leaves room for the nodes, no address
    belongs to two of the networks, of whatever kinds, and none of them holds the
    address HyperShift reserves. *)
Theorem ValidateNetworkCIDRs_spec (overflow : Z → Z) (networking : ClusterNetworking) :
  ValidateNetworkCIDRs overflow (Some networking) = [] ↔
  ∃ machine service pod,
    Forall2 (usable MachineCIDR) (texts (MachineNetwork networking)) machine ∧
    Forall2 (usable ServiceCIDR) (texts (ServiceNetwork networking)) service ∧
    Forall2 (fun e n => usable PodCIDR e.1 n ∧ host_prefix_ok e.2 n) (given (ClusterNetwork networking)) pod ∧
    pairwise disjoint (machine ++ service ++ pod) ∧
    Forall (fun n => ¬ covers n hypershiftIP) (machine ++ service ++ pod).
Proof.
  assert (Hpod : ∀ es ns, Forall2 (fun e n => usable PodCIDR e.1 n ∧ validateHostPrefix overflow e.2 n = []) es ns ↔
                          Forall2 (fun e n => usable PodCIDR e.1 n ∧ host_prefix_ok e.2 n) es ns).
  { intros es ns. split; intros Hf; (eapply Forall2_impl; [exact Hf|]); intros [c hp] n [Hu Hc]; (split; [done|]);
      apply usable_ok in Hu; by eapply validateHostPrefix_nil. }
  assert (Hall : ∀ m s p, Forall2 (usable MachineCIDR) (texts (MachineNetwork networking)) m →
    Forall2 (usable ServiceCIDR) (texts (ServiceNetwork networking)) s →
    Forall2 (fun e n => usable PodCIDR e.1 n ∧ host_prefix_ok e.2 n) (given (ClusterNetwork networking)) p →
    Forall net_ok (m ++ s ++ p)).
  { intros m s p Hm Hs Hp. rewrite !Forall_app. split_and!.
    - by eapply (usable_all_ok MachineCIDR id).
    - by eapply (usable_all_ok ServiceCIDR id).
    - eapply (usable_all_ok PodCIDR fst); [|done]. by intros e n []. }
  assert (Htail : ∀ m s p, Forall net_ok (m ++ s ++ p) →
    validateNetworkOverlaps m s p ++ validateHypershiftAPICollision m s p = [] ↔
    pairwise disjoint (m ++ s ++ p) ∧ Forall (fun n => ¬ covers n hypershiftIP) (m ++ s ++ p)).
  { intros m s p Hok. rewrite app_nil, validateNetworkOverlaps_nil, overlaps_disjoint by done.
    unfold validateHypershiftAPICollision. rewrite !Forall_app in *. destruct Hok as (? & ? & ?).
    rewrite !app_nil, !collisions_nil by done. done. }
  unfold ValidateNetworkCIDRs, parseNetworks.
  destruct (parse_entries MachineCIDR _ _) as [m e1] eqn:H1. destruct (parse_entries ServiceCIDR _ _) as [s e2] eqn:H2.
  destruct (parse_entries PodCIDR _ _) as [p e3] eqn:H3. rewrite <-!app_assoc, !app_nil. split.
  - intros (-> & -> & -> & Ho & Hc). rewrite parse_texts_nil in H1, H2. rewrite parse_entries_nil, Hpod in H3.
    exists m, s, p. split_and!; [done..| |]; apply (Htail m s p); rewrite ?app_nil; auto.
  - intros (m' & s' & p' & Hm & Hs & Hp & Hrest). pose proof (Hall m' s' p' Hm Hs Hp) as Hok.
    apply Htail in Hrest; [|done]. apply parse_texts_nil in Hm, Hs. apply Hpod, parse_entries_nil in Hp.
    rewrite H1 in Hm. rewrite H2 in Hs. rewrite H3 in Hp. simplify_eq. apply app_nil in Hrest as []. by split_and!.
Qed.

(** The defaults of a hosted cluster are accepted; a machine network around the pods is
    not, nor one that holds the reserved address. *)
Definition usual (machine : string) : ClusterNetworking :=
  mkNetworking [machine; ""] ["172.30.0.0/16"] [("10.128.0.0/14", 23%Z); ("fd01::/16", 0%Z)].

Example usual_accepted : ValidateNetworkCIDRs (fun _ => 0%Z) (Some (usual "10.0.0.0/16")) = [].
Proof. vm_compute. reflexivity. Qed.

Example overlap_refused :
  map Field (ValidateNetworkCIDRs (fun _ => 0%Z) (Some (usual "10.0.0.0/8"))) = ["spec.hostedCluster.networking"].
Proof. vm_compute. reflexivity. Qed.

Example reserved_refused :
  map Field (ValidateNetworkCIDRs (fun _ => 0%Z) (Some (usual "172.20.0.0/16"))) = ["spec.hostedCluster.networking.machineNetwork"].
Proof. vm_compute. reflexivity. Qed.

End Cidr.
