(* ===== verification/FieldPaths.v ===== *)
(** * Fields of a decoded spec (seaplane-api/pkg/validation)

    Decoded JSON objects as Go maps: lookups and updates along a path
    (preserve.go), the flat map of all field paths (field_validator.go), presence
    (json_fields.go) and deep equality. The order of the entries of a [JObj] is the
    order in which a range loop visits the map; keys are unique in a decoded map. *)
From S2P Require Import Prelude GoStrings Json.
From stdpp Require Import base strings list gmap.
From Stdlib Require Import ZArith Lia Ascii String.
Open Scope string_scope.
#[local] Arguments String.append : simpl nomatch.

Module FieldPaths.

(** ** Map operations *)

Fixpoint obj_put (k : string) (v : json) (l : list (string * json)) : list (string * json) :=
  match l with
  | [] => [(k, v)]
  | (k', v') :: l' => if String.eqb k k' then (k, v) :: l' else (k', v') :: obj_put k v l'
  end.

Definition obj_del (k : string) (l : list (string * json)) : list (string * json) :=
  List.filter (fun kv => negb (String.eqb k kv.1)) l.

(** [reflect.DeepEqual] of decoded values: maps are compared by key. *)
Fixpoint DeepEqual (a b : json) : bool :=
  match a, b with
  | JNull, JNull => true
  | JBool x, JBool y => Bool.eqb x y
  | JNum x, JNum y => (x =? y)%Z
  | JStr x, JStr y => String.eqb x y
  | JArr l, JArr m =>
      (fix go (l m : list json) : bool :=
         match l, m with
         | [], [] => true
         | x :: l', y :: m' => DeepEqual x y && go l' m'
         | _, _ => false
         end) l m
  | JObj l, JObj m =>
      (fix go (l : list (string * json)) : bool :=
         match l with
         | [] => true
         | (k, x) :: l' => match obj_lookup k m with Some y => DeepEqual x y | None => false end && go l'
         end) l &&
      forallb (fun kv => match obj_lookup kv.1 l with Some _ => true | None => false end) m
  | _, _ => false
  end.

(** ** Paths (preserve.go) *)

Fixpoint lookupPath (current : json) (keys : list string) : option json :=
  match keys with
  | [] => Some current
  | key :: rest =>
      match current with
      | JObj object => match obj_lookup key object with Some next => lookupPath next rest | None => None end
      | _ => None
      end
  end.

(** [setPath]; the error names the key that is not an object. *)
Fixpoint setPath (m : list (string * json)) (keys : list string) (value : json) (isPresent : bool) :
    result string (list (string * json)) :=
  match keys with
  | [] => Ok m
  | [last] => Ok (if isPresent then obj_put last value m else obj_del last m)
  | key :: rest =>
      match obj_lookup key m with
      | None | Some JNull =>
          if isPresent then child ← setPath [] rest value isPresent; Ok (obj_put key (JObj child) m)
          else Ok m
      | Some (JObj object) => child ← setPath object rest value isPresent; Ok (obj_put key (JObj child) m)
      | Some _ => Err key
      end
  end.

(** ** The flat map (field_validator.go) *)

(** [flattenMap] of a value under a non-empty prefix *)
Fixpoint flattenMap (prefix : string) (j : json) (result : gmap string json) : gmap string json :=
  match j with
  | JObj m =>
      (fix go (m : list (string * json)) (result : gmap string json) : gmap string json :=
         match m with
         | [] => result
         | (key, val) :: m' =>
             let path := prefix ++ "." ++ key in
             go m' (flattenMap path val (<[path := val]> result))
         end) m result
  | _ => result
  end.

Definition flattenToFieldPaths (spec : json) : gmap string json := flattenMap "spec" spec ∅.

(** ** Presence (json_fields.go) *)

Fixpoint hasJSONFieldPath (value : json) (parts : list string) : bool :=
  match parts with
  | [] => true
  | part :: rest =>
      match value with
      | JObj fields => existsb (fun nc => EqualFold nc.1 part && hasJSONFieldPath nc.2 rest) fields
      | _ => false
      end
  end.

Definition HasJSONField (object : option json) (fieldPath : string) : bool :=
  match object with
  | None => false
  | Some o =>
      if String.eqb fieldPath "" then false
      else
        let parts := Split fieldPath "." in
        if existsb (fun p => String.eqb p "") parts then false else hasJSONFieldPath o parts
  end.

(** ** Decoded values: keys are unique *)

Fixpoint unique (j : json) : bool :=
  match j with
  | JArr l => forallb unique l
  | JObj l => bool_decide (NoDup l.*1) && forallb (fun kv => unique kv.2) l
  | _ => true
  end.

(** ** Lemmas: maps *)

Lemma obj_lookup_put k v l x : obj_lookup x (obj_put k v l) = if String.eqb x k then Some v else obj_lookup x l.
Proof.
  induction l as [|[k1 v1] l IH]; cbn [obj_put obj_lookup]; [done|].
  destruct (String.eqb_spec k k1) as [<-|Hne]; cbn [obj_lookup].
  - by destruct (String.eqb x k).
  - rewrite IH. destruct (String.eqb_spec x k1) as [->|]; [|done].
    by destruct (String.eqb_spec k1 k) as [->|].
Qed.

Lemma obj_lookup_del k l x : obj_lookup x (obj_del k l) = if String.eqb x k then None else obj_lookup x l.
Proof.
  unfold obj_del. induction l as [|[k1 v1] l IH]; cbn [List.filter obj_lookup fst]; [by destruct (String.eqb x k)|].
  destruct (String.eqb_spec k k1) as [<-|Hne]; cbn [negb obj_lookup]; rewrite IH.
  - by destruct (String.eqb_spec x k).
  - destruct (String.eqb_spec x k1) as [->|]; [|done]. by destruct (String.eqb_spec k1 k) as [->|].
Qed.

Lemma obj_lookup_elem k v (l : list (string * json)) : obj_lookup k l = Some v → (k, v) ∈ l.
Proof.
  induction l as [|[k1 v1] l IH]; cbn; [done|]. destruct (String.eqb_spec k k1) as [->|].
  - intros [= ->]. by left.
  - intros H. right. by apply IH.
Qed.

Lemma elem_obj_lookup k v (l : list (string * json)) : NoDup l.*1 → (k, v) ∈ l → obj_lookup k l = Some v.
Proof.
  induction l as [|[k1 v1] l IH]; cbn; [by intros _ ?%not_elem_of_nil|]. intros [Hn Hnd]%NoDup_cons Hin.
  apply elem_of_cons in Hin as [[= -> ->]|Hin]; [by rewrite String.eqb_refl|].
  destruct (String.eqb_spec k k1) as [->|]; [|by apply IH].
  destruct Hn. apply list_elem_of_fmap. by exists (k1, v).
Qed.

(** ** Lemmas: deep equality *)

(** Agreement of two lookups. *)
Definition opt_eq (a b : option json) : bool :=
  match a, b with
  | Some x, Some y => DeepEqual x y
  | None, None => true
  | _, _ => false
  end.

Lemma DeepEqual_obj l m :
  DeepEqual (JObj l) (JObj m) = true ↔
  (∀ k x, (k, x) ∈ l → ∃ y, obj_lookup k m = Some y ∧ DeepEqual x y = true) ∧
  (∀ k y, (k, y) ∈ m → is_Some (obj_lookup k l)).
Proof.
  cbn [DeepEqual]. rewrite andb_true_iff. f_equiv.
  - induction l as [|[k x] l IH]; [split; [by intros _ k x ?%not_elem_of_nil|done]|].
    rewrite andb_true_iff, IH. split.
    + intros [Hk Hl] k' x' [[= -> ->]|Hin]%elem_of_cons; [|by apply Hl].
      destruct (obj_lookup k m) as [y|]; [by exists y|done].
    + intros H. split; [|intros k' x' Hin; apply H; by right].
      destruct (H k x) as (y & -> & Hy); [by left|done].
  - rewrite forallb_Forall, Forall_forall. split.
    + intros H k y Hin. specialize (H (k, y) Hin). cbn in H. by destruct (obj_lookup k l).
    + intros H [k y] Hin. cbn. by destruct (H k y Hin) as [x ->].
Qed.

Lemma DeepEqual_refl j : unique j = true → DeepEqual j j = true.
Proof.
  induction j as [| | | |l IH|l IH] using json_ind'; cbn [unique]; intros Hu; try done.
  - apply eqb_reflx.
  - apply Z.eqb_refl.
  - apply String.eqb_refl.
  - cbn [DeepEqual]. induction IH as [|x l Hx Hl IHl]; [done|]. cbn in Hu. apply andb_true_iff in Hu as [Hux Hul].
    by rewrite (Hx Hux), IHl.
  - apply andb_true_iff in Hu as [Hnd%bool_decide_eq_true Hu]. rewrite forallb_Forall, Forall_forall in Hu.
    rewrite Forall_forall in IH. apply DeepEqual_obj. split.
    + intros k x Hin. exists x. split; [by apply elem_obj_lookup|]. apply (IH (k, x) Hin), (Hu (k, x) Hin).
    + intros k x Hin. exists x. by apply elem_obj_lookup.
Qed.

Lemma DeepEqual_lookupPath keys : ∀ a b, DeepEqual a b = true → opt_eq (lookupPath a keys) (lookupPath b keys) = true.
Proof.
  induction keys as [|k keys IH]; intros a b H; [exact H|]. cbn [lookupPath].
  destruct a as [| | | | |l], b as [| | | | |m]; try done.
  apply DeepEqual_obj in H as [H1 H2]. destruct (obj_lookup k l) as [x|] eqn:Hx.
  - apply obj_lookup_elem in Hx. destruct (H1 k x Hx) as (y & -> & Hxy). by apply IH.
  - destruct (obj_lookup k m) as [y|] eqn:Hy; [|done]. apply obj_lookup_elem in Hy.
    destruct (H2 k y Hy) as [x Hx']. congruence.
Qed.

(** ** Lemmas: paths *)

Lemma lookupPath_app j p q : lookupPath j (p ++ q)%list = match lookupPath j p with Some x => lookupPath x q | None => None end.
Proof.
  revert j. induction p as [|k p IH]; intros j; [done|]. cbn [app lookupPath].
  destruct j; try done. destruct (obj_lookup k l); [apply IH|done].
Qed.

(** Where two lookups agree, so do those further down. *)
Lemma opt_eq_extend a b p q :
  opt_eq (lookupPath a p) (lookupPath b p) = true → opt_eq (lookupPath a (p ++ q)%list) (lookupPath b (p ++ q)%list) = true.
Proof.
  rewrite !lookupPath_app. destruct (lookupPath a p), (lookupPath b p); try done. apply DeepEqual_lookupPath.
Qed.

Lemma unique_lookup j p v : unique j = true → lookupPath j p = Some v → unique v = true.
Proof.
  revert j. induction p as [|k p IH]; intros j Hu; [by intros [= <-]|]. cbn [lookupPath].
  destruct j as [| | | | |l]; try done. destruct (obj_lookup k l) as [x|] eqn:Hx; [|done]. apply IH.
  cbn in Hu. apply andb_true_iff in Hu as [_ Hu]. rewrite forallb_Forall, Forall_forall in Hu.
  by apply (Hu (k, x)), obj_lookup_elem.
Qed.

(** ** Lemmas: setPath *)

Lemma setPath_get keys : ∀ m v m', keys ≠ [] → setPath m keys v true = Ok m' → lookupPath (JObj m') keys = Some v.
Proof.
  induction keys as [|k keys IH]; intros m v m' Hne; [done|]. destruct keys as [|k2 keys].
  - cbn. intros [= <-]. by rewrite obj_lookup_put, String.eqb_refl.
  - cbn [setPath]. set (rest := k2 :: keys) in *.
    assert (Hgo : ∀ c, (child ← setPath c rest v true; Ok (obj_put k (JObj child) m)) = Ok m' →
      lookupPath (JObj m') (k :: rest) = Some v).
    { intros c [child [Hc [= <-]]]%result_bind_ok. cbn [lookupPath]. rewrite obj_lookup_put, String.eqb_refl. by eapply IH. }
    destruct (obj_lookup k m) as [[]|]; try done; apply Hgo.
Qed.

Lemma setPath_clear keys : ∀ m v m', keys ≠ [] → setPath m keys v false = Ok m' → lookupPath (JObj m') keys = None.
Proof.
  induction keys as [|k keys IH]; intros m v m' Hne; [done|]. destruct keys as [|k2 keys].
  - cbn. intros [= <-]. by rewrite obj_lookup_del, String.eqb_refl.
  - cbn [setPath]. set (rest := k2 :: keys) in *. destruct (obj_lookup k m) as [[]|] eqn:Hk; try done.
    + intros [= <-]. cbn [lookupPath]. by rewrite Hk.
    + intros [child [Hc [= <-]]]%result_bind_ok. cbn [lookupPath]. rewrite obj_lookup_put, String.eqb_refl. eapply IH; [subst rest; done|exact Hc].
    + intros [= <-]. cbn [lookupPath]. by rewrite Hk.
Qed.

(** Paths of which neither leads to the other. *)
Fixpoint diverge (p q : list string) : bool :=
  match p, q with
  | a :: p', b :: q' => if String.eqb a b then diverge p' q' else true
  | _, _ => false
  end.

Lemma diverge_or p q : diverge p q = true ∨ (∃ r, q = p ++ r)%list ∨ (∃ r, p = q ++ r)%list.
Proof.
  revert q. induction p as [|a p IH]; intros q; [right; left; by exists q|].
  destruct q as [|b q]; [right; right; by exists (a :: p)|]. cbn. destruct (String.eqb_spec a b) as [->|]; [|by left].
  destruct (IH q) as [?|[[r ->]|[r ->]]]; [by left|right; left; by exists r|right; right; by exists r].
Qed.

Lemma setPath_other keys : ∀ m v b m' q,
  diverge keys q = true → setPath m keys v b = Ok m' → lookupPath (JObj m') q = lookupPath (JObj m) q.
Proof.
  induction keys as [|k keys IH]; intros m v b m' q Hd; [done|]. destruct q as [|kq q]; [done|]. cbn in Hd.
  destruct keys as [|k2 keys].
  - assert (Hne : String.eqb kq k = false) by (rewrite String.eqb_sym; by destruct (String.eqb k kq)).
    cbn. destruct b; intros [= <-]; cbn [lookupPath]; by rewrite ?obj_lookup_put, ?obj_lookup_del, Hne.
  - cbn [setPath]. set (rest := k2 :: keys) in *.
    assert (Hgo : ∀ c, (∀ q', obj_lookup k m = Some (JObj c) ∨ (c = [] ∧ (obj_lookup k m = None ∨ obj_lookup k m = Some JNull)) →
        q' ≠ [] → match obj_lookup k m with Some x => lookupPath x q' | None => None end = lookupPath (JObj c) q') →
      (obj_lookup k m = Some (JObj c) ∨ (c = [] ∧ (obj_lookup k m = None ∨ obj_lookup k m = Some JNull))) →
      (child ← setPath c rest v b; Ok (obj_put k (JObj child) m)) = Ok m' →
      lookupPath (JObj m') (kq :: q) = lookupPath (JObj m) (kq :: q)).
    { intros c Hl Hcase [child [Hc [= <-]]]%result_bind_ok. cbn [lookupPath]. rewrite obj_lookup_put.
      destruct (String.eqb_spec k kq) as [<-|Hne].
      - rewrite String.eqb_refl. rewrite (IH _ _ _ _ q Hd Hc). symmetry. apply Hl; [done|]. by destruct q.
      - by rewrite (proj2 (String.eqb_neq kq k)). }
    assert (Hl : ∀ c q', obj_lookup k m = Some (JObj c) ∨ (c = [] ∧ (obj_lookup k m = None ∨ obj_lookup k m = Some JNull)) →
        q' ≠ [] → match obj_lookup k m with Some x => lookupPath x q' | None => None end = lookupPath (JObj c) q').
    { intros c [|? ?] [->|[-> [->| ->]]] Hq; done. }
    destruct (obj_lookup k m) as [[| | | | |c]|] eqn:Hk; try done.
    + destruct b; [|by intros [= <-]]. apply Hgo; [apply Hl|]. right. split; [done|by right].
    + apply Hgo; [apply Hl|]. by left.
    + destruct b; [|by intros [= <-]]. apply Hgo; [apply Hl|]. right. split; [done|by left].
Qed.

(** ** Lemmas: flattened paths *)

(** What the keys of a path add to its prefix. *)
Fixpoint tail_of (keys : list string) : string :=
  match keys with
  | [] => ""
  | k :: rest => "." ++ k ++ tail_of rest
  end.

Definition path_of (keys : list string) : string := "spec" ++ tail_of keys.

Definition route (j : json) (keys : list string) (v : json) : Prop := keys ≠ [] ∧ lookupPath j keys = Some v.

Lemma app_inj_l (a b c : string) : (a ++ b = a ++ c)%string → b = c.
Proof. induction a; cbn; [done|]. intros [= H]. auto. Qed.

(** An entry of the flat map is the value some route leads to, and every route has
    an entry: only two routes that spell the same path compete for one. *)
Lemma flattenMap_routes j : unique j = true → ∀ p acc q,
  (∃ ks v, route j ks v ∧ q = p ++ tail_of ks ∧ flattenMap p j acc !! q = Some v) ∨
  ((∀ ks v, route j ks v → q ≠ p ++ tail_of ks) ∧ flattenMap p j acc !! q = acc !! q).
Proof.
  induction j as [| | | |l IH|l IH] using json_ind'; intros Hu p acc q;
    try (right; split; [|done]; intros [|k ks] v [Hne Hl]; done).
  cbn [unique] in Hu. apply andb_true_iff in Hu as [Hnd%bool_decide_eq_true Hu]. cbn [flattenMap].
  revert acc. induction l as [|[k v] l IHl]; intros acc.
  { right. split; [|done]. intros [|k ks] x [Hne Hl]; done. }
  cbn [forallb snd] in Hu. apply andb_true_iff in Hu as [Huv Hul]. cbn [fmap list_fmap fst] in Hnd.
  apply NoDup_cons in Hnd as [Hn Hnd]. apply Forall_cons in IH as [IHv IH]. cbn [snd] in IHv.
  set (path := p ++ "." ++ k). set (acc1 := flattenMap path v (<[path:=v]> acc)).
  assert (Hhere : ∀ ks x, route (JObj ((k, v) :: l)) (k :: ks) x ↔ lookupPath v ks = Some x).
  { intros ks x. unfold route. cbn [lookupPath obj_lookup]. rewrite String.eqb_refl. naive_solver. }
  assert (Hthere : ∀ k1 ks x, k1 ≠ k → route (JObj ((k, v) :: l)) (k1 :: ks) x ↔ route (JObj l) (k1 :: ks) x).
  { intros k1 ks x Hne. unfold route. cbn [lookupPath obj_lookup]. by rewrite (proj2 (String.eqb_neq k1 k)). }
  assert (Hl : ∀ ks x, route (JObj l) ks x → route (JObj ((k, v) :: l)) ks x).
  { intros [|k1 ks] x Hr; [by destruct Hr|]. destruct (decide (k1 = k)) as [->|Hne]; [|by apply Hthere].
    exfalso. destruct Hr as [_ Hr]. cbn in Hr. destruct (obj_lookup k l) as [y|] eqn:Hy; [|done].
    apply obj_lookup_elem in Hy. apply Hn, list_elem_of_fmap. by exists (k, y). }
  destruct (IHl IH Hnd Hul acc1) as [(ks & x & Hr & -> & Hx)|[Hno Hx]].
  { left. exists ks, x. split; [by apply Hl|done]. }
  rewrite Hx. unfold acc1. destruct (IHv Huv path (<[path:=v]> acc) q) as [(ks & x & [Hne Hr] & -> & Hv)|[Hno' Hv]].
  { left. exists (k :: ks), x. split_and!; [by apply Hhere| |exact Hv]. unfold path. cbn [tail_of]. by rewrite !GoStrings.app_assoc. }
  rewrite Hv. destruct (decide (q = path)) as [->|Hq].
  { left. exists [k], v. split_and!; [by apply Hhere|unfold path; cbn [tail_of]; by rewrite app_empty_r|by rewrite lookup_insert_eq]. }
  right. split; [|by rewrite lookup_insert_ne]. intros [|k1 ks] x Hr; [by destruct Hr|].
  destruct (decide (k1 = k)) as [->|Hne]; [|by apply (Hno _ x), Hthere].
  apply Hhere in Hr. destruct ks as [|k2 ks].
  - intros ->. apply Hq. unfold path. cbn [tail_of]. by rewrite app_empty_r.
  - intros ->. apply (Hno' (k2 :: ks) x); [by split|]. unfold path. cbn [tail_of]. by rewrite !GoStrings.app_assoc.
Qed.

(** No other route of the value spells the same path. *)
Definition unambiguous (j : json) (keys : list string) : Prop :=
  ∀ ks v, route j ks v → tail_of ks = tail_of keys → ks = keys.

(** Then the flat map is the lookup along the path. *)
Lemma flatten_lookup j keys :
  unique j = true → keys ≠ [] → unambiguous j keys → flattenToFieldPaths j !! path_of keys = lookupPath j keys.
Proof.
  intros Hu Hne Ha. unfold flattenToFieldPaths, path_of.
  destruct (flattenMap_routes j Hu "spec" ∅ ("spec" ++ tail_of keys)) as [(ks & v & Hr & Hq & ->)|[Hno ->]].
  - apply app_inj_l in Hq. rewrite <-(Ha ks v Hr); [|done]. destruct Hr. done.
  - rewrite lookup_empty. destruct (lookupPath j keys) as [v|] eqn:Hv; [|done]. by destruct (Hno keys v).
Qed.

(** Keys without dots cannot be confused. *)
Fixpoint no_dots (j : json) : bool :=
  match j with
  | JObj l => forallb (fun kv => str_free "." kv.1 && no_dots kv.2) l
  | _ => true
  end.

Lemma Split_path x keys :
  str_free "." x = true → Forall (fun k => str_free "." k = true) keys → Split (x ++ tail_of keys) "." = x :: keys.
Proof.
  intros Hx Hk. revert x Hx. induction Hk as [|k keys Hk _ IH]; intros x Hx; cbn [tail_of].
  - rewrite app_empty_r. by apply Split_free.
  - change ("." ++ k ++ tail_of keys) with (String "." (k ++ tail_of keys)). rewrite Split_app by done. by rewrite IH.
Qed.

Lemma no_dots_route j ks v : no_dots j = true → lookupPath j ks = Some v → Forall (fun k => str_free "." k = true) ks.
Proof.
  revert j. induction ks as [|k ks IH]; intros j Hd Hl; [done|]. cbn [lookupPath] in Hl.
  destruct j as [| | | | |l]; try done. destruct (obj_lookup k l) as [x|] eqn:Hx; [|done].
  apply obj_lookup_elem in Hx. cbn in Hd. rewrite forallb_Forall, Forall_forall in Hd. specialize (Hd (k, x) Hx).
  cbn in Hd. apply andb_true_iff in Hd as [Hk Hd]. constructor; [done|]. by eapply IH.
Qed.

Lemma no_dots_unambiguous j keys :
  no_dots j = true → Forall (fun k => str_free "." k = true) keys → unambiguous j keys.
Proof.
  intros Hd Hk ks v [_ Hl] Heq. apply no_dots_route in Hl; [|done].
  pose proof (Split_path "" ks eq_refl Hl) as H1. pose proof (Split_path "" keys eq_refl Hk) as H2. cbn in H1, H2.
  congruence.
Qed.

End FieldPaths.
