(* ===== verification/AwsArn.v ===== *)
(** * Amazon resource names

    [arn.ARN] of the AWS SDK and its [arn.Parse], which is outside the repository:
    the model's definitions take it as a parameter. *)
From S2P Require Import Prelude GoStrings.
From stdpp Require Import base strings list.
From Stdlib Require Import Ascii String.
Open Scope string_scope.

(** The result of the AWS SDK's [arn.Parse]. *)
Record ARN := mkARN {
  Partition : string;
  Service : string;
  Region : string;
  AccountID : string;
  Resource : string
}.

(** [arn.Parse] takes a text apart at its colons into six sections, [arn] first; the
    last one may have more colons. *)
Definition arn_text (a : ARN) : string :=
  "arn:" +:+ Partition a +:+ ":" +:+ Service a +:+ ":" +:+ Region a +:+ ":" +:+ AccountID a +:+ ":" +:+ Resource a.

Class ArnParser := {
  arn_Parse : string → option ARN;
  arn_Parse_text : ∀ v a, arn_Parse v = Some a → v = arn_text a
}.

(** A parser that does just that. *)
Definition cut (s : string) : option (string * string) :=
  i ← IndexByte s ":"; Some (str_take i s, str_drop (S i) s).

Definition split_arn (s : string) : option ARN :=
  '(a, s) ← cut s;
  '(p, s) ← cut s;
  '(svc, s) ← cut s;
  '(r, s) ← cut s;
  '(acc, s) ← cut s;
  if String.eqb a "arn" then Some (mkARN p svc r acc s) else None.

Lemma cut_text s a b : cut s = Some (a, b) → s = a +:+ ":" +:+ b.
Proof.
  revert a b. induction s as [|c s IH]; intros a b; [done|].
  unfold cut in *. simpl. destruct (Ascii.eqb_spec c ":") as [->|]; simpl; [by intros [= <- <-]|].
  destruct (IndexByte s ":") as [i|] eqn:E; simpl in *; [|done].
  intros [= <- <-]. by rewrite (IH _ _ eq_refl) at 1.
Qed.

Definition arn_splitter : ArnParser.
Proof.
  refine {| arn_Parse := split_arn |}.
  unfold split_arn. intros v x E.
  repeat (apply bind_Some in E as ([] & ?%cut_text & E)). case_match eqn:Ea; [|done]. apply String.eqb_eq in Ea.
  by simplify_eq.
Defined.
