(* ===== verification/FieldValidator.v ===== *)
(** * Field validation of create and update requests (seaplane-api/pkg/validation)

    The write modes and feature gates of the registered fields, and what a request may
    set (field_validator.go, internal/codegen/featuregate, the principals of
    additional_allowed_principals.go and the trust bundle of
    additional_trust_bundle.go). The registry of fields is generated: it is an
    argument, in the order a range loop visits it. *)
From S2P Require Import Prelude GoStrings Json FieldPaths AwsArn.
From stdpp Require Import base strings list gmap.
From Stdlib Require Import ZArith Lia Ascii String.
Import FieldPaths.
Open Scope string_scope.
#[local] Arguments String.append : simpl nomatch.

Module FieldValidator.

(** ** Feature gates (internal/codegen/featuregate) *)

Inductive FeatureStage := GA | TechPreview | DevPreview.

Definition stage_rank (s : FeatureStage) : nat := match s with GA => 0 | TechPreview => 1 | DevPreview => 2 end.

Definition FeatureSet := string.

Definition MaxStage (fs : FeatureSet) : FeatureStage :=
  if String.eqb fs "TechPreviewNoUpgrade" then TechPreview
  else if String.eqb fs "DevPreviewNoUpgrade" then DevPreview
  else GA.

Definition Includes (fs : FeatureSet) (stage : FeatureStage) : bool := Nat.leb (stage_rank stage) (stage_rank (MaxStage fs)).

Definition SeaplaneFeatureGates : list (string * FeatureStage) :=
  [("SeaplaneEtcdConfig", GA); ("SeaplaneAutoScaling", TechPreview); ("SeaplaneSecretEncryption", TechPreview);
   ("SeaplaneCustomDNS", DevPreview); ("SeaplaneKubeletAdvanced", TechPreview); ("SeaplaneMachineConfig", TechPreview)].

Definition IsGateEnabled (gate : string) (featureSet : FeatureSet) : bool :=
  match obj_lookup gate SeaplaneFeatureGates with
  | None => false
  | Some stage => Includes featureSet stage
  end.

(** ** The registry (hack/api-codegen/pkg/markers/types.go) *)

Inductive WriteMode := Mutable | Immutable | ServiceSet | NoMode.

#[export] Instance WriteMode_eq_dec : EqDecision WriteMode.
Proof. solve_decision. Defined.

Record FeatureGateWriteMode := mkOverride {
  o_FeatureGate : string;
  o_WriteMode : WriteMode
}.

Record FieldMeta := mkMeta {
  m_WriteMode : WriteMode;
  m_FeatureGate : string;
  m_Hidden : bool;
  m_Overrides : list FeatureGateWriteMode
}.

Definition Registry := list (string * FieldMeta).

Definition effectiveWriteMode (meta : FieldMeta) (fs : FeatureSet) : WriteMode :=
  match List.find (fun o => negb (String.eqb (o_FeatureGate o) "") && IsGateEnabled (o_FeatureGate o) fs) (m_Overrides meta) with
  | Some o => o_WriteMode o
  | None =>
      match List.find (fun o => String.eqb (o_FeatureGate o) "") (m_Overrides meta) with
      | Some o => o_WriteMode o
      | None => m_WriteMode meta
      end
  end.

Definition isStructuralContainer (fieldPath : string) (reg : Registry) : bool :=
  existsb (fun cm => HasPrefix cm.1 (fieldPath ++ ".") &&
                     (bool_decide (m_WriteMode cm.2 = Mutable) || bool_decide (m_WriteMode cm.2 = Immutable))) reg.

(** [lookupFieldMeta]: the metadata and the registered spelling. *)
Definition lookupFieldMeta (reg : Registry) (fieldPath : string) : option (FieldMeta * string) :=
  match obj_lookup fieldPath reg with
  | Some meta => Some (meta, fieldPath)
  | None =>
      match List.find (fun cm => EqualFold cm.1 fieldPath) reg with
      | Some (canonical, meta) => Some (meta, canonical)
      | None => None
      end
  end.

(** ** Values *)

Fixpoint isZeroValue (v : json) : bool :=
  match v with
  | JNull => true
  | JStr s => String.eqb s ""
  | JBool b => negb b
  | JNum z => (z =? 0)%Z
  | JObj l => forallb (fun kv => isZeroValue kv.2) l
  | JArr l => match l with [] => true | _ => false end
  end.

Definition isEmptyObject (v : json) : bool := match v with JObj [] => true | _ => false end.

(** A Go value as reflection sees it. *)
Record GoField := mkGoField {
  gf_Name : string;
  gf_Tag : string;
  gf_Anonymous : bool
}.

Inductive GoValue :=
| GPointer (elem : option GoValue)
| GInterface (elem : option GoValue)
| GStruct (fields : list (GoField * GoValue))
| GOther.

(** The path of a field, unless it is not encoded. *)
Definition field_path (prefix : string) (f : GoField) : option string :=
  let tag := match Split (gf_Tag f) "," with t :: _ => t | [] => "" end in
  if String.eqb tag "-" then None
  else
    let tag := if String.eqb tag "" then gf_Name f else tag in
    Some (if gf_Anonymous f then prefix else prefix ++ "." ++ tag).

Fixpoint collectPointerSet (prefix : string) (v : GoValue) (result : gmap string bool) : gmap string bool :=
  match v with
  | GPointer None | GInterface None | GOther => result
  | GPointer (Some e) | GInterface (Some e) => collectPointerSet prefix e result
  | GStruct fields =>
      (fix go (fields : list (GoField * GoValue)) (result : gmap string bool) : gmap string bool :=
         match fields with
         | [] => result
         | (f, fv) :: rest =>
             go rest
               (match field_path prefix f with
                | None => result
                | Some path =>
                    match fv with
                    | GPointer None => <[path := false]> result
                    | GPointer (Some e) => collectPointerSet path e (<[path := true]> result)
                    | GStruct _ => collectPointerSet path fv result
                    | GInterface (Some e) => collectPointerSet path e result
                    | _ => result
                    end
                end)
         end) fields result
  end.

(** ** Errors *)

Record ValidationError := mkError {
  Field : string;
  Reason : string
}.

#[export] Instance ValidationError_eq_dec : EqDecision ValidationError.
Proof. solve_decision. Defined.

Definition immutableFieldErrorReason : string := "field is immutable and cannot be changed after creation".
Definition platform_managed : string := "field is platform-managed and cannot be set by customers".
Definition gate_reason (gate : string) (fs : FeatureSet) : string :=
  "requires feature gate " ++ gate ++ " which is not enabled in " ++ fs ++ " feature set".

(** ** IAM principals (additional_allowed_principals.go) *)

Definition additionalAllowedPrincipalsPath : string := "spec.hostedCluster.platform.aws.additionalAllowedPrincipals".

Definition awsAccountIDPattern (s : string) : bool := Nat.eqb (String.length s) 12 && str_forall is_digit s.

Definition pieces (p : ascii → bool) (l : list string) : bool :=
  forallb (fun s => negb (String.eqb s "") && str_forall p s) l.

Definition awsPartitionPattern (s : string) : bool :=
  match Split s "-" with
  | first :: rest => String.eqb first "aws" && pieces (fun a => is_lower a || is_digit a) rest
  | [] => false
  end.

Definition is_name_char (a : ascii) : bool :=
  is_alnum a || match IndexByte "+=,.@_-" a with Some _ => true | None => false end.

Definition iamPrincipalName (s : string) : bool := pieces is_name_char (Split s "/").

(** The bytes [bytes.TrimSpace] takes off (ASCII). *)
Definition is_space (a : ascii) : bool :=
  let n := nat_of_ascii a in Nat.eqb n 32 || (Nat.leb 9 n && Nat.leb n 13).

Fixpoint skip_space (s : string) : string :=
  match s with
  | "" => ""
  | String a s' => if is_space a then skip_space s' else s
  end.

Fixpoint trim_space_right (s : string) : string :=
  match s with
  | "" => ""
  | String a s' =>
      let t := trim_space_right s' in
      if is_space a && String.eqb t "" then "" else String a t
  end.

Definition TrimSpace (s : string) : string := trim_space_right (skip_space s).

Section checks.
Context (arn_Parse : string → option ARN).
(** [pem.Decode]: the type and bytes of the first block and the rest. *)
Context (pem_Decode : string → option (string * string * string)).
(** Whether [x509.ParseCertificate] takes the bytes, and then [IsCA]. *)
Context (x509_IsCA : string → option bool).

Definition validAdditionalAllowedPrincipal (value : string) : bool :=
  match arn_Parse value with
  | None => false
  | Some parsed =>
      if negb (awsPartitionPattern (Partition parsed)) || negb (String.eqb (Service parsed) "iam") ||
         negb (String.eqb (Region parsed) "") || negb (awsAccountIDPattern (AccountID parsed)) then false
      else if String.eqb (Resource parsed) "root" then true
      else match List.find (fun t => HasPrefix (Resource parsed) (t ++ "/")) ["role"; "user"; "federated-user"] with
           | Some t => iamPrincipalName (TrimPrefix (Resource parsed) (t ++ "/"))
           | None => false
           end
  end.

Definition invalidPrincipalList (reason : string) : ValidationError := mkError additionalAllowedPrincipalsPath reason.

Definition quote (s : string) : string := String (ascii_of_nat 34) (s ++ String (ascii_of_nat 34) "").

Fixpoint check_principals (i : nat) (principals : list json) (seen : list string) : option ValidationError :=
  match principals with
  | [] => None
  | value :: rest =>
      let entry := "entry " ++ FormatInt (Z.of_nat i) in
      match value with
      | JStr principal =>
          if negb (validAdditionalAllowedPrincipal principal)
          then Some (invalidPrincipalList (entry ++ " must be an AWS IAM account, role, user, or federated-user ARN"))
          else if Nat.ltb 255 (String.length principal)
          then Some (invalidPrincipalList (entry ++ " exceeds the 255-character ARN limit"))
          else if bool_decide (principal ∈ seen)
          then Some (invalidPrincipalList (entry ++ " duplicates principal " ++ quote principal))
          else check_principals (S i) rest (principal :: seen)
      | _ => Some (invalidPrincipalList (entry ++ " must be an AWS IAM account, role, user, or federated-user ARN"))
      end
  end.

Definition validateAdditionalAllowedPrincipals (fields : gmap string json) : option ValidationError :=
  match fields !! additionalAllowedPrincipalsPath with
  | None => None
  | Some (JArr principals) =>
      if Nat.ltb 25 (List.length principals) then Some (invalidPrincipalList "cannot contain more than 25 principals")
      else check_principals 0 principals []
  | Some _ => Some (invalidPrincipalList "must be an array of IAM principal ARNs")
  end.

(** ** The trust bundle (additional_trust_bundle.go) *)

Definition additionalTrustBundleField : string := "spec.additionalTrustBundle".
Definition maxAdditionalTrustBundleBytes : nat := Nat.pow 2 20.

(** The loop of [validatePEMTrustBundle]; every block is taken off the front, so as
    many steps as the bundle has bytes are enough. *)
Fixpoint pem_loop (fuel : nat) (remaining : string) (certCount : nat) : option string :=
  match fuel with
  | O => Some "must contain only PEM-encoded CA certificates"
  | S fuel =>
      let remaining := TrimSpace remaining in
      if String.eqb remaining "" then
        if Nat.eqb certCount 0 then Some "must contain at least one PEM-encoded CA certificate" else None
      else if negb (HasPrefix remaining "-----BEGIN ") then Some "must contain only PEM-encoded CA certificates"
      else match pem_Decode remaining with
           | None => Some "must contain only PEM-encoded CA certificates"
           | Some (type, bytes, rest) =>
               if negb (String.eqb type "CERTIFICATE") then Some "must contain only PEM-encoded CA certificates"
               else match x509_IsCA bytes with
                    | Some true => pem_loop fuel rest (S certCount)
                    | _ => Some "must contain only valid PEM-encoded CA certificates"
                    end
           end
  end.

Definition validatePEMTrustBundle (bundle : string) : option string := pem_loop (S (String.length bundle)) bundle 0.

Definition validateAdditionalTrustBundle (fields : gmap string json) : option ValidationError :=
  match fields !! additionalTrustBundleField with
  | None | Some JNull => None
  | Some (JStr bundle) =>
      if String.eqb bundle "" then None
      else if Nat.ltb maxAdditionalTrustBundleBytes (String.length bundle)
      then Some (mkError additionalTrustBundleField "must not exceed 1048576 UTF-8 bytes")
      else match validatePEMTrustBundle bundle with
           | Some err => Some (mkError additionalTrustBundleField err)
           | None => None
           end
  | Some _ => Some (mkError additionalTrustBundleField "must be a PEM-encoded CA bundle")
  end.

(** ** The validator *)

Inductive Operation := OperationCreate | OperationUpdate.

Definition from_nil (o : option json) : json := default JNull o.

(** [validateWriteMode]; a nil map of existing fields is [None]. *)
Definition validateWriteMode (fieldPath : string) (meta : FieldMeta) (op : Operation) (value : json)
    (existingFields : option (gmap string json)) (fs : FeatureSet) (pointers : gmap string bool) : option ValidationError :=
  let explicit := default false (pointers !! fieldPath) in
  match effectiveWriteMode meta fs with
  | ServiceSet =>
      let allowed :=
        match op, existingFields with
        | OperationUpdate, Some existing =>
            let oldValue := existing !! fieldPath in
            DeepEqual (from_nil oldValue) value ||
            (match oldValue with None => true | Some _ => false end && isZeroValue value && negb explicit)
        | _, _ => isZeroValue value && negb explicit
        end in
      if allowed then None else Some (mkError fieldPath platform_managed)
  | Immutable =>
      match op, existingFields with
      | OperationUpdate, Some existing =>
          if DeepEqual (from_nil (existing !! fieldPath)) value then None
          else Some (mkError fieldPath immutableFieldErrorReason)
      | _, _ => None
      end
  | _ => None
  end.

(** One field of the loop of [validate]. *)
Definition validate_field (reg : Registry) (existingFields : option (gmap string json)) (op : Operation) (fs : FeatureSet)
    (pointers : gmap string bool) (fieldPath : string) (value : json) : option ValidationError :=
  match lookupFieldMeta reg fieldPath with
  | None => None
  | Some (meta, canonical) =>
      if isStructuralContainer fieldPath reg then None
      else if m_Hidden meta && negb (bool_decide (effectiveWriteMode meta fs = ServiceSet)) then None
      else if negb (String.eqb (m_FeatureGate meta) "") && negb (isEmptyObject value) && negb (IsGateEnabled (m_FeatureGate meta) fs)
      then Some (mkError canonical (gate_reason (m_FeatureGate meta) fs))
      else validateWriteMode canonical meta op value existingFields fs pointers
  end.

Definition validate (reg : Registry) (resourceType : string) (fields : gmap string json)
    (existingFields : option (gmap string json)) (op : Operation) (fs : FeatureSet) (pointers : gmap string bool) :
    list ValidationError :=
  (omap (fun pv => validate_field reg existingFields op fs pointers pv.1 pv.2) (map_to_list fields) ++
   if String.eqb resourceType "Cluster"
   then option_list (validateAdditionalTrustBundle fields) ++ option_list (validateAdditionalAllowedPrincipals fields)
   else [])%list.

(** A spec handed to the validator: the Go value and the object it encodes to. *)
Record Spec := mkSpec {
  sp_Go : GoValue;
  sp_JSON : json
}.

Definition pointers_of (s : Spec) : gmap string bool := collectPointerSet "spec" (sp_Go s) ∅.

(** [flattenToFieldPaths]; a value that does not encode to an object gives a nil map. *)
Definition fields_of (s : Spec) : option (gmap string json) :=
  match sp_JSON s with
  | JObj _ => Some (flattenToFieldPaths (sp_JSON s))
  | JNull => Some ∅
  | _ => None
  end.

Definition ValidateCreate (reg : Registry) (resourceType : string) (spec : option Spec) (fs : FeatureSet) : list ValidationError :=
  match spec with
  | None => []
  | Some s => validate reg resourceType (default ∅ (fields_of s)) None OperationCreate fs (pointers_of s)
  end.

Definition hasNullAncestor (fieldPath : string) (fields : gmap string json) : bool :=
  let parts := Split fieldPath "." in
  existsb (fun i => bool_decide (fields !! strings_Join (take i parts) "." = Some JNull)) (seq 1 (List.length parts - 1)).

Definition raw_immutable_change (reg : Registry) (rawFields existingFields : gmap string json) (fs : FeatureSet)
    (fieldPath : string) (meta : FieldMeta) : option ValidationError :=
  if m_Hidden meta || isStructuralContainer fieldPath reg || negb (bool_decide (effectiveWriteMode meta fs = Immutable))
  then None
  else
    let changed := match rawFields !! fieldPath with
                   | Some newValue => negb (DeepEqual (from_nil (existingFields !! fieldPath)) newValue)
                   | None => false
                   end in
    let cleared := match existingFields !! fieldPath with
                   | Some oldValue => negb (isZeroValue oldValue) && hasNullAncestor fieldPath rawFields
                   | None => false
                   end in
    if changed || cleared then Some (mkError fieldPath immutableFieldErrorReason) else None.

Definition validateRawImmutableChanges (reg : Registry) (rawFields existingFields : gmap string json) (fs : FeatureSet) :
    list ValidationError :=
  omap (fun pm => raw_immutable_change reg rawFields existingFields fs pm.1 pm.2) reg.

Fixpoint append_unique (existing additional : list ValidationError) : list ValidationError :=
  match additional with
  | [] => existing
  | err :: rest => append_unique (if bool_decide (err ∈ existing) then existing else existing ++ [err])%list rest
  end.

Definition appendUniqueValidationErrors (existing additional : list ValidationError) : list ValidationError :=
  append_unique existing additional.

Definition validateUpdate (reg : Registry) (resourceType : string) (newSpec rawSpec existingSpec : option Spec) (fs : FeatureSet) :
    list ValidationError :=
  match newSpec with
  | None => []
  | Some s =>
      let existingFields := match existingSpec with Some e => fields_of e | None => None end in
      let errs := validate reg resourceType (default ∅ (fields_of s)) existingFields OperationUpdate fs (pointers_of s) in
      match rawSpec, existingFields with
      | Some raw, Some existing =>
          appendUniqueValidationErrors errs (validateRawImmutableChanges reg (default ∅ (fields_of raw)) existing fs)
      | _, _ => errs
      end
  end.

Definition ValidateUpdate (reg : Registry) (resourceType : string) (newSpec existingSpec : option Spec) (fs : FeatureSet) :
    list ValidationError := validateUpdate reg resourceType newSpec newSpec existingSpec fs.

Definition ValidateUpdateWithRawSpec (reg : Registry) (resourceType : string) (newSpec : option Spec)
    (rawSpec : list (string * json)) (existingSpec : option Spec) (fs : FeatureSet) : list ValidationError :=
  match newSpec with
  | None => [mkError "spec" "typed spec is required for update validation"]
  | Some _ =>
      match rawSpec with
      | [] => [mkError "spec" "raw spec is required for update validation"]
      | _ => validateUpdate reg resourceType newSpec (Some (mkSpec GOther (JObj rawSpec))) existingSpec fs
      end
  end.
End checks.

(** ** The fuel of the trust bundle's loop *)

Lemma TrimSpace_length s : (String.length (TrimSpace s) ≤ String.length s)%nat.
Proof.
  assert (Hl : ∀ s0, (String.length (skip_space s0) ≤ String.length s0)%nat).
  { induction s0 as [|a t IH]; cbn [skip_space]; [done|]. destruct (is_space a); cbn [String.length]; lia. }
  assert (Hr : ∀ s0, (String.length (trim_space_right s0) ≤ String.length s0)%nat).
  { induction s0 as [|a t IH]; cbn [trim_space_right]; [done|]. destruct (_ && _); cbn [String.length]; lia. }
  unfold TrimSpace. pose proof (Hr (skip_space s)). pose proof (Hl s). lia.
Qed.

(** Blocks are taken off the front: more steps than bytes give the same answer, so
    the fuel of [validatePEMTrustBundle] is enough. *)
Lemma pem_loop_enough (pem_Decode : string → option (string * string * string)) (x509_IsCA : string → option bool) :
  (∀ s t b rest, pem_Decode s = Some (t, b, rest) → (String.length rest < String.length s)%nat) →
  ∀ n m s c, (String.length s < n)%nat → (String.length s < m)%nat → pem_loop pem_Decode x509_IsCA n s c = pem_loop pem_Decode x509_IsCA m s c.
Proof.
  intros Hshort n. induction n as [|n IH]; intros [|m] s c Hn Hm; [lia..|]. cbn [pem_loop].
  destruct (String.eqb _ _); [done|]. destruct (negb _); [done|].
  destruct (pem_Decode (TrimSpace s)) as [[[t b] rest]|] eqn:Hd; [|done]. apply Hshort in Hd.
  pose proof (TrimSpace_length s). destruct (negb _); [done|]. destruct (x509_IsCA b) as [[]|]; try done. apply IH; lia.
Qed.

(** ** What a merge leaves at a field *)

(** [json.Unmarshal] of a request into the stored spec, at the field [keys] leads to
    through pointers: [cur] is its value, or [None] when the way to it ends in nil.
    Keys match without regard to case, a null sets a pointer to nil, any other value
    that is not an object is an error. *)
Fixpoint merge_at (keys : list string) (r : json) (cur : option json) : result unit (option json) :=
  match keys with
  | [] => Ok (Some r)
  | k :: rest =>
      match r with
      | JNull => Ok None
      | JObj l =>
          (fix go (l : list (string * json)) (cur : option json) : result unit (option json) :=
             match l with
             | [] => Ok cur
             | (key, x) :: l' =>
                 if EqualFold key k then
                   match merge_at rest x cur with
                   | Ok cur' => go l' cur'
                   | Err e => Err e
                   end
                 else go l' cur
             end) l cur
      | _ => Err tt
      end
  end.

(** The request spells the keys on the way as they are registered. *)
Fixpoint spelled (keys : list string) (r : json) : bool :=
  match keys with
  | [] => true
  | k :: rest =>
      match r with
      | JObj l =>
          forallb (fun kv => negb (EqualFold kv.1 k) || String.eqb kv.1 k) l &&
          match obj_lookup k l with Some x => spelled rest x | None => true end
      | _ => true
      end
  end.

Lemma EqualFold_refl s : EqualFold s s = true.
Proof. apply String.eqb_refl. Qed.

Lemma merge_spelled keys : ∀ r cur c,
  unique r = true → spelled keys r = true → merge_at keys r cur = Ok c →
  (∃ x, lookupPath r keys = Some x ∧ c = Some x) ∨ c = cur ∨
  (∃ p k q, keys = p ++ k :: q ∧ lookupPath r p = Some JNull)%list.
Proof.
  induction keys as [|k keys IH]; intros r cur c Hu Hs; [intros [= <-]; left; by exists r|].
  cbn [merge_at]. destruct r as [| | | | |l]; try done; [intros _; right; right; by exists [], k, keys|].
  cbn [spelled] in Hs. apply andb_true_iff in Hs as [Hf Hs]. cbn [unique] in Hu.
  apply andb_true_iff in Hu as [Hnd%bool_decide_eq_true Hu].
  match goal with |- ?go l cur = _ → _ => set (g := go) end.
  assert (Hgo : ∀ m cur, NoDup m.*1 → forallb (fun kv => negb (EqualFold kv.1 k) || String.eqb kv.1 k) m = true →
    g m cur = match obj_lookup k m with Some x => merge_at keys x cur | None => Ok cur end).
  { clear -g. induction m as [|[k' x] m IHm]; intros cur Hnd Hf; [done|]. cbn [forallb fst] in Hf.
    apply andb_true_iff in Hf as [Hk Hf]. cbn [fmap list_fmap fst] in Hnd. apply NoDup_cons in Hnd as [Hn Hnd].
    change (g ((k', x) :: m) cur) with (if EqualFold k' k then match merge_at keys x cur with Ok c => g m c | Err e => Err e end else g m cur).
    cbn [obj_lookup]. destruct (EqualFold k' k) eqn:He; cbn in Hk.
    - apply String.eqb_eq in Hk as ->. rewrite String.eqb_refl. destruct (merge_at keys x cur) as [c|]; [|done].
      rewrite IHm by done. destruct (obj_lookup k m) as [y|] eqn:Hy; [|done]. exfalso. apply obj_lookup_elem in Hy.
      apply Hn, list_elem_of_fmap. by exists (k, y).
    - destruct (String.eqb_spec k k') as [->|]; [by rewrite EqualFold_refl in He|]. by apply IHm. }
  rewrite Hgo by done. destruct (obj_lookup k l) as [x|] eqn:Hx; [|intros [= <-]; auto].
  intros Hm. assert (Hux : unique x = true).
  { apply (unique_lookup (JObj l) [k] x); [|cbn; by rewrite Hx]. cbn [unique]. apply andb_true_iff. split; [by apply bool_decide_eq_true|done]. }
  destruct (IH x cur c Hux Hs Hm) as [(y & Hy & ->)|[->|(p & k1 & q & -> & Hp)]].
  - left. exists y. cbn [lookupPath]. by rewrite Hx.
  - auto.
  - right. right. exists (k :: p), k1, q. cbn [lookupPath]. by rewrite Hx.
Qed.

(** ** Null parents *)

Lemma Join_tail x keys : strings_Join (x :: keys) "." = x ++ tail_of keys.
Proof.
  revert x. induction keys as [|k keys IH]; intros x; [cbn; by rewrite app_empty_r|].
  change (strings_Join (x :: k :: keys) ".") with (x ++ "." ++ strings_Join (k :: keys) "."). by rewrite IH.
Qed.

Lemma null_ancestor p k q fields :
  Forall (fun k => str_free "." k = true) (p ++ k :: q) → p ≠ [] → fields !! path_of p = Some JNull →
  hasNullAncestor (path_of (p ++ k :: q)) fields = true.
Proof.
  intros Hf Hne Hp. unfold hasNullAncestor, path_of. rewrite Split_path by done. apply existsb_exists.
  exists (S (List.length p)). split.
  - apply in_seq. cbn. rewrite length_app. cbn. destruct p; [done|cbn; lia].
  - cbn [take]. rewrite take_app_length, Join_tail. by apply bool_decide_eq_true.
Qed.

(** ** Accepted updates *)

(** A field of the registry that customers see, with the mode in force. *)
Definition registered (reg : Registry) (fs : FeatureSet) (keys : list string) (mode : WriteMode) : Prop :=
  keys ≠ [] ∧ Forall (fun k => str_free "." k = true) keys ∧
  ∃ meta, (path_of keys, meta) ∈ reg ∧ m_Hidden meta = false ∧ isStructuralContainer (path_of keys) reg = false ∧
    effectiveWriteMode meta fs = mode.

(** A request whose keys on the way to the field are spelled as registered, and in
    which no dotted key passes for a path on that way. *)
Definition plain_request (keys : list string) (raw : json) : Prop :=
  unique raw = true ∧ spelled keys raw = true ∧ ∀ p q, keys = (p ++ q)%list → p ≠ [] → unambiguous raw p.

Lemma append_unique_nil l : append_unique [] l = [] → l = [].
Proof.
  destruct l as [|e l]; [done|]. cbn. rewrite bool_decide_eq_false_2 by apply not_elem_of_nil.
  assert (Hgrow : ∀ l acc, acc ≠ [] → append_unique acc l ≠ []).
  { clear. induction l as [|e l IH]; intros acc Hacc; [done|]. cbn. apply IH. case_bool_decide; [done|]. by destruct acc. }
  intros H. by apply Hgrow in H.
Qed.

Lemma append_unique_grow e l : append_unique e l = [] → e = [] ∧ l = [].
Proof.
  intros H. assert (e = []) as ->; [|split; [done|by apply append_unique_nil]].
  revert e H. induction l as [|x l IH]; intros e; [done|]. cbn. intros H. apply IH in H. revert H.
  case_bool_decide; [done|]. by destruct e.
Qed.

Lemma omap_nil {A B} (f : A → option B) l : omap f l = [] ↔ ∀ x, x ∈ l → f x = None.
Proof.
  induction l as [|a l IH]; cbn; [split; [by intros _ x ?%not_elem_of_nil|done]|].
  destruct (f a) as [b|] eqn:Hf.
  - split; [done|]. intros H. specialize (H a). rewrite Hf in H. discriminate H. by left.
  - rewrite IH. split; [intros H x [->|Hx]%elem_of_cons; auto|intros H x Hx; apply H; by right].
Qed.

Section accepted.
Context (arn_Parse : string → option ARN) (pem_Decode : string → option (string * string * string)) (x509_IsCA : string → option bool).

(** C22: an accepted update leaves immutable fields alone: merging the request into the
    stored spec neither changes nor clears the stored value of an immutable field, for
    requests that spell the keys on the way to it as registered. *)
Theorem update_keeps_immutable (reg : Registry) (rt : string) (fs : FeatureSet) (keys : list string) (g g' : GoValue)
    (raw stored : list (string * json)) (v : json) (cur : option json) :
  registered reg fs keys Immutable → plain_request keys (JObj raw) →
  unique (JObj stored) = true → unambiguous (JObj stored) keys →
  lookupPath (JObj stored) keys = Some v → isZeroValue v = false →
  ValidateUpdate arn_Parse pem_Decode x509_IsCA reg rt (Some (mkSpec g (JObj raw))) (Some (mkSpec g' (JObj stored))) fs = [] →
  merge_at keys (JObj raw) (Some v) = Ok cur →
  ∃ v', cur = Some v' ∧ (v' = v ∨ DeepEqual v v' = true).
Proof.
  intros (Hne & Hfree & meta & Hin & Hhid & Hcont & Hmode) (Hur & Hsp & Hamb) Hus Has Hv Hz.
  unfold ValidateUpdate, validateUpdate. cbn [fields_of sp_JSON default]. intros Hacc Hm.
  apply append_unique_grow in Hacc as [_ Hraw].
  unfold validateRawImmutableChanges in Hraw. rewrite omap_nil in Hraw. specialize (Hraw _ Hin). cbn [fst snd] in Hraw.
  unfold raw_immutable_change in Hraw. rewrite Hhid, Hcont, bool_decide_eq_true_2 in Hraw by done. cbn [orb negb] in Hraw.
  rewrite (flatten_lookup (JObj stored)), Hv in Hraw by done. change (from_nil (Some v)) with v in Hraw. rewrite Hz in Hraw. cbn [negb andb] in Hraw.
  rewrite (flatten_lookup (JObj raw)) in Hraw; [|done|done|apply (Hamb keys []); [by rewrite app_nil_r|done]].
  destruct (merge_spelled keys (JObj raw) (Some v) cur Hur Hsp Hm) as [(x & Hx & ->)|[->|(p & k & q & -> & Hp)]].
  - rewrite Hx in Hraw. exists x. split; [done|]. right. by destruct (DeepEqual v x).
  - exists v. auto.
  - exfalso. destruct (decide (p = [])) as [->|Hpne]; [done|].
    rewrite (null_ancestor p k q) in Hraw; [rewrite orb_true_r in Hraw; discriminate Hraw|done|done|].
    apply (eq_trans (flatten_lookup (JObj raw) p Hur Hpne ltac:(by apply (Hamb p (k :: q)))) Hp).
Qed.

(** an accepted create sets nothing that is the platform's, however its keys are
    spelled: at a service-set field it has a zero value and no explicit pointer, and a
    gated field is set only under a feature set that enables its gate. *)
Theorem create_sets_no_platform_field (reg : Registry) (rt : string) (fs : FeatureSet) (g : GoValue)
    (spec : list (string * json)) (keys : list string) (v : json) (meta : FieldMeta) (canonical : string) :
  unique (JObj spec) = true → route (JObj spec) keys v → unambiguous (JObj spec) keys →
  lookupFieldMeta reg (path_of keys) = Some (meta, canonical) → isStructuralContainer (path_of keys) reg = false →
  ValidateCreate arn_Parse pem_Decode x509_IsCA reg rt (Some (mkSpec g (JObj spec))) fs = [] →
  (effectiveWriteMode meta fs = ServiceSet →
     isZeroValue v = true ∧ pointers_of (mkSpec g (JObj spec)) !! canonical ≠ Some true) ∧
  (m_FeatureGate meta ≠ "" → m_Hidden meta = false ∨ effectiveWriteMode meta fs = ServiceSet →
     v = JObj [] ∨ IsGateEnabled (m_FeatureGate meta) fs = true).
Proof.
  intros Hu [Hne Hv] Ha Hmeta Hcont. unfold ValidateCreate, validate. cbn [fields_of sp_JSON].
  intros [Hacc _]%app_nil. rewrite omap_nil in Hacc.
  assert (Hin : (path_of keys, v) ∈ map_to_list (flattenToFieldPaths (JObj spec))).
  { apply elem_of_map_to_list. exact (eq_trans (flatten_lookup (JObj spec) keys Hu Hne Ha) Hv). }
  specialize (Hacc _ Hin). cbn [fst snd] in Hacc. unfold validate_field in Hacc. rewrite Hmeta, Hcont in Hacc.
  unfold validateWriteMode in Hacc. split.
  - intros Hmode. rewrite Hmode, (bool_decide_eq_true_2 (ServiceSet = ServiceSet)) in Hacc by done.
    rewrite andb_false_r in Hacc. destruct (_ && _) in Hacc; [done|].
    destruct (isZeroValue v); [|done]. split; [done|]. intros Hp. by rewrite Hp in Hacc.
  - intros Hg Hvis. destruct (m_Hidden meta && negb (bool_decide (effectiveWriteMode meta fs = ServiceSet))) eqn:Hh.
    + exfalso. apply andb_true_iff in Hh as [Hh1 Hh2]. apply negb_true_iff, bool_decide_eq_false in Hh2.
      destruct Hvis; congruence.
    + rewrite (proj2 (String.eqb_neq _ _) Hg) in Hacc. destruct (IsGateEnabled (m_FeatureGate meta) fs); [by right|].
      left. destruct (isEmptyObject v) eqn:He; [|done]. by destruct v as [| | | | |[]].
Qed.

(** ** An excerpt of the registry of clusters *)

Definition excerpt : Registry :=
  [("spec.hostedCluster.capabilities.enabled", mkMeta Immutable "" false []);
   ("spec.hostedCluster.channel", mkMeta Mutable "" false []);
   ("spec.hostedCluster.issuerURL", mkMeta ServiceSet "" false []);
   ("spec.hostedCluster.platform.type", mkMeta Immutable "" false []);
   ("spec.hostedCluster.configuration.machineConfig.allowedKernelArguments", mkMeta NoMode "SeaplaneMachineConfig" false [])].

Definition stored_spec : list (string * json) :=
  [("hostedCluster", JObj [("capabilities", JObj [("enabled", JArr [JStr "Console"])]);
                           ("platform", JObj [("type", JStr "AWS")])])].

Definition update_of (request : list (string * json)) : list ValidationError :=
  ValidateUpdate arn_Parse pem_Decode x509_IsCA excerpt "Cluster" (Some (mkSpec GOther (JObj request)))
    (Some (mkSpec GOther (JObj stored_spec))) "Default".

(** the check for cleared parents compares spellings exactly, while the decoder
    that merges the request does not: a null parent in another case passes, and clears
    the immutable fields below it. *)
Theorem null_variant_clears_immutable :
  let clear parent := [("hostedCluster", JObj [(parent, JNull)])] in
  let keys := ["hostedCluster"; "capabilities"; "enabled"] in
  update_of (clear "capabilities") = [mkError (path_of keys) immutableFieldErrorReason] ∧
  update_of (clear "Capabilities") = [] ∧
  lookupPath (JObj stored_spec) keys = Some (JArr [JStr "Console"]) ∧
  merge_at keys (JObj (clear "Capabilities")) (Some (JArr [JStr "Console"])) = Ok None.
Proof. split_and!; vm_compute; reflexivity. Qed.

(** a dotted key competes with the nested field of the same path for one entry of
    the flat map: whether an update that changes an immutable field is refused depends
    on the order in which the decoded map is visited. *)
Theorem dotted_key_hides_change :
  let nested := ("hostedCluster", JObj [("platform", JObj [("type", JStr "Azure")])]) in
  let dotted := ("hostedCluster.platform.type", JStr "AWS") in
  let keys := ["hostedCluster"; "platform"; "type"] in
  update_of [dotted; nested] = [mkError (path_of keys) immutableFieldErrorReason] ∧
  update_of [nested; dotted] = [] ∧
  lookupPath (JObj stored_spec) keys = Some (JStr "AWS") ∧
  merge_at keys (JObj [nested; dotted]) (Some (JStr "AWS")) = Ok (Some (JStr "Azure")).
Proof. split_and!; vm_compute; reflexivity. Qed.
End accepted.

Definition no_arn (s : string) : option ARN := None.
Definition no_pem (s : string) : option (string * string * string) := None.
Definition no_cert (s : string) : option bool := None.

Definition plain_update : list (string * json) :=
  [("hostedCluster", JObj [("channel", JStr "fast"); ("platform", JObj [("type", JStr "AWS")])])].

Lemma update_keeps_immutable_witness :
  ∃ v', Some (JStr "AWS") = Some v' ∧ (v' = JStr "AWS" ∨ DeepEqual (JStr "AWS") v' = true).
Proof.
  assert (Hf : Forall (fun k => str_free "." k = true) ["hostedCluster"; "platform"; "type"]) by (repeat constructor).
  apply (update_keeps_immutable no_arn no_pem no_cert excerpt "Cluster" "Default" ["hostedCluster"; "platform"; "type"] GOther GOther
           plain_update stored_spec (JStr "AWS") (Some (JStr "AWS"))).
  - split; [done|]. split; [exact Hf|]. exists (mkMeta Immutable "" false []). split_and!; [|reflexivity..].
    right. right. right. left.
  - split; [reflexivity|]. split; [reflexivity|]. intros p q Hpq _. apply no_dots_unambiguous; [reflexivity|].
    rewrite Hpq in Hf. by apply Forall_app in Hf as [? _].
  - reflexivity.
  - by apply no_dots_unambiguous.
  - reflexivity.
  - reflexivity.
  - vm_compute. reflexivity.
  - reflexivity.
Defined.

Definition created_spec : list (string * json) := [("hostedCluster", JObj [("IssuerURL", JStr "")])].

Lemma create_sets_no_platform_field_witness :
  (ServiceSet = ServiceSet →
     isZeroValue (JStr "") = true ∧ pointers_of (mkSpec GOther (JObj created_spec)) !! "spec.hostedCluster.issuerURL" ≠ Some true) ∧
  ("" ≠ "" → false = false ∨ ServiceSet = ServiceSet → JStr "" = JObj [] ∨ IsGateEnabled "" "Default" = true).
Proof.
  apply (create_sets_no_platform_field no_arn no_pem no_cert excerpt "Cluster" "Default" GOther created_spec ["hostedCluster"; "IssuerURL"]
           (JStr "") (mkMeta ServiceSet "" false []) "spec.hostedCluster.issuerURL").
  - reflexivity.
  - by split.
  - by apply no_dots_unambiguous; [|repeat constructor].
  - reflexivity.
  - reflexivity.
  - vm_compute. reflexivity.
Defined.

End FieldValidator.
