(* ===== verification/Preserve.v ===== *)
(** * Service-set fields across updates (seaplane-api/pkg/validation/preserve.go)

    [PreserveServiceSet] on the decoded maps of the candidate and the stored spec.
    The stored values it copies are shared with the stored map; a shared value is
    never written to, since the fields under it then agree. *)
From S2P Require Import Prelude GoStrings Json FieldPaths FieldValidator.
From stdpp Require Import base strings list gmap.
From Stdlib Require Import ZArith Lia Ascii String.
Import FieldPaths FieldValidator.
Open Scope string_scope.
#[local] Arguments String.append : simpl nomatch.

Module Preserve.

Inductive preserve_error :=
| CannotEncode
| NotAnObject (path key : string)
| CannotDecode.

Definition keys_of (path : string) : list string := Split (TrimPrefix path "spec.") ".".

(** The fields of the loop: service-set and not containers of what customers set. *)
Definition kept (reg : Registry) (fs : FeatureSet) (path : string) (meta : FieldMeta) : bool :=
  bool_decide (effectiveWriteMode meta fs = ServiceSet) && negb (isStructuralContainer path reg).

(** The loop over [todo], part of the registry [reg]: the corrected map and whether
    it changed. *)
Fixpoint preserve_loop (reg : Registry) (fs : FeatureSet) (want : list (string * json)) (todo : Registry)
    (got : list (string * json)) (isChanged : bool) : result preserve_error (list (string * json) * bool) :=
  match todo with
  | [] => Ok (got, isChanged)
  | (path, meta) :: rest =>
      if negb (kept reg fs path meta) then preserve_loop reg fs want rest got isChanged
      else
        let keys := keys_of path in
        let storedValue := lookupPath (JObj want) keys in
        if opt_eq storedValue (lookupPath (JObj got) keys) then preserve_loop reg fs want rest got isChanged
        else match setPath got keys (from_nil storedValue) (match storedValue with Some _ => true | None => false end) with
             | Err key => Err (NotAnObject path key)
             | Ok got' => preserve_loop reg fs want rest got' true
             end
  end.

Section specs.
Context {S : Type}.
(** [specMap]: the decoded map of what a spec encodes to. *)
Context (specMap : S → option (list (string * json))).
(** [json.Unmarshal] into a zero spec. *)
Context (Unmarshal : list (string * json) → option S).

Definition PreserveServiceSet (reg : Registry) (fs : FeatureSet) (candidate stored : S) : result preserve_error S :=
  match specMap stored, specMap candidate with
  | Some want, Some got =>
      match preserve_loop reg fs want reg got false with
      | Err e => Err e
      | Ok (_, false) => Ok candidate
      | Ok (got', true) => match Unmarshal got' with Some s => Ok s | None => Err CannotDecode end
      end
  | _, _ => Err CannotEncode
  end.
End specs.

(** ** Lemmas *)

Lemma keys_of_nonempty path : keys_of path ≠ [].
Proof. apply Split_nonempty. Qed.

(** What one correction does to the other paths. *)
Definition agree (want got : list (string * json)) (keys : list string) : Prop :=
  opt_eq (lookupPath (JObj want) keys) (lookupPath (JObj got) keys) = true.

Lemma set_agrees want got got' keys :
  unique (JObj want) = true → keys ≠ [] →
  setPath got keys (from_nil (lookupPath (JObj want) keys)) (match lookupPath (JObj want) keys with Some _ => true | None => false end) = Ok got' →
  agree want got' keys.
Proof.
  intros Hu Hne. unfold agree. destruct (lookupPath (JObj want) keys) as [v|] eqn:Hv; cbn [from_nil from_option]; intros Hset.
  - rewrite (setPath_get _ _ _ _ Hne Hset). apply DeepEqual_refl. by eapply unique_lookup.
  - by rewrite (setPath_clear _ _ _ _ Hne Hset).
Qed.

(** A correction keeps what agreed before. *)
Lemma set_keeps want got got' keys q v b :
  unique (JObj want) = true → keys ≠ [] → ¬ agree want got keys → agree want got q →
  v = from_nil (lookupPath (JObj want) keys) → b = match lookupPath (JObj want) keys with Some _ => true | None => false end →
  setPath got keys v b = Ok got' → agree want got' q.
Proof.
  intros Hu Hne Hnot Hq -> -> Hset. pose proof (set_agrees want got got' keys Hu Hne Hset) as Hk.
  destruct (diverge_or keys q) as [Hd|[[r ->]|[r ->]]].
  - unfold agree in *. by rewrite (setPath_other _ _ _ _ _ _ Hd Hset).
  - by apply opt_eq_extend.
  - destruct Hnot. by apply opt_eq_extend.
Qed.

Lemma loop_keeps reg fs want todo : ∀ got c got' c' q,
  unique (JObj want) = true → agree want got q → preserve_loop reg fs want todo got c = Ok (got', c') → agree want got' q.
Proof.
  induction todo as [|[path meta] todo IH]; intros got c got' c' q Hu Hq; cbn [preserve_loop]; [by intros [= <- <-]|].
  destruct (negb _); [by apply IH|]. cbv zeta.
  destruct (opt_eq _ _) eqn:He; [by apply IH|]. destruct (setPath _ _ _ _) as [got1|] eqn:Hs; [|done].
  apply IH; [done|]. eapply set_keeps; [done|apply (keys_of_nonempty path)| |exact Hq|done|done|exact Hs].
  unfold agree. by rewrite He.
Qed.

Lemma loop_agrees reg fs want todo : ∀ got c got' c' path meta,
  unique (JObj want) = true → preserve_loop reg fs want todo got c = Ok (got', c') →
  (path, meta) ∈ todo → kept reg fs path meta = true → agree want got' (keys_of path).
Proof.
  induction todo as [|[path1 meta1] todo IH]; intros got c got' c' path meta Hu; cbn [preserve_loop].
  { by intros _ ?%not_elem_of_nil. }
  intros Hloop [[= <- <-]|Hin]%elem_of_cons Hkept.
  - rewrite Hkept in Hloop. cbn [negb] in Hloop. destruct (opt_eq _ _) eqn:He.
    + by eapply loop_keeps.
    + destruct (setPath _ _ _ _) as [got1|] eqn:Hs; [|done]. eapply loop_keeps; [done| |exact Hloop].
      eapply set_agrees; [done|apply keys_of_nonempty|exact Hs].
  - destruct (negb _); [by eapply IH|]. destruct (opt_eq _ _); [by eapply IH|].
    destruct (setPath _ _ _ _); [by eapply IH|done].
Qed.

(** The rest of the candidate stays. *)
Lemma loop_other reg fs want todo : ∀ got c got' c' q,
  (∀ path meta, (path, meta) ∈ todo → kept reg fs path meta = true → diverge (keys_of path) q = true) →
  preserve_loop reg fs want todo got c = Ok (got', c') → lookupPath (JObj got') q = lookupPath (JObj got) q.
Proof.
  induction todo as [|[path meta] todo IH]; intros got c got' c' q Hd; cbn [preserve_loop]; [by intros [= <- <-]|].
  assert (Hd' : ∀ path meta, (path, meta) ∈ todo → kept reg fs path meta = true → diverge (keys_of path) q = true).
  { intros p m Hin. apply (Hd p m). by right. }
  destruct (kept reg fs path meta) eqn:Hk; cbn [negb]; [|by apply IH].
  destruct (opt_eq _ _); [by apply IH|]. destruct (setPath _ _ _ _) as [got1|] eqn:Hs; [|done]. intros Hloop.
  rewrite (IH _ _ _ _ _ Hd' Hloop). eapply setPath_other; [|exact Hs]. apply (Hd path meta); [by left|done].
Qed.

Lemma loop_unchanged reg fs want todo : ∀ got c got',
  preserve_loop reg fs want todo got c = Ok (got', false) → got' = got.
Proof.
  assert (Htrue : ∀ todo got got' c, preserve_loop reg fs want todo got true = Ok (got', c) → c = true).
  { intros t. induction t as [|[path meta] t IH]; intros got got' c; cbn [preserve_loop]; [by intros [= _ <-]|].
    destruct (negb _); [by apply IH|]. destruct (opt_eq _ _); [by apply IH|]. destruct (setPath _ _ _ _); [by apply IH|done]. }
  induction todo as [|[path meta] todo IH]; intros got c got'; cbn [preserve_loop]; [by intros [= <- _]|].
  destruct (negb _); [by apply IH|]. destruct (opt_eq _ _); [by apply IH|]. destruct (setPath _ _ _ _); [|done].
  intros H. by apply Htrue in H.
Qed.

(** an update never changes what the platform set: whatever a request did to the
    candidate, after [PreserveServiceSet] every service-set field has its stored value
    or absence, and the fields apart from those are as in the candidate; specs
    round-trip through JSON. *)
Theorem PreserveServiceSet_preserves {S} (specMap : S → option (list (string * json)))
    (Unmarshal : list (string * json) → option S) (reg : Registry) (fs : FeatureSet) (candidate stored result : S)
    (want got : list (string * json)) :
  (∀ m s, Unmarshal m = Some s → specMap s = Some m) →
  specMap stored = Some want → specMap candidate = Some got → unique (JObj want) = true →
  PreserveServiceSet specMap Unmarshal reg fs candidate stored = Ok result →
  ∃ final, specMap result = Some final ∧
    (∀ path meta, (path, meta) ∈ reg → kept reg fs path meta = true →
       opt_eq (lookupPath (JObj want) (keys_of path)) (lookupPath (JObj final) (keys_of path)) = true) ∧
    (∀ q, (∀ path meta, (path, meta) ∈ reg → kept reg fs path meta = true → diverge (keys_of path) q = true) →
       lookupPath (JObj final) q = lookupPath (JObj got) q).
Proof.
  intros Hround Hwant Hgot Hu. unfold PreserveServiceSet. rewrite Hwant, Hgot.
  destruct (preserve_loop reg fs want reg got false) as [[final c]|e] eqn:Hloop; [|done]. intros Hres.
  exists final. split.
  - destruct c.
    + destruct (Unmarshal final) as [s|] eqn:Hs; [|done]. injection Hres as <-. by apply Hround.
    + injection Hres as <-. by rewrite (loop_unchanged _ _ _ _ _ _ _ Hloop).
  - split.
    + intros path meta Hin Hkept. by eapply loop_agrees.
    + intros q Hq. by eapply loop_other.
Qed.

(** ** An instance: specs that are their maps *)

Definition self (m : list (string * json)) : option (list (string * json)) := Some m.

Definition proxy_registry : Registry :=
  [("spec.hostedCluster.issuerURL", mkMeta ServiceSet "" false []);
   ("spec.hostedCluster.configuration.proxy.httpProxy", mkMeta Mutable "" false []);
   ("spec.hostedCluster.configuration.proxy.trustedCA", mkMeta ServiceSet "" true [])].

Definition proxy_stored : list (string * json) :=
  [("hostedCluster", JObj [("configuration", JObj [("proxy", JObj [("trustedCA", JStr "ca"); ("httpProxy", JStr "p")])])])].

(** The request cleared the proxy. *)
Definition proxy_candidate : list (string * json) := [("hostedCluster", JObj [("configuration", JObj [("proxy", JNull)])])].

Definition proxy_result : list (string * json) :=
  [("hostedCluster", JObj [("configuration", JObj [("proxy", JObj [("trustedCA", JStr "ca")])])])].

Lemma PreserveServiceSet_preserves_witness :
  ∃ final, self proxy_result = Some final ∧
    (∀ path meta, (path, meta) ∈ proxy_registry → kept proxy_registry "Default" path meta = true →
       opt_eq (lookupPath (JObj proxy_stored) (keys_of path)) (lookupPath (JObj final) (keys_of path)) = true) ∧
    (∀ q, (∀ path meta, (path, meta) ∈ proxy_registry → kept proxy_registry "Default" path meta = true → diverge (keys_of path) q = true) →
       lookupPath (JObj final) q = lookupPath (JObj proxy_candidate) q).
Proof.
  apply (PreserveServiceSet_preserves self self proxy_registry "Default" proxy_candidate proxy_stored proxy_result proxy_stored proxy_candidate).
  - intros m s [= <-]. reflexivity.
  - reflexivity.
  - reflexivity.
  - reflexivity.
  - vm_compute. reflexivity.
Defined.

End Preserve.
