(* ===== verification/AuthzModel.v ===== *)
(** * The authorization data model and its errors

    The types of pkg/authz/model.go, actions.go and management_actions.go, and the
    error values the package returns: sentinel errors, wrapped errors, and
    [*Failure] and [*WrongWriterError], with [errors.Is] and [errors.As] over them.
    The Cedar library (cedar-go) is outside the repository: its entity and
    diagnostic records are data here, and its parser, validator and evaluator are
    the operations of [CedarEngine]. *)
From S2P Require Import Prelude GoStrings.
From stdpp Require Import base gmap strings list.
From Stdlib Require Import ZArith Lia Ascii String.
Open Scope string_scope.
Open Scope list_scope.

(** ** Identities, actions and resources *)

Record Identity := mkIdentity {
  AccountID : string;
  CallerARN : string;
  IsAllowlisted : bool
}.

Definition Action : Type := string.

Definition ListLabelsForResource : Action := "ListLabelsForResource".
Definition LabelResource : Action := "LabelResource".
Definition UnlabelResource : Action := "UnlabelResource".
Definition ListClusters : Action := "ListClusters".
Definition DescribeCluster : Action := "DescribeCluster".
Definition CreateCluster : Action := "CreateCluster".
Definition UpdateCluster : Action := "UpdateCluster".
Definition UpdateClusterConfig : Action := "UpdateClusterConfig".
Definition UpdateClusterVersion : Action := "UpdateClusterVersion".
Definition DeleteCluster : Action := "DeleteCluster".
Definition ListNodePools : Action := "ListNodePools".
Definition DescribeNodePool : Action := "DescribeNodePool".
Definition CreateNodePool : Action := "CreateNodePool".
Definition UpdateNodePool : Action := "UpdateNodePool".
Definition ScaleNodePool : Action := "ScaleNodePool".
Definition UpdateNodePoolVersion : Action := "UpdateNodePoolVersion".
Definition DeleteNodePool : Action := "DeleteNodePool".
Definition ListOIDCConfigs : Action := "ListOIDCConfigs".
Definition DescribeOIDCConfig : Action := "DescribeOIDCConfig".
Definition CreateOIDCConfig : Action := "CreateOIDCConfig".
Definition DeleteOIDCConfig : Action := "DeleteOIDCConfig".
Definition ListDNSReservations : Action := "ListDNSReservations".
Definition DescribeDNSReservation : Action := "DescribeDNSReservation".
Definition CreateDNSReservation : Action := "CreateDNSReservation".
Definition DeleteDNSReservation : Action := "DeleteDNSReservation".

Definition CreatePolicy : Action := "CreatePolicy".
Definition ListPolicies : Action := "ListPolicies".
Definition DescribePolicy : Action := "DescribePolicy".
Definition UpdatePolicy : Action := "UpdatePolicy".
Definition DeletePolicy : Action := "DeletePolicy".
Definition CreateAttachment : Action := "CreateAttachment".
Definition ListAttachments : Action := "ListAttachments".
Definition DeleteAttachment : Action := "DeleteAttachment".
Definition CreateAttachmentRegional : Action := "CreateAttachmentRegional".
Definition ListAttachmentsRegional : Action := "ListAttachmentsRegional".
Definition DeleteAttachmentRegional : Action := "DeleteAttachmentRegional".

Definition ResourceKind : Type := string.

Definition Collection : ResourceKind := "Collection".
Definition Cluster : ResourceKind := "Cluster".
Definition NodePool : ResourceKind := "NodePool".
Definition OIDCConfig : ResourceKind := "OIDCConfig".
Definition DNSReservation : ResourceKind := "DNSReservation".
Definition Policy : ResourceKind := "Policy".
Definition Attachment : ResourceKind := "Attachment".
Definition RegionalAttachment : ResourceKind := "RegionalAttachment".

(** [actionResourceKind]: the empty kind for an action the table does not list. *)
Definition actionResourceKind (action : Action) : ResourceKind :=
  if bool_decide (action ∈ [CreatePolicy; ListPolicies; DescribePolicy; UpdatePolicy; DeletePolicy]) then Policy
  else if bool_decide (action ∈ [CreateAttachment; ListAttachments; DeleteAttachment]) then Attachment
  else if bool_decide (action ∈ [CreateAttachmentRegional; ListAttachmentsRegional; DeleteAttachmentRegional])
  then RegionalAttachment
  else if bool_decide (action ∈ [ListClusters; DescribeCluster; CreateCluster; UpdateCluster; UpdateClusterConfig;
                                 UpdateClusterVersion; DeleteCluster]) then Cluster
  else if bool_decide (action ∈ [ListNodePools; DescribeNodePool; CreateNodePool; UpdateNodePool; ScaleNodePool;
                                 UpdateNodePoolVersion; DeleteNodePool]) then NodePool
  else if bool_decide (action ∈ [ListOIDCConfigs; DescribeOIDCConfig; CreateOIDCConfig; DeleteOIDCConfig]) then OIDCConfig
  else if bool_decide (action ∈ [ListDNSReservations; DescribeDNSReservation; CreateDNSReservation; DeleteDNSReservation])
  then DNSReservation
  else "".

Definition listAction (action : Action) : bool :=
  bool_decide (action ∈ [ListClusters; ListNodePools; ListOIDCConfigs; ListDNSReservations;
                         CreatePolicy; ListPolicies; CreateAttachment; ListAttachments;
                         CreateAttachmentRegional; ListAttachmentsRegional]).

Definition collectionName (kind : ResourceKind) : string :=
  if String.eqb kind Policy then "policies"
  else if String.eqb kind Attachment then "attachments"
  else if String.eqb kind RegionalAttachment then "regional_attachments"
  else if String.eqb kind Cluster then "clusters"
  else if String.eqb kind NodePool then "nodepools"
  else if String.eqb kind OIDCConfig then "oidc_configs"
  else if String.eqb kind DNSReservation then "dns_reservations"
  else "".

Definition isRegionalAction (action : Action) : bool :=
  bool_decide (action ∈ [CreateAttachmentRegional; ListAttachmentsRegional; DeleteAttachmentRegional]).

Definition isGlobalMutation (action : Action) : bool :=
  bool_decide (action ∈ [CreatePolicy; UpdatePolicy; DeletePolicy; CreateAttachment; DeleteAttachment]).

(** A [time.Time]: seconds since the Unix epoch and nanoseconds. *)
Record Time := mkTime { t_sec : Z; t_nsec : Z }.

(** The zero time is January 1, year 1. *)
Definition IsZero (t : Time) : bool := ((t_sec t =? -62135596800) && (t_nsec t =? 0))%Z.
Definition Weekday (t : Time) : Z := ((t_sec t / 86400 + 4) mod 7)%Z.
Definition Hour (t : Time) : Z := ((t_sec t mod 86400) / 3600)%Z.

Record RequestContext := mkRequestContext {
  SourceIP : string;
  UserAgent : string;
  RequestTime : Time;
  RequestLabels : gmap string string
}.

Record ParentCluster := mkParentCluster {
  pc_ID : string;
  pc_AccountID : string;
  pc_Labels : gmap string string
}.

Record Resource := mkResource {
  res_Kind : ResourceKind;
  res_ID : string;
  res_AccountID : string;
  res_Labels : gmap string string;
  res_CollectionKind : ResourceKind;
  res_ParentCluster : option ParentCluster
}.

Record Provenance := mkProvenance {
  DiagnosticID : string;
  PolicyID : string;
  BundleHash : string;
  prov_AttachmentID : string;
  PolicyRevision : string;
  AttachmentRevision : string
}.

#[export] Instance Provenance_eq_dec : EqDecision Provenance.
Proof. solve_decision. Defined.

Record Decision := mkDecision { Allowed : bool; dec_Provenance : list Provenance }.

Definition Stage : Type := string.
Definition StageResolution : Stage := "resolution".
Definition StageParsing : Stage := "parsing".
Definition StageBinding : Stage := "binding".
Definition StageEntityValidation : Stage := "entity_validation".
Definition StageEvaluation : Stage := "evaluation".

(** ** Errors *)

Inductive sentinel :=
| ErrConflict | ErrNotFound | ErrWrongWriter | ErrManagementDenied | ErrValidation | ErrManagedPolicy | ErrUnavailable.

#[export] Instance sentinel_eq_dec : EqDecision sentinel.
Proof. solve_decision. Defined.

(** cedar-go's [DiagnosticError], less its source position. *)
Record DiagnosticError := mkDiagnosticError { diag_PolicyID : string; diag_Message : string }.

(** [ESentinel] is one of the package's error variables, [EPlain] an error of no
    package type, [EWrap] an error wrapping two others ([%w: %w] or [errors.Join]),
    [EWrongWriter] a [*WrongWriterError] and [EFailure] a [*Failure]. *)
Inductive error :=
| ESentinel (s : sentinel)
| EPlain (msg : string)
| EWrap (e1 e2 : error)
| EWrongWriter (region : string)
| EFailure (stage : Stage) (action : Action) (provenance : list Provenance) (diagnostics : list DiagnosticError) (err : error).

Definition newFailure (stage : Stage) (err : error) (provenance : list Provenance) : error :=
  EFailure stage "" provenance [] err.

(** [errors.Is(err, s)] *)
Fixpoint errors_Is (err : error) (s : sentinel) : bool :=
  match err with
  | ESentinel s' => bool_decide (s = s')
  | EPlain _ => false
  | EWrap e1 e2 => errors_Is e1 s || errors_Is e2 s
  | EWrongWriter _ => bool_decide (s = ErrWrongWriter)
  | EFailure _ _ _ _ e => errors_Is e s
  end.

(** Whether [errors.As] finds a [*Failure]. *)
Fixpoint has_failure (err : error) : bool :=
  match err with
  | EFailure _ _ _ _ _ => true
  | EWrap e1 e2 => has_failure e1 || has_failure e2
  | _ => false
  end.

(** The deferred [failure.Action = action] of [Check]: [errors.As] finds the first
    [*Failure] of the chain, and the action is set in it. *)
Fixpoint set_failure_action (action : Action) (err : error) : error :=
  match err with
  | EFailure st _ p d e => EFailure st action p d e
  | EWrap e1 e2 => if has_failure e1 then EWrap (set_failure_action action e1) e2 else EWrap e1 (set_failure_action action e2)
  | e => e
  end.

(** [fmt.Errorf("%w: ...", ErrValidation)] *)
Definition validation_error (msg : string) : error := EWrap (ESentinel ErrValidation) (EPlain msg).

(** [backendError] of a non-nil error. *)
Definition backendError (err : error) : error := EWrap (ESentinel ErrUnavailable) err.

Definition managementResultResolution (err : error) : error :=
  if errors_Is err ErrUnavailable then err else newFailure StageResolution err [].

Definition managementResult (err : error) : error :=
  if existsb (errors_Is err) [ErrValidation; ErrNotFound; ErrConflict; ErrUnavailable; ErrManagedPolicy; ErrWrongWriter]
  then err
  else if has_failure err then err
  else newFailure StageResolution err [].

(** ** Cedar *)

Record EntityUID := mkUID { uid_type : string; uid_id : string }.

#[export] Instance EntityUID_eq_dec : EqDecision EntityUID.
Proof. solve_decision. Defined.
#[export] Instance EntityUID_countable : Countable EntityUID.
Proof. refine (inj_countable' (fun u => (uid_type u, uid_id u)) (fun p => mkUID p.1 p.2) _). by intros []. Defined.

(** The Cedar values the package builds. *)
Inductive value :=
| VString (s : string)
| VLong (n : Z)
| VEntity (u : EntityUID)
| VRecord (fields : list (string * value)).

Record Entity := mkEntity {
  ent_UID : EntityUID;
  ent_Parents : gset EntityUID;
  ent_Attributes : list (string * value);
  ent_Tags : gmap string string
}.

Definition EntityMap : Type := gmap EntityUID Entity.

Record CedarRequest := mkCedarRequest {
  rq_Principal : EntityUID;
  rq_Action : EntityUID;
  rq_Resource : EntityUID;
  rq_Context : list (string * value)
}.

Definition entityUID (kind id : string) : EntityUID := mkUID ("Seaplane::" ++ kind) id.

(** What the package calls of cedar-go: [NewPolicyListFromBytes], [Validate.Policy],
    [.Entities] and [.Request] of the strict validator of the embedded schema, the
    schema's actions, the principal scope setters of a policy's syntax tree, and
    [Authorize]: whether the decision is Allow, the policies of the reasons and the
    errors. *)
Class CedarEngine := {
  CPolicy : Type;
  NewPolicyListFromBytes : string → string → result error (list CPolicy);
  validate_Policy : string → CPolicy → option error;
  validate_Entities : EntityMap → option error;
  validate_Request : CedarRequest → option error;
  model_Actions : EntityMap;
  PrincipalEq : CPolicy → EntityUID → CPolicy;
  PrincipalIn : CPolicy → EntityUID → CPolicy;
  cedar_Authorize : gmap string CPolicy → EntityMap → CedarRequest → bool * list string * list DiagnosticError
}.

(** [checkedPolicy] (schema.go) *)
Definition checkedPolicy `{CedarEngine} (content id : string) : result error CPolicy :=
  policies ← NewPolicyListFromBytes id content;
  match policies with
  | [p] => match validate_Policy id p with Some err => Err err | None => Ok p end
  | _ => Err (EPlain "policy record requires exactly one statement")
  end.

(** ** Lemmas *)

Lemma errors_Is_set_action a e s : errors_Is (set_failure_action a e) s = errors_Is e s.
Proof. induction e; simpl; try done. case_match; simpl; congruence. Qed.

Lemma checkedPolicy_ok `{CedarEngine} content id p :
  checkedPolicy content id = Ok p ↔ NewPolicyListFromBytes id content = Ok [p] ∧ validate_Policy id p = None.
Proof.
  unfold checkedPolicy. rewrite result_bind_ok. split.
  - intros (l & -> & Hl). destruct l as [|q [|]]; try done. case_match; by simplify_eq.
  - intros [-> Hv]. exists [p]. by rewrite Hv.
Qed.
