(* ===== verification/Arn.v ===== *)
(** * Principals: ARNs, roles and attachment scopes (pkg/authz/arn.go, identity.go)

    [parsePrincipal] is over the AWS SDK's [arn.Parse], which is a parameter. The
    regular expressions are predicates on byte strings. *)
From S2P Require Import Prelude GoStrings AwsArn AuthzModel.
From stdpp Require Import base gmap strings list.
From Stdlib Require Import ZArith Lia Ascii String.
Open Scope string_scope.
Open Scope list_scope.

(** ** The patterns *)

Definition nonempty (p : ascii → bool) (s : string) : bool := negb (String.eqb s "") && str_forall p s.
Definition in_set (set : string) (a : ascii) : bool := match IndexByte set a with Some _ => true | None => false end.

(** [^[0-9]{12}$] *)
Definition accountPattern (s : string) : bool := Nat.eqb (String.length s) 12 && str_forall is_digit s.

(** [^[a-z]{2}(-[a-z0-9]+)+-[0-9]+$]: the text split at the dashes, which no
    class of the pattern has. *)
Definition regionPattern (s : string) : bool :=
  match Split s "-" with
  | first :: rest =>
      Nat.eqb (String.length first) 2 && str_forall is_lower first &&
      match rev rest with
      | last :: middle =>
          nonempty is_digit last && negb (Nat.eqb (List.length middle) 0) &&
          forallb (nonempty (fun a => is_lower a || is_digit a)) middle
      | [] => false
      end
  | [] => false
  end.

(** [^[A-Za-z0-9+=,.@_-]{1,64}$] *)
Definition namePattern (s : string) : bool :=
  nonempty (fun a => is_alnum a || in_set "+=,.@_-" a) s && Nat.leb (String.length s) 64.

(** [^[A-Za-z0-9][A-Za-z0-9._-]*$] *)
Definition idPattern (s : string) : bool :=
  match s with
  | String a rest => is_alnum a && str_forall (fun a => is_alnum a || in_set "._-" a) rest
  | "" => false
  end.

(** ** Principals *)

Record principalARN := mkPrincipal {
  partition : string;
  account : string;
  kind : string;
  roleName : string;
  original : string
}.

#[export] Instance principalARN_eq_dec : EqDecision principalARN.
Proof. solve_decision. Defined.

(** One element of an IAM path. *)
Definition path_part (part : string) : bool := namePattern part && negb (String.eqb part ".") && negb (String.eqb part "..").

Definition parsePrincipal `{ArnParser} (value : string) : result error principalARN :=
  match arn_Parse value with
  | None => Err (EPlain "arn: invalid")
  | Some parsed =>
      if negb (String.eqb (Partition parsed) "aws") then Err (EPlain "unsupported ARN partition")
      else if negb (String.eqb (Region parsed) "") || negb (accountPattern (AwsArn.AccountID parsed))
      then Err (EPlain "principal ARN requires an account and no region")
      else
        match Split (AwsArn.Resource parsed) "/" with
        | (k :: _ :: _) as parts =>
            let principal rn := mkPrincipal (Partition parsed) (AwsArn.AccountID parsed) k rn value in
            if String.eqb (Service parsed) "iam" && (String.eqb k "user" || String.eqb k "role") then
              if Nat.ltb 512 (String.length (AwsArn.Resource parsed)) then Err (EPlain "principal ARN path too long")
              else if negb (forallb path_part (List.tl parts)) then Err (EPlain "invalid principal ARN path")
              else Ok (principal (if String.eqb k "role" then List.last parts "" else ""))
            else if String.eqb (Service parsed) "sts" && String.eqb k "assumed-role" then
              match parts with
              | [_; role; session] =>
                  if namePattern role && namePattern session then Ok (principal role)
                  else Err (EPlain "invalid assumed-role ARN")
              | _ => Err (EPlain "invalid assumed-role ARN")
              end
            else Err (EPlain "unsupported principal ARN service or kind")
        | _ => Err (EPlain "unsupported principal ARN resource")
        end
  end.

Definition checkedIdentity `{ArnParser} (id : Identity) : result error principalARN :=
  principal ← parsePrincipal (CallerARN id);
  if negb (String.eqb (account principal) (AccountID id)) || String.eqb (kind principal) "role"
  then Err (EPlain "caller must be a user or session in the identity account")
  else Ok principal.

(** [Identity.Validate] *)
Definition Validate `{ArnParser} (id : Identity) : option error :=
  match checkedIdentity id with Ok _ => None | Err e => Some e end.

Definition roleAlias (p : principalARN) : string := (partition p ++ "/" ++ account p ++ "/" ++ roleName p)%string.

Definition addRoleAlias (aliases : gmap string string) (alias role : string) : result error (gmap string string) :=
  match aliases !! alias with
  | Some previous => if String.eqb previous role then Ok (<[alias := role]> aliases) else Err (EPlain "ambiguous role alias")
  | None => Ok (<[alias := role]> aliases)
  end.

Definition matchesPrincipal (target caller : principalARN) : bool :=
  String.eqb (original target) (original caller) ||
  (String.eqb (kind target) "role" && String.eqb (kind caller) "assumed-role" &&
   String.eqb (roleAlias target) (roleAlias caller)).

Definition checkedScope (scope region : string) : option error :=
  if String.eqb scope "global" && String.eqb region "" then None
  else if String.eqb scope "regional" && regionPattern region then None
  else Some (EPlain "invalid attachment scope or region").

Definition appliesInRegion (scope attachmentRegion requestRegion : string) : bool :=
  String.eqb scope "global" || (String.eqb scope "regional" && String.eqb attachmentRegion requestRegion).

(** ** Lemmas *)

Lemma accountPattern_spec s : accountPattern s = true ↔ String.length s = 12 ∧ str_forall is_digit s = true.
Proof. unfold accountPattern. rewrite andb_true_iff, Nat.eqb_eq. done. Qed.

Lemma accountPattern_ascii s : accountPattern s = true → ascii_text s = true.
Proof. rewrite accountPattern_spec. intros [_ H]. revert H. apply class_ascii. vm_compute. done. Qed.

Lemma idPattern_ascii s : idPattern s = true → ascii_text s = true.
Proof.
  destruct s as [|a s]; [done|]. simpl. intros [Ha Hs]%andb_true_iff. unfold ascii_text. simpl. apply andb_true_iff. split.
  - assert (H : ascii_text (String a "") = true)
      by (apply (class_ascii is_alnum); [by vm_compute|simpl; by rewrite Ha]).
    unfold ascii_text in H. simpl in H. by apply andb_true_iff in H as [? _].
  - revert Hs. apply class_ascii. vm_compute. done.
Qed.

Lemma namePattern_ascii s : namePattern s = true → ascii_text s = true.
Proof.
  unfold namePattern, nonempty. intros [[_ H]%andb_true_iff _]%andb_true_iff. revert H. apply class_ascii. vm_compute. done.
Qed.

Lemma join_ascii l sep : Forall (fun s => ascii_text s = true) l → ascii_text sep = true → ascii_text (strings_Join l sep) = true.
Proof.
  intros Hl Hsep. induction Hl as [|x l Hx Hl IH]; [done|].
  destruct l as [|y l]; [done|]. change (strings_Join (x :: y :: l) sep) with (x +:+ sep +:+ strings_Join (y :: l) sep).
  by rewrite !ascii_app, Hx, Hsep, IH.
Qed.

Lemma split_ascii s : Forall (fun p => ascii_text p = true) (Split s "/") → ascii_text s = true.
Proof. intros H. rewrite <- (Join_Split s "/"). by apply join_ascii. Qed.

Lemma split_dash_ascii s : Forall (fun p => ascii_text p = true) (Split s "-") → ascii_text s = true.
Proof. intros H. rewrite <- (Join_Split s "-"). by apply join_ascii. Qed.

Lemma regionPattern_ascii s : regionPattern s = true → ascii_text s = true.
Proof.
  intros H. apply split_dash_ascii. unfold regionPattern in H. destruct (Split s "-") as [|f rest]; [done|].
  apply andb_true_iff in H as [[_ Hf]%andb_true_iff Hr].
  constructor; [revert Hf; apply class_ascii; by vm_compute|].
  rewrite <- (rev_involutive rest). destruct (rev rest) as [|x m]; [done|].
  apply andb_true_iff in Hr as [[Hx _]%andb_true_iff Hm]. simpl. apply Forall_app. split.
  - apply Forall_rev. rewrite forallb_Forall in Hm. eapply Forall_impl; [exact Hm|]. intros y Hy.
    unfold nonempty in Hy. apply andb_true_iff in Hy as [_ Hy]. revert Hy. apply class_ascii. by vm_compute.
  - constructor; [|constructor]. unfold nonempty in Hx. apply andb_true_iff in Hx as [_ Hx]. revert Hx. apply class_ascii. by vm_compute.
Qed.

(** What a parsed principal is. *)
Record principal_ok (v : string) (p : principalARN) : Prop := {
  po_original : original p = v;
  po_partition : partition p = "aws";
  po_account : accountPattern (account p) = true;
  po_kind : kind p = "user" ∨ kind p = "role" ∨ kind p = "assumed-role";
  po_user : kind p = "user" → roleName p = "";
  po_role : kind p ≠ "user" → namePattern (roleName p) = true;
  po_ascii : ascii_text v = true
}.

Lemma path_part_name s : path_part s = true → namePattern s = true.
Proof. unfold path_part. by intros [[? _]%andb_true_iff _]%andb_true_iff. Qed.

Lemma parsePrincipal_ok `{ArnParser} v p : parsePrincipal v = Ok p → principal_ok v p.
Proof.
  unfold parsePrincipal. destruct (arn_Parse v) as [a|] eqn:Ea; [|done].
  pose proof (arn_Parse_text v a Ea) as Ht.
  destruct (String.eqb_spec (Partition a) "aws") as [Hp|]; simpl; [|done].
  destruct (String.eqb_spec (Region a) "") as [Hr|]; simpl; [|done].
  destruct (accountPattern (AwsArn.AccountID a)) eqn:Hacc; simpl; [|done].
  destruct (Split (AwsArn.Resource a) "/") as [|k [|q parts]] eqn:Es; try done.
  assert (Hasc : ascii_text (AwsArn.Resource a) = true → ascii_text (Service a) = true → ascii_text v = true).
  { intros HR HS. rewrite Ht. unfold arn_text. by rewrite Hp, Hr, !ascii_app, HR, HS, (accountPattern_ascii _ Hacc). }
  destruct (String.eqb_spec (Service a) "iam") as [Hs|Hs]; cbn [andb orb negb List.tl].
  - destruct (String.eqb_spec k "user") as [->|Hu]; cbn [andb orb negb].
    + destruct (Nat.ltb _ _); [done|]. 
      destruct (path_part q && forallb path_part parts) eqn:Hf; [|done]. intros [= <-].
      apply andb_true_iff in Hf as [Hq Hf]. rewrite forallb_Forall in Hf.
      constructor; simpl; auto; try done. apply Hasc; [|by rewrite Hs]. apply split_ascii. rewrite Es.
      constructor; [done|]. constructor; [by apply namePattern_ascii, path_part_name|].
      eapply Forall_impl; [exact Hf|]. intros. by apply namePattern_ascii, path_part_name.
    + destruct (String.eqb_spec k "role") as [->|Hk]; cbn [andb orb negb]; [|rewrite Hs; simpl; done].
      destruct (Nat.ltb _ _); [done|]. destruct (path_part q && forallb path_part parts) eqn:Hf; [|done]. intros [= <-].
      apply andb_true_iff in Hf as [Hq Hf]. rewrite forallb_Forall in Hf.
      assert (Hall : Forall (fun x => path_part x = true) (q :: parts)) by by constructor.
      constructor; simpl; auto; try done.
      * intros _. apply path_part_name. rewrite Forall_forall in Hall. apply Hall. clear.
        revert q. induction parts as [|x parts IH]; intros q; [by constructor|].
        apply elem_of_cons. right. apply IH.
      * apply Hasc; [|by rewrite Hs]. apply split_ascii. rewrite Es. constructor; [done|].
        eapply Forall_impl; [exact Hall|]. intros. by apply namePattern_ascii, path_part_name.
  - destruct (String.eqb_spec (Service a) "sts") as [Hst|]; simpl; [|done].
    destruct (String.eqb_spec k "assumed-role") as [->|]; simpl; [|done].
    destruct parts as [|x [|]]; try done. destruct (namePattern q) eqn:Hq; simpl; [|done].
    destruct (namePattern x) eqn:Hx; [|done]. intros [= <-].
    constructor; simpl; auto; try done. apply Hasc; [|by rewrite Hst]. apply split_ascii. rewrite Es.
    repeat constructor; auto using namePattern_ascii.
Qed.

Lemma checkedIdentity_ok `{ArnParser} id p :
  checkedIdentity id = Ok p ↔ parsePrincipal (CallerARN id) = Ok p ∧ account p = AccountID id ∧ kind p ≠ "role".
Proof.
  unfold checkedIdentity. rewrite result_bind_ok. split.
  - intros (q & Hq & Hi). destruct (String.eqb_spec (account q) (AccountID id)); simpl in Hi; [|done].
    destruct (String.eqb_spec (kind q) "role"); [done|]. by simplify_eq.
  - intros (Hp & Ha & Hk). exists p. split; [done|]. apply String.eqb_eq in Ha. apply String.eqb_neq in Hk. by rewrite Ha, Hk.
Qed.

Lemma app_tail_inj (a b c d : string) : String.length a = String.length b → a +:+ c = b +:+ d → a = b ∧ c = d.
Proof.
  revert b. induction a as [|x a IH]; intros [|y b]; simpl; try done. intros [= Hl] [= -> E].
  by destruct (IH b Hl E) as [-> ->].
Qed.

Lemma roleAlias_inj p q :
  partition p = partition q → accountPattern (account p) = true → accountPattern (account q) = true →
  roleAlias p = roleAlias q → account p = account q ∧ roleName p = roleName q.
Proof.
  unfold roleAlias. intros -> [Hp _]%accountPattern_spec [Hq _]%accountPattern_spec E.
  apply app_tail_inj in E as [_ E]; [|done]. apply (app_tail_inj "/" "/") in E as [_ E]; [|done].
  apply app_tail_inj in E as [? E]; [|lia]. by apply (app_tail_inj "/" "/") in E as [_ ?].
Qed.

(** The matching of parsed principals. *)
Lemma matchesPrincipal_true `{ArnParser} v c target caller :
  parsePrincipal v = Ok target → parsePrincipal c = Ok caller →
  matchesPrincipal target caller = true ↔
    v = c ∨ kind target = "role" ∧ kind caller = "assumed-role" ∧ account target = account caller ∧ roleName target = roleName caller.
Proof.
  intros Hv%parsePrincipal_ok Hc%parsePrincipal_ok. destruct Hv as [Hov Hpv Hav _ _ _ _], Hc as [Hoc Hpc Hac _ _ _ _].
  unfold matchesPrincipal. rewrite orb_true_iff, !andb_true_iff, !String.eqb_eq, Hov, Hoc. split; (intros [?|?]; [by left|right]).
  - destruct H0 as [[-> ->] E]. apply roleAlias_inj in E; [tauto|congruence|done|done].
  - destruct H0 as (-> & -> & Ha & Hr). unfold roleAlias. by rewrite Hpv, Hpc, Ha, Hr.
Qed.
