(* ===== verification/Template.v ===== *)
(** * Policy templates (pkg/authz/store_template.go)

    [templateScope] reads the header of a Cedar policy with Go's [text/scanner] in
    the mode identifiers, strings and skipped comments; that scanner is modelled
    here byte by byte, with its look-ahead character and its error handler.
    [bindPolicy] puts the principal in the [?principal] slot. *)
From S2P Require Import Prelude GoStrings AwsArn AuthzModel Arn.
From stdpp Require Import base strings list.
From Stdlib Require Import ZArith Lia Ascii String.
Open Scope string_scope.
Open Scope list_scope.

(** ** Runes *)

(** [unicode.IsLetter] and [unicode.IsDigit] beyond ASCII: the Unicode tables. *)
Class UnicodeTables := { wide_letter : Z → bool; wide_digit : Z → bool }.

Definition byte_at (s : string) (i : nat) : Z :=
  match String.get i s with Some a => Z.of_nat (nat_of_ascii a) | None => -1 end.

Definition continuation (b : Z) : bool := (128 <=? b)%Z && (b <=? 191)%Z.

(** [utf8.DecodeRune] of a non-empty text: the rune and its width; an invalid
    sequence is the replacement character of width 1. *)
Definition DecodeRune (s : string) : Z * nat :=
  let b0 := byte_at s 0 in let b1 := byte_at s 1 in let b2 := byte_at s 2 in let b3 := byte_at s 3 in
  let invalid := (65533%Z, 1) in
  (if b0 <? 128 then (b0, 1%nat)
   else if (194 <=? b0) && (b0 <=? 223) then
     if continuation b1 then ((b0 - 192) * 64 + (b1 - 128), 2%nat) else invalid
   else if (224 <=? b0) && (b0 <=? 239) then
     let lo := if b0 =? 224 then 160 else 128 in
     let hi := if b0 =? 237 then 159 else 191 in
     if (lo <=? b1) && (b1 <=? hi) && continuation b2
     then ((b0 - 224) * 4096 + (b1 - 128) * 64 + (b2 - 128), 3%nat) else invalid
   else if (240 <=? b0) && (b0 <=? 244) then
     let lo := if b0 =? 240 then 144 else 128 in
     let hi := if b0 =? 244 then 143 else 191 in
     if (lo <=? b1) && (b1 <=? hi) && continuation b2 && continuation b3
     then ((b0 - 240) * 262144 + (b1 - 128) * 4096 + (b2 - 128) * 64 + (b3 - 128), 4%nat) else invalid
   else invalid)%Z.

Section unicode.
Context `{UnicodeTables}.

(** [isIdentRune(ch, i)] with [first] for [i = 0]. *)
Definition isIdentRune (ch : Z) (first : bool) : bool :=
  (ch =? 95)%Z ||
  (if ch <? 128 then (65 <=? ch) && (ch <=? 90) || (97 <=? ch) && (ch <=? 122) else wide_letter ch)%Z ||
  ((if ch <? 128 then (48 <=? ch) && (ch <=? 57) else wide_digit ch)%Z && negb first).

(** ** The scanner *)

(** The text from the look-ahead character on, its offset and the last error
    reported to the handler. *)
Record Scanner := mkScanner { s_rest : string; s_offset : nat; s_err : option string }.

(** The look-ahead character; -1 at the end. *)
Definition ch (s : Scanner) : Z := if String.eqb (s_rest s) "" then (-1)%Z else (DecodeRune (s_rest s)).1.

Definition report (s : Scanner) (msg : string) : Scanner := mkScanner (s_rest s) (s_offset s) (Some msg).

(** Reading a character reports NUL and invalid encodings. *)
Definition peeked (s : Scanner) : Scanner :=
  if String.eqb (s_rest s) "" then s
  else if (byte_at (s_rest s) 0 =? 0)%Z then report s "invalid character NUL"
  else if ((DecodeRune (s_rest s)).1 =? 65533)%Z && Nat.eqb (DecodeRune (s_rest s)).2 1 then report s "invalid UTF-8 encoding"
  else s.

Definition next (s : Scanner) : Scanner :=
  if String.eqb (s_rest s) "" then s
  else let n := (DecodeRune (s_rest s)).2 in
       peeked (mkScanner (str_drop n (s_rest s)) (s_offset s + n) (s_err s)).

(** [Init] and the first read, which skips a byte order mark. *)
Definition Init (content : string) : Scanner :=
  let s := peeked (mkScanner content 0 None) in
  if (ch s =? 65279)%Z then next s else s.

Definition is_white (c : Z) : bool := bool_decide (c ∈ [9; 10; 13; 32])%Z.

(** [for p(ch) { ch = s.next() }] *)
Fixpoint skip_while (fuel : nat) (p : Z → bool) (s : Scanner) : Scanner :=
  match fuel with
  | O => s
  | S fuel => if (0 <=? ch s)%Z && p (ch s) then skip_while fuel p (next s) else s
  end.

Definition digitVal (c : Z) : Z :=
  (if (48 <=? c) && (c <=? 57) then c - 48
   else if (97 <=? c) && (c <=? 102) then c - 97 + 10
   else if (65 <=? c) && (c <=? 70) then c - 65 + 10
   else 16)%Z.

Fixpoint scanDigits (base : Z) (n : nat) (s : Scanner) : Scanner :=
  match n with
  | O => s
  | S m => if (digitVal (ch s) <? base)%Z then scanDigits base m (next s) else report s "invalid char escape"
  end.

(** [scanEscape] of a double-quoted string. *)
Definition scanEscape (s : Scanner) : Scanner :=
  let s := next s in
  let c := ch s in
  if bool_decide (c ∈ [97; 98; 102; 110; 114; 116; 118; 92; 34])%Z then next s
  else if (48 <=? c)%Z && (c <=? 55)%Z then scanDigits 8 3 s
  else if (c =? 120)%Z then scanDigits 16 2 (next s)
  else if (c =? 117)%Z then scanDigits 16 4 (next s)
  else if (c =? 85)%Z then scanDigits 16 8 (next s)
  else report s "invalid char escape".

(** [scanString], from the character after the quote on. *)
Fixpoint scanString (fuel : nat) (s : Scanner) : Scanner :=
  match fuel with
  | O => s
  | S fuel =>
      if (ch s =? 34)%Z then s
      else if (ch s =? 10)%Z || (ch s <? 0)%Z then report s "literal not terminated"
      else if (ch s =? 92)%Z then scanString fuel (scanEscape s)
      else scanString fuel (next s)
  end.

(** The loop of a general comment. *)
Fixpoint scanGeneral (fuel : nat) (s : Scanner) : Scanner :=
  match fuel with
  | O => s
  | S fuel =>
      if (ch s <? 0)%Z then report s "comment not terminated"
      else let c0 := ch s in
           let s := next s in
           if (c0 =? 42)%Z && (ch s =? 47)%Z then next s else scanGeneral fuel s
  end.

Definition scanComment (fuel : nat) (s : Scanner) : Scanner :=
  if (ch s =? 47)%Z then skip_while fuel (fun c => negb (c =? 10)%Z) (next s)
  else scanGeneral fuel (next s).

Inductive token := TEOF | TIdent | TString | TChar (c : Z).

Definition is_char (t : token) (c : Z) : bool := match t with TChar c' => (c =? c')%Z | _ => false end.

(** [Scan]: the token, its text and its offset. Every step reads a character, so the
    length of the text is fuel enough. *)
Fixpoint Scan (fuel : nat) (s : Scanner) : token * string * nat * Scanner :=
  match fuel with
  | O => (TEOF, "", s_offset s, s)
  | S fuel' =>
      let s := skip_while fuel is_white s in
      let text s' := str_take (s_offset s' - s_offset s) (s_rest s) in
      let c := ch s in
      if (c <? 0)%Z then (TEOF, "", s_offset s, s)
      else if isIdentRune c true then
        let s' := skip_while fuel (fun c => isIdentRune c false) (next s) in (TIdent, text s', s_offset s, s')
      else if (c =? 34)%Z then
        let s' := next (scanString fuel (next s)) in (TString, text s', s_offset s, s')
      else if (c =? 47)%Z then
        let s' := next s in
        if (ch s' =? 47)%Z || (ch s' =? 42)%Z then Scan fuel' (scanComment fuel s')
        else (TChar c, text s', s_offset s, s')
      else let s' := next s in (TChar c, text s', s_offset s, s')
  end.

(** ** The header of a template *)

Section header.
Context (fuel : nat).

Definition scan (s : Scanner) : token * string * nat * Scanner := Scan fuel s.

(** The loop over the annotations, from the token just read. *)
Fixpoint annotations (n : nat) (tk : token * string * nat * Scanner) : option (token * string * nat * Scanner) :=
  match n with
  | O => None
  | S n =>
      let '(t, text, off, s) := tk in
      if is_char t 64 then
        let '(t1, _, _, s) := scan s in
        if negb (match t1 with TIdent => true | _ => false end) then None else
        let '(t2, _, _, s) := scan s in
        if negb (is_char t2 40) then None else
        let '(t3, _, _, s) := scan s in
        if negb (match t3 with TString => true | _ => false end) then None else
        let '(t4, _, _, s) := scan s in
        if negb (is_char t4 41) then None else
        annotations n (scan s)
      else Some tk
  end.

(** The loop that collects the header tokens, ten at most. *)
Fixpoint header_tokens (n : nat) (tk : token * string * nat * Scanner) (header : list string) :
    list string * (token * string * nat * Scanner) :=
  match n with
  | O => (header, tk)
  | S n =>
      let '(t, text, off, s) := tk in
      match t with
      | TEOF => (header, tk)
      | _ => if is_char t 44 then (header, tk) else header_tokens n (scan s) (header ++ [text])
      end
  end.

Definition template_error : error := EPlain "template requires principal == ?principal or principal in ?principal".

End header.

(** [templateScope]: the bounds of the header and its operator, [""] when the policy
    is no template. *)
Definition templateScope (content : string) : result error (nat * nat * string) :=
  let fuel := S (String.length content) in
  match annotations fuel fuel (scan fuel (Init content)) with
  | None => Err (EPlain "invalid policy annotation")
  | Some (t, text, _, s) =>
      if negb (match t with TIdent => true | _ => false end && (String.eqb text "permit" || String.eqb text "forbid"))
      then Ok (0, 0, "")
      else
        let '(t, _, _, s) := scan fuel s in
        if negb (is_char t 40) then Ok (0, 0, "")
        else
          let first := scan fuel s in
          let start := first.1.2 in
          let '(header, (t, _, stop, s)) := header_tokens fuel 10 first [] in
          match s_err s with
          | Some msg => Err (EPlain ("template header: " ++ msg)%string)
          | None =>
              if negb (bool_decide ("?" ∈ header)) then Ok (0, 0, "")
              else if is_char t 44 && bool_decide (header = ["principal"; "in"; "?"; "principal"]) then Ok (start, stop, "in")
              else if is_char t 44 && bool_decide (header = ["principal"; "="; "="; "?"; "principal"]) then Ok (start, stop, "==")
              else Err template_error
          end
  end.

(** ** Binding *)

Definition maxPolicyBytes : nat := 64 * 1024.

Definition bindPolicy `{CedarEngine} (content id : string) (principal : principalARN) : result error CPolicy :=
  if Nat.ltb maxPolicyBytes (String.length content) then Err (EPlain "policy exceeds 65536 bytes")
  else
    '(start, stop, operator) ← templateScope content;
    if String.eqb operator "" then checkedPolicy content id
    else
      policy ← checkedPolicy (str_take start content ++ "principal" ++ str_drop stop content)%string id;
      let k := if String.eqb (kind principal) "role" then "Role" else "Principal" in
      let target := entityUID k (original principal) in
      let bound := if String.eqb operator "in" then PrincipalIn policy target else PrincipalEq policy target in
      match validate_Policy id bound with Some err => Err err | None => Ok bound end.

End unicode.

(** ** Examples *)

Definition ascii_only : UnicodeTables := {| wide_letter _ := false; wide_digit _ := false |}.
#[local] Existing Instance ascii_only.

Example template_eq :
  templateScope "permit (principal == ?principal, action, resource);" = Ok (8, 31, "==").
Proof. vm_compute. reflexivity. Qed.
Example template_in :
  templateScope "// ?
forbid(/* ? */principal in ?principal /**/ , action, resource);" = Ok (19, 48, "in").
Proof. vm_compute. reflexivity. Qed.
Example template_other :
  templateScope "permit(principal, action == ?principal, resource);" = Ok (0, 0, "").
Proof. vm_compute. reflexivity. Qed.
Example template_bad : templateScope "permit(principal is ?principal, action, resource);" = Err template_error.
Proof. vm_compute. reflexivity. Qed.
