(* ===== verification/Dynamo.v ===== *)
(** * The DynamoDB client

    The authorization store calls the AWS SDK's DynamoDB client, which is outside the
    repository. [Backend] is what the store calls, [BackendLaws] what it relies on:
    each call works on the tables as it finds them, after whatever other clients did
    ([interfere]); reads are consistent; a write or a transaction commits as a whole,
    and only when its conditions hold, or not at all, and a write that reports an
    error may still have committed. [Memory] is a backend in memory that satisfies
    the laws. *)
From S2P Require Import Prelude GoStrings Db Uuid.
From stdpp Require Import base gmap strings list fin_maps relations.
From Stdlib Require Import ZArith Lia Ascii String.
Open Scope string_scope.
Open Scope list_scope.

(** [types.AttributeValue]; the package reads and writes only strings. *)
Inductive AttributeValue :=
| AV_S (s : string)
| AV_other.

#[export] Instance AttributeValue_eq_dec : EqDecision AttributeValue.
Proof. solve_decision. Defined.

Definition Item : Type := gmap string AttributeValue.

Inductive sdk_error :=
| ConditionalCheckFailedException
| TransactionCanceledException (reasons : list string)
| OtherSdkError (msg : string).

(** The item writes of a transaction; [TxPut] and [TxDelete] are also the single calls. *)
Inductive TransactWriteItem :=
| TxPut (table : string) (item : Item) (cond : string) (values : Item)
| TxDelete (table : string) (key : Item) (cond : string) (values : Item)
| TxCheck (table : string) (key : Item) (cond : string) (values : Item).

(** The committed items by table, partition key and sort key. *)
Definition Tables : Type := gmap (string * string * string) Item.

(** The key attributes of an item. *)
Definition key_of (item : Item) : option (string * string) :=
  match item !! "pk", item !! "sk" with
  | Some (AV_S pk), Some (AV_S sk) => Some (pk, sk)
  | _, _ => None
  end.

(** A DynamoDB partition and sort key (store.go). *)
Definition storeKey (pk sk : string) : Item := {["pk" := AV_S pk; "sk" := AV_S sk]}.

Record QueryInput := mkQueryInput {
  q_TableName : string;
  q_Limit : Z;
  q_KeyConditionExpression : string;
  q_Values : Item;
  q_ExclusiveStartKey : Item
}.

Class Backend := {
  World : Type;
  contents : World → Tables;
  interfere : Tables → Tables → Prop;
  (** the evaluation of a condition expression with its values on the stored item *)
  condition : string → Item → option Item → bool;
  (** the items of a partition in sort key order *)
  items_of : Tables → string → string → list (string * Item);
  GetItem : World → string → Item → World * result sdk_error Item;
  PutItem : World → string → Item → string → Item → World * option sdk_error;
  DeleteItem : World → string → Item → string → Item → World * option sdk_error;
  TransactWriteItems : World → list TransactWriteItem → World * option sdk_error;
  Query : World → QueryInput → World * result sdk_error (list Item * Item);
  BatchGetItem : World → gmap string (list Item) → World * result sdk_error (gmap string (list Item) * gmap string (list Item));
  (** waiting for a number of milliseconds or the end of the context, which is an error *)
  wait : World → Z → World * option string;
  (** [uuid.NewString] and [uuid.Validate] *)
  NewString : World → World * string;
  uuid_Validate : string → bool
}.

Section semantics.
Context (cond : string → Item → option Item → bool).

(** The item a write is about, and whether its condition holds. *)
Definition write_key (w : TransactWriteItem) : option (string * string * string) :=
  match w with
  | TxPut table item _ _ => (λ k, (table, k.1, k.2)) <$> key_of item
  | TxDelete table key _ _ | TxCheck table key _ _ => (λ k, (table, k.1, k.2)) <$> key_of key
  end.

Definition write_ok (t : Tables) (w : TransactWriteItem) : bool :=
  match write_key w with
  | Some k =>
      match w with
      | TxPut _ _ c vs | TxDelete _ _ c vs | TxCheck _ _ c vs => cond c vs (t !! k)
      end
  | None => false
  end.

Definition write_apply (t : Tables) (w : TransactWriteItem) : Tables :=
  match write_key w with
  | Some k =>
      match w with
      | TxPut _ item _ _ => <[k := item]> t
      | TxDelete _ _ _ _ => delete k t
      | TxCheck _ _ _ _ => t
      end
  | None => t
  end.

(** A transaction: its conditions are checked on the tables before it. *)
Definition writes_ok (t : Tables) (ws : list TransactWriteItem) : bool := forallb (write_ok t) ws.
Definition writes_apply (t : Tables) (ws : list TransactWriteItem) : Tables := fold_left write_apply ws t.

(** The outcomes of a write call that finds the tables [t]. *)
Definition write_outcome (t t' : Tables) (ws : list TransactWriteItem) (r : option sdk_error) : Prop :=
  (writes_ok t ws = true ∧ t' = writes_apply t ws) ∨ (r ≠ None ∧ t' = t).
End semantics.

(** A page of a partition's items [l]: it starts after the start key and ends with
    the last evaluated key, which is empty when the partition is exhausted. *)
Definition page (l : list (string * Item)) (pk : string) (start : Item) (items : list Item) (last : Item) : Prop :=
  ∃ before this after, l = before ++ this ++ after ∧ items = this.*2 ∧
    (before = [] ∧ start = ∅ ∨ ∃ b sk it, before = b ++ [(sk, it)] ∧ start = storeKey pk sk) ∧
    (after = [] ∧ last = ∅ ∨ ∃ b sk it, this = b ++ [(sk, it)] ∧ last = storeKey pk sk).

Class BackendLaws `{Backend} : Prop := {
  interfere_refl : Reflexive interfere;
  (** the condition expressions of the package *)
  condition_create : ∀ vs it,
    condition "attribute_not_exists(pk)" vs it = bool_decide (it ≫= lookup "pk" = None);
  condition_expected : ∀ vs it v, vs !! ":expected" = Some v →
    condition "revision = :expected" vs it = bool_decide (it ≫= lookup "revision" = Some v);
  condition_policy : ∀ vs it v, vs !! ":policy" = Some v →
    condition "revision = :policy" vs it = bool_decide (it ≫= lookup "revision" = Some v);
  items_of_spec : ∀ t table pk sk it, (sk, it) ∈ items_of t table pk ↔ t !! (table, pk, sk) = Some it;
  items_of_keys : ∀ t table pk, NoDup (items_of t table pk).*1;
  GetItem_law : ∀ w table pk sk w' r, GetItem w table (storeKey pk sk) = (w', r) →
    interfere (contents w) (contents w') ∧ ∀ it, r = Ok it → it = default ∅ (contents w' !! (table, pk, sk));
  PutItem_law : ∀ w table item c vs w' r, PutItem w table item c vs = (w', r) →
    ∃ t, interfere (contents w) t ∧ write_outcome condition t (contents w') [TxPut table item c vs] r;
  DeleteItem_law : ∀ w table key c vs w' r, DeleteItem w table key c vs = (w', r) →
    ∃ t, interfere (contents w) t ∧ write_outcome condition t (contents w') [TxDelete table key c vs] r;
  Transact_law : ∀ w ws w' r, TransactWriteItems w ws = (w', r) →
    ∃ t, interfere (contents w) t ∧ write_outcome condition t (contents w') ws r;
  Query_law : ∀ w q pk w' r, Query w q = (w', r) →
    q_KeyConditionExpression q = "pk = :pk" → q_Values q = {[":pk" := AV_S pk]} →
    interfere (contents w) (contents w') ∧
    ∀ items last, r = Ok (items, last) →
      page (items_of (contents w') (q_TableName q) pk) pk (q_ExclusiveStartKey q) items last;
  Batch_law : ∀ w req w' r, BatchGetItem w req = (w', r) →
    interfere (contents w) (contents w') ∧
    ∀ resp pending, r = Ok (resp, pending) → ∀ table it, it ∈ resp !!! table →
      ∃ pk sk, storeKey pk sk ∈ req !!! table ∧ contents w' !! (table, pk, sk) = Some it;
  (** the key attributes of an item are its key *)
  contents_keys : ∀ w table pk sk it, contents w !! (table, pk, sk) = Some it → key_of it = Some (pk, sk);
  wait_law : ∀ w ms w' r, wait w ms = (w', r) → interfere (contents w) (contents w');
  NewString_law : ∀ w w' u, NewString w = (w', u) →
    contents w' = contents w ∧ uuid_Validate u = true ∧ u ≠ "00000000-0000-0000-0000-000000000000";
  (** a valid UUID has 36, 45, 38 or 32 bytes *)
  uuid_Validate_empty : uuid_Validate "" = false;
  uuid_Validate_ascii : ∀ u, uuid_Validate u = true → ascii_text u = true
}.

#[export] Existing Instance interfere_refl.

(** No other client writes: every call finds the tables as the last one left them. *)
Definition quiet `{Backend} : Prop := ∀ t t', interfere t t' → t' = t.

Lemma key_of_storeKey pk sk : key_of (storeKey pk sk) = Some (pk, sk).
Proof. done. Qed.

Lemma storeKey_inj pk sk pk' sk' : storeKey pk sk = storeKey pk' sk' → pk = pk' ∧ sk = sk'.
Proof. intros E. apply (f_equal key_of) in E. rewrite !key_of_storeKey in E. by simplify_eq. Qed.

Lemma storeKey_nonempty pk sk : storeKey pk sk ≠ ∅.
Proof. intros E. by apply (f_equal key_of) in E. Qed.

Lemma tables_empty k : (∅ : Tables) !! k = None.
Proof. apply lookup_empty. Qed.
Lemma tables_insert_eq (t : Tables) k it : <[k := it]> t !! k = Some it.
Proof. apply lookup_insert_eq. Qed.
Lemma tables_insert_ne (t : Tables) k k' it : k ≠ k' → <[k := it]> t !! k' = t !! k'.
Proof. apply lookup_insert_ne. Qed.
Lemma tables_delete_eq (t : Tables) k : delete k t !! k = None.
Proof. apply lookup_delete_eq. Qed.
Lemma tables_delete_ne (t : Tables) k k' : k ≠ k' → delete k t !! k' = t !! k'.
Proof. apply lookup_delete_ne. Qed.

(** * A DynamoDB backend in memory

    An instance of [Backend] that satisfies [BackendLaws]: tables in memory that no
    other client touches, queries in pages of one item, and numbered UUIDs. The
    theorems about the authorization store are tried on it. *)
From stdpp Require Import base gmap strings list fin_maps.
From Stdlib Require Import ZArith Lia Ascii String.
Open Scope string_scope.
Open Scope list_scope.

Definition keyed (k : string * string * string) (it : Item) : Prop := key_of it = Some (k.1.2, k.2).
#[local] Instance keyed_dec k it : Decision (keyed k it).
Proof. unfold keyed. apply _. Defined.
Definition tables_ok (t : Tables) : bool := bool_decide (map_Forall keyed (t : gmap _ _)).

Record memory := mkMemory { mem_tables : Tables; mem_ok : tables_ok mem_tables = true; mem_uuids : Z }.

Definition mem_condition (cond : string) (values : Item) (it : option Item) : bool :=
  if String.eqb cond "attribute_not_exists(pk)" then bool_decide (it ≫= lookup "pk" = None)
  else
    let name := if String.eqb cond "revision = :expected" then ":expected" else ":policy" in
    match values !! name with
    | Some v => bool_decide (it ≫= lookup "revision" = Some v)
    | None => false
    end.

Lemma write_keeps t w : tables_ok t = true → tables_ok (write_apply t w) = true.
Proof.
  unfold tables_ok. rewrite !bool_decide_eq_true. intros Ht. unfold write_apply.
  destruct w as [tb it c vs|tb k c vs|tb k c vs]; cbn [write_key].
  - destruct (key_of it) as [[pk sk]|] eqn:E; [|done]. by apply map_Forall_insert_2.
  - destruct (key_of k) as [[pk sk]|]; [|done]. cbn. by apply map_Forall_delete.
  - by destruct (key_of k) as [[pk sk]|].
Qed.

Lemma writes_keep t ws : tables_ok t = true → tables_ok (writes_apply t ws) = true.
Proof. revert t. induction ws as [|w ws IH]; intros t Ht; [done|]. cbn. apply IH. by apply write_keeps. Qed.

Definition mem_commit (ws : list TransactWriteItem) (e : sdk_error) (m : memory) : memory * option sdk_error :=
  if writes_ok mem_condition (mem_tables m) ws
  then (mkMemory (writes_apply (mem_tables m) ws) (writes_keep _ ws (mem_ok m)) (mem_uuids m), None)
  else (m, Some e).

Definition in_partition (table pk : string) (e : string * string * string * Item) : option (string * Item) :=
  if bool_decide (e.1.1 = (table, pk)) then Some (e.1.2, e.2) else None.

Definition mem_items (t : Tables) (table pk : string) : list (string * Item) := omap (in_partition table pk) (map_to_list t).

(** The items after the one with sort key [sk]. *)
Fixpoint after_key (sk : string) (l : list (string * Item)) : option (list (string * Item)) :=
  match l with
  | [] => None
  | (k, _) :: l => if String.eqb k sk then Some l else after_key sk l
  end.

Definition mem_Query (m : memory) (q : QueryInput) : memory * result sdk_error (list Item * Item) :=
  match q_Values q !! ":pk" with
  | Some (AV_S pk) =>
      let l := mem_items (mem_tables m) (q_TableName q) pk in
      let rest := if bool_decide (q_ExclusiveStartKey q = ∅) then Some l
                  else match key_of (q_ExclusiveStartKey q) with
                       | Some (pk', sk) => if bool_decide (q_ExclusiveStartKey q = storeKey pk sk) then after_key sk l else None
                       | None => None
                       end in
      match rest with
      | None => (m, Err (OtherSdkError "ValidationException"))
      | Some [] => (m, Ok ([], ∅))
      | Some ((sk, it) :: []) => (m, Ok ([it], ∅))
      | Some ((sk, it) :: _) => (m, Ok ([it], storeKey pk sk))
      end
  | _ => (m, Err (OtherSdkError "ValidationException"))
  end.

Definition mem_item (m : memory) (table : string) (key : Item) : option Item :=
  match key_of key with
  | Some (pk, sk) => if bool_decide (key = storeKey pk sk) then mem_tables m !! (table, pk, sk) else None
  | None => None
  end.

Definition mem_found (m : memory) (table : string) (keys : list Item) : option (list Item) := Some (omap (mem_item m table) keys).

Definition mem_Batch (m : memory) (req : gmap string (list Item)) :
    memory * result sdk_error (gmap string (list Item) * gmap string (list Item)) :=
  (m, Ok (map_imap (mem_found m) req, ∅)).

Definition mem_uuid (n : Z) : string := uidFromUUID (n mod (2 ^ 128 - 1) + 1).

#[export] Instance Memory : Backend := {|
  World := memory;
  contents := mem_tables;
  interfere := eq;
  condition := mem_condition;
  items_of := mem_items;
  GetItem m table key := (m, match key_of key with
                             | Some (pk, sk) => Ok (default ∅ (mem_tables m !! (table, pk, sk)))
                             | None => Err (OtherSdkError "ValidationException")
                             end);
  PutItem m table item c vs := mem_commit [TxPut table item c vs] ConditionalCheckFailedException m;
  DeleteItem m table key c vs := mem_commit [TxDelete table key c vs] ConditionalCheckFailedException m;
  TransactWriteItems m ws := mem_commit ws (TransactionCanceledException ["None"; "ConditionalCheckFailed"]) m;
  Query := mem_Query;
  BatchGetItem := mem_Batch;
  wait m ms := (m, None);
  NewString m := (mkMemory (mem_tables m) (mem_ok m) (mem_uuids m + 1), mem_uuid (mem_uuids m));
  uuid_Validate u := Nat.eqb (String.length u) 36 && ascii_text u
|}.

(** ** The laws *)

Lemma mem_commit_law ws e m m' r : mem_commit ws e m = (m', r) → ∃ t, mem_tables m = t ∧ write_outcome mem_condition t (mem_tables m') ws r.
Proof.
  unfold mem_commit. intros E. eexists. split; [reflexivity|]. destruct (writes_ok _ _ ws) eqn:Ew; injection E as <- <-.
  - left. done.
  - right. done.
Qed.

Lemma in_partition_some table pk e sk it : in_partition table pk e = Some (sk, it) ↔ e = ((table, pk, sk), it).
Proof.
  unfold in_partition. destruct e as [[[a b] c] x]. cbn. case_bool_decide as H; split; intros E; simplify_eq; done.
Qed.

Lemma mem_items_spec t table pk sk it : (sk, it) ∈ mem_items t table pk ↔ t !! (table, pk, sk) = Some it.
Proof.
  unfold mem_items. rewrite list_elem_of_omap. split.
  - intros (e & Hin & ->%in_partition_some). by apply elem_of_map_to_list in Hin.
  - intros Hl. exists ((table, pk, sk), it). split; [by apply elem_of_map_to_list|by apply in_partition_some].
Qed.

Lemma in_partition_keys table pk (l : list (string * string * string * Item)) :
  NoDup l.*1 → NoDup (omap (in_partition table pk) l).*1.
Proof.
  induction l as [|e l IH]; [constructor|]. cbn. intros [Hn Hnd]%NoDup_cons.
  destruct (in_partition table pk e) as [[sk it]|] eqn:E; [|by apply IH]. cbn. apply NoDup_cons. split; [|by apply IH].
  apply in_partition_some in E as ->.
  intros ([sk' it'] & -> & Hin)%list_elem_of_fmap. apply list_elem_of_omap in Hin as (e' & Hin & ->%in_partition_some).
  apply Hn. apply list_elem_of_fmap. eexists. split; [|exact Hin]. done.
Qed.

Lemma mem_items_keys t table pk : NoDup (mem_items t table pk).*1.
Proof. apply in_partition_keys, NoDup_fst_map_to_list. Qed.

Lemma after_key_spec sk l r : after_key sk l = Some r → ∃ b it, l = (b ++ [(sk, it)]) ++ r.
Proof.
  induction l as [|[k it] l IH]; cbn; [done|]. destruct (String.eqb_spec k sk) as [->|].
  - intros [= ->]. by exists [], it.
  - intros E. destruct (IH E) as (b & x & ->). exists ((k, it) :: b), x. done.
Qed.

Lemma mem_page l pk start rest :
  (if bool_decide (start = ∅) then Some l
   else match key_of start with
        | Some (_, sk) => if bool_decide (start = storeKey pk sk) then after_key sk l else None
        | None => None
        end) = Some rest →
  page l pk start (take 1 rest).*2 (match rest with (sk, _) :: _ :: _ => storeKey pk sk | _ => ∅ end).
Proof.
  intros E. assert (∃ before, l = before ++ rest ∧ (before = [] ∧ start = ∅ ∨ ∃ b sk it, before = b ++ [(sk, it)] ∧ start = storeKey pk sk))
    as (before & -> & Hs).
  { case_bool_decide as Hs; [simplify_eq; by exists []; auto|]. destruct (key_of start) as [[pk' sk]|]; [|done].
    case_bool_decide as Hk; [|done]. apply after_key_spec in E as (b & it & ->). exists (b ++ [(sk, it)]). split; [done|]. eauto 10. }
  exists before, (take 1 rest), (drop 1 rest). split; [by rewrite take_drop|]. split; [done|]. split; [done|].
  destruct rest as [|[sk it] [|y rest]]; [by left|by left|]. right. exists [], sk, it. done.
Qed.

Lemma hex_length n z : String.length (hex n z) = n.
Proof. induction n; cbn; congruence. Qed.

Lemma hex_digit_ascii d : (0 ≤ d < 16)%Z → ascii_text (String (hex_digit d) "") = true.
Proof.
  intros H. assert (Hd : d ∈ seqZ 0 16) by (apply elem_of_seqZ; lia). clear H. revert d Hd. apply Forall_forall. by_decide.
Qed.

Lemma hex_ascii n z : ascii_text (hex n z) = true.
Proof.
  induction n as [|n IH]; [done|]. cbn [hex]. change (String ?c ?s) with (String c "" +:+ s). rewrite ascii_app, IH, andb_true_r.
  apply hex_digit_ascii. by apply Z.mod_pos_bound.
Qed.

Lemma mem_uuid_ok n : (Nat.eqb (String.length (mem_uuid n)) 36 && ascii_text (mem_uuid n) = true) ∧
  mem_uuid n ≠ "00000000-0000-0000-0000-000000000000".
Proof.
  pose proof (Z.mod_pos_bound n (2 ^ 128 - 1) ltac:(lia)) as Hb. unfold mem_uuid. split.
  - unfold uidFromUUID. rewrite !str_length_app, !hex_length, !ascii_app, !hex_ascii. done.
  - intros E. apply (f_equal (parse_hex 0)) in E. rewrite parse_uidFromUUID in E by (unfold uuid_ok; lia).
    vm_compute (parse_hex 0 "00000000-0000-0000-0000-000000000000") in E. injection E as E. lia.
Qed.

#[export] Instance Memory_laws : BackendLaws.
Proof.
  split; cbn.
  - intros t. done.
  - done.
  - intros vs it v. unfold mem_condition. cbn. by intros ->.
  - intros vs it v. unfold mem_condition. cbn. by intros ->.
  - apply mem_items_spec.
  - apply mem_items_keys.
  - intros w table pk sk w' r [= <- <-]. split; [done|]. by intros it [= <-].
  - intros w table item c vs w' r. apply mem_commit_law.
  - intros w table item c vs w' r. apply mem_commit_law.
  - intros w ws w' r. apply mem_commit_law.
  - intros w q pk w' r. unfold mem_Query. intros E Hc Hv. rewrite Hv in E.
    change (({[":pk" := AV_S pk]} : Item) !! ":pk") with (Some (AV_S pk)) in E. cbv beta iota zeta in E.
    destruct (if bool_decide _ then _ else _) as [rest|] eqn:Er; [|by injection E as <- <-].
    apply mem_page in Er. destruct rest as [|[sk it] [|y rest]]; injection E as <- <-; (split; [done|]); intros items last [= <- <-]; exact Er.
  - intros w req w' r. unfold mem_Batch. intros [= <- <-]. split; [done|]. intros resp pending [= <- <-] table it Hin.
    unfold lookup_total, map_lookup_total in *. rewrite map_lookup_imap in Hin. destruct (req !! table) as [keys|] eqn:Er; cbn in *; [|by apply not_elem_of_nil in Hin].
    apply list_elem_of_omap in Hin as (key & Hk & E). unfold mem_item in E. destruct (key_of key) as [[pk sk]|]; [|done].
    case_bool_decide as Hs; [|done].
    exists pk, sk. by rewrite <- Hs.
  - intros w table pk sk it Hl. pose proof (mem_ok w) as Hok. apply bool_decide_eq_true in Hok. by apply (map_Forall_lookup_1 _ _ _ _ Hok Hl).
  - by intros w ms w' r [= <- <-].
  - intros w w' u [= <- <-]. split; [done|]. apply mem_uuid_ok.
  - done.
  - intros u [_ ?]%andb_true_iff. done.
Qed.

Lemma Memory_quiet : quiet.
Proof. intros t t' E. by symmetry. Qed.

Definition empty_memory : memory := mkMemory ∅ eq_refl 0.
