(* ===== verification/AuthzStore.v ===== *)
(** * The authorization store (pkg/authz/store*.go)

    Policies and attachments of one account in DynamoDB: their keys and records, the
    conditional writes, the two records of an attachment (under the account and under
    the lookup key of its principal), the paged queries and batch reads, and
    [Resolve]. A store operation is a function of the [World] of a [Backend]. *)
From S2P Require Import Prelude GoStrings AwsArn AuthzModel Arn Template Dynamo.
From stdpp Require Import base gmap strings list fin_maps relations.
From Stdlib Require Import ZArith Lia Ascii String.
Open Scope string_scope.
Open Scope list_scope.

(** ** Records *)

Definition PolicyKind : Type := string.
Definition CustomPolicy : PolicyKind := "custom".
Definition ManagedPolicy : PolicyKind := "managed".
Definition managedOwner : string := "MANAGED".

Record PolicyRef := mkRef { ref_ID : string; ref_Kind : PolicyKind }.

#[export] Instance PolicyRef_eq_dec : EqDecision PolicyRef.
Proof. solve_decision. Defined.
#[export] Instance PolicyRef_countable : Countable PolicyRef.
Proof. refine (inj_countable' (fun r => (ref_ID r, ref_Kind r)) (fun p => mkRef p.1 p.2) _). by intros []. Defined.

Record StoredPolicy := mkPolicy {
  pol_ID : string;
  pol_OwnerAccountID : string;
  pol_Content : string;
  pol_Revision : string;
  pol_Kind : PolicyKind
}.

Definition AttachmentScope : Type := string.
Definition GlobalScope : AttachmentScope := "global".
Definition RegionalScope : AttachmentScope := "regional".

Record AttachmentSpec := mkSpec {
  spec_Policy : PolicyRef;
  PrincipalARN : string;
  Scope : AttachmentScope
}.

Record StoredAttachment := mkAttachment {
  att_Spec : AttachmentSpec;
  att_ID : string;
  att_OwnerAccountID : string;
  att_Region : string;
  att_Revision : string
}.

#[export] Instance StoredPolicy_eq_dec : EqDecision StoredPolicy.
Proof. solve_decision. Defined.
#[export] Instance AttachmentSpec_eq_dec : EqDecision AttachmentSpec.
Proof. solve_decision. Defined.
#[export] Instance StoredAttachment_eq_dec : EqDecision StoredAttachment.
Proof. solve_decision. Defined.

Definition spec_of (a : StoredAttachment) : AttachmentSpec := att_Spec a.
Definition att_Policy (a : StoredAttachment) : PolicyRef := spec_Policy (att_Spec a).
Definition att_PrincipalARN (a : StoredAttachment) : string := PrincipalARN (att_Spec a).
Definition att_Scope (a : StoredAttachment) : AttachmentScope := Scope (att_Spec a).

(** [json.Marshal] and [json.Unmarshal] of the two records. Both give back what was
    written, as long as its strings are valid UTF-8 ([wellformed]). *)
Class RecordCodec := {
  marshal_policy : StoredPolicy → string;
  unmarshal_policy : string → option StoredPolicy;
  marshal_attachment : StoredAttachment → string;
  unmarshal_attachment : string → option StoredAttachment;
  utf8_valid : string → bool;
  utf8_ascii : ∀ s, ascii_text s = true → utf8_valid s = true;
  policy_roundtrip : ∀ p, Forall (fun s => utf8_valid s = true) [pol_ID p; pol_OwnerAccountID p; pol_Content p; pol_Revision p; pol_Kind p] →
    unmarshal_policy (marshal_policy p) = Some p;
  attachment_roundtrip : ∀ a, Forall (fun s => utf8_valid s = true)
      [ref_ID (att_Policy a); ref_Kind (att_Policy a); att_PrincipalARN a; att_Scope a; att_ID a; att_OwnerAccountID a; att_Region a; att_Revision a] →
    unmarshal_attachment (marshal_attachment a) = Some a
}.

(** ** The operations' monad: the world and Go's [(value, error)] *)

Definition M `{Backend} (A : Type) : Type := World → World * result error A.
#[export] Instance M_ret `{Backend} : MRet M := fun A a w => (w, Ok a).
#[export] Instance M_bind `{Backend} : MBind M := fun A B f m w =>
  let '(w, r) := m w in match r with Ok a => f a w | Err e => (w, Err e) end.

Definition lift `{Backend} {A} (r : result error A) : M A := fun w => (w, r).
Definition fail `{Backend} {A} (e : error) : M A := fun w => (w, Err e).
(** [if err := r; err != nil { return wrap(err) }] *)
Definition wrapping `{Backend} {A} (wrap : error → error) (m : M A) : M A := fun w =>
  let '(w, r) := m w in (w, match r with Ok a => Ok a | Err e => Err (wrap e) end).
Definition guard_err `{Backend} (b : bool) (e : error) : M unit := if b then fail e else mret tt.

Fixpoint for_each `{Backend} {A S} (body : S → A → M S) (l : list A) (s : S) : M S :=
  match l with
  | [] => mret s
  | x :: l => s' ← body s x; for_each body l s'
  end.

Definition sdk_err (e : sdk_error) : error :=
  EPlain (match e with
          | ConditionalCheckFailedException => "ConditionalCheckFailedException"
          | TransactionCanceledException _ => "TransactionCanceledException"
          | OtherSdkError msg => msg
          end).

(** [storeError] of a non-nil error. *)
Definition storeError (e : sdk_error) : error :=
  match e with
  | ConditionalCheckFailedException => ESentinel ErrConflict
  | TransactionCanceledException reasons =>
      if existsb (String.eqb "ConditionalCheckFailed") reasons then ESentinel ErrConflict else backendError (sdk_err e)
  | _ => backendError (sdk_err e)
  end.

Definition conditionCreateOnly : string := "attribute_not_exists(pk)".
Definition conditionMatchRevision : string := "revision = :expected".
Definition storePageSize : Z := 100.

Record StoreConfig := mkStoreConfig {
  AccountID : string;
  Region : string;
  WriterRegion : string;
  PolicyTable : string;
  GlobalTable : string;
  RegionalTable : string
}.

(** The checks of [NewStore] on its configuration; the schema is loaded after them. *)
Definition NewStore (config : StoreConfig) : result error StoreConfig :=
  if negb (accountPattern (AccountID config)) || negb (regionPattern (Region config)) || negb (regionPattern (WriterRegion config))
  then Err (EPlain "invalid authorization store configuration")
  else if existsb (String.eqb "") [PolicyTable config; GlobalTable config; RegionalTable config] ||
          negb (bool_decide (NoDup [PolicyTable config; GlobalTable config; RegionalTable config]))
  then Err (EPlain "authorization stores require three distinct tables")
  else Ok config.

Definition isStoreID (id : string) : bool := Nat.leb (String.length id) 128 && idPattern id.

Definition matchesStoreKey (item : Item) (pk sk : string) : bool :=
  match item !! "pk", item !! "sk" with
  | Some (AV_S storedPK), Some (AV_S storedSK) => String.eqb storedPK pk && String.eqb storedSK sk
  | _, _ => false
  end.

Definition storeItem (pk sk revision payload : string) : Item :=
  <["record" := AV_S payload]> (<["revision" := AV_S revision]> (storeKey pk sk)).

(** The values of a condition: [nil] for a create. *)
Definition condition_of (expected : string) : string * Item :=
  if String.eqb expected "" then (conditionCreateOnly, ∅)
  else (conditionMatchRevision, {[":expected" := AV_S expected]}).

Definition policy_pk (owner : string) : string := ("ACCOUNT#" ++ owner)%string.
Definition policy_sk (id : string) : string := ("POLICY#" ++ id)%string.
Definition account_pk (account : string) : string := ("ACCOUNT#" ++ account)%string.
Definition attachment_sk (id : string) : string := ("ATTACHMENT#" ++ id)%string.

Definition roleKey (principal : principalARN) : string :=
  ("ACCOUNT#" ++ account principal ++ "#ROLE#" ++ roleAlias principal)%string.

Definition principalKey (principal : principalARN) : string :=
  if String.eqb (kind principal) "role" then roleKey principal
  else ("ACCOUNT#" ++ account principal ++ "#EXACT#" ++ original principal)%string.

Definition bindingDiagnosticID (binding : StoredAttachment) : string :=
  (att_Scope binding ++ "/" ++ att_Region binding ++ "/" ++ att_ID binding)%string.

Record ResolvedAttachment := mkResolved { r_Attachment : StoredAttachment; r_Policy : StoredPolicy }.

Section store.
Context `{Backend, ArnParser, CedarEngine, UnicodeTables, RecordCodec}.

Definition isRevision (revision : string) : bool :=
  negb (String.eqb revision "00000000-0000-0000-0000-000000000000") && uuid_Validate revision.

Definition decodeItem {A} (unmarshal : string → option A) (item : Item) : result error (A * string) :=
  match item !! "record" with
  | Some (AV_S payload) =>
      match item !! "revision" with
      | Some (AV_S revision) =>
          if negb (isRevision revision) then Err (EPlain "malformed authorization revision")
          else match unmarshal payload with
               | Some record => Ok (record, revision)
               | None => Err (EPlain "json: invalid record")
               end
      | _ => Err (EPlain "malformed authorization revision")
      end
  | _ => Err (EPlain "malformed authorization record")
  end.

(** The calls of the SDK with the errors as the store reports them. *)
Definition call_write (call : World → World * option sdk_error) : M unit := fun w =>
  let '(w, r) := call w in (w, match r with None => Ok tt | Some e => Err (storeError e) end).

Definition newUUID : M string := fun w => let '(w, u) := NewString w in (w, Ok u).

Definition readItem (table pk sk : string) : M Item := fun w =>
  let '(w, out) := GetItem w table (storeKey pk sk) in
  (w, match out with
      | Err e => Err (backendError (sdk_err e))
      | Ok item =>
          if bool_decide (item = ∅) then Err (ESentinel ErrNotFound)
          else if negb (matchesStoreKey item pk sk) then Err (EPlain "authorization record key mismatch")
          else Ok item
      end).

(** ** Operations on one account's store *)

Section account.
Context (s : StoreConfig).

Definition requireWriter : M unit := guard_err (negb (String.eqb (Region s) (WriterRegion s))) (ESentinel ErrWrongWriter).

Definition policyOwner (ref : PolicyRef) : result error string :=
  if negb (isStoreID (ref_ID ref)) then Err (validation_error "invalid policy ID")
  else if String.eqb (ref_Kind ref) CustomPolicy then Ok (AccountID s)
  else if String.eqb (ref_Kind ref) ManagedPolicy then Ok managedOwner
  else Err (validation_error "invalid policy kind").

Definition template_principal : principalARN := mkPrincipal "" "" "user" "" "template-validation".

Definition checkContent (content id : string) : result error unit :=
  match bindPolicy content id template_principal with
  | Ok _ => Ok tt
  | Err err => Err (EWrap (ESentinel ErrValidation) err)
  end.

Definition policy_ref (p : StoredPolicy) : PolicyRef := mkRef (pol_ID p) (pol_Kind p).

Definition decodePolicy (item : Item) : result error StoredPolicy :=
  '(policy, revision) ← decodeItem unmarshal_policy item;
  match policyOwner (policy_ref policy) with
  | Ok owner =>
      if negb (String.eqb (pol_OwnerAccountID policy) owner) || negb (String.eqb (pol_Revision policy) revision) ||
         negb (matchesStoreKey item (policy_pk owner) (policy_sk (pol_ID policy)))
      then Err (EPlain "inconsistent policy record")
      else Ok policy
  | Err _ => Err (EPlain "inconsistent policy record")
  end.

Definition GetPolicy (ref : PolicyRef) : M StoredPolicy :=
  owner ← lift (policyOwner ref);
  item ← readItem (PolicyTable s) (policy_pk owner) (policy_sk (ref_ID ref));
  lift (decodePolicy item).

Definition policy_item (p : StoredPolicy) : Item :=
  storeItem (policy_pk (pol_OwnerAccountID p)) (policy_sk (pol_ID p)) (pol_Revision p) (marshal_policy p).

Definition writePolicy (id expected content : string) : M StoredPolicy :=
  _ ← requireWriter;
  _ ← guard_err (negb (isStoreID id)) (validation_error "invalid policy ID");
  _ ← lift (checkContent content id);
  revision ← newUUID;
  let policy := mkPolicy id (AccountID s) content revision CustomPolicy in
  let '(cond, values) := condition_of expected in
  _ ← call_write (fun w => PutItem w (PolicyTable s) (policy_item policy) cond values);
  mret policy.

Definition CreatePolicy (id content : string) : M StoredPolicy := writePolicy id "" content.

Definition UpdatePolicy (id revision content : string) : M StoredPolicy :=
  _ ← guard_err (negb (isRevision revision)) (validation_error "expected revision is required");
  writePolicy id revision content.

Definition DeletePolicy (id revision : string) : M unit :=
  _ ← requireWriter;
  _ ← guard_err (negb (isStoreID id) || negb (isRevision revision))
        (validation_error "valid policy ID and expected revision required");
  call_write (fun w => DeleteItem w (PolicyTable s) (storeKey (policy_pk (AccountID s)) (policy_sk id))
                         conditionMatchRevision {[":expected" := AV_S revision]}).

(** ** Attachments *)

Definition attachmentTable (scope : AttachmentScope) : result error string :=
  if String.eqb scope GlobalScope then Ok (GlobalTable s)
  else if String.eqb scope RegionalScope then Ok (RegionalTable s)
  else Err (validation_error "invalid attachment scope").

Definition checkAttachment (binding : StoredAttachment) : result error unit :=
  principal ← parsePrincipal (att_PrincipalARN binding);
  if negb (isStoreID (att_ID binding)) || negb (isRevision (att_Revision binding)) ||
     negb (String.eqb (att_OwnerAccountID binding) (AccountID s)) || negb (String.eqb (account principal) (AccountID s))
  then Err (EPlain "invalid attachment identity")
  else
    _ ← policyOwner (att_Policy binding);
    match checkedScope (att_Scope binding) (att_Region binding) with
    | Some err => Err err
    | None =>
        if String.eqb (att_Scope binding) RegionalScope && negb (String.eqb (att_Region binding) (Region s))
        then Err (EPlain "foreign regional attachment")
        else Ok tt
    end.

Definition GetAttachment (scope : AttachmentScope) (id : string) : M StoredAttachment :=
  table ← lift (attachmentTable scope);
  _ ← guard_err (negb (isStoreID id)) (validation_error "invalid attachment ID");
  item ← readItem table (account_pk (AccountID s)) (attachment_sk id);
  '(binding, revision) ← lift (decodeItem unmarshal_attachment item);
  _ ← guard_err (negb (String.eqb (att_ID binding) id) || negb (String.eqb (att_Scope binding) scope) ||
                 negb (String.eqb (att_Revision binding) revision)) (EPlain "inconsistent attachment identity");
  _ ← lift (checkAttachment binding);
  mret binding.

(** The partition keys of the two records of an attachment. *)
Definition attachment_pks (principal : principalARN) : list string := [account_pk (AccountID s); principalKey principal].

Definition attachment_item (pk : string) (binding : StoredAttachment) : Item :=
  storeItem pk (attachment_sk (att_ID binding)) (att_Revision binding) (marshal_attachment binding).

Definition attachment_writes (table : string) (binding : StoredAttachment) (principal : principalARN)
    (cond : string) (values : Item) (policy : StoredPolicy) : list TransactWriteItem :=
  ((λ pk, TxPut table (attachment_item pk binding) cond values) <$> attachment_pks principal) ++
  [TxCheck (PolicyTable s) (storeKey (policy_pk (pol_OwnerAccountID policy)) (policy_sk (pol_ID policy)))
     "revision = :policy" {[":policy" := AV_S (pol_Revision policy)]}].

Definition writeAttachment (binding : StoredAttachment) (expected : string) : M StoredAttachment :=
  table ← lift (attachmentTable (att_Scope binding));
  _ ← (if String.eqb (att_Scope binding) GlobalScope then requireWriter else mret tt);
  _ ← wrapping (EWrap (ESentinel ErrValidation)) (lift (checkAttachment binding));
  policy ← GetPolicy (att_Policy binding);
  _ ← lift (checkContent (pol_Content policy) (pol_ID policy));
  principal ← lift (parsePrincipal (att_PrincipalARN binding));
  let '(cond, values) := condition_of expected in
  _ ← call_write (fun w => TransactWriteItems w (attachment_writes table binding principal cond values policy));
  mret binding.

Definition CreateAttachment (spec : AttachmentSpec) : M StoredAttachment :=
  id ← newUUID;
  revision ← newUUID;
  writeAttachment (mkAttachment spec id (AccountID s)
                     (if String.eqb (Scope spec) RegionalScope then Region s else "") revision) "".

Definition UpdateAttachment (scope : AttachmentScope) (id expected : string) (policy : PolicyRef) : M StoredAttachment :=
  binding ← GetAttachment scope id;
  _ ← guard_err (negb (isRevision expected) || negb (String.eqb (att_Revision binding) expected)) (ESentinel ErrConflict);
  revision ← newUUID;
  writeAttachment (mkAttachment (mkSpec policy (att_PrincipalARN binding) (att_Scope binding)) (att_ID binding)
                     (att_OwnerAccountID binding) (att_Region binding) revision) expected.

Definition delete_writes (table id expected : string) (principal : principalARN) : list TransactWriteItem :=
  (λ pk, TxDelete table (storeKey pk (attachment_sk id)) conditionMatchRevision {[":expected" := AV_S expected]})
    <$> attachment_pks principal.

Definition DeleteAttachment (scope : AttachmentScope) (id expected : string) : M unit :=
  _ ← (if String.eqb scope GlobalScope then requireWriter else mret tt);
  binding ← GetAttachment scope id;
  _ ← guard_err (negb (isRevision expected) || negb (String.eqb (att_Revision binding) expected)) (ESentinel ErrConflict);
  table ← lift (attachmentTable scope);
  principal ← lift (parsePrincipal (att_PrincipalARN binding));
  call_write (fun w => TransactWriteItems w (delete_writes table id expected principal)).

(** ** Lookups *)

Definition page_query (table pk : string) (start : Item) : QueryInput :=
  mkQueryInput table storePageSize "pk = :pk" {[":pk" := AV_S pk]} start.

(** The loop of [queryItems]; [pages] bounds the number of pages it reads. *)
Fixpoint query_loop (pages : nat) (table pk : string) (start : Item) (items : list Item) : M (list Item) :=
  match pages with
  | O => fail (EPlain "page bound")
  | S pages => fun w =>
      let '(w, out) := Query w (page_query table pk start) in
      match out with
      | Err e => (w, Err (backendError (sdk_err e)))
      | Ok (more, last) =>
          if bool_decide (last = ∅) then (w, Ok (items ++ more))
          else query_loop pages table pk last (items ++ more) w
      end
  end.

Context (pages : nat).

Definition queryItems (table pk : string) : M (list Item) := query_loop pages table pk ∅ [].

Definition ListPolicies : M (list StoredPolicy) :=
  for_each (fun policies owner =>
    items ← queryItems (PolicyTable s) (policy_pk owner);
    for_each (fun policies item => policy ← lift (decodePolicy item); mret (policies ++ [policy])) items policies)
    [AccountID s; managedOwner] [].

(** The checks of [readBindings] on one item. *)
Definition read_binding (scope : AttachmentScope) (pk : string) (item : Item) : result error StoredAttachment :=
  '(binding, revision) ← decodeItem unmarshal_attachment item;
  if negb (String.eqb (att_Scope binding) scope) || negb (String.eqb (att_Revision binding) revision)
  then Err (EPlain "inconsistent attachment record")
  else
    _ ← checkAttachment binding;
    principal ← parsePrincipal (att_PrincipalARN binding);
    if negb (matchesStoreKey item pk (attachment_sk (att_ID binding))) ||
       (negb (String.eqb pk (account_pk (AccountID s))) && negb (String.eqb pk (principalKey principal)))
    then Err (EPlain "attachment lookup key mismatch")
    else Ok binding.

Definition readBindings (scope : AttachmentScope) (pk : string) : M (list StoredAttachment) :=
  table ← lift (attachmentTable scope);
  items ← queryItems table pk;
  for_each (fun bindings item => binding ← lift (read_binding scope pk item); mret (bindings ++ [binding])) items [].

Definition ListAttachments : M (list StoredAttachment) :=
  for_each (fun bindings scope => part ← readBindings scope (account_pk (AccountID s)); mret (bindings ++ part))
    [GlobalScope; RegionalScope] [].

(** ** Resolution *)

(** The accumulated bindings, role aliases and diagnostic ids. *)
Definition Resolving : Type := list StoredAttachment * gmap string string * gset string.

Definition resolve_binding (caller : principalARN) (acc : Resolving) (binding : StoredAttachment) : result error Resolving :=
  let '(bindings, aliases, bindingIDs) := acc in
  principal ← parsePrincipal (att_PrincipalARN binding);
  if negb (matchesPrincipal principal caller) then Err (EPlain "principal lookup mismatch")
  else
    aliases ← (if String.eqb (kind principal) "role" then addRoleAlias aliases (roleAlias principal) (original principal)
               else Ok aliases);
    let diagnosticID := bindingDiagnosticID binding in
    if bool_decide (diagnosticID ∈ bindingIDs) then Err (EPlain "duplicate attachment identity")
    else Ok (bindings ++ [binding], aliases, {[diagnosticID]} ∪ bindingIDs).

Definition caller_keys (caller : principalARN) : list string :=
  principalKey caller :: (if String.eqb (kind caller) "assumed-role" then [roleKey caller] else []).

Definition resolve_bindings (caller : principalARN) (scopes : list AttachmentScope) : M Resolving :=
  for_each (fun acc scope =>
    for_each (fun acc pk =>
      part ← readBindings scope pk;
      for_each (fun acc binding => lift (resolve_binding caller acc binding)) part acc)
      (caller_keys caller) acc)
    scopes ([], ∅, ∅).

(** The distinct policy references of the bindings, in order. *)
Fixpoint distinct_refs (bindings : list StoredAttachment) (seen : gset PolicyRef) : list PolicyRef :=
  match bindings with
  | [] => []
  | b :: rest =>
      if bool_decide (att_Policy b ∈ seen) then distinct_refs rest seen
      else att_Policy b :: distinct_refs rest ({[att_Policy b]} ∪ seen)
  end.

Definition Policies : Type := gmap PolicyRef StoredPolicy.

Definition add_policy (refs : list PolicyRef) (policies : Policies) (item : Item) : result error Policies :=
  policy ← decodePolicy item;
  let ref := policy_ref policy in
  if negb (bool_decide (ref ∈ refs)) then Err (EPlain "inconsistent referenced policy")
  else if bool_decide (is_Some (policies !! ref)) then Err (EPlain "duplicate referenced policy")
  else Ok (<[ref := policy]> policies).

Definition batchAttempts : nat := 4.

(** The attempts left for one batch; [attempt] counts from 0. *)
Fixpoint batch_loop (refs : list PolicyRef) (remaining attempt : nat) (pending : gmap string (list Item)) (policies : Policies) :
    M (Policies * gmap string (list Item)) :=
  match remaining with
  | O => mret (policies, pending)
  | S remaining =>
      if bool_decide (pending = ∅) then mret (policies, pending)
      else
        _ ← (if Nat.eqb attempt 0 then mret tt
             else fun w => let '(w, e) := wait w (100 * 2 ^ (Z.of_nat attempt - 1))%Z in
                           (w, match e with Some msg => Err (EPlain msg) | None => Ok tt end));
        '(responses, unprocessed) ← (fun w => let '(w, out) := BatchGetItem w pending in
                                     (w, match out with Ok o => Ok o | Err e => Err (backendError (sdk_err e)) end));
        policies ← for_each (fun policies item => lift (add_policy refs policies item)) (responses !!! PolicyTable s) policies;
        batch_loop refs remaining (S attempt) unprocessed policies
  end.

Definition batchSize : nat := 100.

Definition ref_key (ref : PolicyRef) : result error Item :=
  owner ← policyOwner ref; Ok (storeKey (policy_pk owner) (policy_sk (ref_ID ref))).

Fixpoint keys_of (refs : list PolicyRef) : result error (list Item) :=
  match refs with
  | [] => Ok []
  | ref :: refs => key ← ref_key ref; keys ← keys_of refs; Ok (key :: keys)
  end.

(** The loop over the batches: at most one per reference. *)
Fixpoint batches (fuel : nat) (all refs : list PolicyRef) (policies : Policies) : M Policies :=
  match fuel, refs with
  | _, [] => mret policies
  | O, _ => fail (EPlain "batch bound")
  | S fuel, _ =>
      keys ← lift (keys_of (take batchSize refs));
      '(policies, pending) ← batch_loop all batchAttempts 0 {[PolicyTable s := keys]} policies;
      if negb (bool_decide (pending = ∅))
      then fail (EWrap (ESentinel ErrUnavailable) (EPlain "incomplete policy batch after 4 attempts"))
      else batches fuel all (drop batchSize refs) policies
  end.

Definition loadPolicies (bindings : list StoredAttachment) : M Policies :=
  let refs := distinct_refs bindings ∅ in batches (List.length refs) refs refs ∅.

Fixpoint resolved_of (policies : Policies) (bindings : list StoredAttachment) : result error (list ResolvedAttachment) :=
  match bindings with
  | [] => Ok []
  | b :: rest =>
      match policies !! att_Policy b with
      | None => Err (EWrap (EPlain ("referenced policy " ++ ref_ID (att_Policy b))%string) (ESentinel ErrNotFound))
      | Some policy => resolved ← resolved_of policies rest; Ok (mkResolved b policy :: resolved)
      end
  end.

Definition resolveScopes (id : Identity) (scopes : list AttachmentScope) : M (list ResolvedAttachment) :=
  caller ← lift (checkedIdentity id);
  _ ← guard_err (negb (String.eqb (account caller) (AccountID s)) || IsAllowlisted id)
        (EPlain "store identity must match account without allowlist bypass");
  '(bindings, _, _) ← resolve_bindings caller scopes;
  policies ← loadPolicies bindings;
  lift (resolved_of policies bindings).

Definition Resolve (id : Identity) : M (list ResolvedAttachment) := resolveScopes id [GlobalScope; RegionalScope].

End account.

(** ** The managed catalog (store_catalog.go) *)

Definition PublishManagedPolicy (table id content : string) : M StoredPolicy :=
  _ ← guard_err (String.eqb table "" || negb (isStoreID id)) (EPlain "invalid catalog publication");
  _ ← lift (checkContent content id);
  revision ← newUUID;
  let policy := mkPolicy id managedOwner content revision ManagedPolicy in
  _ ← call_write (fun w => PutItem w table (policy_item policy) conditionCreateOnly ∅);
  mret policy.

End store.
