(* ===== verification/AuthzStoreProps.v ===== *)
(** * Properties of the authorization store

    The lemmas behind the store's theorems: which transactions its operations commit,
    the invariant that relates the two records of an attachment ([index_ok]), and
    what paged queries, batches and [Resolve] return. *)
From S2P Require Import Prelude GoStrings AwsArn AuthzModel Arn Template Dynamo AuthzStore.
From stdpp Require Import base gmap strings list fin_maps relations.
From Stdlib Require Import ZArith Lia Ascii String.
Open Scope string_scope.
Open Scope list_scope.

(** ** Keys *)

Lemma str_app_inj_l (a b c : string) : (a +:+ b = a +:+ c)%string → b = c.
Proof. induction a; simpl; [done|]. intros [= E]. auto. Qed.

Lemma attachment_sk_inj i j : attachment_sk i = attachment_sk j → i = j.
Proof. apply str_app_inj_l. Qed.

Lemma key_inj (a b c a' b' c' : string) : (a, b, c) = (a', b', c') → a = a' ∧ b = b' ∧ c = c'.
Proof. by intros [= -> -> ->]. Qed.

Lemma policy_not_attachment i j : policy_sk i ≠ attachment_sk j.
Proof. done. Qed.

Lemma policy_sk_inj i j : policy_sk i = policy_sk j → i = j.
Proof. apply str_app_inj_l. Qed.

Lemma policy_pk_inj a b : policy_pk a = policy_pk b → a = b.
Proof. apply str_app_inj_l. Qed.

Lemma principalKey_form p : ∃ x, principalKey p = "ACCOUNT#" +:+ account p +:+ "#" +:+ x.
Proof. unfold principalKey, roleKey. case_match; eexists; reflexivity. Qed.

Lemma account_pk_principal a p : accountPattern a = true → accountPattern (account p) = true → account_pk a ≠ principalKey p.
Proof.
  intros [Ha _]%accountPattern_spec [Hp _]%accountPattern_spec. destruct (principalKey_form p) as [x ->].
  unfold account_pk. intros E%str_app_inj_l. apply (f_equal String.length) in E. rewrite !str_length_app in E. simpl in E. lia.
Qed.

Lemma principalKey_account p q :
  accountPattern (account p) = true → accountPattern (account q) = true → principalKey p = principalKey q → account p = account q.
Proof.
  intros [Hp _]%accountPattern_spec [Hq _]%accountPattern_spec.
  destruct (principalKey_form p) as [x ->], (principalKey_form q) as [y ->]. intros E%str_app_inj_l.
  apply app_tail_inj in E as [? _]; [done|lia].
Qed.

Lemma account_pk_inj a b : account_pk a = account_pk b → a = b.
Proof. apply str_app_inj_l. Qed.

(** ** The monad *)

Section monad.
Context `{Backend}.

Lemma M_bind_inv {A C} (m : M A) (f : A → M C) w w' r :
  (m ≫= f) w = (w', r) →
  (∃ w1 a, m w = (w1, Ok a) ∧ f a w1 = (w', r)) ∨ (∃ e, m w = (w', Err e) ∧ r = Err e).
Proof. unfold mbind, M_bind. destruct (m w) as [w1 [a|e]]; [eauto|]. intros [= <- <-]. eauto. Qed.

Lemma M_bind_ok {A C} (m : M A) (f : A → M C) w w' c :
  (m ≫= f) w = (w', Ok c) ↔ ∃ w1 a, m w = (w1, Ok a) ∧ f a w1 = (w', Ok c).
Proof.
  unfold mbind, M_bind. destruct (m w) as [w1 [a|e]]; split; [eauto| |done|]; intros (?&?&?&?); by simplify_eq.
Qed.

Lemma lift_ok {A} (r : result error A) w w' a : lift r w = (w', Ok a) ↔ w' = w ∧ r = Ok a.
Proof. unfold lift. split; [by intros [= <- <-]|by intros [-> ->]]. Qed.

Lemma mret_ok {A} (a b : A) w w' : (mret a : M A) w = (w', Ok b) ↔ w' = w ∧ a = b.
Proof. unfold mret, M_ret. split; [by intros [= <- <-]|by intros [-> ->]]. Qed.

Lemma guard_ok b e w w' u : guard_err b e w = (w', Ok u) ↔ w' = w ∧ b = false.
Proof. unfold guard_err, fail, mret, M_ret. destruct b, u; split; intros; destruct_and?; by simplify_eq. Qed.

Lemma wrapping_ok {A} f (m : M A) w w' a : wrapping f m w = (w', Ok a) ↔ m w = (w', Ok a).
Proof. unfold wrapping. destruct (m w) as [? []]; split; intros; by simplify_eq. Qed.

(** [tmoves R m]: every run of [m] takes the tables along steps of [R]. *)
Definition tmoves {A} (R : Tables → Tables → Prop) (m : M A) : Prop :=
  ∀ w w' r, m w = (w', r) → rtc R (contents w) (contents w').
Definition returns {A} (m : M A) (a : A) : Prop := ∃ w w', m w = (w', Ok a).

Context (R : Tables → Tables → Prop).

Lemma tmoves_bind {A C} (m : M A) (f : A → M C) : tmoves R m → (∀ a, returns m a → tmoves R (f a)) → tmoves R (m ≫= f).
Proof.
  intros Hm Hf w w' r [(w1 & a & E & F)|(e & E & ->)]%M_bind_inv; [|by eapply Hm].
  etrans; [by eapply Hm|]. eapply Hf; [by do 2 eexists|done].
Qed.

Lemma tmoves_ret {A} (a : A) : tmoves R (mret a).
Proof. intros w w' r [= <- <-]. reflexivity. Qed.
Lemma tmoves_lift {A} (r : result error A) : tmoves R (lift r).
Proof. intros w w' r' [= <- <-]. reflexivity. Qed.
Lemma tmoves_fail {A} e : tmoves R (fail e : M A).
Proof. intros w w' r [= <- <-]. reflexivity. Qed.
Lemma tmoves_guard b e : tmoves R (guard_err b e).
Proof. destruct b; [apply tmoves_fail|apply tmoves_ret]. Qed.
Lemma tmoves_wrapping {A} f (m : M A) : tmoves R m → tmoves R (wrapping f m).
Proof. intros Hm w w' r. unfold wrapping. destruct (m w) as [w1 r1] eqn:E. intros [= <- <-]. by eapply Hm. Qed.
Lemma tmoves_for_each {A S} (body : S → A → M S) l : (∀ s x, tmoves R (body s x)) → ∀ s, tmoves R (for_each body l s).
Proof. intros Hb. induction l as [|x l IH]; intros s; [apply tmoves_ret|]. simpl. apply tmoves_bind; [apply Hb|]. intros; apply IH. Qed.

Lemma returns_lift {A} (r : result error A) a : returns (lift r) a → r = Ok a.
Proof. intros (w & w' & E). by apply lift_ok in E as [_ ?]. Qed.
Lemma returns_guard b e u : returns (guard_err b e) u → b = false.
Proof. intros (w & w' & E). by apply guard_ok in E as [_ ?]. Qed.
Lemma returns_wrapping {A} f (m : M A) a : returns (wrapping f m) a → returns m a.
Proof. intros (w & w' & E). apply wrapping_ok in E. by do 2 eexists. Qed.
End monad.

#[export] Hint Resolve tmoves_ret tmoves_lift tmoves_fail tmoves_guard tmoves_wrapping : tmoves.

Section steps.
Context `{B : Backend, !BackendLaws, ArnParser, CedarEngine, UnicodeTables, RecordCodec}.

(** ** The transactions of the store *)

(** By the accounts [own] holds of. *)
Inductive commits (own : string → Prop) : list TransactWriteItem → Prop :=
| commit_policy table p cond values : own (pol_OwnerAccountID p) → commits own [TxPut table (policy_item p) cond values]
| commit_delete_policy table owner id cond values : own owner →
    commits own [TxDelete table (storeKey (policy_pk owner) (policy_sk id)) cond values]
| commit_attachment s table b p expected policy :
    own (AccountID s) → accountPattern (AccountID s) = true → checkAttachment s b = Ok tt → parsePrincipal (att_PrincipalARN b) = Ok p →
    commits own (attachment_writes s table b p (condition_of expected).1 (condition_of expected).2 policy)
| commit_delete_attachment s table id expected p :
    own (AccountID s) → accountPattern (AccountID s) = true → account p = AccountID s → isRevision expected = true →
    commits own (delete_writes s table id expected p).

(** One step of the tables: another client's, or a transaction of the store. *)
Definition step (own : string → Prop) (t t' : Tables) : Prop :=
  interfere t t' ∨ ∃ ws, commits own ws ∧ writes_ok condition t ws = true ∧ t' = writes_apply t ws.

Context (own : string → Prop).

Lemma step_interfere t t' : interfere t t' → rtc (step own) t t'.
Proof. intros. apply rtc_once. by left. Qed.

Lemma tmoves_write call ws :
  (∀ w w' r, call w = (w', r) → ∃ t, interfere (contents w) t ∧ write_outcome condition t (contents w') ws r) →
  commits own ws → tmoves (step own) (call_write call).
Proof.
  intros Hc Hws w w' r. unfold call_write. destruct (call w) as [w1 r1] eqn:E. intros [= <- <-].
  apply Hc in E as (t & Hi & Ho). etrans; [by apply step_interfere|].
  destruct Ho as [[Hok ->]|[_ ->]]; [|done]. apply rtc_once. right. eauto.
Qed.

Section reads.
Context (R : Tables → Tables → Prop) (HR : ∀ t t', interfere t t' → R t t').

Lemma reads_newUUID : tmoves R newUUID.
Proof.
  intros w w' r. unfold newUUID. destruct (NewString w) as [w1 u] eqn:E. intros [= <- <-].
  apply NewString_law in E as (-> & _). done.
Qed.

Lemma reads_readItem table pk sk : tmoves R (readItem table pk sk).
Proof.
  intros w w' r. unfold readItem. destruct (GetItem w table (storeKey pk sk)) as [w1 out] eqn:E. intros [= <- _].
  apply GetItem_law in E as [Hi _]. by apply rtc_once, HR.
Qed.

Lemma reads_GetPolicy s ref : tmoves R (GetPolicy s ref).
Proof.
  unfold GetPolicy. apply tmoves_bind; [auto with tmoves|]. intros owner _.
  apply tmoves_bind; [apply reads_readItem|]. intros; auto with tmoves.
Qed.

Lemma reads_GetAttachment s scope id : tmoves R (GetAttachment s scope id).
Proof.
  unfold GetAttachment. apply tmoves_bind; [auto with tmoves|]. intros ? _.
  apply tmoves_bind; [auto with tmoves|]. intros ? _.
  apply tmoves_bind; [apply reads_readItem|]. intros ? _.
  apply tmoves_bind; [auto with tmoves|]. intros [] _.
  repeat (apply tmoves_bind; [auto with tmoves|]; intros ? _). auto with tmoves.
Qed.
End reads.

Lemma step_of_interfere t t' : interfere t t' → step own t t'.
Proof. by left. Qed.

Definition tmoves_newUUID := reads_newUUID (step own).
Definition tmoves_readItem := reads_readItem (step own) step_of_interfere.
Definition tmoves_GetPolicy := reads_GetPolicy (step own) step_of_interfere.
Definition tmoves_GetAttachment := reads_GetAttachment (step own) step_of_interfere.

Lemma tmoves_writePolicy s id expected content : own (AccountID s) → tmoves (step own) (writePolicy s id expected content).
Proof.
  intros Hown. unfold writePolicy, requireWriter.
  do 3 (apply tmoves_bind; [auto with tmoves|]; intros ? _).
  apply tmoves_bind; [apply tmoves_newUUID|]. intros rev _. destruct (condition_of expected) as [c vs].
  apply tmoves_bind; [|intros; auto with tmoves].
  eapply tmoves_write; [intros; by apply PutItem_law|by apply commit_policy].
Qed.

Lemma tmoves_DeletePolicy s id revision : own (AccountID s) → tmoves (step own) (DeletePolicy s id revision).
Proof.
  intros Hown.  unfold DeletePolicy, requireWriter. do 2 (apply tmoves_bind; [auto with tmoves|]; intros ? _).
  eapply tmoves_write; [intros; by apply DeleteItem_law|by apply commit_delete_policy].
Qed.

Lemma tmoves_Publish table id content : own managedOwner → tmoves (step own) (PublishManagedPolicy table id content).
Proof.
  intros Hown.  unfold PublishManagedPolicy. do 2 (apply tmoves_bind; [auto with tmoves|]; intros ? _).
  apply tmoves_bind; [apply tmoves_newUUID|]. intros rev _.
  apply tmoves_bind; [|intros; auto with tmoves]. eapply tmoves_write; [intros; by apply PutItem_law|by apply commit_policy].
Qed.

Lemma checkAttachment_account s b p :
  checkAttachment s b = Ok tt → parsePrincipal (att_PrincipalARN b) = Ok p → account p = AccountID s.
Proof.
  unfold checkAttachment. intros (q & Hq & Hc)%result_bind_ok Hp. rewrite Hq in Hp. simplify_eq.
  case_match eqn:E; [done|]. by split_bool; apply String.eqb_eq.
Qed.

Lemma tmoves_writeAttachment s b expected : own (AccountID s) → accountPattern (AccountID s) = true → tmoves (step own) (writeAttachment s b expected).
Proof.
  intros Hown Ha. unfold writeAttachment.
  apply tmoves_bind; [auto with tmoves|]. intros table _.
  apply tmoves_bind; [destruct (String.eqb _ _); unfold requireWriter; auto with tmoves|]. intros _ _.
  apply tmoves_bind; [auto with tmoves|]. intros [] Hc%returns_wrapping%returns_lift.
  apply tmoves_bind; [apply tmoves_GetPolicy|]. intros policy _.
  apply tmoves_bind; [auto with tmoves|]. intros _ _.
  apply tmoves_bind; [auto with tmoves|]. intros p Hp%returns_lift.
  destruct (condition_of expected) as [c vs] eqn:E.
  apply tmoves_bind; [|intros; auto with tmoves].
  pose proof (commit_attachment own s table b p expected policy Hown Ha Hc Hp) as Hcom. rewrite E in Hcom.
  eapply tmoves_write; [|exact Hcom]. intros. by apply Transact_law.
Qed.

Lemma returns_GetAttachment s scope id b :
  returns (GetAttachment s scope id) b → checkAttachment s b = Ok tt ∧ att_ID b = id ∧ att_Scope b = scope.
Proof.
  intros (w & w' & E). unfold GetAttachment in E.
  apply M_bind_ok in E as (w1 & table & _ & E). apply M_bind_ok in E as (w2 & [] & _ & E).
  apply M_bind_ok in E as (w3 & item & _ & E). apply M_bind_ok in E as (w4 & [b' rev] & _ & E).
  apply M_bind_ok in E as (w5 & [] & [_ G]%guard_ok & E). apply M_bind_ok in E as (w6 & [] & [_ Hc]%lift_ok & E).
  apply mret_ok in E as [_ ->]. split_bool. split; [done|]. split; by apply String.eqb_eq.
Qed.

Lemma tmoves_CreateAttachment s spec : own (AccountID s) → accountPattern (AccountID s) = true → tmoves (step own) (CreateAttachment s spec).
Proof.
  intros. unfold CreateAttachment. apply tmoves_bind; [apply tmoves_newUUID|]. intros ? _.
  apply tmoves_bind; [apply tmoves_newUUID|]. intros ? _. by apply tmoves_writeAttachment.
Qed.

Lemma tmoves_UpdateAttachment s scope id expected policy :
  own (AccountID s) → accountPattern (AccountID s) = true → tmoves (step own) (UpdateAttachment s scope id expected policy).
Proof.
  intros. unfold UpdateAttachment. apply tmoves_bind; [apply tmoves_GetAttachment|]. intros b _.
  apply tmoves_bind; [auto with tmoves|]. intros _ _.
  apply tmoves_bind; [apply tmoves_newUUID|]. intros ? _. by apply tmoves_writeAttachment.
Qed.

Lemma tmoves_DeleteAttachment s scope id expected :
  own (AccountID s) → accountPattern (AccountID s) = true → tmoves (step own) (DeleteAttachment s scope id expected).
Proof.
  intros Hown Ha. unfold DeleteAttachment.
  apply tmoves_bind; [destruct (String.eqb _ _); unfold requireWriter; auto with tmoves|]. intros _ _.
  apply tmoves_bind; [apply tmoves_GetAttachment|]. intros b Hb%returns_GetAttachment.
  apply tmoves_bind; [auto with tmoves|]. intros _ Hg%returns_guard.
  apply tmoves_bind; [auto with tmoves|]. intros ? _.
  apply tmoves_bind; [auto with tmoves|]. intros p Hp%returns_lift. split_bool.
  eapply tmoves_write; [intros; by apply Transact_law|].
  apply commit_delete_attachment; [done|done| |done]. eapply checkAttachment_account; [apply Hb|done].
Qed.
End steps.

(** ** The two records of an attachment *)

Section index.
Context `{B : Backend, !BackendLaws, ArnParser, CedarEngine, UnicodeTables, RecordCodec}.

(** The records of attachment [id] of account [a]: either none, or the record under
    the account and one equal record under the lookup key of its principal, and no
    record under any other lookup key of the account. *)
Definition index_at (t : Tables) (table a id : string) : Prop :=
  match t !! (table, account_pk a, attachment_sk id) with
  | None => ∀ q, account q = a → t !! (table, principalKey q, attachment_sk id) = None
  | Some it => ∃ b p, it = attachment_item (account_pk a) b ∧ att_ID b = id ∧ att_OwnerAccountID b = a ∧
      unmarshal_attachment (marshal_attachment b) = Some b ∧
      parsePrincipal (att_PrincipalARN b) = Ok p ∧ account p = a ∧
      ∀ q, account q = a → t !! (table, principalKey q, attachment_sk id) =
        if bool_decide (principalKey q = principalKey p) then Some (attachment_item (principalKey q) b) else None
  end.

Definition index_ok (t : Tables) : Prop := ∀ table a id, accountPattern a = true → index_at t table a id.

Lemma index_at_frame t t' table a id :
  t' !! (table, account_pk a, attachment_sk id) = t !! (table, account_pk a, attachment_sk id) →
  (∀ q, account q = a → t' !! (table, principalKey q, attachment_sk id) = t !! (table, principalKey q, attachment_sk id)) →
  index_at t table a id → index_at t' table a id.
Proof.
  unfold index_at. intros -> Hq. case_match.
  - intros (b & p & ? & ? & ? & ? & ? & ? & Hl). exists b, p. repeat (split; [done|]). intros q Ha. rewrite Hq by done. auto.
  - intros Hn q Ha. rewrite Hq by done. auto.
Qed.

Lemma attachment_item_key pk b : key_of (attachment_item pk b) = Some (pk, attachment_sk (att_ID b)).
Proof. done. Qed.
Lemma policy_item_key p : key_of (policy_item p) = Some (policy_pk (pol_OwnerAccountID p), policy_sk (pol_ID p)).
Proof. done. Qed.
Lemma attachment_item_revision pk b : attachment_item pk b !! "revision" = Some (AV_S (att_Revision b)).
Proof. done. Qed.

(** The record keys an attachment write of another table, account or id touches. *)
Lemma frame_keys (t : Tables) (f : Tables → Tables) table0 a0 id0 p0 :
  accountPattern a0 = true → account p0 = a0 →
  (∀ k, k ≠ (table0, account_pk a0, attachment_sk id0) → k ≠ (table0, principalKey p0, attachment_sk id0) → f t !! k = t !! k) →
  ∀ table a id, accountPattern a = true → (table, a, id) ≠ (table0, a0, id0) → index_at t table a id → index_at (f t) table a id.
Proof.
  intros Ha0 Hp0 Hf table a id Ha Hne. apply index_at_frame.
  - apply Hf; intros (-> & E & ->%attachment_sk_inj)%key_inj.
    + apply account_pk_inj in E as ->. done.
    + apply account_pk_principal in E; [done|done|by rewrite Hp0].
  - intros q <-. apply Hf; intros (-> & E & ->%attachment_sk_inj)%key_inj.
    + symmetry in E. by apply account_pk_principal in E.
    + apply principalKey_account in E; [|done|by rewrite Hp0]. rewrite E, Hp0 in Hne. done.
Qed.

Lemma checkAttachment_ok s b :
  checkAttachment s b = Ok tt ↔ ∃ p, parsePrincipal (att_PrincipalARN b) = Ok p ∧ isStoreID (att_ID b) = true ∧
    isRevision (att_Revision b) = true ∧ att_OwnerAccountID b = AccountID s ∧ account p = AccountID s ∧
    is_ok (policyOwner s (att_Policy b)) = true ∧ checkedScope (att_Scope b) (att_Region b) = None ∧
    (att_Scope b = RegionalScope → att_Region b = Region s).
Proof.
  unfold checkAttachment. rewrite result_bind_ok. split.
  - intros (p & Hp & Hc). exists p. split; [done|]. case_match eqn:E; [done|]. split_bool.
    apply result_bind_ok in Hc as (o & Ho & Hc). rewrite Ho. destruct (checkedScope _ _); [done|].
    case_match eqn:Er; [done|]. rewrite !String.eqb_eq in *. repeat (split; [done|]).
    intros Hs. apply String.eqb_eq in Hs. rewrite Hs in Er. simpl in Er. by apply negb_false_iff, String.eqb_eq in Er.
  - intros (p & Hp & Hi & Hr & Ho & Ha & Hpo & Hs & Hg). exists p. split; [done|].
    rewrite Hi, Hr. apply String.eqb_eq in Ho, Ha. rewrite Ho, Ha. simpl.
    destruct (policyOwner s (att_Policy b)); [|done]. simpl. rewrite Hs.
    destruct (String.eqb_spec (att_Scope b) RegionalScope) as [E|]; [|done]. simpl.
    by rewrite (proj2 (String.eqb_eq _ _) (Hg E)).
Qed.

Lemma isStoreID_ascii id : isStoreID id = true → ascii_text id = true.
Proof. unfold isStoreID. intros [_ ?]%andb_true_iff. by apply idPattern_ascii. Qed.

Lemma policyOwner_kind s r o : policyOwner s r = Ok o →
  isStoreID (ref_ID r) = true ∧ (ref_Kind r = CustomPolicy ∧ o = AccountID s ∨ ref_Kind r = ManagedPolicy ∧ o = managedOwner).
Proof.
  unfold policyOwner. destruct (isStoreID (ref_ID r)); [|done]. simpl.
  destruct (String.eqb_spec (ref_Kind r) CustomPolicy); [intros [= <-]; auto|].
  destruct (String.eqb_spec (ref_Kind r) ManagedPolicy); [intros [= <-]; auto|done].
Qed.

Lemma checkedScope_none scope region : checkedScope scope region = None →
  scope = GlobalScope ∧ region = "" ∨ scope = RegionalScope ∧ regionPattern region = true.
Proof.
  unfold checkedScope. destruct (String.eqb_spec scope "global"); simpl.
  - destruct (String.eqb_spec region ""); [auto|]. subst. done.
  - destruct (String.eqb_spec scope "regional"); simpl; [|done]. destruct (regionPattern region) eqn:E; [auto|done].
Qed.

(** A checked attachment has only ASCII text, so its record reads back as it is. *)
Lemma checkAttachment_roundtrip s b : accountPattern (AccountID s) = true →
  checkAttachment s b = Ok tt → unmarshal_attachment (marshal_attachment b) = Some b.
Proof.
  intros Ha (p & Hp & Hi & Hr & Ho & _ & Hpo & Hs & _)%checkAttachment_ok. apply attachment_roundtrip.
  destruct (policyOwner s (att_Policy b)) as [o|] eqn:Epo; [|done]. apply policyOwner_kind in Epo as [Hid Hk].
  unfold isRevision in Hr. apply andb_true_iff in Hr as [_ Hu].
  repeat constructor; apply utf8_ascii.
  - by apply isStoreID_ascii.
  - destruct Hk as [[-> _]|[-> _]]; done.
  - apply parsePrincipal_ok in Hp. by destruct Hp.
  - apply checkedScope_none in Hs as [[-> _]|[-> _]]; done.
  - by apply isStoreID_ascii.
  - rewrite Ho. by apply accountPattern_ascii.
  - apply checkedScope_none in Hs as [[_ ->]|[_ ?]]; [done|]. by apply regionPattern_ascii.
  - by apply uuid_Validate_ascii.
Qed.

(** *** Conditions *)

(** An expected revision [e] (none for a create) is what the item has. *)
Definition expects (e : string) (it : option Item) : Prop :=
  if String.eqb e "" then it ≫= lookup "pk" = None else it ≫= lookup "revision" = Some (AV_S e).

Lemma condition_of_spec e it :
  condition (condition_of e).1 (condition_of e).2 it = true ↔ expects e it.
Proof.
  unfold condition_of, expects. destruct (String.eqb e ""); simpl.
  - unfold conditionCreateOnly. rewrite condition_create. apply bool_decide_eq_true.
  - unfold conditionMatchRevision. rewrite (condition_expected _ _ (AV_S e)) by done. apply bool_decide_eq_true.
Qed.

Definition put_pair (table sk : string) (b : StoredAttachment) (pk1 pk2 : string) (t : Tables) : Tables :=
  <[(table, pk2, sk) := attachment_item pk2 b]> (<[(table, pk1, sk) := attachment_item pk1 b]> t).

Lemma attachment_writes_spec s table b p e policy t :
  writes_ok condition t (attachment_writes s table b p (condition_of e).1 (condition_of e).2 policy) = true ↔
  expects e (t !! (table, account_pk (AccountID s), attachment_sk (att_ID b))) ∧
  expects e (t !! (table, principalKey p, attachment_sk (att_ID b))) ∧
  t !! (PolicyTable s, policy_pk (pol_OwnerAccountID policy), policy_sk (pol_ID policy)) ≫= lookup "revision" = Some (AV_S (pol_Revision policy)).
Proof.
  unfold writes_ok, attachment_writes. simpl. unfold write_ok, write_key. rewrite !attachment_item_key. simpl.
  rewrite key_of_storeKey. simpl. rewrite !andb_true_iff, !condition_of_spec, (condition_policy _ _ (AV_S (pol_Revision policy))) by done.
  rewrite bool_decide_eq_true. tauto.
Qed.

Lemma attachment_writes_apply s table b p c vs policy t :
  writes_apply t (attachment_writes s table b p c vs policy) =
  put_pair table (attachment_sk (att_ID b)) b (account_pk (AccountID s)) (principalKey p) t.
Proof. done. Qed.

Lemma delete_writes_spec s table id e p t : e ≠ "" →
  writes_ok condition t (delete_writes s table id e p) = true ↔
  expects e (t !! (table, account_pk (AccountID s), attachment_sk id)) ∧
  expects e (t !! (table, principalKey p, attachment_sk id)).
Proof.
  intros He. unfold writes_ok, delete_writes. simpl. unfold write_ok, write_key. rewrite !key_of_storeKey. simpl.
  pose proof (condition_of_spec e) as Hs. unfold condition_of in Hs. rewrite (proj2 (String.eqb_neq _ _) He) in Hs. simpl in Hs.
  rewrite !andb_true_iff, !Hs. tauto.
Qed.

Lemma delete_writes_apply s table id e p t :
  writes_apply t (delete_writes s table id e p) =
  delete (table, principalKey p, attachment_sk id) (delete (table, account_pk (AccountID s), attachment_sk id) t).
Proof. unfold writes_apply, delete_writes. simpl. unfold write_apply, write_key. by rewrite !key_of_storeKey. Qed.

(** *** Preservation *)

Lemma index_put t s table b p e policy :
  accountPattern (AccountID s) = true → checkAttachment s b = Ok tt → parsePrincipal (att_PrincipalARN b) = Ok p →
  index_ok t → writes_ok condition t (attachment_writes s table b p (condition_of e).1 (condition_of e).2 policy) = true →
  index_ok (put_pair table (attachment_sk (att_ID b)) b (account_pk (AccountID s)) (principalKey p) t).
Proof.
  intros Ha Hc Hp Hok (E1 & E2 & _)%attachment_writes_spec table' a' id' Ha'.
  pose proof (checkAttachment_account _ _ _ Hc Hp) as Hpa.
  assert (account_pk (AccountID s) ≠ principalKey p) as Hne by (apply account_pk_principal; [done|by rewrite Hpa]).
  destruct (decide ((table', a', id') = (table, AccountID s, att_ID b))) as [[= -> -> ->]|Hd].
  2: { apply (frame_keys t (put_pair table (attachment_sk (att_ID b)) b (account_pk (AccountID s)) (principalKey p))
               table (AccountID s) (att_ID b) p); try done; [|by apply Hok].
       intros k Hk1 Hk2. unfold put_pair. by rewrite !tables_insert_ne. }
  specialize (Hok table (AccountID s) (att_ID b) Ha). unfold index_at in *. unfold put_pair at 1.
  rewrite tables_insert_ne by congruence. rewrite tables_insert_eq.
  exists b, p. split; [done|]. split; [done|].
  pose proof (checkAttachment_roundtrip s b Ha Hc) as Hrt. pose proof (proj1 (checkAttachment_ok _ _) Hc) as (p' & Hp' & _ & _ & Ho & _).
  split; [done|]. split; [done|]. split; [done|]. split; [done|].
  intros q Hq. unfold put_pair.
  assert (account_pk (AccountID s) ≠ principalKey q) by (apply account_pk_principal; [done|by rewrite Hq]).
  case_bool_decide as Hk; [rewrite Hk; by rewrite tables_insert_eq|].
  rewrite !tables_insert_ne by congruence.
  destruct (t !! (table, account_pk (AccountID s), attachment_sk (att_ID b))) as [it|] eqn:Eacc; [|by apply Hok].
  destruct Hok as (b0 & p0 & -> & _ & _ & _ & _ & Hp0 & Hl). rewrite (Hl q Hq). case_bool_decide as Hk0; [|done]. exfalso.
  rewrite (Hl p Hpa) in E2. unfold expects in E1, E2. destruct (String.eqb e "").
  - done.
  - case_bool_decide as Hk1; [congruence|done].
Qed.

Lemma index_delete t s table id e p :
  accountPattern (AccountID s) = true → account p = AccountID s → e ≠ "" → index_ok t →
  writes_ok condition t (delete_writes s table id e p) = true →
  index_ok (delete (table, principalKey p, attachment_sk id) (delete (table, account_pk (AccountID s), attachment_sk id) t)).
Proof.
  intros Ha Hpa He Hok (E1 & E2)%(delete_writes_spec _ _ _ _ _ _ He) table' a' id' Ha'.
  assert (account_pk (AccountID s) ≠ principalKey p) as Hne by (apply account_pk_principal; [done|by rewrite Hpa]).
  destruct (decide ((table', a', id') = (table, AccountID s, id))) as [[= -> -> ->]|Hd].
  2: { apply (frame_keys t (λ t, delete (table, principalKey p, attachment_sk id) (delete (table, account_pk (AccountID s), attachment_sk id) t))
               table (AccountID s) id p); try done; [|by apply Hok].
       intros k Hk1 Hk2. by rewrite !tables_delete_ne. }
  specialize (Hok table (AccountID s) id Ha). unfold index_at in *.
  rewrite tables_delete_ne by congruence. rewrite tables_delete_eq. intros q Hq.
  unfold expects in E1, E2. rewrite (proj2 (String.eqb_neq _ _) He) in E1, E2.
  destruct (t !! (table, account_pk (AccountID s), attachment_sk id)) as [it|]; [|done].
  destruct Hok as (b0 & p0 & _ & _ & _ & _ & _ & Hp0 & Hl).
  rewrite (Hl p Hpa) in E2. case_bool_decide as Hk; [|done].
  assert (account_pk (AccountID s) ≠ principalKey q) by (apply account_pk_principal; [done|by rewrite Hq]).
  destruct (decide (principalKey q = principalKey p)) as [->|Hn]; [by rewrite tables_delete_eq|].
  rewrite !tables_delete_ne by (intros Heq%key_inj; naive_solver). rewrite (Hl q Hq). case_bool_decide as Hkq; [by rewrite Hk, Hkq in Hn|done].
Qed.

(** A transaction on policy records leaves the attachments alone. *)
Lemma index_policy t (f : Tables → Tables) table pk id :
  (∀ k, k ≠ (table, pk, policy_sk id) → f t !! k = t !! k) → index_ok t → index_ok (f t).
Proof. intros Hf Hok table' a' id' Ha. apply (index_at_frame t); [| |by apply Hok]; intros; apply Hf; by intros (_ & _ & E)%key_inj. Qed.

Lemma commits_index own t ws : commits own ws → writes_ok condition t ws = true → index_ok t → index_ok (writes_apply t ws).
Proof.
  intros Hc Hw Hok. destruct Hc as [table p c vs _|table owner id c vs _|s table b p e policy _ Ha Hc Hp|s table id e p _ Ha Hp Hr].
  - apply (index_policy t (λ t, writes_apply t [TxPut table (policy_item p) c vs]) table (policy_pk (pol_OwnerAccountID p)) (pol_ID p)); [|done].
    intros k Hk. simpl. unfold write_apply, write_key. rewrite policy_item_key. simpl. by rewrite tables_insert_ne.
  - apply (index_policy t (λ t, writes_apply t [TxDelete table (storeKey (policy_pk owner) (policy_sk id)) c vs]) table (policy_pk owner) id); [|done].
    intros k Hk. simpl. unfold write_apply, write_key. rewrite key_of_storeKey. simpl. by rewrite tables_delete_ne.
  - rewrite attachment_writes_apply. by eapply index_put.
  - rewrite delete_writes_apply. eapply index_delete; [done|done| |done|exact Hw].
    intros ->. unfold isRevision in Hr. by rewrite uuid_Validate_empty in Hr.
Qed.
End index.

(** * What the lookups of the authorization store return

    Paged queries, [readBindings], batches and [resolveScopes]: first for any backend
    whatever it answers, then for one no other client writes to meanwhile. *)
From stdpp Require Import base gmap strings list fin_maps relations.
From Stdlib Require Import ZArith Lia Ascii String.
Open Scope string_scope.
Open Scope list_scope.

Section reads.
Context `{B : Backend, ArnParser, CedarEngine, UnicodeTables, RecordCodec}.

(** A property of the world that reads keep. *)
Record read_inv (I : World → Prop) : Prop := {
  ri_query : ∀ w q w' r, I w → Query w q = (w', r) → q_KeyConditionExpression q = "pk = :pk" →
    (∃ pk, q_Values q = {[":pk" := AV_S pk]}) → I w';
  ri_batch : ∀ w req w' r, I w → BatchGetItem w req = (w', r) → I w';
  ri_wait : ∀ w ms w' r, I w → wait w ms = (w', r) → I w'
}.

Lemma for_each_ind {A S} (body : S → A → M S) (P : list A → S → World → Prop) :
  (∀ done x s w w' s', P done s w → body s x w = (w', Ok s') → P (done ++ [x]) s' w') →
  ∀ l done s w w' s', P done s w → for_each body l s w = (w', Ok s') → P (done ++ l) s' w'.
Proof.
  intros Hb. induction l as [|x l IH]; intros done s w w' s' HP E.
  - apply mret_ok in E as [-> <-]. by rewrite app_nil_r.
  - simpl in E. apply M_bind_ok in E as (w1 & s1 & E1 & E2). rewrite (cons_middle x). rewrite app_assoc.
    eapply IH; [|done]. by eapply Hb.
Qed.

Lemma for_each_run {A S} (P : list A → S → World → Prop) (body : S → A → M S) l s w w' s' :
  for_each body l s w = (w', Ok s') → P [] s w →
  (∀ done x s w w' s', P done s w → body s x w = (w', Ok s') → P (done ++ [x]) s' w') → P l s' w'.
Proof. intros E Hnil Hb. by eapply (for_each_ind body P Hb l []) in E. Qed.

(** [for _, x := range l { y, err := f(x); ...; acc = append(acc, y) }] *)
Lemma for_each_collect {A C} (f : A → result error C) l acc w w' r :
  for_each (fun acc x => y ← lift (f x); mret (acc ++ [y])) l acc w = (w', Ok r) →
  w' = w ∧ ∃ ys, Forall2 (λ x y, f x = Ok y) l ys ∧ r = acc ++ ys.
Proof.
  revert acc w. induction l as [|x l IH]; intros acc w E.
  - apply mret_ok in E as [-> <-]. split; [done|]. exists []. by rewrite app_nil_r.
  - simpl in E. apply M_bind_ok in E as (w1 & s1 & E1 & E2).
    apply M_bind_ok in E1 as (w2 & y & [-> Hy]%lift_ok & [-> <-]%mret_ok).
    apply IH in E2 as (-> & ys & Hf & ->). split; [done|]. exists (y :: ys). split; [by constructor|]. by rewrite <- app_assoc.
Qed.

Section inv.
Context (I : World → Prop) (HI : read_inv I) (s : StoreConfig) (pages : nat).

Lemma query_loop_inv n table pk start items w w' r : I w → query_loop n table pk start items w = (w', r) → I w'.
Proof.
  revert start items w. induction n as [|n IH]; intros start items w Hw; simpl; [by intros [= <- _]|].
  destruct (Query w (page_query table pk start)) as [w1 out] eqn:E.
  assert (I w1) by (eapply ri_query; [done|exact Hw|exact E|done|by eexists]).
  destruct out as [[more last]|e]; [|by intros [= <- _]]. case_bool_decide; [by intros [= <- _]|]. by apply IH.
Qed.

(** One read of a partition of the attachments of [scope]. *)
Definition reading (scope : AttachmentScope) (pk : string) (items : list Item) : Prop :=
  ∃ table w1 w2, I w1 ∧ attachmentTable s scope = Ok table ∧ queryItems pages table pk w1 = (w2, Ok items).

Lemma readBindings_inv scope pk w w' bs : I w → readBindings s pages scope pk w = (w', Ok bs) →
  I w' ∧ ∃ items, reading scope pk items ∧ Forall2 (λ it b, read_binding s scope pk it = Ok b) items bs.
Proof.
  intros Hw E. unfold readBindings in E. apply M_bind_ok in E as (w1 & table & [-> Ht]%lift_ok & E).
  apply M_bind_ok in E as (w2 & items & Eq & E). apply for_each_collect in E as (-> & ys & Hf & ->).
  split; [by eapply query_loop_inv|]. exists items. split; [|done]. exists table, w, w2. done.
Qed.

(** *** The bindings of a caller *)

Definition matched (caller : principalARN) (b : StoredAttachment) : Prop :=
  ∃ p, parsePrincipal (att_PrincipalARN b) = Ok p ∧ matchesPrincipal p caller = true.

Definition acc_ok (caller : principalARN) (acc : Resolving) : Prop :=
  Forall (matched caller) acc.1.1 ∧ NoDup (bindingDiagnosticID <$> acc.1.1) ∧
  acc.2 = list_to_set (bindingDiagnosticID <$> acc.1.1).

Lemma resolve_binding_ok caller acc b acc' : acc_ok caller acc → resolve_binding caller acc b = Ok acc' →
  acc'.1.1 = acc.1.1 ++ [b] ∧ acc_ok caller acc'.
Proof.
  destruct acc as [[bs al] ids]. unfold acc_ok, resolve_binding. cbn [fst snd].
  intros (Hm & Hnd & ->) (p & Hp & E)%result_bind_ok.
  destruct (matchesPrincipal p caller) eqn:Em; [|done]. cbn [negb] in E. apply result_bind_ok in E as (al' & _ & E).
  case_bool_decide as Hin; [done|]. simplify_eq. cbn [fst snd]. split; [done|]. split; [|split].
  - apply Forall_app. split; [done|]. constructor; [by exists p|done].
  - rewrite fmap_app. apply NoDup_app. split; [done|]. split; [|apply NoDup_singleton].
    intros x Hx Hx'%list_elem_of_singleton. subst. apply Hin. by apply elem_of_list_to_set.
  - rewrite fmap_app, list_to_set_app_L. simpl. set_solver.
Qed.

Lemma resolve_part caller part acc w w' acc' : acc_ok caller acc →
  for_each (fun acc b => lift (resolve_binding caller acc b)) part acc w = (w', Ok acc') →
  w' = w ∧ acc'.1.1 = acc.1.1 ++ part ∧ acc_ok caller acc'.
Proof.
  intros Hok E. apply (for_each_run (λ d a w1, w1 = w ∧ a.1.1 = acc.1.1 ++ d ∧ acc_ok caller a)) in E;
    [done|by rewrite app_nil_r|]. clear E.
  intros d x a w1 w2 a' (-> & Ea & Ha) [-> E]%lift_ok. apply resolve_binding_ok in E as [E Ha']; [|done].
  split; [done|]. split; [|done]. rewrite E, Ea. by rewrite app_assoc.
Qed.

(** The bindings come from the partitions read, and every item read is among them. *)
Definition covered (pairs : list (AttachmentScope * string)) (bs : list StoredAttachment) : Prop :=
  (∀ b, b ∈ bs → ∃ scope pk items it, (scope, pk) ∈ pairs ∧ reading scope pk items ∧ it ∈ items ∧ read_binding s scope pk it = Ok b) ∧
  (∀ scope pk, (scope, pk) ∈ pairs → ∃ items, reading scope pk items ∧ ∀ it, it ∈ items → ∃ b, b ∈ bs ∧ read_binding s scope pk it = Ok b).

Lemma covered_app pairs bs scope pk items part :
  covered pairs bs → reading scope pk items → Forall2 (λ it b, read_binding s scope pk it = Ok b) items part →
  covered (pairs ++ [(scope, pk)]) (bs ++ part).
Proof.
  intros [Hsrc Hall] Hr Hf. split.
  - intros b [Hb|Hb]%elem_of_app.
    + destruct (Hsrc b Hb) as (sc & k & its & it & ? & ? & ? & ?). exists sc, k, its, it. rewrite elem_of_app. auto.
    + apply list_elem_of_lookup in Hb as [i Hi]. destruct (Forall2_lookup_r _ _ _ _ _ Hf Hi) as (it & Hit & E).
      exists scope, pk, items, it. rewrite elem_of_app, list_elem_of_singleton. split; [auto|]. split; [done|]. split; [|done].
      apply list_elem_of_lookup. eauto.
  - intros sc k [Hk|[= -> ->]%list_elem_of_singleton]%elem_of_app.
    + destruct (Hall sc k Hk) as (its & ? & Hits). exists its. split; [done|]. intros it Hit.
      destruct (Hits it Hit) as (b & ? & ?). exists b. rewrite elem_of_app. auto.
    + exists items. split; [done|]. intros it [i Hi]%list_elem_of_lookup.
      destruct (Forall2_lookup_l _ _ _ _ _ Hf Hi) as (b & Hb & E). exists b. rewrite elem_of_app. split; [|done].
      right. apply list_elem_of_lookup. eauto.
Qed.

Definition pairs_of (scopes : list AttachmentScope) (keys : list string) : list (AttachmentScope * string) :=
  scopes ≫= (λ sc, (λ k, (sc, k)) <$> keys).

Lemma pairs_of_app scopes sc keys : pairs_of (scopes ++ [sc]) keys = pairs_of scopes keys ++ ((λ k, (sc, k)) <$> keys).
Proof. unfold pairs_of. rewrite bind_app. simpl. by rewrite app_nil_r. Qed.

Lemma elem_of_pairs scopes keys sc k : (sc, k) ∈ pairs_of scopes keys ↔ sc ∈ scopes ∧ k ∈ keys.
Proof.
  unfold pairs_of. rewrite list_elem_of_bind. split.
  - intros (x & Hx & Hs). apply list_elem_of_fmap in Hx as (y & [= -> ->] & Hy). done.
  - intros [Hs Hk]. exists sc. split; [|done]. apply list_elem_of_fmap. eauto.
Qed.

Lemma resolve_bindings_ok caller scopes w w' acc : I w → resolve_bindings s pages caller scopes w = (w', Ok acc) →
  I w' ∧ acc_ok caller acc ∧ covered (pairs_of scopes (caller_keys caller)) acc.1.1.
Proof.
  intros Hw E. unfold resolve_bindings in E.
  apply (for_each_run (λ d a w1, I w1 ∧ acc_ok caller a ∧ covered (pairs_of d (caller_keys caller)) a.1.1)) in E;
    [done| |]; clear E.
  { split; [done|]. split; [|split; [by intros ? ?%not_elem_of_nil|by intros ? ? ?%not_elem_of_nil]].
       split; [constructor|]. split; [constructor|done]. }
  intros d scope a w1 w2 a' (Hw1 & Ha & Hc) E. rewrite pairs_of_app.
  apply (for_each_run (λ ks a w1, I w1 ∧ acc_ok caller a ∧
    covered (pairs_of d (caller_keys caller) ++ ((λ k, (scope, k)) <$> ks)) a.1.1)) in E; [done|by rewrite app_nil_r|]; clear E.
  intros ks pk b w3 w4 b' (Hw3 & Hb & Hcb) E. apply M_bind_ok in E as (w5 & part & Er & E).
  apply readBindings_inv in Er as (Hw5 & items & Hr & Hf); [|done].
  apply resolve_part in E as (-> & Eb & Hb'); [|done]. split; [done|]. split; [done|].
  rewrite Eb, fmap_app, app_assoc. by eapply covered_app.
Qed.

(** *** The policies *)

(** A policy decoded from a response of a batch read. *)
Definition fetched (ref : PolicyRef) (p : StoredPolicy) : Prop :=
  policy_ref p = ref ∧ ∃ item w1 w2 req resp un, decodePolicy s item = Ok p ∧ I w1 ∧
    BatchGetItem w1 req = (w2, Ok (resp, un)) ∧ item ∈ resp !!! PolicyTable s.

Definition all_fetched (policies : Policies) : Prop := map_Forall fetched policies.

Lemma add_policies refs items w1 w2 req resp un policies wa wb policies' :
  I w1 → BatchGetItem w1 req = (w2, Ok (resp, un)) → (∀ it, it ∈ items → it ∈ resp !!! PolicyTable s) → all_fetched policies →
  for_each (fun policies item => lift (add_policy s refs policies item)) items policies wa = (wb, Ok policies') →
  wb = wa ∧ all_fetched policies'.
Proof.
  intros Hw Eb. revert policies wa. induction items as [|it items IH]; intros policies wa Hin Hp E.
  - by apply mret_ok in E as [-> <-].
  - simpl in E. apply M_bind_ok in E as (w3 & p1 & [-> Ea]%lift_ok & E). eapply IH in E; [exact E| |].
    + intros x Hx. apply Hin. by constructor.
    + unfold add_policy in Ea. apply result_bind_ok in Ea as (p & Hd & Ea). case_bool_decide; [|done]. simpl in Ea.
      case_bool_decide; [done|]. simplify_eq. apply map_Forall_insert_2; [|done].
      split; [done|]. exists it, w1, w2, req, resp, un. split; [done|]. split; [done|]. split; [done|]. apply Hin. by constructor.
Qed.

Lemma batch_loop_ok refs n : ∀ attempt pending policies w w' policies' pending', I w → all_fetched policies →
  batch_loop s refs n attempt pending policies w = (w', Ok (policies', pending')) → I w' ∧ all_fetched policies'.
Proof.
  induction n as [|n IH]; intros attempt pending policies w w' policies' pending' Hw Hp E.
  - by apply mret_ok in E as [-> [= <- <-]].
  - simpl in E. case_bool_decide; [by apply mret_ok in E as [-> [= <- <-]]|].
    apply M_bind_ok in E as (w1 & [] & Ew & E).
    assert (I w1).
    { destruct (Nat.eqb attempt 0); [by apply mret_ok in Ew as [-> _]|].
      destruct (wait w _) as [w2 e] eqn:Ewait. assert (w2 = w1) as -> by (destruct e; by simplify_eq). by eapply ri_wait. }
    apply M_bind_ok in E as (w2 & [resp un] & Eb & E). destruct (BatchGetItem w1 pending) as [w3 out] eqn:Ebatch.
    destruct out as [[resp' un']|]; [|done]. simplify_eq.
    apply M_bind_ok in E as (w3 & p1 & Ea & E).
    eapply add_policies in Ea as [-> Hp1]; [|done|exact Ebatch|done|done].
    eapply IH in E; [done| |done]. by eapply ri_batch.
Qed.

Lemma batches_ok all n : ∀ refs policies w w' policies', I w → all_fetched policies →
  batches s n all refs policies w = (w', Ok policies') → I w' ∧ all_fetched policies'.
Proof.
  induction n as [|n IH]; intros [|ref refs] policies w w' policies' Hw Hp E; cbn [batches] in E.
  - by apply mret_ok in E as [-> <-].
  - done.
  - by apply mret_ok in E as [-> <-].
  - apply M_bind_ok in E as (w1 & keys & [-> _]%lift_ok & E). apply M_bind_ok in E as (w2 & [p1 pend] & Eb & E).
    apply batch_loop_ok in Eb as [? ?]; [|done|done]. case_bool_decide; [|done]. simpl in E. by eapply IH.
Qed.

Lemma resolved_of_ok policies bs rs : resolved_of policies bs = Ok rs →
  r_Attachment <$> rs = bs ∧ Forall (λ r, policies !! att_Policy (r_Attachment r) = Some (r_Policy r)) rs.
Proof.
  revert rs. induction bs as [|b bs IH]; intros rs; simpl; [by intros [= <-]|].
  destruct (policies !! att_Policy b) as [p|] eqn:E; [|done]. intros (rs' & E' & [= <-])%result_bind_ok.
  destruct (IH _ E') as [<- Hf]. split; [done|]. by constructor.
Qed.

Lemma resolveScopes_ok id scopes w w' rs : I w → resolveScopes s pages id scopes w = (w', Ok rs) →
  I w' ∧ ∃ caller, checkedIdentity id = Ok caller ∧ account caller = AccountID s ∧ IsAllowlisted id = false ∧
    Forall (matched caller) (r_Attachment <$> rs) ∧
    NoDup (bindingDiagnosticID <$> (r_Attachment <$> rs)) ∧
    covered (pairs_of scopes (caller_keys caller)) (r_Attachment <$> rs) ∧
    Forall (λ r, fetched (att_Policy (r_Attachment r)) (r_Policy r)) rs.
Proof.
  intros Hw E. unfold resolveScopes in E. apply M_bind_ok in E as (w1 & caller & [-> Hc]%lift_ok & E).
  apply M_bind_ok in E as (w1 & [] & [-> Hg]%guard_ok & E). apply M_bind_ok in E as (w1 & [[bs al] ids] & Eb & E).
  apply resolve_bindings_ok in Eb as (Hw1 & (Hm & Hnd & _) & Hcov); [|done]. cbn [fst snd] in *.
  apply M_bind_ok in E as (w2 & policies & Ep & [-> E]%lift_ok). unfold loadPolicies in Ep.
  apply batches_ok in Ep as [Hw2 Hp]; [|done|apply map_Forall_empty].
  apply resolved_of_ok in E as [<- Hr]. split_bool. split; [done|]. exists caller. split; [done|].
  split; [by apply String.eqb_eq|]. repeat (split; [done|]).
  eapply Forall_impl; [exact Hr|]. intros r Hl. by apply (map_Forall_lookup_1 _ _ _ _ Hp Hl).
Qed.
End inv.

(** *** Single items *)

Lemma matchesStoreKey_key it pk sk : matchesStoreKey it pk sk = true ↔ key_of it = Some (pk, sk).
Proof.
  unfold matchesStoreKey, key_of. repeat case_match; split; intros E; try done.
  - split_bool. rewrite !String.eqb_eq in *. by subst.
  - simplify_eq. by rewrite !String.eqb_refl.
Qed.

Lemma read_binding_ok s scope pk it b : read_binding s scope pk it = Ok b ↔
  decodeItem unmarshal_attachment it = Ok (b, att_Revision b) ∧ att_Scope b = scope ∧ checkAttachment s b = Ok tt ∧
  key_of it = Some (pk, attachment_sk (att_ID b)) ∧
  ∃ p, parsePrincipal (att_PrincipalARN b) = Ok p ∧ (pk = account_pk (AccountID s) ∨ pk = principalKey p).
Proof.
  unfold read_binding. rewrite result_bind_ok. split.
  - intros ([b' rev] & Hd & E). destruct (String.eqb_spec (att_Scope b') scope); [|done].
    destruct (String.eqb_spec (att_Revision b') rev); [|done]. cbn in E.
    apply result_bind_ok in E as ([] & Hc & E). apply result_bind_ok in E as (p & Hp & E).
    destruct (matchesStoreKey it pk _) eqn:Ek; [|done]. cbn in E. apply matchesStoreKey_key in Ek.
    destruct (String.eqb_spec pk (account_pk (AccountID s))) as [->|]; cbn in E;
      [|destruct (String.eqb_spec pk (principalKey p)) as [->|]; [|done]; cbn in E]; simplify_eq; repeat (split; [done|]); eauto.
  - intros (Hd & Hs & Hc & Hk & p & Hp & Hpk). exists (b, att_Revision b). split; [done|].
    rewrite Hs, !String.eqb_refl. cbn. rewrite Hc. cbn. rewrite Hp. cbn. apply matchesStoreKey_key in Hk. rewrite Hk. cbn.
    destruct Hpk as [->| ->]; rewrite !String.eqb_refl; [done|]. by rewrite andb_false_r.
Qed.

Lemma decodePolicy_ok s it p : decodePolicy s it = Ok p ↔
  decodeItem unmarshal_policy it = Ok (p, pol_Revision p) ∧
  policyOwner s (policy_ref p) = Ok (pol_OwnerAccountID p) ∧
  key_of it = Some (policy_pk (pol_OwnerAccountID p), policy_sk (pol_ID p)).
Proof.
  unfold decodePolicy. rewrite result_bind_ok. split.
  - intros ([p' rev] & Hd & E). destruct (policyOwner s (policy_ref p')) as [o|] eqn:Eo; [|done].
    destruct (String.eqb_spec (pol_OwnerAccountID p') o); [|done]. destruct (String.eqb_spec (pol_Revision p') rev); [|done].
    destruct (matchesStoreKey it _ _) eqn:Ek; [|done]. apply matchesStoreKey_key in Ek. cbn in E. by simplify_eq.
  - intros (Hd & Ho & Hk). exists (p, pol_Revision p). split; [done|]. rewrite Ho, !String.eqb_refl. cbn.
    apply matchesStoreKey_key in Hk. by rewrite Hk.
Qed.
End reads.

(** ** Without interference *)

Section quietly.
Context `{B : Backend, L : !BackendLaws, ArnParser, CedarEngine, UnicodeTables, RecordCodec}.
Context (Hq : quiet).

Lemma quiet_read_inv t : read_inv (λ w, contents w = t).
Proof.
  split.
  - intros w q w' r <- E Hc [pk Hv]. destruct (Query_law _ _ _ _ _ E Hc Hv) as [Hi _]. by apply Hq.
  - intros w req w' r <- E. destruct (Batch_law _ _ _ _ E) as [Hi _]. by apply Hq.
  - intros w ms w' r <- E. apply wait_law in E. by apply Hq.
Qed.

Lemma split_unique {A} (b b' r r' : list (string * A)) k x x' :
  NoDup (b ++ [(k, x)] ++ r).*1 → b ++ [(k, x)] ++ r = b' ++ [(k, x')] ++ r' → b = b' ∧ r = r'.
Proof.
  revert b'. induction b as [|y b IH]; intros [|y' b']; cbn; intros Hnd E; simplify_eq; [done| | |].
  - exfalso. apply NoDup_cons in Hnd as [Hn _]. apply Hn. rewrite fmap_app. cbn. rewrite elem_of_app. right. by left.
  - exfalso. apply NoDup_cons in Hnd as [Hn _]. apply Hn. rewrite fmap_app. cbn. rewrite elem_of_app. right. by left.
  - apply NoDup_cons in Hnd as [_ Hnd]. cbn in IH. destruct (IH b' Hnd H4) as [-> ->]. done.
Qed.

(** Where a page with the start key [start] begins. *)
Definition before_start (pk : string) (start : Item) (before : list (string * Item)) : Prop :=
  before = [] ∧ start = ∅ ∨ ∃ b sk it, before = b ++ [(sk, it)] ∧ start = storeKey pk sk.

Lemma before_start_unique pk start b1 r1 b2 r2 :
  NoDup (b1 ++ r1).*1 → b1 ++ r1 = b2 ++ r2 → before_start pk start b1 → before_start pk start b2 → b1 = b2 ∧ r1 = r2.
Proof.
  intros Hnd E [[-> ->]|(b & sk & it & -> & ->)] [[-> Hs]|(b' & sk' & it' & -> & Hs)].
  - done.
  - symmetry in Hs. by apply storeKey_nonempty in Hs.
  - by apply storeKey_nonempty in Hs.
  - apply storeKey_inj in Hs as [_ <-]. rewrite <- !app_assoc in E. rewrite <- app_assoc in Hnd.
    pose proof E as E'. apply split_unique in E as [-> ->]; [|done]. cbn in E'. apply app_inv_head in E'. by simplify_eq.
Qed.

Lemma query_loop_all n table pk start items w w' l before this :
  query_loop n table pk start items w = (w', Ok l) →
  items_of (contents w) table pk = before ++ this → before_start pk start before →
  contents w' = contents w ∧ l = items ++ this.*2.
Proof.
  revert start items w before this. induction n as [|n IH]; intros start items w before this; cbn [query_loop]; [done|].
  destruct (Query w (page_query table pk start)) as [w1 out] eqn:E. intros Hl Hi Hb.
  destruct (Query_law _ _ pk _ _ E eq_refl eq_refl) as [Hin Hp]. apply Hq in Hin.
  destruct out as [[more last]|e]; [|done]. destruct (Hp _ _ eq_refl) as (b1 & th & after & Es & -> & Hb1 & Ha).
  cbn [q_TableName page_query q_ExclusiveStartKey] in *. rewrite Hin, Hi in Es.
  pose proof (items_of_keys (contents w) table pk) as Hnd. rewrite Hi in Hnd.
  destruct (before_start_unique pk start before this b1 (th ++ after) Hnd Es Hb Hb1) as [<- ->].
  case_bool_decide as Hlast.
  - simplify_eq. destruct Ha as [[-> _]|(b & sk & it & _ & Hs)]; [|by symmetry in Hs; apply storeKey_nonempty in Hs].
    split; [done|]. by rewrite app_nil_r.
  - destruct Ha as [[_ ?]|(b & sk & it & -> & ->)]; [done|].
    eapply (IH _ _ _ (before ++ b ++ [(sk, it)]) after) in Hl as [-> ->].
    + split; [done|]. rewrite !fmap_app, <- !app_assoc. done.
    + rewrite Hin, Hi. by rewrite <- !app_assoc.
    + right. exists (before ++ b), sk, it. by rewrite app_assoc.
Qed.

Lemma queryItems_all n table pk w w' l :
  queryItems n table pk w = (w', Ok l) → contents w' = contents w ∧ l = (items_of (contents w) table pk).*2.
Proof. intros E. by apply (query_loop_all n table pk ∅ [] w w' l [] (items_of (contents w) table pk)) in E; [|done|left]. Qed.

(** With more pages than items the bound is never met: an error is one of DynamoDB. *)
Lemma query_loop_enough n table pk start items w w' e before this :
  query_loop n table pk start items w = (w', Err e) → items_of (contents w) table pk = before ++ this → before_start pk start before →
  (List.length this < n)%nat → ∃ w1 q w2 err, Query w1 q = (w2, Err err) ∧ e = backendError (sdk_err err).
Proof.
  revert start items w before this. induction n as [|n IH]; intros start items w before this; [lia|]. cbn [query_loop].
  destruct (Query w (page_query table pk start)) as [w1 out] eqn:E. intros Hl Hi Hb Hn.
  destruct (Query_law _ _ pk _ _ E eq_refl eq_refl) as [Hin Hp]. apply Hq in Hin.
  destruct out as [[more last]|err]; [|simplify_eq; eauto 10]. destruct (Hp _ _ eq_refl) as (b1 & th & after & Es & -> & Hb1 & Ha).
  cbn [q_TableName page_query q_ExclusiveStartKey] in *. rewrite Hin, Hi in Es.
  pose proof (items_of_keys (contents w) table pk) as Hnd. rewrite Hi in Hnd.
  destruct (before_start_unique pk start before this b1 (th ++ after) Hnd Es Hb Hb1) as [<- ->].
  case_bool_decide as Hlast; [done|]. destruct Ha as [[_ ?]|(b & sk & it & -> & ->)]; [done|].
  eapply (IH _ _ _ (before ++ b ++ [(sk, it)]) after) in Hl; [done| | |].
  - rewrite Hin, Hi. by rewrite <- !app_assoc.
  - right. exists (before ++ b), sk, it. by rewrite app_assoc.
  - rewrite !length_app in Hn. cbn in Hn. lia.
Qed.
Lemma queryItems_enough n table pk w w' e : queryItems n table pk w = (w', Err e) → (List.length (items_of (contents w) table pk) < n)%nat →
  ∃ w1 q w2 err, Query w1 q = (w2, Err err) ∧ e = backendError (sdk_err err).
Proof. intros E Hn. by apply (query_loop_enough n table pk ∅ [] w w' e [] (items_of (contents w) table pk)) in E; [|done|left|]. Qed.

Lemma reading_items s pages t scope pk items : reading (λ w, contents w = t) s pages scope pk items →
  ∃ table, attachmentTable s scope = Ok table ∧ items = (items_of t table pk).*2.
Proof. intros (table & w1 & w2 & <- & Ht & E). exists table. split; [done|]. by apply queryItems_all in E as [_ ->]. Qed.

Lemma items_of_elem t table pk it : it ∈ (items_of t table pk).*2 ↔ ∃ sk, t !! (table, pk, sk) = Some it.
Proof.
  rewrite list_elem_of_fmap. split.
  - intros ([sk it'] & -> & Hin). exists sk. by apply items_of_spec.
  - intros [sk Hs]. exists (sk, it). split; [done|]. by apply items_of_spec.
Qed.

Lemma fetched_stored s t ref p : fetched (λ w, contents w = t) s ref p →
  policy_ref p = ref ∧ ∃ item, decodePolicy s item = Ok p ∧
    t !! (PolicyTable s, policy_pk (pol_OwnerAccountID p), policy_sk (pol_ID p)) = Some item.
Proof.
  intros (Hr & item & w1 & w2 & req & resp & un & Hd & <- & Eb & Hin). split; [done|]. exists item. split; [done|].
  destruct (Batch_law _ _ _ _ Eb) as [Hi Hb]. destruct (Hb _ _ eq_refl _ _ Hin) as (pk & sk & _ & Hs).
  pose proof (contents_keys _ _ _ _ _ Hs) as Hk. apply Hq in Hi. rewrite Hi in Hs.
  apply decodePolicy_ok in Hd as (_ & _ & Hk'). rewrite Hk in Hk'. by simplify_eq.
Qed.
End quietly.
