(* ===== verification/AuthzStoreTheorems.v ===== *)
(** * Instances to try the authorization model on, and the theorems of its store

    A JSON codec that keeps records apart, and a Cedar engine whose policies are
    their texts: a policy that starts with [permit] permits everything, one that
    starts with [forbid] forbids everything, and one that starts with [error] fails
    to evaluate. *)
From S2P Require Import Prelude GoStrings AwsArn AuthzModel Arn Template Dynamo AuthzStore AuthzStoreProps.
From stdpp Require Import base gmap strings list fin_maps.
From Stdlib Require Import ZArith Lia Ascii String.
Open Scope string_scope.
Open Scope list_scope.

(** ** The codec *)

(** A text with every byte marked by a dot, and a closing semicolon. *)
Fixpoint enc_string (s : string) (rest : string) : string :=
  match s with
  | "" => String ";" rest
  | String a s => String "." (String a (enc_string s rest))
  end.

Fixpoint dec_string (s : string) : option (string * string) :=
  match s with
  | String m rest =>
      if Ascii.eqb m ";" then Some ("", rest)
      else match rest with
           | String a rest => match dec_string rest with Some (t, rest) => Some (String a t, rest) | None => None end
           | "" => None
           end
  | "" => None
  end.

Definition enc_all (l : list string) : string := fold_right enc_string "" l.

Fixpoint dec_all (n : nat) (s : string) : option (list string) :=
  match n with
  | O => if String.eqb s "" then Some [] else None
  | S n => match dec_string s with
           | Some (t, rest) => match dec_all n rest with Some l => Some (t :: l) | None => None end
           | None => None
           end
  end.

Lemma dec_enc_string s rest : dec_string (enc_string s rest) = Some (s, rest).
Proof. induction s as [|a s IH]; cbn; [done|]. by rewrite IH. Qed.

Lemma dec_enc_all l : dec_all (List.length l) (enc_all l) = Some l.
Proof. induction l as [|s l IH]; [done|]. change (enc_all (s :: l)) with (enc_string s (enc_all l)).
  cbn [dec_all List.length]. by rewrite dec_enc_string, IH. Qed.

Definition tagged_codec : RecordCodec.
Proof.
  refine {|
    marshal_policy p := enc_all [pol_ID p; pol_OwnerAccountID p; pol_Content p; pol_Revision p; pol_Kind p];
    unmarshal_policy s := match dec_all 5 s with
                          | Some [i; o; c; r; k] => Some (mkPolicy i o c r k)
                          | _ => None
                          end;
    marshal_attachment a := enc_all [ref_ID (att_Policy a); ref_Kind (att_Policy a); att_PrincipalARN a; att_Scope a;
                                     att_ID a; att_OwnerAccountID a; att_Region a; att_Revision a];
    unmarshal_attachment s := match dec_all 8 s with
                              | Some [pi; pk; arn; sc; i; o; g; r] => Some (mkAttachment (mkSpec (mkRef pi pk) arn sc) i o g r)
                              | _ => None
                              end;
    utf8_valid s := true
  |}.
  - done.
  - intros p _. pose proof (dec_enc_all [pol_ID p; pol_OwnerAccountID p; pol_Content p; pol_Revision p; pol_Kind p]) as E.
    cbn [List.length] in E. rewrite E. by destruct p.
  - intros a _. pose proof (dec_enc_all [ref_ID (att_Policy a); ref_Kind (att_Policy a); att_PrincipalARN a; att_Scope a;
                                      att_ID a; att_OwnerAccountID a; att_Region a; att_Revision a]) as E.
    cbn [List.length] in E. rewrite E. by destruct a as [[[] ? ?] ? ? ? ?].
Defined.

(** ** The engine *)

Definition text_engine : CedarEngine := {|
  CPolicy := string;
  NewPolicyListFromBytes id content := if String.eqb content "" then Ok [] else Ok [content];
  validate_Policy id p := None;
  validate_Entities entities := None;
  validate_Request req := None;
  model_Actions := ∅;
  PrincipalEq p u := p;
  PrincipalIn p u := p;
  cedar_Authorize set entities req :=
    let ids prefix := (map_to_list (filter (λ '(_, p), HasPrefix p prefix = true) set)).*1 in
    (negb (Nat.eqb (List.length (ids "permit")) 0) && Nat.eqb (List.length (ids "forbid")) 0,
     if Nat.eqb (List.length (ids "forbid")) 0 then ids "permit" else ids "forbid",
     (λ id, mkDiagnosticError id "failed") <$> ids "error")
|}.

(** * The theorems of the authorization store

    The invariant of the two records of an attachment under every operation of every
    store, what [Resolve] returns for any backend and for a quiet one, writes that
    read back, and the rule that global records are written in one region only. *)
From stdpp Require Import base gmap strings list fin_maps relations.
From Stdlib Require Import ZArith Lia Ascii String.
Open Scope string_scope.
Open Scope list_scope.

(** The operations that write, with their arguments. *)
Inductive StoreOp :=
| OpCreatePolicy (id content : string)
| OpUpdatePolicy (id revision content : string)
| OpDeletePolicy (id revision : string)
| OpCreateAttachment (spec : AttachmentSpec)
| OpUpdateAttachment (scope : AttachmentScope) (id expected : string) (policy : PolicyRef)
| OpDeleteAttachment (scope : AttachmentScope) (id expected : string)
| OpPublish (table id content : string).

(** Whether the operation changes global records of the account. *)
Definition global_op (op : StoreOp) : bool :=
  match op with
  | OpCreatePolicy _ _ | OpUpdatePolicy _ _ _ | OpDeletePolicy _ _ => true
  | OpCreateAttachment spec => String.eqb (Scope spec) GlobalScope
  | OpUpdateAttachment scope _ _ _ | OpDeleteAttachment scope _ _ => String.eqb scope GlobalScope
  | OpPublish _ _ _ => false
  end.

Section theorems.
Context `{B : Backend, ArnParser, CedarEngine, UnicodeTables, RecordCodec}.

Definition discard {A} (m : M A) : M unit := _ ← m; mret tt.

Definition run_op (s : StoreConfig) (op : StoreOp) : M unit :=
  match op with
  | OpCreatePolicy id content => discard (CreatePolicy s id content)
  | OpUpdatePolicy id revision content => discard (UpdatePolicy s id revision content)
  | OpDeletePolicy id revision => DeletePolicy s id revision
  | OpCreateAttachment spec => discard (CreateAttachment s spec)
  | OpUpdateAttachment scope id expected policy => discard (UpdateAttachment s scope id expected policy)
  | OpDeleteAttachment scope id expected => DeleteAttachment s scope id expected
  | OpPublish table id content => discard (PublishManagedPolicy table id content)
  end.

(** A sequence of operations of several stores; failed ones are part of it. *)
Definition run_ops (ops : list (StoreConfig * StoreOp)) (w : World) : World :=
  fold_left (λ w so, (run_op so.1 so.2 w).1) ops w.

Definition usable_account (s : StoreConfig) : Prop := accountPattern (AccountID s) = true.

(** *** The index *)

Context {L : BackendLaws}.

Lemma tmoves_discard {A} R (m : M A) : tmoves R m → tmoves R (discard m).
Proof. intros Hm. apply tmoves_bind; [done|]. intros; apply tmoves_ret. Qed.

(** The accounts whose records an operation may write. *)
Definition writes_of (s : StoreConfig) (op : StoreOp) (a : string) : Prop :=
  match op with OpPublish _ _ _ => a = managedOwner | _ => a = AccountID s end.

Lemma run_op_moves s op : usable_account s → tmoves (step (writes_of s op)) (run_op s op).
Proof.
  intros Ha. destruct op; cbn [run_op]; try apply tmoves_discard.
  - by apply tmoves_writePolicy.
  - apply tmoves_bind; [auto with tmoves|]. intros. by apply tmoves_writePolicy.
  - by apply tmoves_DeletePolicy.
  - by apply tmoves_CreateAttachment.
  - by apply tmoves_UpdateAttachment.
  - by apply tmoves_DeleteAttachment.
  - by apply tmoves_Publish.
Qed.

Lemma steps_index own t t' : (∀ t t', interfere t t' → index_ok t → index_ok t') → rtc (step own) t t' → index_ok t → index_ok t'.
Proof.
  intros Hi Hr. induction Hr as [|t t1 t2 [Hin|(ws & Hc & Hw & ->)] Hr IH]; [done| |]; intros Hok; apply IH; [by eapply Hi|].
  by eapply commits_index.
Qed.

Lemma run_ops_index ops w :
  (∀ t t', interfere t t' → index_ok t → index_ok t') →
  Forall (λ so, usable_account so.1) ops → index_ok (contents w) → index_ok (contents (run_ops ops w)).
Proof.
  intros Hi Hops. revert w. induction Hops as [|[s op] ops Ha Hops IH]; intros w Hok; [done|].
  unfold run_ops. cbn [fold_left fst snd]. apply IH. destruct (run_op s op w) as [w1 r] eqn:E.
  eapply steps_index; [done|by eapply run_op_moves|done].
Qed.

(** C14: whatever sequence of operations stores of any accounts run, failing or not,
    and whatever other clients do in between that keeps the two records of every
    attachment together, every attachment's record under its account and its one
    record under the lookup key of its principal stay equal: neither is ever
    written or deleted alone. *)
Theorem index_invariant ops w :
  (∀ t t', interfere t t' → index_ok t → index_ok t') →
  Forall (λ so, usable_account so.1) ops →
  index_ok (contents w) → index_ok (contents (run_ops ops w)).
Proof. apply run_ops_index. Qed.

(** *** Resolution *)

Lemma caller_key_lookup id caller pk : checkedIdentity id = Ok caller → pk ∈ caller_keys caller →
  ∃ q, account q = account caller ∧ principalKey q = pk.
Proof.
  intros _ [->|Hin]%elem_of_cons; [by exists caller|].
  destruct (String.eqb (kind caller) "assumed-role"); [|by apply not_elem_of_nil in Hin].
  apply list_elem_of_singleton in Hin as ->.
  exists (mkPrincipal (Arn.partition caller) (account caller) "role" (roleName caller) ""). done.
Qed.

Lemma matched_key id caller p v : checkedIdentity id = Ok caller → parsePrincipal v = Ok p → account p = account caller →
  matchesPrincipal p caller = true → principalKey p ∈ caller_keys caller.
Proof.
  intros (Hc & _ & _)%checkedIdentity_ok Hp Ha Hm.
  pose proof (parsePrincipal_ok _ _ Hp) as Op. pose proof (parsePrincipal_ok _ _ Hc) as Oc.
  unfold matchesPrincipal in Hm. apply orb_true_iff in Hm as [Ho|Hm].
  - apply String.eqb_eq in Ho. rewrite (po_original _ _ Op), (po_original _ _ Oc) in Ho. subst v. rewrite Hc in Hp. simplify_eq. by left.
  - split_bool. rewrite !String.eqb_eq in *. unfold caller_keys. apply elem_of_cons. right.
    rewrite (proj2 (String.eqb_eq (kind caller) "assumed-role")) by done. apply list_elem_of_singleton.
    unfold principalKey, roleKey. rewrite (proj2 (String.eqb_eq (kind p) "role")) by done. congruence.
Qed.

Lemma decode_attachment_item pk b b' rev : unmarshal_attachment (marshal_attachment b) = Some b →
  decodeItem unmarshal_attachment (attachment_item pk b) = Ok (b', rev) → b' = b.
Proof.
  intros Hr. unfold decodeItem.
  change (attachment_item pk b !! "record") with (Some (AV_S (marshal_attachment b))).
  change (attachment_item pk b !! "revision") with (Some (AV_S (att_Revision b))). cbv beta iota.
  case_match; [done|]. rewrite Hr. by intros [= <- <-].
Qed.

(** The attachments of the account's partition that match the caller. *)
Definition granted (s : StoreConfig) (caller : principalARN) (t : Tables) (b : StoredAttachment) : Prop :=
  ∃ table it p, att_Scope b ∈ [GlobalScope; RegionalScope] ∧ attachmentTable s (att_Scope b) = Ok table ∧
    t !! (table, account_pk (AccountID s), attachment_sk (att_ID b)) = Some it ∧
    decodeItem unmarshal_attachment it = Ok (b, att_Revision b) ∧
    parsePrincipal (att_PrincipalARN b) = Ok p ∧ matchesPrincipal p caller = true.

Definition stored_policy (s : StoreConfig) (t : Tables) (p : StoredPolicy) : Prop :=
  ∃ item, decodePolicy s item = Ok p ∧
    t !! (PolicyTable s, policy_pk (pol_OwnerAccountID p), policy_sk (pol_ID p)) = Some item.

Lemma covered_granted s pages t id caller bs :
  quiet → (∃ w, contents w = t) → index_ok t → checkedIdentity id = Ok caller → account caller = AccountID s →
  Forall (matched caller) bs →
  covered (λ w, contents w = t) s pages (pairs_of [GlobalScope; RegionalScope] (caller_keys caller)) bs →
  ∀ b, b ∈ bs ↔ granted s caller t b.
Proof.
  intros Hq [w0 Hw0] Hok Hc Ha Hm [Hsrc Hall] b.
  assert (accountPattern (AccountID s) = true) as Hacc.
  { rewrite <- Ha. apply checkedIdentity_ok in Hc as (Hc & _). by apply parsePrincipal_ok in Hc as []. }
  split.
  - intros Hb. destruct (Hsrc b Hb) as (scope & pk & items & it & Hpair & Hr & Hit & Hrb).
    apply elem_of_pairs in Hpair as [Hs Hk]. destruct (reading_items Hq _ _ _ _ _ _ Hr) as (table & Ht & ->).
    apply items_of_elem in Hit as [sk Hsk]. apply read_binding_ok in Hrb as (Hd & Hsc & Hcb & Hkey & _).
    rewrite <- Hw0 in Hsk. pose proof (contents_keys _ _ _ _ _ Hsk) as Hkey'. rewrite Hkey in Hkey'. simplify_eq.
    destruct (caller_key_lookup id caller pk Hc Hk) as (q & Hqa & <-). rewrite Ha in Hqa.
    pose proof (Hok table (AccountID s) (att_ID b) Hacc) as Hix. unfold index_at in Hix.
    rewrite Forall_forall in Hm. destruct (Hm b Hb) as (p & Hp & Hmp).
    destruct (contents w0 !! (table, account_pk (AccountID s), attachment_sk (att_ID b))) as [it0|] eqn:E0;
      [|by rewrite (Hix q Hqa) in Hsk].
    destruct Hix as (b0 & p0 & -> & _ & _ & Hrt & _ & _ & Hl). rewrite (Hl q Hqa) in Hsk. case_bool_decide; [|done]. simplify_eq.
    pose proof Hd as Hd'. apply decode_attachment_item in Hd' as ->; [|done].
    by exists table, (attachment_item (account_pk (AccountID s)) b0), p.
  - intros (table & it & p & Hs & Ht & Hl & Hd & Hp & Hmp).
    pose proof (Hok table (AccountID s) (att_ID b) Hacc) as Hix. unfold index_at in Hix. rewrite Hl in Hix.
    destruct Hix as (b0 & p0 & -> & Hid & _ & Hrt & Hp0 & Hp0a & Hlk).
    apply decode_attachment_item in Hd as <-; [|done]. rewrite Hp in Hp0. simplify_eq.
    assert ((att_Scope b, principalKey p0) ∈ pairs_of [GlobalScope; RegionalScope] (caller_keys caller)) as Hpair.
    { apply elem_of_pairs. split; [done|]. eapply matched_key; [done|done|by rewrite Ha|done]. }
    destruct (Hall _ _ Hpair) as (items & Hr & Hits). destruct (reading_items Hq _ _ _ _ _ _ Hr) as (table' & Ht' & ->).
    rewrite Ht in Ht'. simplify_eq. specialize (Hlk p0 Hp0a). rewrite bool_decide_eq_true_2 in Hlk by done.
    destruct (Hits (attachment_item (principalKey p0) b)) as (b' & Hb' & Hrb); [apply items_of_elem; eauto|].
    apply read_binding_ok in Hrb as (Hd & _). by apply decode_attachment_item in Hd as <-.
Qed.

Lemma Resolve_granted s pages id w w' rs caller :
  quiet → index_ok (contents w) → checkedIdentity id = Ok caller → Resolve s pages id w = (w', Ok rs) →
  ∀ b, b ∈ r_Attachment <$> rs ↔ granted s caller (contents w) b.
Proof.
  intros Hq Hok Hc E. apply (resolveScopes_ok (λ w', contents w' = contents w)) in E as (Hw & caller' & Hc' & Ha & _ & Hm & _ & Hcov & _);
    [|by apply quiet_read_inv|done]. rewrite Hc in Hc'. simplify_eq. eapply covered_granted; eauto.
Qed.

(** C18: on tables no other client writes to meanwhile, with the two records of every
    attachment together, a [Resolve] that answers has returned, each once, exactly
    the attachments of the account whose principal matches the caller, global and
    regional, as their records under the account say, each with the policy that is
    stored under its reference: the lookup by principal misses nothing. *)
Theorem Resolve_complete s pages id w w' rs caller :
  quiet → index_ok (contents w) → checkedIdentity id = Ok caller →
  Resolve s pages id w = (w', Ok rs) →
  contents w' = contents w ∧ NoDup (r_Attachment <$> rs) ∧
  (∀ b, b ∈ r_Attachment <$> rs ↔ granted s caller (contents w) b) ∧
  ∀ r, r ∈ rs → policy_ref (r_Policy r) = att_Policy (r_Attachment r) ∧ stored_policy s (contents w) (r_Policy r).
Proof.
  intros Hq Hok Hc E. pose proof (Resolve_granted s pages id w w' rs caller Hq Hok Hc E) as Hgr.
  apply (resolveScopes_ok (λ w', contents w' = contents w)) in E as (Hw & caller' & Hc' & Ha & _ & Hm & Hnd & Hcov & Hf);
    [|by apply quiet_read_inv|done]. rewrite Hc in Hc'. simplify_eq.
  split; [done|]. split; [by apply NoDup_fmap_1 in Hnd|]. split.
  - done.
  - intros r Hr. rewrite Forall_forall in Hf. apply Hf in Hr. by apply fetched_stored in Hr.
Qed.

(** *** Isolation of accounts *)

(** The keys of an account's records: policies and attachments under the account
    (the catalog's policies are under [MANAGED]), and lookup records. *)
Definition of_account (a : string) (k : string * string * string) : Prop :=
  k.1.2 = account_pk a ∨ accountPattern a = true ∧ ∃ q, account q = a ∧ k.1.2 = principalKey q.

Definition owner_ok (a : string) : Prop := accountPattern a = true ∨ a = managedOwner.

Lemma owner_principal a q : owner_ok a → accountPattern (account q) = true → account_pk a ≠ principalKey q.
Proof.
  intros [Ha| ->] Hq; [by apply account_pk_principal|]. apply accountPattern_spec in Hq as [Hq _].
  destruct (principalKey_form q) as [x ->]. unfold account_pk. intros E%str_app_inj_l.
  apply (f_equal String.length) in E. rewrite !str_length_app in E. cbn in E. lia.
Qed.

Lemma commits_foreign own t ws a k :
  commits own ws → (∀ o, own o → owner_ok o) → owner_ok a → ¬ own a → of_account a k → writes_apply t ws !! k = t !! k.
Proof.
  intros Hc Hown Ha Hna Hk.
  assert (∀ table o sk, own o → (table, account_pk o, sk) ≠ k) as Hacc.
  { intros table o sk Ho <-. destruct Hk as [E|(Haa & q & Hq & E)]; cbn in E.
    - apply account_pk_inj in E as ->. done.
    - apply owner_principal in E; [done|by apply Hown|by rewrite Hq]. }
  assert (∀ table p sk, own (account p) → accountPattern (account p) = true → (table, principalKey p, sk) ≠ k) as Hpr.
  { intros table p sk Ho Hp <-. destruct Hk as [E|(Haa & q & Hq & E)]; cbn in E.
    - symmetry in E. by apply owner_principal in E.
    - apply principalKey_account in E; [|done|by rewrite Hq]. rewrite E, Hq in Ho. done. }
  destruct Hc as [table p c vs Ho|table owner id c vs Ho|s table b p e policy Ho Hs Hc Hp|s table id e p Ho Hs Hp Hr].
  - cbn. unfold write_apply, write_key. rewrite policy_item_key. apply tables_insert_ne. by apply Hacc.
  - cbn. unfold write_apply, write_key. rewrite key_of_storeKey. apply tables_delete_ne. by apply Hacc.
  - rewrite attachment_writes_apply. unfold put_pair. pose proof (checkAttachment_account _ _ _ Hc Hp) as Hpa.
    rewrite !tables_insert_ne; [done|by apply Hacc|by apply Hpr; rewrite Hpa].
  - rewrite delete_writes_apply. rewrite !tables_delete_ne; [done|by apply Hacc|by apply Hpr; rewrite Hp].
Qed.

(** accounts are isolated: on a quiet backend no operation of an account's store
    changes any policy, attachment or lookup record of another account, and none but
    the publication of a managed policy changes the managed catalog. *)
Theorem account_isolation s op w a k :
  quiet → usable_account s → owner_ok a → ¬ writes_of s op a → of_account a k →
  contents (run_op s op w).1 !! k = contents w !! k.
Proof.
  intros Hq Hs Ha Hna Hk. destruct (run_op s op w) as [w' r] eqn:E. apply run_op_moves in E; [|done]. cbn.
  assert (∀ o, writes_of s op o → owner_ok o) as Hown.
  { intros o Ho. destruct op; cbn in Ho; subst o; (by left) || by right. }
  induction E as [|t t1 t2 Hst Hr IH]; [done|]. rewrite IH.
  destruct Hst as [->%Hq|(ws & Hc & _ & ->)]; [done|]. by eapply commits_foreign.
Qed.

(** *** Writes *)

Definition policy_key (s : StoreConfig) (p : StoredPolicy) : string * string * string :=
  (PolicyTable s, policy_pk (pol_OwnerAccountID p), policy_sk (pol_ID p)).

Lemma newUUID_ok w w' u : newUUID w = (w', Ok u) → contents w' = contents w ∧ isRevision u = true.
Proof.
  unfold newUUID. destruct (NewString w) as [w1 x] eqn:E. intros [= <- <-]. apply NewString_law in E as (-> & Hv & Hn).
  split; [done|]. unfold isRevision. rewrite Hv. by rewrite (proj2 (String.eqb_neq _ _) Hn).
Qed.

Lemma call_write_ok call ws w w' :
  (∀ w w' r, call w = (w', r) → ∃ t, interfere (contents w) t ∧ write_outcome condition t (contents w') ws r) →
  call_write call w = (w', Ok tt) →
  ∃ t, interfere (contents w) t ∧ writes_ok condition t ws = true ∧ contents w' = writes_apply t ws.
Proof.
  intros Hc. unfold call_write. destruct (call w) as [w1 [e|]] eqn:E; [done|]. intros [= <-].
  apply Hc in E as (t & Hi & [[Ho ->]|[? _]]); [|done]. eauto.
Qed.

Lemma writePolicy_ok s id e content w w' p : writePolicy s id e content w = (w', Ok p) →
  Region s = WriterRegion s ∧ isStoreID id = true ∧ checkContent content id = Ok tt ∧ isRevision (pol_Revision p) = true ∧
  p = mkPolicy id (AccountID s) content (pol_Revision p) CustomPolicy ∧
  ∃ t, interfere (contents w) t ∧ expects e (t !! policy_key s p) ∧ contents w' = <[policy_key s p := policy_item p]> t.
Proof.
  unfold writePolicy, requireWriter. intros E.
  apply M_bind_ok in E as (w1 & [] & [-> Hr]%guard_ok & E). apply M_bind_ok in E as (w1 & [] & [-> Hi]%guard_ok & E).
  apply M_bind_ok in E as (w1 & [] & [-> Hc]%lift_ok & E). apply M_bind_ok in E as (w1 & rev & [Hw Hrev]%newUUID_ok & E).
  destruct (condition_of e) as [c vs] eqn:Ec.
  apply M_bind_ok in E as (w2 & [] & E & [-> <-]%mret_ok). split_bool.
  eapply call_write_ok in E as (t & Hin & Ho & Hw'); [|intros; by apply PutItem_law].
  split; [by apply String.eqb_eq|]. repeat (split; [done|]). exists t. rewrite <- Hw. split; [done|].
  unfold writes_ok in Ho. cbn [forallb] in Ho. rewrite andb_true_r in Ho. unfold write_ok, write_key in Ho.
  rewrite policy_item_key in Ho. cbn [fmap option_fmap option_map fst snd] in Ho.
  split; [|exact Hw'].
  assert (c = (condition_of e).1 ∧ vs = (condition_of e).2) as [-> ->] by (by rewrite Ec). by apply condition_of_spec in Ho.
Qed.

(** an [UpdatePolicy] that succeeds ran in the writer region on content that
    parses and validates, found the expected revision in the stored record when it
    committed, and replaced that record and no other item by the new content under
    a new revision: of two updates that expect the same revision, the later one
    fails. *)
Theorem UpdatePolicy_cas s id e content w w' p :
  UpdatePolicy s id e content w = (w', Ok p) →
  Region s = WriterRegion s ∧ checkContent content id = Ok tt ∧ isRevision (pol_Revision p) = true ∧
  p = mkPolicy id (AccountID s) content (pol_Revision p) CustomPolicy ∧
  ∃ t, interfere (contents w) t ∧ t !! policy_key s p ≫= lookup "revision" = Some (AV_S e) ∧
       contents w' = <[policy_key s p := policy_item p]> t.
Proof.
  unfold UpdatePolicy. intros E. apply M_bind_ok in E as (w1 & [] & [-> Hr]%guard_ok & E). apply negb_false_iff in Hr.
  apply writePolicy_ok in E as (Hreg & _ & Hc & Hrev & Hp & t & Hi & He & Hw). repeat (split; [done|]).
  exists t. split; [done|]. split; [|done]. unfold expects in He.
  destruct (String.eqb_spec e "") as [->|]; [|done]. unfold isRevision in Hr. by rewrite uuid_Validate_empty in Hr.
Qed.

Lemma readItem_quiet table pk sk w w' r it : quiet → contents w !! (table, pk, sk) = Some it →
  readItem table pk sk w = (w', r) → contents w' = contents w ∧ (r = Ok it ∨ ∃ e, r = Err e ∧ errors_Is e ErrUnavailable = true).
Proof.
  intros Hq Hl. unfold readItem. destruct (GetItem w table (storeKey pk sk)) as [w1 out] eqn:E. intros [= <- <-].
  pose proof (contents_keys _ _ _ _ _ Hl) as Hk.
  apply GetItem_law in E as [Hi Hg]. apply Hq in Hi. split; [done|]. destruct out as [x|e]; [|right; by eexists].
  left. rewrite (Hg x eq_refl), Hi, Hl. cbn. rewrite bool_decide_eq_false_2 by (intros ->; done).
  apply matchesStoreKey_key in Hk. by rewrite Hk.
Qed.

(** what [CreatePolicy] or [UpdatePolicy] wrote reads back: on a quiet backend the
    next [GetPolicy] of the reference returns the very policy the write returned, or
    reports that the backend is unavailable. *)
Theorem policy_write_read s id e content w w' p w'' r :
  quiet → usable_account s → utf8_valid content = true →
  writePolicy s id e content w = (w', Ok p) → GetPolicy s (policy_ref p) w' = (w'', r) →
  r = Ok p ∨ ∃ err, r = Err err ∧ errors_Is err ErrUnavailable = true.
Proof.
  intros Hq Ha Hu (_ & Hi & _ & Hrev & Hp & t & _ & _ & Hw)%writePolicy_ok. unfold GetPolicy.
  assert (policyOwner s (policy_ref p) = Ok (pol_OwnerAccountID p)) as Ho.
  { rewrite Hp. unfold policyOwner. cbn. by rewrite Hi. }
  rewrite Ho. intros E.
  assert (contents w' !! policy_key s p = Some (policy_item p)) as Hl by (rewrite Hw; apply tables_insert_eq).
  apply M_bind_inv in E as [(w1 & o & [-> [= <-]]%lift_ok & E)|(x & [= ] & _)].
  apply M_bind_inv in E as [(w2 & it & E1 & E)|(x & E1 & ->)].
  - eapply readItem_quiet in E1 as [_ [[= Hit]|(? & [= ] & _)]]; [|done|exact Hl]. subst it.
    unfold lift in E. injection E as <- <-. left. apply decodePolicy_ok. split; [|by split; [|apply policy_item_key]].
    unfold decodeItem. change (policy_item p !! "record") with (Some (AV_S (marshal_policy p))).
    change (policy_item p !! "revision") with (Some (AV_S (pol_Revision p))). cbv beta iota. rewrite Hrev. cbn [negb].
    rewrite policy_roundtrip; [done|]. unfold isRevision in Hrev. apply andb_true_iff in Hrev as [_ Hrev].
    rewrite Hp. cbn. repeat constructor; try done; apply utf8_ascii; [by apply isStoreID_ascii|by apply accountPattern_ascii|by apply uuid_Validate_ascii|done].
  - eapply readItem_quiet in E1 as [_ [[= ]|(e' & [= ->] & He')]]; [|done|exact Hl]. right. by exists e'.
Qed.

Lemma writeAttachment_ok s b0 e w w' b : writeAttachment s b0 e w = (w', Ok b) →
  b = b0 ∧ (att_Scope b = GlobalScope → Region s = WriterRegion s) ∧ checkAttachment s b = Ok tt ∧
  ∃ table p policy w1 w2 t, attachmentTable s (att_Scope b) = Ok table ∧ parsePrincipal (att_PrincipalARN b) = Ok p ∧
    GetPolicy s (att_Policy b) w1 = (w2, Ok policy) ∧ checkContent (pol_Content policy) (pol_ID policy) = Ok tt ∧
    rtc (step (eq (AccountID s))) (contents w) t ∧
    expects e (t !! (table, account_pk (AccountID s), attachment_sk (att_ID b))) ∧
    expects e (t !! (table, principalKey p, attachment_sk (att_ID b))) ∧
    t !! policy_key s policy ≫= lookup "revision" = Some (AV_S (pol_Revision policy)) ∧
    contents w' = put_pair table (attachment_sk (att_ID b)) b (account_pk (AccountID s)) (principalKey p) t.
Proof.
  unfold writeAttachment. intros E. apply M_bind_ok in E as (w1 & table & [-> Ht]%lift_ok & E).
  apply M_bind_ok in E as (w1 & [] & Eg & E).
  assert (w1 = w ∧ (att_Scope b0 = GlobalScope → Region s = WriterRegion s)) as [-> Hg].
  { destruct (String.eqb_spec (att_Scope b0) GlobalScope); [|apply mret_ok in Eg as [-> _]; split; [done|congruence]].
    unfold requireWriter in Eg. apply guard_ok in Eg as [-> Hr]. apply negb_false_iff, String.eqb_eq in Hr. done. }
  apply M_bind_ok in E as (w1 & [] & [-> Hc]%wrapping_ok%lift_ok & E).
  apply M_bind_ok in E as (w2 & policy & Ep & E). apply M_bind_ok in E as (w3 & [] & [-> Hcc]%lift_ok & E).
  apply M_bind_ok in E as (w3 & p & [-> Hp]%lift_ok & E). destruct (condition_of e) as [c vs] eqn:Ec.
  apply M_bind_ok in E as (w3 & [] & E & [-> <-]%mret_ok).
  eapply call_write_ok in E as (t & Hin & Ho & Hw'); [|intros; by apply Transact_law].
  assert (c = (condition_of e).1 ∧ vs = (condition_of e).2) as [-> ->] by (by rewrite Ec).
  apply attachment_writes_spec in Ho as (? & ? & ?). rewrite attachment_writes_apply in Hw'.
  split; [done|]. split; [done|]. split; [done|]. exists table, p, policy, w, w2, t. repeat (split; [done|]).
  split; [|done]. etrans; [by eapply tmoves_GetPolicy|]. by apply step_interfere.
Qed.

(** a [CreateAttachment] that succeeds put the new attachment under a new id and
    revision, its two records and nothing else, in one transaction that found neither
    record and found the referenced policy with the revision of the content it had
    checked just before; a global one ran in the writer region. *)
Theorem CreateAttachment_atomic s spec w w' b :
  CreateAttachment s spec w = (w', Ok b) →
  att_Spec b = spec ∧ (Scope spec = GlobalScope → Region s = WriterRegion s) ∧ checkAttachment s b = Ok tt ∧
  ∃ table p policy w1 w2 t, attachmentTable s (Scope spec) = Ok table ∧ parsePrincipal (PrincipalARN spec) = Ok p ∧
    GetPolicy s (spec_Policy spec) w1 = (w2, Ok policy) ∧ checkContent (pol_Content policy) (pol_ID policy) = Ok tt ∧
    t !! (table, account_pk (AccountID s), attachment_sk (att_ID b)) ≫= lookup "pk" = None ∧
    t !! (table, principalKey p, attachment_sk (att_ID b)) ≫= lookup "pk" = None ∧
    t !! policy_key s policy ≫= lookup "revision" = Some (AV_S (pol_Revision policy)) ∧
    contents w' = put_pair table (attachment_sk (att_ID b)) b (account_pk (AccountID s)) (principalKey p) t.
Proof.
  unfold CreateAttachment. intros E. apply M_bind_ok in E as (w1 & id & _ & E). apply M_bind_ok in E as (w2 & rev & _ & E).
  apply writeAttachment_ok in E as (-> & Hg & Hc & table & p & policy & w3 & w4 & t & ? & ? & ? & ? & _ & He1 & He2 & ? & ?).
  split; [done|]. split; [done|]. split; [done|]. exists table, p, policy, w3, w4, t. repeat (split; [done|]). done.
Qed.

(** *** Deletion *)

Lemma DeleteAttachment_ok s scope id e w w' : quiet → DeleteAttachment s scope id e w = (w', Ok tt) →
  ∃ table p, attachmentTable s scope = Ok table ∧ account p = AccountID s ∧
    contents w' = delete (table, principalKey p, attachment_sk id) (delete (table, account_pk (AccountID s), attachment_sk id) (contents w)).
Proof.
  intros Hq E. pose proof E as E0. unfold DeleteAttachment in E. apply M_bind_ok in E as (w1 & [] & Eg & E).
  assert (w1 = w) as ->.
  { destruct (String.eqb scope GlobalScope); [unfold requireWriter in Eg; by apply guard_ok in Eg as [-> _]|by apply mret_ok in Eg as [-> _]]. }
  apply M_bind_ok in E as (w1 & b & Eb & E). pose proof (returns_GetAttachment s scope id b ltac:(by exists w, w1)) as (Hc & Hid & Hs).
  assert (contents w1 = contents w) as Hw1.
  { unfold GetAttachment in Eb. apply M_bind_ok in Eb as (? & ? & [-> _]%lift_ok & Eb). apply M_bind_ok in Eb as (? & [] & [-> _]%guard_ok & Eb).
    apply M_bind_ok in Eb as (w2 & it & Er & Eb). unfold readItem in Er. destruct (GetItem w _ _) as [w3 out] eqn:Eg'. injection Er as -> Er.
    apply GetItem_law in Eg' as [Hi _]. apply Hq in Hi. rewrite <- Hi. f_equal.
    apply M_bind_ok in Eb as (? & [] & [-> _]%lift_ok & Eb). apply M_bind_ok in Eb as (? & [] & [-> _]%guard_ok & Eb).
    apply M_bind_ok in Eb as (? & [] & [-> _]%lift_ok & Eb). by apply mret_ok in Eb as [-> _]. }
  apply M_bind_ok in E as (w2 & [] & [-> Hg]%guard_ok & E). apply M_bind_ok in E as (w2 & table & [-> Ht]%lift_ok & E).
  apply M_bind_ok in E as (w2 & p & [-> Hp]%lift_ok & E).
  eapply call_write_ok in E as (t & Hin & _ & Hw'); [|intros; by apply Transact_law]. apply Hq in Hin as ->.
  rewrite delete_writes_apply, Hw1 in Hw'. exists table, p. split; [done|]. split; [|done]. by eapply checkAttachment_account.
Qed.

(** a deletion revokes at once: on a quiet backend with the two records of every
    attachment together, no [Resolve] after a successful [DeleteAttachment] returns
    the deleted attachment, for any caller. *)
Theorem deletion_revokes s pages scope id e w w1 who w2 rs :
  quiet → index_ok (contents w) → usable_account s →
  DeleteAttachment s scope id e w = (w1, Ok tt) → Resolve s pages who w1 = (w2, Ok rs) →
  ∀ r, r ∈ rs → ¬ (att_Scope (r_Attachment r) = scope ∧ att_ID (r_Attachment r) = id).
Proof.
  intros Hq Hok Ha Hd Hr r Hin [Hs Hid].
  assert (index_ok (contents w1)) as Hok1.
  { eapply (steps_index (eq (AccountID s))); [|by eapply tmoves_DeleteAttachment|done]. by intros t t' ->%Hq. }
  assert (∃ caller, checkedIdentity who = Ok caller) as [caller Hc].
  { unfold Resolve, resolveScopes in Hr. apply M_bind_ok in Hr as (? & caller & [_ ?]%lift_ok & _). eauto. }
  pose proof (Resolve_granted s pages who w1 w2 rs caller Hq Hok1 Hc Hr) as Hgr.
  destruct (proj1 (Hgr (r_Attachment r))) as (table & it & p & _ & Ht & Hl & _); [by apply list_elem_of_fmap; eauto|].
  apply DeleteAttachment_ok in Hd as (table' & q & Ht' & Hq' & Hw); [|done].
  rewrite Hs, Ht' in Ht. simplify_eq. rewrite Hw in Hl.
  rewrite tables_delete_ne in Hl by (intros (_ & E & _)%key_inj; symmetry in E; by apply account_pk_principal in E; [|done|rewrite Hq']).
  by rewrite tables_delete_eq in Hl.
Qed.

(** *** The writer region *)

Lemma writePolicy_nonwriter s id e content w : Region s ≠ WriterRegion s →
  writePolicy s id e content w = (w, Err (ESentinel ErrWrongWriter)).
Proof. intros Hn%String.eqb_neq. unfold writePolicy, requireWriter, guard_err. by rewrite Hn. Qed.

Lemma writeAttachment_nonwriter s b e w : Region s ≠ WriterRegion s → att_Scope b = GlobalScope →
  writeAttachment s b e w = (w, Err (ESentinel ErrWrongWriter)).
Proof. intros Hn%String.eqb_neq Hs. unfold writeAttachment, requireWriter, guard_err. rewrite Hs. cbn. by rewrite Hn. Qed.

(** outside the account's writer region no operation on policies or on global
    attachments succeeds or writes anything: it ends with an error, and the tables
    are as other clients left them. *)
Theorem nonwriter_refused s op w w' r :
  Region s ≠ WriterRegion s → global_op op = true → run_op s op w = (w', r) →
  is_ok r = false ∧ rtc interfere (contents w) (contents w').
Proof.
  intros Hn Hg. destruct op as [id c|id rev c|id rev|spec|scope id e p|scope id e|tb id c]; cbn [global_op] in Hg; cbn [run_op]; try done.
  - unfold discard, CreatePolicy. intros [(? & ? & E & _)|(? & E & ->)]%M_bind_inv; rewrite writePolicy_nonwriter in E by done; by simplify_eq.
  - unfold discard, UpdatePolicy. intros [(? & ? & E & _)|(? & E & ->)]%M_bind_inv.
    + apply M_bind_ok in E as (? & [] & [-> _]%guard_ok & E). by rewrite writePolicy_nonwriter in E.
    + apply M_bind_inv in E as [(? & [] & [-> _]%guard_ok & E)|(? & E & [= ->])].
      * rewrite writePolicy_nonwriter in E by done. by simplify_eq.
      * split; [done|]. by eapply tmoves_guard.
  - unfold DeletePolicy, requireWriter, guard_err. rewrite (proj2 (String.eqb_neq _ _) Hn). by intros [= <- <-].
  - apply String.eqb_eq in Hg. unfold discard, CreateAttachment. intros [(? & ? & E & _)|(? & E & ->)]%M_bind_inv.
    + apply M_bind_ok in E as (? & ? & _ & E). apply M_bind_ok in E as (? & ? & _ & E). by rewrite writeAttachment_nonwriter in E.
    + split; [done|]. revert E. apply tmoves_bind; [apply reads_newUUID|]. intros u _.
      apply tmoves_bind; [apply reads_newUUID|]. intros v _ wa wb rr. rewrite writeAttachment_nonwriter by done. by intros [= <- _].
  - apply String.eqb_eq in Hg. unfold discard, UpdateAttachment. intros [(? & ? & E & _)|(? & E & ->)]%M_bind_inv.
    + apply M_bind_ok in E as (? & b & Eb & E). apply M_bind_ok in E as (? & ? & _ & E). apply M_bind_ok in E as (? & ? & _ & E).
      destruct (returns_GetAttachment s scope id b ltac:(by do 2 eexists)) as (_ & _ & Hs).
      by rewrite writeAttachment_nonwriter in E by (cbn; by rewrite ?Hs).
    + split; [done|]. revert E. apply tmoves_bind; [by apply reads_GetAttachment|]. intros b Hb%returns_GetAttachment.
      apply tmoves_bind; [apply tmoves_guard|]. intros ? _. apply tmoves_bind; [apply reads_newUUID|]. intros v _ wa wb rr.
      rewrite writeAttachment_nonwriter; [by intros [= <- _]|done|]. cbn. destruct Hb as (_ & _ & ->). done.
  - unfold DeleteAttachment, requireWriter, guard_err. rewrite Hg, (proj2 (String.eqb_neq _ _) Hn). by intros [= <- <-].
Qed.
End theorems.

(** *** Soundness, whatever the backend answers *)

Section sound.
Context `{B : Backend, ArnParser, CedarEngine, UnicodeTables, RecordCodec}.

(** whatever DynamoDB answers, every attachment a [Resolve] returns belongs to
    the caller's account, is checked, names a principal of the account that matches
    the caller (its own ARN, or the role of its session), is global or of the
    store's region, and comes with a policy of the account or of the managed catalog
    under the reference it names; an allowlisted identity is refused. *)
Theorem Resolve_sound s pages id w w' rs :
  Resolve s pages id w = (w', Ok rs) →
  ∃ caller, checkedIdentity id = Ok caller ∧ account caller = AccountID s ∧ IsAllowlisted id = false ∧
    ∀ r, r ∈ rs → let b := r_Attachment r in let p := r_Policy r in
      (∃ q, parsePrincipal (att_PrincipalARN b) = Ok q ∧ account q = AccountID s ∧ matchesPrincipal q caller = true) ∧
      att_OwnerAccountID b = AccountID s ∧
      (att_Scope b = GlobalScope ∧ att_Region b = "" ∨ att_Scope b = RegionalScope ∧ att_Region b = Region s) ∧
      policy_ref p = att_Policy b ∧
      (pol_Kind p = CustomPolicy ∧ pol_OwnerAccountID p = AccountID s ∨ pol_Kind p = ManagedPolicy ∧ pol_OwnerAccountID p = managedOwner).
Proof.
  intros E. apply (resolveScopes_ok (λ _, True)) in E as (_ & caller & Hc & Ha & Hal & Hm & _ & [Hsrc _] & Hf); [|by split|done].
  exists caller. repeat (split; [done|]). intros r Hr. cbv zeta.
  assert (r_Attachment r ∈ r_Attachment <$> rs) as Hb by (apply list_elem_of_fmap; eauto).
  destruct (Hsrc _ Hb) as (scope & pk & items & it & _ & _ & _ & Hrb). apply read_binding_ok in Hrb as (_ & _ & Hcb & _).
  apply checkAttachment_ok in Hcb as (q & Hp & _ & _ & Ho & Hqa & _ & Hs & Hreg).
  rewrite Forall_forall in Hm. rewrite Forall_forall in Hf. destruct (Hm _ Hb) as (q' & Hq' & Hmq). rewrite Hp in Hq'. simplify_eq.
  destruct (Hf _ Hr) as (Href & item & ? & ? & ? & ? & ? & Hd & _). apply decodePolicy_ok in Hd as (_ & Hown & _).
  apply policyOwner_kind in Hown as [_ Hk].
  split; [eauto|]. split; [done|]. split; [|by split].
  apply checkedScope_none in Hs as [[-> ->]|[Hs _]]; [by left|right]. split; [done|]. by apply Hreg.
Qed.
End sound.

(** ** Witnesses *)

Section witnesses.
#[local] Existing Instances arn_splitter text_engine ascii_only tagged_codec.

Definition acme : StoreConfig := mkStoreConfig "123456789012" "us-east-1" "us-east-1" "policies" "global" "regional".
Definition deployer : string := "arn:aws:iam::123456789012:role/eng/Deployer".
Definition session : Identity := mkIdentity "123456789012" "arn:aws:sts::123456789012:assumed-role/Deployer/alice" false.
Definition reader : PolicyRef := mkRef "reader" CustomPolicy.
Definition permit_all : string := "permit(principal, action, resource);".

Definition acme_ops : list (StoreConfig * StoreOp) :=
  [(acme, OpCreatePolicy "reader" permit_all);
   (acme, OpCreateAttachment (mkSpec reader deployer GlobalScope));
   (acme, OpCreateAttachment (mkSpec reader deployer RegionalScope));
   (acme, OpCreateAttachment (mkSpec reader "arn:aws:iam::123456789012:user/bob" GlobalScope));
   (acme, OpDeletePolicy "reader" "stale")].

Definition acme_world : World := run_ops acme_ops empty_memory.

(** The result of a run and the world after it. *)
Definition after {A} (m : M A) (w : World) : World := (m w).1.
Definition value_of {A} (d : A) (m : M A) (w : World) : A := match (m w).2 with Ok a => a | Err _ => d end.
Lemma world_value {A} (m : M A) w d : is_ok (m w).2 = true → m w = (after m w, Ok (value_of d m w)).
Proof. unfold after, value_of. by destruct (m w) as [w' [a|e]]. Qed.

Lemma world_unit (m : M unit) w : is_ok (m w).2 = true → m w = (after m w, Ok tt).
Proof. unfold after. by destruct (m w) as [w' [[]|e]]. Qed.

Lemma empty_index : index_ok (contents empty_memory).
Proof. intros table a id _. unfold index_at. change (@contents Memory empty_memory) with (∅ : Tables).
  rewrite tables_empty. intros q _. apply tables_empty. Qed.

Lemma quiet_keeps_index : ∀ t t' : Tables, interfere t t' → index_ok t → index_ok t'.
Proof. by intros t t' ->. Qed.

Lemma acme_usable : Forall (λ so : StoreConfig * StoreOp, usable_account so.1) acme_ops.
Proof. repeat constructor. Qed.

Lemma acme_index : index_ok (contents acme_world).
Proof. apply (run_ops_index (B := Memory) acme_ops empty_memory); [exact quiet_keeps_index|exact acme_usable|exact empty_index]. Qed.

Definition acme_resolved : list ResolvedAttachment := value_of [] (Resolve acme 10 session) acme_world.

Example acme_resolves : List.length acme_resolved = 2 ∧ is_ok (Resolve acme 10 session acme_world).2 = true.
Proof. split; vm_compute; reflexivity. Qed.

Lemma index_invariant_witness : index_ok (contents acme_world) ∧ acme_resolved ≠ [].
Proof.
  split; [apply (index_invariant (B := Memory) acme_ops empty_memory); [exact quiet_keeps_index|exact acme_usable|exact empty_index]|].
  vm_compute. discriminate.
Defined.

Lemma Resolve_complete_witness : ∃ caller, checkedIdentity session = Ok caller ∧
  ∀ b, b ∈ r_Attachment <$> acme_resolved ↔ granted acme caller (contents acme_world) b.
Proof.
  eexists. split; [vm_compute; reflexivity|].
  eapply (Resolve_complete (B := Memory) acme 10 session acme_world (after (Resolve acme 10 session) acme_world) acme_resolved);
    [exact Memory_quiet|exact acme_index|vm_compute; reflexivity|apply world_value; vm_compute; reflexivity].
Defined.

Lemma Resolve_sound_witness : ∃ caller, checkedIdentity session = Ok caller ∧
  ∀ r, r ∈ acme_resolved → policy_ref (r_Policy r) = att_Policy (r_Attachment r).
Proof.
  destruct (Resolve_sound (B := Memory) acme 10 session acme_world (after (Resolve acme 10 session) acme_world) acme_resolved)
    as (caller & Hc & _ & _ & Hr); [apply world_value; vm_compute; reflexivity|].
  exists caller. split; [exact Hc|]. intros r Hin. apply (Hr r Hin).
Defined.

Lemma account_isolation_witness :
  contents (run_op acme (OpDeletePolicy "reader" "x") acme_world).1 !! ("policies", account_pk managedOwner, policy_sk "reader") =
  contents acme_world !! ("policies", account_pk managedOwner, policy_sk "reader").
Proof.
  apply (account_isolation (B := Memory) acme (OpDeletePolicy "reader" "x") acme_world managedOwner);
    [exact Memory_quiet|reflexivity|right; reflexivity|discriminate|left; reflexivity].
Defined.

Definition no_policy : StoredPolicy := mkPolicy "" "" "" "" "".
Definition no_attachment : StoredAttachment := mkAttachment (mkSpec (mkRef "" "") "" "") "" "" "" "".

(** A policy, and an update of it at its revision. *)
Definition first_world : World := after (CreatePolicy acme "reader" permit_all) empty_memory.
Definition first_policy : StoredPolicy := value_of no_policy (CreatePolicy acme "reader" permit_all) empty_memory.
Definition update : M StoredPolicy := UpdatePolicy acme "reader" (pol_Revision first_policy) "forbid(principal, action, resource);".

Lemma UpdatePolicy_cas_witness : ∃ t : Tables,
  interfere (contents first_world) t ∧
  t !! policy_key acme (value_of no_policy update first_world) ≫= lookup "revision" = Some (AV_S (pol_Revision first_policy)).
Proof.
  destruct (UpdatePolicy_cas (B := Memory) acme "reader" (pol_Revision first_policy) "forbid(principal, action, resource);" first_world
              (after update first_world) (value_of no_policy update first_world)) as (_ & _ & _ & _ & t & Hi & Ht & _);
    [apply (world_value update); vm_compute; reflexivity|]. exists t. split; [exact Hi|exact Ht].
Defined.

Lemma policy_write_read_witness : (GetPolicy acme reader first_world).2 = Ok first_policy ∨
  ∃ err, (GetPolicy acme reader first_world).2 = Err err ∧ errors_Is err ErrUnavailable = true.
Proof.
  apply (policy_write_read (B := Memory) acme "reader" "" permit_all empty_memory first_world first_policy
           (GetPolicy acme reader first_world).1 (GetPolicy acme reader first_world).2);
    [exact Memory_quiet|reflexivity|reflexivity|apply (world_value (writePolicy acme "reader" "" permit_all)); vm_compute; reflexivity|].
  destruct (GetPolicy acme reader first_world) eqn:E. exact E.
Defined.

Definition grant : M StoredAttachment := CreateAttachment acme (mkSpec reader deployer GlobalScope).
Definition granted_world : World := after grant first_world.
Definition grant_id : string := att_ID (value_of no_attachment grant first_world).
Definition revoke : M unit := DeleteAttachment acme GlobalScope grant_id (att_Revision (value_of no_attachment grant first_world)).
Definition revoked_world : World := after revoke granted_world.

Lemma CreateAttachment_atomic_witness :
  att_Spec (value_of no_attachment grant first_world) = mkSpec reader deployer GlobalScope.
Proof.
  apply (CreateAttachment_atomic (B := Memory) acme (mkSpec reader deployer GlobalScope) first_world granted_world (value_of no_attachment grant first_world)).
  apply (world_value grant). vm_compute. reflexivity.
Defined.

Lemma discard_world {A} (m : M A) w : (discard m w).1 = (m w).1.
Proof. unfold discard, mbind, M_bind. by destruct (m w) as [w' [a|e]]. Qed.

Lemma granted_run :
  granted_world = run_ops [(acme, OpCreatePolicy "reader" permit_all); (acme, OpCreateAttachment (mkSpec reader deployer GlobalScope))] empty_memory.
Proof. unfold run_ops. cbn [fold_left fst snd run_op]. by rewrite !discard_world. Qed.

Lemma granted_index : index_ok (contents granted_world).
Proof.
  rewrite granted_run. apply run_ops_index; [exact quiet_keeps_index|repeat constructor|exact empty_index].
Qed.

Lemma deletion_revokes_witness :
  Forall (λ r, ¬ (att_Scope (r_Attachment r) = GlobalScope ∧ att_ID (r_Attachment r) = grant_id))
    (value_of [] (Resolve acme 10 session) revoked_world).
Proof.
  apply Forall_forall.
  apply (deletion_revokes (B := Memory) acme 10 GlobalScope grant_id (att_Revision (value_of no_attachment grant first_world)) granted_world revoked_world
           session (after (Resolve acme 10 session) revoked_world));
    [exact Memory_quiet|exact granted_index|reflexivity| |apply world_value; vm_compute; reflexivity].
  apply (world_unit revoke). vm_compute. reflexivity.
Defined.

Definition acme_west : StoreConfig := mkStoreConfig "123456789012" "us-west-2" "us-east-1" "policies" "global" "regional".

Lemma nonwriter_refused_witness :
  is_ok (run_op acme_west (OpCreateAttachment (mkSpec reader deployer GlobalScope)) first_world).2 = false.
Proof.
  apply (nonwriter_refused (B := Memory) acme_west (OpCreateAttachment (mkSpec reader deployer GlobalScope)) first_world
           (run_op acme_west (OpCreateAttachment (mkSpec reader deployer GlobalScope)) first_world).1); [discriminate|reflexivity|].
  destruct (run_op acme_west _ first_world). reflexivity.
Defined.
End witnesses.
