(* ===== verification/Authorizer.v ===== *)
(** * Authorization decisions (pkg/authz/authorizer.go, config.go)

    An [Authorizer] holds validated policy attachments; [Prepare] selects those of one
    caller and [Check] evaluates one action on one resource with Cedar. The second
    half is the startup bundle: [addBundle], the YAML checks of [checkYAML] and the
    fields [decodeBundle] requires. Successive observations of [ctx.Err()] are a
    function of their number. *)
From S2P Require Import Prelude GoStrings AwsArn AuthzModel Arn Template AuthzStoreTheorems.
From stdpp Require Import base gmap strings list fin_maps sorting.
From Stdlib Require Import ZArith Lia Ascii String.
Open Scope string_scope.
Open Scope list_scope.

Definition AccountIDLabel : string := "seaplane.io/account-id".

Definition ctx_t : Type := nat → option string.
(** The observations after the first [n]. *)
Definition later (n : nat) (ctx : ctx_t) : ctx_t := fun m => ctx (n + m).

(** ** Sorted diagnostic ids *)

Definition string_le (a b : string) : Prop := String.leb a b = true.
#[export] Instance string_le_dec : RelDecision string_le.
Proof. intros a b. unfold string_le. apply _. Defined.

(** [slices.Compact]: of equal neighbours the first stays. *)
Fixpoint Compact (l : list string) : list string :=
  match l with
  | x :: ((y :: _) as rest) => if String.eqb x y then Compact rest else x :: Compact rest
  | _ => l
  end.

Section authorizer.
Context `{ArnParser, CedarEngine}.

#[local] Notation PolicySet := (gmap string CPolicy).
(** Whether the decision is Allow, the policies of the reasons, and the errors. *)
Definition Verdict : Type := bool * list string * list DiagnosticError.

Record policyAttachment := mkPolicyAttachment {
  pa_Provenance : Provenance;
  pa_policy : CPolicy;
  pa_principal : principalARN;
  pa_scope : string;
  pa_region : string
}.

(** [a_allowlist] is nil in the authorizer of the management store only. *)
Record Authorizer := mkAuthorizer {
  a_bundleHash : string;
  a_customer : list policyAttachment;
  a_allowlist : option CPolicy;
  a_region : string;
  a_accounts : gset string;
  a_evaluate : PolicySet → EntityMap → CedarRequest → result error Verdict
}.

Record Prepared := mkPrepared {
  p_identity : Identity;
  p_region : string;
  p_principal : EntityUID;
  p_entities : EntityMap;
  p_policies : PolicySet;
  p_requestContext : list (string * value);
  p_provenance : gmap string Provenance;
  p_evaluate : PolicySet → EntityMap → CedarRequest → result error Verdict
}.

Definition nativeEvaluate (set : PolicySet) (entities : EntityMap) (req : CedarRequest) : result error Verdict :=
  Ok (cedar_Authorize set entities req).

Definition IsAccountRegistered (a : Authorizer) (ctx : ctx_t) (account : string) : bool :=
  match ctx 0 with Some _ => false | None => bool_decide (account ∈ a_accounts a) end.

(** ** Prepare *)

(** The loop over the attachments: policies, provenance, entities and role parents. *)
Definition Selection : Type := PolicySet * gmap string Provenance * EntityMap * gset EntityUID.

Definition applicable (region : string) (caller : principalARN) (binding : policyAttachment) : bool :=
  matchesPrincipal (pa_principal binding) caller && appliesInRegion (pa_scope binding) (pa_region binding) region.

Definition select_binding (region : string) (caller : principalARN) (attrs : list (string * value))
    (acc : Selection) (binding : policyAttachment) : Selection :=
  let '(policies, provenance, entities, parents) := acc in
  if negb (applicable region caller binding) then acc
  else
    let diagnosticID := DiagnosticID (pa_Provenance binding) in
    let policies := <[diagnosticID := pa_policy binding]> policies in
    let provenance := <[diagnosticID := pa_Provenance binding]> provenance in
    if String.eqb (kind (pa_principal binding)) "role" then
      let role := entityUID "Role" (original (pa_principal binding)) in
      (policies, provenance, <[role := mkEntity role ∅ attrs ∅]> entities, {[role]} ∪ parents)
    else (policies, provenance, entities, parents).

Definition allowlist_id (id : Identity) : string := ("allowlist/" ++ AccountID id)%string.

Definition request_context (region : string) (id : Identity) (req : RequestContext) (requestLabels : EntityUID) : list (string * value) :=
  let timestamp := RequestTime req in
  let day := if (Weekday timestamp =? 0)%Z then 7%Z else Weekday timestamp in
  [("region", VString region); ("accountId", VString (AccountID id)); ("principalArn", VString (CallerARN id));
   ("sourceIp", VString (SourceIP req)); ("userAgent", VString (UserAgent req));
   ("requestTime", VRecord [("unixSeconds", VLong (t_sec timestamp)); ("dayOfWeek", VLong day); ("hour", VLong (Hour timestamp))]);
   ("requestLabels", VEntity requestLabels)].

Definition Prepare (a : Authorizer) (ctx : ctx_t) (id : Identity) (req : RequestContext) : result error Prepared :=
  match ctx 0 with
  | Some err => Err (newFailure StageResolution (EPlain err) [])
  | None =>
    match checkedIdentity id with
    | Err err => Err (newFailure StageResolution err [])
    | Ok caller =>
        if IsZero (RequestTime req) then Err (newFailure StageResolution (EPlain "request time is required") [])
        else
          let requestLabels := entityUID "RequestLabels" "request" in
          let principal := entityUID "Principal" (CallerARN id) in
          let entities := model_Actions ∪ {[requestLabels := mkEntity requestLabels ∅ [] (RequestLabels req)]} in
          let attrs := [("account", VString (AccountID id))] in
          let '(policies, provenance, entities, parents) :=
            fold_left (select_binding (a_region a) caller attrs) (a_customer a) (∅, ∅, entities, ∅) in
          let '(policies, provenance) :=
            if IsAllowlisted id then
              (match a_allowlist a with Some p => <[allowlist_id id := p]> policies | None => policies end,
               <[allowlist_id id := mkProvenance (allowlist_id id) "allowlist" (a_bundleHash a) "" "" ""]> provenance)
            else (policies, provenance) in
          let entities := <[principal := mkEntity principal parents attrs ∅]> entities in
          match validate_Entities entities with
          | Some err => Err (newFailure StageEntityValidation err [])
          | None =>
              match ctx 1 with
              | Some err => Err (newFailure StageResolution (EPlain err) [])
              | None => Ok (mkPrepared id (a_region a) principal entities policies
                              (request_context (a_region a) id req requestLabels) provenance (a_evaluate a))
              end
          end
    end
  end.

(** ** Check *)

Definition mapProvenance (p : Prepared) (ids : list string) : list Provenance * option error :=
  fold_left (fun acc id =>
    match p_provenance p !! id with
    | Some binding => (acc.1 ++ [binding], acc.2)
    | None => (acc.1, Some (match acc.2 with
                            | Some e => EWrap e (EPlain ("unknown diagnostic policy ID " ++ id)%string)
                            | None => EPlain ("unknown diagnostic policy ID " ++ id)%string
                            end))
    end) (Compact (merge_sort string_le ids)) ([], None).

Definition label_action (action : Action) : bool := bool_decide (action ∈ [ListLabelsForResource; LabelResource; UnlabelResource]).

Definition owner_contradicts (labels : gmap string string) (account : string) : bool :=
  match labels !! AccountIDLabel with Some owner => negb (String.eqb owner account) | None => false end.

Definition validateResourceIdentity (p : Prepared) (action : Action) (resource : Resource) : result error ResourceKind :=
  let kind :=
    if label_action action && bool_decide (res_Kind resource ∈ [Cluster; NodePool; OIDCConfig; DNSReservation])
    then res_Kind resource else actionResourceKind action in
  if String.eqb kind "" then Err (EPlain "unsupported action")
  else if negb (String.eqb (res_AccountID resource) (AccountID (p_identity p)))
  then Err (EPlain "resource ownership does not match identity account")
  else if owner_contradicts (res_Labels resource) (res_AccountID resource)
  then Err (EPlain "resource account label contradicts ownership")
  else if negb (String.eqb (res_Kind resource) NodePool) && bool_decide (is_Some (res_ParentCluster resource))
  then Err (EPlain "unexpected parent cluster")
  else if listAction action then
    if negb (String.eqb (res_Kind resource) Collection) || negb (String.eqb (res_ID resource) "") ||
       negb (bool_decide (res_Labels resource = ∅)) || bool_decide (is_Some (res_ParentCluster resource)) ||
       negb (String.eqb (res_CollectionKind resource) kind)
    then Err (EPlain "invalid collection identity or object metadata")
    else Ok kind
  else if negb (String.eqb (res_Kind resource) kind) || negb (idPattern (res_ID resource)) || negb (String.eqb (res_CollectionKind resource) "")
  then Err (EPlain "action requires a compatible resource with a stable ID")
  else Ok kind.

(** The prefix of the ids of an account's resources. *)
Definition scoped (account region rest : string) : string := (account ++ "/" ++ region ++ "/" ++ rest)%string.

Definition resourceEntities (p : Prepared) (action : Action) (resource : Resource) : result error (EntityMap * EntityUID) :=
  kind ← validateResourceIdentity p action resource;
  let attrs := [("account", VString (res_AccountID resource)); ("region", VString (p_region p))] in
  let collection := entityUID "Collection" (scoped (res_AccountID resource) (p_region p) (collectionName kind)) in
  let entities := <[collection := mkEntity collection ∅ attrs ∅]> (p_entities p) in
  if listAction action then Ok (entities, collection)
  else if String.eqb kind NodePool then
    match res_ParentCluster resource with
    | None => Err (EPlain "node pool requires its owned stored parent")
    | Some parent =>
        if negb (idPattern (pc_ID parent)) || negb (String.eqb (pc_AccountID parent) (res_AccountID resource))
        then Err (EPlain "node pool requires its owned stored parent")
        else if owner_contradicts (pc_Labels parent) (pc_AccountID parent)
        then Err (EPlain "parent account label contradicts ownership")
        else
          let clusterCollection := entityUID "Collection" (scoped (pc_AccountID parent) (p_region p) "clusters") in
          let cluster := entityUID "Cluster" (scoped (pc_AccountID parent) (p_region p) (pc_ID parent)) in
          let uid := entityUID kind (scoped (res_AccountID resource) (p_region p) (pc_ID parent ++ "/" ++ res_ID resource)%string) in
          let entities := <[clusterCollection := mkEntity clusterCollection ∅ attrs ∅]> entities in
          let entities := <[cluster := mkEntity cluster {[clusterCollection]} attrs (pc_Labels parent)]> entities in
          Ok (<[uid := mkEntity uid {[collection; cluster]} attrs (res_Labels resource)]> entities, uid)
    end
  else
    let uid := entityUID kind (scoped (res_AccountID resource) (p_region p) (res_ID resource)) in
    Ok (<[uid := mkEntity uid {[collection]} attrs (res_Labels resource)]> entities, uid).

Definition diagnostic_failure (p : Prepared) (errors : list DiagnosticError) : error :=
  let '(provenance, mappingErr) := mapProvenance p (diag_PolicyID <$> errors) in
  let err := EPlain "cedar evaluation diagnostics" in
  EFailure StageEvaluation "" provenance errors (match mappingErr with Some e => EWrap err e | None => err end).

(** [Check] without the deferred function. *)
Definition check_body (p : Prepared) (ctx : ctx_t) (action : Action) (resource : Resource) : result error AuthzModel.Decision :=
  match ctx 0 with
  | Some err => Err (newFailure StageEvaluation (EPlain err) [])
  | None =>
      match resourceEntities p action resource with
      | Err err => Err (newFailure StageEntityValidation err [])
      | Ok (entities, resourceUID) =>
          let req := mkCedarRequest (p_principal p) (entityUID "Action" action) resourceUID (p_requestContext p) in
          match validate_Entities entities with
          | Some err => Err (newFailure StageEntityValidation err [])
          | None =>
              match validate_Request req with
              | Some err => Err (newFailure StageEntityValidation err [])
              | None =>
                  match p_evaluate p (p_policies p) entities req with
                  | Err err => Err (newFailure StageEvaluation err [])
                  | Ok (verdict, reasons, errors) =>
                      if negb (Nat.eqb (List.length errors) 0) then Err (diagnostic_failure p errors)
                      else
                        match ctx 1 with
                        | Some err => Err (newFailure StageEvaluation (EPlain err) [])
                        | None =>
                            match mapProvenance p reasons with
                            | (_, Some err) => Err (newFailure StageEvaluation err [])
                            | (provenance, None) => Ok (mkDecision verdict provenance)
                            end
                        end
                  end
              end
          end
      end
  end.

Definition Check (p : Prepared) (ctx : ctx_t) (action : Action) (resource : Resource) : result error AuthzModel.Decision :=
  match check_body p ctx action resource with
  | Ok d => Ok d
  | Err err => Err (set_failure_action action err)
  end.

(** ** The startup bundle *)

Record policyRecord := mkPolicyRecord { pr_ID : string; pr_OwnerAccountID : string; pr_Content : string }.
Record attachmentRecord := mkAttachmentRecord {
  ar_ID : string; ar_PolicyID : string; ar_PrincipalARN : string; ar_Scope : string; ar_Region : string }.
Record configBundle := mkBundle {
  FormatVersion : Z;
  RegisteredAccounts : list string;
  Policies : list policyRecord;
  Attachments : list attachmentRecord
}.

Definition add_account (accounts : gset string) (account : string) : result error (gset string) :=
  if negb (accountPattern account) then Err (newFailure StageParsing (EPlain "invalid registered account") [])
  else if bool_decide (account ∈ accounts) then Err (newFailure StageParsing (EPlain "duplicate registered account") [])
  else Ok ({[account]} ∪ accounts).

(** The compiled policies: owner and Cedar policy by id. *)
#[local] Notation compiled := (gmap string (string * CPolicy)).

Definition add_compiled (bundleHash : string) (policies : compiled) (policy : policyRecord) : result error compiled :=
  let provenance := [mkProvenance "" (pr_ID policy) bundleHash "" "" ""] in
  if negb (idPattern (pr_ID policy)) || negb (accountPattern (pr_OwnerAccountID policy))
  then Err (newFailure StageParsing (EPlain "invalid policy ID or owner") provenance)
  else if bool_decide (is_Some (policies !! pr_ID policy)) then Err (newFailure StageParsing (EPlain "duplicate policy ID") provenance)
  else match checkedPolicy (pr_Content policy) (pr_ID policy) with
       | Err err => Err (newFailure StageParsing err provenance)
       | Ok c => Ok (<[pr_ID policy := (pr_OwnerAccountID policy, c)]> policies)
       end.

(** The attachments added, their ids and the role aliases. *)
Definition Attaching : Type := list policyAttachment * gset string * gmap string string.

Definition add_attachment (bundleHash : string) (policies : compiled) (acc : Attaching) (attachment : attachmentRecord) : result error Attaching :=
  let '(customer, ids, aliases) := acc in
  let provenance := mkProvenance ("attachment/" ++ ar_ID attachment)%string (ar_PolicyID attachment) bundleHash (ar_ID attachment) "" "" in
  let binding_error err := Err (newFailure StageBinding err [provenance]) in
  if negb (idPattern (ar_ID attachment)) then binding_error (EPlain "invalid attachment ID")
  else if bool_decide (ar_ID attachment ∈ ids) then binding_error (EPlain "duplicate attachment ID")
  else
    match policies !! ar_PolicyID attachment with
    | None => binding_error (EPlain "dangling policy reference")
    | Some (owner, policy) =>
        match parsePrincipal (ar_PrincipalARN attachment) with
        | Err err => binding_error err
        | Ok principal =>
            if negb (String.eqb (account principal) owner) then binding_error (EPlain "cross-account attachment")
            else
              match checkedScope (ar_Scope attachment) (ar_Region attachment) with
              | Some err => binding_error err
              | None =>
                  match (if String.eqb (kind principal) "role" then addRoleAlias aliases (roleAlias principal) (original principal) else Ok aliases) with
                  | Err err => binding_error err
                  | Ok aliases =>
                      Ok (customer ++ [mkPolicyAttachment provenance policy principal (ar_Scope attachment) (ar_Region attachment)],
                          {[ar_ID attachment]} ∪ ids, aliases)
                  end
              end
        end
    end.

(** [for _, x := range l { if err := f(x); err != nil { return err } }] *)
Fixpoint try_fold {A S} (f : S → A → result error S) (l : list A) (s : S) : result error S :=
  match l with
  | [] => Ok s
  | x :: l => s' ← f s x; try_fold f l s'
  end.

Definition addBundle (a : Authorizer) (bundle : configBundle) (bundleHash : string) : result error Authorizer :=
  accounts ← try_fold add_account (RegisteredAccounts bundle) (a_accounts a);
  policies ← try_fold (add_compiled bundleHash) (Policies bundle) ∅;
  '(customer, _, _) ← try_fold (add_attachment bundleHash policies) (Attachments bundle) (a_customer a, ∅, ∅);
  Ok (mkAuthorizer (a_bundleHash a) customer (a_allowlist a) (a_region a) accounts (a_evaluate a)).

(** [LoadConfig] from the file's content, its hash and the bundle decoded from it. *)
Definition LoadConfig (serviceRegion : string) (bundleHash : string) (bundle : result error configBundle) : result error Authorizer :=
  if negb (regionPattern serviceRegion) then Err (newFailure StageParsing (EPlain "invalid service region") [])
  else
    match bundle with
    | Err err => Err (newFailure StageParsing err [])
    | Ok bundle =>
        match checkedPolicy "permit(principal, action, resource);" "allowlist" with
        | Err err => Err (newFailure StageParsing err [])
        | Ok allowlist => addBundle (mkAuthorizer bundleHash [] (Some allowlist) serviceRegion ∅ nativeEvaluate) bundle bundleHash
        end
    end.

End authorizer.

(** ** The YAML of a bundle *)

Inductive YamlKind := DocumentNode | SequenceNode | MappingNode | ScalarNode | AliasNode.

#[export] Instance YamlKind_eq_dec : EqDecision YamlKind.
Proof. solve_decision. Defined.

(** A [yaml.Node]; a mapping's content alternates keys and values. *)
Inductive Node := mkNode (n_kind : YamlKind) (n_tag n_value n_anchor : string) (n_content : list Node).

Definition n_Kind (n : Node) : YamlKind := let '(mkNode k _ _ _ _) := n in k.
Definition n_Tag (n : Node) : string := let '(mkNode _ t _ _ _) := n in t.
Definition n_Value (n : Node) : string := let '(mkNode _ _ v _ _) := n in v.
Definition n_Anchor (n : Node) : string := let '(mkNode _ _ _ a _) := n in a.
Definition n_Content (n : Node) : list Node := let '(mkNode _ _ _ _ c) := n in c.

Definition key_ok (key : Node) : bool :=
  bool_decide (n_Kind key = ScalarNode) && String.eqb (n_Tag key) "!!str" &&
  negb (String.eqb (n_Value key) "<<") && String.eqb (n_Anchor key) "".

Definition top_collection (path : string) : bool := bool_decide (path ∈ ["registeredAccounts"; "policies"; "attachments"]).

(** Whether [checkYAML] accepts the node; [depth] counts down from 16. A mapping
    without a value for its last key, which the parser does not build, is refused. *)
Fixpoint checkYAML (node : Node) (path : string) (depth : Z) : bool :=
  let '(mkNode kind tag value anchor content) := node in
  if (16 <? depth)%Z || bool_decide (kind = AliasNode) || negb (String.eqb anchor "") then false
  else
    match kind with
    | MappingNode =>
        String.eqb tag "!!map" &&
        (fix pairs (l : list Node) : bool :=
           match l with
           | [] => true
           | key :: v :: rest =>
               key_ok key &&
               checkYAML v (if String.eqb path "" then n_Value key else path ++ "." ++ n_Value key)%string (depth + 1) &&
               pairs rest
           | [_] => false
           end) content && negb (top_collection path)
    | SequenceNode =>
        String.eqb tag "!!seq" && forallb (fun child => checkYAML child (path ++ "[]")%string (depth + 1)%Z) content
    | ScalarNode =>
        if String.eqb path "formatVersion" && String.eqb tag "!!int" && String.eqb value "1" then true
        else String.eqb tag "!!str" && negb (String.eqb path "formatVersion") && negb (top_collection path)
    | _ => false
    end.

Fixpoint mapping_keys (l : list Node) : list string :=
  match l with
  | key :: _ :: rest => n_Value key :: mapping_keys rest
  | _ => []
  end.

(** [readBundleNode], from the decoded documents: the first one's root. *)
Definition readBundleNode (documents : list Node) : result error Node :=
  match documents with
  | [] => Err (EPlain "EOF")
  | [root] =>
      match n_Content root with
      | [top] =>
          if negb (bool_decide (n_Kind top = MappingNode)) then Err (EPlain "bundle must be an object")
          else if negb (checkYAML top "" 0) then Err (EPlain "invalid YAML")
          else Ok top
      | _ => Err (EPlain "bundle must be an object")
      end
  | _ => Err (EPlain "expected exactly one YAML document")
  end.

Definition bundle_fields : list string := ["formatVersion"; "registeredAccounts"; "policies"; "attachments"].

(** [decodeBundle], with the result of the strict decoding of the same content. *)
Definition decodeBundle (documents : list Node) (decoded : result error configBundle) : result error configBundle :=
  root ← readBundleNode documents;
  if negb (forallb (fun k => bool_decide (k ∈ mapping_keys (n_Content root))) bundle_fields) then Err (EPlain "missing bundle field")
  else
    bundle ← decoded;
    if negb (FormatVersion bundle =? 1)%Z then Err (EPlain "unsupported bundle format version") else Ok bundle.

(** * The theorems of the authorizer

    What a decision of [Check] rests on, which policies [Prepare] gives to Cedar, that
    a Cedar resource id belongs to one resource, and what an accepted bundle is. *)
From stdpp Require Import base gmap strings list fin_maps sorting.
From Stdlib Require Import ZArith Lia Ascii String.
Open Scope string_scope.
Open Scope list_scope.

Lemma elem_of_Compact l x : x ∈ Compact l ↔ x ∈ l.
Proof.
  induction l as [|y l IH]; [done|]. destruct l as [|z l]; [done|].
  change (Compact (y :: z :: l)) with (if String.eqb y z then Compact (z :: l) else y :: Compact (z :: l)).
  destruct (String.eqb_spec y z) as [->|]; rewrite ?elem_of_cons, IH, ?elem_of_cons; tauto.
Qed.

Section authorizer.
Context `{ArnParser, CedarEngine}.

(** ** Check *)

Lemma mapProvenance_ok p ids prov : mapProvenance p ids = (prov, None) →
  (∀ i, i ∈ ids → is_Some (p_provenance p !! i)) ∧
  ∀ v, v ∈ prov ↔ ∃ i, i ∈ ids ∧ p_provenance p !! i = Some v.
Proof.
  unfold mapProvenance. intros E.
  assert (∀ l acc, (fold_left (λ (acc : list Provenance * option error) id,
    match p_provenance p !! id with
    | Some binding => (acc.1 ++ [binding], acc.2)
    | None => (acc.1, Some (match acc.2 with
                            | Some e => EWrap e (EPlain ("unknown diagnostic policy ID " ++ id)%string)
                            | None => EPlain ("unknown diagnostic policy ID " ++ id)%string
                            end))
    end) l acc) = (prov, None) →
    acc.2 = None ∧ (∀ i, i ∈ l → is_Some (p_provenance p !! i)) ∧
    ∀ v, v ∈ prov ↔ v ∈ acc.1 ∨ ∃ i, i ∈ l ∧ p_provenance p !! i = Some v) as Hl.
  { clear E. induction l as [|x l IH]; intros acc E; cbn in E.
    - subst acc. cbn. split; [done|]. split; [by intros i Hi%not_elem_of_nil|]. intros v. split; [auto|].
      intros [?|(i & Hi & _)]; [done|]. by apply not_elem_of_nil in Hi.
    - apply IH in E as (En & Hs & Hv). destruct (p_provenance p !! x) as [b|] eqn:Ex; [|done]. cbn in *.
      split; [done|]. split; [intros i [->|Hi]%elem_of_cons; [by rewrite Ex|auto]|].
      intros v. rewrite Hv, elem_of_app, list_elem_of_singleton. setoid_rewrite elem_of_cons. split.
      + intros [[?| ->]|(i & ? & ?)]; eauto.
      + intros [?|(i & [->|?] & ?)]; [auto| |eauto]. simplify_eq. auto. }
  destruct (Hl _ _ E) as (_ & Hs & Hv). cbn in Hv.
  assert (∀ i, i ∈ Compact (merge_sort string_le ids) ↔ i ∈ ids) as Hi.
  { intros i. rewrite elem_of_Compact. by rewrite (merge_sort_Permutation string_le ids). }
  split; [intros i ?; by apply Hs, Hi|]. intros v. rewrite Hv. setoid_rewrite Hi. split; [|auto].
  intros [?%not_elem_of_nil|?]; done.
Qed.

Lemma validateResourceIdentity_account p action resource kind :
  validateResourceIdentity p action resource = Ok kind → res_AccountID resource = AccountID (p_identity p).
Proof.
  unfold validateResourceIdentity. destruct (String.eqb _ ""); [done|].
  destruct (String.eqb_spec (res_AccountID resource) (AccountID (p_identity p))); [done|]. done.
Qed.

Definition cedar_request (p : Prepared) (action : Action) (uid : EntityUID) : CedarRequest :=
  mkCedarRequest (p_principal p) (entityUID "Action" action) uid (p_requestContext p).

Lemma check_body_ok p ctx action resource d : p_evaluate p = nativeEvaluate → check_body p ctx action resource = Ok d →
  ∃ entities uid reasons, resourceEntities p action resource = Ok (entities, uid) ∧
    validate_Entities entities = None ∧ validate_Request (cedar_request p action uid) = None ∧
    cedar_Authorize (p_policies p) entities (cedar_request p action uid) = (Allowed d, reasons, []) ∧
    mapProvenance p reasons = (dec_Provenance d, None).
Proof.
  intros He. unfold check_body. destruct (ctx 0); [done|].
  destruct (resourceEntities p action resource) as [[entities uid]|]; [|done].
  destruct (validate_Entities entities) eqn:E1; [done|]. fold (cedar_request p action uid).
  destruct (validate_Request (cedar_request p action uid)) eqn:E2; [done|]. rewrite He. unfold nativeEvaluate.
  destruct (cedar_Authorize (p_policies p) entities (cedar_request p action uid)) as [[v reasons] errors] eqn:E3.
  destruct errors as [|]; [|done]. cbn. destruct (ctx 1); [done|].
  destruct (mapProvenance p reasons) as [prov [|]] eqn:E4; [done|]. intros [= <-].
  exists entities, uid, reasons. done.
Qed.

(** C19: a decision of [Check] is Cedar's on the prepared policies, for the caller, the
    action and a resource of the caller's own account, on entities and a request that
    pass the schema's validation, and only when no policy failed to evaluate: an
    error in any policy is a failure of the check, even when Cedar allows. The
    provenance lists exactly the attachments of the policies Cedar gave as reasons,
    all of them known. *)
Theorem Check_sound p ctx action resource d :
  p_evaluate p = nativeEvaluate → Check p ctx action resource = Ok d →
  res_AccountID resource = AccountID (p_identity p) ∧
  ∃ entities uid reasons, resourceEntities p action resource = Ok (entities, uid) ∧
    validate_Entities entities = None ∧ validate_Request (cedar_request p action uid) = None ∧
    cedar_Authorize (p_policies p) entities (cedar_request p action uid) = (Allowed d, reasons, []) ∧
    (∀ i, i ∈ reasons → is_Some (p_provenance p !! i)) ∧
    ∀ v, v ∈ dec_Provenance d ↔ ∃ i, i ∈ reasons ∧ p_provenance p !! i = Some v.
Proof.
  intros He. unfold Check. destruct (check_body p ctx action resource) as [d'|] eqn:E; [|done]. intros [= ->].
  apply check_body_ok in E as (entities & uid & reasons & Hr & ? & ? & ? & Hm); [|done]. split.
  - unfold resourceEntities in Hr. apply result_bind_ok in Hr as (kind & Hk & _). by eapply validateResourceIdentity_account.
  - exists entities, uid, reasons. destruct (mapProvenance_ok _ _ _ Hm). done.
Qed.

(** every error of [Check] is a [*Failure] that names the action checked. *)
Theorem Check_failure p ctx action resource e :
  Check p ctx action resource = Err e → ∃ st prov diags err, e = EFailure st action prov diags err.
Proof.
  unfold Check. destruct (check_body p ctx action resource) as [|e'] eqn:E; [done|]. intros [= <-].
  assert (∃ st prov diags err, e' = EFailure st "" prov diags err) as (st & prov & diags & err & ->); [|cbn; eauto].
  unfold check_body, newFailure in E.
  destruct (ctx 0); [injection E as <-; eauto|].
  destruct (resourceEntities p action resource) as [[? ?]|]; [|injection E as <-; eauto].
  destruct (validate_Entities _); [injection E as <-; eauto|].
  destruct (validate_Request _); [injection E as <-; eauto|].
  destruct (p_evaluate p _ _ _) as [[[v rs] errors]|]; [|injection E as <-; eauto].
  destruct (negb _).
  - injection E as <-. unfold diagnostic_failure. destruct (mapProvenance p _). eauto.
  - destruct (ctx 1); [injection E as <-; eauto|]. destruct (mapProvenance p rs) as [? [|]]; [injection E as <-; eauto|done].
Qed.

(** *** Resource ids *)

Lemma free_cut (c : ascii) (a b x y : string) : str_free c a = true → str_free c x = true →
  (a +:+ String c b = x +:+ String c y)%string → a = x ∧ b = y.
Proof.
  revert x. induction a as [|e a IH]; intros [|f x] Ha Hx E; cbn in *.
  - by injection E.
  - injection E as -> _. unfold str_free in Hx. cbn in Hx. by rewrite Ascii.eqb_refl in Hx.
  - injection E as -> _. unfold str_free in Ha. cbn in Ha. by rewrite Ascii.eqb_refl in Ha.
  - injection E as -> E. unfold str_free in *. cbn in Ha, Hx. apply andb_true_iff in Ha as [_ Ha], Hx as [_ Hx].
    by destruct (IH x Ha Hx E) as [-> ->].
Qed.

Lemma idPattern_no_slash s : idPattern s = true → str_free "/" s = true.
Proof.
  destruct s as [|a s]; [done|]. cbn [idPattern]. intros [Ha Hs]%andb_true_iff. unfold str_free. cbn [str_forall]. apply andb_true_iff. split.
  - destruct (Ascii.eqb_spec a "/") as [->|]; [by vm_compute in Ha|done].
  - revert Hs. apply str_forall_impl. intros x Hx. destruct (Ascii.eqb_spec x "/") as [->|]; [by vm_compute in Hx|done].
Qed.

Lemma entityUID_inj k i k' i' : entityUID k i = entityUID k' i' → k = k' ∧ i = i'.
Proof.
  unfold entityUID. intros E. apply (f_equal uid_id) in E as E2. apply (f_equal uid_type) in E. cbn in E, E2. split; [|done].
  by apply (app_tail_inj "Seaplane::" "Seaplane::") in E as [_ ?].
Qed.

Lemma scoped_inj a r x y : scoped a r x = scoped a r y → x = y.
Proof.
  unfold scoped. intros E. apply app_tail_inj in E as [_ E]; [|done]. apply (app_tail_inj "/" "/") in E as [_ E]; [|done].
  apply app_tail_inj in E as [_ E]; [|done]. by apply (app_tail_inj "/" "/") in E as [_ E].
Qed.

(** What names a resource within an account: its path in its collection. *)
Definition resource_path (r : Resource) : string :=
  match res_ParentCluster r with Some parent => pc_ID parent +:+ "/" +:+ res_ID r | None => res_ID r end.

Definition known_kinds : list ResourceKind :=
  [Policy; Attachment; RegionalAttachment; Cluster; NodePool; OIDCConfig; DNSReservation].

Lemma Collection_unknown : Collection ∉ known_kinds.
Proof. by_decide. Qed.

Lemma actionResourceKind_known action : actionResourceKind action ≠ "" → actionResourceKind action ∈ known_kinds.
Proof. unfold actionResourceKind. repeat case_bool_decide; intros Hn; try done; unfold known_kinds; set_solver. Qed.

Lemma collectionName_inj k k' : k ∈ known_kinds → k' ∈ known_kinds → collectionName k = collectionName k' → k = k'.
Proof. intros Hk Hk'. unfold known_kinds in *. repeat (apply elem_of_cons in Hk as [->|Hk]; [repeat (apply elem_of_cons in Hk' as [->|Hk']; [done|]); by apply not_elem_of_nil in Hk'|]). by apply not_elem_of_nil in Hk. Qed.

Lemma resource_uid_shape p action r ents uid : resourceEntities p action r = Ok (ents, uid) →
  (res_Kind r = Collection ∧ res_ID r = "" ∧ res_ParentCluster r = None ∧ res_CollectionKind r ∈ known_kinds ∧
   uid = entityUID "Collection" (scoped (AccountID (p_identity p)) (p_region p) (collectionName (res_CollectionKind r)))) ∨
  (res_Kind r ∈ known_kinds ∧ res_CollectionKind r = "" ∧ idPattern (res_ID r) = true ∧
   (res_Kind r = NodePool ∧ (∃ parent, res_ParentCluster r = Some parent ∧ idPattern (pc_ID parent) = true) ∨
    res_Kind r ≠ NodePool ∧ res_ParentCluster r = None) ∧
   uid = entityUID (res_Kind r) (scoped (AccountID (p_identity p)) (p_region p) (resource_path r))).
Proof.
  unfold resourceEntities. intros (kind & Hk & E)%result_bind_ok. pose proof (validateResourceIdentity_account _ _ _ _ Hk) as Ha.
  unfold validateResourceIdentity in Hk.
  set (k := if label_action action && bool_decide (res_Kind r ∈ [Cluster; NodePool; OIDCConfig; DNSReservation]) then res_Kind r else actionResourceKind action) in Hk.
  assert (k ≠ "" → k ∈ known_kinds) as Hkk.
  { unfold k. destruct (label_action action); cbn [andb]; [|apply actionResourceKind_known].
    destruct (bool_decide (res_Kind r ∈ [Cluster; NodePool; OIDCConfig; DNSReservation])) eqn:Hin; [|apply actionResourceKind_known].
    apply bool_decide_eq_true in Hin. intros _. unfold known_kinds. set_solver. }
  clearbody k.
  destruct (String.eqb_spec k ""); [done|]. destruct (negb (String.eqb (res_AccountID r) _)); [done|].
  destruct (owner_contradicts _ _); [done|].
  destruct (negb (String.eqb (res_Kind r) NodePool) && _) eqn:Epar; [done|]. destruct (listAction action) eqn:El.
  - destruct (String.eqb_spec (res_Kind r) Collection); cbn in Hk; [|done]. destruct (String.eqb_spec (res_ID r) ""); cbn in Hk; [|done].
    destruct (bool_decide (res_Labels r = ∅)); cbn in Hk; [|done]. case_bool_decide as Hp; [done|]. cbn in Hk.
    destruct (String.eqb_spec (res_CollectionKind r) k) as [Hck|]; [|done]. injection Hk as <-. injection E as _ <-. left.
    split; [done|]. split; [done|]. split; [by destruct (res_ParentCluster r); [destruct Hp; eauto|]|].
    split; [rewrite Hck; auto|]. by rewrite Hck, Ha.
  - destruct (String.eqb_spec (res_Kind r) k) as [Hrk|]; cbn in Hk; [|done]. destruct (idPattern (res_ID r)) eqn:Eid; cbn in Hk; [|done].
    destruct (String.eqb_spec (res_CollectionKind r) ""); cbn in Hk; [|done]. injection Hk as <-. rewrite <- Hrk in *. right.
    destruct (String.eqb_spec (res_Kind r) NodePool) as [Hnp|Hnp].
    + destruct (res_ParentCluster r) as [parent|] eqn:Erp; [|done]. destruct (idPattern (pc_ID parent)) eqn:Epi; cbn in E; [|done].
      destruct (String.eqb _ _); cbn in E; [|done]. destruct (owner_contradicts _ _); [done|]. injection E as <- <-.
      split; [auto|]. split; [done|]. split; [done|]. split; [left; eauto|]. unfold resource_path. rewrite Erp, <- Ha. done.
    + cbn in Epar. case_bool_decide as Hp; [done|]. injection E as <- <-.
      assert (res_ParentCluster r = None) as Hnone by (by destruct (res_ParentCluster r); [destruct Hp; eauto|]).
      split; [auto|]. split; [done|]. split; [done|]. split; [auto|]. unfold resource_path. by rewrite Hnone, <- Ha.
Qed.

(** the id under which Cedar sees a resource names that resource only: of one
    prepared caller, two checked resources with the same Cedar id have the same
    kind, the same id, the same collection and the same parent cluster id. *)
Theorem resource_uid_injective p a1 a2 r1 r2 e1 e2 uid :
  resourceEntities p a1 r1 = Ok (e1, uid) → resourceEntities p a2 r2 = Ok (e2, uid) →
  res_Kind r1 = res_Kind r2 ∧ res_ID r1 = res_ID r2 ∧ res_CollectionKind r1 = res_CollectionKind r2 ∧
  pc_ID <$> res_ParentCluster r1 = pc_ID <$> res_ParentCluster r2.
Proof.
  intros [(K1 & I1 & P1 & C1 & U1)|(K1 & C1 & I1 & P1 & U1)]%resource_uid_shape
         [(K2 & I2 & P2 & C2 & U2)|(K2 & C2 & I2 & P2 & U2)]%resource_uid_shape; rewrite U1 in U2; apply entityUID_inj in U2 as [Hk Hs].
  - apply scoped_inj, collectionName_inj in Hs; [|done|done]. rewrite K1, K2, I1, I2, P1, P2. done.
  - rewrite <- Hk in K2. by apply Collection_unknown in K2.
  - rewrite Hk in K1. by apply Collection_unknown in K1.
  - apply scoped_inj in Hs. rewrite Hk, C1, C2. unfold resource_path in Hs.
    destruct P1 as [[Hnp1 (q1 & P1 & Hq1)]|[Hnp1 P1]], P2 as [[Hnp2 (q2 & P2 & Hq2)]|[Hnp2 P2]]; try congruence; rewrite P1, P2 in *; cbn.
    + apply free_cut in Hs as [-> ->]; [done|by apply idPattern_no_slash..].
    + by rewrite Hs.
Qed.

(** ** Prepare *)

Definition diag (b : policyAttachment) : string := DiagnosticID (pa_Provenance b).

Lemma select_step region caller attrs acc x :
  (select_binding region caller attrs acc x).1.1.1 = if applicable region caller x then <[diag x := pa_policy x]> acc.1.1.1 else acc.1.1.1.
Proof.
  destruct acc as [[[pols prov] ents] pars]. unfold select_binding. destruct (applicable region caller x); [|done].
  cbn. by destruct (String.eqb _ "role").
Qed.

Lemma select_policies region caller attrs l : ∀ acc, NoDup (diag <$> l) → ∀ d q,
  (fold_left (select_binding region caller attrs) l acc).1.1.1 !! d = Some q ↔
  (∃ b, b ∈ l ∧ diag b = d ∧ pa_policy b = q ∧ applicable region caller b = true) ∨
  (¬ (∃ b, b ∈ l ∧ diag b = d ∧ applicable region caller b = true) ∧ acc.1.1.1 !! d = Some q).
Proof.
  induction l as [|x l IH]; intros acc Hnd d q; cbn [fold_left].
  - split; [|intros [(b & Hb%not_elem_of_nil & _)|[_ ?]]; done]. intros Hl. right. split; [|done].
    by intros (b & Hb%not_elem_of_nil & _).
  - cbn in Hnd. apply NoDup_cons in Hnd as [Hx Hnd]. rewrite (IH _ Hnd). clear IH.
    rewrite select_step. destruct (applicable region caller x) eqn:Ex.
    + destruct (decide (d = diag x)) as [->|Hd].
      * rewrite (lookup_insert_eq (M := gmap string)). split.
        -- intros [(b & Hb & Hdb & _)|[_ [= <-]]]; [|left; exists x; split; [by left|done]].
           exfalso. apply Hx. rewrite <- Hdb. apply list_elem_of_fmap. eauto.
        -- intros [(b & [->|Hb]%elem_of_cons & Hdb & <- & Ha)|[Hn _]].
           ++ right. split; [|done]. intros (b' & Hb' & Hdb' & _). apply Hx. rewrite <- Hdb'. apply list_elem_of_fmap. eauto.
           ++ exfalso. apply Hx. rewrite <- Hdb. apply list_elem_of_fmap. eauto.
           ++ exfalso. apply Hn. exists x. split; [by left|done].
      * rewrite (lookup_insert_ne (M := gmap string)) by done. split.
        -- intros [(b & ? & ? & ? & ?)|[Hn Hp]]; [left; exists b; rewrite elem_of_cons; auto|right]. split; [|done].
           intros (b & [->|Hb]%elem_of_cons & Hdb & ?); [by rewrite Hdb in Hd|]. apply Hn. eauto.
        -- intros [(b & [->|Hb]%elem_of_cons & Hdb & ? & ?)|[Hn Hp]]; [by rewrite Hdb in Hd|left; eauto 10|right].
           split; [|done]. intros (b & ? & ? & ?). apply Hn. exists b. rewrite elem_of_cons. auto.
    + split.
      * intros [(b & ? & ? & ? & ?)|[Hn Hp]]; [left; exists b; rewrite elem_of_cons; auto|right]. split; [|done].
        intros (b & [->|Hb]%elem_of_cons & Hdb & ?); [congruence|]. apply Hn. eauto.
      * intros [(b & [->|Hb]%elem_of_cons & Hdb & ? & ?)|[Hn Hp]]; [congruence|left; eauto 10|right].
        split; [|done]. intros (b & ? & ? & ?). apply Hn. exists b. rewrite elem_of_cons. auto.
Qed.

Lemma Prepare_ok a ctx id req p : Prepare a ctx id req = Ok p → ∃ caller, checkedIdentity id = Ok caller ∧
  p_identity p = id ∧ p_region p = a_region a ∧ p_evaluate p = a_evaluate a ∧ p_principal p = entityUID "Principal" (CallerARN id) ∧
  ∃ entities, let sel := fold_left (select_binding (a_region a) caller [("account", VString (AccountID id))]) (a_customer a) (∅, ∅, entities, ∅) in
  p_policies p = (if IsAllowlisted id then match a_allowlist a with Some q => <[allowlist_id id := q]> sel.1.1.1 | None => sel.1.1.1 end
                  else sel.1.1.1).
Proof.
  unfold Prepare. destruct (ctx 0); [done|]. destruct (checkedIdentity id) as [caller|]; [|done].
  destruct (IsZero _); [done|]. cbv zeta.
  destruct (fold_left _ (a_customer a) _) as [[[pols prov] ents] pars] eqn:Ef.
  destruct (IsAllowlisted id) eqn:Eal.
  - destruct (validate_Entities _); [done|]. destruct (ctx 1); [done|]. intros [= <-]. exists caller. cbn.
    repeat (split; [done|]). eexists. rewrite Ef. done.
  - destruct (validate_Entities _); [done|]. destruct (ctx 1); [done|]. intros [= <-]. exists caller. cbn.
    repeat (split; [done|]). eexists. rewrite Ef. done.
Qed.

(** the policies [Prepare] gives to Cedar are exactly those of the attachments
    whose principal matches the checked caller (its own ARN or the role of its
    session) and whose scope covers the service's region, and, for an allowlisted
    caller only, the allowlist policy; no other customer's policy is among them. *)
Theorem Prepare_policies a ctx id req p :
  NoDup (diag <$> a_customer a) → (∀ b, b ∈ a_customer a → diag b ≠ allowlist_id id) →
  Prepare a ctx id req = Ok p →
  ∃ caller, checkedIdentity id = Ok caller ∧ p_identity p = id ∧ p_evaluate p = a_evaluate a ∧
    ∀ d q, p_policies p !! d = Some q ↔
      (∃ b, b ∈ a_customer a ∧ diag b = d ∧ pa_policy b = q ∧ matchesPrincipal (pa_principal b) caller = true ∧
            appliesInRegion (pa_scope b) (pa_region b) (a_region a) = true) ∨
      (IsAllowlisted id = true ∧ d = allowlist_id id ∧ a_allowlist a = Some q).
Proof.
  intros Hnd Hal (caller & Hc & Hid & _ & He & _ & ents & Hp)%Prepare_ok. exists caller. repeat (split; [done|]).
  assert (∀ d q, (fold_left (select_binding (a_region a) caller [("account", VString (AccountID id))]) (a_customer a) (∅, ∅, ents, ∅)).1.1.1 !! d = Some q ↔
    ∃ b, b ∈ a_customer a ∧ diag b = d ∧ pa_policy b = q ∧ matchesPrincipal (pa_principal b) caller = true ∧
            appliesInRegion (pa_scope b) (pa_region b) (a_region a) = true) as Hsel.
  { intros d q. rewrite select_policies by done. cbn [fst]. unfold applicable. setoid_rewrite andb_true_iff. split; [|auto].
    intros [?|[_ Hx]]; [done|]. by rewrite (lookup_empty (M := gmap string)) in Hx. }
  intros d q. rewrite Hp. destruct (IsAllowlisted id).
  2: { rewrite Hsel. split; [auto|]. intros [?|[? _]]; done. }
  destruct (a_allowlist a) as [al|]; [|rewrite Hsel; split; [auto|]; intros [?|(_ & _ & ?)]; done].
  destruct (decide (d = allowlist_id id)) as [->|Hd].
  - rewrite (lookup_insert_eq (M := gmap string)). split; [intros [= ->]; auto|].
    intros [(b & Hb & Hdb & _)|(_ & _ & [= ->])]; [by apply Hal in Hb|done].
  - rewrite (lookup_insert_ne (M := gmap string)), Hsel by done. split; [auto|]. intros [?|(_ & ? & _)]; done.
Qed.

(** ** The bundle *)

Lemma try_fold_ind {A S} (f : S → A → result error S) (P : list A → S → Prop) l s s' :
  P [] s → (∀ d x s s', P d s → f s x = Ok s' → P (d ++ [x]) s') → try_fold f l s = Ok s' → P l s'.
Proof.
  intros H0' Hf. assert (∀ l d s, P d s → try_fold f l s = Ok s' → P (d ++ l) s') as Hg; [|by apply (Hg l [])].
  clear l s H0'. induction l as [|x l IH]; intros d s Hd E; cbn in E; [rewrite app_nil_r; by simplify_eq|].
  apply result_bind_ok in E as (s1 & E1 & E). rewrite cons_middle, app_assoc. eapply IH; [|done]. by eapply Hf.
Qed.

Lemma accounts_ok l s s' : try_fold add_account l s = Ok s' →
  NoDup l ∧ Forall (λ a, accountPattern a = true) l ∧ (∀ a, a ∈ s' ↔ a ∈ s ∨ a ∈ l) ∧ (∀ a, a ∈ l → a ∉ s).
Proof.
  apply (try_fold_ind add_account (λ l s1, NoDup l ∧ Forall (λ a, accountPattern a = true) l ∧ (∀ a, a ∈ s1 ↔ a ∈ s ∨ a ∈ l) ∧ (∀ a, a ∈ l → a ∉ s))).
  - split; [constructor|]. split; [constructor|]. split; [|by intros a ?%not_elem_of_nil]. intros a. split; [auto|].
    by intros [?|?%not_elem_of_nil].
  - intros d x s1 s2 (Hnd & Hf & Hs & Hn). unfold add_account. destruct (accountPattern x) eqn:Ex; cbn; [|done].
    case_bool_decide as Hin; [done|]. intros [= <-]. rewrite Hs in Hin. apply Decidable.not_or in Hin as [Hxs Hxd].
    split; [apply NoDup_app; split; [done|]; split; [by intros y Hy ->%list_elem_of_singleton|apply NoDup_singleton]|].
    split; [apply Forall_app; split; [done|by constructor]|]. split.
    + intros a. rewrite elem_of_union, elem_of_singleton, Hs, elem_of_app, list_elem_of_singleton. tauto.
    + intros a [?| ->%list_elem_of_singleton]%elem_of_app; auto.
Qed.

(** What an attachment of a bundle is, and the aliases its roles leave. *)
Definition attached (policies : gmap string (string * CPolicy)) (r : attachmentRecord) (b : policyAttachment) : Prop :=
  idPattern (ar_ID r) = true ∧ diag b = ("attachment/" +:+ ar_ID r)%string ∧
  policies !! ar_PolicyID r = Some (account (pa_principal b), pa_policy b) ∧
  parsePrincipal (ar_PrincipalARN r) = Ok (pa_principal b) ∧
  checkedScope (ar_Scope r) (ar_Region r) = None ∧ pa_scope b = ar_Scope r ∧ pa_region b = ar_Region r.

Definition alias_recorded (aliases : gmap string string) (b : policyAttachment) : Prop :=
  kind (pa_principal b) = "role" → aliases !! roleAlias (pa_principal b) = Some (original (pa_principal b)).

Lemma addRoleAlias_ok aliases alias role aliases' : addRoleAlias aliases alias role = Ok aliases' →
  aliases' = <[alias := role]> aliases ∧ (∀ r, aliases !! alias = Some r → r = role).
Proof.
  unfold addRoleAlias. destruct (aliases !! alias) as [r|] eqn:E; [|intros [= <-]; by split].
  destruct (String.eqb_spec r role) as [->|]; [|done]. intros [= <-]. split; [done|]. by intros ? [= <-].
Qed.

Lemma attachments_ok hash policies l customer ids aliases : try_fold (add_attachment hash policies) l ([], ∅, ∅) = Ok (customer, ids, aliases) →
  Forall2 (attached policies) l customer ∧ NoDup (ar_ID <$> l) ∧ Forall (alias_recorded aliases) customer.
Proof.
  intros E. apply (try_fold_ind (add_attachment hash policies) (λ l acc, Forall2 (attached policies) l acc.1.1 ∧ NoDup (ar_ID <$> l) ∧
    (∀ i, i ∈ acc.1.2 ↔ i ∈ ar_ID <$> l) ∧ Forall (alias_recorded acc.2) acc.1.1)) in E; [by destruct E as (? & ? & _ & ?)| |].
  - split; [constructor|]. split; [constructor|]. split; [|constructor]. intros i. cbn. rewrite elem_of_nil. set_solver.
  - intros d r [[c i] al] s' (Hf & Hnd & Hi & Hal). unfold add_attachment. cbn [fst snd] in *.
    destruct (idPattern (ar_ID r)) eqn:Eid; cbn [negb]; [|done]. case_bool_decide as Hin; [done|].
    destruct (policies !! ar_PolicyID r) as [[owner pol]|] eqn:Ep; [|done].
    destruct (parsePrincipal (ar_PrincipalARN r)) as [p|] eqn:Epp; [|done].
    destruct (String.eqb_spec (account p) owner) as [<-|]; cbn [negb]; [|done].
    destruct (checkedScope (ar_Scope r) (ar_Region r)) eqn:Es; [done|].
    destruct (if String.eqb (kind p) "role" then _ else _) as [al'|] eqn:Ea; [|done]. intros [= <-]. cbn [fst snd].
    split; [|split; [|split]].
    + apply Forall2_app; [done|]. constructor; [|constructor]. repeat split; done.
    + rewrite fmap_app. apply NoDup_app. split; [done|]. split; [|apply NoDup_singleton].
      intros x Hx ->%list_elem_of_singleton. by apply Hin, Hi.
    + intros x. rewrite elem_of_union, elem_of_singleton, Hi, fmap_app, elem_of_app. cbn. rewrite list_elem_of_singleton. tauto.
    + destruct (String.eqb_spec (kind p) "role") as [Hk|Hk].
      * apply addRoleAlias_ok in Ea as [-> Hold]. apply Forall_app. split.
        -- eapply Forall_impl; [exact Hal|]. intros b Hb Hkb. specialize (Hb Hkb).
           destruct (decide (roleAlias (pa_principal b) = roleAlias p)) as [Eq|Hn].
           ++ rewrite Eq in Hb |- *. rewrite (lookup_insert_eq (M := gmap string)). by rewrite (Hold _ Hb).
           ++ by rewrite (lookup_insert_ne (M := gmap string)).
        -- constructor; [|constructor]. intros _. cbn. by rewrite (lookup_insert_eq (M := gmap string)).
      * simplify_eq. apply Forall_app. split; [done|]. constructor; [|constructor]. by intros Hkk.
Qed.

Lemma LoadConfig_ok region hash bundle a : LoadConfig region hash (Ok bundle) = Ok a →
  regionPattern region = true ∧ a_region a = region ∧ a_evaluate a = nativeEvaluate ∧ a_bundleHash a = hash ∧
  (∃ al, a_allowlist a = Some al ∧ checkedPolicy "permit(principal, action, resource);" "allowlist" = Ok al) ∧
  NoDup (RegisteredAccounts bundle) ∧ Forall (λ x, accountPattern x = true) (RegisteredAccounts bundle) ∧
  (∀ x, x ∈ a_accounts a ↔ x ∈ RegisteredAccounts bundle) ∧
  ∃ policies, try_fold (add_compiled hash) (Policies bundle) ∅ = Ok policies ∧
    Forall2 (attached policies) (Attachments bundle) (a_customer a) ∧ NoDup (ar_ID <$> Attachments bundle) ∧
    ∃ aliases, Forall (alias_recorded aliases) (a_customer a).
Proof.
  unfold LoadConfig. destruct (regionPattern region) eqn:Er; cbn [negb]; [|done].
  destruct (checkedPolicy _ "allowlist") as [al|] eqn:Eal; [|done]. unfold addBundle. cbn [a_accounts a_customer a_bundleHash a_allowlist a_region a_evaluate].
  intros (accounts & Ea & E)%result_bind_ok. apply result_bind_ok in E as (policies & Ep & E).
  apply result_bind_ok in E as ([[customer ids] aliases] & Ec & [= <-]). cbn.
  apply accounts_ok in Ea as (Hnd & Hf & Hs & _). apply attachments_ok in Ec as (Hatt & Hids & Hal).
  repeat (split; [done|]). split; [eauto|]. split; [done|]. split; [done|]. split; [set_solver|]. exists policies. eauto 6.
Qed.

Lemma attached_diag policies l c : Forall2 (attached policies) l c → diag <$> c = (λ i, "attachment/" +:+ i)%string <$> (ar_ID <$> l).
Proof. induction 1 as [|r b l c Hrb Hf IH]; [done|]. cbn. rewrite IH. by destruct Hrb as (_ & -> & _). Qed.

(** an accepted startup bundle is well formed: the registered accounts are
    distinct account ids and are exactly those enrolled; each attachment, in order,
    has a stable id of its own, a principal of the account that owns the policy it
    names, and a valid scope and region; and the diagnostic ids are distinct and
    never that of the allowlist, so that [Prepare_policies] applies to it. *)
Theorem bundle_wellformed region hash bundle a :
  LoadConfig region hash (Ok bundle) = Ok a →
  NoDup (RegisteredAccounts bundle) ∧ Forall (λ x, accountPattern x = true) (RegisteredAccounts bundle) ∧
  (∀ x, x ∈ a_accounts a ↔ x ∈ RegisteredAccounts bundle) ∧
  (∃ policies, try_fold (add_compiled hash) (Policies bundle) ∅ = Ok policies ∧
     Forall2 (attached policies) (Attachments bundle) (a_customer a)) ∧
  NoDup (diag <$> a_customer a) ∧ ∀ b id, b ∈ a_customer a → diag b ≠ allowlist_id id.
Proof.
  intros (_ & _ & _ & _ & _ & Hnd & Hf & Hs & policies & Hp & Hatt & Hids & _)%LoadConfig_ok.
  repeat (split; [done|]). split; [eauto|]. split.
  - rewrite (attached_diag _ _ _ Hatt). apply NoDup_fmap_2_strong; [|done]. intros x y _ _ Exy. by injection Exy.
  - intros b id [i Hi]%list_elem_of_lookup E. destruct (Forall2_lookup_r _ _ _ _ _ Hatt Hi) as (r & _ & _ & Hd & _).
    rewrite Hd in E. done.
Qed.

(** a session assumes one role: in an accepted bundle all the role attachments a
    caller matches name the same role ARN, although the ARN of a session carries no
    path. *)
Theorem session_single_role region hash bundle a id caller b1 b2 :
  LoadConfig region hash (Ok bundle) = Ok a → checkedIdentity id = Ok caller → b1 ∈ a_customer a → b2 ∈ a_customer a →
  kind (pa_principal b1) = "role" → kind (pa_principal b2) = "role" →
  matchesPrincipal (pa_principal b1) caller = true → matchesPrincipal (pa_principal b2) caller = true →
  original (pa_principal b1) = original (pa_principal b2).
Proof.
  intros (_ & _ & _ & _ & _ & _ & _ & _ & policies & _ & Hatt & _ & aliases & Hal)%LoadConfig_ok (Hc & _ & Hkc)%checkedIdentity_ok
    Hb1 Hb2 Hk1 Hk2 Hm1 Hm2.
  assert (∀ b, b ∈ a_customer a → kind (pa_principal b) = "role" → matchesPrincipal (pa_principal b) caller = true →
    aliases !! roleAlias caller = Some (original (pa_principal b))) as Hx.
  { intros b Hb Hk Hm. rewrite Forall_forall in Hal. rewrite <- (Hal b Hb Hk).
    apply list_elem_of_lookup in Hb as [i Hi]. destruct (Forall2_lookup_r _ _ _ _ _ Hatt Hi) as (r & _ & _ & _ & _ & Hp & _).
    destruct (proj1 (matchesPrincipal_true _ _ _ _ Hp Hc) Hm) as [Earn|(_ & Hck & Ha & Hr)]; [rewrite Earn, Hc in Hp; congruence|].
    apply parsePrincipal_ok in Hp, Hc. unfold roleAlias. by rewrite (po_partition _ _ Hp), (po_partition _ _ Hc), Ha, Hr. }
  pose proof (Hx b1 Hb1 Hk1 Hm1) as E1. pose proof (Hx b2 Hb2 Hk2 Hm2) as E2. congruence.
Qed.
End authorizer.

(** ** Witnesses *)

Section witnesses.
#[local] Existing Instances arn_splitter text_engine.

Definition acme_bundle : configBundle := mkBundle 1 ["123456789012"]
  [mkPolicyRecord "all" "123456789012" "permit(principal, action, resource);";
   mkPolicyRecord "none" "123456789012" "forbid(principal, action, resource);"]
  [mkAttachmentRecord "a1" "all" "arn:aws:iam::123456789012:role/eng/Deployer" "global" "";
   mkAttachmentRecord "a2" "all" "arn:aws:iam::123456789012:role/eng/Deployer" "regional" "us-east-1";
   mkAttachmentRecord "a3" "none" "arn:aws:iam::123456789012:user/bob" "global" ""].

Definition acme_authorizer : Authorizer :=
  match LoadConfig "us-east-1" "h" (Ok acme_bundle) with
  | Ok a => a
  | Err _ => mkAuthorizer "" [] None "" ∅ nativeEvaluate
  end.

Lemma is_ok_default {E A} (r : result E A) d : is_ok r = true → r = Ok (match r with Ok a => a | Err _ => d end).
Proof. by destruct r. Qed.

Lemma acme_loads : LoadConfig "us-east-1" "h" (Ok acme_bundle) = Ok acme_authorizer.
Proof. apply is_ok_default. vm_compute. reflexivity. Qed.

Definition alice : Identity := mkIdentity "123456789012" "arn:aws:sts::123456789012:assumed-role/Deployer/alice" false.
Definition at_noon : RequestContext := mkRequestContext "10.0.0.1" "curl" (mkTime 1700000000 0) ∅.
Definition no_cancel : ctx_t := fun _ => None.
Definition dummy_prepared : Prepared := mkPrepared alice "" (entityUID "" "") ∅ ∅ [] ∅ nativeEvaluate.
Definition alice_prepared : Prepared :=
  match Prepare acme_authorizer no_cancel alice at_noon with Ok p => p | Err _ => dummy_prepared end.
Definition cluster (id : string) : Resource := mkResource Cluster id "123456789012" ∅ "" None.
Definition pool (c id : string) : Resource := mkResource NodePool id "123456789012" ∅ "" (Some (mkParentCluster c "123456789012" ∅)).

Lemma alice_prepares : Prepare acme_authorizer no_cancel alice at_noon = Ok alice_prepared.
Proof. apply is_ok_default. vm_compute. reflexivity. Qed.

Lemma alice_native : p_evaluate alice_prepared = nativeEvaluate.
Proof.
  destruct (Prepare_ok _ _ _ _ _ alice_prepares) as (_ & _ & _ & _ & -> & _).
  by destruct (LoadConfig_ok _ _ _ _ acme_loads) as (_ & _ & -> & _).
Qed.

Definition decision_of (r : result error AuthzModel.Decision) : AuthzModel.Decision :=
  match r with Ok d => d | Err _ => mkDecision false [] end.

Lemma Check_sound_witness :
  Allowed (decision_of (Check alice_prepared no_cancel DescribeCluster (cluster "c1"))) = true ∧
  ∃ i, i ∈ ["attachment/a1"; "attachment/a2"] ∧ is_Some (p_provenance alice_prepared !! i).
Proof.
  destruct (Check_sound alice_prepared no_cancel DescribeCluster (cluster "c1")
    (decision_of (Check alice_prepared no_cancel DescribeCluster (cluster "c1")))) as (_ & ents & uid & reasons & Hr & _ & _ & Hc & Hs & _);
    [exact alice_native|vm_compute; reflexivity|].
  split; [vm_compute; reflexivity|]. exists "attachment/a1". split; [left|]. vm_compute. eexists. reflexivity.
Defined.

Lemma Check_failure_witness : ∃ st prov diags err,
  Check alice_prepared no_cancel DescribeCluster (mkResource Cluster "c1" "999999999999" ∅ "" None) = Err (EFailure st DescribeCluster prov diags err).
Proof.
  destruct (Check_failure alice_prepared no_cancel DescribeCluster (mkResource Cluster "c1" "999999999999" ∅ "" None)
    (EFailure StageEntityValidation DescribeCluster [] [] (EPlain "resource ownership does not match identity account")))
    as (st & prov & diags & err & E); [vm_compute; reflexivity|].
  exists st, prov, diags, err. rewrite <- E. vm_compute. reflexivity.
Defined.

Lemma uid_of {E A B} (r : result E (A * B)) u : snd <$> r = Ok u → ∃ e, r = Ok (e, u).
Proof. destruct r as [[e u']|]; [|done]. intros [= ->]. eauto. Qed.

Lemma resource_uid_injective_witness :
  res_ID (pool "c1" "p1") = res_ID (pool "c1" "p1") ∧ pc_ID <$> res_ParentCluster (pool "c1" "p1") = Some "c1".
Proof.
  destruct (uid_of (resourceEntities alice_prepared DescribeNodePool (pool "c1" "p1")) (entityUID "NodePool" "123456789012/us-east-1/c1/p1"))
    as [e1 E1]; [vm_compute; reflexivity|].
  destruct (uid_of (resourceEntities alice_prepared DeleteNodePool (pool "c1" "p1")) (entityUID "NodePool" "123456789012/us-east-1/c1/p1"))
    as [e2 E2]; [vm_compute; reflexivity|].
  destruct (resource_uid_injective alice_prepared DescribeNodePool DeleteNodePool (pool "c1" "p1") (pool "c1" "p1") e1 e2
    (entityUID "NodePool" "123456789012/us-east-1/c1/p1") E1 E2) as (_ & H & _ & _).
  split; [exact H|reflexivity].
Defined.

Lemma Prepare_policies_witness : p_policies alice_prepared !! "attachment/a1" = Some "permit(principal, action, resource);" ∧
  ∃ caller, checkedIdentity alice = Ok caller.
Proof.
  destruct (Prepare_policies acme_authorizer no_cancel alice at_noon alice_prepared) as (caller & Hc & _ & _ & Hp).
  - apply (bool_decide_unpack _). vm_compute. exact I.
  - apply (proj1 (Forall_forall (λ b, diag b ≠ allowlist_id alice) (a_customer acme_authorizer))).
    apply (bool_decide_unpack _). vm_compute. exact I.
  - exact alice_prepares.
  - split; [vm_compute; reflexivity|]. exists caller. exact Hc.
Defined.

Lemma bundle_wellformed_witness : NoDup (diag <$> a_customer acme_authorizer) ∧ List.length (a_customer acme_authorizer) = 3.
Proof.
  split; [|vm_compute; reflexivity]. apply (bundle_wellformed "us-east-1" "h" acme_bundle acme_authorizer). exact acme_loads.
Defined.

Definition no_binding : policyAttachment :=
  mkPolicyAttachment (mkProvenance "" "" "" "" "" "") "" (mkPrincipal "" "" "" "" "") "" "".
Definition acme_binding (i : nat) : policyAttachment := default no_binding (a_customer acme_authorizer !! i).

Lemma acme_binding_in i : Nat.ltb i 3 = true → acme_binding i ∈ a_customer acme_authorizer.
Proof.
  intros Hi. apply list_elem_of_lookup. exists i. unfold acme_binding.
  destruct (a_customer acme_authorizer !! i) eqn:E; [done|]. apply lookup_ge_None_1 in E.
  assert (List.length (a_customer acme_authorizer) = 3) as Hl by (vm_compute; reflexivity). apply Nat.ltb_lt in Hi. lia.
Qed.

Lemma session_single_role_witness :
  diag (acme_binding 0) ≠ diag (acme_binding 1) ∧
  original (pa_principal (acme_binding 0)) = original (pa_principal (acme_binding 1)).
Proof.
  split; [vm_compute; discriminate|].
  apply (session_single_role "us-east-1" "h" acme_bundle acme_authorizer alice
    (mkPrincipal "aws" "123456789012" "assumed-role" "Deployer" "arn:aws:sts::123456789012:assumed-role/Deployer/alice")
    (acme_binding 0) (acme_binding 1));
    [exact acme_loads|vm_compute; reflexivity|apply acme_binding_in; reflexivity|apply acme_binding_in; reflexivity|vm_compute; reflexivity..].
Defined.
End witnesses.
