(* ===== verification/AuthzManagement.v ===== *)
(** * Management of policies and attachments (pkg/authz/management.go, management_config.go)

    The requests of account administrators: [authorize] decides on them with the
    bootstrap administrators or with Cedar over the grants stored in DynamoDB, and
    each operation calls the account's store only with its permission. *)
From S2P Require Import Prelude GoStrings AwsArn AuthzModel Arn Template Dynamo AuthzStore AuthzStoreProps AuthzStoreTheorems Authorizer.
From stdpp Require Import base gmap strings list fin_maps.
From Stdlib Require Import ZArith Lia Ascii String.
Open Scope string_scope.
Open Scope list_scope.

(** ** Configuration *)

Record ManagementAccount := mkManagementAccount {
  ma_WriterRegion : string;
  ma_AdministratorARNs : option (list string)
}.

Record ManagementConfig := mkManagementConfig {
  cfg_FormatVersion : Z;
  cfg_PolicyTable : string;
  cfg_GlobalTable : string;
  cfg_RegionalTable : string;
  cfg_Accounts : option (gmap string ManagementAccount)
}.

(** [^[A-Za-z0-9_.-]{3,255}$] *)
Definition tablePattern (s : string) : bool :=
  str_forall (fun a => is_alnum a || in_set "_.-" a) s && Nat.leb 3 (String.length s) && Nat.leb (String.length s) 255.

Section config.
Context `{ArnParser}.

(** The administrators of one account; the ARNs seen and the role aliases. *)
Definition check_admin (account_id : string) (acc : gset string * gmap string string) (value : string) : result error (gset string * gmap string string) :=
  let '(seen, aliases) := acc in
  match parsePrincipal value with
  | Err _ => Err (validation_error "invalid or duplicate administrator ARN")
  | Ok principal =>
      if negb (String.eqb (account principal) account_id) || bool_decide (value ∈ seen)
      then Err (validation_error "invalid or duplicate administrator ARN")
      else if String.eqb (kind principal) "role" then
        match addRoleAlias aliases (roleAlias principal) (original principal) with
        | Ok aliases => Ok ({[value]} ∪ seen, aliases)
        | Err _ => Err (validation_error "ambiguous role alias")
        end
      else Ok ({[value]} ∪ seen, aliases)
  end.

Definition check_account (e : string * ManagementAccount) : result error unit :=
  match ma_AdministratorARNs e.2 with
  | None => Err (validation_error "invalid account configuration")
  | Some arns =>
      if negb (accountPattern e.1) || negb (regionPattern (ma_WriterRegion e.2)) then Err (validation_error "invalid account configuration")
      else _ ← try_fold (check_admin e.1) arns (∅, ∅); Ok tt
  end.

(** The accounts are checked in the order of the map's iteration. *)
Definition checkManagementConfig (cfg : ManagementConfig) : result error unit :=
  match cfg_Accounts cfg with
  | None => Err (validation_error "version 1 and accounts are required")
  | Some accounts =>
      let tables := [cfg_PolicyTable cfg; cfg_GlobalTable cfg; cfg_RegionalTable cfg] in
      if negb (cfg_FormatVersion cfg =? 1)%Z then Err (validation_error "version 1 and accounts are required")
      else if negb (forallb tablePattern tables) || negb (bool_decide (NoDup tables))
      then Err (validation_error "three distinct DynamoDB table names required")
      else try_fold (fun _ e => check_account e) (map_to_list accounts) tt
  end.

Record Management := mkManagement {
  m_stores : gmap string StoreConfig;
  m_administrators : gmap string (list principalARN)
}.

Fixpoint parse_all (arns : list string) : result error (list principalARN) :=
  match arns with
  | [] => Ok []
  | v :: rest => p ← parsePrincipal v; ps ← parse_all rest; Ok (p :: ps)
  end.

Definition add_store (cfg : ManagementConfig) (region : string) (m : Management) (e : string * ManagementAccount) : result error Management :=
  store ← NewStore (mkStoreConfig e.1 region (ma_WriterRegion e.2) (cfg_PolicyTable cfg) (cfg_GlobalTable cfg) (cfg_RegionalTable cfg));
  admins ← parse_all (default [] (ma_AdministratorARNs e.2));
  Ok (mkManagement (<[e.1 := store]> (m_stores m))
        (if Nat.eqb (List.length admins) 0 then m_administrators m
         else <[e.1 := default [] (m_administrators m !! e.1) ++ admins]> (m_administrators m))).

Definition NewManagement (cfg : ManagementConfig) (region : string) : result error Management :=
  _ ← checkManagementConfig cfg;
  if negb (regionPattern region) then Err (validation_error "client and service region required")
  else try_fold (add_store cfg region) (map_to_list (default ∅ (cfg_Accounts cfg))) (mkManagement ∅ ∅).

End config.

Record ManagementCaller := mkCaller { mc_AccountID : string; mc_CallerARN : string; mc_Request : RequestContext }.

Record DeletionReceipt := mkReceipt { rc_ID : string; rc_DeletedRevision : string; rc_CommittedRegion : string }.

Section management.
Context `{Backend, ArnParser, CedarEngine, UnicodeTables, RecordCodec}.
Context (pages : nat).

(** ** Prepared stored grants (store_resolution.go) *)

Definition bind_attachment (record : ResolvedAttachment) : result error policyAttachment :=
  let binding := r_Attachment record in
  let policy := r_Policy record in
  match parsePrincipal (att_PrincipalARN binding) with
  | Err err => Err (newFailure StageBinding err [])
  | Ok principal =>
      match bindPolicy (pol_Content policy) (pol_ID policy) principal with
      | Err err => Err (newFailure StageBinding err [])
      | Ok bound =>
          Ok (mkPolicyAttachment
                (mkProvenance (bindingDiagnosticID binding) (pol_ID policy) "" (att_ID binding) (pol_Revision policy) (att_Revision binding))
                bound principal (att_Scope binding) (att_Region binding))
      end
  end.

Fixpoint bind_all (records : list ResolvedAttachment) : result error (list policyAttachment) :=
  match records with
  | [] => Ok []
  | r :: rest => b ← bind_attachment r; bs ← bind_all rest; Ok (b :: bs)
  end.

Definition prepareScopes (s : StoreConfig) (ctx : ctx_t) (id : Identity) (req : RequestContext) (scopes : list AttachmentScope) : M Prepared :=
  resolved ← wrapping managementResultResolution (resolveScopes s pages id scopes);
  customer ← lift (bind_all resolved);
  lift (Prepare (mkAuthorizer "" customer None (Region s) ∅ nativeEvaluate) ctx id req).

Definition StorePrepare (s : StoreConfig) (ctx : ctx_t) (id : Identity) (req : RequestContext) : M Prepared :=
  prepareScopes s ctx id req [GlobalScope; RegionalScope].

(** ** Authorization *)

Definition IsManaged (m : Management) (ctx : ctx_t) (account_id : string) : bool :=
  match ctx 0 with Some _ => false | None => bool_decide (is_Some (m_stores m !! account_id)) end.

Definition caller_identity (caller : ManagementCaller) : Identity := mkIdentity (mc_AccountID caller) (mc_CallerARN caller) false.

(** The scopes of the grants that may authorize an action. *)
Definition action_scopes (action : Action) : list AttachmentScope :=
  GlobalScope :: (if isRegionalAction action then [RegionalScope] else []).

Definition action_resource (account_id : string) (action : Action) (id : string) : Resource :=
  let kind := actionResourceKind action in
  if listAction action then mkResource Collection "" account_id ∅ kind None
  else mkResource kind id account_id ∅ "" None.

Definition authorize (m : Management) (ctx : ctx_t) (caller : ManagementCaller) (action : Action) (id : string) : M StoreConfig :=
  match checkedIdentity (caller_identity caller), m_stores m !! mc_AccountID caller with
  | Ok principal, Some store =>
      match ctx 0 with
      | Some err => fail (EWrap (ESentinel ErrUnavailable) (EPlain err))
      | None =>
          if isGlobalMutation action && negb (String.eqb (Region store) (WriterRegion store))
          then fail (EWrongWriter (WriterRegion store))
          else if existsb (fun admin => matchesPrincipal admin principal) (default [] (m_administrators m !! mc_AccountID caller))
          then mret store
          else
            prepared ← prepareScopes store (later 1 ctx) (caller_identity caller) (mc_Request caller) (action_scopes action);
            decision ← lift (Check prepared (later 3 ctx) action (action_resource (mc_AccountID caller) action id));
            if Allowed decision then mret store else fail (ESentinel ErrManagementDenied)
      end
  | _, _ => fail (ESentinel ErrManagementDenied)
  end.

(** ** Operations *)

Definition checkPolicyRef (ref : PolicyRef) : result error unit :=
  if negb (isStoreID (ref_ID ref)) || (negb (String.eqb (ref_Kind ref) CustomPolicy) && negb (String.eqb (ref_Kind ref) ManagedPolicy))
  then Err (validation_error "invalid policy reference") else Ok tt.

Definition checkPolicyMutation (ref : PolicyRef) (expected : string) : result error unit :=
  _ ← checkPolicyRef ref;
  if String.eqb (ref_Kind ref) ManagedPolicy then Err (ESentinel ErrManagedPolicy)
  else if negb (isRevision expected) then Err (validation_error "expected revision required")
  else Ok tt.

Definition attachmentAction (scope : AttachmentScope) (global regional : Action) : result error Action :=
  if String.eqb scope GlobalScope then Ok global
  else if String.eqb scope RegionalScope then Ok regional
  else Err (validation_error "invalid attachment scope").

Context (m : Management) (ctx : ctx_t) (caller : ManagementCaller).

Definition mgmt_CreatePolicy (id content : string) : M StoredPolicy :=
  store ← authorize m ctx caller AuthzModel.CreatePolicy id;
  wrapping managementResult (CreatePolicy store id content).

Definition mgmt_ListPolicies : M (list StoredPolicy) :=
  store ← authorize m ctx caller AuthzModel.ListPolicies "";
  wrapping managementResult (ListPolicies store pages).

Definition mgmt_GetPolicy (ref : PolicyRef) : M StoredPolicy :=
  _ ← lift (checkPolicyRef ref);
  store ← authorize m ctx caller DescribePolicy (ref_ID ref);
  wrapping managementResult (GetPolicy store ref).

Definition mgmt_UpdatePolicy (ref : PolicyRef) (expected content : string) : M StoredPolicy :=
  _ ← lift (checkPolicyMutation ref expected);
  store ← authorize m ctx caller AuthzModel.UpdatePolicy (ref_ID ref);
  wrapping managementResult (UpdatePolicy store (ref_ID ref) expected content).

Definition mgmt_DeletePolicy (ref : PolicyRef) (expected : string) : M DeletionReceipt :=
  _ ← lift (checkPolicyMutation ref expected);
  store ← authorize m ctx caller AuthzModel.DeletePolicy (ref_ID ref);
  _ ← wrapping managementResult (DeletePolicy store (ref_ID ref) expected);
  mret (mkReceipt (ref_ID ref) expected (Region store)).

Definition mgmt_CreateAttachment (spec : AttachmentSpec) : M StoredAttachment :=
  action ← lift (attachmentAction (Scope spec) AuthzModel.CreateAttachment CreateAttachmentRegional);
  store ← authorize m ctx caller action "";
  _ ← lift (checkPolicyRef (spec_Policy spec));
  _ ← (match parsePrincipal (PrincipalARN spec) with
       | Ok principal => guard_err (negb (String.eqb (account principal) (mc_AccountID caller)))
                           (validation_error "principal must belong to the caller account")
       | Err _ => fail (validation_error "principal must belong to the caller account")
       end);
  wrapping managementResult (CreateAttachment store spec).

(** The scopes of a list: both when none is asked for. *)
Definition list_scopes (scope : AttachmentScope) : list AttachmentScope :=
  if String.eqb scope "" then [GlobalScope; RegionalScope] else [scope].

(** The [i]-th authorization of a list observes the context after the earlier ones. *)
Fixpoint authorize_scopes (i : nat) (scopes : list AttachmentScope) (store : option StoreConfig) : M (option StoreConfig) :=
  match scopes with
  | [] => mret store
  | scope :: rest =>
      action ← lift (attachmentAction scope AuthzModel.ListAttachments ListAttachmentsRegional);
      store ← authorize m (later (5 * i) ctx) caller action "";
      authorize_scopes (S i) rest (Some store)
  end.

Definition mgmt_ListAttachments (scope : AttachmentScope) : M (list StoredAttachment) :=
  store ← authorize_scopes 0 (list_scopes scope) None;
  match store with
  | None => mret []
  | Some store =>
      for_each (fun bindings scope =>
        part ← wrapping managementResult (readBindings store pages scope (account_pk (mc_AccountID caller)));
        mret (bindings ++ part)) (list_scopes scope) []
  end.

Definition mgmt_DeleteAttachment (scope : AttachmentScope) (id expected : string) : M DeletionReceipt :=
  action ← lift (attachmentAction scope AuthzModel.DeleteAttachment DeleteAttachmentRegional);
  _ ← guard_err (negb (isStoreID id) || negb (isRevision expected)) (validation_error "valid attachment ID and revision required");
  store ← authorize m ctx caller action id;
  _ ← wrapping managementResult (DeleteAttachment store scope id expected);
  mret (mkReceipt id expected (Region store)).

End management.

(** * The theorems of the management operations

    What an authorization rests on, and that no operation writes without it. *)
From stdpp Require Import base gmap strings list fin_maps relations.
From Stdlib Require Import ZArith Lia Ascii String.
Open Scope string_scope.
Open Scope list_scope.

(** The operations that write. *)
Inductive MgmtOp :=
| MCreatePolicy (id content : string)
| MUpdatePolicy (ref : PolicyRef) (expected content : string)
| MDeletePolicy (ref : PolicyRef) (expected : string)
| MCreateAttachment (spec : AttachmentSpec)
| MDeleteAttachment (scope : AttachmentScope) (id expected : string).

(** The permission an operation needs, and the object it is checked on. *)
Definition mgmt_action (op : MgmtOp) : Action :=
  match op with
  | MCreatePolicy _ _ => AuthzModel.CreatePolicy
  | MUpdatePolicy _ _ _ => AuthzModel.UpdatePolicy
  | MDeletePolicy _ _ => AuthzModel.DeletePolicy
  | MCreateAttachment spec =>
      if String.eqb (Scope spec) GlobalScope then AuthzModel.CreateAttachment else CreateAttachmentRegional
  | MDeleteAttachment scope _ _ => if String.eqb scope GlobalScope then AuthzModel.DeleteAttachment else DeleteAttachmentRegional
  end.

Definition mgmt_target (op : MgmtOp) : string :=
  match op with
  | MCreatePolicy id _ => id
  | MUpdatePolicy ref _ _ | MDeletePolicy ref _ => ref_ID ref
  | MCreateAttachment _ => ""
  | MDeleteAttachment _ id _ => id
  end.

(** The store operation behind it. *)
Definition mgmt_store_op (op : MgmtOp) : StoreOp :=
  match op with
  | MCreatePolicy id content => OpCreatePolicy id content
  | MUpdatePolicy ref expected content => OpUpdatePolicy (ref_ID ref) expected content
  | MDeletePolicy ref expected => OpDeletePolicy (ref_ID ref) expected
  | MCreateAttachment spec => OpCreateAttachment spec
  | MDeleteAttachment scope id expected => OpDeleteAttachment scope id expected
  end.

Section management.
Context `{B : Backend, ArnParser, CedarEngine, UnicodeTables, RecordCodec}.
Context (pages : nat) (m : Management) (ctx : ctx_t) (caller : ManagementCaller).

Definition mgmt_run (op : MgmtOp) : M unit :=
  match op with
  | MCreatePolicy id content => discard (mgmt_CreatePolicy pages m ctx caller id content)
  | MUpdatePolicy ref expected content => discard (mgmt_UpdatePolicy pages m ctx caller ref expected content)
  | MDeletePolicy ref expected => discard (mgmt_DeletePolicy pages m ctx caller ref expected)
  | MCreateAttachment spec => discard (mgmt_CreateAttachment pages m ctx caller spec)
  | MDeleteAttachment scope id expected => discard (mgmt_DeleteAttachment pages m ctx caller scope id expected)
  end.

(** *** What an authorization rests on *)

Lemma bind_all_from rs customer : bind_all rs = Ok customer → ∀ b, b ∈ customer → ∃ r, r ∈ rs ∧ bind_attachment r = Ok b.
Proof.
  revert customer. induction rs as [|r rs IH]; intros customer; cbn; [intros [= <-] b Hb; by apply not_elem_of_nil in Hb|].
  intros (b0 & Hb0 & E)%result_bind_ok. apply result_bind_ok in E as (bs & Hbs & [= <-]).
  intros b [->|Hb]%elem_of_cons; [exists r; split; [by left|done]|]. destruct (IH _ Hbs b Hb) as (r' & ? & ?).
  exists r'. split; [by right|done].
Qed.

Lemma bind_attachment_ok r b : bind_attachment r = Ok b →
  diag b = bindingDiagnosticID (r_Attachment r) ∧ pa_scope b = att_Scope (r_Attachment r) ∧ pa_region b = att_Region (r_Attachment r) ∧
  parsePrincipal (att_PrincipalARN (r_Attachment r)) = Ok (pa_principal b) ∧
  bindPolicy (pol_Content (r_Policy r)) (pol_ID (r_Policy r)) (pa_principal b) = Ok (pa_policy b).
Proof.
  unfold bind_attachment. destruct (parsePrincipal _) as [p|]; [|done]. destruct (bindPolicy _ _ p) as [c|] eqn:E; [|done].
  intros [= <-]. done.
Qed.

Lemma bind_all_diag rs customer : bind_all rs = Ok customer → diag <$> customer = bindingDiagnosticID <$> (r_Attachment <$> rs).
Proof.
  revert customer. induction rs as [|r rs IH]; intros customer; cbn; [by intros [= <-]|].
  intros (b0 & Hb0 & E)%result_bind_ok. apply result_bind_ok in E as (bs & Hbs & [= <-]). cbn.
  rewrite (IH _ Hbs). by apply bind_attachment_ok in Hb0 as (-> & _).
Qed.

(** The Cedar id of the object a management action is checked on: the account's
    collection, or the object of that id, in the region of its store. *)
Definition managed_uid (region : string) (action : Action) (id : string) : EntityUID :=
  if listAction action then entityUID "Collection" (scoped (mc_AccountID caller) region (collectionName (actionResourceKind action)))
  else entityUID (actionResourceKind action) (scoped (mc_AccountID caller) region id).

(** The request of this caller for this action on this object. *)
Definition management_request (region : string) (action : Action) (id : string) : CedarRequest :=
  mkCedarRequest (entityUID "Principal" (mc_CallerARN caller)) (entityUID "Action" action) (managed_uid region action id)
    (request_context region (caller_identity caller) (mc_Request caller) (entityUID "RequestLabels" "request")).

(** The grant [r] applies to the caller with the policy [q]: its principal matches, the
    policy is the stored one bound to that principal, and it is global, or a regional
    grant of this region that may authorize the action. *)
Definition grant_applies (caller : principalARN) (region : string) (action : Action) (r : ResolvedAttachment) (q : CPolicy) : Prop :=
  ∃ p, parsePrincipal (att_PrincipalARN (r_Attachment r)) = Ok p ∧ matchesPrincipal p caller = true ∧
    bindPolicy (pol_Content (r_Policy r)) (pol_ID (r_Policy r)) p = Ok q ∧
    (att_Scope (r_Attachment r) = GlobalScope ∨
     isRegionalAction action = true ∧ att_Scope (r_Attachment r) = RegionalScope ∧ att_Region (r_Attachment r) = region).

Lemma Prepare_context a c id req p : Prepare a c id req = Ok p → p_requestContext p = request_context (a_region a) id req (entityUID "RequestLabels" "request").
Proof.
  unfold Prepare. destruct (c 0); [done|]. destruct (checkedIdentity id); [|done]. destruct (IsZero _); [done|]. cbv zeta.
  destruct (fold_left _ (a_customer a) _) as [[[pols prov] ents] pars]. destruct (if IsAllowlisted id then _ else _).
  destruct (validate_Entities _); [done|]. destruct (c 1); [done|]. by intros [= <-].
Qed.

Lemma managed_uid_spec p action id entities uid :
  resourceEntities p action (action_resource (mc_AccountID caller) action id) = Ok (entities, uid) → uid = managed_uid (p_region p) action id.
Proof.
  unfold resourceEntities, managed_uid. intros (kind & Hk & E)%result_bind_ok.
  assert (res_AccountID (action_resource (mc_AccountID caller) action id) = mc_AccountID caller) as Ha by (unfold action_resource; by destruct (listAction action)).
  assert (kind = actionResourceKind action) as ->.
  { unfold validateResourceIdentity in Hk. revert Hk. unfold action_resource. destruct (listAction action) eqn:El; cbn.
    - rewrite andb_false_r. repeat (match goal with |- (if ?b then _ else _) = _ → _ => destruct b; [done|] end). by intros [= ->].
    - destruct (label_action action && _); repeat (match goal with |- (if ?b then _ else _) = _ → _ => destruct b; [done|] end); by intros [= ->]. }
  rewrite Ha in E. destruct (listAction action) eqn:El; [by injection E as _ <-|].
  unfold action_resource in E. rewrite El in E. cbn in E. destruct (String.eqb (actionResourceKind action) NodePool); [done|]. by injection E as _ <-.
Qed.

(** Every resolved grant is bound, and its binding is prepared. *)
Lemma bind_all_to rs customer : bind_all rs = Ok customer → ∀ r, r ∈ rs → ∃ b, b ∈ customer ∧ bind_attachment r = Ok b.
Proof.
  revert customer. induction rs as [|r rs IH]; intros customer; cbn; [by intros _ r Hr%not_elem_of_nil|].
  intros (b0 & Hb0 & E)%result_bind_ok. apply result_bind_ok in E as (bs & Hbs & [= <-]).
  intros r' [->|Hr]%elem_of_cons; [exists b0; split; [by left|done]|]. destruct (IH _ Hbs r' Hr) as (b & ? & ?).
  exists b. split; [by right|done].
Qed.

(** The policies prepared from resolved grants are those of the grants that apply. *)
Lemma prepared_policies store c req action id w w' rs customer prepared principal :
  resolveScopes store pages id (action_scopes action) w = (w', Ok rs) → bind_all rs = Ok customer → IsAllowlisted id = false →
  Prepare (mkAuthorizer "" customer None (Region store) ∅ nativeEvaluate) c id req = Ok prepared → checkedIdentity id = Ok principal →
  ∀ d q, p_policies prepared !! d = Some q ↔
    ∃ r, r ∈ rs ∧ d = bindingDiagnosticID (r_Attachment r) ∧ grant_applies principal (Region store) action r q.
Proof.
  intros Er Hb Hal Hp Ec d q. apply Prepare_ok in Hp as (principal' & Hc' & _ & _ & _ & _ & ents & Hpol). rewrite Ec in Hc'. simplify_eq.
  apply (resolveScopes_ok (λ _, True)) in Er as (_ & c' & _ & _ & _ & _ & Hnd & [Hsrc _] & _); [|by split|done].
  cbn in Hpol. rewrite Hal in Hpol. rewrite Hpol, select_policies by (by rewrite (bind_all_diag _ _ Hb)). cbn [fst]. split.
  - intros [(b & Hbin & <- & <- & Happ)|[_ Hq]]; [|by rewrite (lookup_empty (M := gmap string)) in Hq].
    destruct (bind_all_from _ _ Hb b Hbin) as (r & Hr & Hbr). apply bind_attachment_ok in Hbr as (Hdg & Hsc & Hrg & Hpp & Hbp).
    exists r. split_and!; [done..|]. exists (pa_principal b). apply andb_true_iff in Happ as [Hm Hreg]. split_and!; [done..|].
    destruct (Hsrc (r_Attachment r)) as (scope & pk & items & it & Hpair & _ & _ & Hrb); [by apply list_elem_of_fmap; eauto|].
    apply elem_of_pairs in Hpair as [Hscope _]. apply read_binding_ok in Hrb as (_ & Hs & _ & _).
    rewrite <- Hs in Hscope. unfold action_scopes in Hscope. apply elem_of_cons in Hscope as [->|Hscope]; [by left|right].
    destruct (isRegionalAction action); [|by apply not_elem_of_nil in Hscope]. apply list_elem_of_singleton in Hscope.
    split_and!; [done..|]. rewrite Hsc, Hrg, Hscope in Hreg. by apply String.eqb_eq.
  - intros (r & Hr & -> & p & Hpp & Hm & Hbp & Hsc). left. destruct (bind_all_to _ _ Hb r Hr) as (b & Hbin & Hbr).
    apply bind_attachment_ok in Hbr as (Hdg & Hs & Hrg & Hpp' & Hbp'). rewrite Hpp in Hpp'. simplify_eq. rewrite Hbp in Hbp'. simplify_eq.
    exists b. split_and!; [done..|]. unfold applicable. rewrite Hm, Hs, Hrg. destruct Hsc as [->|(_ & -> & ->)]; [done|].
    exact (String.eqb_refl _).
Qed.

(** C15: [authorize] answers only for a checked caller of an account with a store,
    only in the writer region for a global mutation, and only to a bootstrap
    administrator of that account or by Cedar's decision Allow, without evaluation
    errors, on the request of this caller for this action on this object — its entity
    built from the prepared identity — and on exactly the policies of the grants this
    call resolved that apply to the caller, forbidding ones included. A grant applies
    only when its scope may authorize the action: regional attachments never authorize
    the management of policies or of global attachments, and only in their own region
    the management of regional ones. *)
Theorem authorize_sound action id w w' store :
  authorize pages m ctx caller action id w = (w', Ok store) →
  ∃ principal, checkedIdentity (caller_identity caller) = Ok principal ∧
    m_stores m !! mc_AccountID caller = Some store ∧
    (isGlobalMutation action = true → Region store = WriterRegion store) ∧
    ((w' = w ∧ ∃ admin, admin ∈ default [] (m_administrators m !! mc_AccountID caller) ∧ matchesPrincipal admin principal = true) ∨
     ∃ rs customer prepared entities reasons,
       resolveScopes store pages (caller_identity caller) (action_scopes action) w = (w', Ok rs) ∧ bind_all rs = Ok customer ∧
       Prepare (mkAuthorizer "" customer None (Region store) ∅ nativeEvaluate) (later 1 ctx) (caller_identity caller) (mc_Request caller) = Ok prepared ∧
       resourceEntities prepared action (action_resource (mc_AccountID caller) action id) = Ok (entities, managed_uid (Region store) action id) ∧
       cedar_Authorize (p_policies prepared) entities (management_request (Region store) action id) = (true, reasons, []) ∧
       ∀ d q, p_policies prepared !! d = Some q ↔
         ∃ r, r ∈ rs ∧ d = bindingDiagnosticID (r_Attachment r) ∧ grant_applies principal (Region store) action r q).
Proof.
  unfold authorize. destruct (checkedIdentity (caller_identity caller)) as [principal|] eqn:Ec; [|done].
  destruct (m_stores m !! mc_AccountID caller) as [st|] eqn:Es; [|done]. destruct (ctx 0); [done|].
  destruct (isGlobalMutation action && negb (String.eqb (Region st) (WriterRegion st))) eqn:Ew; [done|].
  assert (isGlobalMutation action = true → Region st = WriterRegion st) as Hw.
  { intros Hg. rewrite Hg in Ew. by apply negb_false_iff, String.eqb_eq in Ew. }
  destruct (existsb _ _) eqn:Ea.
  { intros [-> <-]%mret_ok. exists principal. repeat (split; [done|]). left. split; [done|]. apply existsb_exists in Ea as (admin & Hin & Hm).
    exists admin. split; [by apply list_elem_of_In|done]. }
  intros E. apply M_bind_ok in E as (w1 & prepared & Ep & E). apply M_bind_ok in E as (w2 & d & [-> Hd]%lift_ok & E).
  destruct (Allowed d) eqn:Eal; [|done]. apply mret_ok in E as [-> <-]. exists principal. repeat (split; [done|]). right.
  unfold prepareScopes in Ep. apply M_bind_ok in Ep as (w2 & rs & Er & Ep). apply wrapping_ok in Er.
  apply M_bind_ok in Ep as (w3 & customer & [-> Hb]%lift_ok & Ep). apply lift_ok in Ep as [-> Hp].
  unfold Check in Hd. destruct (check_body prepared _ action _) as [d'|] eqn:Hc; [|done]. injection Hd as ->.
  pose proof Hp as (_ & _ & _ & Hrg & He & Hpr & _)%Prepare_ok. pose proof (Prepare_context _ _ _ _ _ Hp) as Hctx. cbn in Hrg, Hctx.
  apply check_body_ok in Hc as (entities & uid & reasons & Hents & _ & _ & Hcedar & _); [|done].
  pose proof (managed_uid_spec _ _ _ _ _ Hents) as ->. rewrite Hrg in Hents, Hcedar. unfold cedar_request in Hcedar. rewrite Eal, Hpr, Hctx in Hcedar.
  exists rs, customer, prepared, entities, reasons. split_and!; [done..|]. by eapply prepared_policies.
Qed.

(** *** Reads only read *)

Context {L : BackendLaws}.

Lemma tmoves_query_loop n table pk : ∀ start items, tmoves interfere (query_loop n table pk start items).
Proof.
  induction n as [|n IH]; intros start items; [apply tmoves_fail|]. intros w w' r. cbn [query_loop].
  destruct (Query w (page_query table pk start)) as [w1 out] eqn:E.
  destruct (Query_law _ _ pk _ _ E eq_refl eq_refl) as [Hi _].
  destruct out as [[more last]|e]; [|intros [= <- <-]; by apply rtc_once]. case_bool_decide; [intros [= <- <-]; by apply rtc_once|].
  intros Hl. eapply rtc_l; [exact Hi|]. by eapply IH.
Qed.

Lemma tmoves_readBindings s scope pk : tmoves interfere (readBindings s pages scope pk).
Proof.
  unfold readBindings. apply tmoves_bind; [auto with tmoves|]. intros table _. apply tmoves_bind; [apply tmoves_query_loop|]. intros items _.
  apply tmoves_for_each. intros acc x. apply tmoves_bind; [auto with tmoves|]. intros; auto with tmoves.
Qed.

Lemma tmoves_batch_loop s refs n : ∀ attempt pending policies, tmoves interfere (batch_loop s refs n attempt pending policies).
Proof.
  induction n as [|n IH]; intros attempt pending policies; cbn [batch_loop]; [auto with tmoves|].
  case_bool_decide; [auto with tmoves|]. apply tmoves_bind.
  { destruct (Nat.eqb attempt 0); [auto with tmoves|]. intros w w' r. destruct (wait w _) as [w1 e] eqn:E. intros [= <- _].
    apply wait_law in E. by apply rtc_once. }
  intros _ _. apply tmoves_bind.
  { intros w w' r. destruct (BatchGetItem w pending) as [w1 out] eqn:E. intros [= <- _]. apply Batch_law in E as [Hi _]. by apply rtc_once. }
  intros [resp un] _. apply tmoves_bind; [|intros; apply IH]. apply tmoves_for_each. intros; auto with tmoves.
Qed.

Lemma tmoves_batches s all n : ∀ refs policies, tmoves interfere (batches s n all refs policies).
Proof.
  induction n as [|n IH]; intros [|ref refs] policies; cbn [batches]; auto with tmoves.
  apply tmoves_bind; [auto with tmoves|]. intros keys _. apply tmoves_bind; [apply tmoves_batch_loop|]. intros [p pending] _.
  case_bool_decide; cbn [negb]; [apply IH|auto with tmoves].
Qed.

Lemma tmoves_resolveScopes s id scopes : tmoves interfere (resolveScopes s pages id scopes).
Proof.
  unfold resolveScopes. apply tmoves_bind; [auto with tmoves|]. intros c _. apply tmoves_bind; [auto with tmoves|]. intros _ _.
  apply tmoves_bind.
  { unfold resolve_bindings. apply tmoves_for_each. intros acc scope. apply tmoves_for_each. intros acc' pk.
    apply tmoves_bind; [apply tmoves_readBindings|]. intros part _. apply tmoves_for_each. intros; auto with tmoves. }
  intros [[bs al] ids] _. apply tmoves_bind; [apply tmoves_batches|]. intros; auto with tmoves.
Qed.

Lemma tmoves_authorize action id : tmoves interfere (authorize pages m ctx caller action id).
Proof.
  unfold authorize. destruct (checkedIdentity _); [|auto with tmoves]. destruct (m_stores m !! _); [|auto with tmoves].
  destruct (ctx 0); [auto with tmoves|]. destruct (_ && _); [auto with tmoves|]. destruct (existsb _ _); [auto with tmoves|].
  apply tmoves_bind.
  - unfold prepareScopes. apply tmoves_bind; [apply tmoves_wrapping, tmoves_resolveScopes|]. intros rs _.
    apply tmoves_bind; [auto with tmoves|]. intros; auto with tmoves.
  - intros p _. apply tmoves_bind; [auto with tmoves|]. intros d _. destruct (Allowed d); auto with tmoves.
Qed.

(** An operation that checks, authorizes and then runs [k]. *)
Lemma guarded {A} action id (k : StoreConfig → M A) w w' r :
  (store ← authorize pages m ctx caller action id; k store) w = (w', r) →
  (is_ok r = false ∧ rtc interfere (contents w) (contents w')) ∨
  ∃ store w1, authorize pages m ctx caller action id w = (w1, Ok store) ∧ k store w1 = (w', r).
Proof.
  intros [(w1 & store & E & F)|(e & E & ->)]%M_bind_inv; [right; eauto|]. left. split; [done|]. by eapply tmoves_authorize.
Qed.

Lemma discard_inv {A} (mm : M A) w w' r : discard mm w = (w', r) → ∃ r0, mm w = (w', r0) ∧ is_ok r = is_ok r0.
Proof. unfold discard, mbind, M_bind. destruct (mm w) as [w1 [a|e]]; intros [= <- <-]; eauto. Qed.

Lemma wrapping_world {A} f (mm : M A) w w' r : wrapping f mm w = (w', r) → (mm w).1 = w'.
Proof. unfold wrapping. destruct (mm w). by intros [= <- _]. Qed.

Lemma discard_world_of {A} (mm : M A) w : (discard mm w).1 = (mm w).1.
Proof. unfold discard, mbind, M_bind. by destruct (mm w) as [w' [a|e]]. Qed.

(** no management operation writes without its permission: either it fails and the
    tables are only what other clients made them, or the caller was authorized for
    the operation's own action on its own object, and what it did is the operation
    of the caller's own account's store. *)
Theorem management_guarded op w w' r :
  mgmt_run op w = (w', r) →
  (is_ok r = false ∧ rtc interfere (contents w) (contents w')) ∨
  ∃ store w1, authorize pages m ctx caller (mgmt_action op) (mgmt_target op) w = (w1, Ok store) ∧
    ((run_op store (mgmt_store_op op) w1).1 = w' ∨ is_ok r = false ∧ w' = w1).
Proof.
  destruct op as [id content|ref expected content|ref expected|spec|scope id expected]; cbn [mgmt_run mgmt_action mgmt_target mgmt_store_op run_op].
  - intros (r0 & E & ->)%discard_inv. apply guarded in E as [?|(store & w1 & Ha & E)]; [by left|right].
    exists store, w1. split; [done|]. left. rewrite discard_world_of. by eapply wrapping_world.
  - intros (r0 & E & ->)%discard_inv. apply M_bind_inv in E as [(w0 & u & [-> _]%lift_ok & E)|(e & [= <- _] & ->)]; [|by left].
    apply guarded in E as [?|(store & w1 & Ha & E)]; [by left|right].
    exists store, w1. split; [done|]. left. rewrite discard_world_of. by eapply wrapping_world.
  - intros (r0 & E & ->)%discard_inv. apply M_bind_inv in E as [(w0 & u & [-> _]%lift_ok & E)|(e & [= <- _] & ->)]; [|by left].
    apply guarded in E as [?|(store & w1 & Ha & E)]; [by left|right].
    exists store, w1. split; [done|]. left. apply M_bind_inv in E as [(w2 & u' & E2 & [= <- _])|(e & E2 & _)]; by eapply wrapping_world.
  - intros (r0 & E & ->)%discard_inv. unfold mgmt_CreateAttachment, attachmentAction in E.
    destruct (String.eqb (Scope spec) GlobalScope); [|destruct (String.eqb (Scope spec) RegionalScope); [|injection E as <- <-; by left]].
    all: apply guarded in E as [?|(store & w1 & Ha & E)]; [by left|right]; exists store, w1; (split; [done|]); rewrite discard_world_of;
      apply M_bind_inv in E as [(w2 & u1 & [-> _]%lift_ok & E)|(e & [= <- _] & ->)]; [|by right];
      apply M_bind_inv in E as [(w2 & u2 & E2 & E)|(e & E2 & ->)];
      [|right; split; [done|]; destruct (parsePrincipal _); [unfold guard_err in E2; destruct (negb _)|]; by injection E2];
      assert (w2 = w1) as -> by (destruct (parsePrincipal _); [by apply guard_ok in E2 as [-> _]|by injection E2]);
      left; by eapply wrapping_world.
  - intros (r0 & E & ->)%discard_inv. unfold mgmt_DeleteAttachment, attachmentAction in E.
    destruct (String.eqb scope GlobalScope); [|destruct (String.eqb scope RegionalScope); [|injection E as <- <-; by left]].
    all: apply M_bind_inv in E as [(w0 & act & [-> [= <-]]%lift_ok & E)|(e & [= ] & _)];
      apply M_bind_inv in E as [(w0 & u & [-> _]%guard_ok & E)|(e & E & ->)];
      [|left; split; [done|]; unfold guard_err in E; destruct (_ || _); injection E as <- _; reflexivity];
      apply guarded in E as [?|(store & w1 & Ha & E)]; [by left|right]; exists store, w1; (split; [done|]); left;
      apply M_bind_inv in E as [(w2 & u' & E2 & [= <- _])|(e & E2 & _)]; by eapply wrapping_world.
Qed.
End management.

(** ** Witnesses *)

Section witnesses.
#[local] Existing Instances arn_splitter text_engine ascii_only tagged_codec.

Definition acme_management : Management := mkManagement {["123456789012" := acme]} ∅.
Definition acme_caller : ManagementCaller :=
  mkCaller "123456789012" "arn:aws:sts::123456789012:assumed-role/Deployer/alice" at_noon.
Definition acme_authorize : M StoreConfig := authorize 10 acme_management no_cancel acme_caller AuthzModel.CreatePolicy "second".

Lemma authorize_sound_witness : ∃ rs,
  resolveScopes acme 10 (caller_identity acme_caller) [GlobalScope] acme_world = (after acme_authorize acme_world, Ok rs).
Proof.
  destruct (authorize_sound (B := Memory) 10 acme_management no_cancel acme_caller AuthzModel.CreatePolicy "second" acme_world
    (after acme_authorize acme_world) acme) as (p & _ & _ & _ & [(_ & admin & Hin & _)|(rs & _ & _ & _ & _ & Hr & _)]).
  - assert (is_ok (acme_authorize acme_world).2 = true) as H by (vm_compute; reflexivity).
    unfold after. destruct (acme_authorize acme_world) as [w' [st|]] eqn:E; [|discriminate H].
    assert (st = acme) as -> by (apply (f_equal snd) in E; vm_compute in E; injection E as <-; reflexivity). exact E.
  - exfalso. apply not_elem_of_nil in Hin. exact Hin.
  - exists rs. exact Hr.
Defined.

Definition acme_create : MgmtOp := MCreatePolicy "second" "permit(principal, action, resource);".
Definition stranger : ManagementCaller := mkCaller "123456789012" "arn:aws:iam::123456789012:user/mallory" at_noon.

Lemma management_guarded_witness :
  is_ok (mgmt_run 10 acme_management no_cancel acme_caller acme_create acme_world).2 = true ∧
  rtc interfere (contents acme_world) (contents (mgmt_run 10 acme_management no_cancel stranger acme_create acme_world).1).
Proof.
  split; [vm_compute; reflexivity|].
  destruct (management_guarded (B := Memory) 10 acme_management no_cancel stranger acme_create acme_world
    (mgmt_run 10 acme_management no_cancel stranger acme_create acme_world).1
    (mgmt_run 10 acme_management no_cancel stranger acme_create acme_world).2) as [[_ H]|(st & w1 & Ha & _)].
  - destruct (mgmt_run _ _ _ _ _ _). reflexivity.
  - exact H.
  - exfalso. apply (f_equal (λ p, is_ok p.2)) in Ha. vm_compute in Ha. discriminate Ha.
Defined.
End witnesses.
