(* ===== verification/StateM.v ===== *)
(** * State-passing programs

    The monad of the request handlers and of the clients they call: a program takes
    the state it runs in and returns the state it leaves and a value. [moves] says
    along which relation a program takes the part of the state it shares with other
    programs; it is what each operation guarantees to the operations it interleaves
    with, and its lemmas follow the structure of a program. *)
From S2P Require Import Prelude.
From stdpp Require Import base list relations.

Definition St (S A : Type) : Type := S → S * A.
#[export] Instance St_ret {S} : MRet (St S) := fun A a s => (s, a).
#[export] Instance St_bind {S} : MBind (St S) := fun A B f m s => let '(s, a) := m s in f a s.

(** A program of a part of the state. *)
Definition zoom {S T A} (get : S → T) (put : T → S → S) (m : St T A) : St S A := fun s =>
  let '(t, a) := m (get s) in (put t s, a).

Lemma run_unit {S} (m : St S unit) s : m s = ((m s).1, tt).
Proof. by destruct (m s) as [s' []]. Qed.
Lemma run_value {S A} (m : St S A) s a : (m s).2 = a → m s = ((m s).1, a).
Proof. by intros <-; destruct (m s). Qed.

Section programs.
Context {S : Type}.

Lemma St_bind_inv {A B} (m : St S A) (f : A → St S B) s s' b :
  (m ≫= f) s = (s', b) → ∃ s1 a, m s = (s1, a) ∧ f a s1 = (s', b).
Proof. unfold mbind, St_bind. destruct (m s) as [s1 a]. eauto. Qed.

Lemma St_ret_inv {A} (a b : A) (s s' : S) : (mret a : St S A) s = (s', b) → s' = s ∧ b = a.
Proof. by intros [= <- <-]. Qed.

(** ** What a program does to the shared state *)
Context {T : Type} (view : S → T) (R : relation T).

Definition moves {A} (m : St S A) : Prop := ∀ s s' a, m s = (s', a) → rtc R (view s) (view s').

Lemma moves_ret {A} (a : A) : moves (mret a).
Proof. intros s s' b [-> ->]%St_ret_inv. reflexivity. Qed.

Lemma moves_bind {A B} (m : St S A) (f : A → St S B) : moves m → (∀ a, moves (f a)) → moves (m ≫= f).
Proof.
  intros Hm Hf s s' b (s1 & a & E & F)%St_bind_inv. etrans; [by eapply Hm|by eapply Hf].
Qed.

(** As [moves_bind], for what the first program can return and the state it leaves. *)
Lemma moves_bind' {A B} (m : St S A) (f : A → St S B) (Q : A → S → Prop) :
  moves m → (∀ s s1 a, m s = (s1, a) → Q a s1) →
  (∀ a s1 s' b, Q a s1 → f a s1 = (s', b) → rtc R (view s1) (view s')) → moves (m ≫= f).
Proof.
  intros Hm HQ Hf s s' b (s1 & a & E & F)%St_bind_inv. etrans; [by eapply Hm|]. eapply Hf; [by eapply HQ|done].
Qed.
End programs.

Lemma moves_mono {S T A} (view : S → T) (R R' : relation T) (m : St S A) :
  (∀ x y, R x y → rtc R' x y) → moves view R m → moves view R' m.
Proof.
  intros HR Hm s s' a E. specialize (Hm _ _ _ E). induction Hm as [|x y z H1 H2 IH]; [reflexivity|].
  etrans; [by apply HR|done].
Qed.

(** ** Specifications

    [triple P m Q]: a run of [m] from a state that satisfies [P] returns a value and
    leaves a state that satisfy [Q]. *)
Definition triple {S A} (P : S → Prop) (m : St S A) (Q : A → S → Prop) : Prop :=
  ∀ s s' a, P s → m s = (s', a) → Q a s'.

Lemma triple_ret {S A} (P : S → Prop) (a : A) (Q : A → S → Prop) : (∀ s, P s → Q a s) → triple P (mret a) Q.
Proof. intros HQ s s' b HP [-> ->]%St_ret_inv. auto. Qed.

Lemma triple_bind {S A B} (P : S → Prop) (m : St S A) (f : A → St S B) (Q : A → S → Prop) (R : B → S → Prop) :
  triple P m Q → (∀ a, triple (Q a) (f a) R) → triple P (m ≫= f) R.
Proof. intros Hm Hf s s' b HP (s1 & a & E & F)%St_bind_inv. eapply Hf; [by eapply Hm|done]. Qed.

Lemma triple_conseq {S A} (P P' : S → Prop) (m : St S A) (Q Q' : A → S → Prop) :
  triple P m Q → (∀ s, P' s → P s) → (∀ a s, Q a s → Q' a s) → triple P' m Q'.
Proof. intros Hm HP HQ s s' a H E. eapply HQ, Hm; [by apply HP|done]. Qed.

Lemma triple_pre {S A} (P P' : S → Prop) (m : St S A) (Q : A → S → Prop) : triple P m Q → (∀ s, P' s → P s) → triple P' m Q.
Proof. intros Hm HP. by eapply triple_conseq. Qed.

(** A fact that the precondition gives. *)
Lemma triple_fact {S A} (φ : Prop) (P : S → Prop) (m : St S A) (Q : A → S → Prop) :
  (∀ s, P s → φ) → (φ → triple P m Q) → triple P m Q.
Proof. intros Hφ Hm s s' a HP. by apply Hm; [eapply Hφ|]. Qed.
