(* ===== verification/HttpApi.v ===== *)
(** * API errors and responses (pkg/api)

    [APIError], the responses [Write] and [WriteError] put on the wire as
    [metav1.Status] documents, and the translation of field errors to causes. A
    response is its status code and body; the body of an error is kept as the record of
    the Status it marshals. *)
From S2P Require Import Prelude GoStrings Json.
From stdpp Require Import base strings list.
From Stdlib Require Import ZArith Lia Ascii String.
Open Scope string_scope.

(** [strconv.Quote], the [%q] verb. *)
Class Fmt := { Quote : string → string }.

(** The [Errors] of an APIError: an [any] that may be an error ([pl_error] is its text),
    and the JSON it marshals to ([None] when it does not). *)
Record Payload := mkPayload { pl_error : option string; pl_json : option json }.

Record APIError := mkAPIError {
  Code : string;
  HTTPStatus : Z;
  Message : string;
  Errors : option Payload;
  Reason : string
}.

Definition WithErrors (e : APIError) (v : Payload) : APIError := mkAPIError (Code e) (HTTPStatus e) (Message e) (Some v) (Reason e).

(** The text of [fmt.Errorf] for a template with one verb. *)
Fixpoint Sprintf1 `{Fmt} (template arg : string) : string :=
  match template with
  | String "%" (String "q" rest) => Quote arg +:+ rest
  | String "%" (String "s" rest) => arg +:+ rest
  | String c rest => String c (Sprintf1 rest arg)
  | "" => ""
  end.

(** The errors of [fmt.Errorf] marshal to an empty object. [WithReason] panics on an
    error without a template. *)
Definition WithReason `{Fmt} (e : APIError) (arg : string) : option APIError :=
  if String.eqb (Reason e) "" then None
  else Some (WithErrors e (mkPayload (Some (Sprintf1 (Reason e) arg)) (Some (JObj [])))).

(** ** metav1.Status *)
Record StatusCause := mkCause { cause_Type : string; cause_Message : string; cause_Field : string }.
Record MetaStatus := mkMetaStatus {
  st_Status : string;
  st_Message : string;
  st_Reason : string;
  st_Code : Z;
  st_Details : option (list StatusCause)
}.

Definition httpStatusToReason (code : Z) : string :=
  match code with
  | 400 => "BadRequest" | 401 => "Unauthorized" | 403 => "Forbidden" | 404 => "NotFound"
  | 405 => "MethodNotAllowed" | 409 => "Conflict" | 422 => "Invalid" | 429 => "TooManyRequests"
  | 500 => "InternalError" | 503 => "ServiceUnavailable" | _ => ""
  end%Z.

(** The struct the elements of a payload are decoded into. *)
Record causeFields := mkCauseFields { cf_Field : string; cf_Detail : string; cf_Reason : string; cf_Message : string }.
Definition zero_cause : causeFields := mkCauseFields "" "" "" "".

(** A string field: null leaves it alone, another value fails the decoding. *)
Definition text_of (j : json) (old : string) : option string :=
  match j with JStr s => Some s | JNull => Some old | _ => None end.

Definition set_cause_field (c : causeFields) (k : string) (v : json) : option causeFields :=
  if EqualFold k "field" then (fun s => mkCauseFields s (cf_Detail c) (cf_Reason c) (cf_Message c)) <$> text_of v (cf_Field c)
  else if EqualFold k "detail" then (fun s => mkCauseFields (cf_Field c) s (cf_Reason c) (cf_Message c)) <$> text_of v (cf_Detail c)
  else if EqualFold k "reason" then (fun s => mkCauseFields (cf_Field c) (cf_Detail c) s (cf_Message c)) <$> text_of v (cf_Reason c)
  else if EqualFold k "message" then (fun s => mkCauseFields (cf_Field c) (cf_Detail c) (cf_Reason c) s) <$> text_of v (cf_Message c)
  else Some c.

Fixpoint set_cause_fields (l : list (string * json)) (c : causeFields) : option causeFields :=
  match l with
  | [] => Some c
  | (k, v) :: l => match set_cause_field c k v with Some c => set_cause_fields l c | None => None end
  end.

Definition decode_cause (j : json) : option causeFields :=
  match j with JObj l => set_cause_fields l zero_cause | JNull => Some zero_cause | _ => None end.

(** [json.Unmarshal] into the slice; [null] leaves it nil. *)
Definition decode_causes (j : json) : option (list causeFields) :=
  match j with JArr l => mapM decode_cause l | JNull => Some [] | _ => None end.

Definition has_content (c : causeFields) : bool :=
  negb (String.eqb (cf_Field c) "" && String.eqb (cf_Detail c) "" && String.eqb (cf_Reason c) "" && String.eqb (cf_Message c) "").

Definition to_cause (c : causeFields) : StatusCause :=
  let msg := cf_Detail c in
  let msg := if String.eqb msg "" then cf_Message c else msg in
  let msg := if String.eqb msg "" then cf_Reason c else msg in
  mkCause "FieldValueInvalid" msg (cf_Field c).

Definition fallback_cause : StatusCause := mkCause "UnexpectedServerResponse" "unexpected error format" "".

Definition errorsToStatusDetails (errs : option json) : option (list StatusCause) :=
  match errs with
  | None => None
  | Some b =>
      match decode_causes b with
      | Some causes =>
          if negb (Nat.eqb (List.length causes) 0) && existsb has_content causes then Some (to_cause <$> causes) else Some [fallback_cause]
      | None => Some [fallback_cause]
      end
  end.

(** ** Responses *)
Inductive Body :=
| NoBody
| StatusBody (s : MetaStatus)
| FallbackBody
| JSONBody (j : json).
Record Response := mkResponse { resp_Status : Z; resp_Body : Body }.

Definition writeFallback : Response := mkResponse 500 FallbackBody.

(** An error whose JSON is empty gives its text instead. *)
Definition plain_payload (j : json) : bool := match j with JObj [] | JNull => true | _ => false end.

Definition error_status (code : string) (httpStatus : Z) (msg : string) (details : option (option (list StatusCause))) : Response :=
  let msg := if String.eqb code "" then msg else code +:+ ": " +:+ msg in
  let httpStatus := if (httpStatus <? 100)%Z || (599 <? httpStatus)%Z then 500%Z else httpStatus in
  mkResponse httpStatus (StatusBody (mkMetaStatus "Failure" msg (httpStatusToReason httpStatus) httpStatus
                                       (match details with Some d => d | None => None end))).

Definition WriteError (def : APIError) : Response :=
  let answer msg errors := error_status (Code def) (HTTPStatus def) msg ((fun p => errorsToStatusDetails (pl_json p)) <$> errors) in
  match Errors def with
  | Some (mkPayload (Some text) None) => writeFallback
  | Some (mkPayload (Some text) (Some b)) => if plain_payload b then answer text None else answer (Message def) (Errors def)
  | errors => answer (Message def) errors
  end.

Definition ErrRequestBodyTooLarge : APIError := mkAPIError "REQUEST-001" 413 "request body too large" None "".
Definition ErrInternalMarshal : APIError := mkAPIError "INTERNAL-001" 500 "internal server error" None "".

(** [Write]: [data] is [None] for nil, [Some None] for a value that does not marshal. *)
Definition Write (status : Z) (data : option (option json)) : Response :=
  match data with
  | None => mkResponse status NoBody
  | Some None => WriteError ErrInternalMarshal
  | Some (Some b) => mkResponse status (JSONBody b)
  end.

(** ** Validation errors *)
Definition field_errors (errs : list (string * string)) : Payload :=
  mkPayload (Some (strings_Join ((fun e => "field " +:+ e.1 +:+ ": " +:+ e.2) <$> errs) "; "))
    (Some (JArr ((fun e => JObj [("field", JStr e.1); ("reason", JStr e.2)]) <$> errs))).

(** Every error is answered with a valid HTTP status, and its body is a Failure with
    that code unless a payload does not marshal. *)
Theorem WriteError_status def :
  (100 ≤ resp_Status (WriteError def) ≤ 599)%Z ∧
  ((100 ≤ HTTPStatus def ≤ 599)%Z → resp_Status (WriteError def) = HTTPStatus def ∨ WriteError def = writeFallback) ∧
  match resp_Body (WriteError def) with
  | StatusBody s => st_Status s = "Failure" ∧ st_Code s = resp_Status (WriteError def)
  | FallbackBody => WriteError def = writeFallback
  | _ => False
  end.
Proof.
  assert (Hs : ∀ code h msg d, (100 ≤ resp_Status (error_status code h msg d) ≤ 599)%Z ∧
    ((100 ≤ h ≤ 599)%Z → resp_Status (error_status code h msg d) = h ∨ error_status code h msg d = writeFallback) ∧
    match resp_Body (error_status code h msg d) with
    | StatusBody s => st_Status s = "Failure" ∧ st_Code s = resp_Status (error_status code h msg d)
    | FallbackBody => error_status code h msg d = writeFallback
    | _ => False
    end).
  { intros code h msg d. unfold error_status. cbn [resp_Status resp_Body st_Status st_Code].
    destruct ((h <? 100)%Z || (599 <? h)%Z) eqn:E; rewrite ?orb_true_iff, ?orb_false_iff, ?Z.ltb_lt, ?Z.ltb_ge in E;
      split_and!; try done; try lia; by left. }
  unfold WriteError. destruct (Errors def) as [[[text|] [b|]]|]; [case_match|..]; try apply Hs.
  cbn. split_and!; [lia|lia|by right|done].
Qed.

Lemma set_cause_fields_reason f r : decode_cause (JObj [("field", JStr f); ("reason", JStr r)]) = Some (mkCauseFields f "" r "").
Proof. reflexivity. Qed.

Lemma decode_field_errors errs :
  mapM decode_cause ((λ e : string * string, JObj [("field", JStr e.1); ("reason", JStr e.2)]) <$> errs) =
  Some ((λ e, mkCauseFields e.1 "" e.2 "") <$> errs).
Proof. induction errs as [|e errs IH]; [done|]. rewrite fmap_cons. cbn [mapM]. rewrite set_cause_fields_reason, IH. reflexivity. Qed.

(** What the field errors of a validator become: one cause each, in order, with its
    field and reason. *)
Lemma field_errors_details errs :
  errs ≠ [] → Forall (λ e : string * string, e.1 ≠ "") errs →
  errorsToStatusDetails (pl_json (field_errors errs)) = Some ((λ e : string * string, mkCause "FieldValueInvalid" e.2 e.1) <$> errs).
Proof.
  intros Hne Hall. unfold errorsToStatusDetails, field_errors. cbn [pl_json decode_causes]. rewrite decode_field_errors.
  destruct errs as [|e errs]; [done|]. apply Forall_cons in Hall as [He _]. rewrite length_fmap. cbn [List.length Nat.eqb negb andb].
  assert (Hc : existsb has_content ((λ e0 : string * string, mkCauseFields e0.1 "" e0.2 "") <$> e :: errs) = true).
  { rewrite fmap_cons. cbn [existsb]. unfold has_content at 1. cbn [cf_Field]. by apply String.eqb_neq in He as ->. }
  rewrite Hc. f_equal. rewrite <- list_fmap_compose. apply list_fmap_ext. intros _ [f r] _. reflexivity.
Qed.

(** * The error codes of the API (pkg/handlers/errorcodes.go and the handlers)

    The table of API errors: their codes, HTTP statuses and messages. Codes are the
    identity clients see of an error; they are pairwise distinct. *)
From stdpp Require Import base strings list.
From Stdlib Require Import ZArith String.
Open Scope string_scope.

(** The limits two of the messages quote. *)
Definition DNS1123LabelMaxLength : Z := 63.
Definition managementClusterNamespacePrefix : string := "cluster-".
Definition clusterUIDLength : Z := 36.
Definition MaxClusterNameLengthWithoutDNSReservation : Z :=
  DNS1123LabelMaxLength - Z.of_nat (String.length managementClusterNamespacePrefix) - clusterUIDLength - 1.
Definition maxCustomerLabels : Z := 50.

Definition ErrResourceConflict : APIError := mkAPIError "RESOURCE-CONFLICT-001" 409
  "Resource changed; reload and retry" None "".
Definition ErrClusterList : APIError := mkAPIError "CLUSTERS-MGMT-LIST-001" 500
  "Failed to list clusters" None "".
Definition ErrClusterCreateInvalidBody : APIError := mkAPIError "CLUSTERS-MGMT-CREATE-001" 400
  "Invalid request body" None "".
Definition ErrClusterCreateMissingFields : APIError := mkAPIError "CLUSTERS-MGMT-CREATE-002" 400
  "Missing required fields: name and spec" None "".
Definition ErrClusterCreateFailed : APIError := mkAPIError "CLUSTERS-MGMT-CREATE-003" 500
  "Failed to create cluster" None "".
Definition ErrClusterCreateNameCheck : APIError := mkAPIError "CLUSTERS-MGMT-CREATE-004" 500
  "Failed to validate cluster name" None "".
Definition ErrClusterCreateOidcConfigLookupFailed : APIError := mkAPIError "CLUSTERS-MGMT-CREATE-013" 500
  "Failed to look up referenced OIDC config" None "".
Definition ErrClusterCreateNameConflict : APIError := mkAPIError "CLUSTERS-MGMT-CREATE-005" 409
  "Cluster name already exists in this account" None "a cluster named %q already exists in this account".
Definition ErrClusterCreateInvalidName : APIError := mkAPIError "CLUSTERS-MGMT-CREATE-006" 400
  ("Cluster metadata.name must be a valid DNS label and, without dnsReservationId, fit the HostedCluster management namespace (maximum " +:+ FormatInt MaxClusterNameLengthWithoutDNSReservation +:+ " characters)") None "".
Definition ErrClusterCreateNamespaceMismatch : APIError := mkAPIError "CLUSTERS-MGMT-CREATE-007" 400
  "metadata.namespace must match the authenticated account namespace" None "".
Definition ErrClusterCreateInvalidSpec : APIError := mkAPIError "CLUSTERS-MGMT-CREATE-008" 400
  "Invalid cluster spec" None "".
Definition ErrClusterCreateDNSReservationRequired : APIError := mkAPIError "CLUSTERS-MGMT-CREATE-014" 400
  "spec.dnsReservationId is required" None "".
Definition ErrClusterCreateDNSReservationNotFound : APIError := mkAPIError "CLUSTERS-MGMT-CREATE-015" 404
  "Referenced DNS reservation not found" None "".
Definition ErrClusterCreateDNSReservationNotReady : APIError := mkAPIError "CLUSTERS-MGMT-CREATE-016" 422
  "Referenced DNS reservation is not ready" None "".
Definition ErrClusterCreateDNSReservationInUse : APIError := mkAPIError "CLUSTERS-MGMT-CREATE-017" 409
  "Referenced DNS reservation is already claimed" None "".
Definition ErrClusterCreateOidcConfigRequired : APIError := mkAPIError "CLUSTERS-MGMT-CREATE-009" 400
  "spec.oidcConfigId is required" None "".
Definition ErrClusterCreateOidcConfigNotFound : APIError := mkAPIError "CLUSTERS-MGMT-CREATE-010" 404
  "Referenced OIDC config not found" None "".
Definition ErrClusterCreateOidcConfigNotReady : APIError := mkAPIError "CLUSTERS-MGMT-CREATE-011" 422
  "Referenced OIDC config is not ready" None "".
Definition ErrClusterCreateOidcConfigInUse : APIError := mkAPIError "CLUSTERS-MGMT-CREATE-012" 409
  "Referenced OIDC config is already associated with another cluster" None "an OidcConfig backs at most one cluster; %q is already in use".
Definition ErrClusterGetNotFound : APIError := mkAPIError "CLUSTERS-MGMT-GET-001" 404
  "Cluster not found" None "".
Definition ErrClusterGetFailed : APIError := mkAPIError "CLUSTERS-MGMT-GET-002" 500
  "Failed to get cluster" None "".
Definition ErrClusterUpdateInvalidBody : APIError := mkAPIError "CLUSTERS-MGMT-UPDATE-001" 400
  "Invalid request body" None "".
Definition ErrClusterUpdateMissingFields : APIError := mkAPIError "CLUSTERS-MGMT-UPDATE-002" 400
  "Missing required field: spec" None "".
Definition ErrClusterUpdateNotFound : APIError := mkAPIError "CLUSTERS-MGMT-UPDATE-003" 404
  "Cluster not found" None "".
Definition ErrClusterUpdateFailed : APIError := mkAPIError "CLUSTERS-MGMT-UPDATE-004" 500
  "Failed to update cluster" None "".
Definition ErrClusterUpdateInvalidSpec : APIError := mkAPIError "CLUSTERS-MGMT-UPDATE-005" 400
  "Invalid cluster spec" None "".
Definition ErrClusterUpdateConflict : APIError := mkAPIError "CLUSTERS-MGMT-UPDATE-006" 409
  "Cluster was modified by a concurrent request" None "".
Definition ErrClusterUpdateNamespaceMismatch : APIError := mkAPIError "CLUSTERS-MGMT-UPDATE-007" 400
  "metadata.namespace must match the authenticated account namespace" None "".
Definition ErrClusterDeleteNotFound : APIError := mkAPIError "CLUSTERS-MGMT-DELETE-001" 404
  "Cluster not found" None "".
Definition ErrClusterDeleteFailed : APIError := mkAPIError "CLUSTERS-MGMT-DELETE-002" 500
  "Failed to delete cluster" None "".
Definition ErrClusterStatusNotFound : APIError := mkAPIError "CLUSTERS-MGMT-STATUS-001" 404
  "Cluster not found" None "".
Definition ErrClusterStatusFailed : APIError := mkAPIError "CLUSTERS-MGMT-STATUS-002" 500
  "Failed to get cluster status" None "".
Definition ErrClusterValidation : APIError := mkAPIError "CLUSTERS-MGMT-VALIDATION-001" 422
  "A validation error has occurred, check the errors field for more information" None "".
Definition ErrNodePoolList : APIError := mkAPIError "NODEPOOLS-MGMT-LIST-001" 500
  "Failed to list nodepools" None "".
Definition ErrNodePoolListInvalidClusterUID : APIError := mkAPIError "NODEPOOLS-MGMT-LIST-002" 400
  "clusterUID must be a valid resource UID" None "".
Definition ErrNodePoolListInvalidLabelSelector : APIError := mkAPIError "NODEPOOLS-MGMT-LIST-003" 400
  "labelSelector is malformed, unsupported, or conflicts with clusterUID" None "".
Definition ErrNodePoolCreateInvalidBody : APIError := mkAPIError "NODEPOOLS-MGMT-CREATE-001" 400
  "Invalid request body" None "".
Definition ErrNodePoolCreateMissingFields : APIError := mkAPIError "NODEPOOLS-MGMT-CREATE-002" 400
  "metadata.name is required" None "".
Definition ErrNodePoolCreateNameConflict : APIError := mkAPIError "NODEPOOLS-MGMT-CREATE-003" 409
  "NodePool already exists" None "".
Definition ErrNodePoolCreateClusterNotFound : APIError := mkAPIError "NODEPOOLS-MGMT-CREATE-004" 404
  "Referenced cluster not found" None "".
Definition ErrNodePoolCreateClusterCheck : APIError := mkAPIError "NODEPOOLS-MGMT-CREATE-005" 500
  "Failed to validate cluster reference" None "".
Definition ErrNodePoolCreateInvalidSpec : APIError := mkAPIError "NODEPOOLS-MGMT-CREATE-006" 400
  "Invalid nodepool spec" None "".
Definition ErrNodePoolCreateFailed : APIError := mkAPIError "NODEPOOLS-MGMT-CREATE-007" 500
  "Failed to create nodepool" None "".
Definition ErrNodePoolCreateInvalidNamespace : APIError := mkAPIError "NODEPOOLS-MGMT-CREATE-008" 400
  "metadata.namespace must match the authenticated account namespace" None "".
Definition ErrNodePoolCreateInvalidName : APIError := mkAPIError "NODEPOOLS-MGMT-CREATE-009" 400
  "metadata.name must be <cluster>.<child> using valid DNS labels" None "".
Definition ErrNodePoolCreateClusterDeleting : APIError := mkAPIError "NODEPOOLS-MGMT-CREATE-011" 409
  "Cannot create a NodePool for a Cluster that is deleting" None "".
Definition ErrNodePoolGetNotFound : APIError := mkAPIError "NODEPOOLS-MGMT-GET-001" 404
  "NodePool not found" None "".
Definition ErrNodePoolGetFailed : APIError := mkAPIError "NODEPOOLS-MGMT-GET-002" 500
  "Failed to get nodepool" None "".
Definition ErrNodePoolUpdateInvalidBody : APIError := mkAPIError "NODEPOOLS-MGMT-UPDATE-001" 400
  "Invalid request body" None "".
Definition ErrNodePoolUpdateMissingFields : APIError := mkAPIError "NODEPOOLS-MGMT-UPDATE-002" 400
  "Missing required field: spec" None "".
Definition ErrNodePoolUpdateNotFound : APIError := mkAPIError "NODEPOOLS-MGMT-UPDATE-003" 404
  "NodePool not found" None "".
Definition ErrNodePoolUpdateFailed : APIError := mkAPIError "NODEPOOLS-MGMT-UPDATE-004" 500
  "Failed to update nodepool" None "".
Definition ErrNodePoolUpdateInvalidSpec : APIError := mkAPIError "NODEPOOLS-MGMT-UPDATE-005" 400
  "Invalid nodepool spec" None "".
Definition ErrNodePoolUpdateConflict : APIError := mkAPIError "NODEPOOLS-MGMT-UPDATE-006" 409
  "NodePool was modified by a concurrent request" None "".
Definition ErrNodePoolUpdateInvalidNamespace : APIError := mkAPIError "NODEPOOLS-MGMT-UPDATE-007" 400
  "metadata.namespace must match the authenticated account namespace" None "".
Definition ErrNodePoolDeleteNotFound : APIError := mkAPIError "NODEPOOLS-MGMT-DELETE-001" 404
  "NodePool not found" None "".
Definition ErrNodePoolDeleteFailed : APIError := mkAPIError "NODEPOOLS-MGMT-DELETE-002" 500
  "Failed to delete nodepool" None "".
Definition ErrNodePoolStatusNotFound : APIError := mkAPIError "NODEPOOLS-MGMT-STATUS-001" 404
  "NodePool not found" None "".
Definition ErrNodePoolStatusFailed : APIError := mkAPIError "NODEPOOLS-MGMT-STATUS-002" 500
  "Failed to get nodepool status" None "".
Definition ErrNodePoolValidation : APIError := mkAPIError "NODEPOOLS-MGMT-VALIDATION-001" 422
  "A validation error has occurred, check the errors field for more information" None "".
Definition ErrOidcConfigList : APIError := mkAPIError "OIDCCONFIGS-MGMT-LIST-001" 500
  "Failed to list OIDC configs" None "".
Definition ErrOidcConfigCreateInvalidBody : APIError := mkAPIError "OIDCCONFIGS-MGMT-CREATE-001" 400
  "Invalid request body" None "".
Definition ErrOidcConfigCreateMissingFields : APIError := mkAPIError "OIDCCONFIGS-MGMT-CREATE-002" 400
  "metadata.name and spec.type are required" None "".
Definition ErrOidcConfigCreateFailed : APIError := mkAPIError "OIDCCONFIGS-MGMT-CREATE-003" 500
  "Failed to create OIDC config" None "".
Definition ErrOidcConfigCreateInvalidName : APIError := mkAPIError "OIDCCONFIGS-MGMT-CREATE-009" 400
  "metadata.name must be a valid DNS subdomain" None "".
Definition ErrOidcConfigCreateNameConflict : APIError := mkAPIError "OIDCCONFIGS-MGMT-CREATE-010" 409
  "An OIDC config with this name already exists" None "".
Definition ErrOidcConfigCreateNamespaceMismatch : APIError := mkAPIError "OIDCCONFIGS-MGMT-CREATE-011" 400
  "metadata.namespace must match the authenticated account namespace" None "".
Definition ErrOidcConfigCreateInvalidType : APIError := mkAPIError "OIDCCONFIGS-MGMT-CREATE-004" 400
  "spec.type must be 'managed' or 'unmanaged'" None "".
Definition ErrOidcConfigCreateInvalidFields : APIError := mkAPIError "OIDCCONFIGS-MGMT-CREATE-005" 400
  "unmanaged type requires secretArn and installerRoleArn; managed type must not set them" None "".
Definition ErrOidcConfigCreateDuplicateIssuerUrl : APIError := mkAPIError "OIDCCONFIGS-MGMT-CREATE-006" 409
  "An OIDC config with this issuerUrl already exists" None "".
Definition ErrOidcConfigCreateIssuerNotConfigured : APIError := mkAPIError "OIDCCONFIGS-MGMT-CREATE-007" 500
  "Server is not configured with an OIDC issuer base URL" None "".
Definition ErrOidcConfigCreateInvalidIssuerUrl : APIError := mkAPIError "OIDCCONFIGS-MGMT-CREATE-008" 400
  "spec.issuerUrl is invalid" None "%s".
Definition ErrOidcConfigGetNotFound : APIError := mkAPIError "OIDCCONFIGS-MGMT-GET-001" 404
  "OIDC config not found" None "".
Definition ErrOidcConfigGetFailed : APIError := mkAPIError "OIDCCONFIGS-MGMT-GET-002" 500
  "Failed to get OIDC config" None "".
Definition ErrOidcConfigDeleteNotFound : APIError := mkAPIError "OIDCCONFIGS-MGMT-DELETE-001" 404
  "OIDC config not found" None "".
Definition ErrOidcConfigDeleteFailed : APIError := mkAPIError "OIDCCONFIGS-MGMT-DELETE-002" 500
  "Failed to delete OIDC config" None "".
Definition ErrOidcConfigDeleteInUse : APIError := mkAPIError "OIDCCONFIGS-MGMT-DELETE-003" 409
  "Cannot delete OIDC config referenced by clusters" None "".
Definition ErrDNSReservationListFailed : APIError := mkAPIError "DNSRESERVATIONS-MGMT-LIST-001" 500
  "Failed to list DNS reservations" None "".
Definition ErrDNSReservationCreateInvalidBody : APIError := mkAPIError "DNSRESERVATIONS-MGMT-CREATE-001" 400
  "Invalid request body" None "".
Definition ErrDNSReservationCreateMissingName : APIError := mkAPIError "DNSRESERVATIONS-MGMT-CREATE-002" 400
  "metadata.name is required" None "".
Definition ErrDNSReservationCreateInvalidName : APIError := mkAPIError "DNSRESERVATIONS-MGMT-CREATE-003" 400
  "metadata.name must be a valid DNS subdomain" None "".
Definition ErrDNSReservationCreateNamespaceMismatch : APIError := mkAPIError "DNSRESERVATIONS-MGMT-CREATE-004" 400
  "metadata.namespace must match the authenticated account namespace" None "".
Definition ErrDNSReservationCreateNameConflict : APIError := mkAPIError "DNSRESERVATIONS-MGMT-CREATE-005" 409
  "A DNS reservation with this name already exists" None "".
Definition ErrDNSReservationCreateFailed : APIError := mkAPIError "DNSRESERVATIONS-MGMT-CREATE-006" 500
  "Failed to create DNS reservation" None "".
Definition ErrDNSReservationGetNotFound : APIError := mkAPIError "DNSRESERVATIONS-MGMT-GET-001" 404
  "DNS reservation not found" None "".
Definition ErrDNSReservationGetFailed : APIError := mkAPIError "DNSRESERVATIONS-MGMT-GET-002" 500
  "Failed to get DNS reservation" None "".
Definition ErrDNSReservationDeleteNotFound : APIError := mkAPIError "DNSRESERVATIONS-MGMT-DELETE-001" 404
  "DNS reservation not found" None "".
Definition ErrDNSReservationDeleteClaimed : APIError := mkAPIError "DNSRESERVATIONS-MGMT-DELETE-002" 409
  "Cannot delete a claimed DNS reservation" None "".
Definition ErrDNSReservationDeleteFailed : APIError := mkAPIError "DNSRESERVATIONS-MGMT-DELETE-003" 500
  "Failed to delete DNS reservation" None "".
Definition ErrAccountsForbidden : APIError := mkAPIError "ACCOUNTS-MGMT-001" 403
  "Only the platform account may manage the account allowlist" None "".
Definition ErrAccountsInvalidID : APIError := mkAPIError "ACCOUNTS-MGMT-002" 400
  "accountId must be a 12-digit AWS account ID" None "".
Definition ErrAccountsFailed : APIError := mkAPIError "ACCOUNTS-MGMT-003" 500
  "Failed to update the account allowlist" None "".
Definition ErrInfoRegionalAccountUnavailable : APIError := mkAPIError "INFO-001" 503
  "regional account ID is not configured" None "".
Definition ErrRouteNotFound : APIError := mkAPIError "ROUTE-001" 404
  "route not found" None "".
Definition ErrRouteMethodNotAllowed : APIError := mkAPIError "ROUTE-002" 405
  "method not allowed" None "".
Definition errLabelBody : APIError := mkAPIError "LABEL-BODY-001" 400
  "Expected a non-empty JSON object of strings or null" None "".
Definition errLabelLimit : APIError := mkAPIError "LABEL-VALIDATION-002" 422
  ("A resource may have at most " +:+ FormatInt maxCustomerLabels +:+ " customer labels") None "".
Definition errLabelSyntax : APIError := mkAPIError "LABEL-VALIDATION-001" 422
  "Invalid customer label key or value" None "".
Definition errLabelNotFound : APIError := mkAPIError "LABEL-NOTFOUND-001" 404
  "Resource not found" None "".
Definition errLabelFailed : APIError := mkAPIError "LABEL-FAILED-001" 500
  "Label operation failed" None "".
Definition errAuthzDenied : APIError := mkAPIError "AUTHZ-DENIED-001" 403
  "Access denied" None "".
Definition errAuthzFailed : APIError := mkAPIError "AUTHZ-FAILED-001" 500
  "Authorization failed" None "".

Definition all_errors : list APIError :=
  [ErrResourceConflict; ErrClusterList; ErrClusterCreateInvalidBody;
   ErrClusterCreateMissingFields; ErrClusterCreateFailed; ErrClusterCreateNameCheck;
   ErrClusterCreateOidcConfigLookupFailed; ErrClusterCreateNameConflict; ErrClusterCreateInvalidName;
   ErrClusterCreateNamespaceMismatch; ErrClusterCreateInvalidSpec; ErrClusterCreateDNSReservationRequired;
   ErrClusterCreateDNSReservationNotFound; ErrClusterCreateDNSReservationNotReady; ErrClusterCreateDNSReservationInUse;
   ErrClusterCreateOidcConfigRequired; ErrClusterCreateOidcConfigNotFound; ErrClusterCreateOidcConfigNotReady;
   ErrClusterCreateOidcConfigInUse; ErrClusterGetNotFound; ErrClusterGetFailed;
   ErrClusterUpdateInvalidBody; ErrClusterUpdateMissingFields; ErrClusterUpdateNotFound;
   ErrClusterUpdateFailed; ErrClusterUpdateInvalidSpec; ErrClusterUpdateConflict;
   ErrClusterUpdateNamespaceMismatch; ErrClusterDeleteNotFound; ErrClusterDeleteFailed;
   ErrClusterStatusNotFound; ErrClusterStatusFailed; ErrClusterValidation;
   ErrNodePoolList; ErrNodePoolListInvalidClusterUID; ErrNodePoolListInvalidLabelSelector;
   ErrNodePoolCreateInvalidBody; ErrNodePoolCreateMissingFields; ErrNodePoolCreateNameConflict;
   ErrNodePoolCreateClusterNotFound; ErrNodePoolCreateClusterCheck; ErrNodePoolCreateInvalidSpec;
   ErrNodePoolCreateFailed; ErrNodePoolCreateInvalidNamespace; ErrNodePoolCreateInvalidName;
   ErrNodePoolCreateClusterDeleting; ErrNodePoolGetNotFound; ErrNodePoolGetFailed;
   ErrNodePoolUpdateInvalidBody; ErrNodePoolUpdateMissingFields; ErrNodePoolUpdateNotFound;
   ErrNodePoolUpdateFailed; ErrNodePoolUpdateInvalidSpec; ErrNodePoolUpdateConflict;
   ErrNodePoolUpdateInvalidNamespace; ErrNodePoolDeleteNotFound; ErrNodePoolDeleteFailed;
   ErrNodePoolStatusNotFound; ErrNodePoolStatusFailed; ErrNodePoolValidation;
   ErrOidcConfigList; ErrOidcConfigCreateInvalidBody; ErrOidcConfigCreateMissingFields;
   ErrOidcConfigCreateFailed; ErrOidcConfigCreateInvalidName; ErrOidcConfigCreateNameConflict;
   ErrOidcConfigCreateNamespaceMismatch; ErrOidcConfigCreateInvalidType; ErrOidcConfigCreateInvalidFields;
   ErrOidcConfigCreateDuplicateIssuerUrl; ErrOidcConfigCreateIssuerNotConfigured; ErrOidcConfigCreateInvalidIssuerUrl;
   ErrOidcConfigGetNotFound; ErrOidcConfigGetFailed; ErrOidcConfigDeleteNotFound;
   ErrOidcConfigDeleteFailed; ErrOidcConfigDeleteInUse; ErrDNSReservationListFailed;
   ErrDNSReservationCreateInvalidBody; ErrDNSReservationCreateMissingName; ErrDNSReservationCreateInvalidName;
   ErrDNSReservationCreateNamespaceMismatch; ErrDNSReservationCreateNameConflict; ErrDNSReservationCreateFailed;
   ErrDNSReservationGetNotFound; ErrDNSReservationGetFailed; ErrDNSReservationDeleteNotFound;
   ErrDNSReservationDeleteClaimed; ErrDNSReservationDeleteFailed; ErrAccountsForbidden;
   ErrAccountsInvalidID; ErrAccountsFailed; ErrInfoRegionalAccountUnavailable;
   ErrRouteNotFound; ErrRouteMethodNotAllowed; errLabelBody;
   errLabelLimit; errLabelSyntax; errLabelNotFound;
   errLabelFailed; errAuthzDenied; errAuthzFailed].

(** Every error has a code of its own, so a client can tell errors apart by their codes,
    and an HTTP error status. *)
Theorem error_codes_distinct : NoDup (Code <$> all_errors) ∧ Forall (λ e, (400 ≤ HTTPStatus e ≤ 599)%Z) all_errors.
Proof. split; by_decide. Qed.
