(* ===== verification/ManagementHandlers.v ===== *)
(** * The management handlers (pkg/handlers/authz_management.go, the management router of pkg/server/server.go)

    The HTTP contract of the management service: what a request must look like, which
    operation of AuthzManagement.v it becomes, and how its outcome is answered. The body
    is the sequence of JSON values a decoder reads from it; the texts of encoding/json's
    own errors are a parameter. The rate limiter in front is RateLimit.v. *)
From S2P Require Import Prelude GoStrings Json AwsArn AuthzModel Arn Template Dynamo AuthzStore AuthzStoreProps AuthzStoreTheorems Authorizer AuthzManagement StateM HttpApi.
From stdpp Require Import base gmap strings list relations.
From Stdlib Require Import ZArith Lia Ascii String.
Open Scope string_scope.

(** ** Requests *)

(** The JSON values of a body in order, and what follows them: the end, or the text of
    the error the decoder meets (a syntax error, or a read past the body's limit). *)
Record RequestBody := mkRequestBody { b_values : list json; b_error : option string }.

Record MgmtRequest := mkMgmtRequest {
  mq_account : string;
  mq_caller : string;
  mq_sourceIP : string;
  mq_userAgent : string;
  mq_now : Time;
  mq_length : Z;
  mq_id : string;
  mq_type : string;
  mq_scope : string;
  mq_ifMatch : list string;
  mq_body : RequestBody;
  mq_ctx : ctx_t
}.

Definition managementCaller (q : MgmtRequest) : ManagementCaller :=
  mkCaller (mq_account q) (mq_caller q) (mkRequestContext (mq_sourceIP q) (mq_userAgent q) (mq_now q) ∅).

(** *** Bodies

    [DisallowUnknownFields]: a key no field matches fails the decoding; keys match
    without regard to case, null leaves a field as it is and the last of two equal keys
    wins. *)
Class DecodeTexts := { decode_text : json → string }.

Fixpoint strict_fields {A} (field : string → json → A → option A) (l : list (string * json)) (a : A) : option A :=
  match l with
  | [] => Some a
  | (k, v) :: l => match field k v a with Some a => strict_fields field l a | None => None end
  end.
Definition strict_object {A} (field : string → json → A → option A) (j : json) (a : A) : option A :=
  match j with JObj l => strict_fields field l a | JNull => Some a | _ => None end.

Definition policy_field (k : string) (v : json) (x : string * string) : option (string * string) :=
  if EqualFold k "id" then (fun s => (s, x.2)) <$> text_of v x.1
  else if EqualFold k "content" then (fun s => (x.1, s)) <$> text_of v x.2
  else None.
Definition content_field (k : string) (v : json) (content : string) : option string :=
  if EqualFold k "content" then text_of v content else None.
Definition reference_field (k : string) (v : json) (x : PolicyRef) : option PolicyRef :=
  if EqualFold k "id" then (fun s => mkRef s (ref_Kind x)) <$> text_of v (ref_ID x)
  else if EqualFold k "type" then (fun s => mkRef (ref_ID x) s) <$> text_of v (ref_Kind x)
  else None.
Definition attachment_field (k : string) (v : json) (x : AttachmentSpec) : option AttachmentSpec :=
  if EqualFold k "policy" then (fun ref => mkSpec ref (PrincipalARN x) (Scope x)) <$> strict_object reference_field v (spec_Policy x)
  else if EqualFold k "principalArn" then (fun s => mkSpec (spec_Policy x) s (Scope x)) <$> text_of v (PrincipalARN x)
  else if EqualFold k "scope" then (fun s => mkSpec (spec_Policy x) (PrincipalARN x) s) <$> text_of v (Scope x)
  else None.

Definition decodeManagement `{DecodeTexts} {A} (body : RequestBody) (field : string → json → A → option A) (zero : A) : result string A :=
  match b_values body with
  | [] => Err (default "EOF" (b_error body))
  | JNull :: _ => Err "JSON object is required"
  | raw :: rest =>
      match strict_object field raw zero with
      | None => Err (decode_text raw)
      | Some a => match rest, b_error body with [], None => Ok a | _, _ => Err "single JSON object is required" end
      end
  end.

(** *** Parameters *)
Definition managementRef (q : MgmtRequest) : result string PolicyRef :=
  let kind := if String.eqb (mq_type q) "" then CustomPolicy else mq_type q in
  if negb (String.eqb kind CustomPolicy) && negb (String.eqb kind ManagedPolicy) then Err "type must be custom or managed"
  else Ok (mkRef (mq_id q) kind).

Definition managementScope (q : MgmtRequest) : result string AttachmentScope :=
  if String.eqb (mq_scope q) GlobalScope || String.eqb (mq_scope q) RegionalScope || String.eqb (mq_scope q) "" then Ok (mq_scope q)
  else Err "scope must be global or regional".

Definition quote_mark : ascii := ascii_of_nat 34.

(** The bytes of the value between its first and its last. *)
Definition unquoted (value : string) : string := substring 1 (String.length value - 2) value.

Definition managementRevision `{Backend} (ifMatch : list string) : result string string :=
  match ifMatch with
  | [value] =>
      if negb (Nat.eqb (String.length value) 38) ||
         negb (bool_decide (String.get 0 value = Some quote_mark)) || negb (bool_decide (String.get (String.length value - 1) value = Some quote_mark))
      then Err "If-Match must contain one quoted UUID"
      else if negb (uuid_Validate (unquoted value)) || String.eqb (unquoted value) "00000000-0000-0000-0000-000000000000"
      then Err "If-Match must contain one nonzero quoted UUID"
      else Ok (unquoted value)
  | _ => Err "If-Match must contain one quoted UUID"
  end.

(** ** Responses

    The answer, with the header that names the writer region. *)
Record MgmtResponse := mkMgmtResponse { mr_WriterRegion : option string; mr_Response : Response }.

Definition publicPolicy (p : StoredPolicy) : json :=
  JObj [("id", JStr (pol_ID p)); ("type", JStr (pol_Kind p)); ("ownerAccountId", JStr (pol_OwnerAccountID p));
        ("content", JStr (pol_Content p)); ("revision", JStr (pol_Revision p))].

Definition policyReference (ref : PolicyRef) : json := JObj [("id", JStr (ref_ID ref)); ("type", JStr (ref_Kind ref))].

Definition publicAttachment (a : StoredAttachment) : json :=
  JObj ([("id", JStr (att_ID a)); ("ownerAccountId", JStr (att_OwnerAccountID a)); ("policy", policyReference (spec_Policy (att_Spec a)));
         ("principalArn", JStr (PrincipalARN (att_Spec a))); ("scope", JStr (Scope (att_Spec a)))] ++
        (if String.eqb (att_Region a) "" then [] else [("region", JStr (att_Region a))]) ++ [("revision", JStr (att_Revision a))])%list.

Definition receipt_json (r : DeletionReceipt) : json :=
  JObj [("id", JStr (rc_ID r)); ("deletedRevision", JStr (rc_DeletedRevision r)); ("committedRegion", JStr (rc_CommittedRegion r))].

Definition managementList (kind : string) (items : list json) : json :=
  JObj [("kind", JStr kind); ("total", JNum (Z.of_nat (List.length items))); ("items", JArr items)].

(** [errors.As] of a [*WrongWriterError]. *)
Fixpoint writer_region (err : error) : option string :=
  match err with
  | EWrongWriter region => Some region
  | EWrap e1 e2 => match writer_region e1 with Some region => Some region | None => writer_region e2 end
  | EFailure _ _ _ _ e => writer_region e
  | _ => None
  end.

Definition failure_status (err : error) : Z * string :=
  if has_failure err then (500%Z, "Authorization management failed")
  else if errors_Is err ErrManagementDenied then (403%Z, "Access denied")
  else if errors_Is err ErrManagedPolicy then (403%Z, "Managed policies are immutable")
  else if errors_Is err ErrValidation then (422%Z, "Invalid authorization input")
  else if errors_Is err ErrNotFound then (404%Z, "Authorization record not found")
  else if errors_Is err ErrWrongWriter then (409%Z, "Global mutation requires the account writer region")
  else if errors_Is err ErrConflict then (409%Z, "Authorization record revision conflict")
  else if errors_Is err ErrUnavailable then (503%Z, "Authorization backend unavailable")
  else (500%Z, "Authorization management failed").

Definition region_payload (region : string) : Payload :=
  mkPayload None (Some (JArr [JObj [("detail", JStr region); ("field", JStr "writerRegion")]])).

Definition error_response (err : error) : MgmtResponse :=
  let '(status, message) := failure_status err in
  let def := mkAPIError "AUTHZ-MANAGEMENT-001" status message None "" in
  match writer_region err with
  | Some region => mkMgmtResponse (Some region) (WriteError (WithErrors def (region_payload region)))
  | None => mkMgmtResponse None (WriteError def)
  end.

(** ** The handlers *)
Section handlers.
Context `{B : Backend, ArnParser, CedarEngine, UnicodeTables, RecordCodec, DecodeTexts}.
Context (pages : nat) (m : Management).

Record MState := mkMState { ms_world : World; ms_out : list MgmtResponse }.

Definition mgmt_respond (x : MgmtResponse) : St MState unit := fun s => (mkMState (ms_world s) (ms_out s ++ [x])%list, tt).
(** A call of the management service. *)
Definition mgmt_call {A} (op : M A) : St MState (result error A) := fun s =>
  let '(w, r) := op (ms_world s) in (mkMState w (ms_out s), r).

Definition badRequest (message : string) : St MState unit :=
  mgmt_respond (mkMgmtResponse None (WriteError (mkAPIError "AUTHZ-INPUT-001" 400 message None ""))).
Definition writeError (err : error) : St MState unit := mgmt_respond (error_response err).

(** [respond]: the value is rendered only when there is no error. *)
Definition finish {A} (status : Z) (render : A → json) (r : result error A) : St MState unit :=
  match r with
  | Err err => writeError err
  | Ok a => mgmt_respond (mkMgmtResponse None (HttpApi.Write status (Some (Some (render a)))))
  end.

(** [if err != nil { h.badRequest(w, err); return }] *)
Definition or_bad {A} (r : result string A) (k : A → St MState unit) : St MState unit :=
  match r with Err message => badRequest message | Ok a => k a end.

Definition h_CreatePolicy (q : MgmtRequest) : St MState unit :=
  or_bad (decodeManagement (mq_body q) policy_field ("", "")) (fun input =>
  r ← mgmt_call (mgmt_CreatePolicy pages m (mq_ctx q) (managementCaller q) input.1 input.2);
  finish 201 publicPolicy r).

Definition h_ListPolicies (q : MgmtRequest) : St MState unit :=
  r ← mgmt_call (mgmt_ListPolicies pages m (mq_ctx q) (managementCaller q));
  finish 200 (fun l => managementList "PolicyList" (publicPolicy <$> l)) r.

Definition h_GetPolicy (q : MgmtRequest) : St MState unit :=
  or_bad (managementRef q) (fun ref =>
  r ← mgmt_call (mgmt_GetPolicy pages m (mq_ctx q) (managementCaller q) ref);
  finish 200 publicPolicy r).

Definition h_UpdatePolicy (q : MgmtRequest) : St MState unit :=
  or_bad (managementRef q) (fun ref =>
  if String.eqb (ref_Kind ref) ManagedPolicy then writeError (ESentinel ErrManagedPolicy)
  else
    or_bad (managementRevision (mq_ifMatch q)) (fun revision =>
    or_bad (decodeManagement (mq_body q) content_field "") (fun content =>
    r ← mgmt_call (mgmt_UpdatePolicy pages m (mq_ctx q) (managementCaller q) ref revision content);
    finish 200 publicPolicy r))).

Definition h_DeletePolicy (q : MgmtRequest) : St MState unit :=
  or_bad (managementRef q) (fun ref =>
  if String.eqb (ref_Kind ref) ManagedPolicy then writeError (ESentinel ErrManagedPolicy)
  else
    or_bad (managementRevision (mq_ifMatch q)) (fun revision =>
    r ← mgmt_call (mgmt_DeletePolicy pages m (mq_ctx q) (managementCaller q) ref revision);
    finish 200 receipt_json r)).

(** The scope is global when the body names none. *)
Definition default_scope (input : AttachmentSpec) : AttachmentSpec :=
  if String.eqb (Scope input) "" then mkSpec (spec_Policy input) (PrincipalARN input) GlobalScope else input.

Definition h_CreateAttachment (q : MgmtRequest) : St MState unit :=
  or_bad (decodeManagement (mq_body q) attachment_field (mkSpec (mkRef "" "") "" "")) (fun input =>
  r ← mgmt_call (mgmt_CreateAttachment pages m (mq_ctx q) (managementCaller q) (default_scope input));
  finish 201 publicAttachment r).

Definition h_ListAttachments (q : MgmtRequest) : St MState unit :=
  or_bad (managementScope q) (fun scope =>
  r ← mgmt_call (mgmt_ListAttachments pages m (mq_ctx q) (managementCaller q) scope);
  finish 200 (fun l => managementList "AttachmentList" (publicAttachment <$> l)) r).

Definition h_DeleteAttachment (q : MgmtRequest) : St MState unit :=
  or_bad (match managementScope q with
          | Ok scope => if String.eqb scope "" then Err "scope must be global or regional" else Ok scope
          | Err _ => Err "scope must be global or regional"
          end) (fun scope =>
  or_bad (managementRevision (mq_ifMatch q)) (fun revision =>
  r ← mgmt_call (mgmt_DeleteAttachment pages m (mq_ctx q) (managementCaller q) scope (mq_id q) revision);
  finish 200 receipt_json r)).

(** ** The management router *)
Inductive MgmtRoute :=
| CreatePolicy_ | ListPolicies_ | GetPolicy_ | UpdatePolicy_ | DeletePolicy_
| CreateAttachment_ | ListAttachments_ | DeleteAttachment_.

Definition mgmt_route (rt : MgmtRoute) : string * string :=
  match rt with
  | CreatePolicy_ => ("POST", "/api/v0/authz/policies") | ListPolicies_ => ("GET", "/api/v0/authz/policies")
  | GetPolicy_ => ("GET", "/api/v0/authz/policies/{id}") | UpdatePolicy_ => ("PUT", "/api/v0/authz/policies/{id}")
  | DeletePolicy_ => ("DELETE", "/api/v0/authz/policies/{id}")
  | CreateAttachment_ => ("POST", "/api/v0/authz/attachments") | ListAttachments_ => ("GET", "/api/v0/authz/attachments")
  | DeleteAttachment_ => ("DELETE", "/api/v0/authz/attachments/{id}")
  end.

Definition mgmt_handler (rt : MgmtRoute) : MgmtRequest → St MState unit :=
  match rt with
  | CreatePolicy_ => h_CreatePolicy | ListPolicies_ => h_ListPolicies | GetPolicy_ => h_GetPolicy
  | UpdatePolicy_ => h_UpdatePolicy | DeletePolicy_ => h_DeletePolicy
  | CreateAttachment_ => h_CreateAttachment | ListAttachments_ => h_ListAttachments | DeleteAttachment_ => h_DeleteAttachment
  end.

Definition mgmt_error (e : APIError) : St MState unit := mgmt_respond (mkMgmtResponse None (WriteError e)).

(** The handlers observe the context after the admission did. *)
Definition later_request (q : MgmtRequest) : MgmtRequest :=
  mkMgmtRequest (mq_account q) (mq_caller q) (mq_sourceIP q) (mq_userAgent q) (mq_now q) (mq_length q) (mq_id q) (mq_type q) (mq_scope q)
    (mq_ifMatch q) (mq_body q) (later 1 (mq_ctx q)).

(** [LimitRequestBody] and [RequireIdentity] in front of a matched route; the paths of
    this router are none of the public ones. *)
Definition serve_management (maxBytes : Z) (rt : MgmtRoute) (q : MgmtRequest) : St MState unit :=
  let maxBytes := if (maxBytes <=? 0)%Z then Z.shiftl 10 20 else maxBytes in
  if (maxBytes <? mq_length q)%Z then mgmt_error ErrRequestBodyTooLarge
  else if String.eqb (mq_account q) "" || String.eqb (mq_caller q) "" then
    mgmt_error (mkAPIError "AUTH-001" 403 "Caller account ID and ARN are required" None "")
  else match Arn.Validate (caller_identity (managementCaller q)) with
       | Some _ => mgmt_error (mkAPIError "AUTH-001" 403 "Caller identity is invalid" None "")
       | None =>
           if IsManaged m (mq_ctx q) (mq_account q) then mgmt_handler rt (later_request q)
           else mgmt_error (mkAPIError "AUTH-002" 403 "Account is not registered" None "")
       end.
End handlers.

(** * What a management request may do *)

(** The mutation a well-formed request asks for. *)
Definition mutation `{Backend, DecodeTexts} (rt : MgmtRoute) (q : MgmtRequest) : option MgmtOp :=
  match rt with
  | CreatePolicy_ => match decodeManagement (mq_body q) policy_field ("", "") with Ok x => Some (MCreatePolicy x.1 x.2) | Err _ => None end
  | UpdatePolicy_ =>
      match managementRef q, managementRevision (mq_ifMatch q), decodeManagement (mq_body q) content_field "" with
      | Ok ref, Ok revision, Ok content => Some (MUpdatePolicy ref revision content)
      | _, _, _ => None
      end
  | DeletePolicy_ =>
      match managementRef q, managementRevision (mq_ifMatch q) with
      | Ok ref, Ok revision => Some (MDeletePolicy ref revision)
      | _, _ => None
      end
  | CreateAttachment_ =>
      match decodeManagement (mq_body q) attachment_field (mkSpec (mkRef "" "") "" "") with
      | Ok input => Some (MCreateAttachment (default_scope input))
      | Err _ => None
      end
  | DeleteAttachment_ =>
      match managementScope q, managementRevision (mq_ifMatch q) with
      | Ok scope, Ok revision => Some (MDeleteAttachment scope (mq_id q) revision)
      | _, _ => None
      end
  | _ => None
  end.

Section texts.
Context `{Backend}.

Lemma substring_app a b : substring 0 (String.length a) (a +:+ b) = a.
Proof. induction a as [|c a IH]; [by destruct b|]. change (String c (substring 0 (String.length a) (a +:+ b)) = String c a). by rewrite IH. Qed.

Lemma get_last a c : String.get (String.length a) (a +:+ String c "") = Some c.
Proof. by induction a. Qed.

Lemma ends_with n s c : String.length s = S n → String.get n s = Some c → s = substring 0 n s +:+ String c "".
Proof.
  revert s. induction n as [|n IH]; intros [|a s] Hl Hg; try done.
  - destruct s; [|done]. cbn in Hg. by injection Hg as ->.
  - cbn in Hl, Hg. injection Hl as Hl.
    change (String a s = String a (substring 0 n s +:+ String c "")). f_equal. by apply IH.
Qed.

(** One strong entity tag with a nonzero UUID of 36 bytes, and nothing else, names a
    revision. *)
Lemma managementRevision_ok l rev : managementRevision l = Ok rev ↔
  l = [String quote_mark (rev +:+ String quote_mark "")] ∧ String.length rev = 36 ∧ isRevision rev = true.
Proof.
  unfold managementRevision, isRevision. split.
  - destruct l as [|v [|]]; try done. case_match eqn:Hc; [done|]. rewrite !orb_false_iff, !negb_false_iff, Nat.eqb_eq in Hc.
    destruct Hc as [[Hl H0%bool_decide_eq_true] H1%bool_decide_eq_true]. case_match eqn:Hu; [done|]. intros [= <-].
    apply orb_false_iff in Hu as [Hu%negb_false_iff Hz]. destruct v as [|a v]; [done|]. cbn in H0. injection H0 as ->.
    cbn in Hl. injection Hl as Hl. unfold unquoted in *. cbn [String.length substring] in *. rewrite Hl in *. cbn [Nat.sub] in *.
    assert (Hs : v = substring 0 36 v +:+ String quote_mark "") by (by apply ends_with). split_and!.
    + by rewrite <- Hs.
    + apply (f_equal String.length) in Hs. rewrite str_length_app, Hl in Hs. cbn in Hs. lia.
    + by rewrite Hz, Hu.
  - intros (-> & Hl & [Hz%negb_true_iff Hu]%andb_true_iff). cbn [String.length]. rewrite str_length_app, Hl. cbn [Nat.add String.length Nat.eqb negb orb String.get Nat.sub].
    unfold unquoted. cbn [String.length substring Nat.sub]. rewrite str_length_app, Hl. cbn [Nat.add String.length Nat.sub].
    rewrite <- Hl, get_last, substring_app, Hz, Hu. done.
Qed.
End texts.

Section requests.
Context `{B : Backend, ArnParser, CedarEngine, UnicodeTables, RecordCodec, DecodeTexts} {L : BackendLaws}.
Context (pages : nat) (m : Management).

(** ** Answers *)
Definition answer {A} (status : Z) (render : A → json) (r : result error A) : MgmtResponse :=
  match r with Err err => error_response err | Ok a => mkMgmtResponse None (HttpApi.Write status (Some (Some (render a)))) end.

Lemma finish_run {A} (op : M A) status render s s' : (r ← mgmt_call op; finish status render r) s = (s', tt) →
  ∃ r, op (ms_world s) = (ms_world s', r) ∧ ms_out s' = (ms_out s ++ [answer status render r])%list.
Proof.
  intros (s1 & r & E & F)%St_bind_inv. unfold mgmt_call in E. destruct (op (ms_world s)) as [w r0] eqn:Eo. injection E as <- <-.
  exists r0. by destruct r0; injection F as <-.
Qed.

Definition failure_code (status : Z) : Prop :=
  (status = 403 ∨ status = 404 ∨ status = 409 ∨ status = 422 ∨ status = 500 ∨ status = 503)%Z.

Lemma error_status_of err : failure_code (resp_Status (mr_Response (error_response err))) ∧
  mr_WriterRegion (error_response err) = writer_region err.
Proof.
  unfold error_response. assert (Hs : failure_code (failure_status err).1).
  { unfold failure_status, failure_code. repeat case_match; cbn; lia. }
  destruct (failure_status err) as [status message]. cbn [fst] in Hs.
  assert (Hw : ∀ e, HTTPStatus e = status → Errors e = None ∨ (∃ r, Errors e = Some (region_payload r)) → resp_Status (WriteError e) = status).
  { intros e <- He. unfold WriteError. destruct He as [->|[r ->]]; unfold region_payload, error_status; cbn [resp_Status];
      (case_match eqn:Hb; [|done]); exfalso; rewrite orb_true_iff, !Z.ltb_lt in Hb; unfold failure_code in Hs; lia. }
  destruct (writer_region err) as [region|]; (split; [|done]); cbn [mr_Response]; rewrite Hw; cbn; eauto.
Qed.

(** The outcome of an operation and its answer: success is answered with the status of
    the route, a failure never with 400 or a success. *)
Lemma answer_status {A} status (render : A → json) r :
  (∃ a, r = Ok a ∧ answer status render r = mkMgmtResponse None (mkResponse status (JSONBody (render a)))) ∨
  (∃ e, r = Err e ∧ answer status render r = error_response e ∧ failure_code (resp_Status (mr_Response (error_response e)))).
Proof. destruct r as [a|e]; [left; by exists a|right]. exists e. split_and!; [done|done|apply error_status_of]. Qed.

(** ** Operations *)
Section operations.
Context (ctx : ctx_t) (caller : ManagementCaller).

(** A mutation that succeeds was authorized for its own action on its own object, and is
    then the operation of the account's store. *)
Lemma mgmt_run_ok op w w' : mgmt_run pages m ctx caller op w = (w', Ok tt) →
  ∃ store w1, authorize pages m ctx caller (mgmt_action op) (mgmt_target op) w = (w1, Ok store) ∧ run_op store (mgmt_store_op op) w1 = (w', Ok tt).
Proof.
  assert (Hd : ∀ A (x : M A) v v', discard x v = (v', Ok tt) ↔ ∃ a, x v = (v', Ok a)).
  { intros A x v v'. unfold discard. rewrite M_bind_ok. setoid_rewrite mret_ok. naive_solver. }
  destruct op as [id content|ref expected content|ref expected|spec|scope id expected]; cbn [mgmt_run mgmt_action mgmt_target mgmt_store_op run_op];
    rewrite Hd; intros (a & E).
  - apply M_bind_ok in E as (w1 & store & Ha & E%wrapping_ok). exists store, w1. split; [done|]. apply Hd. eauto.
  - apply M_bind_ok in E as (w0 & u & [-> _]%lift_ok & E). apply M_bind_ok in E as (w1 & store & Ha & E%wrapping_ok).
    exists store, w1. split; [done|]. apply Hd. eauto.
  - apply M_bind_ok in E as (w0 & u & [-> _]%lift_ok & E). apply M_bind_ok in E as (w1 & store & Ha & E).
    apply M_bind_ok in E as (w2 & [] & E%wrapping_ok & [-> _]%mret_ok). eauto.
  - apply M_bind_ok in E as (w0 & action & [-> Hact]%lift_ok & E). apply M_bind_ok in E as (w1 & store & Ha & E).
    apply M_bind_ok in E as (w2 & u & [-> _]%lift_ok & E). apply M_bind_ok in E as (w2 & u' & Ep & E%wrapping_ok).
    assert (w2 = w1) as -> by (destruct (parsePrincipal _); [by apply guard_ok in Ep as [-> _]|done]).
    exists store, w1. split; [|apply Hd; eauto]. unfold attachmentAction in Hact. by repeat case_match; simplify_eq.
  - apply M_bind_ok in E as (w0 & action & [-> Hact]%lift_ok & E). apply M_bind_ok in E as (w1 & u & [-> _]%guard_ok & E).
    apply M_bind_ok in E as (w1 & store & Ha & E). apply M_bind_ok in E as (w2 & [] & E%wrapping_ok & [-> _]%mret_ok).
    exists store, w1. split; [|done]. unfold attachmentAction in Hact. by repeat case_match; simplify_eq.
Qed.

Lemma quiet_ListPolicies : tmoves interfere (mgmt_ListPolicies pages m ctx caller).
Proof.
  unfold mgmt_ListPolicies, ListPolicies. apply tmoves_bind; [by apply tmoves_authorize|]. intros store _. apply tmoves_wrapping, tmoves_for_each. intros l owner.
  apply tmoves_bind; [by apply tmoves_query_loop|]. intros items _. apply tmoves_for_each. intros l' x.
  apply tmoves_bind; [auto with tmoves|]. intros; auto with tmoves.
Qed.
Lemma quiet_GetPolicy ref : tmoves interfere (mgmt_GetPolicy pages m ctx caller ref).
Proof.
  unfold mgmt_GetPolicy. apply tmoves_bind; [auto with tmoves|]. intros _ _. apply tmoves_bind; [by apply tmoves_authorize|]. intros store _.
  apply tmoves_wrapping. apply reads_GetPolicy. by intros t t' ?.
Qed.
Lemma quiet_ListAttachments scope : tmoves interfere (mgmt_ListAttachments pages m ctx caller scope).
Proof.
  unfold mgmt_ListAttachments. apply tmoves_bind.
  - generalize 0 (list_scopes scope) (@None StoreConfig). intros i l. revert i. induction l as [|x l IH]; intros i st; cbn; [auto with tmoves|].
    apply tmoves_bind; [auto with tmoves|]. intros action _. apply tmoves_bind; [by apply tmoves_authorize|]. intros store _. apply IH.
  - intros [store|] _; [|auto with tmoves]. apply tmoves_for_each. intros l x. apply tmoves_bind; [by apply tmoves_wrapping, tmoves_readBindings|].
    intros; auto with tmoves.
Qed.
End operations.

(** ** Requests *)
Definition success (status : Z) : Prop := (200 ≤ status < 300)%Z.

(** What a request did: it was answered once. A success is a read that left the tables
    alone or the mutation [op], authorized and carried out. A request that is malformed
    (400) or too long (413) touched nothing; any other failure left the tables alone or
    comes from the authorized mutation itself. *)
Definition outcome (ctx : ctx_t) (caller : ManagementCaller) (op : option MgmtOp) (s s' : MState) : Prop :=
  ∃ x, ms_out s' = (ms_out s ++ [x])%list ∧
    let status := resp_Status (mr_Response x) in
    let alone := rtc interfere (contents (ms_world s)) (contents (ms_world s')) in
    let authorized o store w1 := authorize pages m ctx caller (mgmt_action o) (mgmt_target o) (ms_world s) = (w1, Ok store) in
    (success status ∨ (400 ≤ status)%Z) ∧
    (success status → match op with
       | None => alone
       | Some o => ∃ store w1, authorized o store w1 ∧ run_op store (mgmt_store_op o) w1 = (ms_world s', Ok tt)
       end) ∧
    ((400 ≤ status)%Z → alone ∨ ∃ o store w1, op = Some o ∧ authorized o store w1 ∧ (run_op store (mgmt_store_op o) w1).1 = ms_world s') ∧
    (status = 400 ∨ status = 413 → ms_world s' = ms_world s)%Z.

Lemma refused ctx caller op x s s' : mgmt_respond x s = (s', tt) → (400 ≤ resp_Status (mr_Response x))%Z → outcome ctx caller op s s'.
Proof.
  intros [= <-] Hx. exists x. unfold success. cbn. split_and!; [done|by right| |by left|done]. intros Hs. lia.
Qed.

Lemma refused_error ctx caller op e s s' : writeError e s = (s', tt) → outcome ctx caller op s s'.
Proof. intros E. eapply refused; [exact E|]. destruct (error_status_of e) as [He _]. unfold failure_code in He. lia. Qed.

Lemma or_bad_outcome {A} ctx caller op (r : result string A) k s s' : or_bad r k s = (s', tt) →
  (∀ a, r = Ok a → k a s = (s', tt) → outcome ctx caller op s s') → outcome ctx caller op s s'.
Proof. destruct r as [a|msg]; intros E Hk; [by eapply Hk|]. eapply refused; [exact E|]. done. Qed.

(** The answer of an operation, for what is known of a success and of a failure. *)
Lemma answered {A} ctx caller op (f : M A) status render s s' : success status →
  (r ← mgmt_call f; finish status render r) s = (s', tt) →
  (∀ a, f (ms_world s) = (ms_world s', Ok a) → match op with
     | None => rtc interfere (contents (ms_world s)) (contents (ms_world s'))
     | Some o => ∃ store w1, authorize pages m ctx caller (mgmt_action o) (mgmt_target o) (ms_world s) = (w1, Ok store) ∧
                   run_op store (mgmt_store_op o) w1 = (ms_world s', Ok tt)
     end) →
  (∀ e, f (ms_world s) = (ms_world s', Err e) → rtc interfere (contents (ms_world s)) (contents (ms_world s')) ∨
     ∃ o store w1, op = Some o ∧ authorize pages m ctx caller (mgmt_action o) (mgmt_target o) (ms_world s) = (w1, Ok store) ∧
       (run_op store (mgmt_store_op o) w1).1 = ms_world s') →
  outcome ctx caller op s s'.
Proof.
  intros Hst (r & E & Ho)%finish_run Hok Herr. exists (answer status render r). split; [done|]. unfold success in *.
  destruct (answer_status status render r) as [(a & -> & ->)|(e & -> & -> & He)]; cbn [mr_Response resp_Status].
  - split_and!; [lia|intros _; by eapply Hok|lia|lia].
  - unfold failure_code in He. split_and!; [lia|lia|intros _; by eapply Herr|lia].
Qed.

Lemma read_answered {A} ctx caller (f : M A) status render s s' : tmoves interfere f → success status →
  (r ← mgmt_call f; finish status render r) s = (s', tt) → outcome ctx caller None s s'.
Proof. intros Hf Hst E. eapply answered; [done|exact E|..]; intros ? Ef%Hf; [done|by left]. Qed.

Lemma mutation_answered {A} ctx caller o (f : M A) status render s s' : discard f = mgmt_run pages m ctx caller o → success status →
  (r ← mgmt_call f; finish status render r) s = (s', tt) → outcome ctx caller (Some o) s s'.
Proof.
  intros Hf Hst E. eapply answered; [done|exact E|..].
  - intros a Ef. apply mgmt_run_ok. rewrite <- Hf. unfold discard, mbind, M_bind. by rewrite Ef.
  - intros e Ef. assert (Er : mgmt_run pages m ctx caller o (ms_world s) = (ms_world s', Err e)).
    { rewrite <- Hf. unfold discard, mbind, M_bind. by rewrite Ef. }
    apply management_guarded in Er as [[_ Hi]|(store & w1 & Ha & [Hr|[_ ->]])]; [by left|right; by exists o, store, w1|left|done].
    by eapply tmoves_authorize in Ha.
Qed.

Lemma handler_outcome rt q s s' : mgmt_handler pages m rt q s = (s', tt) → outcome (mq_ctx q) (managementCaller q) (mutation rt q) s s'.
Proof.
  destruct rt; cbn [mgmt_handler mutation]; intros E.
  - eapply or_bad_outcome; [exact E|]. intros x Hx E'. cbn. rewrite Hx. by eapply mutation_answered; [| |exact E'].
  - by eapply read_answered; [apply quiet_ListPolicies| |exact E].
  - eapply or_bad_outcome; [exact E|]. intros x _ E'. by eapply read_answered; [apply quiet_GetPolicy| |exact E'].
  - eapply or_bad_outcome; [exact E|]. intros ref Href E1. cbn beta in E1. destruct (String.eqb _ _); [by eapply refused_error|].
    eapply or_bad_outcome; [exact E1|]. intros rev Hrev E2. eapply or_bad_outcome; [exact E2|]. intros c Hc E3. cbn. rewrite Href, Hrev, Hc.
    by eapply mutation_answered; [| |exact E3].
  - eapply or_bad_outcome; [exact E|]. intros ref Href E1. cbn beta in E1. destruct (String.eqb _ _); [by eapply refused_error|].
    eapply or_bad_outcome; [exact E1|]. intros rev Hrev E2. cbn. rewrite Href, Hrev. by eapply mutation_answered; [| |exact E2].
  - eapply or_bad_outcome; [exact E|]. intros x Hx E'. cbn. rewrite Hx. by eapply mutation_answered; [| |exact E'].
  - eapply or_bad_outcome; [exact E|]. intros x _ E'. by eapply read_answered; [apply quiet_ListAttachments| |exact E'].
  - eapply or_bad_outcome; [exact E|]. intros scope Hs E1. eapply or_bad_outcome; [exact E1|]. intros rev Hrev E2. cbn.
    destruct (managementScope q) as [sc|]; [|done]. case_match; simplify_eq. rewrite Hrev. by eapply mutation_answered; [| |exact E2].
Qed.

(** C35: Every management request is answered exactly once. A success was admitted (a
    valid identity of a managed account) and is either a read, which left the tables to
    the other clients, or exactly the mutation that the route, parameters, If-Match and
    body ask for, which the caller was authorized to make and the account's store
    carried out. A malformed or oversized request touched nothing, and every other
    failure left the tables alone or is a failure of that authorized mutation. *)
Theorem management_request_safe maxBytes rt q s s' : serve_management pages m maxBytes rt q s = (s', tt) →
  outcome (later 1 (mq_ctx q)) (managementCaller q) (mutation rt q) s s' ∧
  (∀ x, ms_out s' = (ms_out s ++ [x])%list → success (resp_Status (mr_Response x)) →
     Arn.Validate (caller_identity (managementCaller q)) = None ∧ IsManaged m (mq_ctx q) (mq_account q) = true ∧ (mq_length q ≤ (if maxBytes <=? 0 then 10485760 else maxBytes))%Z).
Proof.
  intros E. assert (Hr : ∀ e, mgmt_error e s = (s', tt) → (400 ≤ resp_Status (WriteError e))%Z →
    outcome (later 1 (mq_ctx q)) (managementCaller q) (mutation rt q) s s' ∧
    ∀ x, ms_out s' = (ms_out s ++ [x])%list → ¬ success (resp_Status (mr_Response x))).
  { intros e Ee He. split; [by eapply refused|]. injection Ee as <-. intros x [= <-]%(inj (app (ms_out s))). unfold success. cbn. lia. }
  unfold serve_management in E.
  destruct (_ <? mq_length q)%Z eqn:Hl; [destruct (Hr _ E) as [? Hx]; [done|split; [done|intros x Ho Hs; by destruct (Hx x Ho)]]|].
  destruct (_ || _); [destruct (Hr _ E) as [? Hx]; [done|split; [done|intros x Ho Hs; by destruct (Hx x Ho)]]|].
  destruct (Arn.Validate _); [destruct (Hr _ E) as [? Hx]; [done|split; [done|intros x Ho Hs; by destruct (Hx x Ho)]]|].
  destruct (IsManaged _ _ _); [|destruct (Hr _ E) as [? Hx]; [done|split; [done|intros x Ho Hs; by destruct (Hx x Ho)]]].
  split; [exact (handler_outcome rt (later_request q) s s' E)|]. intros x _ _. split_and!; [done|done|].
  by apply Z.ltb_ge in Hl.
Qed.

(** An update of a policy that is answered with success found, when it committed, the
    revision that the request's single If-Match names, in the record of that policy of
    the caller's account, and replaced that record and nothing else by the content of
    the body under the new revision it answers. So of two clients that read one revision
    at most one update succeeds. *)
Theorem update_names_revision q s s' x : h_UpdatePolicy pages m q s = (s', tt) →
  ms_out s' = (ms_out s ++ [x])%list → success (resp_Status (mr_Response x)) →
  ∃ rev content store w1 p t,
    mq_ifMatch q = [String quote_mark (rev +:+ String quote_mark "")] ∧ decodeManagement (mq_body q) content_field "" = Ok content ∧
    authorize pages m (mq_ctx q) (managementCaller q) AuthzModel.UpdatePolicy (mq_id q) (ms_world s) = (w1, Ok store) ∧
    interfere (contents w1) t ∧ t !! policy_key store p ≫= lookup "revision" = Some (AV_S rev) ∧
    contents (ms_world s') = <[policy_key store p := policy_item p]> t ∧
    p = mkPolicy (mq_id q) (AccountID store) content (pol_Revision p) CustomPolicy ∧ isRevision (pol_Revision p) = true ∧
    mr_Response x = mkResponse 200 (JSONBody (publicPolicy p)).
Proof.
  assert (Hbad : ∀ y, mgmt_respond y s = (s', tt) → (400 ≤ resp_Status (mr_Response y))%Z → ms_out s' = (ms_out s ++ [x])%list →
    success (resp_Status (mr_Response x)) → False).
  { intros y [= <-] Hy [= <-]%(inj (app (ms_out s))). unfold success. cbn. lia. }
  unfold h_UpdatePolicy. intros E Ho Hs. destruct (managementRef q) as [ref|] eqn:Href; [|by destruct (Hbad _ E)]. cbn [or_bad] in E.
  destruct (String.eqb (ref_Kind ref) ManagedPolicy) eqn:Hk; [by destruct (Hbad _ E)|].
  destruct (managementRevision _) as [rev|] eqn:Hrev; [|by destruct (Hbad _ E)]. cbn [or_bad] in E.
  destruct (decodeManagement _ _ _) as [content|] eqn:Hc; [|by destruct (Hbad _ E)]. cbn [or_bad] in E.
  apply finish_run in E as (r & E & Ho'). rewrite Ho in Ho'. apply (inj (app (ms_out s))) in Ho'. injection Ho' as ->.
  destruct (answer_status 200 publicPolicy r) as [(p & -> & ->)|(e & -> & Hx & He)].
  2:{ rewrite Hx in Hs. unfold success in Hs. unfold failure_code in He. lia. }
  unfold mgmt_UpdatePolicy in E. apply M_bind_ok in E as (w0 & u & [-> _]%lift_ok & E). apply M_bind_ok in E as (w1 & store & Ha & E%wrapping_ok).
  apply managementRevision_ok in Hrev as (Hm & _ & _).
  assert (ref_ID ref = mq_id q) as Hid by (unfold managementRef in Href; by repeat case_match; simplify_eq).
  rewrite Hid in *. apply UpdatePolicy_cas in E as (_ & _ & Hv & Hp & t & Hi & Hl & Hw).
  exists rev, content, store, w1, p, t. by split_and!.
Qed.
End requests.

(** ** Witnesses

    An update of a policy over HTTP by a session that a stored grant allows; a second
    update that names the same revision is refused. *)
Section witnesses.
#[local] Existing Instances arn_splitter text_engine ascii_only tagged_codec.
#[local] Instance plain_texts : DecodeTexts := {| decode_text := fun _ => "json: cannot unmarshal" |}.

Definition reader_revision : string := pol_Revision (value_of no_policy (GetPolicy acme reader) acme_world).
Definition put_request (ifMatch : string) (body : json) : MgmtRequest :=
  mkMgmtRequest "123456789012" "arn:aws:sts::123456789012:assumed-role/Deployer/alice" "203.0.113.7" "cli" (RequestTime at_noon) 60 "reader" "" ""
    [ifMatch] (mkRequestBody [body] None) no_cancel.
Definition put_reader : MgmtRequest :=
  put_request (String quote_mark (reader_revision +:+ String quote_mark "")) (JObj [("content", JStr permit_all)]).

#[local] Notation acme_state := (mkMState acme_world []).
#[local] Notation put := (h_UpdatePolicy 10 acme_management put_reader).
#[local] Notation served := (serve_management 10 acme_management 0 UpdatePolicy_ put_reader).
#[local] Notation answer_of r := (mr_Response <$> ms_out r.1).

Example second_put_refused : resp_Status <$> answer_of (put (put acme_state).1) = [200; 409]%Z.
Proof. vm_compute. reflexivity. Qed.

Lemma put_answered : ms_out (put acme_state).1 = [default (mkMgmtResponse None writeFallback) (head (ms_out (put acme_state).1))].
Proof. vm_compute. reflexivity. Qed.
Lemma put_success : success (resp_Status (mr_Response (default (mkMgmtResponse None writeFallback) (head (ms_out (put acme_state).1))))).
Proof. vm_compute. split; [discriminate|reflexivity]. Qed.

Lemma update_names_revision_witness : ∃ rev, mq_ifMatch put_reader = [String quote_mark (rev +:+ String quote_mark "")].
Proof.
  destruct (update_names_revision (B := Memory) 10 acme_management put_reader acme_state (put acme_state).1 _
    (run_unit put acme_state) put_answered put_success) as (rev & _ & _ & _ & _ & _ & H & _).
  exists rev. exact H.
Defined.

Lemma management_request_safe_witness :
  outcome (B := Memory) 10 acme_management (later 1 no_cancel) (managementCaller put_reader) (mutation UpdatePolicy_ put_reader) acme_state (served acme_state).1.
Proof. exact (proj1 (management_request_safe (B := Memory) 10 acme_management 0 UpdatePolicy_ put_reader acme_state (served acme_state).1 (run_unit served acme_state))). Defined.
End witnesses.
