(* ===== verification/ApiTypes.v ===== *)
(** * The API objects (api/v1alpha1)

    The objects seaplane-api and seaplane-operator keep in their store: metadata, and
    per kind the spec and status. The parts of the Cluster and NodePool specs that are
    HyperShift's own types are a [Passthrough]: values that can be compared and
    copied. Of HyperShift's HostedCluster and NodePool the fields the operator sets
    are written out. *)
From S2P Require Import Prelude GoStrings Json.
From stdpp Require Import base gmap strings list.
From Stdlib Require Import ZArith String.
Open Scope string_scope.

Definition ClusterUIDLabel : string := "seaplane.io/cluster-uid".
Definition ClaimedByClusterUIDLabel : string := "seaplane.io/claimed-by-cluster-uid".

(** ** metav1.ObjectMeta

    A nil map reads as an empty one. *)
Record OwnerReference := mkOwnerRef { or_Kind : string; or_Name : string; or_UID : string; or_Controller : bool }.

Record ObjectMeta := mkObjectMeta {
  om_Name : string;
  om_Namespace : string;
  om_UID : string;
  om_ResourceVersion : string;
  om_Generation : Z;
  om_CreationTimestamp : Z;
  om_DeletionTimestamp : option Z;
  om_Labels : gmap string string;
  om_Annotations : gmap string string;
  om_OwnerReferences : list OwnerReference;
  om_Finalizers : list string
}.

Definition map_get (m : gmap string string) (key : string) : string := default "" (m !! key).

(** [metav1.GetControllerOf] *)
Definition GetControllerOf (m : ObjectMeta) : option OwnerReference :=
  snd <$> list_find (fun r => or_Controller r = true) (om_OwnerReferences m).

Record Condition := mkCondition {
  cond_Type : string;
  cond_Status : string;
  cond_ObservedGeneration : Z;
  cond_LastTransitionTime : Z;
  cond_Reason : string;
  cond_Message : string
}.

(** ** DNSReservation *)
Definition DNSReservationPhasePending : string := "Pending".
Definition DNSReservationPhaseReady : string := "Ready".

Record DNSReservationSpec := mkDNSSpec { ClusterDeletionPolicy : string }.
Record DNSReservationStatus := mkDNSStatus {
  dns_Conditions : list Condition;
  dns_Phase : string;
  dns_BaseDomain : string;
  dns_InternalHostedClusterName : string;
  dns_ObservedGeneration : Z
}.

(** ** OidcConfig *)
Definition OidcConfigPhasePending : string := "Pending".
Definition OidcConfigPhaseReady : string := "Ready".
Definition OidcConfigPhaseError : string := "Error".
Definition OidcConfigTypeManaged : string := "managed".
Definition OidcConfigTypeUnmanaged : string := "unmanaged".
Definition OidcIssuerReservationsNamespace : string := "oidc-issuer-reservations".

Record OidcConfigSpec := mkOidcSpec {
  oidc_Type : string;
  oidc_IssuerUrl : string;
  oidc_SecretArn : string;
  oidc_InstallerRoleArn : string;
  oidc_AccountID : string
}.
Record OidcConfigStatus := mkOidcStatus {
  oidc_Conditions : list Condition;
  oidc_Phase : string;
  oidc_Thumbprint : string;
  oidc_LastUsedTimestamp : option Z;
  oidc_ObservedGeneration : Z
}.

(** ** Spot queue reservations *)
Definition SpotTerminationQueueReservationsNamespace : string := "spot-termination-queue-reservations".
Definition SpotTerminationQueueOwnerLabel : string := "seaplane.io/spot-termination-queue-owner".
Definition SpotTerminationQueueClaimedAtAnnotation : string := "seaplane.io/spot-termination-queue-claimed-at".

(** ** Placement *)
Definition PlacementPhasePending : string := "Pending".
Definition PlacementPhaseBound : string := "Bound".

Record PlacementSpec := mkPlacementSpec { pl_ClusterName : string; pl_ManagementCluster : string }.
Record PlacementStatus := mkPlacementStatus { pl_Conditions : list Condition; pl_Phase : string; pl_ObservedGeneration : Z }.
Record PlacementReference := mkPlacementRef { pr_Name : string; pr_ManagementCluster : string }.

(** ** Manifest and ManagementCluster *)
Definition ManifestPhaseSyncing : string := "Syncing".
Definition ManifestPhaseApplied : string := "Applied".
Definition ManifestPhaseDeleting : string := "Deleting".

(** The raw content of a stored resource is a JSON document. *)
Record ResourceTemplate := mkTemplate { rt_Resource : string; rt_Content : json; rt_Watch : bool }.
Record ManifestSpec := mkManifestSpec { mf_ManagementCluster : string; mf_Resources : list ResourceTemplate }.
Record ResourceStatus := mkResourceStatus {
  rs_Resource : string;
  rs_Name : string;
  rs_Namespace : string;
  rs_Group : string;
  rs_Version : string;
  rs_Status : json
}.
Record ManifestStatus := mkManifestStatus {
  mf_Conditions : list Condition;
  mf_Phase : string;
  mf_AppliedResources : Z;
  mf_ObservedGeneration : Z;
  mf_ResourceStatuses : list ResourceStatus
}.
Record ManagementClusterSpec := mkManagementClusterSpec { mc_Region : string; mc_AccountID : string }.

(** ** Cluster and NodePool *)
Definition ClusterPhaseWaitingForPlacement : string := "WaitingForPlacement".
Definition ClusterPhaseProvisioning : string := "Provisioning".
Definition ClusterPhaseReady : string := "Ready".
Definition ClusterPhaseDeleting : string := "Deleting".
Definition HostedClusterNamePending : string := "uid-pending".

Definition NodePoolPhaseWaitingForCluster : string := "WaitingForCluster".
Definition NodePoolPhaseProvisioning : string := "Provisioning".
Definition NodePoolPhaseReady : string := "Ready".
Definition NodePoolPhaseDeleting : string := "Deleting".

Record APIEndpoint := mkAPIEndpoint { ep_Host : string; ep_Port : Z }.
Record NodePoolStatus := mkNodePoolStatus {
  np_ObservedReplicas : option Z;
  np_Conditions : list Condition;
  np_Phase : string;
  np_ObservedGeneration : Z
}.

(** The values of HyperShift's and Kubernetes' types in the specs and statuses. *)
Class Passthrough := {
  Configuration : Type;
  Release : Type;
  UpgradePolicy : Type;
  AutoScaling : Type;
  ClusterRest : Type;
  NodePoolRest : Type;
  UpgradePolicyStatus : Type;
  HostedClusterRest : Type;
  HyperNodePoolRest : Type;
  Configuration_eq_dec :: EqDecision Configuration;
  Release_eq_dec :: EqDecision Release;
  UpgradePolicy_eq_dec :: EqDecision UpgradePolicy;
  AutoScaling_eq_dec :: EqDecision AutoScaling
}.

Section kinds.
Context `{Passthrough}.

Record AWSPlatform := mkAWSPlatform { TerminationHandlerQueueURL : string; aws_Region : string }.

Record HostedCluster := mkHostedCluster {
  hc_Configuration : option Configuration;
  hc_Release : Release;
  hc_AWS : option AWSPlatform;
  hc_IssuerURL : string
}.

Record ClusterSpec := mkClusterSpec {
  cl_AccountID : string;
  cl_CreatorARN : string;
  cl_HostedClusterName : string;
  cl_DNSReservationID : string;
  cl_OidcConfigID : string;
  cl_ExpirationTimestamp : option Z;
  cl_Tags : gmap string string;
  cl_ControlPlaneUpgradePolicy : option UpgradePolicy;
  cl_HostedCluster : HostedCluster;
  cl_Rest : ClusterRest
}.

Record NodePoolPassthrough := mkNodePoolPassthrough {
  np_ClusterName : string;
  np_Replicas : option Z;
  np_AutoScaling : option AutoScaling;
  np_Release : Release;
  np_NodeLabels : gmap string string;
  np_AutoRepair : bool
}.

Record NodePoolSpec := mkNodePoolSpec {
  np_AccountID : string;
  np_InternalPoolID : string;
  np_TopAutoRepair : option bool;
  np_Labels : gmap string string;
  np_Tags : gmap string string;
  np_HttpTokens : string;
  np_NodePool : NodePoolPassthrough;
  np_Rest : NodePoolRest
}.

Record ClusterStatus := mkClusterStatus {
  cl_Conditions : list Condition;
  cl_Phase : string;
  cl_ControlPlaneEndpoint : APIEndpoint;
  cl_Version : string;
  cl_PlacementRef : option PlacementReference;
  cl_ObservedGeneration : Z;
  cl_UpgradePolicyStatus : option UpgradePolicyStatus;
  cl_BaseDomain : string
}.

(** ** HyperShift's HostedCluster and NodePool, as the operator renders them *)
Record Networking := mkNetworking {
  net_NetworkType : string;
  net_ClusterNetwork : list string;
  net_ServiceNetwork : list string;
  net_MachineNetwork : list string
}.
Record HostedAWS := mkHostedAWS { aws_EndpointAccess : string; aws_ResourceTags : list (string * string); aws_Rest : AWSPlatform }.

(** [ServicePublishingStrategyMapping]: a service, its strategy and the host name. *)
Record Publishing := mkPublishing { pub_Service : string; pub_Type : string; pub_Hostname : option string }.

Record HostedClusterSpec := mkHostedClusterSpec {
  hs_InfraID : string;
  hs_IssuerURL : string;
  hs_BaseDomain : string;
  hs_PublicZoneID : string;
  hs_PrivateZoneID : string;
  hs_PullSecret : string;
  hs_SSHKey : string;
  hs_KubeAPIServerDNSName : string;
  hs_Services : list Publishing;
  hs_APIServerCertificates : list string;
  hs_AdditionalTrustBundle : option string;
  hs_EtcdManagementType : string;
  hs_EtcdStorage : option (string * string);
  hs_Networking : Networking;
  hs_InfrastructureAvailability : string;
  hs_ControllerAvailability : string;
  hs_AWS : option HostedAWS;
  hs_ServiceAccountSigningKey : option string;
  hs_Rest : HostedClusterRest
}.

(** [intstr.IntOrString] *)
Inductive IntOrString := IntVal (n : Z) | StrVal (s : string).
Record RollingUpdate := mkRollingUpdate { ru_MaxUnavailable : option IntOrString; ru_MaxSurge : option IntOrString }.
Record ReplaceUpgrade := mkReplace { rep_Strategy : string; rep_RollingUpdate : option RollingUpdate }.
Record Management := mkManagement {
  mg_UpgradeType : string;
  mg_AutoRepair : bool;
  mg_Replace : option ReplaceUpgrade;
  mg_InPlace : option (option IntOrString)
}.
Record Volume := mkVolume { vol_Size : Z; vol_Type : string; vol_Encrypted : option bool }.
Record PoolAWS := mkPoolAWS { pa_InstanceType : string; pa_RootVolume : option Volume; pa_ResourceTags : list (string * string) }.

Record HyperNodePoolSpec := mkHyperNodePoolSpec {
  hp_ClusterName : string;
  hp_ReleaseImage : string;
  hp_Management : Management;
  hp_NodeLabels : gmap string string;
  hp_Replicas : option Z;
  hp_AutoScaling : option AutoScaling;
  hp_AWS : option PoolAWS;
  hp_Rest : HyperNodePoolRest
}.

Inductive Kind :=
| KCluster | KNodePool | KOidcConfig | KDNSReservation | KIndex | KConfigMap | KManifest | KManagementCluster
| KPlacement | KHostedCluster | KHyperNodePool.
#[export] Instance Kind_eq_dec : EqDecision Kind.
Proof. solve_decision. Defined.

Definition Spec (k : Kind) : Type :=
  match k with
  | KCluster => ClusterSpec
  | KNodePool => NodePoolSpec
  | KOidcConfig => OidcConfigSpec
  | KDNSReservation => DNSReservationSpec
  | KIndex | KConfigMap => unit
  | KManifest => ManifestSpec
  | KManagementCluster => ManagementClusterSpec
  | KPlacement => PlacementSpec
  | KHostedCluster => HostedClusterSpec
  | KHyperNodePool => HyperNodePoolSpec
  end.

Definition Status (k : Kind) : Type :=
  match k with
  | KCluster => ClusterStatus
  | KNodePool => NodePoolStatus
  | KOidcConfig => OidcConfigStatus
  | KDNSReservation => DNSReservationStatus
  | KManifest => ManifestStatus
  | KManagementCluster => list Condition
  | KPlacement => PlacementStatus
  | KIndex | KConfigMap | KHostedCluster | KHyperNodePool => unit
  end.

(** The zero value of a status. *)
Definition zero_Status (k : Kind) : Status k :=
  match k with
  | KCluster => mkClusterStatus [] "" (mkAPIEndpoint "" 0) "" None 0 None ""
  | KNodePool => mkNodePoolStatus None [] "" 0
  | KOidcConfig => mkOidcStatus [] "" "" None 0
  | KDNSReservation => mkDNSStatus [] "" "" "" 0
  | KManifest => mkManifestStatus [] "" 0 0 []
  | KManagementCluster => []
  | KPlacement => mkPlacementStatus [] "" 0
  | KIndex | KConfigMap | KHostedCluster | KHyperNodePool => tt
  end.

Record object (k : Kind) := mkObj { meta : ObjectMeta; spec : Spec k; status : Status k }.
End kinds.
Arguments mkObj {_} _ _ _ _.
Arguments meta {_ _}.
Arguments spec {_ _}.
Arguments status {_ _}.

(** ** Setters of the metadata *)
Definition set_identity (uid rv : string) (generation created : Z) (deleted : option Z) (m : ObjectMeta) : ObjectMeta :=
  mkObjectMeta (om_Name m) (om_Namespace m) uid rv generation created deleted
    (om_Labels m) (om_Annotations m) (om_OwnerReferences m) (om_Finalizers m).

Definition set_labels (labels : gmap string string) (m : ObjectMeta) : ObjectMeta :=
  mkObjectMeta (om_Name m) (om_Namespace m) (om_UID m) (om_ResourceVersion m) (om_Generation m) (om_CreationTimestamp m)
    (om_DeletionTimestamp m) labels (om_Annotations m) (om_OwnerReferences m) (om_Finalizers m).

Definition set_annotations (annotations : gmap string string) (m : ObjectMeta) : ObjectMeta :=
  mkObjectMeta (om_Name m) (om_Namespace m) (om_UID m) (om_ResourceVersion m) (om_Generation m) (om_CreationTimestamp m)
    (om_DeletionTimestamp m) (om_Labels m) annotations (om_OwnerReferences m) (om_Finalizers m).

Definition set_finalizers (finalizers : list string) (m : ObjectMeta) : ObjectMeta :=
  mkObjectMeta (om_Name m) (om_Namespace m) (om_UID m) (om_ResourceVersion m) (om_Generation m) (om_CreationTimestamp m)
    (om_DeletionTimestamp m) (om_Labels m) (om_Annotations m) (om_OwnerReferences m) finalizers.

Definition set_owners (owners : list OwnerReference) (m : ObjectMeta) : ObjectMeta :=
  mkObjectMeta (om_Name m) (om_Namespace m) (om_UID m) (om_ResourceVersion m) (om_Generation m) (om_CreationTimestamp m)
    (om_DeletionTimestamp m) (om_Labels m) (om_Annotations m) owners (om_Finalizers m).

(** The metadata of an object written with a namespace and a name alone. *)
Definition named (namespace name : string) : ObjectMeta :=
  mkObjectMeta name namespace "" "" 0 0 None ∅ ∅ [] [].

Definition with_meta `{Passthrough} {k} (f : ObjectMeta → ObjectMeta) (o : object k) : object k := mkObj k (f (meta o)) (spec o) (status o).
Definition with_spec `{Passthrough} {k} (s : Spec k) (o : object k) : object k := mkObj k (meta o) s (status o).
Definition with_status `{Passthrough} {k} (t : Status k) (o : object k) : object k := mkObj k (meta o) (spec o) t.
