(* ===== verification/KubeClient.v ===== *)
(** * The object store of the API (controller-runtime's client.Client)

    What the API relies on of the client it is given: reads see the stored objects,
    [Create] stores under a fresh UID, [Update] and [Delete] replace exactly the version
    they were given, a status update touches the status alone. [KubeClientLaws] states
    it, with other sessions running between any two calls; seaplane-db's client keeps
    these promises (PgClient.v), and KubeMemory.v is an instance. A list without a
    namespace lists them all. A call that
    fails may still have taken effect: its answer can be lost. *)
From S2P Require Import Prelude GoStrings Convert StateM ApiTypes.
From stdpp Require Import base gmap strings list relations.
From Stdlib Require Import ZArith Lia String.
Open Scope string_scope.
Import Convert.

(** ** Errors *)
Inductive kerr :=
| NotFound
| AlreadyExists
| Conflict
| BadRequest
| OtherError (msg : string).

#[export] Instance kerr_eq_dec : EqDecision kerr.
Proof. solve_decision. Defined.

Definition IsNotFound (e : kerr) : bool := match e with NotFound => true | _ => false end.
Definition IsAlreadyExists (e : kerr) : bool := match e with AlreadyExists => true | _ => false end.
Definition IsBadRequest (e : kerr) : bool := match e with BadRequest => true | _ => false end.
Definition IsConflict (e : kerr) : bool := match e with Conflict => true | _ => false end.

Section store.
Context `{Passthrough}.

(** ** The stored objects

    [used] are the UIDs given out so far. *)
Definition nsname : Type := string * string.
Record KState := mkKState { objs : ∀ k : Kind, gmap nsname (object k); used : gset string }.

Definition key_of {k} (o : object k) : nsname := (om_Namespace (meta o), om_Name (meta o)).
Definition uid_of {k} (o : object k) : string := om_UID (meta o).

(** The number in a resource version. *)
Definition version {k} (o : object k) : Z := default 0%Z (parseResourceVersion (om_ResourceVersion (meta o))).

Definition put {k} (s : KState) (o : object k) : KState :=
  mkKState (fun k' => match decide (k = k') with
                      | left e => <[key_of o := eq_rect k object o k' e]> (objs s k')
                      | right _ => objs s k'
                      end) (used s).
Definition remove_obj (k : Kind) (key : nsname) (s : KState) : KState :=
  mkKState (fun k' => if decide (k = k') then delete key (objs s k') else objs s k') (used s).
Definition use (uid : string) (s : KState) : KState := mkKState (objs s) ({[uid]} ∪ used s).

(** An object that is deleted and has no finalizers is gone. *)
Definition gone {k} (o : object k) : bool := bool_decide (om_DeletionTimestamp (meta o) ≠ None) && bool_decide (om_Finalizers (meta o) = []).
Definition settle {k} (s : KState) (o : object k) : KState := if gone o then remove_obj k (key_of o) s else put s o.

(** Objects are stored under their own keys, with positive versions and with UIDs that
    were given out and are theirs alone; an object that is gone is not stored. *)
Record wf (s : KState) : Prop := mkWf {
  wf_key : ∀ k key o, objs s k !! key = Some o → key = key_of o;
  wf_uid : ∀ k key o, objs s k !! key = Some o → uid_of o ≠ "" ∧ uid_of o ∈ used s;
  wf_version : ∀ k key o, objs s k !! key = Some o → (0 < version o)%Z;
  wf_unique : ∀ k key1 key2 o1 o2, objs s k !! key1 = Some o1 → objs s k !! key2 = Some o2 → uid_of o1 = uid_of o2 → key1 = key2;
  wf_live : ∀ k key o, objs s k !! key = Some o → gone o = false
}.

(** Other sessions change an object only under a higher version, and never give a UID
    out again. *)
Definition evolves (s s' : KState) : Prop :=
  used s ⊆ used s' ∧
  ∀ k key (o' : object k), objs s' k !! key = Some o' →
    uid_of o' ∉ used s ∨ ∃ o, objs s k !! key = Some o ∧ uid_of o = uid_of o' ∧ (o' = o ∨ (version o < version o')%Z).

(** ** The effects of the writes *)

Definition created {k} (o : object k) (uid rv : string) (now : Z) : object k :=
  with_meta (set_identity uid rv 1 now (om_DeletionTimestamp (meta o))) o.
Definition created_stored {k} (o : object k) (uid rv : string) (now : Z) : object k :=
  with_meta (set_identity uid rv 1 now None) o.

Definition create_effect {k} (o : object k) (uid rv : string) (now : Z) (s s' : KState) : Prop :=
  objs s k !! key_of o = None ∧ uid ∉ used s ∧ uid ≠ "" ∧ (0 < version (created_stored o uid rv now))%Z ∧
  s' = use uid (put s (created_stored o uid rv now)).

(** The object [Update] writes over the stored [cur]. *)
Definition updated {k} (cur o : object k) (rv : string) (generation : Z) : object k :=
  mkObj k (set_identity (uid_of cur) rv generation (om_CreationTimestamp (meta cur)) (om_DeletionTimestamp (meta cur)) (meta o))
    (spec o) (status cur).

Definition same_version {k} (cur o : object k) : Prop :=
  uid_of cur = uid_of o ∧ om_ResourceVersion (meta cur) = om_ResourceVersion (meta o).

Definition update_effect {k} (o : object k) (rv : string) (generation : Z) (s s' : KState) : Prop :=
  ∃ cur, objs s k !! key_of o = Some cur ∧ same_version cur o ∧
    (updated cur o rv generation = cur ∨ (version cur < version (updated cur o rv generation))%Z) ∧
    s' = settle s (updated cur o rv generation).

Definition status_effect {k} (o : object k) (rv : string) (s s' : KState) : Prop :=
  ∃ cur, objs s k !! key_of o = Some cur ∧ same_version cur o ∧
    let new := mkObj k (set_identity (uid_of cur) rv (om_Generation (meta cur)) (om_CreationTimestamp (meta cur))
                          (om_DeletionTimestamp (meta cur)) (meta cur)) (spec cur) (status o) in
    (new = cur ∨ (version cur < version new)%Z) ∧ s' = put s new.

(** A delete without a version takes the stored one. An object with finalizers stays,
    marked. *)
Definition delete_effect {k} (o : object k) (now : Z) (rv : string) (s s' : KState) : Prop :=
  ∃ cur, objs s k !! key_of o = Some cur ∧ (version o ≠ 0%Z → same_version cur o) ∧
    ((om_Finalizers (meta cur) = [] ∧ s' = remove_obj k (key_of o) s) ∨
     (om_Finalizers (meta cur) ≠ [] ∧ ∃ deleted,
        let new := with_meta (set_identity (uid_of cur) rv (om_Generation (meta cur)) (om_CreationTimestamp (meta cur)) (Some deleted)) cur in
        (version cur < version new)%Z ∧ s' = put s new)).

(** ** The interface *)
Inductive ListFilter := AllObjects | WithLabel (key value : string) | WithUID (uid : string).

Definition matches {k} (f : ListFilter) (o : object k) : bool :=
  match f with
  | AllObjects => true
  | WithLabel key value => bool_decide (om_Labels (meta o) !! key = Some value)
  | WithUID uid => String.eqb (uid_of o) uid
  end.

Class KubeClient := {
  World : Type;
  state : World → KState;
  interfere : relation KState;
  kc_Get : ∀ k, string → string → World → World * result kerr (object k);
  kc_List : ∀ k, string → ListFilter → World → World * result kerr (list (object k));
  kc_Create : ∀ k, object k → World → World * result kerr (object k);
  kc_Update : ∀ k, object k → World → World * result kerr (object k);
  kc_Status_Update : ∀ k, object k → World → World * result kerr (object k);
  kc_Delete : ∀ k, object k → World → World * result kerr unit
}.

(** A write that fails may have been committed; a refusal with [AlreadyExists] was not. *)
Class KubeClientLaws `{KubeClient} := {
  state_wf : ∀ w, wf (state w);
  interfere_evolves : ∀ s s', interfere s s' → evolves s s';
  interfere_wf : ∀ s s', interfere s s' → wf s → wf s';
  Get_law : ∀ k ns n w w' r, kc_Get k ns n w = (w', r) → rtc interfere (state w) (state w') ∧
    match r with
    | Ok o => objs (state w') k !! (ns, n) = Some o
    | Err NotFound => objs (state w') k !! (ns, n) = None
    | Err _ => True
    end;
  List_law : ∀ k ns f w w' r, kc_List k ns f w = (w', r) → rtc interfere (state w) (state w') ∧
    match r with
    | Ok l => NoDup (key_of <$> l) ∧
        ∀ o, o ∈ l ↔ objs (state w') k !! key_of o = Some o ∧ (ns = "" ∨ om_Namespace (meta o) = ns) ∧ matches f o = true
    | Err _ => True
    end;
  Create_law : ∀ k o w w' r, kc_Create k o w = (w', r) → ∃ mid, rtc interfere (state w) mid ∧
    match r with
    | Ok o' => ∃ uid rv now, o' = created o uid rv now ∧ create_effect o uid rv now mid (state w')
    | Err AlreadyExists => state w' = mid
    | Err _ => state w' = mid ∨ ∃ uid rv now, create_effect o uid rv now mid (state w')
    end;
  Update_law : ∀ k o w w' r, kc_Update k o w = (w', r) → ∃ mid, rtc interfere (state w) mid ∧
    match r with
    | Ok o' => ∃ rv g, update_effect o rv g mid (state w') ∧
        o' = with_meta (set_identity (uid_of o) rv g (om_CreationTimestamp (meta o)) (om_DeletionTimestamp (meta o))) o
    | Err _ => state w' = mid ∨ ∃ rv g, update_effect o rv g mid (state w')
    end;
  Status_Update_law : ∀ k o w w' r, kc_Status_Update k o w = (w', r) → ∃ mid, rtc interfere (state w) mid ∧
    match r with
    | Ok o' => ∃ rv, status_effect o rv mid (state w') ∧
        o' = with_meta (set_identity (uid_of o) rv (om_Generation (meta o)) (om_CreationTimestamp (meta o)) (om_DeletionTimestamp (meta o))) o
    | Err _ => state w' = mid ∨ ∃ rv, status_effect o rv mid (state w')
    end;
  Delete_law : ∀ k o w w' r, kc_Delete k o w = (w', r) → ∃ mid, rtc interfere (state w) mid ∧
    match r with
    | Ok _ => ∃ now rv, delete_effect o now rv mid (state w')
    | Err _ => state w' = mid ∨ ∃ now rv, delete_effect o now rv mid (state w')
    end
}.
End store.

(** * Properties of the object store's interface

    How the stored objects evolve: every session, this one included, changes an object
    only under a higher version, so a write that is held to the version of a snapshot
    replaces exactly that snapshot ([snapshot_current]). *)
From stdpp Require Import base gmap strings list relations.
From Stdlib Require Import ZArith Lia String.
Open Scope string_scope.

Section props.
Context `{Passthrough}.

Lemma put_same {k} (s : KState) (o : object k) : objs (put s o) k = <[key_of o := o]> (objs s k).
Proof. simpl. destruct (decide (k = k)) as [e|]; [|done]. by rewrite (Eqdep_dec.UIP_dec (fun x y => decide (x = y)) e eq_refl). Qed.

Lemma put_other {k k'} (s : KState) (o : object k) : k ≠ k' → objs (put s o) k' = objs s k'.
Proof. intros Hk. simpl. by destruct (decide (k = k')). Qed.

Lemma put_lookup {k k'} (s : KState) (o : object k) key (o' : object k') :
  objs (put s o) k' !! key = Some o' →
  (∃ e : k = k', key = key_of o ∧ o' = eq_rect k object o k' e) ∨ objs s k' !! key = Some o'.
Proof.
  destruct (decide (k = k')) as [<-|Hk].
  - rewrite put_same. intros [[<- <-]|[_ Hl]]%lookup_insert_Some; [|by right]. left. by exists eq_refl.
  - rewrite put_other by done. by right.
Qed.

Lemma remove_lookup k k' key key' (s : KState) (o' : object k') :
  objs (remove_obj k key s) k' !! key' = Some o' → objs s k' !! key' = Some o'.
Proof. simpl. destruct (decide (k = k')); [intros [_ ?]%lookup_delete_Some|]; done. Qed.

Lemma remove_keeps k k' key key' (s : KState) : k ≠ k' ∨ key ≠ key' → objs (remove_obj k key s) k' !! key' = objs s k' !! key'.
Proof. simpl. intros Hd. destruct (decide (k = k')) as [<-|]; [|done]. apply lookup_delete_ne. naive_solver. Qed.

(** ** Evolution *)

#[export] Instance evolves_refl : Reflexive evolves.
Proof. intros s. split; [done|]. intros k key o' Hl. right. exists o'. split_and!; [done..|]. by left. Qed.

#[export] Instance evolves_trans : Transitive evolves.
Proof.
  intros s1 s2 s3 [U1 E1] [U2 E2]. split; [set_solver|]. intros k key o3 H3.
  destruct (E2 _ _ _ H3) as [Hu|(o2 & H2 & Hu & Hv)]; [left; set_solver|].
  destruct (E1 _ _ _ H2) as [Hu1|(o1 & H1 & Hu1 & Hv1)]; [left; congruence|]. right. exists o1.
  split_and!; [done|congruence|]. destruct Hv as [->|Hv], Hv1 as [->|Hv1]; [by left|right; lia..].
Qed.

Lemma snapshot_current s s' {k} key (o cur : object k) :
  wf s → evolves s s' → objs s k !! key = Some o → objs s' k !! key = Some cur → same_version cur o → cur = o.
Proof.
  intros Hwf [_ He] Ho Hc [Hu Hv]. destruct (He _ _ _ Hc) as [Hf|(o1 & H1 & _ & [->|Hlt])].
  - destruct (wf_uid _ Hwf _ _ _ Ho) as (_ & Hin). rewrite Hu in Hf. done.
  - congruence.
  - assert (o1 = o) as -> by congruence. unfold version in Hlt. rewrite Hv in Hlt. lia.
Qed.

Lemma evolves_put s {k} (cur new : object k) :
  objs s k !! key_of new = Some cur → uid_of new = uid_of cur → new = cur ∨ (version cur < version new)%Z → evolves s (put s new).
Proof.
  intros Hc Hu Hv. split; [done|]. intros k' key o' [(<- & -> & ->)|Hl]%put_lookup; right.
  - exists cur. split_and!; [done|done|]. simpl. destruct Hv; [by left|by right].
  - exists o'. split_and!; [done..|by left].
Qed.

Lemma gone_same {k} (o o' : object k) :
  om_DeletionTimestamp (meta o) = om_DeletionTimestamp (meta o') → om_Finalizers (meta o) = om_Finalizers (meta o') → gone o = gone o'.
Proof. unfold gone. by intros -> ->. Qed.

Lemma settle_cases s {k} (o : object k) :
  gone o = false ∧ settle s o = put s o ∨ gone o = true ∧ settle s o = remove_obj k (key_of o) s.
Proof. unfold settle. destruct (gone o); auto. Qed.

Lemma settle_put s {k} (o : object k) : gone o = false → settle s o = put s o.
Proof. unfold settle. by intros ->. Qed.

Lemma wf_put s {k} (cur new : object k) :
  wf s → objs s k !! key_of new = Some cur → uid_of new = uid_of cur → new = cur ∨ (version cur < version new)%Z → gone new = false → wf (put s new).
Proof.
  intros [W1 W2 WV W3 WL] Hc Hu Hv HL. split.
  - intros k' key o' [(<- & -> & ->)|Hl]%put_lookup; [done|eauto].
  - intros k' key o' [(<- & -> & ->)|Hl]%put_lookup; [cbn [eq_rect]; rewrite Hu|]; eauto.
  - intros k' key o' [(<- & -> & ->)|Hl]%put_lookup; [|eauto]. cbn [eq_rect]. pose proof (WV _ _ _ Hc). destruct Hv as [->|]; [done|lia].
  - intros k' key1 key2 o1 o2 [(<- & -> & ->)|L1]%put_lookup [(e & -> & ->)|L2]%put_lookup E; simpl in E; [done|..|eauto].
    + rewrite Hu in E. eauto.
    + destruct e. simpl in E. rewrite Hu in E. eauto.
  - intros k' key o' [(<- & -> & ->)|Hl]%put_lookup; [done|eauto].
Qed.

Lemma wf_create s {k} (o : object k) uid rv now :
  wf s → uid ≠ "" → uid ∉ used s → (0 < version (created_stored o uid rv now))%Z → wf (use uid (put s (created_stored o uid rv now))).
Proof.
  intros [W1 W2 WV W3 WL] Hne Hf Hv. set (new := created_stored o uid rv now).
  assert (Hfresh : ∀ k' key o', objs s k' !! key = Some o' → uid_of o' ≠ uid) by (intros ??? [_ Hin]%W2 <-; done).
  split; intros k'; change (objs (use uid (put s new)) k') with (objs (put s new) k').
  - intros key o' [(<- & -> & ->)|Hl]%put_lookup; [done|eauto].
  - intros key o' [(<- & -> & ->)|Hl]%put_lookup; [split; [done|simpl; set_solver]|].
    apply W2 in Hl as [? ?]. split; [done|simpl; set_solver].
  - intros key o' [(<- & -> & ->)|Hl]%put_lookup; [done|eauto].
  - intros key1 key2 o1 o2 [(<- & -> & ->)|L1]%put_lookup [(e & -> & ->)|L2]%put_lookup E; simpl in E; [done|..|eauto].
    + symmetry in E. by apply Hfresh in L2.
    + destruct e. by apply Hfresh in L1.
  - intros key o' [(<- & -> & ->)|Hl]%put_lookup; [done|eauto].
Qed.

Lemma wf_remove s k key : wf s → wf (remove_obj k key s).
Proof.
  intros [W1 W2 WV W3 WL]. split; intros *; [intros ?%remove_lookup..|intros ?%remove_lookup ?%remove_lookup|intros ?%remove_lookup]; eauto.
Qed.

Lemma evolves_remove s k key : evolves s (remove_obj k key s).
Proof. split; [done|]. intros k' key' o' Hl%remove_lookup. right. exists o'. split_and!; [done..|by left]. Qed.

(** ** The effects *)

Lemma updated_meta {k} (cur o : object k) rv g : key_of (updated cur o rv g) = key_of o ∧ uid_of (updated cur o rv g) = uid_of cur.
Proof. done. Qed.

Lemma create_evolves {k} (o : object k) uid rv now s s' : create_effect o uid rv now s s' → evolves s s'.
Proof.
  intros (_ & Hu & _ & _ & ->). split; [simpl; set_solver|]. intros k' key o' Hl. change (objs (put s (created_stored o uid rv now)) k' !! key = Some o') in Hl.
  apply put_lookup in Hl as [(<- & -> & ->)|Hl]; [by left|]. right. exists o'. split_and!; [done..|by left].
Qed.

Lemma update_evolves {k} (o : object k) rv g s s' : update_effect o rv g s s' → evolves s s'.
Proof.
  intros (cur & Hc & _ & Hv & ->). destruct (settle_cases s (updated cur o rv g)) as [[_ ->]|[_ ->]]; [|apply evolves_remove].
  by apply (evolves_put s cur).
Qed.

Lemma status_evolves {k} (o : object k) rv s s' : wf s → status_effect o rv s s' → evolves s s'.
Proof.
  intros Hwf (cur & Hc & _ & Hv & ->). pose proof (wf_key _ Hwf _ _ _ Hc) as Hk. apply (evolves_put s cur); [|done..].
  by rewrite Hk in Hc.
Qed.

Lemma delete_evolves {k} (o : object k) now rv s s' : wf s → delete_effect o now rv s s' → evolves s s'.
Proof.
  intros Hwf (cur & Hc & _ & [[_ ->]|(_ & d & Hv & ->)]); [apply evolves_remove|].
  pose proof (wf_key _ Hwf _ _ _ Hc) as Hk. apply (evolves_put s cur); [by rewrite Hk in Hc|done|by right].
Qed.

Lemma create_wf {k} (o : object k) uid rv now s s' : wf s → create_effect o uid rv now s s' → wf s'.
Proof. intros Hwf (_ & Hf & Hne & Hv & ->). by apply wf_create. Qed.

Lemma update_wf {k} (o : object k) rv g s s' : wf s → update_effect o rv g s s' → wf s'.
Proof.
  intros Hwf (cur & Hc & _ & Hv & ->). destruct (settle_cases s (updated cur o rv g)) as [[Hl ->]|[_ ->]]; [|by apply wf_remove].
  by apply (wf_put s cur).
Qed.

Lemma status_wf {k} (o : object k) rv s s' : wf s → status_effect o rv s s' → wf s'.
Proof.
  intros Hwf (cur & Hc & _ & Hv & ->). pose proof (wf_key _ Hwf _ _ _ Hc) as Hk. apply (wf_put s cur); [done| |done|done|].
  - by rewrite Hk in Hc.
  - rewrite (gone_same _ cur) by done. by eapply wf_live.
Qed.

Lemma delete_wf {k} (o : object k) now rv s s' : wf s → delete_effect o now rv s s' → wf s'.
Proof.
  intros Hwf (cur & Hc & _ & [[_ ->]|(Hfin & d & Hv & ->)]); [by apply wf_remove|].
  pose proof (wf_key _ Hwf _ _ _ Hc) as Hk. apply (wf_put s cur); [done|by rewrite Hk in Hc|done|by right|].
  unfold gone. simpl. by rewrite (bool_decide_eq_false_2 (om_Finalizers (meta cur) = [])).
Qed.

(** An update that keeps the finalizers of the version it replaces keeps the object. *)
Lemma update_puts {k} (o : object k) rv g s s' : wf s → update_effect o rv g s s' →
  (∀ cur, objs s k !! key_of o = Some cur → same_version cur o → om_Finalizers (meta o) = om_Finalizers (meta cur)) →
  ∃ cur, objs s k !! key_of o = Some cur ∧ same_version cur o ∧ s' = put s (updated cur o rv g).
Proof.
  intros Hwf (cur & Hc & Hv & _ & ->) Hf. exists cur. split_and!; [done..|]. apply settle_put.
  rewrite (gone_same _ cur); [by eapply wf_live|done|]. by apply Hf.
Qed.
End props.

Section laws.
Context `{KubeClientLaws}.

Lemma interference_evolves s s' : rtc interfere s s' → evolves s s'.
Proof. induction 1 as [|? ? ? Hi _ IH]; [reflexivity|]. etrans; [by apply interfere_evolves|done]. Qed.

Lemma interference_wf s s' : rtc interfere s s' → wf s → wf s'.
Proof. induction 1 as [|? ? ? Hi _ IH]; [done|]. eauto using interfere_wf. Qed.

(** What a write does: nothing, or its effect, after some interference. *)
Lemma Update_effect k (o : object k) w w' r : kc_Update k o w = (w', r) → ∃ mid, rtc interfere (state w) mid ∧
  (state w' = mid ∧ is_ok r = false ∨ ∃ rv g, update_effect o rv g mid (state w')).
Proof.
  intros (mid & Hi & Hr)%Update_law. exists mid. split; [done|]. destruct r as [o'|e].
  - destruct Hr as (rv & g & He & _). eauto.
  - destruct Hr as [->|?]; [by left|eauto].
Qed.

Lemma Delete_effect k (o : object k) w w' r : kc_Delete k o w = (w', r) → ∃ mid, rtc interfere (state w) mid ∧
  (state w' = mid ∧ is_ok r = false ∨ ∃ now rv, delete_effect o now rv mid (state w')).
Proof.
  intros (mid & Hi & Hr)%Delete_law. exists mid. split; [done|]. destruct r as [o'|e]; [eauto|].
  destruct Hr as [->|?]; [by left|eauto].
Qed.

Lemma Create_effect k (o : object k) w w' r : kc_Create k o w = (w', r) → ∃ mid, rtc interfere (state w) mid ∧
  (state w' = mid ∧ is_ok r = false ∨ ∃ uid rv now, create_effect o uid rv now mid (state w')).
Proof.
  intros (mid & Hi & Hr)%Create_law. exists mid. split; [done|]. destruct r as [o'|e].
  - destruct Hr as (uid & rv & now & _ & He). eauto 6.
  - destruct e; try (destruct Hr as [->|?]; [by left|by right]). by left.
Qed.

Lemma Status_Update_effect k (o : object k) w w' r : kc_Status_Update k o w = (w', r) → ∃ mid, rtc interfere (state w) mid ∧
  (state w' = mid ∧ is_ok r = false ∨ ∃ rv, status_effect o rv mid (state w')).
Proof.
  intros (mid & Hi & Hr)%Status_Update_law. exists mid. split; [done|]. destruct r as [o'|e].
  - destruct Hr as (rv & He & _). eauto.
  - destruct Hr as [->|?]; [by left|eauto].
Qed.
(** Reads leave the store to the others. *)
Lemma moves_Get k ns n : moves state interfere (kc_Get k ns n).
Proof. by intros w w' r [? _]%Get_law. Qed.
Lemma moves_List k ns f : moves state interfere (kc_List k ns f).
Proof. by intros w w' r [? _]%List_law. Qed.
End laws.
