(* ===== verification/KubeMemory.v ===== *)
(** * An object store in memory

    An instance of the store's interface for a single session: it shows that the laws
    can hold, and the examples of the theorems run on it. Its worlds carry the proof
    that their objects are stored under their own keys. *)
From S2P Require Import Prelude GoStrings Convert StateM ApiTypes KubeClient.
From stdpp Require Import base gmap strings list relations.
From Stdlib Require Import ZArith Lia String.
Open Scope string_scope.

Section memory.
Context `{Passthrough}.

Record Mem := mkMem { mem_state : KState; mem_next : Z; mem_now : Z }.
Definition Memory_World : Type := { m : Mem | wf (mem_state m) }.

Definition run_on {A} (f : Mem → Mem * A) (Hf : ∀ m, wf (mem_state m) → wf (mem_state (f m).1)) (w : Memory_World) : Memory_World * A :=
  let p := f (proj1_sig w) in (exist _ p.1 (Hf _ (proj2_sig w)), p.2).

Definition tick (m : Mem) (s : KState) : Mem := mkMem s (mem_next m + 1) (mem_now m + 1).

Definition mem_get k ns n (m : Mem) : Mem * result kerr (object k) :=
  (m, match objs (mem_state m) k !! (ns, n) with Some o => Ok o | None => Err NotFound end).

Definition mem_list k ns f (m : Mem) : Mem * result kerr (list (object k)) :=
  (m, Ok (filter (fun o => (ns = "" ∨ om_Namespace (meta o) = ns) ∧ matches f o = true) (snd <$> map_to_list (objs (mem_state m) k)))).

Definition mem_create k (o : object k) (m : Mem) : Mem * result kerr (object k) :=
  let uid := "uid-" +:+ FormatInt (mem_next m) in
  let s := mem_state m in
  match objs s k !! key_of o with
  | Some _ => (m, Err AlreadyExists)
  | None => if decide (uid ∈ used s) then (m, Err (OtherError "exhausted"))
            else (tick m (use uid (put s (created_stored o uid "1" (mem_now m)))), Ok (created o uid "1" (mem_now m)))
  end.

(** The stored object of the version of [o]. *)
Definition mem_current {k} (o : object k) (m : Mem) : result kerr (object k) :=
  match objs (mem_state m) k !! key_of o with
  | None => Err NotFound
  | Some cur => if decide (uid_of cur = uid_of o ∧ om_ResourceVersion (meta cur) = om_ResourceVersion (meta o)) then Ok cur else Err Conflict
  end.

Definition mem_store {k A} (cur new : object k) (a : A) (m : Mem) : Mem * result kerr A :=
  if decide (version cur < version new)%Z then (tick m (settle (mem_state m) new), Ok a) else (m, Err (OtherError "exhausted")).

Definition next_version {k} (o : object k) : string := FormatInt (version o + 1).

Definition mem_update k (o : object k) (m : Mem) : Mem * result kerr (object k) :=
  match mem_current o m with
  | Err e => (m, Err e)
  | Ok cur =>
      let rv := next_version cur in let g := (om_Generation (meta cur) + 1)%Z in
      mem_store cur (updated cur o rv g)
        (with_meta (set_identity (uid_of o) rv g (om_CreationTimestamp (meta o)) (om_DeletionTimestamp (meta o))) o) m
  end.

Definition mem_status k (o : object k) (m : Mem) : Mem * result kerr (object k) :=
  match mem_current o m with
  | Err e => (m, Err e)
  | Ok cur =>
      let rv := next_version cur in
      mem_store cur (mkObj k (set_identity (uid_of cur) rv (om_Generation (meta cur)) (om_CreationTimestamp (meta cur))
                                (om_DeletionTimestamp (meta cur)) (meta cur)) (spec cur) (status o))
        (with_meta (set_identity (uid_of o) rv (om_Generation (meta o)) (om_CreationTimestamp (meta o)) (om_DeletionTimestamp (meta o))) o) m
  end.

Definition mem_delete k (o : object k) (m : Mem) : Mem * result kerr unit :=
  match (if decide (version o = 0%Z) then match objs (mem_state m) k !! key_of o with Some cur => Ok cur | None => Err NotFound end
         else mem_current o m) with
  | Err e => (m, Err e)
  | Ok cur =>
      match om_Finalizers (meta cur) with
      | [] => (tick m (remove_obj k (key_of o) (mem_state m)), Ok tt)
      | _ => mem_store cur (with_meta (set_identity (uid_of cur) (next_version cur) (om_Generation (meta cur))
                                         (om_CreationTimestamp (meta cur)) (Some (mem_now m))) cur) tt m
      end
  end.

(** ** The objects stay under their own keys *)

Lemma mem_current_ok {k} (o cur : object k) m : mem_current o m = Ok cur → objs (mem_state m) k !! key_of o = Some cur ∧ same_version cur o.
Proof. unfold mem_current, same_version. destruct (_ !! _) eqn:E; [|done]. case_decide; [|done]. naive_solver. Qed.

Lemma mem_store_wf {k A} (cur new : object k) (a : A) m :
  objs (mem_state m) k !! key_of new = Some cur → uid_of new = uid_of cur → wf (mem_state m) → wf (mem_state (mem_store cur new a m).1).
Proof.
  intros Hc Hu Hwf. unfold mem_store. case_decide; [|done]. simpl.
  destruct (settle_cases (mem_state m) new) as [[Hl ->]|[_ ->]]; [|by apply wf_remove]. eapply wf_put; [done..|by right|done].
Qed.

Lemma mem_create_wf k o m : wf (mem_state m) → wf (mem_state (mem_create k o m).1).
Proof.
  unfold mem_create. intros Hwf. destruct (_ !! _); [done|]. case_decide; [done|]. simpl. by apply wf_create.
Qed.

Lemma mem_update_wf k o m : wf (mem_state m) → wf (mem_state (mem_update k o m).1).
Proof.
  unfold mem_update. intros Hwf. destruct (mem_current o m) as [cur|] eqn:E; [|done].
  apply mem_current_ok in E as [Hc _]. by eapply mem_store_wf.
Qed.

Lemma mem_status_wf k o m : wf (mem_state m) → wf (mem_state (mem_status k o m).1).
Proof.
  unfold mem_status. intros Hwf. destruct (mem_current o m) as [cur|] eqn:E; [|done].
  apply mem_current_ok in E as [Hc _]. pose proof (wf_key _ Hwf _ _ _ Hc) as Hk. eapply mem_store_wf; [|done..]. by rewrite Hk in Hc.
Qed.

Lemma mem_delete_current k o m cur :
  (if decide (version o = 0%Z) then match objs (mem_state m) k !! key_of o with Some cur => Ok cur | None => Err NotFound end
   else mem_current o m) = Ok cur →
  objs (mem_state m) k !! key_of o = Some cur ∧ (version o ≠ 0%Z → same_version cur o).
Proof. case_decide; [destruct (_ !! _) eqn:E; [|done]; naive_solver|]. intros [? ?]%mem_current_ok. done. Qed.

Lemma mem_delete_wf k o m : wf (mem_state m) → wf (mem_state (mem_delete k o m).1).
Proof.
  unfold mem_delete. intros Hwf. destruct (if decide _ then _ else _) as [cur|] eqn:E; [|done].
  apply mem_delete_current in E as [Hc _]. destruct (om_Finalizers _); [by apply wf_remove|].
  pose proof (wf_key _ Hwf _ _ _ Hc) as Hk. eapply mem_store_wf; [|done..]. by rewrite Hk in Hc.
Qed.

#[export] Instance MemoryClient : KubeClient := {|
  World := Memory_World;
  state := fun w => mem_state (proj1_sig w);
  interfere := fun _ _ => False;
  kc_Get := fun k ns n => run_on (mem_get k ns n) (fun m Hm => Hm);
  kc_List := fun k ns f => run_on (mem_list k ns f) (fun m Hm => Hm);
  kc_Create := fun k o => run_on (mem_create k o) (mem_create_wf k o);
  kc_Update := fun k o => run_on (mem_update k o) (mem_update_wf k o);
  kc_Status_Update := fun k o => run_on (mem_status k o) (mem_status_wf k o);
  kc_Delete := fun k o => run_on (mem_delete k o) (mem_delete_wf k o)
|}.

Lemma NoDup_fmap_filter {A B} (f : A → B) (P : A → Prop) `{∀ x, Decision (P x)} l : NoDup (f <$> l) → NoDup (f <$> filter P l).
Proof.
  induction l as [|x l IH]; [done|]. rewrite fmap_cons, NoDup_cons. intros [Hx Hl]. rewrite filter_cons.
  case_decide; [|by apply IH]. rewrite fmap_cons. apply NoDup_cons. split; [|by apply IH].
  intros (y & Ey & Hy)%list_elem_of_fmap. apply Hx. rewrite Ey. apply list_elem_of_filter in Hy as [_ Hy]. by apply list_elem_of_fmap_2.
Qed.

Lemma keys_NoDup k (s : KState) : wf s → NoDup (key_of <$> (snd <$> map_to_list (objs s k))).
Proof.
  intros Hwf. rewrite <- list_fmap_compose.
  rewrite (list_fmap_ext _ fst); [apply NoDup_fst_map_to_list|]. intros i [key o] Hi. simpl.
  symmetry. eapply (wf_key _ Hwf). apply elem_of_map_to_list. by eapply list_elem_of_lookup_2.
Qed.

Lemma run_on_inv {A} (f : Mem → Mem * A) Hf w w' a : run_on f Hf w = (w', a) → ∃ m', f (proj1_sig w) = (m', a) ∧ state w' = mem_state m'.
Proof. unfold run_on. intros [= <- <-]. exists (f (`w)).1. split; [by destruct (f _)|done]. Qed.

Lemma mem_store_inv {k A} (cur new : object k) (a : A) m m' r : mem_store cur new a m = (m', r) →
  (m' = m ∧ is_ok r = false) ∨ (r = Ok a ∧ (version cur < version new)%Z ∧ mem_state m' = settle (mem_state m) new).
Proof. unfold mem_store. case_decide; intros [= <- <-]; [by right|by left]. Qed.

#[export] Instance MemoryClient_laws : KubeClientLaws.
Proof.
  split.
  - intros [m Hm]. done.
  - done.
  - done.
  - intros k ns n w w' r (m' & [= <- <-] & Hs)%run_on_inv. rewrite Hs. split; [reflexivity|]. destruct (objs _ k !! _) eqn:E; done.
  - intros k ns f w w' r (m' & [= <- <-] & Hs)%run_on_inv. rewrite Hs. split; [reflexivity|]. split.
    + apply NoDup_fmap_filter, (keys_NoDup k _ (proj2_sig w)).
    + intros o. rewrite list_elem_of_filter, list_elem_of_fmap. split.
      * intros ([Hns Hf] & ([key o'] & -> & Hin)). apply elem_of_map_to_list in Hin. split_and!; [|done..].
        simpl. by rewrite <- (wf_key _ (proj2_sig w) _ _ _ Hin).
      * intros (Hl & Hns & Hf). split; [done|]. exists (key_of o, o). split; [done|]. by apply elem_of_map_to_list.
  - intros k o w w' r (m' & E & Hs)%run_on_inv. rewrite Hs. eexists. split; [reflexivity|]. unfold mem_create in E. simpl.
    destruct (objs _ k !! key_of o) eqn:El; [by injection E as <- <-|]. case_decide as Hd; injection E as <- <-; [by left|].
    do 3 eexists. split; [done|]. done.
  - intros k o w w' r (m' & E & Hs)%run_on_inv. rewrite Hs. eexists. split; [reflexivity|]. unfold mem_update in E. simpl.
    destruct (mem_current o _) as [cur|] eqn:Ec; [|injection E as <- <-; by left]. apply mem_current_ok in Ec as [Hc Hv].
    apply mem_store_inv in E as [[-> Hr]|(-> & Hlt & ->)]; [destruct r; [done|by left]|].
    do 2 eexists. split; [|done]. exists cur. split_and!; [done..|by right|done].
  - intros k o w w' r (m' & E & Hs)%run_on_inv. rewrite Hs. eexists. split; [reflexivity|]. unfold mem_status in E. simpl.
    destruct (mem_current o _) as [cur|] eqn:Ec; [|injection E as <- <-; by left]. apply mem_current_ok in Ec as [Hc Hv].
    apply mem_store_inv in E as [[-> Hr]|(-> & Hlt & ->)]; [destruct r; [done|by left]|].
    eexists. split; [|done]. exists cur. split; [done|]. split; [done|]. split; [by right|]. apply settle_put.
    rewrite (gone_same _ cur) by done. exact (wf_live _ (proj2_sig w) _ _ _ Hc).
  - intros k o w w' r (m' & E & Hs)%run_on_inv. rewrite Hs. eexists. split; [reflexivity|]. unfold mem_delete in E. simpl.
    destruct (if decide _ then _ else _) as [cur|] eqn:Ec; [|injection E as <- <-; by left].
    apply mem_delete_current in Ec as [Hc Hv]. destruct (om_Finalizers (meta cur)) eqn:Ef.
    + injection E as <- <-. exists 0%Z, "". exists cur. split_and!; [done..|]. by left.
    + apply mem_store_inv in E as [[-> Hr]|(-> & Hlt & ->)]; [destruct r; [done|by left]|].
      eexists 0%Z, _. exists cur. split_and!; [done..|]. right. rewrite Ef. split; [done|]. eexists. split; [done|].
      apply settle_put. unfold gone. simpl. by rewrite Ef, (bool_decide_eq_false_2 (_ :: _ = [])).
Qed.

Definition empty_store : World.
Proof. refine (exist _ (mkMem (mkKState (fun _ => ∅) ∅) 1 1000) _). split; intros *; simpl; by rewrite lookup_empty. Defined.
End memory.
