(* ===== verification/ApiClient.v ===== *)
(** * The API's client of its store (pkg/clients/seaplanedb/client.go)

    The account-scoped operations of [seaplanedb.Client]: every object of an account
    lives in the namespace [account-<id>], a candidate or snapshot that does not belong
    to the caller is refused before the store is asked, and a Spot termination queue is
    reserved by an Index object named after account and queue URL. *)
From S2P Require Import Prelude GoStrings Convert Authorizer StateM ApiTypes KubeClient.
From stdpp Require Import base gmap strings list.
From Stdlib Require Import ZArith Lia String.
Open Scope string_scope.

(** SHA-256 in hexadecimal, and times in RFC 3339 with nanoseconds. *)
Class Digest := { hex_sha256 : string → string }.
Class Clock `{KubeClient} := {
  now : World → Z;
  time_Format : Z → string;
  time_Parse : string → option Z;
  time_roundtrip : ∀ t, time_Parse (time_Format t) = Some t
}.

Definition second : Z := 1000000000.
Definition minute : Z := 60 * second.

(** A call of the store, with Go's [(value, error)] answer. *)
Notation Call A := (St World (result kerr A)).

Module db.
Section client.
Context `{KubeClient}.

(** ** Calls and their errors *)
(** [if err != nil { return err }] *)
Definition and_then {A B} (m : Call A) (f : A → Call B) : Call B :=
  r ← m; match r with Ok a => f a | Err e => mret (Err e) end.
Definition check {B} (r : result kerr unit) (m : Call B) : Call B :=
  match r with Ok _ => m | Err e => mret (Err e) end.

(** ** Ownership *)
Definition accountNSPrefix : string := "account-".
Definition accountNamespace (accountID : string) : string := accountNSPrefix +:+ accountID.

Definition validateOwnedCandidate (account : string) (obj : ObjectMeta) (specAccountID : string) : result kerr unit :=
  if String.eqb account "" || negb (String.eqb (om_Namespace obj) (accountNamespace account)) ||
     negb (String.eqb (map_get (om_Labels obj) AccountIDLabel) account) ||
     (negb (String.eqb specAccountID "") && negb (String.eqb specAccountID account))
  then Err (OtherError "create candidate identity does not match caller")
  else Ok tt.

Definition validateOwnedSnapshot (account : string) (obj : ObjectMeta) : result kerr unit :=
  match Convert.ValidateObjectResourceVersion (Some (om_ResourceVersion obj)) with
  | Err _ => Err (OtherError "resource version")
  | Ok _ =>
      if String.eqb account "" || negb (String.eqb (om_Namespace obj) (accountNamespace account)) || String.eqb (om_Name obj) ""
      then Err (OtherError "invalid snapshot identity")
      else match om_Labels obj !! AccountIDLabel with
           | Some owner => if String.eqb owner account then Ok tt else Err (OtherError "snapshot owner does not match caller")
           | None => Ok tt
           end
  end.

(** ** Generic operations *)
Definition GetOwned (account : string) (k : Kind) (name : string) : Call (object k) := kc_Get k (accountNamespace account) name.
Definition ListOwned (account : string) (k : Kind) (f : ListFilter) : Call (list (object k)) := kc_List k (accountNamespace account) f.
Definition UpdateOwned (account : string) (k : Kind) (o : object k) : Call (object k) :=
  check (validateOwnedSnapshot account (meta o)) (kc_Update k o).
Definition DeleteOwned (account : string) (k : Kind) (o : object k) : Call unit :=
  check (validateOwnedSnapshot account (meta o)) (kc_Delete k o).
Definition GetByUID (account : string) (k : Kind) (uid : string) : Call (object k) :=
  and_then (ListOwned account k (WithUID uid)) (fun l => mret match l with o :: _ => Ok o | [] => Err NotFound end).

(** ** Cluster operations *)
Definition set_cluster_account (account : string) (c : ClusterSpec) : ClusterSpec :=
  mkClusterSpec account (cl_CreatorARN c) (cl_HostedClusterName c) (cl_DNSReservationID c) (cl_OidcConfigID c)
    (cl_ExpirationTimestamp c) (cl_Tags c) (cl_ControlPlaneUpgradePolicy c) (cl_HostedCluster c) (cl_Rest c).

Definition CreateCluster (account : string) (c : object KCluster) : Call (object KCluster) :=
  check (validateOwnedCandidate account (meta c) (cl_AccountID (spec c)))
    (kc_Create KCluster (with_spec (k := KCluster) (set_cluster_account account (spec c)) c)).
Definition GetCluster (account name : string) : Call (object KCluster) := GetOwned account KCluster name.
Definition ListClusters (account : string) : Call (list (object KCluster)) := ListOwned account KCluster AllObjects.
Definition UpdateCluster (account : string) (c : object KCluster) : Call (object KCluster) := UpdateOwned account KCluster c.
Definition DeleteClusterObject (account : string) (c : object KCluster) : Call unit := DeleteOwned account KCluster c.
Definition DeleteCluster (account name : string) : Call unit := and_then (GetCluster account name) (DeleteClusterObject account).

(** ** NodePool operations *)
Definition nodePoolParent (np : object KNodePool) : option OwnerReference :=
  match GetControllerOf (meta np) with
  | None => None
  | Some parent =>
      if negb (String.eqb (or_Kind parent) "Cluster") || String.eqb (or_UID parent) "" ||
         negb (String.eqb (map_get (om_Labels (meta np)) ClusterUIDLabel) (or_UID parent))
      then None else Some parent
  end.

Definition requireOwnedCluster (account : string) (np : object KNodePool) : Call unit :=
  match nodePoolParent np with
  | None => mret (Err NotFound)
  | Some parent =>
      and_then (GetCluster account (or_Name parent))
        (fun cluster => mret (if String.eqb (uid_of cluster) (or_UID parent) then Ok tt else Err NotFound))
  end.

Definition set_pool_account (account : string) (p : NodePoolSpec) : NodePoolSpec :=
  mkNodePoolSpec account (np_InternalPoolID p) (np_TopAutoRepair p) (np_Labels p) (np_Tags p) (np_HttpTokens p) (np_NodePool p) (np_Rest p).

Definition CreateNodePool (account : string) (np : object KNodePool) : Call (object KNodePool) :=
  check (validateOwnedCandidate account (meta np) (np_AccountID (spec np)))
    (and_then (requireOwnedCluster account np)
       (fun _ => kc_Create KNodePool (with_spec (k := KNodePool) (set_pool_account account (spec np)) np))).
Definition GetNodePool (account name : string) : Call (object KNodePool) := GetOwned account KNodePool name.
Definition ListNodePools (account clusterUID : string) : Call (list (object KNodePool)) :=
  ListOwned account KNodePool (if String.eqb clusterUID "" then AllObjects else WithLabel ClusterUIDLabel clusterUID).
Definition UpdateNodePool (account : string) (np : object KNodePool) : Call (object KNodePool) := UpdateOwned account KNodePool np.
Definition DeleteNodePoolObject (account : string) (np : object KNodePool) : Call unit := DeleteOwned account KNodePool np.
Definition DeleteNodePool (account name : string) : Call unit := and_then (GetNodePool account name) (DeleteNodePoolObject account).

(** ** DNSReservation operations *)
Definition CreateDNSReservation (account : string) (r : object KDNSReservation) : Call (object KDNSReservation) :=
  check (validateOwnedCandidate account (meta r) "") (kc_Create KDNSReservation r).
Definition GetDNSReservation (account name : string) : Call (object KDNSReservation) := GetOwned account KDNSReservation name.
Definition GetDNSReservationByUID (account uid : string) : Call (object KDNSReservation) := GetByUID account KDNSReservation uid.
Definition ListDNSReservations (account : string) : Call (list (object KDNSReservation)) := ListOwned account KDNSReservation AllObjects.
Definition UpdateDNSReservation (account : string) (r : object KDNSReservation) : Call (object KDNSReservation) := UpdateOwned account KDNSReservation r.
Definition UpdateDNSReservationStatus (r : object KDNSReservation) : Call (object KDNSReservation) := kc_Status_Update KDNSReservation r.
Definition DeleteDNSReservationObject (r : object KDNSReservation) : Call unit := kc_Delete KDNSReservation r.
Definition DeleteDNSReservation (account name : string) : Call unit := and_then (GetDNSReservation account name) DeleteDNSReservationObject.

(** ** OidcConfig operations *)
Definition CreateOidcConfig (account : string) (oc : object KOidcConfig) : Call (object KOidcConfig) :=
  check (validateOwnedCandidate account (meta oc) "") (kc_Create KOidcConfig oc).
Definition GetOidcConfig (account name : string) : Call (object KOidcConfig) := GetOwned account KOidcConfig name.
Definition GetOidcConfigByUID (account uid : string) : Call (object KOidcConfig) := GetByUID account KOidcConfig uid.
Definition ListOidcConfigs (account : string) : Call (list (object KOidcConfig)) := ListOwned account KOidcConfig AllObjects.
Definition UpdateOidcConfigObject (account : string) (oc : object KOidcConfig) : Call (object KOidcConfig) := UpdateOwned account KOidcConfig oc.
Definition DeleteOidcConfigObject (account : string) (oc : object KOidcConfig) : Call unit := DeleteOwned account KOidcConfig oc.
Definition DeleteOidcConfig (account name : string) : Call unit := and_then (GetOidcConfig account name) (DeleteOidcConfigObject account).
Definition UpdateOidcConfigLastUsedTimestamp (account uid : string) (ts : Z) : Call (object KOidcConfig) :=
  and_then (GetOidcConfigByUID account uid) (fun oc =>
    let t := status oc in
    kc_Status_Update KOidcConfig (with_status (k := KOidcConfig)
      (mkOidcStatus (oidc_Conditions t) (oidc_Phase t) (oidc_Thumbprint t) (Some ts) (oidc_ObservedGeneration t)) oc)).
Definition GetOidcIssuerIndex (indexName : string) : Call (object KIndex) := kc_Get KIndex OidcIssuerReservationsNamespace indexName.

(** ** Manifests and management clusters *)
Definition set_namespace (ns : string) (m : ObjectMeta) : ObjectMeta :=
  mkObjectMeta (om_Name m) ns (om_UID m) (om_ResourceVersion m) (om_Generation m) (om_CreationTimestamp m)
    (om_DeletionTimestamp m) (om_Labels m) (om_Annotations m) (om_OwnerReferences m) (om_Finalizers m).
Definition CreateManifest (ns : string) (o : object KManifest) : Call (object KManifest) := kc_Create KManifest (with_meta (set_namespace ns) o).
Definition GetManifest (ns name : string) : Call (object KManifest) := kc_Get KManifest ns name.
Definition DeleteManifest (ns name : string) : Call unit :=
  kc_Delete KManifest (mkObj KManifest (named ns name) (mkManifestSpec "" []) (zero_Status KManifest)).
Definition CreateManagementCluster (o : object KManagementCluster) : Call (object KManagementCluster) :=
  kc_Create KManagementCluster (with_meta (set_namespace "") o).

(** ** Account allowlist *)
Definition enrolledAccountsNamespace : string := "accounts".
Definition enrolled (account : string) : object KConfigMap := mkObj KConfigMap (named enrolledAccountsNamespace account) tt tt.

Definition EnrollAccount (account : string) : Call unit :=
  r ← kc_Create KConfigMap (enrolled account);
  mret match r with Ok _ => Ok tt | Err e => if IsAlreadyExists e then Ok tt else Err e end.
Definition UnenrollAccount (account : string) : Call unit :=
  r ← kc_Delete KConfigMap (enrolled account);
  mret match r with Ok _ => Ok tt | Err e => if IsNotFound e then Ok tt else Err e end.
Definition IsAccountEnrolled (account : string) : Call bool :=
  r ← kc_Get KConfigMap enrolledAccountsNamespace account;
  mret match r with Ok _ => Ok true | Err e => if IsNotFound e then Ok false else Err e end.

(** ** Spot termination queues *)
Context `{!Digest, !Clock}.

Definition IssuerURLIndexName (normalizedIssuerURL : string) : string := hex_sha256 normalizedIssuerURL.
Definition SpotTerminationQueueIndexName (accountID queueURL : string) : string :=
  hex_sha256 (accountID +:+ String Ascii.zero queueURL).

Definition spotQueueClaimTimeout : Z := 10 * minute.
Definition spotQueueOwnerPrefix : string := "cluster-".
Definition spotQueueOwnerKey (clusterName : string) : string := spotQueueOwnerPrefix +:+ clusterName.

Definition spotQueueClaimExpired (t : Z) (index : object KIndex) : bool :=
  match time_Parse (map_get (om_Annotations (meta index)) SpotTerminationQueueClaimedAtAnnotation) with
  | Some claimedAt => (spotQueueClaimTimeout <? t - claimedAt)%Z
  | None => false
  end.

Definition clusterUsesSpotTerminationQueue (cluster : object KCluster) (queueURL : string) : bool :=
  match hc_AWS (cl_HostedCluster (spec cluster)) with
  | None => false
  | Some aws => String.eqb (TerminationHandlerQueueURL aws) queueURL
  end.

(** The reservation [ClaimSpotTerminationQueue] creates. *)
Definition reservation (indexName ownerKey : string) (t : Z) : object KIndex :=
  mkObj KIndex (set_annotations {[SpotTerminationQueueClaimedAtAnnotation := time_Format t]}
                  (set_labels {[SpotTerminationQueueOwnerLabel := ownerKey]}
                     (named SpotTerminationQueueReservationsNamespace indexName))) tt tt.

Definition owner_label (index : object KIndex) : string := map_get (om_Labels (meta index)) SpotTerminationQueueOwnerLabel.

Definition refreshed (existing : object KIndex) (t : Z) : object KIndex :=
  with_meta (fun m => set_annotations (<[SpotTerminationQueueClaimedAtAnnotation := time_Format t]> (om_Annotations m)) m) existing.

Definition read_clock : St World Z := fun w => (w, now w).

(** A round of the claim's loop ends it ([Some]) or goes on ([None]). *)
Definition Round : Type := option (result kerr bool).

(** The end of a round that found a reservation of another cluster which does not use
    the queue. *)
Definition reclaim (existing : object KIndex) (createErr : kerr) : St World Round :=
  t ← read_clock;
  if negb (spotQueueClaimExpired t existing) then mret (Some (Err createErr))
  else
    d ← kc_Delete KIndex existing;
    mret match d with
         | Ok _ => None
         | Err e => if IsNotFound e || IsConflict e then None else Some (Err e)
         end.

(** A round that found [existing]. *)
Definition claim_existing (account queueURL ownerKey : string) (existing : object KIndex) (createErr : kerr) : St World Round :=
  if String.eqb (owner_label existing) ownerKey then
    t ← read_clock;
    u ← kc_Update KIndex (refreshed existing t);
    mret match u with
         | Ok _ => Some (Ok false)
         | Err e => if IsConflict e then None else Some (Err e)
         end
  else
    let ownerName := TrimPrefix (owner_label existing) spotQueueOwnerPrefix in
    if String.eqb ownerName (owner_label existing) || String.eqb ownerName "" then mret (Some (Err createErr))
    else
      oc ← GetCluster account ownerName;
      match oc with
      | Ok ownerCluster =>
          if clusterUsesSpotTerminationQueue ownerCluster queueURL then mret (Some (Err createErr)) else reclaim existing createErr
      | Err e => if IsNotFound e then reclaim existing createErr else mret (Some (Err e))
      end.

Definition claim_round (account queueURL clusterName : string) : St World (Round * option kerr) :=
  let indexName := SpotTerminationQueueIndexName account queueURL in
  let ownerKey := spotQueueOwnerKey clusterName in
  t ← read_clock;
  c ← kc_Create KIndex (reservation indexName ownerKey t);
  match c with
  | Ok _ => mret (Some (Ok true), None)
  | Err createErr =>
      if negb (IsAlreadyExists createErr) then mret (Some (Err createErr), None)
      else
        g ← kc_Get KIndex SpotTerminationQueueReservationsNamespace indexName;
        match g with
        | Err e => mret (if IsNotFound e then None else Some (Err e), Some createErr)
        | Ok existing => r ← claim_existing account queueURL ownerKey existing createErr; mret (r, Some createErr)
        end
  end.

Fixpoint claim_loop (rounds : nat) (lastConflict : option kerr) (account queueURL clusterName : string) : Call bool :=
  match rounds with
  | 0 => mret (Err (match lastConflict with
                    | Some e => e
                    | None => OtherError "could not claim Spot termination queue after reclaiming stale reservations"
                    end))
  | S rounds =>
      '(r, conflict) ← claim_round account queueURL clusterName;
      match r with
      | Some r => mret r
      | None => claim_loop rounds (match conflict with Some e => Some e | None => lastConflict end) account queueURL clusterName
      end
  end.

Definition ClaimSpotTerminationQueue (account queueURL clusterName : string) : Call bool :=
  claim_loop 5 None account queueURL clusterName.

(** The end of [ReleaseSpotTerminationQueue]. *)
Definition release (reservation : object KIndex) : Call unit :=
  d ← kc_Delete KIndex reservation;
  mret match d with Ok _ => Ok tt | Err e => if IsNotFound e then Ok tt else Err e end.

Definition ReleaseSpotTerminationQueue (account queueURL clusterName : string) : Call unit :=
  g ← kc_Get KIndex SpotTerminationQueueReservationsNamespace (SpotTerminationQueueIndexName account queueURL);
  match g with
  | Err e => mret (if IsNotFound e then Ok tt else Err e)
  | Ok reservation =>
      if negb (String.eqb (owner_label reservation) (spotQueueOwnerKey clusterName))
      then mret (Err (OtherError "spot termination queue reservation is not owned by cluster"))
      else
        oc ← GetCluster account clusterName;
        match oc with
        | Ok ownerCluster =>
            if clusterUsesSpotTerminationQueue ownerCluster queueURL then mret (Ok tt) else release reservation
        | Err e => if IsNotFound e then release reservation else mret (Err e)
        end
  end.
End client.
End db.
