(* ===== verification/Handlers.v ===== *)
(** * Request handlers (pkg/handlers/authorize.go, resource_authz.go)

    What the handlers share: the request with its gateway identity, the state of a
    running handler (the store's world, the responses written, the prepared
    authorization of a request that retries), and the checks every operation makes
    before it reads out or writes an object. Logging and the authorization metrics are
    left out. *)
From S2P Require Import Prelude GoStrings Json AwsArn AuthzModel Arn Authorizer StateM HttpApi ApiTypes KubeClient ApiClient.
From stdpp Require Import base gmap strings list.
From Stdlib Require Import ZArith Lia String.
Open Scope string_scope.

Section handlers.
Context `{ArnParser, CedarEngine, KubeClient, !Clock}.

(** [shared] says that the request runs under [withAuthzOutcome]; [r_ctx] are the
    successive observations of the context from a world on. *)
Record Request := mkRequest {
  r_method : string;
  r_id : string;
  r_query : gmap string string;
  r_account : string;
  r_caller : string;
  r_allowlisted : bool;
  r_sourceIP : string;
  r_userAgent : string;
  r_labels : gmap string string;
  r_shared : bool;
  r_ctx : World → ctx_t
}.

Definition withRequestLabels (labels : gmap string string) (r : Request) : Request :=
  mkRequest (r_method r) (r_id r) (r_query r) (r_account r) (r_caller r) (r_allowlisted r) (r_sourceIP r) (r_userAgent r)
    labels (r_shared r) (r_ctx r).
Definition withAuthzOutcome (r : Request) : Request :=
  mkRequest (r_method r) (r_id r) (r_query r) (r_account r) (r_caller r) (r_allowlisted r) (r_sourceIP r) (r_userAgent r)
    (r_labels r) true (r_ctx r).

(** ** The state of a handler *)
Record HState := mkHState { hs_world : World; hs_out : list Response; hs_prepared : option Prepared }.
Definition start (w : World) : HState := mkHState w [] None.
Definition hview (h : HState) : KState := state (hs_world h).

(** A call of the store. *)
Definition call {A} (m : Call A) : St HState (result kerr A) := fun h =>
  let '(w, r) := m (hs_world h) in (mkHState w (hs_out h) (hs_prepared h), r).
Definition respond (x : Response) : St HState unit := fun h =>
  (mkHState (hs_world h) (hs_out h ++ [x])%list (hs_prepared h), tt).
Definition observe {A} (f : World → A) : St HState A := fun h => (h, f (hs_world h)).

Definition writeAPIError (e : APIError) : St HState unit := respond (WriteError e).
Definition api_Write (status : Z) (data : option (option json)) : St HState unit := respond (HttpApi.Write status data).

(** ** Authorization *)
Definition request_time (w : World) : Time := mkTime (now w / second) (now w mod second).

Definition request_identity (r : Request) : Identity := mkIdentity (r_account r) (r_caller r) (r_allowlisted r).

Definition prepareResourceAuthz (a : Authorizer) (r : Request) : St HState (result error Prepared) := fun h =>
  match (if r_shared r then hs_prepared h else None) with
  | Some p => (h, Ok p)
  | None =>
      let w := hs_world h in
      let prepared := Prepare a (r_ctx r w) (request_identity r) (mkRequestContext (r_sourceIP r) (r_userAgent r) (request_time w) (r_labels r)) in
      match prepared with
      | Ok p => (if r_shared r then mkHState w (hs_out h) (Some p) else h, prepared)
      | Err _ => (h, prepared)
      end
  end.

Definition writeResourceAuthzError : St HState unit := writeAPIError errAuthzFailed.
Definition writeAuthzDenied : St HState unit := writeAPIError errAuthzDenied.

(** The checks of the actions in order, up to the first that does not allow. *)
Fixpoint check_actions (prepared : Prepared) (r : Request) (resource : Resource) (actions : list Action) : St HState bool :=
  match actions with
  | [] => mret true
  | action :: actions =>
      d ← observe (fun w => Check prepared (r_ctx r w) action resource);
      match d with
      | Err _ => _ ← writeResourceAuthzError; mret false
      | Ok decision => if Allowed decision then check_actions prepared r resource actions else _ ← writeAuthzDenied; mret false
      end
  end.

Definition authorizeResource (a : Authorizer) (r : Request) (operation : Action) (resource : Resource) (additional : list Action) : St HState bool :=
  prepared ← prepareResourceAuthz a r;
  match prepared with
  | Err _ => _ ← writeResourceAuthzError; mret false
  | Ok prepared => check_actions prepared r resource (operation :: additional)
  end.

Definition authorizeCollection (a : Authorizer) (r : Request) (operation : Action) (resource : Resource) : St HState (option Prepared) :=
  prepared ← prepareResourceAuthz a r;
  match prepared with
  | Err _ => _ ← writeResourceAuthzError; mret None
  | Ok p => ok ← check_actions p r resource [operation]; mret (if (ok : bool) then Some p else None)
  end.

(** ** Authorization resources of the stored objects *)
Definition candidateResource (resource : Resource) (name : string) : Resource :=
  mkResource (res_Kind resource) name (res_AccountID resource) (res_Labels resource) (res_CollectionKind resource) (res_ParentCluster resource).

Definition clusterResource (cr : object KCluster) : Resource :=
  mkResource Cluster (uid_of cr) (map_get (om_Labels (meta cr)) AccountIDLabel) (om_Annotations (meta cr)) "" None.

Definition namespaceAccount (ns : string) : string := if HasPrefix ns "account-" then TrimPrefix ns "account-" else "".

Definition oidcConfigResource (oc : object KOidcConfig) : Resource :=
  mkResource OIDCConfig (uid_of oc) (namespaceAccount (om_Namespace (meta oc))) (om_Annotations (meta oc)) "" None.

Definition dnsReservationResource (res : object KDNSReservation) : Resource :=
  mkResource DNSReservation (uid_of res) (namespaceAccount (om_Namespace (meta res))) (om_Annotations (meta res)) "" None.

Definition collectionResource (kind : ResourceKind) (account : string) : Resource := mkResource Collection "" account ∅ kind None.

(** The resource of a node pool: [NotFound] when it has no current owned parent. *)
Definition nodePoolResource (account : string) (np : object KNodePool) : Call Resource :=
  match GetControllerOf (meta np) with
  | None => mret (Err NotFound)
  | Some owner =>
      if negb (String.eqb (or_Kind owner) "Cluster") || String.eqb (or_UID owner) "" ||
         negb (String.eqb (map_get (om_Labels (meta np)) ClusterUIDLabel) (or_UID owner))
      then mret (Err NotFound)
      else
        parent ← db.GetCluster account (or_Name owner);
        mret match parent with
             | Err e => Err e
             | Ok parent =>
                 if String.eqb (uid_of parent) (or_UID owner)
                 then Ok (mkResource NodePool (uid_of np) (map_get (om_Labels (meta np)) AccountIDLabel) (om_Annotations (meta np)) ""
                            (Some (mkParentCluster (uid_of parent) (map_get (om_Labels (meta parent)) AccountIDLabel) (om_Annotations (meta parent)))))
                 else Err NotFound
             end
  end.

Definition nodePoolNotFound (operation : Action) : option APIError :=
  if String.eqb operation DescribeNodePool then Some ErrNodePoolGetNotFound
  else if String.eqb operation UpdateNodePool then Some ErrNodePoolUpdateNotFound
  else if String.eqb operation DeleteNodePool then Some ErrNodePoolDeleteNotFound
  else None.

Definition authorizeNodePool (a : Authorizer) (r : Request) (operation : Action) (np : object KNodePool) (additional : list Action) : St HState bool :=
  resource ← call (nodePoolResource (r_account r) np);
  match resource with
  | Err e =>
      match nodePoolNotFound operation with
      | Some notFound => if IsNotFound e then _ ← writeAPIError notFound; mret false else _ ← writeResourceAuthzError; mret false
      | None => _ ← writeResourceAuthzError; mret false
      end
  | Ok resource =>
      let resource := if String.eqb operation CreateNodePool then candidateResource resource (om_Name (meta np)) else resource in
      authorizeResource a r operation resource additional
  end.

(** The specialised actions an update needs beyond its own. *)
Definition clusterUpdateActions (old candidate : ClusterSpec) : list Action :=
  ((if decide (hc_Configuration (cl_HostedCluster old) = hc_Configuration (cl_HostedCluster candidate)) then [] else [UpdateClusterConfig]) ++
   (if decide (hc_Release (cl_HostedCluster old) = hc_Release (cl_HostedCluster candidate) ∧
               cl_ControlPlaneUpgradePolicy old = cl_ControlPlaneUpgradePolicy candidate) then [] else [UpdateClusterVersion]))%list.

Definition nodePoolUpdateActions (old candidate : NodePoolSpec) : list Action :=
  ((if decide (np_Replicas (np_NodePool old) = np_Replicas (np_NodePool candidate) ∧
               np_AutoScaling (np_NodePool old) = np_AutoScaling (np_NodePool candidate)) then [] else [ScaleNodePool]) ++
   (if decide (np_Release (np_NodePool old) = np_Release (np_NodePool candidate)) then [] else [UpdateNodePoolVersion]))%list.

(** ** Paging parameters *)
Definition parsePositiveInt (value : string) (fallback maxValue : Z) : Z :=
  if String.eqb value "" then fallback
  else match ParseInt value with
       | Some parsed => if (parsed <=? 0)%Z || (maxValue <? parsed)%Z then fallback else parsed
       | None => fallback
       end.

Definition parseNonNegativeInt (value : string) : Z :=
  if String.eqb value "" then 0
  else match ParseInt value with Some parsed => if (parsed <? 0)%Z then 0%Z else parsed | None => 0%Z end.

Definition page_slice {A} (items : list A) (limit offset : Z) : list A :=
  if (Z.of_nat (List.length items) <=? offset)%Z then []
  else take (Z.to_nat (Z.min limit (Z.of_nat (List.length items) - offset))) (drop (Z.to_nat offset) items).
End handlers.

(** * Lemmas on handlers

    [running] describes a handler between two of its steps: how far the store has moved,
    how many responses were written, where its prepared authorization came from.
    [authorized] is what a successful check establishes. *)
From stdpp Require Import base gmap strings list relations.
From Stdlib Require Import ZArith Lia String.
Open Scope string_scope.

Section handlers.
Context `{ArnParser, CedarEngine, KubeClientLaws, !Clock}.

(** Prepared for the request's caller, context and labels at some moment. *)
Definition prepared_by (a : Authorizer) (r : Request) (p : Prepared) : Prop :=
  ∃ w, Prepare a (r_ctx r w) (request_identity r) (mkRequestContext (r_sourceIP r) (r_userAgent r) (request_time w) (r_labels r)) = Ok p.

(** Every action was checked on the resource, and allowed. *)
Definition authorized (a : Authorizer) (r : Request) (actions : list Action) (resource : Resource) : Prop :=
  ∃ p, prepared_by a r p ∧ Forall (λ action, ∃ w d, Check p (r_ctx r w) action resource = Ok d ∧ Allowed d = true) actions.

Record running (R : relation KState) (a : Authorizer) (r : Request) (s0 : KState) (n : nat) (h : HState) : Prop := mkRunning {
  run_steps : rtc R s0 (hview h);
  run_out : List.length (hs_out h) = n;
  run_prepared : ∀ p, hs_prepared h = Some p → prepared_by a r p
}.

Lemma running_start R a r w : running R a r (state w) 0 (start w).
Proof. by split. Qed.

Lemma call_inv {A} (m : Call A) h h' r : call m h = (h', r) →
  m (hs_world h) = (hs_world h', r) ∧ hs_out h' = hs_out h ∧ hs_prepared h' = hs_prepared h.
Proof. unfold call. destruct (m (hs_world h)) as [w x]. by intros [= <- <-]. Qed.

Lemma run_call {A} R a r s0 n (m : Call A) : moves state R m → triple (running R a r s0 n) (call m) (λ _, running R a r s0 n).
Proof.
  intros Hm h h' x [Hs Ho Hp] (E & Ho' & Hp')%call_inv. split; [|congruence|by rewrite Hp'].
  etrans; [done|]. by eapply Hm.
Qed.

Lemma run_respond R a r s0 n x : triple (running R a r s0 n) (respond x) (λ _, running R a r s0 (S n)).
Proof. intros h h' [] [Hs Ho Hp] [= <-]. split; [done| |done]. simpl. rewrite length_app. simpl. lia. Qed.

Lemma run_writeAPIError R a r s0 n e : triple (running R a r s0 n) (writeAPIError e) (λ _, running R a r s0 (S n)).
Proof. apply run_respond. Qed.

Lemma run_api_Write R a r s0 n c d : triple (running R a r s0 n) (api_Write c d) (λ _, running R a r s0 (S n)).
Proof. apply run_respond. Qed.

(** Authorization reads nothing from the store and writes nothing to it. *)
Lemma prepare_spec a r h h' x : (∀ p, hs_prepared h = Some p → prepared_by a r p) →
  prepareResourceAuthz a r h = (h', x) →
  hs_world h' = hs_world h ∧ hs_out h' = hs_out h ∧ (∀ p, hs_prepared h' = Some p → prepared_by a r p) ∧ (∀ p, x = Ok p → prepared_by a r p).
Proof.
  intros Hp. unfold prepareResourceAuthz.
  destruct (if r_shared r then hs_prepared h else None) as [p|] eqn:Ep.
  - intros [= <- <-]. split_and!; [done..|]. intros q [= <-]. apply Hp. by destruct (r_shared r).
  - destruct (Prepare _ _ _ _) as [p|e] eqn:E; intros [= <- <-]; [|split_and!; done].
    assert (prepared_by a r p) by (by exists (hs_world h)). destruct (r_shared r); split_and!; try done; intros q [= <-]; done.
Qed.

(** The answers of a failed check. *)
Definition denial (x : Response) : Prop := x = WriteError errAuthzFailed ∨ x = WriteError errAuthzDenied.

Lemma check_actions_spec p r resource actions h h' ok : check_actions p r resource actions h = (h', ok) →
  hs_world h' = hs_world h ∧ hs_prepared h' = hs_prepared h ∧
  (if ok then hs_out h' = hs_out h ∧ Forall (λ action, ∃ w d, Check p (r_ctx r w) action resource = Ok d ∧ Allowed d = true) actions
   else ∃ x, denial x ∧ hs_out h' = (hs_out h ++ [x])%list).
Proof.
  induction actions as [|action actions IH]; simpl; [intros [-> ->]%St_ret_inv; by split_and!|].
  intros (h1 & d & [= <- <-] & Hd)%St_bind_inv. destruct (Check p _ action resource) as [d|e] eqn:Ec.
  - destruct (Allowed d) eqn:Ea.
    + apply IH in Hd as (Hw & Hp & Hok). destruct ok; [|by split_and!]. destruct Hok as [Ho Hall].
      split_and!; [done..|]. constructor; [by exists (hs_world h), d|done].
    + apply St_bind_inv in Hd as (h2 & [] & [= <-] & [-> ->]%St_ret_inv). split_and!; [done..|]. eexists. split; [by right|done].
  - apply St_bind_inv in Hd as (h2 & [] & [= <-] & [-> ->]%St_ret_inv). split_and!; [done..|]. eexists. split; [by left|done].
Qed.

(** The world a check leaves, and what it establishes. *)
Lemma authorizeResource_spec a r operation resource additional h h' ok :
  (∀ p, hs_prepared h = Some p → prepared_by a r p) →
  authorizeResource a r operation resource additional h = (h', ok) →
  hs_world h' = hs_world h ∧ (∀ p, hs_prepared h' = Some p → prepared_by a r p) ∧
  (if ok then hs_out h' = hs_out h ∧ authorized a r (operation :: additional) resource else ∃ x, denial x ∧ hs_out h' = (hs_out h ++ [x])%list).
Proof.
  intros Hp. unfold authorizeResource. intros (h1 & x & (Hw & Ho & Hp1 & Hx)%prepare_spec & Hc)%St_bind_inv; [|done].
  destruct x as [p|e].
  - apply check_actions_spec in Hc as (Hw' & Hp' & Hok). rewrite Hw', Hp'. split_and!; [done..|].
    destruct ok; [|by rewrite <- Ho]. destruct Hok as [Ho' Hall]. split; [congruence|]. exists p. split; [by apply Hx|done].
  - apply St_bind_inv in Hc as (h2 & [] & [= <-] & [-> ->]%St_ret_inv). simpl. rewrite Ho. split_and!; [done..|]. eexists. split; [by left|done].
Qed.

Lemma run_authorizeResource R a r s0 n operation resource additional :
  triple (running R a r s0 n) (authorizeResource a r operation resource additional)
    (λ ok h, if ok : bool then running R a r s0 n h ∧ authorized a r (operation :: additional) resource else running R a r s0 (S n) h).
Proof.
  intros h h' ok [Hs Ho Hp] E. apply authorizeResource_spec in E as (Hw & Hp' & Hok); [|done].
  assert (hview h' = hview h) as Hv by (unfold hview; by rewrite Hw). destruct ok.
  - destruct Hok as [Ho' Ha]. split; [|done]. split; [by rewrite Hv|congruence|done].
  - destruct Hok as (x & _ & Ho'). split; [by rewrite Hv| |done]. rewrite Ho', length_app. simpl. lia.
Qed.

(** ** Moves of the client's operations *)

Lemma moves_nodePoolResource account np : moves state interfere (nodePoolResource account np).
Proof.
  unfold nodePoolResource. destruct (GetControllerOf _) as [owner|]; [|apply moves_ret].
  destruct (_ || _); [apply moves_ret|]. apply moves_bind; [apply moves_Get|]. intros; apply moves_ret.
Qed.

(** An update through the client: nothing, or its effect on the object of the snapshot's
    version. *)
Lemma UpdateOwned_effect account k (o : object k) w w' r : db.UpdateOwned account k o w = (w', r) → ∃ mid, rtc interfere (state w) mid ∧
  (state w' = mid ∧ is_ok r = false ∨ ∃ rv g, update_effect o rv g mid (state w')).
Proof.
  unfold db.UpdateOwned, db.check. destruct (db.validateOwnedSnapshot _ _); [apply Update_effect|].
  intros [-> ->]%St_ret_inv. exists (state w). split; [reflexivity|]. by left.
Qed.

(** An object read from the store is still the stored one when an update under its
    version takes effect. *)
Lemma update_current k (o new : object k) rv g key s mid s' :
  wf s → rtc interfere s mid → objs s k !! key = Some o → key_of new = key_of o → same_version o new →
  update_effect new rv g mid s' → objs mid k !! key_of o = Some o.
Proof.
  intros Hwf Hi Ho Hk Hv (cur & Hc & Hv' & _ & _). rewrite Hk in Hc. assert (cur = o) as ->; [|done].
  rewrite (wf_key _ Hwf _ _ _ Ho) in Ho. eapply (snapshot_current s); [done|by apply interference_evolves|done..|].
  destruct Hv, Hv'. split; congruence.
Qed.
End handlers.
