(* ===== verification/Claims.v ===== *)
(** * Cluster claims (pkg/handlers/cluster_claims.go)

    A cluster claims a DNS reservation or an OIDC configuration by writing its UID into
    a label of the resource, under the version it read. [claimResource] is the common
    workflow, retried on conflicts; the two kinds of resources are instances of
    [ClusterClaimableResource]. *)
From S2P Require Import Prelude GoStrings StateM HttpApi ApiTypes KubeClient ApiClient.
From stdpp Require Import base gmap strings list.
From Stdlib Require Import ZArith Lia String.
Open Scope string_scope.

(** ** client-go's RetryOnConflict

    It runs a function until it does not fail with a conflict, or gives up and returns
    the conflict. *)
Inductive retried {S E A} (conflict : E → bool) (fn : St S (result E A)) : S → S → result E A → Prop :=
| retry_done s s' r : fn s = (s', r) → (∀ e, r = Err e → conflict e = false) → retried conflict fn s s' r
| retry_gave_up s s' e : fn s = (s', Err e) → conflict e = true → retried conflict fn s s' (Err e)
| retry_again s s1 s' e r : fn s = (s1, Err e) → conflict e = true → retried conflict fn s1 s' r → retried conflict fn s s' r.

Class Retry := {
  RetryOnConflict : ∀ {S E A : Type}, (E → bool) → St S (result E A) → St S (result E A);
  retry_law : ∀ S E A conflict (fn : St S (result E A)) s s' r, RetryOnConflict conflict fn s = (s', r) → retried conflict fn s s' r
}.

(** At most [n + 1] runs. *)
Fixpoint retry_loop {S E A} (n : nat) (conflict : E → bool) (fn : St S (result E A)) : St S (result E A) := fun s =>
  let '(s', r) := fn s in
  match n, r with
  | Datatypes.S n, Err e => if conflict e then retry_loop n conflict fn s' else (s', r)
  | _, _ => (s', r)
  end.

Lemma retry_loop_retried {S E A} n conflict (fn : St S (result E A)) s s' r :
  retry_loop n conflict fn s = (s', r) → retried conflict fn s s' r.
Proof.
  revert s s' r. induction n as [|n IH]; intros s s' r; simpl; destruct (fn s) as [s1 [x|e]] eqn:E1.
  1,3: intros [= <- <-]; apply retry_done; [done|naive_solver].
  all: destruct (conflict e) eqn:Ec; [|intros [= <- <-]; apply retry_done; [done|naive_solver]].
  - intros [= <- <-]. by apply retry_gave_up.
  - intros ?%IH. by eapply retry_again.
Qed.

(** [retry.DefaultRetry] runs a function five times. *)
Definition five_times : Retry := {| RetryOnConflict := fun S E A => retry_loop 4; retry_law := fun S E A => retry_loop_retried 4 |}.

(** ** The workflow *)
Section claims.
Context `{KubeClient, Retry, Fmt}.

Definition claim {k} (o : object k) : string := map_get (om_Labels (meta o)) ClaimedByClusterUIDLabel.

Definition SetClaimedByClusterUID {k} (uid : string) (o : object k) : object k :=
  with_meta (fun m => set_labels (<[ClaimedByClusterUIDLabel := uid]> (om_Labels m)) m) o.

(** The operations of a claimable resource of kind [k] with a requested UID. *)
Record ClusterClaimableResource (k : Kind) := mkClaimable {
  RequestedUID : string;
  LoadByUID : Call (object k);
  ReadyForClusterClaim : object k → bool;
  Save : object k → Call (object k);
  NotFoundAPIError : APIError;
  NotReadyAPIError : APIError;
  InUseAPIError : object k → APIError
}.
#[global] Arguments mkClaimable {_} _ _ _ _ _ _ _.
#[global] Arguments RequestedUID {_}.
#[global] Arguments LoadByUID {_}.
#[global] Arguments ReadyForClusterClaim {_}.
#[global] Arguments Save {_}.
#[global] Arguments NotFoundAPIError {_}.
#[global] Arguments NotReadyAPIError {_}.
#[global] Arguments InUseAPIError {_}.

(** One attempt: the API error to answer, if any, or the store's error. *)
Definition claim_once {k} (clusterUID : string) (resource : ClusterClaimableResource k) : Call (option APIError) :=
  loaded ← LoadByUID resource;
  match loaded with
  | Err e => mret (if IsNotFound e then Ok (Some (NotFoundAPIError resource)) else Err e)
  | Ok o =>
      if negb (String.eqb (uid_of o) (RequestedUID resource)) then mret (Ok (Some (NotFoundAPIError resource)))
      else if String.eqb (claim o) clusterUID then mret (Ok None)
      else if negb (String.eqb (claim o) "") then mret (Ok (Some (InUseAPIError resource o)))
      else if negb (ReadyForClusterClaim resource o) then mret (Ok (Some (NotReadyAPIError resource)))
      else
        saved ← Save resource (SetClaimedByClusterUID clusterUID o);
        mret match saved with Ok _ => Ok None | Err e => Err e end
  end.

Definition claimResource {k} (clusterUID : string) (resource : ClusterClaimableResource k) : Call (option APIError) :=
  RetryOnConflict IsConflict (claim_once clusterUID resource).

(** ** DNS reservations *)
Definition dns_ready (o : object KDNSReservation) : bool :=
  bool_decide (om_DeletionTimestamp (meta o) = None) &&
  String.eqb (dns_Phase (status o)) DNSReservationPhaseReady &&
  negb (String.eqb (dns_BaseDomain (status o)) "") && negb (String.eqb (dns_InternalHostedClusterName (status o)) "").

Definition dnsReservationClaimableResource (account uid : string) : ClusterClaimableResource KDNSReservation :=
  mkClaimable uid (db.GetDNSReservationByUID account uid) dns_ready (db.UpdateDNSReservation account)
    ErrClusterCreateDNSReservationNotFound ErrClusterCreateDNSReservationNotReady (fun _ => ErrClusterCreateDNSReservationInUse).

(** ** OIDC configurations *)
Definition oidcConfigUsable (o : object KOidcConfig) : bool :=
  if String.eqb (oidc_Phase (status o)) OidcConfigPhaseError then false
  else negb (String.eqb (oidc_Type (spec o)) OidcConfigTypeUnmanaged) || String.eqb (oidc_Phase (status o)) OidcConfigPhaseReady.

(** [WithReason] of an error that has a template. *)
Definition with_reason (e : APIError) (arg : string) : APIError := default e (WithReason e arg).

Definition oidcConfigClaimableResource (account uid : string) : ClusterClaimableResource KOidcConfig :=
  mkClaimable uid (db.GetOidcConfigByUID account uid) oidcConfigUsable (db.UpdateOidcConfigObject account)
    ErrClusterCreateOidcConfigNotFound ErrClusterCreateOidcConfigNotReady
    (fun o => with_reason ErrClusterCreateOidcConfigInUse (om_Name (meta o))).

(** The API error a claim ends in. *)
Definition claim_answer (failed : APIError) (r : result kerr (option APIError)) : option APIError :=
  match r with Ok (Some e) => Some e | Ok None => None | Err _ => Some failed end.

Definition claimDNSReservation (account reservationUID clusterUID : string) : St World (option APIError) :=
  r ← claimResource clusterUID (dnsReservationClaimableResource account reservationUID);
  mret (claim_answer ErrClusterCreateFailed r).

Definition claimOidcConfig (account oidcConfigUID clusterUID : string) : St World (option APIError) :=
  r ← claimResource clusterUID (oidcConfigClaimableResource account oidcConfigUID);
  mret (claim_answer ErrClusterCreateOidcConfigLookupFailed r).

(** ** Resolving the references of a create request *)
Definition resolveDNSReservation (account reservationUID : string) : St World (result APIError (object KDNSReservation)) :=
  if String.eqb reservationUID "" then mret (Err ErrClusterCreateDNSReservationRequired)
  else
    r ← db.GetDNSReservationByUID account reservationUID;
    mret match r with
         | Err e => Err (if IsNotFound e then ErrClusterCreateDNSReservationNotFound else ErrClusterCreateFailed)
         | Ok reservation =>
             if negb (String.eqb (uid_of reservation) reservationUID) then Err ErrClusterCreateDNSReservationNotFound
             else if negb (dns_ready reservation) then Err ErrClusterCreateDNSReservationNotReady
             else if negb (String.eqb (claim reservation) "") then Err ErrClusterCreateDNSReservationInUse
             else Ok reservation
         end.

Definition resolveOidcConfig (account oidcConfigUID : string) : St World (result APIError (option (object KOidcConfig))) :=
  if String.eqb oidcConfigUID "" then mret (Ok None)
  else
    r ← db.GetOidcConfigByUID account oidcConfigUID;
    mret match r with
         | Err e => Err (if IsNotFound e then ErrClusterCreateOidcConfigNotFound else ErrClusterCreateOidcConfigLookupFailed)
         | Ok oc =>
             if negb (String.eqb (uid_of oc) oidcConfigUID) then Err ErrClusterCreateOidcConfigNotFound
             else if negb (oidcConfigUsable oc) then Err ErrClusterCreateOidcConfigNotReady
             else if negb (String.eqb (claim oc) "") then Err (with_reason ErrClusterCreateOidcConfigInUse (om_Name (meta oc)))
             else Ok (Some oc)
         end.
End claims.

(** * Claims are exclusive

    A claim is one atomic step on the store, on the version it was decided on
    ([claim_step]). Other sessions may do anything that leaves the claims of claimed
    resources alone ([keeps]); a claim itself is such a step, so any number of claims
    can interleave, and at most one cluster ever holds a resource. *)
From stdpp Require Import base gmap strings list relations.
From Stdlib Require Import ZArith Lia String.
Open Scope string_scope.

(** ** Retried programs *)
Lemma moves_retry `{Retry} {S T E A} (view : S → T) R conflict (fn : St S (result E A)) :
  moves view R fn → moves view R (RetryOnConflict conflict fn).
Proof.
  intros Hm s s' r Hr%retry_law. induction Hr as [????|????|????? Hfn _ _ IH]; [by eapply Hm..|].
  etrans; [by eapply Hm|done].
Qed.

(** What holds after every run that did not fail with a conflict holds of a result that
    is not a conflict. *)
Lemma retry_result `{Retry} {S E A} conflict (fn : St S (result E A)) (Q : S → A → Prop) s s' a :
  (∀ s s' a, fn s = (s', Ok a) → Q s' a) → RetryOnConflict conflict fn s = (s', Ok a) → Q s' a.
Proof.
  intros HQ Hr%retry_law. remember (Ok a) as r eqn:Er. induction Hr as [????|????|?????]; subst; [by eapply HQ|done|auto].
Qed.

(** A retried attempt starts where a conflict left the state. *)
Lemma triple_retry `{Retry} {S E A} conflict (fn : St S (result E A)) (P : S → Prop) (Q : result E A → S → Prop) :
  triple P fn Q → (∀ e s, conflict e = true → Q (Err e) s → P s) → triple P (RetryOnConflict conflict fn) Q.
Proof.
  intros Hfn Hagain s s' r HP Hr%retry_law. induction Hr as [????|????|????? Hf Hc _ IH]; [by eapply Hfn..|].
  apply IH. by eapply Hagain, Hfn.
Qed.

Section claims.
Context `{KubeClientLaws, Retry, Fmt}.

(** The claims of claimed objects stay. *)
Definition keeps (k : Kind) (s s' : KState) : Prop :=
  ∀ key o, objs s k !! key = Some o → claim o ≠ "" →
    ∃ o', objs s' k !! key = Some o' ∧ uid_of o' = uid_of o ∧ claim o' = claim o.

#[export] Instance keeps_refl k : Reflexive (keeps k).
Proof. intros s key o. eauto. Qed.
#[export] Instance keeps_trans k : Transitive (keeps k).
Proof.
  intros s1 s2 s3 K1 K2 key o Ho Hc. destruct (K1 _ _ Ho Hc) as (o2 & L2 & U2 & C2).
  destruct (K2 _ _ L2) as (o3 & L3 & U3 & C3); [by rewrite C2|]. exists o3. split_and!; [done|congruence..].
Qed.

Lemma keeps_put k s {k'} (cur new : object k') :
  objs s k' !! key_of new = Some cur → (claim cur ≠ "" → uid_of new = uid_of cur ∧ claim new = claim cur) → keeps k s (put s new).
Proof.
  intros Hc Hk key o Ho Hne. destruct (decide (k' = k)) as [<-|Hd].
  - rewrite put_same. destruct (decide (key_of new = key)) as [<-|Hd].
    + assert (o = cur) as -> by congruence. destruct (Hk Hne) as [Hu Hcl]. exists new. rewrite lookup_insert_eq. done.
    + exists o. by rewrite lookup_insert_ne.
  - exists o. by rewrite put_other.
Qed.

Lemma keeps_create k {k'} (o : object k') uid rv now s s' : create_effect o uid rv now s s' → keeps k s s'.
Proof.
  intros (Hn & _ & _ & _ & ->) key o1 Ho _. exists o1. split; [|done].
  change (objs (put s (created_stored o uid rv now)) k !! key = Some o1).
  destruct (decide (k' = k)) as [<-|Hd]; [|by rewrite put_other]. rewrite put_same.
  rewrite lookup_insert_ne; [done|]. intros <-. change (objs s k' !! key_of o = Some o1) in Ho. congruence.
Qed.

Lemma keeps_status k {k'} (o : object k') rv s s' : wf s → status_effect o rv s s' → keeps k s s'.
Proof.
  intros Hwf (cur & Hc & _ & _ & ->). pose proof (wf_key _ Hwf _ _ _ Hc) as Hk. rewrite Hk in Hc. by apply (keeps_put k s cur).
Qed.

(** An update or delete of an object under the version of an unclaimed snapshot. *)
Lemma keeps_remove k s {k'} key (cur : object k') : objs s k' !! key = Some cur → claim cur = "" → keeps k s (remove_obj k' key s).
Proof.
  intros Hc Hu key' o Ho Hne. exists o. split; [|done]. rewrite remove_keeps; [done|].
  destruct (decide (k' = k)) as [<-|]; [right|by left]. intros <-. congruence.
Qed.

Lemma keeps_delete k s s' {k'} (o : object k') now rv : wf s → delete_effect o now rv s s' →
  (∀ cur, objs s k' !! key_of o = Some cur → (version o ≠ 0%Z → same_version cur o) → k' = k → claim cur = "") → keeps k s s'.
Proof.
  intros Hwf (cur & Hc & Hv & [[_ ->]|(_ & d & _ & ->)]) Hu.
  - destruct (decide (k' = k)) as [->|Hd]; [by eapply keeps_remove, Hu|]. intros key x Hx _. exists x. rewrite remove_keeps; eauto.
  - pose proof (wf_key _ Hwf _ _ _ Hc) as Hk. rewrite Hk in Hc. by apply (keeps_put k s cur).
Qed.

(** ** The claim as a step *)

(** A resource that loads and saves through the account's client. *)
Definition owned_claimable {k} (account : string) (R : ClusterClaimableResource k) : Prop :=
  LoadByUID R = db.GetByUID account k (RequestedUID R) ∧ Save R = db.UpdateOwned account k.

Lemma dns_owned account uid : owned_claimable account (dnsReservationClaimableResource account uid). Proof. done. Qed.
Lemma oidc_owned account uid : owned_claimable account (oidcConfigClaimableResource account uid). Proof. done. Qed.

Definition claim_step {k} (clusterUID : string) (R : ClusterClaimableResource k) (s s' : KState) : Prop :=
  interfere s s' ∨
  ∃ o rv g, objs s k !! key_of o = Some o ∧ gone o = false ∧ uid_of o = RequestedUID R ∧ claim o = "" ∧ ReadyForClusterClaim R o = true ∧
    update_effect (SetClaimedByClusterUID clusterUID o) rv g s s'.

(** The resource is claimed by the cluster. *)
Definition held (k : Kind) (uid clusterUID : string) (s : KState) : Prop :=
  ∃ key o, objs s k !! key = Some o ∧ uid_of o = uid ∧ claim o = clusterUID.

Lemma interference_steps {k} c (R : ClusterClaimableResource k) s s' : rtc interfere s s' → rtc (claim_step c R) s s'.
Proof. apply rtc_subrel. intros ???. by left. Qed.

Lemma GetByUID_spec account k uid w w' r : db.GetByUID account k uid w = (w', r) → rtc interfere (state w) (state w') ∧
  ∀ o, r = Ok o → objs (state w') k !! key_of o = Some o ∧ uid_of o = uid ∧ om_Namespace (meta o) = db.accountNamespace account.
Proof.
  unfold db.GetByUID, db.and_then, db.ListOwned. intros (w1 & l & Hl & Hr)%St_bind_inv.
  apply List_law in Hl as [Hi Hl]. destruct l as [l|e]; apply St_ret_inv in Hr as [-> ->]; split; try done.
  intros o Ho. destruct l as [|o' l]; [done|]. injection Ho as <-.
  destruct (proj1 (proj2 Hl o')) as (Hs & [Hn|Hn] & Hm); [by left|done|]. split_and!; [done| |done]. by apply String.eqb_eq.
Qed.

Lemma claim_claimed {k} c (o : object k) : claim (SetClaimedByClusterUID c o) = c.
Proof. unfold claim, SetClaimedByClusterUID, map_get. simpl. by rewrite lookup_insert_eq. Qed.

(** One attempt: the steps it takes, and what holds when it succeeds. *)
Lemma claim_once_spec {k} account c (R : ClusterClaimableResource k) w w' r :
  owned_claimable account R → claim_once c R w = (w', r) →
  rtc (claim_step c R) (state w) (state w') ∧ (r = Ok None → held k (RequestedUID R) c (state w')).
Proof.
  intros [HL HS]. unfold claim_once. rewrite HL, HS. intros (w1 & l & Hl & Hr)%St_bind_inv.
  apply GetByUID_spec in Hl as [Hi Hl]. apply (interference_steps c R) in Hi.
  destruct l as [o|e]; [|apply St_ret_inv in Hr as [-> ->]; split; [done|by destruct (IsNotFound e)]].
  destruct (Hl o eq_refl) as (Hs & Hu & Hn). clear Hl. rewrite Hu, String.eqb_refl in Hr. cbn [negb] in Hr.
  destruct (String.eqb_spec (claim o) c) as [Hc|Hc]; [apply St_ret_inv in Hr as [-> ->]; split; [done|]; intros _; by do 2 eexists|].
  destruct (String.eqb_spec (claim o) "") as [He|He]; [|by apply St_ret_inv in Hr as [-> ->]]. cbn [negb] in Hr.
  destruct (ReadyForClusterClaim R o) eqn:Hready; [|by apply St_ret_inv in Hr as [-> ->]]. cbn [negb] in Hr.
  apply St_bind_inv in Hr as (w2 & u & Hup & Hr). apply St_ret_inv in Hr as [-> ->].
  unfold db.UpdateOwned, db.check in Hup. destruct (db.validateOwnedSnapshot _ _); [|apply St_ret_inv in Hup as [-> ->]; done].
  apply Update_effect in Hup as (mid & Hm & Hup).
  assert (Hmid : rtc (claim_step c R) (state w) mid) by (etrans; [done|by apply interference_steps]).
  destruct Hup as [[-> Hf]|(rv & g & He2)]; [split; [done|by destruct u]|].
  pose proof He2 as (cur & Hcur & Hv & _ & Hs').
  assert (cur = o) as ->.
  { eapply (snapshot_current (state w1)); [apply state_wf|by apply interference_evolves|exact Hs|exact Hcur|done]. }
  assert (Hl : gone o = false) by (eapply wf_live; [apply state_wf|exact Hs]). split.
  - eapply rtc_r; [done|]. right. exists o, rv, g. done.
  - intros _. rewrite Hs', settle_put by done. exists (key_of o), (updated o (SetClaimedByClusterUID c o) rv g). rewrite put_same.
    split_and!; [by rewrite lookup_insert_eq|done|]. apply (claim_claimed c o).
Qed.

Theorem claim_refines_step {k} account c (R : ClusterClaimableResource k) w w' r :
  owned_claimable account R → claimResource c R w = (w', r) →
  rtc (claim_step c R) (state w) (state w') ∧ (r = Ok None → held k (RequestedUID R) c (state w')).
Proof.
  intros HR Hc. split.
  - eapply (moves_retry state); [|done]. intros ????. by eapply claim_once_spec.
  - intros ->. refine (retry_result IsConflict _ (λ w a, a = None → held k (RequestedUID R) c (state w)) w w' None _ Hc eq_refl).
    intros ??? E ->. by eapply claim_once_spec.
Qed.

Lemma claim_step_keeps {k} c (R : ClusterClaimableResource k) k' s s' :
  (∀ s s', interfere s s' → keeps k' s s') → claim_step c R s s' → keeps k' s s'.
Proof.
  intros Hi [?|(o & rv & g & Ho & Hl & _ & He & _ & (cur & Hc & _ & _ & ->))]; [by apply Hi|].
  change (objs s k !! key_of o = Some cur) in Hc. assert (cur = o) as -> by congruence.
  rewrite settle_put by done. by apply (keeps_put _ s o).
Qed.

Lemma keeps_held k uid c s s' : c ≠ "" → held k uid c s → keeps k s s' → held k uid c s'.
Proof.
  intros Hne (key & o & Ho & Hu & Hc) Hk. destruct (Hk key o Ho) as (o' & Ho' & Hu' & Hc'); [congruence|].
  exists key, o'. split_and!; [done|congruence..].
Qed.

Lemma held_unique k uid c1 c2 s : wf s → held k uid c1 s → held k uid c2 s → c1 = c2.
Proof.
  intros Hwf (key1 & o1 & L1 & U1 & <-) (key2 & o2 & L2 & U2 & <-).
  assert (key1 = key2) as -> by (eapply (wf_unique _ Hwf); [done..|congruence]). congruence.
Qed.

Lemma keeps_rtc k s s' (R : relation KState) : (∀ s s', R s s' → keeps k s s') → rtc R s s' → keeps k s s'.
Proof. intros HR. induction 1; [reflexivity|]. etrans; [by apply HR|done]. Qed.
End claims.
