(* ===== verification/Labels.v ===== *)
(** * Customer labels (pkg/handlers/resource_labels.go)

    The labels of a resource are its annotations. [resourceLabels] reads them or patches
    them: each attempt loads the resource, authorizes the operation on the loaded
    snapshot and writes the patched snapshot under its version, pinned to the UID the
    first attempt found. *)
From S2P Require Import Prelude GoStrings Json AwsArn AuthzModel Arn Authorizer StateM HttpApi ApiTypes KubeClient ApiClient Handlers Claims.
From stdpp Require Import base gmap strings list.
From Stdlib Require Import ZArith Lia String.
Open Scope string_scope.

(** k8s.io/apimachinery's validation of names: whether a check finds no problem. *)
Class NameValidation := {
  IsQualifiedName : string → bool;
  IsValidLabelValue : string → bool;
  IsDNS1123Label : string → bool;
  IsDNS1123Subdomain : string → bool
}.

Section labels.
Context `{NameValidation}.

Definition system_key (key : string) : bool := HasPrefix key "seaplane.io/".

(** A value of nil removes the key. *)
Definition isValidLabel (key : string) (value : option string) : bool :=
  negb (system_key key) && IsQualifiedName key && match value with None => true | Some v => IsValidLabelValue v end.

(** [validateCreateLabels]: the error to answer. The map's order does not matter: a
    syntax error wins. *)
Definition validateCreateLabels (labels : gmap string string) : option APIError :=
  let customer := filter (fun kv => system_key kv.1 = false) (map_to_list labels) in
  if existsb (fun kv => negb (isValidLabel kv.1 (Some kv.2))) customer then Some errLabelSyntax
  else if (maxCustomerLabels <? Z.of_nat (List.length customer))%Z then Some errLabelLimit
  else None.

Definition Patch : Type := gmap string (option string).

Definition apply_label (key : string) (value : option string) (labels : gmap string string) : gmap string string :=
  match value with None => delete key labels | Some v => <[key := v]> labels end.

Definition applyLabelPatch (stored : gmap string string) (patch : Patch) : gmap string string := map_fold apply_label stored patch.

(** What a PATCH body decodes to: the object ([None] when it is not one of strings or
    null), and whether nothing follows it. *)
Record PatchBody := mkPatchBody { pb_patch : option Patch; pb_eof : bool }.

Definition requested (patch : Patch) : gmap string string := omap id patch.
Definition has_remove (patch : Patch) : bool := existsb (fun kv => match kv.2 with None => true | Some _ => false end) (map_to_list patch).

Definition check_patch (body : PatchBody) : result APIError Patch :=
  match pb_patch body with
  | None => Err errLabelBody
  | Some patch =>
      if bool_decide (patch = ∅) then Err errLabelBody
      else if negb (pb_eof body) then Err errLabelBody
      else if existsb (fun kv => negb (isValidLabel kv.1 kv.2)) (map_to_list patch) then Err errLabelSyntax
      else Ok patch
  end.

(** The operation of a patch and its additional actions. *)
Definition patch_operation (patch : Patch) : Action * list Action :=
  let hasSet := bool_decide (requested patch ≠ ∅) in
  (if hasSet then LabelResource else UnlabelResource, if hasSet && has_remove patch then [UnlabelResource] else []).

Context `{ArnParser, CedarEngine, KubeClient, !Clock, Retry}.

(** The errors of an attempt: [errResponded] or the store's. *)
Inductive attempt_err := Responded | StoreErr (e : kerr).
Definition attempt_conflict (e : attempt_err) : bool := match e with StoreErr e => IsConflict e | Responded => false end.

Definition answer {S A} (m : St S unit) : St S (result attempt_err A) := _ ← m; mret (Err Responded).

(** The attempts share the UID found first. *)
Definition with_uid {A} (m : St HState A) : St (HState * string) A := fun s => let '(h, a) := m s.1 in ((h, s.2), a).
Definition get_uid : St (HState * string) string := fun s => (s, s.2).
Definition set_uid (uid : string) : St (HState * string) unit := fun s => ((s.1, uid), tt).

Section resource.
Context {k : Kind} (load : string → Call (object k)) (save : object k → Call (object k)) (resource : object k → Call Resource).

Definition labels_json (tags : gmap string string) : json := JObj ((fun kv => (kv.1, JStr kv.2)) <$> map_to_list tags).

(** The authorized end of an attempt on [obj]. *)
Definition labels_write (r : Request) (patch : Patch) (obj : object k) : St (HState * string) (result attempt_err unit) :=
  if String.eqb (r_method r) "GET" then
    _ ← with_uid (api_Write 200 (Some (Some (labels_json (om_Annotations (meta obj)))))); mret (Ok tt)
  else
    let tags := applyLabelPatch (om_Annotations (meta obj)) patch in
    if bool_decide (tags = om_Annotations (meta obj)) then mret (Ok tt)
    else if (maxCustomerLabels <? Z.of_nat (size tags))%Z then answer (with_uid (writeAPIError errLabelLimit))
    else
      saved ← with_uid (call (save (with_meta (set_annotations tags) obj)));
      match saved with
      | Ok _ => mret (Ok tt)
      | Err e =>
          if IsConflict e then mret (Err (StoreErr e))
          else answer (with_uid (writeAPIError (if IsNotFound e then ErrResourceConflict else errLabelFailed)))
      end.

(** The load of an attempt, pinned to the UID of the first. *)
Definition labels_load (r : Request) : St (HState * string) (result attempt_err (object k)) :=
  loaded ← with_uid (call (load (r_id r)));
  uid ← get_uid;
  match loaded with
  | Err e =>
      answer (with_uid (writeAPIError (if IsNotFound e then (if negb (String.eqb uid "") then ErrResourceConflict else errLabelNotFound) else errLabelFailed)))
  | Ok obj =>
      if negb (String.eqb uid "") && negb (String.eqb (uid_of obj) uid) then answer (with_uid (writeAPIError ErrResourceConflict))
      else _ ← set_uid (uid_of obj); mret (Ok obj)
  end.

(** One attempt of the operation [operation]. *)
Definition labels_attempt (a : Authorizer) (r : Request) (operation : Action) (additional : list Action) (patch : Patch) :
    St (HState * string) (result attempt_err unit) :=
  loaded ← labels_load r;
  match loaded with
  | Err e => mret (Err e)
  | Ok obj =>
      snapshot ← with_uid (call (resource obj));
      match snapshot with
      | Err e => answer (with_uid (writeAPIError (if IsNotFound e then errLabelNotFound else errAuthzFailed)))
      | Ok snapshot =>
          allowed ← with_uid (authorizeResource a r operation snapshot additional);
          if negb allowed then mret (Err Responded) else labels_write r patch obj
      end
  end.

(** The retried attempts and the final answer. *)
Definition labels_run (a : Authorizer) (r : Request) (operation : Action) (additional : list Action) (patch : Patch) : St HState unit := fun h =>
  let '(s, result) := RetryOnConflict attempt_conflict (labels_attempt a r operation additional patch) (h, "") in
  match result with
  | Ok _ => if String.eqb (r_method r) "PATCH" then api_Write 204 None s.1 else (s.1, tt)
  | Err e => if attempt_conflict e then writeAPIError ErrResourceConflict s.1 else (s.1, tt)
  end.

Definition resourceLabels (a : Authorizer) (r : Request) (body : PatchBody) : St HState unit :=
  if String.eqb (r_method r) "PATCH" then
    match check_patch body with
    | Err e => writeAPIError e
    | Ok patch =>
        let '(operation, additional) := patch_operation patch in
        labels_run a (withAuthzOutcome (withRequestLabels (requested patch) r)) operation additional patch
    end
  else labels_run a (withAuthzOutcome r) ListLabelsForResource [] ∅.
End resource.

(** ** The four resources *)
Definition cluster_Labels (a : Authorizer) (r : Request) : PatchBody → St HState unit :=
  resourceLabels (k := KCluster) (db.GetCluster (r_account r)) (db.UpdateCluster (r_account r)) (fun o => mret (Ok (clusterResource o))) a r.
Definition nodepool_Labels (a : Authorizer) (r : Request) : PatchBody → St HState unit :=
  resourceLabels (k := KNodePool) (db.GetNodePool (r_account r)) (db.UpdateNodePool (r_account r)) (nodePoolResource (r_account r)) a r.
Definition oidc_Labels (a : Authorizer) (r : Request) : PatchBody → St HState unit :=
  resourceLabels (k := KOidcConfig) (db.GetOidcConfig (r_account r)) (db.UpdateOidcConfigObject (r_account r)) (fun o => mret (Ok (oidcConfigResource o))) a r.
Definition dns_Labels (a : Authorizer) (r : Request) : PatchBody → St HState unit :=
  resourceLabels (k := KDNSReservation) (db.GetDNSReservation (r_account r)) (db.UpdateDNSReservation (r_account r)) (fun o => mret (Ok (dnsReservationResource o))) a r.
End labels.

(** * Label patches are authorized and exact

    The only write of a label request replaces one snapshot of the resource by the same
    object with the submitted keys changed, after the operation was allowed on that
    snapshot ([labels_step]), on the one incarnation its first attempt found. *)
From stdpp Require Import base gmap strings list relations.
From Stdlib Require Import ZArith Lia String.
Open Scope string_scope.

(** A patch changes the submitted keys and no others. *)
Lemma applyLabelPatch_lookup stored patch key :
  applyLabelPatch stored patch !! key = match patch !! key with Some value => value | None => stored !! key end.
Proof.
  unfold applyLabelPatch. revert key. apply (map_fold_weak_ind (λ labels patch, ∀ key,
    labels !! key = match patch !! key with Some value => value | None => stored !! key end)); [intros key; by rewrite lookup_empty|].
  intros key value m labels Hm IH key'. unfold apply_label. destruct (decide (key = key')) as [<-|Hd].
  - rewrite lookup_insert_eq. destruct value; [by rewrite lookup_insert_eq|by rewrite lookup_delete_eq].
  - rewrite (lookup_insert_ne m) by done. destruct value; [rewrite lookup_insert_ne by done|rewrite lookup_delete_ne by done]; apply IH.
Qed.

Section labels.
Context `{NameValidation, ArnParser, CedarEngine, KubeClientLaws, !Clock, Retry}.
Context {k : Kind} (account : string) (resource : object k → Call Resource).
Context (resource_reads : ∀ o, moves state interfere (resource o)).

Definition patched (patch : Patch) (o : object k) : object k :=
  with_meta (set_annotations (applyLabelPatch (om_Annotations (meta o)) patch)) o.

(** What a label request does to the store: nothing of its own, or the patch of the
    stored object it was authorized on. *)
Definition labels_step (a : Authorizer) (r : Request) (actions : list Action) (patch : Patch) (uid : string) (s s' : KState) : Prop :=
  interfere s s' ∨
  r_method r ≠ "GET" ∧
  ∃ o res rv g, key_of o = (db.accountNamespace account, r_id r) ∧ objs s k !! key_of o = Some o ∧ gone o = false ∧ uid_of o = uid ∧
    (∃ w w', resource o w = (w', Ok res)) ∧ authorized a r actions res ∧
    (Z.of_nat (size (om_Annotations (meta (patched patch o)))) ≤ maxCustomerLabels)%Z ∧
    update_effect (patched patch o) rv g s s'.

Lemma labels_interference a r actions patch uid s s' : rtc interfere s s' → rtc (labels_step a r actions patch uid) s s'.
Proof. apply rtc_subrel. intros ???. by left. Qed.

(** Between attempts: [uid] is empty before the first object was found. *)
Record between (a : Authorizer) (r : Request) (actions : list Action) (patch : Patch) (s0 : KState) (n : nat) (s : HState * string) : Prop := mkBetween {
  bt_steps : if String.eqb s.2 "" then rtc interfere s0 (hview s.1) else rtc (labels_step a r actions patch s.2) s0 (hview s.1);
  bt_out : List.length (hs_out s.1) = n;
  bt_prepared : ∀ p, hs_prepared s.1 = Some p → prepared_by a r p
}.

Lemma with_uid_inv {A} (m : St HState A) s s' x : with_uid m s = (s', x) → m s.1 = (s'.1, x) ∧ s'.2 = s.2.
Proof. unfold with_uid. destruct (m s.1) as [h y]. by intros [= <- <-]. Qed.

(** An attempt that answers. *)
Lemma between_answer {A} a r actions patch s0 n s e s' x :
  between a r actions patch s0 n s → answer (A := A) (with_uid (writeAPIError e)) s = (s', x) →
  x = Err Responded ∧ between a r actions patch s0 (S n) s'.
Proof.
  intros [B1 B2 B3] (s1 & [] & ([= E] & E2)%with_uid_inv & [-> ->]%St_ret_inv)%St_bind_inv. split; [done|].
  destruct s1 as [h u]. simpl in *. subst. split; simpl; [done| |done]. rewrite length_app. simpl. lia.
Qed.

(** What the result of an attempt says about the responses written. *)
Definition attempt_out (r : Request) (x : result attempt_err unit) (n : nat) : Prop :=
  match x with
  | Ok _ => n = if String.eqb (r_method r) "GET" then 1 else 0
  | Err Responded => n = 1
  | Err (StoreErr e) => IsConflict e = true ∧ n = 0
  end.

(** A step of the store's world alone. *)
Lemma between_world a r actions patch s0 n s s' :
  between a r actions patch s0 n s → s'.2 = s.2 → rtc interfere (hview s.1) (hview s'.1) →
  hs_out s'.1 = hs_out s.1 → (∀ p, hs_prepared s'.1 = Some p → prepared_by a r p) → between a r actions patch s0 n s'.
Proof.
  intros [B1 B2 B3] Eu Hi Ho Hp. split; [|congruence|done]. rewrite Eu. case_match; (etrans; [done|]); [done|by apply labels_interference].
Qed.

Lemma labels_load_spec a r actions patch s0 s s' x :
  between a r actions patch s0 0 s → labels_load (k := k) (db.GetOwned account k) r s = (s', x) →
  match x with
  | Ok o => between a r actions patch s0 0 s' ∧ s'.2 = uid_of o ∧ uid_of o ≠ "" ∧
      objs (hview s'.1) k !! (db.accountNamespace account, r_id r) = Some o
  | Err e => e = Responded ∧ between a r actions patch s0 1 s'
  end.
Proof.
  intros B (s1 & loaded & (El & Eu)%with_uid_inv & E)%St_bind_inv.
  apply call_inv in El as (El & Ho & Hp). apply Get_law in El as [Hi Hl].
  apply St_bind_inv in E as (s1' & uid & [= <- <-] & E).
  assert (B1 : between a r actions patch s0 0 s1) by (apply (between_world _ _ _ _ _ _ s); [done..|]; rewrite Hp; apply B).
  destruct loaded as [o|e]; [|by apply (between_answer _ _ _ _ _ _ _ _ _ _ B1) in E as [[= ->] B2]].
  destruct (negb (String.eqb s1.2 "") && negb (String.eqb (uid_of o) s1.2)) eqn:Epin;
    [by apply (between_answer _ _ _ _ _ _ _ _ _ _ B1) in E as [[= ->] B2]|].
  apply St_bind_inv in E as (s2 & [] & [= <-] & [-> ->]%St_ret_inv).
  assert (Hne : uid_of o ≠ "") by (by eapply wf_uid; [apply state_wf|]). split_and!; [|done..].
  destruct B1 as [B1 B2 B3]. split; [|done..]. simpl. apply String.eqb_neq in Hne as ->.
  destruct (String.eqb_spec s1.2 "") as [Eq|Eq]; [by apply labels_interference|]. rewrite andb_true_l in Epin.
  apply negb_false_iff, String.eqb_eq in Epin. by rewrite Epin.
Qed.

(** The end of an attempt on a snapshot [o] read in [s1] and authorized as [res]. *)
Lemma labels_write_spec a r actions patch s0 s s' x o s1 res :
  between a r actions patch s0 0 s → s.2 = uid_of o → uid_of o ≠ "" →
  wf s1 → objs s1 k !! (db.accountNamespace account, r_id r) = Some o → rtc interfere s1 (hview s.1) →
  (∃ w w', resource o w = (w', Ok res)) → authorized a r actions res →
  labels_write (k := k) (db.UpdateOwned account k) r patch o s = (s', x) →
  ∃ n, attempt_out r x n ∧ between a r actions patch s0 n s'.
Proof.
  intros B Eu Hne Hwf Ho Hi Hres Hauth E. unfold labels_write in E. destruct (String.eqb (r_method r) "GET") eqn:Eget.
  { apply St_bind_inv in E as (s5 & [] & ([= Ew] & Eu5)%with_uid_inv & [-> ->]%St_ret_inv). exists 1. simpl. rewrite Eget. split; [done|].
    destruct B as [B1 B2 B3], s5 as [h5 u5]. simpl in *. subst. split; simpl; [done| |done]. rewrite length_app, B2. done. }
  destruct (bool_decide _); [apply St_ret_inv in E as [-> ->]; exists 0; simpl; by rewrite Eget|].
  destruct (Z.ltb_spec maxCustomerLabels (Z.of_nat (size (applyLabelPatch (om_Annotations (meta o)) patch)))) as [|Hsize];
    [apply (between_answer _ _ _ _ _ _ _ _ _ _ B) in E as [-> B5]; by exists 1|].
  apply St_bind_inv in E as (s5 & saved & (Es & Eu5)%with_uid_inv & E). apply call_inv in Es as (Es & Ho5 & Hp5).
  apply UpdateOwned_effect in Es as (mid & Hmid & Heff).
  assert (B5 : between a r actions patch s0 0 s5).
  { destruct B as [B1 B2 B3]. split; [|congruence|by rewrite Hp5]. rewrite Eu5, Eu. rewrite Eu in B1.
    apply String.eqb_neq in Hne. rewrite Hne in B1 |- *.
    assert (Hm : rtc (labels_step a r actions patch (uid_of o)) s0 mid) by (etrans; [exact B1|by apply labels_interference]).
    destruct Heff as [[Hs _]|(rv & g & Heff)]; [unfold hview; by rewrite Hs|]. eapply rtc_r; [done|]. right. split; [by apply String.eqb_neq|].
    exists o, res, rv, g. split_and!; [symmetry; by apply (wf_key _ Hwf _ _ _ Ho)| |by eapply wf_live|done|done|done|exact Hsize|exact Heff].
    eapply (update_current k o (patched patch o)); [exact Hwf| |exact Ho|done|done|exact Heff]. by etrans. }
  destruct saved as [o'|e]; [apply St_ret_inv in E as [-> ->]; exists 0; simpl; by rewrite Eget|].
  destruct (IsConflict e) eqn:Ec; [apply St_ret_inv in E as [-> ->]; by exists 0|].
  apply (between_answer _ _ _ _ _ _ _ _ _ _ B5) in E as [-> B6]; by exists 1.
Qed.

Lemma labels_attempt_spec a r operation additional patch s0 s s' x :
  between a r (operation :: additional) patch s0 0 s →
  labels_attempt (k := k) (db.GetOwned account k) (db.UpdateOwned account k) resource a r operation additional patch s = (s', x) →
  ∃ n, attempt_out r x n ∧ between a r (operation :: additional) patch s0 n s'.
Proof.
  intros B (s1 & loaded & El & E)%St_bind_inv. apply (labels_load_spec _ _ _ _ _ _ _ _ B) in El.
  destruct loaded as [o|e]; [|apply St_ret_inv in E as [-> ->]; destruct El as [-> El]; by exists 1].
  destruct El as (B1 & Eu & Hne & Ho).
  apply St_bind_inv in E as (s2 & snapshot & (Er & Eu2)%with_uid_inv & E). apply call_inv in Er as (Er & Ho2 & Hp2).
  assert (Hi : rtc interfere (hview s1.1) (hview s2.1)) by (by eapply resource_reads).
  assert (B2 : between a r (operation :: additional) patch s0 0 s2) by (apply (between_world _ _ _ _ _ _ s1); [done..|]; rewrite Hp2; apply B1).
  destruct snapshot as [res|e]; [|apply (between_answer _ _ _ _ _ _ _ _ _ _ B2) in E as [-> B3]; by exists 1].
  apply St_bind_inv in E as (s3 & allowed & (Ea & Eu3)%with_uid_inv & E). apply authorizeResource_spec in Ea as (Hw3 & Hp3 & Hok); [|apply B2].
  assert (Hv : hview s3.1 = hview s2.1) by (unfold hview; by rewrite Hw3). destruct allowed; cbn [negb] in E.
  - destruct Hok as [Ho3 Hauth]. refine (labels_write_spec _ _ _ _ _ _ _ _ o (hview s1.1) res _ _ Hne (state_wf (hs_world s1.1)) Ho _ _ Hauth E);
      [|congruence|by rewrite Hv|by do 2 eexists].
    apply (between_world _ _ _ _ _ _ s2); [done|done|by rewrite Hv|done|done].
  - apply St_ret_inv in E as [-> ->]. exists 1. split; [done|]. destruct B2 as [C1 C2 C3], Hok as (y & _ & Hy).
    split; [by rewrite Eu3, Hv| |done]. rewrite Hy, length_app, C2. done.
Qed.

(** A run that ends: one answer, and the steps of one incarnation. *)
Lemma labels_run_spec a r operation additional patch w h' :
  r_method r = "GET" ∨ r_method r = "PATCH" →
  labels_run (k := k) (db.GetOwned account k) (db.UpdateOwned account k) resource a r operation additional patch (start w) = (h', tt) →
  List.length (hs_out h') = 1 ∧ ∃ uid, rtc (labels_step a r (operation :: additional) patch uid) (state w) (hview h').
Proof.
  intros Hm. unfold labels_run. destruct (RetryOnConflict _ _ _) as [s x] eqn:E.
  eapply (triple_retry attempt_conflict _ (between a r (operation :: additional) patch (state w) 0)
    (λ x s, ∃ n, attempt_out r x n ∧ between a r (operation :: additional) patch (state w) n s)) in E as (n & Hn & B);
    [|intros ????; by eapply labels_attempt_spec| |split; [simpl; reflexivity|done|done]].
  2:{ intros [|e] s1 Hc (n & Hn & B); [done|]. destruct Hn as [_ ->]. exact B. }
  assert (Hsteps : ∃ uid, rtc (labels_step a r (operation :: additional) patch uid) (state w) (hview s.1)).
  { destruct B as [B1 _ _]. exists s.2. case_match; [by apply labels_interference|done]. }
  destruct B as [_ B2 _]. destruct x as [[]|[|e]]; simpl in Hn.
  - destruct Hm as [Hm|Hm]; rewrite Hm in Hn |- *; simpl in Hn |- *; intros [= <-]; [by rewrite B2, Hn|]. simpl. rewrite length_app, B2, Hn. done.
  - intros [= <-]. by rewrite B2, Hn.
  - destruct Hn as [Hc ->]. simpl. rewrite Hc. intros [= <-]. simpl. rewrite length_app, B2. done.
Qed.

(** The outcome of a label request: one answer, and the store changed only by steps of
    its patch. *)
Definition labels_outcome (a : Authorizer) (r : Request) (body : PatchBody) (s0 : KState) (h' : HState) : Prop :=
  List.length (hs_out h') = 1 ∧
  (rtc interfere s0 (hview h') ∨
   ∃ patch uid, pb_patch body = Some patch ∧ r_method r = "PATCH" ∧
     (∀ key value, patch !! key = Some value → isValidLabel key value = true) ∧
     rtc (labels_step a (withAuthzOutcome (withRequestLabels (requested patch) r))
            ((patch_operation patch).1 :: (patch_operation patch).2) patch uid) s0 (hview h')).

Lemma resourceLabels_spec a r body w h' :
  r_method r = "GET" ∨ r_method r = "PATCH" →
  resourceLabels (k := k) (db.GetOwned account k) (db.UpdateOwned account k) resource a r body (start w) = (h', tt) →
  labels_outcome a r body (state w) h'.
Proof.
  intros Hm. unfold resourceLabels. destruct (String.eqb_spec (r_method r) "PATCH") as [Hp|Hp].
  - unfold check_patch. destruct (pb_patch body) as [patch|] eqn:Eb; [|intros [= <-]; split; [done|by left]].
    destruct (bool_decide _); [intros [= <-]; split; [done|by left]|]. destruct (negb _); [intros [= <-]; split; [done|by left]|].
    destruct (existsb _ _) eqn:Ev; [intros [= <-]; split; [done|by left]|]. destruct (patch_operation patch) as [operation additional] eqn:Eo.
    intros Hr. apply labels_run_spec in Hr as [Hout [uid Hs]]; [|by right]. split; [done|]. right. exists patch, uid. split_and!; [done..| |by rewrite Eo].
    intros key value Hk. destruct (isValidLabel key value) eqn:E; [done|]. rewrite <- Ev. apply existsb_exists. exists (key, value).
    simpl. rewrite E. split; [|done]. apply list_elem_of_In. by apply elem_of_map_to_list.
  - destruct Hm as [Hg|]; [|done]. intros Hr. apply labels_run_spec in Hr as [Hout [uid Hs]]; [|by left]. split; [done|]. left.
    revert Hs. apply rtc_subrel. intros s s' [?|[Hn _]]; [done|]. by simpl in Hn.
Qed.
End labels.

Section handlers.
Context `{NameValidation, ArnParser, CedarEngine, KubeClientLaws, !Clock, Retry}.

Definition resource_of {k} (f : object k → Resource) (o : object k) : Call Resource := mret (Ok (f o)).

(** Whatever a label request of any of the four resources does: it is answered exactly
    once; and it changes the store only by replacing, at the version its snapshot was
    read, the one object it was authorized on — every action the patch needs, on that
    very snapshot, a node pool's under the cluster that owns it — by the same object with
    the submitted keys changed, within the limit of labels. A request that is not a patch
    changes nothing. *)
Theorem labels_authorized a r body w (Hm : r_method r = "GET" ∨ r_method r = "PATCH") :
  labels_outcome (r_account r) (resource_of clusterResource) a r body (state w) (cluster_Labels a r body (start w)).1 ∧
  labels_outcome (r_account r) (nodePoolResource (r_account r)) a r body (state w) (nodepool_Labels a r body (start w)).1 ∧
  labels_outcome (r_account r) (resource_of oidcConfigResource) a r body (state w) (oidc_Labels a r body (start w)).1 ∧
  labels_outcome (r_account r) (resource_of dnsReservationResource) a r body (state w) (dns_Labels a r body (start w)).1.
Proof.
  split_and!; (eapply resourceLabels_spec; [|done|apply run_unit]); try (intros ?; apply moves_ret). apply moves_nodePoolResource.
Qed.
End handlers.
