(* ===== verification/ClusterValidation.v ===== *)
(** * Validation of clusters and node pools (pkg/validation)

    AWS tags and their budget (aws_tags.go), the Spot termination queue URL (spot.go),
    names (identity.go), the internal HostedCluster name (api/v1alpha1/hostedclustername.go)
    and the small checks of nodepool.go. Regular expressions are the matchers they
    compile to; the Unicode classes beyond ASCII are a table. *)
From S2P Require Import Prelude GoStrings FieldValidator Template HttpApi Labels.
From stdpp Require Import base gmap strings list.
From Stdlib Require Import ZArith Lia Ascii String.
Import FieldValidator.
Open Scope string_scope.

(** ** AWS tags (aws_tags.go) *)
Definition maxAWSResourceTags : Z := 25.
Definition redHatManagedTagKey : string := "red-hat-managed".
Definition clusterOwnershipBudgetTagKey : string := String Ascii.zero "cluster-ownership-budget".

(** Whether a rune beyond ASCII is a letter, a separator or a number (\pL\pZ\pN). *)
Class TagTable := { wide_tag_rune : Z → bool }.

Section tags.
Context `{TagTable}.

Definition tag_rune (r : Z) : bool :=
  if (r <? 128)%Z then
    let a := ascii_of_nat (Z.to_nat r) in
    is_alnum a || bool_decide (a ∈ [" "; "_"; "."; ":"; "/"; "="; "+"; "-"; "@"]%char)
  else wide_tag_rune r.

(** The number of runes of a text of tag runes; the fuel is its length. *)
Fixpoint tag_runes (fuel : nat) (s : string) : option nat :=
  match fuel, s with
  | _, "" => Some 0
  | O, _ => None
  | S fuel, _ => let '(r, w) := DecodeRune s in if tag_rune r then S <$> tag_runes fuel (str_drop w s) else None
  end.

(** [{1,max}] of them. *)
Definition tag_text (max : nat) (s : string) : bool :=
  match tag_runes (String.length s) s with Some n => Nat.leb 1 n && Nat.leb n max | None => false end.

Definition tag_error (field key value : string) : option ValidationError :=
  if String.eqb key "" || String.eqb value "" then Some (mkError field "tag key and value must not be empty")
  else if HasPrefix (ToLower key) "aws:" then Some (mkError field ("tag key " +:+ quote key +:+ " uses a prefix reserved for AWS"))
  else if negb (tag_text 128 key)
  then Some (mkError field ("tag key " +:+ quote key +:+ " does not match the AWS resource tag key constraints"))
  else if negb (tag_text 256 value)
  then Some (mkError field ("tag value for key " +:+ quote key +:+ " does not match the AWS resource tag value constraints"))
  else None.

(** The tags in the order of their keys. *)
Fixpoint insert_tag (kv : string * string) (l : list (string * string)) : list (string * string) :=
  match l with
  | [] => [kv]
  | x :: l' => if String.leb kv.1 x.1 then kv :: l else x :: insert_tag kv l'
  end.
Definition sorted_tags (tags : gmap string string) : list (string * string) := fold_right insert_tag [] (map_to_list tags).

Definition ValidateCustomerAWSTags (tags : gmap string string) (field : string) : list ValidationError :=
  omap (fun kv => tag_error field kv.1 kv.2) (sorted_tags tags).
End tags.

(** The loop of [renderedAWSTagCount] over the keys in some order. *)
Fixpoint count_keys (keys : list string) (seen : gset string) (count : Z) : Z :=
  match keys with
  | [] => count
  | key :: keys => if decide (key ∈ seen) then count_keys keys seen count else count_keys keys ({[key]} ∪ seen) (count + 1)
  end.
Definition renderedAWSTagCount (systemTagKeys : list string) (customerTagMaps : list (gmap string string)) : Z :=
  count_keys (systemTagKeys ++ mjoin ((fun m => (map_to_list m).*1) <$> customerTagMaps)) ∅ 0.

Definition budget_error (field : string) (count : Z) : list ValidationError :=
  if (count <=? maxAWSResourceTags)%Z then []
  else [mkError field ("rendered AWS resource tags would contain " +:+ FormatInt count +:+
          " entries including reserved system tags; maximum is " +:+ FormatInt maxAWSResourceTags)].

Definition ValidateClusterAWSTagBudget (customerTags : gmap string string) : list ValidationError :=
  budget_error "spec.tags" (renderedAWSTagCount [redHatManagedTagKey; clusterOwnershipBudgetTagKey] [customerTags]).
Definition ValidateNodePoolAWSTagBudget (clusterTags nodePoolTags : gmap string string) (field : string) : list ValidationError :=
  budget_error field (renderedAWSTagCount [redHatManagedTagKey] [clusterTags; nodePoolTags]).

(** ** The Spot termination queue URL (spot.go) *)
Definition terminationHandlerQueueURLField : string := "spec.hostedCluster.platform.aws.terminationHandlerQueueURL".
Definition maxTerminationHandlerQueueURL : nat := 512.

(** The longest prefix of characters [p], and the rest. *)
Fixpoint str_span (p : ascii → bool) (s : string) : string * string :=
  match s with
  | "" => ("", "")
  | String a s' => if p a then let '(x, y) := str_span p s' in (String a x, y) else ("", s)
  end.

Definition is_region_char (a : ascii) : bool := is_lower a || is_digit a || Ascii.eqb a "-".
Definition is_queue_char (a : ascii) : bool := is_alnum a || Ascii.eqb a "_" || Ascii.eqb a "-".
Definition word_within (max : nat) (s : string) : bool :=
  str_forall is_queue_char s && Nat.leb 1 (String.length s) && Nat.leb (String.length s) max.
Definition queue_name (s : string) : bool :=
  word_within 80 s || (HasSuffix s ".fifo" && word_within 75 (TrimSuffix s ".fifo")).

Definition strip (prefix s : string) : option string := if HasPrefix s prefix then Some (TrimPrefix s prefix) else None.

(** The region group of a URL the pattern matches. *)
Definition queue_url_region (url : string) : option string :=
  match strip "https://sqs." url with
  | None => None
  | Some rest =>
      let '(region, rest) := str_span is_region_char rest in
      match strip ".amazonaws.com/" rest with
      | None => None
      | Some rest =>
          let '(account, rest) := str_span is_digit rest in
          match strip "/" rest with
          | None => None
          | Some name =>
              if negb (String.eqb region "") && Nat.eqb (String.length account) 12 && queue_name name then Some region else None
          end
      end
  end.

Definition queue_error (reason : string) : ValidationError := mkError terminationHandlerQueueURLField reason.
Definition not_unique : string := "must be unique across clusters in the account".

Definition ValidateSpotTerminationHandlerQueueURL (queueURL region : string) (existingQueueURLs : list string) : list ValidationError :=
  if String.eqb queueURL "" then []
  else match queue_url_region queueURL with
       | Some urlRegion =>
           if Nat.ltb maxTerminationHandlerQueueURL (String.length queueURL)
           then [queue_error "must be an HTTPS SQS queue URL in the form https://sqs.<region>.amazonaws.com/<12-digit-account>/<queue-name>"]
           else
             ((if String.eqb region "" || negb (String.eqb urlRegion region) then [queue_error "must use the same AWS region as the cluster"] else []) ++
              (if existsb (String.eqb queueURL) existingQueueURLs then [queue_error not_unique] else []))%list
       | None => [queue_error "must be an HTTPS SQS queue URL in the form https://sqs.<region>.amazonaws.com/<12-digit-account>/<queue-name>"]
       end.

Definition SpotTerminationHandlerQueueAlreadyInUse : list ValidationError := [queue_error not_unique].

(** ** Names (identity.go, hostedclustername.go) *)
Section names.
Context `{NameValidation}.

Definition ValidateClusterName (name : string) : bool := IsDNS1123Label name.
Definition ValidateClusterNameForDNSReservation (name : string) (hasDNSReservation : bool) : bool :=
  ValidateClusterName name &&
  negb (negb hasDNSReservation && (MaxClusterNameLengthWithoutDNSReservation <? Z.of_nat (String.length name))%Z).
Definition ValidateResourceName (name : string) : bool := IsDNS1123Subdomain name.

Definition ParseNodePoolName (name : string) : option (string * string) :=
  match Split name "." with
  | [clusterName; childName] => if IsDNS1123Label clusterName && IsDNS1123Label childName then Some (clusterName, childName) else None
  | _ => None
  end.
End names.

Definition hostedClusterNamePrefix : string := "hc-".

(** The text of the characters that satisfy [p]. *)
Fixpoint str_filter (p : ascii → bool) (s : string) : string :=
  match s with
  | "" => ""
  | String a s' => if p a then String a (str_filter p s') else str_filter p s'
  end.

(** For the UID of a reservation ([""] for no reservation). A UID is ASCII text. *)
Definition HostedClusterNameFromDNSReservation (uid : string) : string :=
  if String.eqb uid "" then ""
  else if (MaxClusterNameLengthWithoutDNSReservation <=? Z.of_nat (String.length hostedClusterNamePrefix))%Z then ""
  else
    let suffix := str_filter (fun a => is_lower a || is_digit a) (ToLower uid) in
    let maxSuffixLen := Z.to_nat (MaxClusterNameLengthWithoutDNSReservation - Z.of_nat (String.length hostedClusterNamePrefix)) in
    let suffix := if Nat.ltb maxSuffixLen (String.length suffix) then str_take maxSuffixLen suffix else suffix in
    if String.eqb suffix "" then "" else hostedClusterNamePrefix +:+ suffix.

(** ** Node pools (nodepool.go) *)
Definition validateNodePoolReplicas (replicas : option Z) : list ValidationError :=
  match replicas with
  | Some n => if (0 <=? n)%Z then [] else [mkError "spec.nodePool.replicas" "must be greater than or equal to 0"]
  | None => []
  end.

Definition EC2InstanceMetadataHttpTokensRequired : string := "required".
Definition EC2InstanceMetadataHttpTokensOptional : string := "optional".
Definition validateNodePoolEC2InstanceMetadataHttpTokens (value : string) : list ValidationError :=
  if bool_decide (value ∈ [EC2InstanceMetadataHttpTokensRequired; EC2InstanceMetadataHttpTokensOptional]) then []
  else [mkError "spec.ec2InstanceMetadataHttpTokens" "must be either required or optional"].

(** ** Properties *)

Lemma count_keys_size keys : ∀ seen count, count_keys keys seen count = (count + (Z.of_nat (size (seen ∪ list_to_set keys)) - Z.of_nat (size seen)))%Z.
Proof.
  induction keys as [|key keys IH]; intros seen count; cbn [count_keys list_to_set].
  - rewrite union_empty_r_L. lia.
  - case_decide as Hin; rewrite IH.
    + by replace (seen ∪ ({[key]} ∪ list_to_set keys)) with (seen ∪ list_to_set keys : gset string) by set_solver.
    + replace (seen ∪ ({[key]} ∪ list_to_set keys)) with ({[key]} ∪ seen ∪ list_to_set keys : gset string) by set_solver.
      rewrite (size_union {[key]} seen), size_singleton by set_solver. lia.
Qed.

Lemma list_to_set_keys (m : gmap string string) : list_to_set (map_to_list m).*1 = (dom m : gset string).
Proof.
  apply set_eq. intros key. rewrite elem_of_list_to_set, elem_of_dom, list_elem_of_fmap. split.
  - intros ([k v] & -> & Hin%elem_of_map_to_list). by exists v.
  - intros [v Hv]. exists (key, v). by rewrite elem_of_map_to_list.
Qed.

(** The tag budget of a node pool counts every key the rendered resource carries once:
    the keys of its cluster, its own, and the reserved one, whatever keys they share. It
    is refused exactly when they are more than 25, the limit of AWS. *)
Theorem nodepool_budget_exact (clusterTags nodePoolTags : gmap string string) field :
  ValidateNodePoolAWSTagBudget clusterTags nodePoolTags field = [] ↔
  (size ({[redHatManagedTagKey]} ∪ (dom clusterTags ∪ dom nodePoolTags) : gset string) ≤ 25)%nat.
Proof.
  unfold ValidateNodePoolAWSTagBudget, budget_error, renderedAWSTagCount, maxAWSResourceTags. rewrite count_keys_size.
  set (keys := ∅ ∪ list_to_set _). assert (keys = {[redHatManagedTagKey]} ∪ (dom clusterTags ∪ dom nodePoolTags)) as ->.
  { subst keys. rewrite union_empty_l_L. cbn. rewrite app_nil_r, list_to_set_app_L, !list_to_set_keys. done. }
  rewrite size_empty. case_match eqn:E; [apply Z.leb_le in E|apply Z.leb_gt in E]; split; try done; lia.
Qed.

(** ** Queue URLs *)
Lemma str_span_spec p s x y : str_span p s = (x, y) → s = x +:+ y ∧ str_forall p x = true ∧ match y with String a _ => p a = false | "" => True end.
Proof.
  revert x y. induction s as [|a s IH]; intros x y; cbn [str_span]; [by intros [= <- <-]|].
  destruct (p a) eqn:Ep; [|intros [= <- <-]; done]. destruct (str_span p s) as [u v]. intros [= <- <-].
  destruct (IH u v eq_refl) as (-> & Hu & Hv). split_and!; [done| |done]. cbn [str_forall]. by rewrite Ep.
Qed.

Lemma str_span_app p x y : str_forall p x = true → match y with String a _ => p a = false | "" => True end → str_span p (x +:+ y) = (x, y).
Proof.
  intros Hx Hy. induction x as [|a x IH].
  - change (str_span p y = ("", y)). destruct y as [|b y]; [done|]. cbn [str_span]. by rewrite Hy.
  - cbn [str_forall] in Hx. apply andb_true_iff in Hx as [Ha Hx]. change (String a x +:+ y) with (String a (x +:+ y)).
    cbn [str_span]. by rewrite Ha, IH.
Qed.

Lemma strip_app prefix s t : strip prefix s = Some t ↔ s = prefix +:+ t.
Proof.
  unfold strip, TrimPrefix, HasPrefix. split.
  - destruct (String.prefix prefix s) eqn:E; [|done]. intros [= <-]. revert s E.
    induction prefix as [|a prefix IH]; intros s E; [by destruct s|]. destruct s as [|b s]; [done|]. simpl in E.
    destruct (ascii_dec a b) as [->|]; [|done]. change (String b prefix +:+ ?t) with (String b (prefix +:+ t)). simpl. f_equal. by apply IH.
  - intros ->. change (String.prefix prefix (prefix +:+ t)) with (HasPrefix (prefix +:+ t) prefix). rewrite HasPrefix_app. f_equal. apply str_drop_app.
Qed.

Definition sqs_url (region account name : string) : string := "https://sqs." +:+ region +:+ ".amazonaws.com/" +:+ account +:+ "/" +:+ name.

Lemma queue_url_region_spec url region :
  queue_url_region url = Some region ↔
  ∃ account name, url = sqs_url region account name ∧ region ≠ "" ∧ str_forall is_region_char region = true ∧
    String.length account = 12 ∧ str_forall is_digit account = true ∧ queue_name name = true.
Proof.
  unfold queue_url_region, sqs_url. split.
  - destruct (strip _ url) as [rest|] eqn:E1; [|done]. apply strip_app in E1 as ->.
    destruct (str_span is_region_char rest) as [r rest2] eqn:E2. apply str_span_spec in E2 as (-> & Hr & _).
    destruct (strip _ rest2) as [rest3|] eqn:E3; [|done]. apply strip_app in E3 as ->.
    destruct (str_span is_digit rest3) as [account rest4] eqn:E4. apply str_span_spec in E4 as (-> & Ha & _).
    destruct (strip _ rest4) as [name|] eqn:E5; [|done]. apply strip_app in E5 as ->.
    destruct (negb _ && _ && _) eqn:E; [|done]. intros [= ->]. apply andb_true_iff in E as [[Hne Hl]%andb_true_iff Hn].
    exists account, name. split_and!; [done| |done|by apply Nat.eqb_eq|done|done]. by apply negb_true_iff, String.eqb_neq in Hne.
  - intros (account & name & -> & Hne & Hr & Hl & Ha & Hn).
    rewrite (proj2 (strip_app "https://sqs." _ _) eq_refl).
    rewrite (str_span_app is_region_char region) by done. rewrite (proj2 (strip_app ".amazonaws.com/" _ _) eq_refl).
    rewrite (str_span_app is_digit account) by done. rewrite (proj2 (strip_app "/" _ _) eq_refl).
    apply String.eqb_neq in Hne as ->. by rewrite Hl, Hn.
Qed.

(** A Spot termination queue is accepted for a cluster exactly when it is left out, or is
    the HTTPS URL of an SQS queue with a twelve-digit account, in the cluster's own
    region, of at most 512 bytes, and no other cluster of the account names it. *)
Theorem spot_queue_accepted queueURL region existing :
  ValidateSpotTerminationHandlerQueueURL queueURL region existing = [] ↔
  queueURL = "" ∨
  (∃ account name, queueURL = sqs_url region account name ∧ String.length account = 12 ∧ str_forall is_digit account = true ∧ queue_name name = true) ∧
  region ≠ "" ∧ str_forall is_region_char region = true ∧ (String.length queueURL ≤ 512)%nat ∧ queueURL ∉ existing.
Proof.
  unfold ValidateSpotTerminationHandlerQueueURL, maxTerminationHandlerQueueURL.
  destruct (String.eqb_spec queueURL "") as [->|Hne]; [split; [by left|done]|].
  assert (Hex : existsb (String.eqb queueURL) existing = false ↔ queueURL ∉ existing).
  { rewrite <- not_true_iff_false, existsb_exists. split; [intros H Hin; apply H; exists queueURL; rewrite <- list_elem_of_In, String.eqb_refl; done|].
    intros H (x & Hx & <-%String.eqb_eq). by apply H, list_elem_of_In. }
  split.
  - destruct (queue_url_region queueURL) as [r|] eqn:E; [|done].
    apply queue_url_region_spec in E as (account & name & Hu & Hr & Hrc & Hl & Ha & Hn).
    destruct (Nat.ltb_spec 512 (String.length queueURL)); [done|]. destruct (String.eqb_spec region "") as [|Hregion]; [done|].
    destruct (String.eqb_spec r region) as [->|]; [|done]. cbn [negb orb app]. destruct (existsb _ _) eqn:Ex; [done|]. intros _. right.
    split_and!; [by exists account, name|done..|by apply Hex].
  - intros [|((account & name & Hu & Hl & Ha & Hn) & Hr & Hrc & Hlen & Hin)]; [done|].
    assert (queue_url_region queueURL = Some region) as -> by (apply queue_url_region_spec; by exists account, name).
    destruct (Nat.ltb_spec 512 (String.length queueURL)); [lia|]. apply String.eqb_neq in Hr as ->. rewrite String.eqb_refl.
    apply Hex in Hin as ->. done.
Qed.

(** ** Names *)
Lemma str_take_length n s : (String.length (str_take n s) ≤ n)%nat.
Proof. revert s. induction n as [|n IH]; intros [|a s]; cbn; [lia..|]. specialize (IH s). lia. Qed.

Lemma str_take_forall p n s : str_forall p s = true → str_forall p (str_take n s) = true.
Proof.
  revert s. induction n as [|n IH]; intros [|a s]; cbn; [done..|]. intros [Ha Hs]%andb_true_iff. by rewrite Ha, IH.
Qed.

Lemma str_filter_forall p s : str_forall p (str_filter p s) = true.
Proof. induction s as [|a s IH]; cbn; [done|]. destruct (p a) eqn:E; [|done]. cbn. by rewrite E. Qed.

(** C34: The internal name of a HostedCluster derived from a DNS reservation is empty or a DNS
    label ([hc-] and lower-case letters and digits), and it always leaves room for the
    management namespace [cluster-<uid>-<name>] in the 63 characters of a label. *)
Theorem hosted_name_fits uid :
  HostedClusterNameFromDNSReservation uid = "" ∨
  ∃ suffix, HostedClusterNameFromDNSReservation uid = hostedClusterNamePrefix +:+ suffix ∧ suffix ≠ "" ∧
    str_forall (λ a, is_lower a || is_digit a) suffix = true ∧
    (Z.of_nat (String.length managementClusterNamespacePrefix) + clusterUIDLength + 1 +
       Z.of_nat (String.length (HostedClusterNameFromDNSReservation uid)) ≤ DNS1123LabelMaxLength)%Z.
Proof.
  unfold HostedClusterNameFromDNSReservation. destruct (String.eqb uid ""); [by left|].
  destruct (_ <=? _)%Z; [by left|]. set (n := Z.to_nat _). assert (Hn : n = 15) by reflexivity. rewrite Hn. clearbody n.
  set (t := str_filter _ (ToLower uid)).
  assert (Ht : str_forall (λ a, is_lower a || is_digit a) t = true) by apply str_filter_forall. clearbody t.
  assert (Hs : ∃ u, (if Nat.ltb 15 (String.length t) then str_take 15 t else t) = u ∧ (String.length u ≤ 15)%nat ∧ str_forall (λ a, is_lower a || is_digit a) u = true).
  { destruct (Nat.ltb_spec 15 (String.length t)) as [|Hlen]; eexists; (split; [done|]);
      [split; [apply str_take_length|by apply str_take_forall]|done]. }
  destruct Hs as (u & -> & Hl & Hu). destruct (String.eqb_spec u "") as [|Hne]; [by left|]. right. exists u. split_and!; [done..|].
  rewrite str_length_app. unfold managementClusterNamespacePrefix, clusterUIDLength, DNS1123LabelMaxLength, hostedClusterNamePrefix. cbn [String.length]. lia.
Qed.
