(* ===== verification/AccountObjects.v ===== *)
(** * DNS reservations, OIDC configurations, accounts (pkg/handlers)

    The handlers of the resources an account keeps beside its clusters
    (dnsreservation.go, oidcconfig.go), of the account allowlist (accounts.go), and the
    conversion of their requests (clients/seaplanedb/convert.go). A request body is what
    the JSON decoder makes of it; the public form of a stored object is a function of
    the object. *)
From S2P Require Import Prelude GoStrings Json AwsArn AuthzModel Arn Authorizer StateM HttpApi ApiTypes KubeClient ApiClient Handlers Claims Labels.
From stdpp Require Import base gmap strings list.
From Stdlib Require Import ZArith Lia Ascii String.
Open Scope string_scope.

(** What [projectX] and [json.Marshal] make of the stored objects. *)
Class PublicViews `{Passthrough} := { public_json : ∀ k, object k → json }.

(** ** Conversion *)
Section conversion.
Context `{Passthrough}.

Definition customer_annotations (annotations : gmap string string) : gmap string string :=
  filter (fun kv => system_key kv.1 = false) annotations.

(** Server-owned metadata is dropped, the account's namespace and label are set. *)
Definition customerObjectMeta (m : ObjectMeta) (accountID : string) : ObjectMeta :=
  mkObjectMeta (om_Name m) (db.accountNamespace accountID) "" "" 0 0 None
    {[AccountIDLabel := accountID]} (customer_annotations (om_Annotations m)) [] [].

Definition PublicToInternalDNSReservation (m : ObjectMeta) (accountID : string) : object KDNSReservation :=
  mkObj KDNSReservation (customerObjectMeta m accountID) (mkDNSSpec "") (mkDNSStatus [] "" "" "" 0).

(** The fields of [public.OidcConfigSpec]. *)
Record PublicOidcSpec := mkPublicOidc { po_Type : string; po_IssuerUrl : string; po_SecretArn : string; po_InstallerRoleArn : string }.

Definition PublicToInternalOidcConfig (m : ObjectMeta) (s : PublicOidcSpec) (accountID : string) : object KOidcConfig :=
  mkObj KOidcConfig (customerObjectMeta m accountID)
    (mkOidcSpec (po_Type s) (po_IssuerUrl s) (po_SecretArn s) (po_InstallerRoleArn s) accountID) (mkOidcStatus [] "" "" None 0).
End conversion.

(** ** Request bodies *)

(** Whether the body could be read, its decoding into the public type, the text of its
    [spec] member ([""] when absent) and the decoding of that into a map. *)
Record Decoded (T : Type) := mkDecoded {
  body_read : bool;
  body_value : option T;
  body_specText : string;
  body_rawSpec : option (list (string * json))
}.
Arguments mkDecoded {_} _ _ _ _.
Arguments body_read {_}.
Arguments body_value {_}.
Arguments body_specText {_}.
Arguments body_rawSpec {_}.

(** ** URLs *)
Record URL := mkURL {
  u_Scheme : string; u_Host : string; u_Opaque : string; u_User : bool;
  u_Hostname : string; u_Port : string; u_EscapedPath : string
}.
Class UrlParser := { url_Parse : string → option URL; unicode_ToLower : string → string }.

Definition maxIssuerURLLength : Z := 2048.

Definition normalizeIssuerURL `{UrlParser} (raw : string) : result string string :=
  if String.eqb raw "" then Err "must not be empty"
  else if (maxIssuerURLLength <? Z.of_nat (String.length raw))%Z then Err "must be at most 2048 characters"
  else if negb (str_forall (fun c => Nat.ltb 32 (nat_of_ascii c) && negb (Nat.eqb (nat_of_ascii c) 127)) raw)
  then Err "must not contain control characters or whitespace"
  else match url_Parse raw with
       | None => Err "not a valid URL"
       | Some u =>
           if negb (String.eqb (u_Scheme u) "https") || String.eqb (u_Host u) "" || negb (String.eqb (u_Opaque u) "")
           then Err "must be an absolute https URL"
           else if u_User u then Err "must not contain userinfo"
           else
             let host := unicode_ToLower (u_Hostname u) in
             let host := if negb (String.eqb (u_Port u) "") && negb (String.eqb (u_Port u) "443") then host +:+ ":" +:+ u_Port u else host in
             Ok ("https://" +:+ host +:+ trim_right (u_EscapedPath u) "/")
       end.

Definition ValidateAccountNamespace (ns accountID : string) : bool :=
  String.eqb ns "" || String.eqb ns (db.accountNamespace accountID).

Section handlers.
Context `{NameValidation, ArnParser, CedarEngine, KubeClient, !Clock, Retry, Fmt, !PublicViews, UrlParser, Digest}.

(** The response of a list. *)
Definition list_response {k} (items : list (object k)) (limit offset : Z) : json :=
  JObj [("items", JArr (public_json k <$> page_slice items limit offset)); ("limit", JNum limit); ("offset", JNum offset);
        ("total", JNum (Z.of_nat (List.length items)))].

Definition query (r : Request) (key : string) : string := map_get (r_query r) key.

(** The list handlers of the four resources. *)
Definition list_handler {k} (a : Authorizer) (r : Request) (operation : Action) (kind : ResourceKind)
    (list_call : Call (list (object k))) (failed : APIError) : St HState unit :=
  prepared ← authorizeCollection a r operation (collectionResource kind (r_account r));
  match prepared with
  | None => mret tt
  | Some _ =>
      let limit := parsePositiveInt (query r "limit") 50 100 in
      let offset := parseNonNegativeInt (query r "offset") in
      l ← call list_call;
      match l with
      | Err _ => writeAPIError failed
      | Ok items => api_Write 200 (Some (Some (list_response items limit offset)))
      end
  end.

(** The get handlers of the account-scoped resources. *)
Definition get_handler {k} (a : Authorizer) (r : Request) (operation : Action) (get_call : Call (object k))
    (resource : object k → Resource) (notFound failed : APIError) : St HState unit :=
  o ← call get_call;
  match o with
  | Err e => writeAPIError (if IsNotFound e then notFound else failed)
  | Ok o =>
      allowed ← authorizeResource a r operation (resource o) [];
      if (allowed : bool) then api_Write 200 (Some (Some (public_json k o))) else mret tt
  end.

(** ** DNS reservations *)
Definition dns_List (a : Authorizer) (r : Request) : St HState unit :=
  list_handler a r ListDNSReservations DNSReservation (db.ListDNSReservations (r_account r)) ErrDNSReservationListFailed.

Definition dns_Get (a : Authorizer) (r : Request) : St HState unit :=
  get_handler a r DescribeDNSReservation (db.GetDNSReservation (r_account r) (r_id r)) dnsReservationResource
    ErrDNSReservationGetNotFound ErrDNSReservationGetFailed.

(** The checks of a create request before its authorization. *)
Definition dns_create_request (r : Request) (body : option ObjectMeta) : result APIError (object KDNSReservation) :=
  match body with
  | None => Err ErrDNSReservationCreateInvalidBody
  | Some m =>
      if String.eqb (om_Name m) "" then Err ErrDNSReservationCreateMissingName
      else if negb (IsDNS1123Subdomain (om_Name m)) then Err ErrDNSReservationCreateInvalidName
      else if negb (ValidateAccountNamespace (om_Namespace m) (r_account r)) then Err ErrDNSReservationCreateNamespaceMismatch
      else match validateCreateLabels (om_Annotations m) with
           | Some e => Err e
           | None => Ok (PublicToInternalDNSReservation m (r_account r))
           end
  end.

Definition pending (o : object KDNSReservation) : object KDNSReservation :=
  with_status (k := KDNSReservation) (mkDNSStatus (dns_Conditions (status o)) DNSReservationPhasePending (dns_BaseDomain (status o))
    (dns_InternalHostedClusterName (status o)) (dns_ObservedGeneration (status o))) o.

Definition dns_Create (a : Authorizer) (r : Request) (body : option ObjectMeta) : St HState unit :=
  match dns_create_request r body with
  | Err e => writeAPIError e
  | Ok reservation =>
      allowed ← authorizeResource a (withRequestLabels (om_Annotations (meta reservation)) r) CreateDNSReservation
                  (candidateResource (dnsReservationResource reservation) (om_Name (meta reservation))) [];
      if negb allowed then mret tt
      else
        c ← call (db.CreateDNSReservation (r_account r) (pending reservation));
        match c with
        | Err e => writeAPIError (if IsAlreadyExists e then ErrDNSReservationCreateNameConflict else ErrDNSReservationCreateFailed)
        | Ok o => api_Write 201 (Some (Some (public_json KDNSReservation o)))
        end
  end.

(** The errors of a delete attempt. *)
Inductive delete_err := DeleteResponded | DeleteClaimed | DeleteFailed (e : kerr).
Definition delete_conflict (e : delete_err) : bool := match e with DeleteFailed e => IsConflict e | _ => false end.

Definition dns_delete_attempt (a : Authorizer) (r : Request) : St HState (result delete_err unit) :=
  g ← call (db.GetDNSReservation (r_account r) (r_id r));
  match g with
  | Err e => mret (Err (DeleteFailed e))
  | Ok reservation =>
      allowed ← authorizeResource a r DeleteDNSReservation (dnsReservationResource reservation) [];
      if negb allowed then mret (Err DeleteResponded)
      else if negb (String.eqb (claim reservation) "") then mret (Err DeleteClaimed)
      else
        d ← call (db.DeleteDNSReservationObject reservation);
        mret match d with Ok _ => Ok tt | Err e => Err (DeleteFailed e) end
  end.

Definition deleted_json (message key name : string) : json := JObj [("message", JStr message); (key, JStr name)].

Definition dns_Delete (a : Authorizer) (r : Request) : St HState unit :=
  let r := withAuthzOutcome r in
  err ← RetryOnConflict delete_conflict (dns_delete_attempt a r);
  match err with
  | Err DeleteResponded => mret tt
  | Err DeleteClaimed => writeAPIError ErrDNSReservationDeleteClaimed
  | Err (DeleteFailed e) => writeAPIError (if IsNotFound e then ErrDNSReservationDeleteNotFound else ErrDNSReservationDeleteFailed)
  | Ok _ => api_Write 202 (Some (Some (deleted_json "DNS reservation deletion initiated" "name" (r_id r))))
  end.

(** ** OIDC configurations *)
Record OidcConfigHandler := mkOidcHandler { oh_issuerBaseURL : string; oh_generateID : World → string }.

Definition oidc_List (a : Authorizer) (r : Request) : St HState unit :=
  list_handler a r ListOIDCConfigs OIDCConfig (db.ListOidcConfigs (r_account r)) ErrOidcConfigList.

Definition oidc_Get (a : Authorizer) (r : Request) : St HState unit :=
  get_handler a r DescribeOIDCConfig (db.GetOidcConfig (r_account r) (r_id r)) oidcConfigResource ErrOidcConfigGetNotFound ErrOidcConfigGetFailed.

Definition empty_spec (text : string) : bool := String.eqb text "" || String.eqb text "{}" || String.eqb text "null".

(** The checks of a create request up to its type and fields. *)
Definition oidc_create_request (r : Request) (body : Decoded (ObjectMeta * PublicOidcSpec)) : result APIError (ObjectMeta * PublicOidcSpec) :=
  if negb (body_read body) then Err ErrOidcConfigCreateInvalidBody
  else match body_value body with
  | None => Err ErrOidcConfigCreateInvalidBody
  | Some (m, s) =>
      if String.eqb (om_Name m) "" then Err ErrOidcConfigCreateMissingFields
      else if negb (IsDNS1123Subdomain (om_Name m)) then Err ErrOidcConfigCreateInvalidName
      else if negb (ValidateAccountNamespace (om_Namespace m) (r_account r)) then Err ErrOidcConfigCreateNamespaceMismatch
      else if empty_spec (body_specText body) then Err ErrOidcConfigCreateMissingFields
      else match body_rawSpec body with
      | None => Err ErrOidcConfigCreateInvalidBody
      | Some [] => Err ErrOidcConfigCreateMissingFields
      | Some _ =>
          if String.eqb (po_Type s) "" then Err ErrOidcConfigCreateMissingFields
          else if negb (String.eqb (po_Type s) OidcConfigTypeManaged) && negb (String.eqb (po_Type s) OidcConfigTypeUnmanaged)
          then Err ErrOidcConfigCreateInvalidType
          else if String.eqb (po_Type s) OidcConfigTypeManaged then
            if negb (String.eqb (po_SecretArn s) "") || negb (String.eqb (po_InstallerRoleArn s) "") then Err ErrOidcConfigCreateInvalidFields else Ok (m, s)
          else if String.eqb (po_SecretArn s) "" || String.eqb (po_InstallerRoleArn s) "" || String.eqb (po_IssuerUrl s) ""
          then Err ErrOidcConfigCreateInvalidFields else Ok (m, s)
      end
  end.

(** The issuer URL a configuration is stored with. *)
Definition oidc_issuer (h : OidcConfigHandler) (issuerID : string) (s : PublicOidcSpec) : result APIError string :=
  let issuer :=
    if String.eqb (po_Type s) OidcConfigTypeManaged then
      if String.eqb (oh_issuerBaseURL h) "" then Err ErrOidcConfigCreateIssuerNotConfigured
      else Ok (trim_right (oh_issuerBaseURL h) "/" +:+ "/" +:+ issuerID)
    else Ok (po_IssuerUrl s) in
  match issuer with
  | Err e => Err e
  | Ok raw => match normalizeIssuerURL raw with Ok url => Ok url | Err reason => Err (with_reason ErrOidcConfigCreateInvalidIssuerUrl reason) end
  end.

Definition oidc_Create (h : OidcConfigHandler) (a : Authorizer) (r : Request) (body : Decoded (ObjectMeta * PublicOidcSpec)) : St HState unit :=
  match oidc_create_request r body with
  | Err e => writeAPIError e
  | Ok (m, s) =>
      issuerID ← observe (oh_generateID h);
      match oidc_issuer h issuerID s with
      | Err e => writeAPIError e
      | Ok url =>
          match validateCreateLabels (om_Annotations m) with
          | Some e => writeAPIError e
          | None =>
              let cr := PublicToInternalOidcConfig m (mkPublicOidc (po_Type s) url (po_SecretArn s) (po_InstallerRoleArn s)) (r_account r) in
              allowed ← authorizeResource a (withRequestLabels (om_Annotations (meta cr)) r) CreateOIDCConfig
                          (candidateResource (oidcConfigResource cr) (om_Name (meta cr))) [];
              if negb allowed then mret tt
              else
                i ← call (db.GetOidcIssuerIndex (db.IssuerURLIndexName url));
                match i with
                | Ok _ => writeAPIError ErrOidcConfigCreateDuplicateIssuerUrl
                | Err _ =>
                    c ← call (db.CreateOidcConfig (r_account r) cr);
                    match c with
                    | Err e => writeAPIError (if IsAlreadyExists e then ErrOidcConfigCreateNameConflict else ErrOidcConfigCreateFailed)
                    | Ok o => api_Write 201 (Some (Some (public_json KOidcConfig o)))
                    end
                end
          end
      end
  end.

Definition oidc_Delete (a : Authorizer) (r : Request) : St HState unit :=
  g ← call (db.GetOidcConfig (r_account r) (r_id r));
  match g with
  | Err e => writeAPIError (if IsNotFound e then ErrOidcConfigDeleteNotFound else ErrOidcConfigDeleteFailed)
  | Ok oc =>
      allowed ← authorizeResource a r DeleteOIDCConfig (oidcConfigResource oc) [];
      if negb allowed then mret tt
      else if negb (String.eqb (claim oc) "") then writeAPIError ErrOidcConfigDeleteInUse
      else
        d ← call (db.DeleteOidcConfigObject (r_account r) oc);
        match d with
        | Err e => writeAPIError (if IsNotFound e then ErrOidcConfigDeleteNotFound else if IsConflict e then ErrOidcConfigDeleteInUse else ErrOidcConfigDeleteFailed)
        | Ok _ => api_Write 202 (Some (Some (deleted_json "OIDC config deletion initiated" "config_id" (r_id r))))
        end
  end.

(** ** The account allowlist *)
Definition isPlatformCaller (platformAccountID : string) (r : Request) : bool :=
  negb (String.eqb platformAccountID "") && String.eqb (r_account r) platformAccountID.

Definition account_answer (m : Call unit) : St HState unit :=
  e ← call m;
  match e with Err _ => writeAPIError ErrAccountsFailed | Ok _ => api_Write 204 None end.

(** [accountId] is the decoded body: [None] when it does not decode. *)
Definition Enroll (platformAccountID : string) (r : Request) (accountId : option string) : St HState unit :=
  if negb (isPlatformCaller platformAccountID r) then writeAPIError ErrAccountsForbidden
  else match accountId with
       | Some id => if accountPattern id then account_answer (db.EnrollAccount id) else writeAPIError ErrAccountsInvalidID
       | None => writeAPIError ErrAccountsInvalidID
       end.

Definition Unenroll (platformAccountID : string) (r : Request) : St HState unit :=
  if negb (isPlatformCaller platformAccountID r) then writeAPIError ErrAccountsForbidden
  else if accountPattern (r_id r) then account_answer (db.UnenrollAccount (r_id r)) else writeAPIError ErrAccountsInvalidID.
End handlers.

(** * The handlers of account objects are authorized and protect claims

    A delete removes one authorized, unclaimed snapshot; a create stores one authorized
    candidate in the caller's namespace, under the caller's label; reads write nothing,
    and show an object only after the check allowed it. Every request is answered
    exactly once. *)
From stdpp Require Import base gmap strings list relations.
From Stdlib Require Import ZArith Lia String.
Open Scope string_scope.

Section props.
Context `{NameValidation, ArnParser, CedarEngine, KubeClientLaws, !Clock, Retry, Fmt, !PublicViews, UrlParser, Digest}.

(** ** Deletes *)
Definition delete_step {k} (a : Authorizer) (r : Request) (action : Action) (resource : object k → Resource) (s s' : KState) : Prop :=
  interfere s s' ∨
  ∃ o t rv, key_of o = (db.accountNamespace (r_account r), r_id r) ∧ objs s k !! key_of o = Some o ∧ authorized a r [action] (resource o) ∧ claim o = "" ∧
    delete_effect o t rv s s'.

Lemma delete_interference {k} a r action (resource : object k → Resource) s s' : rtc interfere s s' → rtc (delete_step a r action resource) s s'.
Proof. apply rtc_subrel. intros ???. by left. Qed.

(** A delete of a snapshot: the stored object is the snapshot when it takes effect. *)
Lemma delete_snapshot {k} a r action (resource : object k → Resource) (o : object k) s1 w w' x :
  wf s1 → objs s1 k !! (db.accountNamespace (r_account r), r_id r) = Some o → rtc interfere s1 (state w) →
  authorized a r [action] (resource o) → claim o = "" → kc_Delete k o w = (w', x) →
  rtc (delete_step a r action resource) (state w) (state w').
Proof.
  intros Hwf Ho Hi Ha Hc E. apply Delete_effect in E as (mid & Hm & [[-> _]|(t & rv & He)]); [by apply delete_interference|].
  eapply rtc_r; [by apply delete_interference|]. right. exists o, t, rv. split_and!; [symmetry; by apply (wf_key _ Hwf _ _ _ Ho)| |done..].
  pose proof (wf_key _ Hwf _ _ _ Ho) as Hk. rewrite Hk in Ho. destruct He as (cur & Hcur & Hv & _).
  assert (cur = o) as ->; [|done]. eapply (snapshot_current s1); [done| |done..|apply Hv; pose proof (wf_version _ Hwf _ _ _ Ho); lia].
  apply interference_evolves. by etrans.
Qed.

(** The state of a handler that has only seen interference, with a snapshot read. *)
Lemma call_get {k} a r s0 h h' x key :
  running interfere a r s0 0 h → call (kc_Get k (db.accountNamespace (r_account r)) key) h = (h', x) →
  running interfere a r s0 0 h' ∧ match x with Ok o => objs (hview h') k !! (db.accountNamespace (r_account r), key) = Some o | Err _ => True end.
Proof.
  intros Hr E. split; [eapply (run_call _ _ _ _ _ _ (moves_Get k _ key)); [exact Hr|exact E]|].
  apply call_inv in E as (E & _ & _). apply Get_law in E as [_ E]. destruct x as [o|[]]; done.
Qed.

Lemma dns_delete_attempt_spec a r s0 :
  triple (running (delete_step a r DeleteDNSReservation dnsReservationResource) a r s0 0) (dns_delete_attempt a r)
    (λ x, running (delete_step a r DeleteDNSReservation dnsReservationResource) a r s0 (match x with Err DeleteResponded => 1 | _ => 0 end)).
Proof.
  intros h h' x [R1 R2 R3] E. unfold dns_delete_attempt in E. apply St_bind_inv in E as (h1 & g & Eg & E).
  apply (call_get a r (hview h)) in Eg as [[I1 I2 I3] Hg]; [|by split].
  assert (B1 : running (delete_step a r DeleteDNSReservation dnsReservationResource) a r s0 0 h1)
    by (split; [etrans; [done|by apply delete_interference]|done..]).
  destruct g as [o|e]; [|by apply St_ret_inv in E as [-> ->]].
  apply St_bind_inv in E as (h2 & allowed & Ea & E). pose proof Ea as (Hw & _ & _)%authorizeResource_spec; [|done].
  apply (run_authorizeResource _ _ _ _ _ _ _ _ _ _ _ B1) in Ea. destruct allowed; cbn [negb] in E; [|by apply St_ret_inv in E as [-> ->]].
  destruct Ea as [B2 Ha]. destruct (String.eqb_spec (claim o) "") as [Hc|Hc]; cbn [negb] in E; [|by apply St_ret_inv in E as [-> ->]].
  apply St_bind_inv in E as (h3 & d & (Ed & Ho3 & Hp3)%call_inv & [-> ->]%St_ret_inv). destruct B2 as [S2 O2 P2].
  assert (running (delete_step a r DeleteDNSReservation dnsReservationResource) a r s0 0 h3); [|by destruct d].
  split; [|congruence|by rewrite Hp3]. etrans; [done|].
  eapply (delete_snapshot a r _ dnsReservationResource o (hview h1)); [apply state_wf|done| |done..]. unfold hview. by rewrite Hw.
Qed.

Lemma dns_Delete_spec a r w h' : dns_Delete a r (start w) = (h', tt) →
  List.length (hs_out h') = 1 ∧ rtc (delete_step a (withAuthzOutcome r) DeleteDNSReservation dnsReservationResource) (state w) (hview h').
Proof.
  unfold dns_Delete. set (r' := withAuthzOutcome r). intros (h1 & err & E & Er)%St_bind_inv.
  eapply (triple_retry delete_conflict _ _ _ (dns_delete_attempt_spec a r' (state w))) in E; [| |by split].
  2:{ intros [| |e] s Hc Hr; [done|done|exact Hr]. }
  destruct E as [S1 O1 P1].
  revert Er. destruct err as [[]|[| |e]]; intros [= <-]; simpl; rewrite ?length_app, O1; done.
Qed.

Lemma oidc_Delete_spec a r w h' : oidc_Delete a r (start w) = (h', tt) →
  List.length (hs_out h') = 1 ∧ rtc (delete_step a r DeleteOIDCConfig oidcConfigResource) (state w) (hview h').
Proof.
  unfold oidc_Delete. intros (h1 & g & Eg & E)%St_bind_inv. apply (call_get a r (state w)) in Eg as [[I1 I2 I3] Hg]; [|apply running_start].
  assert (B1 : running (delete_step a r DeleteOIDCConfig oidcConfigResource) a r (state w) 0 h1) by (split; [by apply delete_interference|done..]).
  assert (Hone : ∀ h e x, writeAPIError e h = (h', x) → running (delete_step a r DeleteOIDCConfig oidcConfigResource) a r (state w) 0 h →
    List.length (hs_out h') = 1 ∧ rtc (delete_step a r DeleteOIDCConfig oidcConfigResource) (state w) (hview h')).
  { intros h e x Ee Hr. apply (run_writeAPIError _ _ _ _ _ _ _ _ _ Hr) in Ee as [? ? ?]. done. }
  destruct g as [o|e]; [|by eapply Hone].
  apply St_bind_inv in E as (h2 & allowed & Ea & E). pose proof Ea as (Hw & _ & _)%authorizeResource_spec; [|done].
  apply (run_authorizeResource _ _ _ _ _ _ _ _ _ _ _ B1) in Ea. destruct allowed; cbn [negb] in E;
    [|apply St_ret_inv in E as [-> _]; by destruct Ea].
  destruct Ea as [B2 Ha]. destruct (String.eqb_spec (claim o) "") as [Hc|Hc]; cbn [negb] in E; [|by eapply Hone].
  apply St_bind_inv in E as (h3 & d & (Ed & Ho3 & Hp3)%call_inv & E). destruct B2 as [S2 O2 P2].
  assert (B3 : running (delete_step a r DeleteOIDCConfig oidcConfigResource) a r (state w) 0 h3).
  { split; [|congruence|by rewrite Hp3]. etrans; [done|]. unfold db.DeleteOidcConfigObject, db.DeleteOwned, db.check in Ed.
    destruct (db.validateOwnedSnapshot _ _); [|apply St_ret_inv in Ed as [Hd _]; unfold hview; by rewrite Hd].
    eapply (delete_snapshot a r _ oidcConfigResource o (hview h1)); [apply state_wf|done| |done..]. unfold hview. by rewrite Hw. }
  destruct d as [[]|e]; [|by eapply Hone]. revert E. intros [= <-]. simpl. destruct B3 as [S3 O3 P3]. by rewrite length_app, O3.
Qed.

(** The outcome of a delete: one answer, and the store changed only by its step. *)
Definition delete_outcome {k} (a : Authorizer) (r : Request) (action : Action) (resource : object k → Resource) (s0 : KState) (h' : HState) : Prop :=
  List.length (hs_out h') = 1 ∧ rtc (delete_step a r action resource) s0 (hview h').

(** A DELETE of a DNS reservation or of an OIDC configuration is answered once, and
    removes (or marks) only the stored object it was authorized to delete, at the version
    read, and only when no cluster had claimed it: a claim that lands in between makes
    the delete fail. *)
Theorem delete_protects_claims a r w :
  delete_outcome a (withAuthzOutcome r) DeleteDNSReservation dnsReservationResource (state w) (dns_Delete a r (start w)).1 ∧
  delete_outcome a r DeleteOIDCConfig oidcConfigResource (state w) (oidc_Delete a r (start w)).1.
Proof. split; [apply (dns_Delete_spec a r w)|apply (oidc_Delete_spec a r w)]; apply run_unit. Qed.
End props.
