(* ===== verification/Clusters.v ===== *)
(** * Clusters (pkg/handlers/cluster.go, cluster_claims.go)

    The handlers of clusters: the checks of a create request, the candidate it stores,
    the order of its effects (queue claim, create, claims, clean-up), the retried update
    and its checks, get, list and delete; and the conversion of specs
    (clients/seaplanedb/convert.go). Specs are JSON documents through a codec; the
    field registry is generated data. *)
From S2P Require Import Prelude GoStrings Json Cidr FieldPaths AwsArn FieldValidator Preserve AuthzModel Arn Authorizer StateM HttpApi ApiTypes KubeClient ApiClient Handlers Claims Labels ClusterValidation AccountObjects.
From stdpp Require Import base gmap strings list.
From Stdlib Require Import ZArith Lia Ascii String.
Open Scope string_scope.

(** [encoding/json] on the specs: the document of a spec, and [json.Unmarshal] of a
    document's members over a spec. *)
Class SpecCodec `{Passthrough} := {
  spec_JSON : ∀ k, Spec k → json;
  spec_Unmarshal : ∀ k, list (string * json) → Spec k → option (Spec k);
  zero_Spec : ∀ k, Spec k
}.

(** The registries of seaplane-api/internal/codegen, the feature set, and the PEM and
    X.509 parsers of the field validator. *)
Class Codegen := {
  registry : string → FieldValidator.Registry;
  featuregate_Default : FieldValidator.FeatureSet;
  pem_Decode : string → option (string * string * string);
  x509_IsCA : string → option bool
}.

(** How the reasons of the network checks are printed, and the conversion of a float
    beyond [int64]. *)
Class CidrTexts := { reason_text : Cidr.reason → string; float_overflow : Z → Z }.

(** ** Errors of validators *)
Definition validation_payload (errs : list FieldValidator.ValidationError) : Payload :=
  field_errors ((fun e => (FieldValidator.Field e, FieldValidator.Reason e)) <$> errs).
Definition cidr_payload `{CidrTexts} (errs : list Cidr.ValidationError) : Payload :=
  field_errors ((fun e => (Cidr.Field e, reason_text (Cidr.Reason e))) <$> errs).

(** ** Specs *)
Section specs.
Context `{SpecCodec, ArnParser, Codegen}.

Definition validator_spec {k} (s : Spec k) : FieldValidator.Spec := FieldValidator.mkSpec FieldValidator.GOther (spec_JSON k s).
Definition raw_map (raw : list (string * json)) : FieldValidator.Spec := FieldValidator.mkSpec FieldValidator.GOther (JObj raw).

Definition ValidateCreate (kind : string) (spec : FieldValidator.Spec) : list FieldValidator.ValidationError :=
  FieldValidator.ValidateCreate arn_Parse pem_Decode x509_IsCA (registry kind) kind (Some spec) featuregate_Default.
Definition ValidateUpdate {k} (kind : string) (raw : list (string * json)) (stored : Spec k) : list FieldValidator.ValidationError :=
  FieldValidator.ValidateUpdate arn_Parse pem_Decode x509_IsCA (registry kind) kind (Some (raw_map raw)) (Some (validator_spec stored)) featuregate_Default.

Definition spec_map {k} (s : Spec k) : option (list (string * json)) := match spec_JSON k s with JObj l => Some l | _ => None end.
Definition preserve {k} (kind : string) (candidate stored : Spec k) : result Preserve.preserve_error (Spec k) :=
  Preserve.PreserveServiceSet spec_map (fun m => spec_Unmarshal k m (zero_Spec k)) (registry kind) featuregate_Default candidate stored.

(** ** MergeSpecJSON (convert.go)

    The members of the submitted spec, in their order; struct fields match keys up to
    case. *)
Definition supplied (key : string) (members : list (string * json)) : option json :=
  snd <$> last (filter (fun kv => EqualFold kv.1 key = true) members).

Definition set_tags (tags : gmap string string) (c : ClusterSpec) : ClusterSpec :=
  mkClusterSpec (cl_AccountID c) (cl_CreatorARN c) (cl_HostedClusterName c) (cl_DNSReservationID c) (cl_OidcConfigID c)
    (cl_ExpirationTimestamp c) tags (cl_ControlPlaneUpgradePolicy c) (cl_HostedCluster c) (cl_Rest c).
Definition set_pool_maps (labels tags node_labels : gmap string string) (p : NodePoolSpec) : NodePoolSpec :=
  let n := np_NodePool p in
  mkNodePoolSpec (np_AccountID p) (np_InternalPoolID p) (np_TopAutoRepair p) labels tags (np_HttpTokens p)
    (mkNodePoolPassthrough (np_ClusterName n) (np_Replicas n) (np_AutoScaling n) (np_Release n) node_labels (np_AutoRepair n)) (np_Rest p).

Definition if_supplied {A} (o : option A) (m : gmap string string) : gmap string string := match o with Some _ => ∅ | None => m end.

(** The submitted maps of a node pool; [None] when [nodePool] is not an object. *)
Definition reset_pool (members : list (string * json)) (p : NodePoolSpec) : option NodePoolSpec :=
  let node_labels := np_NodeLabels (np_NodePool p) in
  let reset node_labels := set_pool_maps (if_supplied (supplied "labels" members) (np_Labels p)) (if_supplied (supplied "tags" members) (np_Tags p)) node_labels p in
  match supplied "nodePool" members with
  | None | Some JNull => Some (reset node_labels)
  | Some (JObj l) => Some (reset (if_supplied (supplied "nodeLabels" l) node_labels))
  | Some _ => None
  end.

Definition resetSuppliedMaps {k} (members : list (string * json)) : Spec k → option (Spec k) :=
  match k with
  | KCluster => fun c => Some (set_tags (if_supplied (supplied "tags" members) (cl_Tags c)) c)
  | KNodePool => reset_pool members
  | _ => Some
  end.

Definition MergeSpecJSON {k} (members : list (string * json)) (dst : Spec k) : option (Spec k) :=
  dst ← resetSuppliedMaps members dst; spec_Unmarshal k members dst.
End specs.

(** ** Conversion *)
Section conversion.
Context `{SpecCodec}.

(** The fields of [public.ClusterSpec]; [pc_Fields] is what the validators see of it. *)
Record PublicClusterSpec := mkPublicCluster {
  pc_ExpirationTimestamp : option Z;
  pc_Tags : gmap string string;
  pc_DNSReservationID : string;
  pc_OidcConfigID : string;
  pc_ControlPlaneUpgradePolicy : option UpgradePolicy;
  pc_HostedCluster : HostedCluster;
  pc_Rest : ClusterRest;
  pc_Networking : Cidr.ClusterNetworking;
  pc_Fields : FieldValidator.Spec
}.

(** A timestamp loses its fraction of a second in JSON. *)
Definition json_time (t : Z) : Z := t / second * second.

Definition UnprojectCluster (p : PublicClusterSpec) (accountID : string) : ClusterSpec :=
  mkClusterSpec accountID "" "" (pc_DNSReservationID p) (pc_OidcConfigID p) (json_time <$> pc_ExpirationTimestamp p) (pc_Tags p)
    (pc_ControlPlaneUpgradePolicy p) (pc_HostedCluster p) (pc_Rest p).

Definition PublicToInternalCluster (m : ObjectMeta) (p : PublicClusterSpec) (accountID : string) : object KCluster :=
  mkObj KCluster (customerObjectMeta m accountID) (UnprojectCluster p accountID) (zero_Status KCluster).

Definition set_issuer (url : string) (hc : HostedCluster) : HostedCluster :=
  mkHostedCluster (hc_Configuration hc) (hc_Release hc) (hc_AWS hc) url.
Definition set_IssuerURL (url : string) (o : object KCluster) : object KCluster :=
  let c := spec o in
  with_spec (k := KCluster) (mkClusterSpec (cl_AccountID c) (cl_CreatorARN c) (cl_HostedClusterName c) (cl_DNSReservationID c) (cl_OidcConfigID c)
    (cl_ExpirationTimestamp c) (cl_Tags c) (cl_ControlPlaneUpgradePolicy c) (set_issuer url (cl_HostedCluster c)) (cl_Rest c)) o.

Definition requestedTerminationHandlerQueue (aws : option AWSPlatform) : string * string :=
  match aws with None => ("", "") | Some aws => (TerminationHandlerQueueURL aws, aws_Region aws) end.
Definition clusterTerminationHandlerQueue (cluster : object KCluster) : string * string :=
  requestedTerminationHandlerQueue (hc_AWS (cl_HostedCluster (spec cluster))).

Definition terminationHandlerQueueURLs (clusters : list (object KCluster)) (excludeName : string) : list string :=
  omap (fun cluster =>
    if negb (String.eqb excludeName "") && String.eqb (om_Name (meta cluster)) excludeName then None
    else let queueURL := (clusterTerminationHandlerQueue cluster).1 in
         if String.eqb queueURL "" then None else Some queueURL) clusters.

Definition clusterCleanupFinalizer : string := "seaplane.io/cluster".

Record ClusterHandler := mkClusterHandler { ch_issuerBaseURL : string; ch_defaultExpiration : Z }.

(** The cluster a create request stores at time [t]; [None] when its reservation has no
    internal name. *)
Definition cluster_candidate (h : ClusterHandler) (accountID callerARN : string) (t : Z) (m : ObjectMeta) (p : PublicClusterSpec)
    (dns : option (object KDNSReservation)) (oidc : option (object KOidcConfig)) : option (object KCluster) :=
  let expiry := match pc_ExpirationTimestamp p with
                | None => if (0 <? ch_defaultExpiration h)%Z then Some (t + ch_defaultExpiration h)%Z else None
                | Some e => Some e
                end in
  let hostedClusterName := match dns with Some d => dns_InternalHostedClusterName (status d) | None => om_Name m end in
  if match dns with Some _ => String.eqb hostedClusterName "" | None => false end then None
  else
    let p := mkPublicCluster expiry (pc_Tags p)
               (match dns with Some d => uid_of d | None => pc_DNSReservationID p end)
               (match oidc with Some o => uid_of o | None => pc_OidcConfigID p end)
               (pc_ControlPlaneUpgradePolicy p)
               (match oidc with Some o => set_issuer (oidc_IssuerUrl (spec o)) (pc_HostedCluster p) | None => pc_HostedCluster p end)
               (pc_Rest p) (pc_Networking p) (pc_Fields p) in
    let cr := PublicToInternalCluster m p accountID in
    let s := spec cr in
    Some (with_meta (set_finalizers [clusterCleanupFinalizer])
            (with_spec (k := KCluster) (mkClusterSpec (cl_AccountID s) callerARN hostedClusterName (cl_DNSReservationID s) (cl_OidcConfigID s)
               (cl_ExpirationTimestamp s) (cl_Tags s) (cl_ControlPlaneUpgradePolicy s) (cl_HostedCluster s) (cl_Rest s)) cr)).
End conversion.

Section handlers.
Context `{NameValidation, ArnParser, CedarEngine, KubeClient, !Clock, Retry, Fmt, !PublicViews, Digest, !SpecCodec, Codegen, CidrTexts, TagTable}.

(** A program of the store's world. *)
Definition on_world {A} (m : St World A) : St HState A := fun h =>
  let '(w, r) := m (hs_world h) in (mkHState w (hs_out h) (hs_prepared h), r).

(** ** Reads and deletes *)
Definition cluster_List (a : Authorizer) (r : Request) : St HState unit :=
  list_handler a r ListClusters Cluster (db.ListClusters (r_account r)) ErrClusterList.

Definition cluster_Get (a : Authorizer) (r : Request) : St HState unit :=
  prepared ← prepareResourceAuthz a r;
  match prepared with
  | Err _ => writeResourceAuthzError
  | Ok prepared =>
      g ← call (db.GetCluster (r_account r) (r_id r));
      match g with
      | Err e => writeAPIError (if IsNotFound e then ErrClusterGetNotFound else ErrClusterGetFailed)
      | Ok cr =>
          allowed ← check_actions prepared r (clusterResource cr) [DescribeCluster];
          if (allowed : bool) then api_Write 200 (Some (Some (public_json KCluster cr))) else mret tt
      end
  end.

Definition cluster_Delete (a : Authorizer) (r : Request) : St HState unit :=
  g ← call (db.GetCluster (r_account r) (r_id r));
  match g with
  | Err e => writeAPIError (if IsNotFound e then ErrClusterDeleteNotFound else ErrClusterDeleteFailed)
  | Ok cr =>
      allowed ← authorizeResource a r DeleteCluster (clusterResource cr) [];
      if negb allowed then mret tt
      else
        d ← call (db.DeleteClusterObject (r_account r) cr);
        match d with
        | Err e => writeAPIError (if IsConflict e then ErrResourceConflict else if IsNotFound e then ErrClusterDeleteNotFound else ErrClusterDeleteFailed)
        | Ok _ => api_Write 202 (Some (Some (deleted_json "Cluster deletion initiated" "cluster_name" (r_id r))))
        end
  end.

(** ** Create *)
Definition decodeClusterCreateRequest (accountID : string) (body : Decoded (ObjectMeta * PublicClusterSpec)) : result APIError (ObjectMeta * PublicClusterSpec) :=
  match body_value body with
  | None => Err ErrClusterCreateInvalidBody
  | Some (m, p) =>
      if String.eqb (om_Name m) "" || empty_spec (body_specText body) then Err ErrClusterCreateMissingFields
      else match body_rawSpec body with
      | None => Err ErrClusterCreateInvalidBody
      | Some [] => Err ErrClusterCreateMissingFields
      | Some _ =>
          if negb (ValidateClusterNameForDNSReservation (om_Name m) (negb (String.eqb (pc_DNSReservationID p) ""))) then Err ErrClusterCreateInvalidName
          else if negb (ValidateAccountNamespace (om_Namespace m) accountID) then Err ErrClusterCreateNamespaceMismatch
          else match (ValidateCreate "Cluster" (pc_Fields p) ++ ValidateCustomerAWSTags (pc_Tags p) "spec.tags" ++ ValidateClusterAWSTagBudget (pc_Tags p))%list with
          | (_ :: _) as errs => Err (WithErrors ErrClusterValidation (validation_payload errs))
          | [] =>
              match Cidr.ValidateNetworkCIDRs float_overflow (Some (pc_Networking p)) with
              | (_ :: _) as errs => Err (WithErrors ErrClusterValidation (cidr_payload errs))
              | [] => Ok (m, p)
              end
          end
      end
  end.

Definition authorizeCreate (a : Authorizer) (r : Request) (m : ObjectMeta) (p : PublicClusterSpec) : St HState bool :=
  match validateCreateLabels (om_Annotations m) with
  | Some e => _ ← writeAPIError e; mret false
  | None =>
      let cr := PublicToInternalCluster m p (r_account r) in
      authorizeResource a (withRequestLabels (om_Annotations (meta cr)) r) CreateCluster (candidateResource (clusterResource cr) (om_Name m)) []
  end.

Definition authorizeReferences (a : Authorizer) (r : Request) (dns : option (object KDNSReservation)) (oidc : option (object KOidcConfig)) : St HState bool :=
  ok ← match dns with Some d => authorizeResource a r DescribeDNSReservation (dnsReservationResource d) [] | None => mret true end;
  if negb ok then mret false
  else match oidc with Some o => authorizeResource a r DescribeOIDCConfig (oidcConfigResource o) [] | None => mret true end.

(** The reservation a create request names. *)
Definition requestedReservation (accountID reservationUID : string) : St World (result APIError (option (object KDNSReservation))) :=
  if String.eqb reservationUID "" then mret (Ok None)
  else
    d ← resolveDNSReservation accountID reservationUID;
    mret match d with Ok d => Ok (Some d) | Err e => Err e end.

(** The precheck of a queue against the account's clusters: the error to answer. *)
Definition queue_precheck (accountID queueURL region excludeName : string) (failed : APIError) : St World (option APIError) :=
  existing ← db.ListClusters accountID;
  mret match existing with
       | Err _ => Some failed
       | Ok existing =>
           match ValidateSpotTerminationHandlerQueueURL queueURL region (terminationHandlerQueueURLs existing excludeName) with
           | [] => None
           | errs => Some (WithErrors ErrClusterValidation (validation_payload errs))
           end
       end.

(** The clean-up after a failed create. *)
Definition deleteClusterForCleanup (accountID clusterName clusterUID : string) : Call unit :=
  RetryOnConflict IsConflict (
    current ← db.GetCluster accountID clusterName;
    match current with
    | Err e => mret (if IsNotFound e then Ok tt else Err e)
    | Ok current => if negb (String.eqb (uid_of current) clusterUID) then mret (Ok tt) else db.DeleteClusterObject accountID current
    end).

Definition updateManagedIssuerURL (accountID clusterName clusterUID issuerURL : string) : Call unit :=
  RetryOnConflict IsConflict (
    cluster ← db.GetCluster accountID clusterName;
    match cluster with
    | Err e => mret (Err e)
    | Ok cluster =>
        if negb (String.eqb (uid_of cluster) clusterUID) then mret (Err (OtherError "cluster UID changed during create"))
        else
          u ← db.UpdateCluster accountID (set_IssuerURL issuerURL cluster);
          mret match u with Ok _ => Ok tt | Err e => Err e end
    end).

Definition cleanup_then (accountID clusterName clusterUID : string) (e : APIError) : St World (result APIError (object KCluster)) :=
  _ ← deleteClusterForCleanup accountID clusterName clusterUID; mret (Err e).

(** The last step: the latest version of the cluster is answered. *)
Definition latest_cluster (accountID clusterName : string) (cluster : object KCluster) : St World (result APIError (object KCluster)) :=
  latest ← db.GetCluster accountID clusterName;
  mret (Ok match latest with Ok latest => latest | Err _ => cluster end).

Definition claim_oidc_step (accountID clusterName : string) (cluster : object KCluster) (oidc : option (object KOidcConfig)) : St World (result APIError (object KCluster)) :=
  match oidc with
  | None => latest_cluster accountID clusterName cluster
  | Some oidc =>
      claimed ← claimOidcConfig accountID (uid_of oidc) (uid_of cluster);
      match claimed with
      | Some e => cleanup_then accountID clusterName (uid_of cluster) e
      | None =>
          t ← db.read_clock;
          _ ← db.UpdateOidcConfigLastUsedTimestamp accountID (uid_of oidc) t;
          latest_cluster accountID clusterName cluster
      end
  end.

Definition claim_dns_step (accountID clusterName : string) (cluster : object KCluster) (dns : option (object KDNSReservation))
    (oidc : option (object KOidcConfig)) : St World (result APIError (object KCluster)) :=
  match dns with
  | None => claim_oidc_step accountID clusterName cluster oidc
  | Some dns =>
      claimed ← claimDNSReservation accountID (uid_of dns) (uid_of cluster);
      match claimed with
      | Some e => cleanup_then accountID clusterName (uid_of cluster) e
      | None => claim_oidc_step accountID clusterName cluster oidc
      end
  end.

Definition completeClusterCreate (h : ClusterHandler) (accountID clusterName : string) (cluster : object KCluster)
    (dns : option (object KDNSReservation)) (oidc : option (object KOidcConfig)) : St World (result APIError (object KCluster)) :=
  if match oidc with None => negb (String.eqb (ch_issuerBaseURL h) "") | Some _ => false end then
    let issuerURL := trim_right (ch_issuerBaseURL h) "/" +:+ "/" +:+ uid_of cluster in
    u ← updateManagedIssuerURL accountID clusterName (uid_of cluster) issuerURL;
    match u with
    | Err _ => cleanup_then accountID clusterName (uid_of cluster) ErrClusterCreateFailed
    | Ok _ => claim_dns_step accountID clusterName (set_IssuerURL issuerURL cluster) dns oidc
    end
  else claim_dns_step accountID clusterName cluster dns oidc.

(** The release of a queue this request reserved. *)
Definition release_claim (queueClaimCreated : bool) (accountID queueURL clusterName : string) : St HState unit :=
  if queueClaimCreated then _ ← call (db.ReleaseSpotTerminationQueue accountID queueURL clusterName); mret tt else mret tt.

Definition queue_in_use : APIError := WithErrors ErrClusterValidation (validation_payload SpotTerminationHandlerQueueAlreadyInUse).

(** The effects of a create: the queue's claim, the cluster, the claims. *)
Definition store_cluster (h : ClusterHandler) (accountID queueURL : string) (cr : object KCluster)
    (dns : option (object KDNSReservation)) (oidc : option (object KOidcConfig)) : St HState unit :=
  let name := om_Name (meta cr) in
  claimed ← (if String.eqb queueURL "" then mret (Ok false) else call (db.ClaimSpotTerminationQueue accountID queueURL name));
  match claimed with
  | Err e => writeAPIError (if IsAlreadyExists e then queue_in_use else ErrClusterCreateFailed)
  | Ok queueClaimCreated =>
      c ← call (db.CreateCluster accountID cr);
      match c with
      | Err e =>
          _ ← release_claim queueClaimCreated accountID queueURL name;
          writeAPIError (if IsAlreadyExists e then with_reason ErrClusterCreateNameConflict name else ErrClusterCreateFailed)
      | Ok cr =>
          completed ← on_world (completeClusterCreate h accountID name cr dns oidc);
          match completed with
          | Err e => _ ← release_claim queueClaimCreated accountID queueURL name; writeAPIError e
          | Ok cr => api_Write 201 (Some (Some (public_json KCluster cr)))
          end
      end
  end.

(** From the authorized request and its references on. *)
Definition create_cluster (h : ClusterHandler) (r : Request) (m : ObjectMeta) (p : PublicClusterSpec)
    (dns : option (object KDNSReservation)) (oidc : option (object KOidcConfig)) : St HState unit :=
  let '(queueURL, region) := requestedTerminationHandlerQueue (hc_AWS (pc_HostedCluster p)) in
  refused ← (if String.eqb queueURL "" then mret None else on_world (queue_precheck (r_account r) queueURL region "" ErrClusterCreateNameCheck));
  match refused with
  | Some e => writeAPIError e
  | None =>
      t ← observe now;
      match cluster_candidate h (r_account r) (r_caller r) t m p dns oidc with
      | None => writeAPIError ErrClusterCreateDNSReservationNotReady
      | Some cr => store_cluster h (r_account r) queueURL cr dns oidc
      end
  end.

Definition cluster_Create (h : ClusterHandler) (a : Authorizer) (r : Request) (body : Decoded (ObjectMeta * PublicClusterSpec)) : St HState unit :=
  let r := withAuthzOutcome r in
  if negb (body_read body) then writeAPIError ErrClusterCreateInvalidBody
  else match decodeClusterCreateRequest (r_account r) body with
  | Err e => writeAPIError e
  | Ok (m, p) =>
      allowed ← authorizeCreate a r m p;
      if negb allowed then mret tt
      else
        dns ← on_world (requestedReservation (r_account r) (pc_DNSReservationID p));
        match dns with
        | Err e => writeAPIError e
        | Ok dns =>
            oidc ← on_world (resolveOidcConfig (r_account r) (pc_OidcConfigID p));
            match oidc with
            | Err e => writeAPIError e
            | Ok oidc =>
                allowed ← authorizeReferences a r dns oidc;
                if negb allowed then mret tt else create_cluster h r m p dns oidc
            end
        end
  end.

(** ** Update *)

(** An update's body: whether it was read, the namespace its envelope names ([None] when
    it does not decode), the text of [spec] and its members ([None] when it is not an
    object; none for null). *)
Record UpdateBody := mkUpdateBody {
  ub_read : bool;
  ub_namespace : option string;
  ub_specText : string;
  ub_members : option (list (string * json))
}.

(** The decoded map of the members. *)
Definition raw_of (members : list (string * json)) : option (list (string * json)) :=
  match go_any (JObj members) with Some (JObj l) => Some l | _ => None end.

Definition clusterTagsSupplied (rawSpec : list (string * json)) : bool :=
  match obj_lookup "tags" rawSpec with Some _ => true | None => false end.

(** The budget errors of one of the cluster's pools. *)
Definition pool_tag_errors (cluster : object KCluster) (np : object KNodePool) : list FieldValidator.ValidationError :=
  if negb (String.eqb (np_ClusterName (np_NodePool (spec np))) (om_Name (meta cluster))) &&
     negb (HasPrefix (om_Name (meta np)) (om_Name (meta cluster) +:+ "."))
  then []
  else (fun e => FieldValidator.mkError (FieldValidator.Field e)
                   ("NodePool " +:+ Quote (om_Name (meta np)) +:+ ": " +:+ FieldValidator.Reason e)) <$>
       ValidateNodePoolAWSTagBudget (cl_Tags (spec cluster)) (np_Tags (spec np)) "spec.tags".

Definition validateUpdatedClusterTags (accountID : string) (cluster : object KCluster) : Call (list FieldValidator.ValidationError) :=
  match (ValidateCustomerAWSTags (cl_Tags (spec cluster)) "spec.tags" ++ ValidateClusterAWSTagBudget (cl_Tags (spec cluster)))%list with
  | (_ :: _) as errs => mret (Ok errs)
  | [] => db.and_then (db.ListNodePools accountID (uid_of cluster)) (fun pools => mret (Ok (mjoin (pool_tag_errors cluster <$> pools))))
  end.

(** An error the attempt answers. *)
Definition reply {A} (e : APIError) : St HState (result attempt_err A) := answer (writeAPIError e).
Definition reply_invalid {A} (def : APIError) (errs : list FieldValidator.ValidationError) : St HState (result attempt_err A) :=
  reply (WithErrors def (validation_payload errs)).

(** The write that ends an attempt. *)
Definition update_write {k} (write : Call (object k)) (notFound failed : APIError) : St HState (result attempt_err (object k)) :=
  u ← call write;
  match u with
  | Ok updated => mret (Ok updated)
  | Err e => if IsConflict e then mret (Err (StoreErr e)) else reply (if IsNotFound e then notFound else failed)
  end.

(** The tags of an authorized candidate; [None] when they may be written. *)
Definition check_tags {A} (given : bool) (validate : Call (list FieldValidator.ValidationError)) (invalid failed : APIError) :
    St HState (option (result attempt_err A)) :=
  if given then
    v ← call validate;
    match v with
    | Ok [] => mret None
    | Ok errs => r ← reply_invalid invalid errs; mret (Some r)
    | Err _ => r ← reply failed; mret (Some r)
    end
  else mret None.

(** The claim of a queue the candidate names anew; [None] when it may be written. *)
Definition update_queue {A} (accountID clusterName : string) (cr candidate : object KCluster) : St HState (option (result attempt_err A)) :=
  let '(queueURL, region) := clusterTerminationHandlerQueue candidate in
  if bool_decide (clusterTerminationHandlerQueue candidate = clusterTerminationHandlerQueue cr) || String.eqb queueURL "" then mret None
  else
    refused ← on_world (queue_precheck accountID queueURL region (om_Name (meta cr)) ErrClusterUpdateFailed);
    match refused with
    | Some e => r ← reply e; mret (Some r)
    | None =>
        c ← call (db.ClaimSpotTerminationQueue accountID queueURL clusterName);
        match c with
        | Ok _ => mret None
        | Err e => r ← reply (if IsAlreadyExists e then queue_in_use else ErrClusterUpdateFailed); mret (Some r)
        end
    end.

(** The candidate of a stored cluster: the merged spec with the service-set fields of
    the stored one. *)
Definition merged {k} (kind : string) (members : list (string * json)) (cr : object k) (invalid failed : APIError) : result APIError (object k) :=
  match MergeSpecJSON members (spec cr) with
  | None => Err invalid
  | Some s => match preserve kind s (spec cr) with Err _ => Err failed | Ok s => Ok (with_spec s cr) end
  end.

Definition cluster_updateOnce (a : Authorizer) (r : Request) (rawSpec members : list (string * json)) : St HState (result attempt_err (object KCluster)) :=
  g ← call (db.GetCluster (r_account r) (r_id r));
  match g with
  | Err e => reply (if IsNotFound e then ErrClusterUpdateNotFound else ErrClusterUpdateFailed)
  | Ok cr =>
      allowed ← authorizeResource a r UpdateCluster (clusterResource cr) [];
      if negb allowed then mret (Err Responded)
      else match ValidateUpdate "Cluster" rawSpec (spec cr) with
      | (_ :: _) as errs => reply_invalid ErrClusterValidation errs
      | [] =>
          match merged "Cluster" members cr ErrClusterUpdateInvalidSpec ErrClusterUpdateFailed with
          | Err e => reply e
          | Ok candidate =>
              allowed ← authorizeResource a r UpdateCluster (clusterResource cr) (clusterUpdateActions (spec cr) (spec candidate));
              if negb allowed then mret (Err Responded)
              else
                tags ← check_tags (clusterTagsSupplied rawSpec) (validateUpdatedClusterTags (r_account r) candidate) ErrClusterValidation ErrClusterUpdateFailed;
                match tags with
                | Some r => mret r
                | None =>
                    queue ← update_queue (r_account r) (r_id r) cr candidate;
                    match queue with
                    | Some r => mret r
                    | None => update_write (db.UpdateCluster (r_account r) candidate) ErrClusterUpdateNotFound ErrClusterUpdateFailed
                    end
                end
          end
      end
  end.

(** The checks of an update's body: the decoded map and the members of its spec. *)
Definition cluster_update_request (accountID : string) (body : UpdateBody) : result APIError (list (string * json) * list (string * json)) :=
  if negb (ub_read body) then Err ErrClusterUpdateInvalidBody
  else match ub_namespace body with
  | None => Err ErrClusterUpdateInvalidBody
  | Some ns =>
      if negb (ValidateAccountNamespace ns accountID) then Err ErrClusterUpdateNamespaceMismatch
      else if String.eqb (ub_specText body) "" || String.eqb (ub_specText body) "{}" then Err ErrClusterUpdateMissingFields
      else match ub_members body with
      | None => Err ErrClusterUpdateInvalidBody
      | Some members =>
          match raw_of members with
          | None => Err ErrClusterUpdateInvalidBody
          | Some [] => Err ErrClusterUpdateMissingFields
          | Some raw => Ok (raw, members)
          end
      end
  end.

(** The retried attempts and the answer. *)
Definition update_handler {k} (attempt : St HState (result attempt_err (object k))) (conflict : APIError) : St HState unit :=
  u ← RetryOnConflict attempt_conflict attempt;
  match u with
  | Err Responded => mret tt
  | Err (StoreErr _) => writeAPIError conflict
  | Ok updated => api_Write 200 (Some (Some (public_json k updated)))
  end.

Definition cluster_Update (a : Authorizer) (r : Request) (body : UpdateBody) : St HState unit :=
  match cluster_update_request (r_account r) body with
  | Err e => writeAPIError e
  | Ok (raw, members) => update_handler (cluster_updateOnce a (withAuthzOutcome r) raw members) ErrClusterUpdateConflict
  end.

End handlers.

(** Keys of [spec] in another case reach the merged spec, and are not seen as tags. *)
Theorem tags_key_case :
  clusterTagsSupplied [("Tags", JObj [("aws:x", JStr "")])] = false ∧
  supplied "tags" [("Tags", JObj [("aws:x", JStr "")])] = Some (JObj [("aws:x", JStr "")]).
Proof. split; reflexivity. Qed.
