(* ===== verification/NodePools.v ===== *)
(** * Node pools (pkg/handlers/nodepool.go)

    The handlers of node pools: the list with its cluster filter, the create with its
    parent, the retried update, get and delete; and their conversion
    (clients/seaplanedb/convert.go). A pool is authorized on its current owned parent
    (resource_authz.go). *)
From S2P Require Import Prelude GoStrings Json Selectors Uuid Cidr FieldPaths AwsArn FieldValidator Preserve AuthzModel Arn Authorizer StateM HttpApi ApiTypes KubeClient ApiClient Handlers Claims Labels ClusterValidation AccountObjects Clusters.
From stdpp Require Import base gmap strings list.
From Stdlib Require Import ZArith Lia Ascii String.
Open Scope string_scope.

(** [labels.Parse] of a selector. *)
Class LabelParser := { labels_Parse : string → option Selectors.LabelSelector }.

(** ** Conversion *)
Section conversion.
Context `{SpecCodec}.

(** The fields of [public.NodePoolSpec]. *)
Record PublicNodePoolSpec := mkPublicPool {
  pp_AutoRepair : option bool;
  pp_HttpTokens : string;
  pp_Labels : gmap string string;
  pp_Tags : gmap string string;
  pp_NodePool : NodePoolPassthrough;
  pp_Rest : NodePoolRest;
  pp_Fields : FieldValidator.Spec
}.

(** [UnprojectNodePool] with the labels restored and [syncNodePoolPassthrough]. *)
Definition unprojected (p : PublicNodePoolSpec) (accountID internalPoolID : string) : NodePoolSpec :=
  let n := pp_NodePool p in
  mkNodePoolSpec accountID internalPoolID (pp_AutoRepair p) (pp_Labels p) (pp_Tags p) (pp_HttpTokens p)
    (mkNodePoolPassthrough (np_ClusterName n) (np_Replicas n) (np_AutoScaling n) (np_Release n) (pp_Labels p) (default true (pp_AutoRepair p)))
    (pp_Rest p).

Definition PublicToInternalNodePool (m : ObjectMeta) (p : PublicNodePoolSpec) (accountID internalPoolID : string) : object KNodePool :=
  mkObj KNodePool (customerObjectMeta m accountID) (unprojected p accountID internalPoolID) (zero_Status KNodePool).

(** The pool a create request stores under [cluster]. *)
Definition pool_candidate (m : ObjectMeta) (p : PublicNodePoolSpec) (accountID internalPoolID : string) (cluster : object KCluster) : object KNodePool :=
  let cr := PublicToInternalNodePool m p accountID internalPoolID in
  let s := spec cr in let n := np_NodePool s in
  with_meta (fun m => set_owners [mkOwnerRef "Cluster" (om_Name (meta cluster)) (uid_of cluster) true]
                        (set_labels (<[ClusterUIDLabel := uid_of cluster]> (om_Labels m)) m))
    (with_spec (k := KNodePool)
       (mkNodePoolSpec (np_AccountID s) (np_InternalPoolID s) (np_TopAutoRepair s) (np_Labels s) (np_Tags s) (np_HttpTokens s)
          (mkNodePoolPassthrough (om_Name (meta cluster)) (np_Replicas n) (np_AutoScaling n) (np_Release n) (np_NodeLabels n) (np_AutoRepair n))
          (np_Rest s)) cr).
End conversion.

Section handlers.
Context `{NameValidation, ArnParser, CedarEngine, KubeClient, !Clock, Retry, Fmt, !PublicViews, Digest, !SpecCodec, Codegen, CidrTexts, TagTable, LabelParser, UuidCodec}.

(** ** Reads *)
Definition first_non_empty (a b : string) : string := if String.eqb a "" then b else a.

Definition selected_uid (selector : string) : option string :=
  match labels_Parse selector with
  | Some (Selectors.Requirements [rq]) =>
      if String.eqb (Selectors.rq_Key rq) ClusterUIDLabel && match Selectors.rq_Operator rq with Selectors.Equals | Selectors.DoubleEquals => true | _ => false end
      then match Selectors.rq_Values rq with [uid] => Some uid | _ => None end
      else None
  | _ => None
  end.

Definition canonical_uid (uid : string) : bool :=
  match uuid_Parse uid with Some u => String.eqb (uuid_String u) uid | None => false end.

Definition listClusterUID (r : Request) : result APIError string :=
  let clusterUID := query r "clusterUID" in
  let clusterID := query r "clusterId" in
  if negb (String.eqb clusterUID "") && negb (String.eqb clusterID "") && negb (String.eqb clusterUID clusterID) then Err ErrNodePoolListInvalidClusterUID
  else
    let clusterUID := first_non_empty clusterUID clusterID in
    let selector := query r "labelSelector" in
    let selected :=
      if String.eqb selector "" then Ok clusterUID
      else match selected_uid selector with
           | None => Err ErrNodePoolListInvalidLabelSelector
           | Some uid => if negb (String.eqb clusterUID "") && negb (String.eqb clusterUID uid) then Err ErrNodePoolListInvalidLabelSelector else Ok uid
           end in
    match selected with
    | Err e => Err e
    | Ok uid => if negb (String.eqb uid "") && negb (canonical_uid uid) then Err ErrNodePoolListInvalidClusterUID else Ok uid
    end.

(** A page beyond the end is a nil slice, which encodes to null. *)
Definition pool_list_response (items : list (object KNodePool)) (limit offset : Z) : json :=
  let page := if (Z.of_nat (List.length items) <=? offset)%Z then JNull else JArr (public_json KNodePool <$> page_slice items limit offset) in
  JObj [("items", page); ("limit", JNum limit); ("offset", JNum offset); ("total", JNum (Z.of_nat (List.length items)))].

Definition nodepool_List (a : Authorizer) (r : Request) : St HState unit :=
  match listClusterUID r with
  | Err e => writeAPIError e
  | Ok clusterUID =>
      prepared ← authorizeCollection a r ListNodePools (collectionResource NodePool (r_account r));
      match prepared with
      | None => mret tt
      | Some _ =>
          l ← call (db.ListNodePools (r_account r) clusterUID);
          match l with
          | Err _ => writeAPIError ErrNodePoolList
          | Ok items =>
              api_Write 200 (Some (Some (pool_list_response items (parsePositiveInt (query r "limit") 50 100) (parseNonNegativeInt (query r "offset")))))
          end
      end
  end.

Definition nodepool_Get (a : Authorizer) (r : Request) : St HState unit :=
  g ← call (db.GetNodePool (r_account r) (r_id r));
  match g with
  | Err e => writeAPIError (if IsNotFound e then ErrNodePoolGetNotFound else ErrNodePoolGetFailed)
  | Ok cr =>
      allowed ← authorizeNodePool a r DescribeNodePool cr [];
      if (allowed : bool) then api_Write 200 (Some (Some (public_json KNodePool cr))) else mret tt
  end.

(** ** Create *)

(** A create body: the decoded pool and its members, through two decoders. *)
Record PoolBody := mkPoolBody {
  pb_read : bool;
  pb_value : option (ObjectMeta * PublicNodePoolSpec);
  pb_raw : option (list (string * json))
}.

Definition set_pool_defaults (clusterName : string) (raw : list (string * json)) (p : PublicNodePoolSpec) : PublicNodePoolSpec :=
  let n := pp_NodePool p in
  mkPublicPool (pp_AutoRepair p)
    (if FieldPaths.HasJSONField (Some (JObj raw)) "spec.ec2InstanceMetadataHttpTokens" then pp_HttpTokens p else EC2InstanceMetadataHttpTokensRequired)
    (pp_Labels p) (pp_Tags p)
    (mkNodePoolPassthrough clusterName (np_Replicas n) (np_AutoScaling n) (np_Release n) (np_NodeLabels n) (np_AutoRepair n))
    (pp_Rest p) (pp_Fields p).

(** The checks up to the parent's lookup: the parent's name and the request. The
    validator sees the fields with the defaults set ([with_defaults]). *)
Definition nodepool_create_request (accountID : string) (with_defaults : PublicNodePoolSpec → FieldValidator.Spec) (body : PoolBody) :
    result APIError (string * ObjectMeta * PublicNodePoolSpec) :=
  if negb (pb_read body) then Err ErrNodePoolCreateInvalidBody
  else match pb_value body, pb_raw body with
  | None, _ | _, None => Err ErrNodePoolCreateInvalidBody
  | Some (m, p), Some raw =>
      if String.eqb (om_Name m) "" then Err ErrNodePoolCreateMissingFields
      else if negb (ValidateAccountNamespace (om_Namespace m) accountID) then Err ErrNodePoolCreateInvalidNamespace
      else match ParseNodePoolName (om_Name m) with
      | None => Err ErrNodePoolCreateInvalidName
      | Some (clusterName, _) =>
          let p := set_pool_defaults clusterName raw p in
          match (ValidateCreate "NodePool" (with_defaults p) ++ validateNodePoolReplicas (np_Replicas (pp_NodePool p)) ++
                 ValidateCustomerAWSTags (pp_Tags p) "spec.tags" ++ validateNodePoolEC2InstanceMetadataHttpTokens (pp_HttpTokens p))%list with
          | (_ :: _) as errs => Err (WithErrors ErrNodePoolValidation (validation_payload errs))
          | [] => Ok (clusterName, m, p)
          end
      end
  end.

Definition nodepool_Create (a : Authorizer) (r : Request) (with_defaults : PublicNodePoolSpec → FieldValidator.Spec) (newID : World → string) (body : PoolBody) : St HState unit :=
  match nodepool_create_request (r_account r) with_defaults body with
  | Err e => writeAPIError e
  | Ok (clusterName, m, p) =>
      g ← call (db.GetCluster (r_account r) clusterName);
      match (g : result kerr (object KCluster)) with
      | Err e => writeAPIError (if IsNotFound e then ErrNodePoolCreateClusterNotFound else ErrNodePoolCreateClusterCheck)
      | Ok cluster =>
          if negb (bool_decide (om_DeletionTimestamp (meta cluster) = None)) then writeAPIError ErrNodePoolCreateClusterDeleting
          else match ValidateNodePoolAWSTagBudget (cl_Tags (spec cluster)) (pp_Tags p) "spec.tags" with
          | (_ :: _) as errs => writeAPIError (WithErrors ErrNodePoolValidation (validation_payload errs))
          | [] =>
              internalPoolID ← observe newID;
              match validateCreateLabels (om_Annotations m) with
              | Some e => writeAPIError e
              | None =>
                  let cr := pool_candidate m p (r_account r) internalPoolID cluster in
                  allowed ← authorizeNodePool a (withRequestLabels (om_Annotations (meta cr)) r) CreateNodePool cr [];
                  if negb allowed then mret tt
                  else
                    c ← call (db.CreateNodePool (r_account r) cr);
                    match c with
                    | Err e => writeAPIError (if IsAlreadyExists e then ErrNodePoolCreateNameConflict else ErrNodePoolCreateFailed)
                    | Ok cr => api_Write 201 (Some (Some (public_json KNodePool cr)))
                    end
              end
          end
      end
  end.

(** ** Update *)
Definition nodePoolTagsSupplied (rawSpec : list (string * json)) : bool :=
  match obj_lookup "tags" rawSpec with Some _ => true | None => false end.

Definition unresolved (reason : string) : list FieldValidator.ValidationError := [FieldValidator.mkError "spec.tags" reason].

Definition validateUpdatedNodePoolTags (accountID : string) (np : object KNodePool) : Call (list FieldValidator.ValidationError) :=
  match ValidateCustomerAWSTags (np_Tags (spec np)) "spec.tags" with
  | (_ :: _) as errs => mret (Ok errs)
  | [] =>
      let named := np_ClusterName (np_NodePool (spec np)) in
      let clusterName := if String.eqb named "" then fst <$> ParseNodePoolName (om_Name (meta np)) else Some named in
      match clusterName with
      | None => mret (Ok (unresolved "unable to resolve the parent Cluster for tag budget validation"))
      | Some clusterName =>
          g ← db.GetCluster accountID clusterName;
          mret match (g : result kerr (object KCluster)) with
               | Ok cluster => Ok (ValidateNodePoolAWSTagBudget (cl_Tags (spec cluster)) (np_Tags (spec np)) "spec.tags")
               | Err e => if IsNotFound e then Ok (unresolved "parent Cluster must be available for tag budget validation") else Err e
               end
      end
  end.

Definition nodepool_updateOnce (a : Authorizer) (r : Request) (replicas : option Z) (rawSpec members : list (string * json)) :
    St HState (result attempt_err (object KNodePool)) :=
  g ← call (db.GetNodePool (r_account r) (r_id r));
  match g with
  | Err e => reply (if IsNotFound e then ErrNodePoolUpdateNotFound else ErrNodePoolUpdateFailed)
  | Ok cr =>
      allowed ← authorizeNodePool a r UpdateNodePool cr [];
      if negb allowed then mret (Err Responded)
      else match (ValidateUpdate "NodePool" rawSpec (spec cr) ++ validateNodePoolReplicas replicas)%list with
      | (_ :: _) as errs => reply_invalid ErrNodePoolValidation errs
      | [] =>
          match merged "NodePool" members cr ErrNodePoolUpdateInvalidSpec ErrNodePoolUpdateFailed with
          | Err e => reply e
          | Ok candidate =>
              allowed ← authorizeNodePool a r UpdateNodePool cr (nodePoolUpdateActions (spec cr) (spec candidate));
              if negb allowed then mret (Err Responded)
              else
                tags ← check_tags (nodePoolTagsSupplied rawSpec) (validateUpdatedNodePoolTags (r_account r) candidate) ErrNodePoolValidation ErrNodePoolUpdateFailed;
                match tags with
                | Some r => mret r
                | None => update_write (db.UpdateNodePool (r_account r) candidate) ErrNodePoolUpdateNotFound ErrNodePoolUpdateFailed
                end
          end
      end
  end.

(** [value] is the decoding of the whole body: its namespace and replicas. *)
Definition nodepool_update_request (accountID : string) (value : option (string * option Z)) (body : UpdateBody) :
    result APIError (option Z * list (string * json) * list (string * json)) :=
  if negb (ub_read body) then Err ErrNodePoolUpdateInvalidBody
  else match value with
  | None => Err ErrNodePoolUpdateInvalidBody
  | Some (ns, replicas) =>
      if negb (ValidateAccountNamespace ns accountID) then Err ErrNodePoolUpdateInvalidNamespace
      else match ub_members body with
      | None => Err ErrNodePoolUpdateInvalidBody
      | Some members =>
          match raw_of members with
          | None => Err ErrNodePoolUpdateInvalidBody
          | Some [] => Err ErrNodePoolUpdateMissingFields
          | Some raw => Ok (replicas, raw, members)
          end
      end
  end.

Definition nodepool_Update (a : Authorizer) (r : Request) (value : option (string * option Z)) (body : UpdateBody) : St HState unit :=
  match nodepool_update_request (r_account r) value body with
  | Err e => writeAPIError e
  | Ok (replicas, raw, members) => update_handler (nodepool_updateOnce a (withAuthzOutcome r) replicas raw members) ErrNodePoolUpdateConflict
  end.

(** ** Delete *)
Definition nodepool_Delete (a : Authorizer) (r : Request) : St HState unit :=
  g ← call (db.GetNodePool (r_account r) (r_id r));
  match g with
  | Err e => writeAPIError (if IsNotFound e then ErrNodePoolDeleteNotFound else ErrNodePoolDeleteFailed)
  | Ok cr =>
      allowed ← authorizeNodePool a r DeleteNodePool cr [];
      if negb allowed then mret tt
      else
        d ← call (db.DeleteNodePoolObject (r_account r) cr);
        match d with
        | Err e => writeAPIError (if IsConflict e then ErrResourceConflict else if IsNotFound e then ErrNodePoolDeleteNotFound else ErrNodePoolDeleteFailed)
        | Ok _ => api_Write 202 (Some (Some (deleted_json "NodePool deletion initiated" "nodepool_name" (r_id r))))
        end
  end.
End handlers.
