(* ===== verification/SpotQueueProps.v ===== *)
(** * Reservations of Spot termination queues

    What a claim and a release of a queue do to the store, step by step: a claim creates
    the reservation, refreshes its own, or removes one that has expired and whose owner
    was not using the queue; a release removes its own, when its cluster is not using
    the queue. A claim that succeeds leaves the reservation in the cluster's name. *)
From S2P Require Import Prelude GoStrings Convert Authorizer StateM ApiTypes KubeClient ApiClient Handlers.
From stdpp Require Import base gmap strings list relations.
From Stdlib Require Import ZArith Lia String.
Open Scope string_scope.

Section spot.
Context `{KubeClientLaws, !Clock, Digest}.
Context (account queueURL clusterName : string).

Definition reservation_key : nsname := (SpotTerminationQueueReservationsNamespace, db.SpotTerminationQueueIndexName account queueURL).
Definition owner_key : string := db.spotQueueOwnerKey clusterName.

(** The cluster of an owner key, as the account's store has it, is gone or does not name
    the queue. *)
Definition unused (owner : string) (s : KState) : Prop :=
  match objs s KCluster !! (db.accountNamespace account, TrimPrefix owner db.spotQueueOwnerPrefix) with
  | None => True
  | Some c => db.clusterUsesSpotTerminationQueue c queueURL = false
  end.

(** What an answer to a request for the owner's cluster says of it. *)
Definition seen_unused (answer : result kerr (object KCluster)) : Prop :=
  match answer with
  | Ok c => db.clusterUsesSpotTerminationQueue c queueURL = false
  | Err e => IsNotFound e = true
  end.

(** The claim was made more than ten minutes before [t]. *)
Definition expired (t : Z) (e : object KIndex) : Prop :=
  ∃ claimedAt, time_Parse (map_get (om_Annotations (meta e)) SpotTerminationQueueClaimedAtAnnotation) = Some claimedAt ∧ (10 * minute < t - claimedAt)%Z.

(** The round that began in [w] finds the reservation [e]: its create is refused, and
    the reservation is read, in [w2]. *)
Definition found (w : World) (e : object KIndex) (w2 : World) : Prop := ∃ w1 err,
  kc_Create KIndex (db.reservation reservation_key.2 owner_key (now w)) w = (w1, Err err) ∧ IsAlreadyExists err = true ∧
  kc_Get KIndex reservation_key.1 reservation_key.2 w1 = (w2, Ok e).

(** What a round does, from the world it begins in to the one it ends in. *)
Inductive round_effect (w w' : World) : Prop :=
  | re_none : rtc interfere (state w) (state w') → round_effect w w'
  | re_create c mid uid rv t : kc_Create KIndex (db.reservation reservation_key.2 owner_key (now w)) w = (w', c) →
      rtc interfere (state w) mid → create_effect (db.reservation reservation_key.2 owner_key (now w)) uid rv t mid (state w') → round_effect w w'
  | re_refresh e w2 u mid rv g : found w e w2 → db.owner_label e = owner_key →
      kc_Update KIndex (db.refreshed e (now w2)) w2 = (w', u) → rtc interfere (state w2) mid → objs mid KIndex !! reservation_key = Some e →
      update_effect (db.refreshed e (now w2)) rv g mid (state w') → round_effect w w'
  | re_reclaim e w2 oc w3 d mid t rv : found w e w2 → db.owner_label e ≠ owner_key →
      db.GetCluster account (TrimPrefix (db.owner_label e) db.spotQueueOwnerPrefix) w2 = (w3, oc) → seen_unused oc → expired (now w3) e →
      kc_Delete KIndex e w3 = (w', d) → rtc interfere (state w3) mid → objs mid KIndex !! reservation_key = Some e →
      delete_effect e t rv mid (state w') → round_effect w w'.

(** The same on the store alone, which has no clock: a removed reservation had expired
    when its owner was seen not to use the queue. *)
Definition spot_step (s s' : KState) : Prop :=
  interfere s s' ∨
  (∃ t uid rv now, create_effect (db.reservation reservation_key.2 owner_key t) uid rv now s s') ∨
  (∃ e t rv g, key_of e = reservation_key ∧ objs s KIndex !! key_of e = Some e ∧ db.owner_label e = owner_key ∧
     update_effect (db.refreshed e t) rv g s s') ∨
  (∃ e (w0 : World) t rv, key_of e = reservation_key ∧ objs s KIndex !! key_of e = Some e ∧ db.owner_label e ≠ owner_key ∧
     unused (db.owner_label e) (state w0) ∧ expired (now w0) e ∧ rtc interfere (state w0) s ∧ delete_effect e t rv s s').

(** The queue is reserved in the cluster's name. *)
Definition reserved (s : KState) : Prop := ∃ e, objs s KIndex !! reservation_key = Some e ∧ db.owner_label e = owner_key.

Lemma spot_interference s s' : rtc interfere s s' → rtc spot_step s s'.
Proof. apply rtc_subrel. intros ???. by left. Qed.

Lemma read_clock_inv w w' t : db.read_clock w = (w', t) → w' = w.
Proof. by intros [= <- _]. Qed.

(** A snapshot is the stored object when a write under its version takes effect. *)
Lemma snapshot_at {k} s1 s2 key (o cur : object k) :
  wf s1 → rtc interfere s1 s2 → objs s1 k !! key = Some o → objs s2 k !! key_of o = Some cur → same_version cur o → key_of o = key ∧ objs s2 k !! key_of o = Some o.
Proof.
  intros Hwf Hi Ho Hcur Hv. pose proof (wf_key _ Hwf _ _ _ Ho) as Hk. split; [done|]. rewrite Hk in Ho.
  by assert (cur = o) as <- by (eapply (snapshot_current s1); [done|by apply interference_evolves|done..]).
Qed.

Lemma found_at w e w2 : found w e w2 → rtc interfere (state w) (state w2) ∧ objs (state w2) KIndex !! reservation_key = Some e.
Proof.
  intros (w1 & err & Ec & Ha & [Hi Hg]%Get_law). apply Create_law in Ec as (mid & Hm & Hr). split; [|exact Hg].
  destruct err; try done. rewrite <- Hr in Hm. by etrans.
Qed.

Lemma expired_spec t e : db.spotQueueClaimExpired t e = true → expired t e.
Proof. unfold db.spotQueueClaimExpired. destruct (time_Parse _) as [c|] eqn:Et; [|done]. intros Hc%Z.ltb_lt. by exists c. Qed.

Lemma seen_unused_at owner w w' oc : db.GetCluster account (TrimPrefix owner db.spotQueueOwnerPrefix) w = (w', oc) → seen_unused oc →
  rtc interfere (state w) (state w') ∧ unused owner (state w').
Proof. intros [Hi Hoc]%Get_law Hs. split; [done|]. unfold unused. destruct oc as [c|[]]; try done; by rewrite Hoc. Qed.

(** A reservation deleted under the version it was read in is the stored one. *)
Lemma deleted_read e w2 s mid t rv s' : objs (state w2) KIndex !! reservation_key = Some e → rtc interfere (state w2) s → rtc interfere s mid →
  delete_effect e t rv mid s' → key_of e = reservation_key ∧ objs mid KIndex !! key_of e = Some e.
Proof.
  intros Ho Hi Hm (cur & Hcur & Hv & _). pose proof (wf_version _ (state_wf w2) _ _ _ Ho) as Hver.
  eapply (snapshot_at (state w2)); [apply state_wf|by etrans|exact Ho|exact Hcur|]. apply Hv; lia.
Qed.

Lemma reclaim_spec w e w2 oc w3 createErr w' r : found w e w2 → db.owner_label e ≠ owner_key →
  db.GetCluster account (TrimPrefix (db.owner_label e) db.spotQueueOwnerPrefix) w2 = (w3, oc) → seen_unused oc →
  db.reclaim e createErr w3 = (w', r) → round_effect w w' ∧ (∀ b, r ≠ Some (Ok b)).
Proof.
  intros Hf Hown Eg Hun E. pose proof (found_at _ _ _ Hf) as [Hi Ho]. pose proof (seen_unused_at _ _ _ _ Eg Hun) as [Hi3 _].
  unfold db.reclaim in E. apply St_bind_inv in E as (w4 & t & [= <- <-] & E).
  destruct (db.spotQueueClaimExpired (now w3) e) eqn:Eexp; cbn [negb] in E; [|apply St_ret_inv in E as [-> ->]; split; [apply re_none; by etrans|done]].
  apply St_bind_inv in E as (w4 & d & Ed & [-> ->]%St_ret_inv).
  split; [|intros b; destruct d as [[]|k]; [done|by destruct (_ || _)]].
  pose proof Ed as (mid & Hm & [[Hs _]|(t & rv & He)])%Delete_effect; [apply re_none; rewrite Hs; etrans; [done|by etrans]|].
  pose proof (deleted_read _ _ _ _ _ _ _ Ho Hi3 Hm He) as [Hk Hst]. rewrite Hk in Hst. by eapply re_reclaim; eauto using expired_spec.
Qed.

Lemma claim_existing_spec w e w2 createErr w' r : found w e w2 → db.claim_existing account queueURL owner_key e createErr w2 = (w', r) →
  round_effect w w' ∧ (∀ b, r = Some (Ok b) → reserved (state w')).
Proof.
  intros Hf E. pose proof (found_at _ _ _ Hf) as [Hi Ho]. pose proof (state_wf w2) as Hwf.
  unfold db.claim_existing in E. destruct (String.eqb_spec (db.owner_label e) owner_key) as [Hown|Hown].
  - apply St_bind_inv in E as (w3 & t & [= <- <-] & E). apply St_bind_inv in E as (w4 & u & Eu & [-> ->]%St_ret_inv).
    pose proof Eu as (mid & Hm & [[Hs Hok]|(rv & g & He)])%Update_effect.
    + split; [apply re_none; rewrite Hs; by etrans|]. intros b. destruct u as [o|k]; [done|by destruct (IsConflict k)].
    + pose proof He as (cur & Hcur & Hv & _ & Hs). change (key_of (db.refreshed e (now w2))) with (key_of e) in Hcur.
      pose proof Hcur as Hk. eapply (snapshot_at (state w2) mid reservation_key e cur) in Hk as [Hk Hst]; [|done..].
      assert (cur = e) as -> by congruence. rewrite Hk in Hst. split; [by eapply re_refresh|].
      assert (Hl : gone e = false) by (by eapply wf_live). intros b _. rewrite Hs, settle_put by done. eexists. rewrite put_same.
      change (key_of (updated e (db.refreshed e (now w2)) rv g)) with (key_of e). rewrite Hk, lookup_insert_eq. split; [done|]. exact Hown.
  - destruct (_ || _); [apply St_ret_inv in E as [-> ->]; split; [by apply re_none|done]|]. apply St_bind_inv in E as (w3 & oc & Eo & E).
    pose proof Eo as [Hi3 _]%Get_law.
    assert (Hre : seen_unused oc → db.reclaim e createErr w3 = (w', r) → round_effect w w' ∧ (∀ b, r = Some (Ok b) → reserved (state w'))).
    { intros Hun E2. apply (reclaim_spec w e w2 oc) in E2 as [Hs Hr]; [|done..]. split; [done|]. intros b ->. by destruct (Hr b). }
    destruct oc as [c|k].
    + destruct (db.clusterUsesSpotTerminationQueue c queueURL) eqn:Eu; [apply St_ret_inv in E as [-> ->]; split; [apply re_none; by etrans|done]|by apply Hre].
    + destruct (IsNotFound k) eqn:Ek; [by apply Hre|]. apply St_ret_inv in E as [-> ->]. split; [apply re_none; by etrans|done].
Qed.

Lemma claim_round_spec w w' r : db.claim_round account queueURL clusterName w = (w', r) →
  round_effect w w' ∧ (∀ b, r.1 = Some (Ok b) → reserved (state w')).
Proof.
  intros E. unfold db.claim_round in E. apply St_bind_inv in E as (w0 & t & [= <- <-] & E). apply St_bind_inv in E as (w1 & c & Ec & E).
  pose proof Ec as (mid & Hm & Hc)%Create_effect.
  assert (Hs1 : round_effect w w1) by (destruct Hc as [[Hs _]|(uid & rv & t & He)]; [apply re_none; by rewrite Hs|exact (re_create _ _ _ _ _ _ _ Ec Hm He)]).
  destruct c as [o|err].
  - apply St_ret_inv in E as [-> ->]. split; [done|]. intros b _. destruct Hc as [[_ ?]|(uid & rv & t & _ & _ & _ & _ & ->)]; [done|].
    eexists. split; [change (objs (use uid ?x)) with (objs x); rewrite put_same; by rewrite lookup_insert_eq|].
    unfold db.owner_label, map_get. simpl. by rewrite lookup_singleton_eq.
  - destruct (IsAlreadyExists err) eqn:Ea; cbn [negb] in E; [|by apply St_ret_inv in E as [-> ->]].
    apply St_bind_inv in E as (w2 & g & Eg & E). destruct g as [e|k].
    + apply St_bind_inv in E as (w3 & x & Ex & [-> ->]%St_ret_inv). eapply claim_existing_spec; [|exact Ex]. by exists w1, err.
    + apply St_ret_inv in E as [-> ->]. split; [|intros b; simpl; by destruct (IsNotFound k)].
      apply re_none. apply Get_law in Eg as [Hi _]. 
      apply Create_law in Ec as (mid' & Hm' & Hr). destruct err; try done. rewrite <- Hr in Hm'. by etrans; [exact Hm'|].
Qed.

Lemma claim_effects w w' r : db.ClaimSpotTerminationQueue account queueURL clusterName w = (w', r) →
  rtc round_effect w w' ∧ (is_ok r = true → reserved (state w')).
Proof.
  unfold db.ClaimSpotTerminationQueue. generalize (None : option kerr). set (rounds := 5). clearbody rounds.
  revert w. induction rounds as [|n IH]; intros w last E; cbn [db.claim_loop] in E; [by apply St_ret_inv in E as [-> ->]|].
  apply St_bind_inv in E as (w1 & [x c] & E1 & E). apply claim_round_spec in E1 as [Hs Hr].
  destruct x as [x|]; [apply St_ret_inv in E as [-> ->]; split; [by apply rtc_once|]; destruct x as [b|]; [by eauto|done]|].
  apply IH in E as [Hs2 Hr2]. split; [by eapply rtc_l|done].
Qed.

Lemma round_steps w w' : round_effect w w' → rtc spot_step (state w) (state w').
Proof.
  intros [Hi|c mid uid rv t _ Hm He|e w2 u mid rv g Hf Hown _ Hm Hst He|e w2 oc w3 d mid t rv Hf Hown Eg Hun Hx _ Hm Hst He].
  - by apply spot_interference.
  - eapply rtc_r; [by apply spot_interference|]. right. left. by exists (now w), uid, rv, t.
  - apply found_at in Hf as [Hi Ho]. pose proof (wf_key _ (state_wf w2) _ _ _ Ho) as Hk.
    eapply rtc_r; [apply spot_interference; by etrans|]. right. right. left. exists e, (now w2), rv, g. by rewrite <- Hk.
  - apply found_at in Hf as [Hi Ho]. pose proof (wf_key _ (state_wf w2) _ _ _ Ho) as Hk. apply (seen_unused_at _ _ _ _ Eg) in Hun as [Hi3 Hun].
    eapply rtc_r; [apply spot_interference; etrans; [done|by etrans]|]. do 3 right. exists e, w3, t, rv. by rewrite <- Hk.
Qed.

Lemma ClaimSpot_spec w w' r : db.ClaimSpotTerminationQueue account queueURL clusterName w = (w', r) →
  rtc spot_step (state w) (state w') ∧ (is_ok r = true → reserved (state w')).
Proof.
  intros [Hs Hr]%claim_effects. split; [|done]. clear Hr. induction Hs as [w|w w1 w2 Hm _ IH]; [done|]. etrans; [by apply round_steps|done].
Qed.

(** What a release does: nothing, or it removes the reservation it read, in the
    cluster's name, its cluster seen not to use the queue after. *)
Inductive release_effect (w w' : World) : Prop :=
  | rl_none : rtc interfere (state w) (state w') → release_effect w w'
  | rl_delete e w1 oc w2 d mid t rv : kc_Get KIndex reservation_key.1 reservation_key.2 w = (w1, Ok e) → db.owner_label e = owner_key →
      db.GetCluster account clusterName w1 = (w2, oc) → seen_unused oc → kc_Delete KIndex e w2 = (w', d) →
      rtc interfere (state w2) mid → objs mid KIndex !! reservation_key = Some e → delete_effect e t rv mid (state w') → release_effect w w'.

Lemma ReleaseSpot_spec w w' r : db.ReleaseSpotTerminationQueue account queueURL clusterName w = (w', r) → release_effect w w'.
Proof.
  unfold db.ReleaseSpotTerminationQueue. intros (w1 & g & Eg & E)%St_bind_inv. pose proof Eg as [Hi Hg]%Get_law.
  destruct g as [e|k]; [|apply St_ret_inv in E as [-> ->]; by apply rl_none].
  destruct (String.eqb_spec (db.owner_label e) (db.spotQueueOwnerKey clusterName)) as [Hown|]; [|apply St_ret_inv in E as [-> ->]; by apply rl_none].
  cbn [negb] in E. apply St_bind_inv in E as (w2 & oc & Eo & E). pose proof Eo as [Hi2 _]%Get_law.
  assert (Hrel : seen_unused oc → db.release e w2 = (w', r) → release_effect w w').
  { intros Hun (w4 & d & Ed & [-> ->]%St_ret_inv)%St_bind_inv. pose proof Ed as (mid & Hm & [[Hs _]|(t & rv & He)])%Delete_effect.
    - apply rl_none. rewrite Hs. etrans; [done|]. by etrans.
    - pose proof (deleted_read e w1 _ _ _ _ _ Hg Hi2 Hm He) as [Hk Hst]. rewrite Hk in Hst. by eapply rl_delete. }
  destruct oc as [c|k].
  - destruct (db.clusterUsesSpotTerminationQueue c queueURL) eqn:Eu; [apply St_ret_inv in E as [-> ->]; apply rl_none; by etrans|by apply Hrel].
  - destruct (IsNotFound k) eqn:Ek; [by apply Hrel|]. apply St_ret_inv in E as [-> ->]. apply rl_none. by etrans.
Qed.

(** C33: A claim of a Spot termination queue is a run of rounds, and whatever a round does
    to the store is one of: create the reservation in its cluster's name, claimed now;
    refresh the reservation it found already held by the cluster, claimed now; remove the
    reservation it found in another cluster's name, which was claimed more than ten
    minutes before the clock at the check and whose owner it had just asked for and seen
    gone or not using the queue. What is refreshed or removed is the version it read.
    When the claim succeeds the queue is reserved in the cluster's name. A release
    removes the reservation only when it read it in the cluster's name and then saw the
    cluster gone or not using the queue. *)
Theorem spot_queue_refines w :
  (rtc round_effect w (db.ClaimSpotTerminationQueue account queueURL clusterName w).1 ∧
   (is_ok (db.ClaimSpotTerminationQueue account queueURL clusterName w).2 = true →
    reserved (state (db.ClaimSpotTerminationQueue account queueURL clusterName w).1))) ∧
  release_effect w (db.ReleaseSpotTerminationQueue account queueURL clusterName w).1.
Proof. split; [eapply claim_effects|eapply ReleaseSpot_spec]; apply surjective_pairing. Qed.
End spot.
