(* ===== verification/Server.v ===== *)
(** * The API server (pkg/server/server.go, pkg/middleware, handlers/health.go, info.go)

    From the route on that gorilla/mux matched: the gateway's identity, the limit of the
    body, the allowlist, admission, and the handler of the operation. The rate limiter in
    front of admission is RateLimit.v. *)
From S2P Require Import Prelude GoStrings Json Selectors Uuid AwsArn FieldValidator AuthzModel Arn Authorizer StateM HttpApi ApiTypes KubeClient ApiClient Handlers Claims Labels ClusterValidation AccountObjects Clusters NodePools.
From stdpp Require Import base gmap strings list.
From Stdlib Require Import ZArith Lia Ascii String.
Open Scope string_scope.

(** ** Routes *)
Inductive Route :=
| R_accounts | R_account
| R_clusters | R_cluster | R_cluster_labels
| R_nodepools | R_nodepool | R_nodepool_labels
| R_oidc_configs | R_oidc_config | R_oidc_config_labels
| R_dns_reservations | R_dns_reservation | R_dns_reservation_labels
| R_live | R_ready | R_info.

Definition route_path (rt : Route) : string :=
  match rt with
  | R_accounts => "/api/v0/accounts" | R_account => "/api/v0/accounts/{id}"
  | R_clusters => "/api/v0/clusters" | R_cluster => "/api/v0/clusters/{id}" | R_cluster_labels => "/api/v0/clusters/{id}/labels"
  | R_nodepools => "/api/v0/nodepools" | R_nodepool => "/api/v0/nodepools/{id}" | R_nodepool_labels => "/api/v0/nodepools/{id}/labels"
  | R_oidc_configs => "/api/v0/oidc_configs" | R_oidc_config => "/api/v0/oidc_configs/{id}" | R_oidc_config_labels => "/api/v0/oidc_configs/{id}/labels"
  | R_dns_reservations => "/api/v0/dns_reservations" | R_dns_reservation => "/api/v0/dns_reservations/{id}"
  | R_dns_reservation_labels => "/api/v0/dns_reservations/{id}/labels"
  | R_live => "/api/v0/live" | R_ready => "/api/v0/ready" | R_info => "/api/v0/info"
  end.

(** Routes registered on the router without admission. *)
Definition public_route (rt : Route) : bool := match rt with R_live | R_ready | R_info => true | _ => false end.

Section server.
Context `{NameValidation, ArnParser, CedarEngine, KubeClient, !Clock, Retry, Fmt, !PublicViews, UrlParser, Digest, !SpecCodec, Codegen, CidrTexts, TagTable, LabelParser, UuidCodec}.

(** An operation: what the handler of a route and method is called with. *)
Inductive Operation :=
| Op_Enroll (accountId : option string) | Op_Unenroll
| Op_cluster_List | Op_cluster_Create (body : Decoded (ObjectMeta * PublicClusterSpec)) | Op_cluster_Get
| Op_cluster_Labels (body : PatchBody) | Op_cluster_Update (body : UpdateBody) | Op_cluster_Delete
| Op_nodepool_List | Op_nodepool_Create (fields : PublicNodePoolSpec → FieldValidator.Spec) (newID : World → string) (body : PoolBody)
| Op_nodepool_Get | Op_nodepool_Labels (body : PatchBody) | Op_nodepool_Update (value : option (string * option Z)) (body : UpdateBody) | Op_nodepool_Delete
| Op_oidc_List | Op_oidc_Create (generateID : World → string) (body : Decoded (ObjectMeta * PublicOidcSpec)) | Op_oidc_Get
| Op_oidc_Labels (body : PatchBody) | Op_oidc_Delete
| Op_dns_List | Op_dns_Create (body : option ObjectMeta) | Op_dns_Get | Op_dns_Labels (body : PatchBody) | Op_dns_Delete
| Op_Liveness | Op_Readiness | Op_Info.

Definition op_route (op : Operation) : Route :=
  match op with
  | Op_Enroll _ => R_accounts | Op_Unenroll => R_account
  | Op_cluster_List | Op_cluster_Create _ => R_clusters
  | Op_cluster_Get | Op_cluster_Update _ | Op_cluster_Delete => R_cluster
  | Op_cluster_Labels _ => R_cluster_labels
  | Op_nodepool_List | Op_nodepool_Create _ _ _ => R_nodepools
  | Op_nodepool_Get | Op_nodepool_Update _ _ | Op_nodepool_Delete => R_nodepool
  | Op_nodepool_Labels _ => R_nodepool_labels
  | Op_oidc_List | Op_oidc_Create _ _ => R_oidc_configs
  | Op_oidc_Get | Op_oidc_Delete => R_oidc_config
  | Op_oidc_Labels _ => R_oidc_config_labels
  | Op_dns_List | Op_dns_Create _ => R_dns_reservations
  | Op_dns_Get | Op_dns_Delete => R_dns_reservation
  | Op_dns_Labels _ => R_dns_reservation_labels
  | Op_Liveness => R_live | Op_Readiness => R_ready | Op_Info => R_info
  end.

Definition op_methods (op : Operation) : list string :=
  match op with
  | Op_Enroll _ | Op_cluster_Create _ | Op_nodepool_Create _ _ _ | Op_oidc_Create _ _ | Op_dns_Create _ => ["POST"]
  | Op_Unenroll | Op_cluster_Delete | Op_nodepool_Delete | Op_oidc_Delete | Op_dns_Delete => ["DELETE"]
  | Op_cluster_Update _ | Op_nodepool_Update _ _ => ["PATCH"; "PUT"]
  | Op_cluster_Labels _ | Op_nodepool_Labels _ | Op_oidc_Labels _ | Op_dns_Labels _ => ["GET"; "PATCH"]
  | _ => ["GET"]
  end.

Record ServerConfig := mkServerConfig {
  sc_OIDCIssuerBaseURL : string;
  sc_DefaultClusterExpiration : Z;
  sc_AccountID : string;
  sc_MaxRequestBodyBytes : Z;
  sc_TargetGroupARN : string;
  sc_ready : bool
}.

(** ** Health and info *)
Definition status_json (status : string) : json := JObj [("status", JStr status)].
Definition Liveness : St HState unit := api_Write 200 (Some (Some (status_json "ok"))).
Definition Readiness (ready : bool) : St HState unit :=
  if negb ready then api_Write 503 (Some (Some (status_json "unavailable"))) else api_Write 200 (Some (Some (status_json "ok"))).
Definition Info (tgARN : string) : St HState unit :=
  match SplitN tgARN ":"%char 6 with
  | [_; _; _; _; accountID; _] =>
      if String.eqb accountID "" then writeAPIError ErrInfoRegionalAccountUnavailable
      else api_Write 200 (Some (Some (JObj [("arn", JStr ("arn:aws:iam::" +:+ accountID +:+ ":role/LambdaExecutor"))])))
  | _ => writeAPIError ErrInfoRegionalAccountUnavailable
  end.

(** The handler of an operation. *)
Definition handle (c : ServerConfig) (a : Authorizer) (op : Operation) (r : Request) : St HState unit :=
  match op with
  | Op_Enroll accountId => Enroll (sc_AccountID c) r accountId
  | Op_Unenroll => Unenroll (sc_AccountID c) r
  | Op_cluster_List => cluster_List a r
  | Op_cluster_Create body => cluster_Create (mkClusterHandler (sc_OIDCIssuerBaseURL c) (sc_DefaultClusterExpiration c)) a r body
  | Op_cluster_Get => cluster_Get a r
  | Op_cluster_Labels body => cluster_Labels a r body
  | Op_cluster_Update body => cluster_Update a r body
  | Op_cluster_Delete => cluster_Delete a r
  | Op_nodepool_List => nodepool_List a r
  | Op_nodepool_Create fields newID body => nodepool_Create a r fields newID body
  | Op_nodepool_Get => nodepool_Get a r
  | Op_nodepool_Labels body => nodepool_Labels a r body
  | Op_nodepool_Update value body => nodepool_Update a r value body
  | Op_nodepool_Delete => nodepool_Delete a r
  | Op_oidc_List => oidc_List a r
  | Op_oidc_Create generateID body => oidc_Create (mkOidcHandler (sc_OIDCIssuerBaseURL c) generateID) a r body
  | Op_oidc_Get => oidc_Get a r
  | Op_oidc_Labels body => oidc_Labels a r body
  | Op_oidc_Delete => oidc_Delete a r
  | Op_dns_List => dns_List a r
  | Op_dns_Create body => dns_Create a r body
  | Op_dns_Get => dns_Get a r
  | Op_dns_Labels body => dns_Labels a r body
  | Op_dns_Delete => dns_Delete a r
  | Op_Liveness => Liveness
  | Op_Readiness => Readiness (sc_ready c)
  | Op_Info => Info (sc_TargetGroupARN c)
  end.

(** ** Middleware *)
Record HttpRequest := mkHttp {
  hq_method : string;
  hq_path : string;
  hq_id : string;
  hq_query : gmap string string;
  hq_header : string → string;
  hq_userAgent : string;
  hq_length : Z;
  hq_ctx : World → ctx_t
}.

Definition HeaderAccountID : string := "X-Amz-Account-Id".
Definition HeaderCallerARN : string := "X-Amz-Caller-Arn".
Definition HeaderSourceIP : string := "X-Amz-Source-Ip".

(** [Identity]: an empty header leaves the context value unset, which reads as "". *)
Definition with_Identity (q : HttpRequest) : Request :=
  mkRequest (hq_method q) (hq_id q) (hq_query q) (hq_header q HeaderAccountID) (hq_header q HeaderCallerARN) false
    (hq_header q HeaderSourceIP) (hq_userAgent q) ∅ false (hq_ctx q).

Definition DefaultMaxBodySize : Z := Z.shiftl 10 20.
Definition LimitRequestBody (maxBytes length : Z) (next : St HState unit) : St HState unit :=
  let maxBytes := if (maxBytes <=? 0)%Z then DefaultMaxBodySize else maxBytes in
  if (maxBytes <? length)%Z then writeAPIError ErrRequestBodyTooLarge else next.

Definition ErrIdentityRequired : APIError := mkAPIError "AUTH-001" 403 "Caller account ID and ARN are required" None "".
Definition ErrIdentityInvalid : APIError := mkAPIError "AUTH-001" 403 "Caller identity is invalid" None "".
Definition ErrNotRegistered : APIError := mkAPIError "AUTH-002" 403 "Account is not registered" None "".

Definition public_paths : list string := ["/api/v0/live"; "/api/v0/ready"; "/api/v0/info"].

Definition RequireIdentity (isAccountRegistered : World → bool) (path : string) (r : Request) (next : St HState unit) : St HState unit :=
  if bool_decide (path ∈ public_paths) then next
  else if String.eqb (r_account r) "" || String.eqb (r_caller r) "" then writeAPIError ErrIdentityRequired
  else match Validate (mkIdentity (r_account r) (r_caller r) false) with
       | Some _ => writeAPIError ErrIdentityInvalid
       | None =>
           registered ← observe isAccountRegistered;
           if negb registered then writeAPIError ErrNotRegistered else next
       end.

Definition with_allowlisted (r : Request) : Request :=
  mkRequest (r_method r) (r_id r) (r_query r) (r_account r) (r_caller r) true (r_sourceIP r) (r_userAgent r)
    (r_labels r) (r_shared r) (r_ctx r).

Definition allowlistAccounts (a : Authorizer) (r : Request) (next : Request → St HState unit) : St HState unit :=
  if negb (accountPattern (r_account r)) then next r
  else
    registered ← observe (fun w => IsAccountRegistered a (r_ctx r w) (r_account r));
    if (registered : bool) then next r
    else
      enrolled ← call (db.IsAccountEnrolled (r_account r));
      next (match enrolled with Ok true => with_allowlisted r | _ => r end).

Definition account_registered (a : Authorizer) (r : Request) (w : World) : bool :=
  IsAccountRegistered a (r_ctx r w) (r_account r) || r_allowlisted r.

(** A request whose route matched the operation. *)
Definition serve (c : ServerConfig) (a : Authorizer) (q : HttpRequest) (op : Operation) : St HState unit :=
  LimitRequestBody (sc_MaxRequestBodyBytes c) (hq_length q)
    (if public_route (op_route op) then handle c a op (with_Identity q)
     else allowlistAccounts a (with_Identity q) (fun r => RequireIdentity (account_registered a r) (hq_path q) r (handle c a op r))).
End server.
