(* ===== verification/Answers.v ===== *)
(** * How many responses a handler writes

    [writes i m n]: a program that starts after [i] responses of its handler were
    written leaves [n a] written, [a] its value. The lemmas follow the structure of
    handlers; [answers] applies them. *)
From S2P Require Import Prelude GoStrings Json Selectors Uuid AwsArn AuthzModel Arn Authorizer StateM HttpApi ApiTypes KubeClient ApiClient Handlers Claims Labels ClusterValidation AccountObjects Clusters NodePools.
From stdpp Require Import base gmap strings list relations.
From Stdlib Require Import ZArith Lia String.
Open Scope string_scope.

Section count.
Context `{ArnParser, CedarEngine, KubeClientLaws, !Clock}.

Definition writes {A} (i : nat) (m : St HState A) (n : A → nat) : Prop :=
  ∀ h h' a, m h = (h', a) → List.length (hs_out h') + i = List.length (hs_out h) + n a.

Lemma writes_ret {A} i (a : A) n : n a = i → writes i (mret a) n.
Proof. intros Hn h h' b [-> ->]%St_ret_inv. by rewrite Hn. Qed.

Lemma writes_bind {A B} i (m : St HState A) (f : A → St HState B) n1 n :
  writes i m n1 → (∀ a, writes (n1 a) (f a) n) → writes i (m ≫= f) n.
Proof. intros Hm Hf h h' b (h1 & a & E%Hm & F%Hf)%St_bind_inv. lia. Qed.

Lemma writes_call {A} i (m : Call A) : writes i (call m) (λ _, i).
Proof. intros h h' x (_ & -> & _)%call_inv. lia. Qed.
Lemma writes_on_world {A} i (m : St World A) : writes i (on_world m) (λ _, i).
Proof. intros h h' x. unfold on_world. destruct (m _). intros [= <- _]. simpl. lia. Qed.
Lemma writes_observe {A} i (f : World → A) : writes i (observe f) (λ _, i).
Proof. intros h h' x [= <- _]. lia. Qed.

Lemma writes_respond i x n : n tt = S i → writes i (respond x) n.
Proof. intros Hn h h' [] [= <-]. simpl. rewrite length_app, Hn. simpl. lia. Qed.
Lemma writes_writeAPIError i e n : n tt = S i → writes i (writeAPIError e) n.
Proof. apply writes_respond. Qed.
Lemma writes_api_Write i c d n : n tt = S i → writes i (api_Write c d) n.
Proof. apply writes_respond. Qed.

Lemma writes_prepare i a r : writes i (prepareResourceAuthz a r) (λ _, i).
Proof.
  intros h h' x. unfold prepareResourceAuthz. destruct (if r_shared r then _ else _); [intros [= <- _]; lia|].
  destruct (Prepare _ _ _ _); intros [= <- _]; [|lia]. destruct (r_shared r); simpl; lia.
Qed.

Lemma writes_check_actions i p r resource actions : writes i (check_actions p r resource actions) (λ ok, if ok : bool then i else S i).
Proof.
  intros h h' ok (_ & _ & Hok)%check_actions_spec. destruct ok; [destruct Hok as [-> _]; lia|].
  destruct Hok as (x & _ & ->). rewrite length_app. simpl. lia.
Qed.

Lemma writes_authorizeResource i a r operation resource additional :
  writes i (authorizeResource a r operation resource additional) (λ ok, if ok : bool then i else S i).
Proof.
  eapply writes_bind; [apply writes_prepare|]. intros [p|e]; [apply writes_check_actions|].
  eapply writes_bind; [by apply (writes_respond _ _ (λ _, S i))|]. intros. by apply writes_ret.
Qed.

Lemma writes_authorizeCollection i a r operation resource :
  writes i (authorizeCollection a r operation resource) (λ o, match o with Some _ => i | None => S i end).
Proof.
  eapply writes_bind; [apply writes_prepare|]. intros [p|e].
  - eapply writes_bind; [apply writes_check_actions|]. intros []; by apply writes_ret.
  - eapply writes_bind; [by apply (writes_respond _ _ (λ _, S i))|]. intros. by apply writes_ret.
Qed.

Lemma writes_authorizeNodePool i a r operation np additional :
  writes i (authorizeNodePool a r operation np additional) (λ ok, if ok : bool then i else S i).
Proof.
  assert (Hf : ∀ e, writes i (_ ← writeAPIError e; mret false) (λ ok, if ok : bool then i else S i)).
  { intros e. eapply writes_bind; [by apply (writes_respond _ _ (λ _, S i))|]. intros. by apply writes_ret. }
  eapply writes_bind; [apply writes_call|]. intros [res|e]; [apply writes_authorizeResource|].
  destruct (nodePoolNotFound operation); [destruct (IsNotFound e)|]; apply Hf.
Qed.

(** The responses of an attempt. *)
Definition attempt_writes {A} (x : result attempt_err A) : nat := match x with Err Responded => 1 | _ => 0 end.

Lemma writes_reply {A} e : writes 0 (reply (A := A) e) attempt_writes.
Proof. eapply writes_bind; [by apply (writes_respond _ _ (λ _, 1))|]. intros. by apply writes_ret. Qed.

Lemma writes_retry `{Retry} {E A} conflict (fn : St HState (result E A)) n :
  writes 0 fn n → (∀ e, conflict e = true → n (Err e) = 0) → writes 0 (RetryOnConflict conflict fn) n.
Proof.
  intros Hfn Hc h h' x Er. eapply (triple_retry conflict fn (λ h1, List.length (hs_out h1) = List.length (hs_out h))
    (λ x h1, List.length (hs_out h1) = List.length (hs_out h) + n x)) in Er; [lia| | |done].
  - intros h1 h2 y E1 E2%Hfn. lia.
  - intros e h1 Hcc Hl. rewrite Hl, Hc by done. lia.
Qed.

(** The parts of an update that end an attempt or go on. *)
Definition part_writes {A} (o : option (result attempt_err A)) : nat := match o with Some x => attempt_writes x | None => 0 end.

Lemma writes_reply_part {A} e : writes 0 (r ← reply (A := A) e; mret (Some r)) part_writes.
Proof. eapply writes_bind; [apply writes_reply|]. intros. by apply writes_ret. Qed.

Lemma writes_check_tags {A} given validate invalid failed : writes 0 (check_tags (A := A) given validate invalid failed) part_writes.
Proof.
  unfold check_tags. destruct given; [|by apply writes_ret]. eapply writes_bind; [apply writes_call|].
  intros [[|err errs]|e]; [by apply writes_ret|apply writes_reply_part..].
Qed.

Lemma writes_update_write {k} write notFound failed : writes 0 (update_write (k := k) write notFound failed) attempt_writes.
Proof.
  eapply writes_bind; [apply writes_call|]. intros [o|e]; [by apply writes_ret|]. destruct (IsConflict e); [by apply writes_ret|apply writes_reply].
Qed.
End count.

#[export] Hint Resolve writes_call writes_on_world writes_observe writes_prepare writes_check_actions writes_authorizeResource
  writes_authorizeCollection writes_authorizeNodePool writes_reply writes_check_tags writes_update_write : answers.

Ltac answers_step :=
  lazymatch goal with
  | |- writes _ (mret _) _ => apply writes_ret; first [reflexivity|by repeat case_match]
  | |- writes _ (writeAPIError _) _ => apply writes_writeAPIError; reflexivity
  | |- writes _ writeResourceAuthzError _ => apply writes_writeAPIError; reflexivity
  | |- writes _ (api_Write _ _) _ => apply writes_api_Write; reflexivity
  | |- writes _ (reply _) _ => apply writes_reply
  | |- writes _ (reply_invalid _ _) _ => apply writes_reply
  | |- writes _ (update_write _ _ _) _ => apply writes_update_write
  | |- writes _ (_ ≫= _) _ => eapply writes_bind; [solve [eauto 2 with answers]|intros ?]
  | |- writes _ (match negb ?b with _ => _ end) _ => destruct b; cbn [negb]
  | |- writes _ (match ?x with _ => _ end) _ => destruct x
  end.
Ltac answers := repeat answers_step.

Section handlers.
Context `{NameValidation, ArnParser, CedarEngine, KubeClientLaws, !Clock, Retry, Fmt, !PublicViews, UrlParser, Digest, !SpecCodec, Codegen, CidrTexts, TagTable, LabelParser, UuidCodec}.

Definition answers_once (m : St HState unit) : Prop := writes 0 m (λ _, 1).

Lemma once_list {k} a r op kind call failed : answers_once (list_handler (k := k) a r op kind call failed).
Proof. unfold answers_once, list_handler. answers. Qed.
Lemma once_get {k} a r op call res nf failed : answers_once (get_handler (k := k) a r op call res nf failed).
Proof. unfold answers_once, get_handler. answers. Qed.

Lemma once_dns_Create a r body : answers_once (dns_Create a r body).
Proof. unfold answers_once, dns_Create. answers. Qed.
Lemma once_oidc_Create h a r body : answers_once (oidc_Create h a r body).
Proof. unfold answers_once, oidc_Create. answers. Qed.
Lemma once_oidc_Delete a r : answers_once (oidc_Delete a r).
Proof. unfold answers_once, oidc_Delete. answers. Qed.
Lemma once_dns_Delete a r : answers_once (dns_Delete a r).
Proof.
  unfold answers_once, dns_Delete. eapply writes_bind; [apply (writes_retry _ _ (λ x, match x with Err DeleteResponded => 1 | _ => 0 end))|].
  - unfold dns_delete_attempt. answers.
  - by intros [].
  - intros [[]|[]]; answers.
Qed.
Lemma once_account m : answers_once (account_answer m).
Proof. unfold answers_once, account_answer. answers. Qed.
Lemma once_Enroll platform r body : answers_once (Enroll platform r body).
Proof. unfold Enroll, answers_once. answers; apply once_account. Qed.
Lemma once_Unenroll platform r : answers_once (Unenroll platform r).
Proof. unfold Unenroll, answers_once. answers; apply once_account. Qed.

Lemma once_cluster_Get a r : answers_once (cluster_Get a r).
Proof. unfold answers_once, cluster_Get. answers. Qed.
Lemma once_cluster_Delete a r : answers_once (cluster_Delete a r).
Proof. unfold answers_once, cluster_Delete. answers. Qed.

Lemma writes_release i b account url name : writes i (release_claim b account url name) (λ _, i).
Proof. unfold release_claim. answers. Qed.
Hint Resolve writes_release : answers.

Lemma once_store_cluster h account url cr dns oidc : answers_once (store_cluster h account url cr dns oidc).
Proof.
  unfold answers_once, store_cluster. eapply (writes_bind _ _ _ (λ _, 0)); [destruct (String.eqb url ""); [by apply writes_ret|apply writes_call]|].
  intros ?. answers.
Qed.

Lemma once_create_cluster h r m p dns oidc : answers_once (create_cluster h r m p dns oidc).
Proof.
  unfold answers_once, create_cluster. destruct (requestedTerminationHandlerQueue _) as [url region].
  eapply (writes_bind _ _ _ (λ _, 0)); [destruct (String.eqb url ""); [by apply writes_ret|apply writes_on_world]|].
  intros ?. answers. apply once_store_cluster.
Qed.

Lemma writes_authorizeCreate a r m p : writes 0 (authorizeCreate a r m p) (λ ok, if ok : bool then 0 else 1).
Proof.
  unfold authorizeCreate. destruct (validateCreateLabels _); [|apply writes_authorizeResource].
  eapply writes_bind; [by apply (writes_writeAPIError _ _ (λ _, 1))|]. intros. answers.
Qed.
Lemma writes_authorizeReferences a r dns oidc : writes 0 (authorizeReferences a r dns oidc) (λ ok, if ok : bool then 0 else 1).
Proof.
  unfold authorizeReferences. eapply (writes_bind _ _ _ (λ ok, if ok : bool then 0 else 1)); [destruct dns; [apply writes_authorizeResource|by apply writes_ret]|].
  intros []; cbn [negb]; [|answers]. destruct oidc; [apply writes_authorizeResource|answers].
Qed.
Hint Resolve writes_authorizeCreate writes_authorizeReferences : answers.

Lemma once_cluster_Create h a r body : answers_once (cluster_Create h a r body).
Proof. unfold answers_once, cluster_Create. answers; apply once_create_cluster. Qed.

Lemma once_update_handler {k} (attempt : St HState (result attempt_err (object k))) conflict :
  writes 0 attempt attempt_writes → answers_once (update_handler attempt conflict).
Proof.
  intros Ha. eapply writes_bind; [apply (writes_retry _ _ attempt_writes); [done|by intros []]|]. intros [o|[]]; answers.
Qed.

Lemma writes_update_queue {A} account name cr candidate : writes 0 (update_queue (A := A) account name cr candidate) part_writes.
Proof.
  unfold update_queue. destruct (clusterTerminationHandlerQueue candidate) as [url region]. destruct (_ || _); [by apply writes_ret|].
  eapply writes_bind; [apply writes_on_world|]. intros [e|]; [apply writes_reply_part|].
  eapply writes_bind; [apply writes_call|]. intros [b|e]; [by apply writes_ret|apply writes_reply_part].
Qed.
Hint Resolve writes_update_queue : answers.

Lemma once_cluster_Update a r body : answers_once (cluster_Update a r body).
Proof.
  unfold cluster_Update. destruct (cluster_update_request _ _) as [[raw members]|e]; [|by apply writes_writeAPIError].
  apply once_update_handler. unfold cluster_updateOnce. answers.
Qed.

Lemma once_nodepool_List a r : answers_once (nodepool_List a r).
Proof. unfold answers_once, nodepool_List. answers. Qed.
Lemma once_nodepool_Get a r : answers_once (nodepool_Get a r).
Proof. unfold answers_once, nodepool_Get. answers. Qed.
Lemma once_nodepool_Create a r fields newID body : answers_once (nodepool_Create a r fields newID body).
Proof. unfold answers_once, nodepool_Create. answers. Qed.
Lemma once_nodepool_Update a r value body : answers_once (nodepool_Update a r value body).
Proof.
  unfold nodepool_Update. destruct (nodepool_update_request _ _ _) as [[[replicas raw] members]|e]; [|by apply writes_writeAPIError].
  apply once_update_handler. unfold nodepool_updateOnce. answers.
Qed.
Lemma once_nodepool_Delete a r : answers_once (nodepool_Delete a r).
Proof. unfold answers_once, nodepool_Delete. answers. Qed.
End handlers.
