(* ===== verification/ServerProps.v ===== *)
(** * No API operation touches the claim of a claimed resource

    What each operation of the API's client and each handler guarantees to a resource
    that a cluster has claimed ([keeps]), while every other session guarantees the same:
    reads and creations leave it alone, writes go to other kinds, to snapshots under
    their version with the same claim, or to unclaimed snapshots. The proofs follow the
    structure of the programs; the hints of [moves] carry the operations. *)
From S2P Require Import Prelude GoStrings Json Selectors Uuid AwsArn AuthzModel Arn Authorizer StateM HttpApi ApiTypes KubeClient ApiClient Handlers Claims Labels ClusterValidation AccountObjects Clusters NodePools Server Answers.
From stdpp Require Import base gmap strings list relations.
From Stdlib Require Import ZArith Lia String.
Open Scope string_scope.

Create HintDb moves.
#[export] Hint Resolve moves_ret moves_bind moves_retry : moves.

(** ** Programs of a handler *)
Section lift.
Context `{ArnParser, CedarEngine, KubeClientLaws, !Clock}.

Lemma moves_on_world {A} R (m : St World A) : moves state R m → moves hview R (on_world m).
Proof. intros Hm h h' x. unfold on_world. destruct (m (hs_world h)) as [w y] eqn:E. intros [= <- <-]. by eapply Hm. Qed.

Lemma moves_call {A} R (m : Call A) : moves state R m → moves hview R (call m).
Proof. apply moves_on_world. Qed.

Lemma moves_respond R x : moves hview R (respond x).
Proof. intros h h' [] [= <-]. reflexivity. Qed.
Lemma moves_writeAPIError R e : moves hview R (writeAPIError e).
Proof. apply moves_respond. Qed.
Lemma moves_api_Write R c d : moves hview R (api_Write c d).
Proof. apply moves_respond. Qed.
Lemma moves_observe {A} R (f : World → A) : moves hview R (observe f).
Proof. intros h h' x [= <- _]. reflexivity. Qed.

Lemma moves_prepare R a r : moves hview R (prepareResourceAuthz a r).
Proof.
  intros h h' x. unfold prepareResourceAuthz. destruct (if r_shared r then _ else _); [by intros [= <- <-]|].
  destruct (Prepare _ _ _ _); intros [= <- <-]; [|reflexivity]. by destruct (r_shared r).
Qed.

Lemma moves_check_actions R p r resource actions : moves hview R (check_actions p r resource actions).
Proof. intros h h' ok (Hw & _)%check_actions_spec. unfold hview. by rewrite Hw. Qed.

Lemma moves_authorizeResource R a r operation resource additional : moves hview R (authorizeResource a r operation resource additional).
Proof.
  apply moves_bind; [apply moves_prepare|]. intros [p|e]; [apply moves_check_actions|].
  apply moves_bind; [apply moves_writeAPIError|]. intros; apply moves_ret.
Qed.

Lemma moves_authorizeCollection R a r operation resource : moves hview R (authorizeCollection a r operation resource).
Proof.
  apply moves_bind; [apply moves_prepare|]. intros [p|e].
  - apply moves_bind; [apply moves_check_actions|]. intros; apply moves_ret.
  - apply moves_bind; [apply moves_writeAPIError|]. intros; apply moves_ret.
Qed.
End lift.
#[export] Hint Resolve moves_on_world moves_call moves_respond moves_writeAPIError moves_api_Write moves_observe moves_prepare
  moves_check_actions moves_authorizeResource moves_authorizeCollection : moves.

(** Follows a program to its calls. *)
Ltac moves_step :=
  lazymatch goal with
  | |- moves _ _ (_ ≫= _) => apply moves_bind; [|intros ?]
  | |- moves hview _ (call _) => apply moves_call
  | |- moves hview _ (on_world _) => apply moves_on_world
  | |- moves _ _ (match ?x with _ => _ end) => destruct x
  | |- moves _ _ (let '_ := ?x in _) => destruct x
  | _ => fail
  end.
Ltac moves_all := repeat (first [solve [auto 2 with moves]|moves_step]).

(** ** The client *)
Section client.
Context `{KubeClientLaws, Retry, Fmt}.
Context (k : Kind) (rely : ∀ s s', interfere s s' → keeps k s s').

Lemma rely_steps s s' : rtc interfere s s' → rtc (keeps k) s s'.
Proof. apply rtc_subrel, rely. Qed.

Lemma safe_Get k' ns n : moves state (keeps k) (kc_Get k' ns n).
Proof. intros w w' r [Hi _]%Get_law. by apply rely_steps. Qed.
Lemma safe_List k' ns f : moves state (keeps k) (kc_List k' ns f).
Proof. intros w w' r [Hi _]%List_law. by apply rely_steps. Qed.
Lemma safe_Create k' (o : object k') : moves state (keeps k) (kc_Create k' o).
Proof.
  intros w w' r (mid & Hi%rely_steps & [[-> _]|(uid & rv & t & He)])%Create_effect; [done|].
  eapply rtc_r; [done|]. by eapply keeps_create.
Qed.
Lemma safe_Status k' (o : object k') : moves state (keeps k) (kc_Status_Update k' o).
Proof.
  intros w w' r (mid & Hi & [[-> _]|(rv & He)])%Status_Update_effect; [by apply rely_steps|].
  eapply rtc_r; [by apply rely_steps|]. eapply keeps_status; [|done]. eapply interference_wf; [done|apply state_wf].
Qed.
Lemma safe_Update k' (o : object k') : k' ≠ k → moves state (keeps k) (kc_Update k' o).
Proof.
  intros Hk w w' r (mid & Hi%rely_steps & [[-> _]|(rv & g & cur & Hc & _ & _ & ->)])%Update_effect; [done|].
  eapply rtc_r; [done|]. intros key x Hx _. exists x. split; [|done].
  destruct (settle_cases mid (updated cur o rv g)) as [[_ ->]|[_ ->]]; [by rewrite put_other|rewrite remove_keeps; auto].
Qed.
Lemma safe_Delete k' (o : object k') : k' ≠ k → moves state (keeps k) (kc_Delete k' o).
Proof.
  intros Hk w w' r (mid & Hi & [[-> _]|(t & rv & He)])%Delete_effect; [by apply rely_steps|].
  eapply rtc_r; [by apply rely_steps|]. eapply keeps_delete; [|done|done]. eapply interference_wf; [done|apply state_wf].
Qed.

Lemma safe_claim {k'} account c (R : ClusterClaimableResource k') : owned_claimable account R → moves state (keeps k) (claimResource c R).
Proof.
  intros HR w w' r [Hs _]%(claim_refines_step account); [|done]. revert Hs. apply rtc_subrel. intros s s'. by apply claim_step_keeps.
Qed.
End client.
#[export] Hint Resolve safe_Get safe_List safe_Create safe_Status safe_Update safe_Delete : moves.

(** ** The handlers *)
Section handlers.
Context `{NameValidation, ArnParser, CedarEngine, KubeClientLaws, !Clock, Retry, Fmt, !PublicViews, UrlParser, Digest, !SpecCodec, Codegen, CidrTexts, TagTable, LabelParser, UuidCodec}.
Context (k : Kind) (rely : ∀ s s', interfere s s' → keeps k s s').
Context (other_cluster : KCluster ≠ k) (other_pool : KNodePool ≠ k) (other_index : KIndex ≠ k) (other_map : KConfigMap ≠ k).

Ltac client := repeat unfold db.and_then, db.check, db.GetCluster, db.GetNodePool, db.GetDNSReservation, db.GetOidcConfig, db.GetByUID, db.GetOwned,
  db.ListClusters, db.ListNodePools, db.ListDNSReservations, db.ListOidcConfigs, db.ListOwned, db.UpdateCluster, db.UpdateNodePool, db.UpdateOwned,
  db.DeleteClusterObject, db.DeleteNodePoolObject, db.DeleteOwned, db.CreateCluster, db.CreateDNSReservation,
  db.CreateOidcConfig, db.GetDNSReservationByUID, db.GetOidcConfigByUID, db.UpdateOidcConfigLastUsedTimestamp, db.GetOidcIssuerIndex; moves_all.

Lemma safe_GetByUID account k' uid : moves state (keeps k) (db.GetByUID account k' uid).
Proof. client. Qed.

Lemma safe_nodePoolResource account np : moves state (keeps k) (nodePoolResource account np).
Proof. unfold nodePoolResource. client. Qed.
Hint Resolve safe_GetByUID safe_nodePoolResource : moves.

Lemma safe_CreateNodePool account np : moves state (keeps k) (db.CreateNodePool account np).
Proof. unfold db.CreateNodePool, db.requireOwnedCluster. client. Qed.
Hint Resolve safe_CreateNodePool : moves.

Lemma moves_read_clock : moves state (keeps k) db.read_clock.
Proof. intros w w' t [= <- <-]. reflexivity. Qed.
Hint Resolve moves_read_clock : moves.

Lemma safe_ClaimSpot account queueURL name : moves state (keeps k) (db.ClaimSpotTerminationQueue account queueURL name).
Proof.
  unfold db.ClaimSpotTerminationQueue. generalize (None : option kerr). set (rounds := 5). clearbody rounds.
  induction rounds as [|n IH]; intros last; cbn [db.claim_loop]; [moves_all|].
  apply moves_bind; [|intros [[r|] c]; moves_all]. unfold db.claim_round, db.claim_existing, db.reclaim. client.
Qed.
Lemma safe_ReleaseSpot account queueURL name : moves state (keeps k) (db.ReleaseSpotTerminationQueue account queueURL name).
Proof. unfold db.ReleaseSpotTerminationQueue, db.release. client. Qed.
Hint Resolve safe_ClaimSpot safe_ReleaseSpot : moves.

Lemma moves_readings {A} (m : St World A) : (∀ w w' x, m w = (w', x) → rtc interfere (state w) (state w')) → moves state (keeps k) m.
Proof. intros Hm w w' x E. eapply rely_steps; eauto. Qed.

Lemma safe_resolveDNS account uid : moves state (keeps k) (resolveDNSReservation account uid).
Proof. unfold resolveDNSReservation. client. Qed.
Lemma safe_resolveOidc account uid : moves state (keeps k) (resolveOidcConfig account uid).
Proof. unfold resolveOidcConfig. client. Qed.
Lemma safe_claimDNS account uid c : moves state (keeps k) (claimDNSReservation account uid c).
Proof. unfold claimDNSReservation. apply moves_bind; [by eapply safe_claim|]. intros; apply moves_ret. Qed.
Lemma safe_claimOidc account uid c : moves state (keeps k) (claimOidcConfig account uid c).
Proof. unfold claimOidcConfig. apply moves_bind; [by eapply safe_claim|]. intros; apply moves_ret. Qed.
Hint Resolve safe_resolveDNS safe_resolveOidc safe_claimDNS safe_claimOidc : moves.

Lemma safe_cleanup account name uid : moves state (keeps k) (deleteClusterForCleanup account name uid).
Proof. unfold deleteClusterForCleanup. apply moves_retry. client. Qed.
Lemma safe_issuer account name uid url : moves state (keeps k) (updateManagedIssuerURL account name uid url).
Proof. unfold updateManagedIssuerURL. apply moves_retry. client. Qed.
Lemma safe_precheck account url region name failed : moves state (keeps k) (queue_precheck account url region name failed).
Proof. unfold queue_precheck. client. Qed.
Hint Resolve safe_cleanup safe_issuer safe_precheck : moves.

(** The steps after each claim. *)
Lemma safe_used account uid name cr :
  moves state (keeps k) (t ← db.read_clock; _ ← db.UpdateOidcConfigLastUsedTimestamp account uid t; latest_cluster account name cr).
Proof. unfold latest_cluster. client. Qed.
Lemma safe_claim_oidc_step account name cr oidc : moves state (keeps k) (claim_oidc_step account name cr oidc).
Proof. unfold claim_oidc_step, cleanup_then, latest_cluster. client. Qed.

Lemma safe_complete h account name cr dns oidc : moves state (keeps k) (completeClusterCreate h account name cr dns oidc).
Proof.
  unfold completeClusterCreate, claim_dns_step, claim_oidc_step, cleanup_then, latest_cluster. client.
Qed.
Hint Resolve safe_complete : moves.

Ltac handler := repeat unfold writeResourceAuthzError, list_handler, get_handler, account_answer, authorizeNodePool, requestedReservation, reply, reply_invalid, answer,
  update_write, check_tags, validateUpdatedClusterTags, validateUpdatedNodePoolTags, release_claim; client.

Lemma safe_store_cluster h account url cr dns oidc : moves hview (keeps k) (store_cluster h account url cr dns oidc).
Proof. unfold store_cluster. handler. Qed.
Hint Resolve safe_store_cluster : moves.

Lemma safe_cluster_Create h a r body : moves hview (keeps k) (cluster_Create h a r body).
Proof. unfold cluster_Create, authorizeCreate, authorizeReferences, create_cluster. handler. Qed.
Lemma safe_cluster_List a r : moves hview (keeps k) (cluster_List a r).
Proof. unfold cluster_List. handler. Qed.
Lemma safe_cluster_Get a r : moves hview (keeps k) (cluster_Get a r).
Proof. unfold cluster_Get. handler. Qed.
Lemma safe_cluster_Delete a r : moves hview (keeps k) (cluster_Delete a r).
Proof. unfold cluster_Delete. handler. Qed.
Lemma safe_cluster_Update a r body : moves hview (keeps k) (cluster_Update a r body).
Proof.
  unfold cluster_Update, update_handler. destruct (cluster_update_request _ _) as [[raw members]|e]; [|apply moves_writeAPIError].
  apply moves_bind; [|intros [|[|]]; moves_all]. apply moves_retry. unfold cluster_updateOnce, update_queue. handler.
Qed.

Lemma safe_nodepool_List a r : moves hview (keeps k) (nodepool_List a r).
Proof. unfold nodepool_List. handler. Qed.
Lemma safe_nodepool_Get a r : moves hview (keeps k) (nodepool_Get a r).
Proof. unfold nodepool_Get. handler. Qed.
Lemma safe_nodepool_Create a r fields newID body : moves hview (keeps k) (nodepool_Create a r fields newID body).
Proof. unfold nodepool_Create. handler. Qed.
Lemma safe_nodepool_Delete a r : moves hview (keeps k) (nodepool_Delete a r).
Proof. unfold nodepool_Delete. handler. Qed.
Lemma safe_nodepool_Update a r value body : moves hview (keeps k) (nodepool_Update a r value body).
Proof.
  unfold nodepool_Update, update_handler. destruct (nodepool_update_request _ _ _) as [[[replicas raw] members]|e]; [|apply moves_writeAPIError].
  apply moves_bind; [|intros [|[|]]; moves_all]. apply moves_retry. unfold nodepool_updateOnce. handler.
Qed.

Lemma safe_dns_List a r : moves hview (keeps k) (dns_List a r).
Proof. unfold dns_List. handler. Qed.
Lemma safe_dns_Get a r : moves hview (keeps k) (dns_Get a r).
Proof. unfold dns_Get. handler. Qed.
Lemma safe_dns_Create a r body : moves hview (keeps k) (dns_Create a r body).
Proof. unfold dns_Create. handler. Qed.
Lemma safe_oidc_List a r : moves hview (keeps k) (oidc_List a r).
Proof. unfold oidc_List. handler. Qed.
Lemma safe_oidc_Get a r : moves hview (keeps k) (oidc_Get a r).
Proof. unfold oidc_Get. handler. Qed.
Lemma safe_oidc_Create h a r body : moves hview (keeps k) (oidc_Create h a r body).
Proof. unfold oidc_Create. handler. Qed.
Lemma safe_Enroll platform r body : moves hview (keeps k) (Enroll platform r body).
Proof. unfold Enroll, db.EnrollAccount. handler. Qed.
Lemma safe_Unenroll platform r : moves hview (keeps k) (Unenroll platform r).
Proof. unfold Unenroll, db.UnenrollAccount. handler. Qed.

(** Labels change no claim: they are annotations. *)
Lemma safe_labels {k'} account (resource : object k' → Call Resource) a r body w h' :
  (∀ o, moves state interfere (resource o)) → r_method r = "GET" ∨ r_method r = "PATCH" →
  resourceLabels (k := k') (db.GetOwned account k') (db.UpdateOwned account k') resource a r body (start w) = (h', tt) →
  keeps k (state w) (hview h').
Proof.
  intros Hres Hm E. apply resourceLabels_spec in E as [_ Hs]; [|done..]. apply (keeps_rtc _ _ _ (keeps k)); [done|].
  destruct Hs as [Hi|(patch & uid & _ & _ & _ & Hs)]; [by apply rely_steps|]. revert Hs. apply rtc_subrel.
  intros s s' [Hi|(_ & o & res & rv & g & _ & Ho & Hl & _ & _ & _ & _ & (cur & Hcur & _ & _ & ->))]; [by apply rely|].
  change (objs s k' !! key_of o = Some cur) in Hcur. assert (cur = o) as -> by congruence.
  rewrite settle_put by done. by apply (keeps_put _ s o).
Qed.

Lemma keeps_delete_steps {k'} a r action (resource : object k' → Resource) s s' : wf s → rtc (delete_step a r action resource) s s' → keeps k s s'.
Proof.
  intros Hwf Hs. revert Hwf. induction Hs as [s|s m s' Hm Hs IH]; intros Hwf; [reflexivity|].
  assert (wf m ∧ keeps k s m) as [Hwm Hk]; [|etrans; [done|by apply IH]].
  destruct Hm as [Hi|(o & t & rv & _ & Ho & _ & Hc & He)]; [split; [by eapply interfere_wf|by apply rely]|]. split; [by eapply delete_wf|].
  eapply keeps_delete; [done..|]. intros cur Hcur _ _. by assert (cur = o) as -> by congruence.
Qed.
End handlers.

(** * The API server: admission, answers, claims

    The promises of [serve] over every operation: one answer; nothing but admission
    without an admitted identity; and the claims of claimed resources stay, so that two
    clusters never hold one resource, whatever requests run in between. *)
From stdpp Require Import base gmap strings list relations.
From Stdlib Require Import ZArith Lia String.
Open Scope string_scope.

Section server.
Context `{NameValidation, ArnParser, CedarEngine, KubeClientLaws, !Clock, Retry, Fmt, !PublicViews, UrlParser, Digest, !SpecCodec, Codegen, CidrTexts, TagTable, LabelParser, UuidCodec}.

(** The method of the request is one of the route's. *)
Definition routed (r : Request) (op : Operation) : Prop := r_method r ∈ op_methods op.

Lemma label_method r : r_method r ∈ ["GET"; "PATCH"] → r_method r = "GET" ∨ r_method r = "PATCH".
Proof. set_solver. Qed.

Lemma once_start m w h' : answers_once m → m (start w) = (h', tt) → List.length (hs_out h') = 1.
Proof. intros Ho E%Ho. simpl in E. lia. Qed.

Lemma once_labels {k} account resource (Hres : ∀ o, moves state interfere (resource o)) a r body w h' :
  r_method r ∈ ["GET"; "PATCH"] →
  resourceLabels (k := k) (db.GetOwned account k) (db.UpdateOwned account k) resource a r body (start w) = (h', tt) → List.length (hs_out h') = 1.
Proof. intros Hm%label_method [E _]%resourceLabels_spec; done. Qed.

Lemma once_Readiness ready : answers_once (Readiness ready).
Proof. unfold Readiness, answers_once. answers. Qed.
Lemma once_Info arn : answers_once (Info arn).
Proof. unfold Info, answers_once. answers. Qed.

Lemma handle_once c a op r w h' : routed r op → handle c a op r (start w) = (h', tt) → List.length (hs_out h') = 1.
Proof.
  intros Hm. unfold routed in Hm. destruct op; cbn [handle op_methods] in *.
  1: apply once_start, once_Enroll. 1: apply once_start, once_Unenroll.
  1: apply once_start, once_list. 1: apply once_start, once_cluster_Create. 1: apply once_start, once_cluster_Get.
  1: apply once_labels; [intros; apply moves_ret|done]. 1: apply once_start, once_cluster_Update. 1: apply once_start, once_cluster_Delete.
  1: apply once_start, once_nodepool_List. 1: apply once_start, once_nodepool_Create. 1: apply once_start, once_nodepool_Get.
  1: apply once_labels; [apply moves_nodePoolResource|done]. 1: apply once_start, once_nodepool_Update. 1: apply once_start, once_nodepool_Delete.
  1: apply once_start, once_list. 1: apply once_start, once_oidc_Create. 1: apply once_start, once_get.
  1: apply once_labels; [intros; apply moves_ret|done]. 1: apply once_start, once_oidc_Delete.
  1: apply once_start, once_list. 1: apply once_start, once_dns_Create. 1: apply once_start, once_get.
  1: apply once_labels; [intros; apply moves_ret|done]. 1: apply once_start, once_dns_Delete.
  1: by apply once_start, writes_api_Write. 1: apply once_start, once_Readiness. apply once_start, once_Info.
Qed.

(** ** Admission *)

(** The identity of the request was validated, and its account is registered in the
    bundle or enrolled in the store. *)
Definition admitted (a : Authorizer) (q : HttpRequest) (r : Request) (s : KState) : Prop :=
  r_account r ≠ "" ∧ r_caller r ≠ "" ∧ Validate (mkIdentity (r_account r) (r_caller r) false) = None ∧
  ((∃ w, IsAccountRegistered a (r_ctx r w) (r_account r) = true) ∨
   r = with_allowlisted (with_Identity q) ∧ accountPattern (r_account r) = true ∧
   is_Some (objs s KConfigMap !! (db.enrolledAccountsNamespace, r_account r))).

(** A request of the gateway, marked or not. *)
Definition gateway_request (q : HttpRequest) (r : Request) : Prop := r = with_Identity q ∨ r = with_allowlisted (with_Identity q).

Definition refused (x : Response) : Prop := resp_Status x = 403%Z ∨ resp_Status x = 413%Z.

Lemma RequireIdentity_spec registered path r next h h' :
  path ∉ public_paths → RequireIdentity registered path r next h = (h', tt) →
  (∃ x, h' = mkHState (hs_world h) (hs_out h ++ [x]) (hs_prepared h) ∧ resp_Status x = 403%Z) ∨
  r_account r ≠ "" ∧ r_caller r ≠ "" ∧ Validate (mkIdentity (r_account r) (r_caller r) false) = None ∧ registered (hs_world h) = true ∧ next h = (h', tt).
Proof.
  intros Hp. unfold RequireIdentity. rewrite bool_decide_eq_false_2 by done.
  destruct (String.eqb_spec (r_account r) ""), (String.eqb_spec (r_caller r) ""); cbn [orb]; try (intros [= <-]; left; by eexists).
  destruct (Validate _) eqn:Ev; [intros [= <-]; left; by eexists|]. intros (h1 & b & [= <- <-] & E)%St_bind_inv.
  destruct (registered (hs_world h)) eqn:Er; cbn [negb] in E; [by right|]. revert E. intros [= <-]. left. by eexists.
Qed.

Lemma IsAccountEnrolled_spec account w w' r : db.IsAccountEnrolled account w = (w', r) → rtc interfere (state w) (state w') ∧
  (r = Ok true → is_Some (objs (state w') KConfigMap !! (db.enrolledAccountsNamespace, account))).
Proof.
  unfold db.IsAccountEnrolled. intros (w1 & g & [Hi Hg]%Get_law & [-> ->]%St_ret_inv)%St_bind_inv. split; [done|].
  destruct g as [o|e]; [by eexists|by destruct (IsNotFound e)].
Qed.

(** The allowlist and the identity check in front of a handler. *)
Lemma admission_spec a q next w h' : hq_path q ∉ public_paths →
  allowlistAccounts a (with_Identity q) (λ r, RequireIdentity (account_registered a r) (hq_path q) r (next r)) (start w) = (h', tt) →
  ∃ w1, rtc interfere (state w) (state w1) ∧
   ((∃ x, hs_out h' = [x] ∧ resp_Status x = 403%Z ∧ hview h' = state w1) ∨
    ∃ r, gateway_request q r ∧ admitted a q r (state w1) ∧ next r (start w1) = (h', tt)).
Proof.
  intros Hp. unfold allowlistAccounts.
  assert (Hplain : ∀ h', RequireIdentity (account_registered a (with_Identity q)) (hq_path q) (with_Identity q) (next (with_Identity q)) (start w) = (h', tt) →
    ∃ w1, rtc interfere (state w) (state w1) ∧ ((∃ x, hs_out h' = [x] ∧ resp_Status x = 403%Z ∧ hview h' = state w1) ∨
      ∃ r, gateway_request q r ∧ admitted a q r (state w1) ∧ next r (start w1) = (h', tt))).
  { intros h2 [(x & -> & Hx)|(Hac & Hca & Hv & Hr & En)]%RequireIdentity_spec; [..|done]; exists w; (split; [done|]); [left; by exists x|].
    right. exists (with_Identity q). split; [by left|]. split; [|done]. split_and!; [done..|]. left.
    unfold account_registered in Hr. rewrite orb_false_r in Hr. by eexists. }
  destruct (accountPattern (r_account (with_Identity q))) eqn:Ea; [|apply Hplain]. cbn [negb].
  intros (h1 & b & [= <- <-] & E)%St_bind_inv. destruct (IsAccountRegistered _ _ _) eqn:Ereg; [by apply Hplain|].
  apply St_bind_inv in E as (h1 & e & (Ee & Ho & Hpr)%call_inv & E). apply IsAccountEnrolled_spec in Ee as [Hi Hen].
  set (r := match e with Ok true => _ | _ => _ end) in E. exists (hs_world h1). split; [done|].
  assert (h1 = start (hs_world h1)) as Eh by (destruct h1; simpl in *; by subst). rewrite Eh in E.
  apply RequireIdentity_spec in E as [(x & -> & Hx)|(Hac & Hca & Hv & Hr & En)]; [left; by exists x| |done].
  right. exists r. split; [destruct e as [[]|]; [by right|by left..]|]. split; [|done]. split_and!; [done..|].
  destruct e as [[]|err]; [right|left; unfold account_registered in Hr; rewrite orb_false_r in Hr; by eexists..].
  split_and!; [done..|]. by apply Hen.
Qed.

(** C9: A request that reaches the handler of a resource has a validated identity whose
    account is registered in the bundle or enrolled in the store; any other request is
    answered once, with 403 (or 413 for its length), and writes nothing. *)
Theorem serve_admission c a q op w h' :
  public_route (op_route op) = false → hq_path q ∉ public_paths → serve c a q op (start w) = (h', tt) →
  ∃ w1, rtc interfere (state w) (state w1) ∧
   ((∃ x, hs_out h' = [x] ∧ refused x ∧ hview h' = state w1) ∨
    ∃ r, gateway_request q r ∧ admitted a q r (state w1) ∧ handle c a op r (start w1) = (h', tt)).
Proof.
  intros Hpub Hp. unfold serve, LimitRequestBody. rewrite Hpub. destruct (_ <? hq_length q)%Z.
  - intros [= <-]. exists w. split; [done|]. left. eexists. split; [done|]. split; [by right|done].
  - intros (w1 & Hi & [(x & Hx & Hs & Hv)|?])%admission_spec; [..|done]; exists w1; (split; [done|]); [left|by right].
    exists x. split; [done|]. split; [by left|done].
Qed.

(** C32: Every request whose method the route has is answered exactly once, whatever the
    store, the other sessions and the authorizer do. *)
Theorem serve_answers_once c a q op w h' :
  hq_method q ∈ op_methods op → hq_path q ∉ public_paths ∨ public_route (op_route op) = true →
  serve c a q op (start w) = (h', tt) → List.length (hs_out h') = 1.
Proof.
  intros Hm Hp. unfold serve, LimitRequestBody. destruct (_ <? hq_length q)%Z; [by intros [= <-]|].
  destruct (public_route (op_route op)) eqn:Er; [by apply handle_once|].
  intros (w1 & Hi & [(x & -> & _)|(r & Hg & _ & E)])%admission_spec; [done| |by destruct Hp].
  eapply handle_once; [|done]. unfold routed. by destruct Hg as [-> | ->].
Qed.

(** ** Claims *)
Definition claimable_kind (k : Kind) : Prop := k = KDNSReservation ∨ k = KOidcConfig.

Lemma start_keeps k (m : St HState unit) w h' : moves hview (keeps k) m → m (start w) = (h', tt) → keeps k (state w) (hview h').
Proof. intros Hm E%Hm. by apply (keeps_rtc _ _ _ (keeps k)). Qed.

Section rely.
Context (k : Kind) (claimable : claimable_kind k) (rely : ∀ s s', interfere s s' → keeps k s s').

Lemma handle_keeps c a op r w h' : routed r op → handle c a op r (start w) = (h', tt) → keeps k (state w) (hview h').
Proof.
  assert (Hc : KCluster ≠ k) by (by destruct claimable; subst). assert (Hn : KNodePool ≠ k) by (by destruct claimable; subst).
  assert (Hi : KIndex ≠ k) by (by destruct claimable; subst). assert (Hcm : KConfigMap ≠ k) by (by destruct claimable; subst).
  intros Hm. unfold routed in Hm. destruct op; cbn [handle op_methods] in *.
  1: by apply start_keeps, safe_Enroll. 1: by apply start_keeps, safe_Unenroll.
  1: by apply start_keeps, safe_cluster_List. 1: by apply start_keeps, safe_cluster_Create. 1: by apply start_keeps, safe_cluster_Get.
  1: apply (safe_labels k rely); [intros; apply moves_ret|by apply label_method]. 1: by apply start_keeps, safe_cluster_Update. 1: by apply start_keeps, safe_cluster_Delete.
  1: by apply start_keeps, safe_nodepool_List. 1: by apply start_keeps, safe_nodepool_Create. 1: by apply start_keeps, safe_nodepool_Get.
  1: apply (safe_labels k rely); [apply moves_nodePoolResource|by apply label_method]. 1: by apply start_keeps, safe_nodepool_Update. 1: by apply start_keeps, safe_nodepool_Delete.
  1: by apply start_keeps, safe_oidc_List. 1: by apply start_keeps, safe_oidc_Create. 1: by apply start_keeps, safe_oidc_Get.
  1: apply (safe_labels k rely); [intros; apply moves_ret|by apply label_method].
  1: intros [_ Hs]%oidc_Delete_spec; by apply (keeps_delete_steps k rely) in Hs; [|apply state_wf].
  1: by apply start_keeps, safe_dns_List. 1: by apply start_keeps, safe_dns_Create. 1: by apply start_keeps, safe_dns_Get.
  1: apply (safe_labels k rely); [intros; apply moves_ret|by apply label_method].
  1: intros [_ Hs]%dns_Delete_spec; by apply (keeps_delete_steps k rely) in Hs; [|apply state_wf].
  1: by apply start_keeps, moves_api_Write. 1: unfold Readiness; destruct (negb _); by apply start_keeps, moves_api_Write.
  unfold Info. apply start_keeps. moves_all.
Qed.

Lemma serve_keeps c a q op w h' : hq_method q ∈ op_methods op → hq_path q ∉ public_paths ∨ public_route (op_route op) = true →
  serve c a q op (start w) = (h', tt) → keeps k (state w) (hview h').
Proof.
  intros Hm Hp. unfold serve, LimitRequestBody. destruct (_ <? hq_length q)%Z; [by intros [= <-]|].
  destruct (public_route (op_route op)) eqn:Er; [by apply handle_keeps|].
  intros (w1 & Hi & [(x & _ & _ & ->)|(r & Hg & _ & E)])%admission_spec; [by apply (keeps_rtc _ _ _ interfere)| |by destruct Hp].
  etrans; [by apply (keeps_rtc _ _ _ interfere)|]. eapply handle_keeps; [|done]. unfold routed. by destruct Hg as [-> | ->].
Qed.

(** A run of the API between two worlds: requests and claims of any clusters, one after
    another, each with the other sessions in between its calls. *)
Inductive api_run : World → World → Prop :=
| run_nil w w' : rtc interfere (state w) (state w') → api_run w w'
| run_request w w1 w' c a q op h' :
    rtc interfere (state w) (state w1) → hq_method q ∈ op_methods op → hq_path q ∉ public_paths ∨ public_route (op_route op) = true →
    serve c a q op (start w1) = (h', tt) → api_run (hs_world h') w' → api_run w w'
| run_claim w w1 w2 w' account clusterUID k' (R : ClusterClaimableResource k') x :
    rtc interfere (state w) (state w1) → owned_claimable account R → claimResource clusterUID R w1 = (w2, x) → api_run w2 w' → api_run w w'.

Lemma api_run_keeps w w' : api_run w w' → keeps k (state w) (state w').
Proof.
  induction 1 as [w w' Hi|w w1 w' c a q op h' Hi Hm Hp E _ IH|w w1 w2 w' account c k' R x Hi HR E _ IH].
  - by apply (keeps_rtc _ _ _ interfere).
  - etrans; [by apply (keeps_rtc _ _ _ interfere)|]. etrans; [by eapply serve_keeps|done].
  - etrans; [by apply (keeps_rtc _ _ _ interfere)|]. etrans; [|done].
    apply (keeps_rtc _ _ _ (keeps k)); [done|]. eapply (safe_claim k rely account); [done|exact E].
Qed.
End rely.

(** C1: Claims are exclusive: while nobody outside the API releases a claim, two claims of
    one DNS reservation or OIDC configuration (by UID) that both succeed, with any
    requests and claims in between, are of the same cluster. *)
Theorem claims_exclusive (k : Kind) account1 account2 c1 c2 (R1 R2 : ClusterClaimableResource k) w1 w1' w2 w2' :
  claimable_kind k → (∀ s s', interfere s s' → keeps k s s') →
  owned_claimable account1 R1 → owned_claimable account2 R2 → RequestedUID R1 = RequestedUID R2 → c1 ≠ "" →
  claimResource c1 R1 w1 = (w1', Ok None) → api_run w1' w2 → claimResource c2 R2 w2 = (w2', Ok None) → c1 = c2.
Proof.
  intros Hk Hrely HR1 HR2 Huid Hc1 E1 Hrun E2. apply (claim_refines_step account1) in E1 as [_ H1']; [|done].
  specialize (H1' eq_refl). apply (keeps_held _ _ _ _ (state w2')) in H1'; [|done|].
  - apply (claim_refines_step account2) in E2 as [_ E2]; [|done]. specialize (E2 eq_refl). rewrite Huid in H1'.
    eapply held_unique; [apply (state_wf w2')|done..].
  - etrans; [by eapply api_run_keeps|]. apply (keeps_rtc _ _ _ (keeps k)); [done|]. by eapply (safe_claim k Hrely account2).
Qed.

(** C10: Once a cluster has claimed a DNS reservation or an OIDC configuration, it holds it
    after any run of requests: no label patch, delete, update or other claim of the API
    takes the claim away or removes the resource. *)
Theorem claim_survives_requests (k : Kind) account c (R : ClusterClaimableResource k) w w1 w2 :
  claimable_kind k → (∀ s s', interfere s s' → keeps k s s') → owned_claimable account R → c ≠ "" →
  claimResource c R w = (w1, Ok None) → api_run w1 w2 → held k (RequestedUID R) c (state w2).
Proof.
  intros Hk Hrely HR Hc E Hrun. apply (claim_refines_step account) in E as [_ E]; [|done].
  eapply keeps_held; [done|by apply E|]. by eapply api_run_keeps.
Qed.
End server.
