(* ===== verification/ClusterProps.v ===== *)
(** * Creating a cluster

    A create that is answered with 201 was authorized, on the candidate and on each
    resource it references; it stored the candidate with its clean-up finalizer; and
    every resource it references is claimed by the new cluster, and by no other. *)
From S2P Require Import Prelude GoStrings Json Selectors Uuid Cidr AwsArn FieldValidator AuthzModel Arn Authorizer StateM HttpApi ApiTypes KubeClient ApiClient Handlers Claims Labels ClusterValidation AccountObjects Clusters NodePools SpotQueueProps Server Answers ServerProps.
From stdpp Require Import base gmap strings list relations.
From Stdlib Require Import ZArith Lia String.
Open Scope string_scope.

(** ** Failures *)
Definition failure (e : APIError) : Prop := (400 ≤ HTTPStatus e ≤ 599)%Z.

Lemma failure_status e : failure e → (400 ≤ resp_Status (WriteError e) ≤ 599)%Z.
Proof.
  intros He. destruct (WriteError_status e) as (Hr & Hs & _). unfold failure in He. destruct Hs as [->| ->]; [lia|done|simpl; lia].
Qed.

Ltac fail_const := solve [unfold failure; vm_compute; split; discriminate].

Section create.
Context `{NameValidation, ArnParser, CedarEngine, KubeClientLaws, !Clock, Retry, Fmt, !PublicViews, Digest, !SpecCodec, Codegen, CidrTexts, TagTable}.

Lemma failure_with_reason e arg : failure e → failure (with_reason e arg).
Proof. unfold with_reason, WithReason. by destruct (String.eqb _ _). Qed.
Lemma failure_with_errors e p : failure e → failure (WithErrors e p).
Proof. done. Qed.

Lemma failure_labels labels e : validateCreateLabels labels = Some e → failure e.
Proof. unfold validateCreateLabels. destruct (existsb _ _); [intros [= <-]; fail_const|]. destruct (_ <? _)%Z; [intros [= <-]; fail_const|done]. Qed.

Lemma failure_decode account body e : decodeClusterCreateRequest account body = Err e → failure e.
Proof.
  unfold decodeClusterCreateRequest. destruct (body_value body) as [[m p]|]; [|intros [= <-]; fail_const].
  destruct (_ || _); [intros [= <-]; fail_const|]. destruct (body_rawSpec body) as [[|kv l]|]; try (intros [= <-]; fail_const).
  destruct (negb _); [intros [= <-]; fail_const|]. destruct (negb _); [intros [= <-]; fail_const|].
  destruct (_ ++ _)%list; [|intros [= <-]; apply failure_with_errors; fail_const].
  destruct (Cidr.ValidateNetworkCIDRs _ _); [done|intros [= <-]; apply failure_with_errors; fail_const].
Qed.

Lemma failure_resolveDNS account uid w w' e : resolveDNSReservation account uid w = (w', Err e) → failure e.
Proof.
  unfold resolveDNSReservation. destruct (String.eqb uid ""); [intros [= _ <-]; fail_const|]. intros (w1 & g & _ & [_ E]%St_ret_inv)%St_bind_inv.
  destruct g as [o|k]; [|injection E as ->; destruct (IsNotFound k); fail_const].
  repeat (destruct (negb _); [injection E as ->; fail_const|]). done.
Qed.

Lemma failure_resolveOidc account uid w w' e : resolveOidcConfig account uid w = (w', Err e) → failure e.
Proof.
  unfold resolveOidcConfig. destruct (String.eqb uid ""); [intros [= _ <-]|]. intros (w1 & g & _ & [_ E]%St_ret_inv)%St_bind_inv.
  destruct g as [o|k]; [|injection E as ->; destruct (IsNotFound k); fail_const].
  repeat (destruct (negb _); [injection E as ->; first [fail_const|apply failure_with_reason; fail_const]|]). done.
Qed.

(** What a resolved reference is. *)
Lemma resolveDNS_ok account uid w w' d : resolveDNSReservation account uid w = (w', Ok d) → uid_of d = uid ∧ dns_ready d = true.
Proof.
  unfold resolveDNSReservation. destruct (String.eqb uid ""); [done|]. intros (w1 & g & _ & [_ E]%St_ret_inv)%St_bind_inv.
  destruct g as [o|k]; [|done]. destruct (String.eqb_spec (uid_of o) uid) as [Hu|]; [|done]. destruct (dns_ready o) eqn:Er; [|done].
  destruct (String.eqb (claim o) ""); [|done]. by injection E as ->.
Qed.
Lemma resolveOidc_ok account uid w w' d : resolveOidcConfig account uid w = (w', Ok (Some d)) → uid_of d = uid ∧ oidcConfigUsable d = true.
Proof.
  unfold resolveOidcConfig. destruct (String.eqb uid ""); [done|]. intros (w1 & g & _ & [_ E]%St_ret_inv)%St_bind_inv.
  destruct g as [o|k]; [|done]. destruct (String.eqb_spec (uid_of o) uid) as [Hu|]; [|done]. destruct (oidcConfigUsable o) eqn:Er; [|done].
  destruct (String.eqb (claim o) ""); [|done]. by injection E as ->.
Qed.

Lemma failure_precheck account url region name failed w w' e : failure failed → queue_precheck account url region name failed w = (w', Some e) → failure e.
Proof.
  intros Hf. unfold queue_precheck. intros (w1 & g & _ & [_ E]%St_ret_inv)%St_bind_inv. destruct g as [o|k]; [|by injection E as ->].
  destruct (ValidateSpotTerminationHandlerQueueURL _ _ _); [done|]. injection E as ->. apply failure_with_errors. fail_const.
Qed.

(** ** Claims of the new cluster *)
Lemma failure_claim {k} account c (R : ClusterClaimableResource k) w w' r failed e :
  (NotFoundAPIError R = e ∨ NotReadyAPIError R = e ∨ (∃ o, InUseAPIError R o = e) → failure e) → failure failed →
  claimResource c R w = (w', r) → owned_claimable account R → claim_answer failed r = Some e → failure e.
Proof.
  intros HR Hf E _ Ha. destruct r as [[x|]|k0]; [|done|by injection Ha as <-]. injection Ha as ->. apply HR.
  assert (Hone : ∀ w w' y, claim_once c R w = (w', Ok (Some y)) → NotFoundAPIError R = y ∨ NotReadyAPIError R = y ∨ ∃ o, InUseAPIError R o = y).
  { clear. intros w w' y. unfold claim_once. intros (w1 & l & _ & E)%St_bind_inv.
    destruct l as [o|k0]; [|apply St_ret_inv in E as [_ E]; destruct (IsNotFound k0); [injection E as ->; by left|done]].
    destruct (negb _); [apply St_ret_inv in E as [_ E]; injection E as ->; by left|]. destruct (String.eqb _ c); [by apply St_ret_inv in E as [_ E]|].
    destruct (negb _); [apply St_ret_inv in E as [_ E]; injection E as ->; right; right; by eexists|].
    destruct (negb _); [apply St_ret_inv in E as [_ E]; injection E as ->; right; by left|].
    apply St_bind_inv in E as (w2 & s & _ & [_ E]%St_ret_inv). by destruct s. }
  refine (retry_result IsConflict _ (λ _ a, ∀ y, a = Some y → NotFoundAPIError R = y ∨ NotReadyAPIError R = y ∨ ∃ o, InUseAPIError R o = y) w w' (Some e) _ E e eq_refl).
  intros s s' a E1 y ->. by eapply Hone.
Qed.

Lemma claimDNS_spec account uid c w w' r : claimDNSReservation account uid c w = (w', r) →
  match r with None => held KDNSReservation uid c (state w') | Some e => failure e end.
Proof.
  unfold claimDNSReservation. intros (w1 & x & E & [-> ->]%St_ret_inv)%St_bind_inv. destruct (claim_answer _ x) as [e|] eqn:Ea.
  - refine (failure_claim account _ _ _ _ _ _ _ _ _ E _ Ea); [|fail_const|done]. intros [<-|[<-|[o <-]]]; fail_const.
  - apply (claim_refines_step account) in E as [_ E]; [|done]. apply E. destruct x as [[]|]; done.
Qed.
Lemma claimOidc_spec account uid c w w' r : claimOidcConfig account uid c w = (w', r) →
  match r with None => held KOidcConfig uid c (state w') | Some e => failure e end.
Proof.
  unfold claimOidcConfig. intros (w1 & x & E & [-> ->]%St_ret_inv)%St_bind_inv. destruct (claim_answer _ x) as [e|] eqn:Ea.
  - refine (failure_claim account _ _ _ _ _ _ _ _ _ E _ Ea); [|fail_const|done]. intros [<-|[<-|[o <-]]]; [fail_const..|]. apply failure_with_reason. fail_const.
  - apply (claim_refines_step account) in E as [_ E]; [|done]. apply E. destruct x as [[]|]; done.
Qed.

Section rely.
Context (rely_dns : ∀ s s', interfere s s' → keeps KDNSReservation s s') (rely_oidc : ∀ s s', interfere s s' → keeps KOidcConfig s s').

Lemma cleanup_spec account name uid e w w' r : cleanup_then account name uid e w = (w', r) → r = Err e.
Proof. unfold cleanup_then. by intros (w1 & x & _ & [_ ->]%St_ret_inv)%St_bind_inv. Qed.

(** What the claims of a completed cluster are. *)
Definition references_held (cr : object KCluster) (dns : option (object KDNSReservation)) (oidc : option (object KOidcConfig)) (s : KState) : Prop :=
  (∀ d, dns = Some d → held KDNSReservation (uid_of d) (uid_of cr) s) ∧ (∀ o, oidc = Some o → held KOidcConfig (uid_of o) (uid_of cr) s).

Lemma used_ok account uid name cr w w' r :
  (t ← db.read_clock; _ ← db.UpdateOidcConfigLastUsedTimestamp account uid t; latest_cluster account name cr) w = (w', r) → is_ok r = true.
Proof.
  intros (w1 & t & _ & (w2 & x & _ & E)%St_bind_inv)%St_bind_inv. unfold latest_cluster in E.
  by apply St_bind_inv in E as (w3 & y & _ & [_ ->]%St_ret_inv).
Qed.

Lemma oidc_step_spec account name cr oidc w w' r : uid_of cr ≠ "" → claim_oidc_step account name cr oidc w = (w', r) →
  match r with Ok _ => ∀ o, oidc = Some o → held KOidcConfig (uid_of o) (uid_of cr) (state w') | Err e => failure e end.
Proof.
  intros Hne E. unfold claim_oidc_step in E. destruct oidc as [o|].
  - apply St_bind_inv in E as (w1 & c & Ec%claimOidc_spec & E). destruct c as [e|]; [by apply cleanup_spec in E as ->|].
    pose proof E as Hok%used_ok. destruct r as [cr'|e]; [|done]. intros o' [= <-].
    eapply keeps_held; [done|exact Ec|]. apply (keeps_rtc _ _ _ (keeps KOidcConfig)); [done|]. by eapply (safe_used _ rely_oidc).
  - unfold latest_cluster in E. by apply St_bind_inv in E as (w3 & y & _ & [_ ->]%St_ret_inv).
Qed.

Lemma dns_step_spec account name cr dns oidc w w' r : uid_of cr ≠ "" → claim_dns_step account name cr dns oidc w = (w', r) →
  match r with Ok _ => references_held cr dns oidc (state w') | Err e => failure e end.
Proof.
  intros Hne E. unfold claim_dns_step in E. destruct dns as [d|].
  - apply St_bind_inv in E as (w1 & c & Ec%claimDNS_spec & E). destruct c as [e|]; [by apply cleanup_spec in E as ->|].
    pose proof E as Ho%oidc_step_spec; [|done]. destruct r as [cr'|e]; [|done]. split; [|done]. intros d' [= <-].
    eapply keeps_held; [done|exact Ec|]. apply (keeps_rtc _ _ _ (keeps KDNSReservation)); [done|].
    by eapply (safe_claim_oidc_step _ rely_dns).
  - apply oidc_step_spec in E; [|done]. destruct r; [|done]. by split.
Qed.

Lemma complete_spec h account name cr dns oidc w w' r : uid_of cr ≠ "" → completeClusterCreate h account name cr dns oidc w = (w', r) →
  match r with Ok _ => references_held cr dns oidc (state w') | Err e => failure e end.
Proof.
  intros Hne E. unfold completeClusterCreate in E. destruct (match oidc with None => _ | Some _ => _ end); [|by eapply dns_step_spec].
  apply St_bind_inv in E as (w1 & u & _ & E). destruct u as [[]|e]; [by apply (dns_step_spec account name (set_IssuerURL _ cr)) in E|].
  apply cleanup_spec in E as ->. fail_const.
Qed.

(** ** The effects of a create *)

Lemma on_world_inv {A} (m : St World A) h h' r : on_world m h = (h', r) →
  m (hs_world h) = (hs_world h', r) ∧ hs_out h' = hs_out h ∧ hs_prepared h' = hs_prepared h.
Proof. unfold on_world. destruct (m (hs_world h)). by intros [= <- <-]. Qed.

(** How a create ends: with one error, or with 201 and its cluster. *)
Definition ends (Q : World → Response → Prop) (h' : HState) : Prop :=
  ∃ x, hs_out h' = [x] ∧ ((400 ≤ resp_Status x ≤ 599)%Z ∨ resp_Status x = 201%Z ∧ Q (hs_world h') x).

Lemma ends_mono (Q Q' : World → Response → Prop) h' : (∀ x, Q (hs_world h') x → Q' (hs_world h') x) → ends Q h' → ends Q' h'.
Proof. intros HQ (x & Hx & [He|[Hs Hq]]); exists x; (split; [done|]); [by left|right; split; [done|by apply HQ]]. Qed.

Lemma ends_error Q e h h' x : failure e → hs_out h = [] → writeAPIError e h = (h', x) → ends Q h'.
Proof. intros He Ho [= <-]. eexists. simpl. rewrite Ho. split; [done|]. left. by apply failure_status. Qed.

Lemma release_then_error Q b account url name e h h' x :
  failure e → hs_out h = [] → (_ ← release_claim b account url name; writeAPIError e) h = (h', x) → ends Q h'.
Proof.
  intros He Ho (h1 & [] & E1 & E)%St_bind_inv. eapply ends_error; [done| |exact E].
  apply (writes_release 0) in E1. rewrite Ho in E1. simpl in E1. destruct (hs_out h1); [done|]. simpl in E1. lia.
Qed.

(** The claim of the queue a create names, before the cluster is stored. *)
Definition queue_claimed (account url name : string) (w w' : World) : Prop :=
  if String.eqb url "" then w' = w
  else (∃ created, db.ClaimSpotTerminationQueue account url name w = (w', Ok created)) ∧ reserved account url name (state w').

(** The storing of a create's candidate, in the run from [w] to [w'] that answers [x]:
    the store creates that object, under a new UID; the create is completed for it; and
    in the end it holds the references. *)
Definition cluster_stored (h : ClusterHandler) (accountID : string) (cand : object KCluster) (dns : option (object KDNSReservation))
    (oidc : option (object KOidcConfig)) (w w' : World) (x : Response) : Prop :=
  ∃ cr latest w1 mid uid rv t, db.CreateCluster accountID cand w = (w1, Ok cr) ∧ rtc interfere (state w) mid ∧ uid_of cr = uid ∧
    create_effect (with_spec (k := KCluster) (db.set_cluster_account accountID (spec cand)) cand) uid rv t mid (state w1) ∧
    completeClusterCreate h accountID (om_Name (meta cand)) cr dns oidc w1 = (w', Ok latest) ∧
    references_held cr dns oidc (state w') ∧ x = HttpApi.Write 201 (Some (Some (public_json KCluster latest))).

Definition claimed_then_stored (h : ClusterHandler) (account url : string) (cand : object KCluster) (dns : option (object KDNSReservation))
    (oidc : option (object KOidcConfig)) (w w' : World) (x : Response) : Prop :=
  ∃ w1, queue_claimed account url (om_Name (meta cand)) w w1 ∧ cluster_stored h account cand dns oidc w1 w' x.

Lemma queue_claim_spec account url name h h' c :
  (if String.eqb url "" then mret (Ok false) else call (db.ClaimSpotTerminationQueue account url name)) h = (h', c) →
  hs_out h' = hs_out h ∧ (is_ok c = true → queue_claimed account url name (hs_world h) (hs_world h')).
Proof.
  unfold queue_claimed. destruct (String.eqb url ""); [by intros [-> ->]%St_ret_inv|]. intros (E & Ho & _)%call_inv. split; [done|].
  intros Hc. destruct c as [b|]; [|done]. split; [by exists b|]. by eapply ClaimSpot_spec.
Qed.

Lemma store_cluster_spec h account url cand dns oidc h1 h' : hs_out h1 = [] →
  store_cluster h account url cand dns oidc h1 = (h', tt) → ends (claimed_then_stored h account url cand dns oidc (hs_world h1)) h'.
Proof.
  intros Ho E. unfold store_cluster in E. apply St_bind_inv in E as (h2 & c & Ec & E).
  apply queue_claim_spec in Ec as [Ho2 Hq]. rewrite Ho in Ho2.
  destruct c as [created|e]; [|refine (ends_error _ _ _ _ _ _ Ho2 E); destruct (IsAlreadyExists e); [apply failure_with_errors|]; fail_const].
  apply St_bind_inv in E as (h3 & cr & (Ecr & Ho3 & _)%call_inv & E). rewrite Ho2 in Ho3.
  destruct cr as [cr|e]; [|refine (release_then_error _ _ _ _ _ _ _ _ _ _ Ho3 E); destruct (IsAlreadyExists e); [apply failure_with_reason|]; fail_const].
  pose proof Ecr as Hcr. unfold db.CreateCluster, db.check in Hcr. destruct (db.validateOwnedCandidate _ _ _); [|by apply St_ret_inv in Hcr as [_ ?]].
  apply Create_law in Hcr as (mid & Hm & uid & rv & t & Hcr & He).
  assert (Hu : uid_of cr = uid) by (by subst cr).
  apply St_bind_inv in E as (h4 & done & (Ed & Ho4 & _)%on_world_inv & E). rewrite Ho3 in Ho4.
  pose proof He as (_ & _ & Hne & _). pose proof Ed as Hd%complete_spec; [|by rewrite Hu].
  destruct done as [cr'|e]; [|exact (release_then_error _ _ _ _ _ _ _ _ _ Hd Ho4 E)].
  revert E. intros [= <-]. eexists. simpl. rewrite Ho4. split; [done|]. right. split; [done|].
  exists (hs_world h2). split; [by apply Hq|]. by exists cr, cr', (hs_world h3), mid, uid, rv, t.
Qed.

(** The precheck of the queue, when one is named. *)
Definition queue_prechecked (account url region : string) (w w' : World) : Prop :=
  if String.eqb url "" then w' = w else queue_precheck account url region "" ErrClusterCreateNameCheck w = (w', None).

(** The effects of a create, from the world [w] its references were read in. *)
Definition candidate_stored (h : ClusterHandler) (r : Request) (m : ObjectMeta) (p : PublicClusterSpec) (dns : option (object KDNSReservation))
    (oidc : option (object KOidcConfig)) (w w' : World) (x : Response) : Prop :=
  let '(url, region) := requestedTerminationHandlerQueue (hc_AWS (pc_HostedCluster p)) in
  ∃ w1 cand, queue_prechecked (r_account r) url region w w1 ∧
    cluster_candidate h (r_account r) (r_caller r) (now w1) m p dns oidc = Some cand ∧
    claimed_then_stored h (r_account r) url cand dns oidc w1 w' x.

(** From the authorized request on. *)
Lemma create_cluster_spec h r m p dns oidc h1 h' : hs_out h1 = [] → create_cluster h r m p dns oidc h1 = (h', tt) →
  ends (candidate_stored h r m p dns oidc (hs_world h1)) h'.
Proof.
  intros Ho E. unfold create_cluster in E. unfold candidate_stored. destruct (requestedTerminationHandlerQueue _) as [url region].
  apply St_bind_inv in E as (h2 & refused & Er & E).
  assert (hs_out h2 = [] ∧ match refused with Some e => failure e | None => queue_prechecked (r_account r) url region (hs_world h1) (hs_world h2) end) as [Ho2 Hf].
  { unfold queue_prechecked. destruct (String.eqb url ""); [apply St_ret_inv in Er as [-> ->]; by split|]. apply on_world_inv in Er as (Er & -> & _).
    split; [done|]. destruct refused as [e|]; [|done]. eapply failure_precheck; [|exact Er]. fail_const. }
  destruct refused as [e|]; [exact (ends_error _ _ _ _ _ Hf Ho2 E)|].
  apply St_bind_inv in E as (h3 & t & [= <- <-] & E). destruct (cluster_candidate _ _ _ _ _ _ _ _) as [cand|] eqn:Ec.
  - apply store_cluster_spec in E; [|done]. revert E. apply ends_mono. intros x Hst. by exists (hs_world h2), cand.
  - refine (ends_error _ _ _ _ _ _ Ho2 E). fail_const.
Qed.

(** ** Authorization *)

(** Requests that differ in their labels share the prepared authorization. *)
Lemma check_actions_labels labels p r resource actions : check_actions p r resource actions = check_actions p (withRequestLabels labels r) resource actions.
Proof. induction actions as [|action actions IH]; [done|]. cbn [check_actions]. by rewrite IH. Qed.

Lemma authorizeResource_labels labels a r operation resource additional h :
  r_shared r = true → is_Some (hs_prepared h) →
  authorizeResource a r operation resource additional h = authorizeResource a (withRequestLabels labels r) operation resource additional h.
Proof.
  intros Hs [p Hp]. unfold authorizeResource, prepareResourceAuthz, mbind, St_bind. simpl r_shared. rewrite Hs, Hp.
  by rewrite (check_actions_labels labels).
Qed.

Lemma authorizeResource_prepares a r operation resource additional h h' :
  r_shared r = true → authorizeResource a r operation resource additional h = (h', true) → is_Some (hs_prepared h').
Proof.
  intros Hs (h1 & x & E1 & E2)%St_bind_inv. destruct x as [p|e]; [|by apply St_bind_inv in E2 as (h2 & [] & _ & [_ ?]%St_ret_inv)].
  apply check_actions_spec in E2 as (_ & -> & _). unfold prepareResourceAuthz in E1. rewrite Hs in E1.
  destruct (hs_prepared h) as [p0|] eqn:Ep; [injection E1 as <- _; by exists p0|].
  destruct (Prepare _ _ _ _); injection E1 as <- ?; [by eexists|done].
Qed.

Lemma denial_status x : denial x → (400 ≤ resp_Status x ≤ 599)%Z.
Proof. intros [-> | ->]; apply failure_status; fail_const. Qed.

(** The references of a create, authorized under the request's labels. *)
Lemma reference_spec {k} a r labels operation (resource : object k → Resource) (ref : option (object k)) h h' ok :
  (∀ p, hs_prepared h = Some p → prepared_by a (withRequestLabels labels r) p) → r_shared r = true → is_Some (hs_prepared h) →
  match ref with Some o => authorizeResource a r operation (resource o) [] | None => mret true end h = (h', ok) →
  if ok : bool then
    (hs_world h' = hs_world h ∧ hs_out h' = hs_out h) ∧ is_Some (hs_prepared h') ∧ (∀ p, hs_prepared h' = Some p → prepared_by a (withRequestLabels labels r) p) ∧
    ∀ o, ref = Some o → authorized a (withRequestLabels labels r) [operation] (resource o)
  else ∃ x, denial x ∧ hs_out h' = (hs_out h ++ [x])%list.
Proof.
  intros Hp Hs Hsome E. destruct ref as [o|]; [|by apply St_ret_inv in E as [-> ->]].
  rewrite (authorizeResource_labels labels) in E by done. pose proof E as (Hw & Hp1 & Hok)%authorizeResource_spec; [|done].
  destruct ok; [|done]. destruct Hok as [Ho Ha]. split_and!; [done..|by refine (authorizeResource_prepares _ _ _ _ _ _ _ _ E)|done|]. by intros ? [= <-].
Qed.

Lemma references_spec a r labels dns oidc h h' ok :
  (∀ p, hs_prepared h = Some p → prepared_by a (withRequestLabels labels r) p) → r_shared r = true → is_Some (hs_prepared h) →
  authorizeReferences a r dns oidc h = (h', ok) →
  if ok : bool then
    (hs_world h' = hs_world h ∧ hs_out h' = hs_out h) ∧
    (∀ d, dns = Some d → authorized a (withRequestLabels labels r) [DescribeDNSReservation] (dnsReservationResource d)) ∧
    (∀ o, oidc = Some o → authorized a (withRequestLabels labels r) [DescribeOIDCConfig] (oidcConfigResource o))
  else ∃ x, denial x ∧ hs_out h' = (hs_out h ++ [x])%list.
Proof.
  intros Hp Hs Hsome (h1 & ok1 & E1 & E2)%St_bind_inv. apply (reference_spec a r labels) in E1; [|done..].
  destruct ok1; [|by apply St_ret_inv in E2 as [-> ->]]. destruct E1 as ([Hw1 Ho1] & Hs1 & Hp1 & Hd). cbn [negb] in E2.
  apply (reference_spec a r labels) in E2; [|done..]. rewrite Hw1, Ho1 in E2. destruct ok; [|done]. destruct E2 as ([??] & _ & _ & Ha). by split_and!.
Qed.

(** The request a create is authorized under. *)
Definition create_request (r : Request) (m : ObjectMeta) : Request :=
  withRequestLabels (customer_annotations (om_Annotations m)) (withAuthzOutcome r).

Lemma authorizeCreate_spec a r m p h h' ok :
  hs_out h = [] → hs_prepared h = None → authorizeCreate a (withAuthzOutcome r) m p h = (h', ok) →
  if ok : bool then
    (hs_world h' = hs_world h ∧ hs_out h' = []) ∧ is_Some (hs_prepared h') ∧ (∀ q, hs_prepared h' = Some q → prepared_by a (create_request r m) q) ∧
    authorized a (create_request r m) [CreateCluster] (candidateResource (clusterResource (PublicToInternalCluster m p (r_account r))) (om_Name m))
  else ∃ x, hs_out h' = [x] ∧ (400 ≤ resp_Status x ≤ 599)%Z.
Proof.
  intros Ho Hp. unfold authorizeCreate. destruct (validateCreateLabels (om_Annotations m)) as [e|] eqn:El.
  - intros (h1 & [] & [= <-] & [-> ->]%St_ret_inv)%St_bind_inv. simpl. rewrite Ho. eexists. split; [done|]. by eapply failure_status, failure_labels.
  - intros E. pose proof E as (Hw & Hp1 & Hok)%authorizeResource_spec; [|by rewrite Hp]. destruct ok.
    + destruct Hok as [-> Ha]. split_and!; [done..|by refine (authorizeResource_prepares _ _ _ _ _ _ _ _ E)|exact Hp1|exact Ha].
    + destruct Hok as (x & Hx & ->). rewrite Ho. exists x. split; [done|]. by apply denial_status.
Qed.

(** The run of a create that stores its cluster, from [w] to [w'], and answers [x]: the
    request is authorized; the references it names are resolved, and each is authorized;
    then the candidate is stored. Each step begins in the world the one before ended in. *)
Definition created_cluster (h : ClusterHandler) (a : Authorizer) (r : Request) (body : Decoded (ObjectMeta * PublicClusterSpec)) (w w' : World) (x : Response) : Prop :=
  ∃ m p dns oidc w1 w2,
    decodeClusterCreateRequest (r_account r) body = Ok (m, p) ∧
    authorized a (create_request r m) [CreateCluster] (candidateResource (clusterResource (PublicToInternalCluster m p (r_account r))) (om_Name m)) ∧
    requestedReservation (r_account r) (pc_DNSReservationID p) w = (w1, Ok dns) ∧
    (match dns with
     | Some d => uid_of d = pc_DNSReservationID p ∧ dns_ready d = true ∧ authorized a (create_request r m) [DescribeDNSReservation] (dnsReservationResource d)
     | None => pc_DNSReservationID p = ""
     end) ∧
    resolveOidcConfig (r_account r) (pc_OidcConfigID p) w1 = (w2, Ok oidc) ∧
    (match oidc with
     | Some o => uid_of o = pc_OidcConfigID p ∧ oidcConfigUsable o = true ∧ authorized a (create_request r m) [DescribeOIDCConfig] (oidcConfigResource o)
     | None => pc_OidcConfigID p = ""
     end) ∧
    candidate_stored h r m p dns oidc w2 w' x.

Lemma requestedReservation_spec account uid w w' r : requestedReservation account uid w = (w', r) →
  match r with
  | Ok (Some d) => uid_of d = uid ∧ dns_ready d = true
  | Ok None => uid = ""
  | Err e => failure e
  end.
Proof.
  unfold requestedReservation. destruct (String.eqb_spec uid "") as [->|]; [by intros [_ ->]%St_ret_inv|].
  intros (w1 & d & E & [_ ->]%St_ret_inv)%St_bind_inv. destruct d as [d|e]; [by eapply resolveDNS_ok|by eapply failure_resolveDNS].
Qed.

Lemma resolveOidc_none account uid w w' : resolveOidcConfig account uid w = (w', Ok None) → uid = "".
Proof.
  unfold resolveOidcConfig. destruct (String.eqb_spec uid "") as [->|]; [done|]. intros (w1 & g & _ & [_ E]%St_ret_inv)%St_bind_inv.
  destruct g as [o|k]; [|done]. repeat (destruct (negb _); [done|]). done.
Qed.

(** C4: A POST of a cluster is answered once: with an error, or with 201. A run that answers
    201 decoded a valid request and was allowed the create; it read the DNS reservation
    and the OIDC configuration the request names, which were ready and which the caller
    may describe; it claimed the Spot termination queue the request names; its call of
    the store created the request's candidate, made from these references, under a new
    UID; and when it answers, with the cluster it then reads back, they are claimed by
    that very UID. *)
Theorem cluster_Create_safe h a r body w h' : cluster_Create h a r body (start w) = (h', tt) → ends (created_cluster h a r body w) h'.
Proof.
  intros E. pose proof (eq_refl : hs_out (start w) = []) as Ho. unfold cluster_Create in E.
  destruct (negb (body_read body)); [refine (ends_error _ _ _ _ _ _ Ho E); fail_const|].
  change (r_account (withAuthzOutcome r)) with (r_account r) in E.
  destruct (decodeClusterCreateRequest (r_account r) body) as [[m p]|e] eqn:Ed; [|exact (ends_error _ _ _ _ _ (failure_decode _ _ _ Ed) Ho E)].
  apply St_bind_inv in E as (h1 & ok & E1 & E). apply authorizeCreate_spec in E1 as Hok; [|done..].
  destruct ok; cbn [negb] in E; [|apply St_ret_inv in E as [-> _]; destruct Hok as (x & Hx & Hs); exists x; by split; [|left]].
  destruct Hok as ([Hw1 Ho1] & Hsome & Hp1 & Ha). simpl in Hw1.
  apply St_bind_inv in E as (h2 & dns & (E2 & Ho2 & Hp2)%on_world_inv & E). rewrite Hw1 in E2. pose proof E2 as Hdns%requestedReservation_spec.
  destruct dns as [dns|e]; [|refine (ends_error _ _ _ _ _ Hdns _ E); congruence].
  apply St_bind_inv in E as (h3 & oidc & (E3 & Ho3 & Hp3)%on_world_inv & E).
  destruct oidc as [oidc|e]; [|refine (ends_error _ _ _ _ _ (failure_resolveOidc _ _ _ _ _ E3) _ E); congruence].
  assert (Ho3' : hs_out h3 = []) by congruence.
  apply St_bind_inv in E as (h4 & ok & E4 & E). eapply (references_spec a (withAuthzOutcome r) (customer_annotations (om_Annotations m))) in E4;
    [|intros q Hq; apply Hp1; congruence|done|by rewrite Hp3, Hp2]. rewrite Ho3' in E4.
  destruct ok; cbn [negb] in E; [|apply St_ret_inv in E as [-> _]; destruct E4 as (x & Hx%denial_status & Hxo); exists x; by split; [|left]].
  destruct E4 as ([Hw4 Ho4] & Hd & Hoi). apply create_cluster_spec in E; [|done]. rewrite Hw4 in E. revert E. apply ends_mono. intros x Hst.
  exists m, p, dns, oidc, (hs_world h2), (hs_world h3). split_and!; [done|exact Ha|exact E2| |exact E3| |exact Hst].
  - destruct dns as [d|]; [|done]. destruct Hdns. split_and!; [done..|by apply Hd].
  - destruct oidc as [o|]; [apply resolveOidc_ok in E3 as [??]; split_and!; [done..|by apply Hoi]|by eapply resolveOidc_none].
Qed.
End rely.
End create.

(** * Updates of clusters and node pools

    The only write of an update to its kind replaces the snapshot it was authorized on —
    with every action the change needs — by its candidate: the same metadata, the merged
    spec with the service-set fields of the stored one. The claim of a queue a cluster
    names anew comes before it. *)
From stdpp Require Import base gmap strings list relations.
From Stdlib Require Import ZArith Lia String.
Open Scope string_scope.

Section updates.
Context `{NameValidation, ArnParser, CedarEngine, KubeClientLaws, !Clock, Retry, Fmt, !PublicViews, Digest, !SpecCodec, Codegen, CidrTexts, TagTable}.

(** ** Steps of a handler, and its prepared authorization *)
Definition within (R : relation KState) (a : Authorizer) (r : Request) (s0 : KState) (h : HState) : Prop :=
  rtc R s0 (hview h) ∧ ∀ p, hs_prepared h = Some p → prepared_by a r p.

(** Programs that prepare nothing. *)
Notation quiet m := (moves hs_prepared eq m).

Lemma quiet_on_world {A} (m : St World A) : quiet (on_world m).
Proof. intros h h' x. unfold on_world. destruct (m _). by intros [= <- _]. Qed.
Lemma quiet_call {A} (m : Call A) : quiet (call m).
Proof. apply quiet_on_world. Qed.
Lemma quiet_respond x : quiet (respond x).
Proof. intros h h' [] [= <-]. reflexivity. Qed.
Lemma quiet_reply {A} e : quiet (reply (A := A) e).
Proof. apply moves_bind; [apply quiet_respond|]. intros; apply moves_ret. Qed.

Ltac quiet_all := repeat (first [apply moves_ret|apply quiet_call|apply quiet_on_world|apply quiet_respond|apply quiet_reply
  |apply moves_bind; [|intros ?]|match goal with |- moves _ _ (match ?x with _ => _ end) => destruct x end]).

Lemma quiet_check_tags {A} given validate invalid failed : quiet (check_tags (A := A) given validate invalid failed).
Proof. unfold check_tags, reply_invalid. quiet_all. Qed.
Lemma quiet_update_queue {A} account name cr candidate : quiet (update_queue (A := A) account name cr candidate).
Proof. unfold update_queue. quiet_all. Qed.
Lemma quiet_update_write {k} write notFound failed : quiet (update_write (k := k) write notFound failed).
Proof. unfold update_write. quiet_all. Qed.

Lemma eq_rtc {T} (x y : T) : rtc eq x y → x = y.
Proof. induction 1; congruence. Qed.

Lemma within_moves {A} R a r s0 (m : St HState A) h h' x : moves hview R m → quiet m → within R a r s0 h → m h = (h', x) → within R a r s0 h'.
Proof.
  intros Hm Hq [Hs Hp] E. split; [etrans; [done|by eapply Hm]|]. apply Hq, eq_rtc in E. by rewrite <- E.
Qed.

Lemma within_authorize R a r s0 operation resource additional h h' ok :
  within R a r s0 h → authorizeResource a r operation resource additional h = (h', ok) →
  within R a r s0 h' ∧ hview h' = hview h ∧ (ok = true → authorized a r (operation :: additional) resource).
Proof.
  intros [Hs Hp] (Hw & Hp' & Hok)%authorizeResource_spec; [|done]. assert (hview h' = hview h) as Hv by (unfold hview; by rewrite Hw).
  split_and!; [|done|intros ->; by destruct Hok]. split; [by rewrite Hv|done].
Qed.

(** ** The write *)
Definition update_step {k} (other : relation KState) (key : nsname) (allowed : object k → object k → Prop) (s s' : KState) : Prop :=
  other s s' ∨
  ∃ o candidate rv g, key_of o = key ∧ objs s k !! key_of o = Some o ∧ meta candidate = meta o ∧ allowed o candidate ∧ update_effect candidate rv g s s'.

Lemma update_other {k} other key (allowed : object k → object k → Prop) s s' : rtc other s s' → rtc (update_step other key allowed) s s'.
Proof. apply rtc_subrel. intros ???. by left. Qed.

Lemma within_write {k} (other : relation KState) key (allowed : object k → object k → Prop) a r s0 account notFound failed (o candidate : object k) s1 h h' x :
  (∀ s s', interfere s s' → other s s') →
  wf s1 → objs s1 k !! key = Some o → evolves s1 (hview h) → meta candidate = meta o → allowed o candidate →
  within (update_step other key allowed) a r s0 h → update_write (db.UpdateOwned account k candidate) notFound failed h = (h', x) →
  within (update_step other key allowed) a r s0 h'.
Proof.
  intros Hio Hwf Ho Hev Hmeta Hall [Hs Hp] E. split; [|apply quiet_update_write, eq_rtc in E; by rewrite <- E].
  unfold update_write in E. apply St_bind_inv in E as (h1 & u & (Eu & _ & _)%call_inv & E).
  assert (hview h' = hview h1) as ->.
  { destruct u as [o'|e]; [by apply St_ret_inv in E as [-> _]|]. destruct (IsConflict e); [by apply St_ret_inv in E as [-> _]|].
    unfold reply, answer in E. by apply St_bind_inv in E as (h2 & [] & [= <-] & [-> _]%St_ret_inv). }
  apply UpdateOwned_effect in Eu as (mid & Hm & Heff).
  assert (Hmid : rtc (update_step other key allowed) s0 mid).
  { etrans; [done|]. apply update_other. revert Hm. apply rtc_subrel. intros ??. apply Hio. }
  destruct Heff as [[Hst _]|(rv & g & He)]; [by unfold hview; rewrite Hst|]. eapply rtc_r; [done|]. right.
  exists o, candidate, rv, g. assert (key_of o = key) as Hk by (symmetry; by apply (wf_key _ Hwf _ _ _ Ho)).
  split_and!; [done| |done..]. pose proof He as (cur & Hcur & Hv & _). unfold key_of in Hcur. rewrite Hmeta in Hcur. rewrite <- Hk in Ho.
  assert (cur = o) as ->; [|exact Hcur]. eapply (snapshot_current s1); [done| |exact Ho|exact Hcur|].
  - etrans; [done|]. by apply interference_evolves.
  - unfold same_version, uid_of in *. by rewrite Hmeta in Hv.
Qed.

(** ** Clusters *)

Lemma spot_evolves account url name s s' : wf s → rtc (spot_step account url name) s s' → evolves s s' ∧ wf s'.
Proof.
  intros Hwf Hs. induction Hs as [s|s m s' Hm _ IH]; [by split|]. assert (evolves s m ∧ wf m) as [He Hw].
  { destruct Hm as [Hi|[(t & uid & rv & n & Hc)|[(e & t & rv & g & _ & _ & _ & Hu)|(e & w0 & t & rv & _ & _ & _ & _ & _ & _ & Hd)]]].
    - split; [by apply interfere_evolves|by eapply interfere_wf].
    - split; [by eapply create_evolves|by eapply create_wf].
    - split; [by eapply update_evolves|by eapply update_wf].
    - split; [by eapply delete_evolves|by eapply delete_wf]. }
  destruct (IH Hw) as [He2 Hw2]. split; [by etrans|done].
Qed.

(** What other steps an update of a cluster takes: a claim of a queue. *)
Definition queue_steps (account name : string) (s s' : KState) : Prop := ∃ url, spot_step account url name s s'.

Lemma queue_interference account name s s' : interfere s s' → queue_steps account name s s'.
Proof. intros Hi. exists "". by left. Qed.

Definition cluster_allowed (a : Authorizer) (r : Request) (raw members : list (string * json)) (o candidate : object KCluster) : Prop :=
  authorized a r (UpdateCluster :: clusterUpdateActions (spec o) (spec candidate)) (clusterResource o) ∧
  ValidateUpdate "Cluster" raw (spec o) = [] ∧
  merged "Cluster" members o ErrClusterUpdateInvalidSpec ErrClusterUpdateFailed = Ok candidate.

Lemma merged_meta {k} kind members (o candidate : object k) e1 e2 : merged kind members o e1 e2 = Ok candidate → meta candidate = meta o.
Proof. unfold merged. destruct (MergeSpecJSON _ _); [|done]. destruct (preserve _ _ _); [|done]. by intros [= <-]. Qed.

(** The claim of the queue, from the world the update was authorized in. *)
Lemma update_queue_steps {A} account name cr candidate h h' (x : option (result attempt_err A)) :
  update_queue account name cr candidate h = (h', x) → rtc (queue_steps account name) (hview h) (hview h') ∧ evolves (hview h) (hview h').
Proof.
  intros E. assert (Hq : ∃ url, rtc (spot_step account url name) (hview h) (hview h')).
  { unfold update_queue in E. destruct (clusterTerminationHandlerQueue candidate) as [url region]. exists url.
    destruct (_ || _); [by apply St_ret_inv in E as [-> _]|]. revert E. apply (moves_bind hview); [|intros [e|]].
    - apply moves_on_world. unfold queue_precheck, db.ListClusters, db.ListOwned. apply moves_bind; [|intros; apply moves_ret].
      intros w w' y [Hi _]%List_law. by apply spot_interference.
    - apply moves_bind; [apply moves_bind; [apply moves_respond|intros; apply moves_ret]|intros; apply moves_ret].
    - apply moves_bind; [|intros [b|e]; [apply moves_ret|]].
      + apply moves_call. intros w w' y [Hs _]%ClaimSpot_spec. done.
      + apply moves_bind; [apply moves_bind; [apply moves_respond|intros; apply moves_ret]|intros; apply moves_ret]. }
  destruct Hq as [url Hq]. split; [|by eapply spot_evolves; [apply state_wf|]].
  revert Hq. apply rtc_subrel. intros s s' Hs. by exists url.
Qed.

Lemma moves_validate_tags account cluster : moves state interfere (validateUpdatedClusterTags account cluster).
Proof.
  unfold validateUpdatedClusterTags, db.and_then, db.ListNodePools, db.ListOwned. destruct (_ ++ _)%list; [|apply moves_ret].
  apply moves_bind; [apply moves_List|]. intros [l|e]; apply moves_ret.
Qed.

Lemma check_tags_steps {A} given validate invalid failed h h' x : moves state interfere validate →
  check_tags (A := A) given validate invalid failed h = (h', x) → rtc interfere (hview h) (hview h').
Proof.
  intros Hv. unfold check_tags. destruct given; [|by intros [-> _]%St_ret_inv]. apply (moves_bind hview); [by apply moves_call|].
  intros [[|e l]|e]; [apply moves_ret|..]; (apply moves_bind; [apply moves_bind; [apply moves_respond|intros; apply moves_ret]|intros; apply moves_ret]).
Qed.

Lemma reply_within {A} R a r s0 e h h' x : within R a r s0 h → reply (A := A) e h = (h', x) → within R a r s0 h'.
Proof. apply within_moves; [apply moves_bind; [apply moves_respond|intros; apply moves_ret]|apply quiet_reply]. Qed.

Lemma interference_within R a r s0 h h' : (∀ s s', interfere s s' → R s s') → within R a r s0 h →
  rtc interfere (hview h) (hview h') → hs_prepared h' = hs_prepared h → within R a r s0 h'.
Proof. intros HR [Hs Hp] Hi Hq. split; [|by rewrite Hq]. etrans; [done|]. revert Hi. apply rtc_subrel, HR. Qed.

Lemma cluster_attempt_spec a r raw members s0 h h' x :
  let R := update_step (queue_steps (r_account r) (r_id r)) (db.accountNamespace (r_account r), r_id r) (cluster_allowed a r raw members) in
  within R a r s0 h → cluster_updateOnce a r raw members h = (h', x) → within R a r s0 h'.
Proof.
  intros R B E. assert (HR : ∀ s s', interfere s s' → R s s') by (intros; left; by apply queue_interference).
  unfold cluster_updateOnce in E. apply St_bind_inv in E as (h1 & g & (Eg & _ & Hp1)%call_inv & E).
  apply Get_law in Eg as [Hi1 Hg]. apply (interference_within _ _ _ _ _ h1 HR) in B; [|done..]. clear Hi1 Hp1.
  destruct g as [o|e]; [|by eapply reply_within].
  apply St_bind_inv in E as (h2 & ok & (B2 & Hv2 & _)%(within_authorize R _ _ s0) & E); [|done].
  destruct ok; cbn [negb] in E; [|by apply St_ret_inv in E as [-> _]].
  destruct (ValidateUpdate "Cluster" raw (spec o)) as [|err errs] eqn:Ev; [|by eapply reply_within].
  destruct (merged _ _ _ _ _) as [candidate|e] eqn:Em; [|by eapply reply_within].
  apply St_bind_inv in E as (h3 & ok & (B3 & Hv3 & Ha)%(within_authorize R _ _ s0) & E); [|done].
  destruct ok; cbn [negb] in E; [|by apply St_ret_inv in E as [-> _]]. specialize (Ha eq_refl).
  apply St_bind_inv in E as (h4 & tags & Et & E). pose proof Et as Hi4%check_tags_steps; [|apply moves_validate_tags].
  apply quiet_check_tags, eq_rtc in Et. apply (interference_within _ _ _ _ _ h4 HR) in B3; [|done..].
  destruct tags as [y|]; [by apply St_ret_inv in E as [-> _]|].
  apply St_bind_inv in E as (h5 & queue & Eq & E). pose proof Eq as [Hq5 He5]%update_queue_steps. apply quiet_update_queue, eq_rtc in Eq.
  assert (B5 : within R a r s0 h5).
  { destruct B3 as [Hs Hp]. split; [|by rewrite <- Eq]. etrans; [exact Hs|]. by apply update_other. }
  destruct queue as [y|]; [by apply St_ret_inv in E as [-> _]|].
  refine (within_write _ _ _ _ _ _ _ _ _ o candidate (hview h1) _ _ _ _ (state_wf (hs_world h1)) Hg _ _ _ B5 E).
  - apply queue_interference.
  - etrans; [|exact He5]. rewrite <- Hv2, <- Hv3. by apply interference_evolves.
  - by eapply merged_meta.
  - split_and!; [exact Ha|done|done].
Qed.

(** The retried attempts: what holds of one attempt holds of the handler. *)
Lemma update_handler_within {k} R a r s0 (attempt : St HState (result attempt_err (object k))) conflict w h' :
  (∀ h h1 x, within R a r s0 h → attempt h = (h1, x) → within R a r s0 h1) → s0 = state w →
  update_handler attempt conflict (start w) = (h', tt) → rtc R s0 (hview h').
Proof.
  intros Ha -> E. unfold update_handler in E. apply St_bind_inv in E as (h1 & u & E1 & E2).
  eapply (triple_retry attempt_conflict attempt (within R a r (state w)) (λ _, within R a r (state w))) in E1 as [Hs _].
  - destruct u as [o|[|e]]; [by injection E2 as <-| |by injection E2 as <-]. by apply St_ret_inv in E2 as [-> _].
  - intros h h2 x Hw E. by eapply Ha.
  - done.
  - split; [reflexivity|done].
Qed.

(** C6: A PATCH of a cluster writes to clusters only what it was allowed to: the stored
    cluster it read — of the caller's account, under the request's name — is replaced by
    the merge of its spec with the request's, every member of which may be updated, and
    only when the caller may perform every action this change needs on that very
    snapshot. Before it, the update may reserve the queue it names. *)
Theorem cluster_Update_safe a r body w h' : cluster_Update a r body (start w) = (h', tt) →
  match cluster_update_request (r_account r) body with
  | Err _ => hview h' = state w
  | Ok (raw, members) =>
      rtc (update_step (queue_steps (r_account r) (r_id r)) (db.accountNamespace (r_account r), r_id r) (cluster_allowed a (withAuthzOutcome r) raw members))
        (state w) (hview h')
  end.
Proof.
  unfold cluster_Update. destruct (cluster_update_request _ _) as [[raw members]|e]; [|by intros [= <-]].
  intros E. eapply update_handler_within; [|reflexivity|exact E]. intros h h1 x. apply (cluster_attempt_spec a (withAuthzOutcome r)).
Qed.

(** ** Node pools *)
Context `{!LabelParser}.

(** The pool is authorized on its parent, as some moment of the store had it. *)
Definition nodepool_allowed (a : Authorizer) (r : Request) (replicas : option Z) (raw members : list (string * json)) (o candidate : object KNodePool) : Prop :=
  (∃ w w' res, nodePoolResource (r_account r) o w = (w', Ok res) ∧
     authorized a r (UpdateNodePool :: nodePoolUpdateActions (spec o) (spec candidate)) res) ∧
  (ValidateUpdate "NodePool" raw (spec o) ++ validateNodePoolReplicas replicas)%list = [] ∧
  merged "NodePool" members o ErrNodePoolUpdateInvalidSpec ErrNodePoolUpdateFailed = Ok candidate.

Lemma within_authorizeNodePool R a r s0 np additional h h' ok : (∀ s s', interfere s s' → R s s') →
  within R a r s0 h → authorizeNodePool a r UpdateNodePool np additional h = (h', ok) →
  within R a r s0 h' ∧ rtc interfere (hview h) (hview h') ∧
  (ok = true → ∃ w w' res, nodePoolResource (r_account r) np w = (w', Ok res) ∧ authorized a r (UpdateNodePool :: additional) res).
Proof.
  intros HR B E. unfold authorizeNodePool in E. apply St_bind_inv in E as (h1 & res & (E1 & _ & Hp1)%call_inv & E).
  pose proof E1 as Hi%moves_nodePoolResource. change (rtc interfere (hview h) (hview h1)) in Hi.
  pose proof (interference_within _ _ _ _ _ h1 HR B Hi Hp1) as B1.
  destruct res as [res|e].
  - change (String.eqb UpdateNodePool CreateNodePool) with false in E. cbv iota in E.
    apply (within_authorize R _ _ s0) in E as (B2 & Hv & Ha); [|done]. split_and!; [done|by rewrite Hv|]. intros Hok.
    exists (hs_world h), (hs_world h1), res. split; [done|by apply Ha].
  - cbn in E. destruct (IsNotFound e); apply St_bind_inv in E as (h2 & [] & [= <-] & [-> ->]%St_ret_inv); by split_and!.
Qed.

Lemma moves_validate_pool_tags account np : moves state interfere (validateUpdatedNodePoolTags account np).
Proof.
  unfold validateUpdatedNodePoolTags. destruct (ValidateCustomerAWSTags _ _); [|apply moves_ret]. cbv zeta.
  destruct (if String.eqb _ _ then _ else _); [|apply moves_ret].
  apply moves_bind; [apply moves_Get|]. intros [c|e]; apply moves_ret.
Qed.

Lemma nodepool_attempt_spec a r replicas raw members s0 h h' x :
  let R := update_step interfere (db.accountNamespace (r_account r), r_id r) (nodepool_allowed a r replicas raw members) in
  within R a r s0 h → nodepool_updateOnce a r replicas raw members h = (h', x) → within R a r s0 h'.
Proof.
  intros R B E. assert (HR : ∀ s s', interfere s s' → R s s') by (intros; by left).
  unfold nodepool_updateOnce in E. apply St_bind_inv in E as (h1 & g & (Eg & _ & Hp1)%call_inv & E).
  apply Get_law in Eg as [Hi1 Hg]. apply (interference_within _ _ _ _ _ h1 HR) in B; [|done..]. clear Hi1 Hp1.
  destruct g as [o|e]; [|by eapply reply_within].
  apply St_bind_inv in E as (h2 & ok & (B2 & Hv2 & _)%(within_authorizeNodePool R _ _ s0 _ _ _ _ _ HR) & E); [|done].
  destruct ok; cbn [negb] in E; [|by apply St_ret_inv in E as [-> _]].
  destruct (ValidateUpdate "NodePool" raw (spec o) ++ _)%list as [|err errs] eqn:Ev; [|by eapply reply_within].
  destruct (merged _ _ _ _ _) as [candidate|e] eqn:Em; [|by eapply reply_within].
  apply St_bind_inv in E as (h3 & ok & (B3 & Hv3 & Ha)%(within_authorizeNodePool R _ _ s0 _ _ _ _ _ HR) & E); [|done].
  destruct ok; cbn [negb] in E; [|by apply St_ret_inv in E as [-> _]]. specialize (Ha eq_refl).
  apply St_bind_inv in E as (h4 & tags & Et & E). pose proof Et as Hi4%check_tags_steps; [|apply moves_validate_pool_tags].
  apply quiet_check_tags, eq_rtc in Et. apply (interference_within _ _ _ _ _ h4 HR) in B3; [|done..].
  destruct tags as [y|]; [by apply St_ret_inv in E as [-> _]|].
  refine (within_write _ _ _ _ _ _ _ _ _ o candidate (hview h1) _ _ _ _ (state_wf (hs_world h1)) Hg _ _ _ B3 E).
  - done.
  - apply interference_evolves. etrans; [exact Hv2|]. by etrans.
  - by eapply merged_meta.
  - split_and!; [exact Ha|done|done].
Qed.

(** A PATCH of a node pool writes only the stored pool it read, of the caller's
    account and under the request's name: it is replaced by the merge of its spec with
    the request's, every member of which may be updated, and only when the caller may
    perform every action this change needs on that pool under its parent — the cluster
    that owns it. *)
Theorem nodepool_Update_safe a r value body w h' : nodepool_Update a r value body (start w) = (h', tt) →
  match nodepool_update_request (r_account r) value body with
  | Err _ => hview h' = state w
  | Ok (replicas, raw, members) =>
      rtc (update_step interfere (db.accountNamespace (r_account r), r_id r) (nodepool_allowed a (withAuthzOutcome r) replicas raw members)) (state w) (hview h')
  end.
Proof.
  unfold nodepool_Update. destruct (nodepool_update_request _ _ _) as [[[replicas raw] members]|e]; [|by intros [= <-]].
  intros E. eapply update_handler_within; [|reflexivity|exact E]. intros h h1 x. apply (nodepool_attempt_spec a (withAuthzOutcome r)).
Qed.
End updates.
