(* ===== verification/ApiExamples.v ===== *)
(** * Requests on a store in memory

    A concrete API server: acme's bundle (Authorizer.v) on the store of
    KubeMemory.v. A reservation is created and made ready, a cluster claims it, deletes
    and label patches follow. The theorems of the handlers apply to these runs. *)
From S2P Require Import Prelude GoStrings Json Selectors Uuid Cidr FieldPaths AwsArn FieldValidator Preserve AuthzModel Arn AuthzStore AuthzStoreTheorems Authorizer StateM HttpApi ApiTypes KubeClient KubeMemory ApiClient Handlers Claims Labels ClusterValidation AccountObjects Clusters NodePools SpotQueueProps Server Answers ServerProps ClusterProps.
From stdpp Require Import base gmap strings list relations.
From Stdlib Require Import ZArith Lia String DecimalString DecimalZ.
Open Scope string_scope.

(** ** Instances *)
#[local] Existing Instances arn_splitter text_engine five_times.

Definition no_bodies : Passthrough := {|
  Configuration := string; Release := string; UpgradePolicy := unit; AutoScaling := unit;
  ClusterRest := unit; NodePoolRest := unit; UpgradePolicyStatus := unit; HostedClusterRest := unit; HyperNodePoolRest := unit
|}.
#[local] Existing Instance no_bodies.

Definition any_name : NameValidation := {|
  IsQualifiedName s := negb (String.eqb s ""); IsValidLabelValue _ := true;
  IsDNS1123Label s := negb (String.eqb s ""); IsDNS1123Subdomain s := negb (String.eqb s "")
|}.
Definition quoted : Fmt := {| Quote s := "'" +:+ s +:+ "'" |}.
Definition named_views : PublicViews := {| public_json k o := JObj [("name", JStr (om_Name (meta o)))] |}.
Definition plain_digest : Digest := {| hex_sha256 s := s |}.

Definition decimal_clock : Clock.
Proof.
  refine {| now w := mem_now (proj1_sig w); time_Format t := NilEmpty.string_of_int (Z.to_int t);
            time_Parse s := Z.of_int <$> NilEmpty.int_of_string s |}.
  intros t. rewrite NilEmpty.isi. simpl. by rewrite DecimalZ.of_to.
Defined.

(** Specs that encode their tags and their reservation. *)
Definition tags_of (j : json) : option (gmap string string) :=
  match j with
  | JObj l => list_to_map <$> mapM (fun kv => match kv.2 with JStr v => Some (kv.1, v) | _ => None end) l
  | _ => None
  end.
Definition strings_json (m : gmap string string) : json := JObj ((fun kv => (kv.1, JStr kv.2)) <$> map_to_list m).

Definition zero_cluster : ClusterSpec := mkClusterSpec "" "" "" "" "" None ∅ None (mkHostedCluster None "" None "") tt.
Definition zero_pool : NodePoolSpec := mkNodePoolSpec "" "" None ∅ ∅ "" (mkNodePoolPassthrough "" None None "" ∅ false) tt.

Definition zero_hosted : HostedClusterSpec :=
  mkHostedClusterSpec "" "" "" "" "" "" "" "" [] [] None "" None (mkNetworking "" [] [] []) "" "" None None tt.
Definition zero_hyper_pool : HyperNodePoolSpec := mkHyperNodePoolSpec "" "" (mkManagement "" false None None) ∅ None None None tt.

Definition tag_codec : SpecCodec := {|
  spec_JSON k := match k with
    | KCluster => fun c => JObj [("tags", strings_json (cl_Tags c)); ("dnsReservationID", JStr (cl_DNSReservationID c))]
    | KNodePool => fun p => JObj [("tags", strings_json (np_Tags p))]
    | _ => fun _ => JObj []
    end;
  spec_Unmarshal k := match k with
    | KCluster => fun members c => match supplied "tags" members with
        | None => Some c
        | Some j => (fun m => set_tags (m ∪ cl_Tags c) c) <$> tags_of j
        end
    | KNodePool => fun members p => match supplied "tags" members with
        | None => Some p
        | Some j => (fun m => set_pool_maps (np_Labels p) (m ∪ np_Tags p) (np_NodeLabels (np_NodePool p)) p) <$> tags_of j
        end
    | _ => fun _ s => Some s
    end;
  zero_Spec k := match k with
    | KCluster => zero_cluster | KNodePool => zero_pool
    | KOidcConfig => mkOidcSpec "" "" "" "" "" | KDNSReservation => mkDNSSpec ""
    | KIndex | KConfigMap => tt
    | KManifest => mkManifestSpec "" [] | KManagementCluster => mkManagementClusterSpec "" "" | KPlacement => mkPlacementSpec "" ""
    | KHostedCluster => zero_hosted | KHyperNodePool => zero_hyper_pool
    end
|}.

Definition tag_registry : Codegen := {|
  registry kind := [("spec.tags", FieldValidator.mkMeta FieldValidator.Mutable "" false []);
                    ("spec.dnsReservationID", FieldValidator.mkMeta FieldValidator.Immutable "" false [])];
  featuregate_Default := "Default";
  pem_Decode _ := None;
  x509_IsCA _ := None
|}.
Definition cidr_texts : CidrTexts := {| reason_text _ := "invalid network"; float_overflow z := z |}.
Definition ascii_tags : TagTable := {| wide_tag_rune _ := false |}.
Definition no_selectors : LabelParser := {| labels_Parse _ := None |}.
Definition no_urls : UrlParser := {| url_Parse _ := None; unicode_ToLower s := s |}.
#[local] Existing Instances any_name quoted named_views plain_digest decimal_clock tag_codec tag_registry cidr_texts ascii_tags no_selectors no_urls.

(** ** A server and its requests *)
Definition acme : string := "123456789012".
Definition alice_arn : string := "arn:aws:sts::123456789012:assumed-role/Deployer/alice".
Definition alice_header (h : string) : string :=
  if String.eqb h HeaderAccountID then acme else if String.eqb h HeaderCallerARN then alice_arn
  else if String.eqb h HeaderSourceIP then "10.0.0.1" else "".

Definition api_server : ServerConfig := mkServerConfig "" 0 acme 0 "" true.
Definition request (method path id : string) : HttpRequest := mkHttp method path id ∅ alice_header "curl" 100 (fun _ => no_cancel).
Definition alice_request (method id : string) : Request := with_Identity (request method "/api/v0" id).

Definition statuses (h : HState) : list Z := resp_Status <$> hs_out h.
Definition served (q : HttpRequest) (op : Operation) (w : World) : HState := (serve api_server acme_authorizer q op (start w)).1.

Definition customer_meta (name : string) : ObjectMeta := mkObjectMeta name "" "" "" 0 0 None ∅ ∅ [] [].

(** A reservation is requested, and its operator makes it ready. *)
Definition dns_requested : HState := served (request "POST" "/api/v0/dns_reservations" "") (Op_dns_Create (Some (customer_meta "shop"))) empty_store.
Definition dns_key : nsname := ("account-123456789012", "shop").
Definition zero_reservation : object KDNSReservation := mkObj KDNSReservation (named "" "") (mkDNSSpec "") (mkDNSStatus [] "" "" "" 0).
Definition stored_dns (w : World) : object KDNSReservation := default zero_reservation (objs (state w) KDNSReservation !! dns_key).
Definition make_ready (o : object KDNSReservation) : object KDNSReservation :=
  with_status (k := KDNSReservation) (mkDNSStatus [] DNSReservationPhaseReady "shop.example.com" "hc-shop" 1) o.
Definition dns_world : World := (kc_Status_Update KDNSReservation (make_ready (stored_dns (hs_world dns_requested))) (hs_world dns_requested)).1.
Definition dns_uid : string := uid_of (stored_dns dns_world).

(** A cluster on that reservation. *)
Definition shop_spec : PublicClusterSpec :=
  mkPublicCluster None {["env" := "prod"]} dns_uid "" None (mkHostedCluster None "4.20" None "") tt
    (Cidr.mkNetworking [] [] []) (FieldValidator.mkSpec FieldValidator.GOther (JObj [("dnsReservationID", JStr dns_uid)])).
Definition shop_body : Decoded (ObjectMeta * PublicClusterSpec) :=
  mkDecoded true (Some (customer_meta "shop", shop_spec)) "{...}" (Some [("dnsReservationID", JStr dns_uid)]).
Definition cluster_handler : ClusterHandler := mkClusterHandler "" 0.
Definition create_shop (w : World) : HState := (cluster_Create cluster_handler acme_authorizer (alice_request "POST" "") shop_body (start w)).1.
Definition shop_created : HState := create_shop dns_world.
Definition shop_world : World := hs_world shop_created.
Definition zero_stored_cluster : object KCluster := mkObj KCluster (named "" "") zero_cluster (zero_Status KCluster).
Definition stored_shop (w : World) : object KCluster := default zero_stored_cluster (objs (state w) KCluster !! dns_key).
Definition dns_resource : ClusterClaimableResource KDNSReservation := dnsReservationClaimableResource acme dns_uid.

Definition delete_dns_request : HttpRequest := request "DELETE" "/api/v0/dns_reservations/shop" "shop".
Definition dns_deleted : HState := served delete_dns_request Op_dns_Delete shop_world.

(** The tags of the cluster are patched. *)
Definition tag_body : UpdateBody := mkUpdateBody true (Some "") "{...}" (Some [("tags", JObj [("env", JStr "test")])]).
Definition shop_updated : HState := (cluster_Update acme_authorizer (alice_request "PATCH" "shop") tag_body (start shop_world)).1.

(** A pool of the cluster is created and patched. *)
Definition pool_fields (p : PublicNodePoolSpec) : FieldValidator.Spec := FieldValidator.mkSpec FieldValidator.GOther (JObj [("tags", strings_json (pp_Tags p))]).
Definition pool_spec : PublicNodePoolSpec :=
  mkPublicPool None "required" ∅ ∅ (mkNodePoolPassthrough "" (Some 2%Z) None "4.20" ∅ false) tt (FieldValidator.mkSpec FieldValidator.GOther (JObj [])).
Definition pool_body : PoolBody := mkPoolBody true (Some (customer_meta "shop.workers", pool_spec)) (Some [("spec", JObj [])]).
Definition create_pool (w : World) : HState := (nodepool_Create acme_authorizer (alice_request "POST" "") pool_fields (fun _ => "internal") pool_body (start w)).1.
Definition pool_created : HState := create_pool shop_world.
Definition pool_updated : HState := (nodepool_Update acme_authorizer (alice_request "PATCH" "shop.workers") (Some ("", None)) tag_body (start (hs_world pool_created))).1.

Definition queue_url : string := "https://sqs.us-east-1.amazonaws.com/123456789012/spot".

(** ** The theorems on these runs *)
Lemma no_interference (k : Kind) s s' : interfere s s' → keeps k s s'.
Proof. done. Qed.

Definition stored_oidc : World := (kc_Create KOidcConfig (mkObj KOidcConfig (customerObjectMeta (customer_meta "shop") acme)
  (mkOidcSpec OidcConfigTypeUnmanaged "https://idp" "secret" "role" acme) (mkOidcStatus [] OidcConfigPhaseReady "" None 1)) dns_world).1.

Lemma delete_protects_claims_witness :
  statuses (dns_Delete acme_authorizer (alice_request "DELETE" "shop") (start stored_oidc)).1 = [202%Z] ∧
  statuses (oidc_Delete acme_authorizer (alice_request "DELETE" "shop") (start stored_oidc)).1 = [202%Z] ∧
  rtc (delete_step acme_authorizer (withAuthzOutcome (alice_request "DELETE" "shop")) DeleteDNSReservation dnsReservationResource)
    (state stored_oidc) (hview (dns_Delete acme_authorizer (alice_request "DELETE" "shop") (start stored_oidc)).1).
Proof.
  split_and!; [vm_compute; reflexivity..|].
  exact (proj2 (proj1 (delete_protects_claims acme_authorizer (alice_request "DELETE" "shop") stored_oidc))).
Defined.

(** The first claim, a DELETE and a PATCH of the labels of the reservation, and the
    claims after them. *)
Definition claimed_world : World := (claimResource "c-1" dns_resource dns_world).1.
Definition label_dns_request : HttpRequest := request "PATCH" "/api/v0/dns_reservations/shop/labels" "shop".
Definition label_op : Operation := Op_dns_Labels (mkPatchBody (Some {["team" := Some "a"]}) true).
Definition after_delete : HState := served delete_dns_request Op_dns_Delete claimed_world.
Definition after_labels : HState := served label_dns_request label_op (hs_world after_delete).

Lemma in_methods (l : list string) m : bool_decide (m ∈ l) = true → m ∈ l.
Proof. apply bool_decide_eq_true. Qed.
Lemma not_public path : bool_decide (path ∈ public_paths) = false → path ∉ public_paths.
Proof. apply bool_decide_eq_false. Qed.

Lemma served_run q op w : serve api_server acme_authorizer q op (start w) = (served q op w, tt).
Proof. apply run_unit. Qed.

Lemma one_request q op w w' :
  bool_decide (hq_method q ∈ op_methods op) = true → bool_decide (hq_path q ∈ public_paths) = false →
  api_run (hs_world (served q op w)) w' → api_run w w'.
Proof.
  intros Hm%in_methods Hp%not_public Hr.
  exact (run_request w w w' api_server acme_authorizer q op (served q op w) (rtc_refl _ _) Hm (or_introl Hp) (served_run q op w) Hr).
Qed.

Lemma requests_run : api_run claimed_world (hs_world after_labels).
Proof.
  refine (one_request delete_dns_request Op_dns_Delete claimed_world _ eq_refl eq_refl _).
  refine (one_request label_dns_request label_op (hs_world after_delete) _ eq_refl eq_refl _).
  exact (run_nil _ _ (rtc_refl _ _)).
Qed.

Lemma first_claim : claimResource "c-1" dns_resource dns_world = (claimed_world, Ok None).
Proof. apply (run_value (claimResource "c-1" dns_resource) dns_world (Ok None)). vm_compute. reflexivity. Qed.

Lemma claim_survives_requests_witness :
  (statuses after_delete, statuses after_labels) = ([409%Z], [204%Z]) ∧ held KDNSReservation dns_uid "c-1" (state (hs_world after_labels)).
Proof.
  split; [vm_compute; reflexivity|].
  apply (claim_survives_requests KDNSReservation acme "c-1" dns_resource dns_world claimed_world (hs_world after_labels));
    [by left|apply no_interference|done|done|exact first_claim|apply requests_run].
Defined.

Lemma claims_exclusive_witness :
  is_ok (claimResource "c-2" dns_resource (hs_world after_labels)).2 = true ∧
  (claimResource "c-2" dns_resource (hs_world after_labels)).2 ≠ Ok None ∧ "c-1" = "c-1".
Proof.
  split_and!; [vm_compute; reflexivity|vm_compute; discriminate|].
  apply (claims_exclusive KDNSReservation acme acme "c-1" "c-1" dns_resource dns_resource dns_world claimed_world (hs_world after_labels)
    (claimResource "c-1" dns_resource (hs_world after_labels)).1);
    [by left|apply no_interference|done|done|done|done|exact first_claim|apply requests_run|].
  apply (run_value (claimResource "c-1" dns_resource) (hs_world after_labels) (Ok None)). vm_compute. reflexivity.
Defined.

Lemma serve_answers_once_witness : statuses dns_requested = [201%Z] ∧ List.length (hs_out dns_requested) = 1.
Proof.
  split; [vm_compute; reflexivity|].
  refine (serve_answers_once api_server acme_authorizer (request "POST" "/api/v0/dns_reservations" "") (Op_dns_Create (Some (customer_meta "shop"))) empty_store
    dns_requested (in_methods ["POST"] "POST" eq_refl) (or_introl (not_public "/api/v0/dns_reservations" eq_refl)) (served_run _ _ _)).
Defined.

(** A request without the gateway's headers. *)
Definition anonymous : HttpRequest := mkHttp "DELETE" "/api/v0/dns_reservations/shop" "shop" ∅ (fun _ => "") "curl" 100 (fun _ => no_cancel).
Lemma serve_admission_witness :
  statuses (served anonymous Op_dns_Delete dns_world) = [403%Z] ∧
  ∃ w1, rtc interfere (state dns_world) (state w1) ∧
   ((∃ x, hs_out (served anonymous Op_dns_Delete dns_world) = [x] ∧ refused x ∧ hview (served anonymous Op_dns_Delete dns_world) = state w1) ∨
    ∃ r, gateway_request anonymous r ∧ admitted acme_authorizer anonymous r (state w1) ∧
      handle api_server acme_authorizer Op_dns_Delete r (start w1) = (served anonymous Op_dns_Delete dns_world, tt)).
Proof.
  split; [vm_compute; reflexivity|].
  exact (serve_admission api_server acme_authorizer anonymous Op_dns_Delete dns_world (served anonymous Op_dns_Delete dns_world) eq_refl (not_public "/api/v0/dns_reservations/shop" eq_refl) (served_run _ _ _)).
Defined.

Lemma cluster_Create_safe_witness :
  statuses shop_created = [201%Z] ∧ ends (created_cluster cluster_handler acme_authorizer (alice_request "POST" "") shop_body dns_world) shop_created.
Proof.
  split; [vm_compute; reflexivity|].
  exact (cluster_Create_safe (no_interference KDNSReservation) (no_interference KOidcConfig) cluster_handler acme_authorizer (alice_request "POST" "") shop_body
    dns_world shop_created (run_unit _ _)).
Defined.

Lemma cluster_Update_safe_witness :
  statuses shop_updated = [200%Z] ∧
  rtc (update_step (queue_steps acme "shop") (db.accountNamespace acme, "shop")
        (cluster_allowed acme_authorizer (withAuthzOutcome (alice_request "PATCH" "shop"))
           [("tags", JObj [("env", JStr "test")])] [("tags", JObj [("env", JStr "test")])])) (state shop_world) (hview shop_updated).
Proof.
  split; [vm_compute; reflexivity|].
  exact (cluster_Update_safe acme_authorizer (alice_request "PATCH" "shop") tag_body shop_world shop_updated (run_unit _ _)).
Defined.

Lemma nodepool_Update_safe_witness :
  statuses pool_updated = [200%Z] ∧
  rtc (update_step interfere (db.accountNamespace acme, "shop.workers")
        (nodepool_allowed acme_authorizer (withAuthzOutcome (alice_request "PATCH" "shop.workers")) None
           [("tags", JObj [("env", JStr "test")])] [("tags", JObj [("env", JStr "test")])])) (state (hs_world pool_created)) (hview pool_updated).
Proof.
  split; [vm_compute; reflexivity|].
  exact (nodepool_Update_safe acme_authorizer (alice_request "PATCH" "shop.workers") (Some ("", None)) tag_body (hs_world pool_created) pool_updated (run_unit _ _)).
Defined.

Definition team_patch : PatchBody := mkPatchBody (Some {["team" := Some "a"]}) true.
Definition labels_patched : HState := (cluster_Labels acme_authorizer (alice_request "PATCH" "shop") team_patch (start shop_world)).1.
Lemma labels_authorized_witness : statuses labels_patched = [204%Z] ∧ List.length (hs_out labels_patched) = 1.
Proof.
  split; [vm_compute; reflexivity|].
  exact (proj1 (proj1 (labels_authorized acme_authorizer (alice_request "PATCH" "shop") team_patch shop_world (or_intror eq_refl)))).
Defined.

Lemma spot_queue_refines_witness :
  is_ok (db.ClaimSpotTerminationQueue acme queue_url "shop" shop_world).2 = true ∧
  reserved acme queue_url "shop" (state (db.ClaimSpotTerminationQueue acme queue_url "shop" shop_world).1).
Proof.
  assert (E : is_ok (db.ClaimSpotTerminationQueue acme queue_url "shop" shop_world).2 = true) by (vm_compute; reflexivity).
  split; [exact E|]. destruct (spot_queue_refines acme queue_url "shop" shop_world) as [[_ Hr] _]. exact (Hr E).
Defined.
