(* ===== verification/Controllers.v ===== *)
(** * The operator's controllers: what they share (seaplane-operator/internal/controller)

    A controller reconciles one object: it reads it from the store, moves it and the
    objects it owns towards their specs, and says when it wants to run again. The
    controllers run concurrently with each other and with the API, each on the store's
    interface of KubeClient.v. Here are the result of a reconcile, the labels and
    namespaces the controllers agree on, and the loops in which they write finalizers
    and statuses under conflicts. The condition and finalizer helpers of apimachinery
    and controller-runtime are the parameter [ControllerLib]. Logging is left out. *)
From S2P Require Import Prelude GoStrings Convert Authorizer StateM HttpApi ApiTypes KubeClient ApiClient Claims.
From stdpp Require Import base gmap strings list.
From Stdlib Require Import ZArith Lia String.
Open Scope string_scope.

(** ** Helpers of Kubernetes' libraries *)
Definition ConditionTrue : string := "True".
Definition ConditionFalse : string := "False".

Class ControllerLib := {
  (** apimachinery's meta package, with the time of the call *)
  SetStatusCondition : Z → Condition → list Condition → list Condition;
  RemoveStatusCondition : string → list Condition → list Condition;
  FindStatusCondition : list Condition → string → option Condition;
  (** controllerutil *)
  ContainsFinalizer : ObjectMeta → string → bool;
  AddFinalizer : ObjectMeta → string → ObjectMeta;
  RemoveFinalizer : ObjectMeta → string → ObjectMeta;
  (** an owner reference to the controlling object, unless there is another *)
  SetControllerReference : OwnerReference → ObjectMeta → result string ObjectMeta
}.

Class ControllerLibLaws `{ControllerLib} : Prop := {
  Set_same : ∀ t c l, ∃ c', FindStatusCondition (SetStatusCondition t c l) (cond_Type c) = Some c' ∧
    cond_Status c' = cond_Status c ∧ cond_Reason c' = cond_Reason c ∧ cond_Message c' = cond_Message c ∧
    cond_ObservedGeneration c' = cond_ObservedGeneration c;
  Set_other : ∀ t c l ty, ty ≠ cond_Type c → FindStatusCondition (SetStatusCondition t c l) ty = FindStatusCondition l ty;
  Remove_same : ∀ l ty, FindStatusCondition (RemoveStatusCondition ty l) ty = None;
  Remove_other : ∀ l ty ty', ty' ≠ ty → FindStatusCondition (RemoveStatusCondition ty l) ty' = FindStatusCondition l ty';
  Contains_law : ∀ m f, ContainsFinalizer m f = true ↔ f ∈ om_Finalizers m;
  Add_law : ∀ m f, ∃ l, AddFinalizer m f = set_finalizers l m ∧ ∀ g, g ∈ l ↔ g = f ∨ g ∈ om_Finalizers m;
  Remove_law : ∀ m f, ∃ l, RemoveFinalizer m f = set_finalizers l m ∧ ∀ g, g ∈ l ↔ g ≠ f ∧ g ∈ om_Finalizers m;
  SetController_law : ∀ r m m', SetControllerReference r m = Ok m' → ∃ l, m' = set_owners l m
}.

Definition IsStatusConditionTrue `{ControllerLib} (l : list Condition) (ty : string) : bool :=
  match FindStatusCondition l ty with Some c => String.eqb (cond_Status c) ConditionTrue | None => false end.

(** ** The result of a reconcile

    [RequeueAfter] is in nanoseconds; zero means that the object is not queued again. *)
Record Result := mkResult { RequeueAfter : Z }.
Definition done_result : Result := mkResult 0.
Definition requeue (after : Z) : Result := mkResult after.

(** ** Labels and namespaces *)
Definition OwnerUIDLabel : string := "seaplane.io/owner-uid".
Definition statusRefreshDelay : Z := 5 * minute.
Definition defaultDNSShard : string := "0".
Definition dnsShardNamespace (shard : string) : string := "dns-shard-" +:+ shard +:+ "-reservations".

(** The account of a cluster: its spec's, or its label's. *)
Definition cluster_account `{Passthrough} (cluster : object KCluster) : string :=
  if String.eqb (cl_AccountID (spec cluster)) "" then map_get (om_Labels (meta cluster)) AccountIDLabel else cl_AccountID (spec cluster).

Definition dying `{Passthrough} {k} (o : object k) : bool := bool_decide (om_DeletionTimestamp (meta o) ≠ None).

(** ** Errors

    [fmt.Errorf] with [%w] keeps what the error is. *)
Definition wrap (what : string) (e : kerr) : kerr :=
  match e with OtherError msg => OtherError (what +:+ ": " +:+ msg) | _ => e end.
Definition errorf (msg : string) : kerr := OtherError msg.

Definition IgnoreNotFound {A} (a : A) (e : kerr) : result kerr A := if IsNotFound e then Ok a else Err e.

Section programs.
Context `{KubeClient, !Clock, Retry, ControllerLib}.

(** [if err != nil { return fmt.Errorf(what, err) }] *)
Definition or_fail {A B} (what : string) (m : Call A) (f : A → Call B) : Call B :=
  r ← m; match r with Ok a => f a | Err e => mret (Err (wrap what e)) end.

(** A delete of an object that may be gone. *)
Definition delete_if_present {k} (what : string) (o : object k) : Call unit :=
  r ← kc_Delete k o;
  mret match r with Ok _ => Ok tt | Err e => if IsNotFound e then Ok tt else Err (wrap what e) end.

(** Each object of a list in turn, until an error. *)
Fixpoint each {A} (f : A → Call unit) (l : list A) : Call unit :=
  match l with
  | [] => mret (Ok tt)
  | x :: l => r ← f x; match r with Ok _ => each f l | Err e => mret (Err e) end
  end.

(** ** Writes under conflicts

    The closures that the controllers run under [RetryOnConflict]: read the object
    again, decide on what was read, write. [missing] is the answer when the object is
    gone. *)
Definition status_attempt (k : Kind) (key : nsname) (missing : result kerr unit) (change : Z → object k → option (Status k)) : Call unit :=
  g ← kc_Get k key.1 key.2;
  match g with
  | Err e => mret (if IsNotFound e then missing else Err e)
  | Ok latest =>
      t ← db.read_clock;
      match change t latest with
      | None => mret (Ok tt)
      | Some st => u ← kc_Status_Update k (with_status st latest); mret (match u with Ok _ => Ok tt | Err e => Err e end)
      end
  end.
Definition retry_status (k : Kind) (key : nsname) (missing : result kerr unit) (change : Z → object k → option (Status k)) : Call unit :=
  RetryOnConflict IsConflict (status_attempt k key missing change).

Definition update_attempt (k : Kind) (key : nsname) (change : object k → option (object k)) : Call unit :=
  g ← kc_Get k key.1 key.2;
  match g with
  | Err e => mret (IgnoreNotFound tt e)
  | Ok latest =>
      match change latest with
      | None => mret (Ok tt)
      | Some o => u ← kc_Update k o; mret (match u with Ok _ => Ok tt | Err e => Err e end)
      end
  end.
Definition retry_update (k : Kind) (key : nsname) (change : object k → option (object k)) : Call unit :=
  RetryOnConflict IsConflict (update_attempt k key change).

(** The finalizer loops at the end of a deletion. *)
Definition without_finalizer {k} (f : string) (o : object k) : object k := with_meta (fun m => RemoveFinalizer m f) o.
Definition remove_finalizer (k : Kind) (f : string) (o : object k) : Call unit :=
  retry_update k (key_of o) (fun latest => if ContainsFinalizer (meta latest) f then Some (without_finalizer f latest) else None).

(** The first write of a reconcile: the object without its finalizer gets it. *)
Definition add_finalizer {k} (f : string) (o : object k) : Call (object k) := kc_Update k (with_meta (fun m => AddFinalizer m f) o).
End programs.

(** * Reasoning about controllers

    A controller shares the store with everything else that writes to it. An assertion
    about the store that [interfere] preserves ([stable]) survives between the calls;
    the rules below say what each call does to an assertion. [seen o] remembers that an
    object was read: a write under its version can only replace that very object. *)
From stdpp Require Import base gmap strings list relations.
From Stdlib Require Import ZArith Lia String.
Open Scope string_scope.

Section rules.
Context `{KubeClientLaws}.

Definition stable (P : KState → Prop) : Prop := ∀ s s', interfere s s' → wf s → P s → P s'.

Lemma stable_rtc P s s' : stable P → rtc interfere s s' → wf s → P s → P s'.
Proof. intros HP. induction 1 as [|x y z Hi _ IH]; [done|]. intros Hwf Hx. apply IH; [by eapply interfere_wf|by eapply HP]. Qed.

Lemma stable_and P Q : stable P → stable Q → stable (λ s, P s ∧ Q s).
Proof. intros HP HQ s s' Hi Hwf [? ?]. split; [by eapply HP|by eapply HQ]. Qed.

Lemma stable_pure (P : Prop) : stable (λ _, P).
Proof. by intros ????. Qed.

(** ** Objects that were read *)
Definition seen {k} (o : object k) (s : KState) : Prop := ∃ s0, wf s0 ∧ objs s0 k !! key_of o = Some o ∧ evolves s0 s.

Lemma seen_evolves {k} (o : object k) s s' : evolves s s' → seen o s → seen o s'.
Proof. intros He (s0 & Hwf & Ho & He0). exists s0. split_and!; [done..|by etrans]. Qed.

Lemma stable_seen {k} (o : object k) : stable (seen o).
Proof. intros s s' Hi _. by apply seen_evolves, interfere_evolves. Qed.

Lemma seen_now {k} (o : object k) key s : wf s → objs s k !! key = Some o → seen o s ∧ key = key_of o.
Proof. intros Hwf Ho. pose proof (wf_key _ Hwf _ _ _ Ho) as Hk. split; [|done]. exists s. rewrite <- Hk. split_and!; [done..|reflexivity]. Qed.

Lemma seen_current {k} (o cur : object k) s : seen o s → objs s k !! key_of o = Some cur → same_version cur o → cur = o.
Proof. intros (s0 & Hwf & Ho & He) Hc Hv. by eapply (snapshot_current s0). Qed.

Lemma seen_version {k} (o : object k) s : seen o s → version o ≠ 0%Z.
Proof. intros (s0 & Hwf & Ho & _). pose proof (wf_version _ Hwf _ _ _ Ho). lia. Qed.

(** ** The effect of a write on the objects *)

(** A delete of an object that was read takes that object, or marks it. *)
Lemma delete_seen {k} (o : object k) now rv s s' : wf s → seen o s → delete_effect o now rv s s' →
  objs s k !! key_of o = Some o ∧
  (s' = remove_obj k (key_of o) s ∨ ∃ o', s' = put s o' ∧ key_of o' = key_of o ∧ uid_of o' = uid_of o ∧ dying o' = true ∧
     om_Labels (meta o') = om_Labels (meta o) ∧ om_Finalizers (meta o') = om_Finalizers (meta o) ∧ spec o' = spec o ∧ status o' = status o).
Proof.
  intros Hwf Hs (cur & Hc & Hv & Heff). assert (cur = o) as -> by (eapply seen_current; [done..|by apply Hv, (seen_version _ _ Hs)]).
  split; [done|]. destruct Heff as [[_ ->]|(_ & d & _ & ->)]; [by left|]. right. eexists. split; [reflexivity|]. by split_and!.
Qed.

(** An update of an object that was read replaces that object. *)
Lemma update_seen {k} (o new : object k) rv g s s' : wf s → seen o s → key_of new = key_of o → same_version o new → update_effect new rv g s s' →
  objs s k !! key_of o = Some o ∧ ∃ o', key_of o' = key_of o ∧ uid_of o' = uid_of o ∧
    om_Labels (meta o') = om_Labels (meta new) ∧ om_Finalizers (meta o') = om_Finalizers (meta new) ∧
    om_DeletionTimestamp (meta o') = om_DeletionTimestamp (meta o) ∧ spec o' = spec new ∧ status o' = status o ∧ s' = settle s o'.
Proof.
  intros Hwf Hs Hk Hv (cur & Hc & Hv' & _ & ->). rewrite Hk in Hc.
  assert (cur = o) as -> by (eapply seen_current; [done..|destruct Hv, Hv'; split; congruence]).
  split; [done|]. eexists. split_and!; [..|reflexivity]; done.
Qed.

(** ** Rules of the calls *)
Implicit Types P Q : KState → Prop.
Definition on (P : KState → Prop) (w : World) : Prop := P (state w).

Lemma triple_Get k ns n P : stable P →
  triple (on P) (kc_Get k ns n) (λ r w, P (state w) ∧
    match r with
    | Ok o => objs (state w) k !! (ns, n) = Some o ∧ (ns, n) = key_of o ∧ seen o (state w)
    | Err NotFound => objs (state w) k !! (ns, n) = None
    | Err _ => True
    end).
Proof.
  intros HP w w' r Hw [Hi Hr]%Get_law. split; [by eapply stable_rtc; [..|apply state_wf|]|].
  destruct r as [o|e]; [|done]. destruct (seen_now o (ns, n) (state w')) as [Hs Hk]; [apply state_wf|done|]. done.
Qed.

Lemma triple_List k ns f P : stable P →
  triple (on P) (kc_List k ns f) (λ r w, P (state w) ∧
    ∀ l, r = Ok l → NoDup (key_of <$> l) ∧ (∀ o, o ∈ l → seen o (state w)) ∧
      ∀ o, o ∈ l ↔ objs (state w) k !! key_of o = Some o ∧ (ns = "" ∨ om_Namespace (meta o) = ns) ∧ matches f o = true).
Proof.
  intros HP w w' r Hw [Hi Hr]%List_law. split; [by eapply stable_rtc; [..|apply state_wf|]|].
  intros l ->. destruct Hr as [Hn Hl]. split_and!; [done| |done]. intros o (Ho & _)%Hl. eapply seen_now; [apply state_wf|done].
Qed.

Lemma stable_mid P w mid : stable P → rtc interfere (state w) mid → P (state w) → P mid ∧ wf mid.
Proof. intros HP Hi Hw. split; [eapply stable_rtc; [done..|apply state_wf|done]|eapply interference_wf; [done|apply state_wf]]. Qed.

(** A write: its effect, if it takes place at all. *)
Lemma triple_Create k (o : object k) P Q : stable P → (∀ s, P s → Q s) →
  (∀ s s' uid rv now, wf s → P s → create_effect o uid rv now s s' → Q s') →
  triple (on P) (kc_Create k o) (λ _, on Q).
Proof.
  intros HP HQ He w w' r Hw (mid & Hi & Hr)%Create_effect. destruct (stable_mid P w mid HP Hi Hw) as [Hm Hwf]. unfold on.
  destruct Hr as [[-> _]|(uid & rv & now & Heff)]; [by apply HQ|by eapply He].
Qed.

Lemma triple_Update k (o : object k) P Q : stable P → (∀ s, P s → Q s) →
  (∀ s s' rv g, wf s → P s → update_effect o rv g s s' → Q s') →
  triple (on P) (kc_Update k o) (λ _, on Q).
Proof.
  intros HP HQ He w w' r Hw (mid & Hi & Hr)%Update_effect. destruct (stable_mid P w mid HP Hi Hw) as [Hm Hwf]. unfold on.
  destruct Hr as [[-> _]|(rv & g & Heff)]; [by apply HQ|by eapply He].
Qed.

Lemma triple_Status_Update k (o : object k) P Q : stable P → (∀ s, P s → Q s) →
  (∀ s s' rv, wf s → P s → status_effect o rv s s' → Q s') →
  triple (on P) (kc_Status_Update k o) (λ _, on Q).
Proof.
  intros HP HQ He w w' r Hw (mid & Hi & Hr)%Status_Update_effect. destruct (stable_mid P w mid HP Hi Hw) as [Hm Hwf]. unfold on.
  destruct Hr as [[-> _]|(rv & Heff)]; [by apply HQ|by eapply He].
Qed.

Lemma triple_Delete k (o : object k) P Q : stable P → (∀ s, P s → Q s) →
  (∀ s s' now rv, wf s → P s → delete_effect o now rv s s' → Q s') →
  triple (on P) (kc_Delete k o) (λ _, on Q).
Proof.
  intros HP HQ He w w' r Hw (mid & Hi & Hr)%Delete_effect. destruct (stable_mid P w mid HP Hi Hw) as [Hm Hwf]. unfold on.
  destruct Hr as [[-> _]|(now & rv & Heff)]; [by apply HQ|by eapply He].
Qed.
End rules.

(** ** Rules of the programs *)
Section rules.
Context `{KubeClientLaws}.

Lemma triple_and_then {A B} (P : World → Prop) (m : Call A) (f : A → Call B) (Q : result kerr A → World → Prop) (R : result kerr B → World → Prop) :
  triple P m Q → (∀ a, triple (Q (Ok a)) (f a) R) → (∀ e w, Q (Err e) w → R (Err e) w) → triple P (db.and_then m f) R.
Proof.
  intros Hm Hf He. eapply triple_bind; [exact Hm|]. intros [a|e]; [apply Hf|]. apply triple_ret. auto.
Qed.

Lemma triple_or_fail {A B} what (P : World → Prop) (m : Call A) (f : A → Call B) (Q : result kerr A → World → Prop) (R : result kerr B → World → Prop) :
  triple P m Q → (∀ a, triple (Q (Ok a)) (f a) R) → (∀ e e' w, Q (Err e) w → R (Err e') w) → triple P (or_fail what m f) R.
Proof.
  intros Hm Hf He. eapply triple_bind; [exact Hm|]. intros [a|e]; [apply Hf|]. apply triple_ret. eauto.
Qed.

Lemma triple_delete_if_present k what (o : object k) P Q : stable P → (∀ s, P s → Q s) →
  (∀ s s' now rv, wf s → P s → delete_effect o now rv s s' → Q s') →
  triple (on P) (delete_if_present what o) (λ _, on Q).
Proof. intros HP HQ He. eapply triple_bind; [by apply triple_Delete|]. intros r. by apply triple_ret. Qed.

(** A loop that keeps an assertion. *)
Lemma triple_each {A} (f : A → Call unit) P l : (∀ x, x ∈ l → triple P (f x) (λ _, P)) → triple P (each f l) (λ _, P).
Proof.
  induction l as [|x l IH]; intros Hf; [by apply triple_ret|]. simpl. eapply triple_bind; [apply Hf; by left|].
  intros [u|e]; [apply IH; intros y Hy; apply Hf; by right|by apply triple_ret].
Qed.

Lemma read_clock_triple `{!Clock} P : triple P db.read_clock (λ _, P).
Proof. by intros w w' t HP [= <- <-]. Qed.
End rules.

(** * Snapshots of rendered resources (controller/rendered_resource.go)

    Beside its desire, a rendered HostedCluster or NodePool is kept in the store under
    the name of the object it was rendered for. *)
From stdpp Require Import base gmap strings list.
From Stdlib Require Import ZArith Lia String.
Open Scope string_scope.

Definition renamed (namespace name : string) (m : ObjectMeta) : ObjectMeta :=
  mkObjectMeta name namespace (om_UID m) (om_ResourceVersion m) (om_Generation m) (om_CreationTimestamp m) (om_DeletionTimestamp m)
    (om_Labels m) (om_Annotations m) (om_OwnerReferences m) (om_Finalizers m).
Definition set_version (uid rv : string) (m : ObjectMeta) : ObjectMeta :=
  set_identity uid rv (om_Generation m) (om_CreationTimestamp m) (om_DeletionTimestamp m) m.

Definition rendered_labels (m : ObjectMeta) : gmap string string :=
  {["seaplane.io/rendered-namespace" := om_Namespace m; "seaplane.io/rendered-name" := om_Name m]}.

Section rendered.
Context `{KubeClient}.

Definition snapshot_of {k} (desired : object k) (storageNamespace storageName : string) (storageLabels : gmap string string) : object k :=
  with_meta (fun m => set_labels (storageLabels ∪ om_Labels m) (renamed storageNamespace storageName m)) desired.

Definition upsertRenderedResource {k} (desired : object k) (storageNamespace storageName : string) (storageLabels : gmap string string) : Call unit :=
  let snapshot := snapshot_of desired storageNamespace storageName storageLabels in
  let at_ := storageNamespace +:+ "/" +:+ storageName in
  g ← kc_Get k storageNamespace storageName;
  match (g : result kerr (object k)) with
  | Err e =>
      if negb (IsNotFound e) then mret (Err (wrap ("get rendered resource " +:+ at_) e))
      else or_fail ("create rendered resource " +:+ at_) (kc_Create k snapshot) (fun _ => mret (Ok tt))
  | Ok current =>
      or_fail ("update rendered resource " +:+ at_) (kc_Update k (with_meta (set_version (uid_of current) (om_ResourceVersion (meta current))) snapshot))
        (fun _ => mret (Ok tt))
  end.

Definition deleteRenderedResource {k} (o : object k) : Call unit :=
  delete_if_present ("delete rendered resource " +:+ om_Namespace (meta o) +:+ "/" +:+ om_Name (meta o)) o.
End rendered.
