(* ===== verification/Footprint.v ===== *)
(** * What a controller may write

    A controller owns some objects of the store ([mine], which depends on what is
    stored) and shares the rest. [frames R m]: a run of [m] writes nothing but its own
    objects, one at a time, and never takes the finalizer off the guarded object; [R] is
    what the program knows of the objects it has read. The rules follow the structure
    of a program, and the tactic [frame] applies them. *)
From S2P Require Import Prelude GoStrings Convert Authorizer StateM ApiTypes KubeClient ApiClient Claims Controllers.
From stdpp Require Import base gmap strings list relations.
From Stdlib Require Import ZArith Lia String.
Open Scope string_scope.

Section touches.
Context `{KubeClientLaws}.

(** Only the object of this kind and key may change. *)
Definition touches (k : Kind) (key : nsname) (s s' : KState) : Prop :=
  ∀ k2 key2, k2 ≠ k ∨ key2 ≠ key → objs s' k2 !! key2 = objs s k2 !! key2.

Lemma touches_put {k} (o : object k) s : touches k (key_of o) s (put s o).
Proof.
  intros k2 key2 Hne. destruct (decide (k = k2)) as [<-|]; [|by rewrite put_other]. rewrite put_same, lookup_insert_ne; [done|]. naive_solver.
Qed.
Lemma touches_remove k key s : touches k key s (remove_obj k key s).
Proof. intros k2 key2 Hne. apply remove_keeps. naive_solver. Qed.

Lemma touches_create {k} (o : object k) uid rv now s s' : create_effect o uid rv now s s' → touches k (key_of o) s s'.
Proof. intros (_ & _ & _ & _ & ->) k2 key2 Hne. exact (touches_put (created_stored o uid rv now) s k2 key2 Hne). Qed.
Lemma touches_update {k} (o : object k) rv g s s' : update_effect o rv g s s' → touches k (key_of o) s s'.
Proof.
  intros (cur & _ & _ & _ & ->). change (key_of o) with (key_of (updated cur o rv g)).
  destruct (settle_cases s (updated cur o rv g)) as [[_ ->]|[_ ->]]; [apply touches_put|apply touches_remove].
Qed.
Lemma touches_status {k} (o : object k) rv s s' : wf s → status_effect o rv s s' → touches k (key_of o) s s'.
Proof. intros Hwf (cur & Hc & _ & _ & ->). rewrite (wf_key _ Hwf _ _ _ Hc). match goal with |- touches _ _ _ (put _ ?n) => exact (touches_put n s) end. Qed.
Lemma touches_delete {k} (o : object k) now rv s s' : wf s → delete_effect o now rv s s' → touches k (key_of o) s s'.
Proof.
  intros Hwf (cur & Hc & _ & [[_ ->]|(_ & d & _ & ->)]); [apply touches_remove|]. rewrite (wf_key _ Hwf _ _ _ Hc).
  match goal with |- touches _ _ _ (put _ ?n) => exact (touches_put n s) end.
Qed.
End touches.

Section footprint.
Context `{KubeClientLaws}.

(** ** The guarded object keeps its finalizer *)
Context (gk : Kind) (gkey : nsname) (u f : string).

Definition finalized (s : KState) : Prop := ∃ o : object gk, objs s gk !! gkey = Some o ∧ uid_of o = u ∧ f ∈ om_Finalizers (meta o).

Lemma finalized_same s s' : objs s' gk !! gkey = objs s gk !! gkey → finalized s → finalized s'.
Proof. intros E (o & Ho & ?). exists o. by rewrite E. Qed.

Lemma finalized_touches k key s s' : touches k key s s' → k ≠ gk ∨ key ≠ gkey → finalized s → finalized s'.
Proof. intros Ht Hne. apply finalized_same, Ht. naive_solver. Qed.

Lemma finalized_put (new : object gk) s : key_of new = gkey → uid_of new = u → f ∈ om_Finalizers (meta new) → finalized (put s new).
Proof. intros Hk ??. exists new. by rewrite <- Hk, put_same, lookup_insert_eq. Qed.

Lemma finalized_create {k} (o : object k) uid rv now s s' : create_effect o uid rv now s s' → finalized s → finalized s'.
Proof.
  intros Heff Hf. eapply finalized_touches; [by eapply touches_create| |done]. destruct (decide (k = gk)) as [->|]; [right|by left].
  intros <-. destruct Heff as (Hn & _), Hf as (x & Hx & _). congruence.
Qed.

Lemma finalized_status {k} (o : object k) rv s s' : wf s → status_effect o rv s s' → finalized s → finalized s'.
Proof.
  intros Hwf Heff Hf. destruct (decide (k = gk ∧ key_of o = gkey)) as [[-> Hk]|Hne].
  - destruct Heff as (cur & Hc & _ & _ & ->), Hf as (x & Hx & Hu & Hfx). rewrite Hk in Hc. pose proof (eq_trans (eq_sym Hc) Hx) as [= ->].
    apply finalized_put; [|done|done]. symmetry. exact (wf_key _ Hwf _ _ _ Hx).
  - eapply finalized_touches; [by eapply touches_status| |done]. destruct (decide (k = gk)) as [->|]; [right|by left]. naive_solver.
Qed.

Lemma finalized_delete {k} (o : object k) now rv s s' : wf s → delete_effect o now rv s s' → finalized s → finalized s'.
Proof.
  intros Hwf Heff Hf. destruct (decide (k = gk ∧ key_of o = gkey)) as [[-> Hk]|Hne].
  - destruct Heff as (cur & Hc & _ & Hcase), Hf as (x & Hx & Hu & Hfx). rewrite Hk in Hc. pose proof (eq_trans (eq_sym Hc) Hx) as [= ->].
    destruct Hcase as [[Hn _]|(_ & d & _ & ->)]; [rewrite Hn in Hfx; by apply elem_of_nil in Hfx|].
    apply finalized_put; [|done|done]. symmetry. exact (wf_key _ Hwf _ _ _ Hx).
  - eapply finalized_touches; [by eapply touches_delete| |done]. destruct (decide (k = gk)) as [->|]; [right|by left]. naive_solver.
Qed.

(** An update of the guarded object has to write the finalizer. *)
Lemma finalized_update {k} (o : object k) rv g s s' : update_effect o rv g s s' → (k = gk → key_of o = gkey → f ∈ om_Finalizers (meta o)) →
  finalized s → finalized s'.
Proof.
  intros Heff Hfin Hf. destruct (decide (k = gk ∧ key_of o = gkey)) as [[-> Hk]|Hne].
  - destruct Heff as (cur & Hc & _ & _ & ->), Hf as (x & Hx & Hu & Hfx). rewrite Hk in Hc. pose proof (eq_trans (eq_sym Hc) Hx) as [= ->].
    specialize (Hfin eq_refl Hk). rewrite settle_put; [by apply finalized_put|]. unfold gone.
    rewrite (bool_decide_false (om_Finalizers _ = [])); [by rewrite andb_false_r|]. simpl. intros E. rewrite E in Hfin. by apply elem_of_nil in Hfin.
  - eapply finalized_touches; [by eapply touches_update| |done]. destruct (decide (k = gk)) as [->|]; [right|by left]. naive_solver.
Qed.

(** ** Own steps *)
Context (mine : KState → Kind → nsname → Prop).

Definition own_step (s s' : KState) : Prop := interfere s s' ∨ ∃ k key, mine s k key ∧ touches k key s s'.

Context (rely : stable finalized) (s0 : KState).

Definition persistent (R : KState → Prop) : Prop := ∀ s s', evolves s s' → R s → R s'.

(** The steps so far, and the guard unless [F] is known. *)
Definition inv (F : Prop) (R : KState → Prop) (s : KState) : Prop := rtc own_step s0 s ∧ (F ∨ finalized s) ∧ R s.

Definition frames {A} (R0 : KState → Prop) (m : St World A) : Prop :=
  ∀ F R, persistent R → (∀ s, R s → R0 s) → triple (on (inv F R)) m (λ _, on (inv F R)).

Lemma persistent_stable R : persistent R → stable R.
Proof. intros HR s s' Hi _. by apply HR, interfere_evolves. Qed.

Lemma stable_inv F R : persistent R → stable (inv F R).
Proof.
  intros HR s s' Hi Hwf (Hs & Hf & Hr). split_and!; [eapply rtc_r; [done|by left]|destruct Hf; [by left|right; by eapply rely]|by eapply persistent_stable].
Qed.

Lemma inv_write F R k key s s' : mine s k key → touches k key s s' → evolves s s' → persistent R → (finalized s → finalized s') → inv F R s → inv F R s'.
Proof.
  intros Hm Ht He HR Hf (Hs & Hg & Hr). split_and!; [eapply rtc_r; [done|right; eauto]|destruct Hg; [by left|right; auto]|by eapply HR].
Qed.

(** ** Rules *)
Lemma frames_ret {A} R (a : A) : frames R (mret a).
Proof. intros F R' _ _. by apply triple_ret. Qed.

Lemma frames_bind {A B} R (m : St World A) (g : A → St World B) : frames R m → (∀ a, frames R (g a)) → frames R (m ≫= g).
Proof. intros Hm Hg F R' HR HR0. eapply triple_bind; [by apply Hm|]. intros a. by apply Hg. Qed.

Lemma frames_weaken {A} R R' (m : St World A) : (∀ s, R' s → R s) → frames R m → frames R' m.
Proof. intros Hw Hm F R2 HR HR2. apply Hm; auto. Qed.

Lemma frames_pure {A} (φ : Prop) R (m : St World A) : (∀ s, R s → φ) → (φ → frames R m) → frames R m.
Proof. intros Hφ Hm F R' HR HR0. apply (triple_fact φ); [intros s (_ & _ & Hr); by eapply Hφ, HR0|]. intros Hp. by apply Hm. Qed.

(** Calls that do not write. *)
Lemma frames_moves {A} R (m : St World A) : moves state interfere m → frames R m.
Proof. intros Hm F R' HR _ w w' a Hw E. unfold on. by apply (stable_rtc (inv F R') (state w) (state w') (stable_inv F R' HR) (Hm _ _ _ E) (state_wf w)). Qed.

(** A program that learns a fact about what it reads. *)
Lemma frames_learn {A B} R (m : St World A) (g : A → St World B) (Q : A → KState → Prop) :
  (∀ F R', persistent R' → (∀ s, R' s → R s) → triple (on (inv F R')) m (λ a w, inv F R' (state w) ∧ Q a (state w))) →
  (∀ a, persistent (Q a)) → (∀ a, frames (λ s, R s ∧ Q a s) (g a)) → frames R (m ≫= g).
Proof.
  intros Hm HQ Hg F R' HR HR0. eapply triple_bind; [by apply Hm|]. intros a.
  eapply triple_conseq; [apply (Hg a F (λ s, R' s ∧ Q a s))| |].
  - intros s s' He [Hr Hq]. split; [by eapply HR|by eapply HQ].
  - intros s [Hr Hq]. auto.
  - intros w [(Hs & Hf & Hr) Hq]. by split_and!.
  - intros b w (Hs & Hf & Hr & Hq). by split_and!.
Qed.

Definition got {k} (key : nsname) (r : result kerr (object k)) (s : KState) : Prop := ∀ o, r = Ok o → seen o s ∧ key = key_of o.
Lemma persistent_got {k} key (r : result kerr (object k)) : persistent (got key r).
Proof. intros s s' He Hg o Ho. destruct (Hg o Ho). split; [by eapply seen_evolves|done]. Qed.

Lemma got_Get F R k key : persistent R → triple (on (inv F R)) (kc_Get k key.1 key.2) (λ r w, inv F R (state w) ∧ got key r (state w)).
Proof.
  intros HR. eapply triple_conseq; [apply (triple_Get k key.1 key.2), stable_inv, HR|done|]. intros r w [Hi Hr]. split; [done|].
  intros o ->. destruct Hr as (_ & Hk & Hs). split; [done|]. by destruct key.
Qed.

Lemma frames_Get {B} R k ns n (g : result kerr (object k) → St World B) :
  (∀ r, frames (λ s, R s ∧ got (ns, n) r s) (g r)) → frames R (kc_Get k ns n ≫= g).
Proof. intros Hg. apply (frames_learn R _ g (got (ns, n))); [|apply persistent_got|exact Hg]. intros F R' HR _. by apply (got_Get F R' k (ns, n)). Qed.

Definition listed {k} (flt : ListFilter) (r : result kerr (list (object k))) (s : KState) : Prop :=
  ∀ l o, r = Ok l → o ∈ l → seen o s ∧ matches flt o = true.
Lemma persistent_listed {k} flt (r : result kerr (list (object k))) : persistent (listed flt r).
Proof. intros s s' He Hg l o Hl Ho. destruct (Hg l o Hl Ho). split; [by eapply seen_evolves|done]. Qed.

Lemma listed_List F R k ns flt : persistent R → triple (on (inv F R)) (kc_List k ns flt) (λ r w, inv F R (state w) ∧ listed flt r (state w)).
Proof.
  intros HR. eapply triple_conseq; [by apply (triple_List k ns flt), stable_inv|done|]. intros r w [Hi Hr]. split; [done|].
  intros l o -> Ho. destruct (Hr l eq_refl) as (_ & Hs & Hin). split; [by apply Hs|]. by apply Hin in Ho as (_ & _ & ?).
Qed.

Lemma frames_List {B} R k ns flt (g : result kerr (list (object k)) → St World B) :
  (∀ r, frames (λ s, R s ∧ listed flt r s) (g r)) → frames R (kc_List k ns flt ≫= g).
Proof. intros Hg. apply (frames_learn R _ g (listed flt)); [|apply persistent_listed|exact Hg]. intros F R' HR _. by apply listed_List. Qed.

(** Writes. *)
Lemma frames_Create R k (o : object k) : (∀ s, R s → objs s k !! key_of o = None → mine s k (key_of o)) → frames R (kc_Create k o).
Proof.
  intros Hm F R' HR HR0. apply triple_Create; [by apply stable_inv|done|]. intros s s' uid rv now Hwf Hi Heff.
  eapply inv_write; [apply Hm; [apply HR0, Hi|apply Heff]|by eapply touches_create|by eapply create_evolves|done|by eapply finalized_create|done].
Qed.

Definition current {k} (o : object k) (s : KState) (cur : object k) : Prop := objs s k !! key_of o = Some cur ∧ (version o ≠ 0%Z → same_version cur o).

Lemma frames_Delete R k (o : object k) : (∀ s cur, R s → current o s cur → mine s k (key_of o)) → frames R (kc_Delete k o).
Proof.
  intros Hm F R' HR HR0. apply triple_Delete; [by apply stable_inv|done|]. intros s s' now rv Hwf Hi Heff.
  eapply inv_write; [|by eapply touches_delete|by eapply delete_evolves|done|by eapply finalized_delete|done].
  destruct Heff as (cur & Hc & Hv & _). apply (Hm s cur); [apply HR0, Hi|done].
Qed.

Lemma frames_Status R k (o : object k) : (∀ s cur, R s → current o s cur → mine s k (key_of o)) → frames R (kc_Status_Update k o).
Proof.
  intros Hm F R' HR HR0. apply triple_Status_Update; [by apply stable_inv|done|]. intros s s' rv Hwf Hi Heff.
  eapply inv_write; [|by eapply touches_status|by eapply status_evolves|done|by eapply finalized_status|done].
  destruct Heff as (cur & Hc & Hv & _). apply (Hm s cur); [apply HR0, Hi|done].
Qed.

(** The update writes the finalizer, if it is the guarded object. *)
Lemma frames_Update R k (o : object k) : (∀ s cur, R s → current o s cur → mine s k (key_of o)) →
  (k = gk → key_of o = gkey → f ∈ om_Finalizers (meta o)) → frames R (kc_Update k o).
Proof.
  intros Hm Hfin F R' HR HR0. apply triple_Update; [by apply stable_inv|done|]. intros s s' rv g Hwf Hi Heff.
  eapply inv_write; [|by eapply touches_update|by eapply update_evolves|done|by eapply finalized_update|done].
  destruct Heff as (cur & Hc & Hv & _). apply (Hm s cur); [apply HR0, Hi|done].
Qed.

(** Programs. *)
Lemma frames_each {A} R (g : A → Call unit) l : (∀ x, x ∈ l → frames R (g x)) → frames R (each g l).
Proof. intros Hg F R' HR HR0. apply triple_each. intros x Hx. by apply Hg. Qed.

Lemma frames_retry `{Retry} {E A} R conflict (m : St World (result E A)) : frames R m → frames R (RetryOnConflict conflict m).
Proof. intros Hm F R' HR HR0. apply triple_retry; [by apply Hm|done]. Qed.

Lemma frames_clock `{!Clock} R : frames R db.read_clock.
Proof. intros F R' _ _. apply read_clock_triple. Qed.

Lemma frames_and_then {A B} R (m : Call A) (g : A → Call B) : frames R m → (∀ a, frames R (g a)) → frames R (db.and_then m g).
Proof. intros Hm Hg. apply frames_bind; [done|]. intros [a|e]; [apply Hg|apply frames_ret]. Qed.
Lemma frames_or_fail {A B} R what (m : Call A) (g : A → Call B) : frames R m → (∀ a, frames R (g a)) → frames R (or_fail what m g).
Proof. intros Hm Hg. apply frames_bind; [done|]. intros [a|e]; [apply Hg|apply frames_ret]. Qed.
Lemma frames_delete R k what (o : object k) : (∀ s cur, R s → current o s cur → mine s k (key_of o)) → frames R (delete_if_present what o).
Proof. intros Hm. apply frames_bind; [by apply frames_Delete|]. intros r. apply frames_ret. Qed.

(** A status written under conflicts, by the key of its object. *)
Lemma frames_retry_status `{!Clock, Retry} R k key missing change : (∀ s, mine s k key) → frames R (retry_status k key missing change).
Proof.
  intros Hm. apply frames_retry, frames_Get. intros r. apply (frames_pure (∀ o, r = Ok o → key = key_of o)).
  { intros s [_ Hg] o Ho. destruct (Hg o Ho). by destruct key. }
  intros Hk. destruct r as [o|e]; [|apply frames_ret]. apply frames_bind; [apply frames_clock|]. intros t.
  destruct (change t o) as [st|]; [|apply frames_ret]. apply frames_bind; [|intros a; apply frames_ret].
  apply frames_Status. intros s cur _ _. change (key_of (with_status st o)) with (key_of o). by rewrite <- (Hk o eq_refl).
Qed.

(** A seen object is the current one at its version. *)
Lemma seen_is_current {k} (o cur : object k) s : seen o s → current o s cur → cur = o ∧ objs s k !! key_of o = Some o.
Proof.
  intros Hs [Hc Hv]. assert (cur = o) as -> by (eapply seen_current; [done..|by apply Hv, (seen_version _ _ Hs)]). done.
Qed.

Lemma frames_delete_seen R k what (o : object k) : (∀ s, R s → seen o s) → (∀ s, objs s k !! key_of o = Some o → mine s k (key_of o)) →
  frames R (delete_if_present what o).
Proof. intros Hs Hm. apply frames_delete. intros s cur Hr Hc. destruct (seen_is_current o cur s (Hs s Hr) Hc) as [_ Ho]. by apply Hm. Qed.

(** ** The end of a deletion

    When [F] is known the finalizer may go. *)
Lemma inv_known (F : Prop) R s : F → rtc own_step s0 s → R s → inv F R s.
Proof. intros HF Hs Hr. split_and!; [done|by left|done]. Qed.

(** An update of an own object, whatever it does to the finalizer. *)
Lemma update_known (F : Prop) R {k} (o : object k) : F → persistent R → (∀ s, mine s k (key_of o)) →
  triple (on (inv F R)) (kc_Update k o) (λ _, on (inv F R)).
Proof.
  intros HF HR Hm. apply triple_Update; [apply (stable_inv F R HR)|done|]. intros s s' rv g Hwf (Hs & _ & Hr) Heff. apply inv_known; [done| |].
  - eapply rtc_r; [done|]. right. exists k, (key_of o). split; [apply Hm|by eapply touches_update].
  - by eapply HR; [eapply update_evolves|].
Qed.

Lemma remove_spec `{Retry, ControllerLib, !ControllerLibLaws} (F : Prop) R (o : object gk) : F → persistent R → (∀ s, mine s gk (key_of o)) →
  triple (on (inv F R)) (remove_finalizer gk f o) (λ _, on (inv F R)).
Proof.
  intros HF HR Hm. unfold remove_finalizer, retry_update. apply triple_retry; [|done]. unfold update_attempt.
  eapply triple_bind; [apply (got_Get F R gk (key_of o) HR)|]. intros [latest|e]; [|apply triple_ret; by intros w [? _]].
  apply (triple_fact (key_of o = key_of latest)); [intros w [_ Hg]; apply (Hg latest eq_refl)|]. intros Hk.
  destruct (ContainsFinalizer (meta latest) f); [|apply triple_ret; by intros w [? _]]. destruct (Remove_law (meta latest) f) as (l & Hl & _).
  assert (Hkey : key_of (without_finalizer f latest) = key_of o) by (rewrite Hk; unfold key_of, without_finalizer; simpl; by rewrite Hl).
  eapply triple_bind; [|intros x; apply triple_ret; intros w Hw; exact Hw]. eapply triple_pre; [apply (update_known F R); [done..|]|by intros w [? _]].
  intros s. rewrite Hkey. apply Hm.
Qed.

(** Runs, step by step. *)
Lemma inv_weaken (F : Prop) R s : inv F R s → inv F (λ _, True) s.
Proof. intros (Hs & Hf & _). by split_and!. Qed.

Lemma run_frames {A} (F : Prop) (m : St World A) w w' a : frames (λ _, True) m → inv F (λ _, True) (state w) → m w = (w', a) → inv F (λ _, True) (state w').
Proof. intros Hm Hi E. by apply (Hm F (λ _, True) ltac:(done) ltac:(done) w w' a). Qed.

Lemma run_listed (F : Prop) k ns flt w w' (r : result kerr (list (object k))) : inv F (λ _, True) (state w) → kc_List k ns flt w = (w', r) → inv F (listed flt r) (state w').
Proof. intros Hi E. destruct (listed_List F (λ _, True) k ns flt ltac:(done) w w' r Hi E) as [(Hs & Hf & _) Hl]. by split_and!. Qed.

Lemma run_frames_listed {A} (F : Prop) k flt (l : list (object k)) (m : St World A) w w' a :
  frames (listed flt (Ok l)) m → inv F (listed flt (Ok l)) (state w) → m w = (w', a) → inv F (λ _, True) (state w').
Proof. intros Hm Hi E. eapply inv_weaken, (Hm F (listed flt (Ok l)) (persistent_listed flt (Ok l)) (λ _ H, H) w w' a); done. Qed.
End footprint.

Lemma guard_start `{KubeClient} gk gkey u f mine (F : Prop) s : F ∨ finalized gk gkey u f s → inv gk gkey u f mine s F (λ _, True) s.
Proof. intros Hf. by split_and!. Qed.

(** The structural rules. *)
Ltac frame_step :=
  match goal with
  | |- frames _ _ _ _ _ _ _ (mret _) => apply frames_ret
  | |- frames _ _ _ _ _ _ _ (kc_Get _ _ _ ≫= _) => apply frames_Get; [assumption|intros ?]
  | |- frames _ _ _ _ _ _ _ (kc_List _ _ _ ≫= _) => apply frames_List; [assumption|intros ?]
  | |- frames _ _ _ _ _ _ _ (_ ≫= _) => apply frames_bind; [|intros ?]
  | |- frames _ _ _ _ _ _ _ db.read_clock => apply frames_clock
  | |- frames _ _ _ _ _ _ _ (db.and_then _ _) => apply frames_and_then; [|intros ?]
  | |- frames _ _ _ _ _ _ _ (or_fail _ _ _) => apply frames_or_fail; [|intros ?]
  | |- frames _ _ _ _ _ _ _ (RetryOnConflict _ _) => apply frames_retry
  | |- frames _ _ _ _ _ _ _ (retry_status _ _ _ _) => apply frames_retry_status; [assumption|]
  | |- frames _ _ _ _ _ _ _ (match ?x with _ => _ end) => destruct x eqn:?
  end.
