(* ===== verification/DnsReservations.v ===== *)
(** * The DNSReservation controller (controller/dnsreservation_controller.go)

    A reservation gets a base domain [<prefix>.<shard>.<suffix>]: the prefix is the name
    of an Index object in the shard's namespace, labelled with the reservation's UID.
    The Index is found again by that label after a crash, duplicates are deleted, and a
    deleted reservation keeps its finalizer until no Index carries its UID. *)
From S2P Require Import Prelude GoStrings Convert Authorizer StateM HttpApi ApiTypes KubeClient ApiClient Claims ClusterValidation Controllers.
From stdpp Require Import base gmap strings list.
From Stdlib Require Import ZArith Lia String Ascii.
Open Scope string_scope.

Definition dnsReservationFinalizer : string := "seaplane.io/dnsreservation".
Definition dnsReservationAllocationAttempts : nat := 5.
Definition dnsReservationRetryInterval : Z := 30 * second.
Definition DNSReservationClusterDeletionPolicyDelete : string := "Delete".

(** Random bytes of the operating system. *)
Class Random `{KubeClient} := { rand_Read : nat → Call (list Z) }.

Section controller.
Context `{KubeClient, !Clock, Retry, ControllerLib, !Random}.

Record DNSReservationReconciler := mkDNSReconciler {
  dr_BaseDomainSuffix : string;
  dr_generatePrefix : option (Call string)
}.

(** ** Prefixes *)
Definition hex_digit (n : Z) : ascii := ascii_of_nat (Z.to_nat (if (n <? 10)%Z then 48 + n else 87 + n)).
Fixpoint hex_EncodeToString (bytes : list Z) : string :=
  match bytes with
  | [] => ""
  | b :: l => String (hex_digit (b / 16)) (String (hex_digit (b mod 16)) (hex_EncodeToString l))
  end.
Definition randomDNSPrefix : Call string := db.and_then (rand_Read 2) (fun bytes => mret (Ok (hex_EncodeToString bytes))).

(** ** The Indexes of a reservation *)
Definition owner {k} (o : object k) : string := map_get (om_Labels (meta o)) OwnerUIDLabel.
Definition listOwnedIndexes (uid : string) : Call (list (object KIndex)) := kc_List KIndex "" (WithLabel OwnerUIDLabel uid).

(** The first of the Indexes in the order of their names. *)
Definition first_by_name (l : list (object KIndex)) : option (object KIndex) :=
  match l with
  | [] => None
  | x :: l => Some (fold_left (fun best o => if String.ltb (om_Name (meta o)) (om_Name (meta best)) then o else best) l x)
  end.

(** The loop of [recoverOwnedIndex]: Indexes of other shards are deleted. *)
Fixpoint expected_indexes (uid : string) (l : list (object KIndex)) : Call (list (object KIndex)) :=
  match l with
  | [] => mret (Ok [])
  | index :: l =>
      if negb (String.eqb (owner index) uid) then expected_indexes uid l
      else if negb (String.eqb (om_Namespace (meta index)) (dnsShardNamespace defaultDNSShard)) then
        db.and_then (delete_if_present "delete owned Index from unexpected shard" index) (fun _ => expected_indexes uid l)
      else db.and_then (expected_indexes uid l) (fun rest => mret (Ok (index :: rest)))
  end.

Definition recoverOwnedIndex (reservation : object KDNSReservation) : Call (option (object KIndex)) :=
  db.and_then (listOwnedIndexes (uid_of reservation)) (fun indexes =>
  db.and_then (expected_indexes (uid_of reservation) indexes) (fun expected => mret (Ok (first_by_name expected)))).

Definition new_index (accountID uid prefix : string) : object KIndex :=
  mkObj KIndex (set_labels {[AccountIDLabel := accountID; OwnerUIDLabel := uid]} (named (dnsShardNamespace defaultDNSShard) prefix)) tt tt.

(** One prefix: [None] when another reservation has it. *)
Definition allocate_attempt (generate : Call string) (accountID : string) (reservation : object KDNSReservation) : Call (option (object KIndex)) :=
  or_fail "generate DNS prefix" generate (fun prefix =>
  let index := new_index accountID (uid_of reservation) prefix in
  let recover : Call (option (object KIndex)) :=
    or_fail "recover DNS Index after create" (recoverOwnedIndex reservation) (fun owned =>
      mret match owned with
           | Some o => Ok (Some o)
           | None => Err (errorf "DNS Index was created but is not visible by owner UID")
           end) in
  created ← kc_Create KIndex index;
  match created with
  | Ok _ => recover
  | Err e =>
      if negb (IsAlreadyExists e) then mret (Err (wrap "create DNS Index" e))
      else
        or_fail "get colliding DNS Index" (kc_Get KIndex (om_Namespace (meta index)) (om_Name (meta index))) (fun existing =>
        if negb (String.eqb (owner existing) (uid_of reservation)) then mret (Ok None) else recover)
  end).

Fixpoint allocate_loop (attempts : nat) (generate : Call string) (accountID : string) (reservation : object KDNSReservation) : Call (option (object KIndex)) :=
  match attempts with
  | O => mret (Ok None)
  | S n => db.and_then (allocate_attempt generate accountID reservation) (fun index =>
             match index with Some o => mret (Ok (Some o)) | None => allocate_loop n generate accountID reservation end)
  end.

Definition allocateIndex (r : DNSReservationReconciler) (reservation : object KDNSReservation) : Call (option (object KIndex)) :=
  let accountID := map_get (om_Labels (meta reservation)) AccountIDLabel in
  if String.eqb accountID "" then mret (Err (errorf "DNSReservation has no account label"))
  else allocate_loop dnsReservationAllocationAttempts (default randomDNSPrefix (dr_generatePrefix r)) accountID reservation.

Definition deleteDuplicateOwnedIndexes (reservation : object KDNSReservation) (canonical : object KIndex) : Call unit :=
  db.and_then (listOwnedIndexes (uid_of reservation)) (each (fun index =>
    if negb (String.eqb (owner index) (uid_of reservation)) || bool_decide (key_of index = key_of canonical) then mret (Ok tt)
    else delete_if_present "delete duplicate Index" index)).

(** ** The status *)
Definition isAutomaticDNSReservation (reservation : object KDNSReservation) : bool :=
  if String.eqb (ClusterDeletionPolicy (spec reservation)) DNSReservationClusterDeletionPolicyDelete then true
  else
    let clusterUID := claim reservation in
    if String.eqb clusterUID "" then false
    else String.eqb (om_Name (meta reservation)) ("auto-dns-" +:+ clusterUID) || HasSuffix (om_Name (meta reservation)) ("-auto-dns-" +:+ clusterUID).

Definition resolveInternalHostedClusterName (reservation : object KDNSReservation) : Call string :=
  if negb (isAutomaticDNSReservation reservation) then
    let name := HostedClusterNameFromDNSReservation (uid_of reservation) in
    mret (if String.eqb name "" then Err (errorf "derive internal HostedCluster name from DNSReservation UID") else Ok name)
  else if negb (String.eqb (claim reservation) "") then
    or_fail "find Cluster UID" (kc_List KCluster (om_Namespace (meta reservation)) AllObjects) (fun clusters =>
      mret match snd <$> list_find (fun c => uid_of c = claim reservation) clusters with
           | Some cluster =>
               let name := cl_HostedClusterName (spec cluster) in
               Ok (if negb (String.eqb name "") && negb (String.eqb name HostedClusterNamePending) then name else om_Name (meta cluster))
           | None => Err (errorf "cluster UID claiming DNSReservation was not found")
           end)
  else mret (Err (errorf "automatic DNSReservation has no claiming Cluster UID")).

Definition reservation_status (t : Z) (phase baseDomain name message : string) (o : object KDNSReservation) : DNSReservationStatus :=
  let conditions := dns_Conditions (status o) in
  mkDNSStatus
    (if negb (String.eqb message "")
     then SetStatusCondition t (mkCondition "Ready" ConditionFalse (om_Generation (meta o)) t "PrefixAllocationFailed" message) conditions
     else RemoveStatusCondition "Ready" conditions)
    phase baseDomain name (om_Generation (meta o)).

#[export] Instance Condition_eq_dec : EqDecision Condition.
Proof. solve_decision. Defined.
#[export] Instance DNSReservationStatus_eq_dec : EqDecision DNSReservationStatus.
Proof. solve_decision. Defined.

Definition reservation_attempt (reservation : object KDNSReservation) (phase baseDomain message : string) : Call unit :=
  g ← kc_Get KDNSReservation (om_Namespace (meta reservation)) (om_Name (meta reservation));
  match g with
  | Err e => mret (IgnoreNotFound tt e)
  | Ok latest =>
      if negb (String.eqb (uid_of latest) (uid_of reservation)) || dying latest then mret (Ok tt)
      else
        db.and_then (resolveInternalHostedClusterName latest) (fun name =>
        t ← db.read_clock;
        let st := reservation_status t phase baseDomain name message latest in
        if bool_decide (st = status latest) then mret (Ok tt)
        else db.and_then (kc_Status_Update KDNSReservation (with_status (k := KDNSReservation) st latest)) (fun _ => mret (Ok tt)))
  end.
Definition updateReservationStatus (reservation : object KDNSReservation) (phase baseDomain message : string) : Call unit :=
  RetryOnConflict IsConflict (reservation_attempt reservation phase baseDomain message).

(** ** Reconcile *)
Definition drop_finalizer (reservation : object KDNSReservation) : Call unit :=
  retry_update KDNSReservation (key_of reservation) (fun latest =>
    if negb (String.eqb (uid_of latest) (uid_of reservation)) || negb (ContainsFinalizer (meta latest) dnsReservationFinalizer) then None
    else Some (without_finalizer dnsReservationFinalizer latest)).

Definition dns_reconcileDelete (reservation : object KDNSReservation) : Call Result :=
  let uid := uid_of reservation in
  or_fail "list owned DNS Indexes for deletion" (listOwnedIndexes uid) (fun indexes =>
  db.and_then (each (fun idx => if negb (String.eqb (owner idx) uid) then mret (Ok tt) else delete_if_present "delete DNS Index" idx) indexes) (fun _ =>
  or_fail "confirm DNS Index cleanup" (listOwnedIndexes uid) (fun remaining =>
  match remaining with
  | _ :: _ => mret (Ok (requeue dnsReservationRetryInterval))
  | [] => or_fail "remove DNSReservation finalizer" (drop_finalizer reservation) (fun _ => mret (Ok done_result))
  end))).

Definition base_domain (r : DNSReservationReconciler) (index : object KIndex) : string :=
  om_Name (meta index) +:+ "." +:+ defaultDNSShard +:+ "." +:+ dr_BaseDomainSuffix r.

Definition publish (r : DNSReservationReconciler) (reservation : object KDNSReservation) (index : object KIndex) : Call Result :=
  or_fail "clean up duplicate DNS Indexes" (deleteDuplicateOwnedIndexes reservation index) (fun _ =>
  or_fail "mark DNSReservation Ready" (updateReservationStatus reservation DNSReservationPhaseReady (base_domain r index) "") (fun _ =>
  mret (Ok (requeue statusRefreshDelay)))).

Definition allocate (r : DNSReservationReconciler) (reservation : object KDNSReservation) : Call Result :=
  or_fail "recover DNS Index for reservation UID" (recoverOwnedIndex reservation) (fun recovered =>
  match recovered with
  | Some index => publish r reservation index
  | None =>
      db.and_then (allocateIndex r reservation) (fun allocated =>
      match allocated with
      | Some index => publish r reservation index
      | None =>
          let message := "failed to reserve a DNS prefix after " +:+ FormatInt (Z.of_nat dnsReservationAllocationAttempts) +:+ " attempts" in
          or_fail "record DNS allocation failure" (updateReservationStatus reservation DNSReservationPhasePending "" message) (fun _ =>
          mret (Ok (requeue dnsReservationRetryInterval)))
      end)
  end).

Definition dns_Reconcile (r : DNSReservationReconciler) (ns name : string) : Call Result :=
  g ← kc_Get KDNSReservation ns name;
  match (g : result kerr (object KDNSReservation)) with
  | Err e => mret (IgnoreNotFound done_result e)
  | Ok reservation =>
      if dying reservation then dns_reconcileDelete reservation
      else if negb (ContainsFinalizer (meta reservation) dnsReservationFinalizer) then
        u ← add_finalizer dnsReservationFinalizer reservation;
        mret match u with
             | Ok _ => Ok done_result
             | Err e => if IsNotFound e then Ok done_result else Err (wrap "add DNSReservation finalizer" e)
             end
      else if String.eqb (uid_of reservation) "" then mret (Err (errorf "DNSReservation has no database UID"))
      else if String.eqb (dr_BaseDomainSuffix r) "" then mret (Err (errorf "DNS reservation base domain suffix is not configured"))
      else allocate r reservation
  end.
End controller.

(** * Base domains are exclusive

    The DNSReservation controller publishes a base domain only while the reservation
    owns the Index of its prefix ([published]). It touches no Index of another
    reservation, so the controllers of different reservations can run side by side
    ([env_step] is what one may assume of the others), and no two live reservations
    are ever Ready under the same domain. A reservation loses its finalizer only when
    no Index is left in its name. *)
From stdpp Require Import base gmap strings list relations.
From Stdlib Require Import ZArith Lia String.
Open Scope string_scope.

Section props.
Context `{KubeClientLaws, !Clock, Retry, ControllerLib, !ControllerLibLaws, !Random}.

(** The Indexes labelled with a UID, and those of the shard in use. *)
Definition owned (u : string) (s : KState) : gmap nsname (object KIndex) := filter (λ kv, owner kv.2 = u) (objs s KIndex).
Definition shard_owned (u : string) (s : KState) : gmap nsname (object KIndex) :=
  filter (λ kv, kv.1.1 = dnsShardNamespace defaultDNSShard) (owned u s).

(** The Index whose name is the prefix: the first of the reservation's Indexes. *)
Definition canonical (u : string) (c : object KIndex) (s : KState) : Prop :=
  shard_owned u s !! key_of c = Some c ∧
  ∀ key o, shard_owned u s !! key = Some o → String.ltb (om_Name (meta o)) (om_Name (meta c)) = false.

Definition live_ready (o : object KDNSReservation) : Prop := dying o = false ∧ dns_Phase (status o) = DNSReservationPhaseReady.

(** A live Ready reservation has the domain of an Index it owns. *)
Definition published (r : DNSReservationReconciler) (u : string) (s : KState) : Prop :=
  ∀ key o, objs s KDNSReservation !! key = Some o → uid_of o = u → live_ready o →
    ∃ c, canonical u c s ∧ dns_BaseDomain (status o) = base_domain r c.

Definition unpublished (u : string) (s : KState) : Prop :=
  ∀ key o, objs s KDNSReservation !! key = Some o → uid_of o = u → ¬ live_ready o.

Lemma unpublished_published r u s : unpublished u s → published r u s.
Proof. intros Hu key o Ho Hk Hr. by destruct (Hu _ _ Ho Hk). Qed.

(** ** Lookups *)
Lemma owned_lookup u s key o : owned u s !! key = Some o ↔ objs s KIndex !! key = Some o ∧ owner o = u.
Proof. unfold owned. by rewrite map_lookup_filter_Some. Qed.
Lemma shard_owned_lookup u s key o : shard_owned u s !! key = Some o ↔
  objs s KIndex !! key = Some o ∧ owner o = u ∧ key.1 = dnsShardNamespace defaultDNSShard.
Proof. unfold shard_owned. rewrite map_lookup_filter_Some, owned_lookup. naive_solver. Qed.
Lemma shard_owned_same u s s' : owned u s' = owned u s → shard_owned u s' = shard_owned u s.
Proof. unfold shard_owned. by intros ->. Qed.
Lemma canonical_same u c s s' : owned u s' = owned u s → canonical u c s → canonical u c s'.
Proof. intros Hs%shard_owned_same [Hc Hl]. by split; [rewrite Hs|intros key o; rewrite Hs; apply Hl]. Qed.

(** There is one canonical Index: names are compared as strings. *)
Lemma canonical_unique u s c1 c2 : wf s → canonical u c1 s → canonical u c2 s → c1 = c2.
Proof.
  intros Hwf [C1 L1] [C2 L2]. pose proof (L1 _ _ C2) as N1. pose proof (L2 _ _ C1) as N2.
  apply shard_owned_lookup in C1 as (C1 & _ & K1), C2 as (C2 & _ & K2).
  assert (om_Name (meta c1) = om_Name (meta c2)) as Hn.
  { unfold String.ltb in N1, N2. rewrite String.compare_antisym in N2. symmetry. apply String.compare_eq_iff.
    destruct (String.compare (om_Name (meta c2)) (om_Name (meta c1))); simpl in *; congruence. }
  assert (key_of c1 = key_of c2) as Hk by (unfold key_of in *; simpl in *; congruence). congruence.
Qed.

Lemma owned_ext u s s' : (∀ key o, owner o = u → objs s' KIndex !! key = Some o ↔ objs s KIndex !! key = Some o) → owned u s' = owned u s.
Proof.
  intros He. apply map_eq. intros key. apply option_eq. intros o. rewrite !owned_lookup. naive_solver.
Qed.

Lemma reservation_unique s key1 key2 (o1 o2 : object KDNSReservation) : wf s → objs s KDNSReservation !! key1 = Some o1 →
  objs s KDNSReservation !! key2 = Some o2 → uid_of o1 = uid_of o2 → key1 = key2 ∧ o1 = o2.
Proof. intros Hwf H1' H2' Hu. assert (key1 = key2) as -> by (by eapply (wf_unique _ Hwf)). split; [done|congruence]. Qed.

(** ** The controller's own steps *)

(** A step on the Indexes of [u]. *)
Definition index_step (u : string) (s s' : KState) : Prop :=
  objs s' KDNSReservation = objs s KDNSReservation ∧ ∀ u', u' ≠ u → owned u' s' = owned u' s.

(** A step on the reservation [u]: it may change its status and its finalizers, or go. *)
Definition reservation_like (u : string) (s s' : KState) : Prop :=
  (∀ key o', objs s' KDNSReservation !! key = Some o' →
    objs s KDNSReservation !! key = Some o' ∨ (uid_of o' = u ∧ ∃ o, objs s KDNSReservation !! key = Some o ∧ uid_of o = u)) ∧
  ∀ key o, objs s KDNSReservation !! key = Some o → uid_of o ≠ u → objs s' KDNSReservation !! key = Some o.
Definition reservation_step (u : string) (s s' : KState) : Prop := objs s' KIndex = objs s KIndex ∧ reservation_like u s s'.

Lemma create_index_step a u prefix uid rv now s s' : create_effect (new_index a u prefix) uid rv now s s' → index_step u s s'.
Proof.
  intros (Hn & _ & _ & _ & ->). split; [by apply put_other|]. intros u' Hne. apply owned_ext. intros key o Ho.
  change (objs (put s (created_stored (new_index a u prefix) uid rv now)) KIndex !! key = Some o ↔ objs s KIndex !! key = Some o).
  rewrite put_same. rewrite lookup_insert_Some. split; [|intros Hl; right; split; [|done]; intros <-].
  - intros [[_ <-]|[_ ?]]; [|done]. destruct Hne. rewrite <- Ho. unfold owner, map_get. simpl.
    rewrite lookup_insert_ne by done. by rewrite lookup_singleton_eq.
  - change (objs s KIndex !! key_of (new_index a u prefix) = Some o) in Hl. congruence.
Qed.

(** A delete of an Index of [u] that was read: the other Indexes stay. *)
Lemma delete_index_step (o : object KIndex) now rv s s' : wf s → seen o s → delete_effect o now rv s s' →
  index_step (owner o) s s' ∧
  (∀ key, key ≠ key_of o → objs s' KIndex !! key = objs s KIndex !! key) ∧
  (∀ o', objs s' KIndex !! key_of o = Some o' → om_Name (meta o') = om_Name (meta o)).
Proof.
  intros Hwf Hs Heff. destruct (delete_seen _ _ _ _ _ Hwf Hs Heff) as [Ho Hcase].
  assert (Hother : ∀ key, key ≠ key_of o → objs s' KIndex !! key = objs s KIndex !! key).
  { intros key Hk. destruct Hcase as [->|(o' & -> & Hk' & _)]; [by apply remove_keeps; right|].
    rewrite put_same, lookup_insert_ne; [done|]. by rewrite Hk'. }
  assert (Hat : ∀ o', objs s' KIndex !! key_of o = Some o' → om_Labels (meta o') = om_Labels (meta o) ∧ om_Name (meta o') = om_Name (meta o)).
  { intros o'. destruct Hcase as [->|(o2 & -> & Hk' & _ & _ & Hl & _)].
    - simpl. by rewrite lookup_delete_eq.
    - rewrite put_same, <- Hk', lookup_insert_eq. intros [= <-]. split; [done|]. by injection Hk'. }
  split_and!; [|done|by intros ? [_ ?]%Hat]. split.
  - by destruct Hcase as [->|(o' & -> & _)]; [|apply put_other].
  - intros u' Hne. apply owned_ext. intros key o' Hu. destruct (decide (key = key_of o)) as [->|Hk]; [|by rewrite Hother].
    split; [|intros Ho'; assert (o' = o) as -> by congruence; by destruct Hne].
    intros Ho'. destruct (Hat _ Ho') as [Hl _]. destruct Hne. unfold owner in *. by rewrite Hl in Hu.
Qed.

Lemma canonical_delete u c (o : object KIndex) now rv s s' : wf s → seen o s → delete_effect o now rv s s' →
  owner o = u → key_of o ≠ key_of c → canonical u c s → canonical u c s'.
Proof.
  intros Hwf Hs Heff Hu Hk [Hc Hl]. pose proof (delete_index_step _ _ _ _ _ Hwf Hs Heff) as (_ & Hother & Hat).
  destruct (delete_seen _ _ _ _ _ Hwf Hs Heff) as [Ho _]. apply shard_owned_lookup in Hc as (Hc & Hcu & Hcn). split.
  - apply shard_owned_lookup. by rewrite Hother.
  - intros key o'. rewrite shard_owned_lookup. intros (Ho' & Hu' & Hn). destruct (decide (key = key_of o)) as [->|Hne].
    + rewrite (Hat _ Ho'). apply (Hl (key_of o)). apply shard_owned_lookup. done.
    + rewrite Hother in Ho' by done. apply (Hl key). by apply shard_owned_lookup.
Qed.

Lemma status_step (o : object KDNSReservation) (st : DNSReservationStatus) rv s s' : wf s → seen o s →
  status_effect (with_status (k := KDNSReservation) st o) rv s s' →
  reservation_step (uid_of o) s s' ∧ ∀ key o', objs s' KDNSReservation !! key = Some o' → uid_of o' = uid_of o → status o' = st.
Proof.
  intros Hwf Hs (cur & Hc & Hv & _ & ->). change (objs s KDNSReservation !! key_of o = Some cur) in Hc.
  assert (cur = o) as -> by (eapply seen_current; done). split; [split; [|split]|].
  - by apply put_other.
  - intros key o'. rewrite put_same. intros [[<- <-]|[_ ?]]%lookup_insert_Some; [right|by left]. split; [done|]. by exists o.
  - intros key x Hx Hne. rewrite put_same, lookup_insert_ne; [done|]. intros <-. destruct Hne. by pose proof (eq_trans (eq_sym Hx) Hc) as [= ->].
  - intros key o'. rewrite put_same. intros [[<- <-]|[Hk Hl]]%lookup_insert_Some; [done|]. intros Hu.
    destruct (reservation_unique _ _ _ _ _ Hwf Hl Hc Hu) as [-> _]. by destruct Hk.
Qed.

Lemma update_step (o : object KDNSReservation) f rv g s s' : wf s → seen o s →
  (∃ l, f (meta o) = set_finalizers l (meta o)) → update_effect (with_meta f o) rv g s s' →
  reservation_step (uid_of o) s s' ∧
  (∀ key o', objs s' KDNSReservation !! key = Some o' → uid_of o' = uid_of o → status o' = status o ∧ dying o' = dying o) ∧
  objs s KDNSReservation !! key_of o = Some o.
Proof.
  intros Hwf Hs (l & Hl) Heff. destruct (update_seen o (with_meta f o) rv g s s' Hwf Hs) as (Ho & o' & Hk & Hu & _ & _ & Hd & _ & Hst & ->);
    [by unfold key_of, with_meta; simpl; rewrite Hl|by unfold same_version, uid_of, with_meta; simpl; rewrite Hl|done|].
  destruct (settle_cases s o') as [[_ ->]|[_ ->]]; split_and!; try done.
  - split; [by apply put_other|split].
    + intros key o1. rewrite put_same. intros [[<- <-]|[_ ?]]%lookup_insert_Some; [right|by left]. split; [done|]. exists o. by rewrite Hk.
    + intros key x Hx Hne. rewrite put_same, lookup_insert_ne; [done|]. rewrite Hk. intros <-. destruct Hne. by pose proof (eq_trans (eq_sym Hx) Ho) as [= ->].
  - intros key o1. rewrite put_same. intros [[<- <-]|[Hne Hl1]]%lookup_insert_Some Hu1; [unfold dying; by rewrite Hd, Hst|].
    destruct (reservation_unique _ _ _ _ _ Hwf Hl1 Ho Hu1) as [-> ->]. by destruct Hne.
  - split; [done|split].
    + intros key o1 Hl1%remove_lookup. by left.
    + intros key x Hx Hne. rewrite remove_keeps; [done|]. right. rewrite Hk. intros <-. destruct Hne. by pose proof (eq_trans (eq_sym Hx) Ho) as [= ->].
  - intros key o1 Hl1%remove_lookup Hu1. by destruct (reservation_unique _ _ _ _ _ Hwf Hl1 Ho Hu1) as [-> ->].
Qed.

(** ** The environment

    [mine] are the UIDs of the reservations under [key]: the queue hands a key to one
    worker at a time, so nothing else allocates or publishes for them. *)
Context (r : DNSReservationReconciler) (key : nsname) (mine : gset string).

Record env_step (s s' : KState) : Prop := mkEnv {
  env_owned : ∀ u, u ∈ mine → owned u s' = owned u s;
  env_status : ∀ u key o', u ∈ mine → objs s' KDNSReservation !! key = Some o' → uid_of o' = u →
    dns_Phase (status o') ≠ DNSReservationPhaseReady ∨
    ∃ o, objs s KDNSReservation !! key = Some o ∧ uid_of o = u ∧ status o' = status o ∧ (dying o = true → dying o' = true);
  env_named : (∀ o, objs s KDNSReservation !! key = Some o → uid_of o ∈ mine) → ∀ o', objs s' KDNSReservation !! key = Some o' → uid_of o' ∈ mine;
  env_others : ∀ u, u ∉ mine → published r u s → published r u s';
  env_finalizer : ∀ k o, objs s KDNSReservation !! k = Some o → uid_of o ∈ mine → dnsReservationFinalizer ∈ om_Finalizers (meta o) →
    ∃ o', objs s' KDNSReservation !! k = Some o' ∧ uid_of o' = uid_of o ∧ dnsReservationFinalizer ∈ om_Finalizers (meta o') ∧ (dying o = true → dying o' = true)
}.

(** What the controller does: a step of its own leaves its reservation published. *)
Definition dns_step (s s' : KState) : Prop :=
  interfere s s' ∨ ∃ u, u ∈ mine ∧ (index_step u s s' ∨ reservation_step u s s') ∧ published r u s'.

Context (s0 : KState).
Record base (s : KState) : Prop := mkBase {
  base_steps : rtc dns_step s0 s;
  base_published : ∀ u, published r u s;
  base_named : ∀ o, objs s KDNSReservation !! key = Some o → uid_of o ∈ mine
}.

Lemma base_index u s s' : u ∈ mine → index_step u s s' → published r u s' → base s → base s'.
Proof.
  intros Hm [Hd Ho] Hp [B0 B1 B2]. split; [|..|by rewrite Hd].
  { eapply rtc_r; [done|]. right. exists u. by split_and!; [|left|]. }
  intros u'. destruct (decide (u' = u)) as [->|Hne]; [done|].
  intros k o. rewrite Hd. intros Hk Hu Hr. destruct (B1 u' _ _ Hk Hu Hr) as (c & Hc & Hb). exists c. split; [|done].
  eapply canonical_same; [by apply Ho|done].
Qed.

Lemma base_reservation u s s' : u ∈ mine → reservation_step u s s' → published r u s' → base s → base s'.
Proof.
  intros Hm Hstep Hp [B0 B1 B2]. pose proof Hstep as (Hi & Hd & _). split.
  - eapply rtc_r; [done|]. right. exists u. by split_and!; [|right|].
  - intros u'. destruct (decide (u' = u)) as [->|Hne]; [done|]. intros k o Hk Hu Hr.
    destruct (Hd _ _ Hk) as [Hk'|[Hu' _]]; [|congruence]. destruct (B1 u' _ _ Hk' Hu Hr) as (c & Hc & Hb).
    exists c. split; [|done]. eapply canonical_same; [|exact Hc]. unfold owned. by rewrite Hi.
  - intros o Ho. destruct (Hd _ _ Ho) as [?|(Hu & o' & Ho' & Hu')]; [by apply B2|]. rewrite Hu, <- Hu'. by apply B2.
Qed.

(** A step on the reservation that keeps its status. *)
Lemma base_same_status u s s' (o : object KDNSReservation) : u ∈ mine → reservation_step u s s' → objs s KDNSReservation !! key_of o = Some o → uid_of o = u →
  (∀ k o', objs s' KDNSReservation !! k = Some o' → uid_of o' = u → status o' = status o ∧ dying o' = dying o) → base s → base s'.
Proof.
  intros Hm Hstep Ho Hu Hst B. eapply base_reservation; [done|done| |done]. intros k o' Hk Hu' [Hd Hr]. destruct (Hst _ _ Hk Hu') as [E1 E2].
  destruct (base_published _ B u _ _ Ho Hu) as (c & Hc & Hb); [split; congruence|]. exists c. rewrite E1. split; [|done].
  eapply canonical_same; [|exact Hc]. unfold owned. by rewrite (proj1 Hstep).
Qed.

(** The first Index by name is one of them, and none is before it. *)
Lemma ltb_false (a b : string) : String.ltb a b = false ↔ strings.String.le b a.
Proof.
  unfold String.ltb, strings.String.le, String.leb. rewrite (String.compare_antisym b a). by destruct (String.compare a b).
Qed.

Lemma first_least (x : object KIndex) l :
  let c := fold_left (fun best o => if String.ltb (om_Name (meta o)) (om_Name (meta best)) then o else best) l x in
  c ∈ x :: l ∧ ∀ o, o ∈ x :: l → String.ltb (om_Name (meta o)) (om_Name (meta c)) = false.
Proof.
  revert x. induction l as [|y l IH]; intros x; simpl.
  - split; [by left|]. intros o ->%list_elem_of_singleton. by apply ltb_false.
  - set (b := if String.ltb _ _ then y else x). destruct (IH b) as [Hin Hle].
    assert (Hb : b ∈ [x; y] ∧ String.ltb (om_Name (meta x)) (om_Name (meta b)) = false ∧ String.ltb (om_Name (meta y)) (om_Name (meta b)) = false).
    { unfold b. destruct (String.ltb (om_Name (meta y)) (om_Name (meta x))) eqn:E; (split; [by rewrite !elem_of_cons; auto|]); [|by split; [apply ltb_false|]].
      split; [|by apply ltb_false]. apply ltb_false. unfold strings.String.le, String.leb. unfold String.ltb in E.
      by destruct (String.compare (om_Name (meta y)) (om_Name (meta x))). }
    destruct Hb as (Hb & Hx & Hy). split.
    { apply elem_of_cons in Hin as [->|Hin]; [|by do 2 right]. clear -Hb. rewrite !elem_of_cons in *. destruct Hb as [->|[->|Hn]]; auto. by apply elem_of_nil in Hn. }
    assert (Hcb : strings.String.le (om_Name (meta (fold_left (fun best o => if String.ltb (om_Name (meta o)) (om_Name (meta best)) then o else best) l b))) (om_Name (meta b))) by (apply ltb_false, Hle; by left).
    intros o [->|[->|Ho]%elem_of_cons]%elem_of_cons; [| |apply Hle; by right]; apply ltb_false; (etrans; [exact Hcb|by apply ltb_false]).
Qed.

Section run.
Context (rely : ∀ s s', interfere s s' → env_step s s').

Lemma stable_canonical u c : u ∈ mine → stable (canonical u c).
Proof. intros Hm s s' Hi _. apply canonical_same. by apply rely. Qed.

Lemma stable_unpublished u : u ∈ mine → stable (unpublished u).
Proof.
  intros Hm s s' Hi _ Hu k o' Ho' Hk [Hd Hr]. destruct (env_status _ _ (rely _ _ Hi) u k o' Hm Ho' Hk) as [?|(o & Ho & Hko & Hst & Hdy)]; [done|].
  apply (Hu _ _ Ho Hko). split; [|congruence]. destruct (dying o); [|done]. rewrite Hdy in Hd by done. done.
Qed.

Lemma stable_base : stable base.
Proof.
  intros s s' Hi _ [B0 B1 B2]. split; [eapply rtc_r; [done|by left]|..|by apply (env_named _ _ (rely _ _ Hi))]. intros u.
  destruct (decide (u ∈ mine)) as [Hm|Hm]; [|by apply (env_others _ _ (rely _ _ Hi))].
  intros k o' Ho' Hk [Hd Hr]. destruct (env_status _ _ (rely _ _ Hi) u k o' Hm Ho' Hk) as [?|(o & Ho & Hko & Hst & Hdy)]; [done|].
  destruct (B1 u _ _ Ho Hko) as (c & Hc & Hb).
  { split; [|congruence]. destruct (dying o); [|done]. rewrite Hdy in Hd by done. done. }
  exists c. rewrite Hst. split; [|done].
  eapply canonical_same; [|exact Hc]. by apply (env_owned _ _ (rely _ _ Hi)).
Qed.

(** The reservation that is reconciled. *)
Context (u : string) (mine_u : u ∈ mine).

(** Its Indexes can go when nothing is published in its name, or when they are not the
    published one. *)
Lemma delete_unpublished (o : object KIndex) now rv s s' : wf s → seen o s → owner o = u → base s ∧ unpublished u s →
  delete_effect o now rv s s' → base s' ∧ unpublished u s'.
Proof.
  intros Hwf Hs Ho [B Hu] Heff. destruct (delete_index_step _ _ _ _ _ Hwf Hs Heff) as (Hstep & _ & _). rewrite Ho in Hstep.
  assert (unpublished u s') by (intros k x; rewrite (proj1 Hstep); apply Hu). split; [|done].
  eapply base_index; [done|done|by apply unpublished_published|done].
Qed.

Lemma delete_duplicate c (o : object KIndex) now rv s s' : wf s → seen o s → owner o = u → key_of o ≠ key_of c → base s ∧ canonical u c s →
  delete_effect o now rv s s' → base s' ∧ canonical u c s'.
Proof.
  intros Hwf Hs Ho Hk [B Hc] Heff. destruct (delete_index_step _ _ _ _ _ Hwf Hs Heff) as (Hstep & _ & _). rewrite Ho in Hstep.
  pose proof (canonical_delete u c o now rv s s' Hwf Hs Heff Ho Hk Hc) as Hc'. split; [|done]. eapply base_index; [done|done| |done].
  intros k x Hx Hux Hr. rewrite (proj1 Hstep) in Hx. destruct (base_published _ B u _ _ Hx Hux Hr) as (c2 & Hc2 & Hb).
  exists c. split; [done|]. assert (c2 = c) as -> by (by eapply canonical_unique). done.
Qed.

Lemma shard_deleted_elsewhere (o : object KIndex) now rv s s' : wf s → seen o s → delete_effect o now rv s s' →
  om_Namespace (meta o) ≠ dnsShardNamespace defaultDNSShard → ∀ u', shard_owned u' s' = shard_owned u' s.
Proof.
  intros Hwf Hs Heff Hn u'. destruct (delete_index_step _ _ _ _ _ Hwf Hs Heff) as (_ & Hother & _). apply map_eq. intros k. apply option_eq. intros x.
  rewrite !shard_owned_lookup. destruct (decide (k = key_of o)) as [->|Hk]; [naive_solver|by rewrite Hother].
Qed.

Lemma base_elsewhere (o : object KIndex) now rv s s' : wf s → seen o s → delete_effect o now rv s s' →
  om_Namespace (meta o) ≠ dnsShardNamespace defaultDNSShard → owner o = u → base s → base s'.
Proof.
  intros Hwf Hs Heff Hn Hou B. pose proof (shard_deleted_elsewhere _ _ _ _ _ Hwf Hs Heff Hn) as Hsame.
  destruct (delete_index_step _ _ _ _ _ Hwf Hs Heff) as (Hstep & _ & _). rewrite Hou in Hstep. eapply base_index; [done|done| |done].
  intros k x. rewrite (proj1 Hstep). intros Hx Hux Hr. destruct (base_published _ B _ _ _ Hx Hux Hr) as (c & [Hc Hl] & Hb).
  exists c. split; [|done]. split; [by rewrite Hsame|]. intros k2 x2. rewrite Hsame. apply Hl.
Qed.

(** ** Listing and recovering *)
Context (u_id : u ≠ "").

Lemma label_owner (o : object KIndex) : matches (WithLabel OwnerUIDLabel u) o = true ↔ owner o = u.
Proof.
  unfold matches, owner, map_get. rewrite bool_decide_eq_true. destruct (om_Labels (meta o) !! OwnerUIDLabel); naive_solver.
Qed.

(** The objects listed were read, carry the UID, and are all there are. *)
Definition dns_listed (l : list (object KIndex)) (s : KState) : Prop := ∀ o, o ∈ l → seen o s ∧ owner o = u.

Lemma stable_listed l : stable (dns_listed l).
Proof. intros s s' Hi Hwf Hl o Ho. destruct (Hl o Ho). split; [by eapply stable_seen|done]. Qed.

Lemma listed_evolves l s s' : evolves s s' → dns_listed l s → dns_listed l s'.
Proof. intros He Hl o Ho. destruct (Hl o Ho). split; [by eapply seen_evolves|done]. Qed.

Lemma list_spec P : stable P → triple (on P) (listOwnedIndexes u) (λ r w, P (state w) ∧
  ∀ l, r = Ok l → dns_listed l (state w) ∧ ∀ k o, owned u (state w) !! k = Some o ↔ o ∈ l ∧ k = key_of o).
Proof.
  intros HP. eapply triple_conseq; [by apply (triple_List KIndex "" (WithLabel OwnerUIDLabel u))|done|].
  intros res w [Hw Hl]. split; [done|]. intros l ->. destruct (Hl l eq_refl) as (_ & Hs & Hin). split.
  - intros o Ho. split; [by apply Hs|]. apply label_owner. by apply Hin in Ho as (_ & _ & ?).
  - intros k o. rewrite owned_lookup, Hin, label_owner. split; [|intros [(? & _ & ?) ->]; done].
    intros [Ho Hu]. assert (k = key_of o) as -> by (eapply wf_key; [apply state_wf|done]). auto.
Qed.

Lemma expected_spec l v : triple (on (λ s, base s ∧ shard_owned u s = v ∧ dns_listed l s)) (expected_indexes u l)
  (λ r w, (base (state w) ∧ shard_owned u (state w) = v) ∧ ∀ e, r = Ok e → e = filter (λ o, om_Namespace (meta o) = dnsShardNamespace defaultDNSShard) l).
Proof.
  assert (Hst : ∀ l, stable (λ s, base s ∧ shard_owned u s = v ∧ dns_listed l s)).
  { intros l'. apply stable_and; [apply stable_base|]. apply stable_and; [|apply stable_listed].
    intros s s' Hi _ <-. apply shard_owned_same. by apply (env_owned _ _ (rely _ _ Hi)). }
  induction l as [|o l IH]; [apply triple_ret; intros w (? & ? & _); split; [done|]; by intros e [= <-]|]. simpl expected_indexes.
  assert (IH' : triple (on (λ s, base s ∧ shard_owned u s = v ∧ dns_listed (o :: l) s)) (expected_indexes u l)
    (λ r w, (base (state w) ∧ shard_owned u (state w) = v) ∧ ∀ e, r = Ok e → e = filter (λ o, om_Namespace (meta o) = dnsShardNamespace defaultDNSShard) l)).
  { eapply triple_conseq; [exact IH| |done]. intros w (? & ? & Hl). split_and!; [done..|]. intros x Hx. apply Hl. by right. }
  apply (triple_fact (owner o = u)); [intros w (_ & _ & Hl); apply (Hl o); by left|]. intros Ho. rewrite Ho, String.eqb_refl. cbn [negb].
  rewrite filter_cons. destruct (String.eqb_spec (om_Namespace (meta o)) (dnsShardNamespace defaultDNSShard)) as [Hn|Hn]; cbn [negb].
  - rewrite decide_True by done. eapply triple_and_then; [exact IH'| |].
    + intros e. apply triple_ret. intros w2 [? He]. split; [done|]. intros e' [= <-]. by rewrite (He e).
    + intros e w2 [? _]. by split.
  - rewrite decide_False by done.
    eapply (triple_and_then _ _ _ (λ _, on (λ s, base s ∧ shard_owned u s = v ∧ dns_listed (o :: l) s))); [|intros []; exact IH'|].
    + apply triple_delete_if_present; [apply Hst|done|]. intros s s' now rv Hwf (B2 & Hv2 & Hl2) Heff. destruct (Hl2 o) as [Hs2 _]; [by left|].
      split_and!; [by eapply base_elsewhere|by rewrite (shard_deleted_elsewhere _ _ _ _ _ Hwf Hs2 Heff Hn)|].
      eapply listed_evolves; [|done]. by eapply delete_evolves.
    + intros e w2 (? & ? & _). by split_and!.
Qed.

Definition recovered (x : option (object KIndex)) (s : KState) : Prop :=
  match x with Some c => canonical u c s | None => unpublished u s ∧ shard_owned u s = ∅ end.

Lemma stable_shard v : stable (λ s, shard_owned u s = v).
Proof. intros s s' Hi _ <-. apply shard_owned_same. by apply (env_owned _ _ (rely _ _ Hi)). Qed.

Lemma stable_recovered x : stable (recovered x).
Proof. destruct x; [by apply stable_canonical|]. apply stable_and; [by apply stable_unpublished|apply stable_shard]. Qed.

Lemma first_recovered l s : wf s → base s → (∀ k o, shard_owned u s !! k = Some o ↔ o ∈ l ∧ k = key_of o) → recovered (first_by_name l) s.
Proof.
  intros Hwf B Hl. destruct l as [|x l]; simpl.
  - assert (shard_owned u s = ∅) as He.
    { apply map_eq. intros k. rewrite lookup_empty. destruct (_ !! k) as [o|] eqn:E; [|done]. apply Hl in E as [Hin _]. by apply elem_of_nil in Hin. }
    split; [|done]. intros k o Ho Hu Hr. destruct (base_published _ B u _ _ Ho Hu Hr) as (c & [Hc _] & _). by rewrite He, lookup_empty in Hc.
  - destruct (first_least x l) as [Hin Hle]. split; [by apply Hl|]. intros k o [Ho _]%Hl. by apply Hle.
Qed.

Lemma recover_spec (res : object KDNSReservation) : uid_of res = u →
  triple (on base) (recoverOwnedIndex res) (λ x w, base (state w) ∧ ∀ i, x = Ok i → recovered i (state w)).
Proof.
  intros Hu. unfold recoverOwnedIndex. rewrite Hu. eapply triple_and_then; [by apply list_spec, stable_base| |by intros e w [? _]].
  intros l w w' x [B Hl] E. destruct (Hl l eq_refl) as [Hlisted Hall]. set (v := shard_owned u (state w)).
  apply (triple_and_then (on (λ s, base s ∧ shard_owned u s = v ∧ dns_listed l s)) _ _ _
    (λ x w, base (state w) ∧ ∀ i, x = Ok i → recovered i (state w)) (expected_spec l v)) in E; [done| | |done].
  - intros e. apply triple_ret. intros w2 [[B2 Hv] He]. split; [done|]. intros i [= <-]. rewrite (He e eq_refl).
    apply first_recovered; [apply state_wf|done|]. intros k o. rewrite Hv. unfold v. rewrite shard_owned_lookup, list_elem_of_filter.
    pose proof (Hall k o) as Hko. rewrite owned_lookup in Hko. unfold key_of in *. naive_solver.
  - intros e w2 [[? _] _]. done.
Qed.

(** ** Allocating *)
Lemma attempt_spec generate a (res : object KDNSReservation) : uid_of res = u → (∀ P, stable P → triple (on P) generate (λ _, on P)) →
  triple (on (λ s, base s ∧ unpublished u s)) (allocate_attempt generate a res)
    (λ x w, base (state w) ∧ ∀ i, x = Ok i → match i with Some c => canonical u c (state w) | None => unpublished u (state w) end).
Proof.
  intros Hu Hgen. set (P := λ s, base s ∧ unpublished u s). assert (HP : stable P) by (apply stable_and; [apply stable_base|by apply stable_unpublished]).
  set (Q := λ (x : result kerr (option (object KIndex))) w, base (state w) ∧ ∀ i, x = Ok i → match i with Some c => canonical u c (state w) | None => unpublished u (state w) end).
  eapply (triple_or_fail _ _ _ _ (λ _, on P) Q); [by apply Hgen| |intros e e' w [? _]; by split].
  intros prefix. assert (Hrec : triple (on P) (or_fail "recover DNS Index after create" (recoverOwnedIndex res) (fun owned =>
      mret match owned with Some o => Ok (Some o) | None => Err (errorf "DNS Index was created but is not visible by owner UID") end)) Q).
  { eapply triple_or_fail; [eapply triple_conseq; [by apply recover_spec|by intros w [? _]|done]| |by intros e e' w [? _]].
    intros owned. apply triple_ret. intros w [B Hr]. split; [done|]. specialize (Hr _ eq_refl). destruct owned; intros i [=<-]. exact Hr. }
  eapply (triple_bind _ _ _ (λ _, on P)).
  - apply triple_Create; [done..|]. intros s s' uid rv now Hwf [B Hun] Heff. rewrite Hu in Heff.
    pose proof (create_index_step _ _ _ _ _ _ _ _ Heff) as Hstep.
    assert (unpublished u s') by (intros k x; rewrite (proj1 Hstep); apply Hun). split; [|done].
    eapply base_index; [done|done|by apply unpublished_published|done].
  - intros [o|e]; [exact Hrec|]. destruct (IsAlreadyExists e); cbn [negb]; [|apply triple_ret; by intros w [? _]].
    eapply triple_or_fail; [by apply (triple_Get _ _ _ P)| |by intros e' e2 w [[? _] _]].
    intros existing. destruct (String.eqb _ _); cbn [negb]; [eapply triple_conseq; [exact Hrec|by intros w [? _]|done]|].
    apply triple_ret. intros w [[? ?] _]. split; [done|]. by intros i [= <-].
Qed.

Lemma allocate_loop_spec n generate a (res : object KDNSReservation) : uid_of res = u → (∀ P, stable P → triple (on P) generate (λ _, on P)) →
  triple (on (λ s, base s ∧ unpublished u s)) (allocate_loop n generate a res)
    (λ x w, base (state w) ∧ ∀ i, x = Ok i → match i with Some c => canonical u c (state w) | None => unpublished u (state w) end).
Proof.
  intros Hu Hgen. induction n as [|n IH]; [apply triple_ret; intros w [? ?]; split; [done|]; by intros i [= <-]|].
  simpl. eapply triple_and_then; [by apply attempt_spec| |by intros e w [? _]]. intros [c|].
  - apply triple_ret. intros w [B Hc]. split; [done|]. intros i [= <-]. exact (Hc _ eq_refl).
  - eapply triple_conseq; [exact IH| |done]. intros w [B Hc]. split; [done|]. exact (Hc None eq_refl).
Qed.

(** ** Publishing *)
Lemma duplicates_spec (res : object KDNSReservation) c : uid_of res = u →
  triple (on (λ s, base s ∧ canonical u c s)) (deleteDuplicateOwnedIndexes res c) (λ _, on (λ s, base s ∧ canonical u c s)).
Proof.
  intros Hu. unfold deleteDuplicateOwnedIndexes. rewrite Hu. set (P := λ s, base s ∧ canonical u c s).
  assert (HP : stable P) by (apply stable_and; [apply stable_base|by apply stable_canonical]).
  eapply triple_and_then; [by apply (list_spec P)| |by intros e w [? _]]. intros l.
  eapply (triple_conseq (on (λ s, P s ∧ dns_listed l s)) _ _ (λ _, on (λ s, P s ∧ dns_listed l s))); [|intros w [? Hl]; split; [done|by apply Hl]|by intros _ w [? _]].
  apply triple_each. intros o Hin. destruct (_ || _) eqn:E; [by apply triple_ret|]. apply orb_false_iff in E as [E1 E2].
  apply negb_false_iff, String.eqb_eq in E1. apply bool_decide_eq_false in E2.
  apply triple_delete_if_present; [by apply stable_and; [|apply stable_listed]|done|].
  intros s s' now rv Hwf [HPs Hl] Heff. destruct (Hl o Hin) as [Hs _]. split; [by eapply delete_duplicate|].
  eapply listed_evolves; [|done]. by eapply delete_evolves.
Qed.

Definition publishable (phase baseDomain : string) (s : KState) : Prop :=
  phase = DNSReservationPhaseReady → ∃ c, canonical u c s ∧ baseDomain = base_domain r c.

Lemma stable_publishable phase baseDomain : stable (publishable phase baseDomain).
Proof. intros s s' Hi Hwf HP Hp. destruct (HP Hp) as (c & Hc & ->). exists c. split; [|done]. by eapply stable_canonical. Qed.

Lemma resolve_spec (o : object KDNSReservation) P : stable P → triple (on P) (resolveInternalHostedClusterName o) (λ _, on P).
Proof.
  intros HP. unfold resolveInternalHostedClusterName. destruct (negb _); [by apply triple_ret|]. destruct (negb _); [|by apply triple_ret].
  eapply (triple_or_fail _ _ _ _ (λ _, on P)); [|intros l; by apply triple_ret|done].
  eapply triple_conseq; [by apply triple_List|done|by intros x w [? _]].
Qed.

Lemma reservation_attempt_spec (res : object KDNSReservation) phase baseDomain message : uid_of res = u →
  triple (on (λ s, base s ∧ publishable phase baseDomain s)) (reservation_attempt res phase baseDomain message)
    (λ _, on (λ s, base s ∧ publishable phase baseDomain s)).
Proof.
  intros Hu. set (P := λ s, base s ∧ publishable phase baseDomain s).
  assert (HP : stable P) by (apply stable_and; [apply stable_base|apply stable_publishable]).
  eapply triple_bind; [by apply (triple_Get _ _ _ P)|]. intros [latest|e]; [|apply triple_ret; by intros w [? _]].
  destruct (_ || _) eqn:E; [apply triple_ret; by intros w [? _]|]. apply orb_false_iff in E as [E _]. apply negb_false_iff, String.eqb_eq in E.
  set (P' := λ s, P s ∧ seen latest s). assert (HP' : stable P') by (by apply stable_and; [|apply stable_seen]).
  eapply (triple_and_then _ _ _ (λ _, on P')); [eapply triple_conseq; [by apply (resolve_spec latest P')|by intros w [? (_ & _ & ?)]|done]| |by intros ?? [? _]].
  intros name. eapply triple_bind; [by apply read_clock_triple|]. intros t. cbv zeta. destruct (bool_decide _); [apply triple_ret; by intros w [? _]|].
  eapply (triple_and_then _ _ _ (λ _, on P)); [|intros; by apply triple_ret|done].
  apply triple_Status_Update; [done|by intros s [? _]|]. intros s s' rv Hwf [[B Hpub] Hs] Heff.
  destruct (status_step _ _ _ _ _ Hwf Hs Heff) as [Hstep Hst]. rewrite E, Hu in Hstep, Hst.
  assert (Hpub' : publishable phase baseDomain s').
  { intros Hp. destruct (Hpub Hp) as (c & Hc & Hb). exists c. split; [|done]. eapply canonical_same; [|exact Hc]. unfold owned. by rewrite (proj1 Hstep). }
  split; [|done]. eapply base_reservation; [done|exact Hstep| |done]. intros k o' Ho' Hu' [_ Hr]. rewrite (Hst _ _ Ho' Hu') in Hr |- *. by apply Hpub'.
Qed.

Lemma update_status_spec (res : object KDNSReservation) phase baseDomain message : uid_of res = u →
  triple (on (λ s, base s ∧ publishable phase baseDomain s)) (updateReservationStatus res phase baseDomain message) (λ _, on base).
Proof.
  intros Hu. refine (triple_conseq _ _ _ _ _ (triple_retry _ _ _ _ (reservation_attempt_spec res phase baseDomain message Hu) _) _ _); [done..|].
  by intros x w [? _].
Qed.

Lemma publish_spec (res : object KDNSReservation) c : uid_of res = u →
  triple (on (λ s, base s ∧ canonical u c s)) (publish r res c) (λ _, on base).
Proof.
  intros Hu. eapply triple_or_fail; [by apply duplicates_spec| |by intros ??? [? _]]. intros [].
  eapply (triple_or_fail _ _ _ _ (λ _, on base)); [|intros; by apply triple_ret|done].
  eapply triple_conseq; [by apply update_status_spec| |done]. intros w [B Hc]. split; [done|]. intros _. by exists c.
Qed.

Lemma allocate_spec (res : object KDNSReservation) : uid_of res = u →
  (∀ P, stable P → triple (on P) (default randomDNSPrefix (dr_generatePrefix r)) (λ _, on P)) →
  triple (on base) (allocate r res) (λ _, on base).
Proof.
  intros Hu Hgen. eapply triple_or_fail; [by apply recover_spec| |by intros ??? [? _]]. intros [c|].
  { eapply triple_conseq; [by apply publish_spec| |done]. intros w [B Hc]. split; [done|]. exact (Hc _ eq_refl). }
  unfold allocateIndex. destruct (String.eqb _ _).
  { eapply (triple_and_then _ _ _ (λ x w, base (state w) ∧ is_ok x = false)); [apply triple_ret; by intros w [? _]| |by intros ?? [? _]].
    intros a. by intros ??? [_ ?]. }
  eapply (triple_and_then _ _ _ (λ x w, base (state w) ∧ ∀ i, x = Ok i → match i with Some c => canonical u c (state w) | None => unpublished u (state w) end)).
  - eapply triple_conseq; [by apply allocate_loop_spec| |done]. intros w [B Hc]. split; [done|]. by apply (Hc None eq_refl).
  - intros [c|].
    + eapply triple_conseq; [by apply publish_spec| |done]. intros w [B Hc]. split; [done|]. exact (Hc _ eq_refl).
    + eapply (triple_or_fail _ _ _ _ (λ _, on base)); [|intros; by apply triple_ret|done].
      eapply triple_conseq; [by apply update_status_spec| |done]. intros w [B _]. by split.
  - by intros ?? [? _].
Qed.

(** ** Deleting *)
Lemma drop_spec (res : object KDNSReservation) P : uid_of res = u → stable (λ s, base s ∧ P s) →
  (∀ s s', reservation_step u s s' → P s → P s') →
  triple (on (λ s, base s ∧ P s)) (drop_finalizer res) (λ _, on (λ s, base s ∧ P s)).
Proof.
  intros Hu HP Hkeep. apply triple_retry; [|done]. eapply triple_bind; [by apply triple_Get|]. intros [latest|e]; [|apply triple_ret; by intros w [? _]].
  destruct (_ || _) eqn:E; [apply triple_ret; by intros w [? _]|]. apply orb_false_iff in E as [E _]. apply negb_false_iff, String.eqb_eq in E.
  eapply (triple_bind _ _ _ (λ _, on (λ s, base s ∧ P s))); [|intros; by apply triple_ret].
  apply (triple_pre (on (λ s, (base s ∧ P s) ∧ seen latest s))); [|by intros w [? (_ & _ & ?)]].
  apply triple_Update; [by apply stable_and; [|apply stable_seen]|by intros s [? _]|]. intros s s' rv g Hwf [[B HPs] Hs] Heff.
  destruct (update_step latest (λ m, RemoveFinalizer m dnsReservationFinalizer) rv g s s' Hwf Hs) as (Hstep & Hst & Ho); [|exact Heff|].
  { destruct (Remove_law (meta latest) dnsReservationFinalizer) as (l & -> & _). by exists l. }
  rewrite E, Hu in Hstep, Hst. split; [|by eapply Hkeep]. eapply base_same_status; [exact mine_u|exact Hstep|done|congruence|done|done].
Qed.

(** The reservation is deleted and waits for its Indexes to go. *)
Definition waiting (s : KState) : Prop :=
  ∃ o, objs s KDNSReservation !! key = Some o ∧ uid_of o = u ∧ dying o = true ∧ dnsReservationFinalizer ∈ om_Finalizers (meta o).

Lemma stable_waiting : stable waiting.
Proof.
  intros s s' Hi _ (o & Ho & Hu & Hd & Hf). destruct (env_finalizer _ _ (rely _ _ Hi) _ _ Ho) as (o' & ? & ? & ? & Hd'); [by rewrite Hu|done|].
  exists o'. split_and!; [done|congruence|by apply Hd'|done].
Qed.

Lemma stable_empty : stable (λ s, owned u s = ∅).
Proof. intros s s' Hi _ <-. by apply (env_owned _ _ (rely _ _ Hi)). Qed.

Lemma reconcileDelete_spec (res : object KDNSReservation) (W : KState → Prop) : uid_of res = u → stable W →
  (∀ s s', objs s' KDNSReservation = objs s KDNSReservation → W s → W s') →
  triple (on (λ s, base s ∧ unpublished u s ∧ W s)) (dns_reconcileDelete res)
    (λ x w, base (state w) ∧ (W (state w) ∨ owned u (state w) = ∅) ∧ (x = Ok done_result → owned u (state w) = ∅)).
Proof.
  intros Hu HW HWk. unfold dns_reconcileDelete. rewrite Hu. set (P := λ s, base s ∧ unpublished u s ∧ W s).
  assert (HP : stable P) by (repeat apply stable_and; [apply stable_base|by apply stable_unpublished|done]).
  set (R := λ (x : result kerr Result) w, _). assert (HR : ∀ e w, P (state w) → R (Err e) w) by (intros e w (? & _ & ?); by split_and!; [|left|]).
  eapply (triple_or_fail _ _ _ _ _ R); [by apply (list_spec P)| |intros ??? [? _]; by apply HR]. intros l.
  eapply (triple_and_then _ _ _ (λ _, on (λ s, P s ∧ dns_listed l s))).
  - apply (triple_pre (on (λ s, P s ∧ dns_listed l s))); [|intros w [? Hl]; split; [done|by apply Hl]].
    apply triple_each. intros o Hin. destruct (String.eqb_spec (owner o) u) as [Ho|]; cbn [negb]; [|by apply triple_ret].
    apply triple_delete_if_present; [by apply stable_and; [|apply stable_listed]|done|].
    intros s s' now rv Hwf [(B & Hun & Hw) Hl] Heff. destruct (Hl o Hin) as [Hs _].
    destruct (delete_index_step _ _ _ _ _ Hwf Hs Heff) as ((Hd & _) & _ & _).
    destruct (delete_unpublished o now rv s s' Hwf Hs Ho (conj B Hun) Heff). split; [split_and!; [done..|by eapply HWk]|].
    eapply listed_evolves; [|done]. by eapply delete_evolves.
  - intros []. eapply (triple_or_fail _ _ _ _ _ R).
    + eapply triple_pre; [by apply (list_spec P)|by intros w [? _]].
    + intros [|o l2]; [|apply triple_ret; intros w [(? & _ & ?) _]; by split_and!; [|left|]].
      apply (triple_pre (on (λ s, base s ∧ owned u s = ∅))).
      2:{ intros w [(? & _ & _) Hl]. split; [done|]. destruct (Hl _ eq_refl) as [_ Hall]. apply map_eq. intros k. rewrite lookup_empty.
          destruct (_ !! k) as [o|] eqn:E; [|done]. apply Hall in E as [Hin _]. by apply elem_of_nil in Hin. }
      eapply (triple_or_fail _ _ _ _ (λ _, on (λ s, base s ∧ owned u s = ∅))).
      * apply drop_spec; [done|apply stable_and; [apply stable_base|apply stable_empty]|]. intros s s' [Hi _] He. unfold owned. by rewrite Hi.
      * intros []. apply triple_ret. intros w [? ?]. by split_and!; [|right|].
      * intros ??? [? ?]. by split_and!; [|right|].
    + intros ??? [? _]. by apply HR.
  - intros e w [? _]. by apply HR.
Qed.
End run.

(** ** Reconcile *)
Section reconcile.
Context (rely : ∀ s s', interfere s s' → env_step s s').
Context (generator_reads : ∀ P, stable P → triple (on P) (default randomDNSPrefix (dr_generatePrefix r)) (λ _, on P)).

(** What was read: a dying reservation publishes nothing. *)
Lemma dying_unpublished (o : object KDNSReservation) s : wf s → objs s KDNSReservation !! key = Some o → dying o = true → unpublished (uid_of o) s.
Proof. intros Hwf Ho Hd k x Hx Hu [Hn _]. destruct (reservation_unique _ _ _ _ _ Hwf Hx Ho Hu) as [_ ->]. congruence. Qed.

Lemma add_finalizer_spec (o : object KDNSReservation) : uid_of o ∈ mine → triple (on (λ s, base s ∧ seen o s)) (add_finalizer dnsReservationFinalizer o) (λ _, on base).
Proof.
  intros Hm. apply triple_Update; [apply stable_and; [by apply stable_base|apply stable_seen]|by intros s [? _]|]. intros s s' rv g Hwf [B Hs] Heff.
  destruct (update_step o (λ m, AddFinalizer m dnsReservationFinalizer) rv g s s' Hwf Hs) as (Hstep & Hst & Ho); [|exact Heff|].
  { destruct (Add_law (meta o) dnsReservationFinalizer) as (l & -> & _). by exists l. }
  by eapply base_same_status.
Qed.

Lemma Reconcile_base : triple (on base) (dns_Reconcile r key.1 key.2) (λ _, on base).
Proof.
  eapply triple_bind; [by apply (triple_Get _ _ _ base), stable_base|]. intros [o|e]; [|apply triple_ret; by intros w [? _]].
  rewrite <- surjective_pairing. apply (triple_fact (uid_of o ∈ mine ∧ uid_of o ≠ "")).
  { intros w (B & Ho & _). split; [by apply (base_named _ B)|]. eapply wf_uid; [apply state_wf|exact Ho]. }
  intros [Hm Hid]. destruct (dying o) eqn:Hd.
  { refine (triple_conseq _ _ _ _ _ (reconcileDelete_spec rely (uid_of o) Hm Hid o (λ _, True) eq_refl (stable_pure True) (λ _ _ _ x, x)) _ _).
    - intros w (B & Ho & _). split_and!; [done|by apply dying_unpublished; [apply state_wf|..]|done].
    - by intros x w (? & _). }
  destruct (ContainsFinalizer _ _); cbn [negb].
  - destruct (String.eqb _ _); [apply triple_ret; by intros w [? _]|]. destruct (String.eqb _ _); [apply triple_ret; by intros w [? _]|].
    eapply triple_pre; [by apply (allocate_spec rely (uid_of o))|]. by intros w [? _].
  - eapply triple_bind; [eapply triple_pre; [by apply add_finalizer_spec|by intros w (? & _ & _ & ?)]|]. intros x. by apply triple_ret.
Qed.

Lemma Reconcile_waiting u : u ∈ mine → u ≠ "" →
  triple (on (λ s, base s ∧ waiting u s)) (dns_Reconcile r key.1 key.2)
    (λ x w, (waiting u (state w) ∨ owned u (state w) = ∅) ∧ (x = Ok done_result → owned u (state w) = ∅)).
Proof.
  intros Hm Hid. assert (HP : stable (λ s, base s ∧ waiting u s)) by (apply stable_and; [by apply stable_base|by apply stable_waiting]).
  eapply triple_bind; [by apply (triple_Get _ _ _ _ HP)|]. intros [o|e].
  - rewrite <- surjective_pairing. apply (triple_fact (uid_of o = u ∧ dying o = true)).
    { intros w ((_ & (x & Hx & Hu & Hd & _)) & Ho & _). by pose proof (eq_trans (eq_sym Hx) Ho) as [= ->]. }
    intros [Hu ->].
    refine (triple_conseq _ _ _ _ _ (reconcileDelete_spec rely u Hm Hid o (waiting u) Hu (stable_waiting rely u Hm) _) _ _).
    + intros s s' E. unfold waiting. by rewrite E.
    + intros w ((B & Hw) & Ho & _). split_and!; [done| |done]. rewrite <- Hu. apply dying_unpublished; [apply state_wf|done|].
      destruct Hw as (x & Hx & _ & Hd & _). by pose proof (eq_trans (eq_sym Hx) Ho) as [= ->].
    + intros x w (_ & ? & ?). done.
  - apply triple_ret. intros w [[_ Hw] He]. split; [by left|]. intros Hx. destruct Hw as (x & Hx' & _).
    destruct e; try done. rewrite <- surjective_pairing in He. by pose proof (eq_trans (eq_sym Hx') He).
Qed.
End reconcile.
End props.

(** ** The properties *)
Section theorems.
Context `{KubeClientLaws, !Clock, Retry, ControllerLib, !ControllerLibLaws, !Random}.

Lemma moves_triple {A} (m : Call A) P : moves state interfere m → stable P → triple (on P) m (λ _, on P).
Proof. intros Hm HP w w' x Hw E. eapply (stable_rtc P (state w)); [done|by eapply Hm|apply state_wf|done]. Qed.

(** What a controller does is what the controllers of other reservations expect. *)
Lemma dns_step_env r mine key2 mine2 s s' : mine ## mine2 → (∀ s s', interfere s s' → env_step r key2 mine2 s s') →
  dns_step r mine s s' → env_step r key2 mine2 s s'.
Proof.
  intros Hd Hi [?|(u & Hu & Hstep & Hp)]; [by apply Hi|]. assert (Hne : ∀ u2, u2 ∈ mine2 → u2 ≠ u) by set_solver.
  assert (Ho : ∀ u2, u2 ≠ u → owned u2 s' = owned u2 s).
  { destruct Hstep as [[_ ?]|(Hx & _)]; [done|]. intros u2 _. unfold owned. by rewrite Hx. }
  assert (Hr : reservation_like u s s') by (destruct Hstep as [[E _]|[_ ?]]; [unfold reservation_like; rewrite E; eauto|done]).
  destruct Hr as [Hb Hf]. split.
  - intros u2 ?. by apply Ho, Hne.
  - intros u2 k o' Hu2 Ho' Hk. right. destruct (Hb _ _ Ho') as [?|[? _]]; [by exists o'|]. by destruct (Hne u2); [|congruence].
  - intros Hn o' Ho'. destruct (Hb _ _ Ho') as [?|(Hu' & o & Hx & Hxu)]; [by apply Hn|]. rewrite Hu', <- Hxu. by apply Hn.
  - intros u2 _ Hp2. destruct (decide (u2 = u)) as [->|Hn]; [done|]. intros k o Hk Hku Hl. destruct (Hb _ _ Hk) as [Hk'|[? _]]; [|congruence].
    destruct (Hp2 _ _ Hk' Hku Hl) as (c & Hc & ?). exists c. split; [|done]. eapply canonical_same; [by apply Ho|done].
  - intros k o Hk Hm Hfin. exists o. split_and!; [|done..]. apply Hf; [done|by apply Hne].
Qed.

Lemma base_domain_inj r (c1 c2 : object KIndex) : base_domain r c1 = base_domain r c2 → om_Name (meta c1) = om_Name (meta c2).
Proof. unfold base_domain. apply str_app_inj_r. Qed.

Lemma published_unique r s k1 k2 o1 o2 : wf s → (∀ u, published r u s) →
  objs s KDNSReservation !! k1 = Some o1 → objs s KDNSReservation !! k2 = Some o2 → live_ready o1 → live_ready o2 →
  dns_BaseDomain (status o1) = dns_BaseDomain (status o2) → k1 = k2 ∧ o1 = o2.
Proof.
  intros Hwf Hp L1 L2 R1 R2 E. destruct (Hp _ _ _ L1 eq_refl R1) as (c1 & [C1 _] & E1), (Hp _ _ _ L2 eq_refl R2) as (c2 & [C2 _] & E2).
  assert (om_Name (meta c1) = om_Name (meta c2)) as Hn by (apply (base_domain_inj r); congruence).
  apply shard_owned_lookup in C1 as (C1 & U1 & N1), C2 as (C2 & U2 & N2).
  assert (key_of c1 = key_of c2) as Hk by (unfold key_of in *; simpl in *; congruence). rewrite Hk in C1.
  pose proof (eq_trans (eq_sym C1) C2) as [= ->]. eapply reservation_unique; [done..|congruence].
Qed.

(** C7: A reconcile of a DNSReservation keeps every published base domain backed by an
    Index that the reservation owns: afterwards no two live reservations are Ready under
    the same domain. What other sessions do in between is held to [env_step]: it leaves
    this reservation's Indexes and published domain to their controller. The reconcile's
    own steps are what the controllers of other reservations rely on, so that they may
    run in between. *)
Theorem dns_domains_unique r key mine w w' x :
  (∀ s s', interfere s s' → env_step r key mine s s') → moves state interfere (default randomDNSPrefix (dr_generatePrefix r)) →
  (∀ u, published r u (state w)) → (∀ o, objs (state w) KDNSReservation !! key = Some o → uid_of o ∈ mine) →
  dns_Reconcile r key.1 key.2 w = (w', x) →
  (∀ u, published r u (state w')) ∧
  (∀ k1 k2 o1 o2, objs (state w') KDNSReservation !! k1 = Some o1 → objs (state w') KDNSReservation !! k2 = Some o2 →
     live_ready o1 → live_ready o2 → dns_BaseDomain (status o1) = dns_BaseDomain (status o2) → k1 = k2 ∧ o1 = o2) ∧
  rtc (dns_step r mine) (state w) (state w') ∧
  ∀ key2 mine2, mine ## mine2 → (∀ s s', interfere s s' → env_step r key2 mine2 s s') →
    ∀ s s', dns_step r mine s s' → env_step r key2 mine2 s s'.
Proof.
  intros Hrely Hgen Hp Hn E. apply (Reconcile_base r key mine (state w) Hrely) in E as [B0 B1 B2].
  - split_and!; [done| |done|]; [intros *; apply (published_unique r); [apply state_wf|done]|]. intros key2 mine2 Hd Hi s s'. by apply dns_step_env.
  - intros P HP. by apply moves_triple.
  - split; [reflexivity|done|done].
Qed.

(** A reconcile of a deleted DNSReservation that still has its finalizer ends with
    the reservation waiting as before, or with no Index left in its name; when it reports
    that nothing remains to be done, no Index is left. A prefix is never lost to a
    reservation that is gone. *)
Theorem dns_release r key mine u w w' x :
  (∀ s s', interfere s s' → env_step r key mine s s') →
  (∀ u, published r u (state w)) → (∀ o, objs (state w) KDNSReservation !! key = Some o → uid_of o ∈ mine) → u ∈ mine →
  waiting key u (state w) → dns_Reconcile r key.1 key.2 w = (w', x) →
  (waiting key u (state w') ∨ owned u (state w') = ∅) ∧ (x = Ok done_result → owned u (state w') = ∅).
Proof.
  intros Hrely Hp Hn Hm Hw E. assert (u ≠ "") as Hu.
  { destruct Hw as (o & Ho & <- & _). eapply wf_uid; [apply state_wf|exact Ho]. }
  apply (Reconcile_waiting r key mine (state w) Hrely u) in E; [done..|]. split; [|done]. split; [reflexivity|done|done].
Qed.
End theorems.
