(* ===== verification/Goroutines.v ===== *)
(** * Goroutines that are waited for

    The controllers start one goroutine per item of a list, each of which writes its
    result into its own slot, and wait for all of them ([sync.WaitGroup]). The
    scheduler runs them in some order, which it may choose anew each time. *)
From S2P Require Import Prelude StateM.
From stdpp Require Import base list gmap relations.
From Stdlib Require Import Lia.

Class Scheduler (S : Type) := {
  schedule : S → nat → list nat;
  schedule_perm : ∀ s n, schedule s n ≡ₚ seq 0 n
}.

Section go.
Context {S A : Type}.
Implicit Types jobs : list (St S A).

Fixpoint run_jobs (order : list nat) jobs (done : gmap nat A) : St S (gmap nat A) :=
  match order with
  | [] => mret done
  | i :: order =>
      match jobs !! i with
      | Some job => a ← job; run_jobs order jobs (<[i := a]> done)
      | None => run_jobs order jobs done
      end
  end.

Definition go_all `{Scheduler S} jobs : St S (list A) := fun s =>
  (results ← run_jobs (schedule s (length jobs)) jobs ∅;
   mret (omap (fun i => (results : gmap nat A) !! i) (seq 0 (length jobs)))) s.

Lemma run_jobs_spec (P : S → Prop) (Q : nat → A → Prop) order jobs :
  (∀ i job, jobs !! i = Some job → triple P job (λ a s, P s ∧ Q i a)) → ∀ done,
  (∀ i a, done !! i = Some a → Q i a) →
  triple P (run_jobs order jobs done) (λ m s, P s ∧ (∀ i a, m !! i = Some a → Q i a) ∧
    ∀ i, is_Some (m !! i) ↔ is_Some (done !! i) ∨ (i ∈ order ∧ i < length jobs)).
Proof.
  intros Hj. induction order as [|i order IH]; intros done Hd; simpl.
  - apply triple_ret. intros s HP. split_and!; [done..|]. intros i. split; [by left|]. intros [?|[Hn _]]; [done|by apply elem_of_nil in Hn].
  - destruct (jobs !! i) as [job|] eqn:Ei.
    + eapply triple_bind; [by apply Hj|]. intros a. apply (triple_fact (Q i a)); [by intros s [_ ?]|]. intros HQ.
      eapply triple_conseq; [apply IH| |].
      * intros j b. rewrite lookup_insert_Some. intros [[<- <-]|[_ ?]]; eauto.
      * by intros s [? _].
      * intros m s (HP & Hm & Hdom). split_and!; [done..|]. intros j. rewrite Hdom, lookup_insert_is_Some', elem_of_cons.
        apply lookup_lt_Some in Ei. destruct (decide (i = j)) as [<-|]; naive_solver.
    + eapply triple_conseq; [by apply IH|done|]. intros m s (HP & Hm & Hdom). split_and!; [done..|]. intros j. rewrite Hdom, elem_of_cons.
      apply lookup_ge_None in Ei. split; [naive_solver|]. intros [?|[[->|?] ?]]; [by left|lia|by right].
Qed.

(** All of them run: the results are in the order of the list. *)
Lemma go_all_spec `{Scheduler S} (P : S → Prop) (Q : nat → A → Prop) jobs :
  (∀ i job, jobs !! i = Some job → triple P job (λ a s, P s ∧ Q i a)) →
  triple P (go_all jobs) (λ l s, P s ∧ length l = length jobs ∧ ∀ i a, l !! i = Some a → Q i a).
Proof.
  intros Hj s0 s' l HP E. unfold go_all in E. revert s0 s' l HP E.
  assert (∀ order, order ≡ₚ seq 0 (length jobs) → triple P (results ← run_jobs order jobs ∅;
    mret (omap (fun i => (results : gmap nat A) !! i) (seq 0 (length jobs)))) (λ l s, P s ∧ length l = length jobs ∧ ∀ i a, l !! i = Some a → Q i a)) as Hord.
  { intros order Hp. eapply triple_bind; [by apply run_jobs_spec|]. intros m. apply triple_ret. intros s (HP & Hm & Hdom). split; [done|].
    assert (Hall : ∀ i, i < length jobs → is_Some (m !! i)).
    { intros i Hi. apply Hdom. right. split; [|done]. rewrite Hp. apply elem_of_seq. lia. }
    assert (Hl : ∀ k n, k + n ≤ length jobs → length (omap (fun i => m !! i) (seq k n)) = n ∧
      ∀ i a, omap (fun i => m !! i) (seq k n) !! i = Some a → m !! (k + i) = Some a).
    { intros k n. revert k. induction n as [|n IH]; intros k Hk; [done|]. simpl. destruct (Hall k) as [b Hb]; [lia|]. rewrite Hb. simpl.
      destruct (IH (Datatypes.S k)) as [IL II]; [lia|]. split; [by f_equal|]. intros [|i] a; simpl.
      - intros [= <-]. by rewrite Nat.add_0_r.
      - intros Hi%II. by rewrite Nat.add_succ_r. }
    destruct (Hl 0 (length jobs)) as [IL II]; [lia|]. split; [done|]. intros i a Hi%II. by eapply Hm. }
  intros s0 s' l HP E. by eapply (Hord (schedule s0 (length jobs)) (schedule_perm _ _)).
Qed.

(** What each job does to the shared state, all of them do. *)
Lemma moves_run_jobs {T} (view : S → T) R order jobs : (∀ job, job ∈ jobs → moves view R job) → ∀ done, moves view R (run_jobs order jobs done).
Proof.
  intros Hj. induction order as [|i order IH]; intros done; simpl; [apply moves_ret|].
  destruct (jobs !! i) as [job|] eqn:Ei; [|apply IH]. apply moves_bind; [by eapply Hj, list_elem_of_lookup_2|]. intros a. apply IH.
Qed.

Lemma moves_go_all {T} `{Scheduler S} (view : S → T) R jobs : (∀ job, job ∈ jobs → moves view R job) → moves view R (go_all jobs).
Proof.
  intros Hj s s' l E. unfold go_all in E. eapply (moves_bind view R _ _ (moves_run_jobs view R (schedule s (length jobs)) jobs Hj ∅)); [|exact E].
  intros m. apply moves_ret.
Qed.
End go.

(** Two goroutines with different results. *)
Definition go_two {S A B} `{Scheduler S} (m1 : St S A) (m2 : St S B) : St S (A * B) := fun s =>
  match schedule s 2 with
  | 1 :: _ => (b ← m2; a ← m1; mret (a, b)) s
  | _ => (a ← m1; b ← m2; mret (a, b)) s
  end.

Lemma moves_go_two {S T A B} `{Scheduler S} (view : S → T) R (m1 : St S A) (m2 : St S B) : moves view R m1 → moves view R m2 → moves view R (go_two m1 m2).
Proof.
  intros H1 H2 s s' x. unfold go_two. destruct (schedule s 2) as [|[|[|n]] l];
    (eapply moves_bind; [done|]; intros y; eapply moves_bind; [done|]; intros z; apply moves_ret).
Qed.

(** What a job establishes stays when no other job undoes it; before it runs, the others
    keep what it needs. *)
Section keeps.
Context {S A : Type} (jobs : list (St S A)) (Pre : nat → S → Prop) (Q : nat → A → S → Prop).
Context (job_keeps : ∀ i job s s' a, jobs !! i = Some job → Pre i s → job s = (s', a) →
  Q i a s' ∧ ∀ j, j ≠ i → j < length jobs → (Pre j s → Pre j s') ∧ ∀ b, Q j b s → Q j b s').

Lemma run_jobs_keeps order : NoDup order → ∀ done s s' m,
  (∀ i, i ∈ order → done !! i = None ∧ i < length jobs ∧ Pre i s) → (∀ i a, done !! i = Some a → i < length jobs ∧ Q i a s) →
  run_jobs order jobs done s = (s', m) → ∀ i a, m !! i = Some a → Q i a s'.
Proof.
  induction 1 as [|i order Hi _ IH]; intros done s s' m Hfresh Hd; simpl; [intros [-> ->]%St_ret_inv i a Ha; by apply Hd|].
  destruct (Hfresh i) as (_ & Hlt & Hpre); [by left|]. destruct (lookup_lt_is_Some_2 jobs i Hlt) as [job Ej]. rewrite Ej.
  intros (s1 & a & Ea & Hr)%St_bind_inv. destruct (job_keeps _ _ _ _ _ Ej Hpre Ea) as [Hq Hk]. revert Hr. apply IH.
  - intros j Hj. destruct (Hfresh j) as (Hn & Hl & Hp); [by right|]. assert (j ≠ i) by (by intros ->).
    split_and!; [by rewrite lookup_insert_ne|done|by apply Hk].
  - intros j b [[<- <-]|[Hne Hb]]%lookup_insert_Some; [done|]. destruct (Hd _ _ Hb). split; [done|]. by apply Hk.
Qed.

Lemma go_all_keeps `{Scheduler S} s s' l : (∀ i, i < length jobs → Pre i s) → go_all jobs s = (s', l) →
  length l = length jobs ∧ ∀ i a, l !! i = Some a → Q i a s'.
Proof.
  intros Hpre E. assert (Hlen : length l = length jobs).
  { by apply (go_all_spec (λ _, True) (λ _ _, True) jobs) with (s := s) (s' := s') (a := l). }
  split; [done|]. unfold go_all in E.
  apply St_bind_inv in E as (s1 & m & Em & Er). apply St_ret_inv in Er as [-> ->]. pose proof (schedule_perm s (length jobs)) as Hp.
  assert (Hm : ∀ i a, m !! i = Some a → Q i a s1).
  { eapply (run_jobs_keeps (schedule s (length jobs))); [rewrite Hp; apply NoDup_seq|..|exact Em].
    - intros i Hi. rewrite Hp in Hi. apply elem_of_seq in Hi as [_ Hi]. split_and!; [apply lookup_empty|done|by apply Hpre].
    - intros i a. by rewrite lookup_empty. }
  assert (Hall : ∀ k n i a, omap (fun i => m !! i) (seq k n) !! i = Some a → length (omap (fun i => m !! i) (seq k n)) = n → m !! (k + i) = Some a).
  { clear. intros k n. revert k. induction n as [|n IH]; intros k i a; simpl; [done|]. assert (Hle : length (omap (fun i => m !! i) (seq (Datatypes.S k) n)) ≤ n).
    { clear. generalize (Datatypes.S k). induction n as [|n IH]; intros k0; simpl; [done|]. destruct (m !! k0); simpl; specialize (IH (Datatypes.S k0)); unfold omap in IH; lia. }
    unfold omap in Hle. destruct (m !! k) as [b|] eqn:Eb; simpl; [|intros _ ?; lia]. destruct i as [|i]; simpl; [intros [= <-] _; by rewrite Nat.add_0_r|].
    intros Hi [= Hl]. rewrite Nat.add_succ_r. by apply (IH (Datatypes.S k)). }
  intros i a Hi. by apply Hm, (Hall 0 (length jobs)).
Qed.
End keeps.

(** One of the jobs runs. *)
Definition job_step {S A} (jobs : list (St S A)) (s s' : S) : Prop := ∃ job a, job ∈ jobs ∧ job s = (s', a).

(** [m] ran with the result [b] between the two states, jobs before and after it. *)
Definition within {S A B} (jobs : list (St S A)) (s s' : S) (m : St S B) (b : B) : Prop :=
  ∃ s1 s2, rtc (job_step jobs) s s1 ∧ m s1 = (s2, b) ∧ rtc (job_step jobs) s2 s'.

Lemma within_more {S A B} (jobs : list (St S A)) (s s1 s' : S) (m : St S B) b : within jobs s s1 m b → job_step jobs s1 s' → within jobs s s' m b.
Proof. intros (t1 & t2 & H1 & E & H2) Hj. exists t1, t2. split_and!; [done..|]. by eapply rtc_r. Qed.

(** Each result is that of a run of its job between the start and the end. *)
Lemma go_all_within {S A} `{Scheduler S} (jobs : list (St S A)) s s' l : go_all jobs s = (s', l) → Forall2 (within jobs s s') jobs l.
Proof.
  set (Q := λ i a t, ∀ job, jobs !! i = Some job → within jobs s t job a). intros E.
  assert (length l = length jobs ∧ ∀ i a, l !! i = Some a → Q i a s') as [Hlen Hw].
  { revert E. apply (go_all_keeps jobs (λ _ t, rtc (job_step jobs) s t) Q); [|done].
    intros i job t t' a Hi Hpre Ej. assert (Hstep : job_step jobs t t') by (exists job, a; split; [by eapply list_elem_of_lookup_2|done]). split.
    - intros job' Hi'. pose proof (eq_trans (eq_sym Hi) Hi') as [= <-]. by exists t, t'.
    - intros j _ _. split; [intros Hj; by eapply rtc_r|]. intros b Hq job' Hj. eapply within_more; [by apply Hq|done]. }
  apply Forall2_same_length_lookup_2; [done|]. intros i job a Hj Ha. by eapply Hw.
Qed.
