(* ===== verification/Desires.v ===== *)
(** * Desires (internal/dynamo, controller/desire_status.go, controller/event_router.go)

    The operator tells a management cluster what to apply by writing desires, and reads
    back what the applier there reports. [DesireClient] is the interface the controllers
    use, [DesireLaws] what they rely on; DesireStore.v is the DynamoDB client that
    implements it. [CheckApplyDesireStatuses] sums the reports of several desires up in
    one condition, and the event router knows which object a document belongs to. *)
From S2P Require Import Prelude GoStrings Json Convert StateM ApiTypes KubeClient ApiClient Controllers Goroutines.
From stdpp Require Import base gmap strings list relations.
From Stdlib Require Import ZArith Lia Ascii String.
Open Scope string_scope.

(** ** The shared types of the applier (kubeapplier) *)
Definition DesireConditionSuccessful : string := "Successful".

Record ResourceReference := mkReference { ref_Group : string; ref_Version : string; ref_Resource : string; ref_Namespace : string; ref_Name : string }.
Inductive ApplyDesireType := ServerSideApply | DeleteType.

Record ApplyDesireSpec := mkApplySpec {
  as_Type : ApplyDesireType;
  as_ManagementCluster : string;
  as_ClusterID : string;
  as_TargetItem : ResourceReference;
  as_KubeContent : option string
}.
Record ReadDesireSpec := mkReadSpec { rd_ManagementCluster : string; rd_ClusterID : string; rd_TargetItem : ResourceReference }.

#[export] Instance ResourceReference_eq_dec : EqDecision ResourceReference.
Proof. solve_decision. Defined.
#[export] Instance ApplyDesireType_eq_dec : EqDecision ApplyDesireType.
Proof. solve_decision. Defined.
#[export] Instance ApplyDesireSpec_eq_dec : EqDecision ApplyDesireSpec.
Proof. solve_decision. Defined.
#[export] Instance ReadDesireSpec_eq_dec : EqDecision ReadDesireSpec.
Proof. solve_decision. Defined.

(** Times are nanoseconds since Go's zero time. *)
Definition IsZero (t : Z) : bool := (t =? 0)%Z.
Record ApplyDesireStatus := mkApplyStatus { st_ObservedDesireUpdateTime : Z; st_Conditions : list Condition }.
(** The content of a read desire is the text of the object on the management cluster. *)
Record ReadDesireStatus := mkReadStatus { st_KubeContent : option string }.

Record UpsertResult := mkUpsertResult { ur_Changed : bool; ur_UpdateTime : Z }.

(** [dynamo.ErrNotFound] and the other errors. *)
Inductive derr := ErrNotFound | DynamoError (msg : string).
Definition derr_text (e : derr) : string := match e with ErrNotFound => "desire not found" | DynamoError msg => msg end.

(** ** Tables and documents *)
Definition TableSuffixApplyDesires : string := "-applydesires".
Definition TableSuffixReadDesires : string := "-readdesires".
Definition TableSuffixStatusApplyDesires : string := "-status-applydesires".
Definition TableSuffixStatusReadDesires : string := "-status-readdesires".
Definition SpecsPrefix (mc : string) : string := mc +:+ "-specs".
Definition StatusPrefix (mc : string) : string := mc +:+ "-status".

(** [uuid.NewSHA1] in the package's name space. *)
Class DocumentIDs := { uuid_NewSHA1 : string → string }.
(** UUIDs have no slashes, and those of different inputs are different. *)
Class DocumentIDLaws `{DocumentIDs} : Prop := {
  uuid_text : ∀ input, str_free "/"%char (uuid_NewSHA1 input) = true;
  uuid_inj : ∀ i1 i2, uuid_NewSHA1 i1 = uuid_NewSHA1 i2 → i1 = i2
}.
Definition document_input (taskKey group version resource namespace name : string) : string :=
  strings_Join [taskKey; group; version; resource; namespace; name] "/".
Definition NewDocumentID `{DocumentIDs} (taskKey group version resource namespace name : string) : string :=
  uuid_NewSHA1 (document_input taskKey group version resource namespace name).

(** ** The interface *)
Class DesireClient `{KubeClient} := {
  UpsertApplyDesire : string → string → ApplyDesireSpec → St World (result derr UpsertResult);
  UpsertReadDesire : string → string → ReadDesireSpec → St World (result derr UpsertResult);
  GetApplyDesireStatus : string → string → St World (result derr ApplyDesireStatus);
  GetReadDesireStatus : string → string → St World (result derr ReadDesireStatus);
  DeleteDesireSpec : string → string → string → St World (result derr unit)
}.

(** [stored w table doc d t]: the table has the desire [d] under [doc], changed at [t], to
    stay until the operator writes it; [absent]: it has none, to stay so; [trusted]: what
    the operator knows of the row is true and up to date, so that an upsert that succeeds
    can be relied on. [reported] are the statuses the applier wrote. *)
Inductive Desire := ApplyOf (s : ApplyDesireSpec) | ReadOf (s : ReadDesireSpec).
#[export] Instance Desire_eq_dec : EqDecision Desire.
Proof. solve_decision. Defined.

Class DesireRows `{KubeClient} := {
  stored : World → string → string → Desire → Z → Prop;
  absent : World → string → string → Prop;
  trusted : World → string → string → Prop;
  reported : World → string → string → option ApplyDesireStatus
}.

(** Documents are UUIDs. *)
Definition document (doc : string) : Prop := str_free "/"%char doc = true.

(** What holds of a row stays. *)
Definition row_kept `{DesireRows} (w w' : World) (table doc : string) : Prop :=
  (∀ d t, stored w table doc d t → stored w' table doc d t) ∧ (absent w table doc → absent w' table doc) ∧ (trusted w table doc → trusted w' table doc).
Definition other_rows `{DesireRows} (table doc : string) (w w' : World) : Prop :=
  ∀ table' doc', document doc' → (table', doc') ≠ (table, doc) → row_kept w w' table' doc'.
Definition same_rows `{DesireRows} (w w' : World) : Prop := ∀ table doc, row_kept w w' table doc.

Lemma row_kept_trans `{DesireRows} w1 w2 w3 table doc : row_kept w1 w2 table doc → row_kept w2 w3 table doc → row_kept w1 w3 table doc.
Proof. intros (S1 & A1 & T1) (S2 & A2 & T2). split_and!; auto. Qed.

(** An operation on one document leaves the rows of the others. What it did to its own row
    is known when the row was trusted. *)
Class DesireLaws `{DesireClient, !DesireRows} : Prop := {
  UpsertApply_law : ∀ prefix doc spec w w' r, document doc → UpsertApplyDesire prefix doc spec w = (w', r) →
    rtc interfere (state w) (state w') ∧ other_rows (prefix +:+ TableSuffixApplyDesires) doc w w' ∧
    (trusted w (prefix +:+ TableSuffixApplyDesires) doc → ∀ u, r = Ok u → stored w' (prefix +:+ TableSuffixApplyDesires) doc (ApplyOf spec) (ur_UpdateTime u));
  UpsertRead_law : ∀ prefix doc spec w w' r, document doc → UpsertReadDesire prefix doc spec w = (w', r) →
    rtc interfere (state w) (state w') ∧ other_rows (prefix +:+ TableSuffixReadDesires) doc w w' ∧
    (trusted w (prefix +:+ TableSuffixReadDesires) doc → ∀ u, r = Ok u → stored w' (prefix +:+ TableSuffixReadDesires) doc (ReadOf spec) (ur_UpdateTime u));
  GetApply_law : ∀ prefix doc w w' r, GetApplyDesireStatus prefix doc w = (w', r) →
    rtc interfere (state w) (state w') ∧ same_rows w w' ∧
    match r with
    | Ok st => reported w' prefix doc = Some st
    | Err ErrNotFound => reported w' prefix doc = None
    | Err _ => True
    end;
  GetRead_law : ∀ prefix doc w w' r, GetReadDesireStatus prefix doc w = (w', r) → rtc interfere (state w) (state w') ∧ same_rows w w';
  DeleteSpec_law : ∀ prefix suffix doc w w' r, document doc → DeleteDesireSpec prefix suffix doc w = (w', r) →
    rtc interfere (state w) (state w') ∧ other_rows (prefix +:+ suffix) doc w w' ∧ (trusted w (prefix +:+ suffix) doc → r = Ok tt → absent w' (prefix +:+ suffix) doc)
}.

(** ** The Synced condition (desire_status.go) *)
Definition ConditionSynced : string := "Synced".

Record DesireStatusEntry := mkEntry { en_DocID : string; en_Resource : string; en_Name : string; en_DesireUpdateTime : Z }.

(** What the report on one desire says. *)
Inductive verdict := Synced | Failed (message : string) | Waiting.
#[export] Instance verdict_eq_dec : EqDecision verdict.
Proof. solve_decision. Defined.

Definition entry_verdict `{ControllerLib} (e : DesireStatusEntry) (r : result derr ApplyDesireStatus) : verdict :=
  let at_ := en_Resource e +:+ "/" +:+ en_Name e +:+ ": " in
  match r with
  | Err ErrNotFound => Waiting
  | Err (DynamoError msg) => Failed (at_ +:+ msg)
  | Ok st =>
      if negb (IsZero (en_DesireUpdateTime e)) && (st_ObservedDesireUpdateTime st <? en_DesireUpdateTime e)%Z then Waiting
      else match FindStatusCondition (st_Conditions st) DesireConditionSuccessful with
           | None => Waiting
           | Some cond =>
               if String.eqb (cond_Status cond) ConditionTrue then Synced
               else if negb (String.eqb (cond_Message cond) "") then Failed (at_ +:+ cond_Reason cond +:+ ": " +:+ cond_Message cond)
               else Failed (at_ +:+ cond_Reason cond)
           end
  end.

Definition count_synced (l : list verdict) : nat := List.length (filter (λ v, v = Synced) l).
Definition failed_messages (l : list verdict) : list string := omap (fun v => match v with Failed m => Some m | _ => None end) l.

Definition synced_condition (verdicts : list verdict) (generation : Z) : Condition :=
  let total := FormatInt (Z.of_nat (List.length verdicts)) in
  let synced := FormatInt (Z.of_nat (count_synced verdicts)) in
  match failed_messages verdicts with
  | (_ :: _) as failed =>
      mkCondition ConditionSynced ConditionFalse generation 0 "SyncFailed" (synced +:+ "/" +:+ total +:+ " synced; failing: " +:+ strings_Join failed "; ")
  | [] =>
      if Nat.eqb (count_synced verdicts) (List.length verdicts)
      then mkCondition ConditionSynced ConditionTrue generation 0 "AllSynced" (synced +:+ "/" +:+ total +:+ " desires applied successfully")
      else mkCondition ConditionSynced ConditionFalse generation 0 "AwaitingSync"
             (synced +:+ "/" +:+ total +:+ " synced, waiting for kube-applier to process remaining desires")
  end.

Section check.
Context `{ControllerLib, DesireClient, !Scheduler World}.

Definition CheckApplyDesireStatuses (statusPrefix : string) (entries : list DesireStatusEntry) (generation : Z) : St World Condition :=
  results ← go_all ((fun e => GetApplyDesireStatus statusPrefix (en_DocID e)) <$> entries);
  mret (synced_condition (zip_with entry_verdict entries results) generation).
End check.

(** ** The event router

    A target is the queue of one controller and the key of the object. Dispatch drops
    the event when the queue is full. *)
Module EventRouter.
Record EventTarget := mkTarget { et_Channel : string; et_Key : string * string }.
Definition index := gmap string EventTarget.
Definition NewEventRouter : index := ∅.
Definition Register (docID : string) (target : EventTarget) (r : index) : index := <[docID := target]> r.
Definition Deregister (docID : string) (r : index) : index := delete docID r.
Definition Lookup (docID : string) (r : index) : option EventTarget := r !! docID.

(** The queues, with their capacities. *)
Record Queue := mkQueue { q_events : list (string * string); q_capacity : nat }.
Notation queues := (gmap string Queue).
Definition Dispatch (docID : string) (r : index) (qs : queues) : queues * bool :=
  match Lookup docID r with
  | None => (qs, false)
  | Some target =>
      (match qs !! et_Channel target with
       | Some q => if Nat.ltb (List.length (q_events q)) (q_capacity q)
                   then <[et_Channel target := mkQueue (q_events q ++ [et_Key target])%list (q_capacity q)]> qs else qs
       | None => qs
       end, true)
  end.
End EventRouter.

(** ** What the condition says *)
Section props.
Context `{ControllerLib, DesireLaws, !Scheduler World}.

(** The report on a desire confirms it: it is about this version of the desire, and it
    says that the desire was carried out. *)
Definition confirmed (e : DesireStatusEntry) (st : ApplyDesireStatus) : Prop :=
  (en_DesireUpdateTime e = 0 ∨ en_DesireUpdateTime e ≤ st_ObservedDesireUpdateTime st)%Z ∧
  IsStatusConditionTrue (st_Conditions st) DesireConditionSuccessful = true.

Lemma verdict_synced e r : entry_verdict e r = Synced ↔ ∃ st, r = Ok st ∧ confirmed e st.
Proof.
  unfold entry_verdict, confirmed, IsStatusConditionTrue, IsZero. split.
  - destruct r as [st|[|m]]; [|done..]. destruct (_ && _) eqn:E; [done|]. destruct (FindStatusCondition _ _) as [c|] eqn:Ef; [|done].
    destruct (String.eqb (cond_Status c) ConditionTrue) eqn:Ec; [|by destruct (String.eqb (cond_Message c) _)]. intros _. exists st. split_and!; [done| |by rewrite Ef].
    apply andb_false_iff in E as [E%negb_false_iff|E]; lia.
  - intros (st & -> & Ht & Hc). destruct (_ && _) eqn:E; [apply andb_true_iff in E as [E1%negb_true_iff E2]; lia|]. destruct (FindStatusCondition _ _); [|done]. by rewrite Hc.
Qed.

Lemma count_le l : (count_synced l ≤ List.length l)%nat.
Proof. unfold count_synced. apply length_filter. Qed.

Lemma synced_true l g : cond_Status (synced_condition l g) = ConditionTrue ↔ Forall (λ v, v = Synced) l.
Proof.
  unfold synced_condition. assert (Hall : Forall (λ v, v = Synced) l ↔ count_synced l = List.length l).
  { unfold count_synced. induction l as [|v l IH]; [done|]. rewrite Forall_cons, filter_cons.
    pose proof (count_le l) as Hle. unfold count_synced in Hle. destruct v; case_decide; simpl; try done; rewrite ?IH; split; intros; try lia; naive_solver. }
  assert (Hf : count_synced l = List.length l → failed_messages l = []).
  { rewrite <- Hall. clear. induction 1 as [|v l -> _ IH]; [done|]. exact IH. }
  destruct (failed_messages l) as [|m ms] eqn:E; simpl.
  - destruct (Nat.eqb_spec (count_synced l) (List.length l)); simpl; naive_solver.
  - split; [done|]. intros Hs%Hall%Hf. done.
Qed.

Lemma synced_head l g : cond_Type (synced_condition l g) = ConditionSynced ∧ cond_ObservedGeneration (synced_condition l g) = g.
Proof. unfold synced_condition. destruct (failed_messages l); [|done]. by destruct (Nat.eqb _ _). Qed.

(** The reports are read one by one while other sessions run. *)
Definition report_read (prefix : string) (w : World) (e : DesireStatusEntry) (r : result derr ApplyDesireStatus) : Prop :=
  ∃ w1 w2, rtc interfere (state w) (state w1) ∧ GetApplyDesireStatus prefix (en_DocID e) w1 = (w2, r).

Lemma moves_GetApply prefix doc : moves state interfere (GetApplyDesireStatus prefix doc).
Proof. by intros w w' r [? _]%GetApply_law. Qed.

Lemma check_reports prefix entries g w w' c : CheckApplyDesireStatuses prefix entries g w = (w', c) →
  rtc interfere (state w) (state w') ∧
  ∃ reports, Forall2 (report_read prefix w) entries reports ∧ c = synced_condition (zip_with entry_verdict entries reports) g.
Proof.
  unfold CheckApplyDesireStatuses. intros (w1 & reports & Hg & Hr)%St_bind_inv. apply St_ret_inv in Hr as [-> ->].
  set (jobs := (fun e => GetApplyDesireStatus prefix (en_DocID e)) <$> entries) in Hg.
  assert (Hl : triple (λ w1, rtc interfere (state w) (state w1)) (go_all jobs) (λ l w1, rtc interfere (state w) (state w1) ∧
    List.length l = List.length jobs ∧ ∀ i a, l !! i = Some a → ∀ e, entries !! i = Some e → report_read prefix w e a)).
  { apply go_all_spec. intros i job Hj w2 w3 r Hw E. split; [etrans; [done|]|].
    - apply list_lookup_fmap_Some in Hj as (e & -> & _). by eapply moves_GetApply.
    - intros e He. unfold jobs in Hj. rewrite list_lookup_fmap, He in Hj. injection Hj as <-. by exists w2, w3. }
  destruct (Hl _ _ _ (rtc_refl _ _) Hg) as (Hi & Hlen & Hread). split; [done|]. exists reports. split; [|done].
  unfold jobs in Hlen. rewrite length_fmap in Hlen. apply Forall2_same_length_lookup_2; [done|]. intros i e r He Hr. by eapply Hread.
Qed.

Lemma Forall_verdicts entries reports : List.length entries = List.length reports →
  Forall (λ v, v = Synced) (zip_with entry_verdict entries reports) ↔ Forall2 (λ e r, ∃ st, r = Ok st ∧ confirmed e st) entries reports.
Proof.
  revert reports. induction entries as [|e l IH]; intros [|r reports]; try done. intros [= Hl]. simpl.
  rewrite Forall_cons, verdict_synced, Forall2_cons, IH; done.
Qed.

(** C25: The Synced condition is True exactly when every desire's report was read and
    confirms this version of it; the reports are read while other sessions run, in any
    order. A report of an older version, a missing one or a missing condition keeps it
    False with the reason AwaitingSync, a failed report or read with SyncFailed. *)
Theorem synced_iff_confirmed prefix entries g w w' c : CheckApplyDesireStatuses prefix entries g w = (w', c) →
  cond_Type c = ConditionSynced ∧ cond_ObservedGeneration c = g ∧
  ∃ reports, Forall2 (report_read prefix w) entries reports ∧
    (cond_Status c = ConditionTrue ↔ Forall2 (λ e r, ∃ st, r = Ok st ∧ confirmed e st) entries reports) ∧
    (cond_Status c ≠ ConditionTrue → cond_Status c = ConditionFalse ∧
       (cond_Reason c = "SyncFailed" ↔ ∃ e r m, (e, r) ∈ zip entries reports ∧ entry_verdict e r = Failed m) ∧
       (cond_Reason c = "SyncFailed" ∨ cond_Reason c = "AwaitingSync")).
Proof.
  intros (_ & reports & Hread & ->)%check_reports. pose proof (Forall2_length _ _ _ Hread) as Hlen. set (l := zip_with entry_verdict entries reports).
  destruct (synced_head l g) as [Ht Hg]. split_and!; [done..|]. exists reports.
  split_and!; [done|by rewrite synced_true, <- Forall_verdicts|]. intros Hne.
  assert (Hf : failed_messages l ≠ [] ↔ ∃ e r m, (e, r) ∈ zip entries reports ∧ entry_verdict e r = Failed m).
  { unfold l, failed_messages. rewrite zip_with_zip. split.
    - intros Hn. destruct (omap _ _) as [|m ms] eqn:E; [done|]. assert (Hin : m ∈ omap (λ v, match v with Failed m => Some m | _ => None end) (uncurry entry_verdict <$> zip entries reports)) by (rewrite E; by left).
      apply list_elem_of_omap in Hin as (v & Hv & Hm). apply list_elem_of_fmap in Hv as ([e r] & -> & Hz). simpl in Hm.
      destruct (entry_verdict e r) eqn:Ev; [done| |done]. by exists e, r, message.
    - intros (e & r & m & Hz & Hv) E. assert (Hin : m ∈ omap (λ v, match v with Failed m => Some m | _ => None end) (uncurry entry_verdict <$> zip entries reports)).
      { apply list_elem_of_omap. exists (Failed m). split; [|done]. apply list_elem_of_fmap. by exists (e, r). }
      rewrite E in Hin. by apply elem_of_nil in Hin. }
  rewrite <- Hf. revert Hne. unfold synced_condition. destruct (failed_messages l) as [|m ms]; [|intros _; by split_and!; [|split|left]].
  destruct (Nat.eqb _ _); simpl; [done|]. intros _. split_and!; [done| |by right]. by split.
Qed.
End props.
