(* ===== verification/DesireStore.v ===== *)
(** * The DynamoDB client of the desires (internal/dynamo/client.go)

    A desire is written only when its content changed: the client compares the hash of
    the new content with the hash it wrote last (its cache), or with the stored one, and
    returns the time of the last change otherwise. DynamoDB may lose the answer of a write
    and may read an older row, so what an upsert did is only known of rows that are
    trusted ([trusted_row]); the last section shows how the trust is lost. *)
From S2P Require Import Prelude GoStrings Json Convert StateM ApiTypes KubeClient ApiClient Controllers Desires.
From stdpp Require Import base gmap strings list.
From Stdlib Require Import ZArith Lia Ascii String.
Open Scope string_scope.

(** ** DynamoDB *)
Inductive AttributeValue := AV_S (s : string) | AV_N (s : string) | AV_M (m : list (string * AttributeValue)) | AV_other.
Notation Item := (gmap string AttributeValue).

(** The rows as last written, the SDK's calls on them, the time, and the encodings of the
    SDK and of the standard library that the client uses. A row is [settled] when nobody
    but this client writes it and no earlier write of unknown outcome can still take
    effect, and [replicated] when every replica has the last write. *)
Class Tables (T : Type) := {
  tables : T → gmap (string * string) Item;
  settled : T → string * string → Prop;
  replicated : T → string * string → Prop;
  (** with the consistency of the read: by default a read may return an older item *)
  GetItem : bool → string → string → St T (result string Item);
  PutItem : string → string → Item → St T (option string);
  DeleteItem : string → string → St T (option string);
  wall_clock : T → Z
}.
Class DesireCodec := {
  spec_JSON_text : Desire → result string string;
  hex_sha256_of : string → string;
  MarshalMap : Desire → result string (list (string * AttributeValue));
  UnmarshalApplyStatus : Item → result string ApplyDesireStatus;
  UnmarshalReadStatus : Item → result string unit;
  RFC3339_Format : Z → string;
  RFC3339_Parse : string → option Z;
  ComputeShardDefault : string → string
}.

Section client.
Context {T : Type} `{Tables T, DesireCodec}.

Record cacheEntry := mkCacheEntry { ce_specHash : string; ce_updateTime : Z }.
Record Client := mkClient { cl_tables : T; cl_cache : gmap string cacheEntry }.

Definition NewClient (t : T) : Client := mkClient t ∅.
Definition ResetCache (c : Client) : Client := mkClient (cl_tables c) ∅.

Definition on_tables {A} (m : St T A) : St Client A := zoom cl_tables (fun t c => mkClient t (cl_cache c)) m.
Definition cache_Store (key : string) (e : cacheEntry) : St Client unit := fun c => (mkClient (cl_tables c) (<[key := e]> (cl_cache c)), tt).
Definition cache_Delete (key : string) : St Client unit := fun c => (mkClient (cl_tables c) (delete key (cl_cache c)), tt).
Definition cache_Load (key : string) : St Client (option cacheEntry) := fun c => (c, cl_cache c !! key).

Definition computeSpecHash (d : Desire) : result string string :=
  match spec_JSON_text d with Ok data => Ok (hex_sha256_of data) | Err e => Err ("marshal spec for hash: " +:+ e) end.
Definition cacheKey (table documentID : string) : string := table +:+ "/" +:+ documentID.

(** ** The items *)
Definition kube_content (d : Desire) : option string := match d with ApplyOf s => as_KubeContent s | ReadOf _ => None end.

(** [delete(ssaMap.Value, "kubeContent")] *)
Definition drop_content (attrs : list (string * AttributeValue)) : list (string * AttributeValue) :=
  (fun kv => match kv with
             | ("serverSideApply", AV_M m) => ("serverSideApply", AV_M (filter (λ kv, kv.1 ≠ "kubeContent") m))
             | _ => kv
             end) <$> attrs.

Definition desire_item (documentID : string) (d : Desire) (attrs : list (string * AttributeValue)) (specHash : string) (updateTime : Z) : Item :=
  let base : Item := {["documentID" := AV_S documentID; "version" := AV_N "1"; "updateTime" := AV_S (RFC3339_Format updateTime);
                       "shard" := AV_S (ComputeShardDefault documentID)]} in
  let hashed : Item := if String.eqb specHash "" then base else <["specHash" := AV_S specHash]> base in
  match kube_content d with
  | Some raw => <["spec" := AV_M (drop_content attrs)]> (<["spec_kubeContent" := AV_S raw]> hashed)
  | None => <["spec" := AV_M attrs]> hashed
  end.

Definition putDesireWithHash (table documentID : string) (d : Desire) (specHash : string) (updateTime : Z) : St Client (result derr unit) :=
  match MarshalMap d with
  | Err e => mret (Err (DynamoError ("marshal spec: " +:+ e)))
  | Ok attrs =>
      r ← on_tables (PutItem table documentID (desire_item documentID d attrs specHash updateTime));
      mret match r with
           | Some e => Err (DynamoError ("dynamodb put " +:+ table +:+ "/" +:+ documentID +:+ ": " +:+ e))
           | None => Ok tt
           end
  end.

(** ** Upserts *)
Definition attr_string (item : Item) (name : string) : option string := match item !! name with Some (AV_S s) => Some s | _ => None end.

(** The time of a stored desire; one that cannot be read is the zero time. *)
Definition stored_time (item : Item) : Z := match attr_string item "updateTime" with Some ts => default 0%Z (RFC3339_Parse ts) | None => 0%Z end.
Definition truncate (t : Z) : Z := t / second * second.

Definition write_desire (table documentID : string) (d : Desire) (newHash : string) : St Client (result derr UpsertResult) :=
  fun c =>
  let now := truncate (wall_clock (cl_tables c)) in
  (put ← putDesireWithHash table documentID d newHash now;
   match put with
   | Err e => mret (Err e)
   | Ok _ => cache_Store (cacheKey table documentID) (mkCacheEntry newHash now) ≫= fun _ => mret (Ok (mkUpsertResult true now))
   end) c.

(** The content is not the cached one: compare with the stored item. *)
Definition upsert_miss (table documentID : string) (d : Desire) (newHash : string) : St Client (result derr UpsertResult) :=
  existing ← on_tables (GetItem false table documentID);
  match existing with
  | Err e => mret (Err (DynamoError ("dynamodb get " +:+ table +:+ "/" +:+ documentID +:+ " for upsert: " +:+ e)))
  | Ok item =>
      if bool_decide (attr_string item "specHash" = Some newHash) then
        cache_Store (cacheKey table documentID) (mkCacheEntry newHash (stored_time item)) ≫= fun _ =>
        mret (Ok (mkUpsertResult false (stored_time item)))
      else write_desire table documentID d newHash
  end.

Definition upsertDesire (table documentID : string) (d : Desire) : St Client (result derr UpsertResult) :=
  match computeSpecHash d with
  | Err e => mret (Err (DynamoError e))
  | Ok newHash =>
      cached ← cache_Load (cacheKey table documentID);
      match cached with
      | Some entry => if String.eqb (ce_specHash entry) newHash then mret (Ok (mkUpsertResult false (ce_updateTime entry)))
                      else upsert_miss table documentID d newHash
      | None => upsert_miss table documentID d newHash
      end
  end.

Definition UpsertApply (specsPrefix documentID : string) (s : ApplyDesireSpec) : St Client (result derr UpsertResult) :=
  upsertDesire (specsPrefix +:+ TableSuffixApplyDesires) documentID (ApplyOf s).
Definition UpsertRead (specsPrefix documentID : string) (s : ReadDesireSpec) : St Client (result derr UpsertResult) :=
  upsertDesire (specsPrefix +:+ TableSuffixReadDesires) documentID (ReadOf s).

Definition DeleteSpec (specsPrefix suffix documentID : string) : St Client (result derr unit) :=
  let table := specsPrefix +:+ suffix in
  r ← on_tables (DeleteItem table documentID);
  match r with
  | Some e => mret (Err (DynamoError ("dynamodb delete " +:+ table +:+ "/" +:+ documentID +:+ ": " +:+ e)))
  | None => cache_Delete (cacheKey table documentID) ≫= fun _ => mret (Ok tt)
  end.

(** ** Statuses *)
Definition getDesireStatus {A} (unmarshal : Item → Item → result string A) (table documentID : string) : St Client (result derr A) :=
  r ← on_tables (GetItem true table documentID);
  mret match r with
       | Err e => Err (DynamoError ("dynamodb get " +:+ table +:+ "/" +:+ documentID +:+ ": " +:+ e))
       | Ok item =>
           if bool_decide (item = ∅) then Err ErrNotFound
           else
             let statusAttrs := match item !! "status" with Some (AV_M m) => list_to_map m | _ => item end in
             match unmarshal item statusAttrs with
             | Err e => Err (DynamoError ("unmarshal " +:+ table +:+ "/" +:+ documentID +:+ ": " +:+ e))
             | Ok a => Ok a
             end
       end.

Definition GetApplyStatus (statusPrefix documentID : string) : St Client (result derr ApplyDesireStatus) :=
  getDesireStatus (fun _ attrs => UnmarshalApplyStatus attrs) (statusPrefix +:+ TableSuffixApplyDesires) documentID.

(** The content of a read desire is at the top of the item. *)
Definition read_status (item attrs : Item) : result string ReadDesireStatus :=
  match UnmarshalReadStatus attrs with
  | Err e => Err e
  | Ok _ => Ok (mkReadStatus (match attr_string item "status_kubeContent" with Some "" => None | x => x end))
  end.
Definition GetReadStatus (statusPrefix documentID : string) : St Client (result derr ReadDesireStatus) :=
  getDesireStatus read_status (statusPrefix +:+ TableSuffixReadDesires) documentID.
End client.

(** ** What DynamoDB promises *)
Section props.
Context {T : Type} `{Tables T, DesireCodec}.

(** A call leaves the other rows of this client as they are, and the replicas that have
    them. Rows that are not settled may change at any time. *)
Definition row_stays (t t' : T) (key : string * string) : Prop :=
  settled t key → tables t' !! key = tables t !! key ∧ settled t' key ∧ (replicated t key → replicated t' key).

(** A read returns the row as it is when it is consistent, or when the row is settled and
    every replica has it; otherwise it may return an older one. A write of a settled row
    that is answered took effect, and the row stays settled, but the replicas may lag;
    one that fails may have taken effect all the same, or still do so later. *)
Class TablesLaws : Prop := {
  Get_stays : ∀ b table doc t t' r, GetItem b table doc t = (t', r) → ∀ key, row_stays t t' key;
  Get_latest : ∀ b table doc t t' item, GetItem b table doc t = (t', Ok item) → b = true ∨ (settled t (table, doc) ∧ replicated t (table, doc)) →
    item = default ∅ (tables t' !! (table, doc));
  Put_others : ∀ table doc item t t' r, PutItem table doc item t = (t', r) → ∀ key, key ≠ (table, doc) → row_stays t t' key;
  Put_row : ∀ table doc item t t' r, PutItem table doc item t = (t', r) → settled t (table, doc) →
    match r with
    | None => tables t' !! (table, doc) = Some item ∧ settled t' (table, doc)
    | Some _ => tables t' !! (table, doc) = tables t !! (table, doc) ∨ tables t' !! (table, doc) = Some item
    end;
  Delete_others : ∀ table doc t t' r, DeleteItem table doc t = (t', r) → ∀ key, key ≠ (table, doc) → row_stays t t' key;
  Delete_row : ∀ table doc t t' r, DeleteItem table doc t = (t', r) → settled t (table, doc) →
    match r with
    | None => tables t' !! (table, doc) = None ∧ settled t' (table, doc)
    | Some _ => tables t' !! (table, doc) = tables t !! (table, doc) ∨ tables t' !! (table, doc) = None
    end
}.

(** The hash is not empty and tells contents apart, and times are read as written. *)
Class CodecLaws : Prop := {
  hash_nonempty : ∀ data, hex_sha256_of data ≠ "";
  hash_inj : ∀ d1 d2 h, computeSpecHash d1 = Ok h → computeSpecHash d2 = Ok h → d1 = d2;
  time_read : ∀ t, truncate t = t → RFC3339_Parse (RFC3339_Format t) = Some t
}.

(** ** The cache agrees with the tables *)

(** The row holds this desire, changed at this time. *)
Definition holds (t : T) (table doc : string) (d : Desire) (at_ : Z) : Prop :=
  ∃ attrs h, MarshalMap d = Ok attrs ∧ computeSpecHash d = Ok h ∧ tables t !! (table, doc) = Some (desire_item doc d attrs h at_) ∧
    truncate at_ = at_.

(** A row that has a hash was written by such a client. *)
Definition own_row (t : T) (table doc : string) : Prop :=
  ∀ item h, tables t !! (table, doc) = Some item → attr_string item "specHash" = Some h → ∃ d at_, holds t table doc d at_.

(** What the client remembers of a row is what the row holds. *)
Definition agrees (c : Client) (table doc : string) : Prop :=
  ∀ e, cl_cache c !! cacheKey table doc = Some e → ∃ d, computeSpecHash d = Ok (ce_specHash e) ∧ holds (cl_tables c) table doc d (ce_updateTime e).

Record trusted_row (c : Client) (table doc : string) : Prop := mkTrusted {
  tr_settled : settled (cl_tables c) (table, doc);
  tr_replicated : replicated (cl_tables c) (table, doc);
  tr_own : own_row (cl_tables c) table doc;
  tr_agrees : agrees c table doc
}.

Context {TL : TablesLaws} {CL : CodecLaws}.

Lemma row_stays_trans t1 t2 t3 key : row_stays t1 t2 key → row_stays t2 t3 key → row_stays t1 t3 key.
Proof. intros H12 H23 Hs. destruct (H12 Hs) as (E1 & S1 & R1), (H23 S1) as (E2 & S2 & R2). split_and!; [congruence|done|auto]. Qed.
Lemma row_stays_refl t key : row_stays t t key.
Proof. by intros Hs. Qed.

Lemma truncate_idem t : truncate (truncate t) = truncate t.
Proof. unfold truncate, second. rewrite Z.div_mul; lia. Qed.

Lemma cacheKey_inj t1 d1 t2 d2 : document d1 → document d2 → cacheKey t1 d1 = cacheKey t2 d2 → t1 = t2 ∧ d1 = d2.
Proof. apply str_split_last. Qed.

Lemma item_hash doc d attrs h t : h ≠ "" → attr_string (desire_item doc d attrs h t) "specHash" = Some h.
Proof.
  intros Hh. unfold desire_item, attr_string. apply String.eqb_neq in Hh. rewrite Hh.
  cbv zeta. destruct (kube_content d); rewrite !lookup_insert_ne by done; by rewrite ?lookup_insert_eq.
Qed.

Lemma item_time doc d attrs h t : truncate t = t → stored_time (desire_item doc d attrs h t) = t.
Proof.
  intros Ht. unfold desire_item, stored_time, attr_string.
  cbv zeta. destruct (kube_content d), (String.eqb h ""); rewrite !lookup_insert_ne by done; rewrite lookup_insert_eq; simpl; by rewrite time_read.
Qed.

Lemma computeSpecHash_nonempty d h : computeSpecHash d = Ok h → h ≠ "".
Proof. unfold computeSpecHash. destruct (spec_JSON_text d); [|done]. intros [= <-]. apply hash_nonempty. Qed.

Lemma holds_hash t table doc d at_ item h : holds t table doc d at_ → tables t !! (table, doc) = Some item → attr_string item "specHash" = Some h →
  computeSpecHash d = Ok h ∧ stored_time item = at_.
Proof.
  intros (attrs & h' & _ & Hh & Hl & Ht) Hi Ha. rewrite Hl in Hi. injection Hi as <-.
  rewrite item_hash in Ha by (by eapply computeSpecHash_nonempty). injection Ha as <-. split; [done|]. by apply item_time.
Qed.

Lemma holds_same t t' table doc d at_ : tables t' !! (table, doc) = tables t !! (table, doc) → holds t table doc d at_ → holds t' table doc d at_.
Proof. intros E (attrs & h & ? & ? & ? & ?). exists attrs, h. by rewrite E. Qed.

Lemma trusted_stays c c' table doc : row_stays (cl_tables c) (cl_tables c') (table, doc) → cl_cache c' !! cacheKey table doc = cl_cache c !! cacheKey table doc →
  trusted_row c table doc → trusted_row c' table doc.
Proof.
  intros Hr Hca [Hs Hrep Ho Ha]. destruct (Hr Hs) as (Et & Hs' & Hrep'). split; [done|by apply Hrep'|..].
  - intros item h Hl Hh. rewrite Et in Hl. destruct (Ho _ _ Hl Hh) as (d & a & ?). exists d, a. by eapply holds_same.
  - intros e He. rewrite Hca in He. destruct (Ha e He) as (d & ? & ?). exists d. split; [done|]. by eapply holds_same.
Qed.

(** Other rows, and what is remembered of them. *)
Definition others_stay (table doc : string) (c c' : Client) : Prop :=
  (∀ key, key ≠ (table, doc) → row_stays (cl_tables c) (cl_tables c') key) ∧ (∀ key, key ≠ cacheKey table doc → cl_cache c' !! key = cl_cache c !! key).
(** A call that writes nothing. *)
Definition quietly (c c' : Client) : Prop := ∀ key, row_stays (cl_tables c) (cl_tables c') key.

Lemma others_trusted table doc c c' table' doc' : document doc → document doc' → (table', doc') ≠ (table, doc) → others_stay table doc c c' →
  trusted_row c table' doc' → trusted_row c' table' doc'.
Proof. intros Hd Hd' Hne [Ht Hc]. apply trusted_stays; [by apply Ht|]. apply Hc. intros ?%cacheKey_inj; naive_solver. Qed.

(** ** The operations *)
Lemma on_tables_inv {A} (m : St T A) c c' a : on_tables m c = (c', a) → ∃ t', m (cl_tables c) = (t', a) ∧ c' = mkClient t' (cl_cache c).
Proof. unfold on_tables, zoom. destruct (m (cl_tables c)) as [t' x]. intros [= <- <-]. by exists t'. Qed.

(** What an upsert of [d] that returned [r] did to its row. *)
Definition upserted (table doc : string) (d : Desire) (c c' : Client) (r : result derr UpsertResult) : Prop :=
  match r with
  | Ok u => holds (cl_tables c') table doc d (ur_UpdateTime u) ∧ settled (cl_tables c') (table, doc) ∧ agrees c' table doc
  | Err _ => tables (cl_tables c') !! (table, doc) = tables (cl_tables c) !! (table, doc) ∨ ∃ t, holds (cl_tables c') table doc d t
  end.

Lemma write_spec table doc d h c c' r : computeSpecHash d = Ok h → write_desire table doc d h c = (c', r) →
  others_stay table doc c c' ∧ (settled (cl_tables c) (table, doc) → upserted table doc d c c' r) ∧
  ∀ u, r = Ok u → u = mkUpsertResult true (truncate (wall_clock (cl_tables c))) ∧ cl_cache c' !! cacheKey table doc = Some (mkCacheEntry h (ur_UpdateTime u)).
Proof.
  intros Hh. unfold write_desire, putDesireWithHash. set (now := truncate _). destruct (MarshalMap d) as [attrs|e] eqn:Em.
  2:{ intros (c1 & x & [-> ->]%St_ret_inv & [-> ->]%St_ret_inv)%St_bind_inv. split_and!; [split; [intros key _; apply row_stays_refl|done]|intros _; by left|done]. }
  assert (Hholds : ∀ t', tables t' !! (table, doc) = Some (desire_item doc d attrs h now) → holds t' table doc d now).
  { intros t' Ht. exists attrs, h. split_and!; [done..|apply truncate_idem]. }
  intros (c1 & x & (c2 & put & Hp & Hx)%St_bind_inv & Hr)%St_bind_inv. apply on_tables_inv in Hp as (t' & Hp & ->). apply St_ret_inv in Hx as [-> ->].
  pose proof (Put_others _ _ _ _ _ _ Hp) as Ho. pose proof (Put_row _ _ _ _ _ _ Hp) as Hrow. destruct put as [e|].
  - apply St_ret_inv in Hr as [-> ->]. split_and!; [by split| |done]. intros [?|?]%Hrow; [by left|]. right. exists now. by apply Hholds.
  - apply St_bind_inv in Hr as (c3 & [] & [= <-] & [-> ->]%St_ret_inv). split_and!; [split; [done|]; intros key Hk; simpl; by rewrite lookup_insert_ne| |].
    + intros [Hl Hs]%Hrow. simpl. split_and!; [by apply Hholds|done|]. intros e. simpl. rewrite lookup_insert_eq. intros [= <-]. exists d. split; [done|]. by apply Hholds.
    + intros u [= <-]. split; [done|]. simpl. apply lookup_insert_eq.
Qed.

Definition remembered (table doc : string) (d : Desire) (c' : Client (T := T)) (u : UpsertResult) : Prop :=
  ∃ h, computeSpecHash d = Ok h ∧ cl_cache c' !! cacheKey table doc = Some (mkCacheEntry h (ur_UpdateTime u)).

(** The row is as good as it was, and it is cached now. *)
Definition unchanged (table doc : string) (c c' : Client) : Prop := quietly c c' ∧ (trusted_row c table doc → trusted_row c' table doc).

Lemma miss_spec table doc d h c c' r : computeSpecHash d = Ok h → upsert_miss table doc d h c = (c', r) →
  others_stay table doc c c' ∧ (trusted_row c table doc → upserted table doc d c c' r) ∧
  ∀ u, r = Ok u → remembered table doc d c' u ∧ (if ur_Changed u then settled (cl_tables c) (table, doc) → upserted table doc d c c' r else unchanged table doc c c').
Proof.
  intros Hh (c1 & existing & Hg & Hr)%St_bind_inv. apply on_tables_inv in Hg as (t' & Hg & ->). pose proof (Get_stays _ _ _ _ _ _ Hg) as Hst.
  destruct existing as [item|e].
  2:{ apply St_ret_inv in Hr as [-> ->]. split_and!; [by split|intros Ht; left; by apply Hst, Ht|done]. }
  case_bool_decide as Ha.
  2:{ apply write_spec in Hr as ([Ho1 Ho2] & Hup & Hu); [|done].
      assert (Hup' : settled (cl_tables c) (table, doc) → upserted table doc d c c' r).
      { intros Hs. destruct (Hst _ Hs) as (Et & Hs' & _). specialize (Hup Hs'). destruct r as [u|e]; [done|]. simpl in Hup |- *. by rewrite Et in Hup. }
      split_and!.
      - split; [|done]. intros key Hk. eapply row_stays_trans; [apply Hst|by apply Ho1].
      - intros Ht. by apply Hup', Ht.
      - intros u Eu. destruct (Hu u Eu) as [-> Hca]. split; [by exists h|exact Hup']. }
  apply St_bind_inv in Hr as (c2 & [] & [= <-] & [-> ->]%St_ret_inv). set (c' := mkClient t' _).
  assert (Hho : trusted_row c table doc → holds t' table doc d (stored_time item)).
  { intros [Hs Hrep Hown _]. pose proof (Get_latest _ _ _ _ _ _ Hg (or_intror (conj Hs Hrep))) as Hitem. destruct (Hst _ Hs) as (Et & _). rewrite Et in Hitem.
    destruct (tables (cl_tables c) !! (table, doc)) as [it|] eqn:El; simpl in Hitem; subst item; [|unfold attr_string in Ha; by rewrite lookup_empty in Ha].
    destruct (Hown _ _ El Ha) as (d' & at_ & Hd'). destruct (holds_hash _ _ _ _ _ _ _ Hd' El Ha) as [Hh' Htime].
    assert (d' = d) as -> by (by eapply hash_inj). rewrite Htime. eapply holds_same; [|exact Hd']. by rewrite El. }
  assert (Hag : trusted_row c table doc → agrees c' table doc).
  { intros Ht e. simpl. rewrite lookup_insert_eq. intros [= <-]. exists d. split; [done|by apply Hho]. }
  split_and!.
  - split; [done|]. intros key Hk. simpl. by rewrite lookup_insert_ne.
  - intros Ht. simpl. split_and!; [by apply Hho|by apply (Hst _ (tr_settled _ _ _ Ht))|by apply Hag].
  - intros u [= <-]. split; [exists h; split; [done|apply lookup_insert_eq]|]. simpl. split; [done|]. intros Ht.
    destruct (Hst _ (tr_settled _ _ _ Ht)) as (Et & Hs & Hrep). split; [done|by apply Hrep, Ht| |by apply Hag].
    intros it h' Hl Hh'. cbn in Hl. rewrite Et in Hl. destruct (tr_own _ _ _ Ht it h' Hl Hh') as (d0 & a0 & ?). exists d0, a0. eapply holds_same; [exact Et|done].
Qed.

Lemma upsert_spec table doc d c c' r : upsertDesire table doc d c = (c', r) →
  others_stay table doc c c' ∧ (trusted_row c table doc → upserted table doc d c c' r) ∧
  ∀ u, r = Ok u → remembered table doc d c' u ∧ (if ur_Changed u then settled (cl_tables c) (table, doc) → upserted table doc d c c' r else unchanged table doc c c').
Proof.
  unfold upsertDesire. destruct (computeSpecHash d) as [h|e] eqn:Hh.
  2:{ intros [-> ->]%St_ret_inv. split_and!; [split; [intros key _; apply row_stays_refl|done]|intros _; by left|done]. }
  intros (c1 & cached & [= <- <-] & Hr)%St_bind_inv. destruct (cl_cache c !! cacheKey table doc) as [entry|] eqn:Ee; [|by eapply miss_spec].
  destruct (String.eqb_spec (ce_specHash entry) h) as [Eh|]; [|by eapply miss_spec]. apply St_ret_inv in Hr as [-> ->]. split_and!.
  - split; [intros key _; apply row_stays_refl|done].
  - intros Ht. destruct (tr_agrees _ _ _ Ht _ Ee) as (d' & Hd' & Hrow). rewrite Eh in Hd'. assert (d' = d) as -> by (by eapply hash_inj).
    simpl. split_and!; [done|by apply Ht|by apply Ht].
  - intros u [= <-]. split; [exists h; split; [done|]; rewrite Ee; destruct entry; simpl in *; by subst|]. simpl. split; [intros key; apply row_stays_refl|done].
Qed.

Lemma delete_spec prefix suffix doc c c' r : DeleteSpec prefix suffix doc c = (c', r) →
  others_stay (prefix +:+ suffix) doc c c' ∧
  (settled (cl_tables c) (prefix +:+ suffix, doc) →
   match r with
   | Ok _ => tables (cl_tables c') !! (prefix +:+ suffix, doc) = None ∧ settled (cl_tables c') (prefix +:+ suffix, doc) ∧ cl_cache c' !! cacheKey (prefix +:+ suffix) doc = None
   | Err _ => tables (cl_tables c') !! (prefix +:+ suffix, doc) = tables (cl_tables c) !! (prefix +:+ suffix, doc) ∨ tables (cl_tables c') !! (prefix +:+ suffix, doc) = None
   end).
Proof.
  intros (c1 & x & Hd & Hr)%St_bind_inv. apply on_tables_inv in Hd as (t' & Hd & ->).
  pose proof (Delete_others _ _ _ _ _ Hd) as Ho. pose proof (Delete_row _ _ _ _ _ Hd) as Hrow. destruct x as [e|].
  - apply St_ret_inv in Hr as [-> ->]. by split; [split|].
  - apply St_bind_inv in Hr as (c2 & [] & [= <-] & [-> ->]%St_ret_inv). simpl. split; [split; [done|]; intros key Hk; simpl; by rewrite lookup_delete_ne|].
    intros [? ?]%Hrow. split_and!; [done..|apply lookup_delete_eq].
Qed.

Lemma status_frame {A} (unmarshal : Item → Item → result string A) table doc c c' r : getDesireStatus unmarshal table doc c = (c', r) →
  quietly c c' ∧ cl_cache c' = cl_cache c ∧ (r = Err ErrNotFound → default ∅ (tables (cl_tables c') !! (table, doc)) = ∅) ∧
  ∀ a, r = Ok a → ∃ item attrs, tables (cl_tables c') !! (table, doc) = Some item ∧ item ≠ ∅ ∧
    attrs = match item !! "status" with Some (AV_M m) => list_to_map m | _ => item end ∧ unmarshal item attrs = Ok a.
Proof.
  intros (c1 & x & Hg & Hr)%St_bind_inv. apply on_tables_inv in Hg as (t' & Hg & ->). pose proof (Get_stays _ _ _ _ _ _ Hg) as Ht. apply St_ret_inv in Hr as [-> ->].
  destruct x as [item|e]; [|by split_and!]. pose proof (Get_latest _ _ _ _ _ _ Hg (or_introl eq_refl)) as Hi. cbv zeta. simpl.
  case_bool_decide as He; [split_and!; try done; by rewrite <- Hi|].
  destruct (tables t' !! (table, doc)) as [it|]; simpl in Hi; subst item; [|done].
  destruct (unmarshal _ _) as [a|e] eqn:Eu; split_and!; try done. intros a' [= <-]. by eexists _, _.
Qed.
End props.

Section theorems.
Context {T : Type} `{Tables T, DesireCodec, !TablesLaws, !CodecLaws}.

(** C8: An upsert touches the row and the cache entry of its document only; the other
    rows of this client stay, as trustworthy as they were. When the row is trusted (only
    this client writes it, no write of unknown outcome is under way, the replicas have
    the last one, and the cache agrees with it), an upsert that succeeds leaves exactly
    this desire in the row, changed at the time it answers, with the cache in agreement;
    one that fails leaves the old row or exactly this desire. An upsert that reports a
    change wrote the desire even when the cache and the replicas are behind; one that
    reports none wrote nothing and keeps the trust. After a success, upserting the same desire
    again writes nothing and answers the same time. *)
Theorem upsert_refines table doc d c c' r : document doc → upsertDesire table doc d c = (c', r) →
  (others_stay table doc c c' ∧ ∀ table' doc', document doc' → (table', doc') ≠ (table, doc) → trusted_row c table' doc' → trusted_row c' table' doc') ∧
  (trusted_row c table doc → upserted table doc d c c' r) ∧
  ∀ u, r = Ok u →
    (ur_Changed u = true → settled (cl_tables c) (table, doc) → upserted table doc d c c' r) ∧
    (ur_Changed u = false → quietly c c' ∧ (trusted_row c table doc → trusted_row c' table doc)) ∧
    upsertDesire table doc d c' = (c', Ok (mkUpsertResult false (ur_UpdateTime u))).
Proof.
  intros Hdoc (Ho & Hup & Hu)%upsert_spec. split; [split; [done|]|split; [done|]].
  { intros table' doc' Hd' Hne. by apply (others_trusted table doc). }
  intros u Eu. destruct (Hu u Eu) as [(h & Hh & Hca) Hch]. split_and!; [by intros Ec; rewrite Ec in Hch|by intros Ec; rewrite Ec in Hch|].
  unfold upsertDesire. rewrite Hh. unfold mbind, St_bind, cache_Load. rewrite Hca. simpl. by rewrite String.eqb_refl.
Qed.

(** A delete of a settled row that succeeds leaves no row and nothing in the cache:
    once the replicas have seen it, the next upsert of any desire under this document is a
    write. Other rows stay. *)
Theorem delete_forgets prefix suffix doc c c' : DeleteSpec prefix suffix doc c = (c', Ok tt) → settled (cl_tables c) (prefix +:+ suffix, doc) →
  others_stay (prefix +:+ suffix) doc c c' ∧ tables (cl_tables c') !! (prefix +:+ suffix, doc) = None ∧
  (replicated (cl_tables c') (prefix +:+ suffix, doc) → trusted_row c' (prefix +:+ suffix) doc ∧
   ∀ d c2 u, upsertDesire (prefix +:+ suffix) doc d c' = (c2, Ok u) → ur_Changed u = true).
Proof.
  intros (Ho & Hrow)%delete_spec Hs. destruct (Hrow Hs) as (Hn & Hs' & Hca). split_and!; [done..|]. intros Hrep.
  assert (Ht : trusted_row c' (prefix +:+ suffix) doc).
  { split; [done..| |]; [intros item h; by rewrite Hn|intros e; by rewrite Hca]. }
  split; [done|]. intros d c2 u Hu. destruct (ur_Changed u) eqn:Ech; [done|]. apply upsert_spec in Hu as (_ & Hup & Hu).
  destruct (Hup Ht) as ((attrs & h & _ & _ & Hl & _) & _). destruct (Hu u eq_refl) as [_ Hq]. rewrite Ech in Hq. destruct Hq as [Hq _].
  destruct (Hq _ Hs') as (E & _). rewrite E, Hn in Hl. done.
Qed.
End theorems.

(** ** Where the trust is lost *)
Section limits.
Context {T : Type} `{Tables T, DesireCodec}.

(** A put whose answer is lost goes unnoticed. When the table holds [d1] and the
    cache knows it, an upsert of [d2] that is stored but fails leaves the cache as it
    was; reverting to [d1] then succeeds without a write, and the table keeps [d2]. *)
Theorem lost_put_hides_revert table doc d1 d2 h1 h2 attrs t1 c t2 item t3 e :
  computeSpecHash d1 = Ok h1 → computeSpecHash d2 = Ok h2 → h1 ≠ h2 → MarshalMap d2 = Ok attrs →
  cl_cache c !! cacheKey table doc = Some (mkCacheEntry h1 t1) →
  GetItem false table doc (cl_tables c) = (t2, Ok item) → attr_string item "specHash" ≠ Some h2 →
  let row := desire_item doc d2 attrs h2 (truncate (wall_clock t2)) in
  PutItem table doc row t2 = (t3, Some e) → tables t3 !! (table, doc) = Some row →
  ∃ c2 c3 msg, upsertDesire table doc d2 c = (c2, Err (DynamoError msg)) ∧
    upsertDesire table doc d1 c2 = (c3, Ok (mkUpsertResult false t1)) ∧ tables (cl_tables c3) !! (table, doc) = Some row.
Proof.
  intros H1 H2 Hne Hm Hc Hg Ha row Hp Hrow. unfold upsertDesire. rewrite H1, H2. unfold mbind, St_bind, cache_Load. cbn. rewrite Hc. cbn.
  rewrite (proj2 (String.eqb_neq h1 h2) Hne). unfold upsert_miss, mbind, St_bind, on_tables, zoom. rewrite Hg. rewrite bool_decide_false by done.
  unfold write_desire, mbind, St_bind, putDesireWithHash. rewrite Hm. unfold mbind, St_bind, on_tables, zoom. cbn. fold row. rewrite Hp. cbn.
  do 3 eexists. split; [reflexivity|]. cbn. rewrite Hc. cbn. rewrite String.eqb_refl. by split.
Qed.

(** The read before a write need not be consistent. When it returns an older row that
    had the desire [d1], an upsert of [d1] succeeds without a write and is cached, and the
    table keeps what was written since. *)
Theorem stale_read_hides_change table doc d1 h1 c t2 old row :
  computeSpecHash d1 = Ok h1 → (∀ e, cl_cache c !! cacheKey table doc = Some e → ce_specHash e ≠ h1) →
  GetItem false table doc (cl_tables c) = (t2, Ok old) → attr_string old "specHash" = Some h1 → tables t2 !! (table, doc) = Some row →
  ∃ c2, upsertDesire table doc d1 c = (c2, Ok (mkUpsertResult false (stored_time old))) ∧ tables (cl_tables c2) !! (table, doc) = Some row ∧
    upsertDesire table doc d1 c2 = (c2, Ok (mkUpsertResult false (stored_time old))).
Proof.
  intros H1 Hmiss Hg Ha Hrow. set (c2 := mkClient t2 (<[cacheKey table doc := mkCacheEntry h1 (stored_time old)]> (cl_cache c))). exists c2.
  assert (Hm : upsert_miss table doc d1 h1 c = (c2, Ok (mkUpsertResult false (stored_time old)))).
  { unfold upsert_miss, mbind, St_bind, on_tables, zoom. rewrite Hg, bool_decide_true by done. done. }
  split_and!; [|done|].
  - unfold upsertDesire. rewrite H1. unfold mbind, St_bind, cache_Load. destruct (cl_cache c !! _) as [e|]; [|exact Hm].
    rewrite (proj2 (String.eqb_neq _ _) (Hmiss e eq_refl)). exact Hm.
  - unfold upsertDesire. rewrite H1. unfold mbind, St_bind, cache_Load. simpl. by rewrite lookup_insert_eq; simpl; rewrite String.eqb_refl.
Qed.

Lemma write_time table doc d h c c' u : write_desire table doc d h c = (c', Ok u) → ur_UpdateTime u = truncate (wall_clock (cl_tables c)).
Proof.
  unfold write_desire. intros (c1 & [x|e] & _ & Hr)%St_bind_inv; [|by apply St_ret_inv in Hr as [_ ?]].
  by apply St_bind_inv in Hr as (c3 & [] & _ & [_ [= ->]]%St_ret_inv).
Qed.

(** Two writes of one document within a second carry the same time, so that a
    report that confirms the first one confirms the second one too: a report on the
    apply of a resource is taken for the report on its deletion. *)
Theorem same_second_confirms `{ControllerLib} table doc d1 d2 h1 h2 c c1 c2 c3 u1 u2 e1 e2 st :
  write_desire table doc d1 h1 c = (c1, Ok u1) → write_desire table doc d2 h2 c2 = (c3, Ok u2) →
  (wall_clock (cl_tables c) / second = wall_clock (cl_tables c2) / second)%Z →
  en_DesireUpdateTime e1 = ur_UpdateTime u1 → en_DesireUpdateTime e2 = ur_UpdateTime u2 →
  confirmed e1 st → confirmed e2 st.
Proof.
  intros W1 W2 Hs E1 E2 [Ht Hc]. split; [|done]. rewrite E2, (write_time _ _ _ _ _ _ _ W2). rewrite E1, (write_time _ _ _ _ _ _ _ W1) in Ht.
  unfold truncate in *. by rewrite <- Hs.
Qed.
End limits.
