(* ===== verification/Render.v ===== *)
(** * The resources of a cluster on its management cluster (internal/render)

    What the operator asks the management cluster to run for a Cluster and for a
    NodePool: namespace, config map, secrets, certificate, HyperShift's HostedCluster
    and NodePool. The customer's part of a HyperShift spec is copied through JSON
    ([HyperShift]: the conversion, and the fields the operator reads of the parts the
    API types keep opaque); the operator then writes the fields it manages over it. *)
From S2P Require Import Prelude GoStrings Convert Authorizer HttpApi ApiTypes KubeClient.
From stdpp Require Import base gmap strings list sorting.
From Stdlib Require Import ZArith Lia Ascii String.
Open Scope string_scope.

(** The JSON round trips of convert.go, the accessors, and [json.Marshal] of a resource. *)
Class HyperShift `{Passthrough} := {
  toHostedClusterSpec : HostedCluster → ClusterRest → result string HostedClusterSpec;
  toNodePoolSpec : NodePoolPassthrough → NodePoolRest → result string HyperNodePoolSpec;
  cl_AdditionalTrustBundle : ClusterRest → option string;
  np_MaxUnavailable : NodePoolRest → option IntOrString;
  np_MaxSurge : NodePoolRest → option IntOrString;
  Release_Image : Release → string;
  (** the zero values of the two specs *)
  zero_HostedClusterSpec : HostedClusterSpec;
  zero_HyperNodePoolSpec : HyperNodePoolSpec
}.

(** ** Names and labels (types.go) *)
Definition clusterIDLabel : string := "seaplane.io/cluster-id".
Definition resourceTypeLabel : string := "seaplane.io/resource-type".
Definition managedByLabel : string := "seaplane.io/managed-by".
Definition managedByOperator : string := "seaplane-operator".

Record RegionalConfig := mkRegionalConfig { rc_BaseDomainSuffix : string; rc_AWSRegion : string; rc_ControlPlaneOperatorImage : string }.

Definition ManagementNamespace (clusterUID : string) : string := "cluster-" +:+ clusterUID.
Definition clusterLabels (clusterUID : string) : gmap string string := {[clusterIDLabel := clusterUID]}.
Definition clusterResourceLabels (clusterUID resourceType : string) : gmap string string := <[resourceTypeLabel := resourceType]> (clusterLabels clusterUID).

Record CertificateSpec := mkCertificateSpec { ct_SecretName : string; ct_IssuerName : string; ct_IssuerKind : string; ct_DNSNames : list string }.
Record ExternalSecretSpec := mkExternalSecretSpec {
  es_RefreshInterval : string;
  es_StoreName : string;
  es_StoreKind : string;
  es_TargetName : string;
  es_CreationPolicy : string;
  es_TemplateType : string;
  es_Data : list (string * string)
}.

(** [oidc.SecretName]: where a signing key is kept. *)
Definition SecretName (accountID configID : string) : string := "/seaplane/oidc/" +:+ accountID +:+ "/" +:+ configID +:+ "/signing-key".
Definition oidcSigningKeyName : string := "oidc-signing-key".
Definition oidcSigningKeySecretStorePath (accountID oidcConfigID : string) : string := SecretName accountID oidcConfigID.
Definition additionalTrustBundleName : string := "additional-trust-bundle".

(** ** Go's [path.Base] and [strings.Cut] *)
Definition path_Base (path : string) : string :=
  if String.eqb path "" then "."
  else match last (Split (trim_right path "/") "/") with Some "" | None => "/" | Some s => s end.

Definition Cut (s : string) (sep : ascii) : string * string * bool :=
  match IndexByte s sep with Some i => (str_take i s, str_drop (i + 1) s, true) | None => (s, "", false) end.

Section render.
Context `{HyperShift, Fmt}.

(** A resource with its group, version and resource. The kind and API version of an
    object are its constructor's. *)
Inductive Rendered :=
| RNamespace (m : ObjectMeta)
| RConfigMap (m : ObjectMeta) (data : gmap string string)
| RSecret (m : ObjectMeta) (type : string) (data : gmap string string)
| RCertificate (m : ObjectMeta) (s : CertificateSpec)
| RExternalSecret (m : ObjectMeta) (s : ExternalSecretSpec)
| RHostedCluster (o : object KHostedCluster)
| RNodePool (o : object KHyperNodePool).

Record Resource := mkResource {
  r_Group : string;
  r_Version : string;
  r_Resource : string;
  r_Name : string;
  r_Namespace : string;
  r_Object : Rendered
}.

Definition HostedClusterName (cluster : object KCluster) : string :=
  let name := cl_HostedClusterName (spec cluster) in
  if negb (String.eqb name "") && negb (String.eqb name HostedClusterNamePending) then name else om_Name (meta cluster).

Definition managementClusterIdentity (cluster : object KCluster) : result string (string * string) :=
  if String.eqb (uid_of cluster) "" then Err ("cluster " +:+ om_Namespace (meta cluster) +:+ "/" +:+ om_Name (meta cluster) +:+ " has no database UID")
  else Ok (uid_of cluster, ManagementNamespace (uid_of cluster)).

Definition labelled (namespace name : string) (labels : gmap string string) : ObjectMeta := set_labels labels (named namespace name).

(** ** The resources around the HostedCluster (cluster.go) *)
Definition namespace_resource (clusterID ns : string) : Resource :=
  mkResource "" "v1" "namespaces" ns "" (RNamespace (labelled "" ns (<[managedByLabel := managedByOperator]> (clusterResourceLabels clusterID "namespace")))).

Definition clusterConfig (clusterID clusterName ns : string) : Resource :=
  mkResource "" "v1" "configmaps" "cluster-config" ns
    (RConfigMap (labelled ns "cluster-config" (clusterLabels clusterID)) {["cluster_id" := clusterID; "cluster_name" := clusterName]}).

Definition additionalTrustBundle (clusterID ns bundle : string) : Resource :=
  mkResource "" "v1" "configmaps" additionalTrustBundleName ns
    (RConfigMap (labelled ns additionalTrustBundleName {[clusterIDLabel := clusterID; resourceTypeLabel := "additional-trust-bundle"]})
       {["ca-bundle.crt" := bundle]}).

Definition pullSecret (clusterID ns : string) : Resource :=
  mkResource "external-secrets.io" "v1" "externalsecrets" "pull-secret" ns
    (RExternalSecret (labelled ns "pull-secret" (clusterResourceLabels clusterID "pull-secret"))
       (mkExternalSecretSpec "1h" "aws-parameter-store" "ClusterSecretStore" "pull-secret" "Orphan" "kubernetes.io/dockerconfigjson"
          [(".dockerconfigjson", "/infra/pull-secret")])).

Definition oidcSigningKeySecret (accountID oidcConfigID clusterID ns : string) : Resource :=
  mkResource "external-secrets.io" "v1" "externalsecrets" oidcSigningKeyName ns
    (RExternalSecret (labelled ns oidcSigningKeyName (clusterResourceLabels clusterID "oidc-signing-key"))
       (mkExternalSecretSpec "1h" "rc-secrets-manager" "ClusterSecretStore" oidcSigningKeyName "Owner" ""
          [("key", oidcSigningKeySecretStorePath accountID oidcConfigID)])).

Definition apiServingCert (clusterID hostedClusterName baseDomain ns : string) : Resource :=
  mkResource "cert-manager.io" "v1" "certificates" "api-serving-cert" ns
    (RCertificate (labelled ns "api-serving-cert" (clusterLabels clusterID))
       (mkCertificateSpec "api-serving-cert" "letsencrypt-dns01" "ClusterIssuer" ["*." +:+ hostedClusterName +:+ "." +:+ baseDomain])).

Definition sshKey (clusterID ns : string) : Resource :=
  mkResource "" "v1" "secrets" "ssh-key" ns (RSecret (labelled ns "ssh-key" (clusterLabels clusterID)) "Opaque" {["id_rsa.pub" := ""]}).

(** ** The HostedCluster *)
Definition Route : string := "Route".
Definition servicePublishingStrategies (hostedClusterName baseDomain : string) : list Publishing :=
  [mkPublishing "APIServer" Route (Some ("api." +:+ hostedClusterName +:+ "." +:+ baseDomain));
   mkPublishing "OAuthServer" Route (Some ("oauth." +:+ hostedClusterName +:+ "." +:+ baseDomain));
   mkPublishing "Konnectivity" Route None;
   mkPublishing "Ignition" Route None].

(** The names of the API server's serving certificates. *)
Definition apiServerConfiguration : list string := ["api-serving-cert"].
(** The storage of [defaultEtcdSpec]: size and class. *)
Definition defaultEtcdStorage : string * string := ("32Gi", "gp3").

Definition or_default (s d : string) : string := if String.eqb s "" then d else s.

Definition appendSystemTags (clusterID : string) (customerTags : gmap string string) : list (string * string) :=
  let tags := (("red-hat-managed", "true") :: if String.eqb clusterID "" then [] else [("kubernetes.io/cluster/" +:+ clusterID, "owned")]) in
  (tags ++ omap (fun key => if bool_decide (key ∈ tags.*1) then None else Some (key, map_get customerTags key))
             (merge_sort string_le (map_to_list customerTags).*1))%list.

Definition networking_defaults (n : Networking) : Networking :=
  mkNetworking (or_default (net_NetworkType n) "OVNKubernetes")
    (match net_ClusterNetwork n with [] => ["10.132.0.0/14"] | l => l end)
    (match net_ServiceNetwork n with [] => ["172.31.0.0/16"] | l => l end)
    (match net_MachineNetwork n with [] => ["10.0.0.0/16"] | l => l end).

(** The spec the operator asks for, over the customer's. *)
Definition hosted_spec (cluster : object KCluster) (clusterID hostedClusterName : string) (oidcSigningKeyExternal : bool) (baseDomain : string)
  (s : HostedClusterSpec) : HostedClusterSpec :=
  let etcd := String.eqb (hs_EtcdManagementType s) "" in
  mkHostedClusterSpec
    (if negb (String.eqb (cl_OidcConfigID (spec cluster)) "") && negb oidcSigningKeyExternal then path_Base (hs_IssuerURL s) else clusterID)
    (hs_IssuerURL s) baseDomain "" "" "pull-secret" "ssh-key" ("api." +:+ hostedClusterName +:+ "." +:+ baseDomain)
    (servicePublishingStrategies hostedClusterName baseDomain) apiServerConfiguration
    (match cl_AdditionalTrustBundle (cl_Rest (spec cluster)) with
     | None => hs_AdditionalTrustBundle s
     | Some bundle => if String.eqb bundle "" then None else Some additionalTrustBundleName
     end)
    (if etcd then "Managed" else hs_EtcdManagementType s) (if etcd then Some defaultEtcdStorage else hs_EtcdStorage s)
    (networking_defaults (hs_Networking s))
    (or_default (hs_InfrastructureAvailability s) "HighlyAvailable") (or_default (hs_ControllerAvailability s) "HighlyAvailable")
    ((fun aws => mkHostedAWS "PublicAndPrivate" (appendSystemTags clusterID (cl_Tags (spec cluster))) (aws_Rest aws)) <$> hs_AWS s)
    (if oidcSigningKeyExternal then Some oidcSigningKeyName else None)
    (hs_Rest s).

Definition PodSecurityAdmissionLabelOverrideAnnotation : string := "hypershift.openshift.io/pod-security-admission-label-override".
Definition CleanupCloudResourcesAnnotation : string := "hypershift.openshift.io/cleanup-cloud-resources".
Definition ControlPlaneOperatorImageAnnotation : string := "hypershift.openshift.io/control-plane-operator-image".

Definition hosted_annotations (controlPlaneOperatorImage : string) : gmap string string :=
  let annotations : gmap string string := {[PodSecurityAdmissionLabelOverrideAnnotation := "privileged"; CleanupCloudResourcesAnnotation := "true"]} in
  if String.eqb controlPlaneOperatorImage "" then annotations else <[ControlPlaneOperatorImageAnnotation := controlPlaneOperatorImage]> annotations.

Definition hostedCluster (cluster : object KCluster) (clusterID ns hostedClusterName : string) (oidcSigningKeyExternal : bool)
  (baseDomain controlPlaneOperatorImage : string) : result string Resource :=
  match toHostedClusterSpec (cl_HostedCluster (spec cluster)) (cl_Rest (spec cluster)) with
  | Err e => Err ("converting HostedClusterSpec for cluster " +:+ ns +:+ "/" +:+ om_Name (meta cluster) +:+ ": " +:+ e)
  | Ok s =>
      Ok (mkResource "hypershift.openshift.io" "v1beta1" "hostedclusters" hostedClusterName ns
            (RHostedCluster (mkObj KHostedCluster
               (set_annotations (hosted_annotations controlPlaneOperatorImage) (labelled ns hostedClusterName (clusterLabels clusterID)))
               (hosted_spec cluster clusterID hostedClusterName oidcSigningKeyExternal baseDomain s) tt)))
  end.

Definition ClusterResources (cluster : object KCluster) (oidcSigningKeyExternal : bool) (baseDomain controlPlaneOperatorImage : string) : result string (list Resource) :=
  match managementClusterIdentity cluster with
  | Err e => Err e
  | Ok (clusterID, ns) =>
      let hostedClusterName := HostedClusterName cluster in
      if String.eqb hostedClusterName ""
      then Err ("cluster " +:+ om_Namespace (meta cluster) +:+ "/" +:+ om_Name (meta cluster) +:+ " has no valid HostedCluster name")
      else
        match hostedCluster cluster clusterID ns hostedClusterName oidcSigningKeyExternal baseDomain controlPlaneOperatorImage with
        | Err e => Err e
        | Ok hc =>
            Ok ([namespace_resource clusterID ns; clusterConfig clusterID (om_Name (meta cluster)) ns; pullSecret clusterID ns;
                 apiServingCert clusterID hostedClusterName baseDomain ns; hc; sshKey clusterID ns]
                ++ match cl_AdditionalTrustBundle (cl_Rest (spec cluster)) with
                   | Some bundle => [additionalTrustBundle clusterID ns bundle]
                   | None => []
                   end
                ++ if oidcSigningKeyExternal
                   then [oidcSigningKeySecret (cl_AccountID (spec cluster)) (cl_OidcConfigID (spec cluster)) clusterID ns] else [])%list
        end
  end.

(** ** NodePools (nodepool.go) *)
Definition defaultRootVolumeSizeGiB : Z := 300.
Definition ec2InstanceMetadataHttpTokensAnnotation : string := "hypershift.openshift.io/ec2-instance-metadata-http-tokens".
Definition UpgradeTypeReplace : string := "Replace".
Definition UpgradeTypeInPlace : string := "InPlace".
Definition UpgradeStrategyRollingUpdate : string := "RollingUpdate".

Definition mergeNodePoolTags (clusterTags nodePoolTags : gmap string string) : gmap string string := nodePoolTags ∪ clusterTags.

Definition over {A} (new old : option A) : option A := match new with Some _ => new | None => old end.

Definition applyUpgradeBudget (m : Management) (maxUnavailable maxSurge : option IntOrString) : Management :=
  if String.eqb (mg_UpgradeType m) UpgradeTypeInPlace then
    match maxUnavailable with
    | None => m
    | Some _ => mkManagement (mg_UpgradeType m) (mg_AutoRepair m) (mg_Replace m) (Some maxUnavailable)
    end
  else match maxUnavailable, maxSurge with
  | None, None => m
  | _, _ =>
      let replace := default (mkReplace "" None) (mg_Replace m) in
      let strategy := or_default (rep_Strategy replace) UpgradeStrategyRollingUpdate in
      let rolling :=
        if String.eqb strategy UpgradeStrategyRollingUpdate then
          let ru := default (mkRollingUpdate None None) (rep_RollingUpdate replace) in
          Some (mkRollingUpdate (over maxUnavailable (ru_MaxUnavailable ru)) (over maxSurge (ru_MaxSurge ru)))
        else rep_RollingUpdate replace in
      mkManagement (mg_UpgradeType m) (mg_AutoRepair m) (Some (mkReplace strategy rolling)) (mg_InPlace m)
  end.

Definition volume_defaults (v : option Volume) : Volume :=
  match v with
  | None => mkVolume defaultRootVolumeSizeGiB "gp3" (Some true)
  | Some v => mkVolume (if (vol_Size v =? 0)%Z then defaultRootVolumeSizeGiB else vol_Size v) (or_default (vol_Type v) "gp3") (over (vol_Encrypted v) (Some true))
  end.

Definition pool_spec (nodePool : object KNodePool) (cluster : object KCluster) (s : HyperNodePoolSpec) : HyperNodePoolSpec :=
  let p := spec nodePool in
  let mg := hp_Management s in
  let managed := mkManagement (or_default (mg_UpgradeType mg) UpgradeTypeReplace) (default true (np_TopAutoRepair p)) (mg_Replace mg) (mg_InPlace mg) in
  mkHyperNodePoolSpec (HostedClusterName cluster)
    (or_default (hp_ReleaseImage s) (Release_Image (hc_Release (cl_HostedCluster (spec cluster)))))
    (applyUpgradeBudget managed (np_MaxUnavailable (np_Rest p)) (np_MaxSurge (np_Rest p)))
    (np_Labels p)
    (match hp_Replicas s, hp_AutoScaling s with None, None => Some 2%Z | r, _ => r end)
    (hp_AutoScaling s)
    ((fun aws => mkPoolAWS (or_default (pa_InstanceType aws) "t3a.xlarge") (Some (volume_defaults (pa_RootVolume aws)))
                   (appendSystemTags "" (mergeNodePoolTags (cl_Tags (spec cluster)) (np_Tags p)))) <$> hp_AWS s)
    (hp_Rest s).

Definition NodePoolResource (nodePool : object KNodePool) (cluster : object KCluster) : result string Resource :=
  match managementClusterIdentity cluster with
  | Err e => Err e
  | Ok (clusterID, ns) =>
      if String.eqb (HostedClusterName cluster) ""
      then Err ("parent Cluster " +:+ om_Namespace (meta cluster) +:+ "/" +:+ om_Name (meta cluster) +:+ " has no valid HostedCluster name")
      else
        let '(parentName, npName, ok) := Cut (om_Name (meta nodePool)) "." in
        if negb ok || negb (String.eqb parentName (om_Name (meta cluster))) || String.eqb npName "" || negb (str_free "." npName)
        then Err ("NodePool name " +:+ Quote (om_Name (meta nodePool)) +:+ " must be <cluster>.<child> for parent Cluster " +:+ Quote (om_Name (meta cluster)))
        else
          match toNodePoolSpec (np_NodePool (spec nodePool)) (np_Rest (spec nodePool)) with
          | Err e => Err ("converting NodePoolSpec for nodepool " +:+ ns +:+ "/" +:+ npName +:+ ": " +:+ e)
          | Ok s =>
              let tokens := np_HttpTokens (spec nodePool) in
              let annotations : gmap string string := if String.eqb tokens "" then ∅ else {[ec2InstanceMetadataHttpTokensAnnotation := tokens]} in
              Ok (mkResource "hypershift.openshift.io" "v1beta1" "nodepools" npName ns
                    (RNodePool (mkObj KHyperNodePool (set_annotations annotations (labelled ns npName (clusterLabels clusterID))) (pool_spec nodePool cluster s) tt)))
          end
  end.
End render.
