(* ===== verification/DesireSets.v ===== *)
(** * The desires of rendered resources

    How the Cluster and NodePool controllers turn rendered resources into desires
    (cluster_controller.go, nodepool_controller.go): the document of a resource, the
    desires that apply, delete and read it, and the goroutines that write them. *)
From S2P Require Import Prelude GoStrings Json Convert StateM HttpApi ApiTypes KubeClient ApiClient Claims Controllers Goroutines Desires Render.
From stdpp Require Import base gmap strings list relations.
From Stdlib Require Import ZArith Lia String.
Open Scope string_scope.

Definition taskKey : string := "seaplane-operator".
Definition readTaskKey : string := taskKey +:+ "-read".

(** [json.Marshal] of a rendered object. *)
Class MarshalResource `{Passthrough} := { json_Marshal : Rendered → result string string }.

(** The event router is part of the operator's state. *)
Class Routing `{KubeClient} := { router : World → EventRouter.index; set_router : EventRouter.index → World → World }.

Section desires.
Context `{DesireClient, !HyperShift, !DocumentIDs, !MarshalResource, !Routing, !Scheduler World}.

Definition document_of (task : string) (m : Resource) : string :=
  NewDocumentID task (r_Group m) (r_Version m) (r_Resource m) (r_Namespace m) (r_Name m).
Definition reference_to (m : Resource) : ResourceReference := mkReference (r_Group m) (r_Version m) (r_Resource m) (r_Namespace m) (r_Name m).

Definition apply_desire (mc clusterID : string) (m : Resource) (content : string) : ApplyDesireSpec :=
  mkApplySpec ServerSideApply mc clusterID (reference_to m) (Some content).
Definition delete_desire (mc clusterID : string) (m : Resource) : ApplyDesireSpec := mkApplySpec DeleteType mc clusterID (reference_to m) None.
Definition read_desire (mc clusterID : string) (ref : ResourceReference) : ReadDesireSpec := mkReadSpec mc clusterID ref.

Definition entry_of (docID : string) (m : Resource) (updateTime : Z) : DesireStatusEntry := mkEntry docID (r_Resource m) (r_Name m) updateTime.

(** [if r.EventRouter != nil { r.EventRouter.Register(...) }] *)
Definition Register (target : option EventRouter.EventTarget) (docID : string) : St World unit := fun w =>
  match target with
  | Some target => (set_router (EventRouter.Register docID target (router w)) w, tt)
  | None => (w, tt)
  end.

(** One goroutine per resource. *)
Definition apply_job (mc clusterID : string) (target : option EventRouter.EventTarget) (m : Resource) : St World (result kerr (option DesireStatusEntry)) :=
  let docID := document_of taskKey m in
  match json_Marshal (r_Object m) with
  | Err e => mret (Err (errorf ("marshal resource " +:+ r_Name m +:+ ": " +:+ e)))
  | Ok content =>
      r ← UpsertApplyDesire (SpecsPrefix mc) docID (apply_desire mc clusterID m content);
      match r with
      | Err e => mret (Err (errorf ("upsert apply desire " +:+ r_Name m +:+ ": " +:+ derr_text e)))
      | Ok u => _ ← Register target docID; mret (Ok (Some (entry_of docID m (ur_UpdateTime u))))
      end
  end.

Definition read_job (mc clusterID : string) (target : option EventRouter.EventTarget) (docID : string) (ref : ResourceReference) :
  St World (result kerr (option DesireStatusEntry)) :=
  r ← UpsertReadDesire (SpecsPrefix mc) docID (read_desire mc clusterID ref);
  match r with
  | Err e => mret (Err (errorf ("upsert read desire: " +:+ derr_text e)))
  | Ok _ => _ ← Register target docID; mret (Ok None)
  end.

Definition delete_job (mc clusterID : string) (m : Resource) : St World (result kerr (option DesireStatusEntry)) :=
  let docID := document_of taskKey m in
  r ← UpsertApplyDesire (SpecsPrefix mc) docID (delete_desire mc clusterID m);
  mret match r with
       | Err e => Err (errorf ("upsert delete desire for " +:+ r_Name m +:+ ": " +:+ derr_text e))
       | Ok u => Ok (Some (entry_of docID m (ur_UpdateTime u)))
       end.

(** The entries, or the first error in the order of the resources. *)
Fixpoint entries_of (results : list (result kerr (option DesireStatusEntry))) : result kerr (list DesireStatusEntry) :=
  match results with
  | [] => Ok []
  | Err e :: _ => Err e
  | Ok entry :: results =>
      match entries_of results with
      | Err e => Err e
      | Ok entries => Ok (match entry with Some x => x :: entries | None => entries end)
      end
  end.

(** The apply desires and the read desire at the same time; an error of the read desire
    is reported first. *)
Definition upsert_all (mc clusterID : string) (target : option EventRouter.EventTarget) (resources : list Resource)
  (readDocID : string) (ref : ResourceReference) : Call (list DesireStatusEntry) :=
  results ← go_all ((apply_job mc clusterID target <$> resources) ++ [read_job mc clusterID target readDocID ref])%list;
  mret match last results with
       | Some (Err e) => Err e
       | _ => entries_of (take (List.length resources) results)
       end.

Definition delete_all (mc clusterID : string) (resources : list Resource) : Call (list DesireStatusEntry) :=
  results ← go_all (delete_job mc clusterID <$> resources);
  mret (entries_of results).

(** Specs that are deleted one after the other, whatever fails; the first error is
    returned. *)
Fixpoint delete_specs (mc : string) (specs : list (string * string * string)) (failed : option kerr) : Call unit :=
  match specs with
  | [] => mret match failed with Some e => Err e | None => Ok tt end
  | (suffix, docID, what) :: specs =>
      r ← DeleteDesireSpec (SpecsPrefix mc) suffix docID;
      delete_specs mc specs
        match r, failed with
        | Err e, None => Some (errorf (what +:+ ": " +:+ derr_text e))
        | _, _ => failed
        end
  end.
End desires.

(** * Programs that write desires leave the store alone

    Reads of the store and everything done to the desires and the event router only let
    other sessions take steps. *)
From stdpp Require Import base gmap strings list relations.
From Stdlib Require Import ZArith Lia String.
Open Scope string_scope.

(** The router is outside the store. *)
Class RouterFrame `{Routing} : Prop := { state_router : ∀ i w, state (set_router i w) = state w }.

(** Neither desires nor routes change. *)
Definition quiet `{Routing, !DesireRows} (w w' : World) : Prop := same_rows w w' ∧ router w' = router w.

(** The parts of the operator's state are apart: the store's calls touch neither desires
    nor routes, and the calls on desires touch no routes. *)
Class StoresApart `{Routing, !DesireRows, !DesireClient} : Prop := {
  router_set : ∀ i w, router (set_router i w) = i;
  rows_set : ∀ i w, same_rows w (set_router i w);
  quiet_Get : ∀ k ns n, moves id quiet (kc_Get k ns n);
  quiet_List : ∀ k ns f, moves id quiet (kc_List k ns f);
  quiet_Create : ∀ k (o : object k), moves id quiet (kc_Create k o);
  quiet_Update : ∀ k (o : object k), moves id quiet (kc_Update k o);
  quiet_Status_Update : ∀ k (o : object k), moves id quiet (kc_Status_Update k o);
  quiet_GetApply : ∀ prefix doc, moves id quiet (GetApplyDesireStatus prefix doc);
  quiet_GetRead : ∀ prefix doc, moves id quiet (GetReadDesireStatus prefix doc);
  router_UpsertApply : ∀ prefix doc d w w' r, UpsertApplyDesire prefix doc d w = (w', r) → router w' = router w;
  router_UpsertRead : ∀ prefix doc d w w' r, UpsertReadDesire prefix doc d w = (w', r) → router w' = router w
}.

Section moves.
Context `{KubeClientLaws, ControllerLib, !DesireClient, !DesireRows, !DesireLaws, !HyperShift, !DocumentIDs, !DocumentIDLaws, !MarshalResource, !Routing, !RouterFrame, !Scheduler World}.

Lemma moves_or_fail {A B} what (m : Call A) (g : A → Call B) : moves state interfere m → (∀ a, moves state interfere (g a)) → moves state interfere (or_fail what m g).
Proof. intros Hm Hg. apply moves_bind; [done|]. intros [a|e]; [apply Hg|apply moves_ret]. Qed.
Lemma moves_and_then {A B} (m : Call A) (g : A → Call B) : moves state interfere m → (∀ a, moves state interfere (g a)) → moves state interfere (db.and_then m g).
Proof. intros Hm Hg. apply moves_bind; [done|]. intros [a|e]; [apply Hg|apply moves_ret]. Qed.
Lemma moves_Register target doc : moves state interfere (Register target doc).
Proof. intros w w' []. unfold Register. destruct target; intros [= <-]; rewrite ?state_router; done. Qed.

Lemma document_id task m : document (document_of task m).
Proof. apply uuid_text. Qed.
#[local] Hint Resolve document_id : core.

Lemma moves_apply_job mc cid target m : moves state interfere (apply_job mc cid target m).
Proof.
  unfold apply_job. destruct (json_Marshal _); [|apply moves_ret]. apply moves_bind; [by intros w w' res [? _]%UpsertApply_law|].
  intros [x|e]; [|apply moves_ret]. apply moves_bind; [apply moves_Register|]. intros []. apply moves_ret.
Qed.
Lemma moves_read_job mc cid target doc ref : document doc → moves state interfere (read_job mc cid target doc ref).
Proof.
  intros Hd. apply moves_bind; [by intros w w' res [? _]%UpsertRead_law|].
  intros [x|e]; [|apply moves_ret]. apply moves_bind; [apply moves_Register|]. intros []. apply moves_ret.
Qed.
Lemma moves_delete_job mc cid m : moves state interfere (delete_job mc cid m).
Proof. apply moves_bind; [by intros w w' res [? _]%UpsertApply_law|]. intros x. apply moves_ret. Qed.

Lemma moves_upsert_all mc cid target resources doc ref : document doc → moves state interfere (upsert_all mc cid target resources doc ref).
Proof.
  intros Hd. apply moves_bind; [|intros x; apply moves_ret]. apply moves_go_all. intros job [Hj|Hj]%elem_of_app.
  - apply list_elem_of_fmap in Hj as (m & -> & _). apply moves_apply_job.
  - apply list_elem_of_singleton in Hj as ->. by apply moves_read_job.
Qed.
Lemma moves_delete_all mc cid resources : moves state interfere (delete_all mc cid resources).
Proof.
  apply moves_bind; [|intros x; apply moves_ret]. apply moves_go_all. intros job (m & -> & _)%list_elem_of_fmap. apply moves_delete_job.
Qed.
Lemma moves_delete_specs mc specs failed : Forall (λ x, document x.1.2) specs → moves state interfere (delete_specs mc specs failed).
Proof.
  intros Hs. revert failed. induction Hs as [|[[suffix doc] what] specs Hd _ IH]; intros failed; [apply moves_ret|]. simpl.
  apply moves_bind; [by intros w w' res [? _]%DeleteSpec_law|]. intros x. apply IH.
Qed.
Lemma moves_check prefix entries g : moves state interfere (CheckApplyDesireStatuses prefix entries g).
Proof. intros w w' c Hc%check_reports. apply Hc. Qed.

(** ** What the goroutines wrote *)
Lemma entries_of_ok results entries : entries_of results = Ok entries → ∃ opts, results = Ok <$> opts ∧ entries = omap id opts.
Proof.
  revert entries. induction results as [|[x|e] results IH]; intros entries; simpl; [intros [= <-]; by exists []| |done].
  destruct (entries_of results) as [l|e]; [|done]. destruct (IH l eq_refl) as (opts & -> & ->). intros [= <-]. exists (x :: opts). by destruct x.
Qed.

(** Between the two worlds the goroutines of [delete_all] ran; the delete desire of every
    resource was upserted among them, and its entry has the time that was answered. *)
Definition delete_written (mc clusterID : string) (resources : list Resource) (w w' : World) (m : Resource) (e : DesireStatusEntry) : Prop :=
  ∃ x, within (delete_job mc clusterID <$> resources) w w'
         (UpsertApplyDesire (SpecsPrefix mc) (document_of taskKey m) (delete_desire mc clusterID m)) (Ok x) ∧
    e = entry_of (document_of taskKey m) m (ur_UpdateTime x).
Definition deletes_written (mc clusterID : string) (resources : list Resource) (entries : list DesireStatusEntry) (w w' : World) : Prop :=
  Forall2 (delete_written mc clusterID resources w w') resources entries.

Lemma Forall2_entries {A} (R : A → result kerr (option DesireStatusEntry) → Prop) (P : A → DesireStatusEntry → Prop) l opts :
  Forall2 R l (Ok <$> opts) → (∀ m o, R m (Ok o) → ∃ e, o = Some e ∧ P m e) → Forall2 P l (omap id opts).
Proof.
  intros HR HP. revert l HR. induction opts as [|o opts IH]; intros l HR; simpl in HR.
  - apply Forall2_nil_inv_r in HR as ->. constructor.
  - apply Forall2_cons_inv_r in HR as (m & l' & Hm & HR & ->). destruct (HP m o Hm) as (e & -> & He). simpl. constructor; [done|by apply IH].
Qed.

Lemma delete_all_written mc cid resources w w' entries : delete_all mc cid resources w = (w', Ok entries) → deletes_written mc cid resources entries w w'.
Proof.
  unfold delete_all. intros (w1 & results & Hg & Hr)%St_bind_inv. apply St_ret_inv in Hr as [-> Hr]. symmetry in Hr. apply entries_of_ok in Hr as (opts & -> & ->).
  apply go_all_within in Hg. unfold deletes_written. set (P := delete_written mc cid resources w w1).
  assert (Hjob : ∀ m o, within (delete_job mc cid <$> resources) w w1 (delete_job mc cid m) (Ok o) → ∃ e, o = Some e ∧ P m e).
  { intros m o (s1 & s2 & H1' & (w2 & x & Hx & Hr)%St_bind_inv & H2'). apply St_ret_inv in Hr as [-> Hr]. destruct x as [x|]; [|done]. injection Hr as ->.
    eexists. split; [done|]. exists x. split; [by exists s1, w2|done]. }
  apply (Forall2_fmap_l (delete_job mc cid)) in Hg. eapply Forall2_entries; [exact Hg|]. intros m o Hm. by apply Hjob.
Qed.

(** Between the two worlds the report on every entry was read, and confirms it. *)
Definition report_confirms (prefix : string) (entries : list DesireStatusEntry) (w w' : World) (e : DesireStatusEntry) : Prop :=
  ∃ st, within ((fun e => GetApplyDesireStatus prefix (en_DocID e)) <$> entries) w w' (GetApplyDesireStatus prefix (en_DocID e)) (Ok st) ∧ confirmed e st.
Definition all_confirmed (prefix : string) (entries : list DesireStatusEntry) (w w' : World) : Prop := Forall (report_confirms prefix entries w w') entries.

(** A condition that is True. *)
Lemma check_confirmed prefix entries g w w' c : CheckApplyDesireStatuses prefix entries g w = (w', c) → cond_Status c = ConditionTrue → all_confirmed prefix entries w w'.
Proof.
  unfold CheckApplyDesireStatuses. intros (w1 & reports & Hg%go_all_within & [-> ->]%St_ret_inv)%St_bind_inv Hs%synced_true. unfold all_confirmed, report_confirms.
  revert Hg. generalize ((fun e => GetApplyDesireStatus prefix (en_DocID e)) <$> entries) at 1 3. intros jobs Hg. apply (Forall2_fmap_l (fun e => GetApplyDesireStatus prefix (en_DocID e))) in Hg.
  apply Forall_verdicts in Hs; [|by eapply Forall2_length]. clear -Hg Hs. revert Hs. induction Hg as [|e rep l reps He _ IH]; intros Hs; [constructor|].
  apply Forall2_cons in Hs as [(st & -> & Hc) Hs]. constructor; [by exists st|by apply IH].
Qed.

(** ** What a reconcile leaves in the tables *)
Context {SA : StoresApart}.

Definition apply_table (mc : string) : string := SpecsPrefix mc +:+ TableSuffixApplyDesires.
Definition read_table (mc : string) : string := SpecsPrefix mc +:+ TableSuffixReadDesires.

Lemma tables_differ mc : apply_table mc ≠ read_table mc.
Proof.
  unfold apply_table, read_table. generalize (SpecsPrefix mc). intros s. induction s as [|a s IH]; [done|]. intros [= E]. by apply IH.
Qed.

Definition routed (target : option EventRouter.EventTarget) (doc : string) (w : World) : Prop := ∀ t, target = Some t → EventRouter.Lookup doc (router w) = Some t.

(** The resource's apply desire is in its table, with the rendered object as content, when
    its row was trusted at the start. *)
Definition apply_stored (mc cid : string) (target : option EventRouter.EventTarget) (w0 w : World) (m : Resource) (e : DesireStatusEntry) : Prop :=
  ∃ content, json_Marshal (r_Object m) = Ok content ∧ e = entry_of (document_of taskKey m) m (en_DesireUpdateTime e) ∧
    (trusted w0 (apply_table mc) (document_of taskKey m) →
     stored w (apply_table mc) (document_of taskKey m) (ApplyOf (apply_desire mc cid m content)) (en_DesireUpdateTime e)) ∧
    routed target (document_of taskKey m) w.
Definition read_stored (mc cid : string) (target : option EventRouter.EventTarget) (doc : string) (ref : ResourceReference) (w0 w : World) : Prop :=
  (trusted w0 (read_table mc) doc → ∃ t, stored w (read_table mc) doc (ReadOf (read_desire mc cid ref)) t) ∧ routed target doc w.

(** A change of one row and of one route. *)
Definition changes (table doc : string) (w w' : World) : Prop := other_rows table doc w w' ∧ ∀ doc', doc' ≠ doc → router w' !! doc' = router w !! doc'.

Lemma same_other table doc w1 w2 w3 : other_rows table doc w1 w2 → same_rows w2 w3 → other_rows table doc w1 w3.
Proof. intros Ho Hs t d Hd Hne. eapply row_kept_trans; [by apply Ho|apply Hs]. Qed.

Lemma register_step target doc w w' : Register target doc w = (w', tt) → same_rows w w' ∧ routed target doc w' ∧ ∀ doc', doc' ≠ doc → router w' !! doc' = router w !! doc'.
Proof.
  unfold Register. destruct target as [t|]; intros [= <-]; [|by split_and!].
  rewrite router_set. split_and!; [apply rows_set| |].
  - intros t' [= <-]. rewrite router_set. unfold EventRouter.Lookup, EventRouter.Register, EventRouter.index. by rewrite lookup_insert_eq.
  - intros doc' Hne. unfold EventRouter.Register, EventRouter.index. by rewrite lookup_insert_ne.
Qed.

(** [w0] is the world in which the rows were trusted. *)
Definition still_trusted (w0 : World) (table doc : string) (w : World) : Prop := trusted w0 table doc → trusted w table doc.
Lemma still_trusted_kept w0 table doc w w' : row_kept w w' table doc → still_trusted w0 table doc w → still_trusted w0 table doc w'.
Proof. intros (_ & _ & Ht) Hs Hw. by apply Ht, Hs. Qed.

Lemma apply_job_spec mc cid target m w0 w w' a : apply_job mc cid target m w = (w', a) →
  changes (apply_table mc) (document_of taskKey m) w w' ∧
  (still_trusted w0 (apply_table mc) (document_of taskKey m) w → ∀ o, a = Ok o → ∃ e, o = Some e ∧ apply_stored mc cid target w0 w' m e).
Proof.
  unfold apply_job. cbv zeta. destruct (json_Marshal (r_Object m)) as [content|e] eqn:Ej; [|by intros [-> ->]%St_ret_inv].
  intros (w1 & x & Hx & Hr)%St_bind_inv. pose proof (router_UpsertApply _ _ _ _ _ _ Hx) as Hrt.
  apply UpsertApply_law in Hx as (_ & Ho & Hst); [|apply document_id]. destruct x as [x|e].
  - apply St_bind_inv in Hr as (w2 & [] & Hreg & Hr). apply St_ret_inv in Hr as [-> ->]. apply register_step in Hreg as (Hs & Hrd & Hother). split; [split|].
    + by eapply same_other.
    + intros doc' Hne. by rewrite Hother, Hrt.
    + intros Htr o [= <-]. eexists. split; [done|]. exists content. split_and!; [done..| |done]. intros Ht. by apply Hs, Hst; [apply Htr|].
  - apply St_ret_inv in Hr as [-> ->]. split; [split; [done|by rewrite Hrt]|done].
Qed.

Lemma read_job_spec mc cid target doc ref w0 w w' a : document doc → read_job mc cid target doc ref w = (w', a) →
  changes (read_table mc) doc w w' ∧ (still_trusted w0 (read_table mc) doc w → ∀ o, a = Ok o → o = None ∧ read_stored mc cid target doc ref w0 w').
Proof.
  intros Hd. unfold read_job. intros (w1 & x & Hx & Hr)%St_bind_inv. pose proof (router_UpsertRead _ _ _ _ _ _ Hx) as Hrt.
  apply UpsertRead_law in Hx as (_ & Ho & Hst); [|done]. destruct x as [x|e].
  - apply St_bind_inv in Hr as (w2 & [] & Hreg & Hr). apply St_ret_inv in Hr as [-> ->]. apply register_step in Hreg as (Hs & Hrd & Hother). split; [split|].
    + by eapply same_other.
    + intros doc' Hne. by rewrite Hother, Hrt.
    + intros Htr o [= <-]. split; [done|]. split; [|done]. intros Ht. eexists. by apply Hs, Hst; [apply Htr|].
  - apply St_ret_inv in Hr as [-> ->]. split; [split; [done|by rewrite Hrt]|done].
Qed.

Lemma apply_stored_kept mc cid target m e table doc w0 w w' : (apply_table mc, document_of taskKey m) ≠ (table, doc) → document_of taskKey m ≠ doc →
  changes table doc w w' → apply_stored mc cid target w0 w m e → apply_stored mc cid target w0 w' m e.
Proof.
  intros Hne Hd [Ho Hr] (content & Hj & He & Hs & Hrt). exists content. split_and!; [done..| |].
  - intros Ht. apply (Ho _ _ (document_id taskKey m) Hne). by apply Hs.
  - intros t Ht. unfold EventRouter.Lookup. rewrite Hr by done. by apply Hrt.
Qed.
Lemma read_stored_kept mc cid target rdoc ref table doc w0 w w' : document rdoc → (read_table mc, rdoc) ≠ (table, doc) → rdoc ≠ doc →
  changes table doc w w' → read_stored mc cid target rdoc ref w0 w → read_stored mc cid target rdoc ref w0 w'.
Proof.
  intros Hdoc Hne Hd [Ho Hr] [Hs Hrt]. split.
  - intros Ht. destruct (Hs Ht) as (t & Hst). exists t. by apply (Ho _ _ Hdoc Hne).
  - intros t' Ht. unfold EventRouter.Lookup. rewrite Hr by done. by apply Hrt.
Qed.

(** ** All of them together *)
Section upserts.
Context (mc cid : string) (target : option EventRouter.EventTarget) (resources : list Resource) (doc : string) (ref : ResourceReference) (w0 : World).
Context (doc_id : document doc) (distinct : NoDup (document_of taskKey <$> resources)) (read_apart : doc ∉ document_of taskKey <$> resources).

(** What the [i]-th goroutine needs and establishes. *)
Definition needs (i : nat) (w : World) : Prop :=
  match resources !! i with
  | Some m => still_trusted w0 (apply_table mc) (document_of taskKey m) w
  | None => still_trusted w0 (read_table mc) doc w
  end.
Definition established (i : nat) (a : result kerr (option DesireStatusEntry)) (w : World) : Prop :=
  match resources !! i with
  | Some m => ∀ o, a = Ok o → ∃ e, o = Some e ∧ apply_stored mc cid target w0 w m e
  | None => ∀ o, a = Ok o → o = None ∧ read_stored mc cid target doc ref w0 w
  end.

Lemma document_of_at i m : resources !! i = Some m → document_of taskKey m ∈ document_of taskKey <$> resources.
Proof. intros Hi. apply list_elem_of_fmap. exists m. split; [done|]. by eapply list_elem_of_lookup_2. Qed.

Lemma others_apply i j m w w' : resources !! i = Some m → j ≠ i → changes (apply_table mc) (document_of taskKey m) w w' →
  (needs j w → needs j w') ∧ ∀ b, established j b w → established j b w'.
Proof.
  intros Em Hj Hch. unfold needs, established. destruct (resources !! j) as [m'|] eqn:Em'.
  - assert (document_of taskKey m' ≠ document_of taskKey m) as Hne.
    { intros E. apply Hj. eapply (NoDup_lookup (document_of taskKey <$> resources)); [done|..]; rewrite list_lookup_fmap; [by rewrite Em'|by rewrite Em, E]. }
    assert (Hpair : (apply_table mc, document_of taskKey m') ≠ (apply_table mc, document_of taskKey m)) by (by intros [= ]).
    split; [by apply still_trusted_kept, Hch; [apply document_id|]|].
    intros b Hb o Ho. destruct (Hb o Ho) as (e & -> & Hst). exists e. split; [done|]. by eapply apply_stored_kept.
  - assert (Hpair : (read_table mc, doc) ≠ (apply_table mc, document_of taskKey m)) by (intros [= E _]; by apply (tables_differ mc)).
    split; [by apply still_trusted_kept, Hch|].
    intros b Hb o Ho. destruct (Hb o Ho) as [-> Hst]. split; [done|]. eapply read_stored_kept; [done|exact Hpair| |exact Hch|done].
    intros E. apply read_apart. rewrite E. by eapply document_of_at.
Qed.

Lemma others_read j m w w' : resources !! j = Some m → changes (read_table mc) doc w w' → (needs j w → needs j w') ∧ ∀ b, established j b w → established j b w'.
Proof.
  intros Em Hch. unfold needs, established. rewrite Em.
  assert (Hpair : (apply_table mc, document_of taskKey m) ≠ (read_table mc, doc)) by (intros [= E _]; by apply (tables_differ mc)).
  split; [by apply still_trusted_kept, Hch; [apply document_id|]|].
  intros b Hb o Ho. destruct (Hb o Ho) as (e & -> & Hst). exists e. split; [done|]. eapply apply_stored_kept; [exact Hpair| |exact Hch|done].
  intros E. apply read_apart. rewrite <- E. by eapply document_of_at.
Qed.

Lemma jobs_establish i job w w' a :
  ((apply_job mc cid target <$> resources) ++ [read_job mc cid target doc ref])%list !! i = Some job → needs i w → job w = (w', a) →
  established i a w' ∧ ∀ j, j ≠ i → (j < List.length ((apply_job mc cid target <$> resources) ++ [read_job mc cid target doc ref]))%nat →
    (needs j w → needs j w') ∧ ∀ b, established j b w → established j b w'.
Proof.
  rewrite length_app, length_fmap. intros Hi Hn Ej. apply lookup_app_Some in Hi as [Hi|[Hge Hi]].
  - rewrite list_lookup_fmap in Hi. destruct (resources !! i) as [m|] eqn:Em; [|done]. injection Hi as <-. apply (apply_job_spec _ _ _ _ w0) in Ej as [Hch Ha].
    unfold needs in Hn. rewrite Em in Hn. split; [unfold established; rewrite Em; by apply Ha|]. intros j Hj _. by eapply others_apply.
  - rewrite length_fmap in Hge, Hi. apply list_lookup_singleton_Some in Hi as [Hi <-]. apply (read_job_spec _ _ _ _ _ w0) in Ej as [Hch Ha]; [|done].
    unfold needs in Hn. rewrite lookup_ge_None_2 in Hn by done.
    split; [unfold established; rewrite lookup_ge_None_2 by done; by apply Ha|]. intros j Hj Hlt. simpl in Hlt.
    destruct (lookup_lt_is_Some_2 resources j) as [m Em]; [lia|]. by eapply others_read.
Qed.

Lemma upsert_all_stored w w' entries : same_rows w0 w → upsert_all mc cid target resources doc ref w = (w', Ok entries) →
  Forall2 (apply_stored mc cid target w0 w') resources entries ∧ read_stored mc cid target doc ref w0 w'.
Proof.
  intros Hsame. unfold upsert_all. intros (w1 & results & Hg & Hr)%St_bind_inv. apply St_ret_inv in Hr as [-> Hr].
  destruct (go_all_keeps _ needs established jobs_establish w w1 results) as [Hlen HQ]; [|exact Hg|].
  { intros i _. unfold needs, still_trusted. destruct (resources !! i); apply Hsame. }
  rewrite length_app, length_fmap in Hlen. simpl in Hlen.
  assert (Hlast : last results = results !! List.length resources) by (rewrite last_lookup, Hlen, Nat.add_1_r; done).
  destruct (lookup_lt_is_Some_2 results (List.length resources)) as [lst El]; [lia|]. rewrite Hlast, El in Hr.
  destruct lst as [o|e]; [|done]. symmetry in Hr. apply entries_of_ok in Hr as (opts & Hopts & ->). split.
  - assert (Hlo : List.length opts = List.length resources).
    { rewrite <- (length_fmap (Ok (E := kerr)) opts), <- Hopts, length_take. lia. }
    assert (Hall : Forall2 (λ m o, ∃ e, o = Some e ∧ apply_stored mc cid target w0 w1 m e) resources opts).
    { apply Forall2_same_length_lookup_2; [done|]. intros i m o' Hm Ho'. assert (Hres : results !! i = Some (Ok o')).
      { rewrite <- (lookup_take_lt results (List.length resources)) by (by eapply lookup_lt_Some). rewrite Hopts, list_lookup_fmap, Ho'. done. }
      pose proof (HQ i _ Hres) as Hq. unfold established in Hq. rewrite Hm in Hq. by apply Hq. }
    clear -Hall. induction Hall as [|m o' l opts (e & -> & He) _ IH]; simpl; by constructor.
  - pose proof (HQ _ _ El) as Hq. unfold established in Hq. rewrite lookup_ge_None_2 in Hq by done. by apply (Hq o).
Qed.
End upserts.

(** ** Calls that leave desires and routes alone *)
#[export] Instance quiet_refl : Reflexive quiet.
Proof. intros w. by split. Qed.
#[export] Instance quiet_trans : Transitive quiet.
Proof.
  intros w1 w2 w3 [S1 R1] [S2 R2]. split; [|congruence]. intros t d. by eapply row_kept_trans.
Qed.

Lemma quiet_rtc w w' : rtc quiet w w' → quiet w w'.
Proof. induction 1; [reflexivity|by etrans]. Qed.

Lemma quiet_check prefix entries g : moves id quiet (CheckApplyDesireStatuses prefix entries g).
Proof.
  apply moves_bind; [|intros l; apply moves_ret]. apply moves_go_all. intros job (e & -> & _)%list_elem_of_fmap. apply quiet_GetApply.
Qed.

Lemma quiet_retry_status `{!Clock, Retry} k key missing change : moves id quiet (retry_status k key missing change).
Proof.
  apply moves_retry, moves_bind; [apply quiet_Get|]. intros [o|e]; [|apply moves_ret]. apply moves_bind; [intros w w' t [= <- <-]; reflexivity|].
  intros t. destruct (change t o); [|apply moves_ret]. apply moves_bind; [apply quiet_Status_Update|]. intros x. apply moves_ret.
Qed.

Lemma apply_stored_quiet mc cid target w0 w w' m e : quiet w w' → apply_stored mc cid target w0 w m e → apply_stored mc cid target w0 w' m e.
Proof. intros [Hs Hr] (content & Hj & He & Hst & Hrt). exists content. split_and!; [done..|intros Ht; by apply Hs, Hst|]. unfold routed. by rewrite Hr. Qed.
Lemma read_stored_quiet mc cid target doc ref w0 w w' : quiet w w' → read_stored mc cid target doc ref w0 w → read_stored mc cid target doc ref w0 w'.
Proof. intros [Hs Hr] [Hst Hrt]. split; [intros Ht; destruct (Hst Ht) as (t & ?); exists t; by apply Hs|]. unfold routed. by rewrite Hr. Qed.
End moves.
