(* ===== verification/RenderProps.v ===== *)
(** * What the rendered resources are

    Tags: the system's come first and cannot be overridden, the customer's follow, each
    once. The references the operator sets in a HostedCluster are to objects rendered
    beside it; those of the customer's configuration are passed on. Documents: the
    desires of different resources, and of different clusters, are different rows. *)
From S2P Require Import Prelude GoStrings Convert Authorizer StateM HttpApi ApiTypes KubeClient Controllers Goroutines Desires Render DesireSets.
From stdpp Require Import base gmap strings list sorting.
From Stdlib Require Import ZArith Lia Ascii String.
Open Scope string_scope.

(** ** Strings *)
Lemma Split_Join l c : l ≠ [] → Forall (fun s => str_free c s = true) l → Split (strings_Join l (String c "")) c = l.
Proof.
  induction l as [|s l IH]; [done|]. intros _ [Hs Hl]%Forall_cons. destruct l as [|t l]; [by apply Split_free|].
  change (strings_Join (s :: t :: l) (String c "")) with (s +:+ String c (strings_Join (t :: l) (String c ""))).
  rewrite Split_app by done. f_equal. by apply IH.
Qed.

Lemma document_input_inj t1 g1 v1 r1 s1 n1 t2 g2 v2 r2 s2 n2 :
  Forall (fun s => str_free "/" s = true) [t1; g1; v1; r1; s1; n1] → Forall (fun s => str_free "/" s = true) [t2; g2; v2; r2; s2; n2] →
  document_input t1 g1 v1 r1 s1 n1 = document_input t2 g2 v2 r2 s2 n2 → [t1; g1; v1; r1; s1; n1] = [t2; g2; v2; r2; s2; n2].
Proof. intros H1 H2 E. rewrite <- (Split_Join [t1; g1; v1; r1; s1; n1] "/"), <- (Split_Join [t2; g2; v2; r2; s2; n2] "/"); [|done..]. by f_equal. Qed.

(** ** Tags *)
Section tags.

#[local] Instance string_le_trans : Transitive string_le.
Proof. intros a b c. unfold string_le. intros H1%Is_true_true H2%Is_true_true. apply Is_true_true. exact (transitivity (R := strings.String.le) H1 H2). Qed.
#[local] Instance string_le_total : Total string_le.
Proof. intros a b. unfold string_le. destruct (total strings.String.le a b); [left|right]; by apply Is_true_true. Qed.

Definition system_tags (clusterID : string) : list (string * string) :=
  ("red-hat-managed", "true") :: if String.eqb clusterID "" then [] else [("kubernetes.io/cluster/" +:+ clusterID, "owned")].

Lemma customer_keys (tags : gmap string string) key : key ∈ merge_sort string_le (map_to_list tags).*1 ↔ is_Some (tags !! key).
Proof.
  rewrite (merge_sort_Permutation string_le), list_elem_of_fmap. split.
  - intros ([k v] & -> & Hin%elem_of_map_to_list). by exists v.
  - intros [v Hv]. exists (key, v). by rewrite elem_of_map_to_list.
Qed.

Lemma omap_keys_NoDup {A} (f : string → option (string * A)) l : (∀ k p, f k = Some p → p.1 = k) → NoDup l → NoDup (omap f l).*1.
Proof.
  intros Hf. induction 1 as [|k l Hk _ IH]; [constructor|]. simpl. destruct (f k) as [p|] eqn:E; [|done].
  simpl. constructor; [|done]. intros (q & Hq & Hin)%list_elem_of_fmap. apply list_elem_of_omap in Hin as (k' & Hk' & Eq).
  apply Hk. rewrite <- (Hf _ _ E), Hq, (Hf _ _ Eq). done.
Qed.

(** The tags of a resource have each key once. The system's tags come first, with
    the system's values; after them exactly the customer's tags whose keys are not the
    system's, ordered by key, so that rendering twice gives the same list. *)
Theorem system_tags_win clusterID customer :
  NoDup (appendSystemTags clusterID customer).*1 ∧
  ∃ rest, appendSystemTags clusterID customer = (system_tags clusterID ++ rest)%list ∧
    Sorted string_le rest.*1 ∧
    ∀ k v, (k, v) ∈ rest ↔ customer !! k = Some v ∧ k ∉ (system_tags clusterID).*1.
Proof.
  unfold appendSystemTags. fold (system_tags clusterID). set (sys := system_tags clusterID). cbv zeta.
  set (f := fun key => if bool_decide (key ∈ sys.*1) then None else Some (key, map_get customer key)).
  set (keys := merge_sort string_le (map_to_list customer).*1).
  assert (Hf : ∀ k p, f k = Some p → p.1 = k) by (intros k p; unfold f; case_bool_decide; naive_solver).
  assert (Hkeys : NoDup keys) by (unfold keys; rewrite (merge_sort_Permutation string_le); apply NoDup_fst_map_to_list).
  assert (Hin : ∀ k v, (k, v) ∈ omap f keys ↔ customer !! k = Some v ∧ k ∉ sys.*1).
  { intros k v. rewrite list_elem_of_omap. split.
    - intros (k' & Hk' & E). pose proof (Hf _ _ E) as <-. simpl in *. apply customer_keys in Hk' as [v' Hv']. revert E. unfold f.
      case_bool_decide; [done|]. intros [= <-]. unfold map_get. by rewrite Hv'.
    - intros [Hv Hn]. exists k. split; [apply customer_keys; by exists v|]. unfold f, map_get. rewrite bool_decide_false by done. by rewrite Hv. }
  split; [|exists (omap f keys); split_and!; [done| |done]].
  - rewrite fmap_app. apply NoDup_app. split_and!; [|intros k Hk ([k' v] & -> & Hr)%list_elem_of_fmap; by apply Hin in Hr as [_ ?]|by apply omap_keys_NoDup].
    unfold sys, system_tags. destruct (String.eqb clusterID ""); simpl; [apply NoDup_singleton|].
    apply NoDup_cons. split; [by intros ?%list_elem_of_singleton|apply NoDup_singleton].
  - assert (Hs : StronglySorted string_le keys).
    { apply (StronglySorted_merge_sort string_le). }
    clear Hin Hkeys. apply StronglySorted_Sorted. induction Hs as [|k l Hl IH Hle]; [constructor|]. simpl.
    destruct (f k) as [p|] eqn:E; [|done]. simpl. constructor; [done|]. apply Forall_forall. intros x (q & -> & Hq)%list_elem_of_fmap.
    apply list_elem_of_omap in Hq as (k' & Hk' & Eq). rewrite (Hf _ _ E), (Hf _ _ Eq). by eapply Forall_forall in Hle.
Qed.
End tags.

(** ** Identities *)
Section documents.
Context `{HyperShift, Fmt, !DocumentIDs, !DocumentIDLaws}.

Definition identity (m : Resource) : list string := [r_Group m; r_Version m; r_Resource m; r_Namespace m; r_Name m].
Definition plain (m : Resource) : Prop := Forall (fun s => str_free "/" s = true) (identity m).

(** A name without slashes. *)
Definition plain_cluster (cluster : object KCluster) : Prop := str_free "/" (uid_of cluster) = true ∧ str_free "/" (HostedClusterName cluster) = true.

(** The resources of a cluster: the namespace, and what is in it. *)
Definition of_cluster (u : string) (m : Resource) : Prop :=
  (r_Resource m = "namespaces" ∧ r_Namespace m = "" ∧ r_Name m = ManagementNamespace u) ∨
  (r_Resource m ≠ "namespaces" ∧ r_Namespace m = ManagementNamespace u).

Lemma ClusterResources_cases cluster external bd img resources : ClusterResources cluster external bd img = Ok resources →
  uid_of cluster ≠ "" ∧ ∃ s, toHostedClusterSpec (cl_HostedCluster (spec cluster)) (cl_Rest (spec cluster)) = Ok s ∧
  let u := uid_of cluster in let ns := ManagementNamespace u in let hc := HostedClusterName cluster in
  resources = ([namespace_resource u ns; clusterConfig u (om_Name (meta cluster)) ns; pullSecret u ns; apiServingCert u hc bd ns;
    mkResource "hypershift.openshift.io" "v1beta1" "hostedclusters" hc ns
      (RHostedCluster (mkObj KHostedCluster (set_annotations (hosted_annotations img) (labelled ns hc (clusterLabels u))) (hosted_spec cluster u hc external bd s) tt));
    sshKey u ns]
    ++ match cl_AdditionalTrustBundle (cl_Rest (spec cluster)) with Some bundle => [additionalTrustBundle u ns bundle] | None => [] end
    ++ if external then [oidcSigningKeySecret (cl_AccountID (spec cluster)) (cl_OidcConfigID (spec cluster)) u ns] else [])%list.
Proof.
  unfold ClusterResources, managementClusterIdentity, hostedCluster. destruct (String.eqb_spec (uid_of cluster) "") as [|Hu]; [done|].
  destruct (String.eqb (HostedClusterName cluster) ""); [done|]. destruct (toHostedClusterSpec _ _) as [s|e] eqn:Es; [|done].
  intros [= <-]. split; [done|]. by exists s.
Qed.

Lemma ClusterResources_identity cluster external bd img resources : ClusterResources cluster external bd img = Ok resources →
  NoDup (identity <$> resources) ∧ Forall (of_cluster (uid_of cluster)) resources ∧ Forall (λ m, r_Resource m ≠ "nodepools") resources ∧
  (plain_cluster cluster → Forall plain resources).
Proof.
  intros (_ & s & _ & ->)%ClusterResources_cases. cbv zeta.
  assert (Hns : plain_cluster cluster → str_free "/" (ManagementNamespace (uid_of cluster)) = true).
  { intros [Hu _]. unfold ManagementNamespace, str_free in *. by rewrite str_forall_app, Hu. }
  split_and!.
  - destruct (cl_AdditionalTrustBundle _), external; simpl;
      (repeat (apply NoDup_cons; split; [rewrite ?elem_of_cons, elem_of_nil; unfold identity, additionalTrustBundleName, oidcSigningKeyName; simpl; naive_solver|]); apply NoDup_nil_2).
  - destruct (cl_AdditionalTrustBundle _), external; simpl; repeat (apply Forall_cons; split; [unfold of_cluster; simpl; first [by left|by right]|]); apply Forall_nil_2.
  - destruct (cl_AdditionalTrustBundle _), external; simpl; repeat (apply Forall_cons; split; [done|]); apply Forall_nil_2.
  - intros Hp. specialize (Hns Hp). destruct Hp as [_ Hh].
    destruct (cl_AdditionalTrustBundle _), external; simpl; repeat (apply Forall_cons; split; [unfold plain, identity; simpl; by repeat constructor|]); apply Forall_nil_2.
Qed.

Lemma document_of_inj task m1 m2 : str_free "/" task = true → plain m1 → plain m2 → document_of task m1 = document_of task m2 → identity m1 = identity m2.
Proof.
  intros Ht Hm1 Hm2 E%uuid_inj. apply document_input_inj in E; [|apply Forall_cons; by split..]. injection E as E1 E2 E3 E4 E5. unfold identity. congruence.
Qed.

Lemma NoDup_documents task resources : str_free "/" task = true → Forall plain resources → NoDup (identity <$> resources) → NoDup (document_of task <$> resources).
Proof.
  intros Ht. induction resources as [|m l IH]; [constructor|]. rewrite !fmap_cons, !NoDup_cons, Forall_cons. intros [Hm Hl] [Hn Hd]. split; [|by apply IH].
  intros (m' & Em & Hin)%list_elem_of_fmap. apply Hn. apply list_elem_of_fmap. exists m'. split; [|done].
  eapply document_of_inj; [done..| |done]. by eapply Forall_forall in Hl.
Qed.

(** ** Isolation *)
Lemma ManagementNamespace_inj u1 u2 : ManagementNamespace u1 = ManagementNamespace u2 → u1 = u2.
Proof. unfold ManagementNamespace. intros [= E]. exact E. Qed.

(** What the operator renders for a cluster: its resources and those of its node pools. *)
Inductive rendered_for (cluster : object KCluster) : Resource → Prop :=
| rendered_cluster external bd img resources m : ClusterResources cluster external bd img = Ok resources → m ∈ resources → rendered_for cluster m
| rendered_pool nodePool m : NodePoolResource nodePool cluster = Ok m → str_free "/" (om_Name (meta nodePool)) = true → rendered_for cluster m.

Lemma str_free_drop c n s : str_free c s = true → str_free c (str_drop n s) = true.
Proof.
  revert s. induction n as [|n IH]; intros s Hs; [done|]. destruct s as [|a s]; [done|]. simpl. apply IH. unfold str_free in *. simpl in Hs.
  by apply andb_true_iff in Hs as [_ ?].
Qed.

Lemma IndexByte_split s c i : IndexByte s c = Some i → s = str_take i s +:+ String c (str_drop (i + 1) s).
Proof.
  revert i. induction s as [|a s IH]; intros i; simpl; [done|]. destruct (Ascii.eqb_spec a c) as [->|Hne]; [by intros [= <-]|].
  destruct (IndexByte s c) as [j|] eqn:Ej; [|done]. intros [= <-]. change (String a s = String a (str_take j s +:+ String c (str_drop (j + 1) s))). by rewrite <- IH.
Qed.

Lemma NodePoolResource_identity nodePool cluster m : NodePoolResource nodePool cluster = Ok m →
  r_Group m = "hypershift.openshift.io" ∧ r_Version m = "v1beta1" ∧ r_Resource m = "nodepools" ∧ r_Namespace m = ManagementNamespace (uid_of cluster) ∧
  om_Name (meta nodePool) = om_Name (meta cluster) +:+ "." +:+ r_Name m ∧ str_free "." (r_Name m) = true ∧ r_Name m ≠ "".
Proof.
  unfold NodePoolResource, managementClusterIdentity. destruct (String.eqb (uid_of cluster) ""); [done|]. destruct (String.eqb (HostedClusterName cluster) ""); [done|].
  destruct (Cut (om_Name (meta nodePool)) ".") as [[parent np] ok] eqn:Ec. destruct (_ || _) eqn:Eg; [done|]. destruct (toNodePoolSpec _ _); [|done].
  intros [= <-]. simpl. rewrite !orb_false_iff in Eg. destruct Eg as [[[Eok%negb_false_iff Ep%negb_false_iff%String.eqb_eq] En%String.eqb_neq] Ef%negb_false_iff].
  split_and!; try done. subst ok. unfold Cut in Ec. destruct (IndexByte (om_Name (meta nodePool)) ".") as [i|] eqn:Ei; [|done]. injection Ec as E1 E2.
  rewrite <- Ep, <- E1, <- E2. by apply IndexByte_split.
Qed.

Lemma rendered_plain cluster m : plain_cluster cluster → rendered_for cluster m → plain m ∧ of_cluster (uid_of cluster) m.
Proof.
  intros Hp. destruct 1 as [external bd img resources m Hr Hin|nodePool m Hr Hn].
  - apply ClusterResources_identity in Hr as (_ & Hof & _ & Hplain). specialize (Hplain Hp). split; [exact (proj1 (Forall_forall _ _) Hplain m Hin)|exact (proj1 (Forall_forall _ _) Hof m Hin)].
  - apply NodePoolResource_identity in Hr as (Hg & Hv & Hres & Hns & Hname & _). split; [|right; by rewrite Hres].
    unfold plain, identity. rewrite Hg, Hv, Hres, Hns. repeat constructor.
    + unfold ManagementNamespace, str_free. rewrite str_forall_app. apply Hp.
    + rewrite Hname in Hn. unfold str_free in *. rewrite !str_forall_app, !andb_true_iff in Hn. apply Hn.
Qed.

(** Desires do not collide: when a resource rendered for one cluster (its own or one
    of its node pools) and a resource rendered for another get the same document, they
    are for the same cluster and have the same group, version, resource, namespace and
    name. So no controller ever overwrites, deletes or waits for another cluster's row. *)
Theorem documents_isolated c1 c2 m1 m2 : plain_cluster c1 → plain_cluster c2 → rendered_for c1 m1 → rendered_for c2 m2 →
  document_of taskKey m1 = document_of taskKey m2 → uid_of c1 = uid_of c2 ∧ identity m1 = identity m2.
Proof.
  intros P1 P2 R1 R2 E. destruct (rendered_plain _ _ P1 R1) as [Q1 O1], (rendered_plain _ _ P2 R2) as [Q2 O2].
  assert (identity m1 = identity m2) as Hid by (by eapply (document_of_inj taskKey)). split; [|done]. injection Hid as _ _ Hres Hns Hn.
  apply ManagementNamespace_inj. destruct O1 as [(A1 & _ & B1)|[A1 B1]], O2 as [(A2 & _ & B2)|[A2 B2]]; congruence.
Qed.

(** ** References *)

(** Whether an object of this name is rendered as a secret, or materialised as one. *)
Definition provides_secret (m : Resource) (name : string) : Prop :=
  match r_Object m with
  | RSecret md _ _ => om_Name md = name
  | RExternalSecret _ s => es_TargetName s = name
  | RCertificate _ s => ct_SecretName s = name
  | _ => False
  end.
Definition provides_config (m : Resource) (name : string) : Prop := match r_Object m with RConfigMap md _ => om_Name md = name | _ => False end.

(** A name under the wildcard [*.<suffix>]. *)
Definition covers_host (m : Resource) (host : string) : Prop :=
  match r_Object m with
  | RCertificate _ s => ∃ label suffix, ct_DNSNames s = ["*." +:+ suffix] ∧ host = label +:+ "." +:+ suffix ∧ str_free "." label = true
  | _ => False
  end.

(** C13: The references the operator sets in a HostedCluster are to objects it renders in
    the same list: the pull secret, the SSH key, the serving certificates and the signing
    key that is kept in the secret store are secrets of it, and a non-empty trust bundle
    the customer submits is a config map of it; the host names of the API server and of
    every published service are covered by the certificate. Domain, zones, tags,
    endpoint access and services are the operator's whatever the customer's spec says.
    The part of the customer's spec the operator does not write is passed on as
    converted, references in its configuration included, and so is the reference to a
    trust bundle when the customer submits none: these are not rendered. *)
Theorem hosted_references_rendered cluster external bd img resources : ClusterResources cluster external bd img = Ok resources →
  let rendered (P : Resource → Prop) := ∃ x, x ∈ resources ∧ P x in
  ∃ m o s0, m ∈ resources ∧ r_Resource m = "hostedclusters" ∧ r_Object m = RHostedCluster o ∧
    toHostedClusterSpec (cl_HostedCluster (spec cluster)) (cl_Rest (spec cluster)) = Ok s0 ∧
    let s := spec o in
    rendered (λ x, provides_secret x (hs_PullSecret s)) ∧ rendered (λ x, provides_secret x (hs_SSHKey s)) ∧
    (∀ c, c ∈ hs_APIServerCertificates s → rendered (λ x, provides_secret x c)) ∧
    (∀ c, hs_ServiceAccountSigningKey s = Some c → rendered (λ x, provides_secret x c)) ∧
    match cl_AdditionalTrustBundle (cl_Rest (spec cluster)) with
    | Some bundle => if String.eqb bundle "" then hs_AdditionalTrustBundle s = None
                     else ∃ c, hs_AdditionalTrustBundle s = Some c ∧ rendered (λ x, provides_config x c)
    | None => hs_AdditionalTrustBundle s = hs_AdditionalTrustBundle s0
    end ∧
    (∀ host, host = hs_KubeAPIServerDNSName s ∨ (∃ p, p ∈ hs_Services s ∧ pub_Hostname p = Some host) → rendered (λ x, covers_host x host)) ∧
    hs_BaseDomain s = bd ∧ hs_PublicZoneID s = "" ∧ hs_PrivateZoneID s = "" ∧
    hs_AWS s = (λ aws, mkHostedAWS "PublicAndPrivate" (appendSystemTags (uid_of cluster) (cl_Tags (spec cluster))) (aws_Rest aws)) <$> hs_AWS s0 ∧
    hs_Services s = servicePublishingStrategies (HostedClusterName cluster) bd ∧ hs_Rest s = hs_Rest s0.
Proof.
  intros (_ & s & Hs & ->)%ClusterResources_cases. cbv zeta. set (u := uid_of cluster). set (ns := ManagementNamespace u). set (hc := HostedClusterName cluster).
  set (tail := (_ ++ _)%list). eexists _, _, s. split_and!; [do 4 right; by left|done|done|exact Hs|..].
  - exists (pullSecret u ns). split; [do 2 right; by left|done].
  - exists (sshKey u ns). split; [do 5 right; by left|done].
  - intros c ->%list_elem_of_singleton. exists (apiServingCert u hc bd ns). split; [do 3 right; by left|done].
  - intros c. cbn [spec hs_ServiceAccountSigningKey hosted_spec]. destruct external eqn:Ex; [|done]. intros [= <-].
    eexists. split; [do 6 right; unfold tail; apply elem_of_app; right; apply list_elem_of_singleton; reflexivity|done].
  - cbn [spec hs_AdditionalTrustBundle hosted_spec]. destruct (cl_AdditionalTrustBundle _) as [bundle|] eqn:Hb; [|done]. destruct (String.eqb bundle ""); [done|].
    eexists. split; [done|]. exists (additionalTrustBundle u ns bundle). split; [|done]. do 6 right. unfold tail. rewrite ?Hb. apply elem_of_app. left. by apply list_elem_of_singleton.
  - intros host Hh. exists (apiServingCert u hc bd ns). split; [do 3 right; by left|].
    assert (∃ label, host = label +:+ "." +:+ hc +:+ "." +:+ bd ∧ str_free "." label = true) as (label & -> & Hl).
    { destruct Hh as [->|(p & Hp & Hph)]; [by exists "api"|]. change (p ∈ servicePublishingStrategies hc bd) in Hp. unfold servicePublishingStrategies in Hp.
      rewrite !elem_of_cons, elem_of_nil in Hp. destruct Hp as [->|[->|[->|[->|[]]]]]; [| |done|done]; injection Hph as <-; [by exists "api"|by exists "oauth"]. }
    exists label, (hc +:+ "." +:+ bd). done.
  - done.
  - done.
  - done.
  - done.
  - done.
  - done.
Qed.
End documents.
