(* ===== verification/ClusterController.v ===== *)
(** * The Cluster controller (controller/cluster_controller.go)

    A cluster gets a finalizer, its internal name, a confirmed DNS reservation and a
    Placement, then its resources are written as desires for the management cluster and
    the reports are copied into its status. A deleted cluster first turns every desire
    into a Delete, and loses its finalizer when the applier has confirmed all of them,
    its node pools and placements are gone and its claims are released. *)
From S2P Require Import Prelude GoStrings Json Convert Authorizer StateM HttpApi ApiTypes KubeClient ApiClient Claims Controllers Footprint DnsReservations Goroutines Desires Render DesireSets RenderProps.
From stdpp Require Import base gmap strings list.
From Stdlib Require Import ZArith Lia String.
Open Scope string_scope.

(** What the operator reads of a HostedCluster's status ([json.Unmarshal] fills what it
    can, also when it fails). *)
Record HostedStatus := mkHostedStatus { ho_Conditions : list Condition; ho_History : list string; ho_Endpoint : APIEndpoint }.
Class HostedReports := { Unmarshal_HostedCluster : string → HostedStatus }.

Module ClusterController.
Definition clusterFinalizer : string := "seaplane.io/cluster".
Definition claimConfirmationTimeout : Z := 10 * minute.
Definition five_seconds : Z := 5 * second.

Section controller.
Context `{KubeClient, !Clock, Retry, ControllerLib, !DesireClient, !HyperShift, !DocumentIDs, !MarshalResource, !Routing, !Scheduler World, !HostedReports}.

(** The regional configuration, and whether there is an event router. *)
Record ClusterReconciler := mkClusterReconciler { cr_RegionalConfig : RegionalConfig; cr_EventRouter : bool }.
Definition StatusEvents : string := "cluster".
Definition target_of (r : ClusterReconciler) (key : nsname) : option EventRouter.EventTarget :=
  if cr_EventRouter r then Some (EventRouter.mkTarget StatusEvents key) else None.

(** ** Lookups by UID *)
Definition listByMetadataUID (k : Kind) (namespace uid : string) : Call (list (object k)) :=
  r ← kc_List k namespace (WithUID uid);
  match r with Err BadRequest => kc_List k namespace AllObjects | _ => mret r end.

Definition getByUID (k : Kind) (accountID uid : string) : Call (object k) :=
  db.and_then (listByMetadataUID k (db.accountNamespace accountID) uid) (fun l =>
  mret match list_find (fun o => uid_of o = uid) l with Some (_, o) => Ok o | None => Err NotFound end).
Definition getOidcConfigByUID (accountID uid : string) : Call (object KOidcConfig) := getByUID KOidcConfig accountID uid.
Definition getDNSReservationByUID (accountID uid : string) : Call (object KDNSReservation) := getByUID KDNSReservation accountID uid.

Definition label_account (cluster : object KCluster) : string := map_get (om_Labels (meta cluster)) AccountIDLabel.

Definition oidcSigningKeyExternal (cluster : object KCluster) : Call bool :=
  if String.eqb (cl_OidcConfigID (spec cluster)) "" || String.eqb (label_account cluster) "" then mret (Ok false)
  else
    oc ← getOidcConfigByUID (label_account cluster) (cl_OidcConfigID (spec cluster));
    mret match (oc : result kerr (object KOidcConfig)) with
         | Err e => if IsNotFound e then Ok false else Err (wrap ("get oidcconfig " +:+ cl_OidcConfigID (spec cluster)) e)
         | Ok oc => Ok (String.eqb (oidc_Type (spec oc)) OidcConfigTypeUnmanaged)
         end.

(** ** Claims *)
Definition without_claim {k} (o : object k) : object k :=
  with_meta (fun m => set_labels (delete ClaimedByClusterUIDLabel (om_Labels m)) m) o.

Definition release_oidc_attempt (cluster : object KCluster) (accountID : string) : Call unit :=
  oc ← getOidcConfigByUID accountID (cl_OidcConfigID (spec cluster));
  match (oc : result kerr (object KOidcConfig)) with
  | Err e => mret (IgnoreNotFound tt e)
  | Ok oc =>
      if negb (String.eqb (claim oc) (uid_of cluster)) then mret (Ok tt)
      else db.and_then (kc_Update KOidcConfig (without_claim oc)) (fun _ => mret (Ok tt))
  end.
Definition releaseOidcConfigClaim (cluster : object KCluster) : Call unit :=
  if String.eqb (label_account cluster) "" then mret (Ok tt)
  else RetryOnConflict IsConflict (release_oidc_attempt cluster (label_account cluster)).

Definition release_dns_attempt (reservation : object KDNSReservation) (clusterUID : string) : Call unit :=
  g ← kc_Get KDNSReservation (om_Namespace (meta reservation)) (om_Name (meta reservation));
  match (g : result kerr (object KDNSReservation)) with
  | Err e => mret (IgnoreNotFound tt e)
  | Ok latest =>
      if negb (String.eqb (uid_of latest) (uid_of reservation)) || negb (String.eqb (claim latest) clusterUID) then mret (Ok tt)
      else db.and_then (kc_Update KDNSReservation (without_claim latest)) (fun _ => mret (Ok tt))
  end.
Definition releaseDNSReservationClaim (reservation : object KDNSReservation) (clusterUID : string) : Call unit :=
  if String.eqb clusterUID "" then mret (Ok tt) else RetryOnConflict IsConflict (release_dns_attempt reservation clusterUID).

(** The base domain, once every claim is bound to this cluster. *)
Definition confirmedDNSReservation (cluster : object KCluster) : Call (option string) :=
  let accountID := cluster_account cluster in
  if String.eqb accountID "" || String.eqb (cl_DNSReservationID (spec cluster)) "" || String.eqb (uid_of cluster) "" then mret (Ok None)
  else
    g ← getDNSReservationByUID accountID (cl_DNSReservationID (spec cluster));
    match (g : result kerr (object KDNSReservation)) with
    | Err e => mret (if IsNotFound e then Ok None else Err (wrap "get DNSReservation by UID" e))
    | Ok reservation =>
        if dying reservation || negb (String.eqb (claim reservation) (uid_of cluster)) ||
           negb (String.eqb (dns_Phase (status reservation)) DNSReservationPhaseReady) ||
           String.eqb (dns_BaseDomain (status reservation)) "" || String.eqb (dns_InternalHostedClusterName (status reservation)) ""
        then mret (Ok None)
        else if String.eqb (cl_OidcConfigID (spec cluster)) "" then mret (Ok (Some (dns_BaseDomain (status reservation))))
        else
          oc ← getOidcConfigByUID accountID (cl_OidcConfigID (spec cluster));
          mret match (oc : result kerr (object KOidcConfig)) with
               | Err e => if IsNotFound e then Ok None else Err (wrap "get referenced OidcConfig" e)
               | Ok oc => if String.eqb (claim oc) (uid_of cluster) then Ok (Some (dns_BaseDomain (status reservation))) else Ok None
               end
    end.

(** ** The automatic reservation *)
Definition automaticDNSReservationName (clusterUID : string) : string := "auto-dns-" +:+ clusterUID.
Definition legacyAutomaticDNSReservationName (clusterName clusterUID : string) : string := clusterName +:+ "-auto-dns-" +:+ clusterUID.

Definition automatic_reservation (namespace name accountID clusterUID : string) : object KDNSReservation :=
  mkObj KDNSReservation (labelled namespace name {[AccountIDLabel := accountID; ClaimedByClusterUIDLabel := clusterUID]})
    (mkDNSSpec DNSReservationClusterDeletionPolicyDelete) (zero_Status KDNSReservation).

Definition find_or_create (ns name legacy accountID clusterUID : string) : Call (object KDNSReservation) :=
  g ← kc_Get KDNSReservation ns name;
  match g with
  | Ok reservation => mret (Ok reservation)
  | Err e =>
      if negb (IsNotFound e) then mret (Err (wrap "get automatic DNSReservation" e))
      else
        l ← kc_Get KDNSReservation ns legacy;
        match l with
        | Ok reservation => mret (Ok reservation)
        | Err e =>
            if negb (IsNotFound e) then mret (Err (wrap "get legacy automatic DNSReservation" e))
            else
              c ← kc_Create KDNSReservation (automatic_reservation ns name accountID clusterUID);
              match c with
              | Ok reservation => mret (Ok reservation)
              | Err e =>
                  if negb (IsAlreadyExists e) then mret (Err (wrap "create automatic DNSReservation" e))
                  else or_fail "recover automatic DNSReservation after create collision" (kc_Get KDNSReservation ns name) (fun o => mret (Ok o))
              end
        end
  end.

Definition set_DNSReservationID (uid : string) (cluster : object KCluster) : object KCluster :=
  let c := spec cluster in
  with_spec (k := KCluster) (mkClusterSpec (cl_AccountID c) (cl_CreatorARN c) (cl_HostedClusterName c) uid (cl_OidcConfigID c)
    (cl_ExpirationTimestamp c) (cl_Tags c) (cl_ControlPlaneUpgradePolicy c) (cl_HostedCluster c) (cl_Rest c)) cluster.
Definition set_HostedClusterName (name : string) (cluster : object KCluster) : object KCluster :=
  let c := spec cluster in
  with_spec (k := KCluster) (mkClusterSpec (cl_AccountID c) (cl_CreatorARN c) name (cl_DNSReservationID c) (cl_OidcConfigID c)
    (cl_ExpirationTimestamp c) (cl_Tags c) (cl_ControlPlaneUpgradePolicy c) (cl_HostedCluster c) (cl_Rest c)) cluster.

Definition ensureAutomaticDNSReservation (cluster : object KCluster) : Call unit :=
  let accountID := cluster_account cluster in
  let clusterUID := uid_of cluster in
  if String.eqb accountID "" || String.eqb clusterUID "" then mret (Err (errorf "cluster needs account ID and database UID for automatic DNS reservation"))
  else
    db.and_then (find_or_create (db.accountNamespace accountID) (automaticDNSReservationName clusterUID)
                   (legacyAutomaticDNSReservationName (om_Name (meta cluster)) clusterUID) accountID clusterUID) (fun reservation =>
    if negb (String.eqb (map_get (om_Labels (meta reservation)) AccountIDLabel) accountID) || negb (String.eqb (claim reservation) clusterUID)
    then mret (Err (errorf "automatic DNSReservation is not claimed by Cluster UID"))
    else if String.eqb (uid_of reservation) "" then mret (Err (errorf "automatic DNSReservation has no database UID"))
    else
      u ← kc_Update KCluster (set_DNSReservationID (uid_of reservation) cluster);
      mret match u with
           | Ok _ => Ok tt
           | Err e => if IsNotFound e then Ok tt else Err (wrap "set automatic DNSReservation UID on Cluster" e)
           end).

(** ** The claims of a cluster that was created long ago *)
Definition timeout_condition (t : Z) (latest : object KCluster) : Condition :=
  mkCondition "Degraded" ConditionTrue (om_Generation (meta latest)) t "ClaimConfirmationTimedOut"
    "DNS and OIDC claims were not confirmed within 10m0s; deleting the Cluster".
Definition set_conditions (l : list Condition) (generation : Z) (st : ClusterStatus) : ClusterStatus :=
  mkClusterStatus l (cl_Phase st) (cl_ControlPlaneEndpoint st) (cl_Version st) (cl_PlacementRef st) generation (cl_UpgradePolicyStatus st) (cl_BaseDomain st).

Definition timeout_attempt (key : nsname) : Call (object KCluster) :=
  db.and_then (kc_Get KCluster key.1 key.2) (fun latest =>
  if dying latest then mret (Ok latest)
  else
    t ← db.read_clock;
    kc_Status_Update KCluster (with_status (k := KCluster)
      (set_conditions (SetStatusCondition t (timeout_condition t latest) (cl_Conditions (status latest))) (om_Generation (meta latest)) (status latest)) latest)).

Definition deleteClusterWithUnconfirmedClaims (cluster : object KCluster) : Call unit :=
  r ← RetryOnConflict IsConflict (timeout_attempt (key_of cluster));
  match (r : result kerr (object KCluster)) with
  | Err e => mret (if IsNotFound e then Ok tt else Err (wrap "record claim confirmation timeout" e))
  | Ok latest =>
      if dying latest then mret (Ok tt)
      else delete_if_present "delete Cluster after claim confirmation timeout" latest
  end.

Definition set_base_domain (baseDomain : string) (st : ClusterStatus) : ClusterStatus :=
  mkClusterStatus (cl_Conditions st) (cl_Phase st) (cl_ControlPlaneEndpoint st) (cl_Version st) (cl_PlacementRef st)
    (cl_ObservedGeneration st) (cl_UpgradePolicyStatus st) baseDomain.
Definition persistBaseDomain (cluster : object KCluster) (baseDomain : string) : Call unit :=
  retry_status KCluster (key_of cluster) (Err NotFound) (fun _ latest => Some (set_base_domain baseDomain (status latest))).

(** The base domain when the cluster can go on, or the result of this run. *)
Definition reconcileDNSReservation (cluster : object KCluster) : Call (string + Result) :=
  if String.eqb (cl_DNSReservationID (spec cluster)) "" then
    or_fail "ensure automatic DNS reservation" (ensureAutomaticDNSReservation cluster) (fun _ => mret (Ok (inr done_result)))
  else
    or_fail "verify Cluster claims" (confirmedDNSReservation cluster) (fun confirmed =>
    match confirmed with
    | None =>
        now ← db.read_clock;
        if String.eqb (cl_Phase (status cluster)) "" && negb (IsZero (om_CreationTimestamp (meta cluster))) &&
           (claimConfirmationTimeout <=? now - om_CreationTimestamp (meta cluster))%Z
        then or_fail "delete Cluster with unconfirmed claims" (deleteClusterWithUnconfirmedClaims cluster) (fun _ => mret (Ok (inr done_result)))
        else mret (Ok (inr (requeue five_seconds)))
    | Some baseDomain =>
        if negb (String.eqb (cl_BaseDomain (status cluster)) baseDomain) then
          or_fail "persist reservation base domain" (persistBaseDomain cluster baseDomain) (fun _ => mret (Ok (inr done_result)))
        else mret (Ok (inl baseDomain))
    end).

(** Whether the name was written. *)
Definition ensureHostedClusterName (cluster : object KCluster) : Call bool :=
  let name := cl_HostedClusterName (spec cluster) in
  if negb (String.eqb name "") && negb (String.eqb name HostedClusterNamePending) then mret (Ok false)
  else
    db.and_then
      (if String.eqb (cl_DNSReservationID (spec cluster)) "" then mret (Ok (om_Name (meta cluster)))
       else if String.eqb (cluster_account cluster) "" then mret (Err (errorf "resolve DNSReservation for Cluster without an account ID"))
       else or_fail "get DNSReservation for Cluster" (getDNSReservationByUID (cluster_account cluster) (cl_DNSReservationID (spec cluster)))
              (fun reservation => mret (Ok (dns_InternalHostedClusterName (status reservation))))) (fun hostedClusterName =>
    if String.eqb hostedClusterName "" then mret (Err (errorf "resolve HostedCluster name for Cluster"))
    else or_fail "persist HostedCluster name for Cluster" (kc_Update KCluster (set_HostedClusterName hostedClusterName cluster)) (fun _ => mret (Ok true))).

(** ** The status *)
Definition set_phase (phase : string) (generation : Z) (st : ClusterStatus) : ClusterStatus :=
  mkClusterStatus (cl_Conditions st) phase (cl_ControlPlaneEndpoint st) (cl_Version st) (cl_PlacementRef st) generation (cl_UpgradePolicyStatus st) (cl_BaseDomain st).
Definition setPhase (cluster : object KCluster) (phase : string) : St World unit :=
  if String.eqb (cl_Phase (status cluster)) phase then mret tt
  else
    _ ← retry_status KCluster (key_of cluster) (Ok tt) (fun _ latest =>
          if String.eqb (cl_Phase (status latest)) phase then None else Some (set_phase phase (om_Generation (meta latest)) (status latest)));
    mret tt.

Definition setSyncedCondition (cluster : object KCluster) (cond : Condition) : St World unit :=
  _ ← retry_status KCluster (key_of cluster) (Ok tt) (fun t latest =>
        let st := status latest in
        Some (set_conditions (SetStatusCondition t cond (cl_Conditions st)) (cl_ObservedGeneration st) st));
  mret tt.

(** The status after a report: [synced] is there when there are apply desires. *)
Definition observed_status (t : Z) (synced : option Condition) (hosted : option HostedStatus) (latest : object KCluster) : ClusterStatus :=
  let st := status latest in
  let conditions := match synced with Some c => SetStatusCondition t c (cl_Conditions st) | None => cl_Conditions st end in
  let conditions := match hosted with
                    | Some h => fold_left (fun l c => if String.eqb (cond_Type c) "Available" || String.eqb (cond_Type c) "Degraded"
                                                      then SetStatusCondition t c l else l) (ho_Conditions h) conditions
                    | None => conditions
                    end in
  let endpoint := match hosted with Some h => if String.eqb (ep_Host (ho_Endpoint h)) "" then cl_ControlPlaneEndpoint st else ho_Endpoint h
                  | None => cl_ControlPlaneEndpoint st end in
  let version := match hosted with Some h => match ho_History h with v :: _ => v | [] => cl_Version st end | None => cl_Version st end in
  let phase := if IsStatusConditionTrue conditions "Available" && negb (IsStatusConditionTrue conditions "Degraded") then ClusterPhaseReady
               else if String.eqb (cl_Phase st) "" || String.eqb (cl_Phase st) ClusterPhaseWaitingForPlacement then ClusterPhaseProvisioning
               else cl_Phase st in
  mkClusterStatus conditions phase endpoint version (cl_PlacementRef st) (om_Generation (meta latest)) (cl_UpgradePolicyStatus st) (cl_BaseDomain st).

Definition updateStatusFromDynamo (cluster : object KCluster) (statusPrefix readDocID : string) (applyEntries : list DesireStatusEntry) : St World unit :=
  both ← go_two (GetReadDesireStatus statusPrefix readDocID)
           (match applyEntries with
            | [] => mret None
            | _ => c ← CheckApplyDesireStatuses statusPrefix applyEntries (om_Generation (meta cluster)); mret (Some c)
            end);
  let hosted := match both.1 with Ok st => Unmarshal_HostedCluster <$> st_KubeContent st | Err _ => None end in
  _ ← retry_status KCluster (key_of cluster) (Ok tt) (fun t latest => Some (observed_status t both.2 hosted latest));
  mret tt.

Definition deleteIfExpired (cluster : object KCluster) : St World (option (result kerr unit)) :=
  now ← db.read_clock;
  match cl_ExpirationTimestamp (spec cluster) with
  | Some expiration =>
      if IsZero expiration || negb (expiration <? now)%Z then mret None
      else r ← delete_if_present "delete expired cluster" cluster; mret (Some r)
  | None => mret None
  end.

(** ** A placed cluster *)
Definition upsertRenderedHostedCluster (cluster : object KCluster) (hosted : object KHostedCluster) : Call unit :=
  upsertRenderedResource hosted (om_Namespace (meta cluster)) (om_Name (meta cluster)) (rendered_labels (meta hosted)).
Definition deleteRenderedHostedCluster (accountNamespace clusterName : string) : Call unit :=
  deleteRenderedResource (mkObj KHostedCluster (named accountNamespace clusterName) zero_HostedClusterSpec tt).

Definition render_failed (e : string) : kerr := errorf ("render cluster resources: " +:+ e).
Definition rendered_hosted (resources : list Resource) : option Resource := snd <$> list_find (fun m => r_Resource m = "hostedclusters") resources.

Definition upsert_rendered (cluster : object KCluster) (resources : list Resource) : Call unit :=
  match rendered_hosted resources with
  | None => mret (Ok tt)
  | Some m => match r_Object m with
              | RHostedCluster hosted => upsertRenderedHostedCluster cluster hosted
              | _ => mret (Err (errorf "rendered HostedCluster has unexpected type"))
              end
  end.

Definition hosted_reference (cluster : object KCluster) : ResourceReference :=
  mkReference "hypershift.openshift.io" "v1beta1" "hostedclusters" (ManagementNamespace (uid_of cluster)) (HostedClusterName cluster).
Definition read_document (cluster : object KCluster) : string :=
  NewDocumentID readTaskKey "hypershift.openshift.io" "v1beta1" "hostedclusters" (ManagementNamespace (uid_of cluster)) (HostedClusterName cluster).

Definition requeue_after (now : Z) (cluster : object KCluster) : Z :=
  match cl_ExpirationTimestamp (spec cluster) with
  | Some expiration =>
      let remaining := (expiration - now)%Z in
      if negb (IsZero expiration) && (0 <? remaining)%Z && (remaining <? statusRefreshDelay)%Z then remaining else statusRefreshDelay
  | None => statusRefreshDelay
  end.

Definition reconcilePlacedCluster (r : ClusterReconciler) (key : nsname) (cluster : object KCluster) (placement : object KPlacement) (baseDomain : string) : Call Result :=
  let mc := pl_ManagementCluster (spec placement) in
  or_fail "resolve oidc signing key mode" (oidcSigningKeyExternal cluster) (fun external =>
  match ClusterResources cluster external baseDomain (rc_ControlPlaneOperatorImage (cr_RegionalConfig r)) with
  | Err e => mret (Err (render_failed e))
  | Ok resources =>
      db.and_then (upsert_rendered cluster resources) (fun _ =>
      db.and_then (upsert_all mc (uid_of cluster) (target_of r key) resources (read_document cluster) (hosted_reference cluster)) (fun applyEntries =>
      _ ← updateStatusFromDynamo cluster (StatusPrefix mc) (read_document cluster) applyEntries;
      now ← db.read_clock;
      mret (Ok (requeue (requeue_after now cluster)))))
  end).

(** ** Deletion *)
Definition owned_by (cluster : object KCluster) : ListFilter := WithLabel ClusterUIDLabel (uid_of cluster).
Definition placement_name (cluster : object KCluster) : string := om_Name (meta cluster) +:+ ".placement".

(** The deletion policy: older automatic reservations have none. *)
Definition deletion_policy (cluster : object KCluster) (reservation : object KDNSReservation) : string :=
  let policy := ClusterDeletionPolicy (spec reservation) in
  if String.eqb policy "" && String.eqb (om_Name (meta reservation)) (legacyAutomaticDNSReservationName (om_Name (meta cluster)) (uid_of cluster))
  then DNSReservationClusterDeletionPolicyDelete else policy.

(** The reservations in turn; [Some] ends the run. *)
Fixpoint release_reservations (cluster : object KCluster) (reservations : list (object KDNSReservation)) : Call (option Result) :=
  match reservations with
  | [] => mret (Ok None)
  | reservation :: reservations =>
      if dying reservation then mret (Ok (Some (requeue five_seconds)))
      else if negb (String.eqb (deletion_policy cluster reservation) DNSReservationClusterDeletionPolicyDelete) then
        or_fail "release DNSReservation claim" (releaseDNSReservationClaim reservation (uid_of cluster)) (fun _ =>
        release_reservations cluster reservations)
      else
        db.and_then (delete_if_present "delete claimed DNSReservation" reservation) (fun _ => mret (Ok (Some (requeue five_seconds))))
  end.

Definition release_claims (cluster : object KCluster) : Call (option Result) :=
  if String.eqb (uid_of cluster) "" then mret (Ok None)
  else
    or_fail "find claimed DNSReservations for Cluster UID"
      (kc_List KDNSReservation (db.accountNamespace (cluster_account cluster)) (WithLabel ClaimedByClusterUIDLabel (uid_of cluster)))
      (release_reservations cluster).

Definition cleanupAndRemoveFinalizer (cluster : object KCluster) : Call Result :=
  or_fail "list owned NodePools for cleanup" (kc_List KNodePool "" (owned_by cluster)) (fun nodePools =>
  match nodePools with
  | _ :: _ =>
      db.and_then (each (fun np => if dying np then mret (Ok tt) else delete_if_present "delete owned NodePool" np) nodePools) (fun _ =>
      mret (Ok (requeue five_seconds)))
  | [] =>
      or_fail "list owned Placements for cleanup" (kc_List KPlacement "" (owned_by cluster)) (fun placements =>
      match placements with
      | _ :: _ => db.and_then (each (delete_if_present "delete owned Placement") placements) (fun _ => mret (Ok (requeue five_seconds)))
      | [] =>
          or_fail "release oidc config claim"
            (if String.eqb (cl_OidcConfigID (spec cluster)) "" then mret (Ok tt) else releaseOidcConfigClaim cluster) (fun _ =>
          db.and_then (release_claims cluster) (fun early =>
          match early with
          | Some result => mret (Ok result)
          | None => or_fail "remove finalizer" (remove_finalizer KCluster clusterFinalizer cluster) (fun _ => mret (Ok done_result))
          end))
      end)
  end).

(** The management cluster of the resources; none was ever used when it is empty. *)
Definition resolve_management_cluster (cluster : object KCluster) : St World string :=
  match cl_PlacementRef (status cluster) with
  | Some ref => mret (pr_ManagementCluster ref)
  | None =>
      g ← kc_Get KPlacement (om_Namespace (meta cluster)) (placement_name cluster);
      mret match (g : result kerr (object KPlacement)) with Ok placement => pl_ManagementCluster (spec placement) | Err _ => "" end
  end.

Definition spec_cleanup (cluster : object KCluster) (resources : list Resource) : list (string * string * string) :=
  (TableSuffixReadDesires, read_document cluster, "delete ReadDesire spec for HostedCluster " +:+ HostedClusterName cluster) ::
  ((fun m => (TableSuffixApplyDesires, document_of taskKey m, "delete ApplyDesire spec for " +:+ r_Name m)) <$> resources).

(** The resources on the management cluster: [Some] ends the run. *)
Definition delete_resources (r : ClusterReconciler) (mc : string) (cluster : object KCluster) (pendingNodePools : nat) : Call (option Result) :=
  or_fail "resolve oidc signing key mode" (oidcSigningKeyExternal cluster) (fun external =>
  match ClusterResources cluster external (cl_BaseDomain (status cluster)) (rc_ControlPlaneOperatorImage (cr_RegionalConfig r)) with
  | Err e => mret (Err (render_failed e))
  | Ok resources =>
      db.and_then (delete_all mc (uid_of cluster) resources) (fun deleteEntries =>
      syncedCond ← CheckApplyDesireStatuses (StatusPrefix mc) deleteEntries (om_Generation (meta cluster));
      _ ← setSyncedCondition cluster syncedCond;
      if negb (String.eqb (cond_Status syncedCond) ConditionTrue) then mret (Ok (Some (requeue five_seconds)))
      else if Nat.ltb 0 pendingNodePools then mret (Ok (Some (requeue five_seconds)))
      else db.and_then (delete_specs mc (spec_cleanup cluster resources) None) (fun _ => mret (Ok None)))
  end).

Definition reconcileDelete (r : ClusterReconciler) (cluster : object KCluster) : Call Result :=
  if negb (ContainsFinalizer (meta cluster) clusterFinalizer) then mret (Ok done_result)
  else
    _ ← setPhase cluster ClusterPhaseDeleting;
    mc ← resolve_management_cluster cluster;
    let finish := db.and_then (deleteRenderedHostedCluster (om_Namespace (meta cluster)) (om_Name (meta cluster))) (fun _ => cleanupAndRemoveFinalizer cluster) in
    if String.eqb mc "" then finish
    else
      or_fail "list nodepools" (kc_List KNodePool "" (owned_by cluster)) (fun nodePools =>
      db.and_then (each (fun np => if dying np then mret (Ok tt) else delete_if_present "delete nodepool" np) nodePools) (fun _ =>
      db.and_then (delete_resources r mc cluster (List.length nodePools)) (fun early =>
      match early with Some result => mret (Ok result) | None => finish end))).

(** ** Reconcile *)
Definition add_cluster_finalizer (cluster : object KCluster) : Call Result :=
  u ← add_finalizer clusterFinalizer cluster;
  mret match u with
       | Ok _ => Ok done_result
       | Err e => if IsNotFound e then Ok done_result else Err (wrap "add finalizer" e)
       end.

Definition reconcile_placement (r : ClusterReconciler) (key : nsname) (cluster : object KCluster) (baseDomain : string) : Call Result :=
  g ← kc_Get KPlacement (om_Namespace (meta cluster)) (placement_name cluster);
  match (g : result kerr (object KPlacement)) with
  | Err e =>
      if IsNotFound e then _ ← setPhase cluster ClusterPhaseWaitingForPlacement; mret (Ok (requeue five_seconds))
      else mret (Err (wrap "get placement" e))
  | Ok placement =>
      if negb (String.eqb (pl_Phase (status placement)) PlacementPhaseBound) then mret (Ok (requeue five_seconds))
      else reconcilePlacedCluster r key cluster placement baseDomain
  end.

(** The cluster that was read. *)
Definition reconcile_cluster (r : ClusterReconciler) (key : nsname) (cluster : object KCluster) : Call Result :=
  if dying cluster then reconcileDelete r cluster
  else if negb (ContainsFinalizer (meta cluster) clusterFinalizer) then add_cluster_finalizer cluster
  else
    db.and_then (ensureHostedClusterName cluster) (fun updated =>
    if updated then mret (Ok done_result)
    else
      db.and_then (reconcileDNSReservation cluster) (fun dns =>
      match dns with
      | inr result => mret (Ok result)
      | inl baseDomain =>
          expired ← deleteIfExpired cluster;
          match expired with
          | Some (Ok _) => mret (Ok done_result)
          | Some (Err e) => mret (Err e)
          | None => reconcile_placement r key cluster baseDomain
          end
      end)).

Definition Reconcile (r : ClusterReconciler) (key : nsname) : Call Result :=
  g ← kc_Get KCluster key.1 key.2;
  match (g : result kerr (object KCluster)) with
  | Err e => mret (IgnoreNotFound done_result e)
  | Ok cluster => reconcile_cluster r key cluster
  end.
End controller.
End ClusterController.

(** * What the Cluster controller writes

    [cluster_mine]: the cluster and the snapshot rendered for it, the node pools and
    placements labelled with its UID, the reservations and OIDC configurations it has
    claimed, and the reservation it creates for itself. Everything the controller does
    is a step on one of these, and it takes the cluster's finalizer off only at the end
    of a deletion that was confirmed. *)
From stdpp Require Import base gmap strings list relations.
From Stdlib Require Import ZArith Lia String.
Open Scope string_scope.
Import ClusterController.

Section props.
Context `{KubeClientLaws, !Clock, Retry, ControllerLib, !ControllerLibLaws, !DesireClient, !DesireRows, !DesireLaws, !HyperShift, !DocumentIDs, !DocumentIDLaws, !MarshalResource, !Routing, !RouterFrame, !Scheduler World, !HostedReports}.

Definition labelled_with {k} (u : string) (s : KState) (key : nsname) : Prop :=
  ∃ o : object k, objs s k !! key = Some o ∧ om_Labels (meta o) !! ClusterUIDLabel = Some u.
Definition claimed_by {k} (u : string) (s : KState) (key : nsname) : Prop := ∃ o : object k, objs s k !! key = Some o ∧ claim o = u.

Definition cluster_mine (key : nsname) (u : string) (s : KState) (k : Kind) (key' : nsname) : Prop :=
  match k with
  | KCluster | KHostedCluster => key' = key
  | KNodePool => labelled_with (k := KNodePool) u s key'
  | KPlacement => labelled_with (k := KPlacement) u s key'
  | KOidcConfig => claimed_by (k := KOidcConfig) u s key'
  | KDNSReservation => claimed_by (k := KDNSReservation) u s key' ∨ (objs s KDNSReservation !! key' = None ∧ key'.2 = automaticDNSReservationName u)
  | _ => False
  end.

Context (r : ClusterReconciler) (key : nsname) (u : string) (s0 : KState).
Context (rely : stable (finalized KCluster key u clusterFinalizer)).
#[local] Notation frames R m := (frames KCluster key u clusterFinalizer (cluster_mine key u) s0 R m).

(** ** Lookups *)
Definition found {k} (res : result kerr (object k)) (s : KState) : Prop := ∀ o, res = Ok o → seen o s.
Lemma persistent_found {k} (res : result kerr (object k)) : persistent (found res).
Proof. intros s s' He Hf o Ho. by eapply seen_evolves, Hf. Qed.

Lemma moves_getByUID k a uid : moves state interfere (getByUID k a uid).
Proof.
  apply moves_and_then; [|intros l; apply moves_ret]. apply moves_bind; [apply moves_List|]. intros [l|[]]; try apply moves_ret. apply moves_List.
Qed.

Lemma found_getByUID F R k a uid : persistent R → triple (on (inv KCluster key u clusterFinalizer (cluster_mine key u) s0 F R)) (getByUID k a uid)
  (λ res w, inv KCluster key u clusterFinalizer (cluster_mine key u) s0 F R (state w) ∧ found res (state w)).
Proof.
  intros HR w w' res Hw E. split; [by eapply (frames_moves _ _ _ _ _ rely s0 (λ _, True) _ (moves_getByUID k a uid))|].
  revert E. unfold getByUID, db.and_then. intros (w1 & l & Hl & Hr)%St_bind_inv. intros o ->.
  assert (Hin : ∀ l', l = Ok l' → ∀ o, o ∈ l' → seen o (state w1)).
  { revert Hl. unfold listByMetadataUID. intros (w2 & l2 & Hl2 & Hr2)%St_bind_inv l' ->.
    assert (Hseen : ∀ flt v v' l, kc_List k (db.accountNamespace a) flt v = (v', Ok l) → ∀ o, o ∈ l → seen o (state v')).
    { intros flt v v' l3 [_ [_ Hl3]]%List_law o3 Ho3. apply Hl3 in Ho3 as (Ho3 & _). eapply seen_now; [apply state_wf|done]. }
    destruct l2 as [l2|[]]; try (apply St_ret_inv in Hr2 as [-> [=]]; subst); by eauto. }
  destruct l as [l|e]; apply St_ret_inv in Hr as [-> Hr]; [|done]. destruct (list_find _ l) as [[i x]|] eqn:Ef; [|done]. injection Hr as <-.
  apply list_find_Some in Ef as (Hi & _ & _). eapply Hin; [done|]. by eapply list_elem_of_lookup_2.
Qed.

Lemma frames_getByUID {B} R k a uid (g : result kerr (object k) → St World B) :
  (∀ res, frames (λ s, R s ∧ found res s) (g res)) → frames R (getByUID k a uid ≫= g).
Proof.
  intros Hg. apply (frames_learn KCluster key u clusterFinalizer (cluster_mine key u) s0 R _ g found); [|apply persistent_found|exact Hg].
  intros F R' HR _. by apply found_getByUID.
Qed.

(** ** The cluster that was read *)
Context (cluster : object KCluster) (cluster_uid : uid_of cluster = u) (cluster_key : key_of cluster = key).

Lemma frames_oidcSigningKeyExternal R : frames R (oidcSigningKeyExternal cluster).
Proof.
  unfold oidcSigningKeyExternal. frame_step; [frame_step|]. apply frames_getByUID. intros res. frame_step.
Qed.

(** A claim is released from an object that was read with it. *)
Lemma frames_release k R (o : object k) : (k = KOidcConfig ∨ k = KDNSReservation) → (∀ s, R s → seen o s) → claim o = u →
  frames R (kc_Update k (without_claim o)).
Proof.
  intros Hk Hs Hc. apply frames_Update; [assumption|..].
  - intros s cur Hr Hcur. change (current o s cur) in Hcur. destruct (seen_is_current o cur s (Hs s Hr) Hcur) as [_ Ho].
    change (key_of (without_claim o)) with (key_of o). destruct Hk as [-> | ->]; [|left]; by exists o.
  - destruct Hk as [-> | ->]; done.
Qed.

Lemma frames_releaseOidcConfigClaim R : frames R (releaseOidcConfigClaim cluster).
Proof.
  unfold releaseOidcConfigClaim, release_oidc_attempt. frame_step; [frame_step|]. frame_step. apply frames_getByUID. intros [oc|e]; [|frame_step].
  destruct (String.eqb_spec (claim oc) (uid_of cluster)) as [Hc|Hc]; simpl; [|frame_step]. frame_step; [|frame_step].
  apply frames_release; [by left| |congruence]. intros s [_ Hf]. by apply Hf.
Qed.

Lemma frames_releaseDNSReservationClaim R reservation : frames R (releaseDNSReservationClaim reservation u).
Proof.
  unfold releaseDNSReservationClaim, release_dns_attempt. frame_step; [frame_step|]. frame_step.
  apply frames_Get; [assumption|]. intros [latest|e]; [|frame_step].
  destruct (negb _ || negb _) eqn:Ec; [frame_step|]. apply orb_false_iff in Ec as [_ Ec%negb_false_iff%String.eqb_eq]. frame_step; [|frame_step].
  apply frames_release; [by right| |done]. intros s [_ Hf]. by apply Hf.
Qed.

Lemma frames_confirmed R : frames R (confirmedDNSReservation cluster).
Proof.
  unfold confirmedDNSReservation. cbv zeta. frame_step; [frame_step|]. apply frames_getByUID. intros [x|e]; [|frame_step].
  frame_step; [frame_step|]. frame_step; [frame_step|]. apply frames_getByUID. intros y. frame_step.
Qed.

Lemma frames_read_only {A} R (m : Call A) : moves state interfere m → frames R m.
Proof. apply frames_moves. assumption. Qed.

(** The reservation of its own is created under its own name. *)
Lemma frames_find_or_create R ns legacy a : frames R (find_or_create ns (automaticDNSReservationName u) legacy a u).
Proof.
  unfold find_or_create. apply frames_Get; [assumption|]. intros [x|e]; [frame_step|]. frame_step; [frame_step|].
  apply frames_Get; [assumption|]. intros [y|e2]; [frame_step|]. frame_step; [frame_step|]. frame_step.
  - apply frames_Create; [assumption|]. intros s _ Hn. right. by split.
  - frame_step; [frame_step|]. frame_step; [frame_step|]. apply frames_read_only, moves_or_fail; [apply moves_Get|]. intros o. apply moves_ret.
Qed.

Lemma frames_cluster_update R g : (∀ c, meta (g c) = meta c) → clusterFinalizer ∈ om_Finalizers (meta cluster) → frames R (kc_Update KCluster (g cluster)).
Proof.
  intros Hg Hf. assert (Hkey : key_of (g cluster) = key) by (rewrite <- cluster_key; unfold key_of; by rewrite Hg).
  apply frames_Update; [assumption| |]; [done|]. intros _ _. by rewrite Hg.
Qed.

Lemma frames_ensureAutomatic R : clusterFinalizer ∈ om_Finalizers (meta cluster) → frames R (ensureAutomaticDNSReservation cluster).
Proof.
  intros Hf. unfold ensureAutomaticDNSReservation. cbv zeta. frame_step; [frame_step|]. frame_step; [rewrite cluster_uid; apply frames_find_or_create|].
  frame_step; [frame_step|]. frame_step; [frame_step|]. frame_step; [|frame_step]. by apply (frames_cluster_update R (set_DNSReservationID _)).
Qed.

Lemma frames_cluster_status R missing change : frames R (retry_status KCluster (key_of cluster) missing change).
Proof. frame_step. intros s. done. Qed.

Lemma frames_deleteUnconfirmed R : frames R (deleteClusterWithUnconfirmedClaims cluster).
Proof.
  unfold deleteClusterWithUnconfirmedClaims, timeout_attempt.
  apply (frames_learn KCluster key u clusterFinalizer (cluster_mine key u) s0 R _ _ (λ res _, ∀ o, res = Ok o → key_of o = key)).
  - intros F R' HR _. apply triple_retry; [|by intros e w _ [? _]]. unfold db.and_then. eapply triple_bind; [apply (got_Get _ _ _ _ _ rely s0 F R' KCluster (key_of cluster) HR)|].
    intros [latest|e]; [|apply triple_ret; by intros w [? _]].
    apply (triple_fact (key_of latest = key)); [intros w [_ Hg]; destruct (Hg latest eq_refl); congruence|]. intros Hk.
    destruct (dying latest); [apply triple_ret; intros w [? _]; split; [done|]; by intros o [= <-]|].
    eapply triple_bind; [apply (read_clock_triple)|]. intros t. intros w w' res [Hw _] E. split.
    + revert Hw E. apply (frames_Status _ _ _ _ _ rely s0 (λ _, True)); [done|done|done].
    + intros o ->. by apply Status_Update_law in E as (mid & _ & rv & _ & ->).
  - intros res s s' _ Hr. exact Hr.
  - intros [latest|e]; [|frame_step]. apply (frames_pure _ _ _ _ _ _ (key_of latest = key)); [intros s [_ Hr]; by apply Hr|]. intros Hk.
    frame_step; [frame_step|]. apply frames_delete; [assumption|]. done.
Qed.

Lemma frames_reconcileDNS R : clusterFinalizer ∈ om_Finalizers (meta cluster) → frames R (reconcileDNSReservation cluster).
Proof.
  intros Hf. unfold reconcileDNSReservation, persistBaseDomain. frame_step.
  - frame_step; [by apply frames_ensureAutomatic|frame_step].
  - frame_step; [apply frames_confirmed|]. frame_step.
    + frame_step; [frame_step; [apply frames_cluster_status|frame_step]|frame_step].
    + frame_step; [frame_step|]. frame_step; [frame_step; [apply frames_deleteUnconfirmed|frame_step]|frame_step].
Qed.

Lemma frames_ensureHostedClusterName R : clusterFinalizer ∈ om_Finalizers (meta cluster) → frames R (ensureHostedClusterName cluster).
Proof.
  intros Hf. unfold ensureHostedClusterName. cbv zeta. frame_step; [frame_step|]. frame_step.
  - frame_step; [frame_step|]. frame_step; [frame_step|]. apply frames_read_only, moves_or_fail; [apply moves_getByUID|]. intros o. apply moves_ret.
  - frame_step; [frame_step|]. frame_step; [|frame_step]. by apply (frames_cluster_update R (set_HostedClusterName _)).
Qed.

(** ** Statuses and resources *)
Lemma frames_setPhase R phase : frames R (setPhase cluster phase).
Proof. unfold setPhase. frame_step; [frame_step|]. frame_step; [apply frames_cluster_status|frame_step]. Qed.
Lemma frames_setSynced R cond : frames R (setSyncedCondition cluster cond).
Proof. unfold setSyncedCondition. frame_step; [apply frames_cluster_status|frame_step]. Qed.

Lemma frames_updateStatus R prefix doc entries : frames R (updateStatusFromDynamo cluster prefix doc entries).
Proof.
  unfold updateStatusFromDynamo. frame_step; [|cbv zeta; frame_step; [apply frames_cluster_status|frame_step]].
  apply frames_moves; [assumption|]. apply moves_go_two; [by intros w w' res [? _]%GetRead_law|].
  destruct entries; [apply moves_ret|]. apply moves_bind; [apply moves_check|]. intros c. apply moves_ret.
Qed.

Lemma frames_deleteIfExpired R : frames R (deleteIfExpired cluster).
Proof.
  unfold deleteIfExpired. frame_step; [frame_step|]. frame_step; [|frame_step]. frame_step; [frame_step|]. frame_step; [|frame_step].
  apply frames_delete; [assumption|]. done.
Qed.

(** The snapshot is stored under the cluster's own key. *)
Lemma snapshot_key (hosted : object KHostedCluster) ns n labels : key_of (snapshot_of hosted ns n labels) = (ns, n).
Proof. done. Qed.
Lemma frames_upsert_rendered R resources : frames R (upsert_rendered cluster resources).
Proof.
  assert (Hkey : (om_Namespace (meta cluster), om_Name (meta cluster)) = key) by exact cluster_key.
  unfold upsert_rendered. frame_step; [|frame_step]. frame_step; try frame_step.
  unfold upsertRenderedHostedCluster, upsertRenderedResource. cbv zeta. frame_step. frame_step.
  - frame_step; [|frame_step]. apply frames_Update; [assumption| |done]. intros s cur _ _. exact Hkey.
  - frame_step; [frame_step|]. frame_step; [|frame_step]. apply frames_Create; [assumption|]. intros s _ _. exact Hkey.
Qed.
Lemma frames_deleteRendered R : frames R (deleteRenderedHostedCluster (om_Namespace (meta cluster)) (om_Name (meta cluster))).
Proof. apply frames_delete; [assumption|]. intros s cur _ _. exact cluster_key. Qed.

Lemma frames_placed R placement baseDomain : frames R (reconcilePlacedCluster r key cluster placement baseDomain).
Proof.
  unfold reconcilePlacedCluster. cbv zeta. frame_step; [apply frames_oidcSigningKeyExternal|]. frame_step; [|frame_step].
  frame_step; [apply frames_upsert_rendered|]. frame_step; [apply frames_read_only, moves_upsert_all, uuid_text|].
  frame_step; [apply frames_updateStatus|]. frame_step; [frame_step|]. frame_step.
Qed.

(** ** Deletion *)
Lemma frames_delete_pools R what nodePools : (∀ s, R s → listed (owned_by cluster) (Ok nodePools) s) →
  frames R (each (fun np : object KNodePool => if dying np then mret (Ok tt) else delete_if_present what np) nodePools).
Proof.
  intros Hl. apply frames_each. intros np Hin. frame_step; [frame_step|]. apply (frames_pure _ _ _ _ _ _ (matches (owned_by cluster) np = true)).
  { intros s Hr. by apply (Hl s Hr nodePools). }
  intros Hm. apply frames_delete_seen; [assumption|intros s Hr; by apply (Hl s Hr nodePools)|]. intros s Ho. exists np. split; [done|].
  apply bool_decide_eq_true in Hm. by rewrite <- cluster_uid.
Qed.
Lemma frames_delete_placements R what placements : (∀ s, R s → listed (owned_by cluster) (Ok placements) s) →
  frames R (each (delete_if_present (k := KPlacement) what) placements).
Proof.
  intros Hl. apply frames_each. intros p Hin. apply (frames_pure _ _ _ _ _ _ (matches (owned_by cluster) p = true)).
  { intros s Hr. by apply (Hl s Hr placements). }
  intros Hm. apply frames_delete_seen; [assumption|intros s Hr; by apply (Hl s Hr placements)|]. intros s Ho. exists p. split; [done|].
  apply bool_decide_eq_true in Hm. by rewrite <- cluster_uid.
Qed.

Lemma frames_release_reservations R l : (∀ s, R s → listed (WithLabel ClaimedByClusterUIDLabel u) (Ok l) s) → frames R (release_reservations cluster l).
Proof.
  induction l as [|reservation l IH]; intros Hl; [apply frames_ret|]. simpl. frame_step; [frame_step|]. frame_step.
  - frame_step; [rewrite cluster_uid; apply frames_releaseDNSReservationClaim|]. apply IH. intros s Hr l' o [= <-] Ho.
    apply (Hl s Hr (reservation :: l)); [done|by right].
  - frame_step; [|frame_step]. apply (frames_pure _ _ _ _ _ _ (matches (WithLabel ClaimedByClusterUIDLabel u) reservation = true)).
    { intros s Hr. apply (Hl s Hr (reservation :: l)); [done|by left]. }
    intros Hm. apply frames_delete_seen; [assumption|intros s Hr; apply (Hl s Hr (reservation :: l)); [done|by left]|].
    intros s Ho. left. exists reservation. split; [done|]. apply bool_decide_eq_true in Hm. unfold claim, map_get. by rewrite Hm.
Qed.

Lemma frames_release_claims R : frames R (release_claims cluster).
Proof.
  unfold release_claims, or_fail. rewrite cluster_uid. frame_step; [frame_step|]. apply frames_List; [assumption|]. intros [l|e]; [|frame_step].
  apply frames_release_reservations. by intros s [_ ?].
Qed.

Lemma spec_cleanup_documents resources : Forall (λ x, document x.1.2) (spec_cleanup cluster resources).
Proof.
  unfold spec_cleanup. apply Forall_cons. split; [apply uuid_text|]. apply Forall_fmap, Forall_forall. intros m _. apply uuid_text.
Qed.

Lemma frames_delete_resources R mc n : frames R (delete_resources r mc cluster n).
Proof.
  unfold delete_resources. frame_step; [apply frames_oidcSigningKeyExternal|]. frame_step; [|frame_step].
  frame_step; [apply frames_read_only, moves_delete_all|]. frame_step; [apply frames_moves; [assumption|apply moves_check]|].
  frame_step; [apply frames_setSynced|]. frame_step; [frame_step|]. frame_step; [frame_step|].
  frame_step; [|frame_step]. apply frames_read_only, moves_delete_specs, spec_cleanup_documents.
Qed.

(** ** When the finalizer goes *)

(** A list of the objects of the cluster was empty: nothing of this kind is labelled with
    its UID when the list is made. *)
Definition no_owned (k : Kind) (s : KState) : Prop := ∀ key' (o : object k), objs s k !! key' = Some o → om_Labels (meta o) !! ClusterUIDLabel ≠ Some (uid_of cluster).
Definition none_listed (k : Kind) (w w' : World) : Prop := kc_List k "" (owned_by cluster) w = (w', Ok []) ∧ no_owned k (state w').

Lemma empty_list k w w' : kc_List k "" (owned_by cluster) w = (w', Ok []) → none_listed k w w'.
Proof.
  intros E. split; [done|]. apply List_law in E as [_ [_ Hin]]. intros key' o Ho Hlab.
  apply (proj1 (elem_of_nil o)), Hin. pose proof (wf_key _ (state_wf w') _ _ _ Ho) as Hk. split_and!; [by rewrite <- Hk|by left|].
  by apply bool_decide_eq_true.
Qed.

(** The resources rendered for the cluster were deleted on the management cluster: their
    delete desires were written, then the reports that confirm them read, and only then
    the specs removed. *)
Definition deletion_confirmed (mc : string) (w w' : World) : Prop := ∃ external resources entries cond w1 w2 w3 w4,
  oidcSigningKeyExternal cluster w = (w1, Ok external) ∧
  ClusterResources cluster external (cl_BaseDomain (status cluster)) (rc_ControlPlaneOperatorImage (cr_RegionalConfig r)) = Ok resources ∧
  (delete_all mc (uid_of cluster) resources w1 = (w2, Ok entries) ∧ deletes_written mc (uid_of cluster) resources entries w1 w2) ∧
  (CheckApplyDesireStatuses (StatusPrefix mc) entries (om_Generation (meta cluster)) w2 = (w3, cond) ∧ all_confirmed (StatusPrefix mc) entries w2 w3) ∧
  setSyncedCondition cluster cond w3 = (w4, tt) ∧
  delete_specs mc (spec_cleanup cluster resources) None w4 = (w', Ok tt).

(** The management cluster: the recorded one, or else that of the Placement, if it can be
    read. *)
Definition management_cluster (mc : string) (w w' : World) : Prop :=
  match cl_PlacementRef (status cluster) with
  | Some ref => mc = pr_ManagementCluster ref ∧ w' = w
  | None => ∃ res : result kerr (object KPlacement), kc_Get KPlacement (om_Namespace (meta cluster)) (placement_name cluster) w = (w', res) ∧
      mc = match res with Ok p => pl_ManagementCluster (spec p) | Err _ => "" end
  end.

(** With no management cluster there is nothing to delete there. *)
Definition resources_gone (mc : string) (w w' : World) : Prop :=
  mc = "" ∧ w' = w ∨ mc ≠ "" ∧ ∃ w1, none_listed KNodePool w w1 ∧ deletion_confirmed mc w1 w'.

(** What is left was cleaned up, and the finalizer removed at the very end. *)
Definition cleaned_up (w w' : World) : Prop := ∃ w1 w2 w3 w4 w5 x,
  deleteRenderedHostedCluster (om_Namespace (meta cluster)) (om_Name (meta cluster)) w = (w1, Ok tt) ∧
  none_listed KNodePool w1 w2 ∧ none_listed KPlacement w2 w3 ∧
  (if String.eqb (cl_OidcConfigID (spec cluster)) "" then mret (Ok tt) else releaseOidcConfigClaim cluster) w3 = (w4, Ok tt) ∧
  release_claims cluster w4 = (w5, Ok None) ∧
  remove_finalizer KCluster clusterFinalizer cluster w5 = (w', x).

(** The steps of a run, from the world in which the cluster was read to the last one. *)
Definition finalizer_released (w w' : World) : Prop := dying cluster = true ∧ ∃ mc w1 w2 w3,
  setPhase cluster ClusterPhaseDeleting w = (w1, tt) ∧ management_cluster mc w1 w2 ∧ resources_gone mc w2 w3 ∧ cleaned_up w3 w'.

#[local] Notation inv F R := (inv KCluster key u clusterFinalizer (cluster_mine key u) s0 F R).
#[local] Notation safe F w := (inv F (λ _, True) (state w)).
#[local] Notation via_frames := (run_frames KCluster key u clusterFinalizer (cluster_mine key u) s0 _ _ _ _ _).
#[local] Notation via_list := (run_listed KCluster key u clusterFinalizer (cluster_mine key u) rely s0 _ _ _ _ _ _ _).
#[local] Notation via_listed := (run_frames_listed KCluster key u clusterFinalizer (cluster_mine key u) s0 _ _ _ _ _ _ _ _).

Lemma remove_run (F : Prop) w w' x : F → safe F w → remove_finalizer KCluster clusterFinalizer cluster w = (w', x) → safe F w'.
Proof. intros HF. by apply (remove_spec _ _ _ _ _ rely s0 F (λ _, True) cluster). Qed.

Lemma finish_delete_run (F : Prop) w w' res :
  db.and_then (deleteRenderedHostedCluster (om_Namespace (meta cluster)) (om_Name (meta cluster))) (fun _ => cleanupAndRemoveFinalizer cluster) w = (w', res) →
  (cleaned_up w w' → F) → safe F w → safe F w'.
Proof.
  unfold db.and_then at 1. intros (w1 & [[]|e] & Hdel & Hr)%St_bind_inv HF Hi; pose proof (via_frames (frames_deleteRendered _) Hi Hdel) as Hi1; [|by apply St_ret_inv in Hr as [-> _]].
  unfold cleanupAndRemoveFinalizer, or_fail in Hr. apply St_bind_inv in Hr as (w2 & pools & Hpools & Hr). pose proof (via_list Hi1 Hpools) as Hi2.
  destruct pools as [[|np pools]|e]; [|refine (via_listed _ Hi2 Hr); frame_step; [by apply frames_delete_pools|frame_step]|apply St_ret_inv in Hr as [-> _]; by eapply inv_weaken].
  apply inv_weaken in Hi2. apply St_bind_inv in Hr as (w3 & ps & Hps & Hr). pose proof (via_list Hi2 Hps) as Hi3.
  destruct ps as [[|p ps]|e]; [|refine (via_listed _ Hi3 Hr); frame_step; [by apply frames_delete_placements|frame_step]|apply St_ret_inv in Hr as [-> _]; by eapply inv_weaken].
  apply inv_weaken in Hi3. apply St_bind_inv in Hr as (w4 & rel & Hrel & Hr).
  assert (Hi4 : safe F w4) by (refine (via_frames _ Hi3 Hrel); frame_step; [frame_step|apply frames_releaseOidcConfigClaim]).
  destruct rel as [[]|e]; [|by apply St_ret_inv in Hr as [-> _]]. unfold db.and_then in Hr. apply St_bind_inv in Hr as (w5 & early & He & Hr).
  pose proof (via_frames (frames_release_claims _) Hi4 He) as Hi5. destruct early as [[early|]|e]; [by apply St_ret_inv in Hr as [-> _]| |by apply St_ret_inv in Hr as [-> _]].
  apply St_bind_inv in Hr as (w6 & x & Hx & Hr). assert (w' = w6) as -> by (destruct x; by apply St_ret_inv in Hr as [-> _]).
  eapply remove_run; [|exact Hi5|exact Hx]. apply HF. exists w1, w2, w3, w4, w5, x. split_and!; [done|by apply empty_list|by apply empty_list|done..].
Qed.

Lemma delete_resources_confirmed mc n w w' : delete_resources r mc cluster n w = (w', Ok None) → n = 0%nat ∧ deletion_confirmed mc w w'.
Proof.
  unfold delete_resources, or_fail. intros (w1 & [external|e] & Hext & Hr)%St_bind_inv; [|by apply St_ret_inv in Hr as [_ ?]].
  destruct (ClusterResources _ _ _ _) as [resources|e] eqn:Eres; [|by apply St_ret_inv in Hr as [_ ?]].
  apply St_bind_inv in Hr as (w2 & [entries|e] & Hdel & Hr); [|by apply St_ret_inv in Hr as [_ ?]].
  apply St_bind_inv in Hr as (w3 & c & Hc & Hr). apply St_bind_inv in Hr as (w4 & [] & Hset & Hr).
  destruct (String.eqb_spec (cond_Status c) ConditionTrue) as [Hs|]; [|by apply St_ret_inv in Hr as [_ ?]]. simpl in Hr.
  destruct n as [|n]; [|by apply St_ret_inv in Hr as [_ ?]]. split; [done|].
  apply St_bind_inv in Hr as (w5 & [[]|e] & Hspecs & Hr); apply St_ret_inv in Hr as [-> ?]; [|done].
  exists external, resources, entries, c, w1, w2, w3, w4. split_and!; try done; [by apply delete_all_written|by eapply check_confirmed].
Qed.

Lemma resolve_run w w' mc : resolve_management_cluster cluster w = (w', mc) → management_cluster mc w w'.
Proof.
  unfold resolve_management_cluster, management_cluster. destruct (cl_PlacementRef _) as [ref|]; [by intros [-> ->]%St_ret_inv|].
  intros (w1 & res & Hg & [-> ->]%St_ret_inv)%St_bind_inv. by exists res.
Qed.
Lemma moves_resolve : moves state interfere (resolve_management_cluster cluster).
Proof. unfold resolve_management_cluster. destruct (cl_PlacementRef _); [apply moves_ret|]. apply moves_bind; [apply moves_Get|]. intros res. apply moves_ret. Qed.

Lemma reconcileDelete_run (F : Prop) w w' res : dying cluster = true → reconcileDelete r cluster w = (w', res) →
  (finalizer_released w w' → F) → safe F w → safe F w'.
Proof.
  intros Hd. unfold reconcileDelete, or_fail. destruct (ContainsFinalizer _ _); [|by intros [-> _]%St_ret_inv]. simpl.
  intros (w1 & [] & Hph & Hr)%St_bind_inv HF Hi. pose proof (via_frames (frames_setPhase _ _) Hi Hph) as Hi1.
  apply St_bind_inv in Hr as (w2 & mc & Hmc & Hr). cbv zeta in Hr. pose proof (via_frames (frames_moves _ _ _ _ _ rely s0 _ _ moves_resolve) Hi1 Hmc) as Hi2. apply resolve_run in Hmc.
  destruct (String.eqb_spec mc "") as [->|Hne].
  { eapply finish_delete_run; [exact Hr| |exact Hi2]. intros Hcl. apply HF. split; [done|]. exists "", w1, w2, w2. split_and!; [done|done|by left|done]. }
  apply St_bind_inv in Hr as (w3 & pools & Hpools & Hr). pose proof (via_list Hi2 Hpools) as Hi3.
  destruct pools as [pools|e]; [|apply St_ret_inv in Hr as [-> _]; by eapply inv_weaken]. unfold db.and_then in Hr. apply St_bind_inv in Hr as (w4 & del & Hdel & Hr).
  assert (Hi4 : safe F w4) by (refine (via_listed _ Hi3 Hdel); by apply frames_delete_pools).
  destruct del as [[]|e]; [|by apply St_ret_inv in Hr as [-> _]]. apply St_bind_inv in Hr as (w5 & early & He & Hr).
  pose proof (via_frames (frames_delete_resources _ _ _) Hi4 He) as Hi5. destruct early as [[early|]|e]; [by apply St_ret_inv in Hr as [-> _]| |by apply St_ret_inv in Hr as [-> _]].
  apply delete_resources_confirmed in He as [Hn Hconf]. destruct pools; [|done]. apply St_ret_inv in Hdel as [-> _].
  eapply finish_delete_run; [exact Hr| |exact Hi5]. intros Hcl. apply HF. split; [done|]. exists mc, w1, w2, w5. split_and!; [done|done| |done].
  right. split; [done|]. exists w3. split; [by apply empty_list|done].
Qed.

Lemma frames_add_finalizer R : frames R (add_cluster_finalizer cluster).
Proof.
  unfold add_cluster_finalizer, add_finalizer. frame_step; [|frame_step]. destruct (Add_law (meta cluster) clusterFinalizer) as (l & Hl & Hin).
  assert (Hkey : key_of (with_meta (fun m => AddFinalizer m clusterFinalizer) cluster) = key) by (rewrite <- cluster_key; unfold key_of, with_meta; simpl; by rewrite Hl).
  apply frames_Update; [assumption| |]; [done|]. intros _ _. simpl. rewrite Hl. simpl. apply Hin. by left.
Qed.

Lemma frames_placement R baseDomain : frames R (reconcile_placement r key cluster baseDomain).
Proof.
  unfold reconcile_placement. apply frames_Get; [assumption|]. intros [p|e].
  - frame_step; [frame_step|apply frames_placed].
  - frame_step; [frame_step; [apply frames_setPhase|frame_step]|frame_step].
Qed.

(** The run after the cluster was read. *)
Lemma reconcile_run (F : Prop) w w' res : reconcile_cluster r key cluster w = (w', res) → (finalizer_released w w' → F) → safe F w → safe F w'.
Proof.
  unfold reconcile_cluster. destruct (dying cluster) eqn:Hd; [by apply reconcileDelete_run|]. intros E _ Hi. refine (via_frames _ Hi E).
  destruct (ContainsFinalizer _ _) eqn:Hf; simpl; [|apply frames_add_finalizer]. apply Contains_law in Hf.
  frame_step; [by apply frames_ensureHostedClusterName|]. frame_step; [frame_step|]. frame_step; [by apply frames_reconcileDNS|].
  frame_step; [|frame_step]. frame_step; [apply frames_deleteIfExpired|]. frame_step; [frame_step; frame_step|]. apply frames_placement.
Qed.
End props.

Section theorems.
Context `{KubeClientLaws, !Clock, Retry, ControllerLib, !ControllerLibLaws, !DesireClient, !DesireRows, !DesireLaws, !HyperShift, !DocumentIDs, !DocumentIDLaws, !MarshalResource, !Routing, !RouterFrame, !Scheduler World, !HostedReports}.

(** C2: A cluster loses its finalizer in a run of Reconcile only at the end of its
    deletion, in this order: the run read the cluster marked for deletion; it took the
    management cluster from its status or else from its Placement; when there was one, a
    list found no node pool labelled with the cluster's UID, the delete desire of every
    resource rendered for the cluster was upserted, the applier's report on each was read
    after that and confirms that version, and the specs were removed (when no management
    cluster is recorded and the Placement cannot be read or names none, these steps are
    skipped); then the rendered snapshot was deleted, lists found no node pool and no
    placement with its UID, and its claims were released. Each step ran, with the worlds
    of this run before and after it, and the removal of the finalizer is the last. Other
    sessions run between any two calls, and never take this finalizer off themselves. *)
Theorem cluster_finalizer_safe (r : ClusterReconciler) (key : nsname) w w' res (c : object KCluster) :
  (∀ u, stable (finalized KCluster key u clusterFinalizer)) →
  Reconcile r key w = (w', res) →
  objs (state w) KCluster !! key = Some c → clusterFinalizer ∈ om_Finalizers (meta c) →
  finalized KCluster key (uid_of c) clusterFinalizer (state w') ∨
  ∃ cluster w1, kc_Get KCluster key.1 key.2 w = (w1, Ok cluster) ∧ uid_of cluster = uid_of c ∧ finalizer_released r cluster w1 w'.
Proof.
  intros rely E Hc Hf. set (u := uid_of c).
  set (F := ∃ cluster w1, kc_Get KCluster key.1 key.2 w = (w1, Ok cluster) ∧ uid_of cluster = u ∧ finalizer_released r cluster w1 w').
  enough (Hi : inv KCluster key u clusterFinalizer (cluster_mine key u) (state w) F (λ _, True) (state w')) by (destruct Hi as (_ & [?|?] & _); auto).
  revert E. unfold Reconcile. intros (w1 & g & Hg & Hr)%St_bind_inv.
  assert (Hstart : inv KCluster key u clusterFinalizer (cluster_mine key u) (state w) False (λ _, True) (state w)).
  { apply guard_start. right. by exists c. }
  destruct (got_Get _ _ _ _ _ (rely u) (state w) False (λ _, True) KCluster key ltac:(done) w w1 g Hstart Hg) as [(Hs & Hfin & _) Hgot].
  assert (Hi1 : inv KCluster key u clusterFinalizer (cluster_mine key u) (state w) F (λ _, True) (state w1)) by (split_and!; [done|naive_solver|done]).
  destruct g as [cluster|e]; [|apply St_ret_inv in Hr as [-> ->]; exact Hi1]. destruct (Hgot cluster eq_refl) as [_ Hk].
  assert (Hu : uid_of cluster = u).
  { destruct Hfin as [[]|(o & Ho & Hou & _)]. apply Get_law in Hg as [_ Hget]. destruct key as [ns n]. simpl in Hget. pose proof (eq_trans (eq_sym Ho) Hget) as [= <-]. done. }
  refine (reconcile_run r key u (state w) (rely u) cluster Hu (eq_sym Hk) F w1 w' res Hr _ Hi1). intros Hrel. by exists cluster, w1.
Qed.

(** A deleted cluster whose management cluster is not recorded yet is cleaned up
    without deleting anything there when the read of its Placement fails for whatever
    reason: the run goes on exactly as for a cluster that was never placed. *)
Theorem placement_error_skips_deletion (r : ClusterReconciler) (cluster : object KCluster) w w1 e :
  ContainsFinalizer (meta cluster) clusterFinalizer = true → cl_Phase (status cluster) = ClusterPhaseDeleting → cl_PlacementRef (status cluster) = None →
  kc_Get KPlacement (om_Namespace (meta cluster)) (placement_name cluster) w = (w1, Err e) →
  reconcileDelete r cluster w =
    db.and_then (deleteRenderedHostedCluster (om_Namespace (meta cluster)) (om_Name (meta cluster))) (fun _ => cleanupAndRemoveFinalizer cluster) w1.
Proof.
  intros Hf Hph Hp Hg. unfold reconcileDelete. rewrite Hf. cbn [negb]. unfold mbind at 1, St_bind at 1, setPhase at 1. rewrite Hph, String.eqb_refl. cbn.
  unfold mbind at 1, St_bind at 1, resolve_management_cluster. rewrite Hp. unfold mbind at 1, St_bind at 1. by rewrite Hg.
Qed.

(** C11: Whatever a run of Reconcile writes is its cluster's: the cluster itself, the
    snapshot rendered under its name, node pools and placements labelled with its UID,
    reservations and OIDC configurations that carry its claim at that moment, or a new
    reservation under the name made of its UID. Each write touches one object. *)
Theorem cluster_writes_own (r : ClusterReconciler) (key : nsname) w w' res :
  (∀ u, stable (finalized KCluster key u clusterFinalizer)) →
  Reconcile r key w = (w', res) →
  rtc interfere (state w) (state w') ∨
  ∃ cluster w1, kc_Get KCluster key.1 key.2 w = (w1, Ok cluster) ∧ rtc (own_step (cluster_mine key (uid_of cluster))) (state w) (state w').
Proof.
  intros rely. unfold Reconcile. intros (w1 & g & Hg & Hr)%St_bind_inv. destruct g as [cluster|e].
  2:{ apply St_ret_inv in Hr as [-> ->]. left. by apply Get_law in Hg as [? _]. }
  right. exists cluster, w1. split; [done|]. set (u := uid_of cluster).
  assert (Hstart : inv KCluster key u clusterFinalizer (cluster_mine key u) (state w) True (λ _, True) (state w)) by (apply guard_start; by left).
  destruct (got_Get _ _ _ _ _ (rely u) (state w) True (λ _, True) KCluster key ltac:(done) w w1 _ Hstart Hg) as [Hi1 Hgot].
  destruct (Hgot cluster eq_refl) as [_ Hk].
  exact (proj1 (reconcile_run r key u (state w) (rely u) cluster eq_refl (eq_sym Hk) True w1 w' res Hr (λ _, I) Hi1)).
Qed.

(** ** The desires of a placed cluster *)
Context `{!StoresApart, !Fmt}.

Lemma quiet_updateStatus cluster prefix doc entries : moves id quiet (updateStatusFromDynamo cluster prefix doc entries).
Proof.
  apply moves_bind.
  - apply moves_go_two; [apply quiet_GetRead|]. destruct entries; [apply moves_ret|]. apply moves_bind; [apply quiet_check|]. intros c. apply moves_ret.
  - intros both. apply moves_bind; [apply quiet_retry_status|]. intros x. apply moves_ret.
Qed.

Lemma quiet_signing cluster : moves id quiet (oidcSigningKeyExternal cluster).
Proof.
  unfold oidcSigningKeyExternal. destruct (_ || _); [apply moves_ret|]. apply moves_bind; [|intros oc; apply moves_ret].
  apply moves_bind; [|intros [l|e]; apply moves_ret]. apply moves_bind; [apply quiet_List|]. intros [l|[]]; try apply moves_ret. apply quiet_List.
Qed.
Lemma quiet_upsert_rendered cluster resources : moves id quiet (upsert_rendered cluster resources).
Proof.
  unfold upsert_rendered. destruct (rendered_hosted resources) as [m|]; [|apply moves_ret]. destruct (r_Object m); try apply moves_ret.
  unfold upsertRenderedHostedCluster, upsertRenderedResource. cbv zeta. apply moves_bind; [apply quiet_Get|]. intros [current|e].
  - apply moves_bind; [apply quiet_Update|]. intros [x|x]; apply moves_ret.
  - destruct (negb _); [apply moves_ret|]. apply moves_bind; [apply quiet_Create|]. intros [x|x]; apply moves_ret.
Qed.

Lemma read_document_apart cluster resources : plain_cluster cluster → Forall plain resources → read_document cluster ∉ document_of taskKey <$> resources.
Proof.
  intros [Hu Hh] Hp (m & E & Hin)%list_elem_of_fmap. unfold read_document, document_of, NewDocumentID in E. apply uuid_inj, document_input_inj in E; [done|..].
  - repeat constructor; [|done]. unfold ManagementNamespace, str_free. rewrite str_forall_app. exact Hu.
  - apply Forall_cons. split; [done|]. exact (proj1 (Forall_forall _ _) Hp m Hin).
Qed.

(** C5: When the reconcile of a placed cluster succeeds, the tables of its management
    cluster hold an apply desire for every rendered resource, with exactly the rendered
    object as content, and the read desire of the HostedCluster; each under its own
    document, whatever the order in which the goroutines ran; and the status events of
    all these documents are routed to this cluster. This is said of each row that was
    trusted when the reconcile began; of a row whose last write had no answer, or that
    the replicas have not caught up with, a success says nothing. *)
Theorem placed_desires_stored (r : ClusterReconciler) (key : nsname) cluster (placement : object KPlacement) baseDomain w w' res :
  plain_cluster cluster → reconcilePlacedCluster r key cluster placement baseDomain w = (w', Ok res) →
  let mc := pl_ManagementCluster (spec placement) in
  ∃ external resources entries,
    ClusterResources cluster external baseDomain (rc_ControlPlaneOperatorImage (cr_RegionalConfig r)) = Ok resources ∧
    Forall2 (apply_stored mc (uid_of cluster) (target_of r key) w w') resources entries ∧
    read_stored mc (uid_of cluster) (target_of r key) (read_document cluster) (hosted_reference cluster) w w'.
Proof.
  intros Hplain. unfold reconcilePlacedCluster, or_fail, db.and_then. intros (w1 & [external|e] & Hq1 & Hr)%St_bind_inv; [|by apply St_ret_inv in Hr as [_ ?]].
  destruct (ClusterResources _ _ _ _) as [resources|e] eqn:Eres; [|by apply St_ret_inv in Hr as [_ ?]].
  apply St_bind_inv in Hr as (w2 & [x|e] & Hq2 & Hr); [|by apply St_ret_inv in Hr as [_ ?]].
  apply St_bind_inv in Hr as (w3 & [entries|e] & Hup & Hr); [|by apply St_ret_inv in Hr as [_ ?]].
  apply St_bind_inv in Hr as (w4 & [] & Hst & Hr). apply St_bind_inv in Hr as (w5 & t & Ht & Hr). apply St_ret_inv in Hr as [-> _].
  injection Ht as <- _. apply quiet_updateStatus, quiet_rtc in Hst. apply quiet_signing in Hq1. apply quiet_upsert_rendered in Hq2.
  assert (Hsame : same_rows w w2) by (apply (quiet_rtc w w2); by etrans).
  destruct (ClusterResources_identity _ _ _ _ _ Eres) as (Hnd & _ & _ & Hp). specialize (Hp Hplain).
  apply (upsert_all_stored _ _ _ _ _ _ w) in Hup as [Ha Hrd]; [|apply uuid_text|by apply NoDup_documents|by apply read_document_apart|exact Hsame].
  exists external, resources, entries. split_and!; [done| |by eapply read_stored_quiet].
  eapply Forall2_impl; [exact Ha|]. intros m e. by apply apply_stored_quiet.
Qed.
End theorems.
