(* ===== verification/NodePoolController.v ===== *)
(** * The NodePool controller (controller/nodepool_controller.go)

    A node pool waits for the cluster that controls it and for its Placement, then its
    resource is written as a desire next to the cluster's, and the report is copied into
    its status. A deleted pool switches its desire to Delete and keeps its finalizer
    until the applier confirms. *)
From S2P Require Import Prelude GoStrings Json Convert Authorizer StateM HttpApi ApiTypes KubeClient ApiClient Claims Controllers Footprint Goroutines Desires Render DesireSets RenderProps.
From stdpp Require Import base gmap strings list.
From Stdlib Require Import ZArith Lia String.
Open Scope string_scope.

(** What the operator reads of a HyperShift NodePool's status; [None] when the text
    cannot be read. *)
Record PoolStatus := mkPoolStatus { po_Conditions : list Condition; po_Replicas : option Z }.
Class PoolReports := { Unmarshal_NodePool : string → option PoolStatus }.

Module NodePoolController.
Definition nodePoolFinalizer : string := "seaplane.io/nodepool".
Definition five_seconds : Z := 5 * second.

Section controller.
Context `{KubeClient, !Clock, Retry, ControllerLib, !DesireClient, !HyperShift, !Fmt, !DocumentIDs, !MarshalResource, !Routing, !Scheduler World, !PoolReports}.

Definition StatusEvents : string := "nodepool".
(** Whether there is an event router. *)
Record NodePoolReconciler := mkNodePoolReconciler { nr_EventRouter : bool }.
Definition target_of (r : NodePoolReconciler) (key : nsname) : option EventRouter.EventTarget :=
  if nr_EventRouter r then Some (EventRouter.mkTarget StatusEvents key) else None.

(** ** The parent *)
Inductive parent_error := OwnerMissing | StoreError (e : kerr).

Definition isClusterControllerOwner (owner : option OwnerReference) : bool :=
  match owner with Some o => String.eqb (or_Kind o) "Cluster" && negb (String.eqb (or_UID o) "") | None => false end.

Definition parentCluster (nodePool : object KNodePool) : St World (result parent_error (object KCluster)) :=
  match GetControllerOf (meta nodePool) with
  | Some owner =>
      if isClusterControllerOwner (Some owner) then
        g ← kc_Get KCluster (om_Namespace (meta nodePool)) (or_Name owner);
        mret match (g : result kerr (object KCluster)) with
             | Err e => Err (StoreError e)
             | Ok cluster => if String.eqb (uid_of cluster) (or_UID owner) then Ok cluster else Err (StoreError NotFound)
             end
      else mret (Err OwnerMissing)
  | None => mret (Err OwnerMissing)
  end.

Definition parent_failed (what : string) (e : parent_error) : kerr :=
  match e with OwnerMissing => errorf (what +:+ ": no Cluster controller ownerReference") | StoreError e => wrap what e end.

(** ** The status *)
Definition set_phase (phase : string) (generation : Z) (st : NodePoolStatus) : NodePoolStatus :=
  mkNodePoolStatus (np_ObservedReplicas st) (np_Conditions st) phase generation.
Definition setPhase (nodePool : object KNodePool) (phase : string) : St World unit :=
  if String.eqb (np_Phase (status nodePool)) phase then mret tt
  else
    _ ← retry_status KNodePool (key_of nodePool) (Ok tt) (fun _ latest =>
          if String.eqb (np_Phase (status latest)) phase then None else Some (set_phase phase (om_Generation (meta latest)) (status latest)));
    mret tt.

Definition setSyncedCondition (nodePool : object KNodePool) (cond : Condition) : St World unit :=
  _ ← retry_status KNodePool (key_of nodePool) (Ok tt) (fun t latest =>
        let st := status latest in
        Some (mkNodePoolStatus (np_ObservedReplicas st) (SetStatusCondition t cond (np_Conditions st)) (np_Phase st) (np_ObservedGeneration st)));
  mret tt.

Definition observed_status (t : Z) (synced : Condition) (observed : option PoolStatus) (latest : object KNodePool) : NodePoolStatus :=
  let st := status latest in
  let reported := match observed with Some o => po_Conditions o | None => [] end in
  let conditions := fold_left (fun l c => if String.eqb (cond_Type c) "Ready" then SetStatusCondition t c l else l) reported
                      (SetStatusCondition t synced (np_Conditions st)) in
  mkNodePoolStatus (match observed with Some o => po_Replicas o | None => np_ObservedReplicas st end) conditions
    (if IsStatusConditionTrue conditions "Ready" then NodePoolPhaseReady else np_Phase st) (om_Generation (meta latest)).

Definition updateStatusFromDynamo (nodePool : object KNodePool) (statusPrefix : string) (applyEntry : DesireStatusEntry) (readDocID : string) : St World unit :=
  both ← go_two (CheckApplyDesireStatuses statusPrefix [applyEntry] (om_Generation (meta nodePool))) (GetReadDesireStatus statusPrefix readDocID);
  let observed := match both.2 with Ok st => st_KubeContent st ≫= Unmarshal_NodePool | Err _ => None end in
  _ ← retry_status KNodePool (key_of nodePool) (Ok tt) (fun t latest => Some (observed_status t both.1 observed latest));
  mret tt.

(** ** Snapshots *)
Definition upsertRenderedNodePool (source : object KNodePool) (nodePool : object KHyperNodePool) : Call unit :=
  upsertRenderedResource nodePool (om_Namespace (meta source)) (om_Name (meta source)) (rendered_labels (meta nodePool)).
Definition deleteRenderedNodePool (accountNamespace nodePoolName : string) : Call unit :=
  deleteRenderedResource (mkObj KHyperNodePool (named accountNamespace nodePoolName) zero_HyperNodePoolSpec tt).

(** ** Deletion *)
Definition pool_cleanup (m : Resource) : list (string * string * string) :=
  [(TableSuffixApplyDesires, document_of taskKey m, "delete ApplyDesire spec for NodePool " +:+ r_Name m);
   (TableSuffixReadDesires, document_of readTaskKey m, "delete ReadDesire spec for NodePool " +:+ r_Name m)].

(** The resource on the management cluster: [Some] ends the run. *)
Definition delete_resource (nodePool : object KNodePool) (cluster : object KCluster) (mc : string) : Call (option Result) :=
  match NodePoolResource nodePool cluster with
  | Err e => mret (Err (errorf ("render nodepool resource for deletion: " +:+ e)))
  | Ok m =>
      let docID := document_of taskKey m in
      ur ← UpsertApplyDesire (SpecsPrefix mc) docID (delete_desire mc (uid_of cluster) m);
      match ur with
      | Err e => mret (Err (errorf ("upsert delete desire: " +:+ derr_text e)))
      | Ok ur =>
          deleteSynced ← CheckApplyDesireStatuses (StatusPrefix mc) [entry_of docID m (ur_UpdateTime ur)] (om_Generation (meta nodePool));
          _ ← setSyncedCondition nodePool deleteSynced;
          if negb (String.eqb (cond_Status deleteSynced) ConditionTrue) then mret (Ok (Some (requeue five_seconds)))
          else db.and_then (delete_specs mc (pool_cleanup m) None) (fun _ => mret (Ok None))
      end
  end.

Definition reconcileDelete (nodePool : object KNodePool) : Call Result :=
  if negb (ContainsFinalizer (meta nodePool) nodePoolFinalizer) then mret (Ok done_result)
  else
    _ ← setPhase nodePool NodePoolPhaseDeleting;
    parent ← parentCluster nodePool;
    let finish :=
      db.and_then (deleteRenderedNodePool (om_Namespace (meta nodePool)) (om_Name (meta nodePool))) (fun _ =>
      or_fail "remove finalizer" (remove_finalizer KNodePool nodePoolFinalizer nodePool) (fun _ => mret (Ok done_result))) in
    match (parent : result parent_error (object KCluster)) with
    | Err (StoreError e) => if IsNotFound e then finish else mret (Err (wrap "get parent Cluster for NodePool deletion" e))
    | Err OwnerMissing => finish
    | Ok cluster =>
        match cl_PlacementRef (status cluster) with
        | None => finish
        | Some ref =>
            db.and_then (delete_resource nodePool cluster (pr_ManagementCluster ref)) (fun early =>
            match early with Some result => mret (Ok result) | None => finish end)
        end
    end.

(** ** A placed pool *)
Definition upsert_pool (r : NodePoolReconciler) (key : nsname) (mc clusterID : string) (m : Resource) (content : string) : Call DesireStatusEntry :=
  let docID := document_of taskKey m in
  let readDocID := document_of readTaskKey m in
  both ← go_two (UpsertApplyDesire (SpecsPrefix mc) docID (apply_desire mc clusterID m content))
                (UpsertReadDesire (SpecsPrefix mc) readDocID (read_desire mc clusterID (reference_to m)));
  match both with
  | (Err e, _) => mret (Err (errorf ("upsert apply desire: " +:+ derr_text e)))
  | (_, Err e) => mret (Err (errorf ("upsert read desire: " +:+ derr_text e)))
  | (Ok u, Ok _) =>
      _ ← Register (target_of r key) docID;
      _ ← Register (target_of r key) readDocID;
      mret (Ok (entry_of docID m (ur_UpdateTime u)))
  end.

(** The pool is read again to see the phase; when it is gone, the error wraps nothing. *)
Definition finish_status (nodePool : object KNodePool) : Call Result :=
  g ← kc_Get KNodePool (om_Namespace (meta nodePool)) (om_Name (meta nodePool));
  match (g : result kerr (object KNodePool)) with
  | Err e => mret (Err (if IsNotFound e then errorf "re-read nodepool after status update: %!w(<nil>)" else wrap "re-read nodepool after status update" e))
  | Ok nodePool =>
      let phase := np_Phase (status nodePool) in
      _ ← (if String.eqb phase "" || String.eqb phase NodePoolPhaseWaitingForCluster then setPhase nodePool NodePoolPhaseProvisioning else mret tt);
      mret (Ok (requeue statusRefreshDelay))
  end.

Definition reconcilePlacedPool (r : NodePoolReconciler) (key : nsname) (nodePool : object KNodePool) (cluster : object KCluster) (mc : string) : Call Result :=
  match NodePoolResource nodePool cluster with
  | Err e => mret (Err (errorf ("render nodepool resource: " +:+ e)))
  | Ok m =>
      match r_Object m with
      | RNodePool rendered =>
          db.and_then (upsertRenderedNodePool nodePool rendered) (fun _ =>
          match json_Marshal (r_Object m) with
          | Err e => mret (Err (errorf ("marshal nodepool resource: " +:+ e)))
          | Ok content =>
              db.and_then (upsert_pool r key mc (uid_of cluster) m content) (fun applyEntry =>
              _ ← updateStatusFromDynamo nodePool (StatusPrefix mc) applyEntry (document_of readTaskKey m);
              finish_status nodePool)
          end)
      | _ => mret (Err (errorf "rendered NodePool has unexpected type"))
      end
  end.

(** ** Reconcile *)
Definition wait_for_cluster (nodePool : object KNodePool) : Call Result :=
  _ ← setPhase nodePool NodePoolPhaseWaitingForCluster; mret (Ok (requeue five_seconds)).

Definition reconcile_pool (r : NodePoolReconciler) (key : nsname) (nodePool : object KNodePool) : Call Result :=
  if dying nodePool then reconcileDelete nodePool
  else if negb (ContainsFinalizer (meta nodePool) nodePoolFinalizer) then
    u ← add_finalizer nodePoolFinalizer nodePool;
    mret match u with
         | Ok _ => Ok done_result
         | Err e => if IsNotFound e then Ok done_result else Err (wrap "add finalizer" e)
         end
  else
    parent ← parentCluster nodePool;
    match (parent : result parent_error (object KCluster)) with
    | Err (StoreError NotFound) => wait_for_cluster nodePool
    | Err e => mret (Err (parent_failed "get parent Cluster" e))
    | Ok cluster =>
        if dying cluster then wait_for_cluster nodePool
        else match cl_PlacementRef (status cluster) with
             | None => mret (Ok (requeue five_seconds))
             | Some ref => reconcilePlacedPool r key nodePool cluster (pr_ManagementCluster ref)
             end
    end.

Definition Reconcile (r : NodePoolReconciler) (key : nsname) : Call Result :=
  g ← kc_Get KNodePool key.1 key.2;
  match (g : result kerr (object KNodePool)) with
  | Err e => mret (IgnoreNotFound done_result e)
  | Ok nodePool => reconcile_pool r key nodePool
  end.
End controller.
End NodePoolController.

(** * What the NodePool controller writes

    Its own pool and the snapshot rendered for it, nothing else; and the pool's finalizer
    goes only when the applier has confirmed the deletion, or when the pool cannot have
    a resource on a management cluster. *)
From stdpp Require Import base gmap strings list relations.
From Stdlib Require Import ZArith Lia String.
Open Scope string_scope.
Import NodePoolController.

Section props.
Context `{KubeClientLaws, !Clock, Retry, ControllerLib, !ControllerLibLaws, !DesireClient, !DesireRows, !DesireLaws, !HyperShift, !Fmt, !DocumentIDs, !DocumentIDLaws, !MarshalResource, !Routing, !RouterFrame, !Scheduler World, !PoolReports}.

Definition pool_mine (key : nsname) (s : KState) (k : Kind) (key' : nsname) : Prop :=
  match k with KNodePool | KHyperNodePool => key' = key | _ => False end.

Context (r : NodePoolReconciler) (key : nsname) (u : string) (s0 : KState).
Context (rely : stable (finalized KNodePool key u nodePoolFinalizer)).
#[local] Notation frames R m := (frames KNodePool key u nodePoolFinalizer (pool_mine key) s0 R m).
#[local] Notation inv F R := (inv KNodePool key u nodePoolFinalizer (pool_mine key) s0 F R).

Context (nodePool : object KNodePool) (pool_key : key_of nodePool = key).

Lemma frames_pool_status R missing change : frames R (retry_status KNodePool (key_of nodePool) missing change).
Proof. frame_step. intros s. exact pool_key. Qed.
Lemma frames_pool_phase R phase : frames R (setPhase nodePool phase).
Proof. unfold setPhase. frame_step; [frame_step|]. frame_step; [apply frames_pool_status|frame_step]. Qed.
Lemma frames_pool_synced R cond : frames R (setSyncedCondition nodePool cond).
Proof. unfold setSyncedCondition. frame_step; [apply frames_pool_status|frame_step]. Qed.

Lemma frames_pool_update R prefix entry doc : frames R (updateStatusFromDynamo nodePool prefix entry doc).
Proof.
  unfold updateStatusFromDynamo. frame_step; [|cbv zeta; frame_step; [apply frames_pool_status|frame_step]].
  apply frames_moves; [assumption|]. apply moves_go_two; [apply moves_check|by intros w w' res [? _]%GetRead_law].
Qed.

Lemma moves_parent : moves state interfere (parentCluster nodePool).
Proof.
  unfold parentCluster. destruct (GetControllerOf _) as [o|]; [|apply moves_ret]. destruct (isClusterControllerOwner _); [|apply moves_ret].
  apply moves_bind; [apply moves_Get|]. intros g. apply moves_ret.
Qed.

Lemma frames_pool_snapshot R rendered : frames R (upsertRenderedNodePool nodePool rendered).
Proof.
  assert (Hkey : (om_Namespace (meta nodePool), om_Name (meta nodePool)) = key) by exact pool_key.
  unfold upsertRenderedNodePool, upsertRenderedResource. cbv zeta. frame_step. frame_step.
  - frame_step; [|frame_step]. apply frames_Update; [assumption| |done]. intros s cur _ _. exact Hkey.
  - frame_step; [frame_step|]. frame_step; [|frame_step]. apply frames_Create; [assumption|]. intros s _ _. exact Hkey.
Qed.

Lemma moves_upsert_pool mc cid m content : moves state interfere (upsert_pool r key mc cid m content).
Proof.
  apply moves_bind.
  - apply moves_go_two; [by intros w w' res [? _]%UpsertApply_law; [|apply uuid_text]|by intros w w' res [? _]%UpsertRead_law; [|apply uuid_text]].
  - intros [[x|e] [y|e2]]; try apply moves_ret. apply moves_bind; [apply moves_Register|]. intros []. apply moves_bind; [apply moves_Register|]. intros []. apply moves_ret.
Qed.

Lemma pool_cleanup_documents m : Forall (λ x, document x.1.2) (pool_cleanup m).
Proof. repeat constructor; apply uuid_text. Qed.

Lemma frames_delete_resource R cluster mc : frames R (delete_resource nodePool cluster mc).
Proof.
  unfold delete_resource. frame_step; [|frame_step]. cbv zeta. frame_step; [apply frames_moves; [assumption|by intros w w' res [? _]%UpsertApply_law; [|apply uuid_text]]|].
  frame_step; [|frame_step]. frame_step; [apply frames_moves; [assumption|apply moves_check]|]. frame_step; [apply frames_pool_synced|].
  frame_step; [frame_step|]. frame_step; [|frame_step]. apply frames_moves; [assumption|]. apply moves_delete_specs, pool_cleanup_documents.
Qed.

(** The pool that is read again is under the same key. *)
Lemma frames_finish_status R : frames R (finish_status nodePool).
Proof.
  unfold finish_status. apply frames_Get; [assumption|]. intros [latest|e]; [|frame_step].
  apply (frames_pure _ _ _ _ _ _ (key_of latest = key)); [intros s [_ Hg]; destruct (Hg latest eq_refl) as [_ Hk]; by rewrite <- Hk|]. intros Hk. cbv zeta.
  frame_step; [|frame_step]. frame_step; [|frame_step]. unfold setPhase. frame_step; [frame_step|]. frame_step; [|frame_step].
  frame_step. intros s. exact Hk.
Qed.

Lemma frames_placed_pool R cluster mc : frames R (reconcilePlacedPool r key nodePool cluster mc).
Proof.
  unfold reconcilePlacedPool. frame_step; [|frame_step]. frame_step; try frame_step; [apply frames_pool_snapshot|].
  frame_step; [|frame_step]. frame_step; [apply frames_moves; [assumption|apply moves_upsert_pool]|].
  frame_step; [apply frames_pool_update|apply frames_finish_status].
Qed.

(** ** When the finalizer goes *)

(** The parent as it was resolved, and the resource on its management cluster: the delete
    desire was upserted, then the report that confirms it read, and only then the specs
    removed. *)
Definition pool_deletion_confirmed (cluster : object KCluster) (mc : string) (w w' : World) : Prop := ∃ m x cond w1 w2 w3,
  let e := entry_of (document_of taskKey m) m (ur_UpdateTime x) in
  NodePoolResource nodePool cluster = Ok m ∧
  UpsertApplyDesire (SpecsPrefix mc) (document_of taskKey m) (delete_desire mc (uid_of cluster) m) w = (w1, Ok x) ∧
  (CheckApplyDesireStatuses (StatusPrefix mc) [e] (om_Generation (meta nodePool)) w1 = (w2, cond) ∧ all_confirmed (StatusPrefix mc) [e] w1 w2) ∧
  setSyncedCondition nodePool cond w2 = (w3, tt) ∧
  delete_specs mc (pool_cleanup m) None w3 = (w', Ok tt).

(** Without a parent, or with one that was never placed, there is nothing to delete. *)
Definition resource_gone (w w' : World) : Prop := ∃ parent w1, parentCluster nodePool w = (w1, parent) ∧
  match parent with
  | Err OwnerMissing | Err (StoreError NotFound) => w' = w1
  | Err _ => False
  | Ok cluster => match cl_PlacementRef (status cluster) with
                  | None => w' = w1
                  | Some ref => pool_deletion_confirmed cluster (pr_ManagementCluster ref) w1 w'
                  end
  end.

(** The steps of a run, from the world in which the pool was read to the last one. *)
Definition pool_released (w w' : World) : Prop := dying nodePool = true ∧ ∃ w1 w2 w3 x,
  setPhase nodePool NodePoolPhaseDeleting w = (w1, tt) ∧ resource_gone w1 w2 ∧
  deleteRenderedNodePool (om_Namespace (meta nodePool)) (om_Name (meta nodePool)) w2 = (w3, Ok tt) ∧
  remove_finalizer KNodePool nodePoolFinalizer nodePool w3 = (w', x).

Lemma delete_resource_confirmed cluster mc w w' : delete_resource nodePool cluster mc w = (w', Ok None) → pool_deletion_confirmed cluster mc w w'.
Proof.
  unfold delete_resource, db.and_then. destruct (NodePoolResource nodePool cluster) as [m|e] eqn:Em; [|by intros [_ ?]%St_ret_inv]. cbv zeta.
  intros (w1 & [x|e] & Hx & Hr)%St_bind_inv; [|by apply St_ret_inv in Hr as [_ ?]]. apply St_bind_inv in Hr as (w2 & c & Hc & Hr).
  apply St_bind_inv in Hr as (w3 & [] & Hset & Hr). destruct (String.eqb_spec (cond_Status c) ConditionTrue) as [Hs|]; [|by apply St_ret_inv in Hr as [_ ?]].
  apply St_bind_inv in Hr as (w4 & [[]|e] & Hspecs & Hr); apply St_ret_inv in Hr as [-> ?]; [|done].
  exists m, x, c, w1, w2, w3. cbv zeta. split_and!; try done. by eapply check_confirmed.
Qed.

#[local] Notation safe F w := (inv F (λ _, True) (state w)).
#[local] Notation via_frames := (run_frames KNodePool key u nodePoolFinalizer (pool_mine key) s0 _ _ _ _ _).

Lemma finish_pool_run (F : Prop) w w' res :
  db.and_then (deleteRenderedNodePool (om_Namespace (meta nodePool)) (om_Name (meta nodePool))) (fun _ =>
    or_fail "remove finalizer" (remove_finalizer KNodePool nodePoolFinalizer nodePool) (fun _ => mret (Ok done_result))) w = (w', res) →
  (∀ w3 x, deleteRenderedNodePool (om_Namespace (meta nodePool)) (om_Name (meta nodePool)) w = (w3, Ok tt) →
    remove_finalizer KNodePool nodePoolFinalizer nodePool w3 = (w', x) → F) →
  safe F w → safe F w'.
Proof.
  unfold db.and_then, or_fail. intros (w1 & del & Hdel & Hr)%St_bind_inv HF Hi.
  assert (Hi1 : safe F w1) by (refine (via_frames _ Hi Hdel); apply frames_delete; [assumption|]; intros s cur _ _; exact pool_key).
  destruct del as [[]|e]; [|by apply St_ret_inv in Hr as [-> _]].
  apply St_bind_inv in Hr as (w2 & x & Hx & Hr). assert (w' = w2) as -> by (destruct x; by apply St_ret_inv in Hr as [-> _]).
  refine (remove_spec _ _ _ _ _ rely s0 F (λ _, True) nodePool _ _ _ w1 w2 x Hi1 Hx); [by eapply HF|done|]. intros s. exact pool_key.
Qed.

Lemma pool_delete_run (F : Prop) w w' res : dying nodePool = true → reconcileDelete nodePool w = (w', res) → (pool_released w w' → F) → safe F w → safe F w'.
Proof.
  intros Hd. unfold reconcileDelete. destruct (ContainsFinalizer _ _); [|by intros [-> _]%St_ret_inv]. simpl.
  intros (w1 & [] & Hph & Hr)%St_bind_inv HF Hi. pose proof (via_frames (frames_pool_phase _ _) Hi Hph) as Hi1.
  apply St_bind_inv in Hr as (w2 & parent & Hp & Hr). cbv zeta in Hr. pose proof (via_frames (frames_moves _ _ _ _ _ rely s0 _ _ moves_parent) Hi1 Hp) as Hi2.
  assert (Hfin : ∀ w3, resource_gone w1 w3 → safe F w3 →
    db.and_then (deleteRenderedNodePool (om_Namespace (meta nodePool)) (om_Name (meta nodePool))) (fun _ =>
      or_fail "remove finalizer" (remove_finalizer KNodePool nodePoolFinalizer nodePool) (fun _ => mret (Ok done_result))) w3 = (w', res) → safe F w').
  { intros w3 Hg Hi3 E. eapply finish_pool_run; [exact E| |exact Hi3]. intros w4 x Hdel Hx. apply HF. split; [done|]. by exists w1, w3, w4, x. }
  destruct parent as [cluster|[|e]].
  - destruct (cl_PlacementRef (status cluster)) as [ref|] eqn:Eref.
    + unfold db.and_then at 1 in Hr. apply St_bind_inv in Hr as (w3 & early & He & Hr). pose proof (via_frames (frames_delete_resource _ _ _) Hi2 He) as Hi3.
      destruct early as [[early|]|e]; [by apply St_ret_inv in Hr as [-> _]| |by apply St_ret_inv in Hr as [-> _]].
      apply (Hfin w3); [|done|done]. exists (Ok cluster), w2. rewrite Eref. split; [done|]. by apply delete_resource_confirmed.
    + apply (Hfin w2); [|done|done]. exists (Ok cluster), w2. by rewrite Eref.
  - apply (Hfin w2); [|done|done]. by exists (Err OwnerMissing), w2.
  - destruct e; simpl in Hr; try by apply St_ret_inv in Hr as [-> _]. apply (Hfin w2); [|done|done]. by exists (Err (StoreError NotFound)), w2.
Qed.

Lemma pool_run (F : Prop) w w' res : reconcile_pool r key nodePool w = (w', res) → (pool_released w w' → F) → safe F w → safe F w'.
Proof.
  unfold reconcile_pool, wait_for_cluster. destruct (dying nodePool) eqn:Hd; [by apply pool_delete_run|]. intros E _ Hi. refine (via_frames _ Hi E).
  destruct (ContainsFinalizer _ _) eqn:Hf; simpl.
  - apply frames_bind; [apply frames_moves; [assumption|apply moves_parent]|]. intros [cluster|[|[]]]; try apply frames_ret.
    + frame_step; [frame_step; [apply frames_pool_phase|frame_step]|]. frame_step; [apply frames_placed_pool|frame_step].
    + frame_step; [apply frames_pool_phase|frame_step].
  - unfold add_finalizer. frame_step; [|frame_step]. destruct (Add_law (meta nodePool) nodePoolFinalizer) as (l & Hl & Hin).
    assert (Hkey : key_of (with_meta (fun m => AddFinalizer m nodePoolFinalizer) nodePool) = key) by (rewrite <- pool_key; unfold key_of, with_meta; simpl; by rewrite Hl).
    apply frames_Update; [assumption| |]; [done|]. intros _ _. simpl. rewrite Hl. simpl. apply Hin. by left.
Qed.
End props.

Section theorems.
Context `{KubeClientLaws, !Clock, Retry, ControllerLib, !ControllerLibLaws, !DesireClient, !DesireRows, !DesireLaws, !HyperShift, !Fmt, !DocumentIDs, !DocumentIDLaws, !MarshalResource, !Routing, !RouterFrame, !Scheduler World, !PoolReports}.

(** C24: A run of the node pool's Reconcile writes the pool and the snapshot under its
    name, nothing else; and the pool loses its finalizer only at the end of its deletion, in
    this order: the run read the pool marked for deletion and resolved its parent; when
    the parent is a placed cluster, the delete desire of the pool's resource was upserted on
    its management cluster, the applier's report read after that confirms it, and the
    specs were removed (with no parent, or one that was never placed, these steps are
    skipped); then the snapshot was deleted. Each step ran, with the worlds of this run
    before and after it, and the removal of the finalizer is the last. *)
Theorem nodepool_finalizer_safe (r : NodePoolReconciler) (key : nsname) w w' res (p : object KNodePool) :
  stable (finalized KNodePool key (uid_of p) nodePoolFinalizer) →
  Reconcile r key w = (w', res) →
  objs (state w) KNodePool !! key = Some p → nodePoolFinalizer ∈ om_Finalizers (meta p) →
  rtc (own_step (pool_mine key)) (state w) (state w') ∧
  (finalized KNodePool key (uid_of p) nodePoolFinalizer (state w') ∨
   ∃ nodePool w1, kc_Get KNodePool key.1 key.2 w = (w1, Ok nodePool) ∧ uid_of nodePool = uid_of p ∧ pool_released nodePool w1 w').
Proof.
  intros rely E Hc Hf. set (u := uid_of p).
  set (F := ∃ nodePool w1, kc_Get KNodePool key.1 key.2 w = (w1, Ok nodePool) ∧ uid_of nodePool = u ∧ pool_released nodePool w1 w').
  enough (Hi : inv KNodePool key u nodePoolFinalizer (pool_mine key) (state w) F (λ _, True) (state w')) by (destruct Hi as (? & [?|?] & _); auto).
  revert E. unfold Reconcile. intros (w1 & g & Hg & Hr)%St_bind_inv.
  assert (Hstart : inv KNodePool key u nodePoolFinalizer (pool_mine key) (state w) False (λ _, True) (state w)).
  { apply guard_start. right. by exists p. }
  destruct (got_Get _ _ _ _ _ rely (state w) False (λ _, True) KNodePool key ltac:(done) w w1 g Hstart Hg) as [(Hs & Hfin & _) Hgot].
  assert (Hi1 : inv KNodePool key u nodePoolFinalizer (pool_mine key) (state w) F (λ _, True) (state w1)) by (split_and!; [done|naive_solver|done]).
  destruct g as [nodePool|e]; [|apply St_ret_inv in Hr as [-> ->]; exact Hi1]. destruct (Hgot nodePool eq_refl) as [_ Hk].
  assert (Hu : uid_of nodePool = u).
  { destruct Hfin as [[]|(o & Ho & Hou & _)]. apply Get_law in Hg as [_ Hget]. destruct key as [ns n]. simpl in Hget. pose proof (eq_trans (eq_sym Ho) Hget) as [= <-]. done. }
  refine (pool_run r key u (state w) rely nodePool (eq_sym Hk) F w1 w' res Hr _ Hi1). intros Hrel. by exists nodePool, w1.
Qed.
End theorems.
