(* ===== verification/OidcInfra.v ===== *)
(** * OIDC infrastructure (internal/oidc/infra.go)

    The signing key of an unmanaged OIDC configuration is copied into AWS Secrets
    Manager under [SecretName]; the issuer of every configuration is dialled to compute
    a thumbprint, at an address that was resolved and checked first. Secrets Manager,
    DNS, TLS and the key parsers are parameters; package net's classes of addresses are
    written out. *)
From S2P Require Import Prelude GoStrings Cidr StateM HttpApi ApiTypes KubeClient AccountObjects Render.
From stdpp Require Import base gmap strings list.
From Stdlib Require Import ZArith Lia Ascii String.
Open Scope string_scope.

(** ** Secrets Manager *)
Inductive smerr := ResourceExists | ResourceNotFound | SmError (msg : string).
Definition smerr_text (e : smerr) : string :=
  match e with ResourceExists => "ResourceExistsException" | ResourceNotFound => "ResourceNotFoundException" | SmError msg => msg end.

(** The text of the secret, or its bytes. *)
Record SecretValue := mkSecretValue { sv_Binary : option string; sv_String : option string }.

Class SecretsManager `{KubeClient} := {
  CreateSecret : string → string → string → St World (result smerr unit);
  PutSecretValue : string → string → St World (result smerr unit);
  DescribeSecret : string → St World (result smerr unit);
  DeleteSecret : string → St World (result smerr unit);
  (** with the credentials of a role *)
  GetSecretValue : string → string → St World (result smerr SecretValue)
}.

(** Parsers of private keys: the block of a PEM text, and the size of an RSA key; a
    PKCS 8 key may be of another kind. *)
Class KeyParser := {
  pem_block : string → option string;
  ParsePKCS1PrivateKey : string → option Z;
  ParsePKCS8PrivateKey : string → result string (option Z)
}.

(** Name resolution and TLS: the certificates the peer presents, as bytes. *)
Class Dialer `{KubeClient} := {
  LookupIPAddr : string → St World (result string (list Cidr.IP));
  IP_String : Cidr.IP → string;
  TLSDial : string → string → St World (result string (list string));
  hex_sha1 : string → string;
  url_Hostname : URL → string;
  url_Port : URL → string
}.

(** ** Keys *)
Definition minKeyBits : Z := 2048.

Definition checkRSAKeySize (bits : Z) : result string unit :=
  if (bits <? minKeyBits)%Z then Err ("RSA key size " +:+ FormatInt bits +:+ " bits is below the minimum of " +:+ FormatInt minKeyBits +:+ " bits") else Ok tt.

Definition ValidateRSAPrivateKey `{KeyParser} (pemData : string) : result string unit :=
  match pem_block pemData with
  | None => Err "no PEM block found"
  | Some block =>
      match ParsePKCS1PrivateKey block with
      | Some bits => checkRSAKeySize bits
      | None =>
          match ParsePKCS8PrivateKey block with
          | Err e => Err ("not a valid RSA private key: " +:+ e)
          | Ok None => Err "key is not RSA"
          | Ok (Some bits) => checkRSAKeySize bits
          end
      end
  end.

(** ** Stored keys *)
Section client.
Context `{SecretsManager}.

Definition StorePrivateKey (accountID configID privateKeyPEM : string) : St World (result string unit) :=
  let secretName := SecretName accountID configID in
  c ← CreateSecret secretName privateKeyPEM ("OIDC signing key for config " +:+ configID);
  match c with
  | Ok _ => mret (Ok tt)
  | Err ResourceExists =>
      p ← PutSecretValue secretName privateKeyPEM;
      mret match p with Ok _ => Ok tt | Err e => Err ("update secret: " +:+ smerr_text e) end
  | Err e => mret (Err ("create secret: " +:+ smerr_text e))
  end.

Definition PrivateKeyExists (accountID configID : string) : St World (result string bool) :=
  d ← DescribeSecret (SecretName accountID configID);
  mret match d with Ok _ => Ok true | Err ResourceNotFound => Ok false | Err e => Err ("describe secret: " +:+ smerr_text e) end.

Definition ReadCrossAccountSecret (secretARN roleARN : string) : St World (result string string) :=
  g ← GetSecretValue roleARN secretARN;
  mret match g with
       | Err e => Err ("read cross-account secret: " +:+ smerr_text e)
       | Ok v => Ok (match sv_Binary v with Some b => b | None => default "" (sv_String v) end)
       end.

Definition DeletePrivateKey (accountID configID : string) : St World (result string unit) :=
  d ← DeleteSecret (SecretName accountID configID);
  mret match d with Ok _ | Err ResourceNotFound => Ok tt | Err e => Err ("delete secret: " +:+ smerr_text e) end.
End client.

(** ** Classes of addresses (package net) *)
Section addresses.
Open Scope Z_scope.
Implicit Types ip : Cidr.IP.

(** The bytes from the left: [hi b n width] are the first [n] bits. *)
Definition hi (b n width : Z) : Z := Z.shiftr b (width - n).
Definition wide ip : option Z := match ip with Cidr.IP16 b => Some b | _ => None end.

Definition is4 (p : Z → bool) ip : bool := match Cidr.To4 ip with Some b => p b | None => false end.
(** By the 4-byte form if there is one, by the 16 bytes otherwise. *)
Definition by_form (p4 p16 : Z → bool) ip : bool :=
  match Cidr.To4 ip with Some b => p4 b | None => match wide ip with Some b => p16 b | None => false end end.

Definition IsLoopback ip : bool := by_form (fun b => hi b 8 32 =? 127) (fun b => b =? 1) ip.
Definition IsLinkLocalUnicast ip : bool := by_form (fun b => hi b 16 32 =? 169 * 256 + 254) (fun b => (hi b 8 128 =? 254) && (Z.land (hi b 16 128) 192 =? 128)) ip.
Definition IsLinkLocalMulticast ip : bool := by_form (fun b => hi b 24 32 =? 224 * 65536) (fun b => (hi b 8 128 =? 255) && (Z.land (hi b 16 128) 15 =? 2)) ip.
Definition IsInterfaceLocalMulticast ip : bool :=
  match wide ip with Some b => (hi b 8 128 =? 255) && (Z.land (hi b 16 128) 15 =? 1) | None => false end.
Definition IsMulticast ip : bool := by_form (fun b => hi b 4 32 =? 14) (fun b => hi b 8 128 =? 255) ip.
Definition IsPrivate ip : bool :=
  by_form (fun b => (hi b 8 32 =? 10) || (hi b 12 32 =? 172 * 16 + 1) || (hi b 16 32 =? 192 * 256 + 168)) (fun b => Z.land (hi b 8 128) 254 =? 252) ip.
Definition IsUnspecified ip : bool := by_form (fun b => b =? 0) (fun b => b =? 0) ip.

Definition isDisallowedIssuerIP ip : bool :=
  IsLoopback ip || IsLinkLocalUnicast ip || IsLinkLocalMulticast ip || IsInterfaceLocalMulticast ip || IsMulticast ip || IsPrivate ip || IsUnspecified ip.

(** The same classes as intervals: 0.0.0.0, 10.0.0.0/8, 127.0.0.0/8, 169.254.0.0/16,
    172.16.0.0/12, 192.168.0.0/16 and 224.0.0.0/4; ::, ::1, fc00::/7, fe80::/10 and
    ff00::/8. An IPv4-mapped address is its 4-byte form. *)
Definition forbidden4 : list (Z * Z) :=
  [(0, 0); (10 * 2 ^ 24, 11 * 2 ^ 24 - 1); (127 * 2 ^ 24, 128 * 2 ^ 24 - 1); ((169 * 256 + 254) * 2 ^ 16, (169 * 256 + 255) * 2 ^ 16 - 1);
   ((172 * 256 + 16) * 2 ^ 16, (172 * 256 + 32) * 2 ^ 16 - 1); ((192 * 256 + 168) * 2 ^ 16, (192 * 256 + 169) * 2 ^ 16 - 1); (224 * 2 ^ 24, 240 * 2 ^ 24 - 1)].
Definition forbidden16 : list (Z * Z) :=
  [(0, 1); (252 * 2 ^ 120, 254 * 2 ^ 120 - 1); ((254 * 256 + 128) * 2 ^ 112, (254 * 256 + 192) * 2 ^ 112 - 1); (255 * 2 ^ 120, 256 * 2 ^ 120 - 1)].
Definition among (ranges : list (Z * Z)) (b : Z) : Prop := Exists (λ r, r.1 ≤ b ≤ r.2) ranges.
Definition forbidden_address ip : Prop :=
  match Cidr.To4 ip with
  | Some b => among forbidden4 b
  | None => match ip with Cidr.IP16 b => among forbidden16 b | _ => False end
  end.

Lemma hi_interval b n w p : 0 ≤ n ≤ w → p * 2 ^ (w - n) ≤ b ≤ (p + 1) * 2 ^ (w - n) - 1 → hi b n w = p.
Proof.
  intros Hn Hb. unfold hi. rewrite Z.shiftr_div_pow2 by lia. symmetry. apply (Z.div_unique_pos _ _ _ (b - p * 2 ^ (w - n))); [|lia].
  assert (0 < 2 ^ (w - n)) by (apply Z.pow_pos_nonneg; lia). lia.
Qed.
Lemma hi_bounds b n w lo up : 0 ≤ n ≤ w → lo * 2 ^ (w - n) ≤ b ≤ up * 2 ^ (w - n) - 1 → lo ≤ hi b n w < up.
Proof.
  intros Hn Hb. unfold hi. rewrite Z.shiftr_div_pow2 by lia. assert (0 < 2 ^ (w - n)) by (apply Z.pow_pos_nonneg; lia).
  split; [apply Z.div_le_lower_bound; lia|apply Z.div_lt_upper_bound; lia].
Qed.

(** The classes cover the intervals. *)
Lemma classes_cover b p4 p16 ip : Cidr.To4 ip = Some b → by_form p4 p16 ip = p4 b.
Proof. unfold by_form. by intros ->. Qed.
Lemma classes_cover_wide b p4 p16 : Cidr.To4 (Cidr.IP16 b) = None → by_form p4 p16 (Cidr.IP16 b) = p16 b.
Proof. unfold by_form. by intros ->. Qed.

Lemma forbidden_disallowed ip : forbidden_address ip → isDisallowedIssuerIP ip = true.
Proof.
  unfold forbidden_address, isDisallowedIssuerIP, IsLoopback, IsLinkLocalUnicast, IsLinkLocalMulticast, IsMulticast, IsPrivate, IsUnspecified, among.
  rewrite !orb_true_iff. destruct (Cidr.To4 ip) as [b|] eqn:E4.
  - rewrite !(classes_cover b) by done. rewrite !orb_true_iff, !Z.eqb_eq. unfold forbidden4. rewrite !Exists_cons, Exists_nil. simpl fst. simpl snd.
    intros [H|[H|[H|[H|[H|[H|[H|[]]]]]]]].
    + right. lia.
    + left. right. left. left. apply hi_interval; lia.
    + do 6 left. apply hi_interval; lia.
    + do 5 left. right. apply hi_interval; lia.
    + left. right. left. right. apply hi_interval; lia.
    + left. right. right. apply hi_interval; lia.
    + do 2 left. right. apply hi_interval; lia.
  - destruct ip as [|b|b]; [done|done|]. rewrite !(classes_cover_wide b) by done. rewrite !andb_true_iff, !Z.eqb_eq. unfold forbidden16.
    rewrite !Exists_cons, Exists_nil. simpl fst. simpl snd. intros [H|[H|[H|[H|[]]]]].
    + assert (b = 0 ∨ b = 1) as [->| ->] by lia; [by right|by do 6 left].
    + left. right. assert (hi b 8 128 = 252 ∨ hi b 8 128 = 253) as [-> | ->]; [|done..]. pose proof (hi_bounds b 8 128 252 254). lia.
    + do 5 left. right. split; [apply hi_interval; lia|]. assert (Hx : 65152 ≤ hi b 16 128 < 65216) by (apply (hi_bounds b 16 128); lia).
      revert Hx. generalize (hi b 16 128). intros x Hx. assert (Hall : Forall (λ y, Z.land (65152 + y) 192 = 128) (seqZ 0 64)) by (apply (bool_decide_unpack _); vm_compute; exact I).
      rewrite Forall_forall in Hall. replace x with (65152 + (x - 65152)) by lia. apply Hall, elem_of_seqZ. lia.
    + do 2 left. right. apply hi_interval; lia.
Qed.
End addresses.

(** ** Thumbprints *)
Section thumbprint.
Context `{KubeClient, !Dialer, UrlParser, Fmt}.

(** [net.JoinHostPort]: a host with colons is put in brackets. *)
Definition JoinHostPort (host port : string) : string :=
  if str_free ":"%char host then host +:+ ":" +:+ port else "[" +:+ host +:+ "]:" +:+ port.

Definition resolveIssuerHost (issuerURL : string) : St World (result string (string * string)) :=
  match url_Parse issuerURL with
  | None => mret (Err "parse issuer URL")
  | Some u =>
      if negb (String.eqb (u_Scheme u) "https") then mret (Err ("issuer URL must use https scheme, got " +:+ Quote (u_Scheme u)))
      else
        let hostname := url_Hostname u in
        if String.eqb hostname "" then mret (Err "issuer URL has no host")
        else
          let port := if String.eqb (url_Port u) "" then "443" else url_Port u in
          addrs ← LookupIPAddr hostname;
          mret match addrs with
               | Err e => Err ("resolve issuer host " +:+ hostname +:+ ": " +:+ e)
               | Ok [] => Err ("issuer host " +:+ hostname +:+ " did not resolve to any address")
               | Ok ((first :: _) as l) =>
                   match list_find (fun ip => isDisallowedIssuerIP ip = true) l with
                   | Some (_, ip) => Err ("issuer host " +:+ hostname +:+ " resolves to disallowed address " +:+ IP_String ip)
                   | None => Ok (hostname, JoinHostPort (IP_String first) port)
                   end
               end
  end.

Definition thumbprintFromChain (certs : list string) : result string string :=
  match last certs with None => Err "no TLS certificates presented" | Some root => Ok (hex_sha1 root) end.

Definition dialThumbprint (hostname dialAddr : string) : St World (result string string) :=
  c ← TLSDial hostname dialAddr;
  mret match c with Err e => Err ("TLS dial " +:+ hostname +:+ ": " +:+ e) | Ok certs => thumbprintFromChain certs end.

Definition ComputeThumbprint (issuerURL : string) : St World (result string string) :=
  h ← resolveIssuerHost issuerURL;
  match h with Err e => mret (Err e) | Ok (hostname, dialAddr) => dialThumbprint hostname dialAddr end.
End thumbprint.
