(* ===== verification/OidcConfigs.v ===== *)
(** * The OidcConfig controller (controller/oidcconfig_controller.go)

    An OIDC configuration reserves its issuer URL by an Index named after the URL and
    labelled with its UID, so that no two configurations become Ready for the same
    issuer; the key of an unmanaged configuration is copied into Secrets Manager. *)
From S2P Require Import Prelude GoStrings Convert Cidr Authorizer StateM HttpApi ApiTypes KubeClient ApiClient Claims AccountObjects Controllers Footprint DnsReservations Render OidcInfra.
From stdpp Require Import base gmap strings list.
From Stdlib Require Import ZArith Lia String.
Open Scope string_scope.

Module OidcController.
Definition oidcConfigFinalizer : string := "seaplane.io/oidcconfig".
Definition thumbprintRefreshDelay : Z := 24 * 60 * minute.
Definition managedPendingRequeueInterval : Z := 30 * second.
Definition issuerURLConflictRequeueInterval : Z := 5 * minute.

Section controller.
Context `{KubeClient, !Clock, Retry, ControllerLib, !Digest, !SecretsManager, !KeyParser, !Dialer, UrlParser, Fmt}.

(** ** Statuses *)
Definition set_phase (phase : string) (generation : Z) (st : OidcConfigStatus) : OidcConfigStatus :=
  mkOidcStatus (oidc_Conditions st) phase (oidc_Thumbprint st) (oidc_LastUsedTimestamp st) generation.
Definition setPhase (oc : object KOidcConfig) (phase : string) : St World unit :=
  if String.eqb (oidc_Phase (status oc)) phase then mret tt
  else
    _ ← retry_status KOidcConfig (key_of oc) (Ok tt) (fun _ latest =>
          if String.eqb (oidc_Phase (status latest)) phase then None else Some (set_phase phase (om_Generation (meta latest)) (status latest)));
    mret tt.

Definition not_ready (reason message : string) : Condition := mkCondition "Ready" ConditionFalse 0 0 reason message.
Definition set_conditions (l : list Condition) (st : OidcConfigStatus) : OidcConfigStatus :=
  mkOidcStatus l (oidc_Phase st) (oidc_Thumbprint st) (oidc_LastUsedTimestamp st) (oidc_ObservedGeneration st).

Definition setReadyCondition (oc : object KOidcConfig) (reason message : string) : St World unit :=
  _ ← retry_status KOidcConfig (key_of oc) (Ok tt) (fun t latest =>
        Some (set_conditions (SetStatusCondition t (not_ready reason message) (oidc_Conditions (status latest))) (status latest)));
  mret tt.

Definition setReadyConditionAndPhase (oc : object KOidcConfig) (reason message phase : string) : St World unit :=
  _ ← retry_status KOidcConfig (key_of oc) (Ok tt) (fun t latest =>
        let st := status latest in
        Some (set_phase phase (om_Generation (meta latest)) (set_conditions (SetStatusCondition t (not_ready reason message) (oidc_Conditions st)) st)));
  mret tt.

(** ** The issuer's Index *)
Definition issuer_key (oc : object KOidcConfig) : nsname := (OidcIssuerReservationsNamespace, db.IssuerURLIndexName (oidc_IssuerUrl (spec oc))).
Definition issuer_index (oc : object KOidcConfig) : object KIndex :=
  mkObj KIndex (labelled (issuer_key oc).1 (issuer_key oc).2 {[AccountIDLabel := oidc_AccountID (spec oc); OwnerUIDLabel := uid_of oc]}) tt tt.

(** [None] when the URL is reserved; the result of the run otherwise. *)
Definition reserveIssuerURLIndex (oc : object KOidcConfig) : Call (option Result) :=
  c ← kc_Create KIndex (issuer_index oc);
  match (c : result kerr (object KIndex)) with
  | Ok _ => mret (Ok None)
  | Err e =>
      if negb (IsAlreadyExists e) then mret (Err (wrap "create issuer url index" e))
      else
        or_fail "get issuer url index" (kc_Get KIndex (issuer_key oc).1 (issuer_key oc).2) (fun existing =>
        if negb (String.eqb (owner existing) (uid_of oc)) then
          _ ← setReadyConditionAndPhase oc "IssuerURLConflict" ("issuerUrl " +:+ Quote (oidc_IssuerUrl (spec oc)) +:+ " is already reserved by another OIDC config") OidcConfigPhaseError;
          mret (Ok (Some (requeue issuerURLConflictRequeueInterval)))
        else mret (Ok None))
  end.

Definition deleteIssuerURLIndex (oc : object KOidcConfig) : Call unit :=
  g ← kc_Get KIndex (issuer_key oc).1 (issuer_key oc).2;
  match (g : result kerr (object KIndex)) with
  | Err e => mret (IgnoreNotFound tt e)
  | Ok index =>
      if negb (String.eqb (owner index) (uid_of oc)) then mret (Ok tt)
      else d ← kc_Delete KIndex index; mret match d with Ok _ => Ok tt | Err e => IgnoreNotFound tt e end
  end.

(** ** Readiness *)
Definition ready_condition : Condition := mkCondition "Ready" ConditionTrue 0 0 "OIDCConfigured" "OIDC infrastructure is configured and ready".
Definition ready_status (t : Z) (thumbprint : string) (latest : object KOidcConfig) : OidcConfigStatus :=
  let st := status latest in
  mkOidcStatus (SetStatusCondition t ready_condition (oidc_Conditions st)) OidcConfigPhaseReady thumbprint (oidc_LastUsedTimestamp st) (om_Generation (meta latest)).

Definition checkReadiness (oc : object KOidcConfig) (onFailure : string → string → Call Result) : Call Result :=
  thumbprint ← ComputeThumbprint (oidc_IssuerUrl (spec oc));
  match thumbprint with
  | Err e => onFailure "IssuerNotReady" e
  | Ok thumbprint =>
      or_fail "update status" (retry_status KOidcConfig (key_of oc) (Ok tt) (fun t latest => Some (ready_status t thumbprint latest))) (fun _ =>
      mret (Ok (requeue thumbprintRefreshDelay)))
  end.

Definition isReferencedByCluster (oc : object KOidcConfig) : Call bool :=
  or_fail "list clusters" (kc_List KCluster "" (WithLabel AccountIDLabel (oidc_AccountID (spec oc)))) (fun clusters =>
  mret (Ok (existsb (fun c : object KCluster => negb (dying c) && String.eqb (cl_OidcConfigID (spec c)) (uid_of oc)) clusters))).

Definition begin_pending (oc : object KOidcConfig) : St World unit :=
  if String.eqb (oidc_Phase (status oc)) "" then setPhase oc OidcConfigPhasePending else mret tt.

Definition wait_pending (oc : object KOidcConfig) (reason message : string) : Call Result :=
  _ ← setReadyConditionAndPhase oc reason message OidcConfigPhasePending; mret (Ok (requeue managedPendingRequeueInterval)).

Definition reconcileManaged (oc : object KOidcConfig) : Call Result :=
  _ ← begin_pending oc;
  db.and_then (reserveIssuerURLIndex oc) (fun taken =>
  match taken with
  | Some result => mret (Ok result)
  | None =>
      or_fail "check cluster references" (isReferencedByCluster oc) (fun referenced =>
      if negb referenced then wait_pending oc "AwaitingCluster" "Waiting for a cluster to be created that references this OIDC config"
      else checkReadiness oc (fun _ _ => wait_pending oc "IssuerNotReady" "Waiting for the referenced cluster's control plane to publish its OIDC configuration"))
  end).

(** The customer's key, copied once. [Some] ends the run. *)
Definition copy_key (oc : object KOidcConfig) : Call (option Result) :=
  let configID := om_Name (meta oc) in
  exists_ ← PrivateKeyExists (oidc_AccountID (spec oc)) configID;
  match exists_ with
  | Err e => mret (Err (errorf ("check private key: " +:+ e)))
  | Ok true => mret (Ok None)
  | Ok false =>
      key ← ReadCrossAccountSecret (oidc_SecretArn (spec oc)) (oidc_InstallerRoleArn (spec oc));
      match key with
      | Err e => _ ← setReadyCondition oc "CrossAccountReadFailed" e; mret (Err (errorf ("read cross-account secret: " +:+ e)))
      | Ok keyData =>
          match ValidateRSAPrivateKey keyData with
          | Err e => _ ← setReadyConditionAndPhase oc "InvalidPrivateKey" e OidcConfigPhaseError; mret (Ok (Some done_result))
          | Ok _ =>
              stored ← StorePrivateKey (oidc_AccountID (spec oc)) configID keyData;
              match stored with
              | Err e => _ ← setReadyCondition oc "SecretStoreFailed" e; mret (Err (errorf ("store private key: " +:+ e)))
              | Ok _ => mret (Ok None)
              end
          end
      end
  end.

Definition reconcileUnmanaged (oc : object KOidcConfig) : Call Result :=
  _ ← begin_pending oc;
  db.and_then (reserveIssuerURLIndex oc) (fun taken =>
  match taken with
  | Some result => mret (Ok result)
  | None =>
      db.and_then (copy_key oc) (fun early =>
      match early with
      | Some result => mret (Ok result)
      | None => checkReadiness oc (fun reason message =>
                  _ ← setReadyConditionAndPhase oc reason message OidcConfigPhaseError; mret (Err (errorf (reason +:+ ": " +:+ message))))
      end)
  end).

(** ** Deletion *)
Definition reconcileDelete (oc : object KOidcConfig) : Call Result :=
  if negb (ContainsFinalizer (meta oc) oidcConfigFinalizer) then mret (Ok done_result)
  else
    deleted ← (if String.eqb (oidc_Type (spec oc)) OidcConfigTypeUnmanaged
               then DeletePrivateKey (oidc_AccountID (spec oc)) (om_Name (meta oc)) else mret (Ok tt));
    match deleted with
    | Err e => mret (Err (errorf ("delete private key: " +:+ e)))
    | Ok _ =>
        or_fail "delete issuer url index" (deleteIssuerURLIndex oc) (fun _ =>
        or_fail "remove finalizer" (remove_finalizer KOidcConfig oidcConfigFinalizer oc) (fun _ => mret (Ok done_result)))
    end.

(** ** Reconcile *)
Definition reconcile_config (oc : object KOidcConfig) : Call Result :=
  if dying oc then reconcileDelete oc
  else if negb (ContainsFinalizer (meta oc) oidcConfigFinalizer) then
    u ← add_finalizer oidcConfigFinalizer oc;
    mret match u with Ok _ => Ok done_result | Err e => if IsNotFound e then Ok done_result else Err (wrap "add finalizer" e) end
  else if String.eqb (oidc_Type (spec oc)) OidcConfigTypeManaged then reconcileManaged oc
  else if String.eqb (oidc_Type (spec oc)) OidcConfigTypeUnmanaged then reconcileUnmanaged oc
  else _ ← setReadyConditionAndPhase oc "InvalidType" ("unknown type: " +:+ oidc_Type (spec oc)) OidcConfigPhaseError; mret (Ok done_result).

Definition Reconcile (key : nsname) : Call Result :=
  g ← kc_Get KOidcConfig key.1 key.2;
  match (g : result kerr (object KOidcConfig)) with
  | Err e => mret (IgnoreNotFound done_result e)
  | Ok oc => reconcile_config oc
  end.
End controller.
End OidcController.

(** * Issuers are exclusive, and addresses are checked

    A configuration is Ready only while it owns the Index of its issuer URL
    ([issuers_owned]); the controller keeps this, so two live configurations are never
    Ready for the same issuer. The address that is dialled for an issuer is one that was
    resolved and checked. *)
From stdpp Require Import base gmap strings list relations.
From Stdlib Require Import ZArith Lia String.
Open Scope string_scope.
Import OidcController.

(** The calls on Secrets Manager and the network leave the store to other sessions. *)
Class InfraLaws `{KubeClient, !SecretsManager, !Dialer} : Prop := {
  moves_CreateSecret : ∀ n v d, moves state interfere (CreateSecret n v d);
  moves_PutSecretValue : ∀ n v, moves state interfere (PutSecretValue n v);
  moves_DescribeSecret : ∀ n, moves state interfere (DescribeSecret n);
  moves_DeleteSecret : ∀ n, moves state interfere (DeleteSecret n);
  moves_GetSecretValue : ∀ r n, moves state interfere (GetSecretValue r n);
  moves_LookupIPAddr : ∀ h, moves state interfere (LookupIPAddr h);
  moves_TLSDial : ∀ h a, moves state interfere (TLSDial h a)
}.

Section props.
Context `{KubeClientLaws, !Clock, Retry, ControllerLib, !ControllerLibLaws, !Digest, !SecretsManager, !KeyParser, !Dialer, !InfraLaws, UrlParser, Fmt}.

(** ** The invariant *)
Definition owns_issuer (u url : string) (s : KState) : Prop :=
  ∃ idx : object KIndex, objs s KIndex !! (OidcIssuerReservationsNamespace, db.IssuerURLIndexName url) = Some idx ∧ owner idx = u.

Definition live_ready_config (o : object KOidcConfig) : Prop := dying o = false ∧ oidc_Phase (status o) = OidcConfigPhaseReady.

Definition config_owned (u : string) (s : KState) : Prop :=
  ∀ key o, objs s KOidcConfig !! key = Some o → uid_of o = u → live_ready_config o → owns_issuer u (oidc_IssuerUrl (spec o)) s.
Definition issuers_owned (s : KState) : Prop :=
  ∀ key o, objs s KOidcConfig !! key = Some o → live_ready_config o → owns_issuer (uid_of o) (oidc_IssuerUrl (spec o)) s.

Lemma issuers_owned_uids s : issuers_owned s ↔ ∀ u, config_owned u s.
Proof. split; [intros HJ u key o Ho <-; by eapply HJ|intros HU key o Ho; by eapply HU]. Qed.

Lemma issuers_exclusive s key1 key2 o1 o2 : wf s → issuers_owned s → objs s KOidcConfig !! key1 = Some o1 → objs s KOidcConfig !! key2 = Some o2 →
  live_ready_config o1 → live_ready_config o2 → oidc_IssuerUrl (spec o1) = oidc_IssuerUrl (spec o2) → key1 = key2.
Proof.
  intros Hwf HJ H1' H2' R1 R2 Hurl. destruct (HJ _ _ H1' R1) as (i1 & I1 & O1), (HJ _ _ H2' R2) as (i2 & I2 & O2). rewrite Hurl in I1.
  eapply (wf_unique _ Hwf); [done..|]. congruence.
Qed.

(** What is known of the configurations with a UID that was given out. *)
Definition issuer_is (u url : string) (s : KState) : Prop :=
  u ∈ used s ∧ ∀ key o, objs s KOidcConfig !! key = Some o → uid_of o = u → oidc_IssuerUrl (spec o) = url.
Definition all_dying (u : string) (s : KState) : Prop := u ∈ used s ∧ ∀ key o, objs s KOidcConfig !! key = Some o → uid_of o = u → dying o = true.

(** A step on the configuration [u] that keeps what it is. *)
Definition config_like (u : string) (s s' : KState) : Prop :=
  (∀ key o', objs s' KOidcConfig !! key = Some o' →
    ∃ o, objs s KOidcConfig !! key = Some o ∧ uid_of o' = uid_of o ∧ spec o' = spec o ∧ dying o' = dying o ∧
      (oidc_Phase (status o') = OidcConfigPhaseReady → oidc_Phase (status o) = OidcConfigPhaseReady ∨ owns_issuer (uid_of o) (oidc_IssuerUrl (spec o)) s) ∧
      (uid_of o ≠ u → o' = o)) ∧
  ∀ key o, objs s KOidcConfig !! key = Some o → uid_of o ≠ u → objs s' KOidcConfig !! key = Some o.
Definition config_step (u : string) (s s' : KState) : Prop := used s' = used s ∧ objs s' KIndex = objs s KIndex ∧ config_like u s s'.

(** A step on the Indexes of [u]. *)
Definition issuer_step (u : string) (s s' : KState) : Prop :=
  used s ⊆ used s' ∧ objs s' KOidcConfig = objs s KOidcConfig ∧ ∀ u', u' ≠ u → owned u' s' = owned u' s.

Lemma owns_step u url s s' : objs s' KIndex = objs s KIndex → owns_issuer u url s → owns_issuer u url s'.
Proof. intros E (idx & Hi & Ho). exists idx. by rewrite E. Qed.
Lemma owns_owned u url s s' : owned u s' = owned u s → owns_issuer u url s → owns_issuer u url s'.
Proof. intros E (idx & Hi & Ho). exists idx. split; [|done]. apply (owned_lookup u s'). rewrite E. by apply owned_lookup. Qed.

Lemma config_step_keeps v s s' : config_step v s s' →
  (issuers_owned s → issuers_owned s') ∧ (∀ u url, issuer_is u url s → issuer_is u url s') ∧ (∀ u, all_dying u s → all_dying u s').
Proof.
  intros (Hus & Hi & Hc & _). split_and!.
  - intros HJ key o' Ho' [Hd Hr]. destruct (Hc _ _ Ho') as (o & Ho & Hu & Hs & Hdy & Hp & _). rewrite Hu, Hs. eapply owns_step; [done|].
    destruct (Hp Hr) as [Hr'|?]; [|done]. apply (HJ _ _ Ho). split; congruence.
  - intros u url [Hin HU]. split; [by rewrite Hus|]. intros key o' Ho' Hu. destruct (Hc _ _ Ho') as (o & Ho & Hu' & Hs & _). rewrite Hs. apply (HU _ _ Ho). congruence.
  - intros u [Hin HD]. split; [by rewrite Hus|]. intros key o' Ho' Hu. destruct (Hc _ _ Ho') as (o & Ho & Hu' & _ & Hd & _). rewrite Hd. apply (HD _ _ Ho). congruence.
Qed.

(** An object replaced by one of its UID, or removed. *)
Lemma config_like_put (o o' : object KOidcConfig) s : objs s KOidcConfig !! key_of o' = Some o → uid_of o' = uid_of o → spec o' = spec o → dying o' = dying o →
  (oidc_Phase (status o') = OidcConfigPhaseReady → oidc_Phase (status o) = OidcConfigPhaseReady ∨ owns_issuer (uid_of o) (oidc_IssuerUrl (spec o)) s) →
  config_step (uid_of o) s (put s o').
Proof.
  intros Ho Hu Hs Hd Hp. split; [done|]. split; [by apply put_other|]. split; intros key x; rewrite put_same.
  - intros [[<- <-]|[_ Hx]]%lookup_insert_Some; [exists o; by split_and!|]. exists x. split_and!; [done..|by left|done].
  - intros Hx Hne. rewrite lookup_insert_ne; [done|]. intros <-. congruence.
Qed.
Lemma config_like_remove (o : object KOidcConfig) key s : objs s KOidcConfig !! key = Some o → config_step (uid_of o) s (remove_obj KOidcConfig key s).
Proof.
  intros Ho. split; [done|]. split; [done|]. split; intros key' x.
  - intros Hx%remove_lookup. exists x. split_and!; [done..|by left|done].
  - intros Hx Hne. rewrite remove_keeps; [done|]. right. intros <-. congruence.
Qed.

Lemma config_status_step (o : object KOidcConfig) (st : OidcConfigStatus) rv s s' : wf s → seen o s → status_effect (with_status (k := KOidcConfig) st o) rv s s' →
  (oidc_Phase st = OidcConfigPhaseReady → oidc_Phase (status o) = OidcConfigPhaseReady ∨ (objs s KOidcConfig !! key_of o = Some o → owns_issuer (uid_of o) (oidc_IssuerUrl (spec o)) s)) →
  config_step (uid_of o) s s'.
Proof.
  intros Hwf Hs (cur & Hc & Hv & _ & ->) Hp. change (objs s KOidcConfig !! key_of o = Some cur) in Hc.
  assert (cur = o) as -> by (eapply seen_current; done). apply config_like_put; try done. intros Hr. destruct (Hp Hr); [by left|right; auto].
Qed.

Lemma config_update_step (o : object KOidcConfig) f rv g s s' : wf s → seen o s → (∃ l, f (meta o) = set_finalizers l (meta o)) →
  update_effect (with_meta f o) rv g s s' → config_step (uid_of o) s s'.
Proof.
  intros Hwf Hs (l & Hl) Heff. destruct (update_seen o (with_meta f o) rv g s s' Hwf Hs) as (Ho & o' & Hk & Hu & _ & _ & Hd & Hsp & Hst & ->);
    [by unfold key_of, with_meta; simpl; rewrite Hl|by unfold same_version, uid_of, with_meta; simpl; rewrite Hl|done|].
  destruct (settle_cases s o') as [[_ ->]|[_ ->]].
  - apply config_like_put; [by rewrite Hk|done|done|unfold dying; by rewrite Hd|]. rewrite Hst. by left.
  - apply config_like_remove. by rewrite Hk.
Qed.

(** ** The steps on Indexes *)
Lemma index_create_step (i : object KIndex) uid rv now s s' : create_effect i uid rv now s s' →
  issuer_step (owner i) s s' ∧ ∀ u url, owns_issuer u url s → owns_issuer u url s'.
Proof.
  intros Heff. pose proof (touches_create _ _ _ _ _ _ Heff) as Ht. destruct Heff as (Hn & _ & _ & _ & ->). split; [split_and!|].
  - simpl. set_solver.
  - by apply (put_other s).
  - intros u' Hne. apply owned_ext. intros key o Ho. change (objs (put s (created_stored i uid rv now)) KIndex !! key = Some o ↔ objs s KIndex !! key = Some o).
    rewrite put_same, lookup_insert_Some. split; [intros [[_ <-]|[_ ?]]; [by destruct Hne|done]|]. intros Hl. right. split; [|done]. intros <-. by pose proof (eq_trans (eq_sym Hl) Hn).
  - intros u url (idx & Hi & Ho). exists idx. split; [|done]. rewrite Ht; [done|]. right. intros E. rewrite E in Hi. by pose proof (eq_trans (eq_sym Hi) Hn).
Qed.

Lemma issuers_owned_index s s' : objs s' KOidcConfig = objs s KOidcConfig →
  (∀ key o, objs s KOidcConfig !! key = Some o → live_ready_config o → owns_issuer (uid_of o) (oidc_IssuerUrl (spec o)) s → owns_issuer (uid_of o) (oidc_IssuerUrl (spec o)) s') →
  issuers_owned s → issuers_owned s'.
Proof. intros E Hk HJ key o. rewrite E. intros Ho Hr. eapply Hk; [done..|]. by eapply HJ. Qed.

(** The Index of a configuration that is being deleted. *)
Lemma index_delete_step (i : object KIndex) now rv s s' : wf s → seen i s → all_dying (owner i) s → delete_effect i now rv s s' →
  issuer_step (owner i) s s' ∧ (issuers_owned s → issuers_owned s') ∧ all_dying (owner i) s'.
Proof.
  intros Hwf Hs HD Heff. pose proof (touches_delete _ _ _ _ _ Hwf Heff) as Ht. destruct (delete_seen _ _ _ _ _ Hwf Hs Heff) as [Hi _].
  assert (E : objs s' KOidcConfig = objs s KOidcConfig) by (apply map_eq; intros key; apply Ht; by left).
  assert (Hus : used s ⊆ used s') by (by apply (delete_evolves _ _ _ _ _ Hwf Heff)). split_and!.
  - split_and!; [done..|]. by apply (delete_index_step i now rv s s').
  - apply issuers_owned_index; [done|]. intros key o Ho [Hd _] (idx & Hidx & Hown). exists idx. split; [|done]. rewrite Ht; [done|]. right. intros Ek.
    rewrite Ek in Hidx. pose proof (eq_trans (eq_sym Hidx) Hi) as [= ->]. rewrite (proj2 HD _ _ Ho (eq_sym Hown)) in Hd. done.
  - destruct HD as [Hin HD]. split; [by apply Hus|]. intros key o. rewrite E. apply HD.
Qed.

(** ** The environment

    [mine] are the UIDs of the configurations under [key], which one worker reconciles at
    a time. Other sessions may create configurations under other keys and reserve, release
    and publish other issuers; they leave the Indexes of [mine] to this worker, and neither
    change the URL of its configurations, nor take their finalizers or deletion marks off, nor
    make them Ready. *)
Context (key : nsname) (mine : gset string).

Record env_step (s s' : KState) : Prop := mkEnv {
  env_owned : ∀ u, u ∈ mine → owned u s' = owned u s;
  env_config : ∀ k o', objs s' KOidcConfig !! k = Some o' → uid_of o' ∈ mine →
    (uid_of o' ∉ used s ∧ oidc_Phase (status o') ≠ OidcConfigPhaseReady) ∨
    ∃ o, objs s KOidcConfig !! k = Some o ∧ uid_of o = uid_of o' ∧ oidc_IssuerUrl (spec o') = oidc_IssuerUrl (spec o) ∧ (dying o = true → dying o' = true) ∧
      (oidc_Phase (status o') = OidcConfigPhaseReady → oidc_Phase (status o) = OidcConfigPhaseReady);
  env_named : (∀ o, objs s KOidcConfig !! key = Some o → uid_of o ∈ mine) → ∀ o', objs s' KOidcConfig !! key = Some o' → uid_of o' ∈ mine;
  env_others : ∀ u, u ∉ mine → config_owned u s → config_owned u s';
  env_finalizer : ∀ k u, u ∈ mine → finalized KOidcConfig k u oidcConfigFinalizer s → finalized KOidcConfig k u oidcConfigFinalizer s'
}.

(** What the controller does. *)
Definition oidc_step (s s' : KState) : Prop :=
  interfere s s' ∨ ∃ u, u ∈ mine ∧ (issuer_step u s s' ∨ config_step u s s') ∧ config_owned u s' ∧
    (∀ k u', u' ≠ u → finalized KOidcConfig k u' oidcConfigFinalizer s → finalized KOidcConfig k u' oidcConfigFinalizer s').

Context (s0 : KState).
Record oidc_base (s : KState) : Prop := mkBase {
  base_steps : rtc oidc_step s0 s;
  base_owned : issuers_owned s;
  base_named : ∀ o, objs s KOidcConfig !! key = Some o → uid_of o ∈ mine
}.

Lemma others_finalized u s s' : (∀ k o, objs s KOidcConfig !! k = Some o → uid_of o ≠ u → objs s' KOidcConfig !! k = Some o) →
  ∀ k u', u' ≠ u → finalized KOidcConfig k u' oidcConfigFinalizer s → finalized KOidcConfig k u' oidcConfigFinalizer s'.
Proof. intros Hk k u' Hne (o & Ho & Hu & Hf). exists o. split_and!; [|done..]. apply Hk; [done|congruence]. Qed.

Lemma config_base_index u s s' : u ∈ mine → issuer_step u s s' → issuers_owned s' → oidc_base s → oidc_base s'.
Proof.
  intros Hm Hstep HJ' [B0 B1 B2]. pose proof Hstep as (_ & E & _). split; [|done|by rewrite E].
  eapply rtc_r; [done|]. right. exists u. split_and!; [done|by left|by apply issuers_owned_uids|]. apply others_finalized. intros k o. by rewrite E.
Qed.
Lemma base_config u s s' : u ∈ mine → config_step u s s' → oidc_base s → oidc_base s'.
Proof.
  intros Hm Hstep [B0 B1 B2]. destruct (config_step_keeps _ _ _ Hstep) as (K1 & _ & _). specialize (K1 B1). pose proof Hstep as (_ & _ & Hc & Hk). split; [|done|].
  - eapply rtc_r; [done|]. right. exists u. split_and!; [done|by right|by apply issuers_owned_uids|]. by apply others_finalized.
  - intros o' Ho'. destruct (Hc _ _ Ho') as (o & Ho & Hu & _). rewrite Hu. by apply B2.
Qed.

Section run.
Context (rely : ∀ s s', interfere s s' → env_step s s').

Lemma stable_config_base : stable oidc_base.
Proof.
  intros s s' Hi _ [B0 B1 B2]. pose proof (rely _ _ Hi) as Henv. split; [eapply rtc_r; [done|by left]| |by apply (env_named _ _ Henv)].
  apply issuers_owned_uids. intros u. destruct (decide (u ∈ mine)) as [Hm|Hm]; [|by apply (env_others _ _ Henv), issuers_owned_uids].
  intros k o' Ho' <- [Hd Hr]. destruct (env_config _ _ Henv _ _ Ho' Hm) as [[_ ?]|(o & Ho & Hu & Hurl & Hdy & Hph)]; [done|].
  rewrite Hurl, <- Hu. rewrite <- Hu in Hm. eapply owns_owned; [by apply (env_owned _ _ Henv)|]. apply (B1 _ _ Ho). split; [|by apply Hph].
  destruct (dying o); [|done]. by rewrite Hdy in Hd.
Qed.

Lemma stable_issuer_is u url : u ∈ mine → stable (issuer_is u url).
Proof.
  intros Hm s s' Hi _ [Hin HU]. pose proof (interfere_evolves _ _ Hi) as [Hus _]. split; [by apply Hus|]. intros k o' Ho' Hu. rewrite <- Hu in Hm.
  destruct (env_config _ _ (rely _ _ Hi) _ _ Ho' Hm) as [[Hn _]|(o & Ho & Hou & Hurl & _)]; [congruence|]. rewrite Hurl. apply (HU _ _ Ho). congruence.
Qed.
Lemma stable_all_dying u : u ∈ mine → stable (all_dying u).
Proof.
  intros Hm s s' Hi _ [Hin HD]. pose proof (interfere_evolves _ _ Hi) as [Hus _]. split; [by apply Hus|]. intros k o' Ho' Hu. rewrite <- Hu in Hm.
  destruct (env_config _ _ (rely _ _ Hi) _ _ Ho' Hm) as [[Hn _]|(o & Ho & Hou & _ & Hdy & _)]; [congruence|]. apply Hdy, (HD _ _ Ho). congruence.
Qed.

(** ** The controller *)
Context (u url : string) (mine_u : u ∈ mine).

#[local] Notation finalized := (finalized KOidcConfig key u oidcConfigFinalizer).
Definition live (s : KState) : Prop := oidc_base s ∧ finalized s ∧ issuer_is u url s.
Definition reserved (s : KState) : Prop := live s ∧ owns_issuer u url s.

Lemma stable_live : stable live.
Proof. apply stable_and; [apply stable_config_base|]. apply stable_and; [|by apply stable_issuer_is]. intros s s' Hi _. by apply (env_finalizer _ _ (rely _ _ Hi)). Qed.
Lemma stable_reserved : stable reserved.
Proof. apply stable_and; [apply stable_live|]. intros s s' Hi _. apply owns_owned. by apply (env_owned _ _ (rely _ _ Hi)). Qed.

Lemma keep_moves {A} P (m : St World A) : stable P → moves state interfere m → triple (on P) m (λ _, on P).
Proof. intros HP Hm w w' a Hw E. unfold on. eapply stable_rtc; [exact HP|by eapply Hm|apply state_wf|exact Hw]. Qed.

(** A status that does not become Ready, or does with the issuer's Index reserved. *)
Lemma config_retry_status (P : KState → Prop) missing (change : Z → object KOidcConfig → option OidcConfigStatus) :
  P = live ∨ P = reserved →
  (∀ t o st, change t o = Some st → oidc_Phase st = OidcConfigPhaseReady → oidc_Phase (status o) = OidcConfigPhaseReady ∨ P = reserved) →
  triple (on P) (retry_status KOidcConfig key missing change) (λ _, on P).
Proof.
  intros HP Hch. assert (Hst : stable P) by (destruct HP as [-> | ->]; [apply stable_live|apply stable_reserved]).
  apply triple_retry; [|done]. unfold status_attempt. eapply triple_bind; [apply (triple_Get KOidcConfig key.1 key.2 P Hst)|].
  intros [o|e]; [|apply triple_ret; by intros w [? _]]. eapply triple_bind; [apply read_clock_triple|]. intros t.
  destruct (change t o) as [st|] eqn:Ec; [|apply triple_ret; by intros w [? _]]. eapply triple_bind; [|intros x; apply triple_ret; intros w Hw; exact Hw].
  apply (triple_fact ((key.1, key.2) = key_of o)); [by intros w (_ & _ & ? & _)|]. intros Hk.
  eapply triple_pre; [apply (triple_Status_Update KOidcConfig (with_status (k := KOidcConfig) st o) (λ s, P s ∧ seen o s)); [by apply stable_and; [|apply stable_seen]|by intros s [? _]|]|by intros w (? & _ & _ & ?)].
  intros s s' rv Hwf [Hs Hseen] Heff. assert (Hbase : live s) by (destruct HP as [-> | ->]; [done|apply Hs]). destruct Hbase as (HB & Hfin & Hurl).
  assert (Hu : uid_of o = u).
  { pose proof Heff as (cur & Hc & Hv & _). change (objs s KOidcConfig !! key_of o = Some cur) in Hc. destruct Hfin as (x & Hx & Hu & _). destruct key as [ns n].
    simpl in Hk. rewrite Hk in Hx. pose proof (eq_trans (eq_sym Hx) Hc) as [= ->]. transitivity (uid_of cur); [|done]. symmetry. apply Hv. }
  assert (Hstep : config_step u s s').
  { rewrite <- Hu. eapply config_status_step; [done..|]. intros Hr. destruct (Hch _ _ _ Ec Hr) as [?|Hres]; [by left|right]. intros Ho.
    rewrite Hu, (proj2 Hurl _ _ Ho Hu). rewrite Hres in Hs. apply Hs. }
  destruct (config_step_keeps _ _ _ Hstep) as (_ & K2 & _). assert (live s') by (split_and!; [by eapply base_config|by eapply finalized_status|auto]).
  destruct HP as [-> | ->]; [done|]. split; [done|]. eapply owns_step; [apply Hstep|apply Hs].
Qed.

Context (oc : object KOidcConfig) (oc_uid : uid_of oc = u) (oc_key : key_of oc = key) (oc_url : oidc_IssuerUrl (spec oc) = url).

(** The writes that never make a configuration Ready. *)
Lemma keep_phase P phase : P = live ∨ P = reserved → phase ≠ OidcConfigPhaseReady → triple (on P) (setPhase oc phase) (λ _, on P).
Proof.
  intros HP Hph. unfold setPhase. destruct (String.eqb _ _); [by apply triple_ret|]. eapply triple_bind with (Q := λ _, on P); [|intros x; by apply triple_ret].
  rewrite oc_key. apply config_retry_status; [done|]. intros t o st. destruct (String.eqb _ _); [done|]. by intros [= <-].
Qed.
Lemma keep_condition P reason message : P = live ∨ P = reserved → triple (on P) (setReadyCondition oc reason message) (λ _, on P).
Proof.
  intros HP. unfold setReadyCondition. eapply triple_bind with (Q := λ _, on P); [|intros x; by apply triple_ret]. rewrite oc_key. apply config_retry_status; [done|].
  intros t o st [= <-]. simpl. by left.
Qed.
Lemma keep_condition_phase P reason message phase : P = live ∨ P = reserved → phase ≠ OidcConfigPhaseReady →
  triple (on P) (setReadyConditionAndPhase oc reason message phase) (λ _, on P).
Proof.
  intros HP Hph. unfold setReadyConditionAndPhase. eapply triple_bind with (Q := λ _, on P); [|intros x; by apply triple_ret]. rewrite oc_key. apply config_retry_status; [done|].
  by intros t o st [= <-].
Qed.

(** The Index is reserved before anything else happens. *)
Lemma reserve_spec : triple (on live) (reserveIssuerURLIndex oc) (λ res w, live (state w) ∧ (res = Ok None → owns_issuer u url (state w))).
Proof.
  assert (Hik : key_of (issuer_index oc) = (OidcIssuerReservationsNamespace, db.IssuerURLIndexName url)) by (unfold key_of, issuer_index, issuer_key; simpl; by rewrite oc_url).
  unfold reserveIssuerURLIndex. eapply triple_bind with (Q := λ c w, live (state w) ∧ (is_ok c = true → owns_issuer u url (state w))).
  { intros w w' c Hw E. pose proof E as (mid & Hi & Hc)%Create_effect. destruct (stable_mid live w mid stable_live Hi Hw) as [Hm Hwf].
    destruct Hc as [[-> Hf]|(uid & rv & t & Heff)]; [split; [done|by rewrite Hf]|].
    destruct (index_create_step _ _ _ _ _ _ Heff) as [Hstep Ho]. destruct Hm as (HB & Hfin & Hin & Hurl). pose proof Hstep as (Hus & Ec & _).
    assert (Hown : owner (issuer_index oc) = u) by (unfold owner, map_get; simpl; rewrite lookup_insert_ne by done; rewrite lookup_singleton_eq; exact oc_uid). rewrite Hown in Hstep.
    split; [split_and!|].
    - eapply config_base_index; [done..| |done]. eapply issuers_owned_index; [done| |apply HB]. intros k o _ _. apply Ho.
    - by eapply finalized_create.
    - split; [by apply Hus|]. intros k o. rewrite Ec. apply Hurl.
    - intros _. destruct Heff as (_ & _ & _ & _ & ->). exists (created_stored (issuer_index oc) uid rv t). rewrite <- Hik. split.
      + change (objs (put mid (created_stored (issuer_index oc) uid rv t)) KIndex !! key_of (created_stored (issuer_index oc) uid rv t) = Some (created_stored (issuer_index oc) uid rv t)).
        by rewrite put_same, lookup_insert_eq.
      + exact Hown. }
  intros [c|e]; [apply triple_ret; intros w [Hw Ho]; split; [done|]; intros _; by apply Ho|].
  destruct (negb (IsAlreadyExists e)); [apply triple_ret; by intros w [? _]|]. eapply triple_pre; [|intros w [Hw _]; exact Hw].
  eapply triple_bind; [apply (triple_Get KIndex _ _ live stable_live)|]. intros [existing|e2]; [|apply triple_ret; by intros w [? _]].
  rewrite oc_uid. destruct (String.eqb_spec (owner existing) u) as [Hown|Hown]; simpl.
  - apply triple_ret. intros w (Hw & Hl & _). split; [done|]. intros _. exists existing. by rewrite <- oc_url.
  - eapply triple_bind; [eapply triple_pre; [apply keep_condition_phase; [by left|done]|by intros w [? _]]|]. intros x. apply triple_ret. by intros w Hw.
Qed.

Lemma moves_thumbprint issuer : moves state interfere (ComputeThumbprint issuer).
Proof.
  unfold ComputeThumbprint, resolveIssuerHost, dialThumbprint. apply moves_bind.
  - destruct (url_Parse issuer) as [x|]; [|apply moves_ret]. destruct (negb _); [apply moves_ret|]. cbv zeta. destruct (String.eqb _ _); [apply moves_ret|].
    apply moves_bind; [apply moves_LookupIPAddr|]. intros l. apply moves_ret.
  - intros [[h a]|e]; [|apply moves_ret]. apply moves_bind; [apply moves_TLSDial|]. intros l. apply moves_ret.
Qed.

(** The configuration becomes Ready with its Index reserved. *)
Lemma readiness_spec (onFailure : string → string → Call Result) : (∀ a b, triple (on reserved) (onFailure a b) (λ _, on reserved)) →
  triple (on reserved) (checkReadiness oc onFailure) (λ _, on reserved).
Proof.
  intros Hf. unfold checkReadiness. eapply triple_bind; [apply (keep_moves reserved); [apply stable_reserved|apply moves_thumbprint]|].
  intros [t|e]; [|apply Hf]. eapply triple_or_fail with (Q := λ _, on reserved); [|intros []; by apply triple_ret|done].
  rewrite oc_key. apply config_retry_status; [by right|]. intros ? o st _ _. by right.
Qed.

Lemma wait_spec reason message : triple (on reserved) (wait_pending oc reason message) (λ _, on reserved).
Proof. eapply triple_bind; [apply keep_condition_phase; [by right|done]|]. intros x. by apply triple_ret. Qed.

Lemma begin_spec : triple (on live) (begin_pending oc) (λ _, on live).
Proof. unfold begin_pending. destruct (String.eqb _ _); [apply keep_phase; [by left|done]|by apply triple_ret]. Qed.

(** Either type, once the Index is reserved. *)
Lemma reserve_then (m : Call Result) : triple (on reserved) m (λ _, on reserved) →
  triple (on live) (_ ← begin_pending oc; db.and_then (reserveIssuerURLIndex oc) (fun taken => match taken with Some result => mret (Ok result) | None => m end)) (λ _, on live).
Proof.
  intros Hm. eapply triple_bind; [apply begin_spec|]. intros []. eapply triple_and_then; [apply reserve_spec| |by intros e w [? _]].
  intros [res|]; [apply triple_ret; by intros w [? _]|]. eapply triple_conseq; [exact Hm| |by intros x w [? _]]. intros w [Hw Ho]. split; [done|by apply Ho].
Qed.

Lemma managed_spec : triple (on live) (reconcileManaged oc) (λ _, on live).
Proof.
  apply reserve_then. unfold isReferencedByCluster. eapply triple_or_fail with (Q := λ _, on reserved); [| |done].
  - apply (keep_moves reserved); [apply stable_reserved|]. apply moves_bind; [by intros w w' res [? _]%List_law|]. intros [l|e]; apply moves_ret.
  - intros referenced. destruct referenced; simpl; [|apply wait_spec]. apply readiness_spec. intros a b. apply wait_spec.
Qed.

Lemma moves_store a c k : moves state interfere (StorePrivateKey a c k).
Proof.
  apply moves_bind; [apply moves_CreateSecret|]. intros [x|[]]; try apply moves_ret. apply moves_bind; [apply moves_PutSecretValue|]. intros y. apply moves_ret.
Qed.

Lemma copy_spec : triple (on reserved) (copy_key oc) (λ _, on reserved).
Proof.
  assert (Hk : ∀ A (m : St World A), moves state interfere m → triple (on reserved) m (λ _, on reserved)) by (intros A m; apply keep_moves, stable_reserved).
  unfold copy_key. cbv zeta. eapply triple_bind; [apply Hk, moves_bind; [apply moves_DescribeSecret|intros x; apply moves_ret]|].
  intros [[]|e]; [by apply triple_ret| |by apply triple_ret]. eapply triple_bind; [apply Hk, moves_bind; [apply moves_GetSecretValue|intros x; apply moves_ret]|].
  intros [k|e]; [|eapply triple_bind; [apply keep_condition; by right|]; intros x; by apply triple_ret].
  destruct (ValidateRSAPrivateKey k); [|eapply triple_bind; [apply keep_condition_phase; [by right|done]|]; intros x; by apply triple_ret].
  eapply triple_bind; [apply Hk, moves_store|]. intros [x|e]; [by apply triple_ret|]. eapply triple_bind; [apply keep_condition; by right|]. intros x. by apply triple_ret.
Qed.

Lemma unmanaged_spec : triple (on live) (reconcileUnmanaged oc) (λ _, on live).
Proof.
  apply reserve_then. eapply triple_and_then with (Q := λ _, on reserved); [apply copy_spec| |done]. intros [res|]; [by apply triple_ret|].
  apply readiness_spec. intros a b. eapply triple_bind; [apply keep_condition_phase; [by right|done]|]. intros x. by apply triple_ret.
Qed.

(** ** Deletion *)
Definition ending (s : KState) : Prop := oidc_base s ∧ all_dying u s.
Lemma stable_ending : stable ending.
Proof. apply stable_and; [apply stable_config_base|by apply stable_all_dying]. Qed.

Lemma delete_index_spec : triple (on ending) (deleteIssuerURLIndex oc) (λ _, on ending).
Proof.
  unfold deleteIssuerURLIndex. eapply triple_bind; [apply (triple_Get KIndex _ _ ending stable_ending)|]. intros [index|e]; [|apply triple_ret; by intros w [? _]].
  rewrite oc_uid. destruct (String.eqb_spec (owner index) u) as [Hown|]; simpl; [|apply triple_ret; by intros w [? _]].
  eapply triple_bind; [|intros d; apply triple_ret; intros w Hw; exact Hw].
  eapply triple_pre; [apply (triple_Delete KIndex index (λ s, ending s ∧ seen index s)); [apply stable_and; [apply stable_ending|apply stable_seen]|by intros s [? _]|]|by intros w (? & _ & _ & ?)].
  intros s s' t rv Hwf [[HB HD] Hs] Heff. rewrite <- Hown in HD. destruct (index_delete_step index t rv s s') as (Hstep & HJ & HD'); [done..|].
  rewrite Hown in *. split; [|done]. eapply config_base_index; [done..|by apply HJ, HB|done].
Qed.

Lemma remove_oidc_spec : triple (on ending) (remove_finalizer KOidcConfig oidcConfigFinalizer oc) (λ _, on ending).
Proof.
  apply triple_retry; [|done]. unfold update_attempt. eapply triple_bind; [apply (triple_Get KOidcConfig _ _ ending stable_ending)|].
  intros [latest|e]; [|apply triple_ret; by intros w [? _]]. apply (triple_fact (key_of oc = key_of latest)); [by intros w (_ & _ & ? & _)|]. intros Hk.
  destruct (ContainsFinalizer _ _); [|apply triple_ret; by intros w [? _]].
  eapply triple_bind; [|intros x; apply triple_ret; intros w Hw; exact Hw].
  eapply triple_pre; [apply (triple_Update KOidcConfig (without_finalizer oidcConfigFinalizer latest) (λ s, ending s ∧ seen latest s)); [apply stable_and; [apply stable_ending|apply stable_seen]|by intros s [? _]|]|by intros w (? & _ & _ & ?)].
  intros s s' rv g Hwf [[HB HD] Hs] Heff. destruct (Remove_law (meta latest) oidcConfigFinalizer) as (l & Hl & _).
  assert (Hm : uid_of latest ∈ mine).
  { apply (base_named _ HB). rewrite <- oc_key, Hk. pose proof Heff as (cur & Hc & Hv & _). assert (key_of (without_finalizer oidcConfigFinalizer latest) = key_of latest) as Ekey by (unfold key_of, without_finalizer, with_meta; simpl; by rewrite Hl).
    rewrite Ekey in Hc. rewrite Hc. f_equal. eapply seen_current; [done..|]. by unfold same_version, uid_of, without_finalizer, with_meta in Hv |- *; simpl in Hv; rewrite Hl in Hv. }
  assert (Hstep : config_step (uid_of latest) s s') by (eapply (config_update_step latest (fun m => RemoveFinalizer m oidcConfigFinalizer)); [done..|by exists l|exact Heff]).
  destruct (config_step_keeps _ _ _ Hstep) as (_ & _ & K3). split; [by eapply base_config|auto].
Qed.

Lemma oidc_delete_spec : triple (on ending) (reconcileDelete oc) (λ _, on ending).
Proof.
  unfold reconcileDelete. destruct (ContainsFinalizer _ _); simpl; [|by apply triple_ret]. eapply triple_bind with (Q := λ _, on ending).
  { apply (keep_moves ending); [apply stable_ending|]. destruct (String.eqb _ _); [|apply moves_ret]. apply moves_bind; [apply moves_DeleteSecret|]. intros x. apply moves_ret. }
  intros [x|e]; [|by apply triple_ret]. eapply triple_or_fail with (Q := λ _, on ending); [apply delete_index_spec|intros []|done].
  eapply triple_or_fail with (Q := λ _, on ending); [apply remove_oidc_spec|intros []; by apply triple_ret|done].
Qed.
End run.
End props.

Section theorems.
Context `{KubeClientLaws, !Clock, Retry, ControllerLib, !ControllerLibLaws, !Digest, !SecretsManager, !KeyParser, !Dialer, !InfraLaws, UrlParser, Fmt}.

Lemma read_facts (oc : object KOidcConfig) key s : wf s → objs s KOidcConfig !! key = Some oc →
  issuer_is (uid_of oc) (oidc_IssuerUrl (spec oc)) s ∧ (dying oc = true → all_dying (uid_of oc) s).
Proof.
  intros Hwf Ho. assert (Hin : uid_of oc ∈ used s) by (by eapply wf_uid). assert (Hu : ∀ k o, objs s KOidcConfig !! k = Some o → uid_of o = uid_of oc → o = oc).
  { intros k o Hk Hu. assert (k = key) as -> by (by eapply (wf_unique _ Hwf)). congruence. }
  split; [split; [done|]; intros k o Hk Hku; by rewrite (Hu k o)|]. intros Hd. split; [done|]. intros k o Hk Hku. by rewrite (Hu k o).
Qed.

Lemma reconcile_base key mine s0 (oc : object KOidcConfig) w w' res : (∀ s s', interfere s s' → env_step key mine s s') →
  objs (state w) KOidcConfig !! key = Some oc → oidc_base key mine s0 (state w) → reconcile_config oc w = (w', res) → oidc_base key mine s0 (state w').
Proof.
  intros rely Ho HB E. pose proof (wf_key _ (state_wf w) _ _ _ Ho) as Hk. destruct (read_facts oc key (state w) (state_wf w) Ho) as [Hurl Hdy].
  pose proof (base_named _ _ _ _ HB oc Ho) as Hm. set (u := uid_of oc) in *. set (url := oidc_IssuerUrl (spec oc)) in *.
  unfold reconcile_config in E. destruct (dying oc) eqn:Hd.
  { eapply (oidc_delete_spec key mine s0 rely u Hm oc eq_refl (eq_sym Hk)) in E as [HB' _]; [exact HB'|]. split; [done|by apply Hdy]. }
  destruct (ContainsFinalizer _ _) eqn:Hf; simpl in E.
  - assert (Hlive : live key mine s0 u url (state w)).
    { split_and!; [done| |done]. exists oc. split_and!; [done..|]. by apply Contains_law. }
    destruct (String.eqb _ _).
    { by eapply (managed_spec key mine s0 rely u url Hm oc eq_refl (eq_sym Hk) eq_refl) in E as [HB' _]. }
    destruct (String.eqb _ _).
    { by eapply (unmanaged_spec key mine s0 rely u url Hm oc eq_refl (eq_sym Hk) eq_refl) in E as [HB' _]. }
    apply St_bind_inv in E as (w1 & [] & Hset & Hr). apply St_ret_inv in Hr as [-> ->].
    refine (proj1 (keep_condition_phase key mine s0 rely u url Hm oc (eq_sym Hk) (live key mine s0 u url) _ _ _ _ _ w w1 tt Hlive Hset)); [by left|done].
  - apply St_bind_inv in E as (w1 & x & Hup & Hr). apply St_ret_inv in Hr as [-> ->]. unfold add_finalizer in Hup.
    refine (triple_Update KOidcConfig _ (λ s, oidc_base key mine s0 s ∧ seen oc s) (oidc_base key mine s0) _ _ _ w w1 x _ Hup).
    + apply stable_and; [by apply stable_config_base|apply stable_seen].
    + by intros s [? _].
    + intros s s' rv g Hwf [HBs Hs] Heff. destruct (Add_law (meta oc) oidcConfigFinalizer) as (l & Hl & _).
      eapply (base_config key mine s0 u); [done| |done]. eapply (config_update_step oc (fun m => AddFinalizer m oidcConfigFinalizer)); [done..|by exists l|exact Heff].
    + split; [done|]. by eapply seen_now; [apply state_wf|].
Qed.

(** What a controller does is what the controllers of other configurations expect. *)
Lemma oidc_step_env key2 mine mine2 s s' : mine ## mine2 → (∀ s s', interfere s s' → env_step key2 mine2 s s') → oidc_step mine s s' → env_step key2 mine2 s s'.
Proof.
  intros Hd Hi [?|(u & Hu & Hstep & Hp & Hfin)]; [by apply Hi|]. assert (Hne : ∀ u2, u2 ∈ mine2 → u2 ≠ u) by set_solver.
  assert (Ho : ∀ u2, u2 ≠ u → owned u2 s' = owned u2 s).
  { destruct Hstep as [(_ & _ & ?)|(_ & Hx & _)]; [done|]. intros u2 _. unfold owned. by rewrite Hx. }
  assert (Hr : ∀ k o', objs s' KOidcConfig !! k = Some o' → ∃ o, objs s KOidcConfig !! k = Some o ∧ uid_of o' = uid_of o ∧ (uid_of o ≠ u → o' = o)).
  { intros k o' Ho'. destruct Hstep as [(_ & E & _)|(_ & _ & Hc & _)]; [exists o'; by rewrite <- E|]. destruct (Hc _ _ Ho') as (o & ? & ? & _ & _ & _ & ?). by exists o. }
  split.
  - intros u2 ?. by apply Ho, Hne.
  - intros k o' Ho' Hm. right. destruct (Hr _ _ Ho') as (o & Hk & Hku & Heq). exists o. assert (o' = o) as -> by (apply Heq; rewrite <- Hku; by apply Hne). by split_and!.
  - intros Hn o' Ho'. destruct (Hr _ _ Ho') as (o & Hk & -> & _). by apply Hn.
  - intros u2 _ Hp2. destruct (decide (u2 = u)) as [->|Hn]; [done|]. intros k o' Ho' Hku Hl. destruct (Hr _ _ Ho') as (o & Hk & Hku' & Heq).
    assert (o' = o) as -> by (apply Heq; congruence). eapply owns_owned; [by apply Ho|]. by apply (Hp2 _ _ Hk).
  - intros k u2 Hm. by apply Hfin, Hne.
Qed.

(** C16: Two live OIDC configurations are never both Ready for the same issuer URL: a
    reconcile keeps the invariant that every live Ready configuration owns the Index of
    its issuer, so after any run the live Ready configurations of one URL are one
    object. Other sessions run between any two calls under [env_step]: they may create and
    delete other configurations and reserve and release other issuers, and leave the
    Indexes of this configuration alone, and its finalizer, URL and deletion mark; the
    steps of this run are what the runs for other configurations rely on in turn. *)
Theorem oidc_issuers_unique key mine w w' res :
  (∀ s s', interfere s s' → env_step key mine s s') → issuers_owned (state w) → (∀ o, objs (state w) KOidcConfig !! key = Some o → uid_of o ∈ mine) →
  Reconcile key w = (w', res) →
  issuers_owned (state w') ∧
  (∀ key1 key2 o1 o2, objs (state w') KOidcConfig !! key1 = Some o1 → objs (state w') KOidcConfig !! key2 = Some o2 →
     live_ready_config o1 → live_ready_config o2 → oidc_IssuerUrl (spec o1) = oidc_IssuerUrl (spec o2) → key1 = key2 ∧ o1 = o2) ∧
  rtc (oidc_step mine) (state w) (state w') ∧
  ∀ key2 mine2, mine ## mine2 → (∀ s s', interfere s s' → env_step key2 mine2 s s') →
    ∀ s s', oidc_step mine s s' → env_step key2 mine2 s s'.
Proof.
  intros rely HJ Hn E. assert (HB : oidc_base key mine (state w) (state w')).
  { assert (HB0 : oidc_base key mine (state w) (state w)) by (by split).
    revert E. unfold Reconcile. intros (w1 & g & Hg & Hr)%St_bind_inv.
    destruct (triple_Get KOidcConfig key.1 key.2 (oidc_base key mine (state w)) (stable_config_base key mine (state w) rely) w w1 g HB0 Hg) as [HB1 Hgot].
    destruct g as [oc|e]; [|apply St_ret_inv in Hr as [-> ->]; exact HB1]. destruct Hgot as [Ho _]. destruct key as [ns n]. by eapply reconcile_base. }
  split_and!; [apply HB| |apply HB|intros key2 mine2 Hd Hi s s'; by apply oidc_step_env].
  intros key1 key2 o1 o2 H1' H2' R1 R2 Hurl. assert (key1 = key2) as -> by (eapply issuers_exclusive; [apply (state_wf w')|apply HB|done..]).
  split; [done|]. congruence.
Qed.

(** No connection was made: at most the host name was looked up. *)
Definition not_dialled (issuer : string) (w w' : World) : Prop :=
  w' = w ∨ ∃ x l, url_Parse issuer = Some x ∧ LookupIPAddr (url_Hostname x) w = (w', l).

(** What is dialled: the first of the addresses the host name resolved to, at the port of
    the URL or 443, in the world in which they were resolved, and none of them is in a
    forbidden range. *)
Definition dialled (issuer : string) (w w' : World) (r : result string string) : Prop := ∃ x first rest w1 certs,
  url_Parse issuer = Some x ∧ u_Scheme x = "https" ∧ url_Hostname x ≠ "" ∧
  LookupIPAddr (url_Hostname x) w = (w1, Ok (first :: rest)) ∧ Forall (λ ip, ¬ forbidden_address ip) (first :: rest) ∧
  TLSDial (url_Hostname x) (JoinHostPort (IP_String first) (if String.eqb (url_Port x) "" then "443" else url_Port x)) w1 = (w', certs) ∧
  match certs with Ok certs => r = thumbprintFromChain certs | Err e => is_ok r = false end.

(** C31: A thumbprint is computed by at most one connection. It is made only for an https
    URL with a host, to the first of the very addresses the host resolved to, on the URL's
    port or 443, and only when none of them is loopback, link-local, multicast, private or
    unspecified, IPv4-mapped addresses included; otherwise the answer is an error and
    nothing is dialled. The name is not resolved again for the connection. *)
Theorem issuer_address_checked issuer w w' r : ComputeThumbprint issuer w = (w', r) →
  (is_ok r = false ∧ not_dialled issuer w w') ∨ dialled issuer w w' r.
Proof.
  unfold ComputeThumbprint, resolveIssuerHost. intros (w1 & h & Hh & Hr)%St_bind_inv.
  destruct (url_Parse issuer) as [x|] eqn:Ep; [|apply St_ret_inv in Hh as [-> ->]; apply St_ret_inv in Hr as [-> ->]; left; split; [done|by left]].
  destruct (String.eqb_spec (u_Scheme x) "https") as [Hs|]; cbn [negb] in Hh; [|apply St_ret_inv in Hh as [-> ->]; apply St_ret_inv in Hr as [-> ->]; left; split; [done|by left]].
  cbv zeta in Hh. destruct (String.eqb_spec (url_Hostname x) "") as [|Hhost]; [apply St_ret_inv in Hh as [-> ->]; apply St_ret_inv in Hr as [-> ->]; left; split; [done|by left]|].
  apply St_bind_inv in Hh as (w2 & addrs & Hl & Hh). apply St_ret_inv in Hh as [-> ->].
  assert (Hno : ∀ e, (mret (Err e) : St World (result string string)) w2 = (w', r) → (is_ok r = false ∧ not_dialled issuer w w') ∨ dialled issuer w w' r).
  { intros e [-> ->]%St_ret_inv. left. split; [done|]. right. by exists x, addrs. }
  destruct addrs as [[|first rest]|e]; try by eapply Hno.
  destruct (list_find _ (first :: rest)) as [[i ip]|] eqn:Ef; [by eapply Hno|]. right.
  unfold dialThumbprint in Hr. apply St_bind_inv in Hr as (w3 & certs & Hd & Hr). apply St_ret_inv in Hr as [-> ->].
  exists x, first, rest, w2, certs. split_and!; try done; [|by destruct certs].
  apply list_find_None in Ef. eapply Forall_impl; [exact Ef|]. intros ip Hip Hf%forbidden_disallowed. by destruct Hip.
Qed.

(** ** The signing key of an unmanaged configuration *)
Context `{!HyperShift}.

Lemma SecretName_inj a c1 c2 : SecretName a c1 = SecretName a c2 → c1 = c2.
Proof.
  unfold SecretName. intros E. assert (Hi : ∀ p x y : string, p +:+ x = p +:+ y → x = y) by (intros p; induction p as [|c p IH]; simpl; [done|]; intros x y [= ?]; auto).
  apply Hi, Hi, Hi in E. by apply str_app_inj_r in E.
Qed.

(** The cluster of an unmanaged OIDC configuration never reads the signing key the
    configuration's controller stored: the controller stores it under the
    configuration's name, and the rendered ExternalSecret names the configuration's UID,
    which is how clusters refer to it. *)
Theorem signing_key_path_differs (cluster : object KCluster) (oc : object KOidcConfig) bd img resources :
  ClusterResources cluster true bd img = Ok resources →
  cl_OidcConfigID (spec cluster) = uid_of oc → cl_AccountID (spec cluster) = oidc_AccountID (spec oc) → uid_of oc ≠ om_Name (meta oc) →
  (∃ x md s, x ∈ resources ∧ r_Object x = RExternalSecret md s ∧ ("key", SecretName (oidc_AccountID (spec oc)) (uid_of oc)) ∈ es_Data s) ∧
  ∀ x md s e, x ∈ resources → r_Object x = RExternalSecret md s → e ∈ es_Data s → e.2 ≠ SecretName (oidc_AccountID (spec oc)) (om_Name (meta oc)).
Proof.
  intros Hr Hid Hacc Hne. unfold ClusterResources, managementClusterIdentity, hostedCluster in Hr. destruct (String.eqb (uid_of cluster) ""); [done|].
  destruct (String.eqb (HostedClusterName cluster) ""); [done|]. destruct (toHostedClusterSpec _ _); [|done]. injection Hr as <-. rewrite Hid, Hacc.
  set (key := oidcSigningKeySecret _ _ _ _). split.
  - exists key. do 2 eexists. split_and!; [|reflexivity|by left]. do 6 right. apply elem_of_app. right. by left.
  - intros x md s e Hx Ho He. assert (Hcase : x = key ∨ (∀ md s, r_Object x = RExternalSecret md s → es_Data s = [(".dockerconfigjson", "/infra/pull-secret")])).
    { rewrite !elem_of_cons, elem_of_app in Hx. destruct Hx as [->|[->|[->|[->|[->|[->|[Hx|Hx]]]]]]]; try (right; intros ??; naive_solver).
      - right. destruct (cl_AdditionalTrustBundle _); [|by apply elem_of_nil in Hx]. apply list_elem_of_singleton in Hx as ->. done.
      - left. by apply list_elem_of_singleton in Hx. }
    destruct Hcase as [->|Hp].
    + injection Ho as <- <-. apply list_elem_of_singleton in He as ->. simpl. by intros ?%SecretName_inj.
    + rewrite (Hp _ _ Ho) in He. apply list_elem_of_singleton in He as ->. done.
Qed.
End theorems.
