(* ===== verification/Placements.v ===== *)
(** * The Placement controller (controller/placement_controller.go)

    Every cluster gets a Placement on a management cluster, named after it; the Placement
    is marked Bound and recorded in the cluster's status. *)
From S2P Require Import Prelude GoStrings Convert Authorizer StateM ApiTypes KubeClient ApiClient Claims Controllers Footprint Render.
From stdpp Require Import base gmap strings list relations.
From Stdlib Require Import ZArith Lia String.
Open Scope string_scope.

Module PlacementController.
Section controller.
Context `{KubeClient, !Clock, Retry, ControllerLib}.

Definition five_seconds : Z := 5 * second.
Definition placementName (cluster : object KCluster) : string := om_Name (meta cluster) +:+ ".placement".

(** The first management cluster that is not a test's. *)
Definition selectManagementCluster : Call string :=
  or_fail "list management clusters" (kc_List KManagementCluster "" AllObjects) (fun l =>
  mret match list_find (fun mc => HasPrefix (om_Name (meta mc)) "test-mc" = false) l with
       | Some (_, mc) => Ok (om_Name (meta mc))
       | None => Err (errorf "no management clusters configured")
       end).

Definition owner_reference (cluster : object KCluster) : OwnerReference := mkOwnerRef "Cluster" (om_Name (meta cluster)) (uid_of cluster) true.

Definition new_placement (cluster : object KCluster) (mc : string) : result string (object KPlacement) :=
  match SetControllerReference (owner_reference cluster)
          (labelled (om_Namespace (meta cluster)) (placementName cluster) {[ClusterUIDLabel := uid_of cluster]}) with
  | Err e => Err e
  | Ok m => Ok (mkObj KPlacement m (mkPlacementSpec (om_Name (meta cluster)) mc) (zero_Status KPlacement))
  end.

(** The Placement, or the result of the run. *)
Definition find_placement (cluster : object KCluster) : Call (object KPlacement + Result) :=
  g ← kc_Get KPlacement (om_Namespace (meta cluster)) (placementName cluster);
  match (g : result kerr (object KPlacement)) with
  | Ok placement => mret (Ok (inl placement))
  | Err e =>
      if negb (IsNotFound e) then mret (Err (wrap "get placement" e))
      else
        or_fail "select management cluster" selectManagementCluster (fun mc =>
        match new_placement cluster mc with
        | Err e => mret (Err (errorf ("set Placement ownerReference: " +:+ e)))
        | Ok placement =>
            c ← kc_Create KPlacement placement;
            mret match c with
                 | Ok placement => Ok (inl placement)
                 | Err e => if IsAlreadyExists e then Ok (inr (requeue five_seconds)) else Err (wrap "create placement" e)
                 end
        end)
  end.

Definition bound_status (t : Z) (latest : object KPlacement) : option PlacementStatus :=
  let st := status latest in
  if String.eqb (pl_Phase st) PlacementPhaseBound then None
  else Some (mkPlacementStatus
               (SetStatusCondition t (mkCondition "Bound" ConditionTrue (om_Generation (meta latest)) 0 "Assigned"
                                        ("Assigned to management cluster " +:+ pl_ManagementCluster (spec latest))) (pl_Conditions st))
               PlacementPhaseBound (om_Generation (meta latest))).

Definition set_placement (ref : PlacementReference) (st : ClusterStatus) : ClusterStatus :=
  mkClusterStatus (cl_Conditions st) (cl_Phase st) (cl_ControlPlaneEndpoint st) (cl_Version st) (Some ref)
    (cl_ObservedGeneration st) (cl_UpgradePolicyStatus st) (cl_BaseDomain st).

Definition placed (cluster : object KCluster) (placement : object KPlacement) : bool :=
  match cl_PlacementRef (status cluster) with
  | Some ref => String.eqb (pr_Name ref) (placementName cluster) && String.eqb (pr_ManagementCluster ref) (pl_ManagementCluster (spec placement))
  | None => false
  end.

Definition record_placement (cluster : object KCluster) (placement : object KPlacement) : Call Result :=
  or_fail "update placement status"
    (if String.eqb (pl_Phase (status placement)) PlacementPhaseBound then mret (Ok tt)
     else retry_status KPlacement (om_Namespace (meta cluster), placementName cluster) (Ok tt) bound_status) (fun _ =>
  or_fail "update cluster placement ref"
    (if placed cluster placement then mret (Ok tt)
     else retry_status KCluster (key_of cluster) (Ok tt) (fun _ latest =>
            Some (set_placement (mkPlacementRef (placementName cluster) (pl_ManagementCluster (spec placement))) (status latest)))) (fun _ =>
  mret (Ok done_result))).

Definition Reconcile (key : nsname) : Call Result :=
  g ← kc_Get KCluster key.1 key.2;
  match (g : result kerr (object KCluster)) with
  | Err e => mret (IgnoreNotFound done_result e)
  | Ok cluster =>
      if dying cluster then mret (Ok done_result)
      else
        db.and_then (find_placement cluster) (fun found =>
        match found with inr result => mret (Ok result) | inl placement => record_placement cluster placement end)
  end.
End controller.
End PlacementController.

(** ** What it writes *)
Section props.
Context `{KubeClientLaws, !Clock, Retry, ControllerLib, !ControllerLibLaws}.
Import PlacementController.

(** Placements stay, on their management clusters. *)
Definition keeps_assignments (s s' : KState) : Prop := ∀ k (o : object KPlacement), objs s KPlacement !! k = Some o →
  ∃ o', objs s' KPlacement !! k = Some o' ∧ uid_of o' = uid_of o ∧ spec o' = spec o.

#[export] Instance keeps_assignments_refl : Reflexive keeps_assignments.
Proof. intros s k o Ho. by exists o. Qed.
#[export] Instance keeps_assignments_trans : Transitive keeps_assignments.
Proof.
  intros s1 s2 s3 K1 K2 k o Ho. destruct (K1 _ _ Ho) as (o2 & Ho2 & Hu2 & Hs2), (K2 _ _ Ho2) as (o3 & Ho3 & Hu3 & Hs3). exists o3. split_and!; congruence.
Qed.

Definition placement_key (key : nsname) : nsname := (key.1, key.2 +:+ ".placement").

(** The management cluster of a new Placement: the first one of the list made between the
    two worlds that is not a test's. *)
Definition selected (mc : string) (w w' : World) : Prop := ∃ l i m, kc_List KManagementCluster "" AllObjects w = (w', Ok l) ∧
  list_find (fun mc => HasPrefix (om_Name (meta mc)) "test-mc" = false) l = Some (i, m) ∧ mc = om_Name (meta m) ∧
  HasPrefix mc "test-mc" = false ∧ objs (state w') KManagementCluster !! key_of m = Some m.

(** A new Placement [o] is about to be created: none was found, and a management cluster
    was selected for it. It is labelled with the UID of the cluster that was read. *)
Definition to_create (cluster : object KCluster) (o : object KPlacement) (w w' : World) : Prop := ∃ mc w1,
  kc_Get KPlacement (om_Namespace (meta cluster)) (placementName cluster) w = (w1, Err NotFound) ∧ selected mc w1 w' ∧ new_placement cluster mc = Ok o ∧
  key_of o = placement_key (key_of cluster) ∧ om_Labels (meta o) = {[ClusterUIDLabel := uid_of cluster]} ∧ spec o = mkPlacementSpec (om_Name (meta cluster)) mc.

(** The Placement of the cluster: it was found, or it was created. *)
Definition assigned (cluster : object KCluster) (p : object KPlacement) (w w' : World) : Prop :=
  kc_Get KPlacement (om_Namespace (meta cluster)) (placementName cluster) w = (w', Ok p) ∨
  ∃ o w1, to_create cluster o w w1 ∧ kc_Create KPlacement o w1 = (w', Ok p) ∧ spec p = spec o.

(** The steps after that: the Placement is marked Bound, and its management cluster is
    recorded in the status of the cluster. *)
Inductive record_step (cluster : object KCluster) (p : object KPlacement) (s s' : KState) : Prop :=
| rs_other : interfere s s' → record_step cluster p s s'
| rs_bound (o : object KPlacement) st rv : objs s KPlacement !! placement_key (key_of cluster) = Some o → pl_Phase st = PlacementPhaseBound →
    status_effect (with_status (k := KPlacement) st o) rv s s' → record_step cluster p s s'
| rs_recorded (o : object KCluster) rv : objs s KCluster !! key_of cluster = Some o →
    status_effect (with_status (k := KCluster) (set_placement (mkPlacementRef (placementName cluster) (pl_ManagementCluster (spec p))) (status o)) o) rv s s' →
    record_step cluster p s s'.

(** The runs that write: the one that fails to create a Placement (its answer may be lost),
    and the one that has a Placement and records it. *)
Inductive placement_run (key : nsname) (w w' : World) : Prop :=
| pr_idle : rtc interfere (state w) (state w') → placement_run key w w'
| pr_failed cluster w1 o w2 e : kc_Get KCluster key.1 key.2 w = (w1, Ok cluster) → dying cluster = false → to_create cluster o w1 w2 →
    kc_Create KPlacement o w2 = (w', Err e) → placement_run key w w'
| pr_recorded cluster w1 p w2 : kc_Get KCluster key.1 key.2 w = (w1, Ok cluster) → dying cluster = false → assigned cluster p w1 w2 →
    rtc (record_step cluster p) (state w2) (state w') → placement_run key w w'.

(** ** The run *)
Lemma select_run w w' mc : selectManagementCluster w = (w', Ok mc) → selected mc w w'.
Proof.
  unfold selectManagementCluster, or_fail. intros (w1 & [l|e] & Hl & Hr)%St_bind_inv; apply St_ret_inv in Hr as [-> Hr]; [|done].
  destruct (list_find _ l) as [[i m]|] eqn:Ef; [|done]. injection Hr as ->. exists l, i, m. pose proof Ef as (Hi & Hp & _)%list_find_Some. split_and!; [done..|].
  apply List_law in Hl as [_ [_ Hin]]. apply Hin. by eapply list_elem_of_lookup_2.
Qed.
Lemma moves_select : moves state interfere selectManagementCluster.
Proof. apply moves_bind; [apply moves_List|]. intros [l|e]; apply moves_ret. Qed.

Lemma placementName_key (cluster : object KCluster) : (om_Namespace (meta cluster), placementName cluster) = placement_key (key_of cluster).
Proof. done. Qed.

(** Without a Placement in hand nothing was written, except when the creation failed. *)
Lemma find_run cluster w w' found : find_placement cluster w = (w', found) →
  (∃ p, found = Ok (inl p) ∧ assigned cluster p w w') ∨
  (∀ p, found ≠ Ok (inl p)) ∧ (rtc interfere (state w) (state w') ∨ ∃ o w1 e, to_create cluster o w w1 ∧ kc_Create KPlacement o w1 = (w', Err e)).
Proof.
  unfold find_placement, or_fail. intros (w1 & g & Hg & Hr)%St_bind_inv. pose proof (moves_Get _ _ _ _ _ _ Hg) as Hi.
  destruct g as [p|e]; [apply St_ret_inv in Hr as [-> ->]; left; exists p; split; [done|by left]|].
  destruct e; simpl in Hr; try (apply St_ret_inv in Hr as [-> ->]; right; split; [done|by left]).
  apply St_bind_inv in Hr as (w2 & mc & Hmc & Hr). pose proof (moves_select _ _ _ Hmc) as Hi2. destruct mc as [mc|e]; [|apply St_ret_inv in Hr as [-> ->]; right; split; [done|left; by etrans]].
  apply select_run in Hmc. destruct (new_placement cluster mc) as [o|e] eqn:Eo; [|apply St_ret_inv in Hr as [-> ->]; right; split; [done|left; by etrans]].
  assert (Hto : to_create cluster o w w2).
  { exists mc, w1. split_and!; [done..| | |]; unfold new_placement in Eo; destruct (SetControllerReference _ _) as [md|] eqn:Em; try done; injection Eo as <-; try done;
      apply SetController_law in Em as (owners & ->); [apply placementName_key|done]. }
  apply St_bind_inv in Hr as (w3 & c & Hc & Hr). apply St_ret_inv in Hr as [-> ->]. destruct c as [c|e].
  - left. exists c. split; [done|]. right. exists o, w2. split_and!; [done..|]. by apply Create_law in Hc as (mid & _ & uid & rv & t & -> & _).
  - right. split; [by destruct (IsAlreadyExists e)|]. right. by exists o, w2, e.
Qed.

Context (cluster : object KCluster) (p : object KPlacement) (s0 : KState).
Definition recording (s : KState) : Prop := rtc (record_step cluster p) s0 s.
Lemma stable_recording : stable recording.
Proof. intros s s' Hi _ Hr. eapply rtc_r; [done|by apply rs_other]. Qed.

(** A status written under conflicts, as steps. *)
Lemma retry_steps k (change : Z → object k → option (Status k)) key' :
  (∀ t o st s s' rv, objs s k !! key' = Some o → change t o = Some st → status_effect (with_status st o) rv s s' → record_step cluster p s s') →
  triple (on recording) (retry_status k key' (Ok tt) change) (λ _, on recording).
Proof.
  intros Hstep. apply triple_retry; [|done]. unfold status_attempt. eapply triple_bind; [apply (triple_Get k key'.1 key'.2 recording stable_recording)|].
  intros [o|e]; [|apply triple_ret; by intros w [? _]]. eapply triple_bind; [apply read_clock_triple|]. intros t.
  destruct (change t o) as [st|] eqn:Ec; [|apply triple_ret; by intros w [? _]]. eapply triple_bind; [|intros x; apply triple_ret; intros w Hw; exact Hw].
  apply (triple_fact (key' = key_of o)); [intros w (_ & _ & Hk & _); by destruct key'|]. intros Hk.
  eapply triple_pre; [apply (triple_Status_Update k (with_status st o) (λ s, recording s ∧ seen o s)); [apply stable_and; [apply stable_recording|apply stable_seen]|by intros s [? _]|]|by intros w (? & _ & _ & ?)].
  intros s s' rv Hwf [Hr Hs] Heff. eapply rtc_r; [exact Hr|]. eapply Hstep; [|done|exact Heff].
  pose proof Heff as (cur & Hc & Hv & _). change (objs s k !! key_of o = Some cur) in Hc. rewrite Hk. rewrite Hc. f_equal. by eapply seen_current.
Qed.

Lemma record_spec : triple (on recording) (record_placement cluster p) (λ _, on recording).
Proof.
  unfold record_placement. eapply triple_or_fail with (Q := λ _, on recording); [|intros []|done].
  - destruct (String.eqb _ _); [by apply triple_ret|]. apply retry_steps. intros t o st s s' rv Ho Hc Heff.
    eapply (rs_bound cluster p s s' o st); [exact Ho| |exact Heff]. unfold bound_status in Hc. cbv zeta in Hc. destruct (String.eqb _ _); [done|]. by injection Hc as <-.
  - eapply triple_or_fail with (Q := λ _, on recording); [|intros []; by apply triple_ret|done]. destruct (placed cluster p); [by apply triple_ret|].
    apply retry_steps. intros t o st s s' rv Ho [= <-] Heff. by eapply rs_recorded.
Qed.
End props.

Section theorem.
Context `{KubeClientLaws, !Clock, Retry, ControllerLib, !ControllerLibLaws}.
Context (rely : ∀ s s', interfere s s' → keeps_assignments s s').

(** ** Assignments stay *)
Lemma rtc_keeps (R : relation KState) s s' : (∀ s s', R s s' → wf s → wf s' ∧ keeps_assignments s s') → rtc R s s' → wf s → wf s' ∧ keeps_assignments s s'.
Proof.
  intros HR. induction 1 as [|x y z Hxy _ IH]; intros Hwf; [done|]. destruct (HR _ _ Hxy Hwf) as [Hy K1]. destruct (IH Hy) as [Hz K2]. split; [done|by etrans].
Qed.
Lemma interfere_keeps s s' : rtc interfere s s' → wf s → wf s' ∧ keeps_assignments s s'.
Proof. apply rtc_keeps. intros x y Hi Hwf. split; [by eapply interfere_wf|by apply rely]. Qed.

Lemma create_keeps w w' (o : object KPlacement) r : kc_Create KPlacement o w = (w', r) → keeps_assignments (state w) (state w').
Proof.
  intros (mid & Hi & Hr)%Create_effect. apply interfere_keeps in Hi as [_ K]; [|apply state_wf]. destruct Hr as [[-> _]|(uid & rv & t & Heff)]; [done|].
  etrans; [exact K|]. intros k x Hx. exists x. split; [|done]. rewrite (touches_create _ _ _ _ _ _ Heff); [done|]. right. intros ->. destruct Heff as (Hn & _). congruence.
Qed.

Lemma record_step_keeps cluster p s s' : record_step cluster p s s' → wf s → wf s' ∧ keeps_assignments s s'.
Proof.
  intros [Hi|o st rv Ho _ Heff|o rv Ho Heff] Hwf; (split; [first [by eapply interfere_wf|by eapply status_wf]|]); [by apply rely|..].
  - intros k x Hx. destruct (decide (k = key_of o)) as [->|Hne]; [|exists x; split; [|done]; by rewrite (touches_status _ _ _ _ Hwf Heff); [|right]].
    destruct Heff as (cur & Hc & _ & _ & ->). pose proof (eq_trans (eq_sym Hc) Hx) as [= ->]. pose proof (wf_key _ Hwf _ _ _ Hc) as Hk.
    set (new := mkObj KPlacement _ _ _). exists new. split; [|done]. rewrite put_same. change (key_of (with_status (k := KPlacement) st o)) with (key_of o) in Hk.
    rewrite Hk. apply (lookup_insert_eq _ (key_of new)).
  - intros k x Hx. exists x. split; [|done]. by rewrite (touches_status _ _ _ _ Hwf Heff); [|left].
Qed.

Lemma to_create_keeps cluster o w w' : to_create cluster o w w' → keeps_assignments (state w) (state w').
Proof.
  intros (mc & w1 & Hg%moves_Get & (l & i & m & Hl%moves_List & _) & _). etrans; (eapply interfere_keeps; [done|apply state_wf]).
Qed.
Lemma assigned_keeps cluster p w w' : assigned cluster p w w' → keeps_assignments (state w) (state w').
Proof.
  intros [Hg%moves_Get|(o & w1 & Hto & Hc & _)]; [eapply interfere_keeps; [done|apply state_wf]|]. etrans; [by eapply to_create_keeps|by eapply create_keeps].
Qed.

Lemma run_keeps key w w' : placement_run key w w' → keeps_assignments (state w) (state w').
Proof.
  intros [Hi|cluster w1 o w2 e Hg%moves_Get _ Hto Hc|cluster w1 p w2 Hg%moves_Get _ Ha Hr].
  - eapply interfere_keeps; [done|apply state_wf].
  - etrans; [eapply interfere_keeps; [exact Hg|apply state_wf]|]. etrans; [by eapply to_create_keeps|by eapply create_keeps].
  - etrans; [eapply interfere_keeps; [exact Hg|apply state_wf]|]. etrans; [by eapply assigned_keeps|].
    eapply rtc_keeps; [apply record_step_keeps|exact Hr|apply state_wf].
Qed.
End theorem.

Section assignments.
Context `{KubeClientLaws, !Clock, Retry, ControllerLib, !ControllerLibLaws}.

End assignments.
