(* ===== verification/Manifests.v ===== *)
(** * The Manifest controller (controller/manifest_controller.go)

    A Manifest lists arbitrary resources for one management cluster. Each becomes an
    apply desire, and a watched one a read desire too; the content the applier reads back
    is copied into the status. A deleted Manifest first turns every desire into a Delete
    and loses its finalizer when the applier has confirmed all of them. The object the
    controller read is changed in place and passed on, also to the next update. *)
From S2P Require Import Prelude GoStrings Json Convert Cidr Authorizer StateM HttpApi ApiTypes KubeClient ApiClient Claims Controllers Footprint Goroutines Desires Render DesireSets RenderProps.
From stdpp Require Import base gmap strings list.
From Stdlib Require Import ZArith Lia Ascii String.
Open Scope string_scope.

(** The text of a JSON document: as stored, and as parsed. *)
Class JsonText := { json_text : json → string; json_parse : string → option json }.

Module ManifestController.
Definition manifestFinalizer : string := "seaplane.io/manifest".
Definition manifestTaskKey : string := "seaplane-manifest".
Definition manifestStatusRefreshDelay : Z := 5 * minute.
Definition fifteen_seconds : Z := 15 * second.
Definition five_seconds : Z := 5 * second.

(** ** Decoding a resource

    [encoding/json]: names are matched regardless of case, [null] leaves a field as it
    is, the last of several members wins. *)
Record content_meta := mkContentMeta { cm_APIVersion : string; cm_Name : string; cm_Namespace : string }.

Definition decode_string (j : json) (cur : string) : option string := match j with JStr s => Some s | JNull => Some cur | _ => None end.

Definition decode_members {A} (member : string → json → A → option A) (j : json) (a : A) : option A :=
  match j with
  | JNull => Some a
  | JObj members => fold_left (fun acc kv => acc ≫= member kv.1 kv.2) members (Some a)
  | _ => None
  end.

Definition metadata_member (key : string) (j : json) (m : content_meta) : option content_meta :=
  if EqualFold key "name" then (fun s => mkContentMeta (cm_APIVersion m) s (cm_Namespace m)) <$> decode_string j (cm_Name m)
  else if EqualFold key "namespace" then (fun s => mkContentMeta (cm_APIVersion m) (cm_Name m) s) <$> decode_string j (cm_Namespace m)
  else Some m.
Definition content_member (key : string) (j : json) (m : content_meta) : option content_meta :=
  if EqualFold key "apiVersion" then (fun s => mkContentMeta s (cm_Name m) (cm_Namespace m)) <$> decode_string j (cm_APIVersion m)
  else if EqualFold key "metadata" then decode_members metadata_member j m
  else Some m.

(** Group, version, name and namespace. *)
Definition extractResourceMeta (raw : json) : result string (string * string * string * string) :=
  match decode_members content_member raw (mkContentMeta "" "" "") with
  | None => Err "unmarshal content"
  | Some m =>
      if String.eqb (cm_Name m) "" then Err "content missing metadata.name"
      else if String.eqb (cm_APIVersion m) "" then Err "content missing apiVersion"
      else match Cidr.Cut (cm_APIVersion m) "/"%char with
           | None => Ok ("", cm_APIVersion m, cm_Name m, cm_Namespace m)
           | Some (group, version) => Ok (group, version, cm_Name m, cm_Namespace m)
           end
  end.

Definition reference (res : ResourceTemplate) : result string ResourceReference :=
  match extractResourceMeta (rt_Content res) with
  | Err e => Err e
  | Ok (group, version, name, namespace) => Ok (mkReference group version (rt_Resource res) namespace name)
  end.

Section controller.
Context `{KubeClient, !Clock, ControllerLib, !DesireClient, !DocumentIDs, !Routing, !Scheduler World, !JsonText}.

Record ManifestReconciler := mkManifestReconciler { mr_EventRouter : bool }.
Definition StatusEvents : string := "manifest".
Definition target_of (r : ManifestReconciler) (key : nsname) : option EventRouter.EventTarget :=
  if mr_EventRouter r then Some (EventRouter.mkTarget StatusEvents key) else None.
Definition Deregister (r : ManifestReconciler) (docID : string) : St World unit := fun w =>
  if mr_EventRouter r then (set_router (EventRouter.Deregister docID (router w)) w, tt) else (w, tt).

Definition manifestScopedTaskKey (hfm : object KManifest) : string :=
  manifestTaskKey +:+ "/" +:+ om_Namespace (meta hfm) +:+ "/" +:+ om_Name (meta hfm).
Definition manifest_document (task : string) (ref : ResourceReference) : string :=
  NewDocumentID task (ref_Group ref) (ref_Version ref) (ref_Resource ref) (ref_Namespace ref) (ref_Name ref).
Definition apply_document (hfm : object KManifest) (ref : ResourceReference) : string := manifest_document (manifestScopedTaskKey hfm) ref.
Definition read_document (hfm : object KManifest) (ref : ResourceReference) : string := manifest_document (manifestScopedTaskKey hfm +:+ "-read") ref.

(** ** The desires *)
Definition extract_failed (what : string) (res : ResourceTemplate) (e : string) : kerr := errorf (what +:+ " " +:+ rt_Resource res +:+ ": " +:+ e).

(** The resources of a list in order: each one's metadata is extracted and its document
    registered; the first error ends the run. *)
Fixpoint register_all (r : ManifestReconciler) (what : string) (doc : ResourceReference → string) (hfm : object KManifest) (l : list ResourceTemplate) :
  Call (list (ResourceReference * json)) :=
  match l with
  | [] => mret (Ok [])
  | res :: l =>
      match reference res with
      | Err e => mret (Err (extract_failed what res e))
      | Ok ref =>
          _ ← Register (target_of r (key_of hfm)) (doc ref);
          db.and_then (register_all r what doc hfm l) (fun items => mret (Ok ((ref, rt_Content res) :: items)))
      end
  end.

Definition mc_of (hfm : object KManifest) : string := mf_ManagementCluster (spec hfm).
Definition manifest_apply (hfm : object KManifest) (ref : ResourceReference) (content : json) : ApplyDesireSpec :=
  mkApplySpec ServerSideApply (mc_of hfm) (om_Name (meta hfm)) ref (Some (json_text content)).
Definition manifest_delete (hfm : object KManifest) (ref : ResourceReference) : ApplyDesireSpec :=
  mkApplySpec DeleteType (mc_of hfm) (om_Name (meta hfm)) ref None.
Definition manifest_read (hfm : object KManifest) (ref : ResourceReference) : ReadDesireSpec := mkReadSpec (mc_of hfm) (om_Name (meta hfm)) ref.
Definition manifest_entry (hfm : object KManifest) (ref : ResourceReference) (t : Z) : DesireStatusEntry :=
  mkEntry (apply_document hfm ref) (ref_Resource ref) (ref_Name ref) t.

Definition upsert_failed (what : string) (ref : ResourceReference) (e : derr) : kerr :=
  errorf (what +:+ " " +:+ ref_Resource ref +:+ "/" +:+ ref_Name ref +:+ ": " +:+ derr_text e).
Definition apply_one (hfm : object KManifest) (item : ResourceReference * json) : St World (result kerr (option DesireStatusEntry)) :=
  r ← UpsertApplyDesire (SpecsPrefix (mc_of hfm)) (apply_document hfm item.1) (manifest_apply hfm item.1 item.2);
  mret match r with
       | Err e => Err (upsert_failed "upsert apply desire" item.1 e)
       | Ok u => Ok (Some (manifest_entry hfm item.1 (ur_UpdateTime u)))
       end.
Definition read_one (hfm : object KManifest) (item : ResourceReference * json) : St World (result kerr (option DesireStatusEntry)) :=
  r ← UpsertReadDesire (SpecsPrefix (mc_of hfm)) (read_document hfm item.1) (manifest_read hfm item.1);
  mret match r with Err e => Err (upsert_failed "upsert read desire" item.1 e) | Ok _ => Ok None end.

Definition run_items (job : ResourceReference * json → St World (result kerr (option DesireStatusEntry))) (items : list (ResourceReference * json)) :
  Call (list DesireStatusEntry) :=
  results ← go_all (job <$> items); mret (entries_of results).

(** Resources that are no longer listed; errors are only logged. *)
Definition status_reference (rs : ResourceStatus) : ResourceReference :=
  mkReference (rs_Group rs) (rs_Version rs) (rs_Resource rs) (rs_Namespace rs) (rs_Name rs).
Fixpoint cleanup_statuses (r : ManifestReconciler) (hfm : object KManifest) (currentDocIDs : list string) (l : list ResourceStatus) : St World unit :=
  match l with
  | [] => mret tt
  | rs :: l =>
      let ref := status_reference rs in
      if bool_decide (apply_document hfm ref ∈ currentDocIDs) then cleanup_statuses r hfm currentDocIDs l
      else
        _ ← DeleteDesireSpec (SpecsPrefix (mc_of hfm)) TableSuffixApplyDesires (apply_document hfm ref);
        _ ← Deregister r (read_document hfm ref);
        _ ← DeleteDesireSpec (SpecsPrefix (mc_of hfm)) TableSuffixReadDesires (read_document hfm ref);
        cleanup_statuses r hfm currentDocIDs l
  end.
Definition cleanupOrphanedDesires (r : ManifestReconciler) (hfm : object KManifest) (currentDocIDs : list string) : St World unit :=
  if (om_Generation (meta hfm) =? mf_ObservedGeneration (status hfm))%Z then mret tt
  else cleanup_statuses r hfm currentDocIDs (mf_ResourceStatuses (status hfm)).

(** ** What the applier read *)
Definition status_member (key : string) (j : json) (cur : option json) : option (option json) := if EqualFold key "status" then Some (Some j) else Some cur.
Definition reported_status (read : result derr ReadDesireStatus) : option json :=
  match read with
  | Err _ => None
  | Ok st =>
      match st_KubeContent st with
      | None => None
      | Some text => match json_parse text with
                     | None => None
                     | Some j => match decode_members status_member j None with Some found => found | None => None end
                     end
      end
  end.
Definition resource_status (ref : ResourceReference) (j : json) : ResourceStatus :=
  mkResourceStatus (ref_Resource ref) (ref_Name ref) (ref_Namespace ref) (ref_Group ref) (ref_Version ref) j.

Definition watched (l : list ResourceTemplate) : list ResourceTemplate := filter (λ res, rt_Watch res = true) l.
Definition collectResourceStatuses (hfm : object KManifest) : St World (list ResourceStatus) :=
  let refs := omap (fun res => match reference res with Ok ref => Some ref | Err _ => None end) (watched (mf_Resources (spec hfm))) in
  results ← go_all ((fun ref => GetReadDesireStatus (StatusPrefix (mc_of hfm)) (read_document hfm ref)) <$> refs);
  mret (omap (fun x => resource_status x.1 <$> reported_status x.2) (zip refs results)).

(** ** The status *)
Definition int32 (n : Z) : Z := (n + 2 ^ 31) mod 2 ^ 32 - 2 ^ 31.

(** [Status().Update] of the object in hand; the answer is read into it. *)
Definition write_status (hfm : object KManifest) : St World (object KManifest * option kerr) :=
  u ← kc_Status_Update KManifest hfm;
  mret match (u : result kerr (object KManifest)) with Ok o => (o, None) | Err e => (hfm, Some e) end.

Definition setSyncedCondition (hfm : object KManifest) (cond : Condition) : St World (object KManifest) :=
  t ← db.read_clock;
  let st := status hfm in
  r ← write_status (with_status (k := KManifest) (mkManifestStatus (SetStatusCondition t cond (mf_Conditions st)) (mf_Phase st) (mf_AppliedResources st)
                     (mf_ObservedGeneration st) (mf_ResourceStatuses st)) hfm);
  mret r.1.

Definition setPhase (hfm : object KManifest) (phase : string) : St World (object KManifest) :=
  let st := status hfm in
  if String.eqb (mf_Phase st) phase then mret hfm
  else
    r ← write_status (with_status (k := KManifest) (mkManifestStatus (mf_Conditions st) phase (mf_AppliedResources st) (om_Generation (meta hfm))
                       (mf_ResourceStatuses st)) hfm);
    mret r.1.

Definition reconciled_status (t : Z) (cond : Condition) (statuses : list ResourceStatus) (hfm : object KManifest) : ManifestStatus :=
  let st := status hfm in
  mkManifestStatus (SetStatusCondition t cond (mf_Conditions st))
    (if String.eqb (cond_Status cond) ConditionTrue then ManifestPhaseApplied else ManifestPhaseSyncing)
    (int32 (Z.of_nat (List.length (mf_Resources (spec hfm))))) (om_Generation (meta hfm))
    (match statuses with [] => mf_ResourceStatuses st | _ => statuses end).

(** ** Deletion *)
Fixpoint delete_desires (hfm : object KManifest) (l : list ResourceTemplate) : Call (list DesireStatusEntry) :=
  match l with
  | [] => mret (Ok [])
  | res :: l =>
      match reference res with
      | Err e => mret (Err (extract_failed "extract metadata from resource" res e))
      | Ok ref =>
          ur ← UpsertApplyDesire (SpecsPrefix (mc_of hfm)) (apply_document hfm ref) (manifest_delete hfm ref);
          match ur with
          | Err e => mret (Err (upsert_failed "upsert delete desire" ref e))
          | Ok u => db.and_then (delete_desires hfm l) (fun entries => mret (Ok (manifest_entry hfm ref (ur_UpdateTime u) :: entries)))
          end
      end
  end.

Fixpoint cleanup_applies (hfm : object KManifest) (entries : list DesireStatusEntry) : St World unit :=
  match entries with
  | [] => mret tt
  | e :: entries => _ ← DeleteDesireSpec (SpecsPrefix (mc_of hfm)) TableSuffixApplyDesires (en_DocID e); cleanup_applies hfm entries
  end.
Fixpoint cleanup_reads (r : ManifestReconciler) (hfm : object KManifest) (l : list ResourceTemplate) : St World unit :=
  match l with
  | [] => mret tt
  | res :: l =>
      match reference res with
      | Err _ => cleanup_reads r hfm l
      | Ok ref =>
          _ ← Deregister r (read_document hfm ref);
          _ ← DeleteDesireSpec (SpecsPrefix (mc_of hfm)) TableSuffixReadDesires (read_document hfm ref);
          cleanup_reads r hfm l
      end
  end.

Definition reconcileDelete (r : ManifestReconciler) (hfm : object KManifest) : Call Result :=
  if negb (ContainsFinalizer (meta hfm) manifestFinalizer) then mret (Ok done_result)
  else
    hfm ← setPhase hfm ManifestPhaseDeleting;
    db.and_then (delete_desires hfm (mf_Resources (spec hfm))) (fun entries =>
    syncedCond ← CheckApplyDesireStatuses (StatusPrefix (mc_of hfm)) entries (om_Generation (meta hfm));
    hfm ← setSyncedCondition hfm syncedCond;
    if negb (String.eqb (cond_Status syncedCond) ConditionTrue) then mret (Ok (requeue five_seconds))
    else
      _ ← cleanup_applies hfm entries;
      _ ← cleanup_reads r hfm (watched (mf_Resources (spec hfm)));
      or_fail "remove finalizer" (kc_Update KManifest (without_finalizer manifestFinalizer hfm)) (fun _ => mret (Ok done_result))).

(** ** Reconcile *)
Definition reconcile_apply (r : ManifestReconciler) (hfm : object KManifest) : Call Result :=
  db.and_then (register_all r "extract metadata from resource" (apply_document hfm) hfm (mf_Resources (spec hfm))) (fun applyItems =>
  db.and_then (run_items (apply_one hfm) applyItems) (fun applyEntries =>
  _ ← cleanupOrphanedDesires r hfm ((fun item => apply_document hfm item.1) <$> applyItems);
  db.and_then (register_all r "extract metadata for ReadDesire" (read_document hfm) hfm (watched (mf_Resources (spec hfm)))) (fun readItems =>
  db.and_then (run_items (read_one hfm) readItems) (fun _ =>
  let hasWatched := Nat.ltb 0 (List.length readItems) in
  resourceStatuses ← (if hasWatched then collectResourceStatuses hfm else mret []);
  syncedCond ← CheckApplyDesireStatuses (StatusPrefix (mc_of hfm)) applyEntries (om_Generation (meta hfm));
  t ← db.read_clock;
  or_fail "update status" (kc_Status_Update KManifest (with_status (k := KManifest) (reconciled_status t syncedCond resourceStatuses hfm) hfm)) (fun _ =>
  mret (Ok (if negb (String.eqb (cond_Status syncedCond) ConditionTrue) then requeue fifteen_seconds
            else if hasWatched then requeue manifestStatusRefreshDelay else done_result))))))).

Definition Reconcile (r : ManifestReconciler) (key : nsname) : Call Result :=
  g ← kc_Get KManifest key.1 key.2;
  match (g : result kerr (object KManifest)) with
  | Err e => mret (IgnoreNotFound done_result e)
  | Ok hfm =>
      if dying hfm then reconcileDelete r hfm
      else if negb (ContainsFinalizer (meta hfm) manifestFinalizer) then
        or_fail "add finalizer" (add_finalizer manifestFinalizer hfm) (fun _ => mret (Ok done_result))
      else reconcile_apply r hfm
  end.
End controller.
End ManifestController.

(** * What the Manifest controller writes

    Its own Manifest, nothing else; the finalizer goes when the applier has confirmed the
    deletion of every resource; and its documents are its own, those of the reads apart. *)
From stdpp Require Import base gmap strings list relations.
From Stdlib Require Import ZArith Lia Ascii String.
Open Scope string_scope.
Import ManifestController.

Section props.
Context `{KubeClientLaws, !Clock, ControllerLib, !ControllerLibLaws, !DesireClient, !DesireRows, !DesireLaws, !DocumentIDs, !DocumentIDLaws, !Routing, !RouterFrame, !Scheduler World, !JsonText}.

Definition manifest_mine (key : nsname) (s : KState) (k : Kind) (key' : nsname) : Prop := match k with KManifest => key' = key | _ => False end.

(** The object in hand stays the same Manifest. *)
Definition same_manifest (hfm o : object KManifest) : Prop := spec o = spec hfm ∧ key_of o = key_of hfm ∧ uid_of o = uid_of hfm.

Lemma write_status_same hfm w w' o e : write_status hfm w = (w', (o, e)) → same_manifest hfm o.
Proof.
  intros (w1 & u & Hu & [-> Hr]%St_ret_inv)%St_bind_inv. apply Status_Update_law in Hu as (mid & _ & Hu). destruct u as [o'|e']; injection Hr as -> _; [|done].
  by destruct Hu as (rv & _ & ->).
Qed.
Lemma setPhase_same hfm phase w w' o : setPhase hfm phase w = (w', o) → same_manifest hfm o.
Proof.
  unfold setPhase. cbv zeta. destruct (String.eqb _ _); [by intros [_ ->]%St_ret_inv|]. intros (w1 & [o' e] & Hw & [-> ->]%St_ret_inv)%St_bind_inv.
  by apply write_status_same in Hw.
Qed.
Lemma setSynced_same hfm cond w w' o : setSyncedCondition hfm cond w = (w', o) → same_manifest hfm o.
Proof.
  unfold setSyncedCondition. intros (w1 & t & _ & Hr)%St_bind_inv. cbv zeta in Hr. apply St_bind_inv in Hr as (w2 & [o' e] & Hw & [-> ->]%St_ret_inv).
  by apply write_status_same in Hw.
Qed.

(** ** Calls that leave the store alone *)
Lemma moves_Deregister r doc : moves state interfere (Deregister r doc).
Proof. intros w w' x. unfold Deregister. destruct (mr_EventRouter r); intros [= <- <-]; [by rewrite state_router|done]. Qed.
Lemma moves_UpsertApply prefix task ref d : moves state interfere (UpsertApplyDesire prefix (manifest_document task ref) d).
Proof. by intros w w' x [? _]%UpsertApply_law; [|apply uuid_text]. Qed.
Lemma moves_UpsertRead prefix task ref d : moves state interfere (UpsertReadDesire prefix (manifest_document task ref) d).
Proof. by intros w w' x [? _]%UpsertRead_law; [|apply uuid_text]. Qed.
Lemma moves_DeleteSpec prefix suffix doc : document doc → moves state interfere (DeleteDesireSpec prefix suffix doc).
Proof. by intros Hd w w' x [? _]%DeleteSpec_law. Qed.

Lemma moves_register_all r what doc hfm l : moves state interfere (register_all r what doc hfm l).
Proof.
  induction l as [|res l IH]; simpl; [apply moves_ret|]. destruct (reference res); [|apply moves_ret].
  apply moves_bind; [apply moves_Register|]. intros []. apply moves_and_then; [done|]. intros items. apply moves_ret.
Qed.

Lemma moves_run_items job items : (∀ item, moves state interfere (job item)) → moves state interfere (run_items job items).
Proof. intros Hj. apply moves_bind; [|intros l; apply moves_ret]. apply moves_go_all. by intros j (item & -> & _)%list_elem_of_fmap. Qed.

Lemma moves_cleanup r hfm docs : moves state interfere (cleanupOrphanedDesires r hfm docs).
Proof.
  unfold cleanupOrphanedDesires. destruct (_ =? _)%Z; [apply moves_ret|]. induction (mf_ResourceStatuses (status hfm)) as [|rs l IH]; simpl; [apply moves_ret|].
  case_bool_decide; [done|]. apply moves_bind; [apply moves_DeleteSpec, uuid_text|]. intros _. apply moves_bind; [apply moves_Deregister|]. intros [].
  apply moves_bind; [apply moves_DeleteSpec, uuid_text|]. by intros _.
Qed.

Lemma moves_collect hfm : moves state interfere (collectResourceStatuses hfm).
Proof.
  apply moves_bind; [|intros l; apply moves_ret]. apply moves_go_all. intros job (ref & -> & _)%list_elem_of_fmap. by intros w w' x [? _]%GetRead_law.
Qed.

Lemma moves_delete_desires hfm l : moves state interfere (delete_desires hfm l).
Proof.
  induction l as [|res l IH]; simpl; [apply moves_ret|]. destruct (reference res); [|apply moves_ret]. apply moves_bind; [apply moves_UpsertApply|].
  intros [x|e]; [|apply moves_ret]. apply moves_and_then; [done|]. intros entries. apply moves_ret.
Qed.
Lemma moves_cleanup_applies hfm entries : Forall (λ e, document (en_DocID e)) entries → moves state interfere (cleanup_applies hfm entries).
Proof.
  induction 1 as [|e l He _ IH]; simpl; [apply moves_ret|]. apply moves_bind; [by apply moves_DeleteSpec|]. by intros _.
Qed.
Lemma moves_cleanup_reads r hfm l : moves state interfere (cleanup_reads r hfm l).
Proof.
  induction l as [|res l IH]; simpl; [apply moves_ret|]. destruct (reference res); [|done].
  apply moves_bind; [apply moves_Deregister|]. intros []. apply moves_bind; [apply moves_DeleteSpec, uuid_text|]. by intros _.
Qed.

(** ** The deletion *)

(** The delete desires of the resources were upserted one after the other, from the first
    world to the second; the entries have the times that were answered. *)
Fixpoint manifest_deletes (hfm : object KManifest) (l : list ResourceTemplate) (entries : list DesireStatusEntry) (w w' : World) : Prop :=
  match l, entries with
  | [], [] => w' = w
  | res :: l, e :: entries => ∃ ref x w1, reference res = Ok ref ∧
      UpsertApplyDesire (SpecsPrefix (mc_of hfm)) (apply_document hfm ref) (manifest_delete hfm ref) w = (w1, Ok x) ∧
      e = manifest_entry hfm ref (ur_UpdateTime x) ∧ manifest_deletes hfm l entries w1 w'
  | _, _ => False
  end.

(** The steps of a run, from the world in which the Manifest was read to the last one;
    [h1] and [h2] are the Manifest with a new status. *)
Definition manifest_released (r : ManifestReconciler) (hfm : object KManifest) (w w' : World) : Prop := dying hfm = true ∧ ∃ h1 h2 entries cond w1 w2 w3 w4 w5 w6 x,
  (setPhase hfm ManifestPhaseDeleting w = (w1, h1) ∧ same_manifest hfm h1) ∧
  manifest_deletes hfm (mf_Resources (spec hfm)) entries w1 w2 ∧
  (CheckApplyDesireStatuses (StatusPrefix (mc_of hfm)) entries (om_Generation (meta h1)) w2 = (w3, cond) ∧ all_confirmed (StatusPrefix (mc_of hfm)) entries w2 w3) ∧
  (setSyncedCondition h1 cond w3 = (w4, h2) ∧ same_manifest hfm h2) ∧
  cleanup_applies h2 entries w4 = (w5, tt) ∧ cleanup_reads r h2 (watched (mf_Resources (spec hfm))) w5 = (w6, tt) ∧
  kc_Update KManifest (without_finalizer manifestFinalizer h2) w6 = (w', x).

Lemma delete_desires_written hfm l w w' entries : delete_desires hfm l w = (w', Ok entries) → manifest_deletes hfm l entries w w'.
Proof.
  revert w entries. induction l as [|res l IH]; intros w entries; simpl; [by intros [-> [= ->]]%St_ret_inv|].
  destruct (reference res) as [ref|e] eqn:Er; [|by intros [_ ?]%St_ret_inv]. unfold db.and_then.
  intros (w1 & [x|e] & Hx & Hr)%St_bind_inv; [|by apply St_ret_inv in Hr as [_ ?]]. apply St_bind_inv in Hr as (w2 & [es|e] & Hes & Hr); apply St_ret_inv in Hr as [-> Hr]; [|done].
  injection Hr as ->. exists ref, x, w1. split_and!; [done..|by apply IH].
Qed.
Lemma written_documents hfm l entries w w' : manifest_deletes hfm l entries w w' → Forall (λ e, document (en_DocID e)) entries.
Proof.
  revert entries w. induction l as [|res l IH]; intros [|e entries] w; try done; simpl.
  intros (ref & x & w1 & _ & _ & -> & Hr). constructor; [apply uuid_text|by eapply IH].
Qed.
Lemma written_same hfm o l entries w w' : same_manifest hfm o → manifest_deletes o l entries w w' → manifest_deletes hfm l entries w w'.
Proof.
  intros (Hs & Hk & _). injection Hk as Hns Hn. revert entries w. induction l as [|res l IH]; intros [|e entries] w; try done; simpl.
  intros (ref & x & w1 & Hr & Hu & -> & Hl). exists ref, x, w1. split_and!; [done| | |by apply IH];
    unfold manifest_entry, apply_document, manifest_delete, manifestScopedTaskKey, mc_of in *; by rewrite Hs, Hns, Hn in *.
Qed.
Lemma same_trans hfm h1 h2 : same_manifest hfm h1 → same_manifest h1 h2 → same_manifest hfm h2.
Proof. intros (? & ? & ?) (? & ? & ?). split_and!; congruence. Qed.

Context (r : ManifestReconciler) (key : nsname) (u : string) (s0 : KState).
Context (rely : stable (finalized KManifest key u manifestFinalizer)).
#[local] Notation frames R m := (frames KManifest key u manifestFinalizer (manifest_mine key) s0 R m).
#[local] Notation inv F R := (inv KManifest key u manifestFinalizer (manifest_mine key) s0 F R).

Lemma frames_write R hfm : key_of hfm = key → frames R (write_status hfm).
Proof. intros Hk. unfold write_status. frame_step; [|frame_step]. apply frames_Status; [assumption|]. intros s cur _ _. exact Hk. Qed.
Lemma frames_phase R hfm phase : key_of hfm = key → frames R (setPhase hfm phase).
Proof. intros Hk. unfold setPhase. cbv zeta. frame_step; [frame_step|]. frame_step; [by apply frames_write|frame_step]. Qed.
Lemma frames_synced R hfm cond : key_of hfm = key → frames R (setSyncedCondition hfm cond).
Proof. intros Hk. unfold setSyncedCondition. frame_step; [frame_step|]. cbv zeta. frame_step; [by apply frames_write|frame_step]. Qed.

Lemma frames_apply R hfm : key_of hfm = key → frames R (reconcile_apply r hfm).
Proof.
  intros Hk. unfold reconcile_apply.
  frame_step; [apply frames_moves; [assumption|apply moves_register_all]|].
  frame_step; [apply frames_moves; [assumption|]; apply moves_run_items; intros item; apply moves_bind; [apply moves_UpsertApply|intros x; apply moves_ret]|].
  frame_step; [apply frames_moves; [assumption|apply moves_cleanup]|].
  frame_step; [apply frames_moves; [assumption|apply moves_register_all]|].
  frame_step; [apply frames_moves; [assumption|]; apply moves_run_items; intros item; apply moves_bind; [apply moves_UpsertRead|intros x; apply moves_ret]|]. cbv zeta.
  frame_step; [apply frames_moves; [assumption|]; destruct (Nat.ltb _ _); [apply moves_collect|apply moves_ret]|].
  frame_step; [apply frames_moves; [assumption|apply moves_check]|]. frame_step; [frame_step|]. frame_step; [|frame_step].
  apply frames_Status; [assumption|]. intros s cur _ _. exact Hk.
Qed.

#[local] Notation safe F w := (inv F (λ _, True) (state w)).
#[local] Notation via_frames := (run_frames KManifest key u manifestFinalizer (manifest_mine key) s0 _ _ _ _ _).

Lemma manifest_delete_run (F : Prop) hfm w w' res : key_of hfm = key → dying hfm = true → reconcileDelete r hfm w = (w', res) →
  (manifest_released r hfm w w' → F) → safe F w → safe F w'.
Proof.
  intros Hk Hd. unfold reconcileDelete, db.and_then, or_fail. destruct (ContainsFinalizer _ _); [|by intros [-> _]%St_ret_inv]. cbn [negb].
  intros (w1 & h1 & Hph & Hr)%St_bind_inv HF Hi. pose proof (via_frames (frames_phase _ _ _ Hk) Hi Hph) as Hi1. pose proof (setPhase_same _ _ _ _ _ Hph) as S1.
  assert (Hk1 : key_of h1 = key) by (by rewrite (proj1 (proj2 S1))). assert (Hres : spec h1 = spec hfm) by apply S1. rewrite Hres in Hr.
  apply St_bind_inv in Hr as (w2 & del & Hdel & Hr). pose proof (via_frames (frames_moves _ _ _ _ _ rely s0 _ _ (moves_delete_desires h1 _)) Hi1 Hdel) as Hi2.
  destruct del as [entries|e]; [|by apply St_ret_inv in Hr as [-> _]]. apply delete_desires_written, (written_same hfm) in Hdel; [|done].
  apply St_bind_inv in Hr as (w3 & c & Hc & Hr). pose proof (via_frames (frames_moves _ _ _ _ _ rely s0 _ _ (moves_check _ _ _)) Hi2 Hc) as Hi3.
  apply St_bind_inv in Hr as (w4 & h2 & Hset & Hr). pose proof (via_frames (frames_synced _ _ _ Hk1) Hi3 Hset) as Hi4. pose proof (setSynced_same _ _ _ _ _ Hset) as S2.
  destruct (String.eqb_spec (cond_Status c) ConditionTrue) as [Hs|]; cbn [negb] in Hr; [|by apply St_ret_inv in Hr as [-> _]].
  assert (Hres2 : spec h2 = spec hfm) by (rewrite <- Hres; apply S2). rewrite Hres2 in Hr.
  apply St_bind_inv in Hr as (w5 & [] & Hca & Hr). pose proof (via_frames (frames_moves _ _ _ _ _ rely s0 _ _ (moves_cleanup_applies h2 entries (written_documents _ _ _ _ _ Hdel))) Hi4 Hca) as Hi5.
  apply St_bind_inv in Hr as (w6 & [] & Hcr & Hr). pose proof (via_frames (frames_moves _ _ _ _ _ rely s0 _ _ (moves_cleanup_reads r h2 _)) Hi5 Hcr) as Hi6.
  apply St_bind_inv in Hr as (w7 & x & Hx & Hr). assert (w' = w7) as -> by (destruct x; by apply St_ret_inv in Hr as [-> _]).
  assert (Hmc : mc_of h1 = mc_of hfm) by (unfold mc_of; by rewrite Hres). rewrite Hmc in Hc.
  refine (update_known _ _ _ _ _ rely s0 F (λ _, True) (without_finalizer manifestFinalizer h2) _ _ _ w6 w7 x Hi6 Hx); [|done|].
  - apply HF. split; [done|]. exists h1, h2, entries, c, w1, w2, w3, w4, w5, w6, x. split_and!; try done; try apply S1; [by eapply check_confirmed|..]; by apply (same_trans hfm h1 h2).
  - intros s. destruct (Remove_law (meta h2) manifestFinalizer) as (l & Hl & _). unfold key_of, without_finalizer. simpl. rewrite Hl. simpl.
    rewrite <- Hk1. exact (proj1 (proj2 S2)).
Qed.
End props.

Section theorems.
Context `{KubeClientLaws, !Clock, ControllerLib, !ControllerLibLaws, !DesireClient, !DesireRows, !DesireLaws, !DocumentIDs, !DocumentIDLaws, !Routing, !RouterFrame, !Scheduler World, !JsonText}.

(** ** Documents *)
Definition free (s : string) : Prop := str_free "/" s = true.
Definition plain_reference (ref : ResourceReference) : Prop := Forall free [ref_Group ref; ref_Version ref; ref_Resource ref; ref_Namespace ref; ref_Name ref].
Definition plain_manifest (m : object KManifest) : Prop := free (om_Namespace (meta m)) ∧ free (om_Name (meta m)).

Definition manifest_segments (ns name : string) (ref : ResourceReference) : list string :=
  [manifestTaskKey; ns; name; ref_Group ref; ref_Version ref; ref_Resource ref; ref_Namespace ref; ref_Name ref].
Lemma manifest_input ns name ref : document_input (manifestTaskKey +:+ "/" +:+ ns +:+ "/" +:+ name) (ref_Group ref) (ref_Version ref) (ref_Resource ref) (ref_Namespace ref) (ref_Name ref) =
  strings_Join (manifest_segments ns name ref) "/".
Proof.
  unfold document_input, manifest_segments. cbn [strings_Join]. by rewrite !str_app_assoc.
Qed.
Lemma plain_segments ns name ref : free ns → free name → plain_reference ref → Forall free (manifest_segments ns name ref).
Proof. intros H1' H2' Hr. repeat (apply Forall_cons; split; [done|]). exact Hr. Qed.

Lemma manifest_apply_inj (m : object KManifest) ref1 ref2 : plain_manifest m → plain_reference ref1 → plain_reference ref2 →
  apply_document m ref1 = apply_document m ref2 → ref1 = ref2.
Proof.
  intros [Hs Hn] P1 P2. pose proof (plain_segments _ _ _ Hs Hn P1) as F1. pose proof (plain_segments _ _ _ Hs Hn P2) as F2.
  unfold apply_document, manifest_document, NewDocumentID, manifestScopedTaskKey. rewrite !manifest_input.
  intros E%uuid_inj. apply (f_equal (λ s, Split s "/")) in E. rewrite !Split_Join in E by done. injection E. destruct ref1, ref2. simpl. by intros -> -> -> -> ->.
Qed.

(** The apply desires of different Manifests are under different documents, and none
    is under the document of a resource rendered for a cluster or node pool, when no
    name involved has a slash: a Manifest never overwrites or deletes another's desire. *)
Theorem manifest_documents_isolated (m1 m2 : object KManifest) ref1 ref2 : plain_manifest m1 → plain_manifest m2 → plain_reference ref1 → plain_reference ref2 →
  (apply_document m1 ref1 = apply_document m2 ref2 → key_of m1 = key_of m2 ∧ ref1 = ref2) ∧
  ∀ `{!HyperShift} (m : Resource), plain m → apply_document m1 ref1 ≠ document_of taskKey m.
Proof.
  intros [Hs1 Hn1] [Hs2 Hn2] P1 P2. pose proof (plain_segments _ _ _ Hs1 Hn1 P1) as F1. pose proof (plain_segments _ _ _ Hs2 Hn2 P2) as F2.
  unfold apply_document, manifest_document, NewDocumentID, manifestScopedTaskKey. rewrite !manifest_input. split.
  - intros E%uuid_inj. apply (f_equal (λ s, Split s "/")) in E. rewrite !Split_Join in E by done. injection E. destruct ref1, ref2. unfold key_of. simpl. by intros -> -> -> -> -> -> ->.
  - intros ? m Hm E%uuid_inj. apply (f_equal (λ s, Split s "/")) in E. unfold document_input in E. rewrite !Split_Join in E; [done|done| |done|done].
    apply Forall_cons. split; [done|]. exact Hm.
Qed.

(** The document of a watched resource of one Manifest is the document of the
    desire that applies the same resource for the Manifest named after it with "-read":
    whichever registers last gets the events of both. *)
Theorem read_events_misrouted (m1 m2 : object KManifest) ref t1 t2 (index : EventRouter.index) : om_Namespace (meta m2) = om_Namespace (meta m1) → om_Name (meta m2) = om_Name (meta m1) +:+ "-read" →
  key_of m1 ≠ key_of m2 ∧
  EventRouter.Lookup (read_document m1 ref) (EventRouter.Register (apply_document m2 ref) t2 (EventRouter.Register (read_document m1 ref) t1 index)) = Some t2.
Proof.
  intros Hns Hn. split.
  - intros [= _ E]. rewrite Hn in E. apply (f_equal String.length) in E. rewrite str_length_app in E. simpl in E. lia.
  - assert (Hd : read_document m1 ref = apply_document m2 ref).
    { unfold read_document, apply_document, manifestScopedTaskKey. rewrite Hns, Hn. f_equal. by rewrite !str_app_assoc. }
    rewrite Hd. apply lookup_insert_eq.
Qed.

(** ** Resources that are no longer listed *)
Context {SA : StoresApart}.

Lemma DeleteSpec_keeps prefix suffix doc table doc' d t w w' x : document doc → document doc' → (table, doc') ≠ (prefix +:+ suffix, doc) →
  DeleteDesireSpec prefix suffix doc w = (w', x) → stored w table doc' d t → stored w' table doc' d t.
Proof. intros Hd Hd' Hne (_ & Ho & _)%DeleteSpec_law; [|done]. by apply (Ho table doc' Hd' Hne). Qed.
Lemma Deregister_keeps r doc table doc' d t w w' x : Deregister r doc w = (w', x) → stored w table doc' d t → stored w' table doc' d t.
Proof. unfold Deregister. destruct (mr_EventRouter r); intros [= <- <-]; [apply rows_set|done]. Qed.

(** The clean-up after a change of a Manifest removes at most the desires of the
    resources its status reports, which are watched ones: the desire of a resource that
    was listed without a watch stays as it is, and so does the resource. *)
Theorem unwatched_orphans_stay r (hfm : object KManifest) docs ref d t w w' x : plain_manifest hfm → plain_reference ref →
  Forall (λ rs, plain_reference (status_reference rs) ∧ status_reference rs ≠ ref) (mf_ResourceStatuses (status hfm)) →
  cleanupOrphanedDesires r hfm docs w = (w', x) →
  let table := SpecsPrefix (mc_of hfm) +:+ TableSuffixApplyDesires in
  stored w table (apply_document hfm ref) d t → stored w' table (apply_document hfm ref) d t.
Proof.
  intros Hm Hr Hl E table Hst. revert E. unfold cleanupOrphanedDesires. destruct (_ =? _)%Z; [by intros [-> _]%St_ret_inv|]. revert w Hst.
  induction Hl as [|rs l [Hp Hne] _ IH]; intros w Hst; simpl; [by intros [-> _]%St_ret_inv|]. case_bool_decide; [by apply IH|].
  intros (w1 & y & Hd & Hr')%St_bind_inv. apply St_bind_inv in Hr' as (w2 & [] & Hdr & Hr'). apply St_bind_inv in Hr' as (w3 & z & Hd2 & Hr').
  refine (IH w3 _ Hr'). clear IH Hr'. eapply (DeleteSpec_keeps _ _ _ _ _ _ _ _ _ _ (uuid_text _) (uuid_text _) _ Hd2), (Deregister_keeps _ _ _ _ _ _ _ _ _ Hdr),
    (DeleteSpec_keeps _ _ _ _ _ _ _ _ _ _ (uuid_text _) (uuid_text _) _ Hd), Hst.
  Unshelve.
  - intros [= Et _]. unfold table in Et. apply (f_equal String.length) in Et. rewrite !str_length_app in Et. simpl in Et. lia.
  - intros [= Ed]. apply (manifest_apply_inj hfm ref (status_reference rs)) in Ed; auto.
Qed.
End theorems.
