(* ===== verification/Silences.v ===== *)
(** * Silences of the lifecycle (internal/silence, controller/silence_controller.go)

    While a cluster is installed or deleted its alerts are silenced. The controller
    lists the silences it manages for a cluster and converges on the one its phase asks
    for; a silence that is about to end is replaced, the replacement first. [silence.Client]
    is the class [SilenceClient]; it is implemented over Alertmanager's HTTP API and in
    memory. Times are nanoseconds. *)
From S2P Require Import Prelude GoStrings Json Convert StateM HttpApi ApiTypes KubeClient ApiClient Controllers.
From stdpp Require Import base gmap strings list.
From Stdlib Require Import ZArith Lia Ascii String.
Open Scope string_scope.

(** ** Types (types.go) *)
Definition CreatedBy : string := "seaplane-silence-reconciler".
Definition hour : Z := 60 * minute.
Definition DefaultTTL : Z := 6 * hour.
Definition RenewBefore : Z := 1 * hour.
Definition RequeueInterval : Z := 15 * minute.
Definition InstallExemptAlerts : list string := ["HCPInstallTimeout15m"].

Inductive Reason := ReasonInstalling | ReasonDeleting.
Definition lifecycle_text (r : Reason) : string := match r with ReasonInstalling => "installing" | ReasonDeleting => "deleting" end.

Record Matcher := mkMatcher { m_Name : string; m_Value : string; m_IsRegex : bool; m_IsEqual : bool }.
Record PostableSilence := mkPostable { ps_Matchers : list Matcher; ps_StartsAt : Z; ps_EndsAt : Z; ps_CreatedBy : string; ps_Comment : string }.
Record GettableSilence := mkGettable {
  gs_ID : string;
  gs_State : string;
  gs_UpdatedAt : Z;
  gs_Matchers : list Matcher;
  gs_StartsAt : Z;
  gs_EndsAt : Z;
  gs_CreatedBy : string;
  gs_Comment : string
}.
Record ClusterIdentity := mkIdentity { ci_Namespace : string; ci_Name : string }.

(** ** Intents (intent.go) *)
Section intent.
Context `{Passthrough}.

Definition IntentForCluster (cluster : object KCluster) : option Reason :=
  if dying cluster || String.eqb (cl_Phase (status cluster)) ClusterPhaseDeleting then Some ReasonDeleting
  else if String.eqb (cl_Phase (status cluster)) ClusterPhaseWaitingForPlacement || String.eqb (cl_Phase (status cluster)) ClusterPhaseProvisioning
       then Some ReasonInstalling
  else None.

Definition IdentityFromCluster (cluster : object KCluster) : ClusterIdentity := mkIdentity (om_Namespace (meta cluster)) (om_Name (meta cluster)).
End intent.

Definition BuildPostableSilence (identity : ClusterIdentity) (reason : Reason) (now ttl : Z) : PostableSilence :=
  mkPostable
    ([mkMatcher "namespace" (ci_Namespace identity) false true; mkMatcher "name" (ci_Name identity) false true] ++
     match reason with
     | ReasonInstalling => (fun alert => mkMatcher "alertname" alert false false) <$> InstallExemptAlerts
     | ReasonDeleting => []
     end)%list
    now (now + ttl) CreatedBy
    ("lifecycle=" +:+ lifecycle_text reason +:+ " namespace=" +:+ ci_Namespace identity +:+ " name=" +:+ ci_Name identity).

(** [time.Time.Sub] saturates. *)
Definition time_Sub (a b : Z) : Z := Z.max (- 2 ^ 63) (Z.min (2 ^ 63 - 1) (a - b)).
Definition NeedsRenewal (s : GettableSilence) (now : Z) : bool :=
  if negb (String.eqb (gs_State s) "active") then false else (time_Sub (gs_EndsAt s) now <? RenewBefore)%Z.

Fixpoint strings_Contains (s sub : string) : bool :=
  HasPrefix s sub || match s with String _ s => strings_Contains s sub | EmptyString => false end.
Definition MatchesReason (s : GettableSilence) (reason : Reason) : bool := strings_Contains (gs_Comment s) ("lifecycle=" +:+ lifecycle_text reason).

(** ** The client (client.go) *)
Class SilenceClient `{KubeClient} := {
  sc_List : ClusterIdentity → St World (result string (list GettableSilence));
  sc_Create : PostableSilence → St World (result string string);
  sc_Expire : string → St World (result string unit)
}.

(** ** Alertmanager (alertmanager.go)

    The exchange of one HTTP request: an error, or a status code, the status line and
    the body; [None] is a body that cannot be read. *)
Record HttpAnswer := mkAnswer { ha_Code : Z; ha_Status : string; ha_Body : option string }.
Class AlertmanagerHTTP `{KubeClient} := {
  (** method, URL, body; [None] when the URL cannot be parsed *)
  http_Do : string → string → string → option (St World (option HttpAnswer));
  values_Encode : list (string * string) → string;
  url_PathEscape : string → string;
  marshal_silence : PostableSilence → result string string;
  decode_silences : option string → result string (list GettableSilence);
  decode_silenceID : option string → result string string
}.

Section alertmanager.
Context `{AlertmanagerHTTP, !Fmt}.

Definition readResponseStatus (a : HttpAnswer) : string :=
  match ha_Body a with None => ha_Status a +:+ " (read response body failed)" | Some _ => ha_Status a end.

(** One request, whose answer must be 200. *)
Definition exchange {A} (what verb method url body : string) (f : HttpAnswer → result string A) : St World (result string A) :=
  match http_Do method url body with
  | None => mret (Err ("build " +:+ what +:+ " request"))
  | Some m =>
      r ← m;
      mret match r with
           | None => Err (verb +:+ ": request failed")
           | Some a => if (ha_Code a =? 200)%Z then f a else Err (verb +:+ ": " +:+ readResponseStatus a)
           end
  end.

Definition managed (l : list GettableSilence) : list GettableSilence := filter (λ s, gs_CreatedBy s = CreatedBy ∧ gs_State s = "active") l.

Definition am_List (BaseURL : string) (identity : ClusterIdentity) : St World (result string (list GettableSilence)) :=
  let values := [("filter", "namespace=" +:+ Quote (ci_Namespace identity)); ("filter", "name=" +:+ Quote (ci_Name identity))] in
  exchange "list" "list silences" "GET" (BaseURL +:+ "/api/v2/silences?" +:+ values_Encode values) "" (fun a =>
  match decode_silences (ha_Body a) with Err e => Err ("decode silences: " +:+ e) | Ok l => Ok (managed l) end).

Definition am_Create (BaseURL : string) (silence : PostableSilence) : St World (result string string) :=
  match marshal_silence silence with
  | Err e => mret (Err ("marshal silence: " +:+ e))
  | Ok body =>
      exchange "create" "create silence" "POST" (BaseURL +:+ "/api/v2/silences") body (fun a =>
      match decode_silenceID (ha_Body a) with
      | Err e => Err ("decode create response: " +:+ e)
      | Ok id => if String.eqb id "" then Err "create silence: empty silenceID in response" else Ok id
      end)
  end.

Definition am_Expire (BaseURL id : string) : St World (result string unit) :=
  exchange "expire" "expire silence" "DELETE" (BaseURL +:+ "/api/v2/silence/" +:+ url_PathEscape id) "" (fun _ => Ok tt).

(** [strings.TrimRight(s, "/")] *)
Fixpoint trim_slashes (s : string) : string :=
  match s with
  | EmptyString => EmptyString
  | String c s => if String.eqb (trim_slashes s) "" && Ascii.eqb c "/" then EmptyString else String c (trim_slashes s)
  end.
Definition NewAlertmanagerClient (baseURL : string) : SilenceClient :=
  let BaseURL := trim_slashes baseURL in {| sc_List := am_List BaseURL; sc_Create := am_Create BaseURL; sc_Expire := am_Expire BaseURL |}.
End alertmanager.

(** ** The client in memory (fake.go) *)
Definition FakeClient := gmap string GettableSilence.
Definition NewFakeClient : FakeClient := ∅.

(** The exact matchers of a silence; a later one replaces an earlier one. *)
Definition exact_matchers (l : list Matcher) : gmap string string :=
  fold_left (fun has m => if m_IsEqual m && negb (m_IsRegex m) then <[m_Name m := m_Value m]> has else has) l ∅.
Definition silenceMatchesIdentity (s : GettableSilence) (identity : ClusterIdentity) : bool :=
  let has := exact_matchers (gs_Matchers s) in
  String.eqb (default "" (has !! "namespace")) (ci_Namespace identity) && String.eqb (default "" (has !! "name")) (ci_Name identity).

Definition fake_List (identity : ClusterIdentity) (f : FakeClient) : list GettableSilence :=
  filter (λ s, gs_CreatedBy s = CreatedBy ∧ gs_State s = "active" ∧ silenceMatchesIdentity s identity = true) (map_to_list f).*2.

(** A silence as it is stored, under a new ID. *)
Definition gettable (id : string) (now : Z) (p : PostableSilence) : GettableSilence :=
  mkGettable id "active" now (ps_Matchers p) (ps_StartsAt p) (ps_EndsAt p) (ps_CreatedBy p) (ps_Comment p).
Definition fake_Create (id : string) (now : Z) (p : PostableSilence) (f : FakeClient) : FakeClient := <[id := gettable id now p]> f.

Definition expired (s : GettableSilence) : GettableSilence :=
  mkGettable (gs_ID s) "expired" (gs_UpdatedAt s) (gs_Matchers s) (gs_StartsAt s) (gs_EndsAt s) (gs_CreatedBy s) (gs_Comment s).
(** [hook] is the outcome of ExpireHook. *)
Definition fake_Expire `{Fmt} (hook : option string) (id : string) (f : FakeClient) : FakeClient * result string unit :=
  match hook with
  | Some e => (f, Err e)
  | None => match f !! id with
            | None => (f, Err ("silence " +:+ Quote id +:+ " not found"))
            | Some s => (<[id := expired s]> f, Ok tt)
            end
  end.

(** ** The controller *)
Module SilenceController.
Section controller.
Context `{KubeClient, !Clock, !SilenceClient}.

Definition silenceAPIRetryDelay : Z := minute.
(** Whether there is a client. *)
Record SilenceReconciler := mkSilenceReconciler { sr_SilenceClient : bool }.

Fixpoint expireAll (l : list GettableSilence) : St World (result string unit) :=
  match l with
  | [] => mret (Ok tt)
  | s :: l => r ← sc_Expire (gs_ID s); match r with Err e => mret (Err e) | Ok _ => expireAll l end
  end.

Definition createSilence (identity : ClusterIdentity) (reason : Reason) (now : Z) : St World (result string string) :=
  sc_Create (BuildPostableSilence identity reason now DefaultTTL).

(** [m], with another try in a minute when it fails. *)
Definition or_retry {A} (m : St World (result string A)) (f : A → St World Result) : St World Result :=
  r ← m; match r with Err _ => mret (requeue silenceAPIRetryDelay) | Ok a => f a end.

Definition renew (identity : ClusterIdentity) (reason : Reason) (now : Z) (matched : GettableSilence) : St World Result :=
  if NeedsRenewal matched now then
    or_retry (createSilence identity reason now) (fun _ =>
    or_retry (sc_Expire (gs_ID matched)) (fun _ => mret (requeue RequeueInterval)))
  else mret (requeue RequeueInterval).

Definition replace (identity : ClusterIdentity) (reason : Reason) (now : Z) (existing : list GettableSilence) : St World Result :=
  or_retry (expireAll existing) (fun _ => or_retry (createSilence identity reason now) (fun _ => mret (requeue RequeueInterval))).

Definition converge (identity : ClusterIdentity) (intent : option Reason) (now : Z) (existing : list GettableSilence) : St World Result :=
  match intent with
  | None => or_retry (expireAll existing) (fun _ => mret done_result)
  | Some reason =>
      match existing with
      | [matched] => if MatchesReason matched reason then renew identity reason now matched else replace identity reason now existing
      | _ => replace identity reason now existing
      end
  end.

Definition Reconcile (r : SilenceReconciler) (key : nsname) : Call Result :=
  if negb (sr_SilenceClient r) then mret (Ok done_result)
  else
    g ← kc_Get KCluster key.1 key.2;
    match (g : result kerr (object KCluster)) with
    | Err e => mret (IgnoreNotFound done_result e)
    | Ok cluster =>
        now ← db.read_clock;
        let identity := IdentityFromCluster cluster in
        result ← or_retry (sc_List identity) (converge identity (IntentForCluster cluster) now);
        mret (Ok result)
    end.
End controller.
End SilenceController.

(** * What the silences of a cluster come to

    [silences] are the silences Alertmanager has; while a run lasts nobody else touches
    those of this cluster. The in-memory client keeps these promises. *)
From stdpp Require Import base gmap strings list.
From Stdlib Require Import ZArith Lia Ascii String.
Open Scope string_scope.
Import SilenceController.

(** An active silence of this operator for a cluster. *)
Definition managed_for (identity : ClusterIdentity) (s : GettableSilence) : Prop :=
  gs_CreatedBy s = CreatedBy ∧ gs_State s = "active" ∧ silenceMatchesIdentity s identity = true.
#[export] Instance managed_for_dec identity s : Decision (managed_for identity s).
Proof. apply _. Defined.

Class SilenceLaws `{SilenceClient} := {
  silences : World → gmap string GettableSilence;
  silences_ID : ∀ w id s, silences w !! id = Some s → gs_ID s = id;
  silences_Get : ∀ k ns n w w' r, kc_Get k ns n w = (w', r) → silences w' = silences w;
  List_silences : ∀ identity w w' r, sc_List identity w = (w', r) → silences w' = silences w ∧
    ∀ l, r = Ok l → ∀ s, s ∈ l ↔ silences w !! gs_ID s = Some s ∧ managed_for identity s;
  (** a failed call may have taken effect *)
  Create_silences : ∀ p w w' r, sc_Create p w = (w', r) →
    match r with
    | Ok id => silences w !! id = None ∧ ∃ t, silences w' = fake_Create id t p (silences w)
    | Err _ => silences w' = silences w ∨ ∃ id t, silences w !! id = None ∧ silences w' = fake_Create id t p (silences w)
    end;
  Expire_silences : ∀ id w w' r, sc_Expire id w = (w', r) →
    match r with
    | Ok _ => silences w' = alter expired id (silences w)
    | Err _ => silences w' = silences w ∨ silences w' = alter expired id (silences w)
    end
}.

(** ** Silences that are built *)
Lemma built_managed identity reason now ttl id t : managed_for identity (gettable id t (BuildPostableSilence identity reason now ttl)).
Proof.
  split_and!; [done..|]. unfold silenceMatchesIdentity. cbv zeta. apply andb_true_iff. destruct reason; simpl; unfold exact_matchers; simpl;
    rewrite lookup_insert_eq, lookup_insert_ne, lookup_insert_eq by done; simpl; by rewrite !String.eqb_refl.
Qed.
Lemma Contains_prefix s sub : HasPrefix s sub = true → strings_Contains s sub = true.
Proof. intros Hp. destruct s; cbn [strings_Contains]; by rewrite Hp. Qed.
Lemma built_reason identity reason now ttl id t : MatchesReason (gettable id t (BuildPostableSilence identity reason now ttl)) reason = true.
Proof.
  apply Contains_prefix. cbn [gettable gs_Comment ps_Comment BuildPostableSilence]. rewrite <- (str_app_assoc "lifecycle="). apply HasPrefix_app.
Qed.

Lemma expired_managed identity s : ¬ managed_for identity (expired s).
Proof. by intros (_ & ? & _). Qed.

Section props.
Context `{SilenceLaws, !Clock}.

(** The silences of the cluster are those of the list. *)
Definition only (identity : ClusterIdentity) (m : gmap string GettableSilence) (ids : list string) : Prop :=
  ∀ id s, m !! id = Some s → managed_for identity s → id ∈ ids.

Lemma only_expire identity m id ids : only identity m (id :: ids) → only identity (alter expired id m) ids.
Proof.
  intros Ho id' s Hs Hm. destruct (decide (id = id')) as [<-|Hne].
  - rewrite lookup_alter_eq in Hs. apply fmap_Some in Hs as (s0 & _ & ->). by apply expired_managed in Hm.
  - rewrite lookup_alter_ne in Hs by done. apply (Ho id' s) in Hs; [|done]. apply elem_of_cons in Hs as [->|]; done.
Qed.

Lemma expireAll_spec identity l : ∀ w w', only identity (silences w) (gs_ID <$> l) → expireAll l w = (w', Ok tt) → only identity (silences w') [].
Proof.
  induction l as [|s l IH]; intros w w' Ho; simpl; [by intros [-> _]%St_ret_inv|].
  intros (w1 & [[]|e] & He & Hr)%St_bind_inv; [|by apply St_ret_inv in Hr as [_ ?]]. eapply IH; [|exact Hr].
  apply Expire_silences in He. rewrite He. by apply only_expire.
Qed.

Lemma listed_only identity w w' l : sc_List identity w = (w', Ok l) → only identity (silences w') (gs_ID <$> l).
Proof.
  intros [-> Hl]%List_silences id s Hs Hm. pose proof (silences_ID _ _ _ Hs) as <-. apply list_elem_of_fmap. exists s. split; [done|]. by apply (Hl l eq_refl).
Qed.

(** One silence of the reason, for another hour at least. *)
Definition silenced (identity : ClusterIdentity) (reason : Reason) (now : Z) (m : gmap string GettableSilence) : Prop :=
  ∃ id s, m !! id = Some s ∧ managed_for identity s ∧ MatchesReason s reason = true ∧ (now + RenewBefore ≤ gs_EndsAt s)%Z ∧ only identity m [id].

Lemma created_silenced identity reason now id t m : only identity m [] →
  silenced identity reason now (fake_Create id t (BuildPostableSilence identity reason now DefaultTTL) m).
Proof.
  intros Ho. exists id. eexists. unfold fake_Create, FakeClient. split_and!; [apply lookup_insert_eq|apply built_managed|apply built_reason|simpl; unfold DefaultTTL, RenewBefore, hour, minute, second; lia|].
  intros id' s' Hs Hm. destruct (decide (id' = id)) as [->|Hne]; [by left|]. rewrite lookup_insert_ne in Hs by done. specialize (Ho _ _ Hs Hm). by apply elem_of_nil in Ho.
Qed.

Lemma or_retry_inv {A} (m : St World (result string A)) f w w' res : or_retry m f w = (w', res) →
  (∃ e, m w = (w', Err e) ∧ res = requeue silenceAPIRetryDelay) ∨ ∃ a w1, m w = (w1, Ok a) ∧ f a w1 = (w', res).
Proof.
  intros (w1 & [a|e] & Hm & Hr)%St_bind_inv; [right; by exists a, w1|]. apply St_ret_inv in Hr as [-> ->]. left. by exists e.
Qed.

Lemma replace_spec identity reason now l w w' res : only identity (silences w) (gs_ID <$> l) → replace identity reason now l w = (w', res) →
  res ≠ requeue silenceAPIRetryDelay → res = requeue RequeueInterval ∧ silenced identity reason now (silences w').
Proof.
  intros Ho [(e & _ & ->)|([] & w1 & He & [(e & _ & ->)|(id & w2 & Hc & [-> ->]%St_ret_inv)]%or_retry_inv)]%or_retry_inv Hne; [done..|]. split; [done|].
  eapply expireAll_spec in He; [|exact Ho]. apply Create_silences in Hc as (_ & t & ->). by apply created_silenced.
Qed.

Lemma NeedsRenewal_false s now : gs_State s = "active" → NeedsRenewal s now = false → (now + RenewBefore ≤ gs_EndsAt s)%Z.
Proof.
  unfold NeedsRenewal, time_Sub, RenewBefore, hour, minute, second. intros ->. simpl. lia.
Qed.

Lemma renew_spec identity reason now s w w' res : only identity (silences w) [gs_ID s] → silences w !! gs_ID s = Some s → managed_for identity s → MatchesReason s reason = true →
  renew identity reason now s w = (w', res) →
  (∃ id s', silences w' !! id = Some s' ∧ managed_for identity s' ∧ MatchesReason s' reason = true) ∧
  (res ≠ requeue silenceAPIRetryDelay → res = requeue RequeueInterval ∧ silenced identity reason now (silences w')).
Proof.
  intros Ho Hs Hm Hr. unfold renew. destruct (NeedsRenewal s now) eqn:En.
  2:{ intros [-> ->]%St_ret_inv. split; [by exists (gs_ID s), s|]. intros _. split; [done|]. exists (gs_ID s), s. split_and!; try done.
      apply NeedsRenewal_false; [apply Hm|done]. }
  set (p := BuildPostableSilence identity reason now DefaultTTL).
  assert (Hold : ∀ id t m, m !! id = None → m !! gs_ID s = Some s → fake_Create id t p m !! gs_ID s = Some s).
  { intros id t m Hn Hl. unfold fake_Create, FakeClient. rewrite lookup_insert_ne; [done|]. intros ->. congruence. }
  intros [(e & Hc & ->)|(id & w1 & Hc & Hrest)]%or_retry_inv.
  { apply Create_silences in Hc. split; [|done]. exists (gs_ID s), s. split; [|done]. destruct Hc as [->|(id & t & Hn & ->)]; [done|by apply Hold]. }
  apply Create_silences in Hc as (Hn & t & Hc). assert (Hnew : ∀ m : gmap string GettableSilence, m !! id = Some (gettable id t p) → ∃ id s', m !! id = Some s' ∧ managed_for identity s' ∧ MatchesReason s' reason = true).
  { intros m Hl. exists id, (gettable id t p). split_and!; [done|apply built_managed|apply built_reason]. }
  assert (Hid : gs_ID s ≠ id) by (intros Heq; rewrite Heq in Hs; congruence). fold p in Hc.
  assert (Hkept : ∀ m : gmap string GettableSilence, m = silences w1 ∨ m = alter expired (gs_ID s) (silences w1) → m !! id = Some (gettable id t p)).
  { intros m [-> | ->]; [|rewrite lookup_alter_ne by done]; rewrite Hc; apply lookup_insert_eq. }
  apply or_retry_inv in Hrest as [(e & He & ->)|([] & w2 & He & [-> ->]%St_ret_inv)]; apply Expire_silences in He.
  - split; [|done]. apply Hnew, Hkept, He.
  - split; [apply Hnew, Hkept; by right|]. intros _. split; [done|]. rewrite He, Hc. unfold fake_Create, FakeClient. rewrite alter_insert_ne by done.
    apply (created_silenced identity reason now id t), only_expire, Ho.
Qed.
End props.

Section theorems.
Context `{SilenceLaws, !Clock}.

(** C23: A reconcile of a cluster's silences that does not ask for another try in a
    minute has converged: for a cluster whose phase asks for no silence none is left;
    otherwise exactly one active silence is left, for the reason the phase asks for, and
    it lasts for another hour at least, which is longer than the time to the next run. *)
Theorem silences_converge (r : SilenceReconciler) (key : nsname) (cluster : object KCluster) w w1 w' res :
  sr_SilenceClient r = true → kc_Get KCluster key.1 key.2 w = (w1, Ok cluster) → Reconcile r key w = (w', Ok res) → res ≠ requeue silenceAPIRetryDelay →
  let identity := IdentityFromCluster cluster in
  match IntentForCluster cluster with
  | None => res = done_result ∧ only identity (silences w') []
  | Some reason => res = requeue RequeueInterval ∧ (RequeueInterval < RenewBefore)%Z ∧ silenced identity reason (now w1) (silences w')
  end.
Proof.
  intros Hcl Hg. unfold Reconcile. rewrite Hcl. cbn [negb]. intros (w2 & g & Hg2 & Hr)%St_bind_inv. pose proof (eq_trans (eq_sym Hg) Hg2) as [= <- <-].
  apply St_bind_inv in Hr as (w3 & t & [= <- <-] & Hr). cbv zeta in Hr. apply St_bind_inv in Hr as (w4 & x & Hx & [-> [= ->]]%St_ret_inv). intros Hne. cbv zeta.
  apply or_retry_inv in Hx as [(e & _ & ->)|(l & w5 & Hl & Hc)]; [done|]. pose proof (listed_only _ _ _ _ Hl) as Ho.
  assert (Hrenew : (RequeueInterval < RenewBefore)%Z) by done. unfold converge in Hc. destruct (IntentForCluster cluster) as [reason|].
  - assert (Hrep : replace (IdentityFromCluster cluster) reason (now w1) l w5 = (w4, x) → x = requeue RequeueInterval ∧ silenced (IdentityFromCluster cluster) reason (now w1) (silences w4)).
    { intros E. by eapply replace_spec. }
    destruct l as [|s [|s2 l]]; [naive_solver| |naive_solver]. destruct (MatchesReason s reason) eqn:Em; [|naive_solver].
    apply List_silences in Hl as [Hw5 Hl]. rewrite <- Hw5 in Hl. destruct (proj1 (Hl _ eq_refl s) ltac:(by left)) as [Hs Hm].
    eapply renew_spec in Hc as [_ Hc]; [|done..]. destruct (Hc Hne). by split_and!.
  - apply or_retry_inv in Hc as [(e & _ & ->)|([] & w6 & He & [-> ->]%St_ret_inv)]; [done|]. split; [done|]. by eapply expireAll_spec.
Qed.

(** A silence of the right reason is never lost: when it is the only one of the
    cluster, there is one of that reason after the run too, whichever call failed and
    whether or not the failed call took effect. The replacement is made before the old
    silence ends. *)
Theorem silence_never_lost (r : SilenceReconciler) (key : nsname) (cluster : object KCluster) reason w w1 w' res id s :
  kc_Get KCluster key.1 key.2 w = (w1, Ok cluster) → IntentForCluster cluster = Some reason →
  let identity := IdentityFromCluster cluster in
  silences w !! id = Some s → managed_for identity s → MatchesReason s reason = true → only identity (silences w) [id] →
  (∀ v v' l, sc_List identity v = (v', Ok l) → NoDup l) →
  Reconcile r key w = (w', res) →
  ∃ id' s', silences w' !! id' = Some s' ∧ managed_for identity s' ∧ MatchesReason s' reason = true.
Proof.
  intros Hg Hi identity Hs Hm Hr Ho Hnd. unfold Reconcile. destruct (sr_SilenceClient r); cbn [negb]; [|intros [-> _]%St_ret_inv; by exists id, s].
  intros (w2 & g & Hg2 & Hrest)%St_bind_inv. pose proof (eq_trans (eq_sym Hg) Hg2) as [= <- <-]. pose proof (silences_Get _ _ _ _ _ _ Hg) as Hw1.
  apply St_bind_inv in Hrest as (w3 & t & [= <- <-] & Hrest). cbv zeta in Hrest. apply St_bind_inv in Hrest as (w4 & x & Hx & [-> ->]%St_ret_inv). rewrite Hi in Hx.
  apply or_retry_inv in Hx as [(e & Hl & ->)|(l & w5 & Hl & Hc)]; fold identity in Hl; pose proof Hl as Hl0; apply List_silences in Hl as [Hw5 Hl].
  { exists id, s. by rewrite Hw5, Hw1. }
  specialize (Hl l eq_refl). specialize (Hnd _ _ _ Hl0). pose proof (silences_ID _ _ _ Hs) as Hid. rewrite Hw1 in Hl.
  assert (l = [s]) as ->.
  { assert (Hall : ∀ x, x ∈ l → x = s). { intros y [Hy Hmy]%Hl. pose proof (Ho _ _ Hy Hmy) as E%list_elem_of_singleton. congruence. }
    assert (Hin : s ∈ l) by (apply Hl; split; [by rewrite Hid|done]). destruct l as [|a [|b l]]; [by apply elem_of_nil in Hin|f_equal; apply Hall; by left|].
    apply NoDup_cons in Hnd as [Hn _]. destruct Hn. rewrite (Hall a), (Hall b); [by left|right; by left|by left]. }
  unfold converge in Hc. rewrite Hr in Hc. fold identity in Hc. eapply (renew_spec identity reason (now w1) s w5 w4 x) in Hc as [Hc _]; [done|..|done|done].
  - rewrite Hw5, Hw1, Hid. exact Ho.
  - by rewrite Hw5, Hw1, Hid.
Qed.
End theorems.
