(* ===== verification/StatusStream.v ===== *)
(** * The status streams (internal/dynamo/statusstream, controller/event_router.go)

    One watcher per status table of every management cluster; the manager follows the
    list of management clusters. A change it reports is dispatched to the queue of the
    controller that registered the document. A watcher is known by the number it was
    started under; it runs until its context is cancelled. *)
From S2P Require Import Prelude GoStrings Json Convert StateM ApiTypes KubeClient ApiClient Controllers Goroutines Desires.
From stdpp Require Import base gmap strings list.
From Stdlib Require Import ZArith Lia String.
Open Scope string_scope.

Module StatusStream.
Record Manager := mkManager { sm_active : gmap string nat; sm_next : nat; sm_running : gset nat }.
Definition NewManager : Manager := mkManager ∅ 0 ∅.

Definition table_keys (tableSuffixes names : list string) : list string := names ≫= fun n => (fun suffix => n +:+ suffix) <$> tableSuffixes.

(** [h.cancel(); delete(active, key)] for every watcher that is not desired. *)
Definition stop (desired : list string) (m : Manager) : Manager :=
  let stopped : gmap string nat := filter (λ kv, kv.1 ∉ desired) (sm_active m) in
  mkManager (filter (λ kv, kv.1 ∈ desired) (sm_active m)) (sm_next m) (sm_running m ∖ list_to_set (map_to_list stopped).*2).

Definition start (key : string) (m : Manager) : Manager :=
  match sm_active m !! key with
  | Some _ => m
  | None => mkManager (<[key := sm_next m]> (sm_active m)) (S (sm_next m)) ({[sm_next m]} ∪ sm_running m)
  end.

(** [None]: the list failed. *)
Definition syncWatchers (tableSuffixes : list string) (list : option (list string)) (m : Manager) : Manager :=
  match list with
  | None => m
  | Some names =>
      fold_left (fun m key => start key m) (table_keys tableSuffixes (filter (λ n, HasPrefix n "test-mc-" = false) names))
        (stop (table_keys tableSuffixes names) m)
  end.

(** The lists seen until the context ends; then every watcher is cancelled. *)
Definition Run (tableSuffixes : list string) (lists : list (option (list string))) : Manager :=
  let m := fold_left (fun m l => syncWatchers tableSuffixes l m) lists NewManager in
  mkManager (sm_active m) (sm_next m) (sm_running m ∖ list_to_set (map_to_list (sm_active m)).*2).

(** What the operator watches (cmd/manager/main.go). *)
Definition status_suffixes : list string := [TableSuffixStatusApplyDesires; TableSuffixStatusReadDesires].
End StatusStream.
Import StatusStream.

(** ** Watchers are neither leaked nor doubled *)

(** The running watchers are the active ones, each under one key. *)
Record wf_manager (m : Manager) : Prop := mkWfManager {
  wm_running : ∀ n, n ∈ sm_running m ↔ ∃ key, sm_active m !! key = Some n;
  wm_fresh : ∀ key n, sm_active m !! key = Some n → n < sm_next m;
  wm_inj : ∀ k1 k2 n, sm_active m !! k1 = Some n → sm_active m !! k2 = Some n → k1 = k2
}.

Lemma stop_wf desired m : wf_manager m → wf_manager (stop desired m).
Proof.
  intros [Hr Hf Hi]. unfold stop. cbv zeta. split; simpl.
  - intros n. rewrite elem_of_difference, Hr, elem_of_list_to_set. setoid_rewrite map_lookup_filter_Some. split.
    + intros [(key & Hk) Hn]. exists key. split; [done|]. apply dec_stable. intros Hd. apply Hn. apply list_elem_of_fmap. exists (key, n). split; [done|].
      apply elem_of_map_to_list, map_lookup_filter_Some. done.
    + intros (key & Hk & Hd). split; [by exists key|]. intros ([k2 n2] & [= <-] & Hin)%list_elem_of_fmap. apply elem_of_map_to_list, map_lookup_filter_Some in Hin as [Hk2 Hd2].
      simpl in *. by pose proof (Hi _ _ _ Hk Hk2) as ->.
  - intros key n [Hk _]%map_lookup_filter_Some. by eapply Hf.
  - intros k1 k2 n [H1 _]%map_lookup_filter_Some [H2 _]%map_lookup_filter_Some. by eapply Hi.
Qed.

Lemma start_wf key m : wf_manager m → wf_manager (start key m).
Proof.
  intros [Hr Hf Hi]. unfold start. destruct (sm_active m !! key) eqn:Ek; [done|]. split; simpl.
  - intros n. rewrite elem_of_union, elem_of_singleton, Hr. split.
    + intros [->|(k & Hk)]; [exists key; apply lookup_insert_eq|]. exists k. rewrite lookup_insert_ne; [done|]. congruence.
    + intros (k & Hk). apply lookup_insert_Some in Hk as [[_ <-]|[_ Hk]]; [by left|right; eauto].
  - intros k n Hk. apply lookup_insert_Some in Hk as [[_ <-]|[_ Hk]]; [lia|]. apply Hf in Hk. lia.
  - intros k1 k2 n H1 H2. apply lookup_insert_Some in H1 as [[<- <-]|[Hn1 H1]], H2 as [[<- ?]|[Hn2 H2]]; [done|apply Hf in H2; lia|subst; apply Hf in H1; lia|by eapply Hi].
Qed.

Lemma starts_spec keys : ∀ m, wf_manager m → let m' := fold_left (fun m key => start key m) keys m in
  wf_manager m' ∧ (∀ key n, sm_active m !! key = Some n → sm_active m' !! key = Some n) ∧
  ∀ key, is_Some (sm_active m' !! key) ↔ is_Some (sm_active m !! key) ∨ key ∈ keys.
Proof.
  induction keys as [|key keys IH]; intros m Hm; simpl.
  - split_and!; [done..|]. intros k. split; [by left|]. intros [?|Hn]; [done|by apply elem_of_nil in Hn].
  - destruct (IH (start key m) (start_wf key m Hm)) as (W & K & D). split_and!; [done|..].
    + intros k n Hk. apply K. unfold start. destruct (sm_active m !! key) eqn:Ek; [done|]. simpl. rewrite lookup_insert_ne; [done|]. congruence.
    + intros k. rewrite D, elem_of_cons. unfold start. destruct (sm_active m !! key) as [n|] eqn:Ek; simpl.
      * split; [naive_solver|]. intros [?|[->|?]]; [by left|left; by exists n|by right].
      * rewrite lookup_insert_is_Some'. naive_solver.
Qed.

(** The manager follows the management clusters. After a list it has a watcher for
    every status table of every listed cluster that is not a test's, and for no cluster
    that is not listed; a watcher that is still wanted is the same as before, not a new
    one; every watcher that runs is one it knows, so none is leaked and no table has
    two; a list that fails changes nothing; and when the manager ends none runs. *)
Theorem watchers_follow suffixes m : wf_manager m →
  syncWatchers suffixes None m = m ∧
  (∀ names, let m' := syncWatchers suffixes (Some names) m in
     wf_manager m' ∧
     (∀ key, is_Some (sm_active m' !! key) ↔ (is_Some (sm_active m !! key) ∧ key ∈ table_keys suffixes names) ∨
        key ∈ table_keys suffixes (filter (λ n, HasPrefix n "test-mc-" = false) names)) ∧
     ∀ key n, sm_active m !! key = Some n → key ∈ table_keys suffixes names → sm_active m' !! key = Some n) ∧
  ∀ lists, sm_running (Run suffixes lists) = ∅.
Proof.
  intros Hm. assert (Hsync : ∀ names m, wf_manager m → wf_manager (syncWatchers suffixes (Some names) m)).
  { intros names m' Hm'. by apply starts_spec, stop_wf. }
  split_and!; [done| |].
  - intros names. cbv zeta. split; [by apply Hsync|]. destruct (starts_spec (table_keys suffixes (filter (λ n, HasPrefix n "test-mc-" = false) names)) _ (stop_wf (table_keys suffixes names) m Hm)) as (_ & K & D). split.
    + intros key. unfold syncWatchers. rewrite D. unfold stop. simpl. unfold is_Some. setoid_rewrite map_lookup_filter_Some. simpl. naive_solver.
    + intros key n Hk Hin. apply K. unfold stop. simpl. by apply map_lookup_filter_Some.
  - intros lists. unfold Run. cbv zeta. simpl. set (m0 := fold_left _ lists NewManager). assert (Hw : wf_manager m0).
    { unfold m0. assert (wf_manager NewManager) as Hn. { split; simpl; [intros n; split; [set_solver|]; intros (key & Hk); by rewrite lookup_empty in Hk|intros key n; by rewrite lookup_empty|intros k1 k2 n; by rewrite lookup_empty]. }
      revert Hn. generalize NewManager. induction lists as [|[names|] l IH]; intros m1 H1; simpl; [done|by apply IH, Hsync|by apply IH]. }
    apply set_eq. intros n. rewrite elem_of_difference, elem_of_list_to_set, (wm_running _ Hw). split; [|set_solver]. intros [(key & Hk) Hn]. destruct Hn.
    apply list_elem_of_fmap. exists (key, n). split; [done|]. by apply elem_of_map_to_list.
Qed.

(** ** Dispatch *)
Import EventRouter.

(** An event of a document goes to the target that registered it last, once: its key
    is appended to the queue of its controller unless that is full, and no other queue
    changes. A document that was deregistered, or never registered, changes nothing. The
    watched tables are those the desire client reads the reports from. *)
Theorem dispatch_exact docID target idx (qs : queues) q :
  qs !! et_Channel target = Some q →
  (∃ qs', Dispatch docID (Register docID target idx) qs = (qs', true) ∧
     (∀ c, c ≠ et_Channel target → qs' !! c = qs !! c) ∧
     qs' !! et_Channel target = Some (if Nat.ltb (List.length (q_events q)) (q_capacity q) then mkQueue (q_events q ++ [et_Key target])%list (q_capacity q) else q)) ∧
  Dispatch docID (Deregister docID (Register docID target idx)) qs = (qs, false) ∧
  ∀ mc, (fun suffix => mc +:+ suffix) <$> status_suffixes = [StatusPrefix mc +:+ TableSuffixApplyDesires; StatusPrefix mc +:+ TableSuffixReadDesires].
Proof.
  intros Hq. unfold Dispatch, Lookup, Register, Deregister, index. rewrite lookup_insert_eq, lookup_delete_eq, Hq. split_and!; [|done|].
  - destruct (Nat.ltb _ _); eexists; (split; [reflexivity|]); split; try done; [intros c Hc; by rewrite lookup_insert_ne|apply lookup_insert_eq].
  - intros mc. unfold StatusPrefix. by rewrite !str_app_assoc.
Qed.
