(* ===== verification/OperatorWorld.v ===== *)
(** * The operator's state

    A store beside the DynamoDB client of DesireStore.v and the event router. The
    client's operations, on documents, keep the promises the controllers rely on
    ([DesireLaws]): this discharges the interface of Desires.v by the implementation. *)
From S2P Require Import Prelude GoStrings Json Convert Cidr AwsArn StateM HttpApi ApiTypes KubeClient KubeMemory ApiClient Claims AccountObjects ApiExamples Controllers DnsReservations Goroutines Desires DesireStore Render DesireSets ClusterController NodePoolController OidcInfra OidcConfigs Manifests.
From stdpp Require Import base gmap strings list relations.
From Stdlib Require Import ZArith Lia Ascii String.
Open Scope string_scope.

(** ** A store with something beside it *)
Section paired.
Context `{Laws : KubeClientLaws} {X : Type}.

Definition on_store {A} (m : St World A) : St (World * X) A := zoom fst (fun v w => (v, w.2)) m.

Definition Paired_Client : KubeClient := {|
  World := World * X;
  state := fun w => state w.1;
  interfere := interfere;
  kc_Get := fun k ns n => on_store (kc_Get k ns n);
  kc_List := fun k ns f => on_store (kc_List k ns f);
  kc_Create := fun k o => on_store (kc_Create k o);
  kc_Update := fun k o => on_store (kc_Update k o);
  kc_Status_Update := fun k o => on_store (kc_Status_Update k o);
  kc_Delete := fun k o => on_store (kc_Delete k o)
|}.

Lemma on_store_inv {A} (m : St World A) w w' a : on_store m w = (w', a) → m w.1 = (w'.1, a) ∧ w'.2 = w.2.
Proof. unfold on_store, zoom. destruct (m w.1) as [v x]. by intros [= <- <-]. Qed.

Lemma Paired_laws : @KubeClientLaws _ Paired_Client.
Proof.
  split; simpl.
  - intros w. apply state_wf.
  - apply interfere_evolves.
  - apply interfere_wf.
  - intros k ns n w w' r [E _]%on_store_inv. exact (Get_law _ _ _ _ _ _ E).
  - intros k ns f w w' r [E _]%on_store_inv. exact (List_law _ _ _ _ _ _ E).
  - intros k o w w' r [E _]%on_store_inv. exact (Create_law _ _ _ _ _ E).
  - intros k o w w' r [E _]%on_store_inv. exact (Update_law _ _ _ _ _ E).
  - intros k o w w' r [E _]%on_store_inv. exact (Status_Update_law _ _ _ _ _ E).
  - intros k o w w' r [E _]%on_store_inv. exact (Delete_law _ _ _ _ _ E).
Qed.
End paired.

(** ** The desire client *)
Section desires.
Context {P : Passthrough} {K : KubeClient} {Laws : KubeClientLaws} {T : Type} `{Tables T, DesireCodec, !TablesLaws, !CodecLaws}.

Record Operator := mkOperator { op_client : Client (T := T); op_routes : EventRouter.index }.
Definition Operator_Client : KubeClient := Paired_Client (X := Operator).
#[local] Existing Instance Operator_Client.
#[local] Notation World' := (@World _ Operator_Client).

Definition client_of (w : World') : Client := op_client w.2.

Definition on_client {A} (m : St Client A) : St World' A := fun w =>
  let p := m (client_of w) in ((w.1, mkOperator p.1 (op_routes w.2)), p.2).

Lemma on_client_inv {A} (m : St Client A) w w' a : on_client m w = (w', a) →
  m (client_of w) = (client_of w', a) ∧ w'.1 = w.1 ∧ op_routes w'.2 = op_routes w.2.
Proof. unfold on_client. intros [= <- <-]. split; [apply surjective_pairing|done]. Qed.

Definition Store_Client : @DesireClient _ Operator_Client := {|
  UpsertApplyDesire := fun prefix doc s => on_client (UpsertApply prefix doc s);
  UpsertReadDesire := fun prefix doc s => on_client (UpsertRead prefix doc s);
  GetApplyDesireStatus := fun prefix doc => on_client (GetApplyStatus prefix doc);
  GetReadDesireStatus := fun prefix doc => on_client (GetReadStatus prefix doc);
  DeleteDesireSpec := fun prefix suffix doc => on_client (DeleteSpec prefix suffix doc)
|}.

Definition report_of (item : Item) : option ApplyDesireStatus :=
  if bool_decide (item = ∅) then None
  else match UnmarshalApplyStatus (match item !! "status" with Some (AV_M m) => list_to_map m | _ => item end) with Ok st => Some st | Err _ => None end.

(** What is known of a row stays known while it is settled. *)
Definition Store_Rows : @DesireRows _ Operator_Client := {|
  stored := fun w table doc d t => holds (cl_tables (client_of w)) table doc d t ∧ settled (cl_tables (client_of w)) (table, doc);
  absent := fun w table doc => tables (cl_tables (client_of w)) !! (table, doc) = None ∧ settled (cl_tables (client_of w)) (table, doc);
  trusted := fun w table doc => trusted_row (client_of w) table doc;
  reported := fun w prefix doc => report_of (default ∅ (tables (cl_tables (client_of w)) !! (prefix +:+ TableSuffixApplyDesires, doc)))
|}.

Definition Store_Routing : @Routing _ Operator_Client := {| router := fun w => op_routes w.2; set_router := fun i w => (w.1, mkOperator (op_client w.2) i) |}.

#[local] Existing Instances Store_Client Store_Rows Store_Routing.

Lemma rows_kept (w w' : World') table doc : row_stays (cl_tables (client_of w)) (cl_tables (client_of w')) (table, doc) →
  cl_cache (client_of w') !! cacheKey table doc = cl_cache (client_of w) !! cacheKey table doc → row_kept w w' table doc.
Proof.
  intros Hr Hc. split_and!.
  - intros d t [Hh Hs]. destruct (Hr Hs) as (E & Hs' & _). split; [by eapply holds_same|done].
  - intros [Hn Hs]. destruct (Hr Hs) as (E & Hs' & _). split; [by rewrite E|done].
  - by apply trusted_stays.
Qed.
Lemma rows_others table doc (w w' : World') : document doc → others_stay table doc (client_of w) (client_of w') → other_rows table doc w w'.
Proof. intros Hd [Ht Hc] table' doc' Hd' Hne. apply rows_kept; [by apply Ht|]. apply Hc. intros ?%cacheKey_inj; naive_solver. Qed.
Lemma rows_quiet (w w' : World') : quietly (client_of w) (client_of w') → cl_cache (client_of w') = cl_cache (client_of w) → same_rows w w'.
Proof. intros Hq Hc table doc. apply rows_kept; [apply Hq|by rewrite Hc]. Qed.
Lemma rows_same (w w' : World') : client_of w' = client_of w → same_rows w w'.
Proof. intros E. apply rows_quiet; rewrite E; [intros key; apply row_stays_refl|done]. Qed.

Lemma upsert_stored table doc d (w w' : World') r : upsertDesire table doc d (client_of w) = (client_of w', r) → trusted w table doc →
  ∀ u, r = Ok u → stored w' table doc d (ur_UpdateTime u).
Proof. intros (_ & Hup & _)%upsert_spec Ht u ->. by destruct (Hup Ht) as (? & ? & _). Qed.

Lemma Store_laws : DesireLaws.
Proof.
  split.
  - intros prefix doc s w w' r Hd (E & Hs & _)%on_client_inv. simpl. rewrite Hs. split_and!; [reflexivity| |by eapply upsert_stored].
    apply rows_others; [done|]. by apply upsert_spec in E as [? _].
  - intros prefix doc s w w' r Hd (E & Hs & _)%on_client_inv. simpl. rewrite Hs. split_and!; [reflexivity| |by eapply upsert_stored].
    apply rows_others; [done|]. by apply upsert_spec in E as [? _].
  - intros prefix doc w w' r (E & Hs & _)%on_client_inv. apply status_frame in E as (Hq & Hc & Hn & Hok). simpl. rewrite Hs. split_and!; [reflexivity|by apply rows_quiet|].
    unfold report_of. destruct r as [st|[|]]; [|by rewrite Hn|done].
    destruct (Hok st eq_refl) as (item & attrs & Hi & Hne & -> & Hu). rewrite Hi. simpl. rewrite bool_decide_false by done. by rewrite Hu.
  - intros prefix doc w w' r (E & Hs & _)%on_client_inv. apply status_frame in E as (Hq & Hc & _). simpl. rewrite Hs. split; [reflexivity|by apply rows_quiet].
  - intros prefix suffix doc w w' r Hd (E & Hs & _)%on_client_inv. apply delete_spec in E as [Ho Hrow]. simpl. rewrite Hs. split_and!; [reflexivity|by apply rows_others|].
    intros Ht ->. by destruct (Hrow (tr_settled _ _ _ Ht)) as (? & ? & _).
Qed.

Lemma Store_router : RouterFrame.
Proof. done. Qed.

Lemma quiet_store {A} (m : St (@World _ K) A) : moves (S := World') id quiet (on_store (X := Operator) m).
Proof. intros w w' r [_ E]%on_store_inv. apply rtc_once. split; [apply rows_same; unfold client_of, id; by rewrite E|]. unfold id, router. simpl. by rewrite E. Qed.
Lemma quiet_status {A} (unmarshal : Item → Item → result string A) table doc : moves id quiet (on_client (getDesireStatus unmarshal table doc)).
Proof. intros w w' r (E & _ & Hr)%on_client_inv. apply status_frame in E as (Hq & Hc & _). apply rtc_once. split; [by apply rows_quiet|done]. Qed.

Lemma Store_apart : StoresApart.
Proof.
  split; [| |intros k ns n|intros k ns f|intros k o|intros k o|intros k o|intros prefix doc|intros prefix doc|intros prefix doc d w w' r E|intros prefix doc d w w' r E].
  - done.
  - intros i w. by apply rows_same.
  - apply quiet_store.
  - apply quiet_store.
  - apply quiet_store.
  - apply quiet_store.
  - apply quiet_store.
  - apply quiet_status.
  - apply quiet_status.
  - by apply on_client_inv in E as (_ & _ & ?).
  - by apply on_client_inv in E as (_ & _ & ?).
Qed.
End desires.

(** * An operator in memory

    Concrete instances of what the operator's models take as parameters: apimachinery's
    helpers, documents, tables, codecs, the customer's types and the AWS services. They
    keep the laws the theorems assume. *)
From stdpp Require Import base gmap strings list relations.
From Stdlib Require Import ZArith Lia Ascii String DecimalString DecimalZ.
Open Scope string_scope.

(** ** apimachinery *)
Fixpoint find_condition (l : list Condition) (ty : string) : option Condition :=
  match l with
  | [] => None
  | c :: l => if String.eqb (cond_Type c) ty then Some c else find_condition l ty
  end.
Fixpoint set_condition (t : Z) (c : Condition) (l : list Condition) : list Condition :=
  match l with
  | [] => [mkCondition (cond_Type c) (cond_Status c) (cond_ObservedGeneration c) t (cond_Reason c) (cond_Message c)]
  | x :: l =>
      if String.eqb (cond_Type x) (cond_Type c) then
        mkCondition (cond_Type c) (cond_Status c) (cond_ObservedGeneration c)
          (if String.eqb (cond_Status x) (cond_Status c) then cond_LastTransitionTime x else t) (cond_Reason c) (cond_Message c) :: l
      else x :: set_condition t c l
  end.
Definition remove_condition (ty : string) (l : list Condition) : list Condition := filter (λ c, cond_Type c ≠ ty) l.

Definition plain_lib : ControllerLib := {|
  SetStatusCondition := set_condition;
  RemoveStatusCondition := remove_condition;
  FindStatusCondition := find_condition;
  ContainsFinalizer m f := bool_decide (f ∈ om_Finalizers m);
  AddFinalizer m f := if bool_decide (f ∈ om_Finalizers m) then m else set_finalizers (om_Finalizers m ++ [f])%list m;
  RemoveFinalizer m f := set_finalizers (filter (λ g, g ≠ f) (om_Finalizers m)) m;
  SetControllerReference r m :=
    if existsb or_Controller (om_OwnerReferences m) then Err "already owned by another controller" else Ok (set_owners (om_OwnerReferences m ++ [r])%list m)
|}.

Lemma plain_lib_laws : @ControllerLibLaws plain_lib.
Proof.
  split; simpl.
  - intros t c l. induction l as [|x l IH]; simpl.
    + rewrite String.eqb_refl. by eexists.
    + destruct (String.eqb_spec (cond_Type x) (cond_Type c)) as [E|E]; simpl; [rewrite String.eqb_refl; by eexists|].
      rewrite (proj2 (String.eqb_neq _ _) E). exact IH.
  - intros t c l ty Hne. induction l as [|x l IH]; simpl.
    + by rewrite (proj2 (String.eqb_neq (cond_Type c) ty)).
    + destruct (String.eqb_spec (cond_Type x) (cond_Type c)) as [E|E]; simpl; [|by rewrite IH].
      rewrite E. by rewrite (proj2 (String.eqb_neq (cond_Type c) ty)).
  - intros l ty. unfold remove_condition. induction l as [|x l IH]; [done|]. rewrite filter_cons. case_decide as Hd; [|done]. simpl.
    by rewrite (proj2 (String.eqb_neq _ _) Hd).
  - intros l ty ty' Hne. unfold remove_condition. induction l as [|x l IH]; [done|]. rewrite filter_cons. simpl. case_decide as Hd; simpl; [by rewrite IH|].
    rewrite (proj2 (String.eqb_neq (cond_Type x) ty')); congruence.
  - intros m f. apply bool_decide_eq_true.
  - intros m f. case_bool_decide as Hf.
    + exists (om_Finalizers m). split; [by destruct m|]. intros g. naive_solver.
    + eexists. split; [done|]. intros g. rewrite elem_of_app, list_elem_of_singleton. naive_solver.
  - intros m f. eexists. split; [done|]. intros g. by rewrite list_elem_of_filter.
  - intros r m m'. destruct (existsb _ _); [done|]. intros [= <-]. by eexists.
Qed.

(** ** Texts

    [escape] hides the slash, [quote] ends with a quote that is not in the text. *)
Fixpoint escape (s : string) : string :=
  match s with
  | EmptyString => EmptyString
  | String c s => if Ascii.eqb c "/" then String "~" (String "s" (escape s)) else if Ascii.eqb c "~" then String "~" (String "t" (escape s)) else String c (escape s)
  end.
Lemma escape_inj s1 s2 : escape s1 = escape s2 → s1 = s2.
Proof.
  revert s2. induction s1 as [|c1 s1 IH]; intros [|c2 s2]; simpl; [done|..].
  - destruct (Ascii.eqb c2 "/"); [done|]. by destruct (Ascii.eqb c2 "~").
  - destruct (Ascii.eqb c1 "/"); [done|]. by destruct (Ascii.eqb c1 "~").
  - destruct (Ascii.eqb_spec c1 "/"), (Ascii.eqb_spec c2 "/"), (Ascii.eqb_spec c1 "~"), (Ascii.eqb_spec c2 "~"); subst; intros [=]; subst; f_equal; auto; try done.
Qed.
Lemma escape_free s : str_free "/" (escape s) = true.
Proof.
  unfold str_free. induction s as [|c s IH]; [done|]. simpl. destruct (Ascii.eqb_spec c "/") as [|Hs]; [simpl; done|].
  destruct (Ascii.eqb c "~"); simpl; [done|]. rewrite IH. by rewrite (proj2 (Ascii.eqb_neq c "/") Hs).
Qed.

Definition quoted_field (s : string) : string := escape s +:+ "/".
Definition texts (l : list string) : string := foldr (fun s acc => quoted_field s +:+ acc) "" l.
Lemma field_split a1 r1 a2 r2 : quoted_field a1 +:+ r1 = quoted_field a2 +:+ r2 → a1 = a2 ∧ r1 = r2.
Proof.
  unfold quoted_field. intros E. assert (H : escape a1 = escape a2 ∧ r1 = r2); [|destruct H as [H%escape_inj ->]; by split].
  rewrite !str_app_assoc in E. simpl in E. pose proof (escape_free a1) as F1. pose proof (escape_free a2) as F2. revert E F1 F2. generalize (escape a1), (escape a2). clear. unfold str_free.
  intros x. induction x as [|c x IH]; intros [|c2 y]; simpl; intros E F1 F2; cbn [String.append] in E.
  - injection E as E. by split.
  - injection E as <- _. by rewrite Ascii.eqb_refl in F2.
  - injection E as -> _. by rewrite Ascii.eqb_refl in F1.
  - injection E as -> E. apply andb_true_iff in F1 as [_ F1], F2 as [_ F2]. by destruct (IH y E F1 F2) as [-> ->].
Qed.
Lemma texts_inj l1 l2 : texts l1 = texts l2 → l1 = l2.
Proof.
  revert l2. induction l1 as [|a l1 IH]; intros [|b l2]; simpl; [done|..].
  - intros E. symmetry in E. unfold quoted_field in E. by destruct (escape b).
  - intros E. unfold quoted_field in E. by destruct (escape a).
  - intros [-> E]%field_split. by rewrite (IH _ E).
Qed.

Definition escaped_ids : DocumentIDs := {| uuid_NewSHA1 := escape |}.
Lemma escaped_ids_laws : @DocumentIDLaws escaped_ids.
Proof. split; [apply escape_free|apply escape_inj]. Qed.

(** ** Tables

    Rows in memory and a replica that is one read behind. The next writes are answered,
    stored without an answer, or refused, as [mt_fates] says; those after them are answered. *)
Inductive Fate := Answered | Lost | Refused.
Record MemTables := mkMem {
  mt_rows : gmap (string * string) Item;
  mt_replica : gmap (string * string) Item;
  mt_unknown : gset (string * string);
  mt_fates : list Fate;
  mt_now : Z
}.
Definition mkMemTables (rows : gmap (string * string) Item) (t : Z) : MemTables := mkMem rows rows ∅ [] t.

Definition mem_write (key : string * string) (rows : gmap (string * string) Item) (t : MemTables) : MemTables * option string :=
  match mt_fates t with
  | [] => (mkMem rows (mt_replica t) (mt_unknown t) [] (mt_now t), None)
  | Answered :: fates => (mkMem rows (mt_replica t) (mt_unknown t) fates (mt_now t), None)
  | Lost :: fates => (mkMem rows (mt_replica t) ({[key]} ∪ mt_unknown t) fates (mt_now t), Some "timeout")
  | Refused :: fates => (mkMem (mt_rows t) (mt_replica t) (mt_unknown t) fates (mt_now t), Some "throttled")
  end.
Definition memory_tables : Tables MemTables := {|
  tables := mt_rows;
  settled t key := key ∉ mt_unknown t;
  replicated t key := mt_replica t !! key = mt_rows t !! key;
  GetItem := fun consistent table doc t =>
    (mkMem (mt_rows t) (mt_rows t) (mt_unknown t) (mt_fates t) (mt_now t),
     Ok (default ∅ ((if consistent then mt_rows t else mt_replica t) !! (table, doc))));
  PutItem := fun table doc item t => mem_write (table, doc) (<[(table, doc) := item]> (mt_rows t)) t;
  DeleteItem := fun table doc t => mem_write (table, doc) (delete (table, doc) (mt_rows t)) t;
  wall_clock := mt_now
|}.

Lemma mem_write_others key rows t t' r : (∀ key', key' ≠ key → rows !! key' = mt_rows t !! key') → mem_write key rows t = (t', r) →
  ∀ key', key' ≠ key → @row_stays _ memory_tables t t' key'.
Proof.
  intros Hrows E key' Hne Hs. simpl in *. unfold mem_write in E. destruct (mt_fates t) as [|[] fates]; injection E as <- <-; simpl;
    rewrite ?Hrows by done; split_and!; try done; set_solver.
Qed.
Lemma mem_write_row key rows t t' r : mem_write key rows t = (t', r) → key ∉ mt_unknown t →
  match r with None => mt_rows t' !! key = rows !! key ∧ key ∉ mt_unknown t' | Some _ => mt_rows t' !! key = mt_rows t !! key ∨ mt_rows t' !! key = rows !! key end.
Proof. unfold mem_write. intros E Hs. destruct (mt_fates t) as [|[] fates]; injection E as <- <-; simpl; auto. Qed.

Lemma memory_tables_laws : @TablesLaws _ memory_tables.
Proof.
  split; simpl.
  - intros b table doc t t' r [= <- <-] key Hs. by split_and!.
  - intros b table doc t t' item [= <- <-] [->|[_ Hr]]; [done|]. destruct b; [done|]. simpl. by rewrite Hr.
  - intros table doc item t t' r E. eapply mem_write_others; [|exact E]. intros key' Hne. by rewrite lookup_insert_ne.
  - intros table doc item t t' r E Hs. pose proof (mem_write_row _ _ _ _ _ E Hs) as Hr. by rewrite !lookup_insert_eq in Hr.
  - intros table doc t t' r E. eapply mem_write_others; [|exact E]. intros key' Hne. by rewrite lookup_delete_ne.
  - intros table doc t t' r E Hs. pose proof (mem_write_row _ _ _ _ _ E Hs) as Hr. by rewrite !lookup_delete_eq in Hr.
Qed.

Definition reference_fields (r : ResourceReference) : list string := [ref_Group r; ref_Version r; ref_Resource r; ref_Namespace r; ref_Name r].
Definition desire_fields (d : Desire) : list string :=
  match d with
  | ApplyOf s => ((match as_Type s with ServerSideApply => "apply" | DeleteType => "delete" end) :: as_ManagementCluster s :: as_ClusterID s :: reference_fields (as_TargetItem s)) ++
                 match as_KubeContent s with Some content => [content] | None => [] end
  | ReadOf s => "read" :: rd_ManagementCluster s :: rd_ClusterID s :: reference_fields (rd_TargetItem s)
  end%list.
Lemma desire_fields_inj d1 d2 : desire_fields d1 = desire_fields d2 → d1 = d2.
Proof.
  destruct d1 as [[[] ? ? [] [c1|]]|[? ? []]], d2 as [[[] ? ? [] [c2|]]|[? ? []]]; simpl; intros [=]; by subst.
Qed.

Definition decimal (t : Z) : string := NilEmpty.string_of_int (Z.to_int t).
Definition undecimal (s : string) : option Z := Z.of_int <$> NilEmpty.int_of_string s.
Lemma undecimal_decimal t : undecimal (decimal t) = Some t.
Proof. unfold undecimal, decimal. rewrite NilEmpty.isi. simpl. by rewrite DecimalZ.of_to. Qed.

(** A report: the time it is about, and whether it was carried out. *)
Definition report_status (item : Item) : result string ApplyDesireStatus :=
  match attr_string item "observedDesireUpdateTime" ≫= undecimal, attr_string item "successful" with
  | Some t, Some s => Ok (mkApplyStatus t [mkCondition DesireConditionSuccessful s 0 t "" ""])
  | _, _ => Err "no report"
  end.
Definition text_codec : DesireCodec := {|
  spec_JSON_text d := Ok (texts (desire_fields d));
  hex_sha256_of s := "sha256:" +:+ s;
  MarshalMap d := Ok [("fields", AV_S (texts (desire_fields d)))];
  UnmarshalApplyStatus := report_status;
  UnmarshalReadStatus _ := Ok tt;
  RFC3339_Format := decimal;
  RFC3339_Parse := undecimal;
  ComputeShardDefault _ := "0"
|}.
Lemma text_codec_laws : @CodecLaws text_codec.
Proof.
  split; simpl; [done| |].
  - intros d1 d2 h. unfold computeSpecHash. simpl. intros [= <-] [= E]. symmetry. by apply desire_fields_inj, texts_inj.
  - intros t _. apply undecimal_decimal.
Qed.

(** ** The customer's types and the services *)
#[local] Existing Instances no_bodies memory_tables memory_tables_laws text_codec text_codec_laws.

Definition plain_hypershift : HyperShift := {|
  toHostedClusterSpec _ _ := Ok zero_hosted;
  toNodePoolSpec _ _ := Ok zero_hyper_pool;
  cl_AdditionalTrustBundle _ := None;
  np_MaxUnavailable _ := None;
  np_MaxSurge _ := None;
  Release_Image r := r;
  zero_HostedClusterSpec := zero_hosted;
  zero_HyperNodePoolSpec := zero_hyper_pool
|}.
Definition constructor_text : MarshalResource := {| json_Marshal r := Ok match r with
  | RNamespace m => "Namespace " +:+ om_Name m
  | RConfigMap m _ => "ConfigMap " +:+ om_Name m
  | RSecret m _ _ => "Secret " +:+ om_Name m
  | RCertificate m _ => "Certificate " +:+ om_Name m
  | RExternalSecret m _ => "ExternalSecret " +:+ om_Name m
  | RHostedCluster o => "HostedCluster " +:+ om_Name (meta o)
  | RNodePool o => "NodePool " +:+ om_Name (meta o)
  end |}.
Definition no_hosted_reports : HostedReports := {| Unmarshal_HostedCluster _ := mkHostedStatus [] [] (mkAPIEndpoint "" 0) |}.
Definition no_pool_reports : PoolReports := {| Unmarshal_NodePool _ := None |}.
Definition name_text : JsonText := {| json_text j := match j with JStr s => s | _ => "{}" end; json_parse s := Some (JStr s) |}.

(** A row that is in no cache is trusted when the replica has it. *)
Lemma fresh_trusted (c : Client (T := MemTables)) table doc : (table, doc) ∉ mt_unknown (cl_tables c) → mt_rows (cl_tables c) !! (table, doc) = None →
  mt_replica (cl_tables c) !! (table, doc) = None → cl_cache c !! cacheKey table doc = None → trusted_row c table doc.
Proof.
  intros Hu Hn Hr Hc. split; simpl; [done|by rewrite Hr, Hn|intros item h; simpl; by rewrite Hn|intros e; by rewrite Hc].
Qed.

(** The store of KubeMemory.v beside empty tables, at a fixed time. *)
Definition op_store : KubeClient := Operator_Client (K := MemoryClient) (T := MemTables).
#[local] Existing Instance op_store | 0.
Definition noon : Z := 43200 * second.
Definition first_operator : Operator (T := MemTables) := mkOperator (NewClient (mkMemTables ∅ noon)) ∅.
Definition op_clock : Clock := {| now w := mem_now (proj1_sig w.1); time_Format := decimal; time_Parse := undecimal; time_roundtrip := undecimal_decimal |}.

(** The last goroutine runs first. *)
Definition last_first : Scheduler World.
Proof. refine {| schedule _ n := rev (seq 0 n) |}. intros s n. symmetry. apply Permutation_rev. Defined.
Definition fixed_bytes : Random := {| rand_Read n w := (w, Ok (repeat 171%Z n)) |}.

(** Secrets are readable under every name, and every issuer is at a public address. *)
Definition public_address : Cidr.IP := Cidr.IP4 134744072.
Definition open_secrets : SecretsManager := {|
  CreateSecret _ _ _ := mret (Ok tt); PutSecretValue _ _ := mret (Ok tt); DescribeSecret _ := mret (Ok tt); DeleteSecret _ := mret (Ok tt);
  GetSecretValue _ _ := mret (Ok (mkSecretValue None (Some "PEM")))
|}.
Definition any_key : KeyParser := {| pem_block s := Some s; ParsePKCS1PrivateKey _ := Some 4096%Z; ParsePKCS8PrivateKey _ := Err "not needed" |}.
Definition public_dialer : Dialer := {|
  LookupIPAddr _ := mret (Ok [public_address]); IP_String _ := "8.8.8.8"; TLSDial _ _ := mret (Ok ["certificate"]); hex_sha1 s := s;
  url_Hostname := u_Hostname; url_Port := u_Port
|}.
Definition one_url : UrlParser := {| url_Parse s := Some (mkURL "https" s "" false s "" ""); unicode_ToLower s := s |}.

Lemma op_infra : @InfraLaws _ op_store open_secrets public_dialer.
Proof. split; intros; apply moves_ret. Qed.
