(* ===== verification/OperatorExamples.v ===== *)
(** * Runs of the operator

    The controllers on the operator in memory: a reservation becomes Ready, a cluster
    claims it, is placed, gets its desires and is deleted again, with the applier's
    reports written in between. The theorems of the operator apply to these runs. *)
From S2P Require Import Prelude GoStrings Json Convert Uuid AwsArn Authorizer StateM HttpApi ApiTypes KubeClient KubeMemory ApiClient Handlers Claims Labels AccountObjects Clusters NodePools ApiExamples Controllers Footprint DnsReservations Goroutines Desires DesireStore Render DesireSets RenderProps ClusterController NodePoolController OidcInfra OidcConfigs Placements Manifests Silences StatusStream OperatorWorld.
From stdpp Require Import base gmap strings list relations.
From Stdlib Require Import ZArith Lia Ascii String.
Open Scope string_scope.

#[local] Existing Instances no_bodies five_times quoted plain_digest plain_lib plain_lib_laws escaped_ids escaped_ids_laws memory_tables memory_tables_laws text_codec text_codec_laws.
#[local] Existing Instance op_store | 0.
#[local] Existing Instances op_clock last_first fixed_bytes plain_hypershift constructor_text no_hosted_reports no_pool_reports name_text open_secrets any_key public_dialer one_url op_infra.
Definition op_laws : KubeClientLaws := Paired_laws.
Definition op_desires : DesireClient := Store_Client.
Definition op_rows : DesireRows := Store_Rows.
Definition op_routing : Routing := Store_Routing.
#[local] Existing Instances op_laws op_desires op_rows op_routing.
Definition op_desire_laws : DesireLaws := Store_laws.
Definition op_router : RouterFrame := Store_router.
Definition op_apart : StoresApart := Store_apart.
#[local] Existing Instances op_desire_laws op_router op_apart.

(** ** The worlds *)
Definition after {A} (m : St World A) (w : World) : World := (m w).1.
Definition beside (v : Memory_World) (w : World) : World := (v, w.2).

Definition region : DNSReservationReconciler := mkDNSReconciler "example.com" None.
#[local] Notation reserve := (dns_Reconcile region dns_key.1 dns_key.2).

(** The reservation: requested, then reconciled until it is Ready. *)
Definition w_requested : World := (hs_world dns_requested, first_operator).
Definition w_guarded : World := after reserve w_requested.
Definition w_ready : World := after reserve (after reserve w_guarded).

(** The customer creates a cluster on it; there is a management cluster. *)
Definition w_cluster : World :=
  after (kc_Create KManagementCluster (mkObj KManagementCluster (named "" "mc-1") (mkManagementClusterSpec "us-east-1" acme) []))
    (beside (hs_world (create_shop w_ready.1)) w_ready).

(** The controllers of clusters and placements. *)
Definition regional : RegionalConfig := mkRegionalConfig "example.com" "us-east-1" "".
Definition clusters : ClusterController.ClusterReconciler := ClusterController.mkClusterReconciler regional true.
#[local] Notation reconcile_cluster := (ClusterController.Reconcile clusters dns_key).
#[local] Notation reconcile_placement := (PlacementController.Reconcile dns_key).

Definition stored_cluster (w : World) : object KCluster := default zero_stored_cluster (objs (state w) KCluster !! dns_key).
Definition w_waiting : World := after reconcile_cluster (after reconcile_cluster (after reconcile_cluster w_cluster)).
Definition w_bound : World := after reconcile_placement w_waiting.
Definition w_placed : World := after reconcile_cluster w_bound.

(** The applier reports on a document. *)
Definition report_item : Item := {["observedDesireUpdateTime" := AV_S (decimal noon); "successful" := AV_S "True"]}.
Definition report (table : string) (w : World) (doc : string) : World :=
  let c := client_of w in let t := cl_tables c in
  (w.1, mkOperator (mkClient (mkMem (<[(table, doc) := report_item]> (mt_rows t)) (mt_replica t) (mt_unknown t) (mt_fates t) (mt_now t)) (cl_cache c)) (op_routes w.2)).
Definition documents_in (table : string) (w : World) : list string :=
  omap (fun kv => if String.eqb kv.1.1 table then Some kv.1.2 else None) (map_to_list (mt_rows (cl_tables (client_of w)))).
Definition applied (w : World) : World := fold_left (report "mc-1-status-applydesires") (documents_in "mc-1-specs-applydesires" w) w.

(** The cluster is deleted; its desires become deletes; once they are confirmed its
    Placement goes, and then the cluster. *)
Definition w_deleted : World := after (kc_Delete KCluster (stored_cluster w_placed)) w_placed.
Definition w_draining : World := after reconcile_cluster w_deleted.
Definition w_confirmed : World := applied w_draining.
Definition w_unplaced : World := after reconcile_cluster w_confirmed.

(** A run, when its result is known. *)
Lemma ran_to {A} (m : St World A) w a : (m w).2 = a → m w = (after m w, a).
Proof. apply run_value. Qed.

(** ** Nobody else writes *)
Lemma alone (P : KState → Prop) : stable P.
Proof. by intros s s' []. Qed.

Definition uid_shop : string := uid_of (stored_cluster w_unplaced).

Lemma not_stored {A} (x : option A) o : x = None → x = Some o → False.
Proof. by intros ->. Qed.
Lemma shop_gone : objs (state (after reconcile_cluster w_unplaced)) KCluster !! dns_key = None.
Proof. vm_compute. reflexivity. Qed.

Lemma shop_released_run : reconcile_cluster w_unplaced = (after reconcile_cluster w_unplaced, Ok done_result).
Proof. apply ran_to. vm_compute. reflexivity. Qed.
Lemma shop_stored : objs (state w_unplaced) KCluster !! dns_key = Some (stored_cluster w_unplaced).
Proof. vm_compute. reflexivity. Qed.
Lemma shop_finalizer : ClusterController.clusterFinalizer ∈ om_Finalizers (meta (stored_cluster w_unplaced)).
Proof. apply (bool_decide_unpack _). vm_compute. exact I. Qed.

Lemma cluster_finalizer_safe_witness :
  ∃ cluster w1, kc_Get KCluster dns_key.1 dns_key.2 w_unplaced = (w1, Ok cluster) ∧ uid_of cluster = uid_shop ∧
    finalizer_released clusters cluster w1 (after reconcile_cluster w_unplaced).
Proof.
  destruct (cluster_finalizer_safe clusters dns_key w_unplaced (after reconcile_cluster w_unplaced) (Ok done_result) (stored_cluster w_unplaced)
    (fun u => alone _) shop_released_run shop_stored shop_finalizer) as [Hf|Hr].
  - exfalso. destruct Hf as (o & Ho & _). exact (not_stored _ _ shop_gone Ho).
  - exact Hr.
Defined.

Lemma shop_placed_run : reconcile_cluster w_bound = (w_placed, Ok (requeue statusRefreshDelay)).
Proof. unfold w_placed. apply ran_to. vm_compute. reflexivity. Qed.
Lemma cluster_writes_own_witness :
  (reconcile_cluster w_bound).2 = Ok (requeue statusRefreshDelay) ∧
  (rtc interfere (state w_bound) (state w_placed) ∨
   ∃ cluster w1, kc_Get KCluster dns_key.1 dns_key.2 w_bound = (w1, Ok cluster) ∧ rtc (own_step (cluster_mine dns_key (uid_of cluster))) (state w_bound) (state w_placed)).
Proof.
  split; [vm_compute; reflexivity|].
  exact (cluster_writes_own clusters dns_key w_bound w_placed (Ok (requeue statusRefreshDelay)) (fun u => alone _) shop_placed_run).
Defined.

(** A placed cluster. *)
Definition zero_placement : object KPlacement := mkObj KPlacement (named "" "") (mkPlacementSpec "" "") (zero_Status KPlacement).
Definition shop_placement : object KPlacement := default zero_placement (objs (state w_bound) KPlacement !! (dns_key.1, "shop.placement")).
Definition shop_domain : string := "abab.0.example.com".
#[local] Notation place_shop := (ClusterController.reconcilePlacedCluster clusters dns_key (stored_cluster w_bound) shop_placement shop_domain).
#[local] Notation shop_mc := (pl_ManagementCluster (spec shop_placement)).
Definition w_desired : World := after place_shop w_bound.

Lemma shop_plain : plain_cluster (stored_cluster w_bound).
Proof. split; vm_compute; reflexivity. Qed.

Lemma shop_desired_run : place_shop w_bound = (w_desired, Ok (requeue statusRefreshDelay)).
Proof. unfold w_desired. apply ran_to. vm_compute. reflexivity. Qed.
Lemma bound_client : client_of w_bound = NewClient (mkMemTables ∅ noon).
Proof. vm_compute. reflexivity. Qed.
Lemma bound_trusted table doc : trusted w_bound table doc.
Proof. simpl. rewrite bound_client. apply fresh_trusted; simpl; [set_solver|apply lookup_empty..]. Qed.

Lemma placed_desires_stored_witness :
  List.length (documents_in "mc-1-specs-applydesires" w_desired) = 6 ∧
  ∃ external resources entries,
    ClusterResources (stored_cluster w_bound) external shop_domain "" = Ok resources ∧
    Forall2 (λ m e, ∃ content, json_Marshal (r_Object m) = Ok content ∧ stored w_desired (apply_table shop_mc) (document_of taskKey m)
      (ApplyOf (apply_desire shop_mc (uid_of (stored_cluster w_bound)) m content)) (en_DesireUpdateTime e)) resources entries ∧
    ∃ t, stored w_desired (read_table shop_mc) (ClusterController.read_document (stored_cluster w_bound))
      (ReadOf (read_desire shop_mc (uid_of (stored_cluster w_bound)) (ClusterController.hosted_reference (stored_cluster w_bound)))) t.
Proof.
  split; [vm_compute; reflexivity|].
  destruct (placed_desires_stored clusters dns_key (stored_cluster w_bound) shop_placement shop_domain w_bound w_desired (requeue statusRefreshDelay) shop_plain shop_desired_run)
    as (external & resources & entries & Hres & Ha & Hr & _).
  refine (ex_intro _ external (ex_intro _ resources (ex_intro _ entries (conj Hres (conj (Forall2_impl _ _ _ _ Ha _) (Hr (bound_trusted _ _))))))).
  intros m e (content & Hj & _ & Hs & _). exact (ex_intro _ content (conj Hj (Hs (bound_trusted _ _)))).
Defined.

(** A deletion before the Placement exists. *)
Definition deleting_shop : object KCluster := with_status (k := KCluster) (ClusterController.set_phase ClusterPhaseDeleting 1 (status (stored_cluster w_waiting))) (stored_cluster w_waiting).
#[local] Notation no_placement := (kc_Get KPlacement (om_Namespace (meta deleting_shop)) (ClusterController.placement_name deleting_shop)).
Lemma no_placement_run : no_placement w_waiting = (after no_placement w_waiting, Err NotFound).
Proof. apply ran_to. vm_compute. reflexivity. Qed.
Lemma deleting_facts : ContainsFinalizer (meta deleting_shop) ClusterController.clusterFinalizer = true ∧
  cl_Phase (status deleting_shop) = ClusterPhaseDeleting ∧ cl_PlacementRef (status deleting_shop) = None.
Proof. split_and!; vm_compute; reflexivity. Qed.
Lemma placement_error_skips_deletion_witness :
  ClusterController.reconcileDelete clusters deleting_shop w_waiting =
  db.and_then (ClusterController.deleteRenderedHostedCluster (om_Namespace (meta deleting_shop)) (om_Name (meta deleting_shop))) (fun _ => ClusterController.cleanupAndRemoveFinalizer deleting_shop)
    (after no_placement w_waiting).
Proof.
  exact (placement_error_skips_deletion clusters deleting_shop w_waiting (after no_placement w_waiting) NotFound
    (proj1 deleting_facts) (proj1 (proj2 deleting_facts)) (proj2 (proj2 deleting_facts)) no_placement_run).
Defined.

(** ** Node pools *)
Definition pool_key : nsname := (dns_key.1, "shop.workers").
Definition pools : NodePoolController.NodePoolReconciler := NodePoolController.mkNodePoolReconciler true.
#[local] Notation reconcile_pool := (NodePoolController.Reconcile pools pool_key).
Definition zero_stored_pool : object KNodePool := mkObj KNodePool (named "" "") zero_pool (zero_Status KNodePool).
Definition stored_pool (w : World) : object KNodePool := default zero_stored_pool (objs (state w) KNodePool !! pool_key).
Definition w_pool : World := after reconcile_pool (beside (hs_world (create_pool w_placed.1)) w_placed).
Definition w_pool_placed : World := after reconcile_pool w_pool.
Definition w_pool_deleted : World := after (kc_Delete KNodePool (stored_pool w_pool_placed)) w_pool_placed.
Definition w_pool_confirmed : World := applied (after reconcile_pool w_pool_deleted).

Lemma confirmed_pool_run : reconcile_pool w_pool_confirmed = (after reconcile_pool w_pool_confirmed, Ok done_result).
Proof. apply ran_to. vm_compute. reflexivity. Qed.
Lemma pool_stored : objs (state w_pool_confirmed) KNodePool !! pool_key = Some (stored_pool w_pool_confirmed).
Proof. vm_compute. reflexivity. Qed.
Lemma pool_finalizer : NodePoolController.nodePoolFinalizer ∈ om_Finalizers (meta (stored_pool w_pool_confirmed)).
Proof. apply (bool_decide_unpack _). vm_compute. exact I. Qed.
Lemma pool_gone : objs (state (after reconcile_pool w_pool_confirmed)) KNodePool !! pool_key = None.
Proof. vm_compute. reflexivity. Qed.

Lemma nodepool_finalizer_safe_witness :
  rtc (own_step (pool_mine pool_key)) (state w_pool_confirmed) (state (after reconcile_pool w_pool_confirmed)) ∧
  ∃ nodePool w1, kc_Get KNodePool pool_key.1 pool_key.2 w_pool_confirmed = (w1, Ok nodePool) ∧ uid_of nodePool = uid_of (stored_pool w_pool_confirmed) ∧
    pool_released nodePool w1 (after reconcile_pool w_pool_confirmed).
Proof.
  destruct (nodepool_finalizer_safe pools pool_key w_pool_confirmed (after reconcile_pool w_pool_confirmed) (Ok done_result) (stored_pool w_pool_confirmed)
    (alone _) confirmed_pool_run pool_stored pool_finalizer) as [Hs [Hf|Hr]].
  - exfalso. destruct Hf as (o & Ho & _). exact (not_stored _ _ pool_gone Ho).
  - exact (conj Hs Hr).
Defined.

(** ** Rendering *)
Definition shop_resources : list Resource := match ClusterResources (stored_cluster w_bound) true shop_domain "" with Ok l => l | Err _ => [] end.
Lemma shop_rendered : ClusterResources (stored_cluster w_bound) true shop_domain "" = Ok shop_resources.
Proof. vm_compute. reflexivity. Qed.
Definition shop_namespace : Resource := namespace_resource uid_shop (ManagementNamespace uid_shop).
Definition first_resource : Resource := default shop_namespace (shop_resources !! 0%nat).
Lemma first_in : first_resource ∈ shop_resources.
Proof. apply (list_elem_of_lookup_2 _ 0%nat). vm_compute. reflexivity. Qed.

Lemma documents_isolated_witness : uid_of (stored_cluster w_bound) = uid_of (stored_cluster w_bound) ∧ identity first_resource = identity first_resource.
Proof.
  exact (documents_isolated (stored_cluster w_bound) (stored_cluster w_bound) first_resource first_resource shop_plain shop_plain
    (rendered_cluster _ true shop_domain "" shop_resources _ shop_rendered first_in) (rendered_cluster _ true shop_domain "" shop_resources _ shop_rendered first_in) eq_refl).
Defined.

Lemma hosted_references_rendered_witness : List.length shop_resources = 7 ∧
  ∃ m o, m ∈ shop_resources ∧ r_Object m = RHostedCluster o ∧ hs_BaseDomain (spec o) = shop_domain ∧ ∃ x, x ∈ shop_resources ∧ provides_secret x (hs_PullSecret (spec o)).
Proof.
  split; [vm_compute; reflexivity|].
  destruct (hosted_references_rendered (stored_cluster w_bound) true shop_domain "" shop_resources shop_rendered) as (m & o & s0 & Hm & _ & Ho & _ & Hp & _ & _ & _ & _ & _ & Hb & _).
  exact (ex_intro _ m (ex_intro _ o (conj Hm (conj Ho (conj Hb Hp))))).
Defined.

(** ** DNS reservations *)
Lemma single {A} (m : gmap nsname A) k x : m = {[k := x]} → ∀ k' y, m !! k' = Some y → k' = k ∧ y = x.
Proof. intros -> k' y Hy. apply lookup_singleton_Some in Hy as [-> ->]. done. Qed.

Definition stored_reservation (w : World) : object KDNSReservation := default zero_reservation (objs (state w) KDNSReservation !! dns_key).
Definition reservation_uid : gset string := {[uid_of (stored_reservation w_guarded)]}.
Lemma guarded_single : objs (state w_guarded) KDNSReservation = {[dns_key := stored_reservation w_guarded]}.
Proof. vm_cast_no_check (eq_refl (objs (state w_guarded) KDNSReservation)). Qed.
Lemma guarded_waits : dns_Phase (status (stored_reservation w_guarded)) ≠ DNSReservationPhaseReady.
Proof. vm_compute. discriminate. Qed.
Lemma guarded_published u : published region u (state w_guarded).
Proof. intros key o [_ ->]%(single _ _ _ guarded_single) _ [_ Hr]. by destruct guarded_waits. Qed.
Lemma guarded_mine o : objs (state w_guarded) KDNSReservation !! dns_key = Some o → uid_of o ∈ reservation_uid.
Proof. intros [_ ->]%(single _ _ _ guarded_single). apply elem_of_singleton. reflexivity. Qed.
Lemma ready_run : reserve w_guarded = (after reserve w_guarded, Ok (requeue statusRefreshDelay)).
Proof. apply ran_to. vm_compute. reflexivity. Qed.
Lemma random_moves : moves state interfere (default randomDNSPrefix (dr_generatePrefix region)).
Proof. intros w w' r [= <- <-]. reflexivity. Qed.

Lemma dns_domains_unique_witness : published region (uid_of (stored_reservation w_guarded)) (state (after reserve w_guarded)).
Proof.
  exact (proj1 (dns_domains_unique region dns_key reservation_uid w_guarded (after reserve w_guarded) (Ok (requeue statusRefreshDelay))
    (fun s s' => False_ind _) random_moves guarded_published guarded_mine ready_run) _).
Defined.

(** The reservation is deleted once it is Ready. *)
Definition w_dropped : World := after (kc_Delete KDNSReservation (stored_reservation w_ready)) w_ready.
#[local] Notation dropped_uid := (uid_of (stored_reservation w_dropped)).
Lemma dropped_single : objs (state w_dropped) KDNSReservation = {[dns_key := stored_reservation w_dropped]}.
Proof. vm_cast_no_check (eq_refl (objs (state w_dropped) KDNSReservation)). Qed.
Lemma dropped_dying : dying (stored_reservation w_dropped) = true.
Proof. vm_compute. reflexivity. Qed.
Lemma dropped_published u : published region u (state w_dropped).
Proof. intros key o [_ ->]%(single _ _ _ dropped_single) _ [Hd _]. rewrite dropped_dying in Hd. discriminate Hd. Qed.
Lemma dropped_mine o : objs (state w_dropped) KDNSReservation !! dns_key = Some o → uid_of o ∈ ({[dropped_uid]} : gset string).
Proof. intros [_ ->]%(single _ _ _ dropped_single). apply elem_of_singleton. reflexivity. Qed.
Lemma dropped_waiting : waiting dns_key dropped_uid (state w_dropped).
Proof.
  exists (stored_reservation w_dropped). split; [vm_compute; reflexivity|]. split; [reflexivity|]. split; [exact dropped_dying|]. apply (bool_decide_unpack _). vm_compute. exact I.
Qed.
Lemma dropped_run : reserve w_dropped = (after reserve w_dropped, Ok done_result).
Proof. apply ran_to. vm_compute. reflexivity. Qed.
Lemma dropped_in : dropped_uid ∈ ({[dropped_uid]} : gset string).
Proof. by apply elem_of_singleton. Qed.

Lemma dns_release_witness : owned dropped_uid (state (after reserve w_dropped)) = ∅.
Proof.
  exact (proj2 (dns_release region dns_key {[dropped_uid]} dropped_uid w_dropped (after reserve w_dropped) (Ok done_result)
    (fun s s' => False_ind _) dropped_published dropped_mine dropped_in dropped_waiting dropped_run) eq_refl).
Defined.

(** ** Reports *)
Definition shop_entry : DesireStatusEntry := entry_of (document_of taskKey first_resource) first_resource noon.
#[local] Notation check_shop := (CheckApplyDesireStatuses "mc-1-status" [shop_entry] 1).
Definition shop_condition : Condition := (check_shop w_confirmed).2.
Lemma check_run : check_shop w_confirmed = (after check_shop w_confirmed, shop_condition).
Proof. apply ran_to. reflexivity. Qed.
Lemma synced_iff_confirmed_witness : cond_Status shop_condition = ConditionTrue ∧
  ∃ reports, Forall2 (report_read "mc-1-status" w_confirmed) [shop_entry] reports ∧ Forall2 (λ e r, ∃ st, r = Ok st ∧ confirmed e st) [shop_entry] reports.
Proof.
  assert (Hs : cond_Status shop_condition = ConditionTrue) by (vm_compute; reflexivity). split; [exact Hs|].
  destruct (synced_iff_confirmed "mc-1-status" [shop_entry] 1 w_confirmed (after check_shop w_confirmed) shop_condition check_run) as (_ & _ & reports & Hr & Hi & _).
  exact (ex_intro _ reports (conj Hr (proj1 Hi Hs))).
Defined.

(** ** Placements *)
Lemma bound_run : reconcile_placement w_waiting = (w_bound, Ok done_result).
Proof. unfold w_bound. apply ran_to. vm_compute. reflexivity. Qed.
