(* ===== verification/DesireExamples.v ===== *)
(** * Runs of the desire client, the OIDC and Manifest controllers and the silences

    The theorems of DesireStore.v, OidcConfigs.v, Manifests.v, Silences.v and
    StatusStream.v apply to these runs. *)
From S2P Require Import Prelude GoStrings Json Convert Uuid AwsArn Authorizer StateM HttpApi ApiTypes KubeClient KubeMemory ApiClient Handlers Claims Labels AccountObjects Clusters NodePools ApiExamples Controllers Footprint DnsReservations Goroutines Desires DesireStore Render DesireSets RenderProps ClusterController NodePoolController OidcInfra OidcConfigs Placements Manifests Silences StatusStream OperatorWorld OperatorExamples.
From stdpp Require Import base gmap strings list relations.
From Stdlib Require Import ZArith Lia Ascii String.
Open Scope string_scope.

#[local] Existing Instances no_bodies five_times quoted plain_digest plain_lib plain_lib_laws escaped_ids escaped_ids_laws memory_tables memory_tables_laws text_codec text_codec_laws.
#[local] Existing Instance op_store | 0.
#[local] Existing Instances op_clock last_first fixed_bytes plain_hypershift constructor_text no_hosted_reports no_pool_reports name_text open_secrets any_key public_dialer one_url op_infra.
#[local] Existing Instances op_laws op_desires op_rows op_routing.
#[local] Existing Instances op_desire_laws op_router op_apart.

(** ** The desire client *)
Definition shop_reference : ResourceReference := mkReference "" "v1" "secrets" "cluster-1" "key".
Definition shop_apply : Desire := ApplyOf (mkApplySpec ServerSideApply "mc-1" "1" shop_reference (Some "{}")).
Definition shop_delete : Desire := ApplyOf (mkApplySpec DeleteType "mc-1" "1" shop_reference None).
Definition fresh_client : Client := NewClient (mkMemTables ∅ noon).
#[local] Notation upsert := (upsertDesire "t" "doc").
Definition applied_client : Client := (upsert shop_apply fresh_client).1.
Lemma fresh_trust : trusted_row fresh_client "t" "doc".
Proof. apply fresh_trusted; [apply (bool_decide_unpack _); vm_compute; exact I|reflexivity..]. Qed.
Lemma upsert_run : upsert shop_apply fresh_client = (applied_client, Ok (mkUpsertResult true noon)).
Proof. unfold applied_client. apply (run_value (upsert shop_apply) fresh_client). vm_compute. reflexivity. Qed.

Lemma upsert_refines_witness : holds (cl_tables applied_client) "t" "doc" shop_apply noon ∧ agrees applied_client "t" "doc" ∧
  upsert shop_apply applied_client = (applied_client, Ok (mkUpsertResult false noon)).
Proof.
  destruct (upsert_refines "t" "doc" shop_apply fresh_client applied_client (Ok (mkUpsertResult true noon)) eq_refl upsert_run) as (_ & Hup & Hu).
  destruct (Hup fresh_trust) as (Hh & _ & Ha), (Hu _ eq_refl) as (_ & _ & Hagain). exact (conj Hh (conj Ha Hagain)).
Defined.

Definition deleted_client : Client := (DeleteSpec "t" "" "doc" applied_client).1.
Lemma deleted_client_run : DeleteSpec "t" "" "doc" applied_client = (deleted_client, Ok tt).
Proof. unfold deleted_client. apply (run_value (DeleteSpec "t" "" "doc") applied_client). vm_compute. reflexivity. Qed.
Lemma applied_settled : settled (cl_tables applied_client) ("t", "doc").
Proof. apply (bool_decide_unpack _). vm_compute. exact I. Qed.
Lemma delete_forgets_witness : tables (cl_tables deleted_client) !! ("t", "doc") = None.
Proof. exact (proj1 (proj2 (delete_forgets "t" "" "doc" applied_client deleted_client deleted_client_run applied_settled))). Defined.

(** The next put is stored, but times out. *)
Definition hash_of (d : Desire) : string := match computeSpecHash d with Ok h => h | Err _ => "" end.
Definition attrs_of (d : Desire) : list (string * AttributeValue) := match MarshalMap d with Ok l => l | Err _ => [] end.
Lemma apply_hash : computeSpecHash shop_apply = Ok (hash_of shop_apply).
Proof. vm_compute. reflexivity. Qed.
Lemma delete_hash : computeSpecHash shop_delete = Ok (hash_of shop_delete).
Proof. vm_compute. reflexivity. Qed.
Lemma delete_attrs : MarshalMap shop_delete = Ok (attrs_of shop_delete).
Proof. vm_compute. reflexivity. Qed.
Definition losing (c : Client) : Client :=
  let t := cl_tables c in mkClient (mkMem (mt_rows t) (mt_replica t) (mt_unknown t) [Lost] (mt_now t)) (cl_cache c).
Definition lost_row : Item := desire_item "doc" shop_delete (attrs_of shop_delete) (hash_of shop_delete) (truncate noon).
Definition lost_read : MemTables := (GetItem false "t" "doc" (cl_tables (losing applied_client))).1.
Definition lost_after : MemTables := (PutItem "t" "doc" lost_row lost_read).1.
Lemma applied_cache : cl_cache (losing applied_client) !! cacheKey "t" "doc" = Some (mkCacheEntry (hash_of shop_apply) noon).
Proof. vm_compute. reflexivity. Qed.
Lemma hashes_differ : hash_of shop_apply ≠ hash_of shop_delete.
Proof. vm_compute. discriminate. Qed.
Lemma read_nothing : attr_string ∅ "specHash" ≠ Some (hash_of shop_delete).
Proof. vm_compute. discriminate. Qed.
Lemma lost_read_run : GetItem false "t" "doc" (cl_tables (losing applied_client)) = (lost_read, Ok ∅).
Proof. vm_compute. reflexivity. Qed.
Lemma lost_put_run : PutItem "t" "doc" lost_row lost_read = (lost_after, Some "timeout").
Proof. vm_compute. reflexivity. Qed.
Lemma lost_stored : tables lost_after !! ("t", "doc") = Some lost_row.
Proof. vm_compute. reflexivity. Qed.
Lemma lost_put_hides_revert_witness : ∃ c2 c3 msg, upsert shop_delete (losing applied_client) = (c2, Err (DynamoError msg)) ∧
  upsert shop_apply c2 = (c3, Ok (mkUpsertResult false noon)) ∧ tables (cl_tables c3) !! ("t", "doc") = Some lost_row.
Proof.
  exact (lost_put_hides_revert "t" "doc" shop_apply shop_delete (hash_of shop_apply) (hash_of shop_delete) (attrs_of shop_delete) noon (losing applied_client)
    lost_read ∅ lost_after "timeout" apply_hash delete_hash hashes_differ delete_attrs applied_cache lost_read_run read_nothing lost_put_run lost_stored).
Defined.

(** An apply and a delete, then the apply again, while the replica still has the first. *)
Definition switched_client : Client := (upsert shop_delete applied_client).1.
Definition switched_read : MemTables := (GetItem false "t" "doc" (cl_tables switched_client)).1.
Definition first_row : Item := desire_item "doc" shop_apply (attrs_of shop_apply) (hash_of shop_apply) noon.
Lemma switched_cache e : cl_cache switched_client !! cacheKey "t" "doc" = Some e → ce_specHash e ≠ hash_of shop_apply.
Proof. vm_compute. intros [= <-]. discriminate. Qed.
Lemma switched_run : GetItem false "t" "doc" (cl_tables switched_client) = (switched_read, Ok first_row).
Proof. vm_compute. reflexivity. Qed.
Lemma switched_row : tables switched_read !! ("t", "doc") = Some lost_row.
Proof. vm_compute. reflexivity. Qed.
Lemma stale_read_hides_change_witness : ∃ c2, upsert shop_apply switched_client = (c2, Ok (mkUpsertResult false (stored_time first_row))) ∧
  tables (cl_tables c2) !! ("t", "doc") = Some lost_row.
Proof.
  destruct (stale_read_hides_change "t" "doc" shop_apply (hash_of shop_apply) switched_client switched_read first_row lost_row apply_hash switched_cache switched_run eq_refl switched_row)
    as (c2 & E & Hr & _).
  exact (ex_intro _ c2 (conj E Hr)).
Defined.

(** The delete is written half a second after the apply. *)
Definition later_client : Client := mkClient (mkMemTables (mt_rows (cl_tables applied_client)) (noon + 500000000)) (cl_cache applied_client).
#[local] Notation write_apply := (write_desire "t" "doc" shop_apply (hash_of shop_apply)).
#[local] Notation write_delete := (write_desire "t" "doc" shop_delete (hash_of shop_delete)).
Lemma apply_written : write_apply fresh_client = ((write_apply fresh_client).1, Ok (mkUpsertResult true noon)).
Proof. apply (run_value write_apply fresh_client). vm_compute. reflexivity. Qed.
Lemma delete_is_written : write_delete later_client = ((write_delete later_client).1, Ok (mkUpsertResult true noon)).
Proof. apply (run_value write_delete later_client). vm_compute. reflexivity. Qed.
Definition apply_report : ApplyDesireStatus := mkApplyStatus noon [mkCondition DesireConditionSuccessful ConditionTrue 1 noon "Applied" ""].
Definition apply_entry : DesireStatusEntry := mkEntry "doc" "secrets" "key" noon.
Lemma apply_confirmed : confirmed apply_entry apply_report.
Proof. split; [right; vm_compute; discriminate|vm_compute; reflexivity]. Qed.
Lemma same_second_confirms_witness : confirmed apply_entry apply_report.
Proof.
  exact (same_second_confirms "t" "doc" shop_apply shop_delete (hash_of shop_apply) (hash_of shop_delete) fresh_client (write_apply fresh_client).1 later_client (write_delete later_client).1
    (mkUpsertResult true noon) (mkUpsertResult true noon) apply_entry apply_entry apply_report apply_written delete_is_written eq_refl eq_refl eq_refl apply_confirmed).
Defined.

(** ** OIDC configurations *)
Definition idp_key : nsname := (dns_key.1, "idp").
Definition idp_config : object KOidcConfig :=
  mkObj KOidcConfig (named idp_key.1 idp_key.2) (mkOidcSpec OidcConfigTypeUnmanaged "idp.example.com" "secret" "role" acme) (zero_Status KOidcConfig).
#[local] Notation reconcile_idp := (OidcController.Reconcile idp_key).
Definition w_idp : World := after reconcile_idp (after (kc_Create KOidcConfig idp_config) w_requested).
Definition stored_idp (w : World) : object KOidcConfig := default idp_config (objs (state w) KOidcConfig !! idp_key).

(** ** Manifests *)
Definition crd : ResourceTemplate := mkTemplate "customresourcedefinitions" (JObj [("apiVersion", JStr "apiextensions.k8s.io/v1"); ("metadata", JObj [("name", JStr "widgets")])]) true.
Definition mf_key : nsname := ("ops", "crds").
Definition crds : object KManifest := mkObj KManifest (named mf_key.1 mf_key.2) (mkManifestSpec "mc-1" [crd]) (zero_Status KManifest).
Definition manifests : ManifestController.ManifestReconciler := ManifestController.mkManifestReconciler true.
#[local] Notation reconcile_manifest := (ManifestController.Reconcile manifests mf_key).
Definition stored_manifest (w : World) : object KManifest := default crds (objs (state w) KManifest !! mf_key).
Definition w_manifest : World := after reconcile_manifest (after reconcile_manifest (after (kc_Create KManifest crds) w_requested)).
Definition w_manifest_deleted : World := after (kc_Delete KManifest (stored_manifest w_manifest)) w_manifest.
Definition w_manifest_confirmed : World := applied (after reconcile_manifest w_manifest_deleted).

Lemma idp_single : objs (state w_idp) KOidcConfig = {[idp_key := stored_idp w_idp]}.
Proof. vm_cast_no_check (eq_refl (objs (state w_idp) KOidcConfig)). Qed.
Lemma idp_not_ready : oidc_Phase (status (stored_idp w_idp)) ≠ OidcConfigPhaseReady.
Proof. vm_compute. discriminate. Qed.
Lemma idp_owned : issuers_owned (state w_idp).
Proof. intros key o [_ ->]%(single _ _ _ idp_single) [_ Hr]. by destruct idp_not_ready. Qed.
Lemma idp_run : reconcile_idp w_idp = (after reconcile_idp w_idp, Ok (requeue OidcController.thumbprintRefreshDelay)).
Proof. apply ran_to. vm_compute. reflexivity. Qed.
Definition idp_uid : gset string := {[uid_of (stored_idp w_idp)]}.
Lemma idp_mine o : objs (state w_idp) KOidcConfig !! idp_key = Some o → uid_of o ∈ idp_uid.
Proof. intros [_ ->]%(single _ _ _ idp_single). apply elem_of_singleton. reflexivity. Qed.
Lemma oidc_issuers_unique_witness : issuers_owned (state (after reconcile_idp w_idp)).
Proof.
  exact (proj1 (oidc_issuers_unique idp_key idp_uid w_idp (after reconcile_idp w_idp) (Ok (requeue OidcController.thumbprintRefreshDelay)) (fun s s' => False_ind _) idp_owned idp_mine idp_run)).
Defined.

#[local] Notation thumbprint_idp := (ComputeThumbprint "idp.example.com").
Lemma address_run : thumbprint_idp w_idp = (w_idp, Ok "certificate").
Proof. reflexivity. Qed.
Lemma dial_succeeded : is_ok (Ok "certificate" : result string string) = true.
Proof. reflexivity. Qed.
Lemma issuer_address_checked_witness : dialled "idp.example.com" w_idp w_idp (Ok "certificate").
Proof.
  destruct (issuer_address_checked "idp.example.com" w_idp w_idp (Ok "certificate") address_run) as [[Hr _]|Hd]; [|exact Hd].
  exfalso. rewrite dial_succeeded in Hr. discriminate Hr.
Defined.

(** A cluster of an unmanaged configuration. *)
Definition idp_meta : ObjectMeta := set_identity "uid-9" "1" 1 0 None (named idp_key.1 idp_key.2).
Definition idp_stored : object KOidcConfig := mkObj KOidcConfig idp_meta (spec idp_config) (status idp_config).
Definition idp_cluster : object KCluster :=
  mkObj KCluster (set_identity "uid-5" "1" 1 0 None (named dns_key.1 "shop")) (mkClusterSpec acme "" "hc-uid1" "uid-1" "uid-9" None ∅ None (mkHostedCluster None "4.20" None "") tt) (zero_Status KCluster).
Definition idp_resources : list Resource := match ClusterResources idp_cluster true "example.com" "" with Ok l => l | Err _ => [] end.
Lemma idp_rendered : ClusterResources idp_cluster true "example.com" "" = Ok idp_resources.
Proof. vm_compute. reflexivity. Qed.
Lemma uid_is_not_name : uid_of idp_stored ≠ om_Name (meta idp_stored).
Proof. done. Qed.
Lemma signing_key_path_differs_witness : ∃ x md s, x ∈ idp_resources ∧ r_Object x = RExternalSecret md s ∧ ("key", SecretName acme "uid-9") ∈ es_Data s.
Proof. exact (proj1 (signing_key_path_differs idp_cluster idp_stored "example.com" "" idp_resources idp_rendered eq_refl eq_refl uid_is_not_name)). Defined.

Lemma manifest_run : reconcile_manifest w_manifest_confirmed = (after reconcile_manifest w_manifest_confirmed, Ok done_result).
Proof. apply ran_to. vm_compute. reflexivity. Qed.
Lemma manifest_stored : objs (state w_manifest_confirmed) KManifest !! mf_key = Some (stored_manifest w_manifest_confirmed).
Proof. vm_compute. reflexivity. Qed.
Lemma manifest_finalizer : ManifestController.manifestFinalizer ∈ om_Finalizers (meta (stored_manifest w_manifest_confirmed)).
Proof. apply (bool_decide_unpack _). vm_compute. exact I. Qed.
Lemma manifest_gone : objs (state (after reconcile_manifest w_manifest_confirmed)) KManifest !! mf_key = None.
Proof. vm_compute. reflexivity. Qed.

Definition widgets : ResourceReference := mkReference "apiextensions.k8s.io" "v1" "customresourcedefinitions" "" "widgets".
Definition gadgets : ResourceStatus := mkResourceStatus "customresourcedefinitions" "gadgets" "" "apiextensions.k8s.io" "v1" JNull.
Definition crds_copy : object KManifest := mkObj KManifest (named "ops" "crds-copy") (spec crds) (status crds).
Definition crds_read : object KManifest := mkObj KManifest (named "ops" "crds-read") (spec crds) (status crds).
Lemma crds_plain : plain_manifest crds.
Proof. split; vm_compute; reflexivity. Qed.
Lemma copy_plain : plain_manifest crds_copy.
Proof. split; vm_compute; reflexivity. Qed.
Lemma widgets_plain : plain_reference widgets.
Proof. repeat constructor. Qed.
Lemma manifest_documents_isolated_witness : ManifestController.apply_document crds widgets ≠ ManifestController.apply_document crds_copy widgets.
Proof.
  intros E. destruct (proj1 (manifest_documents_isolated crds crds_copy widgets widgets crds_plain copy_plain widgets_plain widgets_plain) E) as [Hk _]. discriminate Hk.
Defined.

Definition to_crds : EventRouter.EventTarget := EventRouter.mkTarget "manifest" ("ops", "crds").
Definition to_reader : EventRouter.EventTarget := EventRouter.mkTarget "manifest" ("ops", "crds-read").
Lemma read_events_misrouted_witness :
  EventRouter.Lookup (ManifestController.read_document crds widgets)
    (EventRouter.Register (ManifestController.apply_document crds_read widgets) to_reader (EventRouter.Register (ManifestController.read_document crds widgets) to_crds ∅)) = Some to_reader.
Proof. exact (proj2 (read_events_misrouted crds crds_read widgets to_crds to_reader ∅ eq_refl eq_refl)). Defined.

(** A new generation, whose status reports another resource. *)
Definition changed_crds : object KManifest :=
  mkObj KManifest (set_identity "uid-2" "3" 2 0 None (named "ops" "crds")) (mkManifestSpec "mc-1" []) (mkManifestStatus [] "" 1 1 [gadgets]).
#[local] Notation clean_up := (ManifestController.cleanupOrphanedDesires manifests changed_crds []).
#[local] Notation crds_table := (SpecsPrefix (ManifestController.mc_of changed_crds) +:+ TableSuffixApplyDesires).
Definition widget_desire : Desire := ApplyOf (ManifestController.manifest_apply crds widgets (rt_Content crd)).
Lemma changed_plain : plain_manifest changed_crds.
Proof. split; vm_compute; reflexivity. Qed.
Lemma other_reported : Forall (λ rs, plain_reference (ManifestController.status_reference rs) ∧ ManifestController.status_reference rs ≠ widgets) (mf_ResourceStatuses (status changed_crds)).
Proof. repeat constructor. discriminate. Qed.
Lemma widget_stored : stored w_manifest crds_table (ManifestController.apply_document changed_crds widgets) widget_desire noon.
Proof.
  split; [exists (attrs_of widget_desire), (hash_of widget_desire); split_and!; vm_compute; reflexivity|]. apply (bool_decide_unpack _). vm_compute. exact I.
Qed.
Lemma clean_run : clean_up w_manifest = (after clean_up w_manifest, tt).
Proof. by apply ran_to; destruct (snd _). Qed.
Lemma unwatched_orphans_stay_witness : stored (after clean_up w_manifest) crds_table (ManifestController.apply_document changed_crds widgets) widget_desire noon.
Proof.
  exact (unwatched_orphans_stay manifests changed_crds [] widgets widget_desire noon w_manifest (after clean_up w_manifest) tt changed_plain widgets_plain other_reported clean_run widget_stored).
Defined.

(** ** Status streams *)
Lemma new_wf : wf_manager StatusStream.NewManager.
Proof. split; simpl; [intros n; split; [set_solver|]; intros (key & Hk); by rewrite lookup_empty in Hk|intros key n; by rewrite lookup_empty|intros k1 k2 n; by rewrite lookup_empty]. Qed.
Lemma watchers_follow_witness : wf_manager (StatusStream.syncWatchers StatusStream.status_suffixes (Some ["mc-1"; "test-mc-2"]) StatusStream.NewManager) ∧
  map_to_list (StatusStream.sm_active (StatusStream.syncWatchers StatusStream.status_suffixes (Some ["mc-1"; "test-mc-2"]) StatusStream.NewManager)) ≠ [].
Proof.
  split; [|vm_compute; discriminate].
  exact (proj1 (proj1 (proj2 (watchers_follow StatusStream.status_suffixes StatusStream.NewManager new_wf)) ["mc-1"; "test-mc-2"])).
Defined.

Definition one_queue : gmap string EventRouter.Queue := {["manifest" := EventRouter.mkQueue [] 256]}.
Lemma dispatch_exact_witness : EventRouter.Dispatch "doc" (EventRouter.Deregister "doc" (EventRouter.Register "doc" to_crds ∅)) one_queue = (one_queue, false).
Proof. exact (proj1 (proj2 (dispatch_exact "doc" to_crds ∅ one_queue (EventRouter.mkQueue [] 256) eq_refl))). Defined.
