(* ===== verification/SilenceExamples.v ===== *)
(** * Silences in memory

    The fake client of the silence package beside the store of KubeMemory.v keeps the
    promises of [SilenceLaws]; a cluster that is installed gets its silence there, and
    keeps it when the silence is about to end. *)
From S2P Require Import Prelude GoStrings Json Convert StateM HttpApi ApiTypes KubeClient KubeMemory ApiClient ApiExamples Controllers Silences OperatorWorld.
From stdpp Require Import base gmap strings list relations.
From Stdlib Require Import ZArith Lia String.
Open Scope string_scope.

#[local] Existing Instances no_bodies quoted.

(** Silences are stored under their own IDs. *)
Definition Fakes : Type := { f : FakeClient | map_Forall (λ id s, gs_ID s = id) f }.
Definition fake_store : KubeClient := Paired_Client (H0 := MemoryClient) (X := Fakes).
#[local] Existing Instance fake_store | 0.
Definition fakes (w : World) : FakeClient := proj1_sig w.2.

Lemma create_own id t p (f : FakeClient) : map_Forall (λ id s, gs_ID s = id) f → map_Forall (λ id s, gs_ID s = id) (fake_Create id t p f).
Proof. intros Hf. by apply map_Forall_insert_2. Qed.
Lemma expire_own id (f : FakeClient) : map_Forall (λ id s, gs_ID s = id) f → map_Forall (λ id s, gs_ID s = id) (fake_Expire None id f).1.
Proof. intros Hf. unfold fake_Expire, FakeClient in *. destruct (f !! id) as [s|] eqn:E; [|done]. apply map_Forall_insert_2; [|done]. exact (Hf _ _ E). Qed.

(** IDs are numbers; one that is taken is refused. *)
Definition fresh_id (f : FakeClient) : string := "silence-" +:+ FormatInt (Z.of_nat (size f)).
Definition create_silence (p : PostableSilence) : St World (result string string) := fun w =>
  let id := fresh_id (fakes w) in
  match fakes w !! id with
  | Some _ => (w, Err "taken")
  | None => ((w.1, exist _ (fake_Create id (mem_now (proj1_sig w.1)) p (fakes w)) (create_own _ _ _ _ (proj2_sig w.2))), Ok id)
  end.
Definition expire_silence (id : string) : St World (result string unit) := fun w =>
  ((w.1, exist _ (fake_Expire None id (fakes w)).1 (expire_own id _ (proj2_sig w.2))), (fake_Expire None id (fakes w)).2).

Definition fake_client : SilenceClient := {| sc_List identity w := (w, Ok (fake_List identity (fakes w))); sc_Create := create_silence; sc_Expire := expire_silence |}.
#[local] Existing Instance fake_client.

Lemma fake_listed identity (w : World) s : s ∈ fake_List identity (fakes w) ↔ fakes w !! gs_ID s = Some s ∧ managed_for identity s.
Proof.
  unfold fake_List, FakeClient, managed_for. rewrite list_elem_of_filter, list_elem_of_fmap. split.
  - intros (Hm & [id x] & -> & Hin%elem_of_map_to_list). split; [|done]. simpl. by rewrite (proj2_sig w.2 _ _ Hin).
  - intros [Hs Hm]. split; [done|]. exists (gs_ID s, s). split; [done|]. by apply elem_of_map_to_list.
Qed.

Lemma expire_alter id (f : FakeClient) r : (fake_Expire None id f).2 = r → match r with
  | Ok _ => (fake_Expire None id f).1 = alter expired id f
  | Err _ => (fake_Expire None id f).1 = f
  end.
Proof.
  unfold fake_Expire, FakeClient in *. destruct (f !! id) as [s|] eqn:E; intros <-; simpl; [|done]. apply map_eq. intros i. destruct (decide (i = id)) as [->|].
  - by rewrite lookup_insert_eq, lookup_alter_eq, E.
  - by rewrite lookup_insert_ne, lookup_alter_ne by done.
Qed.

Definition fake_laws : SilenceLaws.
Proof.
  refine {| silences := fakes |}.
  - intros w id s Hs. exact (proj2_sig w.2 _ _ Hs).
  - intros k ns n w w' r [_ E]%on_store_inv. unfold fakes. by rewrite E.
  - intros identity w w' r [= <- <-]. split; [done|]. intros l [= <-] s. apply fake_listed.
  - intros p w w' r. simpl. unfold create_silence. destruct (fakes w !! fresh_id (fakes w)) eqn:E; intros [= <- <-]; [by left|]. split; [done|]. by eexists.
  - intros id w w' r E. assert (Hr : (fake_Expire None id (fakes w)).2 = r) by exact (f_equal snd E).
    assert (Hw : fakes w' = (fake_Expire None id (fakes w)).1) by exact (eq_sym (f_equal (λ p, fakes p.1) E)).
    pose proof (expire_alter id (fakes w) r Hr) as He. rewrite Hw. destruct r; [exact He|left; exact He].
Defined.
#[local] Existing Instance fake_laws.
Definition fake_clock : Clock := {| now w := mem_now (proj1_sig w.1); time_Format := decimal; time_Parse := undecimal; time_roundtrip := undecimal_decimal |}.
#[local] Existing Instance fake_clock.

(** ** A cluster that is installed *)
Definition installing : object KCluster := mkObj KCluster (named "account-1" "shop") zero_cluster
  (mkClusterStatus [] ClusterPhaseProvisioning (mkAPIEndpoint "" 0) "" None 1 None "").
Definition no_fakes : Fakes := exist _ ∅ (map_Forall_empty _).
Definition shop_key : nsname := ("account-1", "shop").
Definition silencer : SilenceController.SilenceReconciler := SilenceController.mkSilenceReconciler true.
#[local] Notation silence_shop := (SilenceController.Reconcile silencer shop_key).
#[local] Notation get_shop := (kc_Get KCluster shop_key.1 shop_key.2).
Definition w_noisy : World := (kc_Create KCluster installing (empty_store, no_fakes)).1.
Definition w_silent : World := (silence_shop w_noisy).1.
Definition found_shop : object KCluster := default installing (objs (state w_noisy) KCluster !! shop_key).

Lemma silence_run : silence_shop w_noisy = (w_silent, Ok (requeue RequeueInterval)).
Proof. unfold w_silent. apply (run_value silence_shop w_noisy). vm_compute. reflexivity. Qed.
Lemma get_run : get_shop w_noisy = ((get_shop w_noisy).1, Ok found_shop).
Proof. apply (run_value get_shop w_noisy). vm_compute. reflexivity. Qed.
Lemma silences_converge_witness : silenced (IdentityFromCluster found_shop) ReasonInstalling (now (get_shop w_noisy).1) (silences w_silent).
Proof.
  exact (proj2 (proj2 (silences_converge silencer shop_key found_shop w_noisy (get_shop w_noisy).1 w_silent (requeue RequeueInterval) eq_refl get_run silence_run ltac:(discriminate)))).
Defined.

(** The silence is the only one; the run that follows keeps one. *)
Definition shop_silence : GettableSilence := default (gettable "" 0 (BuildPostableSilence (mkIdentity "" "") ReasonInstalling 0 0)) (fakes w_silent !! "silence-0").
Lemma silent_fakes : fakes w_silent = {["silence-0" := shop_silence]}.
Proof. vm_compute. reflexivity. Qed.
Lemma silent_stored : silences w_silent !! "silence-0" = Some shop_silence.
Proof. change (silences w_silent) with (fakes w_silent). rewrite silent_fakes. apply lookup_singleton_eq. Qed.
Definition silent_shop : object KCluster := default installing (objs (state w_silent) KCluster !! shop_key).
Lemma get_silent : get_shop w_silent = ((get_shop w_silent).1, Ok silent_shop).
Proof. apply (run_value get_shop w_silent). vm_compute. reflexivity. Qed.
Lemma silence_managed : managed_for (IdentityFromCluster silent_shop) shop_silence.
Proof. split_and!; vm_compute; reflexivity. Qed.
Lemma silence_only : only (IdentityFromCluster silent_shop) (silences w_silent) ["silence-0"].
Proof.
  intros id s Hs _. change (silences w_silent) with (fakes w_silent) in Hs. rewrite silent_fakes in Hs. apply lookup_singleton_Some in Hs as [<- _]. by left.
Qed.
Lemma silence_matches : MatchesReason shop_silence ReasonInstalling = true.
Proof. vm_compute. reflexivity. Qed.
Lemma silent_intent : IntentForCluster silent_shop = Some ReasonInstalling.
Proof. vm_compute. reflexivity. Qed.
Lemma fake_NoDup identity (v v' : World) l : sc_List identity v = (v', Ok l) → NoDup l.
Proof.
  intros [= _ <-]. unfold fake_List. apply NoDup_filter. apply (NoDup_fmap_1 gs_ID). rewrite <- list_fmap_compose.
  rewrite (list_fmap_ext _ fst); [apply NoDup_fst_map_to_list|]. intros i [id s] Hi. simpl. apply (proj2_sig v.2). apply elem_of_map_to_list. by eapply list_elem_of_lookup_2.
Qed.
Lemma silence_again : silence_shop w_silent = ((silence_shop w_silent).1, (silence_shop w_silent).2).
Proof. apply surjective_pairing. Qed.
Lemma silence_never_lost_witness : ∃ id' s', silences (silence_shop w_silent).1 !! id' = Some s' ∧ managed_for (IdentityFromCluster silent_shop) s' ∧ MatchesReason s' ReasonInstalling = true.
Proof.
  exact (silence_never_lost silencer shop_key silent_shop ReasonInstalling w_silent (get_shop w_silent).1 (silence_shop w_silent).1 (silence_shop w_silent).2 "silence-0" shop_silence
    get_silent silent_intent silent_stored silence_managed silence_matches silence_only (fake_NoDup _) silence_again).
Defined.
