(* ===== verification/Pathbind.v ===== *)
(** * Flat consumer structs and nested SDK structs (clientset/pathbind/pathbind.go)

    The package moves values between two Go structs by reflection, following the dotted
    JSON paths of struct tags. A [gotype] is what reflection sees of a type, a [value]
    what it holds, and a settable [reflect.Value] is a [ref]: the fields and pointers
    that lead to it from the root. Types are finite trees without interfaces, arrays,
    complex numbers, channels and functions; map keys have a string kind; the fields with
    tags are exported, path segments are not empty, and no two pointers of one value are
    the same. Texts of errors are left out: an error is its cause. *)
From S2P Require Import Prelude GoStrings Template.
From stdpp Require Import base gmap strings list.
From Stdlib Require Import ZArith Lia Ascii String.
From Stdlib Require Import SpecFloat.
Open Scope string_scope.

(** ** Types *)
Inductive width := W8 | W16 | W32 | W64 | WInt.
#[export] Instance width_eq_dec : EqDecision width.
Proof. solve_decision. Defined.

(** [reflect.StructField]: the name, the json and hfsdk tags, whether it is embedded and
    whether it is exported. *)
Record fieldinfo := mkFieldinfo { f_Name : string; f_json : string; f_hfsdk : string; f_Anonymous : bool; f_Exported : bool }.
#[export] Instance fieldinfo_eq_dec : EqDecision fieldinfo.
Proof. solve_decision. Defined.

(** [TNamed] is a defined type with its underlying type; [TTime] and [TDuration] are
    [metav1.Time] and [metav1.Duration]. *)
Inductive gotype :=
| TString | TBool | TInt (w : width) | TUint (w : width) | TFloat (w : width)
| TPtr (t : gotype) | TSlice (t : gotype) | TMap (k t : gotype) | TStruct (fs : list (fieldinfo * gotype))
| TNamed (name : string) (t : gotype) | TTime | TDuration.

(** A [time.Time]: the second and nanosecond it denotes, and the rest of its
    representation (its location and clock reading). *)
Record gotime := mkGotime { gt_sec : Z; gt_nsec : Z; gt_repr : nat }.

Inductive value :=
| VString (s : string) | VBool (b : bool) | VInt (z : Z) | VUint (z : Z) | VFloat (f : spec_float)
| VPtr (p : option value) | VSlice (l : option (list value)) | VMap (l : option (list (string * value))) | VStruct (l : list value)
| VTime (t : gotime) | VDuration (d : Z).

(** A value of Go's type [any] that is not nil, with its dynamic type. *)
Record dynamic := mkDynamic { dyn_type : gotype; dyn_value : value }.

(** *** Equality of types *)
Fixpoint gotype_eqb (t u : gotype) : bool :=
  match t, u with
  | TString, TString | TBool, TBool | TTime, TTime | TDuration, TDuration => true
  | TInt w, TInt w' | TUint w, TUint w' | TFloat w, TFloat w' => bool_decide (w = w')
  | TPtr t, TPtr u | TSlice t, TSlice u => gotype_eqb t u
  | TMap k t, TMap k' u => gotype_eqb k k' && gotype_eqb t u
  | TNamed n t, TNamed n' u => String.eqb n n' && gotype_eqb t u
  | TStruct fs, TStruct gs =>
      (fix eqs fs gs := match fs, gs with
       | [], [] => true
       | (f, t) :: fs, (g, u) :: gs => bool_decide (f = g) && gotype_eqb t u && eqs fs gs
       | _, _ => false
       end) fs gs
  | _, _ => false
  end.

(** The underlying type, and the type without the tags of its structs. *)
Fixpoint under (t : gotype) : gotype := match t with TNamed _ t => under t | t => t end.
Definition named (t : gotype) : bool :=
  match t with TNamed _ _ | TString | TBool | TInt _ | TUint _ | TFloat _ | TTime | TDuration => true | _ => false end.
Fixpoint untagged (t : gotype) : gotype :=
  match t with
  | TPtr t => TPtr (untagged t) | TSlice t => TSlice (untagged t) | TMap k t => TMap (untagged k) (untagged t)
  | TNamed n t => TNamed n (untagged t)
  | TStruct fs => TStruct ((fix go fs := match fs with
      | [] => []
      | (f, t) :: fs => (mkFieldinfo (f_Name f) "" "" (f_Anonymous f) (f_Exported f), untagged t) :: go fs
      end) fs)
  | t => t
  end.

(** *** Kinds ([reflect.Kind]) *)
Definition isSignedIntKind (t : gotype) : bool := match under t with TInt _ => true | _ => false end.
Definition isUnsignedIntKind (t : gotype) : bool := match under t with TUint _ => true | _ => false end.
Definition isNumericKind (t : gotype) : bool := match under t with TInt _ | TUint _ | TFloat _ => true | _ => false end.
Definition string_kind (t : gotype) : bool := match under t with TString => true | _ => false end.
Definition struct_kind (t : gotype) : bool := match under t with TStruct _ | TTime | TDuration => true | _ => false end.
(** The kinds the JSON fallback serves. *)
Definition complex_kind (t : gotype) : bool := match under t with TSlice _ | TMap _ _ | TStruct _ | TTime | TDuration => true | _ => false end.

Definition bits (w : width) : Z := match w with W8 => 8 | W16 => 16 | W32 => 32 | W64 | WInt => 64 end.
Definition min_signed (w : width) : Z := (- 2 ^ (bits w - 1))%Z.
Definition max_signed (w : width) : Z := (2 ^ (bits w - 1) - 1)%Z.
Definition max_unsigned (w : width) : Z := (2 ^ bits w - 1)%Z.

Definition isValueInRange (val : Z) (targetType : gotype) : bool :=
  match under targetType with
  | TInt W8 => (-128 <=? val)%Z && (val <=? 127)%Z
  | TInt W16 => (-32768 <=? val)%Z && (val <=? 32767)%Z
  | TInt W32 => (-2147483648 <=? val)%Z && (val <=? 2147483647)%Z
  | TInt W64 | TInt WInt => true
  | _ => false
  end.
Definition isValueInRangeUnsigned (val : Z) (targetType : gotype) : bool :=
  match under targetType with
  | TUint W8 => (val <=? 255)%Z
  | TUint W16 => (val <=? 65535)%Z
  | TUint W32 => (val <=? 4294967295)%Z
  | TUint W64 | TUint WInt => true
  | _ => false
  end.

(** ** Values *)

(** [reflect.Zero]. Year 1 is the zero of [time.Time]. *)
Definition zero_time : gotime := mkGotime (-62135596800) 0 0.
Definition IsZero (t : gotime) : bool := (gt_sec t =? gt_sec zero_time)%Z && (gt_nsec t =? 0)%Z.

Fixpoint Zero (t : gotype) : value :=
  match t with
  | TString => VString "" | TBool => VBool false | TInt _ => VInt 0 | TUint _ => VUint 0 | TFloat _ => VFloat (S754_zero false)
  | TPtr _ => VPtr None | TSlice _ => VSlice None | TMap _ _ => VMap None
  | TStruct fs => VStruct ((fix go fs := match fs with [] => [] | (_, t) :: fs => Zero t :: go fs end) fs)
  | TNamed _ t => Zero t | TTime => VTime zero_time | TDuration => VDuration 0
  end.

Fixpoint has_type (t : gotype) (v : value) : bool :=
  match t, v with
  | TString, VString _ | TBool, VBool _ | TFloat _, VFloat _ | TTime, VTime _ => true
  | TInt w, VInt z => (min_signed w <=? z)%Z && (z <=? max_signed w)%Z
  | TUint w, VUint z => (0 <=? z)%Z && (z <=? max_unsigned w)%Z
  | TDuration, VDuration d => bool_decide (in_int64 d)
  | TPtr t, VPtr p => match p with None => true | Some v => has_type t v end
  | TSlice t, VSlice l => match l with None => true | Some l => forallb (has_type t) l end
  | TMap _ t, VMap l => match l with None => true | Some l => forallb (fun kv => has_type t kv.2) l end
  | TNamed _ t, v => has_type t v
  | TStruct fs, VStruct l =>
      (fix go fs l := match fs, l with
       | [], [] => true
       | (_, t) :: fs, v :: l => has_type t v && go fs l
       | _, _ => false
       end) fs l
  | _, _ => false
  end.

(** [reflect.DeepEqual] of two values of one type. *)
Fixpoint deep_equal (a b : value) : bool :=
  match a, b with
  | VString s, VString s' => String.eqb s s'
  | VBool x, VBool y => Bool.eqb x y
  | VInt x, VInt y | VUint x, VUint y | VDuration x, VDuration y => (x =? y)%Z
  | VFloat x, VFloat y => SFeqb x y
  | VTime x, VTime y => (gt_sec x =? gt_sec y)%Z && (gt_nsec x =? gt_nsec y)%Z && Nat.eqb (gt_repr x) (gt_repr y)
  | VPtr None, VPtr None | VSlice None, VSlice None | VMap None, VMap None => true
  | VPtr (Some x), VPtr (Some y) => deep_equal x y
  | VSlice (Some l), VSlice (Some l') | VStruct l, VStruct l' =>
      (fix go l l' := match l, l' with
       | [], [] => true
       | x :: l, y :: l' => deep_equal x y && go l l'
       | _, _ => false
       end) l l'
  | VMap (Some l), VMap (Some l') =>
      Nat.eqb (List.length l) (List.length l') &&
      forallb (fun kv => match list_find (fun kv' => kv'.1 = kv.1) l' with Some (_, kv') => deep_equal kv.2 kv'.2 | None => false end) l
  | _, _ => false
  end.

(** ** Conversions of Go *)

Definition wrap_signed (w : width) (z : Z) : Z := ((z - min_signed w) mod 2 ^ bits w + min_signed w)%Z.
Definition wrap_unsigned (w : width) (z : Z) : Z := (z mod 2 ^ bits w)%Z.

(** [float64] and [float32] of an integer or of a float. *)
Definition to_float (w : width) (m e : Z) (s : bool) : spec_float :=
  match w with W32 => binary_normalize 24 128 m e s | _ => binary_normalize 53 1024 m e s end.
Definition round_float (w : width) (f : spec_float) : spec_float :=
  match f with S754_finite s m e => to_float w (cond_Zopp s (Zpos m)) e s | f => f end.

(** The integer part of a float, towards zero. *)
Definition float_part (f : spec_float) : option Z :=
  match f with
  | S754_zero _ => Some 0%Z
  | S754_finite s m e => Some (cond_Zopp s (if (0 <=? e)%Z then Zpos m * 2 ^ e else Zpos m / 2 ^ (- e))%Z)
  | _ => None
  end.

(** What Go leaves to the implementation, texts of times, and JSON of Go values: an SDK
    type may bring its own marshaller. *)
Class ReflectEnv := {
  float_int64 : spec_float → Z;
  float_uint64 : spec_float → Z;
  format_RFC3339 : gotime → string;
  parse_RFC3339 : string → option gotime;
  ParseDuration : string → option Z;
  Duration_String : Z → string;
  json_Marshal : gotype → value → option string;
  json_Unmarshal : string → gotype → option value
}.

(** The causes of errors; [Panicked] is a panic of package reflect. *)
Inductive cause :=
| NotAStruct | TypesDiffer | SegmentNotFound (seg : string) | EmptyPath
| ExpectedString | BadTime | BadDuration | NumericToString | OutOfRange | BadJSON | MarshalFailed | CannotConvert
| PathPresent | PathConflict | Panicked.

(** UTF-8 of a rune, and the runes of a text. *)
Definition one_byte (z : Z) : string := String (ascii_of_N (Z.to_N z)) "".
Definition encode_rune (r : Z) : string :=
  (if (r <? 0) || (1114111 <? r) || ((55296 <=? r) && (r <=? 57343)) then one_byte 239 +:+ one_byte 191 +:+ one_byte 189
   else if r <? 128 then one_byte r
   else if r <? 2048 then one_byte (192 + r / 64) +:+ one_byte (128 + r mod 64)
   else if r <? 65536 then one_byte (224 + r / 4096) +:+ one_byte (128 + r / 64 mod 64) +:+ one_byte (128 + r mod 64)
   else one_byte (240 + r / 262144) +:+ one_byte (128 + r / 4096 mod 64) +:+ one_byte (128 + r / 64 mod 64) +:+ one_byte (128 + r mod 64))%Z.
Fixpoint runes_of (fuel : nat) (s : string) : list Z :=
  match fuel, s with
  | 0, _ | _, "" => []
  | S fuel, _ => let '(r, w) := DecodeRune s in r :: runes_of fuel (str_drop w s)
  end.
Definition concat_strings (l : list string) : string := foldr String.append "" l.

Section conversions.
Context `{ReflectEnv}.

Definition float_to_int64 (f : spec_float) : Z :=
  match float_part f with Some z => if bool_decide (in_int64 z) then z else float_int64 f | None => float_int64 f end.
Definition float_to_uint64 (f : spec_float) : Z :=
  match float_part f with Some z => if bool_decide (in_uint64 z) then z else float_uint64 f | None => float_uint64 f end.

(** [Type.AssignableTo] *)
Definition AssignableTo (t target : gotype) : bool :=
  gotype_eqb t target || (negb (named t && named target) && gotype_eqb (under t) (under target)).

(** [Type.ConvertibleTo] *)
Definition ConvertibleTo (t target : gotype) : bool :=
  match under t, under target with
  | (TInt _ | TUint _), (TInt _ | TUint _ | TFloat _ | TString) => true
  | TFloat _, (TInt _ | TUint _ | TFloat _) => true
  | TString, (TSlice (TUint W8) | TSlice (TInt W32)) | (TSlice (TUint W8) | TSlice (TInt W32)), TString => true
  | u, u' => gotype_eqb (untagged u) (untagged u')
  end.

Definition as_int (v : value) : Z := match v with VInt z | VUint z => z | _ => 0 end.
Definition elements (v : value) : list value := match v with VSlice (Some l) => l | _ => [] end.

(** [Value.Convert] *)
Definition Convert (t : gotype) (v : value) (target : gotype) : value :=
  match under t, under target, v with
  | (TInt _ | TUint _), TInt w, (VInt z | VUint z) => VInt (wrap_signed w z)
  | (TInt _ | TUint _), TUint w, (VInt z | VUint z) => VUint (wrap_unsigned w z)
  | (TInt _ | TUint _), TFloat w, (VInt z | VUint z) => VFloat (round_float w (to_float W64 z 0 false))
  | (TInt _ | TUint _), TString, (VInt z | VUint z) => VString (encode_rune z)
  | TFloat _, TInt w, VFloat f => VInt (wrap_signed w (float_to_int64 f))
  | TFloat _, TUint w, VFloat f => VUint (wrap_unsigned w (float_to_uint64 f))
  | TFloat _, TFloat w, VFloat f => VFloat (round_float w f)
  | TString, TSlice (TUint _), VString s => VSlice (Some ((fun a => VUint (Z.of_N (N_of_ascii a))) <$> list_ascii_of_string s))
  | TString, TSlice (TInt _), VString s => VSlice (Some (VInt <$> runes_of (String.length s) s))
  | TSlice (TUint _), TString, v => VString (concat_strings (one_byte ∘ as_int <$> elements v))
  | TSlice (TInt _), TString, v => VString (concat_strings (encode_rune ∘ as_int <$> elements v))
  | _, _, v => v
  end.

(** [Value.Set] of a place of type [target]. *)
Definition Value_Set (x : dynamic) (target : gotype) : result cause value :=
  if AssignableTo (dyn_type x) target then Ok (dyn_value x) else Err Panicked.

Definition plain_string (s : string) : dynamic := mkDynamic TString (VString s).

(** *** [toFieldValue] *)

(** The conversion to [metav1.Time] and to [metav1.Duration]. *)
Definition to_time (x : dynamic) : result cause dynamic :=
  match dyn_type x, dyn_value x with
  | TString, VString s => match parse_RFC3339 s with Some t => Ok (mkDynamic TTime (VTime t)) | None => Err BadTime end
  | _, _ => Err ExpectedString
  end.
Definition to_duration (x : dynamic) : result cause dynamic :=
  match dyn_type x, dyn_value x with
  | TDuration, _ => Ok x
  | TString, VString s => match ParseDuration s with Some d => Ok (mkDynamic TDuration (VDuration d)) | None => Err BadDuration end
  | _, _ => Err ExpectedString
  end.

(** A convertible value, with the checks in front of the conversion. *)
Definition to_convertible (x : dynamic) (targetType : gotype) : result cause dynamic :=
  let t := dyn_type x in
  let v := dyn_value x in
  if string_kind targetType && isNumericKind t then Err NumericToString
  else if isSignedIntKind t && isSignedIntKind targetType && negb (isValueInRange (as_int v) targetType) then Err OutOfRange
  else if isUnsignedIntKind t && isUnsignedIntKind targetType && negb (isValueInRangeUnsigned (as_int v) targetType) then Err OutOfRange
  else Ok (mkDynamic targetType (Convert t v targetType)).

(** The JSON fallback. *)
Definition to_json (x : dynamic) (targetType : gotype) : result cause dynamic :=
  match dyn_type x, dyn_value x with
  | TString, VString s =>
      if complex_kind targetType then match json_Unmarshal s targetType with Some v => Ok (mkDynamic targetType v) | None => Err BadJSON end
      else Err CannotConvert
  | t, v =>
      if string_kind targetType && complex_kind t then match json_Marshal t v with Some s => Ok (plain_string s) | None => Err MarshalFailed end
      else Err CannotConvert
  end.

(** Everything but the pointer targets. *)
Definition duration_of (x : dynamic) : option Z :=
  match dyn_type x, dyn_value x with TDuration, VDuration d => Some d | _, _ => None end.
Definition to_leaf (x : dynamic) (targetType : gotype) : result cause dynamic :=
  match targetType with
  | TTime => to_time x
  | TDuration => to_duration x
  | _ =>
      match string_kind targetType, duration_of x with
      | true, Some d => Ok (plain_string (Duration_String d))
      | _, _ =>
          if AssignableTo (dyn_type x) targetType then Ok x
          else if ConvertibleTo (dyn_type x) targetType then to_convertible x targetType
          else to_json x targetType
      end
  end.

Fixpoint to_pointer (x : dynamic) (t targetType : gotype) : result cause dynamic :=
  match t with
  | TNamed _ t => to_pointer x t targetType
  | TPtr elem =>
      inner ← to_pointer x elem elem;
      v ← Value_Set inner elem;
      Ok (mkDynamic (TPtr elem) (VPtr (Some v)))
  | _ => to_leaf x targetType
  end.

Definition toFieldValue (goValue : option dynamic) (targetType : gotype) : result cause dynamic :=
  match goValue with
  | None => Ok (mkDynamic targetType (Zero targetType))
  | Some x => to_pointer x targetType targetType
  end.

(** *** Reading a consumer field and an SDK field *)

(** Numbers come out as [int64], [uint64] or [float64]. *)
Definition numeric (v : value) : option dynamic :=
  match v with
  | VInt z => Some (mkDynamic (TInt W64) v)
  | VUint z => Some (mkDynamic (TUint W64) v)
  | VFloat f => Some (mkDynamic (TFloat W64) v)
  | _ => None
  end.

Definition is_zero_number (v : value) : bool :=
  match v with VInt z | VUint z => (z =? 0)%Z | VFloat f => SFeqb f (S754_zero false) | _ => false end.

Definition format_time (t : gotime) : option dynamic := if IsZero t then None else Some (plain_string (format_RFC3339 t)).

(** [unwrap] of a value that is not a pointer; [t] is its type. *)
Definition unwrap_plain (t : gotype) (v : value) : option dynamic :=
  match v with
  | VString s => if String.eqb s "" then None else Some (plain_string s)
  | VBool _ => Some (mkDynamic TBool v)
  | VInt _ | VUint _ | VFloat _ => if is_zero_number v then None else numeric v
  | VSlice l => match l with None | Some [] => None | Some _ => Some (mkDynamic t v) end
  | VMap l => match l with None | Some [] => None | Some _ => Some (mkDynamic t v) end
  | VTime x => match t with TTime => format_time x | _ => Some (mkDynamic t v) end
  | VStruct _ | VDuration _ => Some (mkDynamic t v)
  | VPtr _ => None
  end.

(** [unwrap]: [t] with its names [u] removed; [u] is what the recursion is on. *)
Fixpoint unwrap_at (u t : gotype) (v : value) : option dynamic :=
  match u, v with
  | TNamed _ u, v => unwrap_at u t v
  | TPtr elem, VPtr p =>
      match p with
      | None => None
      | Some v => match numeric v with Some x => Some x | None => unwrap_at elem elem v end
      end
  | _, v => unwrap_plain t v
  end.
Definition unwrap (t : gotype) (v : value) : option dynamic := unwrap_at t t v.
Definition IsUnset (x : option dynamic) : bool :=
  match x with None => true | Some x => match unwrap (dyn_type x) (dyn_value x) with Some _ => false | None => true end end.

Definition from_plain (t : gotype) (v : value) : option dynamic :=
  match v with
  | VString s => Some (plain_string s)
  | VSlice None | VMap None => None
  | VTime x => match t with TTime => format_time x | _ => Some (mkDynamic t v) end
  | _ => Some (mkDynamic t v)
  end.
Fixpoint fromSDKValue_at (u t : gotype) (v : value) : option dynamic :=
  match u, v with
  | TNamed _ u, v => fromSDKValue_at u t v
  | TPtr elem, VPtr p => match p with None => None | Some v => fromSDKValue_at elem elem v end
  | _, v => from_plain t v
  end.
Definition fromSDKValue (t : gotype) (v : value) : option dynamic := fromSDKValue_at t t v.
End conversions.

(** ** Places in a value *)
Inductive access := AField (i : nat) | AElem.
#[export] Instance access_eq_dec : EqDecision access.
Proof. solve_decision. Defined.
Notation ref := (list access).

Fixpoint ref_type (r : ref) (t : gotype) : option gotype :=
  match r with
  | [] => Some t
  | AField i :: r => match under t with TStruct fs => f ← fs !! i; ref_type r f.2 | _ => None end
  | AElem :: r => match under t with TPtr t => ref_type r t | _ => None end
  end.
Fixpoint ref_get (r : ref) (v : value) : option value :=
  match r with
  | [] => Some v
  | AField i :: r => match v with VStruct l => x ← l !! i; ref_get r x | _ => None end
  | AElem :: r => match v with VPtr (Some x) => ref_get r x | _ => None end
  end.
(** The value with [x] at the place. *)
Fixpoint ref_set (r : ref) (x v : value) : value :=
  match r with
  | [] => x
  | AField i :: r => match v with VStruct l => VStruct (alter (ref_set r x) i l) | _ => v end
  | AElem :: r => match v with VPtr (Some y) => VPtr (Some (ref_set r x y)) | _ => v end
  end.

(** *** [findField] *)
Definition json_name (f : fieldinfo) : string :=
  match IndexByte (f_json f) "," with Some i => str_take i (f_json f) | None => f_json f end.
Definition inlined (f : fieldinfo) : bool := f_Anonymous f || HasPrefix (f_json f) ",inline".

Fixpoint direct (seg : string) (i : nat) (fs : list (fieldinfo * gotype)) : option ref :=
  match fs with
  | [] => None
  | (f, _) :: fs => if String.eqb (json_name f) seg then Some [AField i] else direct seg (S i) fs
  end.

(** The search in a value of type [t]; an embedded field is dereferenced first. *)
Fixpoint find_in (deref : bool) (seg : string) (t : gotype) (v : value) : option ref :=
  match t, v with
  | TNamed _ t, v => find_in deref seg t v
  | TPtr t, VPtr (Some v) => if deref then cons AElem <$> find_in false seg t v else None
  | TStruct fs, VStruct l =>
      match direct seg 0 fs with
      | Some r => Some r
      | None =>
          (fix embedded i fs l := match fs, l with
           | (f, t) :: fs, v :: l =>
               match (if inlined f then find_in true seg t v else None) with
               | Some r => Some (AField i :: r)
               | None => embedded (S i) fs l
               end
           | _, _ => None
           end) 0 fs l
      end
  | _, _ => None
  end.
Definition findField (t : gotype) (v : value) (seg : string) : option ref := find_in false seg t v.

(** ** Paths *)
Section paths.
Context `{ReflectEnv}.

(** Setting allocates the nil pointers on its way, also when it fails further on. *)
Fixpoint setAtPath (t : gotype) (v : value) (segments : list string) (goValue : option dynamic) : value * option cause :=
  match segments with
  | [] => (v, None)
  | seg :: rest =>
      match findField t v seg with
      | None => (v, Some (SegmentNotFound seg))
      | Some r =>
          match ref_type r t, ref_get r v with
          | Some ft, Some fv =>
              match rest with
              | [] =>
                  match converted ← toFieldValue goValue ft; Value_Set converted ft with
                  | Err e => (v, Some e)
                  | Ok x => (ref_set r x v, None)
                  end
              | _ =>
                  match under ft, fv with
                  | TPtr elem, VPtr p =>
                      let '(x, e) := setAtPath elem (default (Zero elem) p) rest goValue in (ref_set r (VPtr (Some x)) v, e)
                  | _, _ => let '(x, e) := setAtPath ft fv rest goValue in (ref_set r x v, e)
                  end
              end
          | _, _ => (v, Some Panicked)
          end
      end
  end.

Fixpoint getAtPath (t : gotype) (v : value) (segments : list string) : result cause (option dynamic) :=
  match segments with
  | [] => Ok None
  | seg :: rest =>
      match findField t v seg with
      | None => Err (SegmentNotFound seg)
      | Some r =>
          match ref_type r t, ref_get r v with
          | Some ft, Some fv =>
              match rest with
              | [] => Ok (fromSDKValue ft fv)
              | _ =>
                  match under ft, fv with
                  | TPtr elem, VPtr None => Ok None
                  | TPtr elem, VPtr (Some x) => getAtPath elem x rest
                  | _, _ => getAtPath ft fv rest
                  end
              end
          | _, _ => Err Panicked
          end
      end
  end.

(** A pointer on the way counts as one to a zero value. *)
Fixpoint typeAtPath (t : gotype) (v : value) (segments : list string) : result cause gotype :=
  match segments with
  | [] => Err EmptyPath
  | seg :: rest =>
      match findField t v seg with
      | None => Err (SegmentNotFound seg)
      | Some r =>
          match ref_type r t, ref_get r v with
          | Some ft, Some fv =>
              match rest with
              | [] => Ok ft
              | _ => match under ft with TPtr elem => typeAtPath elem (Zero elem) rest | _ => typeAtPath ft fv rest end
              end
          | _, _ => Err Panicked
          end
      end
  end.

(** ** Consumer structs *)

(** The walk over the fields of a consumer struct, into structs without a tag. The
    recursion follows [indirect]: names and pointers first. *)
Fixpoint expandStruct (t : gotype) (v : value) (dstType : gotype) (dst : value) : value * option cause :=
  match t, v with
  | TNamed _ t, v => expandStruct t v dstType dst
  | TPtr t, VPtr (Some v) => expandStruct t v dstType dst
  | TStruct fs, VStruct l =>
      (fix go fs l dst := match fs, l with
       | (f, ft) :: fs, fv :: l =>
           if String.eqb (f_hfsdk f) "" then
             match expandStruct ft fv dstType dst with
             | (dst, None) => go fs l dst
             | (dst, Some e) => (dst, Some e)
             end
           else if String.eqb (f_hfsdk f) "-" then go fs l dst
           else match unwrap ft fv with
                | None => go fs l dst
                | Some x =>
                    match setAtPath dstType dst (Split (f_hfsdk f) ".") (Some x) with
                    | (dst, None) => go fs l dst
                    | (dst, Some e) => (dst, Some e)
                    end
                end
       | _, _ => (dst, None)
       end) fs l dst
  | _, _ => (dst, None)
  end.

(** [indirect]: the place behind the pointers of a value; [None] when one is nil. *)
Fixpoint indirect (t : gotype) (v : value) : option (ref * gotype * value) :=
  match t, v with
  | TNamed n u, v => match under u with TPtr _ => indirect u v | _ => Some ([], t, v) end
  | TPtr t, VPtr p => match p with None => None | Some v => '(r, u, x) ← indirect t v; Some (AElem :: r, u, x) end
  | t, v => Some ([], t, v)
  end.
(** A struct, and a struct behind at least one pointer: only that one can be set. *)
Definition struct_arg (x : dynamic) : option (ref * gotype * value) :=
  '(r, t, v) ← indirect (dyn_type x) (dyn_value x); if struct_kind t then Some (r, t, v) else None.
Definition settable_arg (x : dynamic) : option (ref * gotype * value) :=
  '(r, t, v) ← struct_arg x; match r with [] => None | _ => Some (r, t, v) end.
Definition with_arg (x : dynamic) (r : ref) (v : value) : dynamic := mkDynamic (dyn_type x) (ref_set r v (dyn_value x)).

(** Nil arguments are not structs. *)
Definition Expand (src dst : dynamic) : dynamic * option cause :=
  match struct_arg src, settable_arg dst with
  | Some (_, st, sv), Some (r, dt, dv) => let '(dv, e) := expandStruct st sv dt dv in (with_arg dst r dv, e)
  | _, _ => (dst, Some NotAStruct)
  end.

(** The fields of the consumer struct after the walk. *)
Fixpoint flattenStruct (srcType : gotype) (src : value) (t : gotype) (v : value) : value * option cause :=
  match t, v with
  | TNamed _ t, v => flattenStruct srcType src t v
  | TPtr t, VPtr (Some v) => let '(v, e) := flattenStruct srcType src t v in (VPtr (Some v), e)
  | TStruct fs, VStruct l =>
      let '(l, e) := (fix go fs l := match fs, l with
       | (f, ft) :: fs, fv :: l =>
           let '(fv, e) :=
             if String.eqb (f_hfsdk f) "" then flattenStruct srcType src ft fv
             else if String.eqb (f_hfsdk f) "-" then (fv, None)
             else match getAtPath srcType src (Split (f_hfsdk f) ".") with
                  | Err e => (fv, Some e)
                  | Ok None => (fv, None)
                  | Ok (Some x) =>
                      match converted ← toFieldValue (Some x) ft; Value_Set converted ft with
                      | Err e => (fv, Some e)
                      | Ok fv => (fv, None)
                      end
                  end in
           match e with
           | Some e => (fv :: l, Some e)
           | None => let '(l, e) := go fs l in (fv :: l, e)
           end
       | _, l => (l, None)
       end) fs l in
      (VStruct l, e)
  | _, v => (v, None)
  end.

Definition Flatten (src dst : dynamic) : dynamic * option cause :=
  match struct_arg src, settable_arg dst with
  | Some (_, st, sv), Some (r, dt, dv) => let '(dv, e) := flattenStruct st sv dt dv in (with_arg dst r dv, e)
  | _, _ => (dst, Some NotAStruct)
  end.

(** ** Partial updates

    A document of [any] values: a converted value, an empty list or an object. *)
Inductive document := DValue (x : option dynamic) | DEmptySlice | DObject (m : gmap string document).

Definition clearDocumentValue (targetType : gotype) : document :=
  match under targetType with TSlice _ => DEmptySlice | TMap _ _ => DObject ∅ | _ => DValue None end.

Fixpoint setDocumentPath (m : gmap string document) (segments : list string) (x : document) : result cause (gmap string document) :=
  match segments with
  | [] => Ok m
  | seg :: rest =>
      match rest, m !! seg with
      | [], Some _ => Err PathPresent
      | [], None => Ok (<[seg := x]> m)
      | _, None => child ← setDocumentPath ∅ rest x; Ok (<[seg := DObject child]> m)
      | _, Some (DObject child) => child ← setDocumentPath child rest x; Ok (<[seg := DObject child]> m)
      | _, Some _ => Err PathConflict
      end
  end.

(** The value a changed field is written as, and the scratch struct after it. *)
Definition documentValue (dstType : gotype) (dst : value) (segments : list string) (x : dynamic) : result cause (value * option dynamic) :=
  match setAtPath dstType dst segments (Some x) with
  | (_, Some e) => Err e
  | (dst, None) => v ← getAtPath dstType dst segments; Ok (dst, v)
  end.

Definition structOrZero (t : gotype) (v : value) : option (gotype * value) :=
  match indirect t v with
  | Some (_, u, x) => Some (u, x)
  | None => match under t with TPtr elem => Some (elem, Zero elem) | _ => None end
  end.

Definition same_value (before after : option dynamic) : bool :=
  match before, after with
  | None, None => true
  | Some x, Some y => gotype_eqb (dyn_type x) (dyn_type y) && deep_equal (dyn_value x) (dyn_value y)
  | _, _ => false
  end.

(** One tagged field. *)
Definition update_field (f : fieldinfo) (ft : gotype) (before after : value) (dstType : gotype) (s : value * gmap string document)
  : result cause (value * gmap string document) :=
  let segments := Split (f_hfsdk f) "." in
  if same_value (unwrap ft before) (unwrap ft after) then Ok s
  else
    '(dst, x) ← match unwrap ft after with
                | Some y => '(dst, v) ← documentValue dstType s.1 segments y; Ok (dst, DValue v)
                | None => leafType ← typeAtPath dstType s.1 segments; Ok (s.1, clearDocumentValue leafType)
                end;
    m ← setDocumentPath s.2 segments x;
    Ok (dst, m).

(** The walk over both structs; pointers are taken off the type of a field while its
    values are those of [structOrZero]. *)
Fixpoint updateDocumentStruct (t : gotype) (before after : value) (dstType : gotype) (s : value * gmap string document)
  : result cause (value * gmap string document) :=
  match t with
  | TNamed _ t | TPtr t => updateDocumentStruct t before after dstType s
  | TStruct fs =>
      match before, after with
      | VStruct lb, VStruct la =>
          (fix go fs lb la s := match fs, lb, la with
           | (f, ft) :: fs, b :: lb, a :: la =>
               s ← (if negb (f_Exported f) then Ok s
                    else if String.eqb (f_hfsdk f) "" then
                      match structOrZero ft b, structOrZero ft a with
                      | Some (_, b), Some (at_, a) => if struct_kind at_ then updateDocumentStruct ft b a dstType s else Ok s
                      | None, Some (at_, _) => if struct_kind at_ then Err Panicked else Ok s
                      | _, None => Ok s
                      end
                    else if String.eqb (f_hfsdk f) "-" then Ok s
                    else update_field f ft b a dstType s);
               go fs lb la s
           | _, _, _ => Ok s
           end) fs lb la s
      | _, _ => if existsb (fun f => f_Exported f.1) fs then Err Panicked else Ok s
      end
  | _ => Ok s
  end.

Definition UpdateDocument (before after dst : dynamic) : result cause (gmap string document) :=
  match struct_arg before, struct_arg after with
  | Some (_, bt, bv), Some (_, at_, av) =>
      if negb (gotype_eqb bt at_) then Err TypesDiffer
      else match settable_arg dst with
           | Some (_, dt, _) => '(_, m) ← updateDocumentStruct at_ bv av dt (Zero dt, ∅); Ok m
           | None => Err NotAStruct
           end
  | _, _ => Err NotAStruct
  end.
End paths.
