(* ===== verification/PathbindProps.v ===== *)
(** * Theorems on path bindings

    The lens laws of setting and getting at a path, the conversions that keep a value,
    and the round trip of a consumer struct through the SDK struct. *)
From S2P Require Import Prelude GoStrings Template Pathbind.
From stdpp Require Import base gmap strings list.
From Stdlib Require Import ZArith Lia Ascii String SpecFloat.
Open Scope string_scope.

(** ** Types *)
Section gotype_induction.
Context (P : gotype → Prop).
Context (Hs : P TString) (Hb : P TBool) (Hi : ∀ w, P (TInt w)) (Hu : ∀ w, P (TUint w)) (Hf : ∀ w, P (TFloat w)).
Context (Hp : ∀ t, P t → P (TPtr t)) (Hl : ∀ t, P t → P (TSlice t)) (Hm : ∀ k t, P k → P t → P (TMap k t)).
Context (Hr : ∀ fs, Forall (fun f => P f.2) fs → P (TStruct fs)) (Hn : ∀ n t, P t → P (TNamed n t)) (Ht : P TTime) (Hd : P TDuration).

Fixpoint gotype_nested_ind (t : gotype) : P t :=
  match t with
  | TString => Hs | TBool => Hb | TInt w => Hi w | TUint w => Hu w | TFloat w => Hf w
  | TPtr t => Hp t (gotype_nested_ind t) | TSlice t => Hl t (gotype_nested_ind t)
  | TMap k t => Hm k t (gotype_nested_ind k) (gotype_nested_ind t)
  | TStruct fs => Hr fs ((fix go fs : Forall (fun f => P f.2) fs := match fs with
                          | [] => Forall_nil_2 _
                          | f :: fs => Forall_cons_2 _ _ _ (gotype_nested_ind f.2) (go fs)
                          end) fs)
  | TNamed n t => Hn n t (gotype_nested_ind t) | TTime => Ht | TDuration => Hd
  end.
End gotype_induction.

Lemma gotype_eqb_eq t u : gotype_eqb t u = true ↔ t = u.
Proof.
  revert u. induction t as [| |w|w|w|t IH|t IH|k t IHk IH|fs IH|n t IH| |] using gotype_nested_ind; intros []; cbn [gotype_eqb];
    rewrite ?bool_decide_eq_true, ?andb_true_iff, ?String.eqb_eq, ?IH; try by split; intros; simplify_eq.
  - rewrite IHk. split; [by intros [-> ->]|by intros [= -> ->]].
  - rename fs0 into gs. revert gs. induction IH as [|[f t] fs Ht _ IHfs]; intros [|[g u] gs]; try done.
    rewrite !andb_true_iff, bool_decide_eq_true, Ht, IHfs. cbn [snd]. split; [by intros [[-> ->] [= ->]]|by intros [= -> -> ->]].
  - split; [by intros [-> ->]|by intros [= -> ->]].
Qed.

Lemma gotype_eqb_refl t : gotype_eqb t t = true.
Proof. by apply gotype_eqb_eq. Qed.

Lemma has_type_under t v : has_type (under t) v = has_type t v.
Proof. by induction t. Qed.

Lemma under_not_named t n u : under t ≠ TNamed n u.
Proof. by induction t. Qed.

Lemma has_type_struct fs l : has_type (TStruct fs) (VStruct l) = true ↔ Forall2 (fun f v => has_type f.2 v = true) fs l.
Proof.
  revert l. induction fs as [|[f t] fs IH]; intros [|v l]; try by (split; [done|intros H; inversion H]).
  rewrite Forall2_cons, <- IH. by rewrite <- andb_true_iff.
Qed.

Lemma typed_struct t fs v : under t = TStruct fs → has_type t v = true → ∃ l, v = VStruct l ∧ Forall2 (fun f v => has_type f.2 v = true) fs l.
Proof.
  intros Hu Ht. rewrite <- has_type_under, Hu in Ht. destruct v; try done. eexists. split; [done|]. by apply has_type_struct.
Qed.
Lemma typed_ptr t elem v : under t = TPtr elem → has_type t v = true → v = VPtr None ∨ ∃ x, v = VPtr (Some x) ∧ has_type elem x = true.
Proof. intros Hu Ht. rewrite <- has_type_under, Hu in Ht. destruct v as [| | | | |[]| | | | |]; try done; eauto. Qed.

Lemma Zero_struct fs : Zero (TStruct fs) = VStruct (Zero ∘ snd <$> fs).
Proof. cbn [Zero]. f_equal. induction fs as [|[f t] fs IH]; [done|]. cbn. by f_equal. Qed.

Lemma Zero_typed t : has_type t (Zero t) = true.
Proof.
  induction t as [| |w|w|w|t IH|t IH|k t IHk IH|fs IH|n t IH| |] using gotype_nested_ind; try done.
  - by destruct w.
  - by destruct w.
  - rewrite Zero_struct. apply has_type_struct. induction IH; constructor; done.
Qed.

Lemma Zero_under t : Zero (under t) = Zero t.
Proof. by induction t. Qed.
#[export] Hint Resolve Zero_typed : seaplane.

(** ** Places *)
Lemma ref_set_typed r t ft v x : has_type t v = true → ref_type r t = Some ft → has_type ft x = true → has_type t (ref_set r x v) = true.
Proof.
  revert t v. induction r as [|[i|] r IH]; intros t v Hv Hr Hx; cbn in Hr |- *.
  - by simplify_eq.
  - destruct (under t) as [| | | | | | | |fs| | |] eqn:Hu; try done. apply bind_Some in Hr as (f & Hf & Hr).
    destruct (typed_struct _ _ _ Hu Hv) as (l & -> & Hl). rewrite <- has_type_under, Hu. apply has_type_struct.
    apply Forall2_alter_r; [done|]. intros f' y Hf' Hy Hfy. simplify_eq. by eapply IH.
  - destruct (under t) as [| | | | |elem| | | | | |] eqn:Hu; try done.
    destruct (typed_ptr _ _ _ Hu Hv) as [->|(y & -> & Hy)]; [done|]. rewrite <- has_type_under, Hu. cbn. by eapply IH.
Qed.

Lemma ref_get_set r x v y : ref_get r v = Some y → ref_get r (ref_set r x v) = Some x.
Proof.
  revert v. induction r as [|[i|] r IH]; intros v Hg; cbn in Hg |- *; [done| |].
  - destruct v; try done. apply bind_Some in Hg as (z & Hz & Hg). rewrite list_lookup_alter_eq, Hz. cbn. by eapply IH.
  - destruct v as [| | | | |[]| | | | |]; try done. by eapply IH.
Qed.

(** Two places of which neither contains the other. *)
Definition apart (r r' : ref) : Prop := ¬ r `prefix_of` r' ∧ ¬ r' `prefix_of` r.
Lemma apart_cons a r r' : apart (a :: r) (a :: r') ↔ apart r r'.
Proof. unfold apart. split; (intros [H1 H2]; split; intros H; [apply H1|apply H2]); [by apply prefix_cons|by apply prefix_cons|by apply prefix_cons_inv_2 in H..]. Qed.
Lemma apart_head a b r r' : a ≠ b → apart (a :: r) (b :: r').
Proof. intros Hab. split; by intros [? [= ? ?]]. Qed.

Lemma ref_get_apart r r' x v : apart r r' → ref_get r' (ref_set r x v) = ref_get r' v.
Proof.
  revert r' v. induction r as [|a r IH]; intros r' v Hr; [by destruct Hr as [[] _]; apply prefix_nil|].
  destruct r' as [|b r']; [by destruct Hr as [_ []]; apply prefix_nil|].
  destruct (decide (a = b)) as [->|Hab].
  - apply apart_cons in Hr. destruct b as [i|]; cbn.
    + destruct v; try done. rewrite list_lookup_alter_eq. destruct (l !! i) eqn:Hl; cbn; [|done]. by apply IH.
    + destruct v as [| | | | |[]| | | | |]; try done. by apply IH.
  - destruct a as [i|], b as [j|]; cbn; [|by destruct v as [| | | | |[]| | | | |]|by destruct v as [| | | | |[]| | | | |]|done]. destruct v; try done. by rewrite list_lookup_alter_ne by congruence.
Qed.

(** *** Where a field is depends on the type alone

    The embedded fields of an SDK type are structs without a json name. *)
Fixpoint sdk_type (t : gotype) : bool :=
  match t with
  | TNamed _ t | TPtr t => sdk_type t
  | TStruct fs => (fix go fs := match fs with
      | [] => true
      | (f, t) :: fs => sdk_type t && (negb (inlined f) || (String.eqb (json_name f) "" && match under t with TPtr _ => false | _ => true end)) && go fs
      end) fs
  | _ => true
  end.
Definition sdk_field (f : fieldinfo * gotype) : Prop :=
  sdk_type f.2 = true ∧ (inlined f.1 = true → json_name f.1 = "" ∧ ∀ elem, under f.2 ≠ TPtr elem).
Lemma sdk_struct fs : sdk_type (TStruct fs) = true ↔ Forall sdk_field fs.
Proof.
  induction fs as [|[f t] fs IH]; [done|]. rewrite Forall_cons, <- IH. unfold sdk_field at 1. cbn [fst snd].
  change (sdk_type t && (negb (inlined f) || (String.eqb (json_name f) "" && match under t with TPtr _ => false | _ => true end)) && sdk_type (TStruct fs) = true ↔
    (sdk_type t = true ∧ (inlined f = true → json_name f = "" ∧ ∀ elem, under t ≠ TPtr elem)) ∧ sdk_type (TStruct fs) = true).
  rewrite !andb_true_iff, orb_true_iff, negb_true_iff, andb_true_iff, String.eqb_eq. destruct (inlined f).
  - destruct (under t); naive_solver.
  - naive_solver.
Qed.
Lemma sdk_under t : sdk_type (under t) = sdk_type t.
Proof. by induction t. Qed.

Section embedded.
Context (seg : string).
Fixpoint embedded (i : nat) (fs : list (fieldinfo * gotype)) (l : list value) : option ref :=
  match fs, l with
  | (f, t) :: fs, v :: l =>
      match (if inlined f then find_in true seg t v else None) with
      | Some r => Some (AField i :: r)
      | None => embedded (S i) fs l
      end
  | _, _ => None
  end.
End embedded.
Lemma find_struct d seg fs l :
  find_in d seg (TStruct fs) (VStruct l) = match direct seg 0 fs with Some r => Some r | None => embedded seg 0 fs l end.
Proof. reflexivity. Qed.

Lemma direct_spec seg i fs r : direct seg i fs = Some r → ∃ k f, r = [AField (i + k)] ∧ fs !! k = Some f ∧ json_name f.1 = seg.
Proof.
  revert i. induction fs as [|[f t] fs IH]; intros i; [done|]. cbn. destruct (String.eqb_spec (json_name f) seg) as [Hf|].
  - intros [= <-]. exists 0, (f, t). by rewrite Nat.add_0_r.
  - intros (k & g & -> & Hk & Hg)%IH. exists (S k), g. by rewrite Nat.add_succ_r.
Qed.
Lemma embedded_spec seg i fs l r : embedded seg i fs l = Some r →
  ∃ k f v r', r = AField (i + k) :: r' ∧ fs !! k = Some f ∧ l !! k = Some v ∧ inlined f.1 = true ∧ find_in true seg f.2 v = Some r'.
Proof.
  revert i l. induction fs as [|[f t] fs IH]; intros i [|v l]; try done. cbn. case_match eqn:Hf.
  - intros [= <-]. destruct (inlined f) eqn:Hi; [|done]. exists 0, (f, t), v. rewrite Nat.add_0_r. eauto 10.
  - intros (k & g & w & r' & -> & Hk & Hg & ? & ?)%IH. exists (S k), g, w, r'. by rewrite Nat.add_succ_r.
Qed.

Lemma find_nonempty d seg t v : find_in d seg t v ≠ Some [].
Proof.
  revert v. induction t as [| |w|w|w|t IH|t IH|k t IHk IH|fs IH|n t IH| |] using gotype_nested_ind; intros v Hr; try (by destruct v).
  - destruct v as [| | | | |[x|]| | | | |], d; try done. cbn in Hr. by apply fmap_Some in Hr as (? & ? & ?).
  - destruct v; try done. rewrite find_struct in Hr. destruct (direct seg 0 fs) eqn:E; simplify_eq.
    + by apply direct_spec in E as (? & ? & ? & ?).
    + by apply embedded_spec in Hr as (? & ? & ? & ? & ? & ?).
  - by apply (IH v).
Qed.

(** A field that is found is a place of the value. *)
Lemma find_place d seg t v r : has_type t v = true → find_in d seg t v = Some r →
  ∃ ft fv, ref_type r t = Some ft ∧ ref_get r v = Some fv ∧ has_type ft fv = true ∧ (sdk_type t = true → sdk_type ft = true).
Proof.
  revert d v r. induction t as [| |w|w|w|t IH|t IH|k t IHk IH|fs IH|n t IH| |] using gotype_nested_ind; intros d v r Hv Hr; try (by destruct v).
  - destruct v as [| | | | |[x|]| | | | |]; try done. destruct d; [|done]. cbn in Hr. apply fmap_Some in Hr as (r' & Hr' & ->). exact (IH _ _ _ Hv Hr').
  - destruct v as [| | | | | | | |l| |]; try done. apply has_type_struct in Hv. rewrite find_struct in Hr.
    destruct (direct seg 0 fs) eqn:Hd; simplify_eq.
    + apply direct_spec in Hd as (k & f & -> & Hk & _). destruct (Forall2_lookup_l _ _ _ _ _ Hv Hk) as (fv & Hfv & Ht).
      exists f.2, fv. cbn. rewrite Hk, Hfv. cbn. split_and!; try done. intros Hs%sdk_struct. by apply (Forall_lookup_1 _ _ _ _ Hs Hk).
    + apply embedded_spec in Hr as (k & f & fv & r' & -> & Hk & Hfv & _ & Hr').
      destruct (Forall2_lookup_l _ _ _ _ _ Hv Hk) as (fv' & Hfv' & Ht). simplify_eq.
      destruct (Forall_lookup_1 _ _ _ _ IH Hk _ _ _ Ht Hr') as (ft & x & Hx & Hg & Hty & Hsdk).
      exists ft, x. cbn. rewrite Hk, Hfv. cbn. split_and!; try done. intros Hs%sdk_struct. by apply Hsdk, (Forall_lookup_1 _ _ _ _ Hs Hk).
  - destruct r as [|a r]; [by apply find_nonempty in Hr|]. exact (IH _ _ _ Hv Hr).
Qed.

Lemma find_static d seg t v : has_type t v = true → sdk_type t = true → (d = true → ∀ elem, under t ≠ TPtr elem) →
  find_in d seg t v = find_in d seg t (Zero t).
Proof.
  revert d v. induction t as [| |w|w|w|t IH|t IH|k t IHk IH|fs IH|n t IH| |] using gotype_nested_ind; intros d v Hv Hs Hd; try (by destruct v).
  - destruct v as [| | | | |[x|]| | | | |]; try done. destruct d; [|done]. by destruct (Hd eq_refl t).
  - destruct v as [| | | | | | | |l| |]; try done. rewrite Zero_struct, !find_struct. apply has_type_struct in Hv. apply sdk_struct in Hs.
    destruct (direct seg 0 fs) eqn:E; [done|]. clear E. generalize 0. revert l Hv.
    induction fs as [|[f t] fs IHfs]; intros [|x l] Hv i; try done; [by inversion Hv|].
    apply Forall_cons in IH as [IHt IH]. apply Forall_cons in Hs as [[Hst Hsi] Hs]. apply Forall2_cons in Hv as [Hx Hv]. cbn in *.
    rewrite IHfs by done. destruct (inlined f); [|done]. by rewrite IHt by naive_solver.
  - by apply IH.
Qed.

Lemma find_apart d seg seg' t v r r' : sdk_type t = true → seg ≠ "" → seg' ≠ "" → seg ≠ seg' →
  find_in d seg t v = Some r → find_in d seg' t v = Some r' → apart r r'.
Proof.
  revert d v r r'. induction t as [| |w|w|w|t IH|t IH|k t IHk IH|fs IH|n t IH| |] using gotype_nested_ind; intros d v r r' Hs H1 H2 Hne Hr Hr';
    try (by destruct v).
  - destruct v as [| | | | |[x|]| | | | |]; try done. destruct d; [|done]. cbn in *. apply fmap_Some in Hr as (q & Hq & ->). apply fmap_Some in Hr' as (q' & Hq' & ->).
    apply apart_cons. by eapply IH.
  - destruct v as [| | | | | | | |l| |]; try done. rewrite find_struct in Hr, Hr'. apply sdk_struct in Hs.
    assert (Hmix : ∀ k f j g, fs !! k = Some f → json_name f.1 ≠ "" → fs !! j = Some g → inlined g.1 = true → k ≠ j).
    { intros k f j g Hk Hf Hj Hg ->. simplify_eq. by destruct (Forall_lookup_1 _ _ _ _ Hs Hk) as [_ [? _]]. }
    destruct (direct seg 0 fs) eqn:E, (direct seg' 0 fs) eqn:E'; simplify_eq;
      [apply direct_spec in E as (k & f & -> & Hk & <-); apply direct_spec in E' as (j & g & -> & Hj & <-); apply apart_head; cbn; intros [= ->]; by simplify_eq
      |apply direct_spec in E as (k & f & -> & Hk & <-); apply embedded_spec in Hr' as (j & g & ? & q & -> & Hj & _ & Hi & _); apply apart_head; cbn; intros [= Ejk]; by destruct (Hmix k f j g)
      |apply embedded_spec in Hr as (j & g & ? & q & -> & Hj & _ & Hi & _); apply direct_spec in E' as (k & f & -> & Hk & <-); apply apart_head; cbn; intros [= Ejk]; by destruct (Hmix k f j g)
      |].
    apply embedded_spec in Hr as (k & f & x & q & -> & Hk & Hx & _ & Hq). apply embedded_spec in Hr' as (j & g & y & q' & -> & Hj & Hy & _ & Hq').
    destruct (decide (k = j)) as [->|]; [|apply apart_head; cbn; by intros [=]]. simplify_eq. apply apart_cons.
    eapply (Forall_lookup_1 _ _ _ _ IH Hk); try done. by apply (Forall_lookup_1 _ _ _ _ Hs Hk).
  - by eapply IH.
Qed.

(** ** Conversions keep types *)
Lemma assignable_typed t u v : AssignableTo t u = true → has_type t v = has_type u v.
Proof.
  unfold AssignableTo. rewrite orb_true_iff, andb_true_iff, !gotype_eqb_eq. intros [->|[_ Hu]]; [done|].
  by rewrite <- (has_type_under t), <- (has_type_under u), Hu.
Qed.

Lemma untagged_typed t v : has_type (untagged t) v = has_type t v.
Proof.
  revert v. induction t as [| |w|w|w|t IH|t IH|k t IHk IH|fs IH|n t IH| |] using gotype_nested_ind; intros v; try done; [..|apply IH]; destruct v; try done; cbn [untagged has_type].
  - destruct p; [apply IH|done].
  - destruct l as [l|]; [|done]. induction l; [done|]. cbn. by rewrite IH, IHl.
  - destruct l as [l|]; [|done]. induction l; [done|]. cbn. by rewrite IH, IHl.
  - revert l. induction IH as [|[f t] fs Ht _ IHfs]; intros [|x l]; try done. cbn in *. by rewrite Ht, IHfs.
Qed.

Lemma untagged_identical t u v : gotype_eqb (untagged t) (untagged u) = true → has_type t v = has_type u v.
Proof. intros Htu%gotype_eqb_eq. by rewrite <- (untagged_typed t), <- (untagged_typed u), Htu. Qed.

Lemma bits_pos w : (1 ≤ bits w - 1)%Z.
Proof. by destruct w. Qed.

Lemma wrap_signed_range w z : (min_signed w ≤ wrap_signed w z ≤ max_signed w)%Z.
Proof.
  unfold wrap_signed. pose proof (bits_pos w). assert (2 ^ bits w = 2 * 2 ^ (bits w - 1))%Z as E.
  { rewrite <- Z.pow_succ_r by lia. f_equal. lia. }
  pose proof (Z.mod_pos_bound (z - min_signed w) (2 ^ bits w)). unfold min_signed, max_signed in *. lia.
Qed.
Lemma wrap_signed_id w z : (min_signed w ≤ z ≤ max_signed w)%Z → wrap_signed w z = z.
Proof.
  intros Hz. unfold wrap_signed. pose proof (bits_pos w). assert (2 ^ bits w = 2 * 2 ^ (bits w - 1))%Z as E.
  { rewrite <- Z.pow_succ_r by lia. f_equal. lia. }
  unfold min_signed, max_signed in *. rewrite Z.mod_small; lia.
Qed.
Lemma wrap_unsigned_range w z : (0 ≤ wrap_unsigned w z ≤ max_unsigned w)%Z.
Proof.
  unfold wrap_unsigned, max_unsigned. pose proof (bits_pos w).
  pose proof (Z.mod_pos_bound z (2 ^ bits w) ltac:(apply Z.pow_pos_nonneg; lia)). lia.
Qed.
Lemma wrap_unsigned_id w z : (0 ≤ z ≤ max_unsigned w)%Z → wrap_unsigned w z = z.
Proof. unfold wrap_unsigned, max_unsigned. intros. apply Z.mod_small. lia. Qed.

Lemma signed_typed w z : has_type (TInt w) (VInt z) = true ↔ (min_signed w ≤ z ≤ max_signed w)%Z.
Proof. cbn. rewrite andb_true_iff, !Z.leb_le. lia. Qed.
Lemma unsigned_typed w z : has_type (TUint w) (VUint z) = true ↔ (0 ≤ z ≤ max_unsigned w)%Z.
Proof. cbn. rewrite andb_true_iff, !Z.leb_le. lia. Qed.

Lemma DecodeRune_range s : s ≠ "" → (-1 ≤ (DecodeRune s).1 ≤ 1114111)%Z.
Proof.
  intros _. unfold DecodeRune, continuation. assert (∀ i, -1 ≤ byte_at s i ≤ 255)%Z as Hb.
  { intros i. unfold byte_at. destruct (String.get i s) as [a|]; [|lia]. pose proof (nat_ascii_bounded a). lia. }
  pose proof (Hb 0). repeat case_match; cbn; repeat match goal with
    | H : (_ && _) = true |- _ => apply andb_true_iff in H as [? ?] | H : (_ <=? _)%Z = true |- _ => apply Z.leb_le in H
    | H : (_ <? _)%Z = true |- _ => apply Z.ltb_lt in H | H : (_ =? _)%Z = true |- _ => apply Z.eqb_eq in H
    | H : (_ =? _)%Z = false |- _ => apply Z.eqb_neq in H end; lia.
Qed.
Lemma runes_typed fuel s : forallb (has_type (TInt W32)) (VInt <$> runes_of fuel s) = true.
Proof.
  revert s. induction fuel as [|fuel IH]; intros s; [done|]. destruct s as [|a s]; [done|]. cbn [runes_of].
  pose proof (DecodeRune_range (String a s) ltac:(done)) as Hr. destruct (DecodeRune (String a s)) as [r w]. cbn [fmap list_fmap forallb].
  rewrite IH, andb_true_r. apply signed_typed. cbn in *. unfold min_signed, max_signed. cbn. lia.
Qed.
Lemma bytes_typed l : forallb (has_type (TUint W8)) ((fun a => VUint (Z.of_N (N_of_ascii a))) <$> l) = true.
Proof.
  induction l as [|a l IH]; [done|]. cbn [fmap list_fmap forallb]. rewrite IH, andb_true_r. apply unsigned_typed.
  pose proof (N_ascii_bounded a). unfold max_unsigned. cbn. lia.
Qed.

Section conversions.
Context `{ReflectEnv}.

Lemma Convert_typed t v u : ConvertibleTo t u = true → has_type t v = true → has_type u (Convert t v u) = true.
Proof.
  rewrite <- (has_type_under t), <- (has_type_under u). unfold ConvertibleTo, Convert. intros Hc Hv.
  assert (Hid : gotype_eqb (untagged (under t)) (untagged (under u)) = true → has_type (under u) v = true) by (intros E; by rewrite <- (untagged_identical _ _ _ E)).
  destruct (under t) as [| |w|w|w|t'|t'|k t'|fs|n t'| |]; destruct (under u) as [| |w'|w'|w'|u'|u'|k' u'|gs|n' u'| |]; try done;
    try (destruct v; try done; cbn [as_int]; try (apply signed_typed, wrap_signed_range); try (apply unsigned_typed, wrap_unsigned_range); try done; by auto).
  { destruct v; try done. destruct u' as [| |[]|[]| | | | | | | |]; try done; [apply (runes_typed (String.length s) s)|apply bytes_typed]. }
  { by destruct t' as [| |[]|[]| | | | | | | |]. }
  all: destruct t' as [| |[]|[]| | | | | | | |]; exact (Hid Hc).
Qed.

(** What unmarshalling into a type yields, and the range of a duration. *)
Class ReflectLaws := {
  json_typed s t v : json_Unmarshal s t = Some v → has_type t v = true;
  duration_bounds s d : ParseDuration s = Some d → in_int64 d
}.

Definition dyn_typed (x : dynamic) : Prop := has_type (dyn_type x) (dyn_value x) = true.
(** A value converted to a type and assigned to a place of that type. *)
Definition stored (x : option dynamic) (t : gotype) : result cause value := toFieldValue x t ≫= fun converted => Value_Set converted t.
Definition stored_leaf (x : dynamic) (t : gotype) : result cause value := to_leaf x t ≫= fun converted => Value_Set converted t.

Lemma Value_Set_ok x t v : Value_Set x t = Ok v ↔ AssignableTo (dyn_type x) t = true ∧ dyn_value x = v.
Proof. unfold Value_Set. case_match; naive_solver. Qed.
Lemma assignable_refl t : AssignableTo t t = true.
Proof. unfold AssignableTo. by rewrite gotype_eqb_refl. Qed.
Lemma Value_Set_same t v : Value_Set (mkDynamic t v) t = Ok v.
Proof. apply Value_Set_ok. split; [apply assignable_refl|done]. Qed.

(** *** Pointers are wrapped around the converted value *)
Fixpoint bare (t : gotype) : gotype :=
  match t with
  | TPtr t => bare t
  | TNamed _ u => match under u with TPtr _ => bare u | _ => t end
  | t => t
  end.
Fixpoint wrapped (t : gotype) (v : value) : value :=
  match t with TPtr t => VPtr (Some (wrapped t v)) | TNamed _ t => wrapped t v | _ => v end.
Definition is_ptr (t : gotype) : bool := match under t with TPtr _ => true | _ => false end.

Lemma bare_plain t : is_ptr t = false → bare t = t ∧ ∀ v, wrapped t v = v.
Proof.
  unfold is_ptr. induction t as [| | | | | | | | |n t IH| |]; try done. cbn. intros Ht. destruct (IH Ht) as [_ Hw].
  by destruct (under t).
Qed.
Lemma bare_ptr t elem : under t = TPtr elem → bare t = bare elem ∧ ∀ v, wrapped t v = VPtr (Some (wrapped elem v)).
Proof. induction t as [| | | | |t IH| | | |n t IH| |]; try done; cbn; intros Ht; [by simplify_eq|]. rewrite Ht. by apply IH. Qed.
Lemma bare_not_ptr t : is_ptr (bare t) = false.
Proof. unfold is_ptr. induction t as [| | | | |t IH| | | |n t IH| |]; try done. cbn. destruct (under t) eqn:E; cbn; rewrite ?E; done. Qed.

Lemma to_pointer_plain x u t : is_ptr u = false → to_pointer x u t = to_leaf x t.
Proof. unfold is_ptr. induction u; try done. Qed.
Lemma to_pointer_ptr x u t elem : under u = TPtr elem →
  to_pointer x u t = (v ← stored (Some x) elem; Ok (mkDynamic (TPtr elem) (VPtr (Some v)))).
Proof.
  induction u as [| | | | |u IH| | | |n u IH| |]; try done; cbn [under to_pointer]; intros Hu.
  simplify_eq. unfold stored, toFieldValue. cbn. destruct (to_pointer x elem elem) as [y|]; [|done]. cbn. by destruct (Value_Set y elem).
Qed.
Lemma assignable_ptr t elem : under t = TPtr elem → AssignableTo (TPtr elem) t = true.
Proof. intros Ht. unfold AssignableTo. cbn. rewrite Ht, gotype_eqb_refl. apply orb_true_r. Qed.

Lemma stored_plain x t : is_ptr t = false → stored (Some x) t = stored_leaf x t.
Proof. intros Ht. unfold stored, toFieldValue. by rewrite to_pointer_plain. Qed.
Lemma stored_ptr x t elem : under t = TPtr elem → stored (Some x) t = (v ← stored (Some x) elem; Ok (VPtr (Some v))).
Proof.
  intros Ht. unfold stored at 1, toFieldValue. rewrite (to_pointer_ptr _ _ _ _ Ht). destruct (stored (Some x) elem); [|done].
  cbn. unfold Value_Set. cbn. by rewrite assignable_ptr.
Qed.
Lemma result_bind_ret {A} (m : result cause A) : (v ← m; Ok v) = m.
Proof. by destruct m. Qed.
Lemma stored_wrapped x t : stored (Some x) t = (v ← stored_leaf x (bare t); Ok (wrapped t v)).
Proof.
  induction t as [| | | | |t IH| | | |n t IH| |]; try (rewrite stored_plain by done; symmetry; apply result_bind_ret).
  - rewrite (stored_ptr x (TPtr t) t) by done; rewrite IH. cbn [bare wrapped]. by destruct (stored_leaf x (bare t)).
  - destruct (is_ptr (TNamed n t)) eqn:Hp.
    + unfold is_ptr in Hp. destruct (under (TNamed n t)) as [| | | | |elem| | | | | |] eqn:Hu; try done. rewrite (stored_ptr _ _ _ Hu).
      destruct (bare_ptr _ _ Hu) as [-> Hw]. cbn in Hu. rewrite (stored_ptr _ _ _ Hu) in IH. destruct (bare_ptr _ _ Hu) as [Hb' Hw'].
      rewrite Hb' in IH. destruct (stored (Some x) elem), (stored_leaf x (bare elem)); cbn in *; try done.
    + clear IH. rewrite stored_plain by done. destruct (bare_plain _ Hp) as [-> Hw]. destruct (stored_leaf _ _); [|done]. cbn. f_equal. symmetry. apply (Hw a).
Qed.

Lemma wrapped_typed t v : has_type (bare t) v = true → has_type t (wrapped t v) = true.
Proof.
  induction t as [| | | | |t IH| | | |n t IH| |]; try done. cbn. intros Hv. destruct (is_ptr t) eqn:Hp.
  - apply IH. unfold is_ptr in Hp. by destruct (under t).
  - destruct (bare_plain _ Hp) as [_ ->]. unfold is_ptr in Hp. by destruct (under t).
Qed.

Lemma to_leaf_typed `{!ReflectLaws} x t y : dyn_typed x → to_leaf x t = Ok y → dyn_typed y.
Proof.
  intros Hx. assert (Hgen : (if AssignableTo (dyn_type x) t then Ok x else if ConvertibleTo (dyn_type x) t then to_convertible x t else to_json x t) = Ok y → dyn_typed y).
  { case_match; [by intros [= <-]|]. case_match eqn:Hc.
    - unfold to_convertible. repeat case_match; try done. intros [= <-]. by apply Convert_typed.
    - unfold to_json. repeat case_match; intros; simplify_eq; try done. by eapply json_typed. }
  unfold to_leaf. destruct t; try (by destruct (string_kind _), (duration_of x); [intros [= <-]|..]; auto).
  - unfold to_time. repeat case_match; by intros [= <-].
  - unfold to_duration. repeat case_match; intros; simplify_eq; try done. apply bool_decide_eq_true. by eapply duration_bounds.
Qed.
Lemma stored_leaf_typed `{!ReflectLaws} x t v : dyn_typed x → stored_leaf x t = Ok v → has_type t v = true.
Proof.
  intros Hx. unfold stored_leaf. intros (y & Hy & [Ha <-]%Value_Set_ok)%result_bind_ok. rewrite <- (assignable_typed _ _ _ Ha). by eapply to_leaf_typed.
Qed.
Lemma stored_typed `{!ReflectLaws} x t v : dyn_typed x → stored (Some x) t = Ok v → has_type t v = true.
Proof.
  intros Hx. rewrite stored_wrapped. intros (y & Hy & [= <-])%result_bind_ok. apply wrapped_typed. by eapply stored_leaf_typed.
Qed.

(** *** Leaves of the basic kinds *)
Lemma to_leaf_plain x b : b ≠ TTime → b ≠ TDuration → (string_kind b = false ∨ duration_of x = None) →
  to_leaf x b = if AssignableTo (dyn_type x) b then Ok x else if ConvertibleTo (dyn_type x) b then to_convertible x b else to_json x b.
Proof. intros H1 H2 H3. unfold to_leaf. destruct b; try done; destruct H3 as [->| ->]; try done; by destruct (string_kind _). Qed.

Lemma store_same b v : b ≠ TTime → (string_kind b = false ∨ duration_of (mkDynamic b v) = None) → stored_leaf (mkDynamic b v) b = Ok v.
Proof.
  intros Ht Hd. unfold stored_leaf. destruct (decide (gotype_eqb b TDuration = true)) as [->%gotype_eqb_eq|Hn].
  - done.
  - rewrite to_leaf_plain; [|done|by intros ->|done]. cbn. rewrite assignable_refl. cbn. apply Value_Set_same.
Qed.

(** A value whose conversion to [b] keeps it. *)
Lemma store_kept t b v : b ≠ TTime → b ≠ TDuration → (string_kind b = false ∨ duration_of (mkDynamic t v) = None) →
  ConvertibleTo t b = true → to_convertible (mkDynamic t v) b = Ok (mkDynamic b v) → stored_leaf (mkDynamic t v) b = Ok v.
Proof.
  intros H1 H2 H3 Hc Hv. unfold stored_leaf. rewrite to_leaf_plain by done. cbn [dyn_type]. destruct (AssignableTo t b) eqn:Ha.
  - cbn. by apply Value_Set_ok.
  - rewrite Hc, Hv. cbn. apply Value_Set_same.
Qed.

Lemma store_string b s : under b = TString → stored_leaf (plain_string s) b = Ok (VString s).
Proof.
  intros Hb. apply store_kept; [by intros ->|by intros ->|by right| |]; unfold ConvertibleTo, to_convertible, string_kind, isNumericKind, isSignedIntKind, isUnsignedIntKind, Convert;
    cbn; by rewrite Hb.
Qed.
Lemma store_bool t b x : under t = TBool → under b = TBool → stored_leaf (mkDynamic t (VBool x)) b = Ok (VBool x).
Proof.
  intros Ht Hb. apply store_kept; [by intros ->|by intros ->|left; unfold string_kind; by rewrite Hb| |];
    unfold ConvertibleTo, to_convertible, string_kind, isNumericKind, isSignedIntKind, isUnsignedIntKind, Convert; cbn; by rewrite Ht, Hb.
Qed.

Lemma range_signed w b z : under b = TInt w → in_int64 z → isValueInRange z b = true ↔ has_type b (VInt z) = true.
Proof.
  intros Hb Hz. rewrite <- (has_type_under b), Hb, signed_typed. unfold isValueInRange, in_int64, min_int64, max_int64, min_signed, max_signed in *.
  rewrite Hb. destruct w; cbn; rewrite ?andb_true_iff, ?Z.leb_le; cbn in *; intuition lia.
Qed.
Lemma range_unsigned w b z : under b = TUint w → in_uint64 z → isValueInRangeUnsigned z b = true ↔ has_type b (VUint z) = true.
Proof.
  intros Hb Hz. rewrite <- (has_type_under b), Hb, unsigned_typed. unfold isValueInRangeUnsigned, in_uint64, max_uint64, max_unsigned in *.
  rewrite Hb. destruct w; cbn; rewrite ?Z.leb_le; cbn in *; intuition lia.
Qed.
Lemma typed_int64 t w z : under t = TInt w → has_type t (VInt z) = true → in_int64 z.
Proof.
  intros Ht. rewrite <- (has_type_under t), Ht, signed_typed. unfold in_int64, min_int64, max_int64, min_signed, max_signed. destruct w; cbn; lia.
Qed.
Lemma typed_uint64 t w z : under t = TUint w → has_type t (VUint z) = true → in_uint64 z.
Proof. intros Ht. rewrite <- (has_type_under t), Ht, unsigned_typed. unfold in_uint64, max_uint64, max_unsigned. destruct w; cbn; lia. Qed.

(** A signed integer is stored as the same integer or refused, and so is an unsigned
    one: it is stored exactly when the type of the place has it. *)
Lemma store_int t b w w' z : under t = TInt w → under b = TInt w' → has_type t (VInt z) = true →
  stored_leaf (mkDynamic t (VInt z)) b = if has_type b (VInt z) then Ok (VInt z) else Err OutOfRange.
Proof.
  intros Ht Hb Hz. pose proof (range_signed _ _ _ Hb (typed_int64 _ _ _ Ht Hz)) as Hr. unfold stored_leaf.
  rewrite to_leaf_plain; [|by intros ->|by intros ->|left; unfold string_kind; by rewrite Hb]. cbn [dyn_type].
  destruct (AssignableTo t b) eqn:Ha.
  - rewrite <- (assignable_typed _ _ _ Ha), Hz. cbn. by apply Value_Set_ok.
  - unfold ConvertibleTo, to_convertible, string_kind, isNumericKind, isSignedIntKind, isUnsignedIntKind, Convert. cbn [dyn_type dyn_value as_int].
    rewrite Ht, Hb. cbn [andb]. destruct (isValueInRange z b) eqn:Hi; cbn [negb].
    + assert (has_type b (VInt z) = true) as E by (by apply Hr). rewrite E. cbn. rewrite wrap_signed_id; [apply Value_Set_same|].
      apply signed_typed. by rewrite <- Hb, has_type_under.
    + destruct (has_type b (VInt z)); [|done]. exfalso. destruct Hr as [_ Hr]. specialize (Hr eq_refl). congruence.
Qed.
Lemma store_uint t b w w' z : under t = TUint w → under b = TUint w' → has_type t (VUint z) = true →
  stored_leaf (mkDynamic t (VUint z)) b = if has_type b (VUint z) then Ok (VUint z) else Err OutOfRange.
Proof.
  intros Ht Hb Hz. pose proof (range_unsigned _ _ _ Hb (typed_uint64 _ _ _ Ht Hz)) as Hr. unfold stored_leaf.
  rewrite to_leaf_plain; [|by intros ->|by intros ->|left; unfold string_kind; by rewrite Hb]. cbn [dyn_type].
  destruct (AssignableTo t b) eqn:Ha.
  - rewrite <- (assignable_typed _ _ _ Ha), Hz. cbn. by apply Value_Set_ok.
  - unfold ConvertibleTo, to_convertible, string_kind, isNumericKind, isSignedIntKind, isUnsignedIntKind, Convert. cbn [dyn_type dyn_value as_int].
    rewrite Ht, Hb. cbn [andb]. destruct (isValueInRangeUnsigned z b) eqn:Hi; cbn [negb].
    + assert (has_type b (VUint z) = true) as E by (by apply Hr). rewrite E. cbn. rewrite wrap_unsigned_id; [apply Value_Set_same|].
      apply unsigned_typed. by rewrite <- Hb, has_type_under.
    + destruct (has_type b (VUint z)); [|done]. exfalso. destruct Hr as [_ Hr]. specialize (Hr eq_refl). congruence.
Qed.

(** *** What a consumer field carries *)
Definition carried (b : gotype) (v : value) : dynamic :=
  match v with
  | VString s => plain_string s
  | VBool _ => mkDynamic TBool v
  | VInt _ => mkDynamic (TInt W64) v
  | VUint _ => mkDynamic (TUint W64) v
  | VFloat _ => mkDynamic (TFloat W64) v
  | _ => mkDynamic b v
  end.
Definition nil_value (v : value) : bool := match v with VSlice None | VMap None => true | _ => false end.

Lemma unwrap_at_plain u t v : is_ptr u = false → unwrap_at u t v = unwrap_plain t v.
Proof. unfold is_ptr. induction u; try done; by destruct v. Qed.
Lemma unwrap_at_ptr u t p elem : under u = TPtr elem →
  unwrap_at u t (VPtr p) = match p with None => None | Some v => match numeric v with Some x => Some x | None => unwrap elem v end end.
Proof. induction u; try done. cbn. by intros [= ->]. Qed.

Lemma unwrap_plain_carried t v x : has_type t v = true → t ≠ TTime → unwrap_plain t v = Some x → x = carried t v ∧ nil_value v = false.
Proof. intros Hv Ht. destruct v as [| | | | | |[[]|]|[[]|]| | |]; cbn; repeat case_match; intros; simplify_eq; done. Qed.
Lemma numeric_carried t v x : has_type t v = true → numeric v = Some x → x = carried t v ∧ nil_value v = false ∧ is_ptr t = false.
Proof.
  intros Hv Hn. assert (is_ptr t = false) as ->; [|by destruct v; cbn in *; simplify_eq].
  unfold is_ptr. rewrite <- has_type_under in Hv. by destruct (under t), v.
Qed.

Lemma unwrap_set t v x : has_type t v = true → bare t ≠ TTime → unwrap t v = Some x →
  ∃ y, v = wrapped t y ∧ has_type (bare t) y = true ∧ x = carried (bare t) y ∧ nil_value y = false.
Proof.
  unfold unwrap. revert v. induction t as [| | | | |t IH| | | |n t IH| |]; intros v Hv Hb Hx;
    try (rewrite unwrap_at_plain in Hx by done; apply unwrap_plain_carried in Hx as [-> Hn]; by eauto).
  - destruct (typed_ptr (TPtr t) t v eq_refl Hv) as [->|(y & -> & Hy)]; [done|]. rewrite (unwrap_at_ptr (TPtr t) _ _ t) in Hx by done.
    destruct (numeric y) as [d|] eqn:Hn.
    + simplify_eq. destruct (numeric_carried _ _ _ Hy Hn) as (-> & Hnil & Hp). destruct (bare_plain _ Hp) as [E Hw]. exists y. cbn. by rewrite E, Hw.
    + destruct (IH _ Hy Hb Hx) as (z & -> & ?). by exists z.
  - destruct (is_ptr t) eqn:Hp.
    + unfold is_ptr in Hp. destruct (under t) as [| | | | |elem| | | | | |] eqn:Hu; try done.
      assert (bare (TNamed n t) = bare t) as E by (cbn; by rewrite Hu). rewrite E in *. apply IH; [done|done|].
      destruct (typed_ptr _ _ _ Hu Hv) as [->|(y & -> & Hy)]; cbn [unwrap_at] in Hx; rewrite (unwrap_at_ptr _ _ _ _ Hu) in Hx; by rewrite (unwrap_at_ptr _ _ _ _ Hu).
    + destruct (bare_plain (TNamed n t) Hp) as [E Hw]. rewrite E in *. cbn [unwrap_at] in Hx. rewrite unwrap_at_plain in Hx by done.
      apply unwrap_plain_carried in Hx as [-> Hn]; [|done|done]. exists v. by rewrite Hw.
Qed.

Lemma fromSDK_at_plain u t v : is_ptr u = false → fromSDKValue_at u t v = from_plain t v.
Proof. unfold is_ptr. induction u; try done; by destruct v. Qed.
Lemma fromSDK_at_ptr u t p elem : under u = TPtr elem → fromSDKValue_at u t (VPtr p) = match p with None => None | Some v => fromSDKValue elem v end.
Proof. induction u; try done. cbn. by intros [= ->]. Qed.
Lemma fromSDK_wrapped t y : fromSDKValue t (wrapped t y) = from_plain (bare t) y.
Proof.
  unfold fromSDKValue. induction t as [| | | | |t IH| | | |n t IH| |]; try (by apply fromSDK_at_plain).
  - exact IH.
  - destruct (is_ptr t) eqn:Hp.
    + unfold is_ptr in Hp. destruct (under t) as [| | | | |elem| | | | | |] eqn:Hu; try done.
      assert (bare (TNamed n t) = bare t) as -> by (cbn; by rewrite Hu). rewrite <- IH. cbn [wrapped fromSDKValue_at].
      destruct (bare_ptr _ _ Hu) as [_ ->]. by rewrite !(fromSDK_at_ptr _ _ _ _ Hu).
    + destruct (bare_plain (TNamed n t) Hp) as [-> ->]. by apply fromSDK_at_plain.
Qed.

(** ** Compatible fields

    The types of a consumer field and of its leaf that keep every value: the same kind of
    string, bool or integer, or one type otherwise; an optional consumer field has an
    optional leaf. *)
Definition compatible_base (b b' : gotype) : bool :=
  match under b, under b' with
  | TString, TString | TBool, TBool | TInt _, TInt _ | TUint _, TUint _ => true
  | TFloat _, _ => gotype_eqb b (TFloat W64) && gotype_eqb b' (TFloat W64)
  | (TSlice _ | TMap _ _ | TStruct _ | TDuration), _ => gotype_eqb b b'
  | _, _ => false
  end.
Definition compatible (ft lt : gotype) : bool := compatible_base (bare ft) (bare lt) && (negb (is_ptr ft) || is_ptr lt).

(** The kinds of compatible types. *)
Lemma compatible_cases b b' : compatible_base b b' = true →
  (under b = TString ∧ under b' = TString) ∨ (under b = TBool ∧ under b' = TBool) ∨
  (∃ w w', under b = TInt w ∧ under b' = TInt w') ∨ (∃ w w', under b = TUint w ∧ under b' = TUint w') ∨
  (b = b' ∧ (b = TFloat W64 ∨ complex_kind b = true ∧ b ≠ TTime)).
Proof.
  unfold compatible_base, complex_kind. destruct (under b) eqn:Hb; try done;
    rewrite ?andb_true_iff, ?gotype_eqb_eq; try (intros Hc; destruct (under b'); by eauto 10);
    [intros [-> ->]; eauto 10|..]; (intros Hc; first [subst b' | assert (b = b') as <- by (by destruct (under b'); apply gotype_eqb_eq)]); right; right; right; right;
    (split; [done|right; split; [done|by intros ->]]).
Qed.

Lemma leaf_back b b' y c : compatible_base b b' = true → has_type b y = true → nil_value y = false → stored_leaf (carried b y) b' = Ok c →
  ∃ z, from_plain b' c = Some z ∧ stored_leaf z b = Ok y.
Proof.
  intros Hc%compatible_cases Hy Hn. rewrite <- has_type_under in Hy.
  destruct Hc as [[Hb Hb']|[[Hb Hb']|[(w & w' & Hb & Hb')|[(w & w' & Hb & Hb')|[<- Hb]]]]].
  - rewrite Hb in Hy. destruct y; try done. cbn [carried]. rewrite store_string by done. intros [= <-]. cbn. eexists. split; [done|]. by apply store_string.
  - rewrite Hb in Hy. destruct y; try done. cbn [carried]. rewrite store_bool by done. intros [= <-]. eexists. split; [done|]. by apply store_bool.
  - pose proof Hy as Hty. rewrite Hb in Hy. rewrite has_type_under in Hty. destruct y; try done. cbn [carried].
    rewrite (store_int _ _ W64 w') by (try done; rewrite signed_typed; apply (typed_int64 b w z Hb Hty)). case_match eqn:Hz; [|done]. intros [= <-].
    eexists. split; [done|]. rewrite (store_int _ _ w' w) by done. by rewrite Hty.
  - pose proof Hy as Hty. rewrite Hb in Hy. rewrite has_type_under in Hty. destruct y; try done. cbn [carried].
    rewrite (store_uint _ _ W64 w') by (try done; rewrite unsigned_typed; apply (typed_uint64 b w z Hb Hty)). case_match eqn:Hz; [|done]. intros [= <-].
    eexists. split; [done|]. rewrite (store_uint _ _ w' w) by done. by rewrite Hty.
  - assert (carried b y = mkDynamic b y) as ->.
    { destruct Hb as [->|[Hk _]]; [by destruct y|]. unfold complex_kind in Hk. by destruct (under b), y. }
    assert (Hd : string_kind b = false) by (destruct Hb as [->|[Hk _]]; [done|unfold complex_kind, string_kind in *; by destruct (under b)]).
    assert (Ht : b ≠ TTime) by (destruct Hb as [->|[_ ?]]; done).
    rewrite store_same by auto. intros [= <-]. exists (mkDynamic b y). split; [|apply store_same; auto].
    destruct Hb as [->|[Hk _]]; [by destruct y|]. unfold complex_kind in Hk. destruct y as [| | | | | |[]|[]| | |]; try done; [by destruct (under b)|by destruct b].
Qed.

(** A set field comes back from its leaf as it was. *)
Lemma field_back ft lt fv x c : compatible ft lt = true → has_type ft fv = true → unwrap ft fv = Some x → stored (Some x) lt = Ok c →
  ∃ z, fromSDKValue lt c = Some z ∧ stored (Some z) ft = Ok fv.
Proof.
  unfold compatible. intros [Hc _]%andb_true_iff Hf Hx. assert (Hb : bare ft ≠ TTime) by (intros E; by rewrite E in Hc).
  destruct (unwrap_set _ _ _ Hf Hb Hx) as (y & -> & Hy & -> & Hn). rewrite stored_wrapped. intros (c' & Hc' & [= <-])%result_bind_ok.
  destruct (leaf_back _ _ _ _ Hc Hy Hn Hc') as (z & Hz & Hs). exists z. rewrite fromSDK_wrapped, Hz, stored_wrapped, Hs. done.
Qed.

(** A leaf that was never set reads as the zero value of the field. *)
Lemma zero_back ft lt z : compatible ft lt = true → fromSDKValue lt (Zero lt) = Some z → stored (Some z) ft = Ok (Zero ft).
Proof.
  unfold compatible. intros [Hc Hp]%andb_true_iff Hz. destruct (is_ptr lt) eqn:Hl.
  { unfold is_ptr in Hl. rewrite <- Zero_under in Hz. unfold fromSDKValue in Hz. destruct (under lt) eqn:Hu; try done.
    cbn [Zero] in Hz. rewrite (fromSDK_at_ptr _ _ _ _ Hu) in Hz. done. }
  assert (is_ptr ft = false) as Hf by (by destruct (is_ptr ft)). destruct (bare_plain _ Hl) as [El _], (bare_plain _ Hf) as [Ef _]. rewrite El, Ef in Hc.
  rewrite stored_plain by done. unfold fromSDKValue in Hz. rewrite fromSDK_at_plain in Hz by done. rewrite <- (Zero_under lt), <- (Zero_under ft) in *.
  apply compatible_cases in Hc as [[Hb Hb']|[[Hb Hb']|[(w & w' & Hb & Hb')|[(w & w' & Hb & Hb')|[<- Hb]]]]].
  - rewrite Hb, Hb' in *. cbn in Hz. simplify_eq. by apply store_string.
  - rewrite Hb, Hb' in *. cbn in Hz. simplify_eq. by apply store_bool.
  - rewrite Hb, Hb' in *. cbn in Hz. simplify_eq. rewrite (store_int _ _ w' w) by (try done; rewrite <- has_type_under, Hb'; by destruct w').
    rewrite <- has_type_under, Hb. by destruct w.
  - rewrite Hb, Hb' in *. cbn in Hz. simplify_eq. rewrite (store_uint _ _ w' w) by (try done; rewrite <- has_type_under, Hb'; by destruct w').
    rewrite <- has_type_under, Hb. by destruct w.
  - assert (Hd : string_kind ft = false) by (destruct Hb as [->|[Hk _]]; [done|unfold complex_kind, string_kind in *; by destruct (under ft)]).
    assert (z = mkDynamic ft (Zero (under ft))) as ->.
    { destruct Hb as [->|[Hk Ht]]; [cbn in Hz; by simplify_eq|]. unfold complex_kind in Hk. destruct (under ft) eqn:Hu; try done; cbn in Hz; simplify_eq; try done.
      destruct ft; try done; cbn in Hz; by simplify_eq. }
    apply store_same; [by destruct Hb as [->|[_ ?]]|by left].
Qed.
End conversions.

(** ** Paths *)
Section paths.
Context `{ReflectLaws}.

(** One segment of a path in a typed value. *)
Record entered (t : gotype) (v : value) (seg : string) (r : ref) (ft : gotype) (fv : value) : Prop := {
  entered_find : findField t v seg = Some r;
  entered_type : ref_type r t = Some ft;
  entered_get : ref_get r v = Some fv;
  entered_typed : has_type ft fv = true;
  entered_sdk : sdk_type ft = true
}.

Lemma enter t v seg : has_type t v = true → sdk_type t = true →
  findField t v seg = None ∨ ∃ r ft fv, entered t v seg r ft fv.
Proof.
  intros Hv Hs. destruct (findField t v seg) as [r|] eqn:Hr; [right|by left].
  destruct (find_place _ _ _ _ _ Hv Hr) as (ft & fv & ? & ? & ? & ?). exists r, ft, fv. split; auto.
Qed.

Lemma findField_static t v seg : has_type t v = true → sdk_type t = true → findField t v seg = findField t (Zero t) seg.
Proof. intros. by apply find_static. Qed.

Section step.
Context {t v seg r ft fv} (E : entered t v seg r ft fv).

Lemma set_leaf x : setAtPath t v [seg] x = match stored x ft with Err e => (v, Some e) | Ok y => (ref_set r y v, None) end.
Proof. cbn. by rewrite (entered_find _ _ _ _ _ _ E), (entered_type _ _ _ _ _ _ E), (entered_get _ _ _ _ _ _ E). Qed.
Lemma get_leaf : getAtPath t v [seg] = Ok (fromSDKValue ft fv).
Proof. cbn. by rewrite (entered_find _ _ _ _ _ _ E), (entered_type _ _ _ _ _ _ E), (entered_get _ _ _ _ _ _ E). Qed.
Lemma type_leaf : typeAtPath t v [seg] = Ok ft.
Proof. cbn. by rewrite (entered_find _ _ _ _ _ _ E), (entered_type _ _ _ _ _ _ E), (entered_get _ _ _ _ _ _ E). Qed.

Context {p : list string} (Hp : p ≠ []).
Lemma set_pointer elem o x : under ft = TPtr elem → fv = VPtr o →
  setAtPath t v (seg :: p) x = let '(y, e) := setAtPath elem (default (Zero elem) o) p x in (ref_set r (VPtr (Some y)) v, e).
Proof.
  intros Hu ->. cbn [setAtPath]. rewrite (entered_find _ _ _ _ _ _ E), (entered_type _ _ _ _ _ _ E), (entered_get _ _ _ _ _ _ E), Hu. by destruct p.
Qed.
Lemma set_struct x : is_ptr ft = false → setAtPath t v (seg :: p) x = let '(y, e) := setAtPath ft fv p x in (ref_set r y v, e).
Proof.
  unfold is_ptr. intros Hu. cbn [setAtPath]. rewrite (entered_find _ _ _ _ _ _ E), (entered_type _ _ _ _ _ _ E), (entered_get _ _ _ _ _ _ E).
  destruct p; [done|]. by destruct (under ft).
Qed.
Lemma get_pointer elem o : under ft = TPtr elem → fv = VPtr o →
  getAtPath t v (seg :: p) = match o with None => Ok None | Some y => getAtPath elem y p end.
Proof.
  intros Hu ->. cbn [getAtPath]. rewrite (entered_find _ _ _ _ _ _ E), (entered_type _ _ _ _ _ _ E), (entered_get _ _ _ _ _ _ E), Hu. by destruct p, o.
Qed.
Lemma get_struct : is_ptr ft = false → getAtPath t v (seg :: p) = getAtPath ft fv p.
Proof.
  unfold is_ptr. intros Hu. cbn [getAtPath]. rewrite (entered_find _ _ _ _ _ _ E), (entered_type _ _ _ _ _ _ E), (entered_get _ _ _ _ _ _ E).
  destruct p; [done|]. by destruct (under ft).
Qed.
Lemma type_pointer elem : under ft = TPtr elem → typeAtPath t v (seg :: p) = typeAtPath elem (Zero elem) p.
Proof.
  intros Hu. cbn [typeAtPath]. rewrite (entered_find _ _ _ _ _ _ E), (entered_type _ _ _ _ _ _ E), (entered_get _ _ _ _ _ _ E), Hu. by destruct p.
Qed.
Lemma type_struct : is_ptr ft = false → typeAtPath t v (seg :: p) = typeAtPath ft fv p.
Proof.
  unfold is_ptr. intros Hu. cbn [typeAtPath]. rewrite (entered_find _ _ _ _ _ _ E), (entered_type _ _ _ _ _ _ E), (entered_get _ _ _ _ _ _ E).
  destruct p; [done|]. by destruct (under ft).
Qed.

(** Replacing the field. *)
Lemma enter_set y : has_type t v = true → sdk_type t = true → has_type ft y = true →
  has_type t (ref_set r y v) = true ∧ entered t (ref_set r y v) seg r ft y.
Proof.
  intros Hv Hs Hy. assert (has_type t (ref_set r y v) = true) as Hv' by exact (ref_set_typed _ _ _ _ _ Hv (entered_type _ _ _ _ _ _ E) Hy).
  split; [done|]. split; [|exact (entered_type _ _ _ _ _ _ E)|exact (ref_get_set _ _ _ _ (entered_get _ _ _ _ _ _ E))|done|exact (entered_sdk _ _ _ _ _ _ E)].
  rewrite findField_static by done. rewrite <- (findField_static t v) by done. exact (entered_find _ _ _ _ _ _ E).
Qed.
End step.

(** What follows a segment: a pointer with the value it stands for, or the field. *)
Lemma field_cases t v : has_type t v = true → sdk_type t = true →
  is_ptr t = false ∨ ∃ elem o, under t = TPtr elem ∧ v = VPtr o ∧ has_type elem (default (Zero elem) o) = true ∧ sdk_type elem = true.
Proof.
  intros Hv Hs. unfold is_ptr. destruct (under t) as [| | | | |elem| | | | | |] eqn:Hu; auto. right. rewrite <- sdk_under, Hu in Hs.
  destruct (typed_ptr _ _ _ Hu Hv) as [->|(y & -> & Hy)]; eexists elem, _; (split_and!; [done|done| |done]); [apply Zero_typed|done].
Qed.
Lemma pointer_typed t elem y : under t = TPtr elem → has_type elem y = true → has_type t (VPtr (Some y)) = true.
Proof. intros Hu Hy. by rewrite <- has_type_under, Hu. Qed.

Lemma typeAt_static t v segs : has_type t v = true → sdk_type t = true → typeAtPath t v segs = typeAtPath t (Zero t) segs.
Proof.
  revert t v. induction segs as [|s p IH]; intros t v Hv Hs; [done|]. pose proof (findField_static t v s Hv Hs) as Hf.
  destruct (enter t v s Hv Hs) as [Hn|(r & ft & fv & E)]; [cbn; by rewrite <- Hf, Hn|].
  destruct (enter t (Zero t) s (Zero_typed t) Hs) as [Hn|(r' & ft' & fv' & E')]; [rewrite <- Hf in Hn; by rewrite (entered_find _ _ _ _ _ _ E) in Hn|].
  pose proof (entered_find _ _ _ _ _ _ E) as H1. pose proof (entered_find _ _ _ _ _ _ E') as H2. rewrite <- Hf, H1 in H2. injection H2 as <-.
  pose proof (entered_type _ _ _ _ _ _ E) as H1'. rewrite (entered_type _ _ _ _ _ _ E') in H1'. injection H1' as ->.
  destruct (decide (p = [])) as [->|Hp]; [by rewrite (type_leaf E), (type_leaf E')|].
  destruct (field_cases _ _ (entered_typed _ _ _ _ _ _ E) (entered_sdk _ _ _ _ _ _ E)) as [Hn|(elem & o & Hu & _)].
  - rewrite (type_struct E Hp Hn), (type_struct E' Hp Hn). rewrite IH; [|by apply E..]. symmetry. apply IH; by apply E'.
  - by rewrite (type_pointer E Hp _ Hu), (type_pointer E' Hp _ Hu).
Qed.

(** Setting the leaf of a path: the converted value is then read there, and a conversion
    that fails is the error. *)
Lemma set_spec t v segs lt x : has_type t v = true → sdk_type t = true → typeAtPath t v segs = Ok lt → dyn_typed x →
  ∃ v' e, setAtPath t v segs (Some x) = (v', e) ∧ has_type t v' = true ∧
    match stored (Some x) lt with Ok c => e = None ∧ getAtPath t v' segs = Ok (fromSDKValue lt c) | Err err => e = Some err end.
Proof.
  revert t v. induction segs as [|s p IH]; intros t v Hv Hs Ht Hx; [done|].
  destruct (enter t v s Hv Hs) as [Hn|(r & ft & fv & E)]; [cbn in Ht; by rewrite Hn in Ht|].
  destruct (decide (p = [])) as [->|Hp].
  { rewrite (type_leaf E) in Ht. injection Ht as ->. rewrite (set_leaf E). destruct (stored (Some x) lt) as [c|err] eqn:Hc.
    - destruct (enter_set E c Hv Hs (stored_typed _ _ _ Hx Hc)) as [Hv' E']. eexists _, None. split_and!; [done|done|done|exact (get_leaf E')].
    - by eexists _, _. }
  destruct (field_cases _ _ (entered_typed _ _ _ _ _ _ E) (entered_sdk _ _ _ _ _ _ E)) as [Hn|(elem & o & Hu & Ho & Hz & Hse)].
  - rewrite (type_struct E Hp Hn) in Ht. rewrite (set_struct E Hp _ Hn).
    destruct (IH _ _ (entered_typed _ _ _ _ _ _ E) (entered_sdk _ _ _ _ _ _ E) Ht Hx) as (y & e & -> & Hy & Hc).
    destruct (enter_set E y Hv Hs Hy) as [Hv' E']. exists (ref_set r y v), e. by rewrite (get_struct E' Hp Hn).
  - rewrite (type_pointer E Hp _ Hu), <- (typeAt_static _ (default (Zero elem) o)) in Ht by done. rewrite (set_pointer E Hp _ _ _ Hu Ho).
    destruct (IH _ _ Hz Hse Ht Hx) as (y & e & -> & Hy & Hc).
    destruct (enter_set E _ Hv Hs (pointer_typed _ _ _ Hu Hy)) as [Hv' E']. exists (ref_set r (VPtr (Some y)) v), e. by rewrite (get_pointer E' Hp _ _ Hu eq_refl).
Qed.

(** A path that names no leaf fails, also after allocations on its way. *)
Lemma set_missing t v segs err x : has_type t v = true → sdk_type t = true → segs ≠ [] → typeAtPath t v segs = Err err →
  ∃ v', setAtPath t v segs x = (v', Some err) ∧ has_type t v' = true.
Proof.
  revert t v. induction segs as [|s p IH]; intros t v Hv Hs Hne Ht; [done|].
  destruct (enter t v s Hv Hs) as [Hn|(r & ft & fv & E)]; [cbn in *; rewrite Hn in *; simplify_eq; eauto|].
  destruct (decide (p = [])) as [->|Hp]; [by rewrite (type_leaf E) in Ht|].
  destruct (field_cases _ _ (entered_typed _ _ _ _ _ _ E) (entered_sdk _ _ _ _ _ _ E)) as [Hn|(elem & o & Hu & Ho & Hz & Hse)].
  - rewrite (type_struct E Hp Hn) in Ht. rewrite (set_struct E Hp _ Hn).
    destruct (IH _ _ (entered_typed _ _ _ _ _ _ E) (entered_sdk _ _ _ _ _ _ E) Hp Ht) as (y & -> & Hy).
    destruct (enter_set E y Hv Hs Hy) as [Hv' E']. eauto.
  - rewrite (type_pointer E Hp _ Hu), <- (typeAt_static _ (default (Zero elem) o)) in Ht by done. rewrite (set_pointer E Hp _ _ _ Hu Ho).
    destruct (IH _ _ Hz Hse Hp Ht) as (y & -> & Hy). destruct (enter_set E _ Hv Hs (pointer_typed _ _ _ Hu Hy)) as [Hv' E']. eauto.
Qed.

(** Reading a path that exists never fails. *)
Lemma get_exists t v segs lt : has_type t v = true → sdk_type t = true → typeAtPath t v segs = Ok lt → ∃ z, getAtPath t v segs = Ok z.
Proof.
  revert t v. induction segs as [|s p IH]; intros t v Hv Hs Ht; [done|].
  destruct (enter t v s Hv Hs) as [Hn|(r & ft & fv & E)]; [cbn in Ht; by rewrite Hn in Ht|].
  destruct (decide (p = [])) as [->|Hp]; [rewrite (get_leaf E); eauto|].
  destruct (field_cases _ _ (entered_typed _ _ _ _ _ _ E) (entered_sdk _ _ _ _ _ _ E)) as [Hn|(elem & o & Hu & Ho & Hz & Hse)].
  - rewrite (type_struct E Hp Hn) in Ht. rewrite (get_struct E Hp Hn). by apply IH; [apply E..|].
  - rewrite (type_pointer E Hp _ Hu) in Ht. rewrite (get_pointer E Hp _ _ Hu Ho). destruct o as [y|]; [|eauto]. cbn in Hz.
    apply IH; [done..|]. by rewrite typeAt_static.
Qed.

(** A leaf nobody set: absent, or the zero of its type. *)
Definition unset (t : gotype) (v : value) (segs : list string) (lt : gotype) : Prop :=
  getAtPath t v segs = Ok None ∨ getAtPath t v segs = Ok (fromSDKValue lt (Zero lt)).

Lemma ref_get_Zero r t ft fv : ref_type r t = Some ft → ref_get r (Zero t) = Some fv → fv = Zero ft.
Proof.
  revert t. induction r as [|[i|] r IH]; intros t Ht Hg; cbn in Ht, Hg; rewrite <- (Zero_under t) in Hg.
  - simplify_eq. apply Zero_under.
  - destruct (under t) as [| | | | | | | |fs| | |]; try done. rewrite Zero_struct in Hg. apply bind_Some in Ht as (f & Hf & Ht).
    apply bind_Some in Hg as (y & Hy & Hg). rewrite list_lookup_fmap, Hf in Hy. cbn in Hy. simplify_eq. by eapply IH.
  - by destruct (under t).
Qed.
Lemma entered_zero t s r ft fv : entered t (Zero t) s r ft fv → fv = Zero ft.
Proof. intros E. eapply ref_get_Zero; apply E. Qed.

Lemma zero_unset t segs lt : sdk_type t = true → typeAtPath t (Zero t) segs = Ok lt → unset t (Zero t) segs lt.
Proof.
  unfold unset. revert t. induction segs as [|s p IH]; intros t Hs Ht; [done|].
  destruct (enter t (Zero t) s (Zero_typed t) Hs) as [Hn|(r & ft & fv & E)]; [cbn in Ht; by rewrite Hn in Ht|].
  pose proof (entered_zero _ _ _ _ _ E) as ->. destruct (decide (p = [])) as [->|Hp]; [rewrite (type_leaf E) in Ht; simplify_eq; right; exact (get_leaf E)|].
  destruct (field_cases _ _ (entered_typed _ _ _ _ _ _ E) (entered_sdk _ _ _ _ _ _ E)) as [Hn|(elem & o & Hu & Ho & _)].
  - rewrite (type_struct E Hp Hn) in Ht. rewrite (get_struct E Hp Hn). apply IH; [by apply E|done].
  - rewrite (get_pointer E Hp _ _ Hu Ho). rewrite <- Zero_under, Hu in Ho. injection Ho as <-. by left.
Qed.

Lemma set_typed t v segs x v' e : has_type t v = true → sdk_type t = true → dyn_typed x → setAtPath t v segs (Some x) = (v', e) → has_type t v' = true.
Proof.
  intros Hv Hs Hx E. destruct (decide (segs = [])) as [->|Hne]; [by injection E as <- <-|]. destruct (typeAtPath t v segs) as [lt|err] eqn:Ht.
  - destruct (set_spec _ _ _ _ _ Hv Hs Ht Hx) as (? & ? & E' & ? & _). rewrite E in E'. by simplify_eq.
  - destruct (set_missing _ _ _ _ (Some x) Hv Hs Hne Ht) as (? & E' & ?). rewrite E in E'. by simplify_eq.
Qed.

(** Paths of which neither goes through the other. *)
Definition disjoint_paths (p q : list string) : Prop := ¬ p `prefix_of` q ∧ ¬ q `prefix_of` p.
Lemma disjoint_cons s p q : disjoint_paths (s :: p) (s :: q) ↔ disjoint_paths p q.
Proof. unfold disjoint_paths. split; (intros [H1 H2]; split; intros Hp; [apply H1|apply H2]); [by apply prefix_cons..|by apply prefix_cons_inv_2 in Hp|by apply prefix_cons_inv_2 in Hp]. Qed.

(** Setting one leaf leaves the others: what was absent may now be a fresh zero. *)
Lemma set_frame t v segs q x v' e lt : has_type t v = true → sdk_type t = true → dyn_typed x → Forall (.≠ "") segs → Forall (.≠ "") q →
  disjoint_paths segs q → setAtPath t v segs (Some x) = (v', e) → typeAtPath t v q = Ok lt →
  getAtPath t v' q = getAtPath t v q ∨ getAtPath t v q = Ok None ∧ unset t v' q lt.
Proof.
  revert t v q v'. induction segs as [|s p IH]; intros t v q v' Hv Hs Hx Hne Hneq Hd Hset Hq; [by destruct Hd as [[] _]; apply prefix_nil|].
  destruct q as [|s' q]; [by destruct Hd as [_ []]; apply prefix_nil|]. pose proof (set_typed _ _ _ _ _ _ Hv Hs Hx Hset) as Hv'.
  destruct (enter t v s Hv Hs) as [Hn|(r & ft & fv & E)]; [cbn in Hset; rewrite Hn in Hset; simplify_eq; by left|].
  destruct (enter t v s' Hv Hs) as [Hn|(r' & ft' & fv' & E')]; [cbn in Hq; by rewrite Hn in Hq|].
  apply Forall_cons in Hne as [Hs1 Hne]. apply Forall_cons in Hneq as [Hs2 Hneq].
  destruct (decide (s = s')) as [<-|Hss].
  - apply disjoint_cons in Hd. assert (Hp : p ≠ []) by (intros ->; destruct Hd as [[] _]; apply prefix_nil).
    assert (Hq' : q ≠ []) by (intros ->; destruct Hd as [_ []]; apply prefix_nil). clear E'.
    destruct (field_cases _ _ (entered_typed _ _ _ _ _ _ E) (entered_sdk _ _ _ _ _ _ E)) as [Hn|(elem & o & Hu & Ho & Hz & Hse)].
    + rewrite (set_struct E Hp _ Hn) in Hset. destruct (setAtPath ft fv p (Some x)) as [y e'] eqn:Hy. injection Hset as <- <-.
      pose proof (set_typed _ _ _ _ _ _ (entered_typed _ _ _ _ _ _ E) (entered_sdk _ _ _ _ _ _ E) Hx Hy) as Hyt.
      destruct (enter_set E y Hv Hs Hyt) as [_ E']. unfold unset. rewrite (get_struct E Hq' Hn), (get_struct E' Hq' Hn).
      rewrite (type_struct E Hq' Hn) in Hq. by eapply IH; [apply E|apply E|..].
    + rewrite (set_pointer E Hp _ _ _ Hu Ho) in Hset. destruct (setAtPath elem _ p (Some x)) as [y e'] eqn:Hy. injection Hset as <- <-.
      pose proof (set_typed _ _ _ _ _ _ Hz Hse Hx Hy) as Hyt. destruct (enter_set E _ Hv Hs (pointer_typed _ _ _ Hu Hyt)) as [_ E'].
      unfold unset. rewrite (get_pointer E Hq' _ _ Hu Ho), (get_pointer E' Hq' _ _ Hu eq_refl). rewrite (type_pointer E Hq' _ Hu) in Hq.
      destruct o as [w|]; [apply (IH elem w q y); try done; by rewrite typeAt_static|]. right. split; [done|].
      destruct (IH elem (Zero elem) q y) as [->|[_ Hun]]; try done. by apply zero_unset.
  - left. assert (v' = v ∨ ∃ y, v' = ref_set r y v) as [->|[y ->]]; [|done|].
    { destruct (decide (p = [])) as [->|Hp]; [rewrite (set_leaf E) in Hset; destruct (stored _ _); simplify_eq; eauto|].
      destruct (field_cases _ _ (entered_typed _ _ _ _ _ _ E) (entered_sdk _ _ _ _ _ _ E)) as [Hn|(elem & o & Hu & Ho & _)];
        [rewrite (set_struct E Hp _ Hn) in Hset|rewrite (set_pointer E Hp _ _ _ Hu Ho) in Hset]; destruct (setAtPath _ _ p _); simplify_eq; eauto. }
    pose proof (find_apart _ _ _ _ _ _ _ Hs Hs1 Hs2 Hss (entered_find _ _ _ _ _ _ E) (entered_find _ _ _ _ _ _ E')) as Hap.
    cbn. pose proof (findField_static _ _ s' Hv' Hs) as ->. rewrite <- (findField_static _ v s') by done.
    by rewrite (entered_find _ _ _ _ _ _ E'), (entered_type _ _ _ _ _ _ E'), (ref_get_apart _ _ _ _ Hap), (entered_get _ _ _ _ _ _ E').
Qed.

(** ** The tagged fields of a consumer struct, in the order of the walks *)
Definition binding : Type := list string * gotype * value.

Fixpoint tagged (t : gotype) (v : value) : list binding :=
  match t, v with
  | TNamed _ t, v => tagged t v
  | TPtr t, VPtr (Some v) => tagged t v
  | TStruct fs, VStruct l =>
      (fix go fs l := match fs, l with
       | (f, ft) :: fs, fv :: l =>
           ((if String.eqb (f_hfsdk f) "" then tagged ft fv else if String.eqb (f_hfsdk f) "-" then [] else [(Split (f_hfsdk f) ".", ft, fv)]) ++ go fs l)%list
       | _, _ => []
       end) fs l
  | _, _ => []
  end.

Fixpoint expand_all (dt : gotype) (dv : value) (l : list binding) : value * option cause :=
  match l with
  | [] => (dv, None)
  | (p, ft, fv) :: l =>
      match unwrap ft fv with
      | None => expand_all dt dv l
      | Some x => match setAtPath dt dv p (Some x) with (dv, None) => expand_all dt dv l | r => r end
      end
  end.
Lemma expand_all_app dt dv l l' : expand_all dt dv (l ++ l')%list =
  match expand_all dt dv l with (dv, None) => expand_all dt dv l' | r => r end.
Proof.
  revert dv. induction l as [|[[p ft] fv] l IH]; intros dv; [done|]. cbn. destruct (unwrap ft fv); [|by apply IH].
  destruct (setAtPath _ _ _ _) as [dv' [e|]]; [done|by apply IH].
Qed.

Lemma expand_tagged t v dt dv : expandStruct t v dt dv = expand_all dt dv (tagged t v).
Proof.
  revert v dv. induction t as [| |w|w|w|t IH|t IH|k t IHk IH|fs IH|n t IH| |] using gotype_nested_ind; intros v dv; try done; try by destruct v.
  - destruct v as [| | | | |[y|]| | | | |]; try done. apply IH.
  - destruct v as [| | | | | | | |l| |]; try done. revert l dv. induction IH as [|[f ft] fs Ht _ IHfs]; intros [|fv l] dv; try done.
    cbn [expandStruct tagged] in *. rewrite expand_all_app. cbn [snd] in Ht. destruct (String.eqb (f_hfsdk f) "").
    + rewrite Ht. destruct (expand_all dt dv (tagged ft fv)) as [dv' [e|]]; [done|apply IHfs].
    + destruct (String.eqb (f_hfsdk f) "-"); [apply IHfs|]. cbn [expand_all]. destruct (unwrap ft fv) as [x|]; [|apply IHfs].
      destruct (setAtPath _ _ _ _) as [dv' [e|]]; [done|apply IHfs].
  - apply IH.
Qed.

Definition flat_leaf (st : gotype) (sv : value) (b : binding) : result cause value :=
  match getAtPath st sv b.1.1 with Err e => Err e | Ok None => Ok b.2 | Ok (Some z) => stored (Some z) b.1.2 end.
(** A field after [Flatten]. *)
Definition flattened (st : gotype) (sv : value) (b b' : binding) : Prop := b'.1 = b.1 ∧ flat_leaf st sv b = Ok b'.2.

(** One field of the walk. *)
Definition flat_field (st : gotype) (sv : value) (f : fieldinfo) (ft : gotype) (fv : value) : value * option cause :=
  if String.eqb (f_hfsdk f) "" then flattenStruct st sv ft fv
  else if String.eqb (f_hfsdk f) "-" then (fv, None)
  else match getAtPath st sv (Split (f_hfsdk f) ".") with
       | Err e => (fv, Some e)
       | Ok None => (fv, None)
       | Ok (Some x) => match stored (Some x) ft with Err e => (fv, Some e) | Ok fv => (fv, None) end
       end.
Definition field_bindings (f : fieldinfo) (ft : gotype) (fv : value) : list binding :=
  if String.eqb (f_hfsdk f) "" then tagged ft fv else if String.eqb (f_hfsdk f) "-" then [] else [(Split (f_hfsdk f) ".", ft, fv)].

Lemma flatten_cons st sv f ft fs fv l fv' l' : flat_field st sv f ft fv = (fv', None) →
  flattenStruct st sv (TStruct fs) (VStruct l) = (VStruct l', None) →
  flattenStruct st sv (TStruct ((f, ft) :: fs)) (VStruct (fv :: l)) = (VStruct (fv' :: l'), None).
Proof.
  unfold flat_field, stored. intros Hf Hl. cbn [flattenStruct] in *. rewrite Hf. clear Hf.
  match type of Hl with context [let '(_, _) := ?g fs l in _] => destruct (g fs l) as [l1 e1] end. by simplify_eq.
Qed.

Lemma flat_field_tagged st sv f ft fv bs :
  (∀ v bs, Forall2 (flattened st sv) (tagged ft v) bs → ∃ v', flattenStruct st sv ft v = (v', None) ∧ tagged ft v' = bs) →
  Forall2 (flattened st sv) (field_bindings f ft fv) bs → ∃ fv', flat_field st sv f ft fv = (fv', None) ∧ field_bindings f ft fv' = bs.
Proof.
  unfold flat_field, field_bindings. intros Ht Hbs. destruct (String.eqb (f_hfsdk f) ""); [by apply Ht|].
  destruct (String.eqb (f_hfsdk f) "-"); [apply Forall2_nil_inv_l in Hbs as ->; by exists fv|].
  apply Forall2_cons_inv_l in Hbs as ([[p ft'] fv'] & b3 & [[= -> ->] Hl] & ->%Forall2_nil_inv_l & ->). unfold flat_leaf in Hl. cbn [fst snd] in Hl.
  exists fv'. destruct (getAtPath _ _ _) as [[x|]|]; simplify_eq; [by rewrite Hl|done].
Qed.

Lemma flatten_none st sv t v bs : tagged t v = [] → flattenStruct st sv t v = (v, None) → Forall2 (flattened st sv) (tagged t v) bs →
  ∃ v', flattenStruct st sv t v = (v', None) ∧ tagged t v' = bs.
Proof. intros Ht Hv. rewrite Ht. intros ->%Forall2_nil_inv_l. eauto. Qed.

Lemma flatten_tagged st sv t v bs : Forall2 (flattened st sv) (tagged t v) bs →
  ∃ v', flattenStruct st sv t v = (v', None) ∧ tagged t v' = bs.
Proof.
  revert v bs. induction t as [| |w|w|w|t IH|t IH|k t IHk IH|fs IH|n t IH| |] using gotype_nested_ind; intros v bs Hbs;
    try (apply flatten_none; [by destruct v|by destruct v|done]).
  - destruct v as [| | | | |[y|]| | | | |]; try by apply flatten_none.
    destruct (IH y bs Hbs) as (y' & Hy & Ht). exists (VPtr (Some y')). cbn. by rewrite Hy.
  - destruct v as [| | | | | | | |l| |]; try by apply flatten_none.
    enough (∃ l', flattenStruct st sv (TStruct fs) (VStruct l) = (VStruct l', None) ∧ tagged (TStruct fs) (VStruct l') = bs) by naive_solver.
    revert l bs Hbs. induction IH as [|[f ft] fs Ht _ IHfs]; intros [|fv l] bs Hbs;
      try (apply Forall2_nil_inv_l in Hbs as ->; eexists; by split).
    apply (Forall2_app_inv_l _ (field_bindings f ft fv) (tagged (TStruct fs) (VStruct l))) in Hbs as (b1 & b2 & H1 & H2 & ->).
    destruct (IHfs l b2 H2) as (l' & Hl & <-). apply flat_field_tagged in H1 as (fv' & Hf & <-); [|exact Ht].
    exists (fv' :: l'). split; [by apply flatten_cons|done].
  - by apply IH.
Qed.

Lemma tagged_typed t v : has_type t v = true → Forall (fun b => has_type b.1.2 b.2 = true) (tagged t v).
Proof.
  revert v. induction t as [| |w|w|w|t IH|t IH|k t IHk IH|fs IH|n t IH| |] using gotype_nested_ind; intros v Hv; try by destruct v.
  - destruct v as [| | | | |[y|]| | | | |]; try done. by apply IH.
  - destruct v as [| | | | | | | |l| |]; try done. revert l Hv. induction IH as [|[f ft] fs Ht _ IHfs]; intros [|fv l] Hv; try done.
    apply has_type_struct, Forall2_cons in Hv as [Hf Hl]. apply has_type_struct in Hl.
    change (tagged (TStruct ((f, ft) :: fs)) (VStruct (fv :: l))) with (field_bindings f ft fv ++ tagged (TStruct fs) (VStruct l))%list.
    apply Forall_app. split; [|by apply IHfs]. unfold field_bindings. repeat case_match; [by apply Ht|done|]. by repeat constructor.
  - by apply IH.
Qed.

(** ** The round trip *)
Fixpoint pairwise (l : list (list string)) : bool :=
  match l with
  | [] => true
  | p :: l => forallb (fun q => negb (bool_decide (p `prefix_of` q)) && negb (bool_decide (q `prefix_of` p))) l && pairwise l
  end.
Definition paths_of (l : list binding) : list (list string) := (fun b => b.1.1) <$> l.
Definition leaf_of (st : gotype) (p : list string) : result cause gotype := typeAtPath st (Zero st) p.

(** The bindings of a consumer struct fit an SDK type: every path names a leaf of a
    compatible type and no path goes through another. *)
Definition bound (st : gotype) (l : list binding) : bool :=
  forallb (fun b => forallb (fun s => negb (String.eqb s "")) b.1.1 &&
                    match leaf_of st b.1.1 with Ok lt => compatible b.1.2 lt | Err _ => false end) l &&
  pairwise (paths_of l).

(** The field of a struct that was never written, and the form in which a field comes
    back: a pointer to an absent value is nil, an empty collection too. *)
Definition blank (b : binding) : binding := (b.1, Zero b.1.2).
Definition normal (b : binding) : binding := (b.1, match unwrap b.1.2 b.2 with None => Zero b.1.2 | Some _ => b.2 end).
(** The conversion of a field to its leaf. *)
Definition leaf_value (st : gotype) (b : binding) : result cause (option value) :=
  match leaf_of st b.1.1, unwrap b.1.2 b.2 with
  | Ok lt, Some x => v ← stored (Some x) lt; Ok (Some v)
  | Ok _, None => Ok None
  | Err e, _ => Err e
  end.

Definition well_bound (st : gotype) (b : binding) : Prop :=
  Forall (.≠ "") b.1.1 ∧ b.1.1 ≠ [] ∧ has_type b.1.2 b.2 = true ∧ ∃ lt, leaf_of st b.1.1 = Ok lt ∧ compatible b.1.2 lt = true.
(** The leaf of a binding holds its field. *)
Definition holds (st : gotype) (sv : value) (b : binding) : Prop :=
  ∃ lt, leaf_of st b.1.1 = Ok lt ∧
    match unwrap b.1.2 b.2 with
    | Some x => ∃ c z, stored (Some x) lt = Ok c ∧ fromSDKValue lt c = Some z ∧ getAtPath st sv b.1.1 = Ok (Some z)
    | None => unset st sv b.1.1 lt
    end.

Lemma int_typed t z : has_type t (VInt z) = true → has_type (TInt W64) (VInt z) = true.
Proof.
  intros Hz. pose proof Hz as Hu. rewrite <- has_type_under in Hu. destruct (under t) as [| |w| | | | | | | | |] eqn:E; try done; [|by apply under_not_named in E].
  apply signed_typed. by eapply typed_int64.
Qed.
Lemma uint_typed t z : has_type t (VUint z) = true → has_type (TUint W64) (VUint z) = true.
Proof.
  intros Hz. pose proof Hz as Hu. rewrite <- has_type_under in Hu. destruct (under t) as [| | |w| | | | | | | |] eqn:E; try done; [|by apply under_not_named in E].
  apply unsigned_typed. by eapply typed_uint64.
Qed.
Lemma numeric_typed t v x : has_type t v = true → numeric v = Some x → dyn_typed x.
Proof. intros Hv Hx. destruct v; try done; injection Hx as <-; [by eapply int_typed|by eapply uint_typed|done]. Qed.
Lemma unwrap_plain_typed t v x : has_type t v = true → unwrap_plain t v = Some x → dyn_typed x.
Proof.
  intros Hv. unfold unwrap_plain, format_time. destruct v as [| | | | | |[[]|]|[[]|]| | |]; try (repeat case_match; intros; by simplify_eq);
    (case_match; [done|]); intros Hx; by eapply numeric_typed.
Qed.
Lemma unwrap_typed ft fv x : has_type ft fv = true → unwrap ft fv = Some x → dyn_typed x.
Proof.
  unfold unwrap. intros Hv. assert (∀ u t v, has_type u v = true → has_type t v = true → unwrap_at u t v = Some x → dyn_typed x) as H1; [|by apply H1].
  intros u. induction u as [| | | | |u IH| | | |n u IH| |]; intros t v Hu Ht Hx; try (rewrite unwrap_at_plain in Hx by done; by eapply unwrap_plain_typed).
  - destruct v as [| | | | |[y|]| | | | |]; try done. rewrite (unwrap_at_ptr (TPtr u) _ _ u) in Hx by done. change (has_type u y = true) in Hu.
    destruct (numeric y) eqn:Hn; [injection Hx as <-; exact (numeric_typed _ _ _ Hu Hn)|exact (IH _ _ Hu Hu Hx)].
  - by apply (IH t v).
Qed.
Lemma compatible_not_time ft lt : compatible ft lt = true → bare ft ≠ TTime.
Proof. unfold compatible. intros [Hc _]%andb_true_iff E. by rewrite E in Hc. Qed.

(** A write to a path apart keeps what a leaf holds. *)
Lemma holds_kept st sv p x sv' e b : has_type st sv = true → sdk_type st = true → dyn_typed x → Forall (.≠ "") p → well_bound st b →
  disjoint_paths p b.1.1 → setAtPath st sv p (Some x) = (sv', e) → holds st sv b → holds st sv' b.
Proof.
  intros Hv Hs Hx Hp (Hne & _ & _ & lt & Hlt & _) Hd Hset (lt' & Hlt' & Hh). rewrite Hlt in Hlt'. injection Hlt' as <-. exists lt. split; [done|].
  assert (Ht : typeAtPath st sv b.1.1 = Ok lt) by (by rewrite typeAt_static).
  pose proof (set_frame _ _ _ _ _ _ _ _ Hv Hs Hx Hp Hne Hd Hset Ht) as Hf. destruct (unwrap b.1.2 b.2).
  - destruct Hh as (c & z & ? & ? & Hg). exists c, z. split_and!; try done. destruct Hf as [->|[Hn _]]; [done|]. by rewrite Hg in Hn.
  - unfold unset in *. by destruct Hf as [->|[_ ?]].
Qed.

Definition untouched (st : gotype) (sv : value) (b : binding) : Prop := ∃ lt, leaf_of st b.1.1 = Ok lt ∧ unset st sv b.1.1 lt.
Lemma untouched_kept st sv p x sv' e b : has_type st sv = true → sdk_type st = true → dyn_typed x → Forall (.≠ "") p → well_bound st b →
  disjoint_paths p b.1.1 → setAtPath st sv p (Some x) = (sv', e) → untouched st sv b → untouched st sv' b.
Proof.
  intros Hv Hs Hx Hp (Hne & _) Hd Hset (lt & Hlt & Hu). exists lt. split; [done|].
  assert (Ht : typeAtPath st sv b.1.1 = Ok lt) by (by rewrite typeAt_static).
  pose proof (set_frame _ _ _ _ _ _ _ _ Hv Hs Hx Hp Hne Hd Hset Ht) as Hf. unfold unset in *. by destruct Hf as [->|[_ ?]].
Qed.

Lemma pairwise_cons (b : binding) l : pairwise (paths_of (b :: l)) = true →
  Forall (fun b' => disjoint_paths b.1.1 b'.1.1) l ∧ pairwise (paths_of l) = true.
Proof.
  cbn. intros [Hp Hl]%andb_true_iff. split; [|done]. apply Forall_forall. intros b' Hb. rewrite forallb_forall in Hp.
  specialize (Hp b'.1.1). rewrite andb_true_iff, !negb_true_iff, !bool_decide_eq_false in Hp. apply Hp, list_elem_of_In, list_elem_of_fmap. eauto.
Qed.
Lemma disjoint_paths_sym p q : disjoint_paths p q → disjoint_paths q p.
Proof. by intros [? ?]. Qed.

(** Writing one field. *)
Lemma expand_one st sv b x sv1 e1 : has_type st sv = true → sdk_type st = true → well_bound st b → unwrap b.1.2 b.2 = Some x →
  setAtPath st sv b.1.1 (Some x) = (sv1, e1) →
  dyn_typed x ∧ has_type st sv1 = true ∧ (e1 = None ↔ is_ok (leaf_value st b) = true) ∧ (e1 = None → holds st sv1 b).
Proof.
  intros Hv Hs (Hp & Hne & Hb & lt & Hlt & Hc) Hx Hset. assert (Hd : dyn_typed x) by (by eapply unwrap_typed).
  assert (Ht : typeAtPath st sv b.1.1 = Ok lt) by (by rewrite typeAt_static).
  destruct (set_spec _ _ _ _ _ Hv Hs Ht Hd) as (? & ? & E & Hv1 & Hst). rewrite Hset in E. injection E as <- <-.
  split; [done|]. split; [done|]. unfold leaf_value, holds. rewrite Hlt, Hx. destruct (stored (Some x) lt) as [c|err] eqn:Hsto.
  - destruct Hst as [-> Hg]. split; [done|]. intros _. exists lt. split; [done|]. destruct (field_back _ _ _ _ _ Hc Hb Hx Hsto) as (z & Hz & _).
    exists c, z. split_and!; try done. by rewrite Hg, Hz.
  - subst e1. by split.
Qed.

Lemma expand_all_cons st sv b l : expand_all st sv (b :: l) =
  match unwrap b.1.2 b.2 with
  | None => expand_all st sv l
  | Some x => match setAtPath st sv b.1.1 (Some x) with (sv, None) => expand_all st sv l | r => r end
  end.
Proof. by destruct b as [[p ft] fv]. Qed.

Lemma expand_all_spec st l : sdk_type st = true → ∀ sv sv' e, has_type st sv = true → Forall (well_bound st) l → pairwise (paths_of l) = true →
  Forall (untouched st sv) l → expand_all st sv l = (sv', e) →
  has_type st sv' = true ∧
  (∀ b, well_bound st b → Forall (fun b' => disjoint_paths b'.1.1 b.1.1) l → holds st sv b → holds st sv' b) ∧
  (e = None → Forall (holds st sv') l) ∧ (e = None ↔ Forall (fun b => is_ok (leaf_value st b) = true) l).
Proof.
  intros Hs. induction l as [|b l IH]; intros sv sv' e Hv Hw Hpw Hu He.
  { injection He as <- <-. by split_and!. }
  apply Forall_cons in Hw as [Hwb Hw]. apply pairwise_cons in Hpw as [Hd Hpw]. apply Forall_cons in Hu as [Hub Hu].
  setoid_rewrite Forall_cons. rewrite expand_all_cons in He.
  destruct (unwrap b.1.2 b.2) as [x|] eqn:Hx.
  - destruct (setAtPath st sv b.1.1 (Some x)) as [sv1 e1] eqn:Hset.
    destruct (expand_one st sv b x sv1 e1) as (Hxt & Hv1 & Hok & Hh); [done..|].
    assert (Hkeep : ∀ b', well_bound st b' → disjoint_paths b.1.1 b'.1.1 → holds st sv b' → holds st sv1 b').
    { intros b' Hb' Hdb'. eapply holds_kept; [exact Hv|done|exact Hxt|by destruct Hwb|done|exact Hdb'|exact Hset]. }
    destruct e1 as [err|].
    + injection He as <- <-. split_and!; [done|intros b' Hb' [Hd1 Hd2]; by apply Hkeep|done|]. split; [done|]. intros [Hb _]. by apply Hok in Hb.
    + destruct (IH sv1 sv' e) as (Hv' & Hkeep' & Hall & Hiff); [done|done|done| |done|].
      { apply Forall_forall. intros b' Hb'. eapply untouched_kept; [exact Hv|done|exact Hxt|by destruct Hwb| | |exact Hset|]; [revert Hw|revert Hd|revert Hu]; rewrite Forall_forall; eauto. }
      split_and!; [done| | |].
      * intros b' Hb' [Hd1 Hd2] Hh'. by apply Hkeep', Hkeep.
      * intros He0. split; [|by apply Hall]. apply Hkeep'; [done| |by apply Hh]. eapply Forall_impl; [exact Hd|]. intros b' Hb'. by apply disjoint_paths_sym.
      * rewrite Hiff. intuition.
  - destruct (IH sv sv' e) as (Hv' & Hkeep' & Hall & Hiff); [done..|]. destruct Hub as (lt & Hlt & Hun). split_and!; [done|intros b' Hb' [_ Hd2]; by apply Hkeep'| |].
    + intros He0. split; [|by apply Hall]. apply Hkeep'; [done| |exists lt; by rewrite Hx]. eapply Forall_impl; [exact Hd|]. intros b' Hb'. by apply disjoint_paths_sym.
    + assert (is_ok (leaf_value st b) = true) as Hb0 by (unfold leaf_value; by rewrite Hlt, Hx). rewrite Hiff. intuition.
Qed.

Lemma flat_back st sv b : well_bound st b → holds st sv b → flattened st sv (blank b) (normal b).
Proof.
  intros (_ & _ & Hb & lt & Hlt & Hc) (lt' & Hlt' & Hh). rewrite Hlt in Hlt'. injection Hlt' as <-.
  split; [done|]. unfold flat_leaf, blank, normal. cbn [fst snd]. destruct (unwrap b.1.2 b.2) as [x|] eqn:Hx.
  - destruct Hh as (c & z & Hsto & Hz & ->). destruct (field_back _ _ _ _ _ Hc Hb Hx Hsto) as (z' & Hz' & <-). rewrite Hz in Hz'. by injection Hz' as <-.
  - destruct Hh as [->| ->]; [done|]. destruct (fromSDKValue lt (Zero lt)) as [z|] eqn:Hz; [|done]. by eapply zero_back.
Qed.

Lemma bound_well st l : bound st l = true → Forall (fun b => has_type b.1.2 b.2 = true) l → Forall (well_bound st) l ∧ pairwise (paths_of l) = true.
Proof.
  unfold bound. rewrite andb_true_iff, forallb_forall. intros [Hb Hp] Ht. split; [|done]. rewrite Forall_forall in Ht |- *. intros b Hin.
  pose proof (Ht _ Hin) as Hty. apply list_elem_of_In, Hb, andb_true_iff in Hin as [Hs Hl].
  destruct (leaf_of st b.1.1) as [lt|] eqn:Hlt; [|done]. split_and!; [| |done|by exists lt].
  - apply Forall_forall. intros s Hs'%list_elem_of_In. rewrite forallb_forall in Hs. by apply Hs, negb_true_iff, String.eqb_neq in Hs'.
  - intros E. rewrite E in Hlt. done.
Qed.

(** *** Arguments *)
Definition pointer_to (t : gotype) (v : value) : dynamic := mkDynamic (TPtr t) (VPtr (Some v)).

Lemma indirect_struct t v : struct_kind t = true → indirect t v = Some ([], t, v).
Proof. unfold struct_kind. destruct t as [| | | | | | | | |n t| |]; try done. cbn. destruct t; try done; by destruct (under _). Qed.
Lemma struct_arg_value t v : struct_kind t = true → struct_arg (mkDynamic t v) = Some ([], t, v).
Proof. intros Ht. unfold struct_arg. cbn [dyn_type dyn_value]. rewrite indirect_struct by done. cbn. by rewrite Ht. Qed.
Lemma struct_arg_pointer t v : struct_kind t = true → struct_arg (pointer_to t v) = Some ([AElem], t, v).
Proof. intros Ht. unfold struct_arg, pointer_to. cbn [dyn_type dyn_value indirect]. rewrite indirect_struct by done. cbn. by rewrite Ht. Qed.
Lemma settable_pointer t v : struct_kind t = true → settable_arg (pointer_to t v) = Some ([AElem], t, v).
Proof. intros Ht. unfold settable_arg. by rewrite struct_arg_pointer. Qed.

Lemma Expand_struct t src st dv : struct_kind t = true → struct_kind st = true →
  Expand (mkDynamic t src) (pointer_to st dv) = let '(sv, e) := expand_all st dv (tagged t src) in (pointer_to st sv, e).
Proof.
  intros Ht Hst. unfold Expand. rewrite struct_arg_value, settable_pointer, expand_tagged by done. by destruct (expand_all _ _ _).
Qed.
Lemma Flatten_struct t dst st sv out : struct_kind t = true → struct_kind st = true → flattenStruct st sv t dst = (out, None) →
  Flatten (mkDynamic st sv) (pointer_to t dst) = (pointer_to t out, None).
Proof. intros Ht Hst E. unfold Flatten. by rewrite struct_arg_value, settable_pointer, E by done. Qed.

(** C36: A consumer struct whose tags name distinct leaves of compatible types goes
    through the SDK struct and back. [Expand] into an empty SDK struct succeeds exactly
    when every field that is set converts to its leaf (its integer fits); then [Flatten]
    into an empty consumer struct succeeds too and restores every tagged field: a field
    that was set exactly, one that was not set (a nil pointer, a pointer to an empty
    string, an empty collection, a zero) as the zero of its type. *)
Theorem expand_flatten_roundtrip t src st dst : struct_kind t = true → struct_kind st = true → has_type t src = true → sdk_type st = true →
  bound st (tagged t src) = true → tagged t dst = blank <$> tagged t src →
  ∃ sv e, Expand (mkDynamic t src) (pointer_to st (Zero st)) = (pointer_to st sv, e) ∧
    (e = None ↔ Forall (fun b => is_ok (leaf_value st b) = true) (tagged t src)) ∧
    (e = None → ∃ out, Flatten (mkDynamic st sv) (pointer_to t dst) = (pointer_to t out, None) ∧ tagged t out = normal <$> tagged t src).
Proof.
  intros Ht Hst Hsrc Hsdk Hb Hdst. destruct (bound_well _ _ Hb (tagged_typed _ _ Hsrc)) as [Hw Hp].
  rewrite Expand_struct by done. destruct (expand_all st (Zero st) (tagged t src)) as [sv e] eqn:He. exists sv, e. split; [done|].
  assert (Hun : Forall (untouched st (Zero st)) (tagged t src)).
  { eapply Forall_impl; [exact Hw|]. intros b (_ & _ & _ & lt & Hlt & _). exists lt. split; [done|]. by apply zero_unset. }
  destruct (expand_all_spec st _ Hsdk _ _ _ (Zero_typed st) Hw Hp Hun He) as (_ & _ & Hall & Hiff). split; [done|]. intros ->.
  destruct (flatten_tagged st sv t dst (normal <$> tagged t src)) as (out & Hf & Ho); [|exists out; split; [by apply Flatten_struct|done]].
  rewrite Hdst. apply Forall2_fmap_2, Forall_Forall2_diag. specialize (Hall eq_refl). rewrite Forall_forall in Hall, Hw |- *.
  intros b Hin. by apply flat_back; [apply Hw|apply Hall].
Qed.

(** Setting a path of an SDK struct is a lens. With an existing leaf it stores the
    converted value, which is what is then read there, or is the error of the conversion;
    without one it is an error. Every path apart from it reads as before, except that a
    leaf behind a nil pointer may now read as a fresh zero; the struct keeps its type. *)
Theorem setAtPath_lens t v segs x : has_type t v = true → sdk_type t = true → dyn_typed x → Forall (.≠ "") segs → segs ≠ [] →
  ∃ v' e, setAtPath t v segs (Some x) = (v', e) ∧ has_type t v' = true ∧
    match typeAtPath t v segs with
    | Err err => e = Some err
    | Ok lt => match stored (Some x) lt with
               | Ok c => e = None ∧ getAtPath t v' segs = Ok (fromSDKValue lt c)
               | Err err => e = Some err
               end
    end ∧
    ∀ q lt, Forall (.≠ "") q → disjoint_paths segs q → typeAtPath t v q = Ok lt →
      getAtPath t v' q = getAtPath t v q ∨ getAtPath t v q = Ok None ∧ unset t v' q lt.
Proof.
  intros Hv Hs Hx Hne Hnil. destruct (setAtPath t v segs (Some x)) as [v' e] eqn:E. exists v', e.
  split; [done|]. split; [by eapply set_typed|]. split; [|intros q lt Hq Hd Ht; exact (set_frame _ _ _ _ _ _ _ _ Hv Hs Hx Hne Hq Hd E Ht)].
  destruct (typeAtPath t v segs) as [lt|err] eqn:Ht.
  - destruct (set_spec _ _ _ _ _ Hv Hs Ht Hx) as (? & ? & E' & _ & Hc). rewrite E in E'. by injection E' as <- <-.
  - destruct (set_missing _ _ _ _ (Some x) Hv Hs Hnil Ht) as (? & E' & _). rewrite E in E'. by simplify_eq.
Qed.

(** Between integers of one signedness no value changes: the integer is stored as it
    is, behind the pointers of the target, or refused when the target's type has no such
    value. *)
Theorem integers_exact t target w w' z :
  (under t = TInt w → under (bare target) = TInt w' → has_type t (VInt z) = true →
     stored (Some (mkDynamic t (VInt z))) target = if has_type target (wrapped target (VInt z)) then Ok (wrapped target (VInt z)) else Err OutOfRange) ∧
  (under t = TUint w → under (bare target) = TUint w' → has_type t (VUint z) = true →
     stored (Some (mkDynamic t (VUint z))) target = if has_type target (wrapped target (VUint z)) then Ok (wrapped target (VUint z)) else Err OutOfRange).
Proof.
  assert (Hw : ∀ u v, has_type u (wrapped u v) = has_type (bare u) v).
  { intros u v. destruct (has_type (bare u) v) eqn:E; [by apply wrapped_typed|]. revert E. clear. induction u as [| | | | |u IH| | | |n u IH| |]; try done; cbn.
    destruct (under u) eqn:E; try done; intros Hb; try (destruct (bare_plain u) as [_ ->]; [unfold is_ptr; by rewrite E|done]); by apply IH. }
  split; intros Ht Hb Hz; rewrite stored_wrapped, Hw; [rewrite (store_int _ _ _ _ _ Ht Hb Hz)|rewrite (store_uint _ _ _ _ _ Ht Hb Hz)]; by case_match.
Qed.

(** Between signed and unsigned integers nothing is checked: a negative number is
    stored as a large one. *)
Theorem mixed_signs_wrap t target w w' z : under t = TInt w → under target = TUint w' → stored (Some (mkDynamic t (VInt z))) target = Ok (VUint (wrap_unsigned w' z)).
Proof.
  intros Ht Hb. rewrite stored_plain by (unfold is_ptr; by rewrite Hb). unfold stored_leaf.
  rewrite to_leaf_plain; [|by intros ->|by intros ->|left; unfold string_kind; by rewrite Hb]. cbn [dyn_type].
  assert (AssignableTo t target = false) as ->.
  { apply not_true_is_false. unfold AssignableTo. rewrite orb_true_iff, andb_true_iff, !gotype_eqb_eq. intros [->|[_ E]]; congruence. }
  unfold ConvertibleTo, to_convertible, string_kind, isNumericKind, isSignedIntKind, isUnsignedIntKind, Convert. cbn [dyn_type dyn_value].
  rewrite Ht, Hb. cbn. apply Value_Set_same.
Qed.
End paths.
