(* ===== verification/PathbindUpdate.v ===== *)
(** * Partial updates, and examples of path bindings

    [UpdateDocument] as a fold over the fields that changed; the consumer and SDK structs
    of the witnesses. *)
From S2P Require Import Prelude GoStrings Template Pathbind PathbindProps.
From stdpp Require Import base gmap strings list.
From Stdlib Require Import ZArith Lia Ascii String SpecFloat.
Open Scope string_scope.

(** ** Documents *)
Fixpoint doc_at (m : gmap string document) (segments : list string) : option document :=
  match segments with
  | [] => None
  | seg :: rest =>
      match rest, m !! seg with
      | [], d => d
      | _, Some (DObject child) => doc_at child rest
      | _, _ => None
      end
  end.

Lemma doc_at_cons m s p : p ≠ [] → doc_at m (s :: p) = match m !! s with Some (DObject child) => doc_at child p | _ => None end.
Proof. by destruct p. Qed.
Lemma doc_at_empty p : doc_at ∅ p = None.
Proof. destruct p as [|s [|s' p]]; cbn; [done|by rewrite lookup_empty..]. Qed.

Lemma setDocumentPath_cons m s p x : p ≠ [] → setDocumentPath m (s :: p) x =
  match m !! s with
  | None => child ← setDocumentPath ∅ p x; Ok (<[s := DObject child]> m)
  | Some (DObject child) => child ← setDocumentPath child p x; Ok (<[s := DObject child]> m)
  | Some _ => Err PathConflict
  end.
Proof. by destruct p. Qed.

(** The entry a path goes through. *)
Definition child_of (d : option document) : gmap string document := match d with Some (DObject m) => m | _ => ∅ end.
Lemma doc_at_child m s p : p ≠ [] → doc_at m (s :: p) = doc_at (child_of (m !! s)) p.
Proof. intros Hp. rewrite doc_at_cons by done. destruct (m !! s) as [[]|]; cbn; by rewrite ?doc_at_empty. Qed.
Lemma set_child m s p x m' : p ≠ [] → setDocumentPath m (s :: p) x = Ok m' →
  ∃ child, setDocumentPath (child_of (m !! s)) p x = Ok child ∧ m' = <[s := DObject child]> m.
Proof.
  intros Hp. rewrite setDocumentPath_cons by done. destruct (m !! s) as [[]|]; try done; intros (child & ? & [= <-])%result_bind_ok; eauto.
Qed.

(** What a successful write does: its own entry, the entries apart from it, and no
    entries off its path. *)
Lemma set_document m p x m' : p ≠ [] → setDocumentPath m p x = Ok m' →
  doc_at m' p = Some x ∧ (∀ q, disjoint_paths p q → doc_at m' q = doc_at m q) ∧
  ∀ q d, doc_at m' q = Some d → doc_at m q = Some d ∨ q `prefix_of` p ∨ p `prefix_of` q.
Proof.
  revert m m'. induction p as [|s p IH]; intros m m' Hne Hset; [done|]. destruct (decide (p = [])) as [->|Hp].
  - cbn in Hset. destruct (m !! s) eqn:Hs; [done|]. injection Hset as <-. split; [cbn; by rewrite lookup_insert_eq|].
    assert (Hother : ∀ q, ¬ [s] `prefix_of` q → doc_at (<[s := x]> m) q = doc_at m q).
    { intros [|s' q] Hq; [done|]. assert (s' ≠ s) by (intros ->; apply Hq, prefix_cons, prefix_nil). cbn. by rewrite lookup_insert_ne. }
    split; [intros q [Hq _]; by apply Hother|]. intros q d Hd. destruct (decide ([s] `prefix_of` q)); [auto|]. left. by rewrite <- Hother.
  - apply set_child in Hset as (child & Hset & ->); [|done]. destruct (IH _ _ Hp Hset) as (Hown & Hapart & Hoff). split_and!.
    + rewrite doc_at_child, lookup_insert_eq by done. exact Hown.
    + intros [|s' q] Hd; [done|]. destruct (decide (s = s')) as [<-|Hs]; [|destruct q; cbn; by rewrite lookup_insert_ne].
      apply disjoint_cons in Hd. assert (q ≠ []) by (intros ->; destruct Hd as [_ []]; apply prefix_nil).
      rewrite !doc_at_child, lookup_insert_eq by done. by apply Hapart.
    + intros [|s' q] d Hd; [done|]. destruct (decide (s = s')) as [<-|Hs]; [|left; destruct q; cbn in *; by rewrite lookup_insert_ne in Hd].
      destruct (decide (q = [])) as [->|Hq]; [right; left; apply prefix_cons, prefix_nil|].
      rewrite doc_at_child, lookup_insert_eq in Hd by done. rewrite doc_at_child by done.
      destruct (Hoff q d Hd) as [?|[?|?]]; [by left|right; left; by apply prefix_cons|right; right; by apply prefix_cons].
Qed.

(** A path is free when nothing is at it and only objects are above it. *)
Definition free (m : gmap string document) (p : list string) : Prop :=
  ∀ q d, q `prefix_of` p → doc_at m q = Some d → q ≠ p ∧ ∃ child, d = DObject child.
Lemma free_sets m p x : p ≠ [] → free m p → ∃ m', setDocumentPath m p x = Ok m'.
Proof.
  revert m. induction p as [|s p IH]; intros m Hne Hf; [done|]. destruct (decide (p = [])) as [->|Hp].
  - cbn. destruct (m !! s) as [d|] eqn:Hs; [|eauto]. by destruct (Hf [s] d) as [[] _].
  - assert (Hc : free (child_of (m !! s)) p).
    { intros q d Hq Hd. assert (q ≠ []) by by intros ->. rewrite <- doc_at_child in Hd by done.
      destruct (Hf (s :: q) d) as [Hne' ?]; [by apply prefix_cons|done|]. split; [congruence|done]. }
    destruct (IH _ Hp Hc) as [child Hch]. rewrite setDocumentPath_cons by done. destruct (m !! s) as [d|] eqn:Hs; cbn in Hch; [|rewrite Hch; by eexists].
    destruct (Hf [s] d) as [_ [ch ->]]; [apply prefix_cons, prefix_nil|done|]. cbn in Hch. rewrite Hch. by eexists.
Qed.

(** The entries written so far, at paths apart from each other, and no others. *)
Definition written (m : gmap string document) (l : list (list string * document)) : Prop :=
  (∀ p d, (p, d) ∈ l → doc_at m p = Some d) ∧ ∀ q d, doc_at m q = Some d → ∃ p d', (p, d') ∈ l ∧ (q `prefix_of` p ∨ p `prefix_of` q).

Lemma doc_at_above m q p d : doc_at m p = Some d → q `prefix_of` p → q ≠ p → ∀ d', doc_at m q = Some d' → ∃ child, d' = DObject child.
Proof.
  revert m p. induction q as [|s q IH]; intros m p Hp Hq Hne d' Hd; [done|]. destruct p as [|s' p]; [by apply prefix_nil_not in Hq|].
  pose proof (prefix_cons_inv_1 _ _ _ _ Hq) as <-. apply prefix_cons_inv_2 in Hq. assert (p ≠ []) by (intros ->; apply prefix_nil_inv in Hq as ->; done).
  rewrite doc_at_cons in Hp by done. destruct (decide (q = [])) as [->|Hqn].
  - cbn in Hd. rewrite Hd in Hp. destruct d'; try done. eauto.
  - rewrite doc_at_cons in Hd by done. destruct (m !! s) as [[]|]; try done. eapply IH; try done. congruence.
Qed.

Lemma written_step m l p x : p ≠ [] → written m l → (∀ q d, (q, d) ∈ l → disjoint_paths q p) →
  ∃ m', setDocumentPath m p x = Ok m' ∧ written m' ((p, x) :: l).
Proof.
  intros Hne [Hin Hcov] Hd. assert (Hfree : free m p).
  { intros q d Hq Hat. destruct (Hcov q d Hat) as (p0 & d0 & H0 & Hrel). destruct (Hd _ _ H0) as [Hd1 Hd2]. destruct Hrel as [Hr|Hr].
    - split; [by intros ->|]. eapply doc_at_above; [by apply Hin in H0|done| |done]. intros ->. by apply Hd1.
    - by destruct Hd1; trans q. }
  destruct (free_sets _ _ x Hne Hfree) as [m' Hm']. exists m'. split; [done|]. destruct (set_document _ _ _ _ Hne Hm') as (Hown & Hapart & Hoff). split.
  - intros q d [[= -> ->]|Hq]%elem_of_cons; [done|]. rewrite Hapart by (apply disjoint_paths_sym; by eapply Hd). by apply Hin.
  - intros q d [Hq|Hrel]%Hoff; [|exists p, x; split; [apply elem_of_cons; by left|done]].
    destruct (Hcov q d Hq) as (p0 & d0 & H0 & Hrel). exists p0, d0. split; [apply elem_of_cons; by right|done].
Qed.

(** ** The fields both structs have *)
Section update.
Context `{ReflectLaws}.

Record field_pair := mkPair { fp_Field : fieldinfo; fp_Type : gotype; fp_before : value; fp_after : value }.
Definition fp_path (x : field_pair) : list string := Split (f_hfsdk (fp_Field x)) ".".

(** The tagged fields of two structs, through [structOrZero]; [None] is the panic of a
    nil pointer to a pointer. *)
Fixpoint pairs (t : gotype) (before after : value) : option (list field_pair) :=
  match t with
  | TNamed _ t | TPtr t => pairs t before after
  | TStruct fs =>
      match before, after with
      | VStruct lb, VStruct la =>
          (fix go fs lb la := match fs, lb, la with
           | (f, ft) :: fs, b :: lb, a :: la =>
               l ← (if negb (f_Exported f) then Some []
                    else if String.eqb (f_hfsdk f) "" then
                      match structOrZero ft b, structOrZero ft a with
                      | Some (_, b), Some (at_, a) => if struct_kind at_ then pairs ft b a else Some []
                      | None, Some (at_, _) => if struct_kind at_ then None else Some []
                      | _, None => Some []
                      end
                    else if String.eqb (f_hfsdk f) "-" then Some []
                    else Some [mkPair f ft b a]);
               l' ← go fs lb la;
               Some (l ++ l')%list
           | _, _, _ => Some []
           end) fs lb la
      | _, _ => if existsb (fun f => f_Exported f.1) fs then None else Some []
      end
  | _ => Some []
  end.

Fixpoint update_all (dt : gotype) (s : value * gmap string document) (l : list field_pair) : result cause (value * gmap string document) :=
  match l with
  | [] => Ok s
  | x :: l => s ← update_field (fp_Field x) (fp_Type x) (fp_before x) (fp_after x) dt s; update_all dt s l
  end.
Lemma update_all_app dt s l l' : update_all dt s (l ++ l')%list = (s ← update_all dt s l; update_all dt s l').
Proof. revert s. induction l as [|x l IH]; intros s; [done|]. cbn. destruct (update_field _ _ _ _ _ _); [apply IH|done]. Qed.

Lemma update_pairs t b a dt s l : pairs t b a = Some l → updateDocumentStruct t b a dt s = update_all dt s l.
Proof.
  revert b a s l. induction t as [| |w|w|w|t IH|t IH|k t IHk IH|fs IH|n t IH| |] using gotype_nested_ind; intros b a s l Hl; try (by injection Hl as <-); try (by apply IH).
  destruct b as [| | | | | | | |lb| |]; try (cbn in *; destruct (existsb _ fs); by simplify_eq).
  destruct a as [| | | | | | | |la| |]; try (cbn in *; destruct (existsb _ fs); by simplify_eq).
  revert lb la s l Hl. induction IH as [|[f ft] fs Ht _ IHfs]; intros [|b lb] [|a la] s l Hl; try (by injection Hl as <-).
  cbn [pairs] in Hl. apply bind_Some in Hl as (l1 & H1 & Hl). apply bind_Some in Hl as (l2 & H2 & [= <-]).
  specialize (IHfs lb la). cbn [pairs] in IHfs. rewrite update_all_app. cbn [updateDocumentStruct snd] in *.
  match goal with |- (?x ≫= _) = _ => assert (Hx : x = update_all dt s l1) end.
  { destruct (negb (f_Exported f)); [by simplify_eq|]. destruct (String.eqb (f_hfsdk f) "").
    - destruct (structOrZero ft b) as [[bt bv]|], (structOrZero ft a) as [[at_ av]|]; try (by simplify_eq); destruct (struct_kind at_); simplify_eq; try done. by apply Ht.
    - destruct (String.eqb (f_hfsdk f) "-"); simplify_eq; [done|]. cbn. by destruct (update_field _ _ _ _ _ _). }
  rewrite Hx. destruct (update_all dt s l1) as [s'|]; [|done]. cbn. by apply IHfs.
Qed.

(** ** What a document holds *)
Definition changed (x : field_pair) : bool := negb (same_value (unwrap (fp_Type x) (fp_before x)) (unwrap (fp_Type x) (fp_after x))).
(** The entry of a changed field: the value its leaf would have, or the cleared leaf. *)
Definition cleared (lt : gotype) : document := match under lt with TSlice _ => DEmptySlice | TMap _ _ => DObject ∅ | _ => DValue None end.
Definition entry (dt : gotype) (x : field_pair) : result cause document :=
  lt ← leaf_of dt (fp_path x);
  match unwrap (fp_Type x) (fp_after x) with
  | Some y => c ← stored (Some y) lt; Ok (DValue (fromSDKValue lt c))
  | None => Ok (cleared lt)
  end.
Fixpoint entries (dt : gotype) (l : list field_pair) : result cause (list (list string * document)) :=
  match l with
  | [] => Ok []
  | x :: l => if changed x then d ← entry dt x; ws ← entries dt l; Ok ((fp_path x, d) :: ws) else entries dt l
  end.

Definition paired (dt : gotype) (x : field_pair) : Prop :=
  Forall (.≠ "") (fp_path x) ∧ has_type (fp_Type x) (fp_after x) = true ∧ ∃ lt, leaf_of dt (fp_path x) = Ok lt.

#[local] Instance written_proper m : Proper ((≡ₚ) ==> iff) (written m).
Proof. intros l l' Hl. unfold written. by setoid_rewrite Hl. Qed.

Lemma update_field_spec dt dv m x l : has_type dt dv = true → sdk_type dt = true → paired dt x → written m l →
  (∀ q d, (q, d) ∈ l → disjoint_paths q (fp_path x)) →
  if changed x then
    match entry dt x with
    | Ok d => ∃ dv' m', update_field (fp_Field x) (fp_Type x) (fp_before x) (fp_after x) dt (dv, m) = Ok (dv', m') ∧
                has_type dt dv' = true ∧ written m' ((fp_path x, d) :: l)
    | Err e => update_field (fp_Field x) (fp_Type x) (fp_before x) (fp_after x) dt (dv, m) = Err e
    end
  else update_field (fp_Field x) (fp_Type x) (fp_before x) (fp_after x) dt (dv, m) = Ok (dv, m).
Proof.
  intros Hv Hs (Hne & Ha & lt & Hlt) Hm Hd. unfold changed, update_field, entry. fold (fp_path x).
  destruct (same_value _ _); cbn [negb]; [done|]. rewrite Hlt. cbn [mbind result_bind fst snd].
  assert (Hnil : fp_path x ≠ []) by apply Split_nonempty. assert (Ht : typeAtPath dt dv (fp_path x) = Ok lt) by (by rewrite typeAt_static).
  destruct (unwrap (fp_Type x) (fp_after x)) as [y|] eqn:Hy.
  - destruct (set_spec dt dv _ _ y Hv Hs Ht (unwrap_typed _ _ _ Ha Hy)) as (dv' & e & Hset & Hv' & Hst). unfold documentValue. rewrite Hset.
    destruct (stored (Some y) lt) as [c|err]; [|by subst e]. destruct Hst as [-> ->]. cbn [mbind result_bind].
    destruct (written_step m l (fp_path x) (DValue (fromSDKValue lt c)) Hnil Hm Hd) as (m' & -> & Hw). eauto 10.
  - rewrite Ht. cbn [mbind result_bind].
    destruct (written_step m l (fp_path x) (clearDocumentValue lt) Hnil Hm Hd) as (m' & -> & Hw). eauto 10.
Qed.

Lemma update_all_spec dt l : sdk_type dt = true → ∀ dv m written_l, has_type dt dv = true → Forall (paired dt) l →
  (∀ x, x ∈ l → ∀ q d, (q, d) ∈ written_l → disjoint_paths q (fp_path x)) → pairwise (fp_path <$> l) = true → written m written_l →
  match entries dt l with
  | Ok ws => ∃ dv' m', update_all dt (dv, m) l = Ok (dv', m') ∧ written m' (ws ++ written_l)%list
  | Err e => update_all dt (dv, m) l = Err e
  end.
Proof.
  intros Hs. induction l as [|x l IH]; intros dv m wl Hv Hp Hd Hpw Hm; [by exists dv, m|].
  apply Forall_cons in Hp as [Hx Hp]. cbn [fmap list_fmap pairwise] in Hpw. apply andb_true_iff in Hpw as [Hxl Hpw].
  assert (Hdx : ∀ y, y ∈ l → disjoint_paths (fp_path x) (fp_path y)).
  { intros y Hy. rewrite forallb_forall in Hxl. specialize (Hxl (fp_path y)).
    rewrite andb_true_iff, !negb_true_iff, !bool_decide_eq_false in Hxl. apply Hxl, list_elem_of_In, list_elem_of_fmap. eauto. }
  pose proof (update_field_spec dt dv m x wl Hv Hs Hx Hm (Hd x (list_elem_of_here _ _))) as Hf. cbn [entries update_all].
  assert (Hd' : ∀ y, y ∈ l → ∀ q d, (q, d) ∈ wl → disjoint_paths q (fp_path y)) by (intros y Hy; apply Hd; by right).
  destruct (changed x); [|rewrite Hf; by apply IH].
  destruct (entry dt x) as [d|e]; [|by rewrite Hf]. destruct Hf as (dv' & m' & -> & Hv' & Hm'). cbn [mbind result_bind].
  specialize (IH dv' m' ((fp_path x, d) :: wl) Hv' Hp). destruct (entries dt l) as [ws|e]; cbn [mbind result_bind].
  - destruct IH as (dv2 & m2 & -> & Hw); [|done|done|].
    { intros y Hy q d' [[= -> ->]|Hq]%elem_of_cons; [by apply Hdx|by eapply Hd']. }
    exists dv2, m2. split; [done|]. by rewrite <- Permutation_middle in Hw.
  - apply IH; [|done|done]. intros y Hy q d' [[= -> ->]|Hq]%elem_of_cons; [by apply Hdx|by eapply Hd'].
Qed.

(** *** Types of the pairs *)
Lemma indirect_typed t v r u x : has_type t v = true → indirect t v = Some (r, u, x) → u = bare t ∧ has_type (bare t) x = true.
Proof.
  revert v r u x. induction t as [| | | | |t IH| | | |n t IH| |]; intros v r u x Hv Hi; try (destruct v; injection Hi as <- <- <-; by split).
  - destruct v as [| | | | |[y|]| | | | |]; try done. cbn in Hi. apply bind_Some in Hi as ([[r' u'] x'] & Hi & [= <- <- <-]).
    change (has_type t y = true) in Hv. exact (IH _ _ _ _ Hv Hi).
  - cbn [indirect bare] in *. destruct (under t) eqn:Hu; try (simplify_eq; by split). by eapply IH.
Qed.
Lemma structOrZero_typed t v u x : has_type t v = true → structOrZero t v = Some (u, x) → struct_kind u = true → has_type (bare t) x = true.
Proof.
  intros Hv. unfold structOrZero. destruct (indirect t v) as [[[r u'] x']|] eqn:Hi.
  - intros [= <- <-] _. by eapply indirect_typed.
  - destruct (under t) as [| | | | |elem| | | | | |] eqn:Hu; try done. intros [= <- <-] Hs. destruct (bare_ptr _ _ Hu) as [-> _].
    assert (is_ptr elem = false) as Hp by (unfold struct_kind, is_ptr in *; by destruct (under elem)). destruct (bare_plain _ Hp) as [-> _]. apply Zero_typed.
Qed.

Lemma pairs_typed t b a l : has_type (bare t) a = true → pairs t b a = Some l → Forall (fun x => has_type (fp_Type x) (fp_after x) = true) l.
Proof.
  revert b a l. induction t as [| |w|w|w|t IH|t IH|k t IHk IH|fs IH|n t IH| |] using gotype_nested_ind; intros b a l Ha Hl; try (by injection Hl as <-).
  - by eapply IH.
  - destruct b as [| | | | | | | |lb| |]; try (cbn in Hl; destruct (existsb _ fs); by simplify_eq).
    destruct a as [| | | | | | | |la| |]; try (cbn in Hl; destruct (existsb _ fs); by simplify_eq).
    revert lb la l Ha Hl. induction IH as [|[f ft] fs Ht _ IHfs]; intros [|b lb] [|a la] l Ha Hl; try (by injection Hl as <-).
    cbn [pairs] in Hl. apply bind_Some in Hl as (l1 & H1 & Hl). apply bind_Some in Hl as (l2 & H2 & [= <-]).
    apply has_type_struct, Forall2_cons in Ha as [Ha Hla]. apply has_type_struct in Hla. apply Forall_app. split; [|by eapply (IHfs lb la)].
    cbn [snd] in *. destruct (negb (f_Exported f)); [by simplify_eq|]. destruct (String.eqb (f_hfsdk f) "").
    + destruct (structOrZero ft b) as [[bt bv]|], (structOrZero ft a) as [[at_ av]|] eqn:Hav; try (by simplify_eq); destruct (struct_kind at_) eqn:Hk; simplify_eq; try done.
      eapply Ht; [|exact H1]. by eapply structOrZero_typed.
    + destruct (String.eqb (f_hfsdk f) "-"); simplify_eq; [done|]. by repeat constructor.
  - apply (IH b a); [|exact Hl]. cbn in Ha. destruct (is_ptr t) eqn:Hp; unfold is_ptr in Hp.
    + by destruct (under t).
    + destruct (bare_plain _ Hp) as [-> _]. by destruct (under t).
Qed.

(** The paths of the fields are paths of distinct leaves of the SDK type. *)
Definition paths_fit (dt : gotype) (l : list field_pair) : bool :=
  forallb (fun x => forallb (fun s => negb (String.eqb s "")) (fp_path x) && is_ok (leaf_of dt (fp_path x))) l && pairwise (fp_path <$> l).

Lemma pairwise_elem (l : list field_pair) x y : pairwise (fp_path <$> l) = true → x ∈ l → y ∈ l → x ≠ y → disjoint_paths (fp_path x) (fp_path y).
Proof.
  induction l as [|z l IH]; [by intros _ ?%not_elem_of_nil|]. cbn [fmap list_fmap pairwise]. intros [Hz Hl]%andb_true_iff.
  assert (Hd : ∀ w, w ∈ l → disjoint_paths (fp_path z) (fp_path w)).
  { intros w Hw. rewrite forallb_forall in Hz. specialize (Hz (fp_path w)).
    rewrite andb_true_iff, !negb_true_iff, !bool_decide_eq_false in Hz. apply Hz, list_elem_of_In, list_elem_of_fmap. eauto. }
  intros [->|Hx]%elem_of_cons [->|Hy]%elem_of_cons Hne; [done|by apply Hd|by apply disjoint_paths_sym, Hd|by apply IH].
Qed.

Lemma entries_spec dt l ws : entries dt l = Ok ws → ∀ p d, (p, d) ∈ ws ↔ ∃ x, x ∈ l ∧ changed x = true ∧ fp_path x = p ∧ entry dt x = Ok d.
Proof.
  revert ws. induction l as [|x l IH]; intros ws Hws p d.
  { injection Hws as <-. split; [by intros ?%not_elem_of_nil|]. by intros (? & ?%not_elem_of_nil & _). }
  cbn [entries] in Hws. destruct (changed x) eqn:Hx.
  - apply result_bind_ok in Hws as (d' & Hd' & (ws' & Hws' & [= <-])%result_bind_ok). rewrite elem_of_cons, (IH _ Hws'). setoid_rewrite elem_of_cons. split.
    + intros [[= -> ->]|(y & ? & ?)]; [exists x; auto|exists y; tauto].
    + intros (y & [->|Hy] & Hc & Hp & He); [left; congruence|right; eauto].
  - rewrite (IH _ Hws). setoid_rewrite elem_of_cons. split; [intros (y & ? & ?); exists y; tauto|]. intros (y & [->|Hy] & Hc & Hr); [congruence|eauto].
Qed.

(** C37: A partial update holds exactly the changes. For two consumer structs whose tags
    name distinct leaves of the SDK type, [UpdateDocument] fails only with the error of
    converting a changed field; otherwise the document has, at the path of every changed
    field, the value its leaf would hold after [Expand] or, for a removed one, the cleared
    leaf (an empty list, an empty object, null), nothing at the path of an unchanged
    field, and no entry off the paths of the changed ones. *)
Theorem UpdateDocument_exact t before after dt d l : struct_kind t = true → struct_kind dt = true → has_type t after = true → sdk_type dt = true →
  pairs t before after = Some l → paths_fit dt l = true →
  match entries dt l with
  | Err e => UpdateDocument (mkDynamic t before) (mkDynamic t after) (pointer_to dt d) = Err e
  | Ok _ =>
      ∃ m, UpdateDocument (mkDynamic t before) (mkDynamic t after) (pointer_to dt d) = Ok m ∧
        (∀ x, x ∈ l → if changed x then ∃ v, entry dt x = Ok v ∧ doc_at m (fp_path x) = Some v else doc_at m (fp_path x) = None) ∧
        ∀ q v, doc_at m q = Some v → ∃ x, x ∈ l ∧ changed x = true ∧ (q `prefix_of` fp_path x ∨ fp_path x `prefix_of` q)
  end.
Proof.
  intros Ht Hdt Ha Hs Hl [Hfit Hpw]%andb_true_iff. unfold UpdateDocument. rewrite !struct_arg_value, settable_pointer, gotype_eqb_refl by done. cbn [negb].
  rewrite (update_pairs _ _ _ _ _ _ Hl). assert (is_ptr t = false) as Hp by (unfold struct_kind, is_ptr in *; by destruct (under t)).
  assert (Hty : Forall (fun x => has_type (fp_Type x) (fp_after x) = true) l) by (eapply pairs_typed; [|exact Hl]; by destruct (bare_plain _ Hp) as [-> _]).
  assert (Hpd : Forall (paired dt) l).
  { rewrite Forall_forall in Hty |- *. intros x Hx. split_and!; [|by apply Hty|]; apply list_elem_of_In in Hx; rewrite forallb_forall in Hfit; apply Hfit, andb_true_iff in Hx as [Hne Hok].
    - apply Forall_forall. intros s Hs'%list_elem_of_In. rewrite forallb_forall in Hne. by apply Hne, negb_true_iff, String.eqb_neq in Hs'.
    - destruct (leaf_of dt (fp_path x)); [eauto|done]. }
  pose proof (update_all_spec dt l Hs (Zero dt) ∅ [] (Zero_typed dt) Hpd) as Hall.
  assert (H1 : ∀ x, x ∈ l → ∀ q d, (q, d) ∈ @nil (list string * document) → disjoint_paths q (fp_path x)) by (by intros x _ q d' ?%not_elem_of_nil).
  assert (H2 : written ∅ []) by (split; [by intros p d' ?%not_elem_of_nil|intros q d' Hq; by rewrite doc_at_empty in Hq]).
  specialize (Hall H1 Hpw H2). destruct (entries dt l) as [ws|e] eqn:He; [|by rewrite Hall].
  destruct Hall as (dv & m & -> & Hin & Hcov). rewrite app_nil_r in *. pose proof (entries_spec _ _ _ He) as Hws. exists m. split; [done|]. split.
  - intros x Hx. destruct (changed x) eqn:Hc.
    + destruct (entry dt x) as [v|e] eqn:Hv; [exists v; split; [done|]; apply Hin, Hws; eauto|].
      exfalso. clear -He Hx Hc Hv. revert ws He. induction l as [|y l IH]; intros ws He; [by apply not_elem_of_nil in Hx|]. cbn in He.
      apply elem_of_cons in Hx as [->|Hx]; [by rewrite Hc, Hv in He|]. destruct (changed y); [|by eapply IH].
      apply result_bind_ok in He as (d & _ & (ws' & He & _)%result_bind_ok). by eapply IH.
    + destruct (doc_at m (fp_path x)) as [v|] eqn:Hv; [exfalso|done]. destruct (Hcov _ _ Hv) as (p & d' & (y & Hy & Hcy & <- & _)%Hws & Hrel).
      destruct (pairwise_elem l x y Hpw Hx Hy) as [? ?]; [congruence|]. naive_solver.
  - intros q v Hq. destruct (Hcov q v Hq) as (p & d' & (y & Hy & Hcy & <- & _)%Hws & Hrel). eauto.
Qed.
End update.

(** ** Examples

    A node pool request with a nested bundle, and the SDK object it is bound to. *)
Section examples.
Definition decimal_time (s : string) : option gotime := (fun z => mkGotime z 0 0) <$> ParseInt s.
#[local] Instance decimal_env : ReflectEnv := {|
  float_int64 := fun _ => 0%Z;
  float_uint64 := fun _ => 0%Z;
  format_RFC3339 := fun t => FormatInt (gt_sec t);
  parse_RFC3339 := decimal_time;
  ParseDuration := ParseInt;
  Duration_String := FormatInt;
  json_Marshal := fun _ v => match v with VSlice (Some []) => Some "[]" | _ => None end;
  json_Unmarshal := fun s t => match under t with TSlice _ => if String.eqb s "[]" then Some (VSlice (Some [])) else None | _ => None end
|}.
#[local] Instance decimal_laws : ReflectLaws.
Proof.
  split.
  - intros s t v. cbn. rewrite <- has_type_under. destruct (under t); try done. by case_match; intros [= <-].
  - apply ParseInt_range.
Qed.

Definition field (name path : string) (t : gotype) : fieldinfo * gotype := (mkFieldinfo name "" path false true, t).
Definition sdk (name json : string) (t : gotype) : fieldinfo * gotype := (mkFieldinfo name json "" false true, t).

Definition bundle : gotype := TNamed "Bundle" (TStruct [field "Tags" "spec.tags" (TMap TString TString); field "Derived" "-" TString]).
Definition request : gotype := TNamed "NodePoolRequest" (TStruct
  [field "Name" "metadata.name" TString; field "Region" "spec.platform.aws.region" TString; field "Replicas" "spec.replicas" (TPtr (TInt WInt));
   field "Type" "spec.platform.type" TString; field "Spare" "spec.spare" TBool; field "Bundle" "" bundle]).

Definition TypeMeta : gotype := TNamed "TypeMeta" (TStruct [sdk "Kind" "kind,omitempty" TString]).
Definition AWS : gotype := TNamed "AWSPlatform" (TStruct [sdk "Region" "region" (TNamed "Region" TString)]).
Definition Platform : gotype := TNamed "Platform" (TStruct [sdk "Type" "type" (TNamed "PlatformType" TString); sdk "AWS" "aws,omitempty" (TPtr AWS)]).
Definition NodePoolSDK : gotype := TNamed "NodePool" (TStruct
  [(mkFieldinfo "TypeMeta" ",inline" "" true true, TypeMeta); sdk "Metadata" "metadata,omitempty" (TStruct [sdk "Name" "name" TString]);
   sdk "Spec" "spec" (TStruct [sdk "Platform" "platform" Platform; sdk "Replicas" "replicas,omitempty" (TPtr (TInt W32));
     sdk "Spare" "spare" TBool; sdk "Tags" "tags" (TMap TString TString)])]).

Definition wanted (replicas : Z) (tags : option (list (string * value))) : value :=
  VStruct [VString "workers"; VString "eu-west-1"; VPtr (Some (VInt replicas)); VString ""; VBool false; VStruct [VMap tags; VString "local"]].
Definition empty_request : value := VStruct [VString ""; VString ""; VPtr None; VString ""; VBool false; VStruct [VMap None; VString ""]].
Definition team : option (list (string * value)) := Some [("team", VString "red")].

Example oversized_replicas : (Expand (mkDynamic request (wanted 3000000000 team)) (pointer_to NodePoolSDK (Zero NodePoolSDK))).2 = Some OutOfRange.
Proof. vm_compute. reflexivity. Qed.

(** A zero scalar that is present, and a pointer that is not. *)
Example false_is_present : IsUnset (Some (mkDynamic TBool (VBool false))) = false.
Proof. reflexivity. Qed.
Example empty_text_pointer_is_absent : IsUnset (Some (pointer_to TString (VString ""))) = true.
Proof. reflexivity. Qed.

(** An optional count of zero is kept, also through the narrower leaf. *)
Lemma expand_flatten_roundtrip_witness :
  ∃ sv e, Expand (mkDynamic request (wanted 0 team)) (pointer_to NodePoolSDK (Zero NodePoolSDK)) = (pointer_to NodePoolSDK sv, e) ∧
    (e = None ↔ Forall (fun b => is_ok (leaf_value NodePoolSDK b) = true) (tagged request (wanted 0 team))) ∧
    (e = None → ∃ out, Flatten (mkDynamic NodePoolSDK sv) (pointer_to request empty_request) = (pointer_to request out, None) ∧
       tagged request out = normal <$> tagged request (wanted 0 team)).
Proof. apply expand_flatten_roundtrip; vm_compute; reflexivity. Defined.

Example roundtrip_restores : normal <$> tagged request (wanted 0 team) = tagged request (wanted 0 team).
Proof. vm_compute. reflexivity. Qed.

Definition region_path : list string := ["spec"; "platform"; "aws"; "region"].
Definition replicas_path : list string := ["spec"; "replicas"].
Lemma setAtPath_lens_witness :
  ∃ v' e, setAtPath NodePoolSDK (Zero NodePoolSDK) region_path (Some (plain_string "eu-west-1")) = (v', e) ∧ has_type NodePoolSDK v' = true ∧
    match typeAtPath NodePoolSDK (Zero NodePoolSDK) region_path with
    | Err err => e = Some err
    | Ok lt => match stored (Some (plain_string "eu-west-1")) lt with
               | Ok c => e = None ∧ getAtPath NodePoolSDK v' region_path = Ok (fromSDKValue lt c)
               | Err err => e = Some err
               end
    end ∧
    ∀ q lt, Forall (.≠ "") q → disjoint_paths region_path q → typeAtPath NodePoolSDK (Zero NodePoolSDK) q = Ok lt →
      getAtPath NodePoolSDK v' q = getAtPath NodePoolSDK (Zero NodePoolSDK) q ∨
      getAtPath NodePoolSDK (Zero NodePoolSDK) q = Ok None ∧ unset NodePoolSDK v' q lt.
Proof. apply setAtPath_lens; [vm_compute; reflexivity|vm_compute; reflexivity|vm_compute; reflexivity|by repeat constructor|done]. Defined.

Lemma integers_exact_witness :
  stored (Some (mkDynamic (TInt W64) (VInt 300))) (TPtr (TInt W8)) = Err OutOfRange ∧
  stored (Some (mkDynamic (TUint W64) (VUint 200))) (TUint W8) = Ok (VUint 200).
Proof.
  split.
  - exact (proj1 (integers_exact (TInt W64) (TPtr (TInt W8)) W64 W8 300) eq_refl eq_refl eq_refl).
  - exact (proj2 (integers_exact (TUint W64) (TUint W8) W64 W8 200) eq_refl eq_refl eq_refl).
Defined.
Lemma mixed_signs_wrap_witness : stored (Some (mkDynamic (TInt W64) (VInt (-1)))) (TUint W32) = Ok (VUint 4294967295).
Proof. exact (mixed_signs_wrap (TInt W64) (TUint W32) W64 W32 (-1) eq_refl eq_refl). Defined.

(** An update that changes the count and removes the tags. *)
Definition update_pairs_of : list field_pair := default [] (pairs request (wanted 2 team) (wanted 3 None)).
Lemma UpdateDocument_exact_witness :
  ∃ m, UpdateDocument (mkDynamic request (wanted 2 team)) (mkDynamic request (wanted 3 None)) (pointer_to NodePoolSDK (Zero NodePoolSDK)) = Ok m ∧
    (∀ x, x ∈ update_pairs_of → if changed x then ∃ v, entry NodePoolSDK x = Ok v ∧ doc_at m (fp_path x) = Some v else doc_at m (fp_path x) = None) ∧
    ∀ q v, doc_at m q = Some v → ∃ x, x ∈ update_pairs_of ∧ changed x = true ∧ (q `prefix_of` fp_path x ∨ fp_path x `prefix_of` q).
Proof.
  exact (UpdateDocument_exact request (wanted 2 team) (wanted 3 None) NodePoolSDK (Zero NodePoolSDK) update_pairs_of
    eq_refl eq_refl eq_refl eq_refl eq_refl eq_refl).
Defined.
End examples.
