(* ===== verification/CrdVariants.v ===== *)
(** * CRD variants and the generator's validator (hack/api-codegen/pkg/featuregate, pkg/validation)

    The tree of a CRD manifest filtered for a feature set (crd_variant.go, crd_filter.go),
    the removal of CEL rules from passthrough subtrees (crd_strip_cel.go), and the
    request validator of the generator (validator.go). A YAML document is the tree
    yaml.v3 parses, in which no node is shared; reading and writing files is left out.
    The gates and the metadata of fields are those of FieldValidator.v. *)
From S2P Require Import Prelude GoStrings Json FieldValidator.
From stdpp Require Import base gmap strings list.
From Stdlib Require Import ZArith Lia Ascii String.
Import FieldValidator.FieldValidator.
Open Scope string_scope.

(** ** YAML nodes *)
Inductive Kind := DocumentNode | SequenceNode | MappingNode | ScalarNode | AliasNode.
Inductive Node := mkNode (kind : Kind) (val : string) (content : list Node).
Definition n_Kind (n : Node) : Kind := let '(mkNode k _ _) := n in k.
Definition n_Value (n : Node) : string := let '(mkNode _ v _) := n in v.
Definition n_Content (n : Node) : list Node := let '(mkNode _ _ c) := n in c.

(** [mappingChild] of a mapping and of a document. *)
Fixpoint child_in (l : list Node) (key : string) : option Node :=
  match l with
  | k :: v :: l => if String.eqb (n_Value k) key then Some v else child_in l key
  | _ => None
  end.
Fixpoint mappingChild (node : Node) (key : string) : option Node :=
  match node with
  | mkNode DocumentNode _ (n :: _) => mappingChild n key
  | mkNode MappingNode _ l => child_in l key
  | _ => None
  end.

(** ** The feature gate of a field *)
Definition HiddenFromPublicAPI (meta : FieldMeta) : bool := m_Hidden meta && negb (bool_decide (m_WriteMode meta = Mutable)).

Definition visible (meta : FieldMeta) (featureSet : FeatureSet) : bool :=
  negb (HiddenFromPublicAPI meta) && (String.eqb (m_FeatureGate meta) "" || IsGateEnabled (m_FeatureGate meta) featureSet).

(** The registry of the resource type, or none. *)
Definition shouldIncludeField (reg : option Registry) (fieldPath : string) (featureSet : FeatureSet) : bool :=
  match reg with
  | None => true
  | Some fields =>
      match obj_lookup fieldPath fields with
      | None => true
      | Some meta =>
          if HiddenFromPublicAPI meta then false
          else if negb (String.eqb (m_FeatureGate meta) "") then IsGateEnabled (m_FeatureGate meta) featureSet
          else true
      end
  end.

Definition GatesForFeatureSet (featureSet : FeatureSet) : list string :=
  fst <$> filter (fun gi => is_true (Nat.leb (stage_rank gi.2) (stage_rank (MaxStage featureSet)))) SeaplaneFeatureGates.

(** The registry of all types, in the order the range loops visit it. *)
Definition TypedFieldRegistry := list (string * Registry).
Definition FilterCRDFields (reg : TypedFieldRegistry) (featureSet : FeatureSet) : list string :=
  flat_map (fun ty => flat_map (fun fm => if visible fm.2 featureSet then [fm.1] else []) ty.2) reg.
Definition FieldsForFeatureSet (reg : TypedFieldRegistry) (featureSet : FeatureSet) : gmap string FieldMeta :=
  foldl (fun m ty => foldl (fun m fm => if visible fm.2 featureSet then <[fm.1 := fm.2]> m else m) m ty.2) ∅ reg.

(** ** Filtering *)
Section variant.
Context (reg : option Registry) (featureSet : FeatureSet).

(** The context below a key. *)
Definition structural_wrapper (fieldName : string) : bool := String.eqb fieldName "items" || String.eqb fieldName "additionalProperties".
Definition enter_key (inSchema : bool) (fieldPath fieldName : string) : bool * string :=
  if negb inSchema && String.eqb fieldName "properties" then (true, fieldPath)
  else if inSchema && negb (String.eqb fieldName "properties") && negb (structural_wrapper fieldName)
  then (inSchema, if String.eqb fieldPath "" then fieldName else fieldPath ++ "." ++ fieldName)
  else (inSchema, fieldPath).
Definition key_included (ctx : bool * string) (fieldName : string) : bool :=
  if ctx.1 && negb (String.eqb fieldName "properties") && negb (String.eqb ctx.2 "") then shouldIncludeField reg ctx.2 featureSet else true.

Fixpoint filterCRDNode (inSchema : bool) (fieldPath : string) (node : Node) : Node :=
  match node with
  | mkNode MappingNode v l =>
      mkNode MappingNode v ((fix go l := match l with
        | k :: x :: l =>
            let ctx := enter_key inSchema fieldPath (n_Value k) in
            if key_included ctx (n_Value k) then k :: filterCRDNode ctx.1 ctx.2 x :: go l else go l
        | _ => []
        end) l)
  | mkNode ScalarNode v l => node
  | mkNode AliasNode v l => node
  | mkNode k v l => mkNode k v (map (filterCRDNode inSchema fieldPath) l)
  end.
End variant.

(** The tree a variant is written from. *)
Definition GenerateVariant (reg : option Registry) (featureSet : FeatureSet) (crd : Node) : Node := filterCRDNode reg featureSet false "" crd.
Definition GenerateAllVariants (reg : option Registry) (crd : Node) : list (string * Node) :=
  (fun fs => (fs.2, GenerateVariant reg fs.1 crd)) <$> [("Default", "default"); ("TechPreviewNoUpgrade", "techpreview"); ("DevPreviewNoUpgrade", "devpreview")].

(** ** CEL rules *)
Definition cel_key : string := "x-kubernetes-validations".

Fixpoint stripCELRecursive (node : Node) : Node :=
  match node with
  | mkNode MappingNode v l =>
      mkNode MappingNode v ((fix go l := match l with
        | k :: x :: l => if String.eqb (n_Value k) cel_key then go l else k :: stripCELRecursive x :: go l
        | _ => []
        end) l)
  | mkNode k v l => mkNode k v (map stripCELRecursive l)
  end.

(** [navigateTo]: through the properties of the schema. *)
Fixpoint navigateTo (node : Node) (segments : list string) : option Node :=
  match segments with
  | [] => Some node
  | seg :: rest => match mappingChild node "properties" ≫= (fun props => mappingChild props seg) with Some cur => navigateTo cur rest | None => None end
  end.

(** A change of the node [mappingChild] finds, in its place. *)
Fixpoint change_in (f : Node → Node) (key : string) (l : list Node) : list Node :=
  match l with
  | k :: v :: l => if String.eqb (n_Value k) key then k :: f v :: l else k :: v :: change_in f key l
  | l => l
  end.
Fixpoint change_child (f : Node → Node) (key : string) (node : Node) : Node :=
  match node with
  | mkNode DocumentNode v (n :: l) => mkNode DocumentNode v (change_child f key n :: l)
  | mkNode MappingNode v l => mkNode MappingNode v (change_in f key l)
  | n => n
  end.
Fixpoint change_at (f : Node → Node) (segments : list string) (node : Node) : Node :=
  match segments with
  | [] => f node
  | seg :: rest => change_child (change_child (change_at f rest) seg) "properties" node
  end.
(** [findSchemaNodes] with a change of each schema it finds. *)
Definition change_schemas (f : Node → Node) (doc : Node) : Node :=
  let version := change_child (change_child f "openAPIV3Schema") "schema" in
  change_child (change_child (fun versions => match versions with
    | mkNode SequenceNode v l => mkNode SequenceNode v (map version l)
    | n => n
    end) "versions") "spec" doc.
Definition findSchemaNodes (doc : Node) : list Node :=
  match mappingChild doc "spec" ≫= (fun spec => mappingChild spec "versions") with
  | Some (mkNode SequenceNode _ l) => omap (fun ver => mappingChild ver "schema" ≫= (fun schema => mappingChild schema "openAPIV3Schema")) l
  | _ => []
  end.

Definition stripCELAtPath (segments : list string) (doc : Node) : Node := change_schemas (change_at stripCELRecursive segments) doc.
Definition StripCELFromSubtrees (fieldPaths : list string) (doc : Node) : Node :=
  foldl (fun doc path => stripCELAtPath (Split path ".") doc) doc fieldPaths.

(** ** The validator of the generator

    The fields of a request in the order the range loop visits them, and the paths of
    the existing resource when it was given. *)
Record GenRequest := mkGenRequest {
  gr_Update : bool;
  gr_ResourceType : string;
  gr_Fields : list string;
  gr_FeatureSet : FeatureSet;
  gr_ExistingFields : option (list string);
  gr_EnabledGates : list string
}.
Inductive GenError := GateDisabled (fieldPath gate : string) | PlatformManaged (fieldPath : string) | ImmutableField (fieldPath : string).

Definition IsFeatureGateEnabled (r : GenRequest) (gateName : string) : bool := existsb (fun gate => String.eqb gate gateName) (gr_EnabledGates r).

Definition gen_effective_mode (meta : FieldMeta) (req : GenRequest) : WriteMode :=
  match List.find (fun o => negb (String.eqb (o_FeatureGate o) "") && IsFeatureGateEnabled req (o_FeatureGate o)) (m_Overrides meta) with
  | Some o => o_WriteMode o
  | None => match List.find (fun o => String.eqb (o_FeatureGate o) "") (m_Overrides meta) with
            | Some o => o_WriteMode o
            | None => m_WriteMode meta
            end
  end.
Definition gen_validateWriteMode (fieldPath : string) (meta : FieldMeta) (req : GenRequest) : option GenError :=
  match gen_effective_mode meta req with
  | ServiceSet => Some (PlatformManaged fieldPath)
  | Immutable =>
      if gr_Update req then
        match gr_ExistingFields req with
        | Some old => if bool_decide (fieldPath ∈ old) then Some (ImmutableField fieldPath) else None
        | None => None
        end
      else None
  | Mutable | NoMode => None
  end.
(** One field of the loop of [Validate]. *)
Definition gen_validate_field (fields : Registry) (req : GenRequest) (fieldPath : string) : option GenError :=
  match obj_lookup fieldPath fields with
  | None => None
  | Some meta =>
      if negb (String.eqb (m_FeatureGate meta) "") && negb (IsGateEnabled (m_FeatureGate meta) (gr_FeatureSet req))
      then Some (GateDisabled fieldPath (m_FeatureGate meta))
      else gen_validateWriteMode fieldPath meta req
  end.
(** [Validator.Validate]: the errors; none is acceptance. *)
Definition GenValidate (reg : TypedFieldRegistry) (req : GenRequest) : list GenError :=
  match obj_lookup (gr_ResourceType req) reg with
  | None => []
  | Some fields => omap (gen_validate_field fields req) (gr_Fields req)
  end.
Definition ValidateFieldAccess (reg : TypedFieldRegistry) (resourceType fieldPath : string) (featureSet : FeatureSet) : option GenError :=
  match obj_lookup resourceType reg ≫= obj_lookup fieldPath with
  | None => None
  | Some meta =>
      if negb (String.eqb (m_FeatureGate meta) "") && negb (IsGateEnabled (m_FeatureGate meta) featureSet)
      then Some (GateDisabled fieldPath (m_FeatureGate meta)) else None
  end.
Definition GetFieldMetadata (reg : TypedFieldRegistry) (resourceType fieldPath : string) : option FieldMeta :=
  obj_lookup resourceType reg ≫= obj_lookup fieldPath.

(** * Theorems *)

(** ** Trees *)
Section node_induction.
Context (P : Node → Prop) (HP : ∀ k v l, Forall P l → P (mkNode k v l)).
Fixpoint node_nested_ind (n : Node) : P n :=
  match n with
  | mkNode k v l => HP k v l ((fix go l : Forall P l := match l with
      | [] => Forall_nil_2 _
      | x :: l => Forall_cons_2 _ _ _ (node_nested_ind x) (go l)
      end) l)
  end.
End node_induction.

Lemma pair_ind {A} (P : list A → Prop) : P [] → (∀ x, P [x]) → (∀ k x l, P l → P (k :: x :: l)) → ∀ l, P l.
Proof.
  intros H0 H1 H2. fix IH 1. intros [|k [|x l]]; [exact H0|apply H1|]. apply H2, IH.
Qed.

(** The mapping case of the filter. *)
Section filtering.
Context (reg : option Registry).

Definition filter_pairs (fs : FeatureSet) (b : bool) (p : string) (l : list Node) : list Node := n_Content (filterCRDNode reg fs b p (mkNode MappingNode "" l)).
Lemma filter_mapping fs b p v l : filterCRDNode reg fs b p (mkNode MappingNode v l) = mkNode MappingNode v (filter_pairs fs b p l).
Proof. done. Qed.
Lemma filter_pair fs b p k x l : filter_pairs fs b p (k :: x :: l) =
  let ctx := enter_key b p (n_Value k) in
  if key_included reg fs ctx (n_Value k) then k :: filterCRDNode reg fs ctx.1 ctx.2 x :: filter_pairs fs b p l else filter_pairs fs b p l.
Proof. unfold filter_pairs. cbn. by case_match. Qed.

Lemma child_in_filter fs b p l key : child_in (filter_pairs fs b p l) key =
  if key_included reg fs (enter_key b p key) key then filterCRDNode reg fs (enter_key b p key).1 (enter_key b p key).2 <$> child_in l key else None.
Proof.
  induction l as [|x|k x l IH] using pair_ind; [by case_match..|]. rewrite filter_pair. cbn zeta. cbn [child_in].
  destruct (String.eqb_spec (n_Value k) key) as [<-|Hk].
  - destruct (key_included _ _ _ (n_Value k)) eqn:Hi; [|by rewrite IH]. cbn. by rewrite String.eqb_refl.
  - destruct (key_included _ _ _ (n_Value k)); cbn [child_in]; [apply String.eqb_neq in Hk as ->|]; exact IH.
Qed.

(** What a filtered node has under a key. *)
Lemma mappingChild_filter fs b p node key : mappingChild (filterCRDNode reg fs b p node) key =
  if key_included reg fs (enter_key b p key) key then filterCRDNode reg fs (enter_key b p key).1 (enter_key b p key).2 <$> mappingChild node key else None.
Proof.
  induction node as [k v l IH] using node_nested_ind. destruct k; try (by case_match).
  - destruct l as [|n l]; [by case_match|]. apply Forall_cons in IH as [IH _]. exact IH.
  - rewrite filter_mapping. apply child_in_filter.
Qed.

(** ** What a variant shows

    A schema is walked by properties, by the items of its lists and by the values of its
    maps. The generator knows a field by the names of the properties on the way to it,
    joined by dots: items and values of maps go by the name of what they belong to, and
    so do properties that are called [properties], [items] or [additionalProperties]. *)
Inductive Segment := Property (name : string) | Items | Values.
Definition step_to (node : Node) (s : Segment) : option Node :=
  match s with
  | Property name => mappingChild node "properties" ≫= (fun props => mappingChild props name)
  | Items => mappingChild node "items"
  | Values => mappingChild node "additionalProperties"
  end.
Fixpoint walk (node : Node) (segments : list Segment) : option Node :=
  match segments with [] => Some node | s :: rest => step_to node s ≫= (fun cur => walk cur rest) end.

Definition field_below (p : string) (s : Segment) : string :=
  match s with
  | Property name =>
      if bool_decide (name ∈ ["properties"; "items"; "additionalProperties"]) then p else if String.eqb p "" then name else p ++ "." ++ name
  | Items | Values => p
  end.
Definition field_at (segments : list Segment) : string := foldl field_below "" segments.

(** No name, or one the variant includes. *)
Definition included (fs : FeatureSet) (p : string) : bool := String.eqb p "" || shouldIncludeField reg p fs.
Fixpoint walk_included (fs : FeatureSet) (p : string) (segments : list Segment) : bool :=
  match segments with [] => true | s :: rest => included fs (field_below p s) && walk_included fs (field_below p s) rest end.

Lemma enter_properties b p : enter_key b p "properties" = (true, p).
Proof. by destruct b. Qed.
Lemma child_properties fs b p node :
  mappingChild (filterCRDNode reg fs b p node) "properties" = filterCRDNode reg fs true p <$> mappingChild node "properties".
Proof. rewrite mappingChild_filter, enter_properties. done. Qed.

Lemma child_property fs p props name : included fs p = true →
  mappingChild (filterCRDNode reg fs true p props) name =
  if included fs (field_below p (Property name)) then filterCRDNode reg fs true (field_below p (Property name)) <$> mappingChild props name else None.
Proof.
  intros Hp. cbn [field_below]. rewrite mappingChild_filter. unfold enter_key, structural_wrapper, key_included. cbn [negb andb].
  destruct (String.eqb_spec name "properties") as [->|H1]; cbn [negb andb fst snd]; [by rewrite bool_decide_eq_true_2, Hp by set_solver|].
  destruct (String.eqb_spec name "items") as [->|H2]; cbn [orb negb fst snd]; [rewrite bool_decide_eq_true_2, Hp by set_solver; unfold included in Hp; by destruct (String.eqb p ""); [|cbn in Hp; rewrite Hp]|].
  destruct (String.eqb_spec name "additionalProperties") as [->|H3]; cbn [negb fst snd]; [rewrite bool_decide_eq_true_2, Hp by set_solver; unfold included in Hp; by destruct (String.eqb p ""); [|cbn in Hp; rewrite Hp]|].
  rewrite bool_decide_eq_false_2 by (by rewrite !elem_of_cons, elem_of_nil; tauto). unfold included. generalize (if String.eqb p "" then name else p ++ "." ++ name). intros path. by destruct (String.eqb path "").
Qed.

Lemma child_wrapper fs b p node key : structural_wrapper key = true → included fs p = true →
  mappingChild (filterCRDNode reg fs b p node) key = filterCRDNode reg fs b p <$> mappingChild node key.
Proof.
  unfold structural_wrapper. intros Hk Hp. rewrite mappingChild_filter. unfold enter_key, structural_wrapper, key_included, included in *.
  rewrite Hk. assert (String.eqb key "properties" = false) as -> by (apply orb_true_iff in Hk as [->%String.eqb_eq| ->%String.eqb_eq]; done).
  destruct b; cbn; [|done]. destruct (String.eqb p ""); [done|]. cbn in Hp. by rewrite Hp.
Qed.

Lemma step_filter fs b p node s : included fs p = true → step_to (filterCRDNode reg fs b p node) s =
  if included fs (field_below p s) then filterCRDNode reg fs (match s with Property _ => true | _ => b end) (field_below p s) <$> step_to node s else None.
Proof.
  intros Hp. destruct s as [name| |]; cbn [step_to]; [|change (field_below p _) with p; rewrite Hp; by apply child_wrapper..].
  rewrite child_properties. destruct (mappingChild node "properties") as [props|]; [|by case_match].
  cbn [fmap option_fmap option_map mbind option_bind]. by apply child_property.
Qed.

Lemma walk_filter fs b p node segs : included fs p = true →
  is_Some (walk (filterCRDNode reg fs b p node) segs) ↔ is_Some (walk node segs) ∧ walk_included fs p segs = true.
Proof.
  revert b p node. induction segs as [|s segs IH]; intros b p node Hp; [by split; [|intros [? _]]|].
  cbn [walk walk_included]. rewrite step_filter, andb_true_iff by done. destruct (included fs (field_below p s)) eqn:Hi.
  - destruct (step_to node s) as [cur|]; [|by split; [intros [? ?]|intros [[? ?] _]]]. cbn [fmap option_fmap option_map mbind option_bind]. rewrite IH by done. tauto.
  - split; [by intros [? ?]|by intros [_ [? _]]].
Qed.
End filtering.

(** ** Gates and fields *)
Definition stage_of (fs : FeatureSet) : nat := stage_rank (MaxStage fs).

Lemma gate_mono fs fs' gate : (stage_of fs ≤ stage_of fs')%nat → IsGateEnabled gate fs = true → IsGateEnabled gate fs' = true.
Proof. unfold IsGateEnabled, Includes, stage_of. case_match; [|done]. rewrite !Nat.leb_le. lia. Qed.

Definition shown (reg : option Registry) (path : string) (fs : FeatureSet) : Prop :=
  ∀ fields meta, reg = Some fields → obj_lookup path fields = Some meta → visible meta fs = true.
Lemma shouldInclude_shown reg path fs : shouldIncludeField reg path fs = true ↔ shown reg path fs.
Proof.
  unfold shouldIncludeField, shown, visible. destruct reg as [fields|]; [|naive_solver].
  destruct (obj_lookup path fields) as [meta|] eqn:Hm; [|naive_solver]. split.
  - intros Hi f' m' [= <-] Hm'. rewrite Hm in Hm'. injection Hm' as <-. destruct (HiddenFromPublicAPI meta); [done|]. by destruct (String.eqb _ _).
  - intros Hs. specialize (Hs _ _ eq_refl Hm). destruct (HiddenFromPublicAPI meta); [done|]. by destruct (String.eqb _ _).
Qed.
Lemma include_mono reg fs fs' path : (stage_of fs ≤ stage_of fs')%nat → shouldIncludeField reg path fs = true → shouldIncludeField reg path fs' = true.
Proof.
  intros Hle. unfold shouldIncludeField. destruct reg as [fields|]; [|done]. destruct (obj_lookup path fields) as [meta|]; [|done].
  destruct (HiddenFromPublicAPI meta); [done|]. case_match; [|done]. by apply gate_mono.
Qed.

(** The list of fields and the variants agree. *)
Lemma FilterCRDFields_spec reg fs path : path ∈ FilterCRDFields reg fs ↔ ∃ ty meta, ty ∈ reg ∧ (path, meta) ∈ ty.2 ∧ visible meta fs = true.
Proof.
  unfold FilterCRDFields. rewrite list_elem_of_In, in_flat_map. setoid_rewrite in_flat_map. split.
  - intros (ty & Hty & [p meta] & Hm & Hp). cbn in Hp. destruct (visible meta fs) eqn:Hv; [|done]. destruct Hp as [->|[]].
    exists ty, meta. by rewrite !list_elem_of_In.
  - intros (ty & meta & Hty%list_elem_of_In & Hm%list_elem_of_In & Hv). exists ty. split; [done|]. exists (path, meta). split; [done|]. cbn [fst snd]. rewrite Hv. by left.
Qed.

(** ** Variants *)
Lemma filter_twice reg fs fs' b p n : (stage_of fs ≤ stage_of fs')%nat → filterCRDNode reg fs b p (filterCRDNode reg fs' b p n) = filterCRDNode reg fs b p n.
Proof.
  intros Hle. revert b p. induction n as [k v l IH] using node_nested_ind. intros b p.
  assert (Hmap : map (filterCRDNode reg fs b p) (map (filterCRDNode reg fs' b p) l) = map (filterCRDNode reg fs b p) l).
  { rewrite map_map. apply map_ext_Forall. eapply Forall_impl; [exact IH|]. intros x Hx. apply Hx. }
  destruct k; try done; [cbn; by rewrite Hmap|cbn; by rewrite Hmap|]. clear Hmap. rewrite !filter_mapping. f_equal.
  induction l as [|x|k x l IHl] using pair_ind; [done..|]. apply Forall_cons in IH as [_ [Hx IH]%Forall_cons]. rewrite !filter_pair. cbn zeta.
  assert (Hinc : key_included reg fs (enter_key b p (n_Value k)) (n_Value k) = true → key_included reg fs' (enter_key b p (n_Value k)) (n_Value k) = true).
  { unfold key_included. case_match; [|done]. by apply include_mono. }
  destruct (key_included reg fs (enter_key b p (n_Value k)) (n_Value k)) eqn:Hk.
  - rewrite Hinc by done. rewrite filter_pair. cbn zeta. by rewrite Hk, Hx, IHl.
  - destruct (key_included reg fs' _ _); [|by apply IHl]. rewrite filter_pair. cbn zeta. rewrite Hk. by apply IHl.
Qed.

Lemma child_outside reg fs node key : String.eqb key "properties" = false →
  mappingChild (filterCRDNode reg fs false "" node) key = filterCRDNode reg fs false "" <$> mappingChild node key.
Proof. intros Hk. rewrite mappingChild_filter. unfold enter_key. rewrite Hk. done. Qed.

Lemma filter_sequence reg fs b p n : match filterCRDNode reg fs b p n with mkNode SequenceNode _ l => Some l | _ => None end =
  match n with mkNode SequenceNode _ l => Some (map (filterCRDNode reg fs b p) l) | _ => None end.
Proof. by destruct n as [[] v l]. Qed.

Definition versions_of (doc : Node) : option (list Node) :=
  (mappingChild doc "spec" ≫= (fun spec => mappingChild spec "versions")) ≫= (fun n => match n with mkNode SequenceNode _ l => Some l | _ => None end).
Definition schema_of (ver : Node) : option Node := mappingChild ver "schema" ≫= (fun schema => mappingChild schema "openAPIV3Schema").
Lemma findSchemaNodes_eq doc : findSchemaNodes doc = match versions_of doc with Some l => omap schema_of l | None => [] end.
Proof. unfold findSchemaNodes, versions_of. destruct (mappingChild doc "spec" ≫= _) as [[[] v l]|]; done. Qed.

Lemma variant_schemas reg fs crd : findSchemaNodes (GenerateVariant reg fs crd) = filterCRDNode reg fs false "" <$> findSchemaNodes crd.
Proof.
  rewrite !findSchemaNodes_eq. unfold GenerateVariant, versions_of. rewrite child_outside by done.
  destruct (mappingChild crd "spec") as [spec|]; [|done]. cbn. rewrite child_outside by done. destruct (mappingChild spec "versions") as [vs|]; [|done]. cbn.
  rewrite filter_sequence. destruct vs as [[] v l]; try done. cbn. induction l as [|x l IH]; [done|]. cbn.
  assert (schema_of (filterCRDNode reg fs false "" x) = filterCRDNode reg fs false "" <$> schema_of x) as ->.
  { unfold schema_of. rewrite child_outside by done. destruct (mappingChild x "schema") as [sc|]; [|done]. cbn. by apply child_outside. }
  destruct (schema_of x); cbn; by rewrite IH.
Qed.

Lemma included_shown reg fs p : included reg fs p = true ↔ p = "" ∨ shown reg p fs.
Proof. unfold included. by rewrite orb_true_iff, String.eqb_eq, shouldInclude_shown. Qed.

Lemma walk_included_prefixes reg fs p segs : walk_included reg fs p segs = true ↔
  ∀ q, q ≠ [] → q `prefix_of` segs → foldl field_below p q = "" ∨ shown reg (foldl field_below p q) fs.
Proof.
  revert p. induction segs as [|s segs IH]; intros p.
  - split; [|done]. intros _ q Hq Hp%prefix_nil_inv. done.
  - cbn [walk_included]. rewrite andb_true_iff, included_shown, IH. split.
    + intros [Hs Hr] [|s' q] Hq Hp; [done|]. pose proof (prefix_cons_inv_1 _ _ _ _ Hp) as <-. apply prefix_cons_inv_2 in Hp.
      destruct (decide (q = [])) as [->|Hqn]; [done|]. by apply (Hr q).
    + intros Hall. split; [by apply (Hall [s]); [|apply prefix_cons, prefix_nil]|]. intros q Hq Hp. apply (Hall (s :: q)); [done|by apply prefix_cons].
Qed.

(** C38: A variant of a CRD shows a field, wherever it lies — below properties, items of
    lists and values of maps — exactly when the CRD has it and on the way to it there is
    no field, and it is none, that is hidden from the public API or behind a gate that
    the feature set does not enable; a field is looked up under its dotted name, in which
    items, values of maps and fields called [properties], [items] or
    [additionalProperties] go by the name of what they belong to. The schemas of all
    versions are filtered alike. The variant of a smaller feature set is the same whether
    it is made from the CRD or from the variant of a larger set. *)
Theorem variant_fields reg fs crd :
  findSchemaNodes (GenerateVariant reg fs crd) = filterCRDNode reg fs false "" <$> findSchemaNodes crd ∧
  (∀ schema segs, is_Some (walk (filterCRDNode reg fs false "" schema) segs) ↔
     is_Some (walk schema segs) ∧ ∀ q, q `prefix_of` segs → field_at q = "" ∨ shown reg (field_at q) fs) ∧
  (∀ fs', (stage_of fs ≤ stage_of fs')%nat → GenerateVariant reg fs (GenerateVariant reg fs' crd) = GenerateVariant reg fs crd).
Proof.
  split_and!.
  - apply variant_schemas.
  - intros schema segs. rewrite walk_filter, walk_included_prefixes by done. split; (intros [Hs Hq]; split; [done|]).
    + intros q Hpre. destruct q as [|s q]; [by left|]. by apply Hq.
    + intros q _ Hpre. by apply Hq.
  - intros fs' Hle. by apply filter_twice.
Qed.

(** ** CEL rules *)
Fixpoint has_cel (node : Node) : bool :=
  match node with
  | mkNode MappingNode _ l =>
      (fix go l := match l with
       | k :: x :: l => String.eqb (n_Value k) cel_key || has_cel x || go l
       | _ => false
       end) l
  | mkNode _ _ l => existsb has_cel l
  end.

Definition strip_pairs (l : list Node) : list Node := n_Content (stripCELRecursive (mkNode MappingNode "" l)).
Lemma strip_pair k x l : strip_pairs (k :: x :: l) = if String.eqb (n_Value k) cel_key then strip_pairs l else k :: stripCELRecursive x :: strip_pairs l.
Proof. unfold strip_pairs. cbn. by case_match. Qed.
Lemma cel_pair k x l : has_cel (mkNode MappingNode "" (k :: x :: l)) = String.eqb (n_Value k) cel_key || has_cel x || has_cel (mkNode MappingNode "" l).
Proof. done. Qed.

Lemma strip_clean n : has_cel (stripCELRecursive n) = false.
Proof.
  induction n as [k v l IH] using node_nested_ind.
  assert (Hmap : existsb has_cel (map stripCELRecursive l) = false).
  { induction IH as [|x l Hx _ IHl]; [done|]. cbn. by rewrite Hx, IHl. }
  destruct k; try exact Hmap. clear Hmap. change (has_cel (mkNode MappingNode "" (strip_pairs l)) = false).
  induction l as [|x|k x l IHl] using pair_ind; [done..|]. apply Forall_cons in IH as [_ [Hx IH]%Forall_cons].
  rewrite strip_pair. destruct (String.eqb (n_Value k) cel_key) eqn:Hk; [by apply IHl|]. rewrite cel_pair, Hk, Hx. by apply IHl.
Qed.

Lemma child_in_change f key l key' : child_in (change_in f key l) key' = if String.eqb key key' then f <$> child_in l key' else child_in l key'.
Proof.
  induction l as [|x|k x l IH] using pair_ind; [by case_match..|]. cbn [change_in child_in]. destruct (String.eqb_spec (n_Value k) key) as [<-|Hk]; cbn [child_in].
  - by destruct (String.eqb (n_Value k) key').
  - rewrite IH. destruct (String.eqb_spec (n_Value k) key') as [<-|]; [|done]. by destruct (String.eqb_spec key (n_Value k)) as [->|].
Qed.
Lemma mappingChild_change f key node key' :
  mappingChild (change_child f key node) key' = if String.eqb key key' then f <$> mappingChild node key' else mappingChild node key'.
Proof.
  induction node as [k v l IH] using node_nested_ind. destruct k; try (by case_match).
  - destruct l as [|n l]; [by case_match|]. apply Forall_cons in IH as [IH _]. exact IH.
  - apply child_in_change.
Qed.

Lemma change_at_target f segs node : navigateTo (change_at f segs node) segs = f <$> navigateTo node segs.
Proof.
  revert node. induction segs as [|s segs IH]; intros node; [done|]. cbn [navigateTo change_at]. rewrite mappingChild_change, String.eqb_refl.
  destruct (mappingChild node "properties") as [props|]; [|done]. cbn. rewrite mappingChild_change, String.eqb_refl.
  destruct (mappingChild props s) as [cur|]; [|done]. apply IH.
Qed.
Lemma change_at_apart f segs q node : ¬ segs `prefix_of` q → ¬ q `prefix_of` segs → navigateTo (change_at f segs node) q = navigateTo node q.
Proof.
  revert q node. induction segs as [|s segs IH]; intros q node H1 H2; [destruct H1; apply prefix_nil|].
  destruct q as [|s' q]; [destruct H2; apply prefix_nil|]. cbn [navigateTo change_at]. rewrite mappingChild_change, String.eqb_refl.
  destruct (mappingChild node "properties") as [props|]; [|done]. cbn. rewrite mappingChild_change. destruct (String.eqb_spec s s') as [<-|]; [|done].
  destruct (mappingChild props s) as [cur|]; [|done]. cbn. apply IH; [intros Hp; apply H1|intros Hp; apply H2]; by apply prefix_cons.
Qed.

Lemma changed_schemas f doc : findSchemaNodes (change_schemas f doc) = f <$> findSchemaNodes doc.
Proof.
  rewrite !findSchemaNodes_eq. unfold change_schemas, versions_of. rewrite mappingChild_change, String.eqb_refl.
  destruct (mappingChild doc "spec") as [spec|]; [|done]. cbn. rewrite mappingChild_change, String.eqb_refl.
  destruct (mappingChild spec "versions") as [[[] v l]|]; try done. cbn. induction l as [|x l IH]; [done|]. cbn.
  assert (schema_of (change_child (change_child f "openAPIV3Schema") "schema" x) = f <$> schema_of x) as ->.
  { unfold schema_of. rewrite mappingChild_change, String.eqb_refl. destruct (mappingChild x "schema") as [sc|]; [|done]. cbn.
    by rewrite mappingChild_change, String.eqb_refl. }
  destruct (schema_of x); cbn; by rewrite IH.
Qed.

(** Stripping the CEL rules of a subtree removes every rule below the named field, in
    the schema of every version, and nothing from a field that lies apart. *)
Theorem strip_cel_exact segs doc :
  findSchemaNodes (stripCELAtPath segs doc) = change_at stripCELRecursive segs <$> findSchemaNodes doc ∧
  ∀ schema, navigateTo (change_at stripCELRecursive segs schema) segs = stripCELRecursive <$> navigateTo schema segs ∧
    (∀ target, navigateTo (change_at stripCELRecursive segs schema) segs = Some target → has_cel target = false) ∧
    ∀ q, ¬ segs `prefix_of` q → ¬ q `prefix_of` segs → navigateTo (change_at stripCELRecursive segs schema) q = navigateTo schema q.
Proof.
  split; [apply changed_schemas|]. intros schema. split; [apply change_at_target|]. split.
  - intros target. rewrite change_at_target. intros (n & _ & ->)%fmap_Some. apply strip_clean.
  - intros q. apply change_at_apart.
Qed.

(** ** The validator of the generator *)

Definition mode_accepts (path : string) (meta : FieldMeta) (req : GenRequest) : Prop :=
  gen_effective_mode meta req ≠ ServiceSet ∧
  (gen_effective_mode meta req = Immutable → gr_Update req = true → ∀ old, gr_ExistingFields req = Some old → path ∉ old).
Lemma mode_accepts_spec path meta req : gen_validateWriteMode path meta req = None ↔ mode_accepts path meta req.
Proof.
  unfold gen_validateWriteMode, mode_accepts. destruct (gen_effective_mode meta req); try (split; [by split|done]); [|by split; [|intros [[] _]]].
  destruct (gr_Update req); [|by split; [split|]]. destruct (gr_ExistingFields req) as [old|]; [|by split; [split|]].
  destruct (bool_decide (path ∈ old)) eqn:Hin.
  - apply bool_decide_eq_true in Hin. split; [done|]. intros [_ H]. by destruct (H eq_refl eq_refl old eq_refl).
  - apply bool_decide_eq_false in Hin. split; [|done]. intros _. split; [done|]. by intros _ _ old' [= <-].
Qed.
Lemma field_accepts fields req path : gen_validate_field fields req path = None ↔ ∀ meta, obj_lookup path fields = Some meta →
  (m_FeatureGate meta = "" ∨ IsGateEnabled (m_FeatureGate meta) (gr_FeatureSet req) = true) ∧ mode_accepts path meta req.
Proof.
  unfold gen_validate_field. destruct (obj_lookup path fields) as [meta|]; [|by split].
  assert (Hall : ∀ P : FieldMeta → Prop, (∀ m, Some meta = Some m → P m) ↔ P meta) by (intros P; split; [eauto|by intros ? ? [= <-]]).
  rewrite Hall, <- mode_accepts_spec. destruct (String.eqb_spec (m_FeatureGate meta) "") as [|Hg]; cbn [negb andb]; [tauto|].
  destruct (IsGateEnabled (m_FeatureGate meta) (gr_FeatureSet req)); cbn [negb]; [tauto|]. split; [done|]. by intros [[?|?] _].
Qed.

(** A request is accepted exactly when each of its registered fields is behind an enabled
    gate, if any, is not set by the platform, and is not an immutable field that an
    update finds in the existing resource. *)
Theorem GenValidate_accepts reg req fields : obj_lookup (gr_ResourceType req) reg = Some fields →
  GenValidate reg req = [] ↔
  ∀ path meta, path ∈ gr_Fields req → obj_lookup path fields = Some meta →
    (m_FeatureGate meta = "" ∨ IsGateEnabled (m_FeatureGate meta) (gr_FeatureSet req) = true) ∧ mode_accepts path meta req.
Proof.
  intros Hf. unfold GenValidate. rewrite Hf.
  transitivity (∀ path, path ∈ gr_Fields req → gen_validate_field fields req path = None); [|setoid_rewrite field_accepts; naive_solver].
  clear. induction (gr_Fields req) as [|p l IH]; [by split; [intros _ ? ?%not_elem_of_nil|]|]. cbn. destruct (gen_validate_field fields req p) eqn:E.
  - split; [done|]. intros H. specialize (H p (list_elem_of_here _ _)). by rewrite E in H.
  - rewrite IH. setoid_rewrite elem_of_cons. naive_solver.
Qed.

(** ** Examples *)
Section examples.
Definition scalar (s : string) : Node := mkNode ScalarNode s [].
Definition mapping (l : list (string * Node)) : Node := mkNode MappingNode "" (flat_map (fun kv => [scalar kv.1; kv.2]) l).
Definition string_schema : Node := mapping [("type", scalar "string"); (cel_key, mkNode SequenceNode "" [scalar "rule"])].
Definition cluster_schema : Node := mapping [("type", scalar "object"); ("properties", mapping [("spec", mapping [("type", scalar "object");
  ("properties", mapping [("accountId", string_schema); ("region", string_schema); ("etcd", mapping [("properties", mapping [("size", string_schema)])])])])])].
Definition cluster_crd : Node := mkNode DocumentNode "" [mapping [("kind", scalar "CustomResourceDefinition");
  ("spec", mapping [("versions", mkNode SequenceNode "" [mapping [("name", scalar "v1"); ("schema", mapping [("openAPIV3Schema", cluster_schema)])]])])]].
Definition cluster_fields : Registry :=
  [("spec.accountId", mkMeta ServiceSet "" true []); ("spec.region", mkMeta Mutable "" true []); ("spec.etcd", mkMeta Mutable "SeaplaneCustomDNS" false [])].

(** A hidden field is gone from every variant, a gated one from all but the last. *)
Example variants_differ : (fun v => (fun p => bool_decide (is_Some (head (findSchemaNodes v.2) ≫= (fun s => navigateTo s p)))) <$>
    [["spec"; "accountId"]; ["spec"; "region"]; ["spec"; "etcd"; "size"]]) <$> GenerateAllVariants (Some cluster_fields) cluster_crd =
  [[false; true; false]; [false; true; false]; [false; true; true]].
Proof. vm_compute. reflexivity. Qed.

Example strip_region : (fun n => (has_cel <$> navigateTo n ["spec"; "region"], has_cel <$> navigateTo n ["spec"; "accountId"])) <$>
    findSchemaNodes (StripCELFromSubtrees ["spec.region"] cluster_crd) = [(Some false, Some true)].
Proof. vm_compute. reflexivity. Qed.

(** A hidden field of the items of a list is gone; a hidden field called [properties] is
    shown, for it goes by the name of its parent. *)
Definition tagged_schema : Node := mapping [("type", scalar "object"); ("properties", mapping [("spec", mapping [("type", scalar "object");
  ("properties", mapping [("properties", mapping [("type", scalar "object"); ("additionalProperties", string_schema)]);
    ("routes", mapping [("type", scalar "array"); ("items", mapping [("properties", mapping [("host", string_schema); ("secret", string_schema)])])])])])])].
Example item_field_hidden : (fun p => bool_decide (is_Some (walk (filterCRDNode (Some [("spec.routes.secret", mkMeta ServiceSet "" true [])]) "Default" false "" tagged_schema) p))) <$>
    [[Property "spec"; Property "routes"; Items; Property "host"]; [Property "spec"; Property "routes"; Items; Property "secret"]] = [true; false].
Proof. vm_compute. reflexivity. Qed.
Example hidden_properties_shown : is_Some (walk (filterCRDNode (Some [("spec.properties", mkMeta ServiceSet "" true [])]) "Default" false "" tagged_schema)
    [Property "spec"; Property "properties"]).
Proof. vm_compute. by eexists. Qed.

(** A hidden field called [type] takes the keyword [type] of its parent's schema with it. *)
Definition typed_schema : Node := mapping [("properties", mapping [("platform", mapping [("type", scalar "object");
  ("properties", mapping [("type", string_schema); ("region", string_schema)])])])].
Example hidden_type_drops_keyword :
  n_Value <$> (walk typed_schema [Property "platform"] ≫= (fun n => mappingChild n "type")) = Some "object" ∧
  (walk (filterCRDNode (Some [("platform.type", mkMeta ServiceSet "" true [])]) "Default" false "" typed_schema) [Property "platform"] ≫= (fun n => mappingChild n "type")) = None.
Proof. vm_compute. done. Qed.

(** An unchanged immutable field of an update is refused all the same. *)
Example unchanged_immutable_refused :
  GenValidate [("Cluster", [("spec.type", mkMeta Immutable "" false [])])] (mkGenRequest true "Cluster" ["spec.type"] "Default" (Some ["spec.type"]) []) =
  [ImmutableField "spec.type"].
Proof. vm_compute. reflexivity. Qed.

End examples.
